(* ===== verification/_CoqProject ===== *)
-Q . S2P
Prelude.v
EventQueue.v
EventQueueSpec.v
EventQueueProof.v
EventQueueInv.v
EventQueueRun.v
EventQueueMisc.v
EventQueueTheorems.v
IntMath.v
IntMathTheorems.v
BPred.v
BPredHist.v
BPredUnit.v
BPredTheorems.v
Request.v
Packet.v
CacheTags.v
CacheTagsProof.v
CacheTagsTheorems.v
PacketTheorems.v
Rename.v
RenameProof.v
RenameTheorems.v
PhysMem.v
PhysMemTheorems.v
AlphaTLB.v
AlphaTLBProof.v
AlphaTLBTheorems.v
ChunkGenerator.v
PageTable.v
PageTableProof.v
PageTableTheorems.v
Ports.v
PortsProof.v
PortsTheorems.v
Mshr.v
MshrProof.v
MshrQueueProof.v
MshrQueueOps.v
MshrTheorems.v
Cache.v
CacheInv.v
CacheServe.v
CacheMiss.v
CacheFill.v
CacheAtomic.v
CacheTheorems.v
Rob.v
RobProof.v
RobTheorems.v
StoreSet.v
StoreSetTheorems.v
MemDep.v
MemDepProof.v
MemDepTheorems.v
FuPool.v
FuPoolTheorems.v
InstQueue.v
InstQueueProof.v
InstQueueTheorems.v
InstQueueRegs.v
InstQueueRegsProof.v
InstQueueRegsOps.v
InstQueueRegsTheorems.v
LsqUnit.v
LsqInv.v
LsqOps.v
LsqSend.v
LsqWriteback.v
LsqAccess.v
LsqForward.v
LsqExec.v
LsqRun.v
LsqTheorems.v
Lsq.v
RangeMap.v
Bridge.v
BridgeTheorems.v
Bus.v
BusTheorems.v
