(* ===== verification/Prelude.v ===== *)
(** * A verification development for the M5 simulator

    M5 simulates computer systems: discrete events drive CPU models, caches,
    memories and devices that exchange packets through ports.  This library
    models the simulation engine and the parts of the CPU and of the memory
    system that carry state worth an invariant, in the C++ sources under
    [src/]; file names below are relative to that directory.

    ** How the code is modelled

    Every routine is an executable function.  State is passed explicitly.  A
    routine that can end a run ([assert], [panic], [fatal]), read through a bad
    pointer, index out of range, overflow a signed type or divide by zero
    returns a [res]; each of these ends is a value of [fault] below.  Integers
    are [Z] with the wrap-around of their width written out ([uint w], [sint w]).
    Pointers that are shared are keys of a store (events, packets, miss
    registers, buffers of bytes); arrays are lists indexed by [vget] and [vset],
    which fail out of range.  Where storage is read before it is written the
    bytes it holds are an argument of the definition.  A loop that is not
    structurally recursive takes fuel and gives [OutOfFuel] without it; its bound
    is a definition beside it, and the theorems about the routine show that it
    returns, so that the bound is enough.

    ** The parts and their files

    - The engine.  [EventQueue] (Module [EvQ]): [sim/eventq.hh], [eventq.cc],
      [simulate.cc], [sim_events.cc] — events linked in bins of equal time and
      priority, [schedule], [deschedule], [reschedule], [serviceOne],
      [serviceEvents], the self check, checkpointing and the simulation loop.
      [EventQueueSpec] is the abstract queue, a sorted list of bins;
      [EventQueueProof], [EventQueueInv], [EventQueueRun], [EventQueueMisc] show
      that the linked lists implement it; [EventQueueTheorems] has the claims:
      each operation refines its abstract counterpart, the invariant holds in
      every reachable state, the event serviced is the earliest, the loop is safe
      for every handler that keeps to the interface [EventHandler] and ends for
      periodic events.
    - Arithmetic.  [IntMath], [IntMathTheorems]: [base/bitfield.hh],
      [base/intmath.hh], [intmath.cc], [sim/byteswap.hh].
    - Branch prediction.  [BPred] (saturating counter, local predictor, target
      buffer), [BPredHist] (return address stack, tournament predictor),
      [BPredUnit] (the unit of the out-of-order CPU with its history):
      [cpu/pred], [cpu/o3/bpred_unit_impl.hh].  [BPredTheorems]: the unit never
      fails, a squash undoes what the squashed predictions did, the return
      address stack is a bounded stack.
    - Renaming.  [Rename] (Modules [SimpleFreeList], [SimpleRenameMap],
      [Scoreboard], [Rename]): [cpu/o3/free_list.hh], [rename_map.cc],
      [scoreboard.cc], [rename_impl.hh] and the register set-up of [cpu.cc].
      [RenameTheorems]: every physical register is at all times in exactly one
      place, a squash restores the renaming, a source register names the last
      writer.
    - Retirement.  [Rob] (Modules [DynInst], [ROB], [Commit], [InstList]),
      [RobProof], [RobTheorems]: [cpu/o3/rob_impl.hh], the choice of the
      committing thread and the squashes of [commit_impl.hh], the instruction list
      of [cpu.cc] — each thread retires what it inserted in order, a squash marks
      exactly the younger instructions within a bounded number of cycles, and it
      does not end for a thread without instructions.
    - Memory dependences.  [StoreSet], [StoreSetTheorems]: [cpu/o3/store_set.cc]
      — the predictor never fails and learns a violation.  [MemDep] (class
      [MemDepPred] with its laws, Module [MemDepUnit]), [MemDepProof],
      [MemDepTheorems]: [cpu/o3/mem_dep_unit_impl.hh] over any predictor that
      keeps the laws, of which the store sets are shown to be one — no wake-up is
      lost; and a run in which a squashed barrier hides an older one.
    - Issue.  [FuPool] (Modules [FuncUnit], [FUPool]), [FuPoolTheorems]:
      [cpu/func_unit.cc], [cpu/o3/fu_pool.cc] — a unit has one holder.  [InstQueue]
      (Modules [DependencyGraph], [InstructionQueue]), [InstQueueProof],
      [InstQueueTheorems]: [cpu/o3/dep_graph.hh] and the ready queues of
      [cpu/o3/inst_queue_impl.hh] — issue goes by age, up to the units.
      [InstQueueRegs], [InstQueueRegsProof], [InstQueueRegsOps],
      [InstQueueRegsTheorems]: the rest of that file — an instruction waits in the
      chain of a register that is missing or has been handed on.
    - Loads and stores.  [LsqUnit] (Module [LSQUnit]): [cpu/o3/lsq_unit.hh],
      [lsq_unit_impl.hh] and the accesses of [cpu/base_dyn_inst.hh]; the data
      cache, the TLB and the locks of the ISA are an [Env], what the queue tells
      the other stages is a history.  [LsqInv] is the theory of the two circular
      queues and the invariant of a unit; [LsqOps], [LsqSend], [LsqWriteback],
      [LsqAccess] (class [EnvLaws], what the unit relies on), [LsqForward] and
      [LsqExec] show that each operation keeps it; [LsqRun] has the legal calls as
      steps, with a check of them that evaluates.  [LsqTheorems]: every legal run
      succeeds, a load sees the older stores in program order, stores reach the
      cache in that order once committed, a store finds the loads that went
      ahead, a squash takes exactly the younger; and runs in which unaligned
      accesses go wrong.  [Lsq] (Module [LSQ]): [cpu/o3/lsq.hh],
      [lsq_impl.hh] — the units of all threads; the guard of dispatch is enough
      unless the policy is dynamic, under which it is not.
    - Requests and packets.  [Request], [Packet] (Modules [Bytes], [MemCmd],
      [Packet]), [PacketTheorems]: [mem/request.hh], [mem/packet.hh],
      [packet.cc], [packet_access.hh].  A functional access copies exactly the
      bytes that overlap.
    - Caches.  [CacheTags] (Modules [CacheBlk], [CacheSet], [LRU]),
      [CacheTagsProof], [CacheTagsTheorems]: [mem/cache/blk.hh],
      [mem/cache/tags] — the victim is the block of its set used least recently,
      blocks are found again, load-locks.  [Mshr] (Modules [MSHR], [MSHRQueue]),
      [MshrProof], [MshrQueueProof], [MshrQueueOps], [MshrTheorems]:
      [mem/cache/mshr.cc], [mshr_queue.cc] and the calls that [cache_impl.hh]
      makes on them as a step relation — misses are served in order, the next
      request is the earliest, ownership and invalidations are respected, the
      recursion through the caches above ends.  [Cache] (Module [Cache]): the
      atomic path of [mem/cache/cache_impl.hh] over a peer that answers atomic
      requests (class [AtomicPeer]); [CacheInv] (the laws of the
      memory below, class [AtomicMemory], with physical memory as an instance,
      and the invariant), [CacheServe], [CacheMiss], [CacheFill],
      [CacheAtomic], [CacheTheorems] — a cache over a memory is a flat array of
      bytes to its CPU, nothing leaks; and two runs in which it is not, for a
      failed conditional swap and for load-locks of a replaced line.
    - Interconnect.  [RangeMap] (Modules [Range], [RangeMap], [RangeMapProof]):
      [base/range.hh], [range_ops.hh], [range_map.hh] — a map of disjoint ranges is
      exact for single addresses, and lets overlapping ranges in.  [Bridge] (Module
      [Bridge]), [BridgeTheorems]: [mem/bridge.cc] — under any traffic within the
      protocol no assertion fails and the limits hold, a bridge is a queue in each
      direction, responses go back to the senders of their requests, and the queues
      drain; a writeback that meets a full queue fails.  [Bus] (Module [Bus]),
      [BusTheorems]: [mem/bus.cc] — over peers that keep the laws [PeerLaws], after
      any set-up of ports with disjoint ranges, the uses of the bus do not overlap,
      ports that were refused are served in order and not overtaken, and addresses
      are routed exactly in spite of the caches; a bus that starts up between two
      cycles leaves a port waiting for ever.
    - Memory.  [PhysMem] (Modules [PhysicalMemory], [System]),
      [PhysMemTheorems]: [mem/physical.cc], [sim/system.cc] — an atomic access
      acts as on an array of bytes, with locked accesses and swaps.
    - Address translation.  [AlphaTLB], [AlphaTLBProof], [AlphaTLBTheorems]:
      [arch/alpha/tlb.cc], [pagetable.hh], [ev5.hh] — the TLB with its index and
      cache refines a table of entries.  [PageTable] (Modules [PageTable],
      [Process]), [PageTableProof], [PageTableTheorems]: [mem/page_table.cc],
      [sim/process.cc], [sim/syscall_emul.hh], the fault handlers of
      [arch/alpha/faults.cc] — no two addresses share a byte, a miss is resolved.
    - Access by the simulator.  [ChunkGenerator]: [base/chunk_generator.hh].
      [Ports] (class [Peer], Modules [Port], [TranslatingPort], [Syscall]),
      [PortsProof], [PortsTheorems]: [mem/port.cc], [mem/translating_port.cc],
      [brkFunc] — reads and writes through a port act on the virtual memory of
      the process.  They are proved against the laws [FunctionalMemory] of the
      device behind the port; physical memory is shown to satisfy them.

    Files named [*Theorems] hold the claims and, after each, a witness at
    concrete values.  This file holds what all share: the faults and the monad,
    integers of a width, arrays, and their lemmas, tactics and hints.

    ** Bounds

    Loops over linked lists are bounded by the number of cells of the heap, walks
    over sets and tables by their length, page loops by the number of pages of
    the region, the clearing of marks by the number of registers (each call clears
    one).  The simulation loop of a never-ending model has no bound: it takes
    fuel, its safety is shown for every fuel and its termination for handlers
    that reach the limit.  Counters are kept at their width, and the theorems say
    where a bound on them is needed (65535 targets of a miss register, for
    instance, is the width of their count; a load or store queue has at most 32767
    entries, since instructions keep their index in 16 bits).  The loops of the
    load/store queue are bounded by the length of its vectors, the loop with which a
    bus catches up with the time by how far it is behind.

    ** Not modelled

    Pure output and statistics (traces, [print], [regStats]); the Python side,
    configuration and parameters; host services (sockets, terminals, polling,
    remote debugging); generated code (instruction decoders, SLICC protocols).
    Of what has state: the fetch, decode and IEW stages of the CPU pipelines, the
    timing side and the snoops of caches, the replacement policies other than LRU, the
    prefetchers, Ruby, the DRAM model, devices, kernel models and the
    instruction sets other than the Alpha translation listed above are still
    to be done.  Events' [process] methods, the peer of a port and the host's
    random numbers and uninitialised storage are arguments of the model. *)
From stdpp Require Export base tactics numbers list option gmap strings.
From Stdlib Require Export ZArith Lia Sorted.

#[global] Set Default Goal Selector "!".
Open Scope Z_scope.

(** ** Faults and the result monad

    [assert], [panic] and [fatal] end an M5 run; reading through a null or
    dangling pointer, overflowing a signed type and dividing by zero are
    undefined.  Each of these is a value of [fault], and a routine that can end in one returns a [res].  [OutOfFuel] is the value a
    bounded loop gives when its bound is exhausted; the termination theorems
    show which bounds never give it. *)
Inductive fault : Type :=
| AssertFail
| Panic
| Fatal
| BadPointer
| OutOfRange
| Overflow
| DivByZero
| OutOfFuel.

#[export] Instance fault_eq_dec : EqDecision fault.
Proof. solve_decision. Defined.

Inductive res (A : Type) : Type :=
| Ok (a : A)
| Er (f : fault).
Arguments Ok {A} a.
Arguments Er {A} f.

#[export] Instance res_ret : MRet res := fun A a => Ok a.
#[export] Instance res_bind : MBind res := fun A B k m =>
  match m with Ok a => k a | Er f => Er f end.
#[export] Instance res_fmap : FMap res := fun A B g m =>
  match m with Ok a => Ok (g a) | Er f => Er f end.

#[export] Instance res_eq_dec {A} `{EqDecision A} : EqDecision (res A).
Proof. solve_decision. Defined.

(** [assert(c)] of the C++ code. *)
Definition c_assert (c : bool) : res () := if c then Ok () else Er AssertFail.

(** Reading an optional value where the C++ code would dereference it. *)
Definition deref {A} (o : option A) : res A :=
  match o with Some a => Ok a | None => Er BadPointer end.

(** [v[i]] on an array that the C++ code indexes without a check. *)
Definition at_index {A} (o : option A) : res A :=
  match o with Some a => Ok a | None => Er OutOfRange end.

Lemma res_bind_Ok {A B} (m : res A) (k : A -> res B) b :
  m ≫= k = Ok b <-> exists a, m = Ok a /\ k a = Ok b.
Proof. destruct m as [a|f]; simpl; naive_solver. Qed.

Lemma bind_Ok {A B} (a : A) (k : A -> res B) : Ok a ≫= k = k a.
Proof. done. Qed.

(** Executes [Ok a ≫= k] without unfolding anything else. *)
Ltac bind_step := rewrite bind_Ok; cbv beta iota.

Lemma c_assert_Ok c u : c_assert c = Ok u <-> c = true.
Proof. destruct c, u; simpl; naive_solver. Qed.

Lemma deref_Ok {A} (o : option A) a : deref o = Ok a <-> o = Some a.
Proof. destruct o; simpl; naive_solver. Qed.

Lemma at_index_Ok {A} (o : option A) a : at_index o = Ok a <-> o = Some a.
Proof. destruct o; simpl; naive_solver. Qed.

(** [inv_res H] splits a hypothesis [... = Ok _] about a sequence of [res]
    steps into one equation per step. *)
Ltac inv_res_step :=
  match goal with
  | H : Ok _ = Ok _ |- _ => injection H as H; try subst
  | H : Er _ = Ok _ |- _ => discriminate H
  | H : mret _ = Ok _ |- _ => unfold mret, res_ret in H
  | H : _ ≫= _ = Ok _ |- _ =>
      apply res_bind_Ok in H; destruct H as (? & ? & H)
  | H : c_assert _ = Ok _ |- _ => apply c_assert_Ok in H
  | H : deref _ = Ok _ |- _ => apply deref_Ok in H
  | H : at_index _ = Ok _ |- _ => apply at_index_Ok in H
  end.
Ltac inv_res := repeat (inv_res_step; simpl in *).

(** ** Machine integers

    A [w]-bit unsigned value is a [Z] in [0, 2^w); [uint w] is the conversion
    that C++ applies on assignment, [sint w] the one to the signed type. *)
Definition uint (w x : Z) : Z := x mod 2 ^ w.
Definition sint (w x : Z) : Z := (x + 2 ^ (w - 1)) mod 2 ^ w - 2 ^ (w - 1).

Abbreviation u8 := (uint 8).
Abbreviation u16 := (uint 16).
Abbreviation u32 := (uint 32).
Abbreviation u64 := (uint 64).

Lemma uint_range w x : 0 <= w -> 0 <= uint w x < 2 ^ w.
Proof. intros. apply Z.mod_pos_bound, Z.pow_pos_nonneg; lia. Qed.

Lemma uint_small w x : 0 <= x < 2 ^ w -> uint w x = x.
Proof. apply Z.mod_small. Qed.

Lemma uint_idem w x : 0 <= w -> uint w (uint w x) = uint w x.
Proof. intros. apply uint_small, uint_range; lia. Qed.

Lemma sint_small w x : 0 < w -> - 2 ^ (w - 1) <= x < 2 ^ (w - 1) -> sint w x = x.
Proof.
  intros Hw Hx. unfold sint. rewrite Z.mod_small; [lia|].
  assert (2 ^ w = 2 * 2 ^ (w - 1)) as ->; [|lia].
  rewrite <- Z.pow_succ_r by lia. f_equal. lia.
Qed.

Lemma sint_wrap w x :
  0 < w -> 2 ^ (w - 1) <= x < 2 ^ w + 2 ^ (w - 1) -> sint w x = x - 2 ^ w.
Proof.
  intros Hw Hx. unfold sint.
  assert (2 ^ w = 2 * 2 ^ (w - 1)) as E.
  { rewrite <- Z.pow_succ_r by lia. f_equal. lia. }
  replace (x + 2 ^ (w - 1)) with (x + 2 ^ (w - 1) - 2 ^ w + 1 * 2 ^ w) by lia.
  rewrite Z.mod_add by lia. rewrite Z.mod_small; lia.
Qed.

Lemma sint_range w x : 0 < w -> - 2 ^ (w - 1) <= sint w x < 2 ^ (w - 1).
Proof.
  intros Hw. unfold sint.
  assert (2 ^ w = 2 * 2 ^ (w - 1)) as E.
  { rewrite <- Z.pow_succ_r by lia. f_equal. lia. }
  pose proof (Z.mod_pos_bound (x + 2 ^ (w - 1)) (2 ^ w)).
  assert (0 < 2 ^ w) by (apply Z.pow_pos_nonneg; lia). lia.
Qed.

(** ** Arrays

    [v[i]] and [v[i] = x] on an array or [std::vector] indexed by an integer;
    an index outside the array is a fault. *)
Definition vget {A} (l : list A) (i : Z) : res A :=
  if 0 <=? i then at_index (l !! Z.to_nat i) else Er OutOfRange.
Definition vset {A} (l : list A) (i : Z) (x : A) : res (list A) :=
  if (0 <=? i) && (i <? Z.of_nat (length l)) then Ok (<[Z.to_nat i := x]> l) else Er OutOfRange.

Lemma vget_Ok {A} (l : list A) i x :
  vget l i = Ok x <-> 0 <= i /\ l !! Z.to_nat i = Some x.
Proof.
  unfold vget. destruct (Z.leb_spec 0 i).
  - rewrite at_index_Ok. naive_solver.
  - split; [done|lia].
Qed.

Lemma vget_lt {A} (l : list A) i :
  0 <= i < Z.of_nat (length l) -> exists x, vget l i = Ok x /\ l !! Z.to_nat i = Some x.
Proof.
  intros Hi. destruct (lookup_lt_is_Some_2 l (Z.to_nat i)) as [x Hx]; [lia|].
  exists x. split; [apply vget_Ok; split; [lia|done]|done].
Qed.

Lemma vset_lt {A} (l : list A) i x :
  0 <= i < Z.of_nat (length l) -> vset l i x = Ok (<[Z.to_nat i := x]> l).
Proof.
  intros Hi. unfold vset.
  by replace ((0 <=? i) && (i <? Z.of_nat (length l))) with true by lia.
Qed.

Lemma vset_Ok {A} (l l' : list A) i x :
  vset l i x = Ok l' <->
  0 <= i < Z.of_nat (length l) /\ l' = <[Z.to_nat i := x]> l.
Proof.
  unfold vset. destruct (_ && _) eqn:E.
  - split; [intros [= <-]|intros [_ ->]]; [|done]. split; [lia|done].
  - split; [done|lia].
Qed.

Lemma vget_insert_eq {A} (l : list A) i x :
  0 <= i < Z.of_nat (length l) -> vget (<[Z.to_nat i := x]> l) i = Ok x.
Proof. intros Hi. apply vget_Ok. split; [lia|]. apply list_lookup_insert_eq. lia. Qed.

Lemma vget_insert_ne {A} (l : list A) i j x :
  0 <= i -> 0 <= j -> i <> j -> vget (<[Z.to_nat i := x]> l) j = vget l j.
Proof.
  intros Hi Hj Hne. unfold vget. destruct (0 <=? j); [|done].
  rewrite list_lookup_insert_ne; [done|lia].
Qed.

Lemma Forall_vget {A} (P : A -> Prop) l i x : Forall P l -> vget l i = Ok x -> P x.
Proof. intros Hl [_ Hx]%vget_Ok. by eapply Forall_lookup_1. Qed.

(** ** Lists *)
Lemma filter_all {A} (P : A -> Prop) `{forall x, Decision (P x)} (l : list A) :
  (forall x, x ∈ l -> P x) -> filter P l = l.
Proof.
  induction l as [|x l IH]; intros Hl; [done|]. rewrite filter_cons_True by (apply Hl; set_solver).
  f_equal. apply IH. set_solver.
Qed.

Lemma forall_sublist {A} (P : A -> Prop) l k : k `sublist_of` l -> Forall P l -> Forall P k.
Proof. intros Hs. rewrite !Forall_forall. intros Hl x Hx. apply Hl. by eapply elem_of_sublist. Qed.
Lemma strongly_sorted_sublist {A} (R : A -> A -> Prop) l k : k `sublist_of` l -> StronglySorted R l -> StronglySorted R k.
Proof.
  induction 1 as [|x k l Hs IH|x k l Hs IH]; intros Hl; [done|..]; apply StronglySorted_inv in Hl as [Hl Hx]; [|by apply IH].
  apply SSorted_cons; [by apply IH|]. by eapply forall_sublist.
Qed.
Lemma strongly_sorted_filter {A} (R : A -> A -> Prop) (p : A -> Prop) `{forall x, Decision (p x)} l : StronglySorted R l -> StronglySorted R (filter p l).
Proof. apply strongly_sorted_sublist, sublist_filter. Qed.

Lemma elem_of_map {A B} (f : A -> B) l y :
  y ∈ map f l <-> exists x, y = f x /\ x ∈ l.
Proof.
  rewrite list_elem_of_In, in_map_iff.
  split; intros (x & H1 & H2); exists x; [rewrite list_elem_of_In|rewrite list_elem_of_In in H2];
    naive_solver.
Qed.

Lemma elem_of_concat {A} (ls : list (list A)) x :
  x ∈ concat ls <-> exists l, l ∈ ls /\ x ∈ l.
Proof.
  rewrite list_elem_of_In, in_concat.
  split; intros (l & H1 & H2); exists l.
  - by rewrite !list_elem_of_In.
  - apply list_elem_of_In in H1. by apply list_elem_of_In in H2.
Qed.
