(* ===== verification/EventQueue.v ===== *)
(** * The event queue ([src/sim/eventq.hh], [src/sim/eventq.cc])

    The queue is the linked list of linked lists of the source, on an explicit
    heap of [Event] objects: [nextBin] links the tops of the bins in time
    order, [nextInBin] links the stack of events of one bin, and the [nextBin]
    of an event below the top of its bin may be stale.  [EventQueueSpec] gives
    the abstract queue and [EventQueueProof] the refinement. *)
From S2P Require Import Prelude.

Module EvQ.

(** ** Flags ([Event::FlagsType], a [short]) *)
Definition PublicRead := 0x3f.
Definition PublicWrite := 0x1d.
Definition Squashed := 0x1.
Definition Scheduled := 0x2.
Definition AutoDelete := 0x4.
Definition AutoSerialize := 0x8.
Definition IsExitEvent := 0x10.
Definition IsMainQueue := 0x20.
Definition Initialized := 0x7a40.
(** [0xffc0] converted to [short]. *)
Definition InitMask := sint 16 0xffc0.

(** [Flags<T>] of [src/base/flags.hh]. *)
Definition isSet (fl f : Z) : bool := negb (Z.land fl f =? 0).
Definition noneSet (fl f : Z) : bool := Z.land fl f =? 0.
Definition clear (fl f : Z) : Z := Z.land fl (Z.lnot f).
Definition set (fl f : Z) : Z := Z.lor fl f.

(** ** Ticks and priorities *)
Definition MaxTick := 0x7fffffffffffffff.
Definition Minimum_Pri := -128.
Definition Default_Pri := 0.
Definition CPU_Tick_Pri := 50.
Definition Sim_Exit_Pri := 100.
Definition Maximum_Pri := 127.

(** ** Events *)
Record Event := mkEvent {
  nextBin : option positive;
  nextInBin : option positive;
  _when : Z;
  _priority : Z;
  flags : Z
}.

Definition set_nextBin (p : option positive) (e : Event) : Event :=
  mkEvent p (nextInBin e) (_when e) (_priority e) (flags e).
Definition set_nextInBin (p : option positive) (e : Event) : Event :=
  mkEvent (nextBin e) p (_when e) (_priority e) (flags e).
Definition setWhen (t : Z) (e : Event) : Event :=
  mkEvent (nextBin e) (nextInBin e) t (_priority e) (flags e).
Definition upd_flags (f : Z -> Z) (e : Event) : Event :=
  mkEvent (nextBin e) (nextInBin e) (_when e) (_priority e) (f (flags e)).

(** The constructor [Event(Priority p)]; [_when] is not initialised there, so
    it is an argument. *)
Definition Event_new (garbage p : Z) : Event := mkEvent None None garbage p Initialized.

(** The constructor of [SimLoopExitEvent] ([src/sim/sim_events.cc]). *)
Definition SimLoopExitEvent_new (garbage : Z) : Event :=
  upd_flags (fun f => set f IsExitEvent) (Event_new garbage Sim_Exit_Pri).

Definition initialized (e : Event) : bool := Z.land (flags e) InitMask =? Initialized.
Definition scheduled (e : Event) : bool := isSet (flags e) Scheduled.
Definition squashed (e : Event) : bool := isSet (flags e) Squashed.
Definition isExitEvent (e : Event) : bool := isSet (flags e) IsExitEvent.

(** [operator<], [operator<=] and [operator==] on events. *)
Definition ev_lt (l r : Event) : bool :=
  (_when l <? _when r) || ((_when l =? _when r) && (_priority l <? _priority r)).
Definition ev_le (l r : Event) : bool :=
  (_when l <? _when r) || ((_when l =? _when r) && (_priority l <=? _priority r)).
Definition ev_eq (l r : Event) : bool :=
  (_when l =? _when r) && (_priority l =? _priority r).

(** ** The heap and the queue *)
Abbreviation heap := (gmap positive Event).

Definition load (h : heap) (p : positive) : res Event := deref (h !! p).

(** [p->f = v] for a field update [g]. *)
Definition store (h : heap) (p : positive) (g : Event -> Event) : res heap :=
  e ← load h p; Ok (<[p := g e]> h).

(** [Event::insertBefore]. *)
Definition insertBefore (h : heap) (event : positive) (curr : option positive)
    : res (heap * positive) :=
  ev ← load h event;
  match curr with
  | None =>
      h ← store h event (set_nextBin curr);
      h ← store h event (set_nextInBin None);
      Ok (h, event)
  | Some c =>
      cv ← load h c;
      if ev_lt ev cv then
        h ← store h event (set_nextBin curr);
        h ← store h event (set_nextInBin None);
        Ok (h, event)
      else
        h ← store h event (set_nextBin (nextBin cv));
        h ← store h event (set_nextInBin curr);
        Ok (h, event)
  end.

(** The loop [while (curr && *curr < *event)] of [insert] and [remove]. *)
Fixpoint find_bin (fuel : nat) (h : heap) (ev : Event)
    (prev : positive) (curr : option positive) : res (positive * option positive) :=
  match curr with
  | None => Ok (prev, None)
  | Some c =>
      cv ← load h c;
      if ev_lt cv ev then
        match fuel with
        | O => Er OutOfFuel
        | S fuel => find_bin fuel h ev c (nextBin cv)
        end
      else Ok (prev, Some c)
  end.

(** [EventQueue::insert]: new heap and new head. *)
Definition insert (h : heap) (head : option positive) (event : positive)
    : res (heap * option positive) :=
  ev ← load h event;
  match head with
  | None =>
      '(h, e) ← insertBefore h event head; Ok (h, Some e)
  | Some hd =>
      hv ← load h hd;
      if ev_le ev hv then
        '(h, e) ← insertBefore h event head; Ok (h, Some e)
      else
        '(prev, curr) ← find_bin (size h) h ev hd (nextBin hv);
        '(h, e) ← insertBefore h event curr;
        h ← store h prev (set_nextBin (Some e));
        Ok (h, head)
  end.

(** The loop [while (event != next)] of [Event::removeItem]. *)
Fixpoint find_in_bin (fuel : nat) (h : heap) (event curr : positive)
    (next : option positive) : res (positive * positive) :=
  match next with
  | None => Er Panic
  | Some n =>
      if decide (n = event) then Ok (curr, n)
      else
        match fuel with
        | O => Er OutOfFuel
        | S fuel => nv ← load h n; find_in_bin fuel h event n (nextInBin nv)
        end
  end.

(** [Event::removeItem]. *)
Definition removeItem (h : heap) (event top : positive) : res (heap * option positive) :=
  tv ← load h top;
  if decide (event = top) then
    match nextInBin tv with
    | None => Ok (h, nextBin tv)
    | Some next =>
        h ← store h next (set_nextBin (nextBin tv));
        Ok (h, Some next)
    end
  else
    '(curr, next) ← find_in_bin (size h) h event top (nextInBin tv);
    nv ← load h next;
    h ← store h curr (set_nextInBin (nextInBin nv));
    Ok (h, Some top).

(** [EventQueue::remove]. *)
Definition remove (h : heap) (head : option positive) (event : positive)
    : res (heap * option positive) :=
  match head with
  | None => Er Panic
  | Some hd =>
      hv ← load h hd;
      ev ← load h event;
      if ev_eq hv ev then removeItem h event hd
      else
        '(prev, curr) ← find_bin (size h) h ev hd (nextBin hv);
        match curr with
        | None => Er Panic
        | Some c =>
            cv ← load h c;
            if negb (ev_eq cv ev) then Er Panic
            else
              '(h, top) ← removeItem h event c;
              h ← store h prev (set_nextBin top);
              Ok (h, head)
        end
  end.

(** ** The queue operations

    [qmain] says whether the queue is [mainEventQueue]; [curTick] is the
    global simulated time. *)
Record queue := mkQueue {
  events : heap;
  head : option positive;
  qmain : bool;
  curTick : Z
}.

Definition upd_links (q : queue) (r : heap * option positive) : queue :=
  mkQueue r.1 r.2 (qmain q) (curTick q).
Definition upd_heap (q : queue) (h : heap) : queue :=
  mkQueue h (head q) (qmain q) (curTick q).
Definition set_curTick (t : Z) (q : queue) : queue :=
  mkQueue (events q) (head q) (qmain q) t.

Definition mark_main (q : queue) (e : Event) : Event :=
  if qmain q then upd_flags (fun f => set f IsMainQueue) e
  else upd_flags (fun f => clear f IsMainQueue) e.

(** [EventQueue::schedule]; the first assertion compares [UTick]s. *)
Definition schedule (event : positive) (when : Z) (q : queue) : res queue :=
  _ ← c_assert (u64 (curTick q) <=? u64 when);
  ev ← load (events q) event;
  _ ← c_assert (negb (scheduled ev));
  _ ← c_assert (initialized ev);
  h ← store (events q) event (setWhen when);
  r ← insert h (head q) event;
  let q := upd_links q r in
  h ← store (events q) event (upd_flags (fun f => set f Scheduled));
  h ← store h event (mark_main q);
  Ok (upd_heap q h).

(** [delete event], with the assertion of [Event::~Event]. *)
Definition delete_event (event : positive) (h : heap) : res heap :=
  ev ← load h event;
  _ ← c_assert (negb (scheduled ev));
  Ok (delete event h).

(** [EventQueue::deschedule]. *)
Definition deschedule (event : positive) (q : queue) : res queue :=
  ev ← load (events q) event;
  _ ← c_assert (scheduled ev);
  _ ← c_assert (initialized ev);
  r ← remove (events q) (head q) event;
  let q := upd_links q r in
  h ← store (events q) event (upd_flags (fun f => clear f Squashed));
  h ← store h event (upd_flags (fun f => clear f Scheduled));
  ev ← load h event;
  if isSet (flags ev) AutoDelete then
    h ← delete_event event h; Ok (upd_heap q h)
  else Ok (upd_heap q h).

(** [EventQueue::reschedule]; here the assertion compares [Tick]s. *)
Definition reschedule (event : positive) (when : Z) (always : bool) (q : queue)
    : res queue :=
  _ ← c_assert (curTick q <=? when);
  ev ← load (events q) event;
  _ ← c_assert (always || scheduled ev);
  _ ← c_assert (initialized ev);
  r ← (if scheduled ev then remove (events q) (head q) event
       else Ok (events q, head q));
  let q := upd_links q r in
  h ← store (events q) event (setWhen when);
  r ← insert h (head q) event;
  let q := upd_links q r in
  h ← store (events q) event (upd_flags (fun f => clear f Squashed));
  h ← store h event (upd_flags (fun f => set f Scheduled));
  h ← store h event (mark_main q);
  Ok (upd_heap q h).

(** [EventQueue::empty], [nextTick] and [nextEventTime]. *)
Definition empty_queue (q : queue) : bool :=
  match head q with None => true | Some _ => false end.
Definition nextTick (q : queue) : res Z :=
  hd ← deref (head q); hv ← load (events q) hd; Ok (_when hv).
Definition nextEventTime (q : queue) : res Z :=
  if empty_queue q then Ok (curTick q) else nextTick q.

(** ** Self check

    [EventQueue::debugVerify]: the inner loop over one bin and the outer loop
    over the bins.  [None] is the [return false] of the code; [seen] is the
    hash map of visited nodes. *)
Fixpoint verify_bin (fuel : nat) (h : heap) (p : option positive)
    (time priority : Z) (seen : gset positive)
    : res (option (Z * Z * gset positive)) :=
  match p with
  | None => Ok (Some (time, priority, seen))
  | Some e =>
      ev ← load h e;
      if _when ev <? time then Ok None
      else if (_when ev =? time) && (_priority ev <? priority) then Ok None
      else if decide (e ∈ seen) then Ok None
      else
        match fuel with
        | O => Er OutOfFuel
        | S fuel =>
            verify_bin fuel h (nextInBin ev) (_when ev) (_priority ev) ({[e]} ∪ seen)
        end
  end.

Fixpoint verify_bins (fuel : nat) (h : heap) (p : option positive)
    (time priority : Z) (seen : gset positive) : res bool :=
  match p with
  | None => Ok true
  | Some e =>
      r ← verify_bin (size h) h (Some e) time priority seen;
      match r with
      | None => Ok false
      | Some (time, priority, seen) =>
          ev ← load h e;
          match fuel with
          | O => Er OutOfFuel
          | S fuel => verify_bins fuel h (nextBin ev) time priority seen
          end
      end
  end.

Definition debugVerify (q : queue) : res bool :=
  verify_bins (size (events q)) (events q) (head q) 0 0 ∅.

(** ** Checkpointing

    A [saved] event is the section that [Event::serialize] writes under the
    event's name; the address stands for the name. *)
Record saved := mkSaved { sv_name : positive; sv_when : Z; sv_priority : Z; sv_flags : Z }.

Definition Event_serialize (h : heap) (p : positive) : res saved :=
  ev ← load h p; Ok (mkSaved p (_when ev) (_priority ev) (flags ev)).

(** The nested loops of [EventQueue::serialize] collect the [AutoSerialize]
    events in list order. *)
Fixpoint collect_bin (fuel : nat) (h : heap) (p : option positive) : res (list positive) :=
  match p with
  | None => Ok []
  | Some e =>
      ev ← load h e;
      match fuel with
      | O => Er OutOfFuel
      | S fuel =>
          l ← collect_bin fuel h (nextInBin ev);
          Ok (if isSet (flags ev) AutoSerialize then e :: l else l)
      end
  end.

Fixpoint collect_bins (fuel : nat) (h : heap) (p : option positive) : res (list positive) :=
  match p with
  | None => Ok []
  | Some e =>
      l ← collect_bin (size h) h (Some e);
      ev ← load h e;
      match fuel with
      | O => Er OutOfFuel
      | S fuel => l' ← collect_bins fuel h (nextBin ev); Ok (l ++ l')
      end
  end.

Fixpoint mapR {A B} (f : A -> res B) (l : list A) : res (list B) :=
  match l with
  | [] => Ok []
  | a :: l => b ← f a; bs ← mapR f l; Ok (b :: bs)
  end.

Definition EventQueue_serialize (q : queue) : res (list saved) :=
  ps ← collect_bins (size (events q)) (events q) (head q);
  mapR (Event_serialize (events q)) ps.

(** [Event::unserialize] on the object [this]. *)
Definition Event_unserialize (this : positive) (sv : saved) (q : queue) : res queue :=
  ev ← load (events q) this;
  q ← (if scheduled ev then deschedule this q else Ok q);
  h ← store (events q) this (fun ev =>
        mkEvent (nextBin ev) (nextInBin ev) (sv_when sv) (sv_priority sv) (sv_flags sv));
  let wasScheduled := isSet (sv_flags sv) Scheduled && negb (isSet (sv_flags sv) Squashed) in
  h ← store h this (upd_flags (fun f => clear f (Z.lor Squashed Scheduled)));
  if wasScheduled then schedule this (sv_when sv) (upd_heap q h) else Ok (upd_heap q h).

(** [EventQueue::unserialize]: [Serializable::create] makes each object anew
    and unserializes it, in the order of the checkpoint. *)
Fixpoint EventQueue_unserialize (svs : list saved) (q : queue) : res queue :=
  match svs with
  | [] => Ok q
  | sv :: svs =>
      let h := <[sv_name sv := Event_new 0 Default_Pri]> (events q) in
      q ← Event_unserialize (sv_name sv) sv (upd_heap q h);
      EventQueue_unserialize svs q
  end.

(** [SimLoopExitEvent::process] ([src/sim/sim_events.cc]) on the main queue.
    On another queue the method schedules a fresh exit event on the main one,
    deletes [this] and then reads [repeat] from the freed object. *)
Definition SimLoopExitEvent_process (repeat : Z) (this : positive) (q : queue) : res queue :=
  ev ← load (events q) this;
  if negb (isSet (flags ev) IsMainQueue) then Er BadPointer
  else if repeat =? 0 then Ok q
  else schedule this (sint 64 (curTick q + repeat)) q.

(** ** Dispatch

    [process] stands for the virtual method [Event::process] of the subclass
    of each event; it may call any of the operations above. *)
Section dispatch.
Context (process : positive -> queue -> res queue).

(** The part of [EventQueue::serviceOne] before the event is handled. *)
Definition pop_head (q : queue) : res (positive * queue) :=
  event ← deref (head q);
  hv ← load (events q) event;
  let next := nextInBin hv in
  h ← store (events q) event (upd_flags (fun f => clear f Scheduled));
  match next with
  | Some n =>
      h ← store h n (set_nextBin (nextBin hv));
      Ok (event, mkQueue h (Some n) (qmain q) (curTick q))
  | None => Ok (event, mkQueue h (nextBin hv) (qmain q) (curTick q))
  end.

Definition auto_delete (event : positive) (q : queue) : res queue :=
  ev ← load (events q) event;
  if isSet (flags ev) AutoDelete && negb (scheduled ev) then
    h ← delete_event event (events q); Ok (upd_heap q h)
  else Ok q.

(** [EventQueue::serviceOne]: the exit event, if the serviced event is one. *)
Definition serviceOne (q : queue) : res (option positive * queue) :=
  '(event, q) ← pop_head q;
  ev ← load (events q) event;
  if negb (squashed ev) then
    q ← process event q;
    ev ← load (events q) event;
    if isExitEvent ev then
      _ ← c_assert (negb (isSet (flags ev) AutoDelete));
      Ok (Some event, q)
    else q ← auto_delete event q; Ok (None, q)
  else
    h ← store (events q) event (upd_flags (fun f => clear f Squashed));
    q ← auto_delete event (upd_heap q h); Ok (None, q).

(** [EventQueue::serviceEvents(when)]. *)
Fixpoint serviceEvents (fuel : nat) (when : Z) (q : queue) : res queue :=
  if empty_queue q then Ok q
  else
    t ← nextTick q;
    if when <? t then Ok q
    else
      match fuel with
      | O => Er OutOfFuel
      | S fuel => '(_, q) ← serviceOne q; serviceEvents fuel when q
      end.

(** The loop of [simulate] in [src/sim/simulate.cc], for a run in which no
    asynchronous signal is pending; the trace lists the times at which
    events were serviced.  [limit] is the limit event and [is_exit_class]
    the [dynamic_cast] to [SimLoopExitEvent]. *)
Context (is_exit_class : positive -> bool).

Fixpoint simulate_loop (fuel : nat) (limit : positive) (q : queue)
    : res (positive * queue * list Z) :=
  _ ← c_assert (negb (empty_queue q));
  t ← nextTick q;
  _ ← c_assert (curTick q <=? t);
  '(exit_event, q) ← serviceOne (set_curTick t q);
  match exit_event with
  | Some se =>
      if negb (is_exit_class se) then Er Panic
      else if decide (se = limit) then Ok (se, q, [t])
      else
        lv ← load (events q) limit;
        _ ← c_assert (scheduled lv);
        h ← store (events q) limit (upd_flags (fun f => set f Squashed));
        Ok (se, upd_heap q h, [t])
  | None =>
      match fuel with
      | O => Er OutOfFuel
      | S fuel =>
          '(se, q, ts) ← simulate_loop fuel limit q; Ok (se, q, t :: ts)
      end
  end.

(** [simulate(num_cycles)]; [limit] is the address [new] returns. *)
Definition simulate (fuel : nat) (limit : positive) (garbage num_cycles : Z)
    (q : queue) : res (positive * queue * list Z) :=
  if num_cycles <? 0 then Er Fatal
  else
    let until :=
      if sint 64 (curTick q + num_cycles) <? 0 then MaxTick
      else curTick q + num_cycles in
    let ev := SimLoopExitEvent_new garbage in
    q ← schedule limit until (upd_heap q (<[limit := ev]> (events q)));
    simulate_loop fuel limit q.
End dispatch.

End EvQ.
