(* ===== verification/EventQueueSpec.v ===== *)
(** * The abstract event queue

    A queue is a list of bins in strictly increasing order of (time, priority);
    a bin is the stack of the events scheduled for that time and priority. *)
From Stdlib Require Export Sorted.
From S2P Require Import Prelude EventQueue.
Import EvQ.

Abbreviation key := (Z * Z)%type.
Abbreviation bins := (list (key * list positive)).

Definition ev_key (e : Event) : key := (_when e, _priority e).

(** Lexicographic order on (time, priority). *)
Definition klt (a b : key) : Prop := a.1 < b.1 \/ a.1 = b.1 /\ a.2 < b.2.
Definition kle (a b : key) : Prop := klt a b \/ a = b.

#[export] Instance klt_dec a b : Decision (klt a b).
Proof. unfold klt. apply _. Defined.
#[export] Instance kle_dec a b : Decision (kle a b).
Proof. unfold kle. apply _. Defined.

Lemma klt_trans a b c : klt a b -> klt b c -> klt a c.
Proof. unfold klt. lia. Qed.
Lemma klt_irrefl a : ~ klt a a.
Proof. unfold klt. lia. Qed.
Lemma klt_trichotomy a b : klt a b \/ a = b \/ klt b a.
Proof.
  destruct a as [x y], b as [x' y']; unfold klt; simpl.
  destruct (Z.lt_total x x') as [|[->|]], (Z.lt_total y y') as [|[->|]]; auto.
Qed.
Lemma kle_not_klt a b : kle a b <-> ~ klt b a.
Proof.
  split.
  - intros [H| ->]; [|apply klt_irrefl].
    intros H'. exact (klt_irrefl _ (klt_trans _ _ _ H H')).
  - intros H. destruct (klt_trichotomy a b) as [|[|]]; unfold kle; tauto.
Qed.
Lemma kle_klt_trans a b c : kle a b -> klt b c -> klt a c.
Proof. intros [H| ->]; [|done]. by apply klt_trans. Qed.
Lemma kle_trans a b c : kle a b -> kle b c -> kle a c.
Proof. intros [H| ->] [H'| ->]; unfold kle; eauto using klt_trans. Qed.
#[export] Instance klt_Transitive : Transitive klt := klt_trans.
#[export] Instance kle_Transitive : Transitive kle := kle_trans.

Create HintDb evq.
#[export] Hint Resolve klt_trans kle_klt_trans : evq.
#[export] Hint Unfold kle : evq.

(** ** The operations *)
Fixpoint spec_insert (k : key) (e : positive) (bs : bins) : bins :=
  match bs with
  | [] => [(k, [e])]
  | (k', b) :: bs' =>
      if decide (klt k k') then (k, [e]) :: bs
      else if decide (k = k') then (k', e :: b) :: bs'
      else (k', b) :: spec_insert k e bs'
  end.

Definition remove_from (e : positive) (b : list positive) : list positive :=
  filter (fun x => x <> e) b.

Fixpoint spec_remove (k : key) (e : positive) (bs : bins) : bins :=
  match bs with
  | [] => []
  | (k', b) :: bs' =>
      if decide (k = k') then
        match remove_from e b with
        | [] => bs'
        | b' => (k', b') :: bs'
        end
      else (k', b) :: spec_remove k e bs'
  end.

Definition spec_pop (bs : bins) : option (positive * bins) :=
  match bs with
  | (k, e :: []) :: bs' => Some (e, bs')
  | (k, e :: e' :: b) :: bs' => Some (e, (k, e' :: b) :: bs')
  | _ => None
  end.

(** The queue in the order in which events will be serviced. *)
Definition flatten (bs : bins) : list positive := concat (map snd bs).
Definition flatten_keys (bs : bins) : list (key * positive) :=
  concat (map (fun '(k, b) => map (fun x : positive => (k, x)) b) bs).

(** Well-formed abstract queues: strictly increasing keys, no empty bin, no
    event twice. *)
Record bins_ok (bs : bins) : Prop := {
  bins_sorted : StronglySorted klt (map fst bs);
  bins_nonempty : Forall (fun kb => kb.2 <> []) bs;
  bins_nodup : NoDup (flatten bs)
}.

Lemma flatten_cons k b bs : flatten ((k, b) :: bs) = b ++ flatten bs.
Proof. done. Qed.

Lemma elem_of_flatten e bs : e ∈ flatten bs <-> exists k b, (k, b) ∈ bs /\ e ∈ b.
Proof.
  unfold flatten. rewrite elem_of_concat. setoid_rewrite elem_of_map. split.
  - intros (? & ([k b] & -> & Hin) & He). by exists k, b.
  - intros (k & b & Hin & He). exists b. split; [by exists (k, b)|done].
Qed.

Lemma elem_of_keys (k : key) (b : list positive) (bs : bins) :
  (k, b) ∈ bs -> k ∈ map fst bs.
Proof. intros Hin. apply elem_of_map. by exists (k, b). Qed.

Lemma fst_spec_insert k e bs x :
  x ∈ map fst (spec_insert k e bs) <-> x = k \/ x ∈ map fst bs.
Proof.
  induction bs as [|[k' b] bs IH]; simpl; [set_solver|].
  repeat case_decide; subst; simpl; set_solver.
Qed.

Lemma Forall_klt_weaken (k k' : key) (l : list key) :
  klt k k' -> Forall (klt k') l -> Forall (klt k) l.
Proof. intros. eapply Forall_impl; [done|]. eauto with evq. Qed.

Lemma spec_insert_sorted k e bs :
  StronglySorted klt (map fst bs) -> StronglySorted klt (map fst (spec_insert k e bs)).
Proof.
  induction bs as [|[k' b] bs IH]; intros Hs; simpl; [repeat constructor|].
  simpl in Hs. apply StronglySorted_inv in Hs as [Hs Hf].
  repeat case_decide; subst; simpl.
  - constructor; [by constructor|]. constructor; eauto using Forall_klt_weaken.
  - by constructor.
  - constructor; [auto|]. apply Forall_forall. intros x [->|Hx]%fst_spec_insert.
    + destruct (klt_trichotomy k k') as [|[|]]; tauto.
    + by eapply Forall_forall in Hf.
Qed.

Lemma spec_insert_flatten k e bs :
  flatten (spec_insert k e bs) ≡ₚ e :: flatten bs.
Proof.
  induction bs as [|[k' b] bs IH]; simpl; [done|].
  repeat case_decide; subst; rewrite ?flatten_cons; simpl; [done..|].
  rewrite IH. by rewrite Permutation_middle.
Qed.

Lemma spec_insert_nonempty k e bs :
  Forall (fun kb => kb.2 <> []) bs -> Forall (fun kb => kb.2 <> []) (spec_insert k e bs).
Proof.
  induction 1 as [|[k' b] bs Hb Hbs IH]; simpl; [repeat constructor; done|].
  repeat case_decide; repeat constructor; auto; done.
Qed.

Lemma spec_insert_ok k e bs :
  bins_ok bs -> e ∉ flatten bs -> bins_ok (spec_insert k e bs).
Proof.
  intros [Hs Hn Hd] He. split.
  - by apply spec_insert_sorted.
  - by apply spec_insert_nonempty.
  - rewrite spec_insert_flatten. by constructor.
Qed.

(** ** Removal *)
Lemma remove_from_notin e b : e ∉ b -> remove_from e b = b.
Proof.
  intros He. unfold remove_from. induction b as [|x b IH]; [done|].
  rewrite filter_cons. case_decide as Hx; [|set_solver].
  f_equal. apply IH. set_solver.
Qed.

Lemma remove_from_app e b b' : remove_from e (b ++ b') = remove_from e b ++ remove_from e b'.
Proof. apply filter_app. Qed.

Lemma elem_of_remove_from x e b : x ∈ remove_from e b <-> x ∈ b /\ x <> e.
Proof. unfold remove_from. rewrite list_elem_of_filter. tauto. Qed.

Lemma spec_remove_flatten k e bs :
  bins_ok bs -> (exists b, (k, b) ∈ bs /\ e ∈ b) ->
  flatten (spec_remove k e bs) = remove_from e (flatten bs).
Proof.
  intros [Hs Hn Hd]. revert Hs Hd. clear Hn.
  induction bs as [|[k' b] bs IH]; intros Hs Hd (b0 & Hin & He); [set_solver|].
  rewrite flatten_cons in *. simpl in Hs. apply StronglySorted_inv in Hs as [Hs Hf].
  apply NoDup_app in Hd as (Hb & Hdis & Hd).
  assert (He' : e ∈ b -> e ∉ flatten bs) by auto.
  rewrite remove_from_app. simpl. case_decide as Hk.
  - subst k'. apply elem_of_cons in Hin as [[= <-]|Hin].
    + rewrite (remove_from_notin e (flatten bs)) by auto.
      by destruct (remove_from e b0).
    + exfalso. eapply Forall_forall in Hf; [by eapply klt_irrefl|].
      by eapply elem_of_keys.
  - apply elem_of_cons in Hin as [[= -> ->]|Hin]; [done|].
    rewrite flatten_cons, IH; [|done..|by exists b0].
    rewrite (remove_from_notin e b); [done|].
    intros Hbe. apply (He' Hbe), elem_of_flatten. by exists k, b0.
Qed.

Lemma spec_remove_fst_sub k e bs x :
  x ∈ map fst (spec_remove k e bs) -> x ∈ map fst bs.
Proof.
  induction bs as [|[k' b] bs IH]; simpl; [done|].
  repeat case_decide; subst; simpl; [destruct (remove_from e b); simpl|]; set_solver.
Qed.

Lemma spec_remove_ok k e bs :
  bins_ok bs -> (exists b, (k, b) ∈ bs /\ e ∈ b) -> bins_ok (spec_remove k e bs).
Proof.
  intros Hok Hin. pose proof (spec_remove_flatten k e bs Hok Hin) as Hfl.
  destruct Hok as [Hs Hn Hd]. split.
  - clear Hn Hd Hin Hfl. induction bs as [|[k' b] bs IH]; simpl; [constructor|].
    simpl in Hs. apply StronglySorted_inv in Hs as [Hs Hf].
    case_decide; subst; [destruct (remove_from e b); [done|by constructor]|].
    simpl. constructor; [auto|]. apply Forall_forall. intros x Hx%spec_remove_fst_sub.
    by eapply Forall_forall in Hf.
  - clear Hs Hd Hin Hfl. induction Hn as [|[k' b] bs Hb Hn IH]; simpl; [constructor|].
    case_decide; [|by constructor]. destruct (remove_from e b); [done|by constructor].
  - rewrite Hfl. by apply NoDup_filter.
Qed.

(** ** Service order *)
Lemma spec_pop_flatten bs e bs' :
  spec_pop bs = Some (e, bs') -> flatten bs = e :: flatten bs'.
Proof.
  destruct bs as [|[k [|x [|y b]]] bs]; simpl; intros [= <- <-]; done.
Qed.

Lemma spec_pop_ok bs e bs' : spec_pop bs = Some (e, bs') -> bins_ok bs -> bins_ok bs'.
Proof.
  intros Hp [Hs Hn Hd]. pose proof (spec_pop_flatten _ _ _ Hp) as Hfl.
  rewrite Hfl in Hd. apply NoDup_cons in Hd as [_ Hd].
  destruct bs as [|[k [|x [|y b]]] bs]; simpl in *; simplify_eq.
  - apply StronglySorted_inv in Hs as [Hs _]. apply Forall_cons in Hn as [_ Hn]. by split.
  - apply Forall_cons in Hn as [_ Hn]. split; [done| |done]. by constructor.
Qed.

Lemma elem_of_flatten_keys k e bs :
  (k, e) ∈ flatten_keys bs <-> exists b, (k, b) ∈ bs /\ e ∈ b.
Proof.
  unfold flatten_keys. rewrite elem_of_concat. setoid_rewrite elem_of_map. split.
  - intros (? & ([k' b] & -> & Hb) & Hin).
    apply elem_of_map in Hin as (x & [= -> ->] & Hx). by exists b.
  - intros (b & Hin & He). exists (map (fun x => (k, x)) b). split; [by exists (k, b)|].
    apply elem_of_map. by exists e.
Qed.

Lemma bins_ok_key_unique (bs : bins) k b b' :
  StronglySorted klt (map fst bs) -> (k, b) ∈ bs -> (k, b') ∈ bs -> b = b'.
Proof.
  induction bs as [|[k0 b0] bs IH]; simpl; intros Hs; [set_solver|].
  apply StronglySorted_inv in Hs as [Hs Hf].
  assert (Hno : forall b, (k0, b) ∉ bs).
  { intros c Hc. eapply Forall_forall in Hf; [by eapply klt_irrefl|].
    by eapply elem_of_keys. }
  rewrite !elem_of_cons. intros [[= -> ->]|Hb] [[= <-]|Hb']; try done.
  - by apply Hno in Hb'.
  - simplify_eq. by apply Hno in Hb.
  - by apply IH.
Qed.
