(* ===== verification/EventQueueProof.v ===== *)
(** * The linked lists implement the abstract event queue

    [chain h p bs] says that the pointer [p] in heap [h] is the head of a
    bin list that represents the abstract queue [bs].  Each list routine of
    [EventQueue] is shown to return without a fault and to represent the
    result of its counterpart of [EventQueueSpec]. *)
From S2P Require Import Prelude EventQueue EventQueueSpec.
Import EvQ.

(** ** Representation *)
Fixpoint inbin (h : heap) (k : key) (l : list positive) : Prop :=
  match l with
  | [] => True
  | e :: l' => exists ev,
      h !! e = Some ev /\ ev_key ev = k /\ nextInBin ev = hd_error l' /\ inbin h k l'
  end.

Fixpoint chain (h : heap) (p : option positive) (bs : bins) : Prop :=
  match bs with
  | [] => p = None
  | (k, b) :: bs' => exists e ev,
      hd_error b = Some e /\ p = Some e /\ h !! e = Some ev /\
      inbin h k b /\ chain h (nextBin ev) bs'
  end.

(** What the list routines may not change: time, priority and flags. *)
Definition core (e : Event) : Z * Z * Z := (_when e, _priority e, flags e).
(** What the representation depends on. *)
Definition links (e : Event) := (nextBin e, nextInBin e, ev_key e).
Definition inlinks (e : Event) := (nextInBin e, ev_key e).

Definition same_core (h h' : heap) : Prop :=
  forall p, core <$> h' !! p = core <$> h !! p.

#[export] Instance same_core_refl : Reflexive same_core.
Proof. intros h p. done. Qed.
#[export] Instance same_core_trans : Transitive same_core.
Proof. intros h1 h2 h3 H1 H2 p. by rewrite H2. Qed.

Lemma same_core_insert h p ev ev' :
  h !! p = Some ev -> core ev' = core ev -> same_core h (<[p := ev']> h).
Proof.
  intros Hp Hc q. destruct (decide (p = q)) as [->|Hne].
  - by rewrite lookup_insert_eq, Hp; simpl; rewrite Hc.
  - by rewrite lookup_insert_ne.
Qed.

Lemma same_core_lookup h h' p ev :
  same_core h h' -> h !! p = Some ev -> exists ev', h' !! p = Some ev' /\ core ev' = core ev.
Proof.
  intros Hs Hp. specialize (Hs p). rewrite Hp in Hs. simpl in Hs.
  destruct (h' !! p) as [ev'|]; simpl in Hs; [|done]. exists ev'. split; congruence.
Qed.

Lemma core_key ev ev' : core ev = core ev' -> ev_key ev = ev_key ev'.
Proof. unfold core, ev_key. congruence. Qed.

#[export] Hint Resolve core_key : evq.

Lemma load_Some h p ev : h !! p = Some ev -> load h p = Ok ev.
Proof. unfold load. by intros ->. Qed.

Lemma store_Some h p ev g : h !! p = Some ev -> store h p g = Ok (<[p := g ev]> h).
Proof. unfold store. by intros ->%load_Some. Qed.

(** [run] executes loads and stores whose address is known to be valid. *)
Ltac run :=
  repeat first
    [ erewrite load_Some by (simplify_map_eq; done); simpl
    | erewrite store_Some by (simplify_map_eq; done); simpl ].

Lemma inbin_agree h h' k l :
  (forall e, e ∈ l -> inlinks <$> h' !! e = inlinks <$> h !! e) ->
  inbin h k l -> inbin h' k l.
Proof.
  induction l as [|e l IH]; simpl; [done|]. intros Ha (ev & He & Hk & Hn & Hl).
  pose proof (Ha e ltac:(set_solver)) as Hag. rewrite He in Hag.
  destruct (h' !! e) as [ev'|] eqn:He'; simpl in Hag; [|done].
  exists ev'. unfold inlinks in Hag. split_and!; [done|congruence|congruence|].
  apply IH; [set_solver|done].
Qed.

Lemma inbin_frame h h' k l :
  (forall e, e ∈ l -> h' !! e = h !! e) -> inbin h k l -> inbin h' k l.
Proof. intros Ha. apply inbin_agree. intros e He. by rewrite Ha. Qed.

Lemma chain_agree h h' p bs :
  (forall e, e ∈ flatten bs -> links <$> h' !! e = links <$> h !! e) ->
  chain h p bs -> chain h' p bs.
Proof.
  revert p. induction bs as [|[k b] bs IH]; simpl; [done|]. intros p Ha.
  setoid_rewrite flatten_cons in Ha.
  intros (e & ev & Hb & -> & He & Hin & Hc).
  assert (Heb : e ∈ b) by (destruct b; simplify_eq/=; set_solver).
  pose proof (Ha e ltac:(set_solver)) as Hag. rewrite He in Hag.
  destruct (h' !! e) as [ev'|] eqn:He'; simpl in Hag; [|done].
  exists e, ev'. split_and!; try done.
  - eapply inbin_agree; [|done]. intros x Hx. specialize (Ha x ltac:(set_solver)).
    unfold links, inlinks in *. destruct (h' !! x), (h !! x); simpl in *; congruence.
  - apply IH; [set_solver|]. unfold links in Hag. by injection Hag as -> _ _.
Qed.

Lemma chain_frame h h' p bs :
  (forall e, e ∈ flatten bs -> h' !! e = h !! e) -> chain h p bs -> chain h' p bs.
Proof. intros Ha. apply chain_agree. intros e He. by rewrite Ha. Qed.

Lemma chain_frame_insert h p bs x v :
  x ∉ flatten bs -> chain h p bs -> chain (<[x := v]> h) p bs.
Proof. intros Hx. apply chain_frame. intros e He. apply lookup_insert_ne. set_solver. Qed.

Lemma inbin_frame_insert h k l x v :
  x ∉ l -> inbin h k l -> inbin (<[x := v]> h) k l.
Proof. intros Hx. apply inbin_frame. intros e He. apply lookup_insert_ne. set_solver. Qed.

#[export] Hint Resolve chain_frame_insert inbin_frame_insert : evq.

(** The comparisons of the code are the order of the specification. *)
Lemma ev_lt_klt a b : ev_lt a b = true <-> klt (ev_key a) (ev_key b).
Proof. unfold ev_lt, klt, ev_key; simpl. lia. Qed.
Lemma ev_le_kle a b : ev_le a b = true <-> kle (ev_key a) (ev_key b).
Proof. unfold ev_le, kle, klt, ev_key; simpl. split; [|intros [|[=]]]; [|lia..].
  intros H. destruct (decide ((_when a, _priority a) = (_when b, _priority b))); [tauto|left].
  assert (_when a = _when b -> _priority a <> _priority b) by congruence. lia.
Qed.
Lemma ev_eq_key a b : ev_eq a b = true <-> ev_key a = ev_key b.
Proof. unfold ev_eq, ev_key. rewrite andb_true_iff, !Z.eqb_eq.
  split; [intros [-> ->]|intros [= -> ->]]; done. Qed.

Lemma ev_lt_reflect a b : ev_lt a b = bool_decide (klt (ev_key a) (ev_key b)).
Proof. apply eq_bool_prop_intro. rewrite bool_decide_spec. rewrite <- ev_lt_klt. by destruct ev_lt. Qed.
Lemma ev_le_reflect a b : ev_le a b = bool_decide (kle (ev_key a) (ev_key b)).
Proof. apply eq_bool_prop_intro. rewrite bool_decide_spec. rewrite <- ev_le_kle. by destruct ev_le. Qed.
Lemma ev_eq_reflect a b : ev_eq a b = bool_decide (ev_key a = ev_key b).
Proof. apply eq_bool_prop_intro. rewrite bool_decide_spec. rewrite <- ev_eq_key. by destruct ev_eq. Qed.

(** The top of the first bin carries the key of that bin. *)
Lemma chain_top_key h p k b bs :
  chain h p ((k, b) :: bs) ->
  exists e l ev, b = e :: l /\ p = Some e /\ h !! e = Some ev /\ ev_key ev = k /\
    nextInBin ev = hd_error l /\ inbin h k l /\ chain h (nextBin ev) bs.
Proof.
  intros (e & ev & Hb & -> & He & Hin & Hc). destruct b as [|e' l]; simplify_eq/=.
  destruct Hin as (ev' & He' & Hk & Hn & Hl). simplify_eq. by exists e, l, ev.
Qed.

Lemma chain_cons_intro h e l k ev bs :
  h !! e = Some ev -> ev_key ev = k -> nextInBin ev = hd_error l -> inbin h k l ->
  chain h (nextBin ev) bs -> chain h (Some e) ((k, e :: l) :: bs).
Proof. intros. exists e, ev. split_and!; try done. by exists ev. Qed.

Lemma chain_nil h p : chain h p [] <-> p = None.
Proof. done. Qed.

#[local] Arguments chain : simpl never.
#[local] Arguments inbin : simpl never.

(** ** [Event::insertBefore] *)
Lemma insertBefore_refines h event ev curr bs :
  h !! event = Some ev -> chain h curr bs -> event ∉ flatten bs ->
  (forall k b bs', bs = (k, b) :: bs' -> kle (ev_key ev) k) ->
  exists ev', insertBefore h event curr = Ok (<[event := ev']> h, event) /\
    core ev' = core ev /\
    chain (<[event := ev']> h) (Some event) (spec_insert (ev_key ev) event bs).
Proof.
  intros He Hc Hni Hle. unfold insertBefore. rewrite (load_Some _ _ _ He). simpl.
  destruct bs as [|[k b] bs].
  - apply chain_nil in Hc. subst curr. run. eexists. split; [by rewrite insert_insert_eq|].
    split; [done|]. eapply chain_cons_intro; simplify_map_eq; done.
  - specialize (Hle _ _ _ eq_refl).
    pose proof Hc as (e & l & tv & -> & -> & Htv & Hk & Hn & Hl & Hc')%chain_top_key.
    rewrite flatten_cons in Hni. assert (Hne : event <> e) by set_solver.
    rewrite (load_Some _ _ _ Htv). simpl. rewrite ev_lt_reflect, Hk.
    destruct (decide (klt (ev_key ev) k)) as [Hlt|Hnlt].
    + rewrite bool_decide_true by done. run. eexists.
      split; [by rewrite insert_insert_eq|]. split; [done|].
      eapply chain_cons_intro; [by simplify_map_eq|done..|].
      apply (chain_frame_insert _ _ ((k, e :: l) :: bs)); [by rewrite flatten_cons|done].
    + destruct Hle as [|Heq]; [done|]. rewrite bool_decide_false by done.
      run. eexists. split; [by rewrite insert_insert_eq|]. split; [done|].
      rewrite decide_True by done.
      eapply chain_cons_intro; [by simplify_map_eq|done|done| |].
      * exists tv. rewrite lookup_insert_ne by done. split_and!; try done.
        apply inbin_frame_insert; [set_solver|done].
      * apply chain_frame_insert; [set_solver|done].
Qed.

(** ** The walk of [EventQueue::insert] past the head bin *)
Definition insert_after (fuel : nat) (h : heap) (event : positive) (ev : Event)
    (prev : positive) (curr : option positive) : res heap :=
  '(prev, curr) ← find_bin fuel h ev prev curr;
  '(h, e) ← insertBefore h event curr;
  store h prev (set_nextBin (Some e)).

(** The bin list changes at [event] and at the top [prev] of the bin before. *)
Lemma insert_here_refines h event ev prev pv k0 l0 bs :
  h !! event = Some ev -> h !! prev = Some pv ->
  inbin h k0 (prev :: l0) -> chain h (nextBin pv) bs ->
  event ∉ (prev :: l0) ++ flatten bs -> NoDup ((prev :: l0) ++ flatten bs) ->
  (forall k b bs', bs = (k, b) :: bs' -> kle (ev_key ev) k) ->
  exists h', ('(h, e) ← insertBefore h event (nextBin pv);
              store h prev (set_nextBin (Some e))) = Ok h' /\
    chain h' (Some prev) ((k0, prev :: l0) :: spec_insert (ev_key ev) event bs) /\
    (forall p, p ∉ event :: (prev :: l0) ++ flatten bs -> h' !! p = h !! p) /\
    same_core h h'.
Proof.
  intros He Hp Hin Hc Hni Hnd Hle.
  destruct (insertBefore_refines h event ev (nextBin pv) bs) as (ev' & -> & Hcore & Hch);
    [done..|set_solver|done|].
  assert (Hne : event <> prev) by set_solver.
  simpl. rewrite (store_Some _ _ pv) by (by simplify_map_eq).
  eexists. split; [done|].
  destruct Hin as (pv' & Hp' & Hk & Hn & Hl).
  assert (pv' = pv) as -> by congruence. split_and!.
  - eapply chain_cons_intro; [by simplify_map_eq|done..| |].
    + apply NoDup_cons in Hnd as [Hnd _].
      apply inbin_frame_insert; [set_solver|]. apply inbin_frame_insert; [set_solver|done].
    + apply chain_frame_insert; [|done]. rewrite spec_insert_flatten.
      apply NoDup_cons in Hnd as [Hnd _]. set_solver.
  - intros p Hpp. by rewrite !lookup_insert_ne by set_solver.
  - trans (<[event := ev']> h); [by eapply same_core_insert|].
    apply (same_core_insert _ _ pv); [by simplify_map_eq|done].
Qed.

Lemma insert_after_refines fuel h event ev prev pv k0 l0 bs :
  h !! event = Some ev -> h !! prev = Some pv ->
  inbin h k0 (prev :: l0) -> chain h (nextBin pv) bs ->
  event ∉ (prev :: l0) ++ flatten bs -> NoDup ((prev :: l0) ++ flatten bs) ->
  (length bs <= fuel)%nat ->
  exists h', insert_after fuel h event ev prev (nextBin pv) = Ok h' /\
    chain h' (Some prev) ((k0, prev :: l0) :: spec_insert (ev_key ev) event bs) /\
    (forall p, p ∉ event :: (prev :: l0) ++ flatten bs -> h' !! p = h !! p) /\
    same_core h h'.
Proof.
  revert h prev pv k0 l0 fuel. unfold insert_after.
  induction bs as [|[k b] bs IH]; intros h prev pv k0 l0 fuel He Hp Hin Hc Hni Hnd Hf.
  { assert (nextBin pv = None) as Hnil by done. rewrite Hnil.
    replace (find_bin fuel h ev prev None) with (Ok (prev, @None positive)) by (by destruct fuel).
    bind_step. rewrite <- Hnil. by apply insert_here_refines. }
  pose proof Hc as (e & l & tv & -> & Hpe & Htv & Hk & Hn & Hl & Hc')%chain_top_key.
  assert (Hfind : find_bin fuel h ev prev (nextBin pv) =
    if bool_decide (klt k (ev_key ev)) then find_bin (pred fuel) h ev e (nextBin tv)
    else Ok (prev, Some e)).
  { rewrite Hpe. simpl in Hf. destruct fuel as [|fuel]; [lia|]. simpl.
    rewrite (load_Some _ _ _ Htv). simpl. by rewrite ev_lt_reflect, Hk. }
  rewrite Hfind. case_bool_decide as Hlt.
  - rewrite flatten_cons in *.
    destruct (IH h e tv k l (pred fuel)) as (h' & Hrun & Hch & Hfr & Hco); try done.
    { by exists tv. }
    { set_solver. }
    { by apply NoDup_app in Hnd as (_ & _ & Hnd). }
    { simpl in Hf. lia. }
    exists h'. split; [done|]. split; [|split; [set_solver|done]].
    simpl. rewrite decide_False, decide_False.
    + apply NoDup_app in Hnd as (_ & Hdis & _).
      assert (Hag : forall x, x ∈ prev :: l0 -> h' !! x = h !! x) by set_solver.
      apply (inbin_frame _ h') in Hin as (pv' & Hp' & Hk' & Hn' & Hl'); [|done].
      rewrite Hag in Hp' by set_solver. assert (pv' = pv) as -> by congruence.
      eapply chain_cons_intro; [|done|done|done|by rewrite Hpe].
      rewrite Hag by set_solver. done.
    + intros Heq. rewrite Heq in Hlt. by eapply klt_irrefl.
    + by rewrite <- kle_not_klt; left.
  - bind_step. rewrite <- Hpe. apply insert_here_refines; try done.
    intros ??? Heq; injection Heq as <- _ _. by apply kle_not_klt.
Qed.

(** ** [EventQueue::insert] *)
Lemma bins_length_flatten bs :
  Forall (fun kb : key * list positive => kb.2 <> []) bs ->
  (length bs <= length (flatten bs))%nat.
Proof.
  induction 1 as [|[k b] bs Hb Hbs IH]; [done|].
  rewrite flatten_cons, length_app. destruct b; simpl in *; [done|lia].
Qed.

Lemma NoDup_size (h : heap) (l : list positive) :
  NoDup l -> (forall e, e ∈ l -> is_Some (h !! e)) -> (length l <= size h)%nat.
Proof.
  intros Hnd Hin. rewrite <- (size_list_to_set (C := gset positive)) by done.
  rewrite <- size_dom. apply subseteq_size. intros x Hx.
  apply elem_of_dom, Hin. set_solver.
Qed.

Lemma inbin_lookup h k l e : inbin h k l -> e ∈ l -> exists ev, h !! e = Some ev /\ ev_key ev = k.
Proof.
  induction l as [|x l IH]; [set_solver|]. intros (ev & Hx & Hk & _ & Hl).
  intros [->|He]%elem_of_cons; [by exists ev|by apply IH].
Qed.

Lemma chain_lookup h p bs k b e :
  chain h p bs -> (k, b) ∈ bs -> e ∈ b -> exists ev, h !! e = Some ev /\ ev_key ev = k.
Proof.
  revert p. induction bs as [|[k' b'] bs IH]; [set_solver|].
  intros p (e' & ev & _ & _ & _ & Hin & Hc) [[= <- <-]|Hb]%elem_of_cons He.
  - by eapply inbin_lookup.
  - by eapply IH.
Qed.

Lemma chain_fuel h p bs :
  chain h p bs -> bins_ok bs -> (length (flatten bs) <= size h)%nat.
Proof.
  intros Hc Hok. apply NoDup_size; [apply Hok|].
  intros e (k & b & Hb & He)%elem_of_flatten.
  destruct (chain_lookup h p bs k b e) as (ev & -> & _); [done..|]. by eexists.
Qed.

(** Inserting an event that is not queued: no fault, the abstract insertion,
    and nothing but links changes. *)
Lemma insert_refines h hd event ev bs :
  h !! event = Some ev -> chain h hd bs -> bins_ok bs -> event ∉ flatten bs ->
  exists h' hd', insert h hd event = Ok (h', hd') /\
    chain h' hd' (spec_insert (ev_key ev) event bs) /\ same_core h h'.
Proof.
  intros He Hc Hok Hni. unfold insert. rewrite (load_Some _ _ _ He). bind_step.
  assert (Hfront : (forall k b bs', bs = (k, b) :: bs' -> kle (ev_key ev) k) ->
    exists h' hd', ('(h, e) ← insertBefore h event hd; Ok (h, Some e)) = Ok (h', hd') /\
      chain h' hd' (spec_insert (ev_key ev) event bs) /\ same_core h h').
  { intros Hle. destruct (insertBefore_refines h event ev hd bs) as (ev' & -> & Hco & Hch);
      [done..|]. eexists _, _. split; [done|]. split; [done|]. by eapply same_core_insert. }
  destruct bs as [|[k b] bs].
  { assert (hd = None) as -> by done. by apply Hfront. }
  pose proof Hc as (e & l & tv & -> & -> & Htv & Hk & Hn & Hl & Hc')%chain_top_key.
  rewrite (load_Some _ _ _ Htv). bind_step. rewrite ev_le_reflect, Hk.
  case_bool_decide as Hle.
  { apply Hfront. intros ??? Heq. by injection Heq as <- _ _. }
  pose proof (chain_fuel _ _ _ Hc Hok) as Hfuel.
  pose proof (bins_length_flatten _ (bins_nonempty _ Hok)) as Hlen. cbn [length] in Hlen.
  destruct (insert_after_refines (size h) h event ev e tv k l bs) as (h' & Hrun & Hch & _ & Hco);
    try done.
  { by exists tv. }
  { apply Hok. }
  { lia. }
  unfold insert_after in Hrun. apply res_bind_Ok in Hrun as ([prev curr] & -> & Hrun).
  bind_step. apply res_bind_Ok in Hrun as ([h1 e1] & -> & Hrun). bind_step. rewrite Hrun.
  bind_step. eexists _, _. split; [done|]. split; [|done].
  simpl. rewrite decide_False, decide_False; [done|..].
  - intros Heq. apply Hle. by right.
  - intros Hlt. apply Hle. by left.
Qed.

(** ** [Event::removeItem] *)
Definition set_head (k : key) (b : list positive) (bs : bins) : bins :=
  match b with [] => bs | _ => (k, b) :: bs end.

Lemma find_in_bin_refines h event k l curr fuel :
  inbin h k (curr :: l) -> event ∈ l -> NoDup (curr :: l) -> (length l <= fuel)%nat ->
  exists h', ('(c, n) ← find_in_bin fuel h event curr (hd_error l);
              nv ← load h n; store h c (set_nextInBin (nextInBin nv))) = Ok h' /\
    inbin h' k (curr :: remove_from event l) /\
    (forall p, p ∉ curr :: l -> h' !! p = h !! p) /\
    (forall p, nextBin <$> h' !! p = nextBin <$> h !! p) /\ same_core h h'.
Proof.
  revert curr fuel. induction l as [|n l IH]; intros curr fuel Hin Hev Hnd Hf; [set_solver|].
  destruct Hin as (cv & Hcv & Hck & Hcn & Hl).
  pose proof Hl as (nv & Hnv & Hnk & Hnn & Hl'). simpl in Hf.
  pose proof Hnd as [Hcnl Hnd']%NoDup_cons.
  destruct fuel as [|fuel]; [lia|]. cbn [find_in_bin hd_error].
  destruct (decide (n = event)) as [->|Hne].
  - bind_step. rewrite (load_Some _ _ _ Hnv). bind_step. rewrite (store_Some _ _ _ _ Hcv).
    eexists. split; [done|]. apply NoDup_cons in Hnd' as [Hnel _].
    unfold remove_from. rewrite filter_cons, decide_False by tauto.
    fold (remove_from event l). rewrite remove_from_notin by done. split_and!.
    + exists (set_nextInBin (nextInBin nv) cv). split_and!; [by simplify_map_eq|done..|].
      apply inbin_frame_insert; [set_solver|done].
    + intros p Hp. by rewrite lookup_insert_ne by set_solver.
    + intros p. destruct (decide (p = curr)) as [->|]; by simplify_map_eq.
    + by eapply same_core_insert.
  - rewrite (load_Some _ _ _ Hnv). bind_step. rewrite Hnn.
    destruct (IH n fuel) as (h' & Hrun & Hin' & Hfr & Hnb & Hco); [done|set_solver|done|lia|].
    exists h'. split; [done|]. unfold remove_from. rewrite filter_cons, decide_True by done.
    fold (remove_from event l). split_and!; [|set_solver|done..].
    exists cv. rewrite Hfr by set_solver. done.
Qed.

Lemma removeItem_refines h event top l k bs :
  chain h (Some top) ((k, top :: l) :: bs) -> event ∈ top :: l ->
  NoDup ((top :: l) ++ flatten bs) -> (length l <= size h)%nat ->
  exists h' p', removeItem h event top = Ok (h', p') /\
    chain h' p' (set_head k (remove_from event (top :: l)) bs) /\
    (forall p, p ∉ top :: l -> h' !! p = h !! p) /\ same_core h h'.
Proof.
  intros Hc Hev Hnd Hf. apply NoDup_app in Hnd as (Hnd & Hdis & _).
  apply chain_top_key in Hc as (e & l' & tv & Heq & Heq' & Htv & Hk & Hn & Hl & Hc').
  injection Heq as <- <-. clear Heq'.
  unfold removeItem. rewrite (load_Some _ _ _ Htv). bind_step.
  pose proof Hnd as [Htl Hnd']%NoDup_cons.
  destruct (decide (event = top)) as [->|Hne].
  - unfold remove_from. rewrite filter_cons, decide_False by tauto.
    fold (remove_from top l). rewrite remove_from_notin by done. rewrite Hn.
    destruct l as [|n l]; [by eexists _, _|]. cbn [hd_error].
    destruct Hl as (nv & Hnv & Hnk & Hnn & Hl). rewrite (store_Some _ _ _ _ Hnv). bind_step.
    eexists _, _. split; [done|]. apply NoDup_cons in Hnd' as [Hnl _]. split_and!.
    + eapply chain_cons_intro; [by simplify_map_eq|done..| |].
      * by apply inbin_frame_insert.
      * apply chain_frame_insert; [set_solver|done].
    + intros p Hp. by rewrite lookup_insert_ne by set_solver.
    + by eapply same_core_insert.
  - assert (Hev' : event ∈ l) by set_solver.
    destruct (find_in_bin_refines h event k l top (size h)) as (h' & Hrun & Hin' & Hfr & Hnb & Hco);
      [by exists tv|done..|].
    rewrite Hn. apply res_bind_Ok in Hrun as ([c n] & -> & Hrun). bind_step.
    apply res_bind_Ok in Hrun as (nv & -> & Hrun). bind_step. rewrite Hrun. bind_step.
    eexists _, _. split; [done|].
    unfold remove_from. rewrite filter_cons, decide_True by done. fold (remove_from event l).
    split_and!; [|done..]. destruct Hin' as (tv' & Htv' & Hk' & Hn' & Hl').
    eapply chain_cons_intro; [done..|].
    specialize (Hnb top). rewrite Htv, Htv' in Hnb. injection Hnb as ->.
    eapply chain_frame; [|done]. intros x Hx. apply Hfr. intros Hx'. by apply (Hdis x).
Qed.

(** ** [EventQueue::remove] *)
Definition remove_after (fuel : nat) (h : heap) (event : positive) (ev : Event)
    (prev : positive) (curr : option positive) : res heap :=
  '(prev, curr) ← find_bin fuel h ev prev curr;
  match curr with
  | None => Er Panic
  | Some c =>
      cv ← load h c;
      if negb (ev_eq cv ev) then Er Panic
      else
        '(h, top) ← removeItem h event c;
        store h prev (set_nextBin top)
  end.

Lemma set_head_flatten k b bs : flatten (set_head k b bs) = b ++ flatten bs.
Proof. by destruct b. Qed.

Lemma spec_remove_head k e b bs :
  spec_remove k e ((k, b) :: bs) = set_head k (remove_from e b) bs.
Proof. cbn [spec_remove]. rewrite decide_True by done. by destruct (remove_from e b). Qed.

Lemma remove_after_refines fuel h event ev prev pv k0 l0 bs b :
  h !! event = Some ev -> h !! prev = Some pv ->
  inbin h k0 (prev :: l0) -> chain h (nextBin pv) bs ->
  (ev_key ev, b) ∈ bs -> event ∈ b -> StronglySorted klt (map fst bs) ->
  NoDup ((prev :: l0) ++ flatten bs) ->
  (length bs <= fuel)%nat -> (length (flatten bs) <= size h)%nat ->
  exists h', remove_after fuel h event ev prev (nextBin pv) = Ok h' /\
    chain h' (Some prev) ((k0, prev :: l0) :: spec_remove (ev_key ev) event bs) /\
    (forall p, p ∉ (prev :: l0) ++ flatten bs -> h' !! p = h !! p) /\
    same_core h h'.
Proof.
  revert prev pv k0 l0 fuel. unfold remove_after.
  induction bs as [|[k b'] bs IH]; intros prev pv k0 l0 fuel He Hp Hin Hc Hb Hev Hs Hnd Hf Hsz;
    [set_solver|].
  simpl in Hs. apply StronglySorted_inv in Hs as [Hs Hfa].
  pose proof Hc as (e & l & tv & -> & Hpe & Htv & Hk & Hn & Hl & Hc')%chain_top_key.
  assert (Hfind : find_bin fuel h ev prev (nextBin pv) =
    if bool_decide (klt k (ev_key ev)) then find_bin (pred fuel) h ev e (nextBin tv)
    else Ok (prev, Some e)).
  { rewrite Hpe. simpl in Hf. destruct fuel as [|fuel]; [lia|]. simpl.
    rewrite (load_Some _ _ _ Htv). simpl. by rewrite ev_lt_reflect, Hk. }
  rewrite Hfind. rewrite flatten_cons in *. pose proof Hnd as (_ & Hdis & Hnd')%NoDup_app.
  pose proof Hin as (pv' & Hp' & Hk0 & Hn0 & Hl0). assert (pv' = pv) as -> by congruence.
  case_bool_decide as Hlt.
  - assert (Hne : ev_key ev <> k) by (intros Heq; rewrite Heq in Hlt; by eapply klt_irrefl).
    apply elem_of_cons in Hb as [[= ? ?]|Hb]; [done|].
    rewrite length_app in Hsz.
    destruct (IH e tv k l (pred fuel)) as (h' & Hrun & Hch & Hfr & Hco); try done.
    { by exists tv. } { simpl in Hf. lia. } { lia. }
    exists h'. split; [done|]. split_and!; [|set_solver|done].
    simpl. rewrite decide_False by done.
    assert (Hag : forall x, x ∈ prev :: l0 -> h' !! x = h !! x) by set_solver.
    eapply chain_cons_intro; [rewrite Hag by set_solver; done|done|done| |by rewrite Hpe].
    eapply inbin_frame; [|done]. set_solver.
  - assert (ev_key ev = k) as Heq.
    { apply elem_of_cons in Hb as [[= ? ?]|Hb]; [done|].
      eapply Forall_forall in Hfa; [|by eapply elem_of_keys]. done. }
    apply elem_of_cons in Hb as [[= _ ->]|Hb].
    2:{ exfalso. eapply Forall_forall in Hfa; [|by eapply elem_of_keys].
        rewrite Heq in Hfa. by eapply klt_irrefl. }
    bind_step. rewrite (load_Some _ _ _ Htv). bind_step.
    rewrite ev_eq_reflect, bool_decide_true by congruence. cbn [negb].
    rewrite Hpe in Hc. rewrite length_app in Hsz. simpl in Hsz.
    destruct (removeItem_refines h event e l k bs) as (h1 & p1 & -> & Hch & Hfr & Hco);
      [done..|lia|].
    bind_step. rewrite (store_Some _ _ pv) by (rewrite Hfr; [done|set_solver]).
    eexists. split; [done|]. rewrite Heq, spec_remove_head. split_and!.
    + eapply chain_cons_intro; [by simplify_map_eq|done|done| |].
      * apply NoDup_app in Hnd as (Hnd0 & _ & _). apply NoDup_cons in Hnd0 as [Hnd0 _].
        apply inbin_frame_insert; [set_solver|].
        eapply inbin_frame; [|done]. intros x Hx. apply Hfr. set_solver.
      * apply chain_frame_insert; [|done]. rewrite set_head_flatten.
        rewrite elem_of_app, elem_of_remove_from. set_solver.
    + intros p Hpp. rewrite lookup_insert_ne by set_solver. apply Hfr. set_solver.
    + trans h1; [done|]. apply (same_core_insert _ _ pv); [|done].
      rewrite Hfr; [done|set_solver].
Qed.

(** Removing a queued event: no fault, the abstract removal, and nothing but
    links changes. *)
Lemma remove_refines h hd event ev bs b :
  h !! event = Some ev -> chain h hd bs -> bins_ok bs ->
  (ev_key ev, b) ∈ bs -> event ∈ b ->
  exists h' hd', remove h hd event = Ok (h', hd') /\
    chain h' hd' (spec_remove (ev_key ev) event bs) /\ same_core h h'.
Proof.
  intros He Hc Hok Hb Hev. pose proof (chain_fuel _ _ _ Hc Hok) as Hfuel.
  pose proof (bins_length_flatten _ (bins_nonempty _ Hok)) as Hlen.
  destruct bs as [|[k b'] bs]; [set_solver|]. cbn [length] in Hlen.
  pose proof Hc as (e & l & tv & -> & -> & Htv & Hk & Hn & Hl & Hc')%chain_top_key.
  unfold remove. rewrite (load_Some _ _ _ Htv). bind_step.
  rewrite (load_Some _ _ _ He). bind_step. rewrite ev_eq_reflect, Hk.
  pose proof Hok as [Hs _ Hnd]. rewrite flatten_cons in *.
  rewrite length_app in Hfuel, Hlen. simpl in Hs, Hfuel, Hlen.
  apply StronglySorted_inv in Hs as [Hs Hfa].
  case_bool_decide as Hkey.
  - apply elem_of_cons in Hb as [[= _ ->]|Hb].
    2:{ exfalso. eapply Forall_forall in Hfa; [|by eapply elem_of_keys].
        rewrite Hkey in Hfa. by eapply klt_irrefl. }
    destruct (removeItem_refines h event e l k bs) as (h1 & p1 & -> & Hch & Hfr & Hco);
      [done..|lia|].
    eexists _, _. split; [done|]. split; [|done]. by rewrite <- Hkey, spec_remove_head.
  - apply elem_of_cons in Hb as [[= <- ->]|Hb]; [done|].
    destruct (remove_after_refines (size h) h event ev e tv k l bs b)
      as (h' & Hrun & Hch & _ & Hco); try done; [by exists tv|lia|lia|].
    unfold remove_after in Hrun. apply res_bind_Ok in Hrun as ([prev curr] & -> & Hrun).
    bind_step. destruct curr as [c|]; [|done].
    apply res_bind_Ok in Hrun as (cv & -> & Hrun). bind_step.
    destruct (negb (ev_eq cv ev)); [done|].
    apply res_bind_Ok in Hrun as ([h1 top] & -> & Hrun). bind_step. rewrite Hrun. bind_step.
    eexists _, _. split; [done|]. split; [|done]. cbn [spec_remove].
    rewrite decide_False; [done|]. congruence.
Qed.
