(* ===== verification/EventQueueInv.v ===== *)
(** * The invariant of the event queue and its operations

    [queue_ok q bs] ties the concrete queue to the abstract one and adds what
    the flags and the clock promise: an event is flagged [Scheduled] exactly
    when it is queued, and nothing is queued in the past.  [qstep] collects
    what a client of the queue may do to it. *)
From S2P Require Import Prelude EventQueue EventQueueSpec EventQueueProof.
Import EvQ.

(** ** Flags *)
Lemma isSet_set_same f g : g <> 0 -> isSet (set f g) g = true.
Proof.
  intros Hg. unfold isSet, set. rewrite Z.land_comm, Z.land_lor_distr_r, Z.land_diag.
  apply negb_true_iff, Z.eqb_neq. rewrite Z.lor_eq_0_iff. tauto.
Qed.
Lemma isSet_set_other f g a : Z.land g a = 0 -> isSet (set f g) a = isSet f a.
Proof. intros H. unfold isSet, set. by rewrite Z.land_lor_distr_l, H, Z.lor_0_r. Qed.
Lemma isSet_clear_same f g : isSet (clear f g) g = false.
Proof.
  unfold isSet, clear. rewrite <- Z.land_assoc, (Z.land_comm (Z.lnot g)).
  by rewrite Z.land_lnot_diag, Z.land_0_r.
Qed.
Lemma land_clear_other f g a : Z.land g a = 0 -> Z.land (clear f g) a = Z.land f a.
Proof.
  intros H. unfold clear. rewrite <- Z.land_assoc. f_equal. apply Z.bits_inj'. intros n Hn.
  rewrite Z.land_spec, Z.lnot_spec by done.
  assert (Z.testbit g n && Z.testbit a n = false) as Hb.
  { by rewrite <- Z.land_spec, H, Z.bits_0. }
  by destruct (Z.testbit g n), (Z.testbit a n).
Qed.
Lemma land_set_other f g a : Z.land g a = 0 -> Z.land (set f g) a = Z.land f a.
Proof. intros H. unfold set. by rewrite Z.land_lor_distr_l, H, Z.lor_0_r. Qed.
Lemma isSet_clear_other f g a : Z.land g a = 0 -> isSet (clear f g) a = isSet f a.
Proof. intros H. unfold isSet. by rewrite land_clear_other. Qed.

Create Rewrite HintDb flagdb.
#[export] Hint Rewrite isSet_set_same isSet_clear_same using (by vm_compute) : flagdb.
#[export] Hint Rewrite isSet_set_other isSet_clear_other land_set_other land_clear_other
  using reflexivity : flagdb.

(** Evaluates tests of a flag after updates of the flags. *)
Ltac flag_simpl :=
  unfold scheduled, squashed, isExitEvent, initialized in *;
  repeat (cbn [flags upd_flags setWhen] in *; progress autorewrite with flagdb in * );
  cbn [flags upd_flags setWhen] in *.

Lemma mark_main_flags q e g : Z.land IsMainQueue g = 0 ->
  Z.land (flags (mark_main q e)) g = Z.land (flags e) g.
Proof.
  intros H. unfold mark_main. destruct (qmain q); simpl;
    [by apply land_set_other|by apply land_clear_other].
Qed.

(** ** The invariant *)
Record queue_ok (q : queue) (bs : bins) : Prop := {
  qo_chain : chain (events q) (head q) bs;
  qo_bins : bins_ok bs;
  qo_sched : forall p ev, events q !! p = Some ev -> scheduled ev = true <-> p ∈ flatten bs;
  qo_init : forall p ev, events q !! p = Some ev -> initialized ev = true;
  qo_exit : forall p ev, events q !! p = Some ev ->
    isExitEvent ev = true -> isSet (flags ev) AutoDelete = false;
  qo_time : forall k, k ∈ map fst bs -> curTick q <= k.1 <= MaxTick;
  qo_now : 0 <= curTick q <= MaxTick
}.

(** A new queue: [EventQueue::EventQueue]. *)
Definition EventQueue_new (main : bool) (h : heap) (now : Z) : queue := mkQueue h None main now.

Lemma queue_ok_key q bs p ev :
  queue_ok q bs -> events q !! p = Some ev -> scheduled ev = true ->
  exists b, (ev_key ev, b) ∈ bs /\ p ∈ b.
Proof.
  intros Hq Hp Hs. rewrite (qo_sched _ _ Hq p ev Hp) in Hs.
  apply elem_of_flatten in Hs as (k & b & Hb & Hpb). exists b.
  destruct (chain_lookup _ _ _ _ _ _ (qo_chain _ _ Hq) Hb Hpb) as (ev' & Hp' & <-).
  by assert (ev' = ev) as -> by congruence.
Qed.

Lemma elem_of_flatten_lookup q bs p :
  queue_ok q bs -> p ∈ flatten bs -> exists ev, events q !! p = Some ev /\ scheduled ev = true.
Proof.
  intros Hq Hp. pose proof Hp as (k & b & Hb & Hpb)%elem_of_flatten.
  destruct (chain_lookup _ _ _ _ _ _ (qo_chain _ _ Hq) Hb Hpb) as (ev & Hev & _).
  exists ev. split; [done|]. by rewrite (qo_sched _ _ Hq p ev Hev).
Qed.

(** Only links changed between two heaps: the invariant survives with the
    abstract queue of the second. *)
Lemma chain_upd_flags h p ev ev' hd bs :
  h !! p = Some ev -> links ev' = links ev -> chain h hd bs -> chain (<[p := ev']> h) hd bs.
Proof.
  intros Hp Hl. apply chain_agree. intros x _.
  destruct (decide (x = p)) as [->|Hne].
  - by rewrite lookup_insert_eq, Hp; simpl; rewrite Hl.
  - by rewrite lookup_insert_ne.
Qed.

Lemma same_core_back h h' p ev' :
  same_core h h' -> h' !! p = Some ev' -> exists ev, h !! p = Some ev /\ core ev' = core ev.
Proof.
  intros Hs Hp. specialize (Hs p). rewrite Hp in Hs.
  destruct (h !! p) as [ev|]; simpl in Hs; [|done]. exists ev. split; congruence.
Qed.

Lemma core_flags ev ev' : core ev = core ev' -> flags ev = flags ev'.
Proof. unfold core. congruence. Qed.

(** ** Scheduling *)
Definition others_same (e : positive) (h h' : heap) : Prop :=
  forall p, p <> e -> core <$> h' !! p = core <$> h !! p.

#[export] Instance others_same_trans e : Transitive (others_same e).
Proof. intros h1 h2 h3 H1 H2 p Hp. by rewrite H2, H1. Qed.
Lemma others_same_insert e h v : others_same e h (<[e := v]> h).
Proof. intros p Hp. by rewrite lookup_insert_ne. Qed.
Lemma others_same_core e h h' : same_core h h' -> others_same e h h'.
Proof. intros H p _. apply H. Qed.
#[export] Hint Resolve others_same_insert others_same_core : evq.

(** A heap that differs from that of [q] only in links, and at [e] in more,
    keeps the per-event clauses for the other events. *)
Lemma queue_ok_rebuild q bs q' bs' e ev' :
  queue_ok q bs -> others_same e (events q) (events q') ->
  events q' !! e = Some ev' -> initialized ev' = true ->
  (isExitEvent ev' = true -> isSet (flags ev') AutoDelete = false) ->
  (scheduled ev' = true <-> e ∈ flatten bs') ->
  (forall p, p <> e -> p ∈ flatten bs' <-> p ∈ flatten bs) ->
  chain (events q') (head q') bs' -> bins_ok bs' -> curTick q' = curTick q ->
  (forall k, k ∈ map fst bs' -> curTick q <= k.1 <= MaxTick) ->
  queue_ok q' bs'.
Proof.
  intros Hq Hoth He Hi Hx Hs Hfl Hc Hb Ht Hk.
  assert (Hback : forall p ev, p <> e -> events q' !! p = Some ev ->
    exists ev0, events q !! p = Some ev0 /\ flags ev = flags ev0).
  { intros p ev Hp Hev. specialize (Hoth p Hp). rewrite Hev in Hoth.
    destruct (events q !! p) as [ev0|]; simpl in Hoth; [|done].
    exists ev0. split; [done|]. apply core_flags. congruence. }
  split; [done|done| | | |by rewrite Ht|rewrite Ht; apply Hq].
  all: intros p ev Hp; destruct (decide (p = e)) as [->|Hne].
  all: try (assert (ev = ev') as -> by congruence; done).
  all: destruct (Hback p ev Hne Hp) as (ev0 & Hp0 & Hf).
  - rewrite Hfl by done. rewrite <- (qo_sched _ _ Hq p ev0 Hp0). unfold scheduled. by rewrite Hf.
  - pose proof (qo_init _ _ Hq p ev0 Hp0) as H0. unfold initialized in *. by rewrite Hf.
  - pose proof (qo_exit _ _ Hq p ev0 Hp0) as H0. unfold isExitEvent in *. by rewrite Hf.
Qed.

(** The last store of an operation on [e] changes its flags only. *)
Lemma queue_ok_finish q bs h1 hd bs' e ev1 ev2 :
  queue_ok q bs -> others_same e (events q) h1 -> h1 !! e = Some ev1 ->
  links ev2 = links ev1 -> chain h1 hd bs' -> bins_ok bs' ->
  initialized ev2 = true -> (isExitEvent ev2 = true -> isSet (flags ev2) AutoDelete = false) ->
  (scheduled ev2 = true <-> e ∈ flatten bs') ->
  (forall p, p <> e -> p ∈ flatten bs' <-> p ∈ flatten bs) ->
  (forall k, k ∈ map fst bs' -> curTick q <= k.1 <= MaxTick) ->
  queue_ok (mkQueue (<[e := ev2]> h1) hd (qmain q) (curTick q)) bs'.
Proof.
  intros Hq Hoth He Hl Hc Hb Hi Hx Hs Hfl Hk.
  apply (queue_ok_rebuild q bs _ _ e ev2); try done; cbn [events head].
  - trans h1; eauto with evq.
  - by rewrite lookup_insert_eq.
  - by apply (chain_upd_flags _ _ ev1).
Qed.

(** Setting the time of an unqueued event and inserting it. *)
Lemma enqueue_ok h hd bs e ev when :
  h !! e = Some ev -> chain h hd bs -> bins_ok bs -> e ∉ flatten bs ->
  exists h' hd' ev1, insert (<[e := setWhen when ev]> h) hd e = Ok (h', hd') /\
    chain h' hd' (spec_insert (when, _priority ev) e bs) /\
    bins_ok (spec_insert (when, _priority ev) e bs) /\
    h' !! e = Some ev1 /\ ev_key ev1 = (when, _priority ev) /\ flags ev1 = flags ev /\
    others_same e h h'.
Proof.
  intros He Hc Hb Hni.
  destruct (insert_refines (<[e := setWhen when ev]> h) hd e (setWhen when ev) bs)
    as (h' & hd' & Hrun & Hch & Hco); [by simplify_map_eq|by apply chain_frame_insert|done..|].
  destruct (same_core_lookup _ _ e (setWhen when ev) Hco) as (ev1 & Hev1 & Hco1);
    [by simplify_map_eq|].
  exists h', hd', ev1. split_and!; try done.
  - by apply spec_insert_ok.
  - by apply core_key in Hco1.
  - by apply core_flags in Hco1.
  - trans (<[e := setWhen when ev]> h); eauto with evq.
Qed.

Lemma mark_main_links q e : links (mark_main q e) = links e.
Proof. unfold mark_main. by destruct (qmain q). Qed.
Lemma links_key a b : links a = links b -> ev_key a = ev_key b.
Proof. intros H. exact (f_equal snd H). Qed.
Lemma mark_main_isSet q e g : Z.land IsMainQueue g = 0 ->
  isSet (flags (mark_main q e)) g = isSet (flags e) g.
Proof. intros H. unfold isSet. by rewrite mark_main_flags. Qed.
Lemma mark_main_cong q q' e e' :
  qmain q = qmain q' -> flags e = flags e' -> flags (mark_main q e) = flags (mark_main q' e').
Proof. intros Hq He. unfold mark_main. rewrite Hq. destruct (qmain q'); simpl; by rewrite He. Qed.
#[export] Hint Rewrite mark_main_isSet mark_main_flags using reflexivity : flagdb.

Lemma unscheduled_notin q bs e ev :
  queue_ok q bs -> events q !! e = Some ev -> scheduled ev = false -> e ∉ flatten bs.
Proof. intros Hq He Hs Hin. apply (qo_sched _ _ Hq e ev He) in Hin. congruence. Qed.

(** ** [EventQueue::schedule] *)
(** The assertion on the time compares unsigned numbers: it holds for the times that are
    not in the past and for the negative ones. *)
Lemma schedule_time_test q bs when :
  queue_ok q bs -> - 2 ^ 63 <= when <= MaxTick ->
  (u64 (curTick q) <=? u64 when) = negb ((0 <=? when) && (when <? curTick q)).
Proof.
  intros Hq Hw. pose proof (qo_now _ _ Hq) as Hnow. unfold MaxTick in *.
  rewrite (uint_small 64 (curTick q)) by lia. destruct (Z.leb_spec 0 when).
  - rewrite uint_small by lia. cbn [andb]. lia.
  - unfold uint. rewrite <- (Z.mod_unique when (2 ^ 64) (-1) (when + 2 ^ 64)) by lia.
    cbn [andb negb]. lia.
Qed.

(** An unscheduled event that passes the assertions: the lists represent the queue with the
    event in its bin, whatever its time. *)
Lemma schedule_runs q bs e ev when :
  queue_ok q bs -> events q !! e = Some ev -> scheduled ev = false ->
  (u64 (curTick q) <=? u64 when) = true ->
  exists h' hd' ev1, 
    schedule e when q = Ok (mkQueue (<[e := mark_main q (upd_flags (fun f => set f Scheduled) ev1)]> h') hd' (qmain q) (curTick q)) /\
    chain h' hd' (spec_insert (when, _priority ev) e bs) /\
    bins_ok (spec_insert (when, _priority ev) e bs) /\
    h' !! e = Some ev1 /\ ev_key ev1 = (when, _priority ev) /\ flags ev1 = flags ev /\
    others_same e (events q) h'.
Proof.
  intros Hq He Hs Ht. pose proof (unscheduled_notin _ _ _ _ Hq He Hs) as Hni.
  destruct (enqueue_ok (events q) (head q) bs e ev when)
    as (h' & hd' & ev1 & Hins & Hch & Hb & Hev1 & Hkey & Hfl & Hoth); [done|apply Hq..|done|].
  exists h', hd', ev1. split; [|done].
  unfold schedule. rewrite Ht. cbn [c_assert]. bind_step.
  rewrite (load_Some _ _ _ He). bind_step. rewrite Hs, (qo_init _ _ Hq e ev He).
  cbn [negb c_assert]. do 2 bind_step.
  rewrite (store_Some _ _ _ _ He). bind_step. rewrite Hins. bind_step.
  cbn [events upd_links fst snd]. rewrite (store_Some _ _ _ _ Hev1). bind_step.
  rewrite (store_Some _ _ (upd_flags (fun f => set f Scheduled) ev1)) by (by simplify_map_eq).
  bind_step. by rewrite insert_insert_eq.
Qed.

Lemma schedule_ok q bs e ev when :
  queue_ok q bs -> events q !! e = Some ev -> scheduled ev = false ->
  curTick q <= when <= MaxTick ->
  exists q' ev', schedule e when q = Ok q' /\
    queue_ok q' (spec_insert (when, _priority ev) e bs) /\
    curTick q' = curTick q /\ qmain q' = qmain q /\
    events q' !! e = Some ev' /\ ev_key ev' = (when, _priority ev) /\
    flags ev' = flags (mark_main q (upd_flags (fun f => set f Scheduled) ev)) /\
    others_same e (events q) (events q').
Proof.
  intros Hq He Hs Hw. pose proof (qo_now _ _ Hq) as Hnow.
  destruct (schedule_runs q bs e ev when Hq He Hs)
    as (h' & hd' & ev1 & Hrun & Hch & Hb & Hev1 & Hkey & Hfl & Hoth).
  { rewrite (schedule_time_test q bs) by (done || lia). lia. }
  eexists _, (mark_main q (upd_flags (fun f => set f Scheduled) ev1)).
  split; [exact Hrun|]. cbn [events head qmain curTick]. split_and!; try done.
  - apply (queue_ok_finish q bs h' hd' _ e ev1); try done; [by rewrite mark_main_links|..].
    + flag_simpl. rewrite Hfl. apply (qo_init _ _ Hq e ev He).
    + flag_simpl. rewrite Hfl. apply (qo_exit _ _ Hq e ev He).
    + flag_simpl. rewrite spec_insert_flatten. set_solver.
    + intros p Hp. rewrite spec_insert_flatten. set_solver.
    + intros k [->|Hk]%fst_spec_insert; [done|]. by apply (qo_time _ _ Hq).
  - by rewrite lookup_insert_eq.
  - rewrite <- Hkey. apply links_key. by rewrite mark_main_links.
  - apply mark_main_cong; [done|]. simpl. by rewrite Hfl.
  - trans h'; eauto with evq.
Qed.

(** The failing cases: an event that is already scheduled, or a time in the past. *)
Lemma schedule_fails q bs e ev when :
  queue_ok q bs -> events q !! e = Some ev -> - 2 ^ 63 <= when <= MaxTick ->
  scheduled ev = true \/ 0 <= when < curTick q -> schedule e when q = Er AssertFail.
Proof.
  intros Hq He Hw H. unfold schedule. rewrite (schedule_time_test q bs) by done.
  destruct ((0 <=? when) && (when <? curTick q)) eqn:Et; [done|].
  cbn [negb c_assert]. bind_step. rewrite (load_Some _ _ _ He). bind_step.
  destruct H as [->|H]; [done|]. lia.
Qed.

(** A negative time: the event is queued in front of the events to come, in the past. *)
Lemma schedule_negative q bs e ev when :
  queue_ok q bs -> events q !! e = Some ev -> scheduled ev = false -> - 2 ^ 63 <= when < 0 ->
  exists q', schedule e when q = Ok q' /\ curTick q' = curTick q /\
    chain (events q') (head q') (spec_insert (when, _priority ev) e bs).
Proof.
  intros Hq He Hs Hw. destruct (schedule_runs q bs e ev when Hq He Hs)
    as (h' & hd' & ev1 & Hrun & Hch & Hb & Hev1 & Hkey & Hfl & Hoth).
  { rewrite (schedule_time_test q bs); [lia|done|unfold MaxTick; lia]. }
  eexists. split; [exact Hrun|]. split; [done|]. cbn [events head].
  apply (chain_upd_flags _ _ ev1); [done| |done]. by rewrite mark_main_links.
Qed.

(** ** [EventQueue::deschedule] *)
Lemma dequeue_ok q bs e ev :
  queue_ok q bs -> events q !! e = Some ev -> scheduled ev = true ->
  exists h' hd' ev1, remove (events q) (head q) e = Ok (h', hd') /\
    chain h' hd' (spec_remove (ev_key ev) e bs) /\ bins_ok (spec_remove (ev_key ev) e bs) /\
    flatten (spec_remove (ev_key ev) e bs) = remove_from e (flatten bs) /\
    h' !! e = Some ev1 /\ core ev1 = core ev /\ others_same e (events q) h'.
Proof.
  intros Hq He Hs. destruct (queue_ok_key _ _ _ _ Hq He Hs) as (b & Hb & Heb).
  destruct (remove_refines (events q) (head q) e ev bs b) as (h' & hd' & Hrun & Hch & Hco);
    [done|apply Hq..|done|done|].
  destruct (same_core_lookup _ _ e ev Hco He) as (ev1 & Hev1 & Hco1).
  exists h', hd', ev1. split_and!; try done.
  - apply spec_remove_ok; [apply Hq|by exists b].
  - apply spec_remove_flatten; [apply Hq|by exists b].
  - eauto with evq.
Qed.

(** What the heap holds at [e] after [deschedule]. *)
Definition descheduled (ev : Event) (o : option Event) : Prop :=
  if isSet (flags ev) AutoDelete then o = None
  else exists ev', o = Some ev' /\ ev_key ev' = ev_key ev /\
    flags ev' = clear (clear (flags ev) Squashed) Scheduled.

Lemma queue_ok_delete q bs e ev :
  queue_ok q bs -> events q !! e = Some ev -> scheduled ev = false ->
  queue_ok (upd_heap q (delete e (events q))) bs.
Proof.
  intros Hq He Hs. pose proof (unscheduled_notin _ _ _ _ Hq He Hs) as Hni.
  split; cbn [events head curTick upd_heap]; try apply Hq.
  - eapply chain_frame; [|apply Hq]. intros x Hx. rewrite lookup_delete_ne; [done|].
    set_solver.
  - intros p ev0 Hp. apply lookup_delete_Some in Hp as [_ Hp]. by apply (qo_sched _ _ Hq).
  - intros p ev0 Hp. apply lookup_delete_Some in Hp as [_ Hp]. by apply (qo_init _ _ Hq p).
  - intros p ev0 Hp. apply lookup_delete_Some in Hp as [_ Hp]. by apply (qo_exit _ _ Hq p).
Qed.

Lemma deschedule_ok q bs e ev :
  queue_ok q bs -> events q !! e = Some ev -> scheduled ev = true ->
  exists q', deschedule e q = Ok q' /\
    queue_ok q' (spec_remove (ev_key ev) e bs) /\
    curTick q' = curTick q /\ qmain q' = qmain q /\
    descheduled ev (events q' !! e) /\
    others_same e (events q) (events q').
Proof.
  intros Hq He Hs.
  destruct (dequeue_ok q bs e ev) as (h' & hd' & ev1 & Hrun & Hch & Hb & Hfl & Hev1 & Hco1 & Hoth);
    [done..|].
  unfold deschedule. rewrite (load_Some _ _ _ He). bind_step.
  rewrite Hs, (qo_init _ _ Hq e ev He). cbn [c_assert]. do 2 bind_step.
  rewrite Hrun. bind_step. cbn [events upd_links fst snd].
  rewrite (store_Some _ _ _ _ Hev1). bind_step.
  rewrite (store_Some _ _ (upd_flags (fun f => clear f Squashed) ev1)) by (by simplify_map_eq).
  bind_step. rewrite insert_insert_eq. set (ev2 := upd_flags _ _).
  rewrite (load_Some _ _ ev2) by (by simplify_map_eq). bind_step.
  pose proof (core_flags _ _ Hco1) as Hf1. pose proof (core_key _ _ Hco1) as Hk1.
  assert (Hq2 : queue_ok (mkQueue (<[e := ev2]> h') hd' (qmain q) (curTick q))
    (spec_remove (ev_key ev) e bs)).
  { apply (queue_ok_finish q bs h' hd' _ e ev1); try done; unfold ev2.
    - flag_simpl. rewrite Hf1. apply (qo_init _ _ Hq e ev He).
    - flag_simpl. rewrite Hf1. apply (qo_exit _ _ Hq e ev He).
    - flag_simpl. rewrite Hfl, elem_of_remove_from. naive_solver.
    - intros p Hp. rewrite Hfl, elem_of_remove_from. naive_solver.
    - intros k Hk%spec_remove_fst_sub. by apply (qo_time _ _ Hq). }
  assert (Had : isSet (flags ev2) AutoDelete = isSet (flags ev) AutoDelete).
  { unfold ev2. flag_simpl. by rewrite Hf1. }
  assert (Hus : scheduled ev2 = false) by (unfold ev2; by flag_simpl).
  unfold descheduled. rewrite Had. destruct (isSet (flags ev) AutoDelete).
  - unfold delete_event. rewrite (load_Some _ _ ev2) by (by simplify_map_eq). bind_step.
    rewrite Hus. cbn [negb c_assert]. do 2 bind_step. eexists. split; [done|].
    cbn [events curTick qmain upd_heap]. split_and!; try done.
    + by apply (queue_ok_delete _ _ e ev2) in Hq2; [|cbn [events]; by simplify_map_eq|].
    + by rewrite lookup_delete_eq.
    + intros p Hp. rewrite lookup_delete_ne, lookup_insert_ne by done. by apply Hoth.
  - eexists. split; [done|]. cbn [events curTick qmain upd_heap]. split_and!; try done.
    + exists ev2. rewrite lookup_insert_eq. split_and!; [done..|]. unfold ev2. simpl. by rewrite Hf1.
    + trans h'; eauto with evq.
Qed.

(** ** [EventQueue::reschedule] *)
Definition requeue (k : key) (e : positive) (sched : bool) (k' : key) (bs : bins) : bins :=
  spec_insert k' e (if sched then spec_remove k e bs else bs).

Lemma maybe_dequeue_ok q bs e ev :
  queue_ok q bs -> events q !! e = Some ev ->
  let bs1 := if scheduled ev then spec_remove (ev_key ev) e bs else bs in
  exists h' hd' ev1,
    (if scheduled ev then remove (events q) (head q) e else Ok (events q, head q)) = Ok (h', hd') /\
    chain h' hd' bs1 /\ bins_ok bs1 /\ flatten bs1 = remove_from e (flatten bs) /\
    (forall k, k ∈ map fst bs1 -> k ∈ map fst bs) /\
    h' !! e = Some ev1 /\ core ev1 = core ev /\ others_same e (events q) h'.
Proof.
  intros Hq He bs1. unfold bs1. destruct (scheduled ev) eqn:Hs.
  - destruct (dequeue_ok q bs e ev) as (h' & hd' & ev1 & Hrun & Hch & Hb & Hfl & Hev1 & Hco & Hoth);
      [done..|].
    exists h', hd', ev1. split_and!; try done. intros k. apply spec_remove_fst_sub.
  - exists (events q), (head q), ev. split_and!; try done; try apply Hq.
    rewrite remove_from_notin; [done|]. by apply (unscheduled_notin q bs e ev).
Qed.

Lemma reschedule_ok q bs e ev when always :
  queue_ok q bs -> events q !! e = Some ev -> always || scheduled ev = true ->
  curTick q <= when <= MaxTick ->
  exists q' ev', reschedule e when always q = Ok q' /\
    queue_ok q' (requeue (ev_key ev) e (scheduled ev) (when, _priority ev) bs) /\
    curTick q' = curTick q /\ qmain q' = qmain q /\
    events q' !! e = Some ev' /\ ev_key ev' = (when, _priority ev) /\
    flags ev' = flags (mark_main q
      (upd_flags (fun f => set (clear f Squashed) Scheduled) ev)) /\
    others_same e (events q) (events q').
Proof.
  intros Hq He Ha Hw.
  destruct (maybe_dequeue_ok q bs e ev Hq He)
    as (h1 & hd1 & ev1 & Hrm & Hch1 & Hb1 & Hfl1 & Hk1 & Hev1 & Hco1 & Hoth1).
  set (bs1 := if scheduled ev then spec_remove (ev_key ev) e bs else bs) in *.
  assert (_priority ev1 = _priority ev) as Hp1 by (unfold core in Hco1; congruence).
  pose proof (core_flags _ _ Hco1) as Hf1.
  destruct (enqueue_ok h1 hd1 bs1 e ev1 when)
    as (h2 & hd2 & ev2 & Hins & Hch & Hb & Hev2 & Hkey & Hfl & Hoth); [done..| |].
  { rewrite Hfl1, elem_of_remove_from. tauto. }
  rewrite Hp1 in *. unfold requeue. fold bs1.
  unfold reschedule. replace (curTick q <=? when) with true by lia.
  cbn [c_assert]. bind_step. rewrite (load_Some _ _ _ He). bind_step.
  rewrite Ha, (qo_init _ _ Hq e ev He). cbn [c_assert]. do 2 bind_step.
  rewrite Hrm. bind_step. cbn [events head upd_links fst snd].
  rewrite (store_Some _ _ _ _ Hev1). bind_step. rewrite Hins. bind_step.
  cbn [events upd_links fst snd]. rewrite (store_Some _ _ _ _ Hev2). bind_step.
  rewrite (store_Some _ _ (upd_flags (fun f => clear f Squashed) ev2)) by (by simplify_map_eq).
  bind_step. rewrite insert_insert_eq. set (ev3 := upd_flags _ _).
  rewrite (store_Some _ _ ev3) by (by simplify_map_eq). bind_step. rewrite insert_insert_eq.
  eexists _, (mark_main (upd_links (upd_links q (h1, hd1)) (h2, hd2)) ev3). split; [done|].
  unfold upd_heap. cbn [events head qmain curTick upd_links fst snd].
  split_and!; try done.
  - apply (queue_ok_finish q bs h2 hd2 _ e ev2); try done; unfold ev3.
    + by trans h1.
    + by rewrite mark_main_links.
    + flag_simpl. rewrite Hfl, Hf1. apply (qo_init _ _ Hq e ev He).
    + flag_simpl. rewrite Hfl, Hf1. apply (qo_exit _ _ Hq e ev He).
    + flag_simpl. rewrite spec_insert_flatten. set_solver.
    + intros p Hp. rewrite spec_insert_flatten, Hfl1, elem_of_cons, elem_of_remove_from.
      naive_solver.
    + intros k [->|Hk%Hk1]%fst_spec_insert; [done|]. by apply (qo_time _ _ Hq).
  - by rewrite lookup_insert_eq.
  - rewrite <- Hkey. apply links_key. by rewrite mark_main_links.
  - apply mark_main_cong; [done|]. simpl. by rewrite Hfl, Hf1.
  - trans h1; [done|]. trans h2; eauto with evq.
Qed.
