(* ===== verification/EventQueueRun.v ===== *)
(** * Servicing events and the simulation loop

    [qstep T] is what code outside the queue may do to it, touching only
    events in [T]; [EventHandler T process] is what the queue asks of the
    [process] methods of its events.  The loop theorems are proved against
    that interface, and [ScriptHandler] implements it. *)
From S2P Require Import Prelude EventQueue EventQueueSpec EventQueueProof EventQueueInv.
Import EvQ.

(** ** Servicing the head *)
Lemma pop_head_ok q bs :
  queue_ok q bs -> bs <> [] ->
  exists e bs' ev ev' q', spec_pop bs = Some (e, bs') /\ pop_head q = Ok (e, q') /\
    queue_ok q' bs' /\ curTick q' = curTick q /\ qmain q' = qmain q /\
    events q !! e = Some ev /\ events q' !! e = Some ev' /\
    ev_key ev' = ev_key ev /\ flags ev' = clear (flags ev) Scheduled /\
    others_same e (events q) (events q').
Proof.
  intros Hq Hne. destruct bs as [|[k b] bs]; [done|]. pose proof (qo_chain _ _ Hq) as Hc.
  pose proof (bins_nodup _ (qo_bins _ _ Hq)) as Hnd. rewrite flatten_cons in Hnd.
  apply chain_top_key in Hc as (e & l & ev & -> & Hhd & He & Hk & Hn & Hl & Hc).
  assert (Hpop : exists bs', spec_pop ((k, e :: l) :: bs) = Some (e, bs')).
  { destruct l as [|e' l]; by eexists. }
  destruct Hpop as [bs' Hpop]. pose proof (spec_pop_flatten _ _ _ Hpop) as Hfl.
  pose proof (spec_pop_ok _ _ _ Hpop (qo_bins _ _ Hq)) as Hbs'.
  set (ev' := upd_flags (fun f => clear f Scheduled) ev).
  assert (Hfin : forall h1 hd, others_same e (events q) h1 -> h1 !! e = Some ev ->
    chain h1 hd bs' -> queue_ok (mkQueue (<[e := ev']> h1) hd (qmain q) (curTick q)) bs').
  { intros h1 hd Hoth He1 Hch. rewrite flatten_cons in Hfl. simpl in Hnd.
    apply (queue_ok_finish q ((k, e :: l) :: bs) h1 hd _ e ev); try done; unfold ev'.
    - flag_simpl. apply (qo_init _ _ Hq e ev He).
    - flag_simpl. apply (qo_exit _ _ Hq e ev He).
    - flag_simpl. simpl in Hfl. injection Hfl as <-. apply NoDup_cons in Hnd as [Hnd _]. naive_solver.
    - intros p Hp. rewrite flatten_cons, Hfl. set_solver.
    - intros k' Hk'. apply (qo_time _ _ Hq).
      destruct l as [|e' l]; simpl in Hpop; injection Hpop as <-; set_solver. }
  exists e, bs', ev, ev'. unfold pop_head. rewrite Hhd. cbn [deref]. bind_step.
  rewrite (load_Some _ _ _ He). bind_step. rewrite (store_Some _ _ _ _ He). bind_step.
  rewrite Hn. destruct l as [|n l]; cbn [hd_error]; simpl in Hpop; injection Hpop as <-.
  - eexists. split; [done|]. split; [done|]. cbn [events curTick qmain].
    split_and!; try done; [by apply Hfin| |]; eauto with evq. by rewrite lookup_insert_eq.
  - simpl in Hnd. assert (n <> e) as Hne' by (apply NoDup_cons in Hnd as [? _]; set_solver).
    destruct Hl as (nv & Hnv & Hnk & Hnn & Hl).
    rewrite (store_Some _ _ nv) by (by rewrite lookup_insert_ne). bind_step.
    eexists. split; [done|]. split; [done|]. cbn [events curTick qmain].
    rewrite insert_insert_ne by done. split_and!; try done.
    + apply Hfin; [|by rewrite lookup_insert_ne|].
      * apply others_same_core. by apply (same_core_insert _ _ nv).
      * apply NoDup_cons in Hnd as [_ Hnd]. apply NoDup_cons in Hnd as [Hnd _].
        eapply chain_cons_intro; [by simplify_map_eq|done|done| |];
          [apply inbin_frame_insert|apply chain_frame_insert]; set_solver.
    + by rewrite lookup_insert_eq.
    + trans (<[n := set_nextBin (nextBin ev) nv]> (events q)); [|eauto with evq].
      apply others_same_core. by apply (same_core_insert _ _ nv).
Qed.

(** The event at the head has the least (time, priority). *)
Lemma spec_pop_min q bs e bs' ev :
  queue_ok q bs -> spec_pop bs = Some (e, bs') -> events q !! e = Some ev ->
  forall p pv, events q !! p = Some pv -> scheduled pv = true -> kle (ev_key ev) (ev_key pv).
Proof.
  intros Hq Hpop He p pv Hp Hs.
  destruct (queue_ok_key _ _ _ _ Hq Hp Hs) as (b & Hb & Hpb).
  destruct bs as [|[k b0] bs]; [done|]. pose proof (qo_chain _ _ Hq) as Hc.
  apply chain_top_key in Hc as (e' & l & ev' & -> & _ & He' & Hk & _).
  assert (e' = e) as -> by (destruct l; simpl in Hpop; by injection Hpop).
  assert (ev' = ev) as -> by congruence. rewrite Hk.
  pose proof (bins_sorted _ (qo_bins _ _ Hq)) as Hsrt. simpl in Hsrt.
  apply StronglySorted_inv in Hsrt as [_ Hfa].
  apply elem_of_cons in Hb as [[= -> _]|Hb]; [by right|].
  left. eapply Forall_forall in Hfa; [done|]. by eapply elem_of_keys.
Qed.

(** ** Advancing the clock to the head *)
Lemma queue_ok_head q k b bs :
  queue_ok q ((k, b) :: bs) -> empty_queue q = false /\ nextTick q = Ok k.1.
Proof.
  intros Hq. pose proof (qo_chain _ _ Hq) as Hc.
  apply chain_top_key in Hc as (e & l & ev & -> & Hhd & He & Hk & _).
  unfold empty_queue, nextTick. rewrite Hhd. cbn [deref]. bind_step.
  rewrite (load_Some _ _ _ He). bind_step. by rewrite <- Hk.
Qed.

Lemma queue_ok_nil q : queue_ok q [] -> empty_queue q = true.
Proof. intros Hq. pose proof (qo_chain _ _ Hq) as Hc. unfold empty_queue. by rewrite Hc. Qed.

Lemma queue_ok_advance q k b bs :
  queue_ok q ((k, b) :: bs) ->
  curTick q <= k.1 <= MaxTick /\ queue_ok (set_curTick k.1 q) ((k, b) :: bs).
Proof.
  intros Hq. assert (Hk : curTick q <= k.1 <= MaxTick).
  { apply (qo_time _ _ Hq). by apply elem_of_cons; left. }
  split; [done|]. pose proof (qo_now _ _ Hq).
  split; cbn [events head curTick set_curTick]; try apply Hq; [|lia].
  intros k' Hk'. pose proof (qo_time _ _ Hq k' Hk').
  cbn [map fst] in Hk'. apply elem_of_cons in Hk' as [->|Hk']; [lia|].
  pose proof (bins_sorted _ (qo_bins _ _ Hq)) as Hsrt. simpl in Hsrt.
  apply StronglySorted_inv in Hsrt as [_ Hfa].
  eapply Forall_forall in Hfa; [|done]. unfold klt in Hfa. simpl. lia.
Qed.

(** ** What a client may do *)
Definition new_event (exit : bool) (garbage pri : Z) : Event :=
  if exit then SimLoopExitEvent_new garbage else Event_new garbage pri.

Inductive qstep (T : positive -> Prop) (q : queue) : queue -> Prop :=
| qs_new e exit garbage pri :
    T e -> events q !! e = None ->
    qstep T q (upd_heap q (<[e := new_event exit garbage pri]> (events q)))
| qs_schedule e when q' :
    T e -> 0 <= when <= MaxTick -> schedule e when q = Ok q' -> qstep T q q'
| qs_deschedule e q' : T e -> deschedule e q = Ok q' -> qstep T q q'
| qs_reschedule e when always q' :
    T e -> 0 <= when <= MaxTick -> reschedule e when always q = Ok q' -> qstep T q q'
| qs_squash e ev :
    T e -> events q !! e = Some ev ->
    qstep T q (upd_heap q (<[e := upd_flags (fun f => set f Squashed) ev]> (events q))).

Abbreviation qsteps T := (rtc (qstep T)).

Lemma queue_ok_new q bs e exit garbage pri :
  queue_ok q bs -> events q !! e = None ->
  queue_ok (upd_heap q (<[e := new_event exit garbage pri]> (events q))) bs.
Proof.
  intros Hq He. assert (Hni : e ∉ flatten bs).
  { intros Hin. destruct (elem_of_flatten_lookup _ _ _ Hq Hin) as (ev & Hev & _). congruence. }
  apply (queue_ok_rebuild q bs _ _ e (new_event exit garbage pri));
    try done; try (by destruct exit); cbn [events head upd_heap].
  - eauto with evq.
  - by rewrite lookup_insert_eq.
  - apply chain_frame_insert; [done|apply Hq].
  - apply Hq.
  - apply (qo_time _ _ Hq).
Qed.

Lemma queue_ok_squash q bs e ev g :
  queue_ok q bs -> events q !! e = Some ev ->
  g = (fun f => set f Squashed) \/ g = (fun f => clear f Squashed) ->
  queue_ok (upd_heap q (<[e := upd_flags g ev]> (events q))) bs.
Proof.
  intros Hq He Hg.
  assert (Hland : forall m, Z.land Squashed m = 0 -> Z.land (g (flags ev)) m = Z.land (flags ev) m).
  { intros m Hm. destruct Hg as [-> | ->]; [by apply land_set_other|by apply land_clear_other]. }
  apply (queue_ok_finish q bs (events q) (head q) bs e ev); try done;
    [apply Hq|apply Hq|..|apply (qo_time _ _ Hq)].
  - unfold initialized. cbn [flags upd_flags]. rewrite Hland by done. apply (qo_init _ _ Hq e ev He).
  - unfold isExitEvent, isSet. cbn [flags upd_flags]. rewrite !Hland by done. apply (qo_exit _ _ Hq e ev He).
  - unfold scheduled, isSet. cbn [flags upd_flags]. rewrite !Hland by done. apply (qo_sched _ _ Hq e ev He).
Qed.

(** One client step keeps the invariant, the clock and the events outside [T]. *)
Lemma qstep_ok T q q' bs :
  queue_ok q bs -> qstep T q q' ->
  exists bs', queue_ok q' bs' /\ curTick q' = curTick q /\
    (forall p, ~ T p -> core <$> events q' !! p = core <$> events q !! p).
Proof.
  intros Hq Hst. pose proof (qo_now _ _ Hq) as Hnow. assert (Hmax : MaxTick < 2 ^ 64) by done.
  assert (Ho : forall e h', T e -> others_same e (events q) h' ->
    forall p, ~ T p -> core <$> h' !! p = core <$> events q !! p).
  { intros e h' HT Hoth p Hp. apply Hoth. by intros ->. }
  destruct Hst as [e x g pri HT He|e when q2 HT Hw Hs|e q2 HT Hs|e when al q2 HT Hw Hs|e ev HT He].
  - exists bs. split; [by apply queue_ok_new|]. split; [done|]. apply (Ho e); [done|]. apply others_same_insert.
  - pose proof Hs as Hs'. unfold schedule in Hs. apply res_bind_Ok in Hs as (? & Hwh & Hs).
    apply res_bind_Ok in Hs as (ev & Hev & Hs). apply res_bind_Ok in Hs as (? & Hsch & Hs).
    clear Hs. unfold load in *. repeat inv_res_step. apply negb_true_iff in Hsch.
    rewrite !uint_small in Hwh by lia.
    destruct (schedule_ok q bs e ev when) as (q1 & ev1 & Hrun & Hok & Ht & _ & _ & _ & _ & Hoth);
      [done|done|done|lia|].
    assert (q1 = q2) as -> by congruence. eexists. split; [done|]. eauto.
  - pose proof Hs as Hs'. unfold deschedule in Hs. apply res_bind_Ok in Hs as (ev & Hev & Hs).
    apply res_bind_Ok in Hs as (? & Hsch & Hs). clear Hs. unfold load in *. repeat inv_res_step.
    destruct (deschedule_ok q bs e ev) as (q1 & Hrun & Hok & Ht & _ & _ & Hoth); [done..|].
    assert (q1 = q2) as -> by congruence. eexists. split; [done|]. eauto.
  - pose proof Hs as Hs'. unfold reschedule in Hs. apply res_bind_Ok in Hs as (? & Hwh & Hs).
    apply res_bind_Ok in Hs as (ev & Hev & Hs). apply res_bind_Ok in Hs as (? & Hal & Hs).
    clear Hs. unfold load in *. repeat inv_res_step.
    destruct (reschedule_ok q bs e ev when al) as (q1 & ev1 & Hrun & Hok & Ht & _ & _ & _ & _ & Hoth);
      [done|done|done|lia|].
    assert (q1 = q2) as -> by congruence. eexists. split; [done|]. eauto.
  - exists bs. split; [by apply queue_ok_squash; auto|]. split; [done|].
    apply (Ho e); [done|]. apply others_same_insert.
Qed.

Lemma qsteps_ok T q q' bs :
  queue_ok q bs -> qsteps T q q' ->
  exists bs', queue_ok q' bs' /\ curTick q' = curTick q /\
    (forall p, ~ T p -> core <$> events q' !! p = core <$> events q !! p).
Proof.
  intros Hq Hst. revert bs Hq. induction Hst as [q|q q1 q' H1 _ IH]; intros bs Hq; [by exists bs|].
  destruct (qstep_ok _ _ _ _ Hq H1) as (bs1 & Hq1 & Ht1 & Ho1).
  destruct (IH _ Hq1) as (bs' & Hq' & Ht' & Ho'). exists bs'. split; [done|].
  split; [congruence|]. intros p Hp. by rewrite Ho', Ho1.
Qed.

(** ** The interface of [process]

    Called for an event that was just taken off a well-formed queue, the
    method returns, does nothing but client steps on events of [T], and does
    not free the event. *)
Definition process_ok (T : positive -> Prop) (process : positive -> queue -> res queue)
    (e : positive) (q1 : queue) : Prop :=
  exists q2, process e q1 = Ok q2 /\ qsteps T q1 q2 /\ is_Some (events q2 !! e).

Class EventHandler (T : positive -> Prop) (process : positive -> queue -> res queue) : Prop :=
  handler_ok : forall e q1 bs1 ev, T e -> queue_ok q1 bs1 ->
    events q1 !! e = Some ev -> scheduled ev = false -> process_ok T process e q1.

Lemma auto_delete_ok q bs e ev :
  queue_ok q bs -> events q !! e = Some ev ->
  exists q', auto_delete e q = Ok q' /\ queue_ok q' bs /\ curTick q' = curTick q /\
    others_same e (events q) (events q').
Proof.
  intros Hq He. unfold auto_delete. rewrite (load_Some _ _ _ He). bind_step.
  destruct (isSet (flags ev) AutoDelete); cbn [andb]; [|by exists q].
  destruct (scheduled ev) eqn:Hs; cbn [negb]; [by exists q|].
  unfold delete_event. rewrite (load_Some _ _ _ He). bind_step. rewrite Hs.
  cbn [negb c_assert]. do 2 bind_step. eexists. split; [done|].
  split; [by eapply queue_ok_delete|]. split; [done|].
  intros p Hp. cbn [events upd_heap]. by rewrite lookup_delete_ne.
Qed.

Definition popped (q q1 : queue) (e : positive) : Prop :=
  exists ev ev1, events q !! e = Some ev /\ events q1 !! e = Some ev1 /\
    ev_key ev1 = ev_key ev /\ flags ev1 = clear (flags ev) Scheduled.

(** What became of the popped queue [q1] when [e] was handled: either the
    event was squashed, or [process] ran on [q1]. *)
Definition handled (process : positive -> queue -> res queue) (e : positive)
    (q1 q' : queue) : Prop :=
  forall bs1, queue_ok q1 bs1 ->
    queue_ok q' bs1 \/
    exists q2, process e q1 = Ok q2 /\ forall bs2, queue_ok q2 bs2 -> queue_ok q' bs2.

(** ** [EventQueue::serviceOne] *)
Lemma serviceOne_ok T process q bs e bs' :
  queue_ok q bs -> spec_pop bs = Some (e, bs') ->
  (forall q1, queue_ok q1 bs' -> curTick q1 = curTick q -> popped q q1 e ->
    process_ok T process e q1) ->
  exists o q' bs2, serviceOne process q = Ok (o, q') /\ queue_ok q' bs2 /\
    curTick q' = curTick q /\ (forall x, o = Some x -> x = e) /\
    (forall p, ~ T p -> p <> e -> core <$> events q' !! p = core <$> events q !! p) /\
    (exists q1, queue_ok q1 bs' /\ curTick q1 = curTick q /\ popped q q1 e /\
       handled process e q1 q').
Proof.
  intros Hq Hpop Hproc.
  destruct (pop_head_ok q bs Hq) as (e1 & bs1 & ev & ev' & q1 & Hpop1 & Hrun & Hq1 & Ht1 & _ &
    He & He1 & Hk & Hf & Hoth); [by intros ->|].
  assert (e1 = e /\ bs1 = bs') as [-> ->] by (split; congruence).
  unfold serviceOne. rewrite Hrun. bind_step. rewrite (load_Some _ _ _ He1). bind_step.
  destruct (negb (squashed ev')).
  - destruct (Hproc q1 Hq1 Ht1) as (q2 & Hpr & Hst & [ev2 He2]); [by exists ev, ev'|].
    rewrite Hpr. bind_step. rewrite (load_Some _ _ _ He2). bind_step.
    destruct (qsteps_ok _ _ _ _ Hq1 Hst) as (bs2 & Hq2 & Ht2 & Ho2).
    destruct (isExitEvent ev2) eqn:Hx.
    + rewrite (qo_exit _ _ Hq2 e ev2 He2 Hx). cbn [negb c_assert]. bind_step.
      exists (Some e), q2, bs2. split_and!; [done|done|congruence|by intros ? [= <-]| |].
      * intros p Hp Hpe. rewrite Ho2 by done. by apply Hoth.
      * exists q1. split_and!; [done..|by exists ev, ev'|]. intros bs3 _. right. by exists q2.
    + destruct (auto_delete_ok _ _ _ _ Hq2 He2) as (q3 & Had & Hq3 & Ht3 & Hoth3).
      rewrite Had. bind_step. exists None, q3, bs2. split_and!; [done|done|congruence|done| |].
      * intros p Hp Hpe. rewrite Hoth3, Ho2 by done. by apply Hoth.
      * exists q1. split_and!; [done..|by exists ev, ev'|]. intros bs3 _. right.
        exists q2. split; [done|]. intros bs4 Hbs4.
        destruct (auto_delete_ok _ _ _ _ Hbs4 He2) as (q4 & Hq4 & Hok4 & _). congruence.
  - rewrite (store_Some _ _ _ _ He1). bind_step.
    pose proof (queue_ok_squash q1 bs' e ev' _ Hq1 He1 (or_intror eq_refl)) as Hq2.
    destruct (auto_delete_ok _ _ e (upd_flags (fun f => clear f Squashed) ev') Hq2)
      as (q3 & Had & Hq3 & Ht3 & Hoth3); [by cbn [events upd_heap]; simplify_map_eq|].
    rewrite Had. bind_step.
    exists None, q3, bs'. split_and!; [done|done|by rewrite Ht3|done| |].
    + intros p Hp Hpe. rewrite Hoth3 by done. cbn [events upd_heap].
      rewrite lookup_insert_ne by done. by apply Hoth.
    + exists q1. split_and!; [done..|by exists ev, ev'|]. intros bs3 Hbs3. left.
      pose proof (queue_ok_squash q1 bs3 e ev' _ Hbs3 He1 (or_intror eq_refl)) as Hbs4.
      destruct (auto_delete_ok _ _ e (upd_flags (fun f => clear f Squashed) ev') Hbs4)
        as (q4 & Hq4 & Hok4 & _); [by cbn [events upd_heap]; simplify_map_eq|]. congruence.
Qed.

(** ** The simulation loop *)
Section simulation.
Context (process : positive -> queue -> res queue) (is_exit_class : positive -> bool).
Context (limit : positive) (until : Z).
Context `{Hh : !EventHandler (fun e => e <> limit) process}.
(** Exit events are [SimLoopExitEvent]s, and the limit event does not repeat. *)
Context (Hclass : forall e, is_exit_class e = true).
Context (Hlimit : forall q, process limit q = SimLoopExitEvent_process 0 limit q).

(** The limit event is queued, and stays so until it is serviced. *)
Definition limit_armed (q : queue) : Prop :=
  exists lv, events q !! limit = Some lv /\ scheduled lv = true /\ isExitEvent lv = true /\
    squashed lv = false /\ isSet (flags lv) IsMainQueue = true /\ _when lv = until.

Lemma limit_armed_core q q' :
  core <$> events q' !! limit = core <$> events q !! limit ->
  limit_armed q -> limit_armed q'.
Proof.
  intros Hc (lv & Hl & H1 & H2 & H3 & H4 & H5). rewrite Hl in Hc.
  destruct (events q' !! limit) as [lv'|] eqn:Hl'; simpl in Hc; [|done].
  assert (core lv' = core lv) as Hcc by congruence.
  pose proof (core_flags _ _ Hcc) as Hf. unfold core in Hcc.
  exists lv'. unfold scheduled, isExitEvent, squashed in *. rewrite Hf.
  split_and!; congruence.
Qed.

Lemma limit_bounds q k b bs :
  queue_ok q ((k, b) :: bs) -> limit_armed q -> k.1 <= until.
Proof.
  intros Hq (lv & Hl & Hs & _ & _ & _ & <-).
  destruct (pop_head_ok _ _ Hq) as (e & bs' & ev & _ & _ & Hpop & _ & _ & _ & _ & He & _); [done|].
  pose proof (spec_pop_min _ _ _ _ _ Hq Hpop He limit lv Hl Hs) as Hle.
  pose proof (qo_chain _ _ Hq) as Hc.
  apply chain_top_key in Hc as (e' & l & ev' & -> & _ & He' & Hk & _).
  assert (e' = e) as -> by (destruct l; simpl in Hpop; by injection Hpop).
  assert (ev' = ev) as -> by congruence. rewrite <- Hk.
  unfold kle, klt in Hle. simpl in *. destruct Hle as [?|[= ??]]; lia.
Qed.

(** One iteration up to the call of [serviceOne]. *)
Lemma iteration q bs :
  queue_ok q bs -> limit_armed q ->
  exists t o q' bs', empty_queue q = false /\ nextTick q = Ok t /\ curTick q <= t <= until /\
    serviceOne process (set_curTick t q) = Ok (o, q') /\ queue_ok q' bs' /\ curTick q' = t /\
    (o = None -> limit_armed q') /\
    (forall se, o = Some se -> se <> limit -> limit_armed q') /\
    (exists k b bs0 e bs1 q1, bs = (k, b) :: bs0 /\ k.1 = t /\
       spec_pop bs = Some (e, bs1) /\ queue_ok q1 bs1 /\ curTick q1 = t /\
       popped (set_curTick t q) q1 e /\ handled process e q1 q').
Proof.
  intros Hq Hl. destruct bs as [|[k b] bs].
  { exfalso. destruct Hl as (lv & Hl & Hs & _).
    destruct (queue_ok_key _ _ _ _ Hq Hl Hs) as (? & ? & _). set_solver. }
  destruct (queue_ok_head _ _ _ _ Hq) as [He Ht].
  destruct (queue_ok_advance _ _ _ _ Hq) as [Hle Hq1].
  pose proof (limit_bounds _ _ _ _ Hq Hl) as Hu.
  destruct (pop_head_ok _ _ Hq1) as (e & bs1 & _ & _ & _ & Hpop & _); [done|].
  assert (Hproc : forall q1, queue_ok q1 bs1 -> curTick q1 = curTick (set_curTick k.1 q) ->
    popped (set_curTick k.1 q) q1 e -> process_ok (fun x => x <> limit) process e q1).
  { intros q1 Hok1 _ (ev & ev1 & Hev & Hev1 & _ & Hf). destruct (decide (e = limit)) as [->|Hne].
    - exists q1. rewrite Hlimit. unfold SimLoopExitEvent_process.
      rewrite (load_Some _ _ _ Hev1). bind_step.
      destruct Hl as (lv & Hlv & _ & _ & _ & Hm & _). cbn [events set_curTick] in Hev.
      assert (lv = ev) as -> by congruence. rewrite Hf, isSet_clear_other, Hm by done.
      by split_and!; [|apply rtc_refl|rewrite Hev1].
    - apply (Hh e q1 bs1 ev1); [done..|]. unfold scheduled. by rewrite Hf, isSet_clear_same. }
  destruct (serviceOne_ok _ _ _ _ _ _ Hq1 Hpop Hproc)
    as (o & q' & bs2 & Hrun & Hq' & Ht' & Ho & Hc & q1' & Hhd).
  exists k.1, o, q', bs2. split_and!; try done; try lia.
  - intros ->. destruct (decide (e = limit)) as [->|Hne].
    + exfalso. revert Hrun. unfold serviceOne.
      destruct (pop_head_ok _ _ Hq1) as (e1 & bs1' & ev & ev' & q1 & Hpop1 & -> & Hok1 & Ht1 & _ &
        Hev & Hev1 & _ & Hf & _); [done|]. assert (e1 = limit) as -> by congruence.
      bind_step. rewrite (load_Some _ _ _ Hev1). bind_step.
      destruct Hl as (lv & Hlv & _ & Hx & Hsq & Hm & _). cbn [events set_curTick] in Hev.
      assert (lv = ev) as -> by congruence. unfold squashed, isExitEvent in *.
      rewrite Hf, isSet_clear_other, Hsq by done. cbn [negb].
      rewrite Hlimit. unfold SimLoopExitEvent_process. rewrite (load_Some _ _ _ Hev1). bind_step.
      rewrite Hf, isSet_clear_other, Hm by done. cbn [negb]. rewrite Z.eqb_refl. bind_step.
      rewrite (load_Some _ _ _ Hev1). bind_step. unfold isExitEvent.
      rewrite Hf, isSet_clear_other, Hx by done. intros H. inv_res. done.
    + apply (limit_armed_core (set_curTick k.1 q)); [|done]. apply Hc; [tauto|done].
  - intros se Hse Hne. apply Ho in Hse as ->.
    apply (limit_armed_core (set_curTick k.1 q)); [|done]. apply Hc; [tauto|done].
  - exists k, b, bs, e, bs1, q1'. split_and!; [done..|apply Hhd|apply Hhd|apply Hhd|apply Hhd].
Qed.

(** The body of the loop: it leaves with the exit event, or goes round. *)
Lemma loop_unfold fuel q bs :
  queue_ok q bs -> limit_armed q ->
  exists t o q' bs', curTick q <= t <= until /\ queue_ok q' bs' /\ curTick q' = t /\
    match o with
    | Some se => exists q'', simulate_loop process is_exit_class fuel limit q = Ok (se, q'', [t]) /\
        curTick q'' = t /\ exists bs'', queue_ok q'' bs''
    | None => limit_armed q' /\ simulate_loop process is_exit_class fuel limit q =
        match fuel with
        | O => Er OutOfFuel
        | S fuel => '(se, q2, ts) ← simulate_loop process is_exit_class fuel limit q';
                    Ok (se, q2, t :: ts)
        end
    end /\
    (exists k b bs0 e bs1 q1, bs = (k, b) :: bs0 /\ k.1 = t /\
       spec_pop bs = Some (e, bs1) /\ queue_ok q1 bs1 /\ curTick q1 = t /\
       popped (set_curTick t q) q1 e /\ handled process e q1 q').
Proof.
  intros Hq Hl. destruct (iteration q bs Hq Hl) as
    (t & o & q' & bs' & He & Ht & Hle & Hrun & Hq' & Ht' & Hn & Hs & Hpop).
  exists t, o, q', bs'. split_and!; [lia|lia|done|done| |done].
  assert (Hun : simulate_loop process is_exit_class fuel limit q =
    match o with
    | Some se => if decide (se = limit) then Ok (se, q', [t])
        else lv ← load (events q') limit; _ ← c_assert (scheduled lv);
             h ← store (events q') limit (upd_flags (fun f => set f Squashed));
             Ok (se, upd_heap q' h, [t])
    | None => match fuel with
        | O => Er OutOfFuel
        | S fuel => '(se, q2, ts) ← simulate_loop process is_exit_class fuel limit q';
                    Ok (se, q2, t :: ts)
        end
    end).
  { destruct fuel; cbn [simulate_loop]; rewrite He; cbn [negb c_assert]; bind_step;
      rewrite Ht; bind_step; replace (curTick q <=? t) with true by lia; cbn [c_assert];
      bind_step; rewrite Hrun; bind_step; destruct o; rewrite ?Hclass; done. }
  destruct o as [se|]; [|by auto]. rewrite Hun. destruct (decide (se = limit)) as [->|Hne].
  { exists q'. split; [done|]. split; [done|]. by exists bs'. }
  destruct (Hs se eq_refl Hne) as (lv & Hlv & Hsl & _). rewrite (load_Some _ _ _ Hlv).
  bind_step. rewrite Hsl. cbn [c_assert]. bind_step. rewrite (store_Some _ _ _ _ Hlv). bind_step.
  eexists. split; [done|]. split; [done|]. exists bs'. apply queue_ok_squash; auto.
Qed.

(** The loop never meets a fault; it services events in time order, none of
    them after the limit. *)
Lemma simulate_loop_safe fuel q bs :
  queue_ok q bs -> limit_armed q ->
  match simulate_loop process is_exit_class fuel limit q with
  | Ok (se, q', ts) =>
      (exists bs', queue_ok q' bs') /\ StronglySorted Z.le ts /\
      Forall (fun t => curTick q <= t <= until) ts /\ last ts = Some (curTick q')
  | Er f => f = OutOfFuel
  end.
Proof.
  revert q bs. induction fuel as [|fuel IH]; intros q bs Hq Hl;
    [destruct (loop_unfold 0 q bs Hq Hl) as (t & [se|] & q' & bs' & Hle & Hq' & Ht' & Hrun & _)
    |destruct (loop_unfold (S fuel) q bs Hq Hl)
      as (t & [se|] & q' & bs' & Hle & Hq' & Ht' & Hrun & _)].
  all: try (destruct Hrun as (q'' & -> & Ht'' & Hq''); split_and!;
    [done|repeat constructor|repeat constructor; lia|by rewrite <- Ht'']).
  all: destruct Hrun as [Hl' ->].
  { done. }
  specialize (IH q' bs' Hq' Hl').
  destruct (simulate_loop process is_exit_class fuel limit q') as [[[se q2] ts]|f]; [|done].
  bind_step. destruct IH as (Hq2 & Hsrt & Hfa & Hlast). split_and!; [done| | |].
  - constructor; [done|]. eapply Forall_impl; [done|]. simpl. lia.
  - constructor; [lia|]. eapply Forall_impl; [done|]. simpl. lia.
  - by destruct ts.
Qed.
End simulation.

(** ** Clocked events

    The usual [process] method of M5's tick events: handle the cycle and
    schedule the same event one [period] later ([0]: do not). *)
Definition tick_process (period : positive -> Z) (limit e : positive) (q : queue) : res queue :=
  if decide (e = limit) then SimLoopExitEvent_process 0 limit q
  else if (period e =? 0) || (MaxTick <? curTick q + period e) then Ok q
  else schedule e (curTick q + period e) q.

Section ticks.
Context (period : positive -> Z) (limit : positive) (until : Z).
Context (Hperiod : forall e, 0 <= period e).

Lemma tick_schedule_ok e q bs ev :
  queue_ok q bs -> events q !! e = Some ev -> scheduled ev = false -> e <> limit ->
  tick_process period limit e q = Ok q \/
  exists q', tick_process period limit e q = Ok q' /\ 0 < period e /\
    curTick q + period e <= MaxTick /\ schedule e (curTick q + period e) q = Ok q' /\
    is_Some (events q' !! e) /\
    queue_ok q' (spec_insert (curTick q + period e, _priority ev) e bs).
Proof.
  intros Hq He Hs Hne. unfold tick_process. rewrite decide_False by done.
  destruct (_ || _) eqn:Hc; [by left|]. right. specialize (Hperiod e).
  destruct (schedule_ok q bs e ev (curTick q + period e))
    as (q' & ev' & Hrun & Hq' & _ & _ & He' & _); [done..|lia|].
  exists q'. split_and!; try done; lia.
Qed.

#[export] Instance tick_handler : EventHandler (fun e => e <> limit) (tick_process period limit).
Proof.
  intros e q1 bs1 ev He Hq Hev Hs.
  destruct (tick_schedule_ok e q1 bs1 ev) as [Hrun|(q' & Hrun & Hp & Hm & Hsc & He' & _)]; [done..| |].
  - exists q1. split_and!; [done|apply rtc_refl|by rewrite Hev].
  - exists q'. split_and!; [done| |done]. apply rtc_once.
    apply (qs_schedule _ _ e (curTick q1 + period e)); [done| |done].
    pose proof (qo_now _ _ Hq). lia.
Qed.

(** Ticks left until the limit, over all queued events. *)
Fixpoint potential (bs : bins) : nat :=
  match bs with
  | [] => 0
  | (k, b) :: bs' => length b * Z.to_nat (until + 1 - k.1) + potential bs'
  end%nat.

Lemma potential_insert k e bs :
  potential (spec_insert k e bs) = (Z.to_nat (until + 1 - k.1) + potential bs)%nat.
Proof.
  induction bs as [|[k' b] bs IH]; cbn [spec_insert potential length]; [lia|].
  repeat case_decide; subst; cbn [potential length]; lia.
Qed.

Lemma potential_pop k b bs e bs' :
  spec_pop ((k, b) :: bs) = Some (e, bs') ->
  potential ((k, b) :: bs) = (Z.to_nat (until + 1 - k.1) + potential bs')%nat.
Proof.
  destruct b as [|x [|y b]]; simpl; intros H; simplify_eq; cbn [potential length]; lia.
Qed.

(** Servicing one event uses up potential. *)
Lemma tick_handled q k b bs0 e bs1 q1 q' :
  spec_pop ((k, b) :: bs0) = Some (e, bs1) -> queue_ok q1 bs1 -> curTick q1 = k.1 ->
  k.1 <= until -> popped q q1 e -> limit_armed limit until q ->
  handled (tick_process period limit) e q1 q' ->
  exists bs2, queue_ok q' bs2 /\ (potential bs2 < potential ((k, b) :: bs0))%nat.
Proof.
  intros Hpop Hq1 Ht1 Hle (ev & ev1 & Hev & Hev1 & _ & Hfl) Hm Hhd.
  rewrite (potential_pop _ _ _ _ _ Hpop).
  destruct (Hhd bs1 Hq1) as [Hq'|(q2 & Hrun & Hq')]; [exists bs1; split; [done|lia]|].
  destruct (decide (e = limit)) as [->|Hne].
  - unfold tick_process in Hrun. rewrite decide_True in Hrun by done.
    unfold SimLoopExitEvent_process in Hrun. rewrite (load_Some _ _ _ Hev1) in Hrun.
    simpl in Hrun. destruct Hm as (lv & Hlv & _ & _ & _ & Hm & _).
    assert (lv = ev) as -> by congruence.
    rewrite Hfl, isSet_clear_other, Hm in Hrun by done. simpl in Hrun. injection Hrun as <-. exists bs1. split; [by apply Hq'|lia].
  - assert (Hs : scheduled ev1 = false) by (unfold scheduled; by rewrite Hfl, isSet_clear_same).
    destruct (tick_schedule_ok e q1 bs1 ev1) as [Hr|(q3 & Hr & Hp & _ & _ & _ & Hq3)]; [done..| |].
    + assert (q2 = q1) as -> by congruence. exists bs1. split; [by apply Hq'|lia].
    + assert (q2 = q3) as -> by congruence. eexists. split; [by apply Hq'|].
      rewrite potential_insert, Ht1. cbn [fst]. lia.
Qed.

(** A clocked simulation reaches its limit. *)
Lemma tick_loop_terminates is_exit fuel q bs :
  (forall e, is_exit e = true) ->
  queue_ok q bs -> limit_armed limit until q -> (potential bs <= fuel)%nat ->
  exists r, simulate_loop (tick_process period limit) is_exit fuel limit q = Ok r.
Proof.
  intros Hx. assert (Hlim : forall q, tick_process period limit limit q =
    SimLoopExitEvent_process 0 limit q).
  { intros q0. unfold tick_process. by rewrite decide_True. }
  revert q bs. induction fuel as [fuel IH] using lt_wf_ind. intros q bs Hq Hl Hf.
  destruct (loop_unfold (tick_process period limit) is_exit limit until Hx Hlim fuel q bs Hq Hl)
    as (t & o & q' & bs' & Hle & Hq' & Ht' & Hrun & k & b & bs0 & e & bs1 & q1 & -> & Hk &
        Hpop & Hq1 & Ht1 & Hpd & Hhd).
  destruct o as [se|]; [destruct Hrun as (q'' & -> & _); by eexists|].
  destruct Hrun as [Hl' ->].
  destruct (tick_handled (set_curTick t q) k b bs0 e bs1 q1 q') as (bs2 & Hq2 & Hlt);
    [done|done|lia|lia|done|done|done|].
  destruct fuel as [|fuel]; [lia|].
  destruct (IH fuel ltac:(lia) q' bs2) as [[[se q2] ts] Hr]; [done|done|lia|].
  rewrite Hr. bind_step. by eexists.
Qed.
End ticks.
