(* ===== verification/EventQueueMisc.v ===== *)
(** * Self check and checkpointing of the event queue *)
From S2P Require Import Prelude EventQueue EventQueueSpec EventQueueProof EventQueueInv EventQueueRun.
Import EvQ.

(** ** [EventQueue::debugVerify] *)
Lemma verify_bin_ok h k l fuel time pri seen :
  inbin h k l -> (length l <= fuel)%nat -> NoDup l -> (forall e, e ∈ l -> e ∉ seen) ->
  kle (time, pri) k ->
  verify_bin fuel h (hd_error l) time pri seen =
    Ok (Some (match l with [] => (time, pri) | _ => k end, list_to_set l ∪ seen)).
Proof.
  revert fuel time pri seen. induction l as [|e l IH]; intros fuel time pri seen Hin Hf Hnd Hs Hk.
  { cbn [hd_error]. destruct fuel; cbn [verify_bin]; do 3 f_equal; set_solver. }
  destruct Hin as (ev & He & Hke & Hn & Hl). apply NoDup_cons in Hnd as [Hel Hnd].
  cbn [length] in Hf. destruct fuel as [|fuel]; [lia|]. cbn [hd_error verify_bin].
  rewrite (load_Some _ _ _ He). bind_step.
  unfold kle, klt in Hk. rewrite <- Hke in Hk. simpl in Hk.
  assert (Hk' : time < _when ev \/ time = _when ev /\ pri <= _priority ev).
  { destruct Hk as [?|Hk]; [lia|]. unfold ev_key in Hk. injection Hk. lia. }
  replace (_when ev <? time) with false by lia.
  replace ((_when ev =? time) && (_priority ev <? pri)) with false by lia.
  rewrite decide_False by set_solver. rewrite Hn.
  rewrite IH; [|done|lia|done|set_solver|right; by rewrite <- Hke].
  do 2 f_equal. f_equal; [|set_solver].
  destruct l; [|done]. by rewrite <- Hke.
Qed.

Lemma verify_bins_ok h p bs fuel time pri seen :
  chain h p bs -> bins_ok bs -> (length bs <= fuel)%nat -> (length (flatten bs) <= size h)%nat ->
  (forall e, e ∈ flatten bs -> e ∉ seen) ->
  (forall k, k ∈ map fst bs -> kle (time, pri) k) ->
  verify_bins fuel h p time pri seen = Ok true.
Proof.
  revert p fuel time pri seen.
  induction bs as [|[k b] bs IH]; intros p fuel time pri seen Hc Hok Hf Hsz Hs Hk.
  { assert (p = None) as -> by done. by destruct fuel. }
  pose proof Hc as (e & l & ev & -> & -> & He & Hke & Hn & Hl & Hc')%chain_top_key.
  pose proof Hok as [Hsrt Hne Hnd]. rewrite flatten_cons in *. rewrite length_app in Hsz.
  apply NoDup_app in Hnd as (Hnb & Hdis & Hnd).
  simpl in Hsrt. apply StronglySorted_inv in Hsrt as [Hsrt Hfa].
  assert (Hv : verify_bin (size h) h (Some e) time pri seen =
    Ok (Some (k, list_to_set (e :: l) ∪ seen))).
  { apply (verify_bin_ok h k (e :: l)); [by exists ev|lia|done| |].
    - intros x Hx. apply Hs, elem_of_app. by left.
    - apply Hk. by apply elem_of_cons; left. }
  cbn [length] in Hf. destruct fuel as [|fuel]; [lia|]. cbn [verify_bins].
  rewrite Hv. bind_step. destruct k as [t p']. rewrite (load_Some _ _ _ He). bind_step.
  apply Forall_cons in Hne as [_ Hne].
  apply IH; [done|by split|lia|lia| |].
  { intros x Hx. rewrite elem_of_union, elem_of_list_to_set. intros [Hx'|Hx'].
    - by apply (Hdis x).
    - apply (Hs x); [|done]. apply elem_of_app. by right. }
  intros k' Hk'. left. by eapply Forall_forall in Hfa.
Qed.

(** ** [EventQueue::serialize] *)
Definition auto_ser (h : heap) (e : positive) : bool :=
  match h !! e with Some ev => isSet (flags ev) AutoSerialize | None => false end.

Lemma collect_bin_ok h k l fuel :
  inbin h k l -> (length l <= fuel)%nat ->
  collect_bin fuel h (hd_error l) = Ok (List.filter (auto_ser h) l).
Proof.
  revert fuel. induction l as [|e l IH]; intros fuel Hin Hf; [by destruct fuel|].
  destruct Hin as (ev & He & _ & Hn & Hl). cbn [length] in Hf. destruct fuel as [|fuel]; [lia|].
  cbn [hd_error collect_bin List.filter]. rewrite (load_Some _ _ _ He). bind_step.
  rewrite Hn, IH by (done || lia). bind_step.
  assert (auto_ser h e = isSet (flags ev) AutoSerialize) as -> by (unfold auto_ser; by rewrite He).
  done.
Qed.

Lemma collect_bins_ok h p bs fuel :
  chain h p bs -> (length bs <= fuel)%nat -> (length (flatten bs) <= size h)%nat ->
  collect_bins fuel h p = Ok (List.filter (auto_ser h) (flatten bs)).
Proof.
  revert p fuel. induction bs as [|[k b] bs IH]; intros p fuel Hc Hf Hsz.
  { assert (p = None) as -> by done. by destruct fuel. }
  pose proof Hc as (e & l & ev & -> & -> & He & Hke & Hn & Hl & Hc')%chain_top_key.
  rewrite flatten_cons, length_app in *. cbn [length] in Hf. destruct fuel as [|fuel]; [lia|].
  cbn [collect_bins]. change (Some e) with (hd_error (e :: l)).
  rewrite (collect_bin_ok h k); [|by exists ev|lia]. cbn [hd_error]. bind_step.
  rewrite (load_Some _ _ _ He). bind_step. rewrite IH by (done || lia). bind_step.
  by rewrite List.filter_app.
Qed.

Lemma serialize_collects q bs :
  queue_ok q bs ->
  EventQueue_serialize q =
    mapR (Event_serialize (events q)) (List.filter (auto_ser (events q)) (flatten bs)).
Proof.
  intros Hq. unfold EventQueue_serialize.
  pose proof (chain_fuel _ _ _ (qo_chain _ _ Hq) (qo_bins _ _ Hq)) as Hf.
  pose proof (bins_length_flatten _ (bins_nonempty _ (qo_bins _ _ Hq))) as Hl.
  rewrite (collect_bins_ok _ _ bs); [done|apply Hq|lia|lia].
Qed.

(** ** [EventQueue::unserialize] *)

(** Scheduling a list of (key, event) pairs one after the other. *)
Definition schedule_all (kes : list (key * positive)) (bs : bins) : bins :=
  foldl (fun bs ke => spec_insert ke.1 ke.2 bs) bs kes.

Lemma schedule_bin k l acc bs :
  Forall (klt k) (map fst bs) ->
  schedule_all (map (fun e => (k, e)) l) ((k, acc) :: bs) = (k, rev l ++ acc) :: bs.
Proof.
  intros Hs. revert acc. induction l as [|e l IH]; intros acc; [done|].
  cbn [map schedule_all foldl fst snd spec_insert].
  rewrite decide_False by apply klt_irrefl. rewrite decide_True by done.
  fold (schedule_all (map (fun e => (k, e)) l) ((k, e :: acc) :: bs)). rewrite IH.
  cbn [rev]. by rewrite <- app_assoc.
Qed.

Lemma spec_insert_last k e bs :
  Forall (fun k' => klt k' k) (map fst bs) -> spec_insert k e bs = bs ++ [(k, [e])].
Proof.
  induction bs as [|[k' b] bs IH]; [done|]. cbn [map fst]. intros [Hk Hs]%Forall_cons.
  cbn [spec_insert]. rewrite decide_False by (by apply kle_not_klt; left).
  rewrite decide_False by (intros ->; by eapply klt_irrefl). by rewrite IH.
Qed.

Lemma schedule_all_after kes bs0 bs :
  (forall k k', k ∈ map fst bs0 -> k' ∈ map fst kes -> klt k k') ->
  schedule_all kes (bs0 ++ bs) = bs0 ++ schedule_all kes bs.
Proof.
  revert bs. induction kes as [|[k e] kes IH]; intros bs Hlt; [done|].
  cbn [schedule_all foldl fst snd].
  assert (spec_insert k e (bs0 ++ bs) = bs0 ++ spec_insert k e bs) as ->.
  { assert (Hk : forall k', k' ∈ map fst bs0 -> klt k' k) by (intros; apply Hlt; set_solver).
    clear -Hk. induction bs0 as [|[k' b] bs0 IH]; [done|]. cbn [app spec_insert].
    assert (klt k' k) by (apply Hk; set_solver).
    rewrite decide_False by (by apply kle_not_klt; left).
    rewrite decide_False by (intros ->; by eapply klt_irrefl).
    rewrite IH; [done|]. intros; apply Hk. set_solver. }
  apply IH. set_solver.
Qed.

(** Rescheduling in service order reverses every bin. *)
Lemma schedule_all_reverses bs :
  bins_ok bs ->
  schedule_all (flatten_keys bs) [] = map (fun kb => (kb.1, rev kb.2)) bs.
Proof.
  intros [Hs Hn _]. induction bs as [|[k b] bs IH]; [done|].
  simpl in Hs. apply StronglySorted_inv in Hs as [Hs Hfa]. apply Forall_cons in Hn as [Hb Hn].
  specialize (IH Hs Hn).
  assert (Hfk : flatten_keys ((k, b) :: bs) = map (fun e => (k, e)) b ++ flatten_keys bs) by done.
  rewrite Hfk. unfold schedule_all in *. rewrite foldl_app.
  destruct b as [|e l]; [done|]. cbn [map foldl fst snd spec_insert].
  pose proof (schedule_bin k l [e] [] ltac:(constructor)) as Hbin. unfold schedule_all in Hbin.
  rewrite Hbin. fold (schedule_all (flatten_keys bs) [(k, rev l ++ [e])]).
  rewrite (schedule_all_after _ [(k, rev l ++ [e])] []); [|].
  - unfold schedule_all. by rewrite IH.
  - intros k1 k2 Hk1 Hk2. assert (k1 = k) as -> by set_solver.
    apply elem_of_map in Hk2 as ([k' e'] & -> & Hk2).
    apply elem_of_flatten_keys in Hk2 as (b' & Hb' & _).
    eapply Forall_forall in Hfa; [done|]. by eapply elem_of_keys.
Qed.

(** A section of a checkpoint that describes a live, queued event. *)
Record saved_ok (now : Z) (sv : saved) : Prop := {
  so_sched : isSet (sv_flags sv) Scheduled = true;
  so_squash : isSet (sv_flags sv) Squashed = false;
  so_init : Z.land (sv_flags sv) InitMask = Initialized;
  so_exit : isSet (sv_flags sv) IsExitEvent = true -> isSet (sv_flags sv) AutoDelete = false;
  so_time : now <= sv_when sv <= MaxTick
}.

Definition sv_key (sv : saved) : key := (sv_when sv, sv_priority sv).

Lemma Event_unserialize_ok q bs sv :
  queue_ok q bs -> events q !! sv_name sv = None -> saved_ok (curTick q) sv ->
  exists q',
    Event_unserialize (sv_name sv) sv
      (upd_heap q (<[sv_name sv := Event_new 0 Default_Pri]> (events q))) = Ok q' /\
    queue_ok q' (spec_insert (sv_key sv) (sv_name sv) bs) /\ curTick q' = curTick q /\
    others_same (sv_name sv) (events q) (events q').
Proof.
  intros Hq Hn Hsv. set (e := sv_name sv) in *.
  pose proof (queue_ok_new q bs e false 0 Default_Pri Hq Hn) as Hq1. cbn [new_event] in Hq1.
  assert (Hni : e ∉ flatten bs).
  { intros Hin. destruct (elem_of_flatten_lookup _ _ _ Hq Hin) as (ev & Hev & _). congruence. }
  unfold Event_unserialize. cbn [events upd_heap].
  rewrite (load_Some _ _ (Event_new 0 Default_Pri)) by (by simplify_map_eq). bind_step.
  change (scheduled (Event_new 0 Default_Pri)) with false. cbv iota. bind_step. cbn [events upd_heap].
  rewrite (store_Some _ _ (Event_new 0 Default_Pri)) by (by simplify_map_eq). bind_step.
  rewrite insert_insert_eq. erewrite store_Some by (by simplify_map_eq). bind_step.
  rewrite insert_insert_eq. rewrite (so_sched _ _ Hsv), (so_squash _ _ Hsv). cbn [negb andb].
  set (ev := upd_flags _ _). unfold upd_heap. cbn [head qmain curTick].
  assert (Hland : forall m, Z.land (Z.lor Squashed Scheduled) m = 0 ->
    Z.land (flags ev) m = Z.land (sv_flags sv) m).
  { intros m Hm. unfold ev. cbn [flags upd_flags]. by apply land_clear_other. }
  assert (Hs : scheduled ev = false).
  { unfold scheduled, isSet, ev. cbn [flags upd_flags]. unfold clear.
    rewrite <- Z.land_assoc. change (Z.land (Z.lnot (Z.lor Squashed Scheduled)) Scheduled) with 0.
    by rewrite Z.land_0_r. }
  set (q2 := mkQueue (<[e := ev]> (events q)) (head q) (qmain q) (curTick q)).
  assert (Hq2 : queue_ok q2 bs).
  { apply (queue_ok_rebuild q bs q2 bs e ev); try done; cbn [events head q2].
    - eauto with evq.
    - by rewrite lookup_insert_eq.
    - unfold initialized. rewrite Hland by done. apply Z.eqb_eq, (so_init _ _ Hsv).
    - unfold isExitEvent, isSet. rewrite !Hland by done. apply (so_exit _ _ Hsv).
    - rewrite Hs. naive_solver.
    - apply chain_frame_insert; [done|apply Hq].
    - apply Hq.
    - apply (qo_time _ _ Hq). }
  destruct (schedule_ok q2 bs e ev (sv_when sv)) as (q' & ev' & Hrun & Hq' & Ht & _ & _ & _ & _ & Ho);
    [done|by cbn [events q2]; simplify_map_eq|done|apply (so_time _ _ Hsv)|].
  exists q'. split; [exact Hrun|]. split; [done|]. split; [done|].
  trans (events q2); [cbn [events q2]|]; eauto with evq.
Qed.

Lemma EventQueue_unserialize_ok svs q bs :
  queue_ok q bs -> NoDup (map sv_name svs) ->
  Forall (fun sv => events q !! sv_name sv = None /\ saved_ok (curTick q) sv) svs ->
  exists q', EventQueue_unserialize svs q = Ok q' /\
    queue_ok q' (schedule_all (map (fun sv => (sv_key sv, sv_name sv)) svs) bs).
Proof.
  revert q bs. induction svs as [|sv svs IH]; intros q bs Hq Hnd Hall; [by exists q|].
  cbn [map] in Hnd. apply NoDup_cons in Hnd as [Hni Hnd].
  apply Forall_cons in Hall as [[Hn Hsv] Hall].
  destruct (Event_unserialize_ok q bs sv Hq Hn Hsv) as (q1 & Hrun & Hq1 & Ht & Ho).
  cbn [EventQueue_unserialize]. rewrite Hrun. bind_step.
  apply (IH q1); [done|done|]. rewrite Ht. apply Forall_forall. intros sv' Hin.
  eapply Forall_forall in Hall as [Hn' Hsv']; [|done]. split; [|done].
  specialize (Ho (sv_name sv')). rewrite Hn' in Ho.
  assert (sv_name sv' <> sv_name sv) as Hne.
  { intros Heq. apply Hni. rewrite <- Heq. apply elem_of_map. by exists sv'. }
  specialize (Ho Hne). by destruct (events q1 !! sv_name sv').
Qed.
