(* ===== verification/EventQueueTheorems.v ===== *)
(** * Theorems about the event queue

    The properties of [src/sim/eventq.cc], [src/sim/eventq.hh] and the loop of
    [src/sim/simulate.cc], with a concrete instance of each. *)
From S2P Require Import Prelude EventQueue EventQueueSpec EventQueueProof EventQueueInv EventQueueRun EventQueueMisc.
Import EvQ.

(** ** Initial queues *)
Definition fresh_event (ev : Event) : Prop :=
  scheduled ev = false /\ initialized ev = true /\
  isExitEvent ev && isSet (flags ev) AutoDelete = false.
Definition initial_heap (h : heap) : Prop := map_Forall (fun _ ev => fresh_event ev) h.

#[export] Instance initial_heap_dec h : Decision (initial_heap h).
Proof. unfold initial_heap, fresh_event. apply _. Defined.

Lemma queue_ok_initial main h now :
  initial_heap h -> 0 <= now <= MaxTick -> queue_ok (EventQueue_new main h now) [].
Proof.
  intros Hh Hnow. split; cbn [events head curTick EventQueue_new]; try done.
  - split; [constructor|constructor|apply NoDup_nil_2].
  - intros p ev Hp. destruct (Hh p ev Hp) as (-> & _). set_solver.
  - intros p ev Hp. apply (Hh p ev Hp).
  - intros p ev Hp Hx. destruct (Hh p ev Hp) as (_ & _ & Ha). by rewrite Hx in Ha.
  - intros k Hk. set_solver.
Qed.

(** Queues reachable from an initial one by client operations and by
    servicing the head at its time. *)
Inductive reachable (process : positive -> queue -> res queue) : queue -> Prop :=
| reach_init main h now :
    initial_heap h -> 0 <= now <= MaxTick -> reachable process (EventQueue_new main h now)
| reach_client q q' :
    reachable process q -> qstep (fun _ => True) q q' -> reachable process q'
| reach_service q t o q' :
    reachable process q -> nextTick q = Ok t ->
    serviceOne process (set_curTick t q) = Ok (o, q') -> reachable process q'.

Lemma reachable_ok process q :
  EventHandler (fun _ => True) process -> reachable process q -> exists bs, queue_ok q bs.
Proof.
  intros Hh Hr. induction Hr as [main h now Hh0 Hn|q q' _ [bs Hq] Hst|q t o q' _ [bs Hq] Ht Hs].
  - exists []. by apply queue_ok_initial.
  - destruct (qstep_ok _ _ _ _ Hq Hst) as (bs' & Hq' & _). by exists bs'.
  - destruct bs as [|[k b] bs].
    { apply queue_ok_nil in Hq. unfold empty_queue, nextTick in *. by destruct (head q). }
    destruct (queue_ok_head _ _ _ _ Hq) as [_ Ht']. assert (t = k.1) as -> by congruence.
    destruct (queue_ok_advance _ _ _ _ Hq) as [_ Hq1].
    destruct (pop_head_ok _ _ Hq1) as (e & bs1 & _ & _ & _ & Hpop & _); [done|].
    destruct (serviceOne_ok (fun _ => True) process _ _ _ _ Hq1 Hpop)
      as (o' & q2 & bs2 & Hrun & Hq2 & _).
    + intros q1 Hok _ (ev & ev1 & _ & Hev1 & _ & Hfl).
      apply (Hh e q1 bs1 ev1); [done..|]. unfold scheduled. by rewrite Hfl, isSet_clear_same.
    + exists bs2. congruence.
Qed.

(** Three events at hand for the concrete instances. *)
Definition demo_heap : heap :=
  {[ 1%positive := Event_new 0 Default_Pri; 2%positive := Event_new 0 CPU_Tick_Pri;
     3%positive := Event_new 0 Default_Pri ]}.
Definition demo_queue : queue := EventQueue_new true demo_heap 5.
Definition run_demo (f : queue -> res queue) : queue :=
  match f demo_queue with Ok q => q | Er _ => demo_queue end.
(** Events 3, 1 (tick 20, priority 0) and 2 (tick 20, priority 50). *)
Definition demo_full : queue :=
  run_demo (fun q => q ← schedule 1 20 q; q ← schedule 2 20 q; schedule 3 20 q).
Definition demo_bins : bins := [((20, 0)%Z, [3; 1]); ((20, 50)%Z, [2])]%positive.

Definition demo_ev (e : positive) : Event := default (Event_new 0 0) (events demo_full !! e).

Lemma demo_ok : queue_ok demo_queue [].
Proof. apply queue_ok_initial; [|done]. by apply (bool_decide_unpack _). Qed.

Lemma demo_full_ok : queue_ok demo_full demo_bins.
Proof.
  destruct (schedule_ok demo_queue [] 1 (Event_new 0 0) 20) as (q1 & ev1 & H1 & Hq1 & Ht1 & _);
    [apply demo_ok|done|done|done|].
  vm_compute in H1. injection H1 as <-. vm_compute in Hq1.
  destruct (schedule_ok _ _ 2 (Event_new 0 50) 20 Hq1) as (q2 & ev2 & H2 & Hq2 & Ht2 & _);
    [done|done|done|].
  vm_compute in H2. injection H2 as <-. vm_compute in Hq2.
  destruct (schedule_ok _ _ 3 (Event_new 0 0) 20 Hq2) as (q3 & ev3 & H3 & Hq3 & Ht3 & _);
    [done|done|done|].
  vm_compute in H3. injection H3 as <-. vm_compute in Hq3.
  exact Hq3.
Qed.

(** ** Operations *)

(** C1.  [EventQueue::schedule] on a well-formed queue, for every [Tick].  On an
    unscheduled event and a time that is not in the past it returns without a
    fault, the linked lists then represent the abstract queue with the event
    pushed on the bin of its (time, priority), the event is marked scheduled
    (and as being on the main queue or not), and no other event's time,
    priority or flags change.  On an event that is already scheduled, or at a
    non-negative time in the past, an assertion fails.  A negative time is
    compared as an unsigned number: it passes the assertion, and the event is
    queued in the past. *)
Theorem schedule_refines q bs e ev when :
  queue_ok q bs -> events q !! e = Some ev -> - 2 ^ 63 <= when <= MaxTick ->
  (scheduled ev = false -> curTick q <= when -> exists q' ev', schedule e when q = Ok q' /\
    queue_ok q' (spec_insert (when, _priority ev) e bs) /\
    curTick q' = curTick q /\ qmain q' = qmain q /\
    events q' !! e = Some ev' /\ ev_key ev' = (when, _priority ev) /\
    flags ev' = flags (mark_main q (upd_flags (fun f => set f Scheduled) ev)) /\
    others_same e (events q) (events q')) /\
  (scheduled ev = true \/ 0 <= when < curTick q -> schedule e when q = Er AssertFail) /\
  (scheduled ev = false -> when < 0 -> exists q', schedule e when q = Ok q' /\
    curTick q' = curTick q /\ chain (events q') (head q') (spec_insert (when, _priority ev) e bs)).
Proof.
  intros Hq He Hw. split_and!.
  - intros Hs Ht. apply schedule_ok; [done..|lia].
  - by apply (schedule_fails _ bs _ ev).
  - intros Hs Ht. apply schedule_negative; [done..|lia].
Qed.

(** A time that is to come, an event already scheduled, a time in the past and a negative
    one. *)
Lemma schedule_refines_witness :
  (exists q' ev', schedule 1 20 demo_queue = Ok q' /\
    queue_ok q' [((20, 0), [1%positive])] /\
    curTick q' = 5 /\ qmain q' = true /\
    events q' !! 1%positive = Some ev' /\ ev_key ev' = (20, 0) /\
    flags ev' = 0x7a62 /\
    others_same 1 (events demo_queue) (events q')) /\
  schedule 1 30 demo_full = Er AssertFail /\ schedule 1 4 demo_queue = Er AssertFail /\
  (exists q', schedule 1 (-1) demo_queue = Ok q' /\ curTick q' = 5 /\
    chain (events q') (head q') [((-1, 0), [1%positive])]).
Proof.
  split_and!.
  - apply (schedule_refines demo_queue [] 1 (Event_new 0 0) 20);
      [apply demo_ok|reflexivity|by vm_compute|reflexivity|by vm_compute].
  - apply (schedule_refines demo_full demo_bins 1 (demo_ev 1) 30);
      [apply demo_full_ok|reflexivity|by vm_compute|by left].
  - apply (schedule_refines demo_queue [] 1 (Event_new 0 0) 4);
      [apply demo_ok|reflexivity|by vm_compute|right; by vm_compute].
  - apply (schedule_refines demo_queue [] 1 (Event_new 0 0) (-1));
      [apply demo_ok|reflexivity|by vm_compute|reflexivity|by vm_compute].
Defined.

(** C2.  [EventQueue::deschedule] of a scheduled event: no fault, the event
    leaves its bin (an empty bin disappears), it is no longer squashed or
    scheduled, and it is freed exactly when it is [AutoDelete]; no other event
    changes. *)
Theorem deschedule_refines q bs e ev :
  queue_ok q bs -> events q !! e = Some ev -> scheduled ev = true ->
  exists q', deschedule e q = Ok q' /\
    queue_ok q' (spec_remove (ev_key ev) e bs) /\
    flatten (spec_remove (ev_key ev) e bs) = remove_from e (flatten bs) /\
    curTick q' = curTick q /\ qmain q' = qmain q /\
    descheduled ev (events q' !! e) /\
    others_same e (events q) (events q').
Proof.
  intros Hq He Hs. destruct (queue_ok_key _ _ _ _ Hq He Hs) as (b & Hb & Heb).
  destruct (deschedule_ok q bs e ev Hq He Hs) as (q' & Hrun & Hq' & Hrest).
  exists q'. split_and!; try apply Hrest; [done|done|].
  apply spec_remove_flatten; [apply Hq|by exists b].
Qed.

Lemma deschedule_refines_witness :
  exists q', deschedule 1 demo_full = Ok q' /\
    queue_ok q' [((20, 0), [3%positive]); ((20, 50), [2%positive])] /\
    flatten [((20, 0), [3%positive]); ((20, 50), [2%positive])]
      = remove_from 1 (flatten demo_bins) /\
    curTick q' = 5 /\ qmain q' = true /\
    descheduled (demo_ev 1)
      (events q' !! 1%positive) /\
    others_same 1 (events demo_full) (events q').
Proof.
  apply (deschedule_refines demo_full demo_bins 1 (demo_ev 1));
    [apply demo_full_ok|vm_compute; reflexivity|vm_compute; reflexivity].
Defined.

(** C3.  [EventQueue::reschedule]: no fault, the event is moved from its bin
    (if it was scheduled) to the top of the bin of its new time, and it is
    scheduled and not squashed afterwards. *)
Theorem reschedule_refines q bs e ev when always :
  queue_ok q bs -> events q !! e = Some ev -> always || scheduled ev = true ->
  curTick q <= when <= MaxTick ->
  exists q' ev', reschedule e when always q = Ok q' /\
    queue_ok q' (requeue (ev_key ev) e (scheduled ev) (when, _priority ev) bs) /\
    curTick q' = curTick q /\ qmain q' = qmain q /\
    events q' !! e = Some ev' /\ ev_key ev' = (when, _priority ev) /\
    flags ev' = flags (mark_main q
      (upd_flags (fun f => set (clear f Squashed) Scheduled) ev)) /\
    others_same e (events q) (events q').
Proof. apply reschedule_ok. Qed.

Lemma reschedule_refines_witness :
  exists q' ev', reschedule 3 30 false demo_full = Ok q' /\
    queue_ok q' [((20, 0)%Z, [1]); ((20, 50)%Z, [2]); ((30, 0)%Z, [3])]%positive /\
    curTick q' = 5 /\ qmain q' = true /\
    events q' !! 3%positive = Some ev' /\ ev_key ev' = (30, 0) /\
    flags ev' = 0x7a62 /\
    others_same 3 (events demo_full) (events q').
Proof.
  apply (reschedule_refines demo_full demo_bins 3 (demo_ev 3) 30 false);
    [apply demo_full_ok|vm_compute; reflexivity|vm_compute; reflexivity
    |vm_compute; split; discriminate].
Defined.

(** C5.  [EventQueue::serviceOne] takes the event with the least (time,
    priority) off a non-empty queue, and of those the most recently queued
    one; the queue that remains is the abstract queue without it, and the
    event is unscheduled before it is handled. *)
Theorem service_takes_minimum q bs :
  queue_ok q bs -> bs <> [] ->
  exists e bs' ev ev' q', spec_pop bs = Some (e, bs') /\ pop_head q = Ok (e, q') /\
    queue_ok q' bs' /\ flatten bs = e :: flatten bs' /\
    events q !! e = Some ev /\ events q' !! e = Some ev' /\ scheduled ev' = false /\
    others_same e (events q) (events q') /\
    forall p pv, events q !! p = Some pv -> scheduled pv = true -> kle (ev_key ev) (ev_key pv).
Proof.
  intros Hq Hne.
  destruct (pop_head_ok q bs Hq Hne) as
    (e & bs' & ev & ev' & q' & Hpop & Hrun & Hq' & _ & _ & He & He' & _ & Hf & Ho).
  exists e, bs', ev, ev', q'. split_and!; try done.
  - by apply spec_pop_flatten.
  - unfold scheduled. by rewrite Hf, isSet_clear_same.
  - by apply (spec_pop_min q bs e bs' ev).
Qed.

Lemma service_takes_minimum_witness :
  exists e bs' ev ev' q', spec_pop demo_bins = Some (e, bs') /\ pop_head demo_full = Ok (e, q') /\
    queue_ok q' bs' /\ flatten demo_bins = e :: flatten bs' /\
    events demo_full !! e = Some ev /\ events q' !! e = Some ev' /\ scheduled ev' = false /\
    others_same e (events demo_full) (events q') /\
    forall p pv, events demo_full !! p = Some pv -> scheduled pv = true ->
      kle (ev_key ev) (ev_key pv).
Proof. apply (service_takes_minimum demo_full demo_bins); [apply demo_full_ok|discriminate]. Defined.

(** C4.  On every queue reachable by scheduling, descheduling, rescheduling,
    squashing, allocating events and servicing the head, with any event
    methods that only do such things: the bins are sorted, disjoint and
    non-empty, exactly the events flagged [Scheduled] are queued, and none is
    queued in the past. *)
Theorem reachable_invariant process q :
  EventHandler (fun _ => True) process -> reachable process q ->
  exists bs, chain (events q) (head q) bs /\ bins_ok bs /\
    (forall p ev, events q !! p = Some ev -> scheduled ev = true <-> p ∈ flatten bs) /\
    (forall p ev, events q !! p = Some ev -> scheduled ev = true -> curTick q <= _when ev).
Proof.
  intros Hh Hr. destruct (reachable_ok process q Hh Hr) as [bs Hq]. exists bs.
  split_and!; [apply Hq|apply Hq|apply (qo_sched _ _ Hq)|].
  intros p ev Hp Hs. destruct (queue_ok_key _ _ _ _ Hq Hp Hs) as (b & Hb & _).
  by apply (qo_time _ _ Hq (ev_key ev)), (elem_of_keys _ b).
Qed.

Lemma idle_handler T : EventHandler T (fun _ q => Ok q).
Proof.
  intros e q1 bs1 ev _ _ He _. exists q1. split_and!; [done|apply rtc_refl|by rewrite He].
Qed.

Lemma reachable_invariant_witness :
  exists bs, chain (events demo_full) (head demo_full) bs /\ bins_ok bs /\
    (forall p ev, events demo_full !! p = Some ev -> scheduled ev = true <-> p ∈ flatten bs) /\
    (forall p ev, events demo_full !! p = Some ev -> scheduled ev = true ->
       curTick demo_full <= _when ev).
Proof.
  apply (reachable_invariant (fun _ q => Ok q)); [apply idle_handler|].
  apply (reach_client _ (run_demo (fun q => q ← schedule 1 20 q; schedule 2 20 q)));
    [|apply (qs_schedule _ _ 3 20); [exact I|vm_compute; split; discriminate|reflexivity]].
  apply (reach_client _ (run_demo (schedule 1 20)));
    [|apply (qs_schedule _ _ 2 20); [exact I|vm_compute; split; discriminate|reflexivity]].
  apply (reach_client _ demo_queue);
    [|apply (qs_schedule _ _ 1 20); [exact I|vm_compute; split; discriminate|reflexivity]].
  apply reach_init; [by apply (bool_decide_unpack _)|vm_compute; split; discriminate].
Defined.

(** ** The simulation loop *)
Definition sim_until (q : queue) (n : Z) : Z :=
  if sint 64 (curTick q + n) <? 0 then MaxTick else curTick q + n.

Lemma sim_until_range q bs n :
  queue_ok q bs -> 0 <= n <= MaxTick -> curTick q <= sim_until q n <= MaxTick.
Proof.
  intros Hq Hn. pose proof (qo_now _ _ Hq) as Hnow. unfold sim_until.
  destruct (Z.le_gt_cases (curTick q + n) MaxTick) as [Hle|Hgt].
  - rewrite sint_small by (unfold MaxTick in *; lia). destruct (_ <? 0) eqn:E; lia.
  - rewrite sint_wrap by (unfold MaxTick in *; lia).
    unfold MaxTick in *. destruct (_ <? 0) eqn:E; lia.
Qed.

(** The start of [simulate]: the limit event is queued at the horizon. *)
Lemma simulate_start process is_exit fuel limit garbage n q bs :
  queue_ok q bs -> qmain q = true -> events q !! limit = None -> 0 <= n <= MaxTick ->
  exists q1 bs1, simulate process is_exit fuel limit garbage n q =
      simulate_loop process is_exit fuel limit q1 /\
    bs1 = spec_insert (sim_until q n, Sim_Exit_Pri) limit bs /\
    queue_ok q1 bs1 /\ curTick q1 = curTick q /\ limit_armed limit (sim_until q n) q1.
Proof.
  intros Hq Hm Hl Hn. pose proof (sim_until_range q bs n Hq Hn) as Hu.
  unfold simulate. replace (n <? 0) with false by lia.
  pose proof (queue_ok_new q bs limit true garbage 0 Hq Hl) as Hq0. cbn [new_event] in Hq0.
  destruct (schedule_ok _ bs limit (SimLoopExitEvent_new garbage) (sim_until q n) Hq0)
    as (q1 & ev1 & Hrun & Hq1 & Ht & Hm1 & He1 & Hk & Hf & _);
    [by cbn [events upd_heap]; simplify_map_eq|done|done|].
  unfold sim_until in Hrun at 1. cbv zeta. rewrite Hrun. bind_step.
  eexists q1, _. split_and!; [done|done|done|done|].
  exists ev1. unfold mark_main in Hf. cbn [qmain upd_heap] in Hf. rewrite Hm in Hf.
  unfold scheduled, isExitEvent, squashed. rewrite Hf.
  split_and!; try done. unfold ev_key in Hk. by injection Hk.
Qed.

(** C7.  [simulate(num_cycles)] never trips an assertion, panics or follows a
    bad pointer, whatever the event methods schedule: it either still runs
    when the fuel is used up, or returns an exit event after servicing events
    in non-decreasing time, none before the start and none after the horizon,
    with [curTick] at the time of the last event serviced. *)
Theorem simulate_safe process is_exit fuel limit garbage n q bs :
  EventHandler (fun e => e <> limit) process ->
  (forall e, is_exit e = true) ->
  (forall q, process limit q = SimLoopExitEvent_process 0 limit q) ->
  queue_ok q bs -> qmain q = true -> events q !! limit = None -> 0 <= n <= MaxTick ->
  match simulate process is_exit fuel limit garbage n q with
  | Ok (se, q', ts) =>
      (exists bs', queue_ok q' bs') /\ StronglySorted Z.le ts /\
      Forall (fun t => curTick q <= t <= sim_until q n) ts /\ last ts = Some (curTick q')
  | Er f => f = OutOfFuel
  end.
Proof.
  intros Hh Hx Hp Hq Hm Hl Hn.
  destruct (simulate_start process is_exit fuel limit garbage n q bs)
    as (q1 & bs1 & -> & _ & Hq1 & <- & Ha); [done..|].
  by apply (simulate_loop_safe process is_exit limit (sim_until q n) Hx Hp fuel q1 bs1).
Qed.

Lemma tick_process_limit period limit q :
  tick_process period limit limit q = SimLoopExitEvent_process 0 limit q.
Proof. unfold tick_process. by rewrite decide_True. Qed.

(** Event 2 ticks every 7 cycles. *)
Definition demo_period (e : positive) : Z := if decide (e = 2%positive) then 7 else 0.
Lemma demo_period_nonneg e : 0 <= demo_period e.
Proof. unfold demo_period. case_decide; lia. Qed.

Lemma simulate_safe_witness :
  match simulate (tick_process demo_period 9) (fun _ => true) 10 9 0 30 demo_full with
  | Ok (se, q', ts) =>
      (exists bs', queue_ok q' bs') /\ StronglySorted Z.le ts /\
      Forall (fun t => 5 <= t <= 35) ts /\ last ts = Some (curTick q')
  | Er f => f = OutOfFuel
  end.
Proof.
  apply (simulate_safe (tick_process demo_period 9) (fun _ => true) 10 9 0 30 demo_full demo_bins).
  - apply tick_handler, demo_period_nonneg.
  - intros e. reflexivity.
  - apply tick_process_limit.
  - apply demo_full_ok.
  - vm_compute. reflexivity.
  - vm_compute. reflexivity.
  - vm_compute. split; discriminate.
Defined.

Example simulate_demo_times :
  (fun r => match r with Ok (se, q, ts) => Some (se, ts, curTick q) | Er _ => None end)
    (simulate (tick_process demo_period 9) (fun _ => true) 10 9 0 30 demo_full)
  = Some (9%positive, [20; 20; 20; 27; 34; 35], 35).
Proof. vm_compute. reflexivity. Qed.

(** C6.  When each event either does not come back or schedules itself a
    positive number of ticks later, [simulate] returns: the fuel needed is at
    most the ticks left to the horizon summed over the queued events. *)
Theorem simulate_terminates period is_exit fuel limit garbage n q bs :
  (forall e, 0 <= period e) -> (forall e, is_exit e = true) ->
  queue_ok q bs -> qmain q = true -> events q !! limit = None -> 0 <= n <= MaxTick ->
  (potential (sim_until q n) bs + 1 <= fuel)%nat ->
  exists se q' ts,
    simulate (tick_process period limit) is_exit fuel limit garbage n q = Ok (se, q', ts) /\
    curTick q' <= sim_until q n.
Proof.
  intros Hp Hx Hq Hm Hl Hn Hf.
  destruct (simulate_start (tick_process period limit) is_exit fuel limit garbage n q bs)
    as (q1 & bs1 & -> & -> & Hq1 & Ht & Ha); [done..|].
  destruct (tick_loop_terminates period limit (sim_until q n) Hp is_exit fuel q1
    (spec_insert (sim_until q n, Sim_Exit_Pri) limit bs)) as [[[se q2] ts] Hr]; [done..| |].
  { rewrite potential_insert. cbn [fst]. lia. }
  pose proof (tick_handler period limit Hp) as Hh.
  pose proof (simulate_loop_safe (tick_process period limit) is_exit limit (sim_until q n) Hx
    (tick_process_limit period limit) fuel q1 _ Hq1 Ha) as Hs.
  rewrite Hr in Hs. destruct Hs as (_ & _ & Hfa & Hlast).
  exists se, q2, ts. split; [done|]. apply last_Some_elem_of in Hlast.
  eapply Forall_forall in Hfa; [|done]. simpl in Hfa. lia.
Qed.

Lemma simulate_terminates_witness :
  exists se q' ts,
    simulate (tick_process demo_period 9) (fun _ => true) 50 9 0 30 demo_full = Ok (se, q', ts) /\
    curTick q' <= 35.
Proof.
  apply (simulate_terminates demo_period (fun _ => true) 50 9 0 30 demo_full demo_bins).
  - apply demo_period_nonneg.
  - intros e. reflexivity.
  - apply demo_full_ok.
  - vm_compute. reflexivity.
  - vm_compute. reflexivity.
  - vm_compute. split; discriminate.
  - apply Nat.leb_le. vm_compute. reflexivity.
Defined.

(** ** Self check and checkpoints *)

(**  [EventQueue::debugVerify] terminates and accepts every well-formed
    queue whose first event does not lie before (tick 0, priority 0), the
    value its scan starts from. *)
Theorem debugVerify_accepts q bs :
  queue_ok q bs -> (forall k, k ∈ map fst bs -> kle (0, 0) k) -> debugVerify q = Ok true.
Proof.
  intros Hq Hk. unfold debugVerify.
  pose proof (chain_fuel _ _ _ (qo_chain _ _ Hq) (qo_bins _ _ Hq)) as Hf.
  pose proof (bins_length_flatten _ (bins_nonempty _ (qo_bins _ _ Hq))) as Hl.
  apply (verify_bins_ok _ _ bs); [apply Hq|apply Hq|lia|lia|set_solver|done].
Qed.

Lemma debugVerify_accepts_witness : debugVerify demo_full = Ok true.
Proof.
  apply (debugVerify_accepts demo_full demo_bins); [apply demo_full_ok|].
  intros k Hk. unfold kle, klt. cbn in Hk.
  apply elem_of_cons in Hk as [->|Hk]; [left; left; reflexivity|].
  apply elem_of_cons in Hk as [->|Hk]; [left; left; reflexivity|].
  apply elem_of_nil in Hk. destruct Hk.
Defined.

(**  [debugVerify] reports "priority inverted" on the well-formed queue
    that holds one event of negative priority at tick 0. *)
Theorem debugVerify_rejects_negative_priority :
  exists q bs, queue_ok q bs /\ length bs = 1%nat /\ debugVerify q = Ok false.
Proof.
  set (q0 := EventQueue_new true {[ 1%positive := Event_new 0 (-1) ]} 0).
  assert (Hq0 : queue_ok q0 []).
  { apply queue_ok_initial; [|done]. by apply (bool_decide_unpack _). }
  destruct (schedule_ok q0 [] 1 (Event_new 0 (-1)) 0 Hq0) as (q1 & ev1 & Hrun & Hq1 & _);
    [done|done|done|].
  vm_compute in Hrun. injection Hrun as <-. eexists _, _. split; [exact Hq1|].
  split; [done|]. by vm_compute.
Qed.

(**  [EventQueue::serialize] of a well-formed queue terminates and writes
    exactly the [AutoSerialize] events, in service order, each with its time,
    priority and flags. *)
Theorem serialize_writes_queue q bs :
  queue_ok q bs ->
  exists svs, EventQueue_serialize q = Ok svs /\
    map sv_name svs = List.filter (auto_ser (events q)) (flatten bs) /\
    Forall (fun sv => exists ev, events q !! sv_name sv = Some ev /\
      sv = mkSaved (sv_name sv) (_when ev) (_priority ev) (flags ev)) svs.
Proof.
  intros Hq. rewrite (serialize_collects q bs Hq).
  assert (Hall : forall e, e ∈ List.filter (auto_ser (events q)) (flatten bs) ->
    is_Some (events q !! e)).
  { intros e He. apply list_elem_of_In, List.filter_In in He as [_ He].
    unfold auto_ser in He. by destruct (events q !! e). }
  induction (List.filter (auto_ser (events q)) (flatten bs)) as [|e l IH]; [by exists []|].
  destruct (Hall e) as [ev Hev]; [set_solver|].
  destruct IH as (svs & Hrun & Hn & Hf); [set_solver|].
  assert (Hse : Event_serialize (events q) e = Ok (mkSaved e (_when ev) (_priority ev) (flags ev))).
  { unfold Event_serialize. by rewrite (load_Some _ _ _ Hev). }
  cbn [mapR]. rewrite Hse. bind_step.
  rewrite Hrun. bind_step. eexists. split; [done|]. cbn [map sv_name]. rewrite Hn.
  split; [done|]. constructor; [by exists ev|done].
Qed.

Lemma serialize_writes_queue_witness :
  exists svs, EventQueue_serialize demo_full = Ok svs /\
    map sv_name svs = List.filter (auto_ser (events demo_full)) (flatten demo_bins) /\
    Forall (fun sv => exists ev, events demo_full !! sv_name sv = Some ev /\
      sv = mkSaved (sv_name sv) (_when ev) (_priority ev) (flags ev)) svs.
Proof. apply (serialize_writes_queue demo_full demo_bins). apply demo_full_ok. Defined.

(**  Restoring the queue from a checkpoint that lists the events of a
    queue in service order, with nothing queued at the start: every event is
    scheduled again at its time and priority, and the events of each bin come
    back in the reverse of the order they were saved in. *)
Theorem unserialize_reverses_bins q0 bs svs :
  queue_ok q0 [] -> bins_ok bs ->
  map (fun sv => (sv_key sv, sv_name sv)) svs = flatten_keys bs ->
  Forall (fun sv => events q0 !! sv_name sv = None /\ saved_ok (curTick q0) sv) svs ->
  exists q', EventQueue_unserialize svs q0 = Ok q' /\
    queue_ok q' (map (fun kb => (kb.1, rev kb.2)) bs).
Proof.
  intros Hq Hb Hsv Hall.
  assert (Hnd : NoDup (map sv_name svs)).
  { replace (map sv_name svs) with (flatten bs); [apply Hb|].
    transitivity (map snd (flatten_keys bs)); [|by rewrite <- Hsv, map_map].
    clear. induction bs as [|[k b] bs IH]; [done|].
    unfold flatten_keys in *. cbn [map concat]. rewrite flatten_cons, map_app, <- IH, map_map.
    by rewrite map_id. }
  destruct (EventQueue_unserialize_ok svs q0 [] Hq Hnd Hall) as (q' & Hrun & Hq').
  exists q'. split; [done|]. rewrite Hsv in Hq'. by rewrite schedule_all_reverses in Hq'.
Qed.

Definition demo_saved : list saved :=
  [mkSaved 3 20 0 0x7a62; mkSaved 1 20 0 0x7a62; mkSaved 2 20 50 0x7a62].

Lemma demo_bins_ok : bins_ok demo_bins.
Proof. apply (qo_bins _ _ demo_full_ok). Qed.

Lemma unserialize_reverses_bins_witness :
  exists q', EventQueue_unserialize demo_saved (EventQueue_new true ∅ 5) = Ok q' /\
    queue_ok q' [((20, 0)%Z, [1; 3]); ((20, 50)%Z, [2])]%positive.
Proof.
  apply (unserialize_reverses_bins (EventQueue_new true ∅ 5) demo_bins demo_saved).
  - apply queue_ok_initial; [by apply (bool_decide_unpack _)|vm_compute; split; discriminate].
  - apply demo_bins_ok.
  - reflexivity.
  - repeat constructor; try (vm_compute; reflexivity); vm_compute; try discriminate.
Defined.

(**  The assertion of [schedule] compares the ticks as unsigned numbers:
    a negative time passes it, the event is queued, and when the loop of
    [simulate] looks at the head it finds an event in the past. *)
Theorem schedule_accepts_negative_tick :
  exists q, schedule 1 (-1) demo_queue = Ok q /\ nextTick q = Ok (-1) /\ -1 < curTick q /\
    simulate_loop (fun _ q => Ok q) (fun _ => true) 10 9 q = Er AssertFail.
Proof.
  exists (run_demo (schedule 1 (-1))). vm_compute. split_and!; reflexivity.
Qed.
