(* ===== verification/IntMath.v ===== *)
(** * Bit fields, integer logarithms and byte order

    [src/base/bitfield.hh], [src/base/intmath.hh], [src/base/intmath.cc] and
    the portable branches of [src/sim/byteswap.hh].  Values are [Z]; a template
    parameter [T] of the source is the width [w] of an unsigned type. *)
From Stdlib Require Import Znumtheory.
From S2P Require Import Prelude.

Module Bitfield.

(** [mask(nbits)], for [0 <= nbits <= 64]. *)
Definition mask (nbits : Z) : Z :=
  if nbits =? 64 then uint 64 (-1) else uint 64 (Z.shiftl 1 nbits - 1).

(** [bits(val, first, last)] and [bits(val, bit)]. *)
Definition bits (val first last : Z) : Z :=
  let nbits := first - last + 1 in
  Z.land (Z.shiftr val last) (mask nbits).
Definition bit (val b : Z) : Z := bits val b b.

(** [~x] of a 64-bit operand. *)
Definition not64 (x : Z) : Z := uint 64 (Z.lnot x).

(** [mbits(val, first, last)] and [mask(first, last)]. *)
Definition mbits (val first last : Z) : Z :=
  Z.land val (Z.land (mask (first + 1)) (not64 (mask last))).
Definition mask_range (first last : Z) : Z := mbits (uint 64 (-1)) first last.

(** [sext<N>(val)]. *)
Definition sext (N val : Z) : Z :=
  let sign_bit := bits val (N - 1) (N - 1) in
  sint 64 (if negb (sign_bit =? 0) then Z.lor val (not64 (mask N)) else val).

(** [insertBits(val, first, last, bit_val)] on a [w]-bit [T]. *)
Definition insertBits (w val first last bit_val : Z) : Z :=
  let t_bit_val := uint w bit_val in
  let bmask := uint w (Z.shiftl (mask (first - last + 1)) last) in
  uint w (Z.lor (Z.land (Z.shiftl t_bit_val last) bmask) (Z.land val (Z.lnot bmask))).

(** [replaceBits(val, first, last, bit_val)]: the new value of [val]. *)
Definition replaceBits (w val first last bit_val : Z) : Z := insertBits w val first last bit_val.

(** The overloads for one bit. *)
Definition insertBit (w val bit bit_val : Z) : Z := insertBits w val bit bit bit_val.
Definition replaceBit (w val bit bit_val : Z) : Z := insertBits w val bit bit bit_val.

(** One [if (bits(val, first, last)) { msb += n; val >>= n; }]. *)
Definition msb_step (first last n : Z) (mv : Z * Z) : Z * Z :=
  if negb (bits mv.2 first last =? 0) then (mv.1 + n, Z.shiftr mv.2 n) else mv.

Definition findMsbSet (val : Z) : Z :=
  if val =? 0 then 0
  else
    let mv := (0, val) in
    let mv := msb_step 63 32 32 mv in
    let mv := msb_step 31 16 16 mv in
    let mv := msb_step 15 8 8 mv in
    let mv := msb_step 7 4 4 mv in
    let mv := msb_step 3 2 2 mv in
    if negb (bits mv.2 1 1 =? 0) then mv.1 + 1 else mv.1.

(** One [if (!bits(val, first, 0)) { lsb += n; val >>= n; }]. *)
Definition lsb_step (first n : Z) (lv : Z * Z) : Z * Z :=
  if bits lv.2 first 0 =? 0 then (lv.1 + n, Z.shiftr lv.2 n) else lv.

Definition findLsbSet (val : Z) : Z :=
  if val =? 0 then 8 * 8
  else
    let lv := (0, val) in
    let lv := lsb_step 31 32 lv in
    let lv := lsb_step 15 16 lv in
    let lv := lsb_step 7 8 lv in
    let lv := lsb_step 3 4 lv in
    let lv := lsb_step 1 2 lv in
    if bits lv.2 0 0 =? 0 then lv.1 + 1 else lv.1.

(** ** Lemmas *)
Lemma mask_ones nbits : 0 <= nbits <= 64 -> mask nbits = Z.ones nbits.
Proof.
  intros H. unfold mask. destruct (Z.eqb_spec nbits 64) as [->|Hne]; [done|].
  rewrite Z.ones_equiv, Z.shiftl_1_l. apply uint_small.
  pose proof (Z.pow_lt_mono_r 2 nbits 64 ltac:(lia) ltac:(lia) ltac:(lia)).
  assert (0 < 2 ^ nbits) by (apply Z.pow_pos_nonneg; lia). lia.
Qed.

Lemma bits_div_mod val first last :
  0 <= last <= first -> first - last < 64 ->
  bits val first last = (val / 2 ^ last) mod 2 ^ (first - last + 1).
Proof.
  intros H1 H2. unfold bits. rewrite mask_ones by lia.
  by rewrite Z.land_ones, Z.shiftr_div_pow2 by lia.
Qed.

Lemma bits_testbit val first last i :
  0 <= last <= first -> first - last < 64 -> 0 <= i ->
  Z.testbit (bits val first last) i = (i <=? first - last) && Z.testbit val (i + last).
Proof.
  intros H1 H2 Hi. unfold bits. rewrite mask_ones by lia.
  rewrite Z.land_spec, Z.shiftr_spec by lia.
  destruct (Z.leb_spec i (first - last)).
  - rewrite Z.ones_spec_low by lia. by rewrite andb_true_r.
  - rewrite Z.ones_spec_high by lia. by rewrite andb_false_r.
Qed.

Lemma uint_testbit w x i : 0 <= w -> 0 <= i ->
  Z.testbit (uint w x) i = (i <? w) && Z.testbit x i.
Proof.
  intros Hw Hi. unfold uint. destruct (Z.ltb_spec i w).
  - by rewrite Z.mod_pow2_bits_low.
  - by rewrite Z.mod_pow2_bits_high.
Qed.

Lemma insertBits_testbit w val first last b i :
  0 <= last <= first -> first < w -> w <= 64 -> 0 <= i < w ->
  Z.testbit (insertBits w val first last b) i =
    if (last <=? i) && (i <=? first) then Z.testbit b (i - last) else Z.testbit val i.
Proof.
  intros H1 H2 H3 Hi. unfold insertBits. rewrite mask_ones by lia.
  rewrite uint_testbit by lia. replace (i <? w) with true by lia. cbn [andb].
  rewrite Z.lor_spec, !Z.land_spec, Z.lnot_spec by lia.
  rewrite uint_testbit by lia. replace (i <? w) with true by lia. cbn [andb].
  rewrite !Z.shiftl_spec by lia.
  destruct (Z.leb_spec last i) as [Hl|Hl]; cbn [andb].
  - rewrite uint_testbit by lia. replace (i - last <? w) with true by lia. cbn [andb].
    destruct (Z.leb_spec i first).
    + rewrite Z.ones_spec_low by lia. cbn [negb]. by rewrite andb_true_r, andb_false_r, orb_false_r.
    + rewrite Z.ones_spec_high by lia. cbn [negb]. by rewrite andb_false_r, andb_true_r.
  - rewrite !(Z.testbit_neg_r _ (i - last)) by lia. cbn [andb negb orb]. by rewrite andb_true_r.
Qed.

(** The high half of a number is zero exactly when it fits the low half. *)
Lemma bits_high_zero val first last :
  0 <= last <= first -> first - last < 64 -> 0 <= val < 2 ^ (first + 1) ->
  (bits val first last =? 0) = (val <? 2 ^ last).
Proof.
  intros H1 H2 H3. rewrite bits_div_mod by lia.
  rewrite Z.mod_small.
  2:{ split; [apply Z.div_pos; [lia|apply Z.pow_pos_nonneg; lia]|].
      apply Z.div_lt_upper_bound; [apply Z.pow_pos_nonneg; lia|].
      rewrite <- Z.pow_add_r by lia. replace (last + (first - last + 1)) with (first + 1) by lia. lia. }
  assert (0 < 2 ^ last) by (apply Z.pow_pos_nonneg; lia).
  destruct (Z.ltb_spec val (2 ^ last)); destruct (Z.eqb_spec (val / 2 ^ last) 0) as [E|E]; try done.
  - by rewrite Z.div_small in E by lia.
  - apply Z.div_small_iff in E; lia.
Qed.

Lemma log2_shiftr v n : 0 <= n -> 2 ^ n <= v -> Z.log2 (Z.shiftr v n) = Z.log2 v - n.
Proof.
  intros Hn Hv. rewrite Z.log2_shiftr by (assert (0 < 2 ^ n) by (apply Z.pow_pos_nonneg; lia); lia).
  assert (n <= Z.log2 v); [|lia]. apply Z.log2_le_pow2; [|done].
  assert (0 < 2 ^ n) by (apply Z.pow_pos_nonneg; lia). lia.
Qed.

Lemma shiftr_bounds v n k : 0 <= n -> 0 <= k -> 2 ^ n <= v < 2 ^ (n + k) ->
  0 < Z.shiftr v n < 2 ^ k.
Proof.
  intros Hn Hk Hv. rewrite Z.shiftr_div_pow2 by done.
  assert (0 < 2 ^ n) by (apply Z.pow_pos_nonneg; lia). split.
  - apply Z.div_str_pos. lia.
  - apply Z.div_lt_upper_bound; [done|]. rewrite <- Z.pow_add_r; lia.
Qed.

Lemma msb_step_ok first n mv b :
  first = 2 * n - 1 -> b = 2 * n -> 0 < n <= 32 -> 0 < mv.2 < 2 ^ b ->
  exists m' v', msb_step first n n mv = (m', v') /\
    0 < v' < 2 ^ n /\ m' + Z.log2 v' = mv.1 + Z.log2 mv.2.
Proof.
  intros -> -> Hn Hv. destruct mv as [m v]. eexists _, _. split; [apply surjective_pairing|].
  revert Hv. unfold msb_step. cbn [fst snd]. intros Hv.
  rewrite bits_high_zero by (rewrite ?Z.sub_add; lia).
  destruct (Z.ltb_spec v (2 ^ n)) as [Hlt|Hge]; cbn [negb fst snd]; [lia|].
  split; [apply shiftr_bounds; rewrite ?Z.add_diag; lia|].
  rewrite log2_shiftr by lia. lia.
Qed.

Lemma findMsbSet_log2 val : 0 < val < 2 ^ 64 -> findMsbSet val = Z.log2 val.
Proof.
  intros Hv. unfold findMsbSet. replace (val =? 0) with false by lia.
  destruct (msb_step_ok 63 32 (0, val) 64) as (m1 & v1 & -> & H1 & E1); [done..|].
  destruct (msb_step_ok 31 16 (m1, v1) 32) as (m2 & v2 & -> & H2 & E2); [done..|].
  destruct (msb_step_ok 15 8 (m2, v2) 16) as (m3 & v3 & -> & H3 & E3); [done..|].
  destruct (msb_step_ok 7 4 (m3, v3) 8) as (m4 & v4 & -> & H4 & E4); [done..|].
  destruct (msb_step_ok 3 2 (m4, v4) 4) as (m5 & v5 & -> & H5 & E5); [done..|].
  cbn [fst snd] in *.
  assert (v5 = 1 \/ v5 = 2 \/ v5 = 3) as [-> | [-> | ->]] by lia.
  - change (bits 1 1 1) with 0. change (Z.log2 1) with 0 in *. cbn [Z.eqb negb]. lia.
  - change (bits 2 1 1) with 1. change (Z.log2 2) with 1 in *. cbn [Z.eqb negb]. lia.
  - change (bits 3 1 1) with 1. change (Z.log2 3) with 1 in *. cbn [Z.eqb negb]. lia.
Qed.

Lemma low_zero_mod v n : 0 <= n -> (bits v (n - 1) 0 =? 0) = (v mod 2 ^ n =? 0) \/ n = 0 \/ 64 < n.
Proof.
  intros Hn. destruct (decide (n = 0)); [auto|]. destruct (decide (64 < n)); [auto|]. left.
  rewrite bits_div_mod by lia. rewrite Z.pow_0_r, Z.div_1_r. do 2 f_equal. f_equal. lia.
Qed.

(** [val] has only zeros below bit [l]. *)
Definition zeros_below (val l : Z) : Prop := forall j, 0 <= j < l -> Z.testbit val j = false.

Lemma lsb_step_ok val first n b l :
  first = n - 1 -> b = 2 * n -> 0 < n <= 32 -> 0 <= l ->
  zeros_below val l -> Z.shiftr val l mod 2 ^ b <> 0 ->
  exists l', lsb_step first n (l, Z.shiftr val l) = (l', Z.shiftr val l') /\ 0 <= l' /\
    zeros_below val l' /\ Z.shiftr val l' mod 2 ^ n <> 0.
Proof.
  intros -> -> Hn Hl Hz Hb. unfold lsb_step. cbn [fst snd].
  destruct (low_zero_mod (Z.shiftr val l) n) as [-> |[|]]; [lia| |lia..].
  destruct (Z.eqb_spec (Z.shiftr val l mod 2 ^ n) 0) as [E|E]; [|by exists l].
  exists (l + n). split; [by rewrite Z.shiftr_shiftr by lia|]. split; [lia|].
  assert (Hz' : zeros_below (Z.shiftr val l) n).
  { intros j Hj. rewrite <- (Z.mod_pow2_bits_low _ n) by lia. by rewrite E, Z.bits_0. }
  split.
  - intros j Hj. destruct (Z.lt_ge_cases j l); [apply Hz; lia|].
    specialize (Hz' (j - l) ltac:(lia)). rewrite Z.shiftr_spec in Hz' by lia.
    by rewrite Z.sub_add in Hz'.
  - intros E'. apply Hb. apply Z.bits_inj'. intros j Hj. rewrite Z.bits_0.
    destruct (Z.lt_ge_cases j (2 * n)); [|apply Z.mod_pow2_bits_high; lia].
    rewrite Z.mod_pow2_bits_low by lia. destruct (Z.lt_ge_cases j n); [apply Hz'; lia|].
    assert (Z.testbit (Z.shiftr val (l + n) mod 2 ^ n) (j - n) = false) as Hf.
    { by rewrite E', Z.bits_0. }
    rewrite Z.mod_pow2_bits_low, Z.shiftr_spec in Hf by lia. rewrite Z.shiftr_spec by lia.
    rewrite <- Hf. f_equal. lia.
Qed.

Lemma findLsbSet_spec val :
  0 < val < 2 ^ 64 ->
  let l := findLsbSet val in
  0 <= l < 64 /\ Z.testbit val l = true /\ zeros_below val l.
Proof.
  intros Hv. unfold findLsbSet. replace (val =? 0) with false by lia.
  rewrite <- (Z.shiftr_0_r val) at 1.
  destruct (lsb_step_ok val 31 32 64 0) as (l1 & E1 & P1 & Z1 & N1); [done..| | |].
  { intros j Hj. lia. } { rewrite Z.shiftr_0_r, Z.mod_small; lia. }
  rewrite Z.shiftr_0_r in E1 at 1. rewrite Z.shiftr_0_r. rewrite E1.
  destruct (lsb_step_ok val 15 16 32 l1) as (l2 & -> & P2 & Z2 & N2); [done..|].
  destruct (lsb_step_ok val 7 8 16 l2) as (l3 & -> & P3 & Z3 & N3); [done..|].
  destruct (lsb_step_ok val 3 4 8 l3) as (l4 & -> & P4 & Z4 & N4); [done..|].
  destruct (lsb_step_ok val 1 2 4 l4) as (l5 & -> & P5 & Z5 & N5); [done..|].
  destruct (lsb_step_ok val 0 1 2 l5) as (l6 & E6 & P6 & Z6 & N6); [done..|].
  assert (Hl6 : (if bits (Z.shiftr val l5) 0 0 =? 0 then l5 + 1 else l5) = l6).
  { unfold lsb_step in E6. cbn [fst snd] in E6. destruct (_ =? 0); by injection E6. }
  cbn [fst snd]. rewrite Hl6.
  assert (Hb : Z.testbit val l6 = true).
  { rewrite Z.pow_1_r, Zmod_odd in N6. destruct (Z.odd (Z.shiftr val l6)) eqn:Ho; [|done].
    rewrite <- Z.bit0_odd, Z.shiftr_spec in Ho by lia. by rewrite Z.add_0_l in Ho. }
  split; [|done]. split; [done|]. destruct (Z.lt_ge_cases l6 64); [done|].
  rewrite Z.bits_above_log2 in Hb; [done|lia|].
  assert (Z.log2 val < 64) by (apply Z.log2_lt_pow2; lia). lia.
Qed.

(** ** Sign extension *)
Lemma sext_sint N val : 0 < N <= 64 -> 0 <= val < 2 ^ N -> sext N val = sint N val.
Proof.
  intros HN Hv. unfold sext. set (b := bits val (N - 1) (N - 1)).
  assert (Hb : (b =? 0) = (val <? 2 ^ (N - 1))).
  { unfold b. apply bits_high_zero; [lia|lia|]. by rewrite Z.sub_add. }
  assert (HN2 : 2 ^ N = 2 * 2 ^ (N - 1)).
  { rewrite <- Z.pow_succ_r by lia. f_equal. lia. }
  assert (H64 : 2 ^ N <= 2 ^ 64) by (apply Z.pow_le_mono_r; lia).
  assert (H63 : 2 ^ (N - 1) <= 2 ^ 63) by (apply Z.pow_le_mono_r; lia).
  assert (0 < 2 ^ (N - 1)) by (apply Z.pow_pos_nonneg; lia).
  rewrite Hb. destruct (Z.ltb_spec val (2 ^ (N - 1))) as [Hlt|Hge]; cbn [negb].
  - rewrite !sint_small; lia.
  - assert (Hn : not64 (mask N) = 2 ^ 64 - 2 ^ N).
    { rewrite mask_ones by lia. unfold not64, uint. rewrite Z.lnot_eq_pred_opp, Z.ones_equiv.
      replace (- Z.pred (2 ^ N) - 1) with (2 ^ 64 - 2 ^ N + (-1) * 2 ^ 64) by lia.
      rewrite Z.mod_add, Z.mod_small; lia. }
    assert (Hl : Z.land val (not64 (mask N)) = 0).
    { rewrite mask_ones by lia. apply Z.bits_inj'. intros i Hi.
      rewrite Z.land_spec, Z.bits_0. unfold not64. rewrite uint_testbit, Z.lnot_spec by lia.
      destruct (Z.lt_ge_cases i N).
      - rewrite Z.ones_spec_low by lia. by rewrite andb_false_r, andb_false_r.
      - rewrite (Z.bits_above_log2 val); [done|lia|].
        assert (Z.log2 val < N) by (apply Z.log2_lt_pow2; lia). lia. }
    pose proof (Z.add_lor_land val (not64 (mask N))) as Hadd. rewrite Hl, Hn in Hadd.
    assert (Z.lor val (2 ^ 64 - 2 ^ N) = val + (2 ^ 64 - 2 ^ N)) as Hlor by lia.
    rewrite Hn, Hlor. rewrite !sint_wrap by lia. lia.
Qed.
End Bitfield.

Module IntMath.

(** [isPrime<int>]: the loop [for (i = 5; i*i <= n; i += 6)].  [i*i] is
    computed in [int]. *)
Definition int_mul (a b : Z) : res Z :=
  if (- 2 ^ 31 <=? a * b) && (a * b <? 2 ^ 31) then Ok (a * b) else Er Overflow.

Fixpoint isPrime_loop (fuel : nat) (n i : Z) : res bool :=
  ii ← int_mul i i;
  if ii <=? n then
    if (Z.rem n i =? 0) || (Z.rem n (i + 2) =? 0) then Ok false
    else match fuel with
         | O => Er OutOfFuel
         | S fuel => isPrime_loop fuel n (i + 6)
         end
  else Ok true.

(** The loop runs at most 7,723 times before [i*i] leaves [int]. *)
Definition isPrime_fuel : nat := Z.to_nat 7724.
Definition isPrime (n : Z) : res bool :=
  if (n =? 2) || (n =? 3) then Ok true else isPrime_loop isPrime_fuel n 5.

(** [prevPrime]. *)
Fixpoint prevPrime_loop (fuel : nat) (n decr : Z) : res Z :=
  p ← isPrime n;
  if (p : bool) then Ok n
  else match fuel with
       | O => Er OutOfFuel
       | S fuel => prevPrime_loop fuel (n - decr) (6 - decr)
       end.
Definition prevPrime (n : Z) : res Z :=
  let n := if Z.land n 1 =? 0 then n - 1 else n in
  let decr := Z.rem n 3 in
  let '(n, decr) :=
    if decr =? 0 then (n - 2, 2)
    else if decr =? 1 then (n, 4) else (n, decr) in
  prevPrime_loop (Z.to_nat n) n decr.

(** [leastSigBit(n)] and [isPowerOf2(n)] on a [w]-bit unsigned type. *)
Definition leastSigBit (w n : Z) : Z := Z.land n (uint w (Z.lnot (uint w (n - 1)))).
Definition isPowerOf2 (w n : Z) : bool := negb (n =? 0) && (leastSigBit w n =? n).

(** One [if (x & m) { y += n; x >>= n; }] of [floorLog2]. *)
Definition log_step (m n : Z) (yx : Z * Z) : Z * Z :=
  if negb (Z.land yx.2 m =? 0) then (yx.1 + n, Z.shiftr yx.2 n) else yx.

(** [floorLog2(unsigned)]. *)
Definition floorLog2 (x : Z) : res Z :=
  _ ← c_assert (0 <? x);
  let yx := (0, x) in
  let yx := log_step 0xffff0000 16 yx in
  let yx := log_step 0x0000ff00 8 yx in
  let yx := log_step 0x000000f0 4 yx in
  let yx := log_step 0x0000000c 2 yx in
  Ok (if negb (Z.land yx.2 0x00000002 =? 0) then yx.1 + 1 else yx.1).

(** [floorLog2(unsigned long long)] (and [unsigned long] on LP64). *)
Definition floorLog2_64 (x : Z) : res Z :=
  _ ← c_assert (0 <? x);
  let yx := (0, x) in
  let yx := log_step 0xffffffff00000000 32 yx in
  let yx := log_step 0x00000000ffff0000 16 yx in
  let yx := log_step 0x000000000000ff00 8 yx in
  let yx := log_step 0x00000000000000f0 4 yx in
  let yx := log_step 0x000000000000000c 2 yx in
  Ok (if negb (Z.land yx.2 0x0000000000000002 =? 0) then yx.1 + 1 else yx.1).

(** [floorLog2(int)]. *)
Definition floorLog2_int (x : Z) : res Z :=
  _ ← c_assert (0 <? x); floorLog2 (uint 32 x).

(** [floorLog2(long)] (64 bits on LP64) and [floorLog2(long long)]. *)
Definition floorLog2_long (x : Z) : res Z :=
  _ ← c_assert (0 <? x); floorLog2_64 (uint 64 x).

(** [ceilLog2], [floorPow2] and [ceilPow2] at [unsigned]. *)
Definition ceilLog2 (n : Z) : res Z :=
  if n =? 1 then Ok 0 else l ← floorLog2 (uint 32 (n - 1)); Ok (l + 1).
Definition floorPow2 (n : Z) : res Z := l ← floorLog2 n; Ok (uint 32 (Z.shiftl 1 l)).
Definition ceilPow2 (n : Z) : res Z := l ← ceilLog2 n; Ok (uint 32 (Z.shiftl 1 l)).

(** [divCeil], [roundUp] and [roundDown] on a [w]-bit unsigned type. *)
Definition divCeil (w a b : Z) : Z := uint w (a + b - 1) / b.
Definition roundUp (w val align : Z) : Z :=
  let mask := uint w (uint w align - 1) in
  Z.land (uint w (val + mask)) (uint w (Z.lnot mask)).
Definition roundDown (w val align : Z) : Z :=
  let mask := uint w (uint w align - 1) in
  Z.land val (uint w (Z.lnot mask)).

(** Character classes; a [char] is its code. *)
Definition isHex (c : Z) : bool :=
  ((48 <=? c) && (c <=? 57)) || ((65 <=? c) && (c <=? 70)) || ((97 <=? c) && (c <=? 102)).
Definition isOct (c : Z) : bool := (48 <=? c) && (c <=? 55).
Definition isDec (c : Z) : bool := (48 <=? c) && (c <=? 57).
Definition hex2Int (c : Z) : Z :=
  if (48 <=? c) && (c <=? 57) then c - 48
  else if (65 <=? c) && (c <=? 70) then c - 65 + 10
  else if (97 <=? c) && (c <=? 102) then c - 97 + 10
  else 0.

(** ** Lemmas *)
Import Bitfield.

Lemma land_high_zero x n :
  0 < n -> 0 <= x < 2 ^ (2 * n) ->
  (Z.land x (Z.shiftl (Z.ones n) n) =? 0) = (x <? 2 ^ n).
Proof.
  intros Hn Hx. destruct (Z.ltb_spec x (2 ^ n)) as [Hlt|Hge].
  - apply Z.eqb_eq, Z.bits_inj'. intros i Hi. rewrite Z.land_spec, Z.shiftl_spec, Z.bits_0 by done.
    destruct (Z.lt_ge_cases i n).
    + by rewrite (Z.testbit_neg_r _ (i - n)), andb_false_r by lia.
    + destruct (decide (x = 0)) as [->|]; [by rewrite Z.bits_0|].
      rewrite (Z.bits_above_log2 x); [done|lia|].
      assert (Z.log2 x < n) by (apply Z.log2_lt_pow2; lia). lia.
  - apply Z.eqb_neq. intros E. assert (0 < 2 ^ n) by (apply Z.pow_pos_nonneg; lia).
    assert (Hl1 : n <= Z.log2 x) by (apply Z.log2_le_pow2; lia).
    assert (Hl2 : Z.log2 x < 2 * n) by (apply Z.log2_lt_pow2; lia).
    assert (Z.testbit (Z.land x (Z.shiftl (Z.ones n) n)) (Z.log2 x) = true) as Hb.
    { rewrite Z.land_spec, Z.shiftl_spec, Z.bit_log2, Z.ones_spec_low; [done|lia..]. }
    by rewrite E, Z.bits_0 in Hb.
Qed.

Lemma log_step_ok m n b y x :
  m = Z.shiftl (Z.ones n) n -> b = 2 * n -> 0 < n -> 0 < x < 2 ^ b ->
  exists y' x', log_step m n (y, x) = (y', x') /\
    0 < x' < 2 ^ n /\ y' + Z.log2 x' = y + Z.log2 x.
Proof.
  intros -> -> Hn Hx. eexists _, _. split; [apply surjective_pairing|].
  unfold log_step. cbn [fst snd]. rewrite land_high_zero by lia.
  destruct (Z.ltb_spec x (2 ^ n)); cbn [negb fst snd]; [lia|].
  split; [apply shiftr_bounds; rewrite ?Z.add_diag; lia|]. rewrite log2_shiftr by lia. lia.
Qed.

Lemma log_last y x l : 0 < x < 2 ^ 2 -> y + Z.log2 x = l ->
  (if negb (Z.land x 2 =? 0) then y + 1 else y) = l.
Proof.
  intros Hx. assert (x = 1 \/ x = 2 \/ x = 3) as [-> | [-> | ->]] by lia; intros <-.
  - change (Z.log2 1) with 0. change (Z.land 1 2) with 0. cbn [Z.eqb negb]. lia.
  - change (Z.log2 2) with 1. change (Z.land 2 2) with 2. cbn [Z.eqb negb]. lia.
  - change (Z.log2 3) with 1. change (Z.land 3 2) with 2. cbn [Z.eqb negb]. lia.
Qed.

Lemma floorLog2_log2 x : 0 < x < 2 ^ 32 -> floorLog2 x = Ok (Z.log2 x).
Proof.
  intros Hx. unfold floorLog2. replace (0 <? x) with true by lia. cbn [c_assert]. bind_step.
  destruct (log_step_ok 0xffff0000 16 32 0 x) as (y1 & x1 & -> & H1 & E1); [done..|].
  destruct (log_step_ok 0xff00 8 16 y1 x1) as (y2 & x2 & -> & H2 & E2); [done..|].
  destruct (log_step_ok 0xf0 4 8 y2 x2) as (y3 & x3 & -> & H3 & E3); [done..|].
  destruct (log_step_ok 0xc 2 4 y3 x3) as (y4 & x4 & -> & H4 & E4); [done..|].
  cbn [fst snd]. f_equal. apply log_last; [done|lia].
Qed.

Lemma floorLog2_64_log2 x : 0 < x < 2 ^ 64 -> floorLog2_64 x = Ok (Z.log2 x).
Proof.
  intros Hx. unfold floorLog2_64. replace (0 <? x) with true by lia. cbn [c_assert]. bind_step.
  destruct (log_step_ok 0xffffffff00000000 32 64 0 x) as (y0 & x0 & -> & H0 & E0); [done..|].
  destruct (log_step_ok 0xffff0000 16 32 y0 x0) as (y1 & x1 & -> & H1 & E1); [done..|].
  destruct (log_step_ok 0xff00 8 16 y1 x1) as (y2 & x2 & -> & H2 & E2); [done..|].
  destruct (log_step_ok 0xf0 4 8 y2 x2) as (y3 & x3 & -> & H3 & E3); [done..|].
  destruct (log_step_ok 0xc 2 4 y3 x3) as (y4 & x4 & -> & H4 & E4); [done..|].
  cbn [fst snd]. f_equal. apply log_last; [done|lia].
Qed.

(** ** Powers of two *)
Lemma land_pred_pow2 n : 0 < n -> Z.land n (n - 1) = 0 <-> n = 2 ^ Z.log2 n.
Proof.
  intros Hn. pose proof (Z.log2_spec n Hn) as [Hlo Hhi]. pose proof (Z.log2_nonneg n) as Hk.
  split.
  - intros E. destruct (Z.eq_dec n (2 ^ Z.log2 n)) as [|Hne]; [done|exfalso].
    assert (Z.testbit (Z.land n (n - 1)) (Z.log2 n) = true) as Hb.
    { rewrite Z.land_spec, Z.bit_log2 by done. cbn [andb].
      replace (Z.log2 n) with (Z.log2 (n - 1)); [apply Z.bit_log2; lia|].
      apply Z.log2_unique; lia. }
    by rewrite E, Z.bits_0 in Hb.
  - intros E. rewrite E at 1 2. rewrite Z.sub_1_r, <- Z.ones_equiv, Z.land_ones by done.
    apply Z.mod_same. apply Z.pow_nonzero; lia.
Qed.

Lemma land_not w val m : 0 <= w -> 0 <= val < 2 ^ w ->
  Z.land val (uint w (Z.lnot m)) = Z.ldiff val m.
Proof.
  intros Hw Hv. apply Z.bits_inj'. intros i Hi.
  rewrite Z.land_spec, uint_testbit, Z.lnot_spec, Z.ldiff_spec by done.
  destruct (Z.ltb_spec i w); [done|].
  destruct (decide (val = 0)) as [->|]; [by rewrite Z.bits_0|].
  rewrite (Z.bits_above_log2 val); [done|lia|].
  assert (Z.log2 val < w) by (apply Z.log2_lt_pow2; lia). lia.
Qed.

Lemma isPowerOf2_log2 w n :
  0 <= w -> 0 <= n < 2 ^ w -> isPowerOf2 w n = true <-> 0 < n /\ n = 2 ^ Z.log2 n.
Proof.
  intros Hw Hn. unfold isPowerOf2, leastSigBit. rewrite andb_true_iff, negb_true_iff.
  rewrite Z.eqb_neq, Z.eqb_eq. rewrite land_not by lia.
  destruct (decide (n = 0)) as [->|Hne]; [lia|]. rewrite uint_small by lia.
  rewrite <- land_pred_pow2 by lia.
  assert (Z.ldiff n (n - 1) + Z.land n (n - 1) = n).
  { rewrite <- Z.add_lor_land.
    assert (Z.land (Z.ldiff n (n - 1)) (Z.land n (n - 1)) = 0) as ->.
    { apply Z.bits_inj'. intros i Hi. rewrite !Z.land_spec, Z.ldiff_spec, Z.bits_0.
      by destruct (Z.testbit n i), (Z.testbit (n - 1) i). }
    rewrite Z.add_0_r. apply Z.bits_inj'. intros i Hi.
    rewrite Z.lor_spec, Z.ldiff_spec, Z.land_spec.
    by destruct (Z.testbit n i), (Z.testbit (n - 1) i). }
  lia.
Qed.

Lemma isPowerOf2_pow w k : 0 <= k < w -> isPowerOf2 w (2 ^ k) = true.
Proof.
  intros Hk. apply isPowerOf2_log2; [lia| |].
  - split; [apply Z.pow_nonneg; lia|]. apply Z.pow_lt_mono_r; lia.
  - rewrite Z.log2_pow2 by lia. split; [|done]. apply Z.pow_pos_nonneg; lia.
Qed.

Lemma ldiff_ones_div val k : 0 <= k -> Z.ldiff val (Z.ones k) = val / 2 ^ k * 2 ^ k.
Proof. intros Hk. by rewrite Z.ldiff_ones_r, Z.shiftr_div_pow2, Z.shiftl_mul_pow2 by done. Qed.

Lemma roundDown_spec w val k :
  0 <= k < w -> 0 <= val < 2 ^ w -> roundDown w val (2 ^ k) = val / 2 ^ k * 2 ^ k.
Proof.
  intros Hk Hv. unfold roundDown.
  pose proof (Z.pow_lt_mono_r 2 k w ltac:(lia) ltac:(lia) ltac:(lia)).
  assert (0 < 2 ^ k) by (apply Z.pow_pos_nonneg; lia).
  rewrite (uint_small w (2 ^ k)), (uint_small w (2 ^ k - 1)), land_not by lia.
  rewrite Z.sub_1_r, <- Z.ones_equiv. apply ldiff_ones_div. lia.
Qed.

Lemma roundUp_spec w val k :
  0 <= k < w -> 0 <= val -> val + 2 ^ k - 1 < 2 ^ w ->
  roundUp w val (2 ^ k) = (val + 2 ^ k - 1) / 2 ^ k * 2 ^ k.
Proof.
  intros Hk Hv Ho. unfold roundUp.
  pose proof (Z.pow_lt_mono_r 2 k w ltac:(lia) ltac:(lia) ltac:(lia)).
  assert (0 < 2 ^ k) by (apply Z.pow_pos_nonneg; lia).
  rewrite (uint_small w (2 ^ k)), (uint_small w (2 ^ k - 1)), (uint_small w (val + _)), land_not by lia.
  rewrite Z.add_sub_assoc, <- ldiff_ones_div by lia. f_equal. rewrite Z.ones_equiv. lia.
Qed.

Lemma ceilLog2_spec n :
  1 <= n < 2 ^ 32 -> exists c, ceilLog2 n = Ok c /\ 0 <= c <= 32 /\ n <= 2 ^ c /\ (c <> 0 -> 2 ^ (c - 1) < n).
Proof.
  intros Hn. unfold ceilLog2. destruct (Z.eqb_spec n 1) as [->|Hne].
  - exists 0. split_and!; [done|lia..].
  - rewrite uint_small, floorLog2_log2 by lia. bind_step.
    pose proof (Z.log2_spec (n - 1) ltac:(lia)) as [H1 H2].
    pose proof (Z.log2_nonneg (n - 1)).
    assert (Z.log2 (n - 1) < 32) by (apply Z.log2_lt_pow2; lia).
    exists (Z.log2 (n - 1) + 1). rewrite Z.add_simpl_r. rewrite Z.add_1_r.
    split_and!; [done|lia..].
Qed.

(** ** Primality *)
Definition no_divisor_below (n i : Z) : Prop := forall d, 1 < d < i -> ~ (d | n).

Lemma no_divisor_prime n i :
  1 < n -> 0 < i -> n < i * i -> no_divisor_below n i -> prime n.
Proof.
  intros Hn Hi Hlt Hno. destruct (prime_dec n) as [?|Hnp]; [done|exfalso].
  destruct (not_prime_divide n Hn Hnp) as (d & Hd & [e He]).
  destruct (Z.lt_ge_cases d i); [by apply (Hno d); [lia|exists e]|].
  apply (Hno e); [|exists d; lia]. nia.
Qed.

Lemma no_divisor_step n i :
  (i mod 6 = 5) -> 5 <= i -> n mod 2 <> 0 -> n mod 3 <> 0 ->
  Z.rem n i <> 0 -> Z.rem n (i + 2) <> 0 ->
  no_divisor_below n i -> no_divisor_below n (i + 6).
Proof.
  intros Hi H5 H2 H3 Hr1 Hr2 Hno d Hd Hdiv.
  assert (Hrem : forall k, k <> 0 -> (k | n) -> Z.rem n k = 0)
    by (intros k Hk Hk'; by apply Z.rem_divide).
  assert (Hmod : forall k, 0 < k -> (k | n) -> n mod k = 0)
    by (intros k Hk Hk'; apply Z.mod_divide; [lia|done]).
  destruct (Z.lt_ge_cases d i); [by apply (Hno d); [lia|]|].
  assert (Hcase : d = i \/ d = i + 2 \/ (2 | d) \/ (3 | d)).
  { assert (d - i = 0 \/ d - i = 1 \/ d - i = 2 \/ d - i = 3 \/ d - i = 4 \/ d - i = 5)
      as [?|[?|[?|[?|[?|?]]]]] by lia; [by left; lia| |by right; left; lia| | |];
      right; right; [left|left|right|left];
      (apply Z.mod_divide; [lia|]; Z.to_euclidean_division_equations; lia). }
  destruct Hcase as [->|[->|[Hd2|Hd3]]].
  - apply Hr1, Hrem; [lia|done].
  - apply Hr2, Hrem; [lia|done].
  - apply H2, Hmod; [lia|]. by apply (Z.divide_trans _ d).
  - apply H3, Hmod; [lia|]. by apply (Z.divide_trans _ d).
Qed.

Lemma isPrime_loop_correct fuel : forall n i,
  i mod 6 = 5 -> 5 <= i -> 46337 < i + 6 * Z.of_nat fuel -> i <= 46337 ->
  1 < n < 46337 * 46337 -> n mod 2 <> 0 -> n mod 3 <> 0 -> no_divisor_below n i ->
  exists b, isPrime_loop fuel n i = Ok b /\ (b = true <-> prime n).
Proof.
  induction fuel as [|fuel IH]; intros n i Hi H5 Hf Hmax Hn H2 H3 Hno; [lia|].
  cbn [isPrime_loop]. unfold int_mul.
  assert (0 <= i * i <= 46337 * 46337) by nia.
  replace ((- 2 ^ 31 <=? i * i) && (i * i <? 2 ^ 31)) with true by lia. bind_step.
  destruct (Z.leb_spec (i * i) n) as [Hle|Hgt].
  2:{ exists true. split; [done|]. split; [|done]. intros _.
      by apply (no_divisor_prime n i); [lia..|]. }
  assert (Hcomp : forall k, 1 < k < n -> Z.rem n k = 0 -> ~ prime n).
  { intros k Hk Hr Hp. apply Z.rem_divide in Hr; [|lia].
    apply prime_alt in Hp as [_ Hp]. by apply (Hp k). }
  destruct (Z.eqb_spec (Z.rem n i) 0) as [E|E]; cbn [orb].
  { exists false. split; [done|]. split; [done|]. intros Hp.
    exfalso. by apply (Hcomp i); [nia|..]. }
  destruct (Z.eqb_spec (Z.rem n (i + 2)) 0) as [E'|E'].
  { exists false. split; [done|]. split; [done|]. intros Hp.
    exfalso. by apply (Hcomp (i + 2)); [nia|..]. }
  assert (i <> 46337) by (intros ->; lia).
  apply IH; try done; try lia.
  1, 2: Z.to_euclidean_division_equations; lia.
  by apply no_divisor_step.
Qed.
End IntMath.

(** ** Byte order

    The branches of [swap_byte16], [swap_byte32] and [swap_byte64] that the
    file itself computes (the other branches call the platform's own byte swap). *)
Module ByteSwap.
Import Bitfield.

Definition swap_byte64 (x : Z) : Z :=
  Z.lor (uint 64 (Z.shiftl (Z.land x 0xff) 56))
 (Z.lor (uint 64 (Z.shiftl (Z.land x 0xff00) 40))
 (Z.lor (uint 64 (Z.shiftl (Z.land x 0xff0000) 24))
 (Z.lor (uint 64 (Z.shiftl (Z.land x 0xff000000) 8))
 (Z.lor (Z.shiftr (Z.land x 0xff00000000) 8)
 (Z.lor (Z.shiftr (Z.land x 0xff0000000000) 24)
 (Z.lor (Z.shiftr (Z.land x 0xff000000000000) 40)
        (Z.shiftr (Z.land x 0xff00000000000000) 56))))))).

Definition swap_byte32 (x : Z) : Z :=
  Z.lor (uint 32 (Z.shiftl (Z.land x 0xff) 24))
 (Z.lor (uint 32 (Z.shiftl (Z.land x 0xff00) 8))
 (Z.lor (Z.shiftr (Z.land x 0xff0000) 8)
        (Z.shiftr (Z.land x 0xff000000) 24))).

Definition swap_byte16 (x : Z) : Z :=
  uint 16 (Z.lor (Z.shiftl (Z.land x 0xff) 8) (Z.shiftr (Z.land x 0xff00) 8)).

(** [swap_byte<T>], by [sizeof(T)]. *)
Definition swap_byte (size x : Z) : res Z :=
  if size =? 8 then Ok (swap_byte64 x)
  else if size =? 4 then Ok (swap_byte32 x)
  else if size =? 2 then Ok (swap_byte16 x)
  else if size =? 1 then Ok x
  else Er Panic.

(** The pair specialisations ([Twin32_t] and [Twin64_t]). *)
Definition swap_twin (size : Z) (x : Z * Z) : res (Z * Z) :=
  a ← swap_byte size x.1; b ← swap_byte size x.2; Ok (a, b).

(** [betole], [letobe] and the host conversions, by the host's byte order. *)
Inductive ByteOrder := BigEndianByteOrder | LittleEndianByteOrder.
Definition betole (size x : Z) : res Z := swap_byte size x.
Definition letobe (size x : Z) : res Z := swap_byte size x.
Definition htole (host : ByteOrder) (size x : Z) : res Z :=
  match host with BigEndianByteOrder => swap_byte size x | LittleEndianByteOrder => Ok x end.
Definition letoh (host : ByteOrder) (size x : Z) : res Z :=
  match host with BigEndianByteOrder => swap_byte size x | LittleEndianByteOrder => Ok x end.
Definition htobe (host : ByteOrder) (size x : Z) : res Z :=
  match host with BigEndianByteOrder => Ok x | LittleEndianByteOrder => swap_byte size x end.
Definition betoh (host : ByteOrder) (size x : Z) : res Z :=
  match host with BigEndianByteOrder => Ok x | LittleEndianByteOrder => swap_byte size x end.

(** The guest conversions of [BigEndianGuest] and [LittleEndianGuest]. *)
Definition gtole (guest : ByteOrder) (size x : Z) : res Z :=
  match guest with BigEndianByteOrder => betole size x | LittleEndianByteOrder => Ok x end.
Definition letog (guest : ByteOrder) (size x : Z) : res Z :=
  match guest with BigEndianByteOrder => letobe size x | LittleEndianByteOrder => Ok x end.
Definition gtobe (guest : ByteOrder) (size x : Z) : res Z :=
  match guest with BigEndianByteOrder => Ok x | LittleEndianByteOrder => letobe size x end.
Definition betog (guest : ByteOrder) (size x : Z) : res Z :=
  match guest with BigEndianByteOrder => Ok x | LittleEndianByteOrder => betole size x end.
Definition htog (guest host : ByteOrder) (size x : Z) : res Z :=
  match guest with BigEndianByteOrder => htobe host size x | LittleEndianByteOrder => htole host size x end.
Definition gtoh (guest host : ByteOrder) (size x : Z) : res Z :=
  match guest with BigEndianByteOrder => betoh host size x | LittleEndianByteOrder => letoh host size x end.

(** Where bit [i] of a byte-swapped [w]-bit value comes from. *)
Definition mirror (w i : Z) : Z := w - 8 - 8 * (i / 8) + i mod 8.

Lemma Forall_seqZ (P : Z -> Prop) n :
  Forall P (seqZ 0 n) -> forall i, 0 <= i < n -> P i.
Proof. intros H i Hi. rewrite Forall_forall in H. apply H, elem_of_seqZ. lia. Qed.

(** Evaluates the bits of constants in a goal about one bit of a swap. *)
Ltac const_bits :=
  repeat match goal with
  | |- context [Z.testbit (Zpos ?p) ?k] =>
      let b := eval vm_compute in (Z.testbit (Zpos p) k) in
      change (Z.testbit (Zpos p) k) with b
  | |- context [?a <? ?b] =>
      let c := eval vm_compute in (a <? b) in change (a <? b) with c
  end.
Ltac swap_bit :=
  cbv beta; rewrite ?Z.lor_spec, ?uint_testbit, ?Z.lor_spec, ?Z.shiftl_spec, ?Z.shiftr_spec, ?Z.land_spec by lia;
  const_bits; rewrite ?andb_false_r, ?andb_true_r, ?orb_false_r; reflexivity.

Lemma swap_byte64_bit x i : 0 <= i < 64 -> Z.testbit (swap_byte64 x) i = Z.testbit x (mirror 64 i).
Proof.
  revert i. apply Forall_seqZ. let l := eval vm_compute in (seqZ 0 64) in change (seqZ 0 64) with l. unfold swap_byte64.
  repeat (apply Forall_cons_2; [swap_bit|]). apply Forall_nil_2.
Qed.

Lemma swap_byte32_bit x i : 0 <= i < 32 -> Z.testbit (swap_byte32 x) i = Z.testbit x (mirror 32 i).
Proof.
  revert i. apply Forall_seqZ. let l := eval vm_compute in (seqZ 0 32) in change (seqZ 0 32) with l. unfold swap_byte32.
  repeat (apply Forall_cons_2; [swap_bit|]). apply Forall_nil_2.
Qed.

Lemma swap_byte16_bit x i : 0 <= i < 16 -> Z.testbit (swap_byte16 x) i = Z.testbit x (mirror 16 i).
Proof.
  revert i. apply Forall_seqZ. let l := eval vm_compute in (seqZ 0 16) in change (seqZ 0 16) with l. unfold swap_byte16.
  repeat (apply Forall_cons_2; [swap_bit|]). apply Forall_nil_2.
Qed.

Lemma below_of_bits w x : 0 <= w -> 0 <= x ->
  (forall i, w <= i -> Z.testbit x i = false) -> x < 2 ^ w.
Proof.
  intros Hw Hx Hb. destruct (Z.lt_ge_cases x (2 ^ w)) as [|Hge]; [done|exfalso].
  assert (0 < 2 ^ w) by (apply Z.pow_pos_nonneg; lia).
  assert (w <= Z.log2 x) by (apply Z.log2_le_pow2; lia).
  assert (Z.testbit x (Z.log2 x) = true) by (apply Z.bit_log2; lia).
  by rewrite Hb in *.
Qed.

Lemma testbit_lt x w i : 0 <= w -> 0 <= x < 2 ^ w -> w <= i -> Z.testbit x i = false.
Proof.
  intros Hw Hx Hi. rewrite <- (uint_small w x), uint_testbit by lia.
  by replace (i <? w) with false by lia.
Qed.

Lemma lor_range w a b : 0 <= w -> 0 <= a < 2 ^ w -> 0 <= b < 2 ^ w -> 0 <= Z.lor a b < 2 ^ w.
Proof.
  intros Hw Ha Hb. assert (0 <= Z.lor a b) by (apply Z.lor_nonneg; lia). split; [done|].
  apply below_of_bits; [done..|]. intros i Hi.
  by rewrite Z.lor_spec, (testbit_lt a w), (testbit_lt b w).
Qed.

Lemma shiftr_land_range x m n w :
  0 <= n -> 0 <= m -> Z.shiftr m n < 2 ^ w -> 0 <= w -> 0 <= Z.shiftr (Z.land x m) n < 2 ^ w.
Proof.
  intros Hn Hm Hlt Hw. rewrite Z.shiftr_land.
  assert (0 <= Z.shiftr m n) by (apply Z.shiftr_nonneg; lia).
  assert (0 <= Z.land (Z.shiftr x n) (Z.shiftr m n)) by (apply Z.land_nonneg; lia).
  split; [done|]. apply below_of_bits; [done..|]. intros i Hi.
  by rewrite Z.land_spec, (testbit_lt (Z.shiftr m n) w), andb_false_r.
Qed.

Ltac swap_range :=
  repeat (apply lor_range; [done| |]);
  first [apply uint_range; done | apply shiftr_land_range; done].

Lemma swap_byte_ok size x :
  size ∈ [1; 2; 4; 8] -> 0 <= x < 2 ^ (8 * size) ->
  exists y, swap_byte size x = Ok y /\ 0 <= y < 2 ^ (8 * size) /\
    forall i, 0 <= i < 8 * size -> Z.testbit y i = Z.testbit x (mirror (8 * size) i).
Proof.
  intros Hs Hx. rewrite !elem_of_cons, elem_of_nil in Hs.
  destruct Hs as [-> | [-> | [-> | [-> | []]]]].
  - exists x. split_and!; [done|apply Hx..|]. intros i Hi. f_equal. unfold mirror.
    rewrite Z.div_small, Z.mod_small by lia. lia.
  - exists (swap_byte16 x). split; [done|]. split; [apply uint_range; done|].
    intros i Hi. by apply swap_byte16_bit.
  - exists (swap_byte32 x). split; [done|]. split; [unfold swap_byte32; swap_range|].
    intros i Hi. by apply swap_byte32_bit.
  - exists (swap_byte64 x). split; [done|]. split; [unfold swap_byte64; swap_range|].
    intros i Hi. by apply swap_byte64_bit.
Qed.

Lemma mirror_range s i : 0 <= i < 8 * s -> 0 <= mirror (8 * s) i < 8 * s.
Proof. intros Hi. unfold mirror. Z.to_euclidean_division_equations. lia. Qed.

Lemma mirror_mirror s i : 0 <= i < 8 * s -> mirror (8 * s) (mirror (8 * s) i) = i.
Proof. intros Hi. unfold mirror. Z.to_euclidean_division_equations. lia. Qed.

Lemma bits_eq w x y : 0 <= w -> 0 <= x < 2 ^ w -> 0 <= y < 2 ^ w ->
  (forall i, 0 <= i < w -> Z.testbit x i = Z.testbit y i) -> x = y.
Proof.
  intros Hw Hx Hy Hb. apply Z.bits_inj'. intros i Hi.
  destruct (Z.lt_ge_cases i w); [by apply Hb|]. by rewrite !(testbit_lt _ w).
Qed.

Lemma swap_byte_invol size x :
  size ∈ [1; 2; 4; 8] -> 0 <= x < 2 ^ (8 * size) ->
  (y ← swap_byte size x; swap_byte size y) = Ok x.
Proof.
  intros Hs Hx. assert (0 < size) by (rewrite !elem_of_cons, elem_of_nil in Hs; lia).
  destruct (swap_byte_ok size x Hs Hx) as (y & -> & Hy & Hby). bind_step.
  destruct (swap_byte_ok size y Hs Hy) as (z & -> & Hz & Hbz). f_equal.
  apply (bits_eq (8 * size)); [lia|done..|]. intros i Hi.
  rewrite Hbz, Hby by auto using mirror_range. by rewrite mirror_mirror.
Qed.
End ByteSwap.
