(* ===== verification/IntMathTheorems.v ===== *)
(** * Theorems on bit fields, integer logarithms and byte order

    The contracts of [IntMath]: a field written by [insertBits] is the field
    [bits] reads back, [sext] is the two's-complement reading, the bit
    searches and logarithms are the mathematical ones, the rounding functions
    give the nearest multiples, and byte swapping reverses bytes. *)
From Stdlib Require Import Znumtheory.
From S2P Require Import Prelude IntMath.
Import Bitfield IntMath ByteSwap.

(** [insertBits] changes exactly the selected field: it fits the type,
    [bits] reads back the inserted value (truncated to the field's size), and
    every bit outside the field is that of the old value. *)
Theorem insertBits_roundtrip w val first last b :
  0 <= last <= first -> first < w -> w <= 64 -> 0 <= val < 2 ^ w -> 0 <= b < 2 ^ 64 ->
  0 <= insertBits w val first last b < 2 ^ w /\
  bits (insertBits w val first last b) first last = b mod 2 ^ (first - last + 1) /\
  forall i, 0 <= i -> (i < last \/ first < i) ->
    Z.testbit (insertBits w val first last b) i = Z.testbit val i.
Proof.
  intros Hl Hf Hw Hv Hb. split; [apply uint_range; lia|]. split.
  - apply Z.bits_inj'. intros i Hi. rewrite bits_testbit by lia.
    change (b mod 2 ^ (first - last + 1)) with (uint (first - last + 1) b).
    rewrite uint_testbit by lia. destruct (Z.leb_spec i (first - last)).
    + rewrite insertBits_testbit by lia.
      replace ((last <=? i + last) && (i + last <=? first)) with true by lia.
      replace (i <? first - last + 1) with true by lia. by rewrite Z.add_simpl_r.
    + by replace (i <? first - last + 1) with false by lia.
  - intros i Hi Hout. destruct (Z.lt_ge_cases i w).
    + rewrite insertBits_testbit by lia.
      by replace ((last <=? i) && (i <=? first)) with false by lia.
    + by rewrite !(testbit_lt _ w) by first [lia | apply uint_range; lia].
Qed.

Lemma insertBits_roundtrip_witness :
  bits (insertBits 32 0xdeadbeef 15 8 0x142) 15 8 = 0x142 mod 2 ^ 8.
Proof. apply (insertBits_roundtrip 32 0xdeadbeef 15 8 0x142); lia. Defined.

(** [sext<N>] reads its [N]-bit argument as a two's-complement number. *)
Theorem sext_twos_complement N val :
  0 < N <= 64 -> 0 <= val < 2 ^ N ->
  sext N val = (if val <? 2 ^ (N - 1) then val else val - 2 ^ N).
Proof.
  intros HN Hv. rewrite sext_sint by lia.
  assert (2 ^ N = 2 * 2 ^ (N - 1)) by (rewrite <- Z.pow_succ_r by lia; f_equal; lia).
  destruct (Z.ltb_spec val (2 ^ (N - 1))); [apply sint_small|apply sint_wrap]; lia.
Qed.

Lemma sext_twos_complement_witness : sext 13 0x1fff = -1.
Proof. rewrite (sext_twos_complement 13 0x1fff); [reflexivity|lia..]. Defined.

(** The bit searches: for a nonzero 64-bit value [findMsbSet] is the
    position of the highest set bit and [findLsbSet] that of the lowest. *)
Theorem find_set_bits val :
  0 < val < 2 ^ 64 ->
  Z.testbit val (findMsbSet val) = true /\
  (forall i, findMsbSet val < i -> Z.testbit val i = false) /\
  Z.testbit val (findLsbSet val) = true /\
  (forall i, 0 <= i < findLsbSet val -> Z.testbit val i = false).
Proof.
  intros Hv. rewrite findMsbSet_log2 by done.
  destruct (findLsbSet_spec val Hv) as (_ & Hl1 & Hl2). split_and!.
  - by apply Z.bit_log2; lia.
  - intros i Hi. by apply Z.bits_above_log2; lia.
  - done.
  - done.
Qed.

Lemma find_set_bits_witness : Z.testbit 0xf0f00 (findLsbSet 0xf0f00) = true.
Proof. apply (find_set_bits 0xf0f00). lia. Defined.

(** The logarithms: for a positive argument of its type every
    [floorLog2] returns the base-two logarithm rounded down (so [floorPow2] is
    the largest power of two not above it), and [ceilLog2] the logarithm
    rounded up. *)
Theorem integer_logarithms n :
  0 < n < 2 ^ 32 ->
  floorLog2 n = Ok (Z.log2 n) /\ floorLog2_64 n = Ok (Z.log2 n) /\
  (exists p, floorPow2 n = Ok p /\ p <= n < 2 * p) /\
  (exists c, ceilLog2 n = Ok c /\ n <= 2 ^ c /\ (c <> 0 -> 2 ^ (c - 1) < n)).
Proof.
  intros Hn. rewrite floorLog2_log2, floorLog2_64_log2 by lia. split_and!; [done|done| |].
  - unfold floorPow2. rewrite floorLog2_log2 by done. bind_step. eexists. split; [done|].
    pose proof (Z.log2_spec n ltac:(lia)) as [H1 H2].
    rewrite Z.shiftl_1_l, uint_small; [|lia]. rewrite Z.pow_succ_r in H2 by apply Z.log2_nonneg. lia.
  - destruct (ceilLog2_spec n) as (c & -> & _ & Hc); [lia|]. exists c. split; [done|apply Hc].
Qed.

Lemma integer_logarithms_witness : floorLog2 1000 = Ok 9 /\ ceilLog2 1000 = Ok 10.
Proof.
  destruct (integer_logarithms 1000) as (H & _ & _ & c & Hc & _); [lia|].
  split; [exact H|]. rewrite Hc. rewrite <- Hc. reflexivity.
Defined.

(** [isPowerOf2] decides being a power of two, at every unsigned width. *)
Theorem isPowerOf2_iff w n :
  0 <= w -> 0 <= n < 2 ^ w -> isPowerOf2 w n = true <-> exists k, 0 <= k /\ n = 2 ^ k.
Proof.
  intros Hw Hn. rewrite isPowerOf2_log2 by done. split.
  - intros [Hp E]. exists (Z.log2 n). split; [apply Z.log2_nonneg|done].
  - intros (k & Hk & ->). rewrite Z.log2_pow2 by done. split; [|done].
    apply Z.pow_pos_nonneg; lia.
Qed.

Lemma isPowerOf2_iff_witness : exists k, 0 <= k /\ 4096 = 2 ^ k.
Proof. apply (isPowerOf2_iff 32 4096); [lia|lia|reflexivity]. Defined.

(** Rounding to a power-of-two alignment: [roundDown] gives the greatest
    multiple not above the value, and [roundUp] the least multiple not below
    it whenever that sum does not overflow the type. *)
Theorem rounding w val k :
  0 <= k < w -> 0 <= val -> val + 2 ^ k - 1 < 2 ^ w ->
  (2 ^ k | roundDown w val (2 ^ k)) /\ (2 ^ k | roundUp w val (2 ^ k)) /\
  roundDown w val (2 ^ k) <= val < roundDown w val (2 ^ k) + 2 ^ k /\
  roundUp w val (2 ^ k) - 2 ^ k < val <= roundUp w val (2 ^ k).
Proof.
  intros Hk Hv Ho. assert (0 < 2 ^ k) by (apply Z.pow_pos_nonneg; lia).
  rewrite roundDown_spec, roundUp_spec by lia.
  split_and!; [by eexists|by eexists| | | |];
    pose proof (Z.div_mod val (2 ^ k) ltac:(lia));
    pose proof (Z.mod_pos_bound val (2 ^ k) ltac:(lia));
    pose proof (Z.div_mod (val + 2 ^ k - 1) (2 ^ k) ltac:(lia));
    pose proof (Z.mod_pos_bound (val + 2 ^ k - 1) (2 ^ k) ltac:(lia)); lia.
Qed.

Lemma rounding_witness : (2 ^ 6 | roundUp 64 1000 (2 ^ 6)).
Proof. apply (rounding 64 1000 6); lia. Defined.

(** Byte swapping a value of 1, 2, 4 or 8 bytes reverses its bytes and
    keeps the bits of each byte; a guest conversion is undone by the opposite
    one, for every pair of guest and host byte orders; a value of another size
    panics. *)
Theorem byte_order_roundtrip size x guest host :
  0 <= x < 2 ^ (8 * size) ->
  (size ∈ [1; 2; 4; 8] ->
     (exists y, swap_byte size x = Ok y /\ 0 <= y < 2 ^ (8 * size) /\
        forall i j, 0 <= i < size -> 0 <= j < 8 ->
          Z.testbit y (8 * i + j) = Z.testbit x (8 * (size - 1 - i) + j)) /\
     (y ← htog guest host size x; gtoh guest host size y) = Ok x) /\
  (size ∉ [1; 2; 4; 8] -> swap_byte size x = Er Panic).
Proof.
  intros Hx. split.
  - intros Hs. split.
    + destruct (swap_byte_ok size x Hs Hx) as (y & Hy & Hr & Hb). exists y. split_and!; [done|lia..|].
      intros i j Hi Hj. rewrite Hb by lia. f_equal. unfold mirror.
      Z.to_euclidean_division_equations. lia.
    + destruct guest, host; try done; by apply swap_byte_invol.
  - intros Hs. rewrite !not_elem_of_cons in Hs. unfold swap_byte.
    by repeat (rewrite (proj2 (Z.eqb_neq size _)) by lia).
Qed.

Lemma byte_order_roundtrip_witness :
  (y ← htog BigEndianByteOrder LittleEndianByteOrder 4 0x12345678;
   gtoh BigEndianByteOrder LittleEndianByteOrder 4 y) = Ok 0x12345678.
Proof.
  destruct (byte_order_roundtrip 4 0x12345678 BigEndianByteOrder LittleEndianByteOrder)
    as [H _]; [lia|].
  apply H. repeat (try apply list_elem_of_here; apply list_elem_of_further).
Defined.

(** [isPrime] decides primality of the numbers prime to 6 (the only ones
    its loop is meant for) as long as [i*i] stays in [int]. *)
Theorem isPrime_decides n :
  1 < n < 46337 * 46337 -> n mod 2 <> 0 -> n mod 3 <> 0 ->
  exists b, isPrime n = Ok b /\ (b = true <-> prime n).
Proof.
  intros Hn H2 H3. unfold isPrime.
  destruct (Z.eqb_spec n 2) as [->|]; [done|]. destruct (Z.eqb_spec n 3) as [->|]; [done|].
  apply isPrime_loop_correct; try done.
  intros d Hd [e He]. assert (d = 2 \/ d = 3 \/ d = 4) as [->|[->| ->]] by lia.
  - apply H2. rewrite He. apply Z.mod_mul. lia.
  - apply H3. rewrite He. apply Z.mod_mul. lia.
  - apply H2. replace n with (e * 2 * 2) by lia. apply Z.mod_mul. lia.
Qed.

Lemma isPrime_decides_witness : exists b, isPrime 1000003 = Ok b /\ (b = true <-> prime 1000003).
Proof. apply (isPrime_decides 1000003); [lia|done|done]. Defined.

(** [prevPrime] can return a composite: from 25 its first step is 4, to
    21, which the trial division (whose loop starts at 5) accepts. *)
Theorem prevPrime_composite : prevPrime 25 = Ok 21 /\ ~ prime 21.
Proof.
  split; [reflexivity|]. intros Hp. apply prime_alt in Hp as [_ Hp].
  apply (Hp 3); [lia|]. by exists 7.
Qed.
