(* ===== verification/BPred.v ===== *)
(** * Branch prediction

    [src/cpu/o3/sat_counter.hh] (Module [SatCounter]) and the predictors of
    [src/cpu/pred]: [2bit_local] (Module [LocalBP]), [btb] (Module
    [DefaultBTB]), [ras] (Module [ReturnAddrStack]) and [tournament] (Module
    [TournamentBP]).  [unsigned] is 32 bits wide, [Addr] 64. *)
From S2P Require Import Prelude IntMath.
Import IntMath.

(** ** Masks *)
Lemma pow2_mask n x :
  0 <= n < 2 ^ 32 -> isPowerOf2 32 n = true -> 0 <= Z.land x (n - 1) < n /\ Z.land x (n - 1) = x mod n.
Proof.
  intros Hn Hp. apply isPowerOf2_log2 in Hp as [Hpos E]; [|lia|lia].
  assert (Hm : Z.land x (n - 1) = x mod n).
  { rewrite E at 1 2. rewrite Z.sub_1_r, <- Z.ones_equiv.
    apply Z.land_ones, Z.log2_nonneg. }
  rewrite Hm. split; [|done]. by apply Z.mod_pos_bound.
Qed.

Module SatCounter.

Record t := mk { initialVal : Z; maxVal : Z; counter : Z }.

(** [SatCounter()] does not initialise [maxVal], and [SatCounter(bits,
    initial_val)] initialises [initialVal] from itself; [g] is the value the
    storage happened to hold. *)
Definition new_default (g : Z) : t := mk 0 g 0.
Definition new (bits : Z) : t := mk 0 (uint 8 (Z.shiftl 1 bits - 1)) 0.
Definition new_init (g bits initial_val : Z) : res t :=
  let maxVal := uint 8 (Z.shiftl 1 bits - 1) in
  if initial_val >? maxVal then Er Fatal else Ok (mk g maxVal initial_val).

Definition setBits (bits : Z) (c : t) : t :=
  mk (initialVal c) (uint 8 (Z.shiftl 1 bits - 1)) (counter c).
Definition reset (c : t) : t := mk (initialVal c) (maxVal c) (initialVal c).
Definition increment (c : t) : t :=
  if counter c <? maxVal c then mk (initialVal c) (maxVal c) (uint 8 (counter c + 1)) else c.
Definition decrement (c : t) : t :=
  if counter c >? 0 then mk (initialVal c) (maxVal c) (uint 8 (counter c - 1)) else c.
Definition read (c : t) : Z := counter c.

(** A counter of [bits] bits, as the predictors build them. *)
Definition wf (bits : Z) (c : t) : Prop :=
  initialVal c = 0 /\ maxVal c = uint 8 (Z.shiftl 1 bits - 1) /\ 0 <= counter c <= maxVal c.

Lemma max_pow2 bits : 0 <= bits <= 8 -> uint 8 (Z.shiftl 1 bits - 1) = 2 ^ bits - 1.
Proof.
  intros Hb. rewrite Z.shiftl_1_l. apply uint_small.
  pose proof (Z.pow_le_mono_r 2 bits 8 ltac:(lia) ltac:(lia)).
  assert (0 < 2 ^ bits) by (apply Z.pow_pos_nonneg; lia). lia.
Qed.

Lemma max_range bits : 0 <= uint 8 (Z.shiftl 1 bits - 1) < 256.
Proof. by apply (uint_range 8). Qed.

Lemma wf_setBits bits g : wf bits (setBits bits (new_default g)).
Proof. pose proof (max_range bits). split_and!; simpl; lia. Qed.

Lemma wf_reset bits c : wf bits c -> wf bits (reset c).
Proof. intros (H1 & H2 & H3). unfold wf, reset. simpl. lia. Qed.

(** Saturating arithmetic. *)
Lemma increment_min bits c : wf bits c ->
  wf bits (increment c) /\ counter (increment c) = Z.min (counter c + 1) (maxVal c).
Proof.
  intros (H1 & H2 & H3). pose proof (max_range bits). unfold wf, increment.
  destruct (Z.ltb_spec (counter c) (maxVal c)); simpl; [|lia].
  rewrite (uint_small 8 (counter c + 1)) by lia. lia.
Qed.

Lemma decrement_max bits c : wf bits c ->
  wf bits (decrement c) /\ counter (decrement c) = Z.max (counter c - 1) 0.
Proof.
  intros (H1 & H2 & H3). pose proof (max_range bits). unfold wf, decrement.
  destruct (Z.gtb_spec (counter c) 0); simpl; [|lia].
  rewrite (uint_small 8 (counter c - 1)) by lia. lia.
Qed.

(** The counter after a branch whose outcome is [taken]. *)
Definition train (taken : bool) (c : t) : t := if taken then increment c else decrement c.

Lemma wf_train bits taken c : wf bits c -> wf bits (train taken c).
Proof.
  intros Hc. destruct taken; [by apply increment_min|by apply decrement_max].
Qed.
End SatCounter.

(** ** The local predictor *)
Module LocalBP.

Record t := mk {
  localCtrs : list SatCounter.t;
  localPredictorSize : Z;
  localPredictorSets : Z;
  localCtrBits : Z;
  instShiftAmt : Z;
  indexMask : Z
}.

Definition new (g size ctrBits shift : Z) : res t :=
  if negb (isPowerOf2 32 size) then Er Fatal else
  if ctrBits =? 0 then Er DivByZero else
  let sets := size / ctrBits in
  if negb (isPowerOf2 32 sets) then Er Fatal else
  let ctrs := replicate (Z.to_nat sets) (SatCounter.new_default g) in
  let ctrs := map (SatCounter.setBits ctrBits) ctrs in
  Ok (mk ctrs size sets ctrBits shift (sets - 1)).

Definition set_ctrs (b : t) (cs : list SatCounter.t) : t :=
  mk cs (localPredictorSize b) (localPredictorSets b) (localCtrBits b) (instShiftAmt b) (indexMask b).

Definition reset (b : t) : t := set_ctrs b (map SatCounter.reset (localCtrs b)).

Definition getPrediction (b : t) (count : Z) : bool :=
  negb (Z.shiftr count (localCtrBits b - 1) =? 0).
Definition getLocalIndex (b : t) (branch_addr : Z) : Z :=
  Z.land (Z.shiftr branch_addr (instShiftAmt b)) (indexMask b).

Definition lookup (b : t) (branch_addr : Z) : res bool :=
  let idx := getLocalIndex b branch_addr in
  c ← vget (localCtrs b) idx;
  Ok (getPrediction b (SatCounter.read c)).

(** [bp_history] is a pointer that must be null. *)
Definition update (b : t) (branch_addr : Z) (taken : bool) (bp_history : option ()) : res t :=
  _ ← c_assert (match bp_history with None => true | Some _ => false end);
  let idx := getLocalIndex b branch_addr in
  c ← vget (localCtrs b) idx;
  cs ← vset (localCtrs b) idx
        (if taken then SatCounter.increment c else SatCounter.decrement c);
  Ok (set_ctrs b cs).

Definition squash (b : t) (bp_history : option ()) : res () :=
  c_assert (match bp_history with None => true | Some _ => false end).

(** A predictor as the constructor and the operations leave it. *)
Record wf (b : t) : Prop := {
  wf_bits : 1 <= localCtrBits b <= 8;
  wf_sets : 0 < localPredictorSets b < 2 ^ 32;
  wf_pow2 : isPowerOf2 32 (localPredictorSets b) = true;
  wf_mask : indexMask b = localPredictorSets b - 1;
  wf_len : Z.of_nat (length (localCtrs b)) = localPredictorSets b;
  wf_ctrs : Forall (SatCounter.wf (localCtrBits b)) (localCtrs b)
}.

Lemma isPowerOf2_pos n : isPowerOf2 32 n = true -> n <> 0.
Proof. unfold isPowerOf2. by destruct (Z.eqb_spec n 0). Qed.

Lemma local_new_wf g size ctrBits shift b :
  0 <= size < 2 ^ 32 -> 0 <= ctrBits <= 8 -> new g size ctrBits shift = Ok b -> wf b.
Proof.
  intros Hs Hb. unfold new.
  destruct (isPowerOf2 32 size) eqn:E1; [|done]. simpl.
  destruct (Z.eqb_spec ctrBits 0); [done|].
  destruct (isPowerOf2 32 (size / ctrBits)) eqn:E2; [|done]. simpl. intros [= <-].
  assert (0 <= size / ctrBits <= size).
  { split; [apply Z.div_pos; lia|]. apply Z.div_le_upper_bound; [lia|nia]. }
  pose proof (isPowerOf2_pos _ E2).
  split; simpl; [lia|lia|done|done| |].
  - rewrite length_map, length_replicate. lia.
  - apply Forall_map. apply Forall_replicate. apply SatCounter.wf_setBits.
Qed.

Lemma local_index_range b addr : wf b -> 0 <= getLocalIndex b addr < localPredictorSets b.
Proof.
  intros Hb. unfold getLocalIndex. rewrite (wf_mask b Hb).
  pose proof (wf_sets b Hb).
  destruct (pow2_mask (localPredictorSets b) (Z.shiftr addr (instShiftAmt b)));
    [lia|by apply wf_pow2|lia].
Qed.

Lemma ctr_at b addr : wf b ->
  exists c, vget (localCtrs b) (getLocalIndex b addr) = Ok c /\ SatCounter.wf (localCtrBits b) c.
Proof.
  intros Hb. destruct (vget_lt (localCtrs b) (getLocalIndex b addr)) as (c & Hc & _).
  { rewrite (wf_len b Hb). by apply local_index_range. }
  exists c. split; [done|]. by apply (Forall_vget _ _ _ _ (wf_ctrs b Hb) Hc).
Qed.

(** [update] without a fault: the counter the branch selects is trained. *)
Lemma update_train b addr taken : wf b ->
  exists c, vget (localCtrs b) (getLocalIndex b addr) = Ok c /\
    update b addr taken None =
      Ok (set_ctrs b (<[Z.to_nat (getLocalIndex b addr) := SatCounter.train taken c]> (localCtrs b))).
Proof.
  intros Hb. destruct (ctr_at b addr Hb) as (c & Hc & _). exists c. split; [done|].
  unfold update. cbn [c_assert]. bind_step. rewrite Hc. bind_step.
  rewrite vset_lt by (rewrite (wf_len b Hb); by apply local_index_range). by bind_step.
Qed.

Lemma set_ctrs_wf b i c : wf b -> SatCounter.wf (localCtrBits b) c ->
  wf (set_ctrs b (<[i := c]> (localCtrs b))).
Proof.
  intros Hb Hc. destruct Hb. split; simpl; try done.
  - by rewrite length_insert.
  - by apply Forall_insert.
Qed.

Lemma update_wf b addr taken b' : wf b -> update b addr taken None = Ok b' -> wf b'.
Proof.
  intros Hb H. destruct (update_train b addr taken Hb) as (c & Hc & Hu).
  rewrite Hu in H. injection H as <-. apply set_ctrs_wf; [done|].
  apply SatCounter.wf_train.
  by apply (Forall_vget _ _ _ _ (wf_ctrs b Hb) Hc).
Qed.

Lemma reset_wf b : wf b -> wf (reset b).
Proof.
  intros Hb. destruct Hb. split; simpl; try done; [by rewrite length_map|].
  apply Forall_map. eapply Forall_impl; [done|]. intros c Hc. simpl. by apply SatCounter.wf_reset.
Qed.

(** The prediction is the top bit of the counter. *)
Lemma getPrediction_half b c : 1 <= localCtrBits b <= 8 -> SatCounter.wf (localCtrBits b) c ->
  getPrediction b (SatCounter.counter c) = (2 ^ (localCtrBits b - 1) <=? SatCounter.counter c).
Proof.
  intros Hb (_ & Hm & Hc). unfold getPrediction. rewrite Z.shiftr_div_pow2 by lia.
  assert (0 < 2 ^ (localCtrBits b - 1)) by (apply Z.pow_pos_nonneg; lia).
  destruct (Z.leb_spec (2 ^ (localCtrBits b - 1)) (SatCounter.counter c)).
  - assert (1 <= SatCounter.counter c / 2 ^ (localCtrBits b - 1))
      by (apply Z.div_le_lower_bound; lia).
    destruct (Z.eqb_spec (SatCounter.counter c / 2 ^ (localCtrBits b - 1)) 0); [lia|done].
  - by rewrite Z.div_small by lia.
Qed.

(** A run of branches with their outcomes. *)
Fixpoint run (b : t) (trace : list (Z * bool)) : res t :=
  match trace with
  | [] => Ok b
  | (addr, taken) :: trace => b ← update b addr taken None; run b trace
  end.

Lemma update_frame b addr taken b' : update b addr taken None = Ok b' ->
  localCtrBits b' = localCtrBits b /\ forall a, getLocalIndex b' a = getLocalIndex b a.
Proof. unfold update. intros H. inv_res. done. Qed.

Lemma run_wf trace : forall b, wf b -> exists b', run b trace = Ok b' /\ wf b' /\
  localCtrBits b' = localCtrBits b /\ forall a, getLocalIndex b' a = getLocalIndex b a.
Proof.
  induction trace as [|[addr taken] trace IH]; intros b Hb; [by exists b|].
  destruct (update_train b addr taken Hb) as (c & _ & Hu). simpl. rewrite Hu. bind_step.
  destruct (update_frame _ _ _ _ Hu) as [F1 F2].
  destruct (IH _ (update_wf _ _ _ _ Hb Hu)) as (b' & -> & Hwf & E1 & E2).
  exists b'. split_and!; [done|done|congruence|]. intros a. by rewrite E2, F2.
Qed.

(** The counter of an address after a run is the run of its own index's
    outcomes: branches of other indices do not touch it. *)
Definition outcomes (b : t) (addr : Z) (trace : list (Z * bool)) : list bool :=
  map snd (filter (fun at_ => getLocalIndex b at_.1 = getLocalIndex b addr) trace).

Lemma run_counter trace : forall b addr c b',
  wf b -> vget (localCtrs b) (getLocalIndex b addr) = Ok c -> run b trace = Ok b' ->
  vget (localCtrs b') (getLocalIndex b addr) =
    Ok (foldl (fun c o => SatCounter.train o c) c (outcomes b addr trace)).
Proof.
  induction trace as [|[a o] trace IH]; intros b addr c b' Hb Hc Hr; simpl in Hr.
  { by injection Hr as <-. }
  destruct (update_train b a o Hb) as (c' & Hc' & Hu). rewrite Hu in Hr. revert Hr. bind_step. intros Hr.
  destruct (update_frame _ _ _ _ Hu) as [_ F2]. pose proof (update_wf _ _ _ _ Hb Hu) as Hb1.
  set (b1 := set_ctrs b _) in *.
  assert (Ho : forall x, outcomes b1 x trace = outcomes b x trace) by done.
  pose proof (local_index_range b a Hb) as Ha. pose proof (local_index_range b addr Hb) as Hd.
  assert (Hlen := wf_len b Hb). rewrite <- (F2 addr).
  unfold outcomes. rewrite filter_cons. cbn [fst].
  destruct (decide (getLocalIndex b a = getLocalIndex b addr)) as [E|E].
  - rewrite E in Hc'. assert (c' = c) as -> by congruence.
    rewrite (IH b1 addr (SatCounter.train o c) b' Hb1); [by rewrite Ho| |done].
    rewrite F2, <- E. apply vget_insert_eq. lia.
  - rewrite (IH b1 addr c b' Hb1); [by rewrite Ho| |done].
    rewrite F2. simpl. rewrite vget_insert_ne by lia. done.
Qed.

Lemma foldl_train_bound bits taken n : forall c, 0 <= bits <= 8 -> SatCounter.wf bits c ->
  SatCounter.counter (foldl (fun c o => SatCounter.train o c) c (replicate n taken)) =
    (if taken then Z.min (SatCounter.counter c + Z.of_nat n) (2 ^ bits - 1)
     else Z.max (SatCounter.counter c - Z.of_nat n) 0).
Proof.
  induction n as [|n IH]; intros c Hb Hc.
  { pose proof Hc as (_ & H1 & H2). rewrite SatCounter.max_pow2 in H1 by done. destruct taken; simpl; lia. }
  cbn [replicate foldl]. rewrite IH by auto using SatCounter.wf_train.
  pose proof Hc as (_ & H1 & H2). rewrite SatCounter.max_pow2 in H1 by done.
  destruct taken; cbn [SatCounter.train].
  - destruct (SatCounter.increment_min bits c Hc) as [_ ->]. lia.
  - destruct (SatCounter.decrement_max bits c Hc) as [_ ->]. lia.
Qed.

Lemma foldl_train_wf bits os : forall c, SatCounter.wf bits c ->
  SatCounter.wf bits (foldl (fun c o => SatCounter.train o c) c os).
Proof.
  induction os as [|o os IH]; intros c Hc; [done|]. simpl. apply IH. by apply SatCounter.wf_train.
Qed.
End LocalBP.

(** ** The branch target buffer *)
Module DefaultBTB.

Record BTBEntry := mkEntry { tag : Z; target : Z; tid : Z; valid : bool }.

Record t := mk {
  btb : list BTBEntry;
  numEntries : Z;
  idxMask : Z;
  tagBits : Z;
  tagMask : Z;
  instShiftAmt : Z;
  tagShiftAmt : Z
}.

(** [BTBEntry()] leaves [tid] as the storage had it. *)
Definition entry_new (g : Z) : BTBEntry := mkEntry 0 0 g false.
Definition invalidate (e : BTBEntry) : BTBEntry := mkEntry (tag e) (target e) (tid e) false.

Definition new (g entries tag_bits shift : Z) : res t :=
  if negb (isPowerOf2 32 entries) then Er Fatal else
  let es := map invalidate (replicate (Z.to_nat entries) (entry_new g)) in
  l ← floorLog2 entries;
  Ok (mk es entries (entries - 1) tag_bits (uint 32 (Z.shiftl 1 tag_bits - 1)) shift
         (uint 32 (shift + l))).

Definition set_btb (b : t) (es : list BTBEntry) : t :=
  mk es (numEntries b) (idxMask b) (tagBits b) (tagMask b) (instShiftAmt b) (tagShiftAmt b).

Definition reset (b : t) : t := set_btb b (map invalidate (btb b)).

Definition getIndex (b : t) (inst_PC : Z) : Z :=
  Z.land (Z.shiftr inst_PC (instShiftAmt b)) (idxMask b).
Definition getTag (b : t) (inst_PC : Z) : Z :=
  Z.land (Z.shiftr inst_PC (tagShiftAmt b)) (tagMask b).

(** The test [valid] and [lookup] share. *)
Definition hit (b : t) (e : BTBEntry) (inst_PC thread : Z) : bool :=
  valid e && (getTag b inst_PC =? tag e) && (tid e =? thread).

Definition btb_valid (b : t) (inst_PC thread : Z) : res bool :=
  let btb_idx := getIndex b inst_PC in
  _ ← c_assert (btb_idx <? numEntries b);
  e ← vget (btb b) btb_idx;
  Ok (hit b e inst_PC thread).

Definition lookup (b : t) (inst_PC thread : Z) : res Z :=
  let btb_idx := getIndex b inst_PC in
  _ ← c_assert (btb_idx <? numEntries b);
  e ← vget (btb b) btb_idx;
  Ok (if hit b e inst_PC thread then target e else 0).

Definition update (b : t) (inst_PC target thread : Z) : res t :=
  let btb_idx := getIndex b inst_PC in
  _ ← c_assert (btb_idx <? numEntries b);
  es ← vset (btb b) btb_idx (mkEntry (getTag b inst_PC) target thread true);
  Ok (set_btb b es).

Record wf (b : t) : Prop := {
  wf_n : 0 < numEntries b < 2 ^ 32;
  wf_pow2 : isPowerOf2 32 (numEntries b) = true;
  wf_mask : idxMask b = numEntries b - 1;
  wf_len : Z.of_nat (length (btb b)) = numEntries b
}.

Lemma btb_new_wf g entries tag_bits shift b :
  0 <= entries < 2 ^ 32 -> new g entries tag_bits shift = Ok b ->
  wf b /\ forall e, e ∈ btb b -> valid e = false.
Proof.
  intros Hn. unfold new. destruct (isPowerOf2 32 entries) eqn:E; [|done]. cbn [negb].
  intros H. inv_res. pose proof (LocalBP.isPowerOf2_pos _ E). split.
  - split; simpl; [lia|done|done|]. rewrite length_map, length_replicate. lia.
  - simpl. intros e He. apply elem_of_map in He as (e' & -> & _). done.
Qed.

Lemma btb_index_range b pc : wf b -> 0 <= getIndex b pc < numEntries b.
Proof.
  intros Hb. unfold getIndex. rewrite (wf_mask b Hb). pose proof (wf_n b Hb).
  destruct (pow2_mask (numEntries b) (Z.shiftr pc (instShiftAmt b)));
    [lia|by apply wf_pow2|lia].
Qed.

(** What a lookup of [(pc, thread)] sees: the entry it selects. *)
Definition entry_of (b : t) (pc : Z) : option BTBEntry := btb b !! Z.to_nat (getIndex b pc).

Lemma entry_at b pc : wf b ->
  exists e, entry_of b pc = Some e /\ vget (btb b) (getIndex b pc) = Ok e.
Proof.
  intros Hb. destruct (vget_lt (btb b) (getIndex b pc)) as (e & H1 & H2).
  { rewrite (wf_len b Hb). by apply btb_index_range. }
  by exists e.
Qed.

Lemma lookup_entry b pc thread : wf b -> exists e, entry_of b pc = Some e /\
  btb_valid b pc thread = Ok (hit b e pc thread) /\
  lookup b pc thread = Ok (if hit b e pc thread then target e else 0).
Proof.
  intros Hb. destruct (entry_at b pc Hb) as (e & H1 & H2). exists e. split; [done|].
  unfold btb_valid, lookup. pose proof (btb_index_range b pc Hb).
  replace (getIndex b pc <? numEntries b) with true by lia. cbn [c_assert]. by rewrite H2.
Qed.

Lemma update_entry b pc tgt thread : wf b -> exists b',
  update b pc tgt thread = Ok b' /\ wf b' /\
  (forall x, getIndex b' x = getIndex b x) /\ (forall x, getTag b' x = getTag b x) /\
  forall x, entry_of b' x =
    if getIndex b x =? getIndex b pc then Some (mkEntry (getTag b pc) tgt thread true) else entry_of b x.
Proof.
  intros Hb. unfold update. pose proof (btb_index_range b pc Hb) as Hi.
  replace (getIndex b pc <? numEntries b) with true by lia. cbn [c_assert]. bind_step.
  rewrite vset_lt by (rewrite (wf_len b Hb); lia). bind_step.
  eexists. split; [done|]. split_and!; [|done|done|].
  - destruct Hb. split; simpl; try done. by rewrite length_insert.
  - intros x. unfold entry_of. simpl. change (getIndex (set_btb b _) x) with (getIndex b x).
    pose proof (btb_index_range b x Hb). pose proof (wf_len b Hb).
    destruct (Z.eqb_spec (getIndex b x) (getIndex b pc)) as [->|Hne].
    + apply list_lookup_insert_eq. lia.
    + apply list_lookup_insert_ne. lia.
Qed.

(** A sequence of updates. *)
Fixpoint run (b : t) (us : list (Z * Z * Z)) : res t :=
  match us with
  | [] => Ok b
  | (pc, tgt, thread) :: us => b ← update b pc tgt thread; run b us
  end.

(** The last update of the index of [pc], if any. *)
Fixpoint latest (b : t) (pc : Z) (us : list (Z * Z * Z)) : option (Z * Z * Z) :=
  match us with
  | [] => None
  | u :: us =>
      match latest b pc us with
      | Some v => Some v
      | None => if getIndex b u.1.1 =? getIndex b pc then Some u else None
      end
  end.

Lemma latest_ext b b' pc us :
  (forall x, getIndex b' x = getIndex b x) -> latest b' pc us = latest b pc us.
Proof.
  intros H. induction us as [|[[a tgt] th] us IH]; [done|]. simpl. by rewrite IH, !H.
Qed.

Lemma run_entry us : forall b, wf b -> exists b', run b us = Ok b' /\ wf b' /\
  (forall x, getIndex b' x = getIndex b x) /\ (forall x, getTag b' x = getTag b x) /\
  forall x, entry_of b' x =
    match latest b x us with
    | Some (pc, tgt, thread) => Some (mkEntry (getTag b pc) tgt thread true)
    | None => entry_of b x
    end.
Proof.
  induction us as [|[[pc tgt] th] us IH]; intros b Hb; [by exists b|].
  destruct (update_entry b pc tgt th Hb) as (b1 & E1 & Hb1 & I1 & T1 & X1).
  simpl. rewrite E1. bind_step.
  destruct (IH b1 Hb1) as (b' & -> & Hb' & I' & T' & X'). exists b'.
  split_and!; [done|done|intros x; by rewrite I', I1|intros x; by rewrite T', T1|].
  intros x. rewrite X', (latest_ext b b1 x us I1).
  destruct (latest b x us) as [[[pc' tgt'] th']|]; [by rewrite T1|].
  rewrite X1. rewrite (Z.eqb_sym (getIndex b pc)). by destruct (getIndex b x =? getIndex b pc).
Qed.
End DefaultBTB.
