(* ===== verification/BPredHist.v ===== *)
(** * The predictors with speculative state

    The return address stack ([src/cpu/pred/ras.hh], [ras.cc]) and the
    tournament predictor ([src/cpu/pred/tournament.hh], [tournament.cc]). *)
From S2P Require Import Prelude IntMath BPred.
Import IntMath.

(** ** The return address stack *)
Module ReturnAddrStack.

Record t := mk { addrStack : list Z; numEntries : Z; usedEntries : Z; tos : Z }.

Definition init (n : Z) : t := mk (replicate (Z.to_nat n) 0) n 0 0.
Definition reset (s : t) : t := mk (map (fun _ => 0) (addrStack s)) (numEntries s) 0 0.

Definition top (s : t) : res Z := vget (addrStack s) (tos s).
Definition topIdx (s : t) : Z := tos s.
Definition empty (s : t) : bool := usedEntries s =? 0.
Definition full (s : t) : bool := usedEntries s =? numEntries s.

Definition incrTos (s : t) : t :=
  let tos := uint 32 (tos s + 1) in
  mk (addrStack s) (numEntries s) (usedEntries s) (if tos =? numEntries s then 0 else tos).
Definition decrTos (s : t) : t :=
  mk (addrStack s) (numEntries s) (usedEntries s)
     (if tos s =? 0 then uint 32 (numEntries s - 1) else tos s - 1).

Definition push (s : t) (return_addr : Z) : res t :=
  let s := incrTos s in
  a ← vset (addrStack s) (tos s) return_addr;
  Ok (mk a (numEntries s)
         (if negb (usedEntries s =? numEntries s) then usedEntries s + 1 else usedEntries s)
         (tos s)).

Definition pop (s : t) : t :=
  decrTos (mk (addrStack s) (numEntries s)
              (if usedEntries s >? 0 then usedEntries s - 1 else usedEntries s) (tos s)).

Definition restore (s : t) (top_entry_idx restored_target : Z) : res t :=
  a ← vset (addrStack s) top_entry_idx restored_target;
  Ok (mk a (numEntries s) (usedEntries s) top_entry_idx).

(** ** Well-formed stacks and their contents *)
Record wf (s : t) : Prop := {
  wf_n : 0 < numEntries s < 2 ^ 32;
  wf_len : Z.of_nat (length (addrStack s)) = numEntries s;
  wf_used : 0 <= usedEntries s <= numEntries s;
  wf_tos : 0 <= tos s < numEntries s
}.

(** The slot [k] entries below the top, and what it holds. *)
Definition slot (s : t) (k : Z) : Z := (tos s - k) mod numEntries s.
Definition entry (s : t) (k : Z) : Z := addrStack s !!! Z.to_nat (slot s k).
(** The abstract stack: the used entries, the top first. *)
Definition contents (s : t) : list Z := map (entry s) (seqZ 0 (usedEntries s)).

Lemma slot_range s k : wf s -> 0 <= slot s k < numEntries s.
Proof. intros Hs. apply Z.mod_pos_bound. apply wf_n, Hs. Qed.

Lemma slot_0 s : wf s -> slot s 0 = tos s.
Proof. intros Hs. unfold slot. rewrite Z.sub_0_r. apply Z.mod_small, Hs. Qed.

Lemma top_entry s : wf s -> top s = Ok (entry s 0).
Proof.
  intros Hs. unfold top, entry. rewrite slot_0 by done.
  destruct (vget_lt (addrStack s) (tos s)) as (x & -> & Hx).
  { rewrite (wf_len s Hs). apply Hs. }
  by rewrite (list_lookup_total_correct _ _ _ Hx).
Qed.

(** Moving the top up or down by one. *)
Lemma incr_mod x n : 0 <= x < n -> n < 2 ^ 32 ->
  (if uint 32 (x + 1) =? n then 0 else uint 32 (x + 1)) = (x + 1) mod n.
Proof.
  intros Hx Hn. rewrite uint_small by lia. destruct (Z.eqb_spec (x + 1) n) as [->|].
  - by rewrite Z.mod_same by lia.
  - by rewrite Z.mod_small by lia.
Qed.

Lemma decr_mod x n : 0 <= x < n -> n < 2 ^ 32 ->
  (if x =? 0 then uint 32 (n - 1) else x - 1) = (x - 1) mod n.
Proof.
  intros Hx Hn. destruct (Z.eqb_spec x 0) as [->|].
  - rewrite uint_small by lia. symmetry. rewrite <- (Z.mod_add (0 - 1) 1 n) by lia.
    rewrite Z.mod_small; lia.
  - by rewrite Z.mod_small by lia.
Qed.

(** [push] without a fault, and the slot it writes. *)
Lemma push_ok s a : wf s -> exists s', push s a = Ok s' /\ wf s' /\
  numEntries s' = numEntries s /\ tos s' = (tos s + 1) mod numEntries s /\
  usedEntries s' = Z.min (usedEntries s + 1) (numEntries s) /\
  addrStack s' = <[Z.to_nat ((tos s + 1) mod numEntries s) := a]> (addrStack s).
Proof.
  intros Hs. destruct Hs as [Hn Hl Hu Ht]. unfold push, incrTos. cbn [tos addrStack numEntries usedEntries].
  rewrite incr_mod by lia.
  pose proof (Z.mod_pos_bound (tos s + 1) (numEntries s) ltac:(lia)).
  rewrite vset_lt by lia. bind_step. eexists. split; [done|]. simpl.
  destruct (Z.eqb_spec (usedEntries s) (numEntries s)); cbn [negb];
    (split_and!; [|done|done|lia|done]); split; simpl; rewrite ?length_insert; lia.
Qed.

Lemma pop_ok s : wf s -> wf (pop s) /\ numEntries (pop s) = numEntries s /\
  tos (pop s) = (tos s - 1) mod numEntries s /\ addrStack (pop s) = addrStack s /\
  usedEntries (pop s) = Z.max (usedEntries s - 1) 0.
Proof.
  intros Hs. destruct Hs as [Hn Hl Hu Ht].
  assert (E : tos (pop s) = (tos s - 1) mod numEntries s).
  { unfold pop, decrTos. simpl. apply decr_mod; lia. }
  pose proof (Z.mod_pos_bound (tos s - 1) (numEntries s) ltac:(lia)).
  assert (Hused : usedEntries (pop s) = Z.max (usedEntries s - 1) 0).
  { simpl. destruct (Z.gtb_spec (usedEntries s) 0); lia. }
  split_and!; [|done|done|done|done].
  split; [done|done| |rewrite E; done]. rewrite Hused.
  change (numEntries (pop s)) with (numEntries s). lia.
Qed.

(** Slots of different depths below the size are different. *)
Lemma mod_cong_small x y n : 0 < n -> - n < x - y < n -> x <> y -> x mod n <> y mod n.
Proof.
  intros Hn Hd Hne E. apply Hne.
  pose proof (Z.div_mod x n ltac:(lia)). pose proof (Z.div_mod y n ltac:(lia)).
  assert (x / n = y / n) by nia. nia.
Qed.

(** The entries after a push: one deeper, except the slot overwritten. *)
Lemma push_entry s a s' k : wf s -> push s a = Ok s' -> 0 <= k < numEntries s ->
  entry s' k = if k =? 0 then a else entry s (k - 1).
Proof.
  intros Hs Hp Hk. destruct (push_ok s a Hs) as (s1 & Hp' & Hs' & En & Et & _ & Ea).
  rewrite Hp in Hp'. injection Hp' as <-.
  pose proof (wf_n s Hs). pose proof (wf_len s Hs).
  pose proof (Z.mod_pos_bound (tos s + 1) (numEntries s) ltac:(lia)).
  assert (Esl : slot s' k = slot s (k - 1)).
  { unfold slot. rewrite En, Et, Zminus_mod_idemp_l. f_equal. lia. }
  unfold entry. rewrite Esl, Ea. pose proof (slot_range s (k - 1) Hs).
  destruct (Z.eqb_spec k 0) as [->|Hne].
  - replace (slot s (0 - 1)) with ((tos s + 1) mod numEntries s) by (unfold slot; f_equal; lia).
    apply list_lookup_total_insert_eq. lia.
  - apply list_lookup_total_insert_ne. intros E. apply Z2Nat.inj in E; [|lia|lia].
    revert E. unfold slot. apply mod_cong_small; lia.
Qed.

Lemma pop_entry s k : wf s -> entry (pop s) k = entry s (k + 1).
Proof.
  intros Hs. destruct (pop_ok s Hs) as (_ & En & Et & Ea & _).
  unfold entry, slot. rewrite En, Et, Ea, Zminus_mod_idemp_l. do 3 f_equal. lia.
Qed.

Lemma contents_lookup s i : wf s ->
  contents s !! i = if decide (Z.of_nat i < usedEntries s) then Some (entry s (Z.of_nat i)) else None.
Proof.
  intros Hs. unfold contents. pose proof (wf_used s Hs).
  change (map (entry s)) with (fmap (M := list) (entry s)). rewrite list_lookup_fmap.
  destruct (decide (Z.of_nat i < usedEntries s)).
  - rewrite lookup_seqZ_lt by lia. simpl. f_equal. 
  - by rewrite lookup_seqZ_ge by lia.
Qed.
End ReturnAddrStack.

(** ** The tournament predictor *)
Module TournamentBP.

Record t := mk {
  localCtrs : list SatCounter.t;
  localPredictorSize : Z;
  localPredictorMask : Z;
  localCtrBits : Z;
  localHistoryTable : list Z;
  localHistoryTableSize : Z;
  localHistoryBits : Z;
  localHistoryMask : Z;
  globalCtrs : list SatCounter.t;
  globalPredictorSize : Z;
  globalCtrBits : Z;
  globalHistory : Z;
  globalHistoryBits : Z;
  globalHistoryMask : Z;
  choiceCtrs : list SatCounter.t;
  choicePredictorSize : Z;
  choiceCtrBits : Z;
  instShiftAmt : Z;
  threshold : Z
}.

Record BPHistory := mkHist {
  h_globalHistory : Z;
  localPredTaken : bool;
  globalPredTaken : bool;
  globalUsed : bool
}.

Definition counters (g size bits : Z) : list SatCounter.t :=
  map (SatCounter.setBits bits) (replicate (Z.to_nat size) (SatCounter.new_default g)).

(** The constructor, with its parameters in the order of [tournament.cc]. *)
Definition new (g : Z) (_localPredictorSize _localCtrBits _localHistoryTableSize
    _localHistoryBits _globalPredictorSize _globalCtrBits _globalHistoryBits
    _choicePredictorSize _choiceCtrBits _instShiftAmt : Z) : res t :=
  let choicePredictorSize := _globalPredictorSize in
  if negb (isPowerOf2 32 _localPredictorSize) then Er Fatal else
  let localCtrs := counters g _localPredictorSize _localCtrBits in
  p ← floorPow2 _localPredictorSize;
  let localPredictorMask := uint 32 (p - 1) in
  if negb (isPowerOf2 32 _localHistoryTableSize) then Er Fatal else
  let localHistoryTable := replicate (Z.to_nat _localHistoryTableSize) 0 in
  let localHistoryMask := uint 32 (Z.shiftl 1 _localHistoryBits - 1) in
  if negb (isPowerOf2 32 _globalPredictorSize) then Er Fatal else
  let globalCtrs := counters g _globalPredictorSize _globalCtrBits in
  let globalHistoryMask := uint 32 (Z.shiftl 1 _globalHistoryBits - 1) in
  if negb (isPowerOf2 32 choicePredictorSize) then Er Fatal else
  let choiceCtrs := counters g choicePredictorSize _choiceCtrBits in
  Ok (mk localCtrs _localPredictorSize localPredictorMask _localCtrBits
         localHistoryTable _localHistoryTableSize _localHistoryBits localHistoryMask
         globalCtrs _globalPredictorSize _globalCtrBits 0 _globalHistoryBits globalHistoryMask
         choiceCtrs choicePredictorSize _choiceCtrBits _instShiftAmt
         (uint 32 (Z.shiftl 1 (_localCtrBits - 1) - 1))).

Definition set_globalHistory (b : t) (h : Z) : t :=
  mk (localCtrs b) (localPredictorSize b) (localPredictorMask b) (localCtrBits b)
     (localHistoryTable b) (localHistoryTableSize b) (localHistoryBits b) (localHistoryMask b)
     (globalCtrs b) (globalPredictorSize b) (globalCtrBits b) h (globalHistoryBits b)
     (globalHistoryMask b) (choiceCtrs b) (choicePredictorSize b) (choiceCtrBits b)
     (instShiftAmt b) (threshold b).
Definition set_tables (b : t) (lc : list SatCounter.t) (lh : list Z) (gc cc : list SatCounter.t) : t :=
  mk lc (localPredictorSize b) (localPredictorMask b) (localCtrBits b)
     lh (localHistoryTableSize b) (localHistoryBits b) (localHistoryMask b)
     gc (globalPredictorSize b) (globalCtrBits b) (globalHistory b) (globalHistoryBits b)
     (globalHistoryMask b) cc (choicePredictorSize b) (choiceCtrBits b)
     (instShiftAmt b) (threshold b).

Definition calcLocHistIdx (b : t) (branch_addr : Z) : Z :=
  Z.land (Z.shiftr branch_addr (instShiftAmt b)) (uint 32 (localHistoryTableSize b - 1)).
Definition updateGlobalHistTaken (b : t) : t :=
  set_globalHistory b
    (Z.land (uint 32 (Z.lor (Z.shiftl (globalHistory b) 1) 1)) (globalHistoryMask b)).
Definition updateGlobalHistNotTaken (b : t) : t :=
  set_globalHistory b (Z.land (uint 32 (Z.shiftl (globalHistory b) 1)) (globalHistoryMask b)).
(** One entry of the local history table after a branch. *)
Definition updateLocalHistTaken (lh : list Z) (idx : Z) : res (list Z) :=
  h ← vget lh idx; vset lh idx (uint 32 (Z.lor (Z.shiftl h 1) 1)).
Definition updateLocalHistNotTaken (lh : list Z) (idx : Z) : res (list Z) :=
  h ← vget lh idx; vset lh idx (uint 32 (Z.shiftl h 1)).

Definition lookup (b : t) (branch_addr : Z) : res (bool * BPHistory * t) :=
  let local_history_idx := calcLocHistIdx b branch_addr in
  lh ← vget (localHistoryTable b) local_history_idx;
  let local_predictor_idx := Z.land lh (localPredictorMask b) in
  lc ← vget (localCtrs b) local_predictor_idx;
  let local_prediction := SatCounter.read lc >? threshold b in
  gc ← vget (globalCtrs b) (globalHistory b);
  let global_prediction := SatCounter.read gc >? threshold b in
  cc ← vget (choiceCtrs b) (globalHistory b);
  let choice_prediction := SatCounter.read cc >? threshold b in
  let history := mkHist (globalHistory b) local_prediction global_prediction choice_prediction in
  _ ← c_assert ((globalHistory b <? globalPredictorSize b)
                && (local_history_idx <? localHistoryTableSize b)
                && (local_predictor_idx <? localPredictorSize b));
  if choice_prediction then
    if global_prediction then Ok (true, history, updateGlobalHistTaken b)
    else Ok (false, history, updateGlobalHistNotTaken b)
  else
    if local_prediction then Ok (true, history, updateGlobalHistTaken b)
    else Ok (false, history, updateGlobalHistNotTaken b).

(** [globalUsed] is left as the storage had it ([g]). *)
Definition uncondBr (g : bool) (b : t) : BPHistory * t :=
  (mkHist (globalHistory b) true true g, updateGlobalHistTaken b).

(** The choice counter's update of [update]. *)
Definition update_choice (b : t) (taken : bool) (bp_history : option BPHistory) :
    res (list SatCounter.t) :=
  match bp_history with
  | Some history =>
      if negb (Bool.eqb (localPredTaken history) (globalPredTaken history)) then
        if Bool.eqb (localPredTaken history) taken then
          c ← vget (choiceCtrs b) (globalHistory b);
          vset (choiceCtrs b) (globalHistory b) (SatCounter.decrement c)
        else if Bool.eqb (globalPredTaken history) taken then
          c ← vget (choiceCtrs b) (globalHistory b);
          vset (choiceCtrs b) (globalHistory b) (SatCounter.increment c)
        else Ok (choiceCtrs b)
      else Ok (choiceCtrs b)
  | None => Ok (choiceCtrs b)
  end.

Definition update (b : t) (branch_addr : Z) (taken : bool) (bp_history : option BPHistory) : res t :=
  let local_history_idx := calcLocHistIdx b branch_addr in
  local_predictor_hist ← vget (localHistoryTable b) local_history_idx;
  let local_predictor_idx := Z.land local_predictor_hist (localPredictorMask b) in
  cc ← update_choice b taken bp_history;
  _ ← c_assert ((globalHistory b <? globalPredictorSize b)
                && (local_history_idx <? localHistoryTableSize b)
                && (local_predictor_idx <? localPredictorSize b));
  l ← vget (localCtrs b) local_predictor_idx;
  g ← vget (globalCtrs b) (globalHistory b);
  if taken then
    lc ← vset (localCtrs b) local_predictor_idx (SatCounter.increment l);
    gc ← vset (globalCtrs b) (globalHistory b) (SatCounter.increment g);
    lh ← updateLocalHistTaken (localHistoryTable b) local_history_idx;
    Ok (set_tables b lc lh gc cc)
  else
    lc ← vset (localCtrs b) local_predictor_idx (SatCounter.decrement l);
    gc ← vset (globalCtrs b) (globalHistory b) (SatCounter.decrement g);
    lh ← updateLocalHistNotTaken (localHistoryTable b) local_history_idx;
    Ok (set_tables b lc lh gc cc).

Definition squash (b : t) (bp_history : option BPHistory) : res t :=
  history ← deref bp_history;
  Ok (set_globalHistory b (h_globalHistory history)).

Definition readGlobalHist (b : t) : Z := globalHistory b.

(** ** The invariant *)
Record wf (b : t) : Prop := {
  wf_lsize : 0 < localPredictorSize b < 2 ^ 32;
  wf_lpow2 : isPowerOf2 32 (localPredictorSize b) = true;
  wf_lmask : localPredictorMask b = localPredictorSize b - 1;
  wf_llen : Z.of_nat (length (localCtrs b)) = localPredictorSize b;
  wf_hsize : 0 < localHistoryTableSize b < 2 ^ 32;
  wf_hpow2 : isPowerOf2 32 (localHistoryTableSize b) = true;
  wf_hlen : Z.of_nat (length (localHistoryTable b)) = localHistoryTableSize b;
  wf_gsize : 0 < globalPredictorSize b < 2 ^ 32;
  wf_glen : Z.of_nat (length (globalCtrs b)) = globalPredictorSize b;
  wf_clen : Z.of_nat (length (choiceCtrs b)) = globalPredictorSize b;
  wf_gmask : exists k, 0 <= k <= 31 /\ globalHistoryMask b = 2 ^ k - 1 /\ 2 ^ k <= globalPredictorSize b;
  wf_ghist : 0 <= globalHistory b <= globalHistoryMask b;
  wf_lctrs : Forall (SatCounter.wf (localCtrBits b)) (localCtrs b);
  wf_gctrs : Forall (SatCounter.wf (globalCtrBits b)) (globalCtrs b);
  wf_cctrs : Forall (SatCounter.wf (choiceCtrBits b)) (choiceCtrs b)
}.

Lemma counters_wf g size bits : 0 <= size ->
  Z.of_nat (length (counters g size bits)) = size /\
  Forall (SatCounter.wf bits) (counters g size bits).
Proof.
  intros Hs. unfold counters. rewrite length_map, length_replicate. split; [lia|].
  apply Forall_map, Forall_replicate. apply SatCounter.wf_setBits.
Qed.

Lemma floorPow2_pow2 n : 0 <= n < 2 ^ 32 -> isPowerOf2 32 n = true -> floorPow2 n = Ok n.
Proof.
  intros Hn Hp. apply isPowerOf2_log2 in Hp as [Hpos E]; [|lia|lia].
  unfold floorPow2. rewrite floorLog2_log2 by lia. bind_step.
  rewrite Z.shiftl_1_l, <- E, uint_small by lia. done.
Qed.

Lemma tournament_new_wf g lps lcb lht lhb gps gcb ghb cps ccb sh b :
  0 <= lps < 2 ^ 32 -> 0 <= lht < 2 ^ 32 -> 0 <= gps < 2 ^ 32 ->
  0 <= ghb <= 31 -> 2 ^ ghb <= gps ->
  new g lps lcb lht lhb gps gcb ghb cps ccb sh = Ok b ->
  wf b /\ globalHistory b = 0 /\ globalHistoryMask b = 2 ^ ghb - 1.
Proof.
  intros H1 H3 H4 H6 H7. unfold new.
  destruct (isPowerOf2 32 lps) eqn:E1; [|done]. cbn [negb].
  rewrite floorPow2_pow2 by done. bind_step.
  destruct (isPowerOf2 32 lht) eqn:E2; [|done]. cbn [negb].
  destruct (isPowerOf2 32 gps) eqn:E3; [|done]. cbn [negb]. intros [= <-].
  pose proof (LocalBP.isPowerOf2_pos _ E1). pose proof (LocalBP.isPowerOf2_pos _ E2).
  assert (0 < 2 ^ ghb) by (apply Z.pow_pos_nonneg; lia).
  assert (Hm : uint 32 (Z.shiftl 1 ghb - 1) = 2 ^ ghb - 1).
  { rewrite Z.shiftl_1_l, uint_small; lia. }
  split; [|done]. split; cbn; rewrite ?Hm; try done; try lia;
    try (apply counters_wf; lia).
  - rewrite uint_small; lia.
  - rewrite length_replicate. lia.
  - exists ghb. lia.
Qed.

Lemma ghist_masked b h : wf b -> 0 <= Z.land h (globalHistoryMask b) <= globalHistoryMask b.
Proof.
  intros Hb. destruct (wf_gmask b Hb) as (k & Hk & -> & _).
  rewrite Z.sub_1_r, <- Z.ones_equiv, Z.land_ones by lia.
  pose proof (Z.mod_pos_bound h (2 ^ k) ltac:(apply Z.pow_pos_nonneg; lia)).
  rewrite Z.ones_equiv. lia.
Qed.

Lemma set_globalHistory_wf b h : wf b -> 0 <= h <= globalHistoryMask b -> wf (set_globalHistory b h).
Proof. intros Hb Hh. destruct Hb. by split. Qed.

(** The state after a prediction in direction [taken]. *)
Definition shift_history (b : t) (taken : bool) : t :=
  if taken then updateGlobalHistTaken b else updateGlobalHistNotTaken b.

Lemma shift_history_wf b taken : wf b -> wf (shift_history b taken).
Proof.
  intros Hb. destruct taken; apply set_globalHistory_wf, ghist_masked; done.
Qed.

Lemma history_index b : wf b -> 0 <= globalHistory b < globalPredictorSize b.
Proof.
  intros Hb. destruct (wf_gmask b Hb) as (k & _ & Hm & Hk).
  pose proof (wf_ghist b Hb). lia.
Qed.

Lemma loc_index b addr : wf b -> 0 <= calcLocHistIdx b addr < localHistoryTableSize b.
Proof.
  intros Hb. pose proof (wf_hsize b Hb). unfold calcLocHistIdx. rewrite uint_small by lia.
  apply pow2_mask; [lia|by apply wf_hpow2].
Qed.

Lemma pred_index b h : wf b -> 0 <= Z.land h (localPredictorMask b) < localPredictorSize b.
Proof.
  intros Hb. pose proof (wf_lsize b Hb). rewrite (wf_lmask b Hb).
  apply pow2_mask; [lia|by apply wf_lpow2].
Qed.

(** The tables' entries that a branch selects. *)
Lemma select b addr : wf b -> exists lh lc gc cc,
  vget (localHistoryTable b) (calcLocHistIdx b addr) = Ok lh /\
  vget (localCtrs b) (Z.land lh (localPredictorMask b)) = Ok lc /\
  vget (globalCtrs b) (globalHistory b) = Ok gc /\
  vget (choiceCtrs b) (globalHistory b) = Ok cc /\
  (globalHistory b <? globalPredictorSize b) && (calcLocHistIdx b addr <? localHistoryTableSize b)
    && (Z.land lh (localPredictorMask b) <? localPredictorSize b) = true.
Proof.
  intros Hb. pose proof (history_index b Hb). pose proof (loc_index b addr Hb).
  destruct (vget_lt (localHistoryTable b) (calcLocHistIdx b addr)) as (lh & Hlh & _);
    [rewrite (wf_hlen b Hb); lia|].
  pose proof (pred_index b lh Hb).
  destruct (vget_lt (localCtrs b) (Z.land lh (localPredictorMask b))) as (lc & Hlc & _);
    [rewrite (wf_llen b Hb); lia|].
  destruct (vget_lt (globalCtrs b) (globalHistory b)) as (gc & Hgc & _);
    [rewrite (wf_glen b Hb); lia|].
  destruct (vget_lt (choiceCtrs b) (globalHistory b)) as (cc & Hcc & _);
    [rewrite (wf_clen b Hb); lia|].
  exists lh, lc, gc, cc. split_and!; try done. lia.
Qed.

(** A lookup changes the global history only, and records the old one. *)
Lemma lookup_ok b addr : wf b -> exists taken hist,
  lookup b addr = Ok (taken, hist, shift_history b taken) /\
  h_globalHistory hist = globalHistory b /\
  taken = (if globalUsed hist then globalPredTaken hist else localPredTaken hist).
Proof.
  intros Hb. destruct (select b addr Hb) as (lh & lc & gc & cc & H1 & H2 & H3 & H4 & H5).
  unfold lookup. rewrite H1. bind_step. rewrite H2. bind_step. rewrite H3. bind_step.
  rewrite H4. bind_step. rewrite H5. cbn [c_assert]. bind_step.
  destruct (SatCounter.read cc >? threshold b), (SatCounter.read gc >? threshold b),
    (SatCounter.read lc >? threshold b);
    match goal with |- context [Ok (?taken, ?hist, _)] => exists taken, hist end; done.
Qed.

Lemma set_globalHistory_id b : set_globalHistory b (globalHistory b) = b.
Proof. by destruct b. Qed.

Lemma set_globalHistory_twice b h h' :
  set_globalHistory (set_globalHistory b h) h' = set_globalHistory b h'.
Proof. by destruct b. Qed.

Lemma update_choice_ok b taken hist : wf b -> exists cc, update_choice b taken hist = Ok cc /\
  length cc = length (choiceCtrs b) /\ Forall (SatCounter.wf (choiceCtrBits b)) cc.
Proof.
  intros Hb. pose proof (history_index b Hb).
  destruct (vget_lt (choiceCtrs b) (globalHistory b)) as (c & Hc & _);
    [rewrite (wf_clen b Hb); lia|].
  pose proof (Forall_vget _ _ _ _ (wf_cctrs b Hb) Hc) as Hcw.
  assert (Hset : forall c', SatCounter.wf (choiceCtrBits b) c' -> exists cc,
    (c ← vget (choiceCtrs b) (globalHistory b); vset (choiceCtrs b) (globalHistory b) c') = Ok cc /\
    length cc = length (choiceCtrs b) /\ Forall (SatCounter.wf (choiceCtrBits b)) cc).
  { intros c' Hc'. rewrite Hc. bind_step. rewrite vset_lt by (rewrite (wf_clen b Hb); lia).
    eexists. split; [done|]. split; [by rewrite length_insert|].
    apply Forall_insert; [apply Hb|done]. }
  destruct (SatCounter.increment_min _ c Hcw) as [Hi _].
  destruct (SatCounter.decrement_max _ c Hcw) as [Hd _].
  unfold update_choice. destruct hist as [hist|]; [|by eexists; split_and!; [..|apply Hb]].
  destruct (negb _); [|by eexists; split_and!; [..|apply Hb]].
  rewrite Hc in *. revert Hset. bind_step. intros Hset. rewrite !bind_Ok.
  destruct (Bool.eqb _ _); [by apply Hset|].
  destruct (Bool.eqb _ _); [by apply Hset|]. by eexists; split_and!; [..|apply Hb].
Qed.

(** An update succeeds, keeps the invariant and the global history, and its
    effect on the counters is the training of the two selected ones. *)
Lemma update_ok b addr taken hist : wf b -> exists b', update b addr taken hist = Ok b' /\ wf b' /\
  globalHistory b' = globalHistory b /\ globalHistoryMask b' = globalHistoryMask b /\
  exists lh lc gc,
    vget (localHistoryTable b) (calcLocHistIdx b addr) = Ok lh /\
    vget (localCtrs b) (Z.land lh (localPredictorMask b)) = Ok lc /\
    vget (globalCtrs b) (globalHistory b) = Ok gc /\
    localCtrs b' = <[Z.to_nat (Z.land lh (localPredictorMask b)) := SatCounter.train taken lc]> (localCtrs b) /\
    globalCtrs b' = <[Z.to_nat (globalHistory b) := SatCounter.train taken gc]> (globalCtrs b) /\
    localHistoryTable b' =
      <[Z.to_nat (calcLocHistIdx b addr) := uint 32 (2 * lh + Z.b2z taken)]> (localHistoryTable b).
Proof.
  intros Hb. destruct (select b addr Hb) as (lh & lc & gc & cc & H1 & H2 & H3 & H4 & H5).
  destruct (update_choice_ok b taken hist Hb) as (cc' & Hcc & Hlen & Hcw).
  pose proof (history_index b Hb) as Hgi. pose proof (loc_index b addr Hb) as Hli.
  pose proof (pred_index b lh Hb) as Hpi.
  pose proof (Forall_vget _ _ _ _ (wf_lctrs b Hb) H2) as Hlcw.
  pose proof (Forall_vget _ _ _ _ (wf_gctrs b Hb) H3) as Hgcw.
  assert (Hsh : forall o : bool, uint 32 (2 * lh + Z.b2z o) =
    uint 32 (if o then Z.lor (Z.shiftl lh 1) 1 else Z.shiftl lh 1)).
  { intros o. f_equal. rewrite Z.shiftl_mul_pow2 by lia. change (2 ^ 1) with 2.
    destruct o; cbn [Z.b2z]; [|lia]. rewrite <- Z.add_lor_land.
    replace (Z.land (2 * lh) 1) with 0; [rewrite (Z.mul_comm lh); lia|].
    change 1 with (Z.ones 1). rewrite Z.land_ones by lia. change (2 ^ 1) with 2.
    by rewrite Z.mul_comm, Z.mod_mul. }
  set (b' := set_tables b
    (<[Z.to_nat (Z.land lh (localPredictorMask b)) := SatCounter.train taken lc]> (localCtrs b))
    (<[Z.to_nat (calcLocHistIdx b addr) := uint 32 (2 * lh + Z.b2z taken)]> (localHistoryTable b))
    (<[Z.to_nat (globalHistory b) := SatCounter.train taken gc]> (globalCtrs b)) cc').
  exists b'. split; [|split].
  - unfold update. rewrite H1. bind_step. rewrite Hcc. bind_step. rewrite H5. cbn [c_assert].
    bind_step. rewrite H2. bind_step. rewrite H3. bind_step.
    unfold updateLocalHistTaken, updateLocalHistNotTaken. rewrite H1.
    rewrite !vset_lt by (rewrite ?(wf_llen b Hb), ?(wf_glen b Hb); lia). rewrite !bind_Ok.
    rewrite !vset_lt by (rewrite ?(wf_hlen b Hb); lia). rewrite !bind_Ok.
    unfold b'. rewrite Hsh. by destruct taken.
  - destruct Hb.
    split; unfold b'; simpl; rewrite ?length_insert; try done; try lia.
    + apply Forall_insert; [done|]. by apply SatCounter.wf_train.
    + apply Forall_insert; [done|]. by apply SatCounter.wf_train.
  - split; [done|]. split; [done|]. by exists lh, lc, gc.
Qed.
End TournamentBP.
