(* ===== verification/BPredUnit.v ===== *)
(** * The branch prediction unit of the out-of-order CPU

    [src/cpu/o3/bpred_unit.hh] and [bpred_unit_impl.hh]: a direction predictor
    (local or tournament), the branch target buffer, and per-thread return
    address stacks and prediction histories.  The state is threaded through
    [res]; the statistics counters and trace output are left out. *)
From S2P Require Import Prelude IntMath BPred BPredHist.

Module BPredUnit.
Import ReturnAddrStack(top, topIdx, push, pop, restore).
Abbreviation BPHistory := TournamentBP.BPHistory.

(** [predictor] with the object it selects. *)
Inductive BP :=
| Local (b : LocalBP.t)
| Tournament (b : TournamentBP.t).

Record PredictorHistory := mkPred {
  seqNum : Z;
  PC : Z;
  RASTarget : Z;
  RASIndex : Z;
  tid : Z;
  predTaken : bool;
  usedRAS : bool;
  wasCall : bool;
  bpHistory : option BPHistory
}.
Definition PredictorHistory_new (seq_num inst_PC : Z) (pred_taken : bool)
    (bp_history : option BPHistory) (_tid : Z) : PredictorHistory :=
  mkPred seq_num inst_PC 0 0 _tid pred_taken false false bp_history.

Record t := mk {
  bp : BP;
  BTB : DefaultBTB.t;
  RAS : list ReturnAddrStack.t;
  predHist : list (list PredictorHistory)
}.

(** What [predict] asks of the instruction. *)
Record DynInst := mkInst {
  i_seqNum : Z;
  isUncondCtrl : bool;
  isReturn : bool;
  isCall : bool
}.

(** The constructor, from the CPU's parameters.  The tournament predictor's
    arguments are passed in this order. *)
Record Params := mkParams {
  p_tournament : bool;
  p_localPredictorSize : Z; p_localCtrBits : Z;
  p_localHistoryTableSize : Z; p_localHistoryBits : Z;
  p_globalPredictorSize : Z; p_globalHistoryBits : Z; p_globalCtrBits : Z;
  p_choicePredictorSize : Z; p_choiceCtrBits : Z;
  p_instShiftAmt : Z; p_BTBEntries : Z; p_BTBTagSize : Z; p_RASSize : Z
}.
Definition new (MaxThreads : nat) (gc gb : Z) (p : Params) : res t :=
  btb ← DefaultBTB.new gb (p_BTBEntries p) (p_BTBTagSize p) (p_instShiftAmt p);
  b ← (if p_tournament p then
         b ← TournamentBP.new gc (p_localPredictorSize p) (p_localCtrBits p)
               (p_localHistoryTableSize p) (p_localHistoryBits p)
               (p_globalPredictorSize p) (p_globalHistoryBits p) (p_globalCtrBits p)
               (p_choicePredictorSize p) (p_choiceCtrBits p) (p_instShiftAmt p);
         Ok (Tournament b)
       else
         b ← LocalBP.new gc (p_localPredictorSize p) (p_localCtrBits p) (p_instShiftAmt p);
         Ok (Local b));
  Ok (mk b btb (replicate MaxThreads (ReturnAddrStack.init (p_RASSize p))) (replicate MaxThreads [])).

(** The calls to the direction predictor. *)
Definition BPUncond (g : bool) (b : BP) : option BPHistory * BP :=
  match b with
  | Local b => (None, Local b)
  | Tournament b => let '(h, b) := TournamentBP.uncondBr g b in (Some h, Tournament b)
  end.
Definition BPLookup (b : BP) (inst_PC : Z) : res (bool * option BPHistory * BP) :=
  match b with
  | Local b => taken ← LocalBP.lookup b inst_PC; Ok (taken, None, Local b)
  | Tournament b =>
      r ← TournamentBP.lookup b inst_PC;
      let '(taken, h, b) := r in Ok (taken, Some h, Tournament b)
  end.
Definition is_null (h : option BPHistory) : option () :=
  match h with None => None | Some _ => Some () end.
Definition BPUpdate (b : BP) (inst_PC : Z) (taken : bool) (h : option BPHistory) : res BP :=
  match b with
  | Local b => b ← LocalBP.update b inst_PC taken (is_null h); Ok (Local b)
  | Tournament b => b ← TournamentBP.update b inst_PC taken h; Ok (Tournament b)
  end.
Definition BPSquash (b : BP) (h : option BPHistory) : res BP :=
  match b with
  | Local b => _ ← LocalBP.squash b (is_null h); Ok (Local b)
  | Tournament b => b ← TournamentBP.squash b h; Ok (Tournament b)
  end.

Section predict.
(** [g] is the value of an uninitialised field; [ras_step] the distance from
    a call to its return address ([sizeof(MachInst)], twice that with a delay
    slot), a constant of the guest ISA. *)
Context (g : bool) (ras_step : Z).

Definition set_usedRAS (r : PredictorHistory) (idx target : Z) : PredictorHistory :=
  mkPred (seqNum r) (PC r) target idx (tid r) (predTaken r) true (wasCall r) (bpHistory r).
Definition set_wasCall (r : PredictorHistory) : PredictorHistory :=
  mkPred (seqNum r) (PC r) (RASTarget r) (RASIndex r) (tid r) (predTaken r) (usedRAS r) true (bpHistory r).

(** The direction of a branch: unconditional, or looked up. *)
Definition direction (b : BP) (inst : DynInst) (PC : Z) : res (bool * option BPHistory * BP) :=
  if isUncondCtrl inst then let '(h, b) := BPUncond g b in Ok (true, h, b) else BPLookup b PC.

(** The target of a branch predicted taken, from the stack or the BTB: the
    final direction, target, record and stack. *)
Definition target_of (btb : DefaultBTB.t) (ras : ReturnAddrStack.t) (inst : DynInst)
    (PC thread : Z) (rec : PredictorHistory) : res (bool * Z * PredictorHistory * ReturnAddrStack.t) :=
  if isReturn inst then
    target ← top ras;
    let rec := set_usedRAS rec (topIdx ras) target in
    _ ← c_assert (RASIndex rec <? 16);
    Ok (true, target, rec, pop ras)
  else
    rr ← (if isCall inst then
            ras ← push ras (uint 64 (PC + ras_step)); Ok (set_wasCall rec, ras)
          else Ok (rec, ras));
    let '(rec, ras) := rr in
    v ← DefaultBTB.btb_valid btb PC thread;
    if (v : bool) then target ← DefaultBTB.lookup btb PC thread; Ok (true, target, rec, ras)
    else Ok (false, PC, rec, ras).

(** [predict(inst, PC, tid)]: the prediction, the new [PC] and the state. *)
Definition predict (u : t) (inst : DynInst) (PC thread : Z) : res (bool * Z * t) :=
  d ← direction (bp u) inst PC;
  let '(pred_taken, bp_history, b) := d in
  let rec := PredictorHistory_new (i_seqNum inst) PC pred_taken bp_history thread in
  ras ← vget (RAS u) thread;
  r ← (if (pred_taken : bool) then target_of (BTB u) ras inst PC thread rec
       else Ok (false, PC, rec, ras));
  let '(taken, target, rec, ras) := r in
  rs ← vset (RAS u) thread ras;
  hist ← vget (predHist u) thread;
  hs ← vset (predHist u) thread (rec :: hist);
  Ok (taken, target, mk b (BTB u) rs hs).
End predict.

(** [update(done_sn, tid)]: commits the oldest branches, at the back of the list. *)
Fixpoint update_loop (done_sn : Z) (b : BP) (oldest_first : list PredictorHistory) :
    res (BP * list PredictorHistory) :=
  match oldest_first with
  | [] => Ok (b, [])
  | r :: rest =>
      if seqNum r <=? done_sn then
        b ← BPUpdate b (PC r) (predTaken r) (bpHistory r); update_loop done_sn b rest
      else Ok (b, r :: rest)
  end.
Definition update (u : t) (done_sn thread : Z) : res t :=
  hist ← vget (predHist u) thread;
  r ← update_loop done_sn (bp u) (rev hist);
  hs ← vset (predHist u) thread (rev r.2);
  Ok (mk r.1 (BTB u) (RAS u) hs).

(** The body of [squash]'s loop: undoes one prediction. *)
Definition undo (b : BP) (ras : ReturnAddrStack.t) (r : PredictorHistory) :
    res (BP * ReturnAddrStack.t) :=
  ras ← (if usedRAS r then restore ras (RASIndex r) (RASTarget r)
         else if wasCall r then Ok (pop ras) else Ok ras);
  b ← BPSquash b (bpHistory r);
  Ok (b, ras).
Fixpoint squash_loop (squashed_sn : Z) (b : BP) (ras : ReturnAddrStack.t)
    (hist : list PredictorHistory) : res (BP * ReturnAddrStack.t * list PredictorHistory) :=
  match hist with
  | [] => Ok (b, ras, [])
  | r :: rest =>
      if seqNum r >? squashed_sn then
        br ← undo b ras r; squash_loop squashed_sn br.1 br.2 rest
      else Ok (b, ras, r :: rest)
  end.
Definition squash (u : t) (squashed_sn thread : Z) : res t :=
  hist ← vget (predHist u) thread;
  ras ← vget (RAS u) thread;
  r ← squash_loop squashed_sn (bp u) ras hist;
  let '(b, ras, hist) := r in
  rs ← vset (RAS u) thread ras;
  hs ← vset (predHist u) thread hist;
  Ok (mk b (BTB u) rs hs).

(** [squash(squashed_sn, corr_target, actually_taken, tid)]. *)
Definition squash_correct (u : t) (squashed_sn corr_target : Z) (actually_taken : bool) (thread : Z) :
    res t :=
  u ← squash u squashed_sn thread;
  hist ← vget (predHist u) thread;
  match hist with
  | [] => Ok u
  | r :: rest =>
      _ ← c_assert (seqNum r =? squashed_sn);
      b ← BPUpdate (bp u) (PC r) actually_taken (bpHistory r);
      btb ← DefaultBTB.update (BTB u) (PC r) corr_target thread;
      hs ← vset (predHist u) thread rest;
      Ok (mk b btb (RAS u) hs)
  end.

(** [switchOut()]: squashes everything on the [n] threads. *)
Fixpoint switchOut_loop (n : nat) (i : Z) (u : t) : res t :=
  match n with
  | O => Ok u
  | S n => u ← squash u 0 i; switchOut_loop n (i + 1) u
  end.
Definition switchOut (u : t) : res t := switchOut_loop (length (predHist u)) 0 u.

(** ** The invariant *)
Definition bp_wf (b : BP) : Prop :=
  match b with Local b => LocalBP.wf b | Tournament b => TournamentBP.wf b end.

(** A recorded history fits the predictor that made it. *)
Definition hist_ok (b : BP) (h : option BPHistory) : Prop :=
  match b, h with
  | Local _, None => True
  | Tournament b, Some h => 0 <= TournamentBP.h_globalHistory h <= TournamentBP.globalHistoryMask b
  | _, _ => False
  end.

(** One thread: its stack, and the records of its predictions in flight. *)
Definition rec_ok (b : BP) (s : ReturnAddrStack.t) (r : PredictorHistory) : Prop :=
  hist_ok b (bpHistory r) /\ (usedRAS r = true -> 0 <= RASIndex r < ReturnAddrStack.numEntries s).
Definition thread_ok (b : BP) (s : ReturnAddrStack.t) (hist : list PredictorHistory) : Prop :=
  ReturnAddrStack.wf s /\ ReturnAddrStack.numEntries s <= 16 /\ Forall (rec_ok b s) hist.

Record wf (u : t) : Prop := {
  wf_bp : bp_wf (bp u);
  wf_btb : DefaultBTB.wf (BTB u);
  wf_threads : Forall2 (thread_ok (bp u)) (RAS u) (predHist u)
}.

(** Predictors that keep the same history width. *)
Definition same_mask (b b' : BP) : Prop := forall h, hist_ok b h <-> hist_ok b' h.

Lemma thread_ok_same b b' s hist : same_mask b b' -> thread_ok b s hist -> thread_ok b' s hist.
Proof.
  intros Hm (H1 & H2 & H3). split_and!; [done|done|]. eapply Forall_impl; [done|].
  intros r [Hr1 Hr2]. split; [by apply Hm|done].
Qed.

Lemma wf_thread u thread : wf u -> 0 <= thread < Z.of_nat (length (RAS u)) ->
  exists s hist, vget (RAS u) thread = Ok s /\ vget (predHist u) thread = Ok hist /\
    thread_ok (bp u) s hist.
Proof.
  intros Hu Ht. pose proof (Forall2_length _ _ _ (wf_threads u Hu)) as Hlen.
  destruct (vget_lt (RAS u) thread Ht) as (s & Hs & Hs').
  destruct (vget_lt (predHist u) thread) as (hist & Hh & Hh'); [lia|].
  exists s, hist. split_and!; [done|done|].
  by apply (Forall2_lookup_lr _ _ _ _ _ _ (wf_threads u Hu) Hs' Hh').
Qed.

Lemma wf_set u b btb i s hist : wf u -> bp_wf b -> same_mask (bp u) b -> DefaultBTB.wf btb ->
  thread_ok b s hist -> wf (mk b btb (<[i := s]> (RAS u)) (<[i := hist]> (predHist u))).
Proof.
  intros Hu Hb Hm Hbtb Ht. split; simpl; [done|done|]. apply Forall2_insert; [|done].
  eapply Forall2_impl; [apply Hu|]. intros s' hist' H. by apply (thread_ok_same (bp u)).
Qed.

(** ** Predicting and undoing *)
Lemma same_mask_shift b taken : same_mask (Tournament b) (Tournament (TournamentBP.shift_history b taken)).
Proof. intros [h|]; [|done]. by destruct taken. Qed.

(** Predictors that differ in the global history only, which all threads share. *)
Definition same_tables (b b' : BP) : Prop :=
  match b, b' with
  | Local x, Local y => x = y
  | Tournament x, Tournament y => y = TournamentBP.set_globalHistory x (TournamentBP.globalHistory y)
  | _, _ => False
  end.

Lemma same_tables_refl b : same_tables b b.
Proof. destruct b as [b|b]; [done|]. by destruct b. Qed.
Lemma same_tables_trans b1 b2 b3 : same_tables b1 b2 -> same_tables b2 b3 -> same_tables b1 b3.
Proof.
  destruct b1 as [b1|b1], b2 as [b2|b2], b3 as [b3|b3]; simpl; try done; [congruence|]. intros H1 H2.
  rewrite H2 at 1. rewrite H1. done.
Qed.
Lemma same_tables_sym b1 b2 : same_tables b1 b2 -> same_tables b2 b1.
Proof. destruct b1 as [b1|b1], b2 as [b2|b2]; simpl; try done. intros ->. by destruct b1. Qed.

Lemma squash_same b b2 h : same_tables (Tournament b) b2 -> TournamentBP.h_globalHistory h = TournamentBP.globalHistory b ->
  BPSquash b2 (Some h) = Ok (Tournament b).
Proof.
  destruct b2 as [b2|b2]; simpl; [done|]. intros -> E. unfold TournamentBP.squash. simpl. rewrite E. by destruct b.
Qed.

(** A direction lookup and what undoing it gives back, whatever has happened to
    the global history since. *)
Lemma direction_ok g b inst pc : bp_wf b -> exists taken h b',
  direction g b inst pc = Ok (taken, h, b') /\ bp_wf b' /\ same_mask b b' /\ hist_ok b' h /\
  same_tables b b' /\ forall b2, same_tables b b2 -> BPSquash b2 h = Ok b.
Proof.
  intros Hb. unfold direction. destruct (isUncondCtrl inst).
  - destruct b as [b|b]; simpl.
    + eexists _, _, _. split; [done|]. split_and!; try done. intros [b2|b2]; simpl; [by intros <-|done].
    + eexists _, _, _. split; [done|]. split_and!.
      * by apply (TournamentBP.shift_history_wf b true).
      * apply (same_mask_shift b true).
      * simpl. apply Hb.
      * done.
      * intros b2 H2. by apply squash_same.
  - destruct b as [b|b]; cbn [BPLookup].
    + destruct (LocalBP.ctr_at b pc Hb) as (c & Hc & _). unfold LocalBP.lookup. rewrite Hc.
      rewrite !bind_Ok. eexists _, _, _. split; [done|]. split_and!; try done. intros [b2|b2]; simpl; [by intros <-|done].
    + destruct (TournamentBP.lookup_ok b pc Hb) as (taken & h & Hl & Hh & _). rewrite Hl. bind_step.
      eexists _, _, _. split; [done|]. split_and!.
      * by apply TournamentBP.shift_history_wf.
      * apply same_mask_shift.
      * apply same_mask_shift. simpl. rewrite Hh. apply Hb.
      * by destruct taken.
      * intros b2 H2. by apply squash_same.
Qed.

(** Two stacks whose tops are at the same slot and which agree on all but the
    [m] deepest entries. *)
Record agree (m : Z) (s s' : ReturnAddrStack.t) : Prop := {
  ag_wf : ReturnAddrStack.wf s;
  ag_wf' : ReturnAddrStack.wf s';
  ag_n : ReturnAddrStack.numEntries s = ReturnAddrStack.numEntries s';
  ag_tos : ReturnAddrStack.tos s = ReturnAddrStack.tos s';
  ag_entry : forall k, 0 <= k < ReturnAddrStack.numEntries s - m ->
    ReturnAddrStack.entry s k = ReturnAddrStack.entry s' k
}.

Lemma agree_refl s : ReturnAddrStack.wf s -> agree 0 s s.
Proof. intros Hs. by split. Qed.

(** Undoing a return restores the stack under it. *)
Lemma undo_return m s s1 : ReturnAddrStack.wf s -> 0 <= m -> agree m s1 (pop s) ->
  exists s', restore s1 (topIdx s) (ReturnAddrStack.entry s 0) = Ok s' /\ agree (Z.max 0 (m - 1)) s' s /\
    ReturnAddrStack.usedEntries s' = ReturnAddrStack.usedEntries s1.
Proof.
  intros Hs Hm [H1 H2 En Et Ee]. destruct (ReturnAddrStack.pop_ok s Hs) as (_ & En' & Et' & _ & _).
  pose proof H1 as [Hn1 Hl1 Hu1 Ht1]. pose proof Hs as [Hn Hl Hu Ht].
  rewrite En' in En. rewrite Et' in Et.
  unfold restore, topIdx. rewrite vset_lt by lia. bind_step. eexists. split; [done|].
  assert (Hw : ReturnAddrStack.wf (ReturnAddrStack.mk
    (<[Z.to_nat (ReturnAddrStack.tos s):=ReturnAddrStack.entry s 0]> (ReturnAddrStack.addrStack s1))
    (ReturnAddrStack.numEntries s1) (ReturnAddrStack.usedEntries s1) (ReturnAddrStack.tos s))).
  { split; simpl; rewrite ?length_insert; lia. }
  split; [|done]. split; [done|done|done|done|]. cbn [ReturnAddrStack.numEntries]. intros k Hk.
  destruct (decide (k = 0)) as [->|Hk0].
  - unfold ReturnAddrStack.entry at 1. rewrite ReturnAddrStack.slot_0 by done.
    apply list_lookup_total_insert_eq. lia.
  - replace k with (k - 1 + 1) at 2 by lia. rewrite <- ReturnAddrStack.pop_entry by done.
    rewrite <- Ee by lia. unfold ReturnAddrStack.entry, ReturnAddrStack.slot. simpl.
    rewrite Et, En, Zminus_mod_idemp_l.
    replace (ReturnAddrStack.tos s - 1 - (k - 1)) with (ReturnAddrStack.tos s - k) by lia.
    apply list_lookup_total_insert_ne. intros E.
    pose proof (Z.mod_pos_bound (ReturnAddrStack.tos s - k) (ReturnAddrStack.numEntries s) ltac:(lia)).
    apply Z2Nat.inj in E; [|lia|lia].
    assert (ReturnAddrStack.tos s mod ReturnAddrStack.numEntries s = ReturnAddrStack.tos s)
      as Es by (apply Z.mod_small; lia).
    rewrite <- Es in E at 1. revert E. apply ReturnAddrStack.mod_cong_small; lia.
Qed.

(** Undoing a call drops the entry it pushed. *)
Lemma undo_call m s a s2 s1 : ReturnAddrStack.wf s -> 0 <= m -> push s a = Ok s2 ->
  agree m s1 s2 -> agree (m + 1) (pop s1) s.
Proof.
  intros Hs Hm Hp [H1 H2 En Et Ee]. destruct (ReturnAddrStack.push_ok s a Hs) as (s2' & Hp' & _ & En2 & Et2 & _ & _).
  rewrite Hp in Hp'. injection Hp' as <-.
  destruct (ReturnAddrStack.pop_ok s1 H1) as (Hw & En1 & Et1 & _ & _).
  pose proof Hs as [Hn Hl Hu Ht].
  split; [done|done|congruence| |].
  - rewrite Et1, En, En2, Et, Et2, Zminus_mod_idemp_l, Z.add_simpl_r. apply Z.mod_small. lia.
  - intros k Hk. rewrite ReturnAddrStack.pop_entry by done. rewrite Ee by lia.
    rewrite (ReturnAddrStack.push_entry s a s2) by first [done | lia].
    replace (k + 1 =? 0) with false by lia. f_equal. lia.
Qed.

(** The count of used entries: what a prediction makes of it, and its undoing,
    which does not count a return's entry again. *)
Definition used_step (n used : Z) (r : PredictorHistory) : Z :=
  if usedRAS r then Z.max (used - 1) 0 else if wasCall r then Z.min (used + 1) n else used.
Definition used_undo (used : Z) (r : PredictorHistory) : Z :=
  if usedRAS r then used else if wasCall r then Z.max (used - 1) 0 else used.

(** How far above its start the stack rises over a run of predictions, oldest first. *)
Definition peak_step (r : PredictorHistory) (m : Z) : Z :=
  if usedRAS r then Z.max 0 (m - 1) else if wasCall r then m + 1 else m.
Definition peak (recs : list PredictorHistory) : Z := foldr peak_step 0 recs.
Lemma peak_step_nonneg r m : 0 <= m -> 0 <= peak_step r m.
Proof. unfold peak_step. destruct (usedRAS r), (wasCall r); lia. Qed.
Lemma peak_nonneg recs : 0 <= peak recs.
Proof. induction recs as [|r recs IH]; [done|]. by apply peak_step_nonneg. Qed.

Fixpoint undo_all (b : BP) (ras : ReturnAddrStack.t) (recs : list PredictorHistory) :
    res (BP * ReturnAddrStack.t) :=
  match recs with
  | [] => Ok (b, ras)
  | r :: recs => br ← undo b ras r; undo_all br.1 br.2 recs
  end.

Lemma undo_all_app l1 l2 b ras :
  undo_all b ras (l1 ++ l2) = (br ← undo_all b ras l1; undo_all br.1 br.2 l2).
Proof.
  revert b ras. induction l1 as [|r l1 IH]; intros b ras; [done|]. simpl.
  destruct (undo b ras r) as [[b1 r1]|f]; [|done]. rewrite !bind_Ok. apply IH.
Qed.

Lemma squash_loop_app sn l1 l2 b ras :
  Forall (fun r => sn < seqNum r) l1 -> (forall r, head l2 = Some r -> seqNum r <= sn) ->
  squash_loop sn b ras (l1 ++ l2) = (br ← undo_all b ras l1; Ok (br.1, br.2, l2)).
Proof.
  intros H1 H2. revert b ras. induction H1 as [|r l1 Hr _ IH]; intros b ras; simpl.
  - destruct l2 as [|r l2]; [done|]. simpl.
    specialize (H2 r eq_refl). by replace (seqNum r >? sn) with false by lia.
  - replace (seqNum r >? sn) with true by lia.
    destruct (undo b ras r) as [[b1 r1]|f]; [|done]. rewrite !bind_Ok. apply IH.
Qed.

(** The target of a branch: the record it leaves, and what undoing it does to
    the stack. *)
Lemma target_ok ras_step btb s inst pc thread rec :
  DefaultBTB.wf btb -> ReturnAddrStack.wf s -> ReturnAddrStack.numEntries s <= 16 ->
  usedRAS rec = false -> wasCall rec = false ->
  exists taken target rec' s', target_of ras_step btb s inst pc thread rec = Ok (taken, target, rec', s') /\
    ReturnAddrStack.wf s' /\ ReturnAddrStack.numEntries s' = ReturnAddrStack.numEntries s /\
    seqNum rec' = seqNum rec /\ bpHistory rec' = bpHistory rec /\
    PC rec' = PC rec /\ predTaken rec' = predTaken rec /\
    (usedRAS rec' = true -> 0 <= RASIndex rec' < ReturnAddrStack.numEntries s) /\
    ReturnAddrStack.usedEntries s' = used_step (ReturnAddrStack.numEntries s) (ReturnAddrStack.usedEntries s) rec' /\
    forall b b' m s1, 0 <= m -> agree m s1 s' -> BPSquash b (bpHistory rec) = Ok b' ->
      exists s2, undo b s1 rec' = Ok (b', s2) /\ agree (peak_step rec' m) s2 s /\
        ReturnAddrStack.usedEntries s2 = used_undo (ReturnAddrStack.usedEntries s1) rec'.
Proof.
  intros Hbtb Hs Hn Hu Hc. unfold target_of. destruct (isReturn inst).
  - rewrite ReturnAddrStack.top_entry by done. bind_step. cbn [RASIndex set_usedRAS].
    pose proof (ReturnAddrStack.wf_tos s Hs). unfold topIdx.
    replace (ReturnAddrStack.tos s <? 16) with true by lia. cbn [c_assert]. bind_step.
    destruct (ReturnAddrStack.pop_ok s Hs) as (Hw & En & _ & _ & Eu).
    eexists _, _, _, _. split; [done|]. split_and!; try done; [].
    intros b b' m s1 Hm Hag Hsq. destruct (undo_return m s s1 Hs Hm Hag) as (s2 & Hr & Hag2 & Hus).
    exists s2. unfold undo. cbn. unfold topIdx in Hr. rewrite Hr. bind_step. by rewrite Hsq.
  - destruct (DefaultBTB.lookup_entry btb pc thread Hbtb) as (e & _ & Hv & Hl).
    rewrite Hv, Hl. destruct (isCall inst).
    + destruct (ReturnAddrStack.push_ok s (uint 64 (pc + ras_step)) Hs) as (s' & Hp & Hw & En & _ & Eu & _).
      rewrite Hp, !bind_Ok. cbv beta iota. rewrite ?bind_Ok.
      destruct (DefaultBTB.hit btb e pc thread); eexists _, _, _, _; (split; [done|]);
        (split_and!; try done; [by simpl; rewrite Hu|by unfold used_step; simpl; rewrite Hu|]); intros b b' m s1 Hm Hag Hsq;
        exists (pop s1); unfold undo, peak_step, used_undo; cbn [usedRAS wasCall set_wasCall bpHistory]; rewrite Hu; bind_step; rewrite Hsq;
        (split; [done|]); (split; [by apply (undo_call m s (uint 64 (pc + ras_step)) s')|]); apply ReturnAddrStack.pop_ok, Hag.
    + rewrite !bind_Ok. cbv beta iota. rewrite ?bind_Ok.
      destruct (DefaultBTB.hit btb e pc thread); eexists _, _, _, _; (split; [done|]);
        (split_and!; try done; [by rewrite Hu|by unfold used_step; rewrite Hu, Hc|]); intros b b' m s1 Hm Hag Hsq; exists s1;
        unfold undo, peak_step, used_undo; rewrite Hu, Hc; bind_step; by rewrite Hsq.
Qed.

(** A prediction: it succeeds, keeps the invariant, and can be undone. *)
Lemma predict_ok g ras_step u inst pc thread :
  wf u -> 0 <= thread < Z.of_nat (length (RAS u)) ->
  exists taken target u' rec s s' hist, predict g ras_step u inst pc thread = Ok (taken, target, u') /\
    wf u' /\ vget (RAS u) thread = Ok s /\ vget (predHist u) thread = Ok hist /\
    BTB u' = BTB u /\ RAS u' = <[Z.to_nat thread := s']> (RAS u) /\
    predHist u' = <[Z.to_nat thread := rec :: hist]> (predHist u) /\
    seqNum rec = i_seqNum inst /\ PC rec = pc /\
    direction g (bp u) inst pc = Ok (predTaken rec, bpHistory rec, bp u') /\
    (same_tables (bp u) (bp u') /\ ReturnAddrStack.numEntries s' = ReturnAddrStack.numEntries s /\
     ReturnAddrStack.usedEntries s' = used_step (ReturnAddrStack.numEntries s) (ReturnAddrStack.usedEntries s) rec) /\
    forall b m s1, same_tables (bp u) b -> 0 <= m -> agree m s1 s' ->
      exists s2, undo b s1 rec = Ok (bp u, s2) /\ agree (peak_step rec m) s2 s /\
        ReturnAddrStack.usedEntries s2 = used_undo (ReturnAddrStack.usedEntries s1) rec.
Proof.
  intros Hu Ht. destruct (wf_thread u thread Hu Ht) as (s & hist & Hs & Hh & Hw & Hn & Hrecs).
  pose proof (Forall2_length _ _ _ (wf_threads u Hu)) as Hlen.
  destruct (direction_ok g (bp u) inst pc (wf_bp u Hu)) as (dir & h & b' & Hd & Hb' & Hm & Hho & Hst & Hsq).
  set (rec0 := PredictorHistory_new (i_seqNum inst) pc dir h thread).
  assert (exists taken target rec s',
    (if dir then target_of ras_step (BTB u) s inst pc thread rec0 else Ok (false, pc, rec0, s))
      = Ok (taken, target, rec, s') /\
    ReturnAddrStack.wf s' /\ ReturnAddrStack.numEntries s' = ReturnAddrStack.numEntries s /\
    seqNum rec = i_seqNum inst /\ bpHistory rec = h /\ PC rec = pc /\ predTaken rec = dir /\
    (usedRAS rec = true -> 0 <= RASIndex rec < ReturnAddrStack.numEntries s) /\
    ReturnAddrStack.usedEntries s' = used_step (ReturnAddrStack.numEntries s) (ReturnAddrStack.usedEntries s) rec /\
    forall b m s1, same_tables (bp u) b -> 0 <= m -> agree m s1 s' ->
      exists s2, undo b s1 rec = Ok (bp u, s2) /\ agree (peak_step rec m) s2 s /\
        ReturnAddrStack.usedEntries s2 = used_undo (ReturnAddrStack.usedEntries s1) rec)
    as (taken & target & rec & s' & Hr & Hw' & Hn' & Hseq & Hbh & HPC & Hpt & Hidx & Hus & Hundo).
  { destruct dir.
    - destruct (target_ok ras_step (BTB u) s inst pc thread rec0 (wf_btb u Hu) Hw Hn eq_refl eq_refl)
        as (taken & target & rec & s' & H1 & H2 & H3 & H4 & H5 & H6 & H7 & H8 & H9 & H10).
      exists taken, target, rec, s'. split_and!; try done. intros b m s1 Hb Hm' Hag. apply (H10 b); [done..|]. by apply Hsq.
    - eexists _, _, rec0, s. split; [done|]. split_and!; try done; [].
      intros b m s1 Hb _ Hag. exists s1. unfold undo. cbn [usedRAS wasCall bpHistory rec0 PredictorHistory_new].
      bind_step. by rewrite Hsq by done. }
  exists taken, target, (mk b' (BTB u) (<[Z.to_nat thread := s']> (RAS u))
    (<[Z.to_nat thread := rec :: hist]> (predHist u))), rec, s, s', hist. split_and!; try done.
  - unfold predict. rewrite Hd. bind_step. rewrite Hs. bind_step. fold rec0.
    replace (if dir then _ else _) with
      (Ok (taken, target, rec, s') : res (bool * Z * PredictorHistory * ReturnAddrStack.t)).
    bind_step. rewrite !vset_lt by lia. bind_step. rewrite Hh. bind_step.
    by rewrite vset_lt by lia.
  - apply wf_set; try done; [apply Hu|]. split_and!; [done|lia|]. constructor.
    + split; [by rewrite Hbh|]. by rewrite Hn'.
    + eapply Forall_impl; [done|]. intros r [H1 H2]. split; [by apply Hm|by rewrite Hn'].
  - simpl. by rewrite Hpt, Hbh.
Qed.

(** A run of predictions, on any threads. *)
Fixpoint run_predict (g : bool) (ras_step : Z) (u : t) (bs : list (Z * DynInst * Z)) : res t :=
  match bs with
  | [] => Ok u
  | (thread, inst, pc) :: bs =>
      r ← predict g ras_step u inst pc thread; run_predict g ras_step r.2 bs
  end.

(** The predictions of a thread. *)
Definition on_thread (thread : Z) (bs : list (Z * DynInst * Z)) : list (Z * DynInst * Z) :=
  filter (fun b => b.1.1 = thread) bs.
(** The stacks, histories and threads that a run on other threads leaves alone. *)
Definition threads_in (u : t) (bs : list (Z * DynInst * Z)) : Prop :=
  Forall (fun b => 0 <= b.1.1 < Z.of_nat (length (RAS u))) bs.

(** What undoing the records [recs] of a thread, the newest first, does to its
    stack and to the predictor of a unit [u], where its stack was [s]. *)
Definition undoes (u : t) (s s' : ReturnAddrStack.t) (recs : list PredictorHistory) : Prop :=
  ReturnAddrStack.numEntries s' = ReturnAddrStack.numEntries s /\
  ReturnAddrStack.usedEntries s' = foldl (used_step (ReturnAddrStack.numEntries s)) (ReturnAddrStack.usedEntries s) (rev recs) /\
  forall b m s1, same_tables (bp u) b -> 0 <= m -> agree m s1 s' ->
    exists b2 s2, undo_all b s1 recs = Ok (b2, s2) /\ same_tables (bp u) b2 /\ agree (foldr peak_step m (rev recs)) s2 s /\
      ReturnAddrStack.usedEntries s2 = foldl used_undo (ReturnAddrStack.usedEntries s1) recs.

Lemma peak_from_nonneg m recs : 0 <= m -> 0 <= foldr peak_step m recs.
Proof. intros Hm. induction recs as [|r l IHl]; [done|]. by apply peak_step_nonneg. Qed.

(** One more prediction of the thread, before those of [recs]. *)
Lemma undoes_snoc g ras_step u u1 inst pc thread tk tg rec s sm hist s' recs : wf u -> 0 <= thread < Z.of_nat (length (RAS u)) ->
  predict g ras_step u inst pc thread = Ok (tk, tg, u1) -> vget (RAS u) thread = Ok s -> vget (RAS u1) thread = Ok sm ->
  vget (predHist u) thread = Ok hist -> vget (predHist u1) thread = Ok (rec :: hist) ->
  undoes u1 sm s' recs -> undoes u s s' (recs ++ [rec]) /\
  forall b m s1 b2 s2, same_tables (bp u) b -> 0 <= m -> agree m s1 s' -> undo_all b s1 (recs ++ [rec]) = Ok (b2, s2) -> b2 = bp u.
Proof.
  intros Hu Ht Hp Hs Hsm Hh Hh1 (En & Eu & Hall).
  destruct (predict_ok g ras_step u inst pc thread Hu Ht)
    as (tk1 & tg1 & u2 & rec1 & s0 & sm0 & hist0 & Hp1 & Hu1 & Hs0 & Hh0 & EB & ER & EH & _ & _ & _ & (Hst & En1 & Eu1) & Hundo).
  rewrite Hp in Hp1. injection Hp1 as <- <- <-. rewrite Hs in Hs0. injection Hs0 as <-. rewrite Hh in Hh0. injection Hh0 as <-.
  pose proof (Forall2_length _ _ _ (wf_threads u Hu)).
  rewrite ER, vget_insert_eq in Hsm by lia. injection Hsm as <-. rewrite EH, vget_insert_eq in Hh1 by lia. injection Hh1 as <-.
  assert (forall b m s1, same_tables (bp u) b -> 0 <= m -> agree m s1 s' -> exists s2,
    undo_all b s1 (recs ++ [rec1]) = Ok (bp u, s2) /\ agree (foldr peak_step m (rev (recs ++ [rec1]))) s2 s /\
    ReturnAddrStack.usedEntries s2 = foldl used_undo (ReturnAddrStack.usedEntries s1) (recs ++ [rec1])) as Hone.
  { intros b m s1 Hb Hm Hag.
    destruct (Hall b m s1) as (b2 & s2 & Ha & Hb2 & Hag2 & Eu2); [|done|done|].
    { eapply same_tables_trans; [by apply same_tables_sym|done]. }
    destruct (Hundo b2 _ s2 (same_tables_trans _ _ _ Hst Hb2) (peak_from_nonneg m _ Hm) Hag2) as (s3 & Hu3 & Hag3 & Eu3).
    exists s3. rewrite undo_all_app, Ha. bind_step. cbn [fst snd undo_all]. rewrite Hu3. bind_step.
    rewrite rev_app_distr, foldl_app. simpl. by rewrite <- Eu2. }
  split.
  - split_and!; [congruence|rewrite rev_app_distr; simpl; by rewrite Eu, En1, Eu1|].
    intros b m s1 Hb Hm Hag. destruct (Hone b m s1 Hb Hm Hag) as (s2 & H1 & H2). exists (bp u), s2.
    split; [done|]. split; [apply same_tables_refl|done].
  - intros b m s1 b2 s2 Hb Hm Hag Ha. destruct (Hone b m s1 Hb Hm Hag) as (s3 & H1 & _). rewrite Ha in H1. by injection H1.
Qed.

Lemma run_undo g ras_step thread bs : forall u, wf u -> threads_in u bs -> 0 <= thread < Z.of_nat (length (RAS u)) ->
  exists u' recs s s' hist, run_predict g ras_step u bs = Ok u' /\ wf u' /\
    vget (RAS u) thread = Ok s /\ vget (RAS u') thread = Ok s' /\
    vget (predHist u) thread = Ok hist /\ vget (predHist u') thread = Ok (recs ++ hist) /\
    length (RAS u') = length (RAS u) /\ BTB u' = BTB u /\ same_tables (bp u) (bp u') /\
    seqNum <$> rev recs = (fun b => i_seqNum b.1.2) <$> on_thread thread bs /\ undoes u s s' recs.
Proof.
  induction bs as [|[[th inst] pc] bs IH]; intros u Hu Hbs Ht.
  - destruct (wf_thread u thread Hu Ht) as (s & hist & Hs & Hh & Hw & _).
    exists u, [], s, s, hist. split_and!; try done; [apply same_tables_refl|].
    split; [done|]. split; [done|]. intros b m s1 Hb _ Hag. by exists b, s1.
  - apply Forall_cons in Hbs as [Hth Hbs]. simpl in Hth.
    destruct (predict_ok g ras_step u inst pc th Hu Hth)
      as (tk & tg & u1 & rec & s0 & sm & hist0 & Hp & Hu1 & Hs0 & Hh0 & EB & ER & EH & Hq & _ & _ & (Hst & _) & _).
    assert (length (RAS u1) = length (RAS u)) as EL by by rewrite ER, length_insert.
    destruct (IH u1 Hu1) as (u' & recs & s & s' & hist & Hr & Hu' & Hs & Hs' & Hh & Hh' & EL' & EB' & Hst' & Hqs & Hun).
    { unfold threads_in. by rewrite EL. } { by rewrite EL. }
    pose proof (Forall2_length _ _ _ (wf_threads u Hu)). pose proof (same_tables_trans _ _ _ Hst Hst') as Hst2.
    destruct (decide (th = thread)) as [->|Hne].
    + rewrite EH, vget_insert_eq in Hh by lia. injection Hh as <-.
      exists u', (recs ++ [rec]), s0, s', hist0. simpl. rewrite Hp. bind_step.
      unfold on_thread. rewrite filter_cons_True by done. fold (on_thread thread bs).
      split_and!; try done; [by rewrite <- app_assoc|congruence|congruence|rewrite rev_app_distr; change (rev [rec] ++ rev recs) with (rec :: rev recs); by rewrite !fmap_cons, Hqs, Hq|].
      apply (undoes_snoc g ras_step u u1 inst pc thread tk tg rec s0 s hist0 s' recs); try done. rewrite EH. apply vget_insert_eq. lia.
    + rewrite ER, vget_insert_ne in Hs by lia. rewrite EH, vget_insert_ne in Hh by lia.
      exists u', recs, s, s', hist. simpl. rewrite Hp. bind_step.
      unfold on_thread. rewrite filter_cons_False by done. fold (on_thread thread bs).
      split_and!; try done; [congruence|congruence|]. destruct Hun as (H1 & H2 & H3). split_and!; try done.
      intros b m s1 Hb Hm Hag. destruct (H3 b m s1) as (b2 & s2 & Ha & Hb2 & Hag2); [|done|done|].
      { eapply same_tables_trans; [by apply same_tables_sym|done]. }
      exists b2, s2. split; [done|]. split; [by apply (same_tables_trans _ (bp u1))|done].
Qed.

(** ** No operation faults *)
Lemma same_mask_refl b : same_mask b b.
Proof. done. Qed.
Lemma same_mask_trans b1 b2 b3 : same_mask b1 b2 -> same_mask b2 b3 -> same_mask b1 b3.
Proof. intros H1 H2 h. by rewrite (H1 h). Qed.

Lemma BPUpdate_ok b pc taken h : bp_wf b -> hist_ok b h ->
  exists b', BPUpdate b pc taken h = Ok b' /\ bp_wf b' /\ same_mask b b'.
Proof.
  intros Hb Hh. destruct b as [b|b], h as [h|]; try done; cbn [BPUpdate is_null].
  - destruct (LocalBP.update_train b pc taken Hb) as (c & _ & Hu). rewrite Hu. bind_step.
    eexists. split; [done|]. split; [by apply (LocalBP.update_wf b pc taken)|]. by intros [].
  - destruct (TournamentBP.update_ok b pc taken (Some h) Hb) as (b' & -> & Hb' & _ & Em & _).
    bind_step. eexists. split; [done|]. split; [done|]. intros [h'|]; [|done]. simpl. by rewrite Em.
Qed.

Lemma BPSquash_ok b h : bp_wf b -> hist_ok b h ->
  exists b', BPSquash b h = Ok b' /\ bp_wf b' /\ same_mask b b'.
Proof.
  intros Hb Hh. destruct b as [b|b], h as [h|]; try done; [by exists (Local b)|].
  exists (Tournament (TournamentBP.set_globalHistory b (TournamentBP.h_globalHistory h))).
  split; [done|]. split; [by apply TournamentBP.set_globalHistory_wf|]. by intros [].
Qed.

Lemma update_loop_ok sn l : forall b, bp_wf b -> Forall (fun r => hist_ok b (bpHistory r)) l ->
  exists b' l', update_loop sn b l = Ok (b', l') /\ bp_wf b' /\ same_mask b b' /\ suffix l' l.
Proof.
  induction l as [|r l IH]; intros b Hb Hl; simpl; [by eexists _, _|].
  apply Forall_cons in Hl as [Hr Hl]. destruct (seqNum r <=? sn).
  - destruct (BPUpdate_ok b (PC r) (predTaken r) (bpHistory r) Hb Hr) as (b1 & -> & Hb1 & Hm). bind_step.
    destruct (IH b1 Hb1) as (b' & l' & -> & Hb' & Hm' & Hs).
    { eapply Forall_impl; [done|]. intros r'. apply Hm. }
    eexists _, _. split_and!; try done; [by eapply same_mask_trans|by apply suffix_cons_r].
  - by eexists _, _.
Qed.

Lemma rev_suffix_elem {A} (l l' : list A) (P : A -> Prop) :
  suffix l' (rev l) -> Forall P l -> Forall P (rev l').
Proof.
  intros [k E] H. rewrite <- (rev_involutive l), E, rev_app_distr in H.
  by apply Forall_app in H as [H _].
Qed.

Lemma update_total u sn thread : wf u -> 0 <= thread < Z.of_nat (length (RAS u)) ->
  exists u', update u sn thread = Ok u' /\ wf u' /\ RAS u' = RAS u /\ same_mask (bp u) (bp u').
Proof.
  intros Hu Ht. destruct (wf_thread u thread Hu Ht) as (s & hist & Hs & Hh & Hw & Hn & Hrecs).
  pose proof (Forall2_length _ _ _ (wf_threads u Hu)).
  unfold update. rewrite Hh. bind_step.
  destruct (update_loop_ok sn (rev hist) (bp u) (wf_bp u Hu)) as (b' & l' & -> & Hb' & Hm & Hsuf).
  { apply Forall_rev. eapply Forall_impl; [done|]. by intros r [? _]. }
  bind_step. rewrite vset_lt by lia. bind_step. cbn [fst snd]. eexists. split; [done|]. split; [|done].
  assert (ER : RAS u = <[Z.to_nat thread := s]> (RAS u)).
  { symmetry. apply list_insert_id. by apply vget_Ok in Hs as [_ ?]. }
  rewrite ER. apply wf_set; try done; [apply Hu|]. split_and!; [done|done|].
  eapply (rev_suffix_elem _ _ _ Hsuf), Forall_impl; [done|].
  intros r [H1 H2]. split; [by apply Hm|done].
Qed.

Lemma undo_total b s r : bp_wf b -> ReturnAddrStack.wf s -> rec_ok b s r ->
  exists b' s', undo b s r = Ok (b', s') /\ bp_wf b' /\ same_mask b b' /\
    ReturnAddrStack.wf s' /\ ReturnAddrStack.numEntries s' = ReturnAddrStack.numEntries s.
Proof.
  intros Hb Hs [Hh Hi]. destruct (BPSquash_ok b (bpHistory r) Hb Hh) as (b' & Hsq & Hb' & Hm).
  destruct (ReturnAddrStack.pop_ok s Hs) as (Hp & En & _). pose proof Hs as [Hn Hl Hu Ht].
  unfold undo. destruct (usedRAS r); [specialize (Hi eq_refl)|destruct (wasCall r)];
    unfold restore; rewrite ?vset_lt by lia; rewrite ?bind_Ok, Hsq, ?bind_Ok; eexists _, _;
    (split_and!; try done); split; simpl; rewrite ?length_insert; lia.
Qed.

Lemma squash_loop_total sn l : forall b s, bp_wf b -> ReturnAddrStack.wf s -> Forall (rec_ok b s) l ->
  exists b' s' l', squash_loop sn b s l = Ok (b', s', l') /\ bp_wf b' /\ same_mask b b' /\
    ReturnAddrStack.wf s' /\ ReturnAddrStack.numEntries s' = ReturnAddrStack.numEntries s /\
    suffix l' l.
Proof.
  induction l as [|r l IH]; intros b s Hb Hs Hl; simpl; [by eexists _, _, _|].
  apply Forall_cons in Hl as [Hr Hl]. destruct (seqNum r >? sn); [|by eexists _, _, _].
  destruct (undo_total b s r Hb Hs Hr) as (b1 & s1 & -> & Hb1 & Hm & Hs1 & En). bind_step. cbn [fst snd].
  destruct (IH b1 s1 Hb1 Hs1) as (b' & s' & l' & -> & Hb' & Hm' & Hs' & En' & Hsuf).
  { eapply Forall_impl; [done|]. intros r' [H1 H2]. split; [by apply Hm|by rewrite En]. }
  eexists _, _, _. split_and!; try done; [by eapply same_mask_trans|lia|by apply suffix_cons_r].
Qed.

Lemma squash_total u sn thread : wf u -> 0 <= thread < Z.of_nat (length (RAS u)) ->
  exists u', squash u sn thread = Ok u' /\ wf u' /\ length (RAS u') = length (RAS u) /\
    same_mask (bp u) (bp u').
Proof.
  intros Hu Ht. destruct (wf_thread u thread Hu Ht) as (s & hist & Hs & Hh & Hw & Hn & Hrecs).
  pose proof (Forall2_length _ _ _ (wf_threads u Hu)).
  unfold squash. rewrite Hh. bind_step. rewrite Hs. bind_step.
  destruct (squash_loop_total sn hist (bp u) s (wf_bp u Hu) Hw Hrecs)
    as (b' & s' & l' & -> & Hb' & Hm & Hs' & En & [k Hsuf]). bind_step.
  rewrite !vset_lt by lia. rewrite !bind_Ok. eexists. split; [done|].
  split; [|by cbn [RAS]; rewrite length_insert].
  apply wf_set; try done; [apply Hu|]. split_and!; [done|lia|].
  rewrite Hsuf in Hrecs. apply Forall_app in Hrecs as [_ Hrecs].
  eapply Forall_impl; [done|]. intros r [H1 H2]. split; [by apply Hm|by rewrite En].
Qed.

(** The unit's operations as a step relation over its clients' calls. *)
Inductive step : t -> t -> Prop :=
| step_predict g ras_step u inst pc thread taken target u' :
    predict g ras_step u inst pc thread = Ok (taken, target, u') -> step u u'
| step_update u sn thread u' : update u sn thread = Ok u' -> step u u'
| step_squash u sn thread u' : squash u sn thread = Ok u' -> step u u'.

Lemma vget_range {A} (l : list A) i x : vget l i = Ok x -> 0 <= i < Z.of_nat (length l).
Proof. intros [Hi Hx]%vget_Ok. apply lookup_lt_Some in Hx. lia. Qed.

Lemma step_wf u u' : wf u -> step u u' -> wf u' /\ same_mask (bp u) (bp u').
Proof.
  intros Hu H. pose proof (Forall2_length _ _ _ (wf_threads u Hu)) as Hlen.
  destruct H as [g ras_step u inst pc thread taken target u' H|u sn thread u' H|u sn thread u' H].
  - assert (Ht : 0 <= thread < Z.of_nat (length (RAS u))).
    { unfold predict in H. apply res_bind_Ok in H as ([[d h] b] & _ & H).
      apply res_bind_Ok in H as (s & Hs & _). by apply vget_range in Hs. }
    destruct (predict_ok g ras_step u inst pc thread Hu Ht)
      as (tk & tg & u1 & rec & s & s' & hist & Hp & Hu1 & _ & _ & _ & _ & _ & _ & _ & Hd & _).
    rewrite Hp in H. injection H as <- <- <-. split; [done|].
    destruct (direction_ok g (bp u) inst pc (wf_bp u Hu)) as (tk' & h & b' & Hd' & _ & Hm & _).
    rewrite Hd in Hd'. by injection Hd' as _ _ <-.
  - assert (Ht : 0 <= thread < Z.of_nat (length (RAS u))).
    { unfold update in H. apply res_bind_Ok in H as (hist & Hh & _).
      apply vget_range in Hh. lia. }
    destruct (update_total u sn thread Hu Ht) as (u1 & H1 & Hu1 & _ & Hm).
    rewrite H1 in H. by injection H as <-.
  - assert (Ht : 0 <= thread < Z.of_nat (length (RAS u))).
    { unfold squash in H. apply res_bind_Ok in H as (hist & Hh & _). apply vget_range in Hh. lia. }
    destruct (squash_total u sn thread Hu Ht) as (u1 & H1 & Hu1 & _ & Hm).
    rewrite H1 in H. by injection H as <-.
Qed.

Lemma steps_wf u u' : wf u -> rtc step u u' -> wf u' /\ same_mask (bp u) (bp u').
Proof.
  intros Hu H. induction H as [u|u u1 u' H1 _ IH]; [done|].
  destruct (step_wf u u1 Hu H1) as [Hu1 Hm]. destruct (IH Hu1) as [Hu' Hm'].
  split; [done|]. by eapply same_mask_trans.
Qed.

(** The history width is fixed when the unit is built. *)
Lemma same_mask_tournament b b2 : TournamentBP.wf b -> bp_wf b2 -> same_mask (Tournament b) b2 ->
  exists b', b2 = Tournament b' /\ TournamentBP.globalHistoryMask b' = TournamentBP.globalHistoryMask b.
Proof.
  intros Hb Hb2 Hm. pose proof (TournamentBP.wf_ghist b Hb).
  pose proof (Hm (Some (TournamentBP.mkHist (TournamentBP.globalHistoryMask b) true true true))) as [H1 _].
  cbn [hist_ok TournamentBP.h_globalHistory] in H1. specialize (H1 ltac:(lia)). destruct b2 as [|b']; [done|]. exists b'. split; [done|].
  simpl in Hb2. pose proof (TournamentBP.wf_ghist b' Hb2).
  pose proof (Hm (Some (TournamentBP.mkHist (TournamentBP.globalHistoryMask b') true true true))) as [_ H2].
  assert (0 <= TournamentBP.globalHistoryMask b' <= TournamentBP.globalHistoryMask b)
    by (apply H2; split; [apply (Z.le_trans _ _ _ (proj1 H0) (proj2 H0))|apply Z.le_refl]).
  simpl in H1. lia.
Qed.

Lemma new_tournament n gc gb p u :
  p_tournament p = true -> new n gc gb p = Ok u ->
  exists b, bp u = Tournament b /\ RAS u = replicate n (ReturnAddrStack.init (p_RASSize p)) /\
    predHist u = replicate n [] /\
    DefaultBTB.new gb (p_BTBEntries p) (p_BTBTagSize p) (p_instShiftAmt p) = Ok (BTB u) /\
    TournamentBP.new gc (p_localPredictorSize p) (p_localCtrBits p)
      (p_localHistoryTableSize p) (p_localHistoryBits p)
      (p_globalPredictorSize p) (p_globalHistoryBits p) (p_globalCtrBits p)
      (p_choicePredictorSize p) (p_choiceCtrBits p) (p_instShiftAmt p) = Ok b.
Proof.
  intros Ep H. unfold new in H. rewrite Ep in H.
  apply res_bind_Ok in H as (btb & Hbtb & H). apply res_bind_Ok in H as (b & Hb & H).
  apply res_bind_Ok in Hb as (b' & Hb' & Hb). injection Hb as <-. injection H as <-.
  by exists b'.
Qed.

(** Parameters the constructors accept. *)
Record params_ok (p : Params) : Prop := {
  po_l : 0 <= p_localPredictorSize p < 2 ^ 32;
  po_lh : 0 <= p_localHistoryTableSize p < 2 ^ 32;
  po_g : 0 <= p_globalPredictorSize p < 2 ^ 32;
  po_gc : 0 <= p_globalCtrBits p <= 31;
  po_gs : 2 ^ p_globalCtrBits p <= p_globalPredictorSize p;
  po_btb : 0 <= p_BTBEntries p < 2 ^ 32;
  po_ras : 1 <= p_RASSize p <= 16
}.

Lemma init_wf n : 1 <= n <= 16 -> ReturnAddrStack.wf (ReturnAddrStack.init n).
Proof.
  intros Hn. split; cbn [ReturnAddrStack.numEntries ReturnAddrStack.init ReturnAddrStack.addrStack
    ReturnAddrStack.usedEntries ReturnAddrStack.tos]; rewrite ?length_replicate; lia.
Qed.

Lemma Forall2_replicate_2 {A B} (P : A -> B -> Prop) n x y :
  P x y -> Forall2 P (replicate n x) (replicate n y).
Proof. intros H. induction n as [|n IH]; [by apply Forall2_nil|by apply Forall2_cons]. Qed.

Lemma new_unit_wf n gc gb p u : p_tournament p = true -> params_ok p ->
  new n gc gb p = Ok u -> wf u.
Proof.
  intros Ep Hp H. destruct (new_tournament n gc gb p u Ep H) as (b & Eb & ER & EH & Hbtb & Hb).
  destruct Hp. apply TournamentBP.tournament_new_wf in Hb as (Hb & _); [|done..]. split.
  - by rewrite Eb.
  - by apply DefaultBTB.btb_new_wf in Hbtb as [? _].
  - rewrite ER, EH. apply Forall2_replicate_2. split_and!; [by apply init_wf|simpl; lia|by apply Forall_nil_2].
Qed.
End BPredUnit.
