(* ===== verification/BPredTheorems.v ===== *)
(** * Theorems on branch prediction

    The predictors learn what they are trained with and never index outside
    their tables; the return address stack is a bounded stack; a squash undoes
    the predictions made since; and two ways in which the tournament
    predictor's history is not what its parameters and comments say. *)
From S2P Require Import Prelude IntMath BPred BPredHist BPredUnit.
Import BPredUnit.

(** Training the local predictor: from any reachable state and after any
    run of branches, if the last [2^(bits-1)] outcomes recorded at the index
    of an address agree, that outcome is predicted; branches at other indices
    do not matter. *)
Theorem local_predictor_learns b addr before taken b1 b2 trace n :
  LocalBP.wf b -> LocalBP.run b before = Ok b1 -> LocalBP.run b1 trace = Ok b2 ->
  LocalBP.outcomes b1 addr trace = replicate n taken ->
  2 ^ (LocalBP.localCtrBits b - 1) <= Z.of_nat n ->
  LocalBP.lookup b2 addr = Ok taken.
Proof.
  intros Hb H1 H2 Ho Hn.
  destruct (LocalBP.run_wf before b Hb) as (b1' & E1 & Hb1 & Eb1 & _).
  rewrite H1 in E1. injection E1 as <-.
  destruct (LocalBP.run_wf trace b1 Hb1) as (b2' & E2 & Hb2 & Eb2 & I2).
  rewrite H2 in E2. injection E2 as <-.
  destruct (LocalBP.ctr_at b1 addr Hb1) as (c & Hc & Hcw).
  pose proof (LocalBP.wf_bits b1 Hb1) as Hbits.
  pose proof (LocalBP.run_counter trace b1 addr c b2 Hb1 Hc H2) as Hend. rewrite Ho in Hend.
  unfold LocalBP.lookup. rewrite I2, Hend. bind_step. f_equal. unfold SatCounter.read.
  rewrite LocalBP.getPrediction_half.
  2:{ by rewrite Eb2. }
  2:{ rewrite Eb2. by apply LocalBP.foldl_train_wf. }
  rewrite (LocalBP.foldl_train_bound (LocalBP.localCtrBits b1)) by first [done | lia].
  rewrite Eb2. rewrite <- Eb1 in Hn.
  destruct Hcw as (_ & Hmax & Hcr). rewrite SatCounter.max_pow2 in Hmax by lia.
  assert (2 ^ LocalBP.localCtrBits b1 = 2 * 2 ^ (LocalBP.localCtrBits b1 - 1)).
  { rewrite <- Z.pow_succ_r by lia. f_equal. lia. }
  assert (0 < 2 ^ (LocalBP.localCtrBits b1 - 1)) by (apply Z.pow_pos_nonneg; lia).
  destruct taken; lia.
Qed.

Lemma local_predictor_learns_witness :
  exists b b2, LocalBP.new 7 16 2 2 = Ok b /\
    LocalBP.run b [(64, true); (68, false); (64, true)] = Ok b2 /\ LocalBP.lookup b2 64 = Ok true.
Proof.
  destruct (LocalBP.new 7 16 2 2) as [b|] eqn:Hb; [|discriminate Hb].
  destruct (LocalBP.run b [(64, true); (68, false); (64, true)]) as [b2|] eqn:Hr.
  2:{ injection Hb as <-. discriminate Hr. }
  exists b, b2. split_and!; [done|done|].
  apply (local_predictor_learns b 64 [] true b b2 [(64, true); (68, false); (64, true)] 2).
  - by apply (LocalBP.local_new_wf 7 16 2 2); [lia|lia|].
  - done.
  - exact Hr.
  - injection Hb as <-. reflexivity.
  - injection Hb as <-. vm_compute. discriminate.
Defined.

(** The BTB after any sequence of updates: a lookup gives the target of
    the latest update that shares the branch's index, when its tag and thread
    match, and 0 otherwise; with no such update the answer is that of the
    original buffer. [valid] says which case it is. *)
Theorem btb_latest_update b us pc thread :
  DefaultBTB.wf b -> exists b', DefaultBTB.run b us = Ok b' /\ DefaultBTB.wf b' /\
    match DefaultBTB.latest b pc us with
    | Some (pc', target, thread') =>
        let h := (DefaultBTB.getTag b pc =? DefaultBTB.getTag b pc') && (thread' =? thread) in
        DefaultBTB.btb_valid b' pc thread = Ok h /\
        DefaultBTB.lookup b' pc thread = Ok (if h then target else 0)
    | None =>
        DefaultBTB.btb_valid b' pc thread = DefaultBTB.btb_valid b pc thread /\
        DefaultBTB.lookup b' pc thread = DefaultBTB.lookup b pc thread
    end.
Proof.
  intros Hb. destruct (DefaultBTB.run_entry us b Hb) as (b' & Hr & Hb' & _ & Ht & He).
  exists b'. split_and!; [done|done|].
  destruct (DefaultBTB.lookup_entry b' pc thread Hb') as (e & Ee & -> & ->).
  rewrite He in Ee. unfold DefaultBTB.hit. rewrite Ht.
  destruct (DefaultBTB.latest b pc us) as [[[pc' tg] th]|].
  - by injection Ee as <-.
  - destruct (DefaultBTB.lookup_entry b pc thread Hb) as (e0 & Ee0 & -> & ->).
    rewrite Ee in Ee0. by injection Ee0 as <-.
Qed.

Lemma btb_latest_update_witness :
  exists b b', DefaultBTB.new 0 16 8 2 = Ok b /\
    DefaultBTB.run b [(64, 1000, 0); (68, 2000, 0)] = Ok b' /\ DefaultBTB.lookup b' 64 0 = Ok 1000.
Proof.
  destruct (DefaultBTB.new 0 16 8 2) as [b|] eqn:Hb; [|discriminate Hb].
  destruct (btb_latest_update b [(64, 1000, 0); (68, 2000, 0)] 64 0) as (b' & Hr & _ & Hl).
  - by apply (DefaultBTB.btb_new_wf 0 16 8 2); [lia|].
  - exists b, b'. split_and!; [done|done|]. injection Hb as <-. exact (proj2 Hl).
Defined.

(** The return address stack refines a bounded stack: [push] adds on top
    and drops the oldest entry when full, [pop] removes the top, and [top]
    reads it; none of them indexes outside the array. *)
Theorem ras_is_bounded_stack s a :
  ReturnAddrStack.wf s ->
  (exists s', ReturnAddrStack.push s a = Ok s' /\ ReturnAddrStack.wf s' /\
     ReturnAddrStack.contents s' =
       take (Z.to_nat (ReturnAddrStack.numEntries s)) (a :: ReturnAddrStack.contents s)) /\
  ReturnAddrStack.wf (ReturnAddrStack.pop s) /\
  ReturnAddrStack.contents (ReturnAddrStack.pop s) = tail (ReturnAddrStack.contents s) /\
  (forall x, head (ReturnAddrStack.contents s) = Some x -> ReturnAddrStack.top s = Ok x).
Proof.
  intros Hs. pose proof Hs as [Hn Hl Hu Ht].
  destruct (ReturnAddrStack.push_ok s a Hs) as (s' & Hp & Hs' & En & _ & Eu & _).
  destruct (ReturnAddrStack.pop_ok s Hs) as (Hpop & _ & _ & _ & Eup).
  split_and!; [|done| |].
  - exists s'. split_and!; [done|done|]. apply list_eq. intros i.
    rewrite ReturnAddrStack.contents_lookup by done.
    destruct (decide (Z.of_nat i < ReturnAddrStack.usedEntries s')) as [Hi|Hi].
    + rewrite lookup_take_lt by lia.
      rewrite (ReturnAddrStack.push_entry s a s') by first [done | lia].
      destruct i as [|i]; [done|]. simpl. rewrite ReturnAddrStack.contents_lookup by done.
      rewrite decide_True by lia. do 2 f_equal. lia.
    + symmetry. destruct (decide (Z.of_nat i < ReturnAddrStack.numEntries s)) as [Hi'|Hi'].
      * rewrite lookup_take_lt by lia. destruct i as [|i]; [lia|]. simpl.
        rewrite ReturnAddrStack.contents_lookup by done. by rewrite decide_False by lia.
      * apply lookup_take_ge. lia.
  - apply list_eq. intros i. rewrite ReturnAddrStack.contents_lookup by done.
    rewrite lookup_tail, ReturnAddrStack.contents_lookup, ReturnAddrStack.pop_entry by done.
    destruct (decide (Z.of_nat (S i) < ReturnAddrStack.usedEntries s)).
    + rewrite decide_True by lia. do 2 f_equal. lia.
    + by rewrite decide_False by lia.
  - intros x Hx. rewrite ReturnAddrStack.top_entry by done. f_equal.
    rewrite head_lookup, ReturnAddrStack.contents_lookup in Hx by done.
    destruct (decide _); [|done]. by injection Hx.
Qed.

Lemma ras_is_bounded_stack_witness :
  exists s, ReturnAddrStack.push (ReturnAddrStack.init 2) 4 = Ok s /\
    ReturnAddrStack.contents s = [4].
Proof.
  destruct (ras_is_bounded_stack (ReturnAddrStack.init 2) 4) as [(s & Hp & _ & Hc) _].
  - split; vm_compute; split; congruence || auto.
  - exists s. split; [exact Hp|exact Hc].
Defined.

(** ** Squashing *)

(** The calls among the records, whose entries a squash takes off the stack. *)
Definition calls (recs : list PredictorHistory) : Z :=
  Z.of_nat (length (filter (fun r => usedRAS r = false /\ wasCall r = true) recs)).

Lemma used_undo_calls recs : forall used, 0 <= used -> foldl used_undo used recs = Z.max (used - calls recs) 0.
Proof.
  induction recs as [|r recs IH]; intros used Hu; [unfold calls; simpl; lia|]. simpl.
  rewrite IH by (unfold used_undo; destruct (usedRAS r), (wasCall r); lia). unfold calls, used_undo.
  destruct (usedRAS r) eqn:E1; [by rewrite filter_cons_False by (rewrite E1; naive_solver)|].
  destruct (wasCall r) eqn:E2; [|by rewrite filter_cons_False by (rewrite E2; naive_solver)].
  rewrite filter_cons_True by done. cbn [length]. lia.
Qed.

(** What a squash leaves of the stack [s] of a thread, when the records [recs],
    the newest first, are undone. *)
Record stack_after (recs : list PredictorHistory) (s s'' : ReturnAddrStack.t) : Prop := {
  sa_wf : ReturnAddrStack.wf s'';
  sa_size : ReturnAddrStack.numEntries s'' = ReturnAddrStack.numEntries s;
  sa_top : ReturnAddrStack.topIdx s'' = ReturnAddrStack.topIdx s;
  sa_entry : forall k, 0 <= k < ReturnAddrStack.numEntries s - peak (rev recs) ->
    ReturnAddrStack.entry s'' k = ReturnAddrStack.entry s k;
  sa_used : ReturnAddrStack.usedEntries s'' =
    Z.max (foldl (used_step (ReturnAddrStack.numEntries s)) (ReturnAddrStack.usedEntries s) (rev recs) - calls recs) 0
}.

Lemma squash_run g ras_step u thread inst pc bs sn hist :
  let run := (thread, inst, pc) :: bs in
  wf u -> threads_in u run -> vget (predHist u) thread = Ok hist -> (forall r, head hist = Some r -> seqNum r <= sn) ->
  Forall (fun b => b.1.1 = thread -> sn < i_seqNum b.1.2) run ->
  exists u' u'' recs s s'', run_predict g ras_step u run = Ok u' /\ squash u' sn thread = Ok u'' /\
    vget (predHist u') thread = Ok (recs ++ hist) /\
    seqNum <$> rev recs = (fun b => i_seqNum b.1.2) <$> on_thread thread run /\
    bp u'' = bp u /\ BTB u'' = BTB u /\ vget (predHist u'') thread = Ok hist /\
    (forall i, i <> Z.to_nat thread -> RAS u'' !! i = RAS u' !! i /\ predHist u'' !! i = predHist u' !! i) /\
    vget (RAS u) thread = Ok s /\ vget (RAS u'') thread = Ok s'' /\ stack_after recs s s''.
Proof.
  intros run Hu Hin Hhist Hsn Hbs. pose proof Hin as Hin0. apply Forall_cons in Hin as [Ht Hin]. simpl in Ht.
  destruct (predict_ok g ras_step u inst pc thread Hu Ht)
    as (tk & tg & u1 & rec & s & sm & hist0 & Hp & Hu1 & Hs & Hh & EB & ER & EH & Hq & _ & _ & (Hst & _) & _).
  rewrite Hhist in Hh. injection Hh as <-. pose proof (Forall2_length _ _ _ (wf_threads u Hu)) as Hlen.
  assert (length (RAS u1) = length (RAS u)) as EL by by rewrite ER, length_insert.
  destruct (run_undo g ras_step thread bs u1 Hu1) as (u' & recs & sm0 & s' & hist1 & Hr & Hu' & Hsm & Hs' & Hh & Hh' & EL' & EB' & Hst' & Hqs & Hun).
  { unfold threads_in. by rewrite EL. } { by rewrite EL. }
  assert (hist1 = rec :: hist) as -> by (rewrite EH, vget_insert_eq in Hh by lia; congruence).
  destruct (undoes_snoc g ras_step u u1 inst pc thread tk tg rec s sm0 hist s' recs) as [(En & Eu & Hall) Hbp]; try done.
  destruct (wf_thread u' thread Hu') as (s0 & h0 & E0 & _ & Hw' & _); [by rewrite EL', EL|].
  rewrite Hs' in E0. injection E0 as <-. pose proof (same_tables_trans _ _ _ Hst Hst') as Hst2.
  destruct (Hall (bp u') 0 s' Hst2 ltac:(lia) (agree_refl s' Hw')) as (b2 & s2 & Hundo & _ & Hag & Eus).
  pose proof (Hbp (bp u') 0 s' b2 s2 Hst2 ltac:(lia) (agree_refl s' Hw') Hundo) as ->.
  assert (seqNum <$> rev (recs ++ [rec]) = (fun b => i_seqNum b.1.2) <$> on_thread thread run) as Hq2.
  { unfold on_thread, run. rewrite filter_cons_True by done. rewrite rev_app_distr. change (rev [rec] ++ rev recs) with (rec :: rev recs).
    by rewrite !fmap_cons, Hqs, Hq. }
  pose proof (Forall2_length _ _ _ (wf_threads u' Hu')) as Hlen'.
  eexists u', _, (recs ++ [rec]), s, s2. split; [unfold run; simpl; by rewrite Hp|]. split.
  { unfold squash. rewrite Hh'. bind_step. rewrite Hs'. bind_step.
    change (recs ++ rec :: hist) with (recs ++ [rec] ++ hist). rewrite app_assoc, squash_loop_app; [|apply Forall_forall|done].
    - rewrite Hundo. bind_step. cbn [fst snd]. rewrite !bind_Ok, !vset_lt, !bind_Ok by lia. reflexivity.
    - intros r Hrec. assert (seqNum r ∈ seqNum <$> rev (recs ++ [rec])) as Hel by (apply list_elem_of_fmap_2; by rewrite list_elem_of_In, <- in_rev, <- list_elem_of_In).
      rewrite Hq2 in Hel. apply list_elem_of_fmap_1 in Hel as (b & -> & [Hb1 Hb2]%list_elem_of_filter).
      rewrite Forall_forall in Hbs. by apply Hbs. }
  cbn [bp BTB RAS predHist]. rewrite <- app_assoc. split; [done|]. split; [done|]. split; [done|]. split; [congruence|].
  split; [apply vget_insert_eq; lia|]. split; [intros i Hi; by rewrite !list_lookup_insert_ne|]. split; [done|].
  split; [apply vget_insert_eq; lia|]. destruct Hag as [Hws _ Esz Et Ee].
  split; [done|done|done|intros k Hk; apply Ee; rewrite Esz; exact Hk|].
  rewrite Eus, used_undo_calls, Eu; [done|]. apply Hw'.
Qed.

(** C38. Squashing undoes speculation.  Let a thread predict a branch in state
    [u], and let any further predictions follow, on it and on other threads;
    none of this faults.  Squashing the thread's predictions then gives back its
    prediction history and the BTB, and the whole direction predictor as it was
    in [u]: with it goes what the other threads shifted into the global history
    since.  Other threads' stacks and records stay as they are.  The thread's
    return address stack is at the same position, with the same entries but for
    the deepest [peak] (those the speculative calls overwrote); its count of
    used entries is the one after the predictions less the calls among them, so
    that a return's entry is not counted again. *)
Theorem squash_undoes_predictions g ras_step u thread inst pc bs sn hist :
  let run := (thread, inst, pc) :: bs in
  wf u -> threads_in u run -> vget (predHist u) thread = Ok hist -> (forall r, head hist = Some r -> seqNum r <= sn) ->
  Forall (fun b => b.1.1 = thread -> sn < i_seqNum b.1.2) run ->
  exists u' u'' recs s s'', run_predict g ras_step u run = Ok u' /\ squash u' sn thread = Ok u'' /\
    vget (predHist u') thread = Ok (recs ++ hist) /\
    seqNum <$> rev recs = (fun b => i_seqNum b.1.2) <$> on_thread thread run /\
    bp u'' = bp u /\ BTB u'' = BTB u /\ vget (predHist u'') thread = Ok hist /\
    (forall i, i <> Z.to_nat thread -> RAS u'' !! i = RAS u' !! i /\ predHist u'' !! i = predHist u' !! i) /\
    vget (RAS u) thread = Ok s /\ vget (RAS u'') thread = Ok s'' /\ stack_after recs s s''.
Proof. apply squash_run. Qed.

(** The default parameters of the out-of-order CPU. *)
Definition O3_params : Params :=
  mkParams true 2048 2 2048 11 8192 13 2 8192 2 2 4096 16 16.
(** A small unit with one thread. *)
Definition small_params : Params := mkParams true 16 2 16 4 16 4 2 16 2 2 16 8 4.

Definition small_unit : t :=
  match new 1 0 0 small_params with Ok u => u | Er _ => mk (Local (LocalBP.mk [] 0 0 0 0 0)) (DefaultBTB.mk [] 0 0 0 0 0 0) [] [] end.

Lemma small_unit_wf : wf small_unit.
Proof.
  apply (new_unit_wf 1 0 0 small_params).
  - reflexivity.
  - split; vm_compute; split || idtac; congruence.
  - vm_compute. reflexivity.
Qed.

(** The same with two threads. *)
Definition smt_unit : t := match new 2 0 0 small_params with Ok u => u | Er _ => small_unit end.
Lemma smt_unit_wf : wf smt_unit.
Proof.
  apply (new_unit_wf 2 0 0 small_params).
  - reflexivity.
  - split; vm_compute; split || idtac; congruence.
  - vm_compute. reflexivity.
Qed.

(** A call and a return of thread 0, with a branch of thread 1 in between. *)
Definition smt_run : list (Z * DynInst * Z) :=
  [(0, mkInst 11 true false true, 100); (1, mkInst 12 false false false, 200); (0, mkInst 13 true true false, 104)].

Lemma squash_undoes_predictions_witness :
  exists u' u'' : t, run_predict false 4 smt_unit smt_run = Ok u' /\ squash u' 10 0 = Ok u'' /\
    bp u'' = bp smt_unit /\ length <$> predHist u' = [2; 1]%nat /\ length <$> predHist u'' = [0; 1]%nat.
Proof.
  destruct (squash_undoes_predictions false 4 smt_unit 0 (mkInst 11 true false true) 100 (tail smt_run) 10 [])
    as (u' & u'' & recs & s & s'' & H1 & H2 & _ & _ & H3 & _).
  - exact smt_unit_wf.
  - repeat constructor; vm_compute; congruence.
  - vm_compute. reflexivity.
  - discriminate.
  - repeat constructor; vm_compute; congruence.
  - exists u', u''. split_and!; [exact H1|exact H2|exact H3|..]; vm_compute in H1; injection H1 as <-; [reflexivity|].
    vm_compute in H2. injection H2 as <-. reflexivity.
Defined.

(** Undoing a return puts the address back, but not its place in the count of
    used entries: of the stack's contents the deepest entry is gone. *)
Theorem squashed_return_uncounted s : ReturnAddrStack.wf s -> 0 < ReturnAddrStack.usedEntries s ->
  exists a s', ReturnAddrStack.top s = Ok a /\
    ReturnAddrStack.restore (ReturnAddrStack.pop s) (ReturnAddrStack.topIdx s) a = Ok s' /\
    ReturnAddrStack.usedEntries s' = ReturnAddrStack.usedEntries s - 1 /\
    ReturnAddrStack.contents s' = take (Z.to_nat (ReturnAddrStack.usedEntries s - 1)) (ReturnAddrStack.contents s).
Proof.
  intros Hs Hu. destruct (ReturnAddrStack.pop_ok s Hs) as (Hp & _ & _ & _ & Eu).
  destruct (undo_return 0 s (ReturnAddrStack.pop s) Hs ltac:(lia) (agree_refl _ Hp)) as (s' & Hr & [Hw _ En _ Ee] & Eus).
  exists (ReturnAddrStack.entry s 0), s'. split; [by apply ReturnAddrStack.top_entry|]. split; [done|].
  assert (ReturnAddrStack.usedEntries s' = ReturnAddrStack.usedEntries s - 1) as E by lia. split; [done|].
  pose proof (ReturnAddrStack.wf_used s Hs). apply list_eq. intros i. rewrite ReturnAddrStack.contents_lookup, E by done.
  destruct (decide (Z.of_nat i < ReturnAddrStack.usedEntries s - 1)).
  - rewrite lookup_take_lt, ReturnAddrStack.contents_lookup, decide_True by (done || lia). f_equal. apply Ee. lia.
  - by rewrite lookup_take_ge by lia.
Qed.

Lemma squashed_return_uncounted_witness : exists a s',
  ReturnAddrStack.restore (ReturnAddrStack.pop (ReturnAddrStack.mk [0; 4] 2 1 1)) 1 a = Ok s' /\
  ReturnAddrStack.contents (ReturnAddrStack.mk [0; 4] 2 1 1) = [4] /\ ReturnAddrStack.contents s' = [].
Proof.
  destruct (squashed_return_uncounted (ReturnAddrStack.mk [0; 4] 2 1 1)) as (a & s' & _ & H1 & _ & H2).
  - split; vm_compute; split || idtac; congruence.
  - reflexivity.
  - exists a, s'. split; [exact H1|]. split; [reflexivity|exact H2].
Defined.

(** No prediction, commit or squash faults: on a well-formed unit every
    operation on an existing thread returns, with a well-formed unit that has
    the same threads. *)
Theorem bpred_total u thread :
  wf u -> 0 <= thread < Z.of_nat (length (RAS u)) ->
  (forall g ras_step inst pc, exists taken target u',
     predict g ras_step u inst pc thread = Ok (taken, target, u') /\ wf u' /\
     length (RAS u') = length (RAS u)) /\
  (forall sn, exists u', update u sn thread = Ok u' /\ wf u' /\ length (RAS u') = length (RAS u)) /\
  (forall sn, exists u', squash u sn thread = Ok u' /\ wf u' /\ length (RAS u') = length (RAS u)).
Proof.
  intros Hu Ht. split_and!.
  - intros g ras_step inst pc.
    destruct (predict_ok g ras_step u inst pc thread Hu Ht)
      as (taken & target & u' & rec & s & s' & hist & Hp & Hu' & _ & _ & _ & ER & _).
    exists taken, target, u'. split_and!; [done|done|]. by rewrite ER, length_insert.
  - intros sn. destruct (update_total u sn thread Hu Ht) as (u' & H1 & H2 & H3 & _).
    exists u'. by rewrite H3.
  - intros sn. destruct (squash_total u sn thread Hu Ht) as (u' & H1 & H2 & H3 & _). by exists u'.
Qed.

Lemma bpred_total_witness : exists u', squash small_unit 3 0 = Ok u' /\ wf u' /\
  length (RAS u') = length (RAS small_unit).
Proof.
  apply (bpred_total small_unit 0).
  - exact small_unit_wf.
  - vm_compute. split; congruence.
Defined.

(** The tournament constructor takes the counter width and the history
    width in the opposite order from its declaration and its callers: the
    global history has as many bits as the parameters ask for counters (2 by
    default, instead of 13), so whatever is predicted, committed or squashed it
    stays below [2^globalCtrBits] and the rest of the global and choice tables
    is never used. *)
Theorem tournament_widths_swapped n gc gb p u u' :
  p_tournament p = true -> params_ok p -> new n gc gb p = Ok u -> rtc step u u' ->
  exists b b', bp u = Tournament b /\ bp u' = Tournament b' /\
    TournamentBP.globalHistoryBits b = p_globalCtrBits p /\
    TournamentBP.globalCtrBits b = p_globalHistoryBits p /\
    0 <= TournamentBP.globalHistory b' < 2 ^ p_globalCtrBits p.
Proof.
  intros Ep Hp Hn Hs. pose proof (new_unit_wf n gc gb p u Ep Hp Hn) as Hu.
  destruct (new_tournament n gc gb p u Ep Hn) as (b & Eb & _ & _ & _ & Hb).
  pose proof Hp as [? ? ? ? ? ? ?]. destruct (steps_wf u u' Hu Hs) as [Hu' Hm].
  pose proof Hb as Hb0. apply TournamentBP.tournament_new_wf in Hb0 as (Hbw & _ & Emask); [|done..].
  rewrite Eb in Hm. destruct (same_mask_tournament b (bp u') Hbw (wf_bp u' Hu') Hm) as (b' & Eb' & Em).
  exists b, b'. split; [done|]. split; [done|].
  unfold TournamentBP.new in Hb. split.
  { repeat (case_match; [done|]). apply res_bind_Ok in Hb as (? & _ & Hb).
    repeat (case_match; [done|]). by injection Hb as <-. }
  split.
  { repeat (case_match; [done|]). apply res_bind_Ok in Hb as (? & _ & Hb).
    repeat (case_match; [done|]). by injection Hb as <-. }
  pose proof (wf_bp u' Hu') as Hb'. rewrite Eb' in Hb'. simpl in Hb'.
  pose proof (TournamentBP.wf_ghist b' Hb'). lia.
Qed.

Lemma O3_params_ok : params_ok O3_params.
Proof. split; vm_compute; split || idtac; congruence. Qed.

Lemma small_unit_new : new 1 0 0 small_params = Ok small_unit.
Proof. vm_compute. reflexivity. Qed.

Lemma tournament_widths_swapped_witness :
  p_globalHistoryBits small_params = 4 /\ p_globalCtrBits small_params = 2 /\
  exists b b', bp small_unit = Tournament b /\ bp small_unit = Tournament b' /\
    TournamentBP.globalHistoryBits b = 2 /\ TournamentBP.globalCtrBits b = 4 /\
    0 <= TournamentBP.globalHistory b' < 4.
Proof.
  split; [reflexivity|]. split; [reflexivity|].
  apply (tournament_widths_swapped 1 0 0 small_params small_unit small_unit).
  - reflexivity.
  - split; vm_compute; split || idtac; congruence.
  - exact small_unit_new.
  - apply rtc_refl.
Defined.

(** After a misprediction is corrected, the tournament predictor's global
    history still ends in the predicted direction, not the actual one: only
    the younger branches' history bits are undone. *)
Theorem mispredict_keeps_predicted_bit g ras_step u b inst pc thread u' target taken u'' actual :
  wf u -> 0 <= thread < Z.of_nat (length (RAS u)) -> bp u = Tournament b ->
  isUncondCtrl inst = false ->
  predict g ras_step u inst pc thread = Ok (taken, target, u') ->
  squash_correct u' (i_seqNum inst) target actual thread = Ok u'' ->
  exists dir h b'', TournamentBP.lookup b pc = Ok (dir, h, TournamentBP.shift_history b dir) /\
    bp u'' = Tournament b'' /\
    TournamentBP.globalHistory b'' = TournamentBP.globalHistory (TournamentBP.shift_history b dir).
Proof.
  intros Hu Ht Eb Hi Hp Hc.
  destruct (predict_ok g ras_step u inst pc thread Hu Ht)
    as (tk & tg & u1 & rec & s & s' & hist & Hp' & Hu1 & Hs & Hh & EB & ER & EH & Hq & HPC & Hd & _).
  rewrite Hp in Hp'. injection Hp' as <- <- <-.
  pose proof (wf_bp u Hu) as Hbw. rewrite Eb in Hbw, Hd. simpl in Hbw.
  destruct (TournamentBP.lookup_ok b pc Hbw) as (dir & h & Hl & _). exists dir, h.
  unfold direction in Hd. rewrite Hi in Hd. cbn [BPLookup] in Hd. rewrite Hl in Hd.
  revert Hd. bind_step. intros [= E1 E2 E3].
  pose proof (Forall2_length _ _ _ (wf_threads u Hu)) as Hlen.
  assert (Hs' : vget (RAS u') thread = Ok s') by (rewrite ER; apply vget_insert_eq; lia).
  assert (Hh' : vget (predHist u') thread = Ok (rec :: hist)) by (rewrite EH; apply vget_insert_eq; lia).
  unfold squash_correct, squash in Hc. rewrite Hh', Hs', !bind_Ok in Hc. cbn [squash_loop] in Hc.
  rewrite Hq, Z.gtb_ltb, Z.ltb_irrefl in Hc. rewrite !bind_Ok in Hc. cbn beta iota in Hc.
  rewrite !vset_lt in Hc by (rewrite ?ER, ?EH, length_insert; lia).
  rewrite !bind_Ok in Hc. cbn [predHist bp BTB RAS] in Hc.
  rewrite vget_insert_eq in Hc by (rewrite EH, length_insert; lia).
  rewrite bind_Ok in Hc. cbn beta iota in Hc. rewrite Hq, Z.eqb_refl in Hc. cbn [c_assert] in Hc.
  rewrite bind_Ok, <- E3 in Hc. cbn [BPUpdate] in Hc.
  pose proof (TournamentBP.shift_history_wf b dir Hbw) as Hsw.
  destruct (TournamentBP.update_ok _ (PC rec) actual (bpHistory rec) Hsw) as (b'' & Hub & _ & Hg & _).
  rewrite Hub, !bind_Ok in Hc. inv_res. exists b''. split_and!; [done|done|exact Hg].
Qed.

Lemma mispredict_keeps_predicted_bit_witness :
  exists u' u'' : t,
    predict false 4 small_unit (mkInst 5 false false false) 100 0 = Ok (false, 100, u') /\
    squash_correct u' 5 100 true 0 = Ok u'' /\
    exists b'', bp u'' = Tournament b'' /\ TournamentBP.globalHistory b'' = 0.
Proof.
  destruct (predict false 4 small_unit (mkInst 5 false false false) 100 0)
    as [[[tk tg] u']|] eqn:Hp; [|vm_compute in Hp; discriminate Hp].
  destruct (squash_correct u' 5 100 true 0) as [u''|] eqn:Hs.
  2:{ vm_compute in Hp. injection Hp as <- <- <-. vm_compute in Hs. discriminate Hs. }
  exists u', u''.
  assert (tk = false /\ tg = 100) as [-> ->]
    by (vm_compute in Hp; injection Hp as <- <- <-; split; reflexivity).
  split_and!; [reflexivity|exact Hs|].
  destruct (mispredict_keeps_predicted_bit false 4 small_unit
    (match bp small_unit with Tournament b => b | Local _ => TournamentBP.mk [] 0 0 0 [] 0 0 0 [] 0 0 0 0 0 [] 0 0 0 0 end)
    (mkInst 5 false false false) 100 0 u' 100 false u'' true) as (dir & h & b'' & Hl & Hb & Hg).
  - exact small_unit_wf.
  - vm_compute. split; congruence.
  - vm_compute. reflexivity.
  - reflexivity.
  - exact Hp.
  - exact Hs.
  - exists b''. split; [exact Hb|]. rewrite Hg. vm_compute in Hl. injection Hl as <- _. reflexivity.
Defined.
