(* ===== verification/Request.v ===== *)
(** * Memory requests

    [src/mem/request.hh]: the object that travels from a requester to its
    final destination.  Flags are unsigned integers combined bitwise; a field
    whose validity flag is clear holds whatever the storage held. *)
From S2P Require Import Prelude EventQueue.

Module Request.
Import EvQ(isSet, noneSet, set).

(** Public flags. *)
Definition ASI_BITS := 0x000000FF.
Definition INST_FETCH := 0x00000100.
Definition PHYSICAL := 0x00000200.
Definition VPTE := 0x00000400.
Definition ALTMODE := 0x00000800.
Definition UNCACHEABLE := 0x00001000.
Definition MMAPED_IPR := 0x00002000.
Definition NO_ALIGN_FAULT := 0x00020000.
Definition NO_HALF_WORD_ALIGN_FAULT := 0x00040000.
Definition NO_ACCESS := 0x00080000.
Definition LOCKED := 0x00100000.
Definition LLSC := 0x00200000.
Definition MEM_SWAP := 0x00400000.
Definition MEM_SWAP_COND := 0x00800000.
Definition PREFETCH := 0x01000000.
Definition PF_EXCLUSIVE := 0x02000000.
Definition EVICT_NEXT := 0x04000000.
Definition STICKY_FLAGS := INST_FETCH.

(** Validity flags. *)
Definition VALID_SIZE := 0x01.
Definition VALID_PADDR := 0x02.
Definition VALID_VADDR := 0x04.
Definition VALID_PC := 0x10.
Definition VALID_CONTEXT_ID := 0x20.
Definition VALID_THREAD_ID := 0x40.
Definition VALID_EXTRA_DATA := 0x80.
Definition STICKY_PRIVATE_FLAGS := Z.lor VALID_CONTEXT_ID VALID_THREAD_ID.

Record t := mk {
  _paddr : Z;
  _size : Z;
  _flags : Z;
  privateFlags : Z;
  _time : Z;
  _asid : Z;
  _vaddr : Z;
  _extraData : Z;
  _contextId : Z;
  _threadId : Z;
  _pc : Z
}.

(** [Request()]: the flags are cleared by their own constructor, the other
    fields are those of the storage [g]. *)
Definition new (g : t) : t :=
  mk (_paddr g) (_size g) 0 0 (_time g) (_asid g) (_vaddr g) (_extraData g)
     (_contextId g) (_threadId g) (_pc g).

Definition setThreadContext (r : t) (context_id tid : Z) : t :=
  mk (_paddr r) (_size r) (_flags r)
     (set (privateFlags r) (Z.lor VALID_CONTEXT_ID VALID_THREAD_ID))
     (_time r) (_asid r) (_vaddr r) (_extraData r) context_id tid (_pc r).

(** [f.clear(~keep)]: the argument is converted to the flags' type, and only
    the bits of [keep] survive. *)
Definition clear_but (w f keep : Z) : Z := Z.land f (uint w (Z.lnot (uint w (Z.lnot keep)))).

Definition setPhys (r : t) (paddr size flags time : Z) : res t :=
  _ ← c_assert (0 <=? size);
  Ok (mk paddr size (set (clear_but 32 (_flags r) STICKY_FLAGS) flags)
         (set (clear_but 8 (privateFlags r) STICKY_PRIVATE_FLAGS) (Z.lor VALID_PADDR VALID_SIZE))
         time (_asid r) (_vaddr r) (_extraData r) (_contextId r) (_threadId r) (_pc r)).
Definition setPhys_now (curTick : Z) (r : t) (paddr size flags : Z) : res t :=
  setPhys r paddr size flags curTick.

Definition setVirt (curTick : Z) (r : t) (asid vaddr size flags pc : Z) : res t :=
  _ ← c_assert (0 <=? size);
  Ok (mk (_paddr r) size (set (clear_but 32 (_flags r) STICKY_FLAGS) flags)
         (set (clear_but 8 (privateFlags r) STICKY_PRIVATE_FLAGS)
              (Z.lor VALID_VADDR (Z.lor VALID_SIZE VALID_PC)))
         curTick asid vaddr (_extraData r) (_contextId r) (_threadId r) pc).

(** The other constructors. *)
Definition new_phys (curTick : Z) (g : t) (paddr size flags : Z) : res t :=
  setPhys_now curTick (new g) paddr size flags.
Definition new_phys_time (g : t) (paddr size flags time : Z) : res t :=
  setPhys (new g) paddr size flags time.
Definition new_phys_pc (g : t) (paddr size flags time pc : Z) : res t :=
  r ← setPhys (new g) paddr size flags time;
  Ok (mk (_paddr r) (_size r) (_flags r) (set (privateFlags r) VALID_PC) (_time r) (_asid r)
         (_vaddr r) (_extraData r) (_contextId r) (_threadId r) pc).
Definition new_virt (curTick : Z) (g : t) (asid vaddr size flags pc cid tid : Z) : res t :=
  r ← setVirt curTick (new g) asid vaddr size flags pc;
  Ok (setThreadContext r cid tid).

Definition setPaddr (r : t) (paddr : Z) : res t :=
  _ ← c_assert (isSet (privateFlags r) VALID_VADDR);
  Ok (mk paddr (_size r) (_flags r) (set (privateFlags r) VALID_PADDR) (_time r) (_asid r)
         (_vaddr r) (_extraData r) (_contextId r) (_threadId r) (_pc r)).

Definition set_range (r : t) (vaddr size : Z) : t :=
  mk (_paddr r) size (_flags r) (privateFlags r) (_time r) (_asid r) vaddr
     (_extraData r) (_contextId r) (_threadId r) (_pc r).

(** [splitOnVaddr(split_addr, req1, req2)]; addresses are 64 bits wide and
    sizes [int]. *)
Definition splitOnVaddr (r : t) (split_addr : Z) : res (t * t) :=
  _ ← c_assert (isSet (privateFlags r) VALID_VADDR);
  _ ← c_assert (noneSet (privateFlags r) VALID_PADDR);
  _ ← c_assert ((split_addr >? _vaddr r) && (split_addr <? uint 64 (_vaddr r + uint 64 (_size r))));
  let size1 := sint 32 (uint 64 (split_addr - _vaddr r)) in
  Ok (set_range r (_vaddr r) size1, set_range r split_addr (_size r - size1)).

Definition hasPaddr (r : t) : bool := isSet (privateFlags r) VALID_PADDR.
Definition getPaddr (r : t) : res Z :=
  _ ← c_assert (isSet (privateFlags r) VALID_PADDR); Ok (_paddr r).
Definition hasSize (r : t) : bool := isSet (privateFlags r) VALID_SIZE.
Definition getSize (r : t) : res Z :=
  _ ← c_assert (isSet (privateFlags r) VALID_SIZE); Ok (_size r).
Definition time (r : t) : res Z :=
  _ ← c_assert (isSet (privateFlags r) (Z.lor VALID_PADDR VALID_VADDR)); Ok (_time r).
Definition set_time (r : t) (tm : Z) : res t :=
  _ ← c_assert (isSet (privateFlags r) (Z.lor VALID_PADDR VALID_VADDR));
  Ok (mk (_paddr r) (_size r) (_flags r) (privateFlags r) tm (_asid r) (_vaddr r)
         (_extraData r) (_contextId r) (_threadId r) (_pc r)).
Definition getFlags (r : t) : res Z :=
  _ ← c_assert (isSet (privateFlags r) (Z.lor VALID_PADDR VALID_VADDR)); Ok (_flags r).
Definition setFlags (r : t) (flags : Z) : res t :=
  _ ← c_assert (isSet (privateFlags r) (Z.lor VALID_PADDR VALID_VADDR));
  Ok (mk (_paddr r) (_size r) (set (_flags r) flags) (privateFlags r) (_time r) (_asid r) (_vaddr r)
         (_extraData r) (_contextId r) (_threadId r) (_pc r)).
Definition getVaddr (r : t) : res Z :=
  _ ← c_assert (isSet (privateFlags r) VALID_VADDR); Ok (_vaddr r).
Definition getAsid (r : t) : res Z :=
  _ ← c_assert (isSet (privateFlags r) VALID_VADDR); Ok (_asid r).
Definition getAsi (r : t) : res Z :=
  _ ← c_assert (isSet (privateFlags r) VALID_VADDR); Ok (Z.land (_flags r) ASI_BITS).
Definition extraDataValid (r : t) : bool := isSet (privateFlags r) VALID_EXTRA_DATA.
Definition getExtraData (r : t) : res Z :=
  _ ← c_assert (isSet (privateFlags r) VALID_EXTRA_DATA); Ok (_extraData r).
Definition setExtraData (r : t) (extraData : Z) : t :=
  mk (_paddr r) (_size r) (_flags r) (set (privateFlags r) VALID_EXTRA_DATA) (_time r) (_asid r)
     (_vaddr r) extraData (_contextId r) (_threadId r) (_pc r).
Definition hasContextId (r : t) : bool := isSet (privateFlags r) VALID_CONTEXT_ID.
Definition contextId (r : t) : res Z :=
  _ ← c_assert (isSet (privateFlags r) VALID_CONTEXT_ID); Ok (_contextId r).
Definition threadId (r : t) : res Z :=
  _ ← c_assert (isSet (privateFlags r) VALID_THREAD_ID); Ok (_threadId r).
Definition hasPC (r : t) : bool := isSet (privateFlags r) VALID_PC.
Definition getPC (r : t) : res Z :=
  _ ← c_assert (isSet (privateFlags r) VALID_PC); Ok (_pc r).

Definition isUncacheable (r : t) : bool := isSet (_flags r) UNCACHEABLE.
Definition isInstFetch (r : t) : bool := isSet (_flags r) INST_FETCH.
Definition isPrefetch (r : t) : bool := isSet (_flags r) PREFETCH.
Definition isLLSC (r : t) : bool := isSet (_flags r) LLSC.
Definition isLocked (r : t) : bool := isSet (_flags r) LOCKED.
Definition isSwap (r : t) : bool := isSet (_flags r) (Z.lor MEM_SWAP MEM_SWAP_COND).
Definition isCondSwap (r : t) : bool := isSet (_flags r) MEM_SWAP_COND.
Definition isMmapedIpr (r : t) : bool := isSet (_flags r) MMAPED_IPR.

Definition isMisaligned (r : t) : bool :=
  if isSet (_flags r) NO_ALIGN_FAULT then false
  else if negb (Z.land (_vaddr r) 0x1 =? 0) then true
  else if isSet (_flags r) NO_HALF_WORD_ALIGN_FAULT then false
  else if negb (Z.land (_vaddr r) 0x2 =? 0) then true
  else false.

(** ** Flags by their bits *)
Lemma isSet_set_bits f a b : isSet (set f a) b = isSet f b || isSet a b.
Proof.
  unfold isSet, set. rewrite Z.land_lor_distr_l, <- negb_andb. f_equal.
  destruct (Z.eqb_spec (Z.land f b) 0) as [->|Hf]; cbn [andb]; [by rewrite Z.lor_0_l|].
  destruct (Z.eqb_spec (Z.lor (Z.land f b) (Z.land a b)) 0) as [E|]; [|done].
  apply Z.lor_eq_0_iff in E as [E _]. done.
Qed.

Lemma isSet_clear_but w f keep b : 0 <= w -> 0 <= f < 2 ^ w -> 0 <= keep < 2 ^ w ->
  isSet (clear_but w f keep) b = isSet f (Z.land keep b).
Proof.
  intros Hw Hf Hk. unfold isSet, clear_but. do 2 f_equal. apply Z.bits_inj'. intros i Hi.
  assert (Hu : forall x, Z.testbit (uint w x) i = (i <? w) && Z.testbit x i).
  { intros x. unfold uint. destruct (Z.ltb_spec i w).
    - by rewrite Z.mod_pow2_bits_low.
    - by rewrite Z.mod_pow2_bits_high. }
  rewrite !Z.land_spec, Hu, Z.lnot_spec, Hu, Z.lnot_spec by done.
  destruct (Z.ltb_spec i w); cbn [andb negb].
  - rewrite negb_involutive. by rewrite andb_assoc.
  - rewrite <- (uint_small w f), <- (uint_small w keep), !Hu by done.
    replace (i <? w) with false by lia. by destruct (Z.testbit b i).
Qed.
End Request.
