(* ===== verification/Packet.v ===== *)
(** * Packets

    [src/mem/packet.hh], [src/mem/packet.cc] and [src/mem/packet_access.hh]:
    the commands and their attributes (Module [MemCmd]), and the packets that
    carry a command and data between two objects of the memory system (Module
    [Packet]).  Data lives in byte arrays addressed by pointers (Module
    [Bytes]), so that a packet shares, owns or lacks its data as in the code. *)
From S2P Require Import Prelude EventQueue IntMath Request.

(** ** Byte arrays *)
Module Bytes.

(** Memory: arrays of bytes; a pointer is an array and an offset into it. *)
Abbreviation mem := (gmap positive (list Z)).
Abbreviation ptr := (positive * Z)%type.

Definition shift (p : ptr) (d : Z) : ptr := (p.1, p.2 + d).

Definition read (m : mem) (p : ptr) (n : Z) : res (list Z) :=
  b ← deref (m !! p.1);
  if (0 <=? p.2) && (0 <=? n) && (p.2 + n <=? Z.of_nat (length b))
  then Ok (take (Z.to_nat n) (drop (Z.to_nat p.2) b)) else Er OutOfRange.
Definition write (m : mem) (p : ptr) (l : list Z) : res mem :=
  b ← deref (m !! p.1);
  let o := Z.to_nat p.2 in
  if (0 <=? p.2) && (o + length l <=? length b)%nat
  then Ok (<[p.1 := take o b ++ l ++ drop (o + length l) b]> m) else Er OutOfRange.
(** [memcpy(dst, src, n)]. *)
Definition memcpy (m : mem) (dst src : option ptr) (n : Z) : res mem :=
  s ← deref src; d ← deref dst; l ← read m s n; write m d l.
(** [delete[] p] and [delete p]. *)
Definition free (m : mem) (p : option ptr) : res mem :=
  match p with
  | None => Ok m
  | Some (b, o) =>
      if (o =? 0) && bool_decide (is_Some (m !! b)) then Ok (delete b m) else Er BadPointer
  end.

(** The byte at offset [i] of an array. *)
Definition byte (m : mem) (b : positive) (i : Z) : option Z :=
  l ← m !! b; if 0 <=? i then l !! Z.to_nat i else None.

Lemma take_drop_lookup {A} (l : list A) o n i :
  take n (drop o l) !! i = if decide (i < n)%nat then l !! (o + i)%nat else None.
Proof.
  destruct (decide (i < n)%nat).
  - rewrite lookup_take_lt by done. apply lookup_drop.
  - apply lookup_take_ge. lia.
Qed.

Lemma splice_lookup {A} (b l : list A) o i : (o + length l <= length b)%nat ->
  (take o b ++ l ++ drop (o + length l) b) !! i =
    if decide (o <= i < o + length l)%nat then l !! (i - o)%nat else b !! i.
Proof.
  intros Hlen. assert (Ht : length (take o b) = o) by (rewrite length_take; lia).
  destruct (decide (i < o)%nat).
  - rewrite lookup_app_l by lia. rewrite lookup_take_lt by done. by rewrite decide_False by lia.
  - rewrite lookup_app_r by lia. rewrite Ht. destruct (decide (i < o + length l)%nat).
    + rewrite decide_True by lia. by rewrite lookup_app_l by lia.
    + rewrite decide_False by lia. rewrite lookup_app_r by lia. rewrite lookup_drop. f_equal. lia.
Qed.

(** A copy between two arrays: the bytes of the target. *)
Lemma memcpy_ok m db doff sb soff n bd bs :
  m !! db = Some bd -> m !! sb = Some bs -> 0 <= n ->
  0 <= doff -> doff + n <= Z.of_nat (length bd) -> 0 <= soff -> soff + n <= Z.of_nat (length bs) ->
  exists bd', memcpy m (Some (db, doff)) (Some (sb, soff)) n = Ok (<[db := bd']> m) /\
    length bd' = length bd /\
    forall i, 0 <= i -> bd' !! Z.to_nat i =
      if decide (doff <= i < doff + n) then bs !! Z.to_nat (i - doff + soff) else bd !! Z.to_nat i.
Proof.
  intros Hd Hs Hn H1 H2 H3 H4. set (l := take (Z.to_nat n) (drop (Z.to_nat soff) bs)).
  assert (Hl : length l = Z.to_nat n) by (unfold l; rewrite length_take, length_drop; lia).
  exists (take (Z.to_nat doff) bd ++ l ++ drop (Z.to_nat doff + length l) bd). split_and!.
  - unfold memcpy. cbn [deref]. rewrite !bind_Ok. unfold read. cbn [fst snd]. rewrite Hs. cbn [deref]. bind_step.
    replace ((0 <=? soff) && (0 <=? n) && (soff + n <=? Z.of_nat (length bs))) with true by lia. bind_step.
    fold l. unfold write. cbn [fst snd]. rewrite Hd. cbn [deref]. bind_step.
    replace ((0 <=? doff) && (Z.to_nat doff + length l <=? length bd)%nat) with true; [done|].
    symmetry. apply andb_true_iff. split; [lia|]. apply Nat.leb_le. lia.
  - rewrite !length_app, length_take, length_drop. lia.
  - intros i Hi. rewrite splice_lookup by lia. rewrite Hl.
    destruct (decide (doff <= i < doff + n)).
    + rewrite decide_True by lia. unfold l. rewrite take_drop_lookup, decide_True by lia. f_equal. lia.
    + by rewrite decide_False by lia.
Qed.
End Bytes.

(** ** Commands *)
Module MemCmd.

Inductive Command :=
| InvalidCmd | ReadReq | ReadResp | ReadRespWithInvalidate | WriteReq | WriteResp
| Writeback | SoftPFReq | HardPFReq | SoftPFResp | HardPFResp | WriteInvalidateReq
| WriteInvalidateResp | UpgradeReq | UpgradeResp | ReadExReq | ReadExResp
| LoadLockedReq | StoreCondReq | StoreCondResp | SwapReq | SwapResp | MessageReq
| MessageResp | NetworkNackError | InvalidDestError | BadAddressError | PrintReq.

#[global] Instance Command_eq_dec : EqDecision Command.
Proof. solve_decision. Defined.

Inductive Attribute :=
| IsRead | IsWrite | IsPrefetch | IsInvalidate | NeedsExclusive | IsRequest | IsResponse
| NeedsResponse | IsSWPrefetch | IsHWPrefetch | IsLlsc | HasData | IsError | IsPrint.

(** The position of an attribute in the enumeration. *)
Definition attr (a : Attribute) : Z :=
  match a with
  | IsRead => 0 | IsWrite => 1 | IsPrefetch => 2 | IsInvalidate => 3 | NeedsExclusive => 4
  | IsRequest => 5 | IsResponse => 6 | NeedsResponse => 7 | IsSWPrefetch => 8
  | IsHWPrefetch => 9 | IsLlsc => 10 | HasData => 11 | IsError => 12 | IsPrint => 13
  end.
(** [SET1] ... [SET6]. *)
Definition SET (l : list Attribute) : Z := foldr (fun a s => Z.lor (Z.shiftl 1 (attr a)) s) 0 l.

Record CommandInfo := info { attributes : Z; response : Command; str : string }.

Definition commandInfo (c : Command) : CommandInfo :=
  match c with
  | InvalidCmd => info 0 InvalidCmd "InvalidCmd"
  | ReadReq => info (SET [IsRead; IsRequest; NeedsResponse]) ReadResp "ReadReq"
  | ReadResp => info (SET [IsRead; IsResponse; HasData]) InvalidCmd "ReadResp"
  | ReadRespWithInvalidate =>
      info (SET [IsRead; IsResponse; HasData; IsInvalidate]) InvalidCmd "ReadRespWithInvalidate"
  | WriteReq =>
      info (SET [IsWrite; NeedsExclusive; IsRequest; NeedsResponse; HasData]) WriteResp "WriteReq"
  | WriteResp => info (SET [IsWrite; NeedsExclusive; IsResponse]) InvalidCmd "WriteResp"
  | Writeback => info (SET [IsWrite; NeedsExclusive; IsRequest; HasData]) InvalidCmd "Writeback"
  | SoftPFReq => info (SET [IsRead; IsRequest; IsSWPrefetch; NeedsResponse]) SoftPFResp "SoftPFReq"
  | HardPFReq => info (SET [IsRead; IsRequest; IsHWPrefetch; NeedsResponse]) HardPFResp "HardPFReq"
  | SoftPFResp => info (SET [IsRead; IsResponse; IsSWPrefetch; HasData]) InvalidCmd "SoftPFResp"
  | HardPFResp => info (SET [IsRead; IsResponse; IsHWPrefetch; HasData]) InvalidCmd "HardPFResp"
  | WriteInvalidateReq =>
      info (SET [IsWrite; NeedsExclusive; IsInvalidate; IsRequest; HasData; NeedsResponse])
           WriteInvalidateResp "WriteInvalidateReq"
  | WriteInvalidateResp =>
      info (SET [IsWrite; NeedsExclusive; IsResponse]) InvalidCmd "WriteInvalidateResp"
  | UpgradeReq =>
      info (SET [IsInvalidate; NeedsExclusive; IsRequest; NeedsResponse]) UpgradeResp "UpgradeReq"
  | UpgradeResp => info (SET [NeedsExclusive; IsResponse]) InvalidCmd "UpgradeResp"
  | ReadExReq =>
      info (SET [IsRead; NeedsExclusive; IsInvalidate; IsRequest; NeedsResponse]) ReadExResp "ReadExReq"
  | ReadExResp => info (SET [IsRead; NeedsExclusive; IsResponse; HasData]) InvalidCmd "ReadExResp"
  | LoadLockedReq => info (SET [IsRead; IsLlsc; IsRequest; NeedsResponse]) ReadResp "LoadLockedReq"
  | StoreCondReq =>
      info (SET [IsWrite; NeedsExclusive; IsLlsc; IsRequest; NeedsResponse; HasData])
           StoreCondResp "StoreCondReq"
  | StoreCondResp => info (SET [IsWrite; NeedsExclusive; IsLlsc; IsResponse]) InvalidCmd "StoreCondResp"
  | SwapReq =>
      info (SET [IsRead; IsWrite; NeedsExclusive; IsRequest; HasData; NeedsResponse]) SwapResp "SwapReq"
  | SwapResp => info (SET [IsRead; IsWrite; NeedsExclusive; IsResponse; HasData]) InvalidCmd "SwapResp"
  | MessageReq => info (SET [IsWrite; IsRequest; NeedsResponse; HasData]) MessageResp "MessageReq"
  | MessageResp => info (SET [IsWrite; IsResponse]) InvalidCmd "MessageResp"
  | NetworkNackError => info (SET [IsResponse; IsError]) InvalidCmd "NetworkNackError"
  | InvalidDestError => info (SET [IsResponse; IsError]) InvalidCmd "InvalidDestError"
  | BadAddressError => info (SET [IsResponse; IsError]) InvalidCmd "BadAddressError"
  | PrintReq => info (SET [IsRequest; IsPrint]) InvalidCmd "PrintReq"
  end.

Definition testCmdAttrib (c : Command) (a : Attribute) : bool :=
  Z.testbit (attributes (commandInfo c)) (attr a).

Definition isRead (c : Command) : bool := testCmdAttrib c IsRead.
Definition isWrite (c : Command) : bool := testCmdAttrib c IsWrite.
Definition isRequest (c : Command) : bool := testCmdAttrib c IsRequest.
Definition isResponse (c : Command) : bool := testCmdAttrib c IsResponse.
Definition needsExclusive (c : Command) : bool := testCmdAttrib c NeedsExclusive.
Definition needsResponse (c : Command) : bool := testCmdAttrib c NeedsResponse.
Definition isInvalidate (c : Command) : bool := testCmdAttrib c IsInvalidate.
Definition hasData (c : Command) : bool := testCmdAttrib c HasData.
Definition isReadWrite (c : Command) : bool := isRead c && isWrite c.
Definition isLLSC (c : Command) : bool := testCmdAttrib c IsLlsc.
Definition isError (c : Command) : bool := testCmdAttrib c IsError.
Definition isPrint (c : Command) : bool := testCmdAttrib c IsPrint.
Definition responseCommand (c : Command) : Command := response (commandInfo c).
Definition toString (c : Command) : string := str (commandInfo c).
End MemCmd.

(** ** Packets *)
Module Packet.
Import EvQ(isSet, noneSet, clear, set).
Import MemCmd(Command).

Definition PUBLIC_FLAGS := 0x00000000.
Definition PRIVATE_FLAGS := 0x00007F0F.
Definition COPY_FLAGS := 0x0000000F.
Definition SHARED := 0x00000001.
Definition EXPRESS_SNOOP := 0x00000002.
Definition SUPPLY_EXCLUSIVE := 0x00000004.
Definition MEM_INHIBIT := 0x00000008.
Definition VALID_ADDR := 0x00000100.
Definition VALID_SIZE := 0x00000200.
Definition VALID_SRC := 0x00000400.
Definition VALID_DST := 0x00000800.
Definition STATIC_DATA := 0x00001000.
Definition DYNAMIC_DATA := 0x00002000.
Definition ARRAY_DATA := 0x00004000.
Definition Broadcast := -1.

(** [senderState] is the sender's own, an opaque reference. *)
Record t := mk {
  flags : Z;
  cmd : Command;
  req : Request.t;
  data : option Bytes.ptr;
  addr : Z;
  size : Z;
  src : Z;
  dest : Z;
  origCmd : Command;
  time : Z;
  finishTime : Z;
  firstWordTime : Z;
  senderState : option Z
}.

Definition set_flags (p : t) (f : Z) : t :=
  mk f (cmd p) (req p) (data p) (addr p) (size p) (src p) (dest p) (origCmd p) (time p)
     (finishTime p) (firstWordTime p) (senderState p).
Definition set_cmd (p : t) (c o : Command) : t :=
  mk (flags p) c (req p) (data p) (addr p) (size p) (src p) (dest p) o (time p)
     (finishTime p) (firstWordTime p) (senderState p).
Definition set_route (p : t) (s d f : Z) : t :=
  mk f (cmd p) (req p) (data p) (addr p) (size p) s d (origCmd p) (time p)
     (finishTime p) (firstWordTime p) (senderState p).
Definition set_data (p : t) (d : option Bytes.ptr) (f : Z) : t :=
  mk f (cmd p) (req p) d (addr p) (size p) (src p) (dest p) (origCmd p) (time p)
     (finishTime p) (firstWordTime p) (senderState p).
Definition set_range (p : t) (a s tm f : Z) : t :=
  mk f (cmd p) (req p) (data p) a s (src p) (dest p) (origCmd p) tm
     (finishTime p) (firstWordTime p) (senderState p).

Definition isRead (p : t) : bool := MemCmd.isRead (cmd p).
Definition isWrite (p : t) : bool := MemCmd.isWrite (cmd p).
Definition isRequest (p : t) : bool := MemCmd.isRequest (cmd p).
Definition isResponse (p : t) : bool := MemCmd.isResponse (cmd p).
Definition needsExclusive (p : t) : bool := MemCmd.needsExclusive (cmd p).
Definition needsResponse (p : t) : bool := MemCmd.needsResponse (cmd p).
Definition isInvalidate (p : t) : bool := MemCmd.isInvalidate (cmd p).
Definition hasData (p : t) : bool := MemCmd.hasData (cmd p).
Definition isReadWrite (p : t) : bool := MemCmd.isReadWrite (cmd p).
Definition isLLSC (p : t) : bool := MemCmd.isLLSC (cmd p).
Definition isError (p : t) : bool := MemCmd.isError (cmd p).
Definition isPrint (p : t) : bool := MemCmd.isPrint (cmd p).

(** Snoop and control flags. *)
Definition assertMemInhibit (p : t) : t := set_flags p (set (flags p) MEM_INHIBIT).
Definition memInhibitAsserted (p : t) : bool := isSet (flags p) MEM_INHIBIT.
Definition assertShared (p : t) : t := set_flags p (set (flags p) SHARED).
Definition sharedAsserted (p : t) : bool := isSet (flags p) SHARED.
Definition setExpressSnoop (p : t) : t := set_flags p (set (flags p) EXPRESS_SNOOP).
Definition isExpressSnoop (p : t) : bool := isSet (flags p) EXPRESS_SNOOP.
Definition setSupplyExclusive (p : t) : t := set_flags p (set (flags p) SUPPLY_EXCLUSIVE).
Definition isSupplyExclusive (p : t) : bool := isSet (flags p) SUPPLY_EXCLUSIVE.

(** Error conditions. *)
Definition setNacked (p : t) : res t :=
  _ ← c_assert (isResponse p); Ok (set_cmd p MemCmd.NetworkNackError (origCmd p)).
Definition setBadAddress (p : t) : res t :=
  _ ← c_assert (isResponse p); Ok (set_cmd p MemCmd.BadAddressError (origCmd p)).
Definition wasNacked (p : t) : bool := bool_decide (cmd p = MemCmd.NetworkNackError).
Definition hadBadAddress (p : t) : bool := bool_decide (cmd p = MemCmd.BadAddressError).
Definition copyError (p pkt : t) : res t :=
  _ ← c_assert (isError pkt); Ok (set_cmd p (cmd pkt) (origCmd p)).

(** Routing; a [NodeID] is a short. *)
Definition isSrcValid (p : t) : bool := isSet (flags p) VALID_SRC.
Definition getSrc (p : t) : res Z := _ ← c_assert (isSet (flags p) VALID_SRC); Ok (src p).
Definition setSrc (p : t) (s : Z) : t := set_route p (sint 16 s) (dest p) (set (flags p) VALID_SRC).
Definition clearSrc (p : t) : t := set_flags p (clear (flags p) VALID_SRC).
Definition isDestValid (p : t) : bool := isSet (flags p) VALID_DST.
Definition getDest (p : t) : res Z := _ ← c_assert (isSet (flags p) VALID_DST); Ok (dest p).
Definition setDest (p : t) (d : Z) : t := set_route p (src p) (sint 16 d) (set (flags p) VALID_DST).
Definition getAddr (p : t) : res Z := _ ← c_assert (isSet (flags p) VALID_ADDR); Ok (addr p).
Definition getSize (p : t) : res Z := _ ← c_assert (isSet (flags p) VALID_SIZE); Ok (size p).
Definition getOffset (p : t) (blkSize : Z) : res Z :=
  a ← getAddr p; Ok (Z.land a (uint 64 (blkSize - 1))).

(** The constructors; [g] is the storage the packet is built in. *)
Definition new (g : t) (curTick : Z) (_req : Request.t) (_cmd : Command) (_dest : Z) : res t :=
  let p := mk VALID_DST _cmd _req None (addr g) (size g) (src g) (sint 16 _dest) MemCmd.InvalidCmd curTick
              (finishTime g) (firstWordTime g) None in
  p ← (if Request.hasPaddr _req then
         a ← Request.getPaddr _req; Ok (set_range p a (size p) (time p) (set (flags p) VALID_ADDR))
       else Ok p);
  if Request.hasSize _req then
    s ← Request.getSize _req; Ok (set_range p (addr p) (uint 32 s) (time p) (set (flags p) VALID_SIZE))
  else Ok p.
Definition new_block (g : t) (curTick : Z) (_req : Request.t) (_cmd : Command) (_dest _blkSize : Z) : res t :=
  let p := mk VALID_DST _cmd _req None (addr g) (size g) (src g) (sint 16 _dest) MemCmd.InvalidCmd curTick
              (finishTime g) (firstWordTime g) None in
  p ← (if Request.hasPaddr _req then
         a ← Request.getPaddr _req;
         Ok (set_range p (Z.land a (uint 64 (Z.lnot (_blkSize - 1)))) (size p) (time p)
                       (set (flags p) VALID_ADDR))
       else Ok p);
  Ok (set_range p (addr p) (uint 32 _blkSize) (time p) (set (flags p) VALID_SIZE)).
Definition copy (g pkt : t) (curTick : Z) (clearFlags : bool) : t :=
  let p := mk 0 (cmd pkt) (req pkt) (if isSet (flags pkt) STATIC_DATA then data pkt else None)
              (addr pkt) (size pkt) (src pkt) (dest pkt) MemCmd.InvalidCmd curTick
              (finishTime g) (firstWordTime g) (senderState pkt) in
  let p := if negb clearFlags then set_flags p (set (flags p) (Z.land (flags pkt) COPY_FLAGS)) else p in
  let p := set_flags p (set (flags p) (Z.land (flags pkt)
             (Z.lor VALID_ADDR (Z.lor VALID_SIZE (Z.lor VALID_SRC VALID_DST))))) in
  set_flags p (set (flags p) (Z.land (flags pkt) STATIC_DATA)).

(** [flags.set(f, val)]. *)
Definition set_to (fl f : Z) (val : bool) : Z := Z.lor (clear fl f) (if val then f else 0).

Definition makeResponse (p : t) : res t :=
  _ ← c_assert (needsResponse p);
  _ ← c_assert (isRequest p);
  let p := set_cmd p (MemCmd.responseCommand (cmd p)) (cmd p) in
  let p := set_route p (src p) (src p) (flags p) in
  let p := set_flags p (set_to (flags p) VALID_DST (isSet (flags p) VALID_SRC)) in
  Ok (set_flags p (clear (flags p) VALID_SRC)).
Definition makeAtomicResponse (p : t) : res t := makeResponse p.
Definition makeTimingResponse (p : t) : res t := makeResponse p.

Definition reinitNacked (p : t) : res t :=
  _ ← c_assert (wasNacked p);
  let p := set_cmd p (origCmd p) (origCmd p) in
  _ ← c_assert (needsResponse p);
  Ok (setDest p Broadcast).

Definition setSize (p : t) (s : Z) : res t :=
  _ ← c_assert (negb (isSet (flags p) VALID_SIZE));
  Ok (set_range p (addr p) s (time p) (set (flags p) VALID_SIZE)).

(** ** Data *)
Definition ANY_DATA := Z.lor STATIC_DATA (Z.lor DYNAMIC_DATA ARRAY_DATA).
Definition dataStatic (p : t) (d : option Bytes.ptr) : res t :=
  _ ← c_assert (noneSet (flags p) ANY_DATA); Ok (set_data p d (set (flags p) STATIC_DATA)).
Definition dataDynamicArray (p : t) (d : option Bytes.ptr) : res t :=
  _ ← c_assert (noneSet (flags p) ANY_DATA);
  Ok (set_data p d (set (flags p) (Z.lor DYNAMIC_DATA ARRAY_DATA))).
Definition dataDynamic (p : t) (d : option Bytes.ptr) : res t :=
  _ ← c_assert (noneSet (flags p) ANY_DATA); Ok (set_data p d (set (flags p) DYNAMIC_DATA)).
Definition getPtr (p : t) : res (option Bytes.ptr) :=
  _ ← c_assert (isSet (flags p) (Z.lor STATIC_DATA DYNAMIC_DATA)); Ok (data p).

Definition setData (m : Bytes.mem) (p : t) (s : option Bytes.ptr) : res Bytes.mem :=
  d ← getPtr p; n ← getSize p; Bytes.memcpy m d s n.
Definition setDataFromBlock (m : Bytes.mem) (p : t) (blk_data : option Bytes.ptr) (blkSize : Z) :
    res Bytes.mem :=
  o ← getOffset p blkSize; setData m p (option_map (fun q => Bytes.shift q o) blk_data).
Definition writeData (m : Bytes.mem) (p : t) (d : option Bytes.ptr) : res Bytes.mem :=
  s ← getPtr p; n ← getSize p; Bytes.memcpy m d s n.
Definition writeDataToBlock (m : Bytes.mem) (p : t) (blk_data : option Bytes.ptr) (blkSize : Z) :
    res Bytes.mem :=
  o ← getOffset p blkSize; writeData m p (option_map (fun q => Bytes.shift q o) blk_data).

Definition deleteData (m : Bytes.mem) (p : t) : res (Bytes.mem * t) :=
  m ← (if isSet (flags p) ARRAY_DATA then Bytes.free m (data p)
       else if isSet (flags p) DYNAMIC_DATA then Bytes.free m (data p)
       else Ok m);
  Ok (m, set_data p None (clear (flags p) ANY_DATA)).

(** [allocate()]; [new uint8_t[n]] returns the array [fresh], whose bytes are [garbage]. *)
Definition allocate (fresh : positive) (garbage : Z -> list Z) (m : Bytes.mem) (p : t) :
    res (Bytes.mem * t) :=
  match data p with
  | Some _ => _ ← c_assert (isSet (flags p) (Z.lor STATIC_DATA DYNAMIC_DATA)); Ok (m, p)
  | None =>
      _ ← c_assert (noneSet (flags p) (Z.lor STATIC_DATA DYNAMIC_DATA));
      let f := set (flags p) (Z.lor DYNAMIC_DATA ARRAY_DATA) in
      n ← getSize (set_flags p f);
      Ok (<[fresh := garbage n]> m, set_data p (Some (fresh, 0)) f)
  end.

(** [~Packet()] of a packet with a request: whether the request is freed too,
    and the memory left. *)
Definition destroy (m : Bytes.mem) (p : t) : res (bool * Bytes.mem) :=
  r ← deleteData m p;
  Ok (isRequest p && negb (needsResponse p), r.1).

Definition reinitFromRequest (m : Bytes.mem) (p : t) : res (Bytes.mem * t) :=
  _ ← c_assert (Request.hasPaddr (req p));
  let p := set_flags p 0 in
  a ← Request.getPaddr (req p);
  s ← Request.getSize (req p);
  tm ← Request.time (req p);
  let p := set_range p a (uint 32 s) tm (flags p) in
  let p := set_flags p (set (flags p) (Z.lor VALID_ADDR VALID_SIZE)) in
  deleteData m p.

(** [checkFunctional(obj, addr, size, data)]; printing the object goes
    through the sender's state and has no effect on the memory. *)
Definition checkFunctional (fresh : positive) (garbage : Z -> list Z) (m : Bytes.mem) (p : t)
    (vaddr vsize : Z) (vdata : option Bytes.ptr) : res (bool * Bytes.mem * t) :=
  func_start ← getAddr p;
  n ← getSize p;
  let func_end := uint 64 (func_start + n - 1) in
  let val_start := vaddr in
  let val_end := uint 64 (val_start + uint 64 vsize - 1) in
  if (func_start >? val_end) || (val_start >? func_end) then Ok (false, m, p) else
  if isPrint p then _ ← deref (senderState p); Ok (false, m, p) else
  match vdata with
  | None => Ok (false, m, p)
  | Some d =>
      let offset := sint 32 (uint 64 (func_start - val_start)) in
      if isRead p then
        if (func_start >=? val_start) && (func_end <=? val_end) then
          mp ← allocate fresh garbage m p;
          dst ← getPtr mp.2;
          n ← getSize mp.2;
          m ← Bytes.memcpy mp.1 dst (Some (Bytes.shift d offset)) n;
          p ← makeResponse mp.2;
          Ok (true, m, p)
        else Er Panic
      else if isWrite p then
        s ← getPtr p;
        if offset >=? 0 then
          m ← Bytes.memcpy m (Some (Bytes.shift d offset)) s
                (uint 64 (Z.min func_end val_end - func_start + 1));
          Ok (false, m, p)
        else
          m ← Bytes.memcpy m (Some d) (option_map (fun q => Bytes.shift q (- offset)) s)
                (uint 64 (Z.min func_end val_end - val_start + 1));
          Ok (false, m, p)
      else Er Panic
  end.
Definition checkFunctional_pkt (fresh : positive) (garbage : Z -> list Z) (m : Bytes.mem) (p other : t) :
    res (bool * Bytes.mem * t) :=
  d ← (if hasData other then getPtr other else Ok None);
  a ← getAddr other;
  n ← getSize other;
  checkFunctional fresh garbage m p a n d.

(** [set<T>(v)] and [get<T>()] for a type of [tsize] bytes; the host is
    little-endian or big-endian, and the guest's order is that of the ISA. *)
Fixpoint le_bytes (n : nat) (v : Z) : list Z :=
  match n with O => [] | S n => v mod 256 :: le_bytes n (v / 256) end.
Fixpoint le_value (l : list Z) : Z :=
  match l with [] => 0 | b :: l => b + 256 * le_value l end.
Definition host_bytes (host : ByteSwap.ByteOrder) (n : nat) (v : Z) : list Z :=
  match host with
  | ByteSwap.LittleEndianByteOrder => le_bytes n v
  | ByteSwap.BigEndianByteOrder => rev (le_bytes n v)
  end.
Definition host_value (host : ByteSwap.ByteOrder) (l : list Z) : Z :=
  match host with
  | ByteSwap.LittleEndianByteOrder => le_value l
  | ByteSwap.BigEndianByteOrder => le_value (rev l)
  end.
Definition get (guest host : ByteSwap.ByteOrder) (tsize : Z) (m : Bytes.mem) (p : t) : res Z :=
  _ ← c_assert (isSet (flags p) (Z.lor STATIC_DATA DYNAMIC_DATA));
  _ ← c_assert (tsize <=? size p);
  d ← deref (data p);
  l ← Bytes.read m d tsize;
  ByteSwap.gtoh guest host tsize (host_value host l).
Definition set_value (guest host : ByteSwap.ByteOrder) (tsize : Z) (m : Bytes.mem) (p : t) (v : Z) :
    res Bytes.mem :=
  _ ← c_assert (isSet (flags p) (Z.lor STATIC_DATA DYNAMIC_DATA));
  _ ← c_assert (tsize <=? size p);
  d ← deref (data p);
  w ← ByteSwap.htog guest host tsize v;
  Bytes.write m d (host_bytes host (Z.to_nat tsize) w).

Lemma le_bytes_length n v : length (le_bytes n v) = n.
Proof. revert v. induction n; intros v; simpl; auto. Qed.

Lemma le_value_bytes n : forall v, 0 <= v < 256 ^ Z.of_nat n -> le_value (le_bytes n v) = v.
Proof.
  induction n as [|n IH]; intros v Hv; [simpl in Hv; simpl; lia|]. cbn [le_bytes le_value].
  rewrite Nat2Z.inj_succ, Z.pow_succ_r in Hv by lia.
  rewrite IH; [pose proof (Z.div_mod v 256 ltac:(lia)); lia|].
  split; [apply Z.div_pos; lia|]. apply Z.div_lt_upper_bound; lia.
Qed.

Lemma host_value_bytes host n v : 0 <= v < 256 ^ Z.of_nat n -> host_value host (host_bytes host n v) = v.
Proof. intros Hv. destruct host; simpl; rewrite ?rev_involutive; by apply le_value_bytes. Qed.
End Packet.
