(* ===== verification/CacheTags.v ===== *)
(** * Cache blocks and the LRU tag store

    [src/mem/cache/blk.hh] (Module [CacheBlk]), [src/mem/cache/tags/cacheset.cc]
    (Module [CacheSet]) and [src/mem/cache/tags/lru.hh], [lru.cc] (Module
    [LRU]).  A [CacheBlk*] is an index into the store's array of blocks; the
    statistics the tag store keeps are fields of its state. *)
From S2P Require Import Prelude EventQueue IntMath Request Packet BPred.
Import IntMath.

Module CacheBlk.

Definition BlkValid := 0x01.
Definition BlkWritable := 0x02.
Definition BlkReadable := 0x04.
Definition BlkDirty := 0x08.
Definition BlkReferenced := 0x10.
Definition BlkHWPrefetched := 0x20.

(** [data] is the offset of the block's bytes in the store's data array, and
    [lockList] the contexts of the load-locks. *)
Record t := mk {
  asid : Z;
  tag : Z;
  data : Z;
  size : Z;
  status : Z;
  whenReady : Z;
  set : Z;
  isTouched : bool;
  refCount : Z;
  contextSrc : Z;
  lockList : list Z
}.

Definition new : t := mk (-1) 0 0 0 0 0 (-1) false 0 (-1) [].

(** [operator=]: [isTouched], [contextSrc] and the locks stay. *)
Definition assign (b rhs : t) : t :=
  mk (asid rhs) (tag rhs) (data rhs) (size rhs) (status rhs) (whenReady rhs) (set rhs)
     (isTouched b) (refCount rhs) (contextSrc b) (lockList b).

Definition isWritable (b : t) : bool :=
  let needed_bits := Z.lor BlkWritable BlkValid in Z.land (status b) needed_bits =? needed_bits.
Definition isReadable (b : t) : bool :=
  let needed_bits := Z.lor BlkReadable BlkValid in Z.land (status b) needed_bits =? needed_bits.
Definition isValid (b : t) : bool := negb (Z.land (status b) BlkValid =? 0).
Definition isDirty (b : t) : bool := negb (Z.land (status b) BlkDirty =? 0).
Definition isReferenced (b : t) : bool := negb (Z.land (status b) BlkReferenced =? 0).
Definition wasPrefetched (b : t) : bool := negb (Z.land (status b) BlkHWPrefetched =? 0).

Definition set_lockList (b : t) (l : list Z) : t :=
  mk (asid b) (tag b) (data b) (size b) (status b) (whenReady b) (set b) (isTouched b)
     (refCount b) (contextSrc b) l.
Definition set_status (b : t) (s : Z) : t :=
  mk (asid b) (tag b) (data b) (size b) s (whenReady b) (set b) (isTouched b)
     (refCount b) (contextSrc b) (lockList b).
Definition set_touched (b : t) (v : bool) : t :=
  mk (asid b) (tag b) (data b) (size b) (status b) (whenReady b) (set b) v
     (refCount b) (contextSrc b) (lockList b).
Definition set_refCount (b : t) (n : Z) : t :=
  mk (asid b) (tag b) (data b) (size b) (status b) (whenReady b) (set b) (isTouched b)
     n (contextSrc b) (lockList b).
Definition set_contextSrc (b : t) (c : Z) : t :=
  mk (asid b) (tag b) (data b) (size b) (status b) (whenReady b) (set b) (isTouched b)
     (refCount b) c (lockList b).
Definition set_tag (b : t) (x : Z) : t :=
  mk (asid b) x (data b) (size b) (status b) (whenReady b) (set b) (isTouched b)
     (refCount b) (contextSrc b) (lockList b).

(** Load-locks; a lock keeps the context of the request that took it. *)
Definition trackLoadLocked (b : t) (pkt : Packet.t) : res t :=
  _ ← c_assert (Packet.isLLSC pkt);
  contextId ← Request.contextId (Packet.req pkt);
  Ok (set_lockList b (contextId :: lockList b)).
Definition clearLoadLocks (b : t) : t := set_lockList b [].
(** The search of [checkWrite] for a lock of the request's context. *)
Fixpoint matchesContext (l : list Z) (req : Request.t) : res bool :=
  match l with
  | [] => Ok false
  | contextId :: l =>
      c ← Request.contextId req;
      if contextId =? c then Ok true else matchesContext l req
  end.
(** [checkWrite]: whether the write proceeds, the request with the extra data
    a store conditional reports, and the block. *)
Definition checkWrite (b : t) (pkt : Packet.t) : res (bool * Request.t * t) :=
  let req := Packet.req pkt in
  if Packet.isLLSC pkt then
    success ← matchesContext (lockList b) req;
    Ok (success, Request.setExtraData req (if (success : bool) then 1 else 0), clearLoadLocks b)
  else Ok (true, req, clearLoadLocks b).

(** ** Sequences of locked loads and of writes *)
Inductive access := LoadLocked (pkt : Packet.t) | Write (pkt : Packet.t).

(** The writes' outcomes, in order. *)
Fixpoint run (b : t) (l : list access) : res (list bool * t) :=
  match l with
  | [] => Ok ([], b)
  | LoadLocked pkt :: l => b ← trackLoadLocked b pkt; run b l
  | Write pkt :: l =>
      r ← checkWrite b pkt;
      s ← run r.2 l;
      Ok (r.1.1 :: s.1, s.2)
  end.

(** A locked load, and a store conditional, name their context. *)
Definition access_ok (a : access) : bool :=
  match a with
  | LoadLocked pkt => Packet.isLLSC pkt && Request.hasContextId (Packet.req pkt)
  | Write pkt => negb (Packet.isLLSC pkt) || Request.hasContextId (Packet.req pkt)
  end.
Definition is_lock (a : access) : bool := match a with LoadLocked _ => true | Write _ => false end.
Definition ctx (pkt : Packet.t) : Z := Request._contextId (Packet.req pkt).

(** The contexts that have load-locked since the last write. *)
Definition holders (acc : list Z) (l : list access) : list Z :=
  fold_left (fun acc a => match a with LoadLocked pkt => ctx pkt :: acc | Write _ => [] end) l acc.

Lemma contextId_ok req : Request.hasContextId req = true -> Request.contextId req = Ok (Request._contextId req).
Proof. unfold Request.hasContextId, Request.contextId. by intros ->. Qed.

Lemma matchesContext_ok l req : Request.hasContextId req = true ->
  exists r, matchesContext l req = Ok r /\ (r = true <-> Request._contextId req ∈ l).
Proof.
  intros H. induction l as [|c l IH]; cbn [matchesContext].
  { exists false. split; [done|]. by rewrite elem_of_nil. }
  rewrite contextId_ok by done. bind_step.
  destruct (Z.eqb_spec c (Request._contextId req)) as [->|Hne].
  { exists true. split; [done|]. split; [intros _; by left|done]. }
  destruct IH as (r & -> & Hr). exists r. rewrite Hr, elem_of_cons. split; [done|]. split; [by right|].
  intros [?|?]; congruence.
Qed.

Lemma locks_run_ok l : forall b, forallb access_ok l = true ->
  exists r b', run b l = Ok (r, b') /\ lockList b' = holders (lockList b) l.
Proof.
  induction l as [|[pkt|pkt] l IH]; intros b; cbn [forallb access_ok run].
  { intros _. by exists [], b. }
  - rewrite !andb_true_iff. intros [[H1 H2] Hl]. unfold trackLoadLocked. rewrite H1. cbn [c_assert].
    bind_step. rewrite contextId_ok by done. bind_step. exact (IH _ Hl).
  - rewrite andb_true_iff, orb_true_iff, negb_true_iff. intros [H1 Hl]. unfold checkWrite.
    destruct (IH (clearLoadLocks b) Hl) as (r & b' & Hr & Hb'). destruct (Packet.isLLSC pkt).
    + destruct H1 as [|H1]; [done|]. destruct (matchesContext_ok (lockList b) _ H1) as (s & -> & _).
      bind_step. bind_step. cbn [fst snd]. rewrite Hr. bind_step. by eexists _, b'.
    + bind_step. cbn [fst snd]. rewrite Hr. bind_step. by eexists _, b'.
Qed.

Lemma holders_spec l acc c :
  c ∈ holders acc l <->
  (exists l1 pkt l2, l = l1 ++ LoadLocked pkt :: l2 /\ ctx pkt = c /\ forallb is_lock l2 = true) \/
  (c ∈ acc /\ forallb is_lock l = true).
Proof.
  revert acc. induction l as [|a l IH]; intros acc.
  { simpl. split; [by right|]. intros [(l1 & pkt & l2 & E & _)|[H _]]; [by destruct l1|done]. }
  assert (Hex : forall P, (exists l1 pkt l2, a :: l = l1 ++ LoadLocked pkt :: l2 /\ P pkt l2) <->
    (exists pkt, a = LoadLocked pkt /\ P pkt l) \/ (exists l1 pkt l2, l = l1 ++ LoadLocked pkt :: l2 /\ P pkt l2)).
  { intros P. split.
    - intros ([|x l1] & pkt & l2 & [= -> ->] & H); [left; by exists pkt|right; by exists l1, pkt, l2].
    - intros [(pkt & -> & H)|(l1 & pkt & l2 & -> & H)]; [by exists [], pkt, l|by exists (a :: l1), pkt, l2]. }
  rewrite Hex. unfold holders in *. simpl. rewrite IH. destruct a as [pkt|pkt]; simpl.
  - rewrite elem_of_cons. naive_solver.
  - rewrite elem_of_nil. naive_solver.
Qed.
End CacheBlk.

(** ** One set *)
Module CacheSet.

(** [findBlk(tag)], over the set's pointers, most recently used first. *)
Fixpoint findBlk (blks : list CacheBlk.t) (ptrs : list nat) (tag : Z) : res (option nat) :=
  match ptrs with
  | [] => Ok None
  | p :: ptrs =>
      b ← at_index (blks !! p);
      if (CacheBlk.tag b =? tag) && CacheBlk.isValid b then Ok (Some p) else findBlk blks ptrs tag
  end.

(** [moveToHead(blk)]: the loop shifts pointers down until it meets [blk]. *)
Fixpoint move_loop (fuel : nat) (assoc : Z) (ptrs : list nat) (i : Z) (next blk : nat) : res (list nat) :=
  _ ← c_assert (i <? assoc);
  tmp ← vget ptrs i;
  ptrs ← vset ptrs i next;
  if (tmp =? blk)%nat then Ok ptrs
  else match fuel with
       | O => Er OutOfFuel
       | S fuel => move_loop fuel assoc ptrs (i + 1) tmp blk
       end.
Definition moveToHead (assoc : Z) (ptrs : list nat) (blk : nat) : res (list nat) :=
  p ← vget ptrs 0;
  if (p =? blk)%nat then Ok ptrs else move_loop (length ptrs) assoc ptrs 0 blk blk.

Lemma vget_mid {A} (l1 l2 : list A) x : vget (l1 ++ x :: l2) (Z.of_nat (length l1)) = Ok x.
Proof. apply vget_Ok. split; [lia|]. rewrite Nat2Z.id. by apply list_lookup_middle. Qed.

Lemma vset_mid {A} (l1 l2 : list A) x y :
  vset (l1 ++ x :: l2) (Z.of_nat (length l1)) y = Ok (l1 ++ y :: l2).
Proof.
  rewrite vset_lt by (rewrite length_app; simpl; lia).
  rewrite Nat2Z.id, insert_app_r_alt by lia. by rewrite Nat.sub_diag.
Qed.

Lemma move_loop_ok q1 : forall fuel assoc p q2 next blk,
  (length q1 <= fuel)%nat -> blk ∉ q1 -> assoc = Z.of_nat (length (p ++ q1 ++ blk :: q2)) ->
  move_loop fuel assoc (p ++ q1 ++ blk :: q2) (Z.of_nat (length p)) next blk
    = Ok (p ++ next :: q1 ++ q2).
Proof.
  induction q1 as [|x q1 IH]; intros fuel assoc p q2 next blk Hf Hn Ha.
  - assert (E : (Z.of_nat (length p) <? assoc) = true).
    { apply Z.ltb_lt. rewrite Ha, length_app. simpl. lia. }
    rewrite !app_nil_l. destruct fuel; cbn [move_loop]; rewrite E; cbn [c_assert]; bind_step;
      rewrite vget_mid; bind_step; rewrite vset_mid; bind_step; by rewrite Nat.eqb_refl.
  - assert (E : (Z.of_nat (length p) <? assoc) = true).
    { apply Z.ltb_lt. rewrite Ha, length_app. simpl. lia. }
    change ((x :: q1) ++ blk :: q2) with (x :: q1 ++ blk :: q2).
    destruct fuel as [|fuel]; [simpl in Hf; lia|]. cbn [move_loop]. rewrite E.
    cbn [c_assert]. bind_step. rewrite vget_mid. bind_step. rewrite vset_mid. bind_step.
    rewrite not_elem_of_cons in Hn. destruct Hn as [Hne Hn].
    destruct (Nat.eqb_spec x blk); [congruence|].
    replace (Z.of_nat (length p) + 1) with (Z.of_nat (length (p ++ [next]))) by (rewrite length_app; simpl; lia).
    replace (p ++ next :: q1 ++ blk :: q2) with ((p ++ [next]) ++ q1 ++ blk :: q2) by (by rewrite <- app_assoc).
    rewrite IH; [by rewrite <- app_assoc|simpl in Hf; lia|done|].
    rewrite Ha, !length_app. simpl. rewrite ?length_app. simpl. lia.
Qed.

(** [moveToHead] brings the block to the front and keeps the order of the rest. *)
Lemma moveToHead_ok q1 q2 blk : blk ∉ q1 ->
  moveToHead (Z.of_nat (length (q1 ++ blk :: q2))) (q1 ++ blk :: q2) blk = Ok (blk :: q1 ++ q2).
Proof.
  intros Hn. unfold moveToHead. destruct q1 as [|x q1].
  - change (vget ([] ++ blk :: q2) 0) with (Ok blk). bind_step. by rewrite Nat.eqb_refl.
  - change (vget ((x :: q1) ++ blk :: q2) 0) with (Ok x). bind_step.
    rewrite not_elem_of_cons in Hn. destruct Hn as [Hne Hn].
    destruct (Nat.eqb_spec x blk); [congruence|].
    apply (move_loop_ok (x :: q1) _ _ [] q2 blk blk); [rewrite length_app; simpl; lia| |done].
    apply not_elem_of_cons. done.
Qed.

(** What a use of a block does to the recency order. *)
Definition touch (p : nat) (l : list nat) : list nat := p :: filter (fun x => x <> p) l.

Lemma filter_ne_app q1 q2 (p : nat) : p ∉ q1 -> p ∉ q2 ->
  filter (fun x => x <> p) (q1 ++ p :: q2) = q1 ++ q2.
Proof.
  intros H1 H2. rewrite filter_app, filter_cons. rewrite decide_False by (intros H; by apply H).
  assert (Hid : forall q : list nat, p ∉ q -> filter (fun x => x <> p) q = q).
  { induction q as [|x q IH]; [done|]. rewrite not_elem_of_cons. intros [Hne Hq].
    rewrite filter_cons, decide_True by congruence. by rewrite IH. }
  by rewrite !Hid.
Qed.

Lemma moveToHead_touch assoc l p : NoDup l -> p ∈ l -> assoc = Z.of_nat (length l) ->
  moveToHead assoc l p = Ok (touch p l).
Proof.
  intros Hnd Hp ->. apply list_elem_of_split in Hp as (q1 & q2 & ->).
  apply NoDup_app in Hnd as (_ & Hd & Hnd2). apply NoDup_cons in Hnd2 as [Hq2 _].
  assert (p ∉ q1) by (intros H; apply (Hd p H); by left).
  rewrite moveToHead_ok by done. unfold touch. by rewrite filter_ne_app.
Qed.

Lemma touch_perm p l : NoDup l -> p ∈ l -> touch p l ≡ₚ l.
Proof.
  intros Hnd Hp. apply list_elem_of_split in Hp as (q1 & q2 & ->).
  apply NoDup_app in Hnd as (_ & Hd & Hnd2). apply NoDup_cons in Hnd2 as [Hq2 _].
  assert (p ∉ q1) by (intros H; apply (Hd p H); by left).
  unfold touch. rewrite filter_ne_app by done. apply Permutation_middle.
Qed.

(** The hit: the only valid block of the set with that tag. *)
Lemma findBlk_spec blks l tag :
  Forall (fun p => (p < length blks)%nat) l ->
  exists o, findBlk blks l tag = Ok o /\
    match o with
    | Some p => p ∈ l /\ exists b, blks !! p = Some b /\ CacheBlk.tag b = tag /\ CacheBlk.isValid b = true
    | None => forall p b, p ∈ l -> blks !! p = Some b -> ~ (CacheBlk.tag b = tag /\ CacheBlk.isValid b = true)
    end.
Proof.
  induction l as [|p l IH]; intros Hl; simpl.
  { exists None. split; [done|]. intros p b Hp. by apply elem_of_nil in Hp. }
  apply Forall_cons in Hl as [Hp Hl]. destruct (lookup_lt_is_Some_2 blks p Hp) as [b Hb].
  rewrite Hb. cbn [at_index]. bind_step.
  destruct (Z.eqb_spec (CacheBlk.tag b) tag) as [Ht|Ht], (CacheBlk.isValid b) eqn:Hv; cbn [andb].
  1:{ exists (Some p). split; [done|]. split; [by left|]. by exists b. }
  all: destruct (IH Hl) as (o & -> & Ho); exists o; (split; [done|]); destruct o as [q|].
  all: try (destruct Ho as [? Ho]; split; [by right|done]).
  all: intros q c Hq Hc [E1 E2]; apply elem_of_cons in Hq as [->|Hq]; [|by apply (Ho q c)]; congruence.
Qed.
End CacheSet.

(** ** The tag store *)
Module LRU.
Import CacheSet(touch).

Record Stats := mkStats {
  replacements : Z;
  tagsInUse : Z;
  totalRefs : Z;
  sampledRefs : Z;
  warmupCycle : Z;
  occupancies : list Z
}.

Record t := mk {
  numSets : Z;
  blkSize : Z;
  assoc : Z;
  hitLatency : Z;
  sets : list (list nat);
  blks : list CacheBlk.t;
  setShift : Z;
  tagShift : Z;
  setMask : Z;
  blkMask : Z;
  warmupBound : Z;
  warmedUp : bool;
  numBlocks : Z;
  stats : Stats
}.

(** Block [j] of set [i], as the constructor leaves it. *)
Definition blk_new (blkSize assoc i j : Z) : CacheBlk.t :=
  CacheBlk.mk (-1) j (uint 32 (blkSize * (i * assoc + j))) (sint 32 blkSize) 0 0 (sint 32 i) false 0 (-1) [].

(** The constructor.  A store of [2^32] blocks or more does not fit the arrays
    it allocates. *)
Definition new (_numSets _blkSize _assoc _hit_latency : Z) (st : Stats) : res t :=
  if (_blkSize <? 4) || negb (isPowerOf2 32 _blkSize) then Er Fatal else
  if (_numSets <=? 0) || negb (isPowerOf2 32 _numSets) then Er Fatal else
  if _assoc <=? 0 then Er Fatal else
  if _hit_latency <=? 0 then Er Fatal else
  setShift ← floorLog2 _blkSize;
  l ← floorLog2 _numSets;
  if 2 ^ 32 <=? _numSets * _assoc then Er OutOfRange else
  let ns := Z.to_nat _numSets in
  let na := Z.to_nat _assoc in
  let sets := map (fun i => seq (i * na) na) (seq 0 ns) in
  let blks := concat (map (fun i => map (fun j => blk_new _blkSize _assoc (Z.of_nat i) (Z.of_nat j))
                                        (seq 0 na)) (seq 0 ns)) in
  Ok (mk _numSets _blkSize _assoc _hit_latency sets blks setShift (setShift + l)
         (_numSets - 1) (_blkSize - 1) (sint 32 (_numSets * _assoc)) false (_numSets * _assoc) st).

Definition set_blks (c : t) (bs : list CacheBlk.t) : t :=
  mk (numSets c) (blkSize c) (assoc c) (hitLatency c) (sets c) bs (setShift c) (tagShift c)
     (setMask c) (blkMask c) (warmupBound c) (warmedUp c) (numBlocks c) (stats c).
Definition set_sets (c : t) (ss : list (list nat)) : t :=
  mk (numSets c) (blkSize c) (assoc c) (hitLatency c) ss (blks c) (setShift c) (tagShift c)
     (setMask c) (blkMask c) (warmupBound c) (warmedUp c) (numBlocks c) (stats c).
Definition set_stats (c : t) (w : bool) (s : Stats) : t :=
  mk (numSets c) (blkSize c) (assoc c) (hitLatency c) (sets c) (blks c) (setShift c) (tagShift c)
     (setMask c) (blkMask c) (warmupBound c) w (numBlocks c) s.

Definition getBlockSize (c : t) : Z := blkSize c.
Definition getSubBlockSize (c : t) : Z := blkSize c.
Definition getHitLatency (c : t) : Z := hitLatency c.

(** Address arithmetic; [Addr] is 64 bits. *)
Definition extractTag (c : t) (addr : Z) : Z := Z.shiftr addr (tagShift c).
Definition extractSet (c : t) (addr : Z) : Z := Z.land (Z.shiftr addr (setShift c)) (setMask c).
Definition extractBlkOffset (c : t) (addr : Z) : Z := Z.land addr (blkMask c).
Definition blkAlign (c : t) (addr : Z) : Z := Z.land addr (uint 64 (Z.lnot (blkMask c))).
Definition regenerateBlkAddr (c : t) (tag set : Z) : Z :=
  Z.lor (uint 64 (Z.shiftl tag (tagShift c))) (uint 64 (Z.shiftl set (setShift c))).

(** [blk->f = ...] through a block pointer. *)
Definition upd_blk (c : t) (p : nat) (f : CacheBlk.t -> CacheBlk.t) : res t :=
  b ← at_index (blks c !! p);
  Ok (set_blks c (<[p := f b]> (blks c))).

(** [sets[set].moveToHead(blk)]. *)
Definition move (c : t) (s : Z) (p : nat) : res t :=
  ptrs ← vget (sets c) s;
  ptrs ← CacheSet.moveToHead (assoc c) ptrs p;
  ss ← vset (sets c) s ptrs;
  Ok (set_sets c ss).

Definition findBlock (c : t) (addr : Z) : res (option nat) :=
  let tag := extractTag c addr in
  let set := extractSet c addr in
  ptrs ← vget (sets c) set;
  CacheSet.findBlk (blks c) ptrs tag.

(** [accessBlock(addr, lat, context_src)] at time [curTick]. *)
Definition accessBlock (curTick : Z) (c : t) (addr : Z) : res (option nat * Z * t) :=
  let tag := extractTag c addr in
  let set := extractSet c addr in
  ptrs ← vget (sets c) set;
  blk ← CacheSet.findBlk (blks c) ptrs tag;
  let lat := hitLatency c in
  match blk with
  | Some p =>
      c ← move c set p;
      b ← at_index (blks c !! p);
      let lat := if (CacheBlk.whenReady b >? curTick) && (CacheBlk.whenReady b - curTick >? hitLatency c)
                 then sint 32 (CacheBlk.whenReady b - curTick) else lat in
      c ← upd_blk c p (fun b => CacheBlk.set_refCount b (CacheBlk.refCount b + 1));
      Ok (Some p, lat, c)
  | None => Ok (None, lat, c)
  end.

(** [occupancies[context_src % numCpus] += d], or the last counter for a
    source of -1. *)
Definition occ_add (numCpus ctx d : Z) (occ : list Z) : res (list Z) :=
  i ← (if negb (ctx =? -1) then if numCpus =? 0 then Er DivByZero else Ok (Z.rem ctx numCpus)
       else Ok numCpus);
  v ← vget occ i; vset occ i (v + d).

Definition set_occ (s : Stats) (occ : list Z) : Stats :=
  mkStats (replacements s) (tagsInUse s) (totalRefs s) (sampledRefs s) (warmupCycle s) occ.

Definition findVictim (numCpus : Z) (c : t) (addr : Z) : res (nat * t) :=
  let set := extractSet c addr in
  ptrs ← vget (sets c) set;
  p ← vget ptrs (assoc c - 1);
  b ← at_index (blks c !! p);
  if CacheBlk.isValid b then
    let s := stats c in
    occ ← occ_add numCpus (CacheBlk.contextSrc b) (-1) (occupancies s);
    let s := mkStats (replacements s + 1) (tagsInUse s) (totalRefs s + CacheBlk.refCount b)
                     (sampledRefs s + 1) (warmupCycle s) occ in
    c ← upd_blk c p (fun b => CacheBlk.set_contextSrc (CacheBlk.set_refCount b 0) (-1));
    Ok (p, set_stats c (warmedUp c) s)
  else Ok (p, c).

(** The first use of a block counts it and may end the warm-up. *)
Definition first_touch (curTick : Z) (c : t) (p : nat) : res t :=
  b ← at_index (blks c !! p);
  if negb (CacheBlk.isTouched b) then
    let s := stats c in
    let n := tagsInUse s + 1 in
    let w := negb (warmedUp c) && (n >=? warmupBound c) in
    c ← upd_blk c p (fun b => CacheBlk.set_touched b true);
    Ok (set_stats c (warmedUp c || w)
         (mkStats (replacements s) n (totalRefs s) (sampledRefs s)
                  (if w then curTick else warmupCycle s) (occupancies s)))
  else Ok c.

Definition insertBlock (numCpus curTick : Z) (c : t) (addr : Z) (p : nat) (context_src : Z) : res t :=
  c ← first_touch curTick c p;
  c ← upd_blk c p (fun b => CacheBlk.set_tag b (extractTag c addr));
  occ ← occ_add numCpus context_src 1 (occupancies (stats c));
  let c := set_stats c (warmedUp c) (set_occ (stats c) occ) in
  c ← upd_blk c p (fun b => CacheBlk.set_contextSrc b context_src);
  let set := extractSet c addr in
  move c set p.

Definition invalidateBlk (numCpus : Z) (c : t) (blk : option nat) : res t :=
  match blk with
  | None => Ok c
  | Some p =>
      c ← upd_blk c p (fun b => CacheBlk.clearLoadLocks (CacheBlk.set_touched (CacheBlk.set_status b 0) false));
      b ← at_index (blks c !! p);
      let s := stats c in
      occ ← occ_add numCpus (CacheBlk.contextSrc b) (-1) (occupancies s);
      c ← (if negb (CacheBlk.contextSrc b =? -1)
           then upd_blk c p (fun b => CacheBlk.set_contextSrc b (-1)) else Ok c);
      Ok (set_stats c (warmedUp c)
           (mkStats (replacements s) (tagsInUse s - 1) (totalRefs s) (sampledRefs s) (warmupCycle s) occ))
  end.

Definition cleanupRefs (c : t) : t :=
  let s := stats c in
  let vs := filter (fun b => CacheBlk.isValid b = true) (blks c) in
  set_stats c (warmedUp c)
    (mkStats (replacements s) (tagsInUse s)
       (totalRefs s + foldr (fun b n => CacheBlk.refCount b + n) 0 vs)
       (sampledRefs s + Z.of_nat (length vs)) (warmupCycle s) (occupancies s)).

(** The cache, not the tag store, writes a block's status. *)
Definition set_blk_status (c : t) (p : nat) (st : Z) : res t :=
  upd_blk c p (fun b => CacheBlk.set_status b st).

(** ** The invariant *)
Record wf (numCpus : Z) (c : t) : Prop := {
  wf_blkSize : exists k, 0 <= k < 32 /\ blkSize c = 2 ^ k /\ setShift c = k;
  wf_numSets : exists k, 0 <= k < 32 /\ numSets c = 2 ^ k /\ tagShift c = setShift c + k;
  wf_setMask : setMask c = numSets c - 1;
  wf_blkMask : blkMask c = blkSize c - 1;
  wf_assoc : 0 < assoc c;
  wf_sets : length (sets c) = Z.to_nat (numSets c);
  wf_set : forall i ptrs, sets c !! i = Some ptrs ->
    ptrs ≡ₚ seq (i * Z.to_nat (assoc c)) (Z.to_nat (assoc c));
  wf_blks : length (blks c) = (Z.to_nat (numSets c) * Z.to_nat (assoc c))%nat;
  wf_cpus : 0 < numCpus;
  wf_occ : Z.of_nat (length (occupancies (stats c))) = numCpus + 1;
  wf_ctx : Forall (fun b => -1 <= CacheBlk.contextSrc b) (blks c)
}.

Lemma numSets_pos n c : wf n c -> 0 < numSets c.
Proof. intros Hc. destruct (wf_numSets n c Hc) as (k & Hk & -> & _). apply Z.pow_pos_nonneg; lia. Qed.

Lemma extractSet_mod n c addr : wf n c ->
  extractSet c addr = (addr / blkSize c) mod numSets c /\ 0 <= extractSet c addr < numSets c.
Proof.
  intros Hc. pose proof (numSets_pos n c Hc).
  assert (E : extractSet c addr = (addr / blkSize c) mod numSets c).
  { unfold extractSet. rewrite (wf_setMask n c Hc).
    destruct (wf_blkSize n c Hc) as (k & Hk & -> & ->).
    destruct (wf_numSets n c Hc) as (m & Hm & -> & _).
    rewrite Z.sub_1_r, <- Z.ones_equiv, Z.land_ones by lia. by rewrite Z.shiftr_div_pow2 by lia. }
  split; [done|]. rewrite E. by apply Z.mod_pos_bound.
Qed.

Lemma set_at n c addr : wf n c -> exists ptrs, vget (sets c) (extractSet c addr) = Ok ptrs /\
  sets c !! Z.to_nat (extractSet c addr) = Some ptrs /\
  ptrs ≡ₚ seq (Z.to_nat (extractSet c addr) * Z.to_nat (assoc c)) (Z.to_nat (assoc c)).
Proof.
  intros Hc. destruct (extractSet_mod n c addr Hc) as [_ Hr].
  destruct (vget_lt (sets c) (extractSet c addr)) as (ptrs & H1 & H2).
  { rewrite (wf_sets n c Hc). lia. }
  exists ptrs. split_and!; [done|done|]. by apply (wf_set n c Hc).
Qed.

(** Membership of a block in a set is a matter of arithmetic. *)
Definition set_of (c : t) (p : nat) : nat := (p / Z.to_nat (assoc c))%nat.

Lemma elem_of_set n c i ptrs p : wf n c -> sets c !! i = Some ptrs ->
  p ∈ ptrs <-> set_of c p = i.
Proof.
  intros Hc Hi. rewrite (wf_set n c Hc i ptrs Hi), elem_of_seq. unfold set_of.
  pose proof (wf_assoc n c Hc). assert (0 < Z.to_nat (assoc c))%nat by lia.
  split.
  - intros [H1 H2]. symmetry. apply (Nat.div_unique _ _ _ (p - i * Z.to_nat (assoc c))%nat); lia.
  - intros <-. pose proof (Nat.div_mod p (Z.to_nat (assoc c)) ltac:(lia)).
    pose proof (Nat.mod_upper_bound p (Z.to_nat (assoc c)) ltac:(lia)). lia.
Qed.

Lemma set_NoDup n c i ptrs : wf n c -> sets c !! i = Some ptrs -> NoDup ptrs /\
  Z.of_nat (length ptrs) = assoc c /\ Forall (fun p => (p < length (blks c))%nat) ptrs.
Proof.
  intros Hc Hi. pose proof (wf_set n c Hc i ptrs Hi) as Hp. pose proof (wf_assoc n c Hc).
  split_and!.
  - rewrite Hp. apply NoDup_seq.
  - rewrite Hp, length_seq. lia.
  - rewrite Hp. apply Forall_forall. intros p Hin. apply elem_of_seq in Hin.
    rewrite (wf_blks n c Hc). apply lookup_lt_Some in Hi. rewrite (wf_sets n c Hc) in Hi. nia.
Qed.

(** The two kinds of change the operations make. *)
Lemma upd_blk_wf n c p b f : wf n c -> blks c !! p = Some b ->
  -1 <= CacheBlk.contextSrc (f b) ->
  upd_blk c p f = Ok (set_blks c (<[p := f b]> (blks c))) /\ wf n (set_blks c (<[p := f b]> (blks c))).
Proof.
  intros Hc Hb Hf. split; [unfold upd_blk; by rewrite Hb|].
  destruct Hc. split; simpl; try done; [by rewrite length_insert|by apply Forall_insert].
Qed.

Lemma set_stats_wf n c w s : wf n c -> Z.of_nat (length (occupancies s)) = n + 1 -> wf n (set_stats c w s).
Proof. intros Hc Hs. destruct Hc. by split. Qed.

Lemma occ_add_ok n c ctx d : wf n c -> -1 <= ctx -> exists occ,
  occ_add n ctx d (occupancies (stats c)) = Ok occ /\ Z.of_nat (length occ) = n + 1.
Proof.
  intros Hc Hctx. pose proof (wf_cpus n c Hc). pose proof (wf_occ n c Hc) as Hlen.
  unfold occ_add. destruct (Z.eqb_spec n 0); [lia|].
  assert (exists i, (if negb (ctx =? -1) then Ok (Z.rem ctx n) else Ok n) = Ok i /\ 0 <= i <= n)
    as (i & -> & Hi).
  { destruct (Z.eqb_spec ctx (-1)); cbn [negb]; [exists n; split; [done|lia]|]. eexists. split; [done|].
    pose proof (Z.rem_bound_pos ctx n ltac:(lia) ltac:(lia)). lia. }
  bind_step.
  destruct (vget_lt (occupancies (stats c)) i) as (v & -> & _); [lia|]. bind_step.
  rewrite vset_lt by lia. eexists. split; [done|]. by rewrite length_insert.
Qed.

(** Moving a block to the head of its own set. *)
Lemma move_ok n c addr p : wf n c -> set_of c p = Z.to_nat (extractSet c addr) ->
  exists ptrs, sets c !! set_of c p = Some ptrs /\ p ∈ ptrs /\
    move c (extractSet c addr) p = Ok (set_sets c (<[set_of c p := touch p ptrs]> (sets c))) /\
    wf n (set_sets c (<[set_of c p := touch p ptrs]> (sets c))).
Proof.
  intros Hc Hp. destruct (set_at n c addr Hc) as (ptrs & Hv & Hl & _). exists ptrs.
  rewrite Hp. split; [done|].
  assert (Hin : p ∈ ptrs) by (by apply (elem_of_set n c _ ptrs p Hc Hl)). split; [done|].
  destruct (set_NoDup n c _ ptrs Hc Hl) as (Hnd & Hlen & _).
  destruct (extractSet_mod n c addr Hc) as [_ Hr]. pose proof (wf_sets n c Hc).
  split.
  - unfold move. rewrite Hv. bind_step. rewrite CacheSet.moveToHead_touch by done. bind_step.
    rewrite vset_lt by lia. by bind_step.
  - assert (Hperm := CacheSet.touch_perm p ptrs Hnd Hin).
    destruct Hc. split; simpl; try done; [by rewrite length_insert|].
    intros i q Hq. destruct (decide (i = Z.to_nat (extractSet c addr))) as [->|Hne].
    + rewrite list_lookup_insert_eq in Hq by lia. injection Hq as <-. rewrite Hperm. by apply wf_set0.
    + rewrite list_lookup_insert_ne in Hq by done. by apply wf_set0.
Qed.
End LRU.
