(* ===== verification/CacheTagsProof.v ===== *)
(** * Lemmas on the LRU tag store

    What each operation of [CacheTags.LRU] does to the recency order of a set
    and to the blocks a lookup finds; runs of operations. *)
From S2P Require Import Prelude IntMath BPred CacheTags.
Import LRU.

(** ** Recency order *)

(** The order of one set (with members in [S]) after a sequence of uses. *)
Definition uses (mine : nat -> bool) (ps : list nat) (l : list nat) : list nat :=
  foldl (fun l p => if mine p then CacheSet.touch p l else l) l ps.

Lemma uses_app mine ps1 ps2 l : uses mine (ps1 ++ ps2) l = uses mine ps2 (uses mine ps1 l).
Proof. apply foldl_app. Qed.

Lemma uses_ext f g ps : (forall p, f p = g p) -> forall l, uses f ps l = uses g ps l.
Proof.
  intros H. induction ps as [|p ps IH]; intros l; [done|]. cbn [uses foldl]. rewrite H. apply IH.
Qed.

Lemma touch_order p v q l :
  v <> q -> p <> q -> [p; v] `sublist_of` (CacheSet.touch q l) -> [p; v] `sublist_of` l.
Proof.
  intros Hv Hp H. unfold CacheSet.touch in H. apply sublist_cons_r in H as [H|(l' & [= E _] & _)].
  - etrans; [done|]. apply sublist_filter.
  - congruence.
Qed.

Lemma touch_head_last p q l : NoDup (CacheSet.touch q l) -> ~ [p; q] `sublist_of` (CacheSet.touch q l).
Proof.
  intros Hnd H. apply sublist_cons_r in H as [H|(l' & [= -> <-] & H)].
  - apply NoDup_cons in Hnd as [Hq _]. apply Hq.
    apply (elem_of_sublist [p; q]); [by right; left|done].
  - apply NoDup_cons in Hnd as [Hq _]. apply Hq.
    apply (elem_of_sublist [q]); [by left|done].
Qed.

Lemma touch_NoDup q l : NoDup l -> NoDup (CacheSet.touch q l).
Proof.
  intros Hnd. apply NoDup_cons. split; [|by apply NoDup_filter].
  intros H. apply list_elem_of_filter in H as [H _]. done.
Qed.

Lemma uses_NoDup mine ps : forall l, NoDup l -> NoDup (uses mine ps l).
Proof.
  induction ps as [|p ps IH]; intros l Hl; [done|]. simpl. apply IH.
  destruct (mine p); [by apply touch_NoDup|done].
Qed.

(** A block before another in the order was used after it. *)
Lemma uses_recency mine ps l p v : NoDup l -> mine p = true -> mine v = true ->
  [p; v] `sublist_of` (uses mine ps l) -> v ∈ ps ->
  exists a b, ps = a ++ b /\ (v ∉ b) /\ p ∈ b.
Proof.
  intros Hnd Hp Hv. induction ps as [|q ps IH] using rev_ind; intros Hs Hin.
  { by apply elem_of_nil in Hin. }
  rewrite uses_app in Hs. cbn [uses foldl] in Hs. apply elem_of_app in Hin.
  assert (Hext : v <> q -> v ∈ ps -> [p; v] `sublist_of` (uses mine ps l) ->
    exists a b, ps ++ [q] = a ++ b /\ (v ∉ b) /\ p ∈ b).
  { intros Hne Hin' Hs'. destruct (IH Hs' Hin') as (a & b & -> & H1 & H2).
    exists a, (b ++ [q]). split_and!; [by rewrite app_assoc|set_solver|set_solver]. }
  assert (Hin' : v <> q -> v ∈ ps).
  { intros Hne. destruct Hin as [|Hq]; [done|]. apply list_elem_of_singleton in Hq. done. }
  destruct (mine q) eqn:Hq.
  - destruct (decide (v = q)) as [->|Hne].
    + exfalso. apply (touch_head_last p q (uses mine ps l)); [|done].
      by apply touch_NoDup, uses_NoDup.
    + destruct (decide (p = q)) as [->|Hpq].
      * exists ps, [q]. split_and!; [done|set_solver|set_solver].
      * apply Hext; [done|by apply Hin'|]. by apply (touch_order p v q).
  - assert (v <> q) by congruence. apply Hext; [done|by apply Hin'|done].
Qed.

Lemma last_after l (v p : nat) : last l = Some v -> p ∈ l -> p <> v -> [p; v] `sublist_of` l.
Proof.
  intros Hl Hp Hne. apply last_Some in Hl as [l' ->]. apply elem_of_app in Hp as [Hp|Hp].
  - change [p; v] with ([p] ++ [v]). apply sublist_app; [by apply singleton_sublist_l|done].
  - apply list_elem_of_singleton in Hp. done.
Qed.

(** ** What stays fixed *)
Record same_geom (c c' : t) : Prop := {
  sg_numSets : numSets c' = numSets c;
  sg_assoc : assoc c' = assoc c;
  sg_setShift : setShift c' = setShift c;
  sg_tagShift : tagShift c' = tagShift c;
  sg_setMask : setMask c' = setMask c;
  sg_blks : length (blks c') = length (blks c)
}.
#[export] Instance same_geom_refl : Reflexive same_geom.
Proof. by intros c. Qed.
#[export] Instance same_geom_trans : Transitive same_geom.
Proof. intros c1 c2 c3 [] []. split; congruence. Qed.

Lemma same_geom_blks c p b : same_geom c (set_blks c (<[p := b]> (blks c))).
Proof. split; simpl; try done. by rewrite length_insert. Qed.
Lemma same_geom_sets c ss : same_geom c (set_sets c ss).
Proof. done. Qed.
Lemma same_geom_stats c c' w s : same_geom c c' -> same_geom c (set_stats c' w s).
Proof. intros []. by split. Qed.

Lemma sg_set c c' a : same_geom c c' -> extractSet c' a = extractSet c a.
Proof. intros []. unfold extractSet. congruence. Qed.
Lemma sg_tag c c' a : same_geom c c' -> extractTag c' a = extractTag c a.
Proof. intros []. unfold extractTag. congruence. Qed.
Lemma sg_set_of c c' p : same_geom c c' -> set_of c' p = set_of c p.
Proof. intros []. unfold set_of. congruence. Qed.

(** ** Lookup *)

(** Block [p] holds the line of [addr]. *)
Definition holds (c : t) (addr : Z) (p : nat) : Prop :=
  set_of c p = Z.to_nat (extractSet c addr) /\
  exists b, blks c !! p = Some b /\ CacheBlk.tag b = extractTag c addr /\ CacheBlk.isValid b = true.

(** No line is held twice. *)
Definition unique (c : t) : Prop := forall addr p q, holds c addr p -> holds c addr q -> p = q.

Lemma findBlock_holds n c addr : wf n c -> exists o, findBlock c addr = Ok o /\
  match o with Some p => holds c addr p | None => forall p, ~ holds c addr p end.
Proof.
  intros Hc. destruct (set_at n c addr Hc) as (ptrs & Hv & Hl & _).
  destruct (set_NoDup n c _ ptrs Hc Hl) as (_ & _ & Hb).
  destruct (CacheSet.findBlk_spec (blks c) ptrs (extractTag c addr) Hb) as (o & Ho & Hs).
  exists o. split; [unfold findBlock; by rewrite Hv|]. destruct o as [p|].
  - destruct Hs as [Hp Hs]. split; [|done]. by apply (elem_of_set n c _ ptrs p Hc Hl).
  - intros p [Hp (b & Hb1 & Hb2)]. apply (Hs p b); [|done|done].
    by apply (elem_of_set n c _ ptrs p Hc Hl).
Qed.

Lemma findBlock_iff n c addr p : wf n c -> unique c ->
  findBlock c addr = Ok (Some p) <-> holds c addr p.
Proof.
  intros Hc Hu. destruct (findBlock_holds n c addr Hc) as (o & -> & Ho). split.
  - by intros [= ->].
  - intros Hp. destruct o as [q|]; [|by destruct (Ho p)]. by rewrite (Hu addr p q Hp Ho).
Qed.

Lemma findBlock_same n c c' : wf n c -> wf n c' -> unique c -> unique c' ->
  forall a a', (forall p, holds c a p <-> holds c' a' p) -> findBlock c a = findBlock c' a'.
Proof.
  intros Hc Hc' Hu Hu' a a' H.
  destruct (findBlock_holds n c a Hc) as ([p|] & E & Hp), (findBlock_holds n c' a' Hc') as ([q|] & E' & Hq);
    rewrite E, E'.
  - do 2 f_equal. apply (Hu' a'); [by apply H|done].
  - by destruct (Hq p (proj1 (H p) Hp)).
  - by destruct (Hp q (proj2 (H q) Hq)).
  - done.
Qed.

(** ** Each operation *)
Inductive op :=
| OpAccess (now addr : Z)
| OpVictim (addr : Z)
| OpInsert (now addr : Z) (p : nat) (ctx : Z)
| OpInvalidate (p : nat)
| OpStatus (p : nat) (st : Z).

(** The block an operation uses, and the state after it. *)
Definition exec (n : Z) (c : t) (o : op) : res (list nat * t) :=
  match o with
  | OpAccess now addr =>
      r ← accessBlock now c addr;
      let '(blk, _, c) := r in Ok (match blk with Some p => [p] | None => [] end, c)
  | OpVictim addr => r ← findVictim n c addr; Ok ([], r.2)
  | OpInsert now addr p ctx => c ← insertBlock n now c addr p ctx; Ok ([p], c)
  | OpInvalidate p => c ← invalidateBlk n c (Some p); Ok ([], c)
  | OpStatus p st => c ← set_blk_status c p st; Ok ([], c)
  end.

(** The caller's side: a block is inserted into its own set. *)
Definition op_ok (c : t) (o : op) : Prop :=
  match o with
  | OpAccess _ _ | OpVictim _ => True
  | OpInsert _ addr p ctx =>
      (p < length (blks c))%nat /\ set_of c p = Z.to_nat (extractSet c addr) /\ -1 <= ctx
  | OpInvalidate p | OpStatus p _ => (p < length (blks c))%nat
  end.

Definition order_after (c c' : t) (ps : list nat) : Prop :=
  forall i, sets c' !! i = uses (fun p => set_of c p =? i)%nat ps <$> sets c !! i.

Lemma order_none c c' : sets c' = sets c -> order_after c c' [].
Proof. intros E i. rewrite E. by destruct (sets c !! i). Qed.

Lemma order_touch n c addr p : wf n c -> set_of c p = Z.to_nat (extractSet c addr) ->
  exists c', move c (extractSet c addr) p = Ok c' /\ wf n c' /\ same_geom c c' /\
    blks c' = blks c /\ stats c' = stats c /\ order_after c c' [p].
Proof.
  intros Hc Hp. destruct (move_ok n c addr p Hc Hp) as (ptrs & Hl & _ & Hm & Hw).
  eexists. split_and!; [done|done|done|done|done|]. intros i. cbn [sets set_sets].
  destruct (decide (set_of c p = i)) as [<-|Hne].
  - rewrite list_lookup_insert_eq by (by apply lookup_lt_Some in Hl). rewrite Hl.
    cbn. by rewrite Nat.eqb_refl.
  - rewrite list_lookup_insert_ne by done. destruct (sets c !! i); [|done]. cbn.
    by destruct (Nat.eqb_spec (set_of c p) i).
Qed.

Lemma lookup_ctx n c p b : wf n c -> blks c !! p = Some b -> -1 <= CacheBlk.contextSrc b.
Proof. intros Hc Hb. by apply (Forall_lookup_1 _ _ _ _ (wf_ctx n c Hc) Hb). Qed.

(** A hit changes only the recency order and the block's reference count. *)
Lemma access_ok n now c addr : wf n c -> exists o lat c', accessBlock now c addr = Ok (o, lat, c') /\
  findBlock c addr = Ok o /\ wf n c' /\ same_geom c c' /\
  order_after c c' (match o with Some p => [p] | None => [] end) /\
  (forall a p, holds c' a p <-> holds c a p).
Proof.
  intros Hc. destruct (findBlock_holds n c addr Hc) as (o & Hf & Ho).
  pose proof Hf as Hf0. unfold accessBlock. unfold findBlock in Hf. destruct (vget (sets c) (extractSet c addr)) as [ptrs|] eqn:Hv; [|done].
  rewrite bind_Ok in Hf. bind_step. rewrite Hf. bind_step. destruct o as [p|].
  2:{ eexists _, _, c. split_and!; try done. by apply order_none. }
  destruct Ho as [Hp (b & Hb & Hbt & Hbv)].
  destruct (order_touch n c addr p Hc Hp) as (c1 & Hm & Hc1 & Hg & Eb & Es & Hord).
  rewrite Hm. bind_step. rewrite Eb, Hb. cbn [at_index]. bind_step.
  set (f := fun b => CacheBlk.set_refCount b (CacheBlk.refCount b + 1)).
  assert (Hb1 : blks c1 !! p = Some b) by (by rewrite Eb).
  destruct (upd_blk_wf n c1 p b f Hc1 Hb1) as [Hu Hc2].
  { apply (lookup_ctx n c1 p b Hc1 Hb1). }
  fold f. rewrite Hu. bind_step. eexists _, _, _. split; [done|]. split_and!; try done.
  - etrans; [done|apply same_geom_blks].
  - intros a q. unfold holds.
    pose proof (same_geom_trans _ _ _ Hg (same_geom_blks c1 p (f b))) as Hg2.
    rewrite (sg_set _ _ a Hg2), (sg_tag _ _ a Hg2), (sg_set_of _ _ q Hg2).
    cbn [blks set_blks]. rewrite Eb.
    destruct (decide (p = q)) as [<-|Hne].
    + rewrite list_lookup_insert_eq by (by apply lookup_lt_Some in Hb). rewrite Hb.
      split; intros [H1 (b' & [= <-] & H2)]; (split; [done|]); by eexists.
    + by rewrite list_lookup_insert_ne.
Qed.

(** The state differs from [c] in block [p] only, there as [Q] says. *)
Definition only_blk (p : nat) (Q : CacheBlk.t -> CacheBlk.t -> Prop) (c c' : t) : Prop :=
  (forall q, q <> p -> blks c' !! q = blks c !! q) /\
  forall b, blks c !! p = Some b -> exists b', blks c' !! p = Some b' /\ Q b b'.

Lemma only_blk_upd n c p b f : wf n c -> blks c !! p = Some b -> -1 <= CacheBlk.contextSrc (f b) ->
  exists c', upd_blk c p f = Ok c' /\ wf n c' /\ same_geom c c' /\ sets c' = sets c /\
    stats c' = stats c /\ warmedUp c' = warmedUp c /\ blks c' !! p = Some (f b) /\
    forall q, q <> p -> blks c' !! q = blks c !! q.
Proof.
  intros Hc Hb Hf. destruct (upd_blk_wf n c p b f Hc Hb Hf) as [Hu Hw].
  eexists. split; [done|]. split_and!; try done.
  - apply same_geom_blks.
  - apply list_lookup_insert_eq. by apply lookup_lt_Some in Hb.
  - intros q Hq. by apply list_lookup_insert_ne.
Qed.

(** The victim is the last block of the set. *)
Lemma victim_ok n c addr : wf n c -> exists p c' ptrs, findVictim n c addr = Ok (p, c') /\
  wf n c' /\ same_geom c c' /\ sets c' = sets c /\
  sets c !! Z.to_nat (extractSet c addr) = Some ptrs /\ last ptrs = Some p /\
  only_blk p (fun b b' => CacheBlk.tag b' = CacheBlk.tag b /\ CacheBlk.status b' = CacheBlk.status b) c c'.
Proof.
  intros Hc. destruct (set_at n c addr Hc) as (ptrs & Hv & Hl & _).
  destruct (set_NoDup n c _ ptrs Hc Hl) as (_ & Hlen & Hin). pose proof (wf_assoc n c Hc).
  destruct (vget_lt ptrs (assoc c - 1)) as (p & Hp & Hp'); [lia|].
  assert (Hlast : last ptrs = Some p).
  { rewrite last_lookup. rewrite <- Hp'. f_equal. lia. }
  assert (Hlt : (p < length (blks c))%nat).
  { rewrite Forall_forall in Hin. apply Hin. by apply list_elem_of_lookup_2 in Hp'. }
  destruct (lookup_lt_is_Some_2 (blks c) p Hlt) as [b Hb].
  unfold findVictim. rewrite Hv. bind_step. rewrite Hp. bind_step. rewrite Hb. cbn [at_index]. bind_step.
  destruct (CacheBlk.isValid b).
  - destruct (occ_add_ok n c (CacheBlk.contextSrc b) (-1) Hc (lookup_ctx n c p b Hc Hb)) as (occ & -> & Ho).
    bind_step.
    destruct (only_blk_upd n c p b (fun b => CacheBlk.set_contextSrc (CacheBlk.set_refCount b 0) (-1)) Hc Hb)
      as (c1 & -> & Hc1 & Hg & Es & _ & _ & Hb1 & Hq); [simpl; lia|]. bind_step.
    eexists p, _, ptrs. split; [done|]. split_and!; try done.
    + by apply set_stats_wf.
    + by apply same_geom_stats.
    + split; [exact Hq|]. intros b0 Hb0. rewrite Hb in Hb0. injection Hb0 as <-.
      eexists. split; [exact Hb1|done].
  - eexists p, c, ptrs. split; [done|]. split_and!; try done. split; [done|]. intros b0 Hb0. by exists b0.
Qed.

Lemma first_touch_ok n now c p b : wf n c -> blks c !! p = Some b ->
  exists c1 b1, first_touch now c p = Ok c1 /\ wf n c1 /\ same_geom c c1 /\ sets c1 = sets c /\
    blks c1 !! p = Some b1 /\ CacheBlk.status b1 = CacheBlk.status b /\
    forall q, q <> p -> blks c1 !! q = blks c !! q.
Proof.
  intros Hc Hb. unfold first_touch. rewrite Hb. cbn [at_index]. bind_step.
  destruct (negb _); [|by exists c, b].
  destruct (only_blk_upd n c p b (fun b => CacheBlk.set_touched b true) Hc Hb)
    as (c1 & -> & Hc1 & Hg & Es & _ & _ & Hb1 & Hq); [apply (lookup_ctx n c p b Hc Hb)|].
  bind_step. eexists _, _. split; [done|]. split_and!; try done.
  - apply set_stats_wf; [done|apply Hc].
  - by apply same_geom_stats.
Qed.

Lemma insert_ok n now c addr p ctx b : wf n c -> blks c !! p = Some b ->
  set_of c p = Z.to_nat (extractSet c addr) -> -1 <= ctx ->
  exists c', insertBlock n now c addr p ctx = Ok c' /\ wf n c' /\ same_geom c c' /\
    order_after c c' [p] /\
    only_blk p (fun b b' => CacheBlk.tag b' = extractTag c addr /\ CacheBlk.status b' = CacheBlk.status b) c c'.
Proof.
  intros Hc Hb Hp Hctx. unfold insertBlock.
  destruct (first_touch_ok n now c p b Hc Hb) as (c1 & b1 & -> & Hc1 & Hg1 & Es1 & Hb1 & Est1 & Hq1).
  bind_step.
  destruct (only_blk_upd n c1 p b1 (fun b => CacheBlk.set_tag b (extractTag c1 addr)) Hc1 Hb1)
    as (c2 & -> & Hc2 & Hg2 & Es2 & Et2 & _ & Hb2 & Hq2); [apply (lookup_ctx n c1 p b1 Hc1 Hb1)|].
  bind_step. destruct (occ_add_ok n c2 ctx 1 Hc2 Hctx) as (occ & -> & Ho). bind_step.
  set (c3 := set_stats c2 _ _). assert (Hc3 : wf n c3) by (by apply set_stats_wf).
  destruct (only_blk_upd n c3 p _ (fun b => CacheBlk.set_contextSrc b ctx) Hc3 Hb2)
    as (c4 & -> & Hc4 & Hg4 & Es4 & _ & _ & Hb4 & Hq4); [done|]. bind_step.
  assert (Hg : same_geom c c4) by (etrans; [exact Hg1|]; etrans; [|exact Hg4]; by apply same_geom_stats).
  destruct (order_touch n c4 addr p Hc4) as (c5 & Hm & Hc5 & Hg5 & Eb5 & _ & Hord).
  { by rewrite (sg_set_of c c4), (sg_set c c4). }
  exists c5. split; [exact Hm|]. split_and!; [done|by etrans| |].
  - intros i. rewrite (Hord i), Es4. change (sets c3) with (sets c2). rewrite Es2, Es1.
    assert (Hf : forall l, uses (fun p0 => set_of c4 p0 =? i)%nat [p] l = uses (fun p0 => set_of c p0 =? i)%nat [p] l).
    { intros l. cbn. by rewrite (sg_set_of c c4 p Hg). }
    destruct (sets c !! i); [|done]. cbn [fmap option_fmap option_map]. by rewrite Hf.
  - split.
    + intros q Hq. rewrite Eb5, Hq4, <- Hq1, <- Hq2 by done. done.
    + intros b0 Hb0. rewrite Hb in Hb0. injection Hb0 as <-.
      eexists. split; [by rewrite Eb5, Hb4|]. split; [|done]. apply (sg_tag c c1 addr Hg1).
Qed.

Lemma invalidate_ok n c p b : wf n c -> blks c !! p = Some b ->
  exists c', invalidateBlk n c (Some p) = Ok c' /\ wf n c' /\ same_geom c c' /\ sets c' = sets c /\
    only_blk p (fun _ b' => CacheBlk.status b' = 0) c c'.
Proof.
  intros Hc Hb. unfold invalidateBlk.
  destruct (only_blk_upd n c p b (fun b => CacheBlk.clearLoadLocks (CacheBlk.set_touched (CacheBlk.set_status b 0) false)) Hc Hb)
    as (c1 & -> & Hc1 & Hg1 & Es1 & _ & _ & Hb1 & Hq1); [apply (lookup_ctx n c p b Hc Hb)|].
  bind_step. rewrite Hb1. cbn [at_index]. bind_step.
  destruct (occ_add_ok n c1 _ (-1) Hc1 (lookup_ctx n c1 p _ Hc1 Hb1)) as (occ & -> & Ho). bind_step.
  destruct (negb _).
  - destruct (only_blk_upd n c1 p _ (fun b => CacheBlk.set_contextSrc b (-1)) Hc1 Hb1)
      as (c2 & -> & Hc2 & Hg2 & Es2 & _ & _ & Hb2 & Hq2); [simpl; lia|]. bind_step.
    eexists. split; [done|]. split_and!.
    + by apply set_stats_wf.
    + apply same_geom_stats. by etrans.
    + simpl. by rewrite Es2.
    + split; [intros q Hq; simpl; by rewrite Hq2, Hq1|].
      intros b0 Hb0. eexists. split; [exact Hb2|done].
  - bind_step. eexists. split; [done|]. split_and!; try done.
    + by apply set_stats_wf.
    + by apply same_geom_stats.
    + split; [exact Hq1|]. intros b0 Hb0. eexists. split; [exact Hb1|done].
Qed.

Lemma status_ok n c p b st : wf n c -> blks c !! p = Some b ->
  exists c', set_blk_status c p st = Ok c' /\ wf n c' /\ same_geom c c' /\ sets c' = sets c /\
    only_blk p (fun b b' => CacheBlk.tag b' = CacheBlk.tag b /\ CacheBlk.status b' = st) c c'.
Proof.
  intros Hc Hb. unfold set_blk_status.
  destruct (only_blk_upd n c p b (fun b => CacheBlk.set_status b st) Hc Hb)
    as (c1 & -> & Hc1 & Hg1 & Es1 & _ & _ & Hb1 & Hq1); [apply (lookup_ctx n c p b Hc Hb)|].
  exists c1. split_and!; try done. split; [exact Hq1|]. intros b0 Hb0. rewrite Hb in Hb0. injection Hb0 as <-.
  eexists. split; [exact Hb1|done].
Qed.

(** Every operation the caller may make succeeds, and orders the sets by its uses. *)
Lemma exec_ok n c o : wf n c -> op_ok c o ->
  exists ps c', exec n c o = Ok (ps, c') /\ wf n c' /\ same_geom c c' /\ order_after c c' ps.
Proof.
  intros Hc Ho. destruct o as [now addr|addr|now addr p ctx|p|p st]; cbn [exec op_ok] in *.
  - destruct (access_ok n now c addr Hc) as (o & lat & c' & -> & _ & Hc' & Hg & Hord & _). bind_step.
    by eexists _, _.
  - destruct (victim_ok n c addr Hc) as (p & c' & ptrs & -> & Hc' & Hg & Es & _). bind_step.
    eexists _, _. split_and!; try done. by apply order_none.
  - destruct Ho as (Hlt & Hp & Hctx). destruct (lookup_lt_is_Some_2 (blks c) p Hlt) as [b Hb].
    destruct (insert_ok n now c addr p ctx b Hc Hb Hp Hctx) as (c' & -> & Hc' & Hg & Hord & _). bind_step.
    by eexists _, _.
  - destruct (lookup_lt_is_Some_2 (blks c) p Ho) as [b Hb].
    destruct (invalidate_ok n c p b Hc Hb) as (c' & -> & Hc' & Hg & Es & _). bind_step.
    eexists _, _. split_and!; try done. by apply order_none.
  - destruct (lookup_lt_is_Some_2 (blks c) p Ho) as [b Hb].
    destruct (status_ok n c p b st Hc Hb) as (c' & -> & Hc' & Hg & Es & _). bind_step.
    eexists _, _. split_and!; try done. by apply order_none.
Qed.

Fixpoint run (n : Z) (c : t) (os : list op) : res (list nat * t) :=
  match os with
  | [] => Ok ([], c)
  | o :: os => r ← exec n c o; r2 ← run n r.2 os; Ok (r.1 ++ r2.1, r2.2)
  end.

Lemma op_ok_geom c c' o : same_geom c c' -> op_ok c o -> op_ok c' o.
Proof.
  intros Hg. destruct o; simpl; rewrite ?(sg_blks c c' Hg); try done.
  by rewrite (sg_set_of c c' _ Hg), (sg_set c c' _ Hg).
Qed.

Lemma tag_run_ok n os : forall c, wf n c -> Forall (op_ok c) os ->
  exists ps c', run n c os = Ok (ps, c') /\ wf n c' /\ same_geom c c' /\ order_after c c' ps.
Proof.
  induction os as [|o os IH]; intros c Hc Hos.
  { exists [], c. split_and!; try done. by apply order_none. }
  apply Forall_cons in Hos as [Ho Hos].
  destruct (exec_ok n c o Hc Ho) as (ps & c1 & E & Hc1 & Hg & Hord). cbn [run]. rewrite E. bind_step.
  cbn [fst snd]. destruct (IH c1 Hc1) as (ps2 & c' & -> & Hc' & Hg' & Hord').
  { eapply Forall_impl; [done|]. intros o'. by apply op_ok_geom. }
  bind_step. exists (ps ++ ps2), c'. split_and!; [done|done|by etrans|].
  intros i. rewrite (Hord' i), (Hord i). destruct (sets c !! i) as [l|]; [|done]. cbn.
  f_equal. rewrite uses_app. apply uses_ext. intros p. by rewrite (sg_set_of c c1 p Hg).
Qed.

(** ** Filling and invalidating *)
Definition same_line (c : t) (a a' : Z) : Prop :=
  extractTag c a = extractTag c a' /\ extractSet c a = extractSet c a'.

Lemma status_valid b st : CacheBlk.status b = st -> Z.land st CacheBlk.BlkValid <> 0 -> CacheBlk.isValid b = true.
Proof. intros <- H. unfold CacheBlk.isValid. by destruct (Z.eqb_spec (Z.land (CacheBlk.status b) CacheBlk.BlkValid) 0). Qed.

(** The blocks of a store that differs in block [v] only. *)
Lemma holds_other c c' v Q a p : same_geom c c' -> only_blk v Q c c' -> p <> v ->
  holds c' a p <-> holds c a p.
Proof.
  intros Hg [Hq _] Hne. unfold holds.
  by rewrite (sg_set c c' a Hg), (sg_tag c c' a Hg), (sg_set_of c c' p Hg), (Hq p Hne).
Qed.

Lemma only_blk_trans c1 c2 c3 p Q1 Q2 : only_blk p Q1 c1 c2 -> only_blk p Q2 c2 c3 ->
  only_blk p (fun b b'' => exists b', Q1 b b' /\ Q2 b' b'') c1 c3.
Proof.
  intros [H1 K1] [H2 K2]. split.
  - intros q Hq. by rewrite (H2 q Hq), (H1 q Hq).
  - intros b Hb. destruct (K1 b Hb) as (b' & Hb' & HQ1). destruct (K2 b' Hb') as (b'' & Hb'' & HQ2).
    exists b''. split; [done|]. by exists b'.
Qed.

Lemma extractSet_inj n c a a' : wf n c ->
  Z.to_nat (extractSet c a) = Z.to_nat (extractSet c a') -> extractSet c a = extractSet c a'.
Proof.
  intros Hc H. destruct (extractSet_mod n c a Hc) as [_ H1]. destruct (extractSet_mod n c a' Hc) as [_ H2]. lia.
Qed.

(** A fill on a miss. *)
Lemma fill_ok n now c addr ctx st :
  wf n c -> unique c -> findBlock c addr = Ok None -> -1 <= ctx -> Z.land st CacheBlk.BlkValid <> 0 ->
  exists v c1 c2 c3, findVictim n c addr = Ok (v, c1) /\ insertBlock n now c1 addr v ctx = Ok c2 /\
    set_blk_status c2 v st = Ok c3 /\ wf n c3 /\ unique c3 /\
    findBlock c3 addr = Ok (Some v) /\
    forall a, ~ same_line c a addr ->
      findBlock c3 a = (o ← findBlock c a; Ok (if decide (o = Some v) then None else o)).
Proof.
  intros Hc Hu Hmiss Hctx Hst.
  destruct (victim_ok n c addr Hc) as (v & c1 & ptrs & Hv & Hc1 & Hg1 & _ & Hl & Hlast & Ho1).
  assert (Hvs : set_of c v = Z.to_nat (extractSet c addr)).
  { apply (elem_of_set n c _ ptrs v Hc Hl). by apply last_Some_elem_of. }
  destruct (set_NoDup n c _ ptrs Hc Hl) as (_ & _ & Hlts). rewrite Forall_forall in Hlts.
  destruct (lookup_lt_is_Some_2 (blks c) v) as [b0 Hb0]; [by apply Hlts, last_Some_elem_of|].
  destruct (proj2 Ho1 b0 Hb0) as (b1 & Hb1 & _).
  destruct (insert_ok n now c1 addr v ctx b1 Hc1 Hb1) as (c2 & Hi & Hc2 & Hg2 & _ & Ho2); [|done|].
  { by rewrite (sg_set_of c c1 v Hg1), (sg_set c c1 addr Hg1). }
  destruct (proj2 Ho2 b1 Hb1) as (b2 & Hb2 & Et2 & _).
  destruct (status_ok n c2 v b2 st Hc2 Hb2) as (c3 & Hs & Hc3 & Hg3 & _ & Ho3).
  destruct (proj2 Ho3 b2 Hb2) as (b3 & Hb3 & Et3 & Es3).
  assert (Hg : same_geom c c3) by (etrans; [done|]; by etrans).
  assert (Hother : forall a p, p <> v -> holds c3 a p <-> holds c a p).
  { intros a p Hp. eapply holds_other; [done| |done].
    eapply only_blk_trans; [|done]. eapply only_blk_trans; done. }
  assert (Hmine : forall a, holds c3 a v <-> same_line c a addr).
  { intros a. unfold holds, same_line. rewrite (sg_set c c3 a Hg), (sg_tag c c3 a Hg), (sg_set_of c c3 v Hg).
    assert (Et : CacheBlk.tag b3 = extractTag c addr) by (rewrite Et3, Et2; apply (sg_tag c c1 addr Hg1)).
    split.
    - intros [H1 (b & Hb & Hbt & _)]. rewrite Hb3 in Hb. injection Hb as <-.
      split; [congruence|]. apply (extractSet_inj n c); [done|congruence].
    - intros [H1 H2]. split; [congruence|]. exists b3. split_and!; [done|congruence|].
      by apply (status_valid b3 st). }
  destruct (findBlock_holds n c addr Hc) as (o & Ef & Hf). rewrite Hmiss in Ef. injection Ef as <-.
  assert (Hmiss' : forall a p, same_line c a addr -> ~ holds c a p).
  { intros a p [H1 H2] [K1 K2]. apply (Hf p). split; [by rewrite <- H2|by rewrite <- H1]. }
  assert (Hu3 : unique c3).
  { intros a p q Hp Hq. destruct (decide (p = v)) as [->|Hpv], (decide (q = v)) as [->|Hqv]; [done| | |].
    - apply Hmine in Hp. apply Hother in Hq; [|done]. by destruct (Hmiss' a q Hp).
    - apply Hmine in Hq. apply Hother in Hp; [|done]. by destruct (Hmiss' a p Hq).
    - apply Hother in Hp; [|done]. apply Hother in Hq; [|done]. by apply (Hu a). }
  exists v, c1, c2, c3. split_and!; try done.
  - apply (findBlock_iff n); [done|done|]. by apply Hmine.
  - intros a Ha. destruct (findBlock_holds n c a Hc) as (o & -> & Ho). bind_step.
    destruct (findBlock_holds n c3 a Hc3) as (o3 & -> & Ho3'). f_equal.
    destruct o3 as [q|].
    + assert (q <> v) by (intros ->; by apply Ha, Hmine). apply Hother in Ho3'; [|done].
      destruct o as [p|]; [|by destruct (Ho q)]. rewrite (Hu a p q Ho Ho3'). by rewrite decide_False by congruence.
    + destruct o as [p|]; [|by rewrite decide_False]. destruct (decide (Some p = Some v)) as [[= ->]|Hne]; [done|].
      exfalso. apply (Ho3' p). apply Hother; [congruence|done].
Qed.
