(* ===== verification/CacheTagsTheorems.v ===== *)
(** * Theorems on cache blocks and the LRU tag store *)
From S2P Require Import Prelude IntMath BPred CacheTags CacheTagsProof Request Packet.
Import IntMath LRU.

(** ** Construction *)
Lemma lookup_map_seq {A} (f : nat -> A) n i x :
  map f (seq 0 n) !! i = Some x -> (i < n)%nat /\ x = f i.
Proof.
  change (map f (seq 0 n)) with (f <$> seq 0 n). rewrite list_lookup_fmap_Some.
  intros (j & -> & [Hj ?]%lookup_seq). simpl in Hj. by subst.
Qed.

Lemma length_concat_const {A} (ls : list (list A)) k :
  Forall (fun l => length l = k) ls -> length (concat ls) = (length ls * k)%nat.
Proof.
  induction 1 as [|l ls Hl _ IH]; [done|]. simpl. rewrite length_app. lia.
Qed.

Lemma pow2_shift n : 0 <= n < 2 ^ 32 -> isPowerOf2 32 n = true ->
  exists k, 0 <= k < 32 /\ n = 2 ^ k /\ floorLog2 n = Ok k.
Proof.
  intros Hn Hp. apply isPowerOf2_log2 in Hp as [Hpos E]; [|lia|lia].
  exists (Z.log2 n). split_and!; [apply Z.log2_nonneg|apply Z.log2_lt_pow2; lia|done|].
  apply floorLog2_log2. lia.
Qed.

Lemma lru_new_wf n numSets blkSize assoc lat st c :
  0 <= numSets < 2 ^ 32 -> 0 <= blkSize < 2 ^ 32 -> 0 < n ->
  Z.of_nat (length (occupancies st)) = n + 1 ->
  new numSets blkSize assoc lat st = Ok c -> wf n c /\ unique c.
Proof.
  intros Hs Hb Hn Ho. unfold new.
  destruct (blkSize <? 4); [done|]. destruct (isPowerOf2 32 blkSize) eqn:E1; [|done]. cbn [orb negb].
  destruct (numSets <=? 0); [done|]. destruct (isPowerOf2 32 numSets) eqn:E2; [|done]. cbn [orb negb].
  destruct (Z.leb_spec assoc 0); [done|]. destruct (lat <=? 0); [done|].
  destruct (pow2_shift blkSize Hb E1) as (k & Hk & Ek & ->). bind_step.
  destruct (pow2_shift numSets Hs E2) as (m & Hm & Em & ->). bind_step.
  destruct (2 ^ 32 <=? numSets * assoc); [done|]. intros [= <-].
  set (bs := concat _). assert (Hbs : Forall (fun b => CacheBlk.contextSrc b = -1 /\ CacheBlk.status b = 0) bs).
  { apply Forall_forall. intros b (l & Hl & Hin)%elem_of_concat.
    apply elem_of_map in Hl as (i & -> & _). by apply elem_of_map in Hin as (j & -> & _). }
  split.
  - split; cbn [LRU.numSets LRU.blkSize LRU.assoc hitLatency sets blks setShift tagShift setMask blkMask
      warmupBound warmedUp numBlocks stats]; try done; try lia; try (by eexists).
    + by exists k.
    + by rewrite length_map, length_seq.
    + intros i ptrs Hi. by apply lookup_map_seq in Hi as [_ ->].
    + unfold bs. rewrite (length_concat_const _ (Z.to_nat assoc)); [by rewrite length_map, length_seq|].
      apply Forall_map, Forall_true. intros i. simpl. by rewrite length_map, length_seq.
    + eapply Forall_impl; [done|]. intros b [-> _]. lia.
  - intros addr p q [_ (b & Hb' & _ & Hv)] _. cbn [blks] in Hb'.
    destruct (Forall_lookup_1 _ _ _ _ Hbs Hb') as [_ E]. unfold CacheBlk.isValid in Hv. by rewrite E in Hv.
Qed.

(** ** Addresses *)
Lemma lor_add_low a b n : 0 <= n -> 0 <= b < 2 ^ n -> Z.lor (a * 2 ^ n) b = a * 2 ^ n + b.
Proof.
  intros Hn Hb. rewrite <- Z.add_lor_land.
  replace (Z.land (a * 2 ^ n) b) with 0; [lia|]. symmetry. apply Z.bits_inj'. intros i Hi.
  rewrite Z.land_spec, Z.bits_0. destruct (Z.lt_ge_cases i n).
  - by rewrite Z.mul_pow2_bits_low.
  - by rewrite (ByteSwap.testbit_lt b n), andb_false_r.
Qed.

Lemma addr_arith n c addr : wf n c -> 0 <= addr ->
  exists k m, 0 <= k < 32 /\ 0 <= m < 32 /\ blkSize c = 2 ^ k /\ setShift c = k /\ tagShift c = k + m /\
    extractTag c addr = addr / 2 ^ k / 2 ^ m /\ extractSet c addr = (addr / 2 ^ k) mod 2 ^ m.
Proof.
  intros Hc Ha. destruct (wf_blkSize n c Hc) as (k & Hk & Eb & Es).
  destruct (wf_numSets n c Hc) as (m & Hm & En & Et). exists k, m.
  destruct (extractSet_mod n c addr Hc) as [E _]. rewrite Eb, En in E.
  split_and!; try done; try lia. unfold extractTag. rewrite Et, Es, Z.shiftr_div_pow2 by lia.
  rewrite Z.pow_add_r by lia. symmetry. apply Z.div_div; [|apply Z.pow_pos_nonneg; lia].
  apply Z.pow_nonzero; lia.
Qed.

Lemma blkAlign_eq n c addr : wf n c -> 0 <= addr < 2 ^ 64 ->
  blkAlign c addr = addr / blkSize c * blkSize c /\ extractBlkOffset c addr = addr mod blkSize c.
Proof.
  intros Hc Ha. destruct (wf_blkSize n c Hc) as (k & Hk & Eb & _).
  unfold blkAlign, extractBlkOffset. rewrite (wf_blkMask n c Hc), Eb, Z.sub_1_r, <- Z.ones_equiv.
  rewrite land_not by lia. rewrite Z.land_ones by lia. rewrite ldiff_ones_div by lia. done.
Qed.

Lemma address_split n c addr addr' :
  wf n c -> 0 <= addr < 2 ^ 64 -> 0 <= addr' < 2 ^ 64 ->
  regenerateBlkAddr c (extractTag c addr) (extractSet c addr) = blkAlign c addr /\
  blkAlign c addr + extractBlkOffset c addr = addr /\
  (extractTag c addr = extractTag c addr' /\ extractSet c addr = extractSet c addr' <->
   blkAlign c addr = blkAlign c addr').
Proof.
  intros Hc Ha Ha'. destruct (blkAlign_eq n c addr Hc Ha) as [EA EO].
  destruct (blkAlign_eq n c addr' Hc Ha') as [EA' _]. rewrite EA, EO, EA'.
  destruct (addr_arith n c addr Hc) as (k & m & Hk & Hm & Eb & Es & Et & E1 & E2); [lia|].
  destruct (addr_arith n c addr' Hc) as (k' & m' & _ & _ & _ & Es' & Et' & E1' & E2'); [lia|].
  assert (k' = k) as -> by lia. assert (m' = m) as -> by lia. rewrite Eb.
  assert (0 < 2 ^ k) by (apply Z.pow_pos_nonneg; lia). assert (0 < 2 ^ m) by (apply Z.pow_pos_nonneg; lia).
  pose proof (Z.div_mod (addr / 2 ^ k) (2 ^ m) ltac:(lia)) as D.
  pose proof (Z.div_mod (addr' / 2 ^ k) (2 ^ m) ltac:(lia)) as D'.
  pose proof (Z.mod_pos_bound (addr / 2 ^ k) (2 ^ m) ltac:(lia)) as B.
  assert (0 <= addr / 2 ^ k) by (apply Z.div_pos; lia).
  assert (addr / 2 ^ k * 2 ^ k <= addr) by (pose proof (Z.mul_div_le addr (2 ^ k) ltac:(lia)); lia).
  assert (0 <= addr / 2 ^ k / 2 ^ m) by (apply Z.div_pos; lia). split_and!.
  - unfold regenerateBlkAddr. rewrite E1, E2, Et, Es, !Z.shiftl_mul_pow2 by lia.
    rewrite Z.pow_add_r by lia.
    rewrite (uint_small 64 (addr / 2 ^ k / 2 ^ m * _)) by nia.
    rewrite (uint_small 64 ((addr / 2 ^ k) mod 2 ^ m * _)) by nia.
    rewrite <- Z.pow_add_r by lia. rewrite lor_add_low; [rewrite Z.pow_add_r by lia; nia|lia|].
    rewrite Z.pow_add_r by lia. nia.
  - pose proof (Z.div_mod addr (2 ^ k) ltac:(lia)). lia.
  - rewrite E1, E2, E1', E2'. split.
    + intros [Q1 Q2]. f_equal. rewrite D, D', Q1, Q2. done.
    + intros Q3. assert (addr / 2 ^ k = addr' / 2 ^ k) as -> by nia. done.
Qed.

(** Addresses split into tag, set and offset without loss: tag and set
    rebuild the block address, the block address and the offset the address,
    and two addresses have the same tag and set exactly when they are in the
    same block. *)
Theorem address_roundtrip n c addr addr' :
  wf n c -> 0 <= addr < 2 ^ 64 -> 0 <= addr' < 2 ^ 64 ->
  regenerateBlkAddr c (extractTag c addr) (extractSet c addr) = blkAlign c addr /\
  blkAlign c addr + extractBlkOffset c addr = addr /\
  (extractTag c addr = extractTag c addr' /\ extractSet c addr = extractSet c addr' <->
   blkAlign c addr = blkAlign c addr').
Proof. apply address_split. Qed.

(** A store of four sets of two 64-byte blocks, for one CPU. *)
Definition demo_stats : Stats := mkStats 0 0 0 0 0 [0; 0].
Definition demo_lru : t :=
  match new 4 64 2 1 demo_stats with Ok c => c | Er _ => mk 0 0 0 0 [] [] 0 0 0 0 0 false 0 demo_stats end.
Lemma demo_lru_ok : wf 1 demo_lru /\ unique demo_lru.
Proof. by apply (lru_new_wf 1 4 64 2 1 demo_stats). Qed.

Lemma address_roundtrip_witness :
  regenerateBlkAddr demo_lru (extractTag demo_lru 0x12345) (extractSet demo_lru 0x12345) = 0x12340.
Proof.
  rewrite (proj1 (address_roundtrip 1 demo_lru 0x12345 0 (proj1 demo_lru_ok) ltac:(lia) ltac:(lia))).
  reflexivity.
Defined.

(** C36. Replacement is least recently used: from a well-formed store every
    sequence of accesses, victim selections, insertions, invalidations and
    status changes succeeds, and then the victim chosen for an address is a
    block of its set such that every other block of the set has been used
    since the victim's last use (if it was used at all). *)
Theorem victim_is_least_recently_used n c ops addr :
  wf n c -> Forall (op_ok c) ops ->
  exists ps c1 v c2, run n c ops = Ok (ps, c1) /\ wf n c1 /\ findVictim n c1 addr = Ok (v, c2) /\
    set_of c v = Z.to_nat (extractSet c addr) /\
    forall p, set_of c p = Z.to_nat (extractSet c addr) -> (p < length (blks c))%nat -> p <> v ->
      v ∈ ps -> exists a b, ps = a ++ b /\ (v ∉ b) /\ p ∈ b.
Proof.
  intros Hc Hops. destruct (tag_run_ok n ops c Hc Hops) as (ps & c1 & Hr & Hc1 & Hg & Hord).
  destruct (victim_ok n c1 addr Hc1) as (v & c2 & ptrs & Hv & _ & _ & _ & Hl & Hlast & _).
  exists ps, c1, v, c2. rewrite (sg_set c c1 addr Hg) in Hl.
  assert (Hvs : set_of c v = Z.to_nat (extractSet c addr)).
  { rewrite <- (sg_set_of c c1 v Hg). apply (elem_of_set n c1 _ ptrs v Hc1 Hl).
    by apply last_Some_elem_of. }
  split_and!; try done. intros p Hp Hlt Hne Hin.
  pose proof (Hord (Z.to_nat (extractSet c addr))) as Ho. rewrite Hl in Ho.
  destruct (sets c !! Z.to_nat (extractSet c addr)) as [l|] eqn:El; [|done]. injection Ho as Ho.
  destruct (set_NoDup n c _ l Hc El) as (Hnd & _ & _).
  apply (uses_recency (fun p => set_of c p =? Z.to_nat (extractSet c addr))%nat ps l p v); try done.
  - by apply Nat.eqb_eq.
  - by apply Nat.eqb_eq.
  - rewrite <- Ho. apply last_after; [done| |done].
    apply (elem_of_set n c1 _ ptrs p Hc1 Hl). by rewrite (sg_set_of c c1 p Hg).
Qed.

Lemma victim_is_least_recently_used_witness :
  exists ps c1 v c2, run 1 demo_lru
      [OpInsert 0 0 0%nat 0; OpStatus 0 1; OpInsert 0 256 1%nat 0; OpStatus 1 1; OpAccess 5 0]
        = Ok (ps, c1) /\ findVictim 1 c1 512 = Ok (v, c2) /\ v = 1%nat.
Proof.
  destruct (victim_is_least_recently_used 1 demo_lru
    [OpInsert 0 0 0%nat 0; OpStatus 0 1; OpInsert 0 256 1%nat 0; OpStatus 1 1; OpAccess 5 0] 512)
    as (ps & c1 & v & c2 & Hr & _ & Hv & _).
  - apply demo_lru_ok.
  - repeat (apply Forall_cons; split); try apply Forall_nil_2; try exact I; cbn [op_ok];
      try (split; [|split]); vm_compute; try reflexivity; try congruence; lia.
  - exists ps, c1, v, c2. split; [exact Hr|]. split; [exact Hv|].
    vm_compute in Hr. injection Hr as <- <-. vm_compute in Hv. injection Hv as <- _. reflexivity.
Defined.

(** ** Filling and invalidating *)

(** Filling a line on a miss: the victim, once inserted and marked valid,
    is what lookups of the line find; lookups of every other line are as
    before, except that the victim's old line is gone; and no line is held
    twice. *)
Theorem fill_then_find n now c addr ctx st :
  wf n c -> unique c -> findBlock c addr = Ok None -> -1 <= ctx -> Z.land st CacheBlk.BlkValid <> 0 ->
  exists v c1 c2 c3, findVictim n c addr = Ok (v, c1) /\ insertBlock n now c1 addr v ctx = Ok c2 /\
    set_blk_status c2 v st = Ok c3 /\ wf n c3 /\ unique c3 /\
    findBlock c3 addr = Ok (Some v) /\
    forall a, ~ same_line c a addr ->
      findBlock c3 a = (o ← findBlock c a; Ok (if decide (o = Some v) then None else o)).
Proof. apply fill_ok. Qed.

Lemma fill_then_find_witness :
  exists v c1 c2 c3, findVictim 1 demo_lru 0x1000 = Ok (v, c1) /\
    insertBlock 1 7 c1 0x1000 v 0 = Ok c2 /\ set_blk_status c2 v 5 = Ok c3 /\
    findBlock c3 0x1000 = Ok (Some v).
Proof.
  destruct (fill_then_find 1 7 demo_lru 0x1000 0 5) as (v & c1 & c2 & c3 & H1 & H2 & H3 & _ & _ & H4 & _).
  - apply demo_lru_ok.
  - apply demo_lru_ok.
  - reflexivity.
  - lia.
  - vm_compute. congruence.
  - exists v, c1, c2, c3. split_and!; [exact H1|exact H2|exact H3|exact H4].
Defined.

(** Invalidating the block of a line: the line misses afterwards, every
    other line is found where it was, and no line is held twice. *)
Theorem invalidate_then_miss n c addr p :
  wf n c -> unique c -> findBlock c addr = Ok (Some p) ->
  exists c', invalidateBlk n c (Some p) = Ok c' /\ wf n c' /\ unique c' /\
    findBlock c' addr = Ok None /\
    forall a, ~ same_line c a addr -> findBlock c' a = findBlock c a.
Proof.
  intros Hc Hu Hf. apply (findBlock_iff n c addr p Hc Hu) in Hf.
  destruct Hf as [Hset (b & Hb & Ht & Hv)].
  destruct (invalidate_ok n c p b Hc Hb) as (c' & Hi & Hc' & Hg & _ & Ho).
  destruct (proj2 Ho b Hb) as (b' & Hb' & Hs').
  assert (Hother : forall a q, q <> p -> holds c' a q <-> holds c a q).
  { intros a q Hq. by eapply holds_other. }
  assert (Hmine : forall a, ~ holds c' a p).
  { intros a [_ (b0 & Hb0 & _ & Hv0)]. rewrite Hb' in Hb0. injection Hb0 as <-.
    unfold CacheBlk.isValid in Hv0. by rewrite Hs' in Hv0. }
  assert (Hold : forall a, holds c a p -> same_line c a addr).
  { intros a [H1 (b0 & Hb0 & Ht0 & _)]. rewrite Hb in Hb0. injection Hb0 as <-.
    split; [congruence|]. apply (extractSet_inj n c); [done|congruence]. }
  assert (Hu' : unique c').
  { intros a q r Hq Hr. assert (q <> p) by (intros ->; by apply (Hmine a)).
    assert (r <> p) by (intros ->; by apply (Hmine a)).
    apply Hother in Hq; [|done]. apply Hother in Hr; [|done]. by apply (Hu a). }
  exists c'. split_and!; try done.
  - destruct (findBlock_holds n c' addr Hc') as ([q|] & -> & Hq); [|done]. exfalso.
    assert (q <> p) by (intros ->; by apply (Hmine addr)). apply Hother in Hq; [|done].
    assert (q = p); [|done]. apply (Hu addr); [done|]. split; [done|]. by exists b.
  - intros a Ha. apply (findBlock_same n); try done. intros q.
    destruct (decide (q = p)) as [->|Hne]; [|by apply Hother].
    split; [by intros ?%Hmine|]. intros Hq. by destruct (Ha (Hold a Hq)).
Qed.

(** The demonstration store after line 0x1000 is filled. *)
Definition demo_filled : t :=
  match run 1 demo_lru [OpVictim 0x1000; OpInsert 7 0x1000 1%nat 0; OpStatus 1 5] with
  | Ok (_, c) => c | Er _ => demo_lru end.

Lemma demo_filled_ok : wf 1 demo_filled /\ unique demo_filled.
Proof.
  destruct (fill_ok 1 7 demo_lru 0x1000 0 5) as (v & c1 & c2 & c3 & H1 & H2 & H3 & H4 & H5 & _);
    [apply demo_lru_ok|apply demo_lru_ok|reflexivity|lia|vm_compute; congruence|].
  assert (demo_filled = c3) as ->; [|done].
  vm_compute in H1. injection H1 as <- <-. vm_compute in H2. injection H2 as <-.
  vm_compute in H3. injection H3 as <-. reflexivity.
Qed.

Lemma invalidate_then_miss_witness :
  exists c', invalidateBlk 1 demo_filled (Some 1%nat) = Ok c' /\ findBlock c' 0x1000 = Ok None.
Proof.
  destruct (invalidate_then_miss 1 demo_filled 0x1000 1%nat) as (c' & H1 & _ & _ & H2 & _).
  - apply demo_filled_ok.
  - apply demo_filled_ok.
  - vm_compute. reflexivity.
  - exists c'. split; [exact H1|exact H2].
Defined.

(** Load-locked and store-conditional on one block: every sequence of
    locked loads and writes runs, and then a store conditional succeeds exactly
    when its context has load-locked the block since the last write (plain or
    conditional, by any context); it reports the outcome in its request. *)
Theorem store_conditional_succeeds b l pkt :
  CacheBlk.lockList b = [] -> forallb CacheBlk.access_ok l = true ->
  Packet.isLLSC pkt = true -> Request.hasContextId (Packet.req pkt) = true ->
  exists rs b1 ok req b2, CacheBlk.run b l = Ok (rs, b1) /\ CacheBlk.checkWrite b1 pkt = Ok (ok, req, b2) /\
    (ok = true <-> exists l1 pkt' l2, l = l1 ++ CacheBlk.LoadLocked pkt' :: l2 /\
       CacheBlk.ctx pkt' = CacheBlk.ctx pkt /\ forallb CacheBlk.is_lock l2 = true) /\
    Request.getExtraData req = Ok (if ok then 1 else 0) /\ CacheBlk.lockList b2 = [].
Proof.
  intros Hb Hl Hsc Hctx. destruct (CacheBlk.locks_run_ok l b Hl) as (rs & b1 & Hr & Hb1). rewrite Hb in Hb1.
  destruct (CacheBlk.matchesContext_ok (CacheBlk.lockList b1) _ Hctx) as (ok & Hm & Hok).
  exists rs, b1, ok, (Request.setExtraData (Packet.req pkt) (if ok then 1 else 0)), (CacheBlk.clearLoadLocks b1).
  split_and!; try done.
  - unfold CacheBlk.checkWrite. rewrite Hsc, Hm. by bind_step.
  - rewrite Hok, Hb1. rewrite (CacheBlk.holders_spec l [] (CacheBlk.ctx pkt)).
    split; [intros [?|[?%elem_of_nil _]]; done|by left].
  - unfold Request.getExtraData, Request.setExtraData. cbn [Request.privateFlags Request._extraData].
    rewrite Request.isSet_set_bits, orb_true_r. cbn [c_assert]. by bind_step.
Qed.

(** An LL/SC access and a plain store of context [c]. *)
Definition demo_access (cmd : MemCmd.Command) (c : Z) : Packet.t :=
  Packet.mk 0 cmd (Request.mk 0 0 0 Request.VALID_CONTEXT_ID 0 0 0 0 c 0 0) None 0 0 0 0
    MemCmd.InvalidCmd 0 0 0 None.

Lemma store_conditional_succeeds_witness :
  exists rs b1 req b2, CacheBlk.run CacheBlk.new
      [CacheBlk.Write (demo_access MemCmd.WriteReq 1); CacheBlk.LoadLocked (demo_access MemCmd.LoadLockedReq 3)]
        = Ok (rs, b1) /\
    CacheBlk.checkWrite b1 (demo_access MemCmd.StoreCondReq 3) = Ok (true, req, b2).
Proof.
  destruct (store_conditional_succeeds CacheBlk.new
    [CacheBlk.Write (demo_access MemCmd.WriteReq 1); CacheBlk.LoadLocked (demo_access MemCmd.LoadLockedReq 3)]
    (demo_access MemCmd.StoreCondReq 3)) as (rs & b1 & ok & req & b2 & H1 & H2 & H3 & _).
  - reflexivity.
  - reflexivity.
  - reflexivity.
  - reflexivity.
  - exists rs, b1, req, b2. split; [exact H1|]. rewrite H2.
    assert (ok = true) as ->; [|reflexivity]. apply H3.
    exists [CacheBlk.Write (demo_access MemCmd.WriteReq 1)], (demo_access MemCmd.LoadLockedReq 3), [].
    split; [reflexivity|]. split; reflexivity.
Defined.
