(* ===== verification/PacketTheorems.v ===== *)
(** * Theorems on requests and packets *)
From S2P Require Import Prelude EventQueue IntMath Request Packet.
Import Packet.

(** The command table is consistent: a command that needs a response is a
    request, and its response command is a response that needs no further one,
    moves data in the same directions, and is not an error; a command that
    needs none has no response command; no command is both request and
    response; a request that writes and a response that reads carry data;
    an error is a response without data. *)
Theorem command_table_consistent c :
  let r := MemCmd.responseCommand c in
  (MemCmd.needsResponse c = true ->
     MemCmd.isRequest c = true /\ MemCmd.isResponse r = true /\ MemCmd.needsResponse r = false /\
     MemCmd.isError r = false /\
     MemCmd.isRead r = MemCmd.isRead c /\ MemCmd.isWrite r = MemCmd.isWrite c) /\
  (MemCmd.needsResponse c = false -> r = MemCmd.InvalidCmd) /\
  MemCmd.isRequest c && MemCmd.isResponse c = false /\
  (MemCmd.isRequest c && MemCmd.isWrite c = true -> MemCmd.hasData c = true) /\
  (MemCmd.isResponse c && MemCmd.isRead c = true -> MemCmd.hasData c = true) /\
  (MemCmd.isError c = true -> MemCmd.isResponse c = true /\ MemCmd.hasData c = false).
Proof. destruct c; vm_compute; repeat split; intros; congruence. Qed.

Lemma command_table_consistent_witness :
  MemCmd.isResponse (MemCmd.responseCommand MemCmd.LoadLockedReq) = true.
Proof.
  apply (proj1 (command_table_consistent MemCmd.LoadLockedReq)). reflexivity.
Defined.

(** ** Responses *)
Lemma isSet_set_to fl f v : 0 <= fl -> f <> 0 -> EvQ.isSet (set_to fl f v) f = v.
Proof.
  intros Hfl Hf. unfold EvQ.isSet, set_to, EvQ.clear.
  assert (E : Z.land (Z.lor (Z.land fl (Z.lnot f)) (if v then f else 0)) f = if v then f else 0).
  { apply Z.bits_inj'. intros i Hi. rewrite Z.land_spec, Z.lor_spec, Z.land_spec, Z.lnot_spec by done.
    destruct v; [|rewrite Z.bits_0]; by destruct (Z.testbit fl i), (Z.testbit f i). }
  rewrite E. destruct v; [|done]. by destruct (Z.eqb_spec f 0).
Qed.

Lemma isSet_clear_disjoint fl a b : Z.land a b = 0 -> EvQ.isSet (EvQ.clear fl a) b = EvQ.isSet fl b.
Proof.
  intros H. unfold EvQ.isSet, EvQ.clear. do 2 f_equal. apply Z.bits_inj'. intros i Hi.
  assert (Hb : Z.testbit a i && Z.testbit b i = false) by (rewrite <- Z.land_spec, H; apply Z.bits_0).
  rewrite !Z.land_spec, Z.lnot_spec by done.
  by destruct (Z.testbit fl i), (Z.testbit a i), (Z.testbit b i).
Qed.

Lemma isSet_clear_self fl a : EvQ.isSet (EvQ.clear fl a) a = false.
Proof.
  unfold EvQ.isSet, EvQ.clear.
  assert (Z.land (Z.land fl (Z.lnot a)) a = 0) as ->; [|done].
  apply Z.bits_inj'. intros i Hi. rewrite !Z.land_spec, Z.lnot_spec, Z.bits_0 by done.
  by destruct (Z.testbit fl i), (Z.testbit a i).
Qed.

(** A request that needs a response becomes that response, routed back. *)
Lemma makeResponse_ok p : 0 <= flags p -> needsResponse p = true ->
  exists r, makeResponse p = Ok r /\ cmd r = MemCmd.responseCommand (cmd p) /\ origCmd r = cmd p /\
    dest r = src p /\ isDestValid r = isSrcValid p /\ isSrcValid r = false /\
    data r = data p /\ addr r = addr p /\ size r = size p /\ senderState r = senderState p.
Proof.
  intros Hf Hn. unfold makeResponse. rewrite Hn. cbn [c_assert]. bind_step.
  assert (Hr : isRequest p = true).
  { unfold isRequest, needsResponse in *. by destruct (cmd p). }
  rewrite Hr. cbn [c_assert]. bind_step. eexists. split; [done|]. split_and!; try done.
  - unfold isDestValid, isSrcValid. cbn [flags set_flags set_route set_cmd].
    rewrite isSet_clear_disjoint by done. by apply isSet_set_to.
  - unfold isSrcValid. cbn [flags set_flags]. apply isSet_clear_self.
Qed.

(** A network nack is undone exactly: a request that needs a response can
    be turned into its response, nacked and reinitialised, and is then the
    request again, broadcast; in between, the response goes back to the
    sender. *)
Theorem nack_roundtrip p :
  0 <= flags p -> needsResponse p = true ->
  exists r n p', makeResponse p = Ok r /\ setNacked r = Ok n /\ reinitNacked n = Ok p' /\
    isResponse r = true /\ dest r = src p /\ isDestValid r = isSrcValid p /\
    wasNacked n = true /\ isError n = true /\
    cmd p' = cmd p /\ dest p' = Broadcast /\ isDestValid p' = true /\
    data p' = data p /\ addr p' = addr p /\ size p' = size p.
Proof.
  intros Hf Hn. destruct (makeResponse_ok p Hf Hn) as (r & Hr & Ec & Eo & Ed & Edv & Esv & E1 & E2 & E3 & _).
  assert (Hresp : isResponse r = true).
  { unfold isResponse. rewrite Ec. unfold needsResponse in Hn. by destruct (cmd p). }
  exists r. eexists _, _. split; [done|]. split.
  { unfold setNacked. rewrite Hresp. cbn [c_assert]. by bind_step. }
  split.
  { unfold reinitNacked. unfold wasNacked. cbn [cmd set_cmd]. rewrite bool_decide_eq_true_2 by done.
    cbn [c_assert]. bind_step. unfold needsResponse. cbn [cmd set_cmd origCmd]. rewrite Eo.
    unfold needsResponse in Hn. rewrite Hn. cbn [c_assert]. by bind_step. }
  cbn. split_and!; try done. unfold isDestValid. cbn [flags setDest set_route set_cmd].
  unfold EvQ.isSet, EvQ.set. rewrite Z.land_lor_distr_l.
  destruct (Z.eqb_spec (Z.lor (Z.land (flags r) VALID_DST) (Z.land VALID_DST VALID_DST)) 0) as [E|]; [|done].
  by apply Z.lor_eq_0_iff in E as [_ E].
Qed.

(** A read request from node 3, and one for a write, for the examples. *)
Definition demo_req : Request.t := Request.mk 0x100 8 0 3 0 0 0 0 0 0 0.
Definition demo_pkt (c : MemCmd.Command) (fl : Z) (d : option Bytes.ptr) : t :=
  mk fl c demo_req d 0x104 4 3 0 MemCmd.InvalidCmd 0 0 0 None.

Lemma nack_roundtrip_witness :
  exists r n p', makeResponse (demo_pkt MemCmd.ReadReq 0xf00 None) = Ok r /\ setNacked r = Ok n /\
    reinitNacked n = Ok p' /\ cmd p' = MemCmd.ReadReq.
Proof.
  destruct (nack_roundtrip (demo_pkt MemCmd.ReadReq 0xf00 None))
    as (r & n & p' & H1 & H2 & H3 & _ & _ & _ & _ & _ & H4 & _).
  - vm_compute. congruence.
  - reflexivity.
  - exists r, n, p'. split_and!; [exact H1|exact H2|exact H3|exact H4].
Defined.

(** ** Functional accesses *)

(** A packet with an address and a size, at [fs] and [n] bytes long. *)
Record sized (p : t) (fs n : Z) : Prop := {
  sz_addr : EvQ.isSet (flags p) VALID_ADDR = true;
  sz_size : EvQ.isSet (flags p) VALID_SIZE = true;
  sz_fs : addr p = fs;
  sz_n : size p = n;
  sz_range : 0 <= fs /\ 0 < n < 2 ^ 31 /\ fs + n <= 2 ^ 64
}.

Lemma sized_get p fs n : sized p fs n -> getAddr p = Ok fs /\ getSize p = Ok n.
Proof.
  intros [H1 H2 H3 H4 _]. unfold getAddr, getSize. rewrite H1, H2. cbn [c_assert].
  rewrite !bind_Ok. by rewrite H3, H4.
Qed.

Lemma u64_end a n : 0 <= a -> 0 < n -> a + n <= 2 ^ 64 -> uint 64 (a + n - 1) = a + n - 1.
Proof. intros. apply uint_small. lia. Qed.

(** The distance between two overlapping ranges fits [int]. *)
Lemma offset_small a b : 0 <= a < 2 ^ 64 -> 0 <= b < 2 ^ 64 -> - 2 ^ 31 <= a - b < 2 ^ 31 ->
  sint 32 (uint 64 (a - b)) = a - b.
Proof.
  intros Ha Hb Hd. destruct (Z.le_gt_cases 0 (a - b)).
  - rewrite uint_small by lia. apply sint_small; lia.
  - assert (uint 64 (a - b) = a - b + 2 ^ 64) as ->.
    { unfold uint. symmetry. apply (Z.mod_unique_pos _ _ (-1)); lia. }
    unfold sint. replace (a - b + 2 ^ 64 + 2 ^ (32 - 1)) with (a - b + 2 ^ 31 + 2 ^ 32 * 2 ^ 32) by lia.
    rewrite Z.mod_add by lia. rewrite Z.mod_small by lia. lia.
Qed.

(** A functional write updates exactly the bytes it overlaps: checking a
    write packet against a memory value copies into each byte of the value
    that the packet covers the packet's byte for that address, and changes no
    other byte of that array and no other array; the request goes on. *)
Theorem functional_write fresh garbage m p fs n vs vn db doff pb poff bd bp :
  sized p fs n -> isRead p = false -> isWrite p = true -> isPrint p = false ->
  EvQ.isSet (flags p) (Z.lor STATIC_DATA DYNAMIC_DATA) = true ->
  0 <= vs -> 0 < vn < 2 ^ 31 -> vs + vn <= 2 ^ 64 ->
  m !! db = Some bd -> 0 <= doff -> doff + vn <= Z.of_nat (length bd) ->
  data p = Some (pb, poff) -> m !! pb = Some bp -> 0 <= poff -> poff + n <= Z.of_nat (length bp) ->
  exists bd', checkFunctional fresh garbage m p vs vn (Some (db, doff)) = Ok (false, <[db := bd']> m, p) /\
    length bd' = length bd /\
    forall i, 0 <= i -> bd' !! Z.to_nat i =
      if decide (doff <= i < doff + vn /\ fs <= vs + (i - doff) < fs + n)
      then bp !! Z.to_nat (poff + (vs + (i - doff) - fs)) else bd !! Z.to_nat i.
Proof.
  intros Hp Hr Hw Hpr Hfl Hvs Hvn Hvr Hd Hd1 Hd2 Hpd Hpb Hp1 Hp2.
  destruct (sized_get p fs n Hp) as [Ha Hsz]. destruct (sz_range p fs n Hp) as (Hf0 & Hn & Hfr).
  unfold checkFunctional. rewrite Ha. bind_step. rewrite Hsz. bind_step.
  rewrite (u64_end fs n), (uint_small 64 vn), (u64_end vs vn) by lia.
  destruct ((fs >? vs + vn - 1) || (vs >? fs + n - 1)) eqn:Hdis.
  { exists bd. rewrite insert_id by done. split_and!; [done|done|]. intros i Hi.
    rewrite decide_False; [done|]. lia. }
  rewrite Hpr, Hr, Hw. unfold getPtr. rewrite Hfl. cbn [c_assert]. rewrite !bind_Ok. rewrite Hpd.
  rewrite offset_small by lia.
  destruct (Z.geb_spec (fs - vs) 0).
  - rewrite (uint_small 64) by lia.
    destruct (Bytes.memcpy_ok m db (doff + (fs - vs)) pb poff (Z.min (fs + n - 1) (vs + vn - 1) - fs + 1) bd bp)
      as (bd' & Hm & Hlen & Hb); [done|done|lia..|].
    unfold Bytes.shift. cbn [fst snd]. rewrite Hm. bind_step. exists bd'. split_and!; [done|done|].
    intros i Hi. rewrite Hb by done.
    destruct (decide (doff <= i < doff + vn /\ fs <= vs + (i - doff) < fs + n)).
    + rewrite decide_True by lia. f_equal. lia.
    + by rewrite decide_False by lia.
  - rewrite (uint_small 64) by lia. cbn [option_map]. unfold Bytes.shift. cbn [fst snd].
    destruct (Bytes.memcpy_ok m db doff pb (poff + - (fs - vs)) (Z.min (fs + n - 1) (vs + vn - 1) - vs + 1) bd bp)
      as (bd' & Hm & Hlen & Hb); [done|done|lia..|].
    rewrite Hm. bind_step. exists bd'. split_and!; [done|done|].
    intros i Hi. rewrite Hb by done.
    destruct (decide (doff <= i < doff + vn /\ fs <= vs + (i - doff) < fs + n)).
    + rewrite decide_True by lia. f_equal. lia.
    + by rewrite decide_False by lia.
Qed.

Definition demo_mem : Bytes.mem := {[ 1%positive := [10; 11; 12; 13; 14; 15; 16; 17]; 2%positive := [90; 91; 92; 93] ]}.

Lemma functional_write_witness :
  exists bd', checkFunctional 9 (fun _ => []) demo_mem
      (demo_pkt MemCmd.WriteReq 0x1f00 (Some (2%positive, 0))) 0x100 8 (Some (1%positive, 0))
    = Ok (false, <[1%positive := bd']> demo_mem, demo_pkt MemCmd.WriteReq 0x1f00 (Some (2%positive, 0)))
    /\ length bd' = 8%nat.
Proof.
  destruct (functional_write 9 (fun _ => []) demo_mem (demo_pkt MemCmd.WriteReq 0x1f00 (Some (2%positive, 0)))
    0x104 4 0x100 8 1 0 2 0 [10; 11; 12; 13; 14; 15; 16; 17] [90; 91; 92; 93]) as (bd' & H1 & H2 & _).
  all: try reflexivity; try lia; try (vm_compute; congruence).
  - split; [reflexivity|reflexivity|reflexivity|reflexivity|lia].
  - exists bd'. split; [exact H1|exact H2].
Defined.

(** A functional read that the memory value covers is answered by it: the
    packet becomes its response and its data holds the value's bytes at its
    addresses; one that it covers only in part panics. *)
Theorem functional_read fresh garbage m p fs n vs vn db doff bd :
  sized p fs n -> isRead p = true -> isPrint p = false -> needsResponse p = true -> 0 <= flags p ->
  EvQ.noneSet (flags p) (Z.lor STATIC_DATA DYNAMIC_DATA) = true -> data p = None ->
  m !! fresh = None -> (forall k, 0 <= k -> Z.of_nat (length (garbage k)) = k) ->
  0 <= vs -> 0 < vn < 2 ^ 31 -> vs + vn <= 2 ^ 64 ->
  m !! db = Some bd -> 0 <= doff -> doff + vn <= Z.of_nat (length bd) ->
  (vs <= fs /\ fs + n <= vs + vn ->
     exists m' r l, checkFunctional fresh garbage m p vs vn (Some (db, doff)) = Ok (true, m', r) /\
       cmd r = MemCmd.responseCommand (cmd p) /\ data r = Some (fresh, 0) /\
       m' = <[fresh := l]> m /\ Z.of_nat (length l) = n /\
       forall i, 0 <= i < n -> l !! Z.to_nat i = bd !! Z.to_nat (doff + (fs + i - vs))) /\
  (fs < vs + vn /\ vs < fs + n /\ ~ (vs <= fs /\ fs + n <= vs + vn) ->
     checkFunctional fresh garbage m p vs vn (Some (db, doff)) = Er Panic).
Proof.
  intros Hp Hr Hpr Hnr Hfl0 Hnone Hdat Hfresh Hg Hvs Hvn Hvr Hd Hd1 Hd2.
  destruct (sized_get p fs n Hp) as [Ha Hsz]. destruct (sz_range p fs n Hp) as (Hf0 & Hn & Hfr).
  unfold checkFunctional. rewrite Ha. bind_step. rewrite Hsz. bind_step.
  rewrite (u64_end fs n), (uint_small 64 vn), (u64_end vs vn) by lia. rewrite Hpr, Hr. split.
  - intros Hcov. replace ((fs >? vs + vn - 1) || (vs >? fs + n - 1)) with false by lia.
    replace ((fs >=? vs) && (fs + n - 1 <=? vs + vn - 1)) with true by lia.
    rewrite offset_small by lia. unfold allocate. rewrite Hdat, Hnone. cbn [c_assert]. bind_step.
    set (f := EvQ.set (flags p) (Z.lor DYNAMIC_DATA ARRAY_DATA)).
    assert (Hsz1 : EvQ.isSet f VALID_SIZE = true)
      by (unfold f; rewrite Request.isSet_set_bits, (sz_size p fs n Hp); done).
    assert (Hsz2 : EvQ.isSet f (Z.lor STATIC_DATA DYNAMIC_DATA) = true)
      by (unfold f; rewrite Request.isSet_set_bits; apply orb_true_r).
    unfold getSize. cbn [flags set_flags size set_data]. rewrite Hsz1. cbn [c_assert]. rewrite !bind_Ok.
    cbn [fst snd]. unfold getPtr. cbn [flags set_data data size]. rewrite Hsz2, Hsz1. cbn [c_assert].
    rewrite !bind_Ok. rewrite (sz_n p fs n Hp).
    destruct (Bytes.memcpy_ok (<[fresh := garbage n]> m) fresh 0 db (doff + (fs - vs)) n (garbage n) bd)
      as (l & Hm & Hlen & Hb).
    { by rewrite lookup_insert_eq. }
    { rewrite lookup_insert_ne; [done|]. intros ->. congruence. }
    1-5: rewrite ?Hg; lia.
    unfold Bytes.shift. cbn [fst snd]. rewrite Hm. bind_step.
    destruct (makeResponse_ok (set_data p (Some (fresh, 0)) f)) as (r & -> & Ec & _ & _ & _ & _ & Edata & _).
    { cbn [flags set_data]. unfold f, EvQ.set. apply Z.lor_nonneg. split; [done|vm_compute; congruence]. }
    { exact Hnr. }
    bind_step. eexists _, r, l. split; [done|]. split_and!; try done.
    + by rewrite insert_insert_eq.
    + rewrite Hlen. apply Hg. lia.
    + intros i Hi. rewrite Hb by lia. rewrite decide_True by lia. f_equal. lia.
  - intros (H1 & H2 & H3). replace ((fs >? vs + vn - 1) || (vs >? fs + n - 1)) with false by lia.
    replace ((fs >=? vs) && (fs + n - 1 <=? vs + vn - 1)) with false; [done|].
    symmetry. apply andb_false_iff. lia.
Qed.

Lemma functional_read_witness :
  exists m' r l, checkFunctional 9 (fun k => replicate (Z.to_nat k) 0) demo_mem
      (demo_pkt MemCmd.ReadReq 0xf00 None) 0x100 8 (Some (1%positive, 0)) = Ok (true, m', r) /\
    cmd r = MemCmd.ReadResp /\ m' = <[9%positive := l]> demo_mem /\ l = [14; 15; 16; 17].
Proof.
  destruct (functional_read 9 (fun k => replicate (Z.to_nat k) 0) demo_mem (demo_pkt MemCmd.ReadReq 0xf00 None)
    0x104 4 0x100 8 1 0 [10; 11; 12; 13; 14; 15; 16; 17]) as [H _].
  all: try reflexivity; try lia; try (vm_compute; congruence).
  - split; [reflexivity|reflexivity|reflexivity|reflexivity|lia].
  - intros k Hk. rewrite length_replicate. lia.
  - destruct H as (m' & r & l & H1 & H2 & _ & H3 & Hl & H4); [lia|].
    exists m', r, l. split_and!; [exact H1|exact H2|exact H3|].
    destruct l as [|w [|x [|y [|z [|]]]]]; try (simpl in Hl; lia).
    pose proof (H4 0 ltac:(lia)) as E0. pose proof (H4 1 ltac:(lia)) as E1.
    pose proof (H4 2 ltac:(lia)) as E2. pose proof (H4 3 ltac:(lia)) as E3.
    vm_compute in E0, E1, E2, E3. congruence.
Defined.

(** ** Data in a packet *)

(** [set] then [get] gives the value back, whatever the byte orders of the
    guest and the host: a value of 1, 2, 4 or 8 bytes stored in a packet whose
    data has room for it. *)
Theorem set_get_roundtrip guest host tsize m p b o l v :
  tsize ∈ [1; 2; 4; 8] -> 0 <= v < 2 ^ (8 * tsize) ->
  EvQ.isSet (flags p) (Z.lor STATIC_DATA DYNAMIC_DATA) = true -> tsize <= size p ->
  data p = Some (b, o) -> m !! b = Some l -> 0 <= o -> o + tsize <= Z.of_nat (length l) ->
  exists m', set_value guest host tsize m p v = Ok m' /\ get guest host tsize m' p = Ok v /\
    forall b', b' <> b -> m' !! b' = m !! b'.
Proof.
  intros Hs Hv Hf Hsz Hd Hl Ho Hlen.
  assert (Ht : 0 < tsize) by (rewrite !elem_of_cons, elem_of_nil in Hs; lia).
  assert (Hw : exists w, ByteSwap.htog guest host tsize v = Ok w /\ 0 <= w < 2 ^ (8 * tsize) /\
    ByteSwap.gtoh guest host tsize w = Ok v).
  { destruct (ByteSwap.swap_byte_ok tsize v Hs Hv) as (y & Hy & Hyr & _).
    pose proof (ByteSwap.swap_byte_invol tsize v Hs Hv) as Hi. rewrite Hy, bind_Ok in Hi.
    destruct guest, host; simpl; solve [by exists v | by exists y]. }
  destruct Hw as (w & Hw & Hwr & Hback).
  set (bs := host_bytes host (Z.to_nat tsize) w).
  assert (Hbs : length bs = Z.to_nat tsize).
  { unfold bs. destruct host; simpl; rewrite ?length_rev; apply le_bytes_length. }
  assert (E256 : 256 ^ Z.of_nat (Z.to_nat tsize) = 2 ^ (8 * tsize)).
  { rewrite Z2Nat.id by lia. change 256 with (2 ^ 8). by rewrite <- Z.pow_mul_r by lia. }
  set (l' := take (Z.to_nat o) l ++ bs ++ drop (Z.to_nat o + length bs) l).
  exists (<[b := l']> m). split_and!.
  - unfold set_value. rewrite Hf. cbn [c_assert]. bind_step.
    replace (tsize <=? size p) with true by lia. cbn [c_assert]. bind_step.
    rewrite Hd. cbn [deref]. bind_step. rewrite Hw. bind_step.
    unfold Bytes.write. cbn [fst snd]. rewrite Hl. cbn [deref]. bind_step. fold bs.
    replace ((0 <=? o) && (Z.to_nat o + length bs <=? length l)%nat) with true; [done|].
    symmetry. apply andb_true_iff. split; [lia|]. apply Nat.leb_le. lia.
  - unfold get. rewrite Hf. cbn [c_assert]. bind_step.
    replace (tsize <=? size p) with true by lia. cbn [c_assert]. bind_step.
    rewrite Hd. cbn [deref]. bind_step. unfold Bytes.read. cbn [fst snd]. rewrite lookup_insert_eq.
    cbn [deref]. bind_step.
    assert (Hlen' : length l' = length l) by (unfold l'; rewrite !length_app, length_take, length_drop; lia).
    rewrite Hlen'. replace ((0 <=? o) && (0 <=? tsize) && (o + tsize <=? Z.of_nat (length l))) with true by lia.
    bind_step. assert (take (Z.to_nat tsize) (drop (Z.to_nat o) l') = bs) as ->.
    { apply list_eq. intros i. rewrite Bytes.take_drop_lookup. unfold l'.
      destruct (decide (i < Z.to_nat tsize)%nat).
      - rewrite Bytes.splice_lookup by lia. rewrite decide_True by lia. f_equal. lia.
      - symmetry. apply lookup_ge_None_2. lia. }
    unfold bs. rewrite host_value_bytes; [done|]. by rewrite E256.
  - intros b' Hb'. by rewrite lookup_insert_ne.
Qed.

Lemma set_get_roundtrip_witness :
  exists m', set_value ByteSwap.BigEndianByteOrder ByteSwap.LittleEndianByteOrder 4 demo_mem
      (demo_pkt MemCmd.WriteReq 0x1f00 (Some (2%positive, 0))) 0x12345678 = Ok m' /\
    get ByteSwap.BigEndianByteOrder ByteSwap.LittleEndianByteOrder 4 m'
      (demo_pkt MemCmd.WriteReq 0x1f00 (Some (2%positive, 0))) = Ok 0x12345678.
Proof.
  destruct (set_get_roundtrip ByteSwap.BigEndianByteOrder ByteSwap.LittleEndianByteOrder 4 demo_mem
    (demo_pkt MemCmd.WriteReq 0x1f00 (Some (2%positive, 0))) 2 0 [90; 91; 92; 93] 0x12345678) as (m' & H1 & H2 & _).
  - do 2 apply list_elem_of_further. apply list_elem_of_here.
  - lia.
  - reflexivity.
  - vm_compute. congruence.
  - reflexivity.
  - reflexivity.
  - lia.
  - simpl. lia.
  - exists m'. split; [exact H1|exact H2].
Defined.

(** [reinitFromRequest] leaks: it clears the flags that say the packet
    owns its data before it calls [deleteData], so nothing is freed although
    the pointer is dropped; [deleteData] on the packet itself would have freed
    the array. *)
Theorem reinit_leaks_data m p b l m' p' :
  reinitFromRequest m p = Ok (m', p') ->
  EvQ.isSet (flags p) ARRAY_DATA = true -> data p = Some (b, 0) -> m !! b = Some l ->
  m' = m /\ data p' = None /\ exists m2 p2, deleteData m p = Ok (m2, p2) /\ m2 !! b = None.
Proof.
  intros H Hf Hd Hm. unfold reinitFromRequest in H.
  apply res_bind_Ok in H as (? & _ & H). apply res_bind_Ok in H as (a & _ & H).
  apply res_bind_Ok in H as (s & _ & H). apply res_bind_Ok in H as (tm & _ & H).
  unfold deleteData in H. apply res_bind_Ok in H as (m2 & Hm2 & H).
  cbn [flags set_flags set_range data] in H, Hm2.
  change (EvQ.isSet (EvQ.set 0 (Z.lor VALID_ADDR VALID_SIZE)) ARRAY_DATA) with false in Hm2.
  change (EvQ.isSet (EvQ.set 0 (Z.lor VALID_ADDR VALID_SIZE)) DYNAMIC_DATA) with false in Hm2.
  injection Hm2 as <-. injection H as <- <-. split_and!; [done|done|].
  unfold deleteData. rewrite Hf, Hd. unfold Bytes.free. cbn [Z.eqb andb].
  rewrite bool_decide_eq_true_2 by (by exists l). bind_step. eexists _, _. split; [done|].
  apply lookup_delete_eq.
Qed.

Lemma reinit_leaks_data_witness :
  exists m' p', reinitFromRequest demo_mem (demo_pkt MemCmd.WriteReq 0x6f00 (Some (2%positive, 0))) = Ok (m', p') /\
    m' = demo_mem /\ data p' = None.
Proof.
  destruct (reinitFromRequest demo_mem (demo_pkt MemCmd.WriteReq 0x6f00 (Some (2%positive, 0))))
    as [[m' p']|] eqn:H; [|vm_compute in H; discriminate H].
  exists m', p'. split; [reflexivity|].
  destruct (reinit_leaks_data demo_mem (demo_pkt MemCmd.WriteReq 0x6f00 (Some (2%positive, 0))) 2 [90; 91; 92; 93] m' p')
    as (H1 & H2 & _); [exact H|reflexivity|reflexivity|reflexivity|].
  split; [exact H1|exact H2].
Defined.

(** Splitting a request: the two pieces are adjacent, cover exactly the
    original range in order, are not empty, and keep everything else of the
    request; a split point outside the range, or a translated request, fails
    the assertion. *)
Theorem split_covers r split_addr :
  0 <= Request._vaddr r -> 0 <= Request._size r < 2 ^ 31 ->
  Request._vaddr r + Request._size r < 2 ^ 64 ->
  match Request.splitOnVaddr r split_addr with
  | Ok (r1, r2) =>
      Request._vaddr r1 = Request._vaddr r /\
      Request._vaddr r2 = Request._vaddr r1 + Request._size r1 /\
      Request._size r1 + Request._size r2 = Request._size r /\
      0 < Request._size r1 /\ 0 < Request._size r2 /\
      Request._flags r1 = Request._flags r /\ Request._flags r2 = Request._flags r /\
      Request.hasPaddr r1 = false /\ Request.hasPaddr r2 = false /\
      Request.getVaddr r2 = Ok split_addr
  | Er f => f = AssertFail /\
      (Request.getVaddr r = Er AssertFail \/ Request.hasPaddr r = true \/
       ~ Request._vaddr r < split_addr < Request._vaddr r + Request._size r)
  end.
Proof.
  intros Hv Hs Ho. unfold Request.splitOnVaddr, Request.getVaddr, Request.hasPaddr.
  destruct (EvQ.isSet (Request.privateFlags r) Request.VALID_VADDR) eqn:Ev; cbn [c_assert]; [|by simpl; auto].
  rewrite bind_Ok. unfold EvQ.noneSet. fold (EvQ.isSet (Request.privateFlags r) Request.VALID_PADDR).
  destruct (EvQ.isSet (Request.privateFlags r) Request.VALID_PADDR) eqn:Ep.
  { unfold EvQ.isSet in Ep. apply negb_true_iff in Ep. rewrite Ep. simpl. auto. }
  unfold EvQ.isSet in Ep. apply negb_false_iff in Ep. rewrite Ep. cbn [c_assert]. rewrite bind_Ok.
  rewrite (uint_small 64 (Request._size r)), (uint_small 64 (Request._vaddr r + _)) by lia.
  destruct ((split_addr >? Request._vaddr r) && (split_addr <? Request._vaddr r + Request._size r)) eqn:Er;
    cbn [c_assert].
  2:{ simpl. split; [done|]. right. right. lia. }
  bind_step. rewrite offset_small by lia. simpl. unfold EvQ.isSet in *.
  rewrite Ev. cbn [c_assert]. rewrite Ep. split_and!; try done; lia.
Qed.

Lemma split_covers_witness :
  exists r1 r2, Request.splitOnVaddr (Request.mk 0 16 0 5 0 0 0x1ff8 0 0 0 0) 0x2000 = Ok (r1, r2) /\
    Request._size r1 + Request._size r2 = 16.
Proof.
  pose proof (split_covers (Request.mk 0 16 0 5 0 0 0x1ff8 0 0 0 0) 0x2000) as H.
  destruct (Request.splitOnVaddr (Request.mk 0 16 0 5 0 0 0x1ff8 0 0 0 0) 0x2000) as [[r1 r2]|] eqn:E;
    [|vm_compute in E; discriminate E].
  exists r1, r2. split; [reflexivity|].
  apply H; vm_compute; try split; congruence || reflexivity.
Defined.
