(* ===== verification/Rename.v ===== *)
(** * Register renaming

    [src/cpu/o3/free_list.hh] and [.cc] (Module [SimpleFreeList]),
    [src/cpu/o3/rename_map.hh] and [.cc] (Module [SimpleRenameMap]),
    [src/cpu/o3/scoreboard.hh] and [.cc] (Module [Scoreboard]), and the
    renaming and history operations of the rename stage
    ([src/cpu/o3/rename_impl.hh]) and of the CPU ([src/cpu/o3/cpu.cc]) that
    work on them (Module [Rename]).

    [PhysRegIndex] is [short], a 16-bit signed integer; the rename maps share
    the free list by pointer, so the operations that use it take it and return
    it. *)
From S2P Require Import Prelude.

(** The constants of the guest ISA that renaming uses. *)
Record ISA := mkISA {
  is_alpha : bool;
  ZeroReg : Z;
  NumIntRegs : Z;
  NumFloatRegs : Z;
  NumMiscRegs : Z;
  FP_Base_DepTag : Z;
  Ctrl_Base_DepTag : Z;
  regIndexBits : Z
}.

(** ** The free list *)
Module SimpleFreeList.

Record t := mk {
  freeIntRegs : list Z;
  freeFloatRegs : list Z;
  numLogicalIntRegs : Z;
  numPhysicalIntRegs : Z;
  numLogicalFloatRegs : Z;
  numPhysicalFloatRegs : Z;
  numPhysicalRegs : Z
}.

Definition set_int (f : t) (l : list Z) : t :=
  mk l (freeFloatRegs f) (numLogicalIntRegs f) (numPhysicalIntRegs f) (numLogicalFloatRegs f)
     (numPhysicalFloatRegs f) (numPhysicalRegs f).
Definition set_float (f : t) (l : list Z) : t :=
  mk (freeIntRegs f) l (numLogicalIntRegs f) (numPhysicalIntRegs f) (numLogicalFloatRegs f)
     (numPhysicalFloatRegs f) (numPhysicalRegs f).

(** The constructor; counts that do not fit [PhysRegIndex] make its loop
    counters wrap around. *)
Definition new (activeThreads _numLogicalIntRegs _numPhysicalIntRegs _numLogicalFloatRegs
    _numPhysicalFloatRegs : Z) : res t :=
  let npr := _numPhysicalIntRegs + _numPhysicalFloatRegs in
  let ii := _numLogicalIntRegs * activeThreads in
  let fi := _numPhysicalIntRegs + _numLogicalFloatRegs * activeThreads in
  if (2 ^ 15 <=? npr) || (2 ^ 15 <=? ii) || (2 ^ 15 <=? fi) then Er Overflow else
  Ok (mk (seqZ ii (_numPhysicalIntRegs - ii)) (seqZ fi (npr - fi)) _numLogicalIntRegs
         _numPhysicalIntRegs _numLogicalFloatRegs _numPhysicalFloatRegs npr).

Definition getIntReg (f : t) : res (Z * t) :=
  match freeIntRegs f with
  | [] => Er Panic
  | free_reg :: l => Ok (free_reg, set_int f l)
  end.
Definition getFloatReg (f : t) : res (Z * t) :=
  match freeFloatRegs f with
  | [] => Er Panic
  | free_reg :: l => Ok (free_reg, set_float f l)
  end.

Definition addIntReg (f : t) (freed_reg : Z) : t := set_int f (freeIntRegs f ++ [freed_reg]).
Definition addFloatReg (f : t) (freed_reg : Z) : t := set_float f (freeFloatRegs f ++ [freed_reg]).
Definition addReg (isa : ISA) (f : t) (freed_reg : Z) : t :=
  if freed_reg <? numPhysicalIntRegs f then
    if negb (freed_reg =? ZeroReg isa) then set_int f (freeIntRegs f ++ [freed_reg]) else f
  else if freed_reg <? numPhysicalRegs f then
    if negb (is_alpha isa) || negb (freed_reg =? ZeroReg isa + numPhysicalIntRegs f)
    then set_float f (freeFloatRegs f ++ [freed_reg]) else f
  else f.

Definition hasFreeIntRegs (f : t) : bool := match freeIntRegs f with [] => false | _ => true end.
Definition hasFreeFloatRegs (f : t) : bool := match freeFloatRegs f with [] => false | _ => true end.
Definition numFreeIntRegs (f : t) : Z := Z.of_nat (length (freeIntRegs f)).
Definition numFreeFloatRegs (f : t) : Z := Z.of_nat (length (freeFloatRegs f)).
End SimpleFreeList.

(** ** The rename map *)
Module SimpleRenameMap.
Import SimpleFreeList(getIntReg, getFloatReg, numFreeIntRegs, numFreeFloatRegs).

Record RenameEntry := mkEntry { physical_reg : Z; valid : bool }.

Record t := mk {
  id : Z;
  numLogicalIntRegs : Z;
  numPhysicalIntRegs : Z;
  numLogicalFloatRegs : Z;
  numPhysicalFloatRegs : Z;
  numMiscRegs : Z;
  numLogicalRegs : Z;
  numPhysicalRegs : Z;
  intZeroReg : Z;
  floatZeroReg : Z;
  intRenameMap : list RenameEntry;
  floatRenameMap : list RenameEntry
}.

Definition set_int (m : t) (l : list RenameEntry) : t :=
  mk (id m) (numLogicalIntRegs m) (numPhysicalIntRegs m) (numLogicalFloatRegs m)
     (numPhysicalFloatRegs m) (numMiscRegs m) (numLogicalRegs m) (numPhysicalRegs m)
     (intZeroReg m) (floatZeroReg m) l (floatRenameMap m).
Definition set_float (m : t) (l : list RenameEntry) : t :=
  mk (id m) (numLogicalIntRegs m) (numPhysicalIntRegs m) (numLogicalFloatRegs m)
     (numPhysicalFloatRegs m) (numMiscRegs m) (numLogicalRegs m) (numPhysicalRegs m)
     (intZeroReg m) (floatZeroReg m) (intRenameMap m) l.

(** [m[i].physical_reg = r]. *)
Definition set_phys (l : list RenameEntry) (i r : Z) : res (list RenameEntry) :=
  e ← vget l i; vset l i (mkEntry r (valid e)).

(** Entries for [n] registers bound to the physical registers from [idx] on. *)
Definition bind_from (idx n : Z) : list RenameEntry :=
  map (fun k => mkEntry (sint 16 (idx + k)) false) (seqZ 0 n).

(** [init] on a new map; returns the map and the two indices, which advance
    when [bindRegs] is set. *)
Definition init (_numLogicalIntRegs _numPhysicalIntRegs ireg_idx _numLogicalFloatRegs
    _numPhysicalFloatRegs freg_idx _numMiscRegs _intZeroReg _floatZeroReg map_id : Z)
    (bindRegs : bool) : t * Z * Z :=
  let nli := _numLogicalIntRegs in
  let nlf := _numLogicalFloatRegs in
  let m := mk map_id nli _numPhysicalIntRegs nlf _numPhysicalFloatRegs _numMiscRegs (nli + nlf)
              (_numPhysicalIntRegs + _numPhysicalFloatRegs) _intZeroReg _floatZeroReg
              (bind_from ireg_idx nli)
              (replicate (Z.to_nat nli) (mkEntry 0 false) ++ bind_from freg_idx nlf) in
  if bindRegs then (m, sint 16 (ireg_idx + nli), sint 16 (freg_idx + nlf))
  else (m, ireg_idx, freg_idx).

(** [rename(arch_reg)]: the new and the previous physical register. *)
Definition rename (isa : ISA) (m : t) (fl : SimpleFreeList.t) (arch_reg : Z) :
    res (Z * Z * t * SimpleFreeList.t) :=
  if arch_reg <? numLogicalIntRegs m then
    e ← vget (intRenameMap m) arch_reg;
    let prev_reg := physical_reg e in
    if negb (arch_reg =? intZeroReg m) then
      '(renamed_reg, fl) ← getIntReg fl;
      l ← set_phys (intRenameMap m) arch_reg renamed_reg;
      _ ← c_assert ((renamed_reg >=? 0) && (renamed_reg <? numPhysicalIntRegs m));
      Ok (renamed_reg, prev_reg, set_int m l, fl)
    else Ok (intZeroReg m, prev_reg, m, fl)
  else if arch_reg <? numLogicalRegs m then
    e ← vget (floatRenameMap m) arch_reg;
    let prev_reg := physical_reg e in
    if negb (is_alpha isa) || negb (arch_reg =? floatZeroReg m) then
      '(renamed_reg, fl) ← getFloatReg fl;
      l ← set_phys (floatRenameMap m) arch_reg renamed_reg;
      _ ← c_assert ((renamed_reg <? numPhysicalRegs m) && (renamed_reg >=? numPhysicalIntRegs m));
      Ok (renamed_reg, prev_reg, set_float m l, fl)
    else Ok (floatZeroReg m, prev_reg, m, fl)
  else
    let arch_reg := arch_reg - numLogicalRegs m in
    let renamed_reg := sint 16 (arch_reg + numPhysicalRegs m) in
    Ok (renamed_reg, renamed_reg, m, fl).

Definition lookup (m : t) (arch_reg : Z) : res Z :=
  if arch_reg <? numLogicalIntRegs m then
    e ← vget (intRenameMap m) arch_reg; Ok (physical_reg e)
  else if arch_reg <? numLogicalRegs m then
    e ← vget (floatRenameMap m) arch_reg; Ok (physical_reg e)
  else
    let arch_reg := arch_reg - numLogicalRegs m in
    Ok (sint 16 (numPhysicalRegs m + arch_reg)).

Definition setEntry (m : t) (arch_reg renamed_reg : Z) : res t :=
  if arch_reg <? numLogicalIntRegs m then
    l ← set_phys (intRenameMap m) arch_reg renamed_reg; Ok (set_int m l)
  else if arch_reg <? numLogicalIntRegs m + numLogicalFloatRegs m then
    l ← set_phys (floatRenameMap m) arch_reg renamed_reg; Ok (set_float m l)
  else Ok m.

Definition numFreeEntries (fl : SimpleFreeList.t) : Z :=
  let free_int_regs := numFreeIntRegs fl in
  let free_float_regs := numFreeFloatRegs fl in
  if free_int_regs <? free_float_regs then free_int_regs else free_float_regs.
End SimpleRenameMap.

(** ** The scoreboard *)
Module Scoreboard.

Record t := mk {
  regScoreBoard : list bool;
  numLogicalIntRegs : Z;
  numPhysicalIntRegs : Z;
  numLogicalFloatRegs : Z;
  numPhysicalFloatRegs : Z;
  numMiscRegs : Z;
  numLogicalRegs : Z;
  numPhysicalRegs : Z;
  zeroRegIdx : Z
}.

Definition set_board (s : t) (b : list bool) : t :=
  mk b (numLogicalIntRegs s) (numPhysicalIntRegs s) (numLogicalFloatRegs s)
     (numPhysicalFloatRegs s) (numMiscRegs s) (numLogicalRegs s) (numPhysicalRegs s) (zeroRegIdx s).

(** [for (i = lo; i < hi; i++) board[i] = 1]. *)
Fixpoint set_all (b : list bool) (is_ : list Z) : res (list bool) :=
  match is_ with [] => Ok b | i :: is_ => b ← vset b i true; set_all b is_ end.

Definition new (activeThreads nli npi nlf npf _numMiscRegs _zeroRegIdx : Z) : res t :=
  let npr := npi + npf in
  let b := replicate (Z.to_nat (npr + _numMiscRegs * activeThreads)) false in
  b ← set_all b (seqZ 0 (nli * activeThreads));
  b ← set_all b (seqZ npi (nlf * activeThreads));
  b ← set_all b (seqZ npr (_numMiscRegs * activeThreads));
  Ok (mk b nli npi nlf npf _numMiscRegs (nli + nlf) npr _zeroRegIdx).

(** The zero registers, which are always ready. *)
Definition is_zero (isa : ISA) (s : t) (r : Z) : bool :=
  (r =? zeroRegIdx s) || (is_alpha isa && (r =? zeroRegIdx s + numPhysicalIntRegs s)).

Definition getReg (isa : ISA) (s : t) (phys_reg : Z) : res bool :=
  if is_zero isa s phys_reg then Ok true else vget (regScoreBoard s) phys_reg.
Definition setReg (s : t) (phys_reg : Z) : res t :=
  b ← vset (regScoreBoard s) phys_reg true; Ok (set_board s b).
Definition unsetReg (isa : ISA) (s : t) (ready_reg : Z) : res t :=
  if is_zero isa s ready_reg then Ok s
  else b ← vset (regScoreBoard s) ready_reg false; Ok (set_board s b).
End Scoreboard.

(** ** The rename stage and the CPU *)
Module Rename.

Record RenameHistory := mkHist {
  instSeqNum : Z;
  archReg : Z;
  newPhysReg : Z;
  prevPhysReg : Z
}.

(** What the rename stage and the CPU share: one map and one history (most
    recent entry first) per thread. *)
Record t := mk {
  freeList : SimpleFreeList.t;
  renameMap : list SimpleRenameMap.t;
  scoreboard : Scoreboard.t;
  historyBuffer : list (list RenameHistory);
  maxPhysicalRegs : Z
}.

(** The rename maps the CPU builds, one per thread; threads beyond the active
    ones do not keep the registers they are bound to. *)
Fixpoint init_maps (isa : ISA) (npi npf active_threads tid lreg_idx freg_idx : Z) (n : nat) :
    list SimpleRenameMap.t :=
  match n with
  | O => []
  | S n =>
      let '(m, lreg_idx, freg_idx) :=
        SimpleRenameMap.init (NumIntRegs isa) npi lreg_idx (NumFloatRegs isa) npf freg_idx
          (NumMiscRegs isa) (ZeroReg isa) (ZeroReg isa) tid (tid <=? active_threads - 1) in
      m :: init_maps isa npi npf active_threads (tid + 1) lreg_idx freg_idx n
  end.

(** The CPU's constructor, as far as it sets up renaming. *)
Definition new (isa : ISA) (numThreads active_threads npi npf : Z) : res t :=
  fl ← SimpleFreeList.new numThreads (NumIntRegs isa) npi (NumFloatRegs isa) npf;
  sb ← Scoreboard.new numThreads (NumIntRegs isa) npi (NumFloatRegs isa) npf
         (NumMiscRegs isa * numThreads) (ZeroReg isa);
  _ ← c_assert (npi >=? numThreads * NumIntRegs isa);
  _ ← c_assert (npf >=? numThreads * NumFloatRegs isa);
  let maps := init_maps isa npi npf active_threads 0 0 npi (Z.to_nat numThreads) in
  Ok (mk fl maps sb (replicate (Z.to_nat numThreads) []) (sint 16 (npi + npf))).

(** The index of a source or destination register in the rename map;
    [flattenIntIndex] and [flattenFloatIndex] are those of the thread. *)
Definition flatSrcReg (isa : ISA) (flattenIntIndex flattenFloatIndex : Z -> Z) (src_reg : Z) : Z :=
  let reg := uint (regIndexBits isa) in
  if src_reg <? FP_Base_DepTag isa then reg (flattenIntIndex src_reg)
  else if src_reg <? Ctrl_Base_DepTag isa then
    let src_reg := reg (src_reg - FP_Base_DepTag isa) in
    reg (reg (flattenFloatIndex src_reg) + NumIntRegs isa)
  else reg (src_reg - FP_Base_DepTag isa + NumIntRegs isa).
Definition flatDestReg (isa : ISA) (flattenIntIndex : Z -> Z) (dest_reg : Z) : Z :=
  let reg := uint (regIndexBits isa) in
  if dest_reg <? FP_Base_DepTag isa then reg (flattenIntIndex dest_reg)
  else reg (dest_reg - FP_Base_DepTag isa + NumIntRegs isa).

(** [renameSrcRegs]: for each source, the physical register and whether it is
    ready. *)
Fixpoint renameSrcRegs (isa : ISA) (fi ff : Z -> Z) (s : t) (tid : Z) (srcs : list Z) :
    res (list (Z * Z * bool)) :=
  match srcs with
  | [] => Ok []
  | src_reg :: srcs =>
      let flat_src_reg := flatSrcReg isa fi ff src_reg in
      m ← vget (renameMap s) tid;
      renamed_reg ← SimpleRenameMap.lookup m flat_src_reg;
      ready ← Scoreboard.getReg isa (scoreboard s) renamed_reg;
      l ← renameSrcRegs isa fi ff s tid srcs;
      Ok ((flat_src_reg, renamed_reg, ready) :: l)
  end.

(** One destination register, after its index is flattened. *)
Definition renameDestReg (isa : ISA) (s : t) (tid seqNum flat_dest_reg : Z) : res (Z * Z * t) :=
  m ← vget (renameMap s) tid;
  '(new_reg, prev_reg, m, fl) ← SimpleRenameMap.rename isa m (freeList s) flat_dest_reg;
  sb ← Scoreboard.unsetReg isa (scoreboard s) new_reg;
  h ← vget (historyBuffer s) tid;
  hs ← vset (historyBuffer s) tid (mkHist seqNum flat_dest_reg new_reg prev_reg :: h);
  ms ← vset (renameMap s) tid m;
  Ok (new_reg, prev_reg, mk fl ms sb hs (maxPhysicalRegs s)).

Fixpoint renameDestRegs (isa : ISA) (fi : Z -> Z) (s : t) (tid seqNum : Z) (dests : list Z) :
    res (list (Z * Z * Z) * t) :=
  match dests with
  | [] => Ok ([], s)
  | dest_reg :: dests =>
      let flat_dest_reg := flatDestReg isa fi dest_reg in
      '(new_reg, prev_reg, s) ← renameDestReg isa s tid seqNum flat_dest_reg;
      '(l, s) ← renameDestRegs isa fi s tid seqNum dests;
      Ok ((flat_dest_reg, new_reg, prev_reg) :: l, s)
  end.

(** The body of the loops of [doSquash] and [switchOut]: undo one entry. *)
Definition undo (isa : ISA) (maxp : Z) (m : SimpleRenameMap.t) (fl : SimpleFreeList.t)
    (sb : Scoreboard.t) (e : RenameHistory) :
    res (SimpleRenameMap.t * SimpleFreeList.t * Scoreboard.t) :=
  m ← SimpleRenameMap.setEntry m (archReg e) (prevPhysReg e);
  let fl := SimpleFreeList.addReg isa fl (newPhysReg e) in
  sb ← (if newPhysReg e >=? maxp then Scoreboard.setReg sb (newPhysReg e) else Ok sb);
  Ok (m, fl, sb).

(** Undoes the entries, most recent first, as long as [keep] is false. *)
Fixpoint undo_loop (isa : ISA) (maxp : Z) (keep : RenameHistory -> bool) (m : SimpleRenameMap.t)
    (fl : SimpleFreeList.t) (sb : Scoreboard.t) (h : list RenameHistory) :
    res (SimpleRenameMap.t * SimpleFreeList.t * Scoreboard.t * list RenameHistory) :=
  match h with
  | [] => Ok (m, fl, sb, [])
  | e :: h' =>
      if keep e then Ok (m, fl, sb, h)
      else '(m, fl, sb) ← undo isa maxp m fl sb e; undo_loop isa maxp keep m fl sb h'
  end.

Definition undo_thread (isa : ISA) (s : t) (keep : RenameHistory -> bool) (tid : Z) : res t :=
  m ← vget (renameMap s) tid;
  h ← vget (historyBuffer s) tid;
  '(m, fl, sb, h) ← undo_loop isa (maxPhysicalRegs s) keep m (freeList s) (scoreboard s) h;
  hs ← vset (historyBuffer s) tid h;
  ms ← vset (renameMap s) tid m;
  Ok (mk fl ms sb hs (maxPhysicalRegs s)).

Definition doSquash (isa : ISA) (s : t) (squashed_seq_num tid : Z) : res t :=
  undo_thread isa s (fun e => negb (instSeqNum e >? squashed_seq_num)) tid.

(** [switchOut()], as far as it touches renaming: all entries of all threads. *)
Fixpoint switchOut_loop (isa : ISA) (s : t) (tids : list Z) : res t :=
  match tids with
  | [] => Ok s
  | tid :: tids => s ← undo_thread isa s (fun _ => false) tid; switchOut_loop isa s tids
  end.
Definition switchOut (isa : ISA) (s : t) (numThreads : Z) : res t :=
  switchOut_loop isa s (seqZ 0 numThreads).

(** [removeFromHistory]: from the oldest entry on, frees the previous register
    of every entry up to the committed instruction. *)
Fixpoint commit_loop (isa : ISA) (inst_seq_num : Z) (fl : SimpleFreeList.t)
    (oldest_first : list RenameHistory) : SimpleFreeList.t * list RenameHistory :=
  match oldest_first with
  | [] => (fl, [])
  | e :: h =>
      if instSeqNum e <=? inst_seq_num
      then commit_loop isa inst_seq_num (SimpleFreeList.addReg isa fl (prevPhysReg e)) h
      else (fl, oldest_first)
  end.
Definition removeFromHistory (isa : ISA) (s : t) (inst_seq_num tid : Z) : res t :=
  h ← vget (historyBuffer s) tid;
  let '(fl, h) := commit_loop isa inst_seq_num (freeList s) (rev h) in
  hs ← vset (historyBuffer s) tid (rev h);
  Ok (mk fl (renameMap s) (scoreboard s) hs (maxPhysicalRegs s)).

(** The register binding of the CPU's [insertThread]. *)
Fixpoint bind_regs (get : SimpleFreeList.t -> res (Z * SimpleFreeList.t)) (m : SimpleRenameMap.t)
    (fl : SimpleFreeList.t) (sb : Scoreboard.t) (regs : list Z) :
    res (SimpleRenameMap.t * SimpleFreeList.t * Scoreboard.t) :=
  match regs with
  | [] => Ok (m, fl, sb)
  | reg :: regs =>
      '(phys_reg, fl) ← get fl;
      m ← SimpleRenameMap.setEntry m reg phys_reg;
      sb ← Scoreboard.setReg sb phys_reg;
      bind_regs get m fl sb regs
  end.
Definition insertThread (isa : ISA) (s : t) (tid : Z) : res t :=
  m ← vget (renameMap s) tid;
  '(m, fl, sb) ← bind_regs SimpleFreeList.getIntReg m (freeList s) (scoreboard s)
                   (seqZ 0 (NumIntRegs isa));
  '(m, fl, sb) ← bind_regs SimpleFreeList.getFloatReg m fl sb (seqZ 0 (NumFloatRegs isa));
  ms ← vset (renameMap s) tid m;
  Ok (mk fl ms sb (historyBuffer s) (maxPhysicalRegs s)).

(** The register release of the CPU's [removeThread]. *)
Fixpoint release_regs (isa : ISA) (m : SimpleRenameMap.t) (fl : SimpleFreeList.t)
    (sb : Scoreboard.t) (regs : list Z) : res (SimpleFreeList.t * Scoreboard.t) :=
  match regs with
  | [] => Ok (fl, sb)
  | reg :: regs =>
      phys_reg ← SimpleRenameMap.lookup m reg;
      sb ← Scoreboard.unsetReg isa sb phys_reg;
      release_regs isa m (SimpleFreeList.addReg isa fl phys_reg) sb regs
  end.
Definition removeThread (isa : ISA) (s : t) (tid : Z) : res t :=
  m ← vget (renameMap s) tid;
  '(fl, sb) ← release_regs isa m (freeList s) (scoreboard s) (seqZ 0 (NumIntRegs isa));
  '(fl, sb) ← release_regs isa m fl sb
                (seqZ (NumIntRegs isa) (NumFloatRegs isa - NumIntRegs isa));
  Ok (mk fl (renameMap s) sb (historyBuffer s) (maxPhysicalRegs s)).
End Rename.

(** The Alpha guest. *)
Definition alpha : ISA := mkISA true 31 40 32 77 40 72 8.
Example rename_alpha :
  (s ← Rename.new alpha 1 1 128 128;
   r ← Rename.renameDestReg alpha s 0 5 3;
   s ← Rename.doSquash alpha r.2 4 0;
   Ok (r.1, SimpleFreeList.numFreeIntRegs (Rename.freeList s))) = Ok (40, 3, 88).
Proof. vm_compute. reflexivity. Qed.
