(* ===== verification/RenameProof.v ===== *)
(** * Proofs about register renaming

    A rename map is viewed as one table of physical registers ([tbl]), and a
    free list as one list ([free]); the lemmas of this file say what each
    operation does to these, and that the physical registers are conserved. *)
From S2P Require Import Prelude Rename.

(** ** Counting occurrences *)
Definition cnt (x : Z) (l : list Z) : nat := count_occ Z.eq_dec l x.

Lemma cnt_app x l l' : cnt x (l ++ l') = (cnt x l + cnt x l')%nat.
Proof. apply count_occ_app. Qed.
Lemma cnt_cons x y l : cnt x (y :: l) = (cnt x [y] + cnt x l)%nat.
Proof. change (y :: l) with ([y] ++ l). apply cnt_app. Qed.
Lemma cnt_nil x : cnt x [] = 0%nat.
Proof. done. Qed.
Lemma perm_cnt l l' : l ≡ₚ l' <-> forall x, cnt x l = cnt x l'.
Proof. apply (Permutation_count_occ Z.eq_dec). Qed.

(** Permutation goals from permutation hypotheses, by counting. *)
Ltac perm_solve :=
  repeat match goal with H : _ ≡ₚ _ |- _ => rewrite perm_cnt in H end;
  apply perm_cnt;
  let x := fresh "x" in
  intros x;
  repeat match goal with H : forall _, cnt _ _ = cnt _ _ |- _ => specialize (H x) end;
  repeat match goal with
         | |- context [cnt x (?y :: ?l)] =>
             lazymatch l with [] => fail | _ => rewrite (cnt_cons x y l) end
         | H : context [cnt x (?y :: ?l)] |- _ =>
             lazymatch l with [] => fail | _ => rewrite (cnt_cons x y l) in H end
         | |- context [cnt x (_ ++ _)] => rewrite cnt_app
         | H : context [cnt x (_ ++ _)] |- _ => rewrite cnt_app in H
         | |- context [cnt x []] => rewrite cnt_nil
         | H : context [cnt x []] |- _ => rewrite cnt_nil in H
         end; lia.

Lemma insert_perm (l : list Z) a x y : l !! a = Some x -> x :: <[a := y]> l ≡ₚ y :: l.
Proof.
  intros H. rewrite <- (take_drop_middle l a x H) at 2.
  rewrite insert_take_drop by (by apply lookup_lt_Some in H). perm_solve.
Qed.

Lemma concat_split (ls : list (list Z)) i l : ls !! i = Some l ->
  concat ls = concat (take i ls) ++ l ++ concat (drop (S i) ls).
Proof.
  intros H. rewrite <- (take_drop_middle ls i l H) at 1. by rewrite concat_app.
Qed.

Lemma concat_insert (ls : list (list Z)) i l l' : ls !! i = Some l ->
  concat (<[i := l']> ls) = concat (take i ls) ++ l' ++ concat (drop (S i) ls).
Proof.
  intros H. rewrite insert_take_drop by (by apply lookup_lt_Some in H). by rewrite concat_app.
Qed.

(** Replacing one list of several. *)
Lemma concat_insert_perm (ls : list (list Z)) i l l' x y : ls !! i = Some l ->
  x ++ l' ≡ₚ y ++ l -> x ++ concat (<[i := l']> ls) ≡ₚ y ++ concat ls.
Proof. intros H Hp. rewrite (concat_insert ls i l l' H), (concat_split ls i l H). perm_solve. Qed.

(** In a duplicate-free family of lists, an element has one place. *)
Lemma concat_inj (ls : list (list Z)) : forall i l a j l' b x, NoDup (concat ls) ->
  ls !! i = Some l -> l !! a = Some x -> ls !! j = Some l' -> l' !! b = Some x -> i = j /\ a = b.
Proof.
  assert (Hin : forall (ls : list (list Z)) i l a x, ls !! i = Some l -> l !! a = Some x -> x ∈ concat ls).
  { intros ls' i l a x H1 H2. apply elem_of_concat. exists l. split; by eapply list_elem_of_lookup_2. }
  induction ls as [|l0 ls IH]; intros i l a j l' b x Hn Hi Ha Hj Hb; [done|].
  simpl in Hn. apply NoDup_app in Hn as (Hn0 & Hd & Hn). destruct i as [|i], j as [|j]; simpl in Hi, Hj.
  - injection Hi as <-. injection Hj as <-. split; [done|]. by apply (NoDup_lookup l0 a b x).
  - injection Hi as <-. destruct (Hd x); [by eapply list_elem_of_lookup_2|]. by apply (Hin ls j l' b).
  - injection Hj as <-. destruct (Hd x); [by eapply list_elem_of_lookup_2|]. by apply (Hin ls i l a).
  - destruct (IH i l a j l' b x Hn Hi Ha Hj Hb) as [-> ->]. done.
Qed.

Module RenameProof.
Import Rename.
Module FL := SimpleFreeList.
Module RM := SimpleRenameMap.
Module SB := Scoreboard.

(** The register classes of a machine: [npi] integer and [npf] floating-point
    physical registers for the guest [isa]. *)
Record cfg_ok (isa : ISA) (npi npf : Z) : Prop := {
  cfg_zero : 0 <= ZeroReg isa < NumIntRegs isa;
  cfg_float : 0 <= NumFloatRegs isa;
  cfg_alpha : is_alpha isa = true -> ZeroReg isa < NumFloatRegs isa;
  cfg_npi : NumIntRegs isa <= npi;
  cfg_npf : 0 <= npf;
  cfg_misc : 0 <= NumMiscRegs isa;
  cfg_short : npi + npf + NumMiscRegs isa < 2 ^ 15
}.

Section machine.
Context (isa : ISA) (npi npf : Z) (Hcfg : cfg_ok isa npi npf).

Abbreviation nli := (NumIntRegs isa).
Abbreviation nlr := (NumIntRegs isa + NumFloatRegs isa).
Abbreviation npr := (npi + npf).
Abbreviation zr := (ZeroReg isa).

Lemma cfg_facts : 0 <= zr < nli /\ nli <= nlr /\ nli <= npi /\ npi <= npr /\
  0 <= NumMiscRegs isa /\ npr + NumMiscRegs isa < 2 ^ 15.
Proof. destruct Hcfg. lia. Qed.

(** Physical register [r] is of the class of architectural register [a]. *)
Definition cls (a r : Z) : Prop := if a <? nli then 0 <= r < npi else npi <= r < npr.

(** A physical register the free list takes back. *)
Definition poolable (r : Z) : Prop :=
  0 <= r < npr /\ r <> zr /\ (is_alpha isa = true -> r <> zr + npi).

(** ** Rename maps *)
Record mwf (m : RM.t) : Prop := {
  mwf_nli : RM.numLogicalIntRegs m = nli;
  mwf_npi : RM.numPhysicalIntRegs m = npi;
  mwf_nlf : RM.numLogicalFloatRegs m = NumFloatRegs isa;
  mwf_nlr : RM.numLogicalRegs m = nlr;
  mwf_npr : RM.numPhysicalRegs m = npr;
  mwf_izr : RM.intZeroReg m = zr;
  mwf_fzr : RM.floatZeroReg m = zr;
  mwf_int : Z.of_nat (length (RM.intRenameMap m)) = nli;
  mwf_flt : Z.of_nat (length (RM.floatRenameMap m)) = nlr
}.

(** The physical register of every architectural register. *)
Definition tbl (m : RM.t) : list Z :=
  map RM.physical_reg (RM.intRenameMap m) ++
  map RM.physical_reg (drop (Z.to_nat nli) (RM.floatRenameMap m)).

Lemma tbl_length m : mwf m -> Z.of_nat (length (tbl m)) = nlr.
Proof.
  intros Hm. pose proof cfg_facts. unfold tbl. rewrite length_app, !length_map, length_drop.
  pose proof (mwf_int m Hm). pose proof (mwf_flt m Hm). lia.
Qed.

Lemma tbl_int m a : mwf m -> 0 <= a < nli ->
  tbl m !! Z.to_nat a = RM.physical_reg <$> RM.intRenameMap m !! Z.to_nat a.
Proof.
  intros Hm Ha. unfold tbl. rewrite lookup_app_l.
  - by rewrite <- list_lookup_fmap.
  - rewrite length_map. pose proof (mwf_int m Hm). lia.
Qed.

Lemma tbl_float m a : mwf m -> nli <= a ->
  tbl m !! Z.to_nat a = RM.physical_reg <$> RM.floatRenameMap m !! Z.to_nat a.
Proof.
  intros Hm Ha. pose proof cfg_facts. pose proof (mwf_int m Hm). unfold tbl. rewrite lookup_app_r by (rewrite length_map; lia).
  rewrite length_map. change (map RM.physical_reg ?l) with (RM.physical_reg <$> l).
  rewrite list_lookup_fmap, lookup_drop. do 2 f_equal. lia.
Qed.

Lemma lookup_tbl m a : mwf m -> 0 <= a < nlr ->
  exists r, tbl m !! Z.to_nat a = Some r /\ RM.lookup m a = Ok r.
Proof.
  intros Hm Ha. unfold RM.lookup. rewrite (mwf_nli m Hm), (mwf_nlr m Hm).
  destruct (Z.ltb_spec a nli).
  - destruct (vget_lt (RM.intRenameMap m) a) as (e & -> & He); [rewrite (mwf_int m Hm); lia|].
    rewrite tbl_int, He by (done || lia). by exists (RM.physical_reg e).
  - replace (a <? nlr) with true by lia.
    destruct (vget_lt (RM.floatRenameMap m) a) as (e & -> & He); [rewrite (mwf_flt m Hm); lia|].
    rewrite tbl_float, He by (done || lia). by exists (RM.physical_reg e).
Qed.

Lemma set_phys_ok l a r : 0 <= a < Z.of_nat (length l) ->
  exists v, RM.set_phys l a r = Ok (<[Z.to_nat a := RM.mkEntry r v]> l).
Proof.
  intros Ha. unfold RM.set_phys. destruct (vget_lt l a Ha) as (e & -> & _). bind_step.
  rewrite vset_lt by done. by exists (RM.valid e).
Qed.

Lemma set_int_tbl m a r v : mwf m -> 0 <= a < nli ->
  let m' := RM.set_int m (<[Z.to_nat a := RM.mkEntry r v]> (RM.intRenameMap m)) in
  mwf m' /\ tbl m' = <[Z.to_nat a := r]> (tbl m).
Proof.
  intros Hm Ha m'. split.
  - destruct Hm. split; simpl; try done. by rewrite length_insert.
  - unfold tbl, m'. simpl. rewrite insert_app_l by (rewrite length_map; pose proof (mwf_int m Hm); lia).
    f_equal. change (map RM.physical_reg ?l) with (RM.physical_reg <$> l). by rewrite list_fmap_insert.
Qed.

Lemma set_float_tbl m a r v : mwf m -> nli <= a < nlr ->
  let m' := RM.set_float m (<[Z.to_nat a := RM.mkEntry r v]> (RM.floatRenameMap m)) in
  mwf m' /\ tbl m' = <[Z.to_nat a := r]> (tbl m).
Proof.
  intros Hm Ha m'. pose proof cfg_facts. split.
  - destruct Hm. split; simpl; try done. by rewrite length_insert.
  - unfold tbl, m'. simpl. pose proof (mwf_int m Hm).
    rewrite insert_app_r_alt by (rewrite length_map; lia). f_equal. rewrite length_map.
    rewrite drop_insert_ge by lia.
    change (map RM.physical_reg ?l) with (RM.physical_reg <$> l). rewrite list_fmap_insert.
    f_equal. lia.
Qed.

Lemma setEntry_tbl m a r : mwf m -> 0 <= a < nlr ->
  exists m', RM.setEntry m a r = Ok m' /\ mwf m' /\ tbl m' = <[Z.to_nat a := r]> (tbl m).
Proof.
  intros Hm Ha. unfold RM.setEntry. rewrite (mwf_nli m Hm), (mwf_nlf m Hm).
  destruct (Z.ltb_spec a nli).
  - destruct (set_phys_ok (RM.intRenameMap m) a r) as (v & ->); [rewrite (mwf_int m Hm); lia|]. bind_step.
    eexists. split; [done|]. apply set_int_tbl; [done|lia].
  - replace (a <? nlr) with true by lia.
    destruct (set_phys_ok (RM.floatRenameMap m) a r) as (v & ->); [rewrite (mwf_flt m Hm); lia|]. bind_step.
    eexists. split; [done|]. apply set_float_tbl; [done|lia].
Qed.

Lemma setEntry_misc m a r : mwf m -> nlr <= a -> RM.setEntry m a r = Ok m.
Proof.
  intros Hm Ha. pose proof cfg_facts. unfold RM.setEntry. rewrite (mwf_nli m Hm), (mwf_nlf m Hm).
  replace (a <? nli) with false by lia. by replace (a <? nlr) with false by lia.
Qed.

(** ** Free lists *)
Record fwf (fl : FL.t) : Prop := {
  fwf_npi : FL.numPhysicalIntRegs fl = npi;
  fwf_npr : FL.numPhysicalRegs fl = npr;
  fwf_int : Forall (fun r => 0 <= r < npi) (FL.freeIntRegs fl);
  fwf_flt : Forall (fun r => npi <= r < npr) (FL.freeFloatRegs fl)
}.

Definition free (fl : FL.t) : list Z := FL.freeIntRegs fl ++ FL.freeFloatRegs fl.

Lemma addReg_ok fl r : fwf fl -> poolable r ->
  fwf (FL.addReg isa fl r) /\ free (FL.addReg isa fl r) ≡ₚ r :: free fl.
Proof.
  intros Hf (Hr & Hz & Ha). unfold FL.addReg. rewrite (fwf_npi fl Hf), (fwf_npr fl Hf).
  destruct Hf as [Hf1 Hf2 Hf3 Hf4]. destruct (Z.ltb_spec r npi).
  - replace (r =? zr) with false by lia. simpl. split.
    + split; simpl; try done. apply Forall_app. split; [done|]. apply Forall_singleton. lia.
    + unfold free. simpl. perm_solve.
  - replace (r <? npr) with true by lia.
    replace (negb (is_alpha isa) || negb (r =? zr + npi)) with true.
    2:{ destruct (is_alpha isa); [|done]. specialize (Ha eq_refl). simpl. lia. }
    split.
    + split; simpl; try done. apply Forall_app. split; [done|]. apply Forall_singleton. lia.
    + unfold free. simpl. perm_solve.
Qed.

Lemma addReg_zero fl : fwf fl -> FL.addReg isa fl zr = fl.
Proof.
  intros Hf. pose proof cfg_facts. unfold FL.addReg. rewrite (fwf_npi fl Hf).
  replace (zr <? npi) with true by lia. by rewrite Z.eqb_refl.
Qed.

Lemma addReg_misc fl r : fwf fl -> npr <= r -> FL.addReg isa fl r = fl.
Proof.
  intros Hf Hr. pose proof cfg_facts. unfold FL.addReg. rewrite (fwf_npi fl Hf), (fwf_npr fl Hf).
  replace (r <? npi) with false by lia. by replace (r <? npr) with false by lia.
Qed.

(** ** Renaming one register *)
Lemma rename_real m fl a : mwf m -> fwf fl -> 0 <= a < nlr -> a <> zr ->
  (RM.rename isa m fl a = Er Panic /\ (FL.freeIntRegs fl = [] \/ FL.freeFloatRegs fl = [])) \/
  exists r prev m' fl', RM.rename isa m fl a = Ok (r, prev, m', fl') /\ mwf m' /\ fwf fl' /\
    tbl m !! Z.to_nat a = Some prev /\ tbl m' = <[Z.to_nat a := r]> (tbl m) /\
    free fl ≡ₚ r :: free fl' /\ cls a r.
Proof.
  intros Hm Hf Ha Hz. unfold RM.rename.
  rewrite (mwf_nli m Hm), (mwf_nlr m Hm), (mwf_izr m Hm), (mwf_fzr m Hm), (mwf_npi m Hm), (mwf_npr m Hm).
  unfold cls. destruct (Z.ltb_spec a nli).
  - destruct (vget_lt (RM.intRenameMap m) a) as (e & -> & He); [rewrite (mwf_int m Hm); lia|]. bind_step.
    replace (a =? zr) with false by lia. cbn [negb]. unfold FL.getIntReg.
    destruct (FL.freeIntRegs fl) as [|r l] eqn:El; [left; auto|]. right. rewrite bind_Ok.
    destruct (set_phys_ok (RM.intRenameMap m) a r) as (v & ->); [rewrite (mwf_int m Hm); lia|]. bind_step.
    pose proof (fwf_int fl Hf) as Hl. rewrite El in Hl. apply Forall_cons in Hl as [Hr Hl].
    replace ((r >=? 0) && (r <? npi)) with true by lia. cbn [c_assert]. bind_step.
    destruct (set_int_tbl m a r v Hm) as [Hm' Ht]; [lia|].
    eexists _, _, _, _. split; [done|]. rewrite tbl_int, He by (done || lia).
    split_and!; try done; try lia.
    + destruct Hf. by split.
    + unfold free. simpl. rewrite El. done.
  - replace (a <? nlr) with true by lia.
    destruct (vget_lt (RM.floatRenameMap m) a) as (e & -> & He); [rewrite (mwf_flt m Hm); lia|]. bind_step.
    replace (a =? zr) with false by lia. rewrite orb_true_r. unfold FL.getFloatReg.
    destruct (FL.freeFloatRegs fl) as [|r l] eqn:El; [left; auto|]. right. rewrite bind_Ok.
    destruct (set_phys_ok (RM.floatRenameMap m) a r) as (v & ->); [rewrite (mwf_flt m Hm); lia|]. bind_step.
    pose proof (fwf_flt fl Hf) as Hl. rewrite El in Hl. apply Forall_cons in Hl as [Hr Hl].
    replace ((r <? npr) && (r >=? npi)) with true by lia. cbn [c_assert]. bind_step.
    destruct (set_float_tbl m a r v Hm) as [Hm' Ht]; [lia|].
    eexists _, _, _, _. split; [done|]. rewrite tbl_float, He by (done || lia).
    split_and!; try done; try lia.
    + destruct Hf. by split.
    + unfold free. simpl. rewrite El. perm_solve.
Qed.

Lemma rename_zero m fl : mwf m -> exists prev,
  RM.rename isa m fl zr = Ok (zr, prev, m, fl) /\ tbl m !! Z.to_nat zr = Some prev.
Proof.
  intros Hm. pose proof cfg_facts. unfold RM.rename.
  rewrite (mwf_nli m Hm), (mwf_izr m Hm). replace (zr <? nli) with true by lia.
  destruct (vget_lt (RM.intRenameMap m) zr) as (e & -> & He); [rewrite (mwf_int m Hm); lia|]. bind_step.
  rewrite Z.eqb_refl. simpl. eexists. split; [done|]. by rewrite tbl_int, He by (done || lia).
Qed.

Lemma rename_misc m fl a : mwf m -> nlr <= a < nlr + NumMiscRegs isa ->
  RM.rename isa m fl a = Ok (a - nlr + npr, a - nlr + npr, m, fl).
Proof.
  intros Hm Ha. pose proof cfg_facts. unfold RM.rename. rewrite (mwf_nli m Hm), (mwf_nlr m Hm), (mwf_npr m Hm).
  replace (a <? nli) with false by lia. replace (a <? nlr) with false by lia.
  by rewrite sint_small by lia.
Qed.

(** ** The invariant *)

(** An entry that renamed an integer or floating-point register. *)
Definition real (e : RenameHistory) : bool := (archReg e <? nlr) && negb (archReg e =? zr).
(** The registers that a history keeps from being reused. *)
Definition held (h : list RenameHistory) : list Z :=
  map prevPhysReg (List.filter real h).

(** The entries of a history, most recent first, against the table they lead
    to: undoing an entry gives the table it started from. *)
Fixpoint chain (h : list RenameHistory) (T : list Z) : Prop :=
  match h with
  | [] => True
  | e :: h =>
      let a := archReg e in
      0 <= a < nlr + NumMiscRegs isa /\
      if nlr <=? a then newPhysReg e = a - nlr + npr /\ prevPhysReg e = newPhysReg e /\ chain h T
      else if a =? zr then
        newPhysReg e = zr /\ prevPhysReg e = zr /\ T !! Z.to_nat zr = Some zr /\ chain h T
      else T !! Z.to_nat a = Some (newPhysReg e) /\ cls a (newPhysReg e) /\ cls a (prevPhysReg e) /\
           chain h (<[Z.to_nat a := prevPhysReg e]> T)
  end.

(** The registers of the shared tables of the CPU. *)
Definition pool (fl : FL.t) (ms : list RM.t) (hs : list (list RenameHistory)) : list Z :=
  free fl ++ concat (map tbl ms) ++ concat (map held hs).

Record inv (s : t) : Prop := {
  inv_maps : Forall mwf (renameMap s);
  inv_len : length (historyBuffer s) = length (renameMap s);
  inv_fl : fwf (freeList s);
  inv_cls : forall i m a r, renameMap s !! i = Some m -> 0 <= a -> tbl m !! Z.to_nat a = Some r -> cls a r;
  inv_chain : forall i h m, historyBuffer s !! i = Some h -> renameMap s !! i = Some m -> chain h (tbl m);
  inv_zero : forall m, renameMap s !! 0%nat = Some m ->
    tbl m !! Z.to_nat zr = Some zr /\ (is_alpha isa = true -> tbl m !! Z.to_nat (nli + zr) = Some (zr + npi));
  inv_hist0 : forall h, historyBuffer s !! 0%nat = Some h -> is_alpha isa = true ->
    Forall (fun e => archReg e <> nli + zr) h;
  inv_pool : pool (freeList s) (renameMap s) (historyBuffer s) ≡ₚ seqZ 0 npr;
  inv_sb : npr + NumMiscRegs isa <= Z.of_nat (length (SB.regScoreBoard (scoreboard s)));
  inv_zreg : SB.zeroRegIdx (scoreboard s) = zr /\ SB.numPhysicalIntRegs (scoreboard s) = npi;
  inv_max : maxPhysicalRegs s = npr
}.

(** Scoreboards that differ in the registers' state only. *)
Definition sb_same (sb' sb : SB.t) : Prop :=
  length (SB.regScoreBoard sb') = length (SB.regScoreBoard sb) /\
  SB.zeroRegIdx sb' = SB.zeroRegIdx sb /\ SB.numPhysicalIntRegs sb' = SB.numPhysicalIntRegs sb.

Lemma inv_map_at s i : inv s -> 0 <= i < Z.of_nat (length (renameMap s)) ->
  exists m h, vget (renameMap s) i = Ok m /\ renameMap s !! Z.to_nat i = Some m /\ mwf m /\
    vget (historyBuffer s) i = Ok h /\ historyBuffer s !! Z.to_nat i = Some h.
Proof.
  intros Hi Hr. destruct (vget_lt (renameMap s) i Hr) as (m & Hm & Hm').
  destruct (vget_lt (historyBuffer s) i) as (h & Hh & Hh'); [rewrite (inv_len s Hi); lia|].
  exists m, h. split_and!; try done. by apply (Forall_lookup_1 _ _ _ _ (inv_maps s Hi) Hm').
Qed.

Lemma map_at {A B} (f : A -> B) l i x : l !! i = Some x -> map f l !! i = Some (f x).
Proof. intros H. change (map f l) with (f <$> l). by rewrite list_lookup_fmap, H. Qed.

Lemma map_insert {A B} (f : A -> B) l i x : map f (<[i := x]> l) = <[i := f x]> (map f l).
Proof. apply list_fmap_insert. Qed.

Lemma pool_NoDup s : inv s -> NoDup (concat (map tbl (renameMap s))) /\
  forall x, x ∈ concat (map tbl (renameMap s)) -> x ∉ concat (map held (historyBuffer s)).
Proof.
  intros Hi. assert (Hn : NoDup (pool (freeList s) (renameMap s) (historyBuffer s))).
  { rewrite (inv_pool s Hi). apply NoDup_seqZ. }
  unfold pool in Hn. apply NoDup_app in Hn as (_ & _ & Hn). apply NoDup_app in Hn as (H1 & H2 & _). done.
Qed.

Lemma cls_range a r : cls a r -> 0 <= r < npr.
Proof. pose proof cfg_facts. unfold cls. destruct (a <? nli); lia. Qed.

(** The mapping of an ordinary register can go back to the free list. *)
Lemma poolable_mapped s i m a r : inv s -> renameMap s !! i = Some m ->
  0 <= a -> a <> zr -> (i = 0%nat -> is_alpha isa = true -> a <> nli + zr) ->
  tbl m !! Z.to_nat a = Some r -> poolable r.
Proof.
  intros Hi Hm Ha Hz Hf Hr. destruct (pool_NoDup s Hi) as [Hn _]. pose proof cfg_facts.
  assert (is_Some (renameMap s !! 0%nat)) as [m0 Hm0]
    by (apply lookup_lt_is_Some; apply lookup_lt_Some in Hm; lia).
  destruct (inv_zero s Hi m0 Hm0) as [Hz0 Hzf].
  split; [apply (cls_range a); by apply (inv_cls s Hi i m)|]. split.
  - intros ->. destruct (concat_inj _ _ _ _ _ _ _ _ Hn (map_at tbl _ _ _ Hm) Hr (map_at tbl _ _ _ Hm0) Hz0). lia.
  - intros Hal ->. specialize (Hzf Hal).
    destruct (concat_inj _ _ _ _ _ _ _ _ Hn (map_at tbl _ _ _ Hm) Hr (map_at tbl _ _ _ Hm0) Hzf) as [-> ?].
    apply (Hf eq_refl Hal). lia.
Qed.

(** So can a register that a history holds. *)
Lemma poolable_held s i m h e : inv s -> renameMap s !! i = Some m -> historyBuffer s !! i = Some h ->
  e ∈ h -> real e = true -> cls (archReg e) (prevPhysReg e) -> poolable (prevPhysReg e).
Proof.
  intros Hi Hm Hh He Hr Hc. destruct (pool_NoDup s Hi) as [_ Hd].
  assert (Hin : prevPhysReg e ∈ concat (map held (historyBuffer s))).
  { apply elem_of_concat. exists (held h). split.
    - apply elem_of_map. exists h. split; [done|by eapply list_elem_of_lookup_2].
    - unfold held. apply elem_of_map. exists e. split; [done|]. apply list_elem_of_In, filter_In.
      split; [by apply list_elem_of_In|done]. }
  assert (is_Some (renameMap s !! 0%nat)) as [m0 Hm0]
    by (apply lookup_lt_is_Some; apply lookup_lt_Some in Hm; lia).
  assert (Ht : forall k x, tbl m0 !! k = Some x -> x ∈ concat (map tbl (renameMap s))).
  { intros k x Hk. apply elem_of_concat. exists (tbl m0). split; [|by eapply list_elem_of_lookup_2].
    apply elem_of_map. exists m0. split; [done|by eapply list_elem_of_lookup_2]. }
  destruct (inv_zero s Hi m0 Hm0) as [Hz0 Hzf].
  split; [by apply (cls_range (archReg e))|]. split.
  - intros E. apply (Hd zr); [by eapply Ht|by rewrite <- E].
  - intros Hal E. apply (Hd (zr + npi)); [by eapply Ht, Hzf|by rewrite <- E].
Qed.

(** ** Rebuilding the invariant after one thread's state changes *)
Lemma inv_update s i m h fl' m' h' sb' :
  inv s -> renameMap s !! i = Some m -> historyBuffer s !! i = Some h ->
  mwf m' -> fwf fl' ->
  (forall a r, 0 <= a -> tbl m' !! Z.to_nat a = Some r -> cls a r) ->
  chain h' (tbl m') ->
  tbl m' !! Z.to_nat zr = tbl m !! Z.to_nat zr ->
  (i = 0%nat -> is_alpha isa = true ->
     tbl m' !! Z.to_nat (nli + zr) = tbl m !! Z.to_nat (nli + zr) /\
     Forall (fun e => archReg e <> nli + zr) h') ->
  free fl' ++ tbl m' ++ held h' ≡ₚ free (freeList s) ++ tbl m ++ held h ->
  sb_same sb' (scoreboard s) ->
  inv (mk fl' (<[i := m']> (renameMap s)) sb' (<[i := h']> (historyBuffer s)) (maxPhysicalRegs s)).
Proof.
  intros Hi Hm Hh Hm' Hfl' Hc Hch Hz Hzf Hp Hsb.
  assert (Hil : (i < length (renameMap s))%nat) by (by apply lookup_lt_Some in Hm).
  assert (Hih : (i < length (historyBuffer s))%nat) by (by apply lookup_lt_Some in Hh).
  split; cbn [freeList renameMap scoreboard historyBuffer maxPhysicalRegs].
  - apply Forall_insert; [apply inv_maps; done|done].
  - rewrite !length_insert. by apply inv_len.
  - done.
  - intros j m0 a r Hj. apply list_lookup_insert_Some in Hj as [(<- & <- & _)|[_ Hj]]; [by apply Hc|].
    by apply (inv_cls s Hi j).
  - intros j h0 m0 Hj Hj'. apply list_lookup_insert_Some in Hj as [(<- & <- & _)|[Hne Hj]].
    + rewrite list_lookup_insert_eq in Hj' by done. by injection Hj' as <-.
    + rewrite list_lookup_insert_ne in Hj' by done. by apply (inv_chain s Hi j).
  - intros m0 H0. apply list_lookup_insert_Some in H0 as [(-> & <- & _)|[_ H0]]; [|by apply (inv_zero s Hi)].
    destruct (inv_zero s Hi m Hm) as [H1 H2]. split; [by rewrite Hz|]. intros Hal.
    rewrite (proj1 (Hzf eq_refl Hal)). by apply H2.
  - intros h0 H0 Hal. apply list_lookup_insert_Some in H0 as [(-> & <- & _)|[_ H0]]; [by apply Hzf|].
    by apply (inv_hist0 s Hi).
  - rewrite <- (inv_pool s Hi). unfold pool. rewrite !map_insert.
    rewrite (concat_insert _ i (tbl m)), (concat_insert _ i (held h)) by (by apply map_at).
    rewrite (concat_split (map tbl (renameMap s)) i (tbl m)) by (by apply map_at).
    rewrite (concat_split (map held (historyBuffer s)) i (held h)) by (by apply map_at). perm_solve.
  - destruct Hsb as [-> _]. by apply inv_sb.
  - destruct Hsb as (_ & -> & ->). by apply inv_zreg.
  - by apply inv_max.
Qed.

(** ** Undoing *)

(** The table before an entry. *)
Definition undo_tbl (T : list Z) (e : RenameHistory) : list Z :=
  if nlr <=? archReg e then T else <[Z.to_nat (archReg e) := prevPhysReg e]> T.

Lemma setReg_ok sb r : 0 <= r < Z.of_nat (length (SB.regScoreBoard sb)) ->
  exists sb', SB.setReg sb r = Ok sb' /\ sb_same sb' sb.
Proof.
  intros Hr. unfold SB.setReg. rewrite vset_lt by done. bind_step. eexists. split; [done|].
  split; [apply length_insert|done].
Qed.

Lemma unsetReg_ok sb r : 0 <= r < Z.of_nat (length (SB.regScoreBoard sb)) ->
  exists sb', SB.unsetReg isa sb r = Ok sb' /\ sb_same sb' sb.
Proof.
  intros Hr. unfold SB.unsetReg. destruct (SB.is_zero isa sb r); [by exists sb|].
  rewrite vset_lt by done. bind_step. eexists. split; [done|]. split; [apply length_insert|done].
Qed.

Lemma held_cons e h : held (e :: h) = if real e then prevPhysReg e :: held h else held h.
Proof. unfold held. simpl. by destruct (real e). Qed.

Lemma undo_ok s i m h e :
  inv s -> renameMap s !! i = Some m -> historyBuffer s !! i = Some (e :: h) ->
  exists m' fl' sb', undo isa (maxPhysicalRegs s) m (freeList s) (scoreboard s) e = Ok (m', fl', sb') /\
    inv (mk fl' (<[i := m']> (renameMap s)) sb' (<[i := h]> (historyBuffer s)) (maxPhysicalRegs s)) /\
    tbl m' = undo_tbl (tbl m) e.
Proof.
  intros Hi Hm Hh. pose proof cfg_facts as Hc. pose proof (inv_chain s Hi i _ _ Hh Hm) as Hch.
  pose proof (Forall_lookup_1 _ _ _ _ (inv_maps s Hi) Hm) as Hwf. pose proof (inv_sb s Hi) as Hsb.
  simpl in Hch. destruct Hch as [Ha Hch]. unfold undo, undo_tbl. rewrite (inv_max s Hi).
  assert (Hh0 : i = 0%nat -> is_alpha isa = true -> archReg e <> nli + zr /\ Forall (fun e => archReg e <> nli + zr) h).
  { intros -> Hal. pose proof (inv_hist0 s Hi _ Hh Hal) as Hf. by apply Forall_cons in Hf. }
  destruct (Z.leb_spec nlr (archReg e)) as [Hmisc|Hreal].
  { destruct Hch as (Hn & Hp & Hch). rewrite setEntry_misc by done. bind_step.
    rewrite addReg_misc by (lia || by apply inv_fl). replace (newPhysReg e >=? npr) with true by lia.
    destruct (setReg_ok (scoreboard s) (newPhysReg e)) as (sb' & -> & Hsb'); [lia|]. bind_step.
    exists m, (freeList s), sb'. split; [done|]. split; [|done].
    rewrite <- (inv_max s Hi). apply (inv_update s i m (e :: h)); try done.
    - by apply inv_fl.
    - intros a r. by apply (inv_cls s Hi i).
    - intros E Hal. split; [done|]. by apply Hh0.
    - rewrite held_cons. unfold real. by replace (archReg e <? nlr) with false by lia. }
  destruct (setEntry_tbl m (archReg e) (prevPhysReg e) Hwf) as (m' & -> & Hm' & Ht); [lia|]. bind_step.
  destruct (Z.eqb_spec (archReg e) zr) as [Ez|Hz].
  - destruct Hch as (Hn & Hp & Hz & Hch). rewrite Hn, addReg_zero by (apply inv_fl; done).
    replace (zr >=? npr) with false by lia. bind_step. exists m', (freeList s), (scoreboard s).
    split; [done|]. split; [|done]. rewrite <- (inv_max s Hi).
    assert (Et : tbl m' = tbl m) by (rewrite Ht, Ez, Hp; by apply list_insert_id).
    apply (inv_update s i m (e :: h)); try done.
    + by apply inv_fl.
    + intros a r. rewrite Et. by apply (inv_cls s Hi i).
    + by rewrite Et.
    + by rewrite Et.
    + intros E Hal. rewrite Et. split; [done|]. by apply Hh0.
    + rewrite held_cons, Et. unfold real. replace (archReg e =? zr) with true by lia.
      by rewrite andb_false_r.
  - destruct Hch as (Hn & Hcn & Hcp & Hch).
    assert (Hpool : poolable (newPhysReg e)).
    { apply (poolable_mapped s i m (archReg e)); try done; [lia|]. intros E Hal. by apply Hh0. }
    destruct (addReg_ok (freeList s) (newPhysReg e)) as [Hf' Hfree]; [by apply inv_fl|done|].
    replace (newPhysReg e >=? npr) with false by (destruct Hpool; lia). bind_step.
    eexists m', _, _. split; [done|]. split; [|done]. rewrite <- (inv_max s Hi).
    apply (inv_update s i m (e :: h)); try done.
    + intros a r Har. rewrite Ht. intros [(E & <- & _)|[_ Hl]]%list_lookup_insert_Some.
      * by replace a with (archReg e) by lia.
      * by apply (inv_cls s Hi i m).
    + by rewrite Ht.
    + rewrite Ht, list_lookup_insert_ne by lia. done.
    + intros E Hal. destruct (Hh0 E Hal) as [Hne Hf]. split; [|done].
      rewrite Ht, list_lookup_insert_ne by lia. done.
    + rewrite held_cons. unfold real. replace (archReg e <? nlr) with true by lia.
      replace (archReg e =? zr) with false by lia. simpl. rewrite Ht.
      pose proof (insert_perm (tbl m) _ _ (prevPhysReg e) Hn). perm_solve.
Qed.

Lemma undo_loop_ok keep i h : forall s m,
  inv s -> renameMap s !! i = Some m -> historyBuffer s !! i = Some h ->
  exists m' fl' sb' es rest, h = es ++ rest /\ Forall (fun e => keep e = false) es /\
    (forall e, head rest = Some e -> keep e = true) /\
    undo_loop isa (maxPhysicalRegs s) keep m (freeList s) (scoreboard s) h = Ok (m', fl', sb', rest) /\
    inv (mk fl' (<[i := m']> (renameMap s)) sb' (<[i := rest]> (historyBuffer s)) (maxPhysicalRegs s)) /\
    tbl m' = fold_left undo_tbl es (tbl m).
Proof.
  induction h as [|e h IH]; intros s m Hi Hm Hh.
  { exists m, (freeList s), (scoreboard s), [], []. split_and!; try done.
    rewrite !list_insert_id by done. by destruct s. }
  cbn [undo_loop]. destruct (keep e) eqn:Hk.
  { exists m, (freeList s), (scoreboard s), [], (e :: h). split_and!; try done.
    - by intros ? [= <-].
    - rewrite !list_insert_id by done. by destruct s. }
  destruct (undo_ok s i m h e Hi Hm Hh) as (m1 & fl1 & sb1 & -> & Hi1 & Ht1). rewrite bind_Ok.
  destruct (IH _ m1 Hi1) as (m' & fl' & sb' & es & rest & -> & Hes & Hrest & Hu & Hi' & Ht).
  { apply list_lookup_insert_eq. by apply lookup_lt_Some in Hm. }
  { apply list_lookup_insert_eq. by apply lookup_lt_Some in Hh. }
  cbn [freeList scoreboard maxPhysicalRegs renameMap historyBuffer] in Hu, Hi'.
  rewrite !list_insert_insert_eq in Hi'.
  exists m', fl', sb', (e :: es), rest. split_and!; try done.
  - by apply Forall_cons.
  - by rewrite Ht, Ht1.
Qed.

Lemma undo_thread_ok keep s tid : inv s -> 0 <= tid < Z.of_nat (length (renameMap s)) ->
  exists s' m m' es rest, undo_thread isa s keep tid = Ok s' /\ inv s' /\
    renameMap s !! Z.to_nat tid = Some m /\ historyBuffer s !! Z.to_nat tid = Some (es ++ rest) /\
    Forall (fun e => keep e = false) es /\ (forall e, head rest = Some e -> keep e = true) /\
    renameMap s' = <[Z.to_nat tid := m']> (renameMap s) /\
    historyBuffer s' = <[Z.to_nat tid := rest]> (historyBuffer s) /\
    tbl m' = fold_left undo_tbl es (tbl m).
Proof.
  intros Hi Ht. destruct (inv_map_at s tid Hi Ht) as (m & h & Hvm & Hm & _ & Hvh & Hh).
  destruct (undo_loop_ok keep _ h s m Hi Hm Hh) as (m' & fl' & sb' & es & rest & -> & Hes & Hrest & Hu & Hi' & Etbl).
  unfold undo_thread. rewrite Hvm. bind_step. rewrite Hvh. bind_step. rewrite Hu. rewrite bind_Ok.
  rewrite !vset_lt by (rewrite ?(inv_len s Hi); lia). bind_step. bind_step.
  eexists _, m, m', es, rest. split; [done|]. split_and!; done.
Qed.

(** ** Committing *)
Lemma chain_elem h : forall T e, chain h T -> e ∈ h ->
  (real e = true -> cls (archReg e) (prevPhysReg e)) /\
  (real e = false -> prevPhysReg e = zr \/ npr <= prevPhysReg e).
Proof.
  induction h as [|x h IH]; intros T e; [by intros _ ?%elem_of_nil|]. simpl. intros [Ha Hc] He.
  apply elem_of_cons in He as [->|He].
  - unfold real. destruct (Z.leb_spec nlr (archReg x)).
    + replace (archReg x <? nlr) with false by lia. split; [done|]. intros _. right. lia.
    + replace (archReg x <? nlr) with true by lia.
      destruct (archReg x =? zr); simpl; split; try done; [intros _; left|intros _]; apply Hc.
  - destruct (nlr <=? archReg x); [|destruct (archReg x =? zr)]; eapply IH; try done; apply Hc.
Qed.

Lemma chain_prefix h e : forall T, chain (h ++ [e]) T -> chain h T.
Proof.
  induction h as [|x h IH]; intros T; [done|]. simpl. intros [Ha Hc]. split; [done|].
  destruct (nlr <=? archReg x); [|destruct (archReg x =? zr)]; naive_solver.
Qed.

Lemma held_snoc h e : held (h ++ [e]) = held h ++ (if real e then [prevPhysReg e] else []).
Proof. unfold held. rewrite List.filter_app, map_app. simpl. by destruct (real e). Qed.

Lemma commit_ok s i m h e :
  inv s -> renameMap s !! i = Some m -> historyBuffer s !! i = Some (h ++ [e]) ->
  inv (mk (FL.addReg isa (freeList s) (prevPhysReg e)) (renameMap s) (scoreboard s)
          (<[i := h]> (historyBuffer s)) (maxPhysicalRegs s)).
Proof.
  intros Hi Hm Hh. pose proof (inv_chain s Hi i _ _ Hh Hm) as Hch.
  destruct (chain_elem _ _ e Hch) as [H1 H2]; [apply elem_of_app; right; by left|].
  assert (Hfl : fwf (FL.addReg isa (freeList s) (prevPhysReg e)) /\
    free (FL.addReg isa (freeList s) (prevPhysReg e)) ≡ₚ
      (if real e then [prevPhysReg e] else []) ++ free (freeList s)).
  { destruct (real e) eqn:Hr.
    - apply addReg_ok; [by apply inv_fl|].
      apply (poolable_held s i m _ e Hi Hm Hh); [apply elem_of_app; right; by left|done|by apply H1].
    - pose proof (inv_fl s Hi) as Hf.
      destruct (H2 eq_refl) as [->|Hp]; [rewrite addReg_zero by done|rewrite addReg_misc by done]; done. }
  destruct Hfl as [Hf Hfree].
  rewrite <- (list_insert_id (renameMap s) i m Hm). apply (inv_update s i m (h ++ [e])); try done.
  - by apply (Forall_lookup_1 _ _ _ _ (inv_maps s Hi) Hm).
  - intros a r. by apply (inv_cls s Hi i).
  - by eapply chain_prefix.
  - intros -> Hal. split; [done|]. pose proof (inv_hist0 s Hi _ Hh Hal) as Hall.
    by apply Forall_app in Hall as [? _].
  - rewrite held_snoc. perm_solve.
Qed.

Lemma commit_loop_ok sn i r : forall s m, inv s -> renameMap s !! i = Some m ->
  historyBuffer s !! i = Some (rev r) ->
  exists fl' r', commit_loop isa sn (freeList s) r = (fl', r') /\
    inv (mk fl' (renameMap s) (scoreboard s) (<[i := rev r']> (historyBuffer s)) (maxPhysicalRegs s)).
Proof.
  induction r as [|e r IH]; intros s m Hi Hm Hh.
  { eexists _, []. split; [done|]. rewrite list_insert_id by done. by destruct s. }
  cbn [commit_loop]. destruct (instSeqNum e <=? sn).
  - simpl in Hh. pose proof (commit_ok s i m (rev r) e Hi Hm Hh) as Hi1.
    destruct (IH _ m Hi1) as (fl' & r' & Hc & Hi'); [done| |].
    { apply list_lookup_insert_eq. by apply lookup_lt_Some in Hh. }
    cbn [freeList renameMap scoreboard historyBuffer maxPhysicalRegs] in Hc, Hi'.
    rewrite list_insert_insert_eq in Hi'. by exists fl', r'.
  - eexists _, (e :: r). split; [done|]. rewrite list_insert_id by done. by destruct s.
Qed.

Lemma removeFromHistory_ok s sn tid : inv s -> 0 <= tid < Z.of_nat (length (renameMap s)) ->
  exists s', removeFromHistory isa s sn tid = Ok s' /\ inv s' /\ renameMap s' = renameMap s.
Proof.
  intros Hi Ht. destruct (inv_map_at s tid Hi Ht) as (m & h & _ & Hm & _ & Hvh & Hh).
  destruct (commit_loop_ok sn (Z.to_nat tid) (rev h) s m Hi Hm) as (fl' & r' & Hc & Hi').
  { by rewrite rev_involutive. }
  unfold removeFromHistory. rewrite Hvh. bind_step. rewrite Hc.
  rewrite vset_lt by (rewrite (inv_len s Hi); lia). bind_step. by eexists.
Qed.

(** ** Renaming *)

(** Register [a] may be renamed by thread [tid]: only thread 0 renames the
    integer zero register, and it does not rename Alpha's floating-point one. *)
Definition dest_ok (tid a : Z) : Prop :=
  0 <= a < nlr + NumMiscRegs isa /\ (a = zr -> tid = 0) /\
  (is_alpha isa = true -> tid = 0 -> a <> nli + zr).

Lemma renameDestReg_ok s tid seq a : inv s -> 0 <= tid < Z.of_nat (length (renameMap s)) -> dest_ok tid a ->
  (renameDestReg isa s tid seq a = Er Panic /\
     (FL.freeIntRegs (freeList s) = [] \/ FL.freeFloatRegs (freeList s) = [])) \/
  exists r p s' m m' h, renameDestReg isa s tid seq a = Ok (r, p, s') /\ inv s' /\
    renameMap s !! Z.to_nat tid = Some m /\ historyBuffer s !! Z.to_nat tid = Some h /\
    renameMap s' = <[Z.to_nat tid := m']> (renameMap s) /\
    historyBuffer s' = <[Z.to_nat tid := mkHist seq a r p :: h]> (historyBuffer s) /\
    undo_tbl (tbl m') (mkHist seq a r p) = tbl m.
Proof.
  intros Hi Ht (Ha & Hz & Hzf). destruct (inv_map_at s tid Hi Ht) as (m & h & Hvm & Hm & Hwf & Hvh & Hh).
  pose proof cfg_facts as Hc. pose proof (inv_sb s Hi) as Hsb.
  pose proof (inv_chain s Hi _ _ _ Hh Hm) as Hch.
  assert (Hh0 : forall r p, Z.to_nat tid = 0%nat -> is_alpha isa = true ->
    Forall (fun e => archReg e <> nli + zr) (mkHist seq a r p :: h)).
  { intros r p E Hal. apply Forall_cons. split; [simpl; apply Hzf; [done|lia]|].
    rewrite E in Hh. by apply (inv_hist0 s Hi). }
  unfold renameDestReg. rewrite Hvm. bind_step.
  destruct (Z.lt_ge_cases a nlr) as [Hreal|Hmisc].
  2:{ right. rewrite rename_misc by (done || lia). rewrite bind_Ok.
      destruct (unsetReg_ok (scoreboard s) (a - nlr + npr)) as (sb' & -> & Hsb'); [lia|]. bind_step.
      rewrite Hvh. bind_step. rewrite !vset_lt by (rewrite ?(inv_len s Hi); lia). bind_step. bind_step.
      eexists _, _, _, m, m, h. split; [done|]. split_and!; try done.
      - apply (inv_update s _ m h); try done.
        + by apply inv_fl.
        + intros b r. by apply (inv_cls s Hi (Z.to_nat tid)).
        + simpl. split; [lia|]. by replace (nlr <=? a) with true by lia.
        + intros E Hal. by split; [|apply Hh0].
        + rewrite held_cons. unfold real. simpl. by replace (a <? nlr) with false by lia.
      - unfold undo_tbl. simpl. by replace (nlr <=? a) with true by lia. }
  destruct (decide (a = zr)) as [->|Hne].
  - right. destruct (rename_zero m (freeList s) Hwf) as (p & -> & Hp). rewrite bind_Ok.
    assert (tid = 0) as -> by (by apply Hz).
    destruct (inv_zero s Hi m Hm) as [Hz0 _]. assert (p = zr) as -> by congruence.
    destruct (unsetReg_ok (scoreboard s) zr) as (sb' & -> & Hsb'); [lia|]. bind_step.
    rewrite Hvh. bind_step. rewrite !vset_lt by (rewrite ?(inv_len s Hi); lia). bind_step. bind_step.
    eexists _, _, _, m, m, h. split; [done|]. split_and!; try done.
    + apply (inv_update s _ m h); try done.
      * by apply inv_fl.
      * intros b r. by apply (inv_cls s Hi 0%nat).
      * simpl. split; [lia|]. replace (nlr <=? zr) with false by lia. by rewrite Z.eqb_refl.
      * intros E Hal. by split; [|apply Hh0].
      * rewrite held_cons. unfold real. simpl. by rewrite Z.eqb_refl, andb_false_r.
    + unfold undo_tbl. simpl. replace (nlr <=? zr) with false by lia. by apply list_insert_id.
  - destruct (rename_real m (freeList s) a Hwf (inv_fl s Hi)) as
      [[-> He]|(r & p & m' & fl' & -> & Hwf' & Hfl' & Hp & Ht' & Hfree & Hcls)]; [lia|done|by left|]. right.
    rewrite bind_Ok. destruct (unsetReg_ok (scoreboard s) r) as (sb' & -> & Hsb').
    { pose proof (cls_range a r Hcls). lia. }
    bind_step. rewrite Hvh. bind_step. rewrite !vset_lt by (rewrite ?(inv_len s Hi); lia). bind_step. bind_step.
    assert (Hundo : <[Z.to_nat a := p]> (tbl m') = tbl m).
    { rewrite Ht', list_insert_insert_eq. by apply list_insert_id. }
    eexists _, _, _, m, m', h. split; [done|]. split_and!; try done.
    + apply (inv_update s _ m h); try done.
      * intros b x Hb. rewrite Ht'. intros [(E & <- & _)|[_ Hl]]%list_lookup_insert_Some.
        -- by replace b with a by lia.
        -- by apply (inv_cls s Hi (Z.to_nat tid) m).
      * simpl. split; [lia|]. replace (nlr <=? a) with false by lia. replace (a =? zr) with false by lia.
        rewrite Hundo. split_and!; try done.
        -- rewrite Ht'. apply list_lookup_insert_eq. by apply lookup_lt_Some in Hp.
        -- apply (inv_cls s Hi (Z.to_nat tid) m); [done|lia|done].
      * rewrite Ht', list_lookup_insert_ne by lia. done.
      * intros E Hal. split; [|by apply Hh0]. rewrite Ht', list_lookup_insert_ne; [done|].
        pose proof (Hzf Hal ltac:(lia)). lia.
      * rewrite held_cons. unfold real. simpl. replace (a <? nlr) with true by lia.
        replace (a =? zr) with false by lia. simpl. rewrite Ht'.
        pose proof (insert_perm (tbl m) _ _ r Hp). perm_solve.
    + unfold undo_tbl. simpl. by replace (nlr <=? a) with false by lia.
Qed.

(** ** The initial state *)
Lemma bind_from_tbl idx n : 0 <= idx -> 0 <= n -> idx + n <= 2 ^ 15 ->
  map RM.physical_reg (RM.bind_from idx n) = seqZ idx n.
Proof.
  intros Hi Hn Hb. unfold RM.bind_from. rewrite map_map. simpl.
  transitivity (Z.add idx <$> seqZ 0 n); [|rewrite fmap_add_seqZ; f_equal; lia].
  apply map_ext_in. intros k Hk. apply list_elem_of_In, elem_of_seqZ in Hk. apply sint_small; lia.
Qed.

Lemma init_map_ok lreg freg tid b : 0 <= lreg -> npi <= freg -> lreg + nli <= npi -> freg + NumFloatRegs isa <= npr ->
  let '(m, l', f') := RM.init nli npi lreg (NumFloatRegs isa) npf freg (NumMiscRegs isa) zr zr tid b in
  mwf m /\ tbl m = seqZ lreg nli ++ seqZ freg (NumFloatRegs isa) /\
  (b = true -> l' = lreg + nli /\ f' = freg + NumFloatRegs isa).
Proof.
  intros Hl Hf Hl' Hf'. pose proof cfg_facts. pose proof (cfg_float _ _ _ Hcfg). unfold RM.init.
  set (m := RM.mk _ _ _ _ _ _ _ _ _ _ _ _).
  assert (Hm : mwf m /\ tbl m = seqZ lreg nli ++ seqZ freg (NumFloatRegs isa)).
  { split.
    - split; unfold m; simpl; try done; unfold RM.bind_from;
        rewrite ?length_app, length_map, length_seqZ, ?length_replicate; lia.
    - unfold tbl, m. simpl. rewrite bind_from_tbl by lia. f_equal.
      rewrite drop_app_length' by (by rewrite length_replicate). apply bind_from_tbl; lia. }
  destruct b; (split_and!; [apply Hm|apply Hm|]); [|done].
  intros _. rewrite !sint_small by lia. done.
Qed.

Lemma init_maps_ok active n : forall tid lreg freg,
  0 <= lreg -> npi <= freg -> lreg + Z.of_nat n * nli <= npi ->
  freg + Z.of_nat n * NumFloatRegs isa <= npr -> tid + Z.of_nat n <= active ->
  let ms := init_maps isa npi npf active tid lreg freg n in
  Forall mwf ms /\ length ms = n /\
  (forall i m, ms !! i = Some m ->
     tbl m = seqZ (lreg + Z.of_nat i * nli) nli ++ seqZ (freg + Z.of_nat i * NumFloatRegs isa) (NumFloatRegs isa)) /\
  concat (map tbl ms) ≡ₚ seqZ lreg (Z.of_nat n * nli) ++ seqZ freg (Z.of_nat n * NumFloatRegs isa).
Proof.
  pose proof cfg_facts. pose proof (cfg_float _ _ _ Hcfg).
  induction n as [|n IH]; intros tid lreg freg Hl Hf Hl' Hf' Ha ms.
  { split_and!; try done. }
  subst ms. cbn [init_maps].
  pose proof (init_map_ok lreg freg tid (tid <=? active - 1) Hl Hf ltac:(nia) ltac:(nia)) as Hm.
  destruct (RM.init _ _ _ _ _ _ _ _ _ _ _) as [[m l'] f']. destruct Hm as (Hwf & Ht & Hb).
  destruct Hb as [-> ->]; [lia|].
  destruct (IH (tid + 1) (lreg + nli) (freg + NumFloatRegs isa)) as (H1 & H2 & H3 & H4); [nia..|].
  split_and!.
  - by apply Forall_cons.
  - simpl. by rewrite H2.
  - intros [|i] m0 Hi0; simpl in Hi0.
    + injection Hi0 as <-. rewrite Ht. f_equal; f_equal; lia.
    + rewrite (H3 i m0 Hi0). f_equal; f_equal; lia.
  - cbn [map concat]. rewrite Ht. replace (Z.of_nat (S n) * nli) with (nli + Z.of_nat n * nli) by lia.
    replace (Z.of_nat (S n) * NumFloatRegs isa) with (NumFloatRegs isa + Z.of_nat n * NumFloatRegs isa) by lia.
    rewrite !seqZ_app by nia. perm_solve.
Qed.

Lemma set_all_length l : forall b b', SB.set_all b l = Ok b' -> length b' = length b.
Proof.
  induction l as [|i l IH]; intros b b'; simpl; [by intros [= <-]|].
  intros (b1 & H1 & H2)%res_bind_Ok. apply vset_Ok in H1 as [_ ->].
  by rewrite (IH _ _ H2), length_insert.
Qed.

Lemma new_inv n s : 0 < n -> new isa n n npi npf = Ok s ->
  inv s /\ Z.of_nat (length (renameMap s)) = n.
Proof.
  intros Hn H. pose proof cfg_facts as Hc. pose proof (cfg_float _ _ _ Hcfg). unfold new in H.
  apply res_bind_Ok in H as (fl & Hfl & H). apply res_bind_Ok in H as (sb & Hsb & H).
  apply res_bind_Ok in H as (u & Ha1 & H). apply res_bind_Ok in H as (u' & Ha2 & H).
  apply c_assert_Ok in Ha1, Ha2.
  assert (Hsbl : npr + NumMiscRegs isa <= Z.of_nat (length (SB.regScoreBoard sb)) /\
    SB.zeroRegIdx sb = zr /\ SB.numPhysicalIntRegs sb = npi).
  { unfold SB.new in Hsb. apply res_bind_Ok in Hsb as (b1 & H1 & Hsb).
    apply res_bind_Ok in Hsb as (b2 & H2 & Hsb). apply res_bind_Ok in Hsb as (b3 & H3 & Hsb).
    injection Hsb as <-. simpl. split; [|done]. rewrite (set_all_length _ _ _ H3), (set_all_length _ _ _ H2),
      (set_all_length _ _ _ H1), length_replicate.
    assert (NumMiscRegs isa <= NumMiscRegs isa * n) by nia.
    assert (NumMiscRegs isa * n <= NumMiscRegs isa * n * n) by nia. lia. }
  unfold FL.new in Hfl. destruct (_ || _ || _); [done|]. injection Hfl as <-. injection H as <-.
  destruct (init_maps_ok n (Z.to_nat n) 0 0 npi) as (H1 & H2 & H3 & H4); [nia..|].
  assert (Etbl0 : forall m, init_maps isa npi npf n 0 0 npi (Z.to_nat n) !! 0%nat = Some m ->
    tbl m = seqZ 0 nli ++ seqZ npi (NumFloatRegs isa)).
  { intros m Hm. rewrite (H3 _ _ Hm). f_equal; f_equal; lia. }
  split; [|simpl; lia]. split; cbn [freeList renameMap scoreboard historyBuffer maxPhysicalRegs].
  - done.
  - by rewrite length_replicate, H2.
  - split; simpl; try done; apply Forall_seqZ; nia.
  - intros i m a r Hm Ha Hr. rewrite (H3 _ _ Hm) in Hr.
    assert (Hi : (i < Z.to_nat n)%nat) by (rewrite <- H2; by apply lookup_lt_Some in Hm).
    unfold cls. apply lookup_app_Some in Hr as [Hr|[Hge Hr]].
    + apply lookup_seqZ in Hr as [-> Hlt]. replace (a <? nli) with true by lia. nia.
    + rewrite length_seqZ in Hge, Hr. apply lookup_seqZ in Hr as [-> Hlt].
      replace (a <? nli) with false by lia. nia.
  - intros i h m Hh _. apply lookup_replicate in Hh as [-> _]. done.
  - intros m Hm. rewrite (Etbl0 m Hm). split.
    + rewrite lookup_app_l by (rewrite length_seqZ; lia). apply lookup_seqZ. lia.
    + intros Hal. pose proof (cfg_alpha _ _ _ Hcfg Hal).
      rewrite lookup_app_r by (rewrite length_seqZ; lia). rewrite length_seqZ. apply lookup_seqZ. lia.
  - intros h Hh _. apply lookup_replicate in Hh as [-> _]. by apply Forall_nil_2.
  - unfold pool, free. simpl. rewrite Z2Nat.id in H4 by lia.
    assert (Hhist : concat (map held (replicate (Z.to_nat n) [])) = []).
    { clear. induction (Z.to_nat n) as [|k IH]; [done|]. simpl. done. }
    rewrite Hhist, app_nil_r, H4.
    replace (seqZ 0 npr) with (seqZ 0 (nli * n + (npi - nli * n) + (NumFloatRegs isa * n + (npr - (npi + NumFloatRegs isa * n)))))
      by (f_equal; lia).
    rewrite !seqZ_app by nia. replace (n * nli) with (nli * n) by lia.
    replace (0 + (nli * n + (npi - nli * n))) with npi by lia.
    replace (n * NumFloatRegs isa) with (NumFloatRegs isa * n) by lia.
    replace (0 + nli * n) with (nli * n) by lia. perm_solve.
  - apply Hsbl.
  - apply Hsbl.
  - apply sint_small; lia.
Qed.

Lemma new_tables n s : 0 < n -> new isa n n npi npf = Ok s ->
  (forall i m, renameMap s !! i = Some m ->
     tbl m = seqZ (Z.of_nat i * nli) nli ++ seqZ (npi + Z.of_nat i * NumFloatRegs isa) (NumFloatRegs isa)) /\
  (forall i h, historyBuffer s !! i = Some h -> h = []).
Proof.
  intros Hn H. pose proof cfg_facts as Hc. pose proof (cfg_float _ _ _ Hcfg). unfold new in H.
  apply res_bind_Ok in H as (fl & _ & H). apply res_bind_Ok in H as (sb & _ & H).
  apply res_bind_Ok in H as (u & Ha1 & H). apply res_bind_Ok in H as (u' & Ha2 & H).
  apply c_assert_Ok in Ha1, Ha2. injection H as <-. cbn [renameMap historyBuffer].
  destruct (init_maps_ok n (Z.to_nat n) 0 0 npi) as (_ & _ & H3 & _); [nia..|]. split.
  - intros i m Hm. rewrite (H3 _ _ Hm). f_equal.
  - intros i h Hh. by apply lookup_replicate in Hh as [-> _].
Qed.
End machine.
End RenameProof.
