(* ===== verification/RenameTheorems.v ===== *)
(** * Theorems on register renaming *)
From S2P Require Import Prelude Rename RenameProof.
Import Rename RenameProof.

(** ** Sequences of operations *)
Inductive op :=
| ORename (tid seqNum flat_dest_reg : Z)
| OSquash (tid squashed_seq_num : Z)
| OCommit (tid inst_seq_num : Z).

Definition step (isa : ISA) (s : t) (o : op) : res t :=
  match o with
  | ORename tid seq a => r ← renameDestReg isa s tid seq a; Ok r.2
  | OSquash tid sn => doSquash isa s sn tid
  | OCommit tid sn => removeFromHistory isa s sn tid
  end.
Fixpoint run (isa : ISA) (s : t) (ops : list op) : res t :=
  match ops with [] => Ok s | o :: ops => s ← step isa s o; run isa s ops end.

(** The threads exist and the destinations are registers they may rename. *)
Definition op_ok (isa : ISA) (n : Z) (o : op) : Prop :=
  match o with
  | ORename tid _ a => 0 <= tid < n /\ dest_ok isa tid a
  | OSquash tid _ | OCommit tid _ => 0 <= tid < n
  end.

Lemma rename_step_ok isa npi npf n s o : cfg_ok isa npi npf -> inv isa npi npf s ->
  Z.of_nat (length (renameMap s)) = n -> op_ok isa n o ->
  match step isa s o with
  | Ok s' => inv isa npi npf s' /\ Z.of_nat (length (renameMap s')) = n
  | Er f => f = Panic /\ (FL.freeIntRegs (freeList s) = [] \/ FL.freeFloatRegs (freeList s) = [])
  end.
Proof.
  intros Hc Hi Hn Ho. destruct o as [tid seq a|tid sn|tid sn]; simpl in Ho |- *.
  - destruct Ho as [Ht Hd].
    destruct (renameDestReg_ok isa npi npf Hc s tid seq a Hi) as [[-> ?]|(r & p & s' & m & m' & h & -> & Hi' & _ & _ & Hm & _)];
      [lia|done|done|]. simpl. split; [done|]. by rewrite Hm, length_insert.
  - unfold doSquash. destruct (undo_thread_ok isa npi npf Hc (fun e => negb (instSeqNum e >? sn)) s tid Hi)
      as (s' & m & m' & es & rest & -> & Hi' & _ & _ & _ & _ & Hm & _); [lia|]. split; [done|]. by rewrite Hm, length_insert.
  - destruct (removeFromHistory_ok isa npi npf Hc s sn tid Hi) as (s' & -> & Hi' & Hm); [lia|].
    split; [done|]. by rewrite Hm.
Qed.

Lemma rename_run_ok isa npi npf n ops : cfg_ok isa npi npf -> forall s, inv isa npi npf s ->
  Z.of_nat (length (renameMap s)) = n -> Forall (op_ok isa n) ops ->
  match run isa s ops with
  | Ok s' => inv isa npi npf s' /\ Z.of_nat (length (renameMap s')) = n
  | Er f => f = Panic /\ exists ops1 ops2 s1, ops = ops1 ++ ops2 /\ run isa s ops1 = Ok s1 /\
      (FL.freeIntRegs (freeList s1) = [] \/ FL.freeFloatRegs (freeList s1) = [])
  end.
Proof.
  intros Hc. induction ops as [|o ops IH]; intros s Hi Hn Hops; [done|]. simpl.
  apply Forall_cons in Hops as [Ho Hops]. pose proof (rename_step_ok isa npi npf n s o Hc Hi Hn Ho) as Hs.
  destruct (step isa s o) as [s1|f] eqn:Es; simpl.
  - destruct Hs as [Hi1 Hn1]. specialize (IH s1 Hi1 Hn1 Hops).
    destruct (run isa s1 ops) as [s2|f]; [done|]. destruct IH as [-> (ops1 & ops2 & s2 & -> & Hr & Hf)].
    split; [done|]. exists (o :: ops1), ops2, s2. simpl. by rewrite Es.
  - destruct Hs as [-> Hf]. split; [done|]. by exists [], (o :: ops), s.
Qed.

Lemma rename_run_app isa l1 : forall s l2, run isa s (l1 ++ l2) = (s1 ← run isa s l1; run isa s1 l2).
Proof. induction l1 as [|o l1 IH]; intros s l2; [done|]. simpl. destruct (step isa s o); [apply IH|done]. Qed.

(** C31. Physical registers are conserved: whatever renames, squashes and commits
    the threads of a freshly built machine go through, as long as only thread 0 renames
    the integer zero register and it does not rename Alpha's floating-point one (what
    happens then is stated below), every physical register
    is in exactly one place: on the free list, the mapping of one register of
    one thread, or held by one history entry until its instruction commits.
    The only fault is the panic on an exhausted free list. *)
Theorem registers_conserved isa npi npf n s0 ops :
  cfg_ok isa npi npf -> 0 < n -> new isa n n npi npf = Ok s0 -> Forall (op_ok isa n) ops ->
  match run isa s0 ops with
  | Ok s => FL.freeIntRegs (freeList s) ++ FL.freeFloatRegs (freeList s) ++
            concat (map (tbl isa) (renameMap s)) ++ concat (map (held isa) (historyBuffer s))
              ≡ₚ seqZ 0 (npi + npf)
  | Er f => f = Panic /\ exists ops1 ops2 s1, ops = ops1 ++ ops2 /\ run isa s0 ops1 = Ok s1 /\
      (FL.freeIntRegs (freeList s1) = [] \/ FL.freeFloatRegs (freeList s1) = [])
  end.
Proof.
  intros Hc Hn H0 Hops. destruct (new_inv isa npi npf Hc n s0 Hn H0) as [Hi Hl].
  pose proof (rename_run_ok isa npi npf n ops Hc s0 Hi Hl Hops) as Hr.
  destruct (run isa s0 ops) as [s|f]; [|done]. destruct Hr as [Hi' _].
  rewrite <- (inv_pool _ _ _ s Hi'). unfold pool, free. by rewrite <- app_assoc.
Qed.

Lemma alpha_cfg : cfg_ok alpha 128 128.
Proof. split; simpl; lia. Qed.
Definition demo_rename : t :=
  match new alpha 2 2 128 128 with Ok s => s
  | Er _ => mk (FL.mk [] [] 0 0 0 0 0) [] (SB.mk [] 0 0 0 0 0 0 0 0) [] 0 end.

Lemma registers_conserved_witness :
  exists s, run alpha demo_rename [ORename 0 1 3; ORename 1 2 45; ORename 0 3 3; OCommit 0 1; OSquash 0 2] = Ok s /\
    FL.freeIntRegs (freeList s) ++ FL.freeFloatRegs (freeList s) ++
      concat (map (tbl alpha) (renameMap s)) ++ concat (map (held alpha) (historyBuffer s)) ≡ₚ seqZ 0 256.
Proof.
  pose proof (registers_conserved alpha 128 128 2 demo_rename
    [ORename 0 1 3; ORename 1 2 45; ORename 0 3 3; OCommit 0 1; OSquash 0 2]) as H.
  destruct (run alpha demo_rename _) as [s|] eqn:E; [|vm_compute in E; discriminate E].
  exists s. split; [reflexivity|]. apply H.
  - apply alpha_cfg.
  - lia.
  - vm_compute. reflexivity.
  - repeat (apply Forall_cons; split); try apply Forall_nil_2; cbn [op_ok];
      unfold dest_ok; vm_compute; repeat split; intros; congruence || lia.
Defined.

(** ** Undoing renames *)
Definition renames (tid : Z) (rs : list (Z * Z)) : list op := map (fun r => ORename tid r.1 r.2) rs.

(** What renaming does to one thread's table and history. *)
Lemma renames_ok isa npi npf n tid rs : cfg_ok isa npi npf -> forall s s1, inv isa npi npf s ->
  Z.of_nat (length (renameMap s)) = n -> 0 <= tid < n -> Forall (fun r => dest_ok isa tid r.2) rs ->
  run isa s (renames tid rs) = Ok s1 ->
  exists m m1 h es, renameMap s !! Z.to_nat tid = Some m /\ historyBuffer s !! Z.to_nat tid = Some h /\
    renameMap s1 = <[Z.to_nat tid := m1]> (renameMap s) /\
    historyBuffer s1 = <[Z.to_nat tid := es ++ h]> (historyBuffer s) /\
    map instSeqNum es = rev (map fst rs) /\ fold_left (undo_tbl isa) es (tbl isa m1) = tbl isa m.
Proof.
  intros Hc. induction rs as [|[seq a] rs IH] using rev_ind; intros s s1 Hi Hn Ht Hrs Hr.
  { injection Hr as <-. destruct (inv_map_at isa npi npf s tid Hi) as (m & h & _ & Hm & _ & _ & Hh); [lia|].
    exists m, m, h, []. split_and!; try done; by rewrite list_insert_id. }
  unfold renames in Hr. rewrite map_app, rename_run_app in Hr. apply res_bind_Ok in Hr as (s2 & Hr2 & Hr).
  apply Forall_app in Hrs as [Hrs Ha]. apply Forall_cons in Ha as [Ha _]. simpl in Ha.
  destruct (IH s s2 Hi Hn Ht Hrs Hr2) as (m & m2 & h & es & Hm & Hh & Em & Eh & Eseq & Et).
  assert (Hi2 : inv isa npi npf s2 /\ Z.of_nat (length (renameMap s2)) = n).
  { pose proof (rename_run_ok isa npi npf n (renames tid rs) Hc s Hi Hn) as Hok. unfold renames in Hok.
    rewrite Hr2 in Hok. apply Hok. apply Forall_map. eapply Forall_impl; [exact Hrs|].
    intros [q b] Hb. simpl. split; [lia|done]. }
  destruct Hi2 as [Hi2 Hn2]. simpl in Hr. apply res_bind_Ok in Hr as (s3 & Hr3 & Hr). injection Hr as <-.
  destruct (renameDestReg_ok isa npi npf Hc s2 tid seq a Hi2) as
    [[E _]|(r & p & s4 & m3 & m4 & h3 & E & _ & Hm3 & Hh3 & Em4 & Eh4 & Eu)]; [lia|done|rewrite E in Hr3; discriminate Hr3|].
  rewrite E, bind_Ok in Hr3. cbn [snd] in Hr3. injection Hr3 as <-.
  rewrite Em, list_lookup_insert_eq in Hm3 by (by apply lookup_lt_Some in Hm). injection Hm3 as <-.
  rewrite Eh, list_lookup_insert_eq in Hh3 by (by apply lookup_lt_Some in Hh). injection Hh3 as <-.
  exists m, m4, h, (mkHist seq a r p :: es). split_and!; try done.
  - by rewrite Em4, Em, list_insert_insert_eq.
  - by rewrite Eh4, Eh, list_insert_insert_eq.
  - simpl. rewrite map_app, rev_app_distr. simpl. by rewrite Eseq.
  - simpl. by rewrite Eu.
Qed.

Lemma lookup_of_tbl isa npi npf m m' a : cfg_ok isa npi npf -> mwf isa npi npf m -> mwf isa npi npf m' ->
  0 <= a -> tbl isa m = tbl isa m' -> RM.lookup m a = RM.lookup m' a.
Proof.
  intros Hc Hm Hm' Ha E. destruct (Z.lt_ge_cases a (NumIntRegs isa + NumFloatRegs isa)).
  - destruct (lookup_tbl isa npi npf Hc m a Hm) as (r & H1 & ->); [lia|].
    destruct (lookup_tbl isa npi npf Hc m' a Hm') as (r' & H2 & ->); [lia|]. congruence.
  - unfold RM.lookup. rewrite (mwf_nli _ _ _ m Hm), (mwf_nlr _ _ _ m Hm), (mwf_npr _ _ _ m Hm).
    rewrite (mwf_nli _ _ _ m' Hm'), (mwf_nlr _ _ _ m' Hm'), (mwf_npr _ _ _ m' Hm').
    pose proof (cfg_float _ _ _ Hc). replace (a <? NumIntRegs isa) with false by lia.
    by replace (a <? NumIntRegs isa + NumFloatRegs isa) with false by lia.
Qed.

(** The entries a squash undoes are the newest ones. *)
Lemma split_unique (es1 rest1 es2 rest2 : list RenameHistory) (keep : RenameHistory -> bool) :
  es1 ++ rest1 = es2 ++ rest2 ->
  Forall (fun e => keep e = false) es1 -> (forall e, head rest1 = Some e -> keep e = true) ->
  Forall (fun e => keep e = false) es2 -> (forall e, head rest2 = Some e -> keep e = true) ->
  es1 = es2 /\ rest1 = rest2.
Proof.
  revert es2. induction es1 as [|e es1 IH]; intros [|e' es2] E H1 H2 H3 H4; simpl in E.
  - done.
  - subst. apply Forall_cons in H3 as [H3 _]. by rewrite (H2 e') in H3.
  - subst. apply Forall_cons in H1 as [H1 _]. by rewrite (H4 e) in H1.
  - injection E as -> E. apply Forall_cons in H1 as [_ H1]. apply Forall_cons in H3 as [_ H3].
    by destruct (IH es2 E H1 H2 H3 H4) as [-> ->].
Qed.

(** C32. A squash undoes the renames of the squashed instructions exactly: from any
    reachable state, after a thread has renamed any destinations for newer
    instructions, squashing back to the older ones makes every lookup of every
    thread what it was, restores the histories, and puts back on the free list
    exactly the registers that were on it. *)
Theorem squash_restores_renaming isa npi npf n s0 ops s tid sn rs s1 :
  cfg_ok isa npi npf -> 0 < n -> new isa n n npi npf = Ok s0 -> Forall (op_ok isa n) ops ->
  run isa s0 ops = Ok s -> 0 <= tid < n ->
  Forall (fun r => sn < r.1 /\ dest_ok isa tid r.2) rs ->
  (forall h e, historyBuffer s !! Z.to_nat tid = Some h -> head h = Some e -> instSeqNum e <= sn) ->
  run isa s (renames tid rs) = Ok s1 ->
  exists s2, doSquash isa s1 sn tid = Ok s2 /\ historyBuffer s2 = historyBuffer s /\
    length (renameMap s2) = length (renameMap s) /\
    (forall i m m2 a, renameMap s !! i = Some m -> renameMap s2 !! i = Some m2 -> 0 <= a ->
       RM.lookup m2 a = RM.lookup m a) /\
    FL.freeIntRegs (freeList s2) ++ FL.freeFloatRegs (freeList s2) ≡ₚ
      FL.freeIntRegs (freeList s) ++ FL.freeFloatRegs (freeList s).
Proof.
  intros Hc Hn H0 Hops Hr Ht Hrs Hold Hr1. destruct (new_inv isa npi npf Hc n s0 Hn H0) as [Hi0 Hl0].
  pose proof (rename_run_ok isa npi npf n ops Hc s0 Hi0 Hl0 Hops) as Hok. rewrite Hr in Hok. destruct Hok as [Hi Hl].
  apply Forall_and in Hrs as [Hseq Hd].
  destruct (renames_ok isa npi npf n tid rs Hc s s1 Hi Hl Ht Hd Hr1) as (m & m1 & h & es & Hm & Hh & Em & Eh & Eseq & Et).
  assert (Hok1 : inv isa npi npf s1 /\ Z.of_nat (length (renameMap s1)) = n).
  { pose proof (rename_run_ok isa npi npf n (renames tid rs) Hc s Hi Hl) as Hok. rewrite Hr1 in Hok. apply Hok.
    apply Forall_map. eapply Forall_impl; [exact Hd|]. intros [q b] Hb. simpl. split; [lia|done]. }
  destruct Hok1 as [Hi1 Hl1].
  destruct (undo_thread_ok isa npi npf Hc (fun e => negb (instSeqNum e >? sn)) s1 tid Hi1)
    as (s2 & m1' & m2 & es' & rest & Hs2 & Hi2 & Hm1 & Hh1 & Hes & Hrest & Em2 & Eh2 & Et2); [lia|].
  rewrite Em, list_lookup_insert_eq in Hm1 by (by apply lookup_lt_Some in Hm). injection Hm1 as <-.
  rewrite Eh, list_lookup_insert_eq in Hh1 by (by apply lookup_lt_Some in Hh). injection Hh1 as Ehh.
  destruct (split_unique es h es' rest (fun e => negb (instSeqNum e >? sn)) Ehh) as [<- <-]; try done.
  { apply Forall_forall. intros e He. apply negb_false_iff.
    assert (instSeqNum e ∈ rev (map fst rs)) as Hin by (rewrite <- Eseq; apply elem_of_map; by exists e).
    apply list_elem_of_In, in_rev, list_elem_of_In, elem_of_map in Hin as ([q b] & E & Hin).
    pose proof (proj1 (Forall_forall _ _) Hseq _ Hin) as Hlt. simpl in *. lia. }
  { intros e He. pose proof (Hold h e Hh He). lia. }
  assert (Etbl : map (tbl isa) (renameMap s2) = map (tbl isa) (renameMap s)).
  { rewrite Em2, Em, list_insert_insert_eq, map_insert, Et2, Et. apply list_insert_id.
    by apply map_at. }
  assert (Ehist : historyBuffer s2 = historyBuffer s).
  { rewrite Eh2, Eh, list_insert_insert_eq. by apply list_insert_id. }
  exists s2. split_and!; try done.
  - by rewrite <- (length_map (tbl isa) (renameMap s2)), Etbl, length_map.
  - intros i ma mb a Ha Hb Hpos. apply (lookup_of_tbl isa npi npf); try done.
    + by apply (Forall_lookup_1 _ _ _ _ (inv_maps _ _ _ s2 Hi2) Hb).
    + by apply (Forall_lookup_1 _ _ _ _ (inv_maps _ _ _ s Hi) Ha).
    + apply (map_at (tbl isa)) in Ha, Hb. rewrite Etbl in Hb. congruence.
  - pose proof (inv_pool _ _ _ s Hi) as Hp. pose proof (inv_pool _ _ _ s2 Hi2) as Hp2.
    unfold pool, free in Hp, Hp2. rewrite Etbl, Ehist in Hp2. rewrite <- Hp in Hp2. clear Hp. perm_solve.
Qed.

Lemma squash_restores_renaming_witness :
  exists s1 s2, run alpha demo_rename (renames 0 [(7, 3); (8, 3); (8, 44)]) = Ok s1 /\
    doSquash alpha s1 6 0 = Ok s2 /\ historyBuffer s2 = historyBuffer demo_rename.
Proof.
  destruct (run alpha demo_rename (renames 0 [(7, 3); (8, 3); (8, 44)])) as [s1|] eqn:E;
    [|vm_compute in E; discriminate E].
  destruct (squash_restores_renaming alpha 128 128 2 demo_rename [] demo_rename 0 6 [(7, 3); (8, 3); (8, 44)] s1)
    as (s2 & H1 & H2 & _).
  - apply alpha_cfg.
  - lia.
  - vm_compute. reflexivity.
  - apply Forall_nil_2.
  - reflexivity.
  - lia.
  - repeat (apply Forall_cons; split); try apply Forall_nil_2; unfold dest_ok; vm_compute;
      repeat split; intros; congruence || lia.
  - intros h e Hh He. vm_compute in Hh. injection Hh as <-. discriminate He.
  - exact E.
  - exists s1, s2. split; [reflexivity|]. split; [exact H1|exact H2].
Defined.

(** ** Data dependences *)

(** A register that is renamed comes from the free list, so nobody maps to it. *)
Lemma renamed_fresh isa npi npf s tid seq a r p s' : cfg_ok isa npi npf -> inv isa npi npf s ->
  0 <= tid < Z.of_nat (length (renameMap s)) -> 0 <= a < NumIntRegs isa + NumFloatRegs isa -> a <> ZeroReg isa ->
  renameDestReg isa s tid seq a = Ok (r, p, s') ->
  exists m m' fl', vget (renameMap s) tid = Ok m /\
    tbl isa m' = <[Z.to_nat a := r]> (tbl isa m) /\ mwf isa npi npf m' /\
    renameMap s' = <[Z.to_nat tid := m']> (renameMap s) /\
    free (freeList s) ≡ₚ r :: free fl' /\
    SB.unsetReg isa (scoreboard s) r = Ok (scoreboard s') /\ cls isa npi npf a r.
Proof.
  intros Hc Hi Ht Ha Hz H. destruct (inv_map_at isa npi npf s tid Hi Ht) as (m & h & Hvm & Hm & Hwf & Hvh & _).
  unfold renameDestReg in H. rewrite Hvm, bind_Ok in H.
  destruct (rename_real isa npi npf Hc m (freeList s) a Hwf (inv_fl _ _ _ s Hi) Ha Hz) as
    [[E _]|(r0 & p0 & m' & fl' & E & Hwf' & _ & _ & Ht' & Hf & Hcls)]; rewrite E in H; [done|].
  rewrite bind_Ok in H. apply res_bind_Ok in H as (sb' & Hsb & H). rewrite Hvh, bind_Ok in H.
  apply res_bind_Ok in H as (hs & _ & H). apply res_bind_Ok in H as (ms & Hms & H). injection H as <- <- <-.
  apply vset_Ok in Hms as [_ ->]. exists m, m', fl'. split_and!; done.
Qed.

(** Renaming carries the data dependences: from any reachable state, after a
    thread renames an integer or floating-point register, looking it up gives
    the new physical register, which is not ready until it is written; every
    other register of every thread keeps its physical register, which is not
    the new one, and its readiness. *)
Theorem rename_dependence isa npi npf n s0 ops s tid seq a r p s' :
  cfg_ok isa npi npf -> 0 < n -> new isa n n npi npf = Ok s0 -> Forall (op_ok isa n) ops ->
  run isa s0 ops = Ok s -> 0 <= tid < n -> 0 <= a < NumIntRegs isa + NumFloatRegs isa -> a <> ZeroReg isa ->
  renameDestReg isa s tid seq a = Ok (r, p, s') ->
  (exists m', renameMap s' !! Z.to_nat tid = Some m' /\ RM.lookup m' a = Ok r) /\
  SB.getReg isa (scoreboard s') r = Ok false /\
  (exists sb, SB.setReg (scoreboard s') r = Ok sb /\ SB.getReg isa sb r = Ok true) /\
  forall i m m' b q, renameMap s !! i = Some m -> renameMap s' !! i = Some m' ->
    0 <= b < NumIntRegs isa + NumFloatRegs isa -> (i, b) <> (Z.to_nat tid, a) -> RM.lookup m b = Ok q ->
    RM.lookup m' b = Ok q /\ q <> r /\ SB.getReg isa (scoreboard s') q = SB.getReg isa (scoreboard s) q.
Proof.
  intros Hc Hn H0 Hops Hr Ht Ha Hz H. destruct (new_inv isa npi npf Hc n s0 Hn H0) as [Hi0 Hl0].
  pose proof (rename_run_ok isa npi npf n ops Hc s0 Hi0 Hl0 Hops) as Hok. rewrite Hr in Hok. destruct Hok as [Hi Hl].
  destruct (renamed_fresh isa npi npf s tid seq a r p s' Hc Hi ltac:(lia) Ha Hz H)
    as (m & m' & fl' & Hvm & Et & Hwf' & Em & Hfree & Hsb & Hcls).
  apply vget_Ok in Hvm as [_ Hm]. pose proof (lookup_lt_Some _ _ _ Hm) as Hlt.
  pose proof (cls_range isa npi npf Hc a r Hcls) as Hrange.
  assert (Hnew : forall i mi k x, renameMap s !! i = Some mi -> tbl isa mi !! k = Some x -> x <> r).
  { intros i mi k x Hmi Hk ->.
    assert (Hnd : NoDup (pool isa (freeList s) (renameMap s) (historyBuffer s))).
    { rewrite (inv_pool _ _ _ s Hi). apply NoDup_seqZ. }
    unfold pool in Hnd. rewrite Hfree in Hnd. simpl in Hnd. apply NoDup_cons in Hnd as [Hnin _]. apply Hnin.
    apply elem_of_app. right. apply elem_of_app. left. apply elem_of_concat. exists (tbl isa mi).
    split; [|by eapply list_elem_of_lookup_2]. apply elem_of_map. exists mi.
    split; [done|by eapply list_elem_of_lookup_2]. }
  assert (Hnz : SB.is_zero isa (scoreboard s) r = false).
  { destruct (inv_zreg _ _ _ s Hi) as [Ez En]. unfold SB.is_zero. rewrite Ez, En.
    assert (is_Some (renameMap s !! 0%nat)) as [m0 Hm0] by (apply lookup_lt_is_Some; lia).
    destruct (inv_zero _ _ _ s Hi m0 Hm0) as [Hz0 Hzf].
    pose proof (Hnew _ _ _ _ Hm0 Hz0). destruct (is_alpha isa); [|lia].
    pose proof (Hnew _ _ _ _ Hm0 (Hzf eq_refl)). lia. }
  pose proof (inv_sb _ _ _ s Hi) as Hlen. pose proof (cfg_misc _ _ _ Hc).
  unfold SB.unsetReg in Hsb. rewrite Hnz, vset_lt, bind_Ok in Hsb by lia. injection Hsb as Esb.
  rewrite Em, <- Esb. split_and!.
  - exists m'. rewrite list_lookup_insert_eq by done. split; [done|].
    destruct (lookup_tbl isa npi npf Hc m' a Hwf' Ha) as (x & Hx & ->).
    rewrite Et, list_lookup_insert_eq in Hx; [congruence|].
    pose proof (tbl_length isa npi npf Hc m (Forall_lookup_1 _ _ _ _ (inv_maps _ _ _ s Hi) Hm)). lia.
  - unfold SB.getReg. change (SB.is_zero isa (SB.set_board _ _) r) with (SB.is_zero isa (scoreboard s) r).
    rewrite Hnz. simpl. apply vget_insert_eq. lia.
  - unfold SB.setReg. simpl. rewrite vset_lt by (rewrite length_insert; lia). rewrite bind_Ok. eexists. split; [done|].
    unfold SB.getReg. change (SB.is_zero isa (SB.set_board _ _) r) with (SB.is_zero isa (scoreboard s) r).
    rewrite Hnz. simpl. apply vget_insert_eq. rewrite length_insert. lia.
  - intros i mi mi' b q Hmi Hmi' Hb Hne Hq.
    pose proof (Forall_lookup_1 _ _ _ _ (inv_maps _ _ _ s Hi) Hmi) as Hwfi.
    destruct (lookup_tbl isa npi npf Hc mi b Hwfi Hb) as (x & Hx & Hlx).
    assert (x = q) as -> by congruence. pose proof (Hnew _ _ _ _ Hmi Hx) as Hqr. split_and!; [|done|].
    + apply list_lookup_insert_Some in Hmi' as [(<- & <- & _)|[_ Hmi']]; [|by rewrite <- Hq; f_equal; congruence].
      assert (mi = m) as -> by congruence. destruct (lookup_tbl isa npi npf Hc m' b Hwf' Hb) as (y & Hy & ->).
      rewrite Et, list_lookup_insert_ne in Hy; [congruence|]. intros E. apply Hne. f_equal. lia.
    + unfold SB.getReg. change (SB.is_zero isa (SB.set_board _ _) q) with (SB.is_zero isa (scoreboard s) q).
      destruct (SB.is_zero isa (scoreboard s) q); [done|]. simpl.
      pose proof (inv_cls _ _ _ s Hi i mi b q Hmi ltac:(lia) Hx) as Hqc.
      pose proof (cls_range isa npi npf Hc b q Hqc). apply vget_insert_ne; lia.
Qed.

Lemma rename_dependence_witness :
  exists s', renameDestReg alpha demo_rename 1 5 44 = Ok (192, 164, s') /\
    SB.getReg alpha (scoreboard s') 192 = Ok false.
Proof.
  destruct (renameDestReg alpha demo_rename 1 5 44) as [[[r p] s']|] eqn:E; [|vm_compute in E; discriminate E].
  assert (Erp : r = 192 /\ p = 164) by (vm_compute in E; injection E as <- <- _; split; reflexivity).
  destruct Erp as [-> ->]. exists s'. split; [reflexivity|].
  apply (rename_dependence alpha 128 128 2 demo_rename [] demo_rename 1 5 44 192 164 s').
  - apply alpha_cfg.
  - lia.
  - vm_compute. reflexivity.
  - apply Forall_nil_2.
  - reflexivity.
  - lia.
  - simpl. lia.
  - simpl. lia.
  - exact E.
Defined.

(** ** Where registers get lost *)

(** With several threads, renaming the integer zero register frees a register
    that is in use: a thread other than 0 keeps its zero register in a physical
    register of its own, renaming returns that one as the previous mapping, and
    committing the instruction puts it on the free list although the thread
    still maps to it. *)
Theorem smt_zero_register_freed isa npi npf n s0 tid seq :
  cfg_ok isa npi npf -> new isa n n npi npf = Ok s0 -> 0 < tid < n ->
  let p := tid * NumIntRegs isa + ZeroReg isa in
  exists s1 s2 m, renameDestReg isa s0 tid seq (ZeroReg isa) = Ok (ZeroReg isa, p, s1) /\
    removeFromHistory isa s1 seq tid = Ok s2 /\
    renameMap s2 !! Z.to_nat tid = Some m /\ RM.lookup m (ZeroReg isa) = Ok p /\
    p ∈ FL.freeIntRegs (freeList s2).
Proof.
  intros Hc H0 Ht p. destruct (new_inv isa npi npf Hc n s0 ltac:(lia) H0) as [Hi Hl].
  pose proof (cfg_facts isa npi npf Hc) as Hcf. pose proof (cfg_float _ _ _ Hc).
  destruct (inv_map_at isa npi npf s0 tid Hi) as (m & h & Hvm & Hm & Hwf & Hvh & Hh); [lia|].
  destruct (new_tables isa npi npf Hc n s0 ltac:(lia) H0) as [Htb Hhs].
  assert (Hz : tbl isa m !! Z.to_nat (ZeroReg isa) = Some p).
  { rewrite (Htb _ _ Hm), lookup_app_l by (rewrite length_seqZ; lia). apply lookup_seqZ. unfold p. lia. }
  assert (h = []) as -> by (by eapply Hhs).
  destruct (rename_zero isa npi npf Hc m (freeList s0) Hwf) as (q & Hren & Hq).
  assert (q = p) as -> by congruence.
  destruct (unsetReg_ok isa (scoreboard s0) (ZeroReg isa)) as (sb' & Hsb & _).
  { pose proof (inv_sb _ _ _ s0 Hi). lia. }
  assert (Hpn : p < npi).
  { pose proof (inv_cls _ _ _ s0 Hi _ _ (ZeroReg isa) p Hm ltac:(lia) Hz) as Hcls. unfold cls in Hcls.
    replace (ZeroReg isa <? NumIntRegs isa) with true in Hcls by lia. lia. }
  unfold renameDestReg. rewrite Hvm, bind_Ok, Hren, bind_Ok, Hsb, bind_Ok, Hvh, bind_Ok.
  rewrite !vset_lt by (rewrite ?(inv_len _ _ _ s0 Hi); lia). rewrite !bind_Ok.
  eexists _, _, m. split; [done|]. split.
  { unfold removeFromHistory. cbn [historyBuffer].
    rewrite vget_insert_eq by (rewrite (inv_len _ _ _ s0 Hi); lia). rewrite bind_Ok.
    cbn [rev app commit_loop instSeqNum]. rewrite Z.leb_refl. cbn [commit_loop].
    rewrite vset_lt by (rewrite length_insert, (inv_len _ _ _ s0 Hi); lia). rewrite bind_Ok. done. }
  cbn [renameMap freeList prevPhysReg]. split_and!.
  - apply list_lookup_insert_eq. by apply lookup_lt_Some in Hm.
  - destruct (lookup_tbl isa npi npf Hc m (ZeroReg isa) Hwf) as (x & Hx & ->); [lia|]. congruence.
  - unfold FL.addReg. rewrite (fwf_npi _ _ _ (inv_fl _ _ _ s0 Hi)).
    replace (p <? npi) with true by lia. replace (p =? ZeroReg isa) with false by (unfold p; nia).
    simpl. apply elem_of_app. right. by apply list_elem_of_singleton.
Qed.

Lemma smt_zero_register_freed_witness :
  exists s1 s2 m, renameDestReg alpha demo_rename 1 9 31 = Ok (31, 71, s1) /\
    removeFromHistory alpha s1 9 1 = Ok s2 /\ renameMap s2 !! 1%nat = Some m /\
    RM.lookup m 31 = Ok 71 /\ 71 ∈ FL.freeIntRegs (freeList s2).
Proof.
  apply (smt_zero_register_freed alpha 128 128 2 demo_rename 1 9).
  - apply alpha_cfg.
  - vm_compute. reflexivity.
  - lia.
Defined.

(** Binding registers one after the other. *)
Lemma bind_regs_ok isa npi npf (get : FL.t -> res (Z * FL.t)) (fr : FL.t -> list Z) regs :
  cfg_ok isa npi npf -> (forall fl p fl', get fl = Ok (p, fl') -> fr fl = p :: fr fl') ->
  forall m fl sb m' fl' sb', mwf isa npi npf m -> NoDup regs ->
  Forall (fun a => 0 <= a < NumIntRegs isa + NumFloatRegs isa) regs ->
  bind_regs get m fl sb regs = Ok (m', fl', sb') ->
  mwf isa npi npf m' /\
  (forall j a, regs !! j = Some a -> exists p, fr fl !! j = Some p /\ RM.lookup m' a = Ok p) /\
  (forall a, 0 <= a < NumIntRegs isa + NumFloatRegs isa -> a ∉ regs -> RM.lookup m' a = RM.lookup m a).
Proof.
  intros Hc Hget. induction regs as [|b regs IH]; intros m fl sb m' fl' sb' Hwf Hnd Hr H.
  { injection H as <- <- <-. split; [done|]. split; [by intros [|j]|done]. }
  cbn [bind_regs] in H. apply res_bind_Ok in H as ([p fl1] & Hg & H). cbv beta iota in H.
  apply Forall_cons in Hr as [Hb Hr]. apply NoDup_cons in Hnd as [Hnb Hnd].
  destruct (setEntry_tbl isa npi npf Hc m b p Hwf Hb) as (m1 & Hse & Hwf1 & Ht1).
  rewrite Hse, bind_Ok in H. apply res_bind_Ok in H as (sb1 & _ & H).
  destruct (IH m1 fl1 sb1 m' fl' sb' Hwf1 Hnd Hr H) as (Hwf' & H1 & H2). rewrite (Hget _ _ _ Hg).
  assert (Hb1 : RM.lookup m1 b = Ok p).
  { destruct (lookup_tbl isa npi npf Hc m1 b Hwf1 Hb) as (x & Hx & ->).
    rewrite Ht1, list_lookup_insert_eq in Hx; [congruence|]. pose proof (tbl_length isa npi npf Hc m Hwf). lia. }
  split; [done|]. split.
  - intros [|j] a Hj; simpl in Hj.
    + injection Hj as <-. exists p. split; [done|]. by rewrite H2.
    + by apply H1.
  - intros a Ha Hn. apply not_elem_of_cons in Hn as [Hne Hn]. rewrite H2 by done.
    destruct (lookup_tbl isa npi npf Hc m1 a Hwf1 Ha) as (x & Hx & ->).
    destruct (lookup_tbl isa npi npf Hc m a Hwf Ha) as (y & Hy & ->).
    rewrite Ht1, list_lookup_insert_ne in Hx by lia. congruence.
Qed.

(** Releasing the integer registers of a thread frees no floating-point one. *)
Lemma release_regs_float isa npi npf m regs : cfg_ok isa npi npf ->
  (forall a r, a ∈ regs -> RM.lookup m a = Ok r -> r < npi) ->
  forall fl sb fl' sb', FL.numPhysicalIntRegs fl = npi ->
  release_regs isa m fl sb regs = Ok (fl', sb') -> FL.freeFloatRegs fl' = FL.freeFloatRegs fl.
Proof.
  intros Hc. induction regs as [|a regs IH]; intros Hr fl sb fl' sb' Hn H; [by injection H as <- _|].
  cbn [release_regs] in H. apply res_bind_Ok in H as (r & Hl & H). apply res_bind_Ok in H as (sb1 & _ & H).
  assert (Hlt : r < npi) by (apply (Hr a); [by left|done]).
  assert (Hadd : FL.freeFloatRegs (FL.addReg isa fl r) = FL.freeFloatRegs fl /\
    FL.numPhysicalIntRegs (FL.addReg isa fl r) = npi).
  { unfold FL.addReg. rewrite Hn. replace (r <? npi) with true by lia. by destruct (negb (r =? ZeroReg isa)). }
  destruct Hadd as [Hadd Hn1]. rewrite <- Hadd. apply (IH ltac:(set_solver) _ _ _ _ Hn1 H).
Qed.

(** Inserting and removing a thread at run time treat the floating-point
    registers wrongly, on a guest with at least as many integer registers:
    [insertThread] binds the first integer registers of the thread to
    floating-point physical registers and leaves its floating-point registers
    as they were, and [removeThread] returns no floating-point register to the
    free list. *)
Theorem thread_float_registers_lost isa npi npf n s0 ops s tid :
  cfg_ok isa npi npf -> 0 < n -> new isa n n npi npf = Ok s0 -> Forall (op_ok isa n) ops ->
  run isa s0 ops = Ok s -> 0 <= tid < n -> NumFloatRegs isa <= NumIntRegs isa ->
  (forall s', insertThread isa s tid = Ok s' ->
     forall k, 0 <= k < NumFloatRegs isa -> exists m m' p,
       renameMap s !! Z.to_nat tid = Some m /\ renameMap s' !! Z.to_nat tid = Some m' /\
       FL.freeFloatRegs (freeList s) !! Z.to_nat k = Some p /\ npi <= p /\ RM.lookup m' k = Ok p /\
       RM.lookup m' (NumIntRegs isa + k) = RM.lookup m (NumIntRegs isa + k)) /\
  (forall s', removeThread isa s tid = Ok s' -> FL.freeFloatRegs (freeList s') = FL.freeFloatRegs (freeList s)).
Proof.
  intros Hc Hn H0 Hops Hr Ht Hle. destruct (new_inv isa npi npf Hc n s0 Hn H0) as [Hi0 Hl0].
  pose proof (rename_run_ok isa npi npf n ops Hc s0 Hi0 Hl0 Hops) as Hok. rewrite Hr in Hok. destruct Hok as [Hi Hl].
  destruct (inv_map_at isa npi npf s tid Hi) as (m & h & Hvm & Hm & Hwf & _ & _); [lia|].
  pose proof (cfg_facts isa npi npf Hc) as Hcf. pose proof (cfg_float _ _ _ Hc) as Hnf. split; intros s' H.
  - intros k Hk. unfold insertThread in H. rewrite Hvm, bind_Ok in H.
    apply res_bind_Ok in H as ([[m1 fl1] sb1] & Hb1 & H). cbv beta iota in H.
    apply res_bind_Ok in H as ([[m2 fl2] sb2] & Hb2 & H). cbv beta iota in H.
    apply res_bind_Ok in H as (ms & Hms & H). injection H as <-. apply vset_Ok in Hms as [_ ->].
    assert (Hgi : forall fl p fl', FL.getIntReg fl = Ok (p, fl') ->
      FL.freeIntRegs fl = p :: FL.freeIntRegs fl' /\ FL.freeFloatRegs fl' = FL.freeFloatRegs fl).
    { intros fl p fl'. unfold FL.getIntReg. destruct (FL.freeIntRegs fl); [done|]. by intros [= <- <-]. }
    assert (Hfl : FL.freeFloatRegs fl1 = FL.freeFloatRegs (freeList s)).
    { revert Hb1. generalize (freeList s), (scoreboard s), m. clear -Hgi.
      induction (seqZ 0 (NumIntRegs isa)) as [|a l IH]; intros fl sb m Hb; [by injection Hb as <- <- <-|].
      cbn [bind_regs] in Hb. apply res_bind_Ok in Hb as ([p fl'] & Hg & Hb). cbv beta iota in Hb.
      apply res_bind_Ok in Hb as (m' & _ & Hb). apply res_bind_Ok in Hb as (sb' & _ & Hb).
      rewrite (IH _ _ _ Hb). by apply (Hgi fl p). }
    destruct (bind_regs_ok isa npi npf FL.getIntReg FL.freeIntRegs (seqZ 0 (NumIntRegs isa)) Hc
      (fun fl p fl' Hg => proj1 (Hgi fl p fl' Hg)) _ _ _ _ _ _ Hwf (NoDup_seqZ _ _)
      ltac:(apply Forall_seqZ; lia) Hb1) as (Hwf1 & _ & Hsame1).
    assert (Hgf : forall fl p fl', FL.getFloatReg fl = Ok (p, fl') -> FL.freeFloatRegs fl = p :: FL.freeFloatRegs fl').
    { intros fl p fl'. unfold FL.getFloatReg. destruct (FL.freeFloatRegs fl); [done|]. by intros [= <- <-]. }
    destruct (bind_regs_ok isa npi npf FL.getFloatReg FL.freeFloatRegs (seqZ 0 (NumFloatRegs isa)) Hc Hgf
      _ _ _ _ _ _ Hwf1 (NoDup_seqZ _ _) ltac:(apply Forall_seqZ; lia) Hb2) as (Hwf2 & Hbound & Hsame2).
    destruct (Hbound (Z.to_nat k) k) as (p & Hp & Hlk); [apply lookup_seqZ; lia|]. rewrite Hfl in Hp.
    exists m, m2, p. cbn [renameMap]. split_and!; try done.
    + apply list_lookup_insert_eq. by apply lookup_lt_Some in Hm.
    + by apply (Forall_lookup_1 _ _ _ _ (fwf_flt _ _ _ (inv_fl _ _ _ s Hi)) Hp).
    + rewrite Hsame2, Hsame1; [done|lia| |lia|]; rewrite elem_of_seqZ; lia.
  - unfold removeThread in H. rewrite Hvm, bind_Ok in H.
    apply res_bind_Ok in H as ([fl1 sb1] & Hb1 & H). cbv beta iota in H.
    rewrite (seqZ_nil (NumIntRegs isa)) in H by lia. simpl in H. injection H as <-. cbn [freeList].
    refine (release_regs_float isa npi npf m (seqZ 0 (NumIntRegs isa)) Hc _ _ _ _ _
      (fwf_npi _ _ _ (inv_fl _ _ _ s Hi)) Hb1). intros a r Ha Hlk. apply elem_of_seqZ in Ha.
    destruct (lookup_tbl isa npi npf Hc m a Hwf) as (x & Hx & E); [lia|]. assert (x = r) as -> by congruence.
    pose proof (inv_cls _ _ _ s Hi _ _ a r Hm ltac:(lia) Hx) as Hcls. unfold cls in Hcls.
    replace (a <? NumIntRegs isa) with true in Hcls by lia. lia.
Qed.

Lemma thread_float_registers_lost_witness :
  exists s', removeThread alpha demo_rename 1 = Ok s' /\
    FL.freeFloatRegs (freeList s') = FL.freeFloatRegs (freeList demo_rename).
Proof.
  destruct (removeThread alpha demo_rename 1) as [s'|] eqn:E; [|vm_compute in E; discriminate E].
  exists s'. split; [reflexivity|].
  apply (thread_float_registers_lost alpha 128 128 2 demo_rename [] demo_rename 1).
  - apply alpha_cfg.
  - lia.
  - vm_compute. reflexivity.
  - apply Forall_nil_2.
  - reflexivity.
  - lia.
  - simpl. lia.
  - exact E.
Defined.
