(* ===== verification/PhysMem.v ===== *)
(** * Physical memory

    [src/mem/physical.hh] and [physical.cc]: the memory array behind the
    memory ports and its record of load-locked addresses (Module
    [PhysicalMemory]), and [System::new_page] of [src/sim/system.cc], which
    hands out its pages (Module [System]).  The array is one of the byte arrays
    of [Bytes]; a latency draws its random part from [rnd]. *)
From S2P Require Import Prelude EventQueue IntMath Request Packet.

Module PhysicalMemory.

Record LockedAddr := mkLock { addr : Z; contextId : Z }.
Definition Addr_Mask := 0xf.
Definition mask (paddr : Z) : Z := Z.land paddr (uint 64 (Z.lnot Addr_Mask)).

Record t := mk {
  lockedAddrList : list LockedAddr;
  pmemAddr : option positive;
  pagePtr : Z;
  lat : Z;
  lat_var : Z;
  cachedSize : Z;
  cachedStart : Z
}.

Definition set_locks (pm : t) (l : list LockedAddr) : t :=
  mk l (pmemAddr pm) (pagePtr pm) (lat pm) (lat_var pm) (cachedSize pm) (cachedStart pm).

(** The constructor, for the range [start, start + size).  [mapped] is the
    array [mmap] returns, zero-filled, or [None] when it fails. *)
Definition new (pageBytes start size latency latency_var : Z) (null : bool)
    (mapped : option positive) (m : Bytes.mem) : res (t * Bytes.mem) :=
  if negb (size mod pageBytes =? 0) then Er Panic else
  if null then Ok (mk [] None 0 latency latency_var size start, m) else
  match mapped with
  | None => Er Fatal
  | Some b =>
      Ok (mk [] (Some b) 0 latency latency_var size start, <[b := replicate (Z.to_nat size) 0]> m)
  end.

(** [new_page()]: the shift is done on an [int]. *)
Definition new_page (logVMPageSize : Z) (pm : t) : Z * t :=
  let return_addr := uint 64 (sint 32 (Z.shiftl (pagePtr pm) logVMPageSize)) in
  let return_addr := uint 64 (return_addr + cachedStart pm) in
  (return_addr, mk (lockedAddrList pm) (pmemAddr pm) (sint 32 (pagePtr pm + 1)) (lat pm) (lat_var pm)
                   (cachedSize pm) (cachedStart pm)).

Definition deviceBlockSize : Z := 0.
Definition calculateLatency (rnd : Z) (pm : t) : Z :=
  if negb (lat_var pm =? 0) then lat pm + rnd else lat pm.

(** ** Load-locked addresses *)
Definition matchesContext (l : LockedAddr) (req : Request.t) : res bool :=
  c ← Request.contextId req; Ok (contextId l =? c).

(** The record of the request's context, moved to the new address. *)
Fixpoint move_lock (req : Request.t) (paddr : Z) (l : list LockedAddr) : res (option (list LockedAddr)) :=
  match l with
  | [] => Ok None
  | i :: l =>
      b ← matchesContext i req;
      if (b : bool) then Ok (Some (mkLock paddr (contextId i) :: l))
      else r ← move_lock req paddr l; Ok (option_map (cons i) r)
  end.
Definition trackLoadLocked (pm : t) (pkt : Packet.t) : res t :=
  let req := Packet.req pkt in
  a ← Request.getPaddr req;
  let paddr := mask a in
  r ← move_lock req paddr (lockedAddrList pm);
  match r with
  | Some l => Ok (set_locks pm l)
  | None =>
      a ← Request.getPaddr req;
      c ← Request.contextId req;
      Ok (set_locks pm (mkLock (mask a) c :: lockedAddrList pm))
  end.

(** The scan of [checkLockedAddrList]: whether the context's own lock matched,
    and the records left. *)
Fixpoint check_locks (isLLSC : bool) (req : Request.t) (paddr : Z) (success : bool)
    (l : list LockedAddr) : res (bool * list LockedAddr) :=
  match l with
  | [] => Ok (success, [])
  | i :: l =>
      if addr i =? paddr then
        b ← (if isLLSC then matchesContext i req else Ok false);
        check_locks isLLSC req paddr (success || (b : bool)) l
      else r ← check_locks isLLSC req paddr success l; Ok (r.1, i :: r.2)
  end.
Definition checkLockedAddrList (pm : t) (pkt : Packet.t) : res (bool * t * Request.t) :=
  let req := Packet.req pkt in
  a ← Request.getPaddr req;
  let isLLSC := Packet.isLLSC pkt in
  r ← check_locks isLLSC req (mask a) (negb isLLSC) (lockedAddrList pm);
  let req := if isLLSC then Request.setExtraData req (if (r.1 : bool) then 1 else 0) else req in
  Ok (r.1, set_locks pm r.2, req).
Definition writeOK (pm : t) (pkt : Packet.t) : res (bool * t * Request.t) :=
  let req := Packet.req pkt in
  match lockedAddrList pm with
  | [] =>
      let isLLSC := Packet.isLLSC pkt in
      Ok (negb isLLSC, pm, if isLLSC then Request.setExtraData req 0 else req)
  | _ => checkLockedAddrList pm pkt
  end.

(** ** Accesses *)
Definition set_req (p : Packet.t) (r : Request.t) : Packet.t :=
  Packet.mk (Packet.flags p) (Packet.cmd p) r (Packet.data p) (Packet.addr p) (Packet.size p)
    (Packet.src p) (Packet.dest p) (Packet.origCmd p) (Packet.time p) (Packet.finishTime p)
    (Packet.firstWordTime p) (Packet.senderState p).

(** The access lies in the memory's range. *)
Definition check_range (pm : t) (pkt : Packet.t) : res () :=
  a ← Packet.getAddr pkt;
  _ ← c_assert (a >=? cachedStart pm);
  n ← Packet.getSize pkt;
  c_assert (uint 64 (a + n) <=? uint 64 (cachedStart pm + cachedSize pm)).
Definition hostAddr (pm : t) (a : Z) : option Bytes.ptr :=
  option_map (fun b => (b, a - cachedStart pm)) (pmemAddr pm).

(** [SwapReq]: the packet gets the memory's bytes and the memory the packet's,
    for a conditional swap if it holds the expected value. *)
Definition swap (host : ByteSwap.ByteOrder) (m : Bytes.mem) (pm : t) (pkt : Packet.t) (a : Z) :
    res Bytes.mem :=
  h ← match hostAddr pm a with Some h => Ok h | None => Er Panic end;
  n ← Packet.getSize pkt;
  _ ← c_assert (8 >=? n);
  d ← Packet.getPtr pkt;
  d ← deref d;
  overwrite_val ← Bytes.read m d n;
  m ← Bytes.memcpy m (Some d) (Some h) n;
  overwrite_mem ← (if Request.isCondSwap (Packet.req pkt) then
      if (n =? 8) || (n =? 4) then
        v ← Request.getExtraData (Packet.req pkt);
        cur ← Bytes.read m h n;
        Ok (bool_decide (Packet.host_bytes host (Z.to_nat n) (uint (8 * n) v) = cur))
      else Er Panic
    else Ok true);
  m ← (if (overwrite_mem : bool) then Bytes.write m h overwrite_val else Ok m);
  _ ← c_assert (negb (Request.isInstFetch (Packet.req pkt)));
  Ok m.

(** [if (pmemAddr) memcpy(...)] in either direction. *)
Definition copy_out (m : Bytes.mem) (pm : t) (pkt : Packet.t) (a : Z) : res Bytes.mem :=
  match hostAddr pm a with
  | None => Ok m
  | Some h => d ← Packet.getPtr pkt; n ← Packet.getSize pkt; Bytes.memcpy m d (Some h) n
  end.
Definition copy_in (m : Bytes.mem) (pm : t) (pkt : Packet.t) (a : Z) : res Bytes.mem :=
  match hostAddr pm a with
  | None => Ok m
  | Some h => d ← Packet.getPtr pkt; n ← Packet.getSize pkt; Bytes.memcpy m (Some h) d n
  end.

(** [doAtomicAccess(pkt)]: the latency, the memory and the packet after it. *)
Definition doAtomicAccess (host : ByteSwap.ByteOrder) (rnd : Z) (m : Bytes.mem) (pm : t)
    (pkt : Packet.t) : res (Z * Bytes.mem * t * Packet.t) :=
  _ ← check_range pm pkt;
  if Packet.memInhibitAsserted pkt then Ok (0, m, pm, pkt) else
  a ← Packet.getAddr pkt;
  '(m, pm, pkt) ←
    (if bool_decide (Packet.cmd pkt = MemCmd.SwapReq) then
       m ← swap host m pm pkt a; Ok (m, pm, pkt)
     else if Packet.isRead pkt then
       _ ← c_assert (negb (Packet.isWrite pkt));
       pm ← (if Packet.isLLSC pkt then trackLoadLocked pm pkt else Ok pm);
       m ← copy_out m pm pkt a; Ok (m, pm, pkt)
     else if Packet.isWrite pkt then
       w ← writeOK pm pkt;
       let pm := w.1.2 in
       let pkt := set_req pkt w.2 in
       m ← (if (w.1.1 : bool) then
              m ← copy_in m pm pkt a;
              _ ← c_assert (negb (Request.isInstFetch (Packet.req pkt)));
              Ok m
            else Ok m);
       Ok (m, pm, pkt)
     else if Packet.isInvalidate pkt then
       pkt ← (if Packet.needsResponse pkt then Packet.makeAtomicResponse pkt else Ok pkt);
       Ok (m, pm, pkt)
     else Er Panic);
  pkt ← (if Packet.needsResponse pkt then Packet.makeAtomicResponse pkt else Ok pkt);
  Ok (calculateLatency rnd pm, m, pm, pkt).

Definition doFunctionalAccess (m : Bytes.mem) (pm : t) (pkt : Packet.t) : res (Bytes.mem * Packet.t) :=
  _ ← check_range pm pkt;
  a ← Packet.getAddr pkt;
  if Packet.isRead pkt then
    m ← copy_out m pm pkt a; pkt ← Packet.makeAtomicResponse pkt; Ok (m, pkt)
  else if Packet.isWrite pkt then
    m ← copy_in m pm pkt a; pkt ← Packet.makeAtomicResponse pkt; Ok (m, pkt)
  else if Packet.isPrint pkt then
    _ ← deref (Packet.senderState pkt);
    h ← deref (hostAddr pm a);
    _ ← Bytes.read m h 1;
    Ok (m, pkt)
  else Er Panic.
End PhysicalMemory.

Module System.

(** [new_page()]: the page pointer is an [int] and so is the shifted value. *)
Definition new_page (logVMPageSize physmem_size page_ptr : Z) : res (Z * Z) :=
  let return_addr := uint 64 (sint 32 (Z.shiftl page_ptr logVMPageSize)) in
  let page_ptr := sint 32 (page_ptr + 1) in
  if return_addr >=? physmem_size then Er Fatal else Ok (return_addr, page_ptr).
End System.
