(* ===== verification/PhysMemTheorems.v ===== *)
(** * Theorems on physical memory *)
From S2P Require Import Prelude EventQueue IntMath Request Packet PacketTheorems PhysMem.
Import PhysicalMemory.

(** ** Link registers

    The list of load-locked addresses stands for one link register per
    context. *)
Definition links (l : list LockedAddr) : gmap Z Z := list_to_map (map (fun i => (contextId i, addr i)) l).
Definition locks_wf (l : list LockedAddr) : Prop := NoDup (map contextId l).

Lemma links_cons i l : links (i :: l) = <[contextId i := addr i]> (links l).
Proof. done. Qed.

Lemma links_none l c : c ∉ map contextId l -> links l !! c = None.
Proof.
  intros Hc. apply not_elem_of_list_to_map_1. by rewrite <- list_fmap_compose.
Qed.

Lemma ctx_ok req : Request.hasContextId req = true -> Request.contextId req = Ok (Request._contextId req).
Proof. unfold Request.hasContextId, Request.contextId. by intros ->. Qed.

Lemma move_lock_ok req a l : Request.hasContextId req = true -> locks_wf l ->
  exists r, move_lock req a l = Ok r /\
    match r with
    | Some l' => map contextId l' = map contextId l /\ links l' = <[Request._contextId req := a]> (links l)
    | None => Request._contextId req ∉ map contextId l
    end.
Proof.
  intros Hc. induction l as [|i l IH]; intros Hl; cbn [move_lock].
  { exists None. split; [done|]. simpl. by apply not_elem_of_nil. }
  apply NoDup_cons in Hl as [Hn Hl]. unfold matchesContext. rewrite ctx_ok, !bind_Ok by done.
  destruct (Z.eqb_spec (contextId i) (Request._contextId req)) as [E|Hne].
  - eexists. split; [done|]. rewrite !links_cons. cbn [contextId addr map]. rewrite E.
    split; [done|]. by rewrite insert_insert_eq.
  - destruct (IH Hl) as ([l'|] & -> & Hr); rewrite bind_Ok; eexists; (split; [done|]); simpl.
    + destruct Hr as [Hm Hk]. split; [by rewrite Hm|]. rewrite !links_cons, Hk.
      apply insert_insert_ne. congruence.
    + apply not_elem_of_cons. split; [congruence|done].
Qed.

(** A load-locked access writes the context's link register. *)
Lemma track_ok pm pkt p : locks_wf (lockedAddrList pm) ->
  Request.getPaddr (Packet.req pkt) = Ok p -> Request.hasContextId (Packet.req pkt) = true ->
  exists l, trackLoadLocked pm pkt = Ok (set_locks pm l) /\ locks_wf l /\
    links l = <[Request._contextId (Packet.req pkt) := mask p]> (links (lockedAddrList pm)).
Proof.
  intros Hl Hp Hc. unfold trackLoadLocked. rewrite Hp, bind_Ok.
  destruct (move_lock_ok _ (mask p) _ Hc Hl) as ([l'|] & -> & Hr); rewrite bind_Ok.
  - destruct Hr as [Hm Hk]. exists l'. split_and!; [done| |done]. unfold locks_wf. by rewrite Hm.
  - rewrite bind_Ok, ctx_ok, bind_Ok by done. eexists. split_and!; [done| |done].
    apply NoDup_cons. split; [exact Hr|done].
Qed.

(** Link registers that do not point to [a]. *)
Definition unlink (a : Z) (k : gmap Z Z) : gmap Z Z := filter (fun x => x.2 <> a) k.

Lemma check_locks_ok isLLSC req a l : (isLLSC = true -> Request.hasContextId req = true) -> locks_wf l ->
  forall success, exists r l', check_locks isLLSC req a success l = Ok (r, l') /\
    l' ⊆+ l /\ links l' = unlink a (links l) /\
    r = success || (isLLSC && bool_decide (links l !! Request._contextId req = Some a)).
Proof.
  intros Hc. induction l as [|i l IH]; intros Hl success; cbn [check_locks].
  { eexists _, _. split; [done|]. split_and!; [done| |].
    - unfold links, unlink. simpl. symmetry. apply map_filter_empty.
    - by rewrite andb_false_r, orb_false_r. }
  apply NoDup_cons in Hl as [Hn Hl]. specialize (IH Hl).
  assert (Hnone : links l !! contextId i = None) by (by apply links_none).
  rewrite !links_cons. destruct (Z.eqb_spec (addr i) a) as [Ea|Ha].
  - assert (exists b, (if isLLSC then matchesContext i req else Ok false) = Ok b /\
      b = isLLSC && (contextId i =? Request._contextId req)) as (b & -> & Hb).
    { destruct isLLSC; [|by exists false]. unfold matchesContext. rewrite ctx_ok by auto. by eexists. }
    rewrite bind_Ok. destruct (IH (success || b)) as (r & l' & -> & Hsub & Hk & Hr). eexists _, _. split; [done|].
    split_and!.
    + by apply submseteq_cons.
    + rewrite Hk. unfold unlink. rewrite map_filter_insert_False by (simpl; congruence).
      by rewrite delete_id.
    + rewrite Hr, <- orb_assoc. f_equal. rewrite Hb, <- andb_orb_distrib_r. f_equal.
      destruct (Z.eqb_spec (contextId i) (Request._contextId req)) as [<-|Hne].
      * rewrite lookup_insert_eq. by rewrite (bool_decide_eq_true_2 (Some (addr i) = Some a)) by congruence.
      * by rewrite lookup_insert_ne.
  - destruct (IH success) as (r & l' & -> & Hsub & Hk & Hr). rewrite bind_Ok. eexists _, _. split; [done|].
    split_and!.
    + by apply submseteq_skip.
    + cbn [snd]. rewrite links_cons, Hk. unfold unlink. by rewrite map_filter_insert_True by (simpl; congruence).
    + simpl. rewrite Hr. do 2 f_equal. destruct (decide (contextId i = Request._contextId req)) as [<-|Hne].
      * rewrite lookup_insert_eq, Hnone. rewrite !bool_decide_eq_false_2; [done|congruence|done].
      * by rewrite lookup_insert_ne.
Qed.

Lemma submseteq_NoDup_map l l' : l' ⊆+ l -> locks_wf l -> locks_wf l'.
Proof.
  intros (k & Hk)%submseteq_Permutation Hl. unfold locks_wf in *.
  rewrite Hk, map_app in Hl. by apply NoDup_app in Hl as (? & _ & _).
Qed.

(** A write clears the link registers that point to its line; a store
    conditional succeeds when its context's is one of them. *)
Lemma writeOK_ok pm pkt p : locks_wf (lockedAddrList pm) ->
  Request.getPaddr (Packet.req pkt) = Ok p -> Request.hasContextId (Packet.req pkt) = true ->
  let k := links (lockedAddrList pm) in
  let ok := negb (Packet.isLLSC pkt) ||
            bool_decide (k !! Request._contextId (Packet.req pkt) = Some (mask p)) in
  exists l, writeOK pm pkt = Ok (ok, set_locks pm l,
      if Packet.isLLSC pkt then Request.setExtraData (Packet.req pkt) (if ok then 1 else 0) else Packet.req pkt) /\
    locks_wf l /\ links l = unlink (mask p) k.
Proof.
  intros Hl Hp Hc k ok. unfold writeOK. destruct (lockedAddrList pm) as [|i l0] eqn:El.
  { exists []. assert (Eok : ok = negb (Packet.isLLSC pkt)) by (unfold ok, k; simpl; by rewrite orb_false_r).
    split_and!; [|by apply NoDup_nil_2|].
    - rewrite Eok. destruct pm; simpl in *; subst. by destruct (Packet.isLLSC pkt).
    - unfold k, links, unlink. simpl. symmetry. apply map_filter_empty. }
  unfold checkLockedAddrList. rewrite El, Hp, bind_Ok.
  destruct (check_locks_ok (Packet.isLLSC pkt) (Packet.req pkt) (mask p) (i :: l0) (fun _ => Hc) Hl
    (negb (Packet.isLLSC pkt))) as (r & l' & -> & Hsub & Hk & Hr). rewrite bind_Ok. cbn [fst snd].
  assert (r = ok) as ->.
  { rewrite Hr. unfold ok, k. by destruct (Packet.isLLSC pkt). }
  exists l'. split_and!; [done| |done]. by eapply submseteq_NoDup_map.
Qed.

(** ** Accesses *)
Lemma makeResponse_req p r : Packet.makeResponse p = Ok r -> Packet.req r = Packet.req p.
Proof.
  unfold Packet.makeResponse. intros H. apply res_bind_Ok in H as (? & _ & H).
  apply res_bind_Ok in H as (? & _ & H). by injection H as <-.
Qed.

(** The memory array of [pm] holds [bytes]. *)
Record holds_bytes (m : Bytes.mem) (pm : t) (b : positive) (bytes : list Z) : Prop := {
  hb_addr : pmemAddr pm = Some b;
  hb_array : m !! b = Some bytes;
  hb_size : Z.of_nat (length bytes) = cachedSize pm;
  hb_range : 0 <= cachedStart pm /\ cachedStart pm + cachedSize pm < 2 ^ 64
}.

(** A packet of [n] bytes at [a], whose data is at [doff] of array [db]. *)
Record carries (m : Bytes.mem) (pkt : Packet.t) (a n : Z) (db : positive) (doff : Z) (dl : list Z) : Prop := {
  c_sized : sized pkt a n;
  c_flags : EvQ.isSet (Packet.flags pkt) (Z.lor Packet.STATIC_DATA Packet.DYNAMIC_DATA) = true;
  c_data : Packet.data pkt = Some (db, doff);
  c_array : m !! db = Some dl;
  c_room : 0 <= doff /\ doff + n <= Z.of_nat (length dl);
  c_resp : Packet.needsResponse pkt = true /\ 0 <= Packet.flags pkt /\ Packet.memInhibitAsserted pkt = false
}.

Lemma check_range_ok m pm pkt b bytes a n db doff dl :
  holds_bytes m pm b bytes -> carries m pkt a n db doff dl ->
  cachedStart pm <= a -> a + n <= cachedStart pm + cachedSize pm -> check_range pm pkt = Ok ().
Proof.
  intros Hb Hp H1 H2. destruct (sized_get pkt a n (c_sized _ _ _ _ _ _ _ Hp)) as [Ha Hn].
  destruct (sz_range pkt a n (c_sized _ _ _ _ _ _ _ Hp)). destruct (hb_range _ _ _ _ Hb).
  unfold check_range. rewrite Ha, bind_Ok, Hn. replace (a >=? cachedStart pm) with true by lia.
  cbn [c_assert]. rewrite !bind_Ok, !uint_small by lia.
  by replace (a + n <=? cachedStart pm + cachedSize pm) with true by lia.
Qed.

(** The response of an access that leaves the packet's flags alone. *)
Lemma respond pkt : Packet.needsResponse pkt = true -> 0 <= Packet.flags pkt ->
  exists r, Packet.makeAtomicResponse pkt = Ok r /\ Packet.cmd r = MemCmd.responseCommand (Packet.cmd pkt) /\
    Packet.req r = Packet.req pkt /\ Packet.data r = Packet.data pkt.
Proof.
  intros Hn Hf. destruct (makeResponse_ok pkt Hf Hn) as (r & Hr & Hc & _ & _ & _ & _ & Hd & _).
  exists r. unfold Packet.makeAtomicResponse. split_and!; try done. by apply makeResponse_req.
Qed.

Section access.
Context (host : ByteSwap.ByteOrder) (rnd : Z).
Context (m : Bytes.mem) (pm : t) (pkt : Packet.t).
Context (b : positive) (bytes : list Z) (a n : Z) (db : positive) (doff : Z) (dl : list Z) (p : Z).
Context (Hb : holds_bytes m pm b bytes) (Hp : carries m pkt a n db doff dl) (Hdb : db <> b).
Context (Hlo : cachedStart pm <= a) (Hhi : a + n <= cachedStart pm + cachedSize pm).

Lemma access_facts : Packet.getAddr pkt = Ok a /\ Packet.getSize pkt = Ok n /\ 0 < n /\
  Packet.getPtr pkt = Ok (Some (db, doff)) /\ hostAddr pm a = Some (b, a - cachedStart pm) /\
  Z.of_nat (length bytes) = cachedSize pm /\ m !! b = Some bytes /\ m !! db = Some dl /\
  0 <= doff /\ doff + n <= Z.of_nat (length dl).
Proof.
  destruct (sized_get pkt a n (c_sized _ _ _ _ _ _ _ Hp)) as [Ha Hn].
  destruct (sz_range pkt a n (c_sized _ _ _ _ _ _ _ Hp)) as (? & ? & ?). destruct (c_room _ _ _ _ _ _ _ Hp).
  split_and!; try done; try lia.
  - unfold Packet.getPtr. rewrite (c_flags _ _ _ _ _ _ _ Hp), (c_data _ _ _ _ _ _ _ Hp). done.
  - unfold hostAddr. by rewrite (hb_addr _ _ _ _ Hb).
  - apply (hb_size _ _ _ _ Hb).
  - apply (hb_array _ _ _ _ Hb).
  - apply (c_array _ _ _ _ _ _ _ Hp).
Qed.

(** Reading: the packet's bytes become those of the memory. *)
Lemma copy_out_ok : exists dl', copy_out m pm pkt a = Ok (<[db := dl']> m) /\ length dl' = length dl /\
  forall i, 0 <= i -> dl' !! Z.to_nat i =
    if decide (doff <= i < doff + n) then bytes !! Z.to_nat (a - cachedStart pm + (i - doff)) else dl !! Z.to_nat i.
Proof.
  destruct access_facts as (Ha & Hn & Hpos & Hptr & Hh & Hlen & Hmb & Hmd & Hd0 & Hd1).
  unfold copy_out. rewrite Hh, Hptr, bind_Ok, Hn, bind_Ok.
  destruct (Bytes.memcpy_ok m db doff b (a - cachedStart pm) n dl bytes) as (dl' & Hm & Hl & Hi); [done|done|lia..|].
  exists dl'. split_and!; [done|done|]. intros i Hi0. rewrite Hi by done.
  destruct (decide (doff <= i < doff + n)); [f_equal; lia|done].
Qed.

(** Writing: the memory's bytes become those of the packet. *)
Lemma copy_in_ok : exists bytes', copy_in m pm pkt a = Ok (<[b := bytes']> m) /\ length bytes' = length bytes /\
  forall i, 0 <= i -> bytes' !! Z.to_nat i =
    if decide (a - cachedStart pm <= i < a - cachedStart pm + n)
    then dl !! Z.to_nat (doff + (i - (a - cachedStart pm))) else bytes !! Z.to_nat i.
Proof.
  destruct access_facts as (Ha & Hn & Hpos & Hptr & Hh & Hlen & Hmb & Hmd & Hd0 & Hd1).
  unfold copy_in. rewrite Hh, Hptr, bind_Ok, Hn, bind_Ok.
  destruct (Bytes.memcpy_ok m b (a - cachedStart pm) db doff n bytes dl) as (bytes' & Hm & Hl & Hi); [done|done|lia..|].
  exists bytes'. split_and!; [done|done|]. intros i Hi0. rewrite Hi by done.
  destruct (decide (_ <= i < _)); [f_equal; lia|done].
Qed.
End access.

Lemma not_swap pkt : Packet.isRead pkt && Packet.isWrite pkt = false ->
  bool_decide (Packet.cmd pkt = MemCmd.SwapReq) = false.
Proof. intros H. apply bool_decide_eq_false_2. intros E. unfold Packet.isRead, Packet.isWrite in H. by rewrite E in H. Qed.

(** C29. Physical memory refines an array of bytes with one link register per
    context.  A read gives the packet the bytes of its range, and a load-locked
    one points the context's link register to its line.  A write puts the
    packet's bytes in its range, and clears every link register that points to
    its line; a store conditional writes only if its context's own register
    points there, and reports whether it did.  The packet becomes its response,
    and nothing else changes. *)
Theorem atomic_access_refines host rnd m pm pkt b bytes a n db doff dl p :
  holds_bytes m pm b bytes -> carries m pkt a n db doff dl -> db <> b ->
  cachedStart pm <= a -> a + n <= cachedStart pm + cachedSize pm ->
  locks_wf (lockedAddrList pm) ->
  Request.getPaddr (Packet.req pkt) = Ok p -> Request.hasContextId (Packet.req pkt) = true ->
  Request.isInstFetch (Packet.req pkt) = false ->
  let k := links (lockedAddrList pm) in
  let ctx := Request._contextId (Packet.req pkt) in
  (Packet.isRead pkt = true -> Packet.isWrite pkt = false ->
   exists l pkt' dl', doAtomicAccess host rnd m pm pkt
       = Ok (calculateLatency rnd pm, <[db := dl']> m, set_locks pm l, pkt') /\
     locks_wf l /\ links l = (if Packet.isLLSC pkt then <[ctx := mask p]> k else k) /\
     Packet.cmd pkt' = MemCmd.responseCommand (Packet.cmd pkt) /\ length dl' = length dl /\
     forall i, 0 <= i -> dl' !! Z.to_nat i =
       if decide (doff <= i < doff + n) then bytes !! Z.to_nat (a - cachedStart pm + (i - doff)) else dl !! Z.to_nat i) /\
  (Packet.isRead pkt = false -> Packet.isWrite pkt = true ->
   let ok := negb (Packet.isLLSC pkt) || bool_decide (k !! ctx = Some (mask p)) in
   exists l pkt' bytes', doAtomicAccess host rnd m pm pkt
       = Ok (calculateLatency rnd pm, <[b := bytes']> m, set_locks pm l, pkt') /\
     locks_wf l /\ links l = unlink (mask p) k /\
     Packet.cmd pkt' = MemCmd.responseCommand (Packet.cmd pkt) /\
     (Packet.isLLSC pkt = true -> Request.getExtraData (Packet.req pkt') = Ok (if ok then 1 else 0)) /\
     length bytes' = length bytes /\
     forall i, 0 <= i -> bytes' !! Z.to_nat i =
       if ok && bool_decide (a - cachedStart pm <= i < a - cachedStart pm + n)
       then dl !! Z.to_nat (doff + (i - (a - cachedStart pm))) else bytes !! Z.to_nat i).
Proof.
  intros Hb Hp Hdb Hlo Hhi Hl Hpa Hctx Hif k ctx.
  destruct (access_facts m pm pkt b bytes a n db doff dl Hb Hp Hdb) as (Ha & _ & _ & _ & _ & _ & Hmb & _).
  destruct (c_resp _ _ _ _ _ _ _ Hp) as (Hnr & Hfl & Hinh).
  assert (Hcr : check_range pm pkt = Ok ()) by (by eapply check_range_ok). split.
  - intros Hr Hw. unfold doAtomicAccess. rewrite Hcr, bind_Ok, Hinh, Ha, bind_Ok.
    rewrite not_swap by (by rewrite Hw, andb_false_r). rewrite Hr, Hw. cbn [negb c_assert]. rewrite bind_Ok.
    assert (exists l, (if Packet.isLLSC pkt then trackLoadLocked pm pkt else Ok pm) = Ok (set_locks pm l) /\
      locks_wf l /\ links l = (if Packet.isLLSC pkt then <[ctx := mask p]> k else k)) as (l & -> & Hwf & Hk).
    { destruct (Packet.isLLSC pkt); [by apply track_ok|]. exists (lockedAddrList pm). by destruct pm. }
    rewrite bind_Ok. change (copy_out m (set_locks pm l) pkt a) with (copy_out m pm pkt a).
    destruct (copy_out_ok m pm pkt b bytes a n db doff dl Hb Hp Hdb Hlo Hhi) as (dl' & -> & Hlen & Hi). rewrite bind_Ok.
    rewrite bind_Ok, Hnr. destruct (respond pkt Hnr Hfl) as (r & -> & Hc & _). rewrite bind_Ok.
    exists l, r, dl'. split_and!; done.
  - intros Hr Hw ok. unfold doAtomicAccess. rewrite Hcr, bind_Ok, Hinh, Ha, bind_Ok.
    rewrite not_swap by (by rewrite Hr). rewrite Hr, Hw.
    destruct (writeOK_ok pm pkt p Hl Hpa Hctx) as (l & Hwok & Hwf & Hk). rewrite Hwok, bind_Ok. cbn [fst snd].
    set (rq := if Packet.isLLSC pkt then _ else _). fold k ctx ok in Hk |- *.
    assert (Hrq : Request.isInstFetch rq = false /\
      (Packet.isLLSC pkt = true -> Request.getExtraData rq = Ok (if ok then 1 else 0))).
    { unfold rq. fold k ctx ok. destruct (Packet.isLLSC pkt); [|done]. split; [done|]. intros _.
      unfold Request.getExtraData, Request.setExtraData. cbn [Request.privateFlags Request._extraData].
      by rewrite Request.isSet_set_bits, orb_true_r. }
    destruct Hrq as [Hif' Hex]. set (pk := set_req pkt rq).
    change (copy_in m (set_locks pm l) pk a) with (copy_in m pm pkt a).
    change (Packet.req pk) with rq. rewrite Hif'. cbn [negb c_assert].
    destruct (copy_in_ok m pm pkt b bytes a n db doff dl Hb Hp Hdb Hlo Hhi) as (bytes' & -> & Hlen & Hi).
    assert (Hres : exists r, Packet.makeAtomicResponse pk = Ok r /\
      Packet.cmd r = MemCmd.responseCommand (Packet.cmd pkt) /\ Packet.req r = rq).
    { destruct (respond pk Hnr Hfl) as (r & ? & ? & ? & _). by exists r. }
    destruct Hres as (r & Hres & Hcmd & Hreq).
    assert (Hnr' : Packet.needsResponse pk = true) by exact Hnr. destruct ok.
    + rewrite !bind_Ok. rewrite Hnr', Hres, bind_Ok. exists l, r, bytes'. split_and!; try done.
      * by rewrite Hreq.
      * intros i Hi0. rewrite Hi by done. cbn [andb].
        destruct (decide (a - cachedStart pm <= i < a - cachedStart pm + n)) as [Hin|Hout];
          [by rewrite bool_decide_eq_true_2|by rewrite bool_decide_eq_false_2].
    + rewrite !bind_Ok. rewrite Hnr', Hres, bind_Ok. exists l, r, bytes. rewrite insert_id by done.
      split_and!; try done. by rewrite Hreq.
Qed.

(** A memory of 32 bytes at 0x1000, and 4-byte packets for it. *)
Definition demo_pm : t := mk [mkLock 0x1000 7] (Some 1%positive) 0 10 0 32 0x1000.
Definition demo_bytes : Bytes.mem := {[ 1%positive := replicate 32 5; 2%positive := [90; 91; 92; 93] ]}.
Definition demo_ram_pkt (c : MemCmd.Command) (ctx : Z) : Packet.t :=
  Packet.mk 0x1f00 c (Request.mk 0x1004 4 0 0x23 0 0 0 0 ctx 0 0) (Some (2%positive, 0)) 0x1004 4 3 0
    MemCmd.InvalidCmd 0 0 0 None.

Lemma demo_holds : holds_bytes demo_bytes demo_pm 1 (replicate 32 5).
Proof. split; [done|done|done|simpl; lia]. Qed.
Lemma demo_carries c ctx : MemCmd.needsResponse c = true ->
  carries demo_bytes (demo_ram_pkt c ctx) 0x1004 4 2 0 [90; 91; 92; 93].
Proof. intros Hc. split; done. Qed.

Lemma atomic_access_refines_witness :
  exists l pkt' bytes', doAtomicAccess ByteSwap.LittleEndianByteOrder 0 demo_bytes demo_pm (demo_ram_pkt MemCmd.StoreCondReq 7)
      = Ok (10, <[1%positive := bytes']> demo_bytes, set_locks demo_pm l, pkt') /\
    Request.getExtraData (Packet.req pkt') = Ok 1.
Proof.
  destruct (atomic_access_refines ByteSwap.LittleEndianByteOrder 0 demo_bytes demo_pm (demo_ram_pkt MemCmd.StoreCondReq 7)
    1 (replicate 32 5) 0x1004 4 2 0 [90; 91; 92; 93] 0x1004) as [_ H].
  - exact demo_holds.
  - apply demo_carries. reflexivity.
  - discriminate.
  - simpl. lia.
  - simpl. lia.
  - apply (bool_decide_unpack (NoDup [7])). vm_compute. exact I.
  - reflexivity.
  - reflexivity.
  - reflexivity.
  - destruct H as (l & pkt' & bytes' & H1 & _ & _ & _ & H2 & _); [reflexivity|reflexivity|].
    exists l, pkt', bytes'. split; [exact H1|]. rewrite H2 by reflexivity. vm_compute. reflexivity.
Defined.

(** ** Swaps *)
Definition slice (l : list Z) (o n : Z) : list Z := take (Z.to_nat n) (drop (Z.to_nat o) l).
Definition splice (l : list Z) (o : Z) (d : list Z) : list Z :=
  take (Z.to_nat o) l ++ d ++ drop (Z.to_nat o + length d) l.

Lemma read_slice m b o n l : m !! b = Some l -> 0 <= o -> 0 <= n -> o + n <= Z.of_nat (length l) ->
  Bytes.read m (b, o) n = Ok (slice l o n) /\ length (slice l o n) = Z.to_nat n.
Proof.
  intros Hm Ho Hn Hl. unfold Bytes.read, slice. cbn [fst snd]. rewrite Hm. cbn [deref]. rewrite bind_Ok.
  replace ((0 <=? o) && (0 <=? n) && (o + n <=? Z.of_nat (length l))) with true by lia.
  split; [done|]. rewrite length_take, length_drop. lia.
Qed.

Lemma write_splice m b o d l : m !! b = Some l -> 0 <= o -> o + Z.of_nat (length d) <= Z.of_nat (length l) ->
  Bytes.write m (b, o) d = Ok (<[b := splice l o d]> m) /\ length (splice l o d) = length l.
Proof.
  intros Hm Ho Hl. unfold Bytes.write, splice. cbn [fst snd]. rewrite Hm. cbn [deref]. rewrite bind_Ok.
  replace ((0 <=? o) && (Z.to_nat o + length d <=? length l)%nat) with true.
  - split; [done|]. rewrite !length_app, length_take, length_drop. lia.
  - symmetry. apply andb_true_iff. split; [lia|]. apply Nat.leb_le. lia.
Qed.

(** A swap is atomic: the packet receives the bytes of its range, and the
    memory the packet's old bytes; a conditional swap stores them only if the
    memory held the expected value, in the host's byte order. *)
Theorem swap_exchanges host rnd m pm pkt b bytes a n db doff dl v :
  holds_bytes m pm b bytes -> carries m pkt a n db doff dl -> db <> b ->
  cachedStart pm <= a -> a + n <= cachedStart pm + cachedSize pm ->
  Packet.cmd pkt = MemCmd.SwapReq -> n <= 8 -> Request.isInstFetch (Packet.req pkt) = false ->
  (Request.isCondSwap (Packet.req pkt) = true -> (n = 4 \/ n = 8) /\ Request.getExtraData (Packet.req pkt) = Ok v) ->
  let o := a - cachedStart pm in
  let ok := negb (Request.isCondSwap (Packet.req pkt)) ||
            bool_decide (Packet.host_bytes host (Z.to_nat n) (uint (8 * n) v) = slice bytes o n) in
  exists pkt', doAtomicAccess host rnd m pm pkt = Ok (calculateLatency rnd pm,
      <[b := if ok then splice bytes o (slice dl doff n) else bytes]>
        (<[db := splice dl doff (slice bytes o n)]> m), pm, pkt') /\
    Packet.cmd pkt' = MemCmd.SwapResp.
Proof.
  intros Hb Hp Hdb Hlo Hhi Hcmd Hn8 Hif Hcond o ok.
  destruct (access_facts m pm pkt b bytes a n db doff dl Hb Hp Hdb) as (Ha & Hn & Hpos & Hptr & Hh & Hlen & Hmb & Hmd & Hd0 & Hd1).
  destruct (c_resp _ _ _ _ _ _ _ Hp) as (Hnr & Hfl & Hinh). fold o in Hh.
  assert (Hcr : check_range pm pkt = Ok ()) by (by eapply check_range_ok).
  destruct (read_slice m db doff n dl Hmd) as [Hrd Hld]; [lia..|].
  destruct (read_slice m b o n bytes Hmb) as [Hrb Hlb]; [lia..|].
  destruct (write_splice m db doff (slice bytes o n) dl Hmd) as [Hwd Hlsd]; [lia..|].
  set (m1 := <[db := splice dl doff (slice bytes o n)]> m).
  assert (Hm1 : m1 !! b = Some bytes) by (unfold m1; by rewrite lookup_insert_ne).
  destruct (read_slice m1 b o n bytes Hm1) as [Hrb1 _]; [lia..|].
  destruct (write_splice m1 b o (slice dl doff n) bytes Hm1) as [Hwb _]; [lia..|].
  assert (Hswap : swap host m pm pkt a = Ok (<[b := if ok then splice bytes o (slice dl doff n) else bytes]> m1)).
  { unfold swap. rewrite Hh, bind_Ok, Hn, bind_Ok. replace (8 >=? n) with true by lia. cbn [c_assert].
    rewrite bind_Ok, Hptr, bind_Ok. cbn [deref]. rewrite bind_Ok, Hrd, bind_Ok.
    unfold Bytes.memcpy. cbn [deref]. rewrite !bind_Ok, Hrb, bind_Ok, Hwd, bind_Ok. fold m1.
    rewrite Hif. cbn [negb c_assert]. unfold ok. destruct (Request.isCondSwap (Packet.req pkt)).
    - destruct (Hcond eq_refl) as [Hn48 Hv]. replace ((n =? 8) || (n =? 4)) with true by lia.
      rewrite Hv, bind_Ok, Hrb1, !bind_Ok. cbn [negb orb].
      destruct (bool_decide _); [by rewrite Hwb|]. rewrite !bind_Ok. by rewrite insert_id.
    - rewrite bind_Ok. cbn [negb orb]. by rewrite Hwb. }
  unfold doAtomicAccess. rewrite Hcr, bind_Ok, Hinh, Ha, bind_Ok.
  rewrite bool_decide_eq_true_2, Hswap, !bind_Ok, Hnr by done.
  destruct (respond pkt Hnr Hfl) as (r & -> & Hc & _). rewrite bind_Ok. exists r. split; [done|]. by rewrite Hc, Hcmd.
Qed.

Lemma swap_exchanges_witness :
  exists pkt', doAtomicAccess ByteSwap.LittleEndianByteOrder 0 demo_bytes demo_pm (demo_ram_pkt MemCmd.SwapReq 7)
      = Ok (10, <[1%positive := splice (replicate 32 5) 4 [90; 91; 92; 93]]>
                 (<[2%positive := [5; 5; 5; 5]]> demo_bytes), demo_pm, pkt').
Proof.
  destruct (swap_exchanges ByteSwap.LittleEndianByteOrder 0 demo_bytes demo_pm (demo_ram_pkt MemCmd.SwapReq 7)
    1 (replicate 32 5) 0x1004 4 2 0 [90; 91; 92; 93] 0) as (pkt' & H & _).
  - exact demo_holds.
  - apply demo_carries. reflexivity.
  - discriminate.
  - simpl. lia.
  - simpl. lia.
  - reflexivity.
  - lia.
  - reflexivity.
  - discriminate.
  - exists pkt'. exact H.
Defined.

(** ** Pages *)

(** [System::new_page] runs out at 2 GB: the shift of the [int] page pointer
    goes negative there, so the page after the last one below 2 GB is reported
    as out of memory, however large the memory; below that the pages are handed
    out in order. *)
Theorem new_page_limit logVMPageSize physmem_size page_ptr :
  0 <= logVMPageSize < 31 -> 2 ^ 31 <= physmem_size < 2 ^ 63 -> 0 <= page_ptr ->
  (page_ptr < 2 ^ (31 - logVMPageSize) ->
     System.new_page logVMPageSize physmem_size page_ptr =
       Ok (page_ptr * 2 ^ logVMPageSize, if page_ptr =? 2 ^ 31 - 1 then - 2 ^ 31 else page_ptr + 1)) /\
  (page_ptr = 2 ^ (31 - logVMPageSize) ->
     System.new_page logVMPageSize physmem_size page_ptr = Er Fatal).
Proof.
  intros Hl Hs Hp. unfold System.new_page. rewrite Z.shiftl_mul_pow2 by lia.
  assert (E : 2 ^ (31 - logVMPageSize) * 2 ^ logVMPageSize = 2 ^ 31) by (rewrite <- Z.pow_add_r by lia; f_equal; lia).
  assert (0 < 2 ^ logVMPageSize) by (apply Z.pow_pos_nonneg; lia). split; intros H0.
  - assert (page_ptr * 2 ^ logVMPageSize < 2 ^ 31) by nia.
    rewrite (sint_small 32 (page_ptr * _)) by nia. rewrite uint_small by nia.
    replace (page_ptr * 2 ^ logVMPageSize >=? physmem_size) with false by lia. do 2 f_equal.
    destruct (Z.eqb_spec page_ptr (2 ^ 31 - 1)) as [->|Hne]; [reflexivity|]. apply sint_small; nia.
  - rewrite H0, E. change (uint 64 (sint 32 (2 ^ 31))) with (2 ^ 64 - 2 ^ 31).
    by replace (2 ^ 64 - 2 ^ 31 >=? physmem_size) with true by lia.
Qed.

Lemma new_page_limit_witness : System.new_page 13 (2 ^ 32) 262144 = Er Fatal.
Proof. apply (new_page_limit 13 (2 ^ 32) 262144); [lia|lia|lia|reflexivity]. Defined.
