(* ===== verification/AlphaTLB.v ===== *)
(** * The Alpha TLB

    [src/arch/alpha/ev5.hh] and [isa_traits.hh] (constants, Module [EV5]),
    [pagetable.hh] ([VAddr], [TlbEntry]) and [tlb.hh], [tlb.cc] (Module
    [TLB]): the table of translations, its index by virtual page, the cache of
    the last entries used, and the translation of requests.

    The index is a [std::multimap]: a list of (page, position) pairs ordered by
    page, equal pages in order of insertion.  Statistics are left out.  Of the
    thread context only the registers that translation reads are modelled. *)
From S2P Require Import Prelude EventQueue IntMath Request.

Module EV5.
Definition PageShift := 13.
Definition PageBytes := 0x2000.
Definition PageOffset := 0x1fff.
Definition VAddrImplMask := 2 ^ 43 - 1.
Definition VAddrUnImplMask := 2 ^ 64 - 2 ^ 43.
Definition AsnMask := 0xff.
Definition PAddrImplMask := 2 ^ 44 - 1.
Definition PAddrUncachedBit40 := 0x10000000000.
Definition PAddrUncachedBit43 := 0x80000000000.
Definition PAddrUncachedMask := 0x807ffffffff.
Definition MM_STAT_BAD_VA_MASK := 0x0020.
Definition MM_STAT_DTB_MISS_MASK := 0x0010.
Definition MM_STAT_FONW_MASK := 0x0008.
Definition MM_STAT_FONR_MASK := 0x0004.
Definition MM_STAT_ACV_MASK := 0x0002.
Definition MM_STAT_WR_MASK := 0x0001.
Definition mode_kernel := 0.

Definition VAddrSpaceEV6 (a : Z) : Z := Z.land (Z.shiftr a 41) 0x7f.
Definition PAddrIprSpace (a : Z) : bool := a >=? 0xFFFFFF00000.
Definition DTB_ASN_ASN (reg : Z) : Z := Z.land (Z.shiftr reg 57) AsnMask.
Definition ALT_MODE_AM (reg : Z) : Z := Z.land (Z.shiftr reg 3) 0x3.
Definition DTB_CM_CM (reg : Z) : Z := Z.land (Z.shiftr reg 3) 0x3.
Definition ICM_CM (reg : Z) : Z := Z.land (Z.shiftr reg 3) 0x3.
Definition PcPAL (addr : Z) : bool := negb (Z.land addr 0x3 =? 0).
Definition MODE2MASK (x : Z) : Z := Z.shiftl 1 x.

(** [VAddr]. *)
Definition vpn (addr : Z) : Z := Z.shiftr (Z.land addr VAddrImplMask) PageShift.
Definition offset (addr : Z) : Z := Z.land addr PageOffset.
End EV5.
Import EV5.

(** ** Entries *)
Module TlbEntry.

Record t := mk {
  tag : Z;
  ppn : Z;
  xre : Z;
  xwe : Z;
  asn : Z;
  asma : bool;
  fonr : bool;
  fonw : bool;
  valid : bool
}.

(** All bytes zero, as [memset] leaves an entry. *)
Definition zero : t := mk 0 0 0 0 0 false false false false.
(** [TlbEntry(_asn, _vaddr, _paddr)]. *)
Definition new (_asn _vaddr _paddr : Z) : t :=
  mk (vpn _vaddr) (vpn _paddr) 15 15 (uint 8 _asn) false false false true.
Definition updateVaddr (e : t) (new_vaddr : Z) : t :=
  mk (vpn new_vaddr) (ppn e) (xre e) (xwe e) (asn e) (asma e) (fonr e) (fonw e) (valid e).
Definition pageStart (e : t) : Z := uint 64 (Z.shiftl (ppn e) PageShift).

Definition set_valid (e : t) (v : bool) : t :=
  mk (tag e) (ppn e) (xre e) (xwe e) (asn e) (asma e) (fonr e) (fonw e) v.
(** [table[nlu] = entry] with its tag and validity set. *)
Definition placed (e : t) (tg : Z) : t :=
  mk tg (ppn e) (xre e) (xwe e) (asn e) (asma e) (fonr e) (fonw e) true.
End TlbEntry.

(** ** The TLB *)
Module TLB.

(** [EntryCache] holds pointers into the table, as positions. *)
Record t := mk {
  lookupTable : list (Z * Z);
  table : list TlbEntry.t;
  size : Z;
  nlu : Z;
  EntryCache : option Z * option Z * option Z
}.

Definition new (_size : Z) : t :=
  mk [] (replicate (Z.to_nat _size) TlbEntry.zero) _size 0 (None, None, None).

Definition set_table (s : t) (l : list TlbEntry.t) : t :=
  mk (lookupTable s) l (size s) (nlu s) (EntryCache s).
Definition set_lookup (s : t) (l : list (Z * Z)) : t :=
  mk l (table s) (size s) (nlu s) (EntryCache s).

Definition nextnlu (s : t) : t :=
  mk (lookupTable s) (table s) (size s) (if nlu s + 1 >=? size s then 0 else nlu s + 1) (EntryCache s).
Definition flushCache (s : t) : t :=
  mk (lookupTable s) (table s) (size s) (nlu s) (None, None, None).
Definition updateCache (s : t) (entry : Z) : t :=
  let '(c0, c1, _) := EntryCache s in
  mk (lookupTable s) (table s) (size s) (nlu s) (Some entry, c0, c1).

(** [multimap::find]: the pairs from the first one of page [vpn] on. *)
Fixpoint find (vpn : Z) (l : list (Z * Z)) : option (list (Z * Z)) :=
  match l with
  | [] => None
  | (k, i) :: l' => if k =? vpn then Some l else find vpn l'
  end.
(** [multimap::insert]: after the pairs of the same page. *)
Fixpoint minsert (vpn i : Z) (l : list (Z * Z)) : list (Z * Z) :=
  match l with
  | [] => [(vpn, i)]
  | (k, j) :: l' => if vpn <? k then (vpn, i) :: l else (k, j) :: minsert vpn i l'
  end.

(** The entry translates the page for the address space. *)
Definition matches (e : TlbEntry.t) (vpn asn : Z) : bool :=
  (vpn =? TlbEntry.tag e) && (TlbEntry.asma e || (TlbEntry.asn e =? asn)).

(** One of the cached entries, tested only when it is there. *)
Definition cached (s : t) (c : option Z) (vpn asn : Z) : res bool :=
  match c with
  | None => Ok false
  | Some i => e ← vget (table s) i; Ok (matches e vpn asn)
  end.
Definition lookup_cache (s : t) (vpn asn : Z) : res (option Z) :=
  let '(c0, c1, c2) := EntryCache s in
  match c0 with
  | None => Ok None
  | Some _ =>
      h0 ← cached s c0 vpn asn;
      if (h0 : bool) then Ok c0 else
      match c1 with
      | None => Ok None
      | Some _ =>
          h1 ← cached s c1 vpn asn;
          if (h1 : bool) then Ok c1 else
          h2 ← cached s c2 vpn asn;
          if (h2 : bool) then Ok c2 else Ok None
      end
  end.

(** The loop of [lookup]: it reads the pair at the iterator before anything
    tells it that the index has ended. *)
Fixpoint lookup_loop (tab : list TlbEntry.t) (vpn asn : Z) (i : list (Z * Z)) : res (option Z) :=
  match i with
  | [] => Er BadPointer
  | (k, index) :: i' =>
      if k =? vpn then
        e ← vget tab index;
        _ ← c_assert (TlbEntry.valid e);
        if matches e vpn asn then Ok (Some index) else lookup_loop tab vpn asn i'
      else Ok None
  end.

(** [lookup(vpn, asn)]: the position of the entry, if there is one. *)
Definition lookup (s : t) (vpn asn : Z) : res (option Z * t) :=
  r ← lookup_cache s vpn asn;
  match r with
  | Some index => Ok (Some index, s)
  | None =>
      match find vpn (lookupTable s) with
      | None => Ok (None, s)
      | Some i =>
          r ← lookup_loop (table s) vpn asn i;
          match r with
          | Some index => Ok (Some index, updateCache s index)
          | None => Ok (None, s)
          end
      end
  end.

(** The pair of position [nlu], removed from the index; its iterator starts at
    the first pair of the old page. *)
Fixpoint erase_nlu (tab : list TlbEntry.t) (oldvpn nlu : Z) (i : list (Z * Z)) : res (list (Z * Z)) :=
  match i with
  | [] => Er BadPointer
  | (k, index) :: i' =>
      if index =? nlu then Ok i'
      else
        e ← vget tab index;
        if negb (TlbEntry.tag e =? oldvpn) then Er Panic
        else r ← erase_nlu tab oldvpn nlu i'; Ok ((k, index) :: r)
  end.
(** The pairs before the first one of page [vpn]. *)
Fixpoint before (vpn : Z) (l : list (Z * Z)) : list (Z * Z) :=
  match l with
  | [] => []
  | (k, i) :: l' => if k =? vpn then [] else (k, i) :: before vpn l'
  end.

Definition insert (s : t) (addr : Z) (entry : TlbEntry.t) : res t :=
  let s := flushCache s in
  old ← vget (table s) (nlu s);
  s ← (if TlbEntry.valid old then
         let oldvpn := TlbEntry.tag old in
         match find oldvpn (lookupTable s) with
         | None => Er Panic
         | Some i =>
             r ← erase_nlu (table s) oldvpn (nlu s) i;
             Ok (set_lookup s (before oldvpn (lookupTable s) ++ r))
         end
       else Ok s);
  tab ← vset (table s) (nlu s) (TlbEntry.placed entry (vpn addr));
  let s := set_table s tab in
  let s := set_lookup s (minsert (vpn addr) (nlu s) (lookupTable s)) in
  Ok (nextnlu s).

Definition flushAll (s : t) : t :=
  let s := set_table s (replicate (Z.to_nat (size s)) TlbEntry.zero) in
  let s := flushCache s in
  let s := set_lookup s [] in
  mk (lookupTable s) (table s) (size s) 0 (EntryCache s).

(** The pairs kept, and the table with the entries of the others invalid. *)
Fixpoint flush_loop (drop : TlbEntry.t -> bool) (tab : list TlbEntry.t) (i : list (Z * Z)) :
    res (list TlbEntry.t * list (Z * Z)) :=
  match i with
  | [] => Ok (tab, [])
  | (k, index) :: i' =>
      e ← vget tab index;
      _ ← c_assert (TlbEntry.valid e);
      if drop e then
        tab ← vset tab index (TlbEntry.set_valid e false);
        flush_loop drop tab i'
      else r ← flush_loop drop tab i'; Ok (r.1, (k, index) :: r.2)
  end.
Definition flushProcesses (s : t) : res t :=
  let s := flushCache s in
  r ← flush_loop (fun e => negb (TlbEntry.asma e)) (table s) (lookupTable s);
  Ok (set_lookup (set_table s r.1) r.2).

(** The pairs of page [vpn] at the head of an index, and the rest. *)
Fixpoint same_page (vpn : Z) (l : list (Z * Z)) : list (Z * Z) * list (Z * Z) :=
  match l with
  | [] => ([], [])
  | (k, i) :: l' => if k =? vpn then let '(a, b) := same_page vpn l' in ((k, i) :: a, b) else ([], l)
  end.
Definition flushAddr (s : t) (addr asn : Z) : res t :=
  let s := flushCache s in
  match find (vpn addr) (lookupTable s) with
  | None => Ok s
  | Some i =>
      let '(page, rest) := same_page (vpn addr) i in
      r ← flush_loop (fun e => matches e (vpn addr) asn) (table s) page;
      Ok (set_lookup (set_table s r.1) (before (vpn addr) (lookupTable s) ++ r.2 ++ rest))
  end.
Definition demapPage (s : t) (vaddr asn : Z) : res t :=
  _ ← c_assert (asn <? 2 ^ 8); flushAddr s vaddr (uint 8 asn).

(** [index(advance)]: the entry to be replaced next. *)
Definition index (s : t) (advance : bool) : res (TlbEntry.t * t) :=
  e ← vget (table s) (nlu s);
  Ok (e, if advance then nextnlu s else s).

(** ** Checkpoints

    What [serialize] writes: the size, the hand and the entries. *)
Record checkpoint := mkCkpt { ck_size : Z; ck_nlu : Z; ck_entries : list TlbEntry.t }.
Definition serialize (s : t) : res checkpoint :=
  if size s <=? Z.of_nat (length (table s))
  then Ok (mkCkpt (size s) (nlu s) (take (Z.to_nat (size s)) (table s))) else Er OutOfRange.
(** The loop of [unserialize], from position [i] on. *)
Fixpoint unserialize_loop (s : t) (i : Z) (entries : list TlbEntry.t) : res t :=
  match entries with
  | [] => Ok s
  | e :: entries =>
      tab ← vset (table s) i e;
      let s := set_table s tab in
      let s := if TlbEntry.valid e then set_lookup s (minsert (TlbEntry.tag e) i (lookupTable s)) else s in
      unserialize_loop s (i + 1) entries
  end.
Definition unserialize (s : t) (cp : checkpoint) : res t :=
  unserialize_loop (mk (lookupTable s) (table s) (ck_size cp) (ck_nlu cp) (EntryCache s)) 0 (ck_entries cp).

(** ** Translation *)
Inductive Fault :=
| NoFault
| ItbAcvFault (vaddr : Z)
| ItbPageFault (vaddr : Z)
| DtbAlignmentFault (vaddr reqFlags flags : Z)
| DtbPageFault (vaddr reqFlags flags : Z)
| DtbAcvFault (vaddr reqFlags flags : Z)
| PDtbMissFault (vaddr reqFlags flags : Z)
| NDtbMissFault (vaddr reqFlags flags : Z)
| MachineCheckFault
| UnimpFault.

(** The registers of the thread context that translation reads. *)
Record ThreadContext := mkTC { PC : Z; IPR_ICM : Z; IPR_DTB_CM : Z; IPR_DTB_ASN : Z; IPR_ALT_MODE : Z }.

Definition validVirtualAddress (vaddr : Z) : bool :=
  let unimplBits := Z.land vaddr VAddrUnImplMask in
  (unimplBits =? 0) || (unimplBits =? VAddrUnImplMask).

Definition checkCacheability (req : Request.t) (itb : bool) : res (Fault * Request.t) :=
  p ← Request.getPaddr req;
  if negb (Z.land p PAddrUncachedBit43 =? 0) then
    if PAddrIprSpace p then Ok (UnimpFault, req)
    else
      req ← Request.setFlags req Request.UNCACHEABLE;
      req ← Request.setPaddr req (Z.land p PAddrUncachedMask);
      if Request.isUncacheable req && itb then Ok (UnimpFault, req) else Ok (NoFault, req)
  else Ok (NoFault, req).

(** A kernel superpage: the physical address, with bit 40 extended. *)
Definition superpage (req : Request.t) : res Request.t :=
  v ← Request.getVaddr req;
  req ← Request.setPaddr req (Z.land v PAddrImplMask);
  p ← Request.getPaddr req;
  if negb (Z.land p PAddrUncachedBit40 =? 0)
  then Request.setPaddr req (Z.lor p 0xf0000000000)
  else Request.setPaddr req (Z.land p 0xffffffffff).

(** The checks on the physical address at the end of a translation. *)
Definition finish (req : Request.t) (itb : bool) : res (Fault * Request.t) :=
  p ← Request.getPaddr req;
  if negb (Z.land p (uint 64 (Z.lnot PAddrImplMask)) =? 0) then Ok (MachineCheckFault, req)
  else checkCacheability req itb.

Definition translateInst (full_system : bool) (s : t) (req : Request.t) (tc : ThreadContext) :
    res (Fault * Request.t * t) :=
  pc ← Request.getPC req;
  req ← (if full_system && PcPAL pc then Request.setFlags req Request.PHYSICAL else Ok req);
  v ← Request.getVaddr req;
  if PcPAL pc then
    req ← Request.setPaddr req (Z.land (Z.land v (uint 64 (Z.lnot 3))) PAddrImplMask);
    Ok (NoFault, req, s)
  else
  flags ← Request.getFlags req;
  if EvQ.isSet flags Request.PHYSICAL then
    req ← Request.setPaddr req v;
    r ← finish req true; Ok (r.1, r.2, s)
  else if negb (validVirtualAddress v) then Ok (ItbAcvFault v, req, s)
  else if VAddrSpaceEV6 v =? 0x7e then
    if negb (ICM_CM (IPR_ICM tc) =? mode_kernel) then Ok (ItbAcvFault v, req, s)
    else
      req ← superpage req;
      r ← finish req true; Ok (r.1, r.2, s)
  else
    let asn := DTB_ASN_ASN (IPR_DTB_ASN tc) in
    '(entry, s) ← lookup s (vpn v) (uint 8 asn);
    match entry with
    | None => Ok (ItbPageFault v, req, s)
    | Some i =>
        e ← vget (table s) i;
        req ← Request.setPaddr req
                (uint 64 (TlbEntry.pageStart e + Z.land (offset v) (uint 64 (Z.lnot 3))));
        if Z.land (TlbEntry.xre e) (MODE2MASK (ICM_CM (IPR_ICM tc))) =? 0
        then Ok (ItbAcvFault v, req, s)
        else r ← finish req true; Ok (r.1, r.2, s)
    end.

(** The permission checks of [translateData] on the entry found. *)
Definition check_access (e : TlbEntry.t) (write : bool) (mode v flags : Z) : Fault :=
  if write then
    if Z.land (TlbEntry.xwe e) (MODE2MASK mode) =? 0 then
      DtbPageFault v flags (Z.lor (Z.lor MM_STAT_WR_MASK MM_STAT_ACV_MASK)
                                  (if TlbEntry.fonw e then MM_STAT_FONW_MASK else 0))
    else if TlbEntry.fonw e then DtbPageFault v flags (Z.lor MM_STAT_WR_MASK MM_STAT_FONW_MASK)
    else NoFault
  else
    if Z.land (TlbEntry.xre e) (MODE2MASK mode) =? 0 then
      DtbAcvFault v flags (Z.lor MM_STAT_ACV_MASK (if TlbEntry.fonr e then MM_STAT_FONR_MASK else 0))
    else if TlbEntry.fonr e then DtbPageFault v flags MM_STAT_FONR_MASK
    else NoFault.

Definition translateData (s : t) (req : Request.t) (tc : ThreadContext) (write : bool) :
    res (Fault * Request.t * t) :=
  let pc := PC tc in
  let mode := DTB_CM_CM (IPR_DTB_CM tc) in
  v ← Request.getVaddr req;
  n ← Request.getSize req;
  flags ← Request.getFlags req;
  let wr := if write then MM_STAT_WR_MASK else 0 in
  if negb (Z.land v (uint 64 (n - 1)) =? 0) then Ok (DtbAlignmentFault v flags wr, req, s) else
  let mode := if PcPAL pc then
                if EvQ.isSet flags Request.ALTMODE then ALT_MODE_AM (IPR_ALT_MODE tc) else mode_kernel
              else mode in
  if EvQ.isSet flags Request.PHYSICAL then
    req ← Request.setPaddr req v;
    r ← finish req false; Ok (r.1, r.2, s)
  else if negb (validVirtualAddress v) then
    Ok (DtbPageFault v flags (Z.lor (Z.lor wr MM_STAT_BAD_VA_MASK) MM_STAT_ACV_MASK), req, s)
  else if VAddrSpaceEV6 v =? 0x7e then
    if negb (DTB_CM_CM (IPR_DTB_CM tc) =? mode_kernel)
    then Ok (DtbAcvFault v flags (Z.lor wr MM_STAT_ACV_MASK), req, s)
    else
      req ← superpage req;
      r ← finish req false; Ok (r.1, r.2, s)
  else
    let asn := DTB_ASN_ASN (IPR_DTB_ASN tc) in
    '(entry, s) ← lookup s (vpn v) (uint 8 asn);
    match entry with
    | None =>
        let f := Z.lor wr MM_STAT_DTB_MISS_MASK in
        Ok (if EvQ.isSet flags Request.VPTE then PDtbMissFault v flags f else NDtbMissFault v flags f, req, s)
    | Some i =>
        e ← vget (table s) i;
        req ← Request.setPaddr req (uint 64 (TlbEntry.pageStart e + offset v));
        match check_access e write mode v flags with
        | NoFault => r ← finish req false; Ok (r.1, r.2, s)
        | f => Ok (f, req, s)
        end
    end.

Inductive Mode := Read | Write | Execute.
Definition translateAtomic (full_system : bool) (s : t) (req : Request.t) (tc : ThreadContext) (mode : Mode) :
    res (Fault * Request.t * t) :=
  match mode with
  | Execute => translateInst full_system s req tc
  | Write => translateData s req tc true
  | Read => translateData s req tc false
  end.
End TLB.
