(* ===== verification/AlphaTLBProof.v ===== *)
(** * Proofs about the Alpha TLB

    The invariant relates the index to the table: it lists exactly the valid
    entries, by page.  Each operation keeps it, and the lemmas say which valid
    entries it leaves. *)
From stdpp Require Import sorting.
From S2P Require Import Prelude EventQueue IntMath Request AlphaTLB.
Import EV5.

Module TLBProof.
Import TLB.
Module E := TlbEntry.

(** The valid entry at position [i]. *)
Definition live (tab : list E.t) (i : Z) (e : E.t) : Prop :=
  0 <= i /\ tab !! Z.to_nat i = Some e /\ E.valid e = true.

Definition key_le (a b : Z * Z) : Prop := a.1 <= b.1.

(** An index of [tab]. *)
Record indexes (l : list (Z * Z)) (tab : list E.t) : Prop := {
  ix_sorted : StronglySorted key_le l;
  ix_nodup : NoDup (map snd l);
  ix_live : forall k i, (k, i) ∈ l -> exists e, live tab i e /\ E.tag e = k;
  ix_all : forall i e, live tab i e -> (E.tag e, i) ∈ l
}.

Definition cache_ok (tab : list E.t) (c : option Z) : Prop :=
  match c with None => True | Some i => exists e, live tab i e end.

Record wf (s : t) : Prop := {
  wf_size : 0 < size s;
  wf_len : Z.of_nat (length (table s)) = size s;
  wf_nlu : 0 <= nlu s < size s;
  wf_ix : indexes (lookupTable s) (table s);
  wf_cache : let '(c0, c1, c2) := EntryCache s in
    cache_ok (table s) c0 /\ cache_ok (table s) c1 /\ cache_ok (table s) c2
}.

Lemma live_vget tab i e : live tab i e -> vget tab i = Ok e.
Proof. intros (H1 & H2 & _). apply vget_Ok. done. Qed.

Lemma live_fun tab i e e' : live tab i e -> live tab i e' -> e = e'.
Proof. intros (_ & H1 & _) (_ & H2 & _). congruence. Qed.

Lemma live_insert tab n x i e : 0 <= n < Z.of_nat (length tab) ->
  live (<[Z.to_nat n := x]> tab) i e <->
  (i = n /\ e = x /\ E.valid x = true) \/ (i <> n /\ live tab i e).
Proof.
  intros Hn. unfold live. destruct (decide (i = n)) as [->|Hne].
  - rewrite list_lookup_insert_eq by lia. naive_solver.
  - split; [intros (H1 & H2 & H3)|intros [?|(_ & H1 & H2 & H3)]]; [|naive_solver|].
    + rewrite list_lookup_insert_ne in H2 by lia. naive_solver.
    + rewrite list_lookup_insert_ne by lia. done.
Qed.

Lemma matches_spec e v a : matches e v a = true <->
  E.tag e = v /\ (E.asma e = true \/ E.asn e = a).
Proof. unfold matches. rewrite andb_true_iff, orb_true_iff, !Z.eqb_eq. naive_solver. Qed.

(** ** Searching the index *)
Lemma find_before v l : match find v l with
  | Some i => l = before v l ++ i /\ exists j i', i = (v, j) :: i'
  | None => forall k i, (k, i) ∈ l -> k <> v
  end.
Proof.
  induction l as [|[k i] l IH]; simpl; [by intros k i ?%elem_of_nil|].
  destruct (Z.eqb_spec k v) as [->|Hne]; [split; [done|]; by exists i, l|].
  destruct (find v l) as [suf|].
  - destruct IH as [IH Hs]. split; [|done]. simpl. by rewrite <- IH.
  - intros k0 i0 [[= -> ->]|H]%elem_of_cons; [done|by eapply IH].
Qed.

Lemma before_ne v l k i : (k, i) ∈ before v l -> k <> v.
Proof.
  induction l as [|[k0 i0] l IH]; simpl; [by intros ?%elem_of_nil|].
  destruct (Z.eqb_spec k0 v); [by intros ?%elem_of_nil|].
  intros [[= -> ->]|H]%elem_of_cons; [done|by apply IH].
Qed.

Lemma same_page_app v l : let '(a, b) := same_page v l in
  l = a ++ b /\ (forall k i, (k, i) ∈ a -> k = v) /\ match b with (k, _) :: _ => k <> v | [] => True end.
Proof.
  induction l as [|[k i] l IH]; simpl.
  { split; [done|]. split; [|done]. by intros k i ?%elem_of_nil. }
  destruct (Z.eqb_spec k v) as [->|Hne].
  - destruct (same_page v l) as [a b]. destruct IH as (-> & H1 & H2).
    split; [done|]. split; [|done]. intros k0 i0 [[= -> ->]|H]%elem_of_cons; [done|by eapply H1].
  - split; [done|]. split; [|done]. by intros k0 i0 ?%elem_of_nil.
Qed.

(** The three parts of an index: smaller pages, the page searched and larger
    pages. *)
Lemma index_split v l : StronglySorted key_le l ->
  match find v l with
  | Some i => exists page rest, same_page v i = (page, rest) /\ l = before v l ++ page ++ rest /\
      i = page ++ rest /\ page <> [] /\ (forall k j, (k, j) ∈ page -> k = v) /\
      (forall k j, (k, j) ∈ rest -> v < k) /\ (forall k j, (k, j) ∈ before v l -> k < v)
  | None => forall k j, (k, j) ∈ l -> k <> v
  end.
Proof.
  intros Hs. pose proof (find_before v l) as Hf. destruct (find v l) as [i|]; [|done].
  destruct Hf as (Hl & j0 & i' & Hi). pose proof (same_page_app v i) as Hp.
  destruct (same_page v i) as [page rest]. destruct Hp as (Hi2 & Hpage & Hb).
  exists page, rest. rewrite Hi2 in Hl.
  assert (exists j1 p', page = (v, j1) :: p') as (j1 & p' & Hpg).
  { destruct page as [|[k1 j1] p']; [|exists j1, p'; f_equal; f_equal; eapply Hpage; by left].
    simpl in Hi2. subst rest. rewrite Hi in Hb. done. }
  split_and!; [done..|by rewrite Hpg|done| |].
  - rewrite Hl in Hs. apply StronglySorted_app_1_r in Hs.
    destruct rest as [|[k1 j1'] rest']; [by intros k j ?%elem_of_nil|].
    assert (v <= k1) by (apply (StronglySorted_app_1_elem_of _ _ _ (v, j1) (k1, j1') Hs);
      [rewrite Hpg; by left|by left]).
    apply StronglySorted_app_1_r, StronglySorted_cons in Hs as [Hall _].
    rewrite Forall_forall in Hall.
    intros k j [[= -> ->]|Hk]%elem_of_cons; [lia|].
    specialize (Hall _ Hk). unfold key_le in Hall. simpl in Hall. lia.
  - intros k j Hin. pose proof (before_ne _ _ _ _ Hin).
    assert (key_le (k, j) (v, j0)) as Hle; [|unfold key_le in Hle; simpl in Hle; lia].
    rewrite Hl, <- Hi2 in Hs. eapply StronglySorted_app_1_elem_of; [done..|]. rewrite Hi. by left.
Qed.

Lemma minsert_perm v n l : minsert v n l ≡ₚ (v, n) :: l.
Proof.
  induction l as [|[k j] l IH]; simpl; [done|].
  destruct (v <? k); [done|]. rewrite IH. by constructor.
Qed.

Lemma minsert_sorted v n l : StronglySorted key_le l -> StronglySorted key_le (minsert v n l).
Proof.
  induction l as [|[k j] l IH]; simpl.
  - intros _. repeat constructor.
  - intros H. pose proof H as [Hall Hl]%StronglySorted_cons. destruct (Z.ltb_spec v k).
    + apply StronglySorted_cons. split; [|done]. constructor; [unfold key_le; simpl; lia|].
      eapply Forall_impl; [done|]. intros [k1 j1]. unfold key_le. simpl. lia.
    + apply StronglySorted_cons. split; [|by apply IH]. rewrite minsert_perm. by constructor.
Qed.

Lemma sorted_sublist l l' : l' `sublist_of` l -> StronglySorted key_le l -> StronglySorted key_le l'.
Proof.
  induction 1 as [|x l1 l2 Hs IH|x l1 l2 Hs IH]; [done| |].
  - intros [Hall Hl]%StronglySorted_cons. apply StronglySorted_cons. split; [|by apply IH].
    rewrite Forall_forall in *. intros y Hy. apply Hall. by eapply elem_of_sublist.
  - intros [_ Hl]%StronglySorted_cons. by apply IH.
Qed.

Lemma map_sublist l l' : l' `sublist_of` l -> map snd l' `sublist_of` map (snd : Z * Z -> Z) l.
Proof. induction 1; simpl; [done|by constructor..]. Qed.

(** ** The index as a description of the table *)
Lemma indexes_tag l tab k i e : indexes l tab -> (k, i) ∈ l -> live tab i e -> E.tag e = k.
Proof.
  intros Hx Hin Hl. destruct (ix_live _ _ Hx _ _ Hin) as (e' & Hl' & <-).
  by rewrite (live_fun _ _ _ _ Hl Hl').
Qed.

(** Keeping some of the pairs, when the table keeps just their entries. *)
Lemma indexes_sub l tab l' tab' : indexes l tab -> l' `sublist_of` l ->
  (forall k i, (k, i) ∈ l' -> exists e, live tab' i e) ->
  (forall i e, live tab' i e -> live tab i e /\ (E.tag e, i) ∈ l') ->
  indexes l' tab'.
Proof.
  intros Hx Hsub Hlive Hall. constructor.
  - eapply sorted_sublist; [done|apply Hx].
  - eapply sublist_NoDup; [apply Hx|apply map_sublist, Hsub].
  - intros k i Hin. destruct (Hlive k i Hin) as [e He]. exists e. split; [done|].
    apply (indexes_tag l tab k i e Hx); [by eapply elem_of_sublist|by apply Hall].
  - intros i e He. by apply Hall.
Qed.

(** A new entry in a position that held none. *)
Lemma indexes_insert l tab n e : indexes l tab -> 0 <= n < Z.of_nat (length tab) ->
  (forall e', ~ live tab n e') -> E.valid e = true ->
  indexes (minsert (E.tag e) n l) (<[Z.to_nat n := e]> tab).
Proof.
  intros Hx Hn Hno Hv. constructor.
  - apply minsert_sorted, Hx.
  - rewrite minsert_perm. simpl. constructor; [|apply Hx].
    intros ([k i] & -> & Hin)%elem_of_map.
    destruct (ix_live _ _ Hx _ _ Hin) as (e' & He' & _). by apply (Hno e').
  - intros k i Hin. rewrite minsert_perm in Hin.
    apply elem_of_cons in Hin as [[= -> ->]|Hin].
    + exists e. rewrite live_insert by done. naive_solver.
    + destruct (ix_live _ _ Hx _ _ Hin) as (e' & He' & Ht). exists e'.
      rewrite live_insert by done. split; [|done]. right. split; [|done].
      intros ->. by apply (Hno e').
  - intros i e' He'. rewrite live_insert in He' by done. rewrite minsert_perm.
    destruct He' as [(-> & -> & _)|(_ & He')]; [by left|right; by apply Hx].
Qed.

Lemma invalid_not_live tab n e : tab !! Z.to_nat n = Some e -> E.valid e = false ->
  forall e', ~ live tab n e'.
Proof. intros H1 H2 e' (_ & H3 & H4). congruence. Qed.

(** ** Lookup *)
Lemma lookup_loop_ok tab v a page rest : 
  (forall k i, (k, i) ∈ page -> k = v /\ exists e, live tab i e) ->
  (forall k i, (k, i) ∈ rest -> k <> v) ->
  match lookup_loop tab v a (page ++ rest) with
  | Ok (Some i) => (v, i) ∈ page /\ exists e, live tab i e /\ matches e v a = true
  | Ok None => rest <> [] /\ forall i e, (v, i) ∈ page -> live tab i e -> matches e v a = false
  | Er f => f = BadPointer /\ rest = [] /\ forall i e, (v, i) ∈ page -> live tab i e -> matches e v a = false
  end.
Proof.
  induction page as [|[k i] page IH]; intros Hp Hr.
  - simpl. destruct rest as [|[k i] rest]; simpl.
    + split_and!; [done..|]. by intros i e ?%elem_of_nil.
    + destruct (Z.eqb_spec k v) as [->|Hne]; [exfalso; eapply Hr; [by left|done]|].
      split; [done|]. by intros i' e ?%elem_of_nil.
  - destruct (Hp k i) as (-> & e & He); [by left|]. simpl. rewrite Z.eqb_refl.
    rewrite (live_vget _ _ _ He). bind_step. destruct He as (H1 & H2 & H3). rewrite H3. simpl.
    assert (live tab i e) as He by done.
    assert (forall i0 e0, (v, i0) ∈ (v, i) :: page -> live tab i0 e0 -> matches e v a = false ->
      ((v, i0) ∈ page -> live tab i0 e0 -> matches e0 v a = false) -> matches e0 v a = false) as Hc.
    { intros i0 e0 [[= ->]|Hin]%elem_of_cons He0 Hm IH'; [|by apply IH'].
      by rewrite (live_fun _ _ _ _ He0 He). }
    destruct (matches e v a) eqn:Hm; [split; [by left|by exists e]|].
    specialize (IH (fun k0 i0 Hin => Hp k0 i0 (list_elem_of_further _ _ _ Hin)) Hr).
    destruct (lookup_loop tab v a (page ++ rest)) as [[i0|]|f].
    + destruct IH as (Hin & Hx). split; [by right|done].
    + destruct IH as (Hne & Hx). split; [done|]. intros i0 e0 Hin He0. eapply Hc; [done..|]. apply Hx.
    + destruct IH as (-> & -> & Hx). split_and!; [done..|].
      intros i0 e0 Hin He0. eapply Hc; [done..|]. apply Hx.
Qed.

(** What the cached entries give is right when they are entries. *)
Lemma lookup_cache_ok s v a : wf s -> exists r, lookup_cache s v a = Ok r /\
  match r with Some i => exists e, live (table s) i e /\ matches e v a = true | None => True end.
Proof.
  intros Hw. pose proof (wf_cache s Hw) as Hc. unfold lookup_cache.
  destruct (EntryCache s) as [[c0 c1] c2]. destruct Hc as (H0 & H1 & H2).
  assert (forall c, cache_ok (table s) c -> exists h, cached s c v a = Ok h /\
    (h = true -> exists i, c = Some i /\ exists e, live (table s) i e /\ matches e v a = true)) as Hcached.
  { intros [i|] Hi; simpl; [|by exists false].
    destruct Hi as [e He]. rewrite (live_vget _ _ _ He). bind_step.
    eexists. split; [done|]. intros Hm. exists i. split; [done|]. by exists e. }
  destruct c0 as [i0|]; [|by exists None].
  destruct (Hcached _ H0) as ([] & -> & Hh); bind_step.
  { eexists. split; [done|]. destruct (Hh eq_refl) as (i & [= ->] & Hx). done. }
  destruct c1 as [i1|]; [|by exists None].
  destruct (Hcached _ H1) as ([] & -> & Hh1); bind_step.
  { eexists. split; [done|]. destruct (Hh1 eq_refl) as (i & [= ->] & Hx). done. }
  destruct (Hcached _ H2) as ([] & -> & Hh2); bind_step; [|by exists None].
  eexists. split; [done|]. destruct (Hh2 eq_refl) as (i & -> & Hx). done.
Qed.

Lemma updateCache_wf s i e : wf s -> live (table s) i e -> wf (updateCache s i).
Proof.
  intros [] He. unfold updateCache. destruct (EntryCache s) as [[c0 c1] c2].
  constructor; simpl; try done. destruct wf_cache0 as (? & ? & ?). split_and!; [by exists e|done..].
Qed.

(** The pairs of a page are in the part of the index that [find] and
    [same_page] delimit. *)
Lemma page_member l tab v page rest i e : indexes l tab -> l = before v l ++ page ++ rest ->
  (forall k j, (k, j) ∈ rest -> v < k) -> (forall k j, (k, j) ∈ before v l -> k < v) ->
  live tab i e -> E.tag e = v -> (v, i) ∈ page.
Proof.
  intros Hx Hl Hrest Hbef He <-. pose proof (ix_all _ _ Hx _ _ He) as H. rewrite Hl in H.
  apply elem_of_app in H as [H|[H|H]%elem_of_app]; [|done|].
  - specialize (Hbef _ _ H). lia.
  - specialize (Hrest _ _ H). lia.
Qed.

Lemma other_page e v a : E.tag e <> v -> matches e v a = false.
Proof. intros Ht. apply not_true_is_false. by intros [? _]%matches_spec. Qed.

(** [lookup] finds an entry exactly when one matches, and leaves the table
    alone.  Without a match it fails when the page is the last of the index. *)
Lemma tlb_lookup_ok s v a : wf s ->
  match lookup s v a with
  | Ok (Some i, s') => exists e, live (table s) i e /\ matches e v a = true /\
      wf s' /\ table s' = table s /\ nlu s' = nlu s /\ size s' = size s
  | Ok (None, s') => s' = s /\ (forall i e, live (table s) i e -> matches e v a = false) /\
      ((forall i e, live (table s) i e -> E.tag e <> v) \/ exists i e, live (table s) i e /\ v < E.tag e)
  | Er f => f = BadPointer /\ (forall i e, live (table s) i e -> matches e v a = false) /\
      (exists i e, live (table s) i e /\ E.tag e = v) /\ forall i e, live (table s) i e -> E.tag e <= v
  end.
Proof.
  intros Hw. unfold lookup. destruct (lookup_cache_ok s v a Hw) as (r & -> & Hr). bind_step.
  destruct r as [i|]; [destruct Hr as (e & He & Hm); by exists e|]. clear Hr.
  pose proof (wf_ix s Hw) as Hx. pose proof (index_split v _ (ix_sorted _ _ Hx)) as Hs.
  destruct (find v (lookupTable s)) as [i|].
  2:{ assert (forall i e, live (table s) i e -> E.tag e <> v) as Ht.
      { intros i e He. eapply Hs, (ix_all _ _ Hx), He. }
      split_and!; [done| |by left]. intros i e He. apply other_page, (Ht i e He). }
  destruct Hs as (page & rest & _ & Hl & -> & Hpne & Hpage & Hrest & Hbef).
  assert (forall k i, (k, i) ∈ page ++ rest -> exists e, live (table s) i e /\ E.tag e = k) as Hlive.
  { intros k i Hin. apply (ix_live _ _ Hx). rewrite Hl. set_solver. }
  assert (forall i e, live (table s) i e -> E.tag e = v -> (v, i) ∈ page) as Hin.
  { intros i e. by apply (page_member (lookupTable s) (table s) v page rest). }
  pose proof (lookup_loop_ok (table s) v a page rest) as Hloop.
  ospecialize (Hloop _ _).
  { intros k i Hk. split; [by eapply Hpage|]. destruct (Hlive k i) as (e & He & _); [set_solver|by exists e]. }
  { intros k i Hk. specialize (Hrest _ _ Hk). lia. }
  assert ((forall i e, (v, i) ∈ page -> live (table s) i e -> matches e v a = false) ->
    forall i e, live (table s) i e -> matches e v a = false) as Hnone.
  { intros H i e He. destruct (decide (E.tag e = v)) as [Ht|Ht]; [|by apply other_page].
    by apply (H i e (Hin i e He Ht)). }
  destruct (lookup_loop _ _ _ _) as [[i|]|f]; simpl.
  - destruct Hloop as (_ & e & He & Hm). exists e. split_and!; [done..|by eapply updateCache_wf| | |];
      unfold updateCache; by destruct (EntryCache s) as [[? ?] ?].
  - destruct Hloop as (Hr & Hm). split_and!; [done|by apply Hnone|]. right.
    destruct rest as [|[k j] rest]; [done|]. destruct (Hlive k j) as (e & He & <-); [set_solver|].
    exists j, e. split; [done|]. apply (Hrest _ j). by left.
  - destruct Hloop as (-> & -> & Hm). split_and!; [done|by apply Hnone| |].
    + destruct page as [|[k j] page]; [done|].
      destruct (Hlive k j) as (e & He & Ht); [set_solver|]. exists j, e. split; [done|].
      rewrite Ht. apply (Hpage k j). by left.
    + intros i e He. destruct (decide (E.tag e <= v)); [done|].
      pose proof (ix_all _ _ Hx _ _ He) as H. rewrite Hl, app_nil_r in H.
      apply elem_of_app in H as [H|H]; [specialize (Hbef _ _ H)|specialize (Hpage _ _ H)]; lia.
Qed.

(** ** Insertion *)
Lemma erase_nlu_ok tab v n i1 i2 :
  (forall k j, (k, j) ∈ i1 -> j <> n /\ exists e, live tab j e /\ E.tag e = v) ->
  erase_nlu tab v n (i1 ++ (v, n) :: i2) = Ok (i1 ++ i2).
Proof.
  induction i1 as [|[k j] i1 IH]; intros H; simpl; [by rewrite Z.eqb_refl|].
  destruct (H k j) as (Hne & e & He & Ht); [by left|].
  destruct (Z.eqb_spec j n); [done|]. rewrite (live_vget _ _ _ He). bind_step.
  rewrite Ht, Z.eqb_refl. simpl. rewrite IH; [done|]. intros k0 j0 Hin. apply (H k0 j0). by right.
Qed.

(** Erasing the pair of a valid entry: the index of the other entries. *)
Lemma erase_index l tab n old : indexes l tab -> 0 <= n < Z.of_nat (length tab) -> live tab n old ->
  exists i r, find (E.tag old) l = Some i /\ erase_nlu tab (E.tag old) n i = Ok r /\
    indexes (before (E.tag old) l ++ r) (<[Z.to_nat n := E.set_valid old false]> tab).
Proof.
  intros Hx Hn Hold. set (v := E.tag old).
  pose proof (ix_all _ _ Hx _ _ Hold) as Hin. fold v in Hin.
  pose proof (index_split v l (ix_sorted _ _ Hx)) as Hs.
  destruct (find v l) as [i|]; [|by destruct (Hs _ _ Hin)].
  destruct Hs as (page & rest & _ & Hl & -> & _ & Hpage & Hrest & Hbef).
  assert ((v, n) ∈ page) as Hnp by by apply (page_member l tab v page rest n old).
  apply list_elem_of_split in Hnp as (i1 & i2 & ->).
  rewrite <- app_assoc in *. simpl in *.
  pose proof (ix_nodup _ _ Hx) as Hnd. rewrite Hl, !map_app in Hnd. simpl in Hnd.
  rewrite app_assoc in Hnd. apply NoDup_app in Hnd as (_ & Hd1 & [Hd2 _]%NoDup_cons).
  assert (forall k j, (k, j) ∈ before v l ++ i1 ++ i2 ++ rest -> j <> n) as Hother.
  { intros k j Hj ->. rewrite app_assoc in Hj. apply elem_of_app in Hj as [Hj|Hj].
    - apply (Hd1 n); [|by left]. rewrite <- map_app. apply elem_of_map. by exists (k, n).
    - apply Hd2. apply elem_of_map. by exists (k, n). }
  exists (i1 ++ (v, n) :: i2 ++ rest), (i1 ++ i2 ++ rest). split_and!; [done| |].
  - apply erase_nlu_ok. intros k j Hj. split; [apply (Hother k); set_solver|].
    destruct (ix_live _ _ Hx k j) as (e & He & <-); [rewrite Hl; set_solver|].
    exists e. split; [done|]. apply (Hpage _ j). set_solver.
  - apply (indexes_sub l tab); [done| | |].
    + rewrite Hl at 2. apply sublist_app; [done|]. apply sublist_app; [done|]. by constructor.
    + intros k i Hi. destruct (ix_live _ _ Hx k i) as (e & He & _); [rewrite Hl; set_solver|].
      exists e. apply live_insert; [done|]. right. split; [by eapply Hother|done].
    + intros i e He. apply live_insert in He; [|done].
      destruct He as [(_ & _ & ?)|(Hne & He)]; [done|]. split; [done|].
      pose proof (ix_all _ _ Hx _ _ He) as Hi. rewrite Hl in Hi.
      apply elem_of_app in Hi as [|[|[[= _ ?]|]%elem_of_cons]%elem_of_app]; [set_solver..|done|set_solver].
Qed.

Lemma nextnlu_range s : 0 < size s -> 0 <= nlu s < size s -> 0 <= nlu (nextnlu s) < size s.
Proof. intros. unfold nextnlu. simpl. destruct (Z.geb_spec (nlu s + 1) (size s)); lia. Qed.

(** [insert] replaces the entry at [nlu] and nothing else. *)
Lemma tlb_insert_ok s addr entry : wf s -> exists s', insert s addr entry = Ok s' /\ wf s' /\
  table s' = <[Z.to_nat (nlu s) := E.placed entry (vpn addr)]> (table s) /\
  size s' = size s /\ nlu s' = (if nlu s + 1 >=? size s then 0 else nlu s + 1).
Proof.
  intros []. unfold insert. simpl.
  assert (0 <= nlu s < Z.of_nat (length (table s))) as Hn by lia.
  destruct (vget_lt _ _ Hn) as (old & -> & Hold). bind_step.
  set (new := E.placed entry (vpn addr)).
  assert (exists l0 tab0, indexes l0 tab0 /\ (forall e', ~ live tab0 (nlu s) e') /\
    <[Z.to_nat (nlu s) := new]> tab0 = <[Z.to_nat (nlu s) := new]> (table s) /\ length tab0 = length (table s) /\
    (if E.valid old then
       match find (E.tag old) (lookupTable s) with
       | None => Er Panic
       | Some i => r ← erase_nlu (table s) (E.tag old) (nlu s) i;
           Ok (set_lookup (flushCache s) (before (E.tag old) (lookupTable s) ++ r))
       end
     else Ok (flushCache s)) = Ok (set_lookup (flushCache s) l0)) as (l0 & tab0 & Hx & Hno & Htab & Hlen & ->).
  { destruct (E.valid old) eqn:Hv.
    - destruct (erase_index (lookupTable s) (table s) (nlu s) old) as (i & r & -> & -> & Hx); [done..| |].
      { split; [lia|done]. }
      exists (before (E.tag old) (lookupTable s) ++ r), (<[Z.to_nat (nlu s) := E.set_valid old false]> (table s)).
      split_and!; [done| | | |done].
      + eapply invalid_not_live; [apply list_lookup_insert_eq; lia|done].
      + apply list_insert_insert_eq.
      + apply length_insert.
    - exists (lookupTable s), (table s). split_and!; try done.
      by eapply invalid_not_live. }
  bind_step. simpl. rewrite vset_lt by lia. bind_step. eexists. split; [done|].
  split; [|done]. constructor; simpl; [done|by rewrite length_insert|by apply (nextnlu_range s)| |done].
  rewrite <- Htab. apply (indexes_insert l0 tab0 (nlu s) new); [done|lia|done|done].
Qed.

(** ** Flushing *)
Lemma flush_loop_ok drop tab l : NoDup (map snd l) ->
  (forall k i, (k, i) ∈ l -> exists e, live tab i e) ->
  exists tab' l', flush_loop drop tab l = Ok (tab', l') /\ length tab' = length tab /\
    (forall i e, live tab' i e <-> live tab i e /\ ~ (i ∈ map snd l /\ drop e = true)) /\
    l' `sublist_of` l /\
    (forall k i, (k, i) ∈ l' <-> (k, i) ∈ l /\ exists e, live tab i e /\ drop e = false).
Proof.
  revert tab. induction l as [|[k i] l IH]; intros tab Hnd Hlive.
  { exists tab, []. split_and!; [done..| |done|].
    - intros i e. set_solver.
    - intros k i. set_solver. }
  destruct (Hlive k i) as [e He]; [by left|]. simpl in *.
  apply NoDup_cons in Hnd as [Hi Hnd].
  assert (0 <= i < Z.of_nat (length tab)) as Hr.
  { destruct He as (? & ?%lookup_lt_Some & _). lia. }
  assert (forall k0 i0, (k0, i0) ∈ l -> i0 <> i) as Hne.
  { intros k0 i0 H ->. apply Hi, elem_of_map. by exists (k0, i). }
  rewrite (live_vget _ _ _ He). bind_step. destruct (He) as (_ & _ & ->). simpl.
  destruct (drop e) eqn:Hdrop.
  - rewrite vset_lt by done. bind_step. set (tab1 := <[_ := _]> tab).
    assert (forall j x, live tab1 j x <-> j <> i /\ live tab j x) as H1.
    { intros j x. unfold tab1. rewrite live_insert by done. simpl. naive_solver. }
    destruct (IH tab1 Hnd) as (tab' & l' & -> & Hlen & Hl & Hsub & Hm).
    { intros k0 i0 H. destruct (Hlive k0 i0) as [e0 He0]; [by right|]. exists e0.
      apply H1. split; [by eapply Hne|done]. }
    exists tab', l'. split_and!; [done| | | |].
    + rewrite Hlen. apply length_insert.
    + intros j x. rewrite Hl, H1, elem_of_cons. split; [naive_solver|].
      intros [Hx Hd]. split; [|naive_solver]. split; [|done]. intros ->.
      apply Hd. rewrite (live_fun _ _ _ _ Hx He). naive_solver.
    + by constructor.
    + intros k0 i0. rewrite Hm, elem_of_cons. split.
      * intros (Hin & x & [_ Hx]%H1 & Hd). split; [by right|by exists x].
      * intros ([[= -> ->]|Hin] & x & Hx & Hd); [by rewrite (live_fun _ _ _ _ Hx He), Hdrop in Hd|].
        split; [done|]. exists x. split; [|done]. apply H1. split; [by eapply Hne|done].
  - destruct (IH tab Hnd) as (tab' & l' & -> & Hlen & Hl & Hsub & Hm).
    { intros k0 i0 H. apply (Hlive k0 i0). by right. }
    exists tab', ((k, i) :: l'). split_and!; [done..| |by constructor|].
    + intros j x. rewrite Hl, elem_of_cons. split; [|naive_solver].
      intros [Hx Hd]. split; [done|]. intros [[->|?] Hd']; [|naive_solver].
      by rewrite (live_fun _ _ _ _ Hx He), Hdrop in Hd'.
    + intros k0 i0. rewrite !elem_of_cons, Hm. naive_solver.
Qed.

Lemma flushProcesses_ok s : wf s -> exists s', flushProcesses s = Ok s' /\ wf s' /\
  (forall i e, live (table s') i e <-> live (table s) i e /\ E.asma e = true) /\
  nlu s' = nlu s /\ size s' = size s.
Proof.
  intros []. unfold flushProcesses. simpl.
  destruct (flush_loop_ok (fun e => negb (E.asma e)) (table s) (lookupTable s))
    as (tab & l & -> & Hlen & Hl & Hsub & Hm).
  { apply wf_ix0. }
  { intros k i Hin. destruct (ix_live _ _ wf_ix0 _ _ Hin) as (e & He & _). by exists e. }
  assert (forall i e, live tab i e <-> live (table s) i e /\ E.asma e = true) as Hlive.
  { intros i e. rewrite Hl. split; intros [He Hd]; (split; [done|]).
    - destruct (E.asma e) eqn:Ha; [done|]. exfalso. apply Hd. split; [|done].
      apply elem_of_map. exists (E.tag e, i). split; [done|]. by apply (ix_all _ _ wf_ix0).
    - rewrite Hd. by intros [_ ?]. }
  bind_step. eexists. split; [done|]. simpl. split; [|done].
  constructor; simpl; [done|lia|done| |done].
  apply (indexes_sub (lookupTable s) (table s)); [done..| |].
  - intros k i (_ & e & He & Hd)%Hm. exists e. apply Hlive. by destruct (E.asma e).
  - intros i e He. pose proof He as [He0 Ha]%Hlive. split; [done|]. apply Hm.
    split; [by apply (ix_all _ _ wf_ix0)|]. exists e. by rewrite Ha.
Qed.

Lemma flushAddr_ok s addr a : wf s -> exists s', flushAddr s addr a = Ok s' /\ wf s' /\
  (forall i e, live (table s') i e <-> live (table s) i e /\ matches e (vpn addr) a = false) /\
  nlu s' = nlu s /\ size s' = size s.
Proof.
  intros []. unfold flushAddr. simpl. set (v := vpn addr).
  pose proof (index_split v (lookupTable s) (ix_sorted _ _ wf_ix0)) as Hs.
  destruct (find v (lookupTable s)) as [i|].
  2:{ eexists. split; [done|]. split; [by constructor|]. split; [|done]. intros i e. simpl.
      split; [intros He; split; [done|]|by intros [? _]].
      apply other_page. eapply Hs, (ix_all _ _ wf_ix0), He. }
  destruct Hs as (page & rest & -> & Hix & _ & _ & Hpage & Hrest & Hbef).
  set (drop := fun e => matches e v a).
  destruct (flush_loop_ok drop (table s) page) as (tab & l & -> & Hlen & Hl & Hsub & Hm).
  { eapply sublist_NoDup; [apply wf_ix0|]. apply map_sublist. rewrite Hix.
    apply sublist_inserts_l, sublist_inserts_r. done. }
  { intros k i0 Hin. destruct (ix_live _ _ wf_ix0 k i0) as (e & He & _); [|by exists e].
    rewrite Hix. set_solver. }
  assert (forall i e, live tab i e <-> live (table s) i e /\ matches e v a = false) as Hlive.
  { intros i0 e. rewrite Hl. split; intros [He Hd]; (split; [done|]).
    - apply not_true_is_false. intros Ha. apply Hd. split; [|done].
      apply elem_of_map. exists (v, i0). split; [done|].
      apply (page_member (lookupTable s) (table s) v page rest i0 e); [done..|].
      by apply matches_spec in Ha as [? _].
    - unfold drop. rewrite Hd. by intros [_ ?]. }
  bind_step. eexists. split; [done|]. simpl. split; [|done].
  constructor; simpl; [done|lia|done| |done].
  apply (indexes_sub (lookupTable s) (table s)); [done| | |].
  - rewrite Hix at 2. apply sublist_app; [done|]. by apply sublist_app.
  - intros k i0 Hin. assert ((k, i0) ∈ lookupTable s) as Hk.
    { rewrite Hix. apply elem_of_app in Hin as [?|[[? _]%Hm|?]%elem_of_app]; set_solver. }
    destruct (ix_live _ _ wf_ix0 _ _ Hk) as (e & He & Ht). exists e. apply Hlive. split; [done|].
    apply elem_of_app in Hin as [Hin|[(_ & e' & He' & Hd)%Hm|Hin]%elem_of_app].
    + apply other_page. specialize (Hbef _ _ Hin). lia.
    + by rewrite (live_fun _ _ _ _ He He').
    + apply other_page. specialize (Hrest _ _ Hin). lia.
  - intros i0 e He. pose proof He as [He0 Ha]%Hlive. split; [done|].
    pose proof (ix_all _ _ wf_ix0 _ _ He0) as Hin. rewrite Hix in Hin.
    apply elem_of_app in Hin as [Hin|[Hin|Hin]%elem_of_app]; [set_solver| |set_solver].
    rewrite !elem_of_app. right. left. apply Hm. split; [done|by exists e].
Qed.

Lemma zero_not_live n i e : ~ live (replicate n E.zero) i e.
Proof. intros (_ & [-> _]%lookup_replicate & Hv). done. Qed.

Lemma indexes_empty n : indexes [] (replicate n E.zero).
Proof.
  constructor; [constructor|constructor|by intros k i ?%elem_of_nil|].
  intros i e H. by apply zero_not_live in H.
Qed.

Lemma flushAll_wf s : wf s -> wf (flushAll s).
Proof.
  intros []. unfold flushAll. constructor; simpl; [done|rewrite length_replicate; lia|lia|apply indexes_empty|done].
Qed.

Lemma new_wf n : 0 < n -> wf (new n).
Proof.
  intros Hn. unfold new. constructor; simpl; [done|rewrite length_replicate; lia|lia|apply indexes_empty|done].
Qed.

(** ** Checkpoints *)
Lemma indexes_invalid l tab n e : indexes l tab -> 0 <= n < Z.of_nat (length tab) ->
  (forall e', ~ live tab n e') -> E.valid e = false -> indexes l (<[Z.to_nat n := e]> tab).
Proof.
  intros Hx Hn Hno Hv. apply (indexes_sub l tab); [done..| |].
  - intros k i Hin. destruct (ix_live _ _ Hx _ _ Hin) as (e' & He' & _). exists e'.
    apply live_insert; [done|]. right. split; [|done]. intros ->. by apply (Hno e').
  - intros i e' He'. apply live_insert in He'; [|done].
    destruct He' as [(_ & -> & ?)|(_ & He')]; [congruence|]. split; [done|by apply Hx].
Qed.

Lemma unserialize_loop_ok entries : forall s done zeros,
  table s = done ++ zeros -> length zeros = length entries ->
  (forall i e, Z.of_nat (length done) <= i -> ~ live (table s) i e) ->
  indexes (lookupTable s) (table s) ->
  exists s', unserialize_loop s (Z.of_nat (length done)) entries = Ok s' /\ table s' = done ++ entries /\
    indexes (lookupTable s') (table s') /\ size s' = size s /\ nlu s' = nlu s /\ EntryCache s' = EntryCache s.
Proof.
  induction entries as [|e entries IH]; intros s done zeros Ht Hlen Hno Hx; simpl.
  { destruct zeros; [|done]. by exists s. }
  destruct zeros as [|z zeros]; [done|]. simpl in Hlen.
  assert (0 <= Z.of_nat (length done) < Z.of_nat (length (table s))) as Hr by (rewrite Ht, length_app; simpl; lia).
  rewrite vset_lt by done. bind_step. set (tab := <[_ := e]> (table s)).
  assert (tab = (done ++ [e]) ++ zeros) as Etab.
  { unfold tab. rewrite Ht, Nat2Z.id, <- app_assoc. simpl. rewrite insert_app_r_alt by lia. by rewrite Nat.sub_diag. }
  set (s1 := if E.valid e then _ else _).
  assert (indexes (lookupTable s1) (table s1) /\ table s1 = tab /\ size s1 = size s /\ nlu s1 = nlu s /\
    EntryCache s1 = EntryCache s) as (Hx1 & Et1 & Es1 & En1 & Ec1).
  { unfold s1. destruct (E.valid e) eqn:Hv; simpl; (split; [|done]).
    - apply indexes_insert; [done..| |done]. intros e'. apply Hno. lia.
    - apply indexes_invalid; [done..| |done]. intros e'. apply Hno. lia. }
  destruct (IH s1 (done ++ [e]) zeros) as (s' & E' & Ht' & Hx' & Es' & En' & Ec'); [by rewrite Et1|lia| |done|].
  { intros i e' Hi He'. rewrite length_app in Hi. simpl in Hi. rewrite Et1 in He'. unfold tab in He'.
    apply live_insert in He'; [|done]. destruct He' as [(-> & _)|(_ & He')]; [lia|]. apply (Hno i e'); [lia|done]. }
  replace (Z.of_nat (length done) + 1) with (Z.of_nat (length (done ++ [e]))) by (rewrite length_app; simpl; lia).
  exists s'. rewrite E', Ht', <- app_assoc. split_and!; [done|done|by rewrite Ht', <- app_assoc in Hx'|congruence..].
Qed.

(** A checkpoint restored into a TLB just made. *)
Lemma restore_ok s : wf s -> exists cp s', serialize s = Ok cp /\ unserialize (new (size s)) cp = Ok s' /\ wf s' /\
  table s' = table s /\ nlu s' = nlu s /\ size s' = size s.
Proof.
  intros []. exists (mkCkpt (size s) (nlu s) (table s)).
  destruct (unserialize_loop_ok (table s) (mk [] (replicate (Z.to_nat (size s)) E.zero) (size s) (nlu s) (None, None, None))
    [] (replicate (Z.to_nat (size s)) E.zero)) as (s' & E' & Ht & Hx & Es & En & Ec);
    [done|rewrite length_replicate; lia|intros i e _; apply zero_not_live|apply indexes_empty|].
  exists s'. split_and!; [|exact E'| |done..].
  - unfold serialize. replace (size s <=? Z.of_nat (length (table s))) with true by lia. do 2 f_equal.
    apply take_ge. lia.
  - simpl in *. constructor; rewrite ?Ht, ?Es, ?En, ?Ec; [done..|by rewrite <- Ht|done].
Qed.
End TLBProof.
