(* ===== verification/AlphaTLBTheorems.v ===== *)
(** * Theorems about the Alpha TLB

    An abstract TLB is a map from positions to entries with a replacement
    hand.  The code refines it; the one thing it does beyond that is to read
    past its index, and the theorems say exactly when. *)
From S2P Require Import Prelude EventQueue IntMath Request AlphaTLB AlphaTLBProof.
Import EV5 TLBProof.

Module TLBSpec.
Import TLB(matches).

Inductive op :=
| Lookup (vpn asn : Z)
| Insert (addr : Z) (entry : TlbEntry.t)
| FlushAll
| FlushProcesses
| FlushAddr (addr asn : Z).

(** The code, an operation at a time; a lookup answers with the entry. *)
Definition exec (s : TLB.t) (o : op) : res (option TlbEntry.t * TLB.t) :=
  match o with
  | Lookup v a =>
      '(r, s) ← TLB.lookup s v a;
      match r with
      | None => Ok (None, s)
      | Some i => e ← vget (TLB.table s) i; Ok (Some e, s)
      end
  | Insert addr entry => s ← TLB.insert s addr entry; Ok (None, s)
  | FlushAll => Ok (None, TLB.flushAll s)
  | FlushProcesses => s ← TLB.flushProcesses s; Ok (None, s)
  | FlushAddr addr a => s ← TLB.flushAddr s addr a; Ok (None, s)
  end.
Fixpoint run (s : TLB.t) (ops : list op) : res (list (option TlbEntry.t) * TLB.t) :=
  match ops with
  | [] => Ok ([], s)
  | o :: ops =>
      '(r, s) ← exec s o;
      '(rs, s) ← run s ops;
      Ok (r :: rs, s)
  end.

(** The abstract TLB. *)
Record t := mk { entries : gmap Z TlbEntry.t; hand : Z; capacity : Z }.
Definition next (a : t) : Z := if hand a + 1 >=? capacity a then 0 else hand a + 1.

(** What an operation may answer and leave. *)
Inductive step (a : t) : op -> option TlbEntry.t -> t -> Prop :=
| step_hit v n i e : entries a !! i = Some e -> matches e v n = true -> step a (Lookup v n) (Some e) a
| step_miss v n : (forall i e, entries a !! i = Some e -> matches e v n = false) -> step a (Lookup v n) None a
| step_insert addr e :
    step a (Insert addr e) None
      (mk (<[hand a := TlbEntry.placed e (vpn addr)]> (entries a)) (next a) (capacity a))
| step_flushAll : step a FlushAll None (mk ∅ 0 (capacity a))
| step_flushProcesses :
    step a FlushProcesses None
      (mk (filter (fun p => TlbEntry.asma p.2 = true) (entries a)) (hand a) (capacity a))
| step_flushAddr addr n :
    step a (FlushAddr addr n) None
      (mk (filter (fun p => matches p.2 (vpn addr) n = false) (entries a)) (hand a) (capacity a)).

Inductive steps (a : t) : list op -> list (option TlbEntry.t) -> t -> Prop :=
| steps_nil : steps a [] [] a
| steps_cons o r b ops rs c : step a o r b -> steps b ops rs c -> steps a (o :: ops) (r :: rs) c.

(** The abstract TLB that a state of the code stands for. *)
Definition refines (s : TLB.t) (a : t) : Prop :=
  wf s /\ (forall i e, entries a !! i = Some e <-> live (TLB.table s) i e) /\
  hand a = TLB.nlu s /\ capacity a = TLB.size s.

(** The lookup that runs off the end of the index: nothing matches, but the
    page is the last one listed. *)
Definition overruns (a : t) (v n : Z) : Prop :=
  (forall i e, entries a !! i = Some e -> matches e v n = false) /\
  (exists i e, entries a !! i = Some e /\ TlbEntry.tag e = v) /\
  (forall i e, entries a !! i = Some e -> TlbEntry.tag e <= v).

Lemma refines_new n : 0 < n -> refines (TLB.new n) (mk ∅ 0 n).
Proof.
  intros Hn. split; [by apply new_wf|]. split; [|done]. intros i e. simpl. rewrite lookup_empty.
  split; [done|]. intros H. by apply zero_not_live in H.
Qed.

Lemma exec_refines s a o : refines s a ->
  match exec s o with
  | Ok (r, s') => exists a', step a o r a' /\ refines s' a'
  | Er f => f = BadPointer /\ exists v n, o = Lookup v n /\ overruns a v n
  end.
Proof.
  intros (Hw & He & Hh & Hc). destruct o as [v n|addr e| | |addr n]; simpl.
  - pose proof (tlb_lookup_ok s v n Hw) as Hl. destruct (TLB.lookup s v n) as [[[i|] s']|f]; simpl.
    + destruct Hl as (e & Hi & Hm & Hw' & Ht & Hn & Hs). rewrite Ht, (live_vget _ _ _ Hi). bind_step.
      exists a. split; [apply (step_hit a v n i); [by apply He|done]|].
      split; [done|]. rewrite Ht, Hn, Hs. done.
    + destruct Hl as (-> & Hm & _). exists a. split; [|done].
      apply step_miss. intros i e Hi. by apply (Hm i e), He.
    + destruct Hl as (-> & Hm & (i & e & Hi & Ht) & Hle). split; [done|]. exists v, n. split; [done|].
      split_and!; [|exists i, e; by rewrite He|]; intros i' e'; rewrite He; [apply Hm|apply Hle].
  - destruct (tlb_insert_ok s addr e Hw) as (s' & -> & Hw' & Ht & Hs & Hn). bind_step.
    eexists. split; [constructor|]. split; [done|]. split; [|simpl; unfold next; rewrite Hh, Hc, Hn, Hs; done].
    intros i e'. simpl. rewrite Ht, live_insert by (rewrite (wf_len s Hw); apply Hw).
    rewrite lookup_insert_Some, Hh, He. simpl. naive_solver.
  - eexists. split; [constructor|]. split; [by apply flushAll_wf|]. split; [|done].
    intros i e. simpl. rewrite lookup_empty. split; [done|]. intros H. by apply zero_not_live in H.
  - destruct (flushProcesses_ok s Hw) as (s' & -> & Hw' & Hl & Hn & Hs). bind_step.
    eexists. split; [constructor|]. split; [done|]. rewrite Hn, Hs. split; [|done].
    intros i e. simpl. rewrite map_lookup_filter_Some, Hl, He. done.
  - destruct (flushAddr_ok s addr n Hw) as (s' & -> & Hw' & Hl & Hn & Hs). bind_step.
    eexists. split; [constructor|]. split; [done|]. rewrite Hn, Hs. split; [|done].
    intros i e. simpl. rewrite map_lookup_filter_Some, Hl, He. done.
Qed.

Lemma run_refines s a ops : refines s a ->
  match run s ops with
  | Ok (rs, s') => exists a', steps a ops rs a' /\ refines s' a'
  | Er f => f = BadPointer /\ exists ops1 v n ops2 rs a1,
      ops = ops1 ++ Lookup v n :: ops2 /\ steps a ops1 rs a1 /\ overruns a1 v n
  end.
Proof.
  revert s a. induction ops as [|o ops IH]; intros s a Hr; simpl.
  { exists a. split; [constructor|done]. }
  pose proof (exec_refines s a o Hr) as Hx. destruct (exec s o) as [[r s']|f]; simpl.
  - destruct Hx as (a' & Hst & Hr'). specialize (IH s' a' Hr').
    destruct (run s' ops) as [[rs s2]|f]; simpl.
    + destruct IH as (a2 & Hs & Hr2). exists a2. split; [by econstructor|done].
    + destruct IH as (-> & ops1 & v & n & ops2 & rs & a1 & -> & Hs & Ho). split; [done|].
      exists (o :: ops1), v, n, ops2, (r :: rs), a1. split_and!; [done|by econstructor|done].
  - destruct Hx as (-> & v & n & -> & Ho). split; [done|].
    exists [], v, n, ops, [], a. split_and!; [done|constructor|done].
Qed.
End TLBSpec.
Import TLBSpec.

(** C30. A fresh TLB, put through any sequence of lookups, insertions and flushes,
    behaves as the abstract TLB: a lookup answers an entry that is present and
    matches, or nothing when none matches; an insertion replaces the entry at
    the hand alone; a flush removes exactly the entries it should.  The only
    way to fail is a lookup that runs off the end of the index. *)
Theorem tlb_refines n ops : 0 < n ->
  match run (TLB.new n) ops with
  | Ok (rs, s) => exists a, steps (mk ∅ 0 n) ops rs a /\ refines s a
  | Er f => f = BadPointer /\ exists ops1 v m ops2 rs a1,
      ops = ops1 ++ Lookup v m :: ops2 /\ steps (mk ∅ 0 n) ops1 rs a1 /\ overruns a1 v m
  end.
Proof. intros Hn. by apply run_refines, refines_new. Qed.

Definition demo_entry (p : Z) : TlbEntry.t := TlbEntry.new 1 0 (p * 0x2000).

Lemma tlb_refines_witness :
  exists rs s a, run (TLB.new 2) [Insert 0x2000 (demo_entry 5); Insert 0x4000 (demo_entry 6);
      Lookup 1 1; Lookup 1 2; Insert 0x6000 (demo_entry 7); Lookup 1 1] = Ok (rs, s) /\
    steps (mk ∅ 0 2) [Insert 0x2000 (demo_entry 5); Insert 0x4000 (demo_entry 6);
      Lookup 1 1; Lookup 1 2; Insert 0x6000 (demo_entry 7); Lookup 1 1] rs a.
Proof.
  pose proof (tlb_refines 2 [Insert 0x2000 (demo_entry 5); Insert 0x4000 (demo_entry 6);
      Lookup 1 1; Lookup 1 2; Insert 0x6000 (demo_entry 7); Lookup 1 1] ltac:(lia)) as H.
  vm_compute run in H. destruct H as (a & H & _).
  eexists _, _, a. split; [vm_compute; reflexivity|exact H].
Defined.

(** A lookup of the last page of the index for an address space that has no
    entry for it always reads past the end of the index: the loop has no end
    test, although the search before it and the loop of [flushAddr] do. *)
Theorem lookup_overrun s v n : wf s ->
  (exists i e, live (TLB.table s) i e /\ TlbEntry.tag e = v) ->
  (forall i e, live (TLB.table s) i e -> TlbEntry.tag e <= v /\ TLB.matches e v n = false) ->
  TLB.lookup s v n = Er BadPointer.
Proof.
  intros Hw (i & e & Hi & Ht) Hall. pose proof (tlb_lookup_ok s v n Hw) as Hl.
  destruct (TLB.lookup s v n) as [[[j|] s']|f].
  - destruct Hl as (e' & Hj & Hm & _). destruct (Hall j e' Hj) as [_ Hf]. congruence.
  - destruct Hl as (_ & _ & [Hne|(j & e' & Hj & Hlt)]).
    + by destruct (Hne i e Hi).
    + destruct (Hall j e' Hj). lia.
  - by destruct Hl as (-> & _).
Qed.

Definition demo_tlb : TLB.t :=
  TLB.mk [(1, 0)] [TlbEntry.placed (demo_entry 5) 1; TlbEntry.zero] 2 1 (None, None, None).

Lemma live_demo i e : live (TLB.table demo_tlb) i e <-> i = 0 /\ e = TlbEntry.placed (demo_entry 5) 1.
Proof.
  unfold live. split.
  - intros (H1 & H2 & H3). simpl in H2. destruct (Z.to_nat i) as [|[|k]] eqn:E; simpl in H2; [|by simplify_eq..].
    split; [lia|congruence].
  - intros [-> ->]. done.
Qed.

Lemma wf_demo : wf demo_tlb.
Proof.
  destruct (tlb_insert_ok (TLB.new 2) 0x2000 (demo_entry 5)) as (s & E & Hw & _); [by apply new_wf|].
  vm_compute in E. injection E as <-. exact Hw.
Qed.

Lemma lookup_overrun_witness : TLB.insert (TLB.new 2) 0x2000 (demo_entry 5) = Ok demo_tlb /\
  TLB.lookup demo_tlb 1 2 = Er BadPointer.
Proof.
  split; [vm_compute; reflexivity|]. apply (lookup_overrun demo_tlb 1 2 wf_demo).
  - exists 0, (TlbEntry.placed (demo_entry 5) 1). split; [by apply live_demo|done].
  - intros i e [-> ->]%live_demo. done.
Defined.

(** C39. A checkpoint of a TLB restores, in a TLB just made, one with the same
    entries, hand and capacity, so every later lookup, insertion and flush has
    the same outcomes open to it; its own checkpoint is the same again. *)
Theorem tlb_checkpoint_roundtrip s a : refines s a ->
  exists cp s', TLB.serialize s = Ok cp /\ TLB.unserialize (TLB.new (TLB.size s)) cp = Ok s' /\ refines s' a /\
    TLB.serialize s' = Ok cp.
Proof.
  intros (Hw & He & Hh & Hc).
  destruct (restore_ok s Hw) as (cp & s' & E1 & E2 & Hw' & Ht & Hnl & Hs). exists cp, s'.
  split_and!; [done..| |].
  - split; [done|]. by rewrite Ht, Hnl, Hs.
  - unfold TLB.serialize in *. by rewrite Ht, Hs, Hnl.
Qed.

Lemma tlb_checkpoint_roundtrip_witness : exists cp s',
  TLB.serialize demo_tlb = Ok cp /\ TLB.unserialize (TLB.new 2) cp = Ok s' /\
  refines s' (mk {[ 0 := TlbEntry.placed (demo_entry 5) 1 ]} 1 2).
Proof.
  destruct (tlb_checkpoint_roundtrip demo_tlb (mk {[ 0 := TlbEntry.placed (demo_entry 5) 1 ]} 1 2))
    as (cp & s' & E1 & E2 & Hr & _).
  - split; [exact wf_demo|]. split; [|done]. intros i e. simpl. rewrite lookup_singleton_Some, live_demo. naive_solver.
  - exists cp, s'. split_and!; [exact E1|exact E2|exact Hr].
Defined.

(** ** Translation of data addresses *)
Lemma land_bit x m : 0 <= m -> (Z.land x (MODE2MASK m) =? 0) = negb (Z.testbit x m).
Proof.
  intros Hm. unfold MODE2MASK. rewrite Z.shiftl_1_l. destruct (Z.testbit x m) eqn:E; simpl.
  - apply Z.eqb_neq. intros H. assert (Z.testbit (Z.land x (2 ^ m)) m = false) as Hf by (rewrite H; apply Z.bits_0).
    by rewrite Z.land_spec, E, Z.pow2_bits_true in Hf.
  - apply Z.eqb_eq. apply Z.bits_inj'. intros j Hj. rewrite Z.land_spec, Z.bits_0.
    destruct (decide (j = m)) as [->|]; [by rewrite E|]. rewrite Z.pow2_bits_false by done. apply andb_false_r.
Qed.

Lemma small_bit_clear p k : 0 <= p < 2 ^ k -> 0 <= k -> Z.land p (2 ^ k) = 0.
Proof.
  intros Hp Hk. rewrite <- (Z.shiftl_1_l k). apply Z.eqb_eq. fold (MODE2MASK k). rewrite land_bit by done.
  destruct (decide (p = 0)) as [->|]; [by rewrite Z.bits_0|].
  rewrite Z.bits_above_log2; [done|lia|]. apply Z.log2_lt_pow2; lia.
Qed.

Lemma small_high_clear p : 0 <= p < 2 ^ 44 -> Z.land p (uint 64 (Z.lnot PAddrImplMask)) = 0.
Proof.
  intros Hp. apply Z.bits_inj'. intros j Hj. rewrite Z.land_spec, Z.bits_0.
  destruct (Z.ltb_spec j 44).
  - replace (uint 64 (Z.lnot PAddrImplMask)) with (Z.shiftl (2 ^ 20 - 1) 44) by (vm_compute; reflexivity).
    rewrite Z.shiftl_spec by lia. rewrite (Z.testbit_neg_r _ (j - 44)) by lia. apply andb_false_r.
  - destruct (decide (p = 0)) as [->|]; [by rewrite Z.bits_0|].
    rewrite (Z.bits_above_log2 p); [done|lia|]. assert (Z.log2 p < 44); [|lia]. apply Z.log2_lt_pow2; lia.
Qed.

Lemma setPaddr_getPaddr req p : EvQ.isSet (Request.privateFlags req) Request.VALID_VADDR = true ->
  exists req', Request.setPaddr req p = Ok req' /\ Request.getPaddr req' = Ok p /\ Request._paddr req' = p /\
    EvQ.isSet (Request.privateFlags req') Request.VALID_VADDR = true /\
    EvQ.isSet (Request.privateFlags req') Request.VALID_PADDR = true.
Proof.
  intros Hv. unfold Request.setPaddr. rewrite Hv. cbn [c_assert]. bind_step. eexists. split; [done|].
  unfold Request.getPaddr. cbn [Request.privateFlags Request._paddr].
  rewrite !Request.isSet_set_bits, Hv. by rewrite orb_true_r.
Qed.

Lemma isSet_lor f a b : EvQ.isSet f (Z.lor a b) = EvQ.isSet f a || EvQ.isSet f b.
Proof.
  unfold EvQ.isSet. rewrite Z.land_lor_distr_r, <- negb_andb. f_equal.
  apply eq_true_iff_eq. rewrite andb_true_iff, !Z.eqb_eq. apply Z.lor_eq_0_iff.
Qed.

(** An address below bit 43 passes the checks at the end unchanged. *)
Lemma finish_plain req itb p : Request.getPaddr req = Ok p -> 0 <= p < 2 ^ 43 ->
  TLB.finish req itb = Ok (TLB.NoFault, req).
Proof.
  intros Hg Hp. unfold TLB.finish, TLB.checkCacheability. rewrite Hg. bind_step.
  rewrite small_high_clear by lia. simpl.
  replace PAddrUncachedBit43 with (2 ^ 43) by reflexivity. by rewrite small_bit_clear by lia.
Qed.

Lemma finish_total req itb : EvQ.isSet (Request.privateFlags req) Request.VALID_VADDR = true ->
  EvQ.isSet (Request.privateFlags req) Request.VALID_PADDR = true ->
  exists r, TLB.finish req itb = Ok r.
Proof.
  intros Hv Hp. unfold TLB.finish, TLB.checkCacheability, Request.getPaddr. rewrite Hp. simpl.
  destruct (negb _); [by eexists|]. destruct (negb _); [|by eexists]. destruct (PAddrIprSpace _); [by eexists|].
  unfold Request.setFlags, Request.setPaddr. simpl.
  assert (EvQ.isSet (Request.privateFlags req) (Z.lor Request.VALID_PADDR Request.VALID_VADDR) = true) as -> by (by rewrite isSet_lor, Hp).
  simpl. rewrite Hv. simpl. destruct (_ && _); by eexists.
Qed.

(** The entry lets the access through. *)
Definition permitted (e : TlbEntry.t) (write : bool) (mode : Z) : Prop :=
  if write then Z.testbit (TlbEntry.xwe e) mode = true /\ TlbEntry.fonw e = false
  else Z.testbit (TlbEntry.xre e) mode = true /\ TlbEntry.fonr e = false.

Lemma check_access_permitted e write mode v flags : 0 <= mode ->
  TLB.check_access e write mode v flags = TLB.NoFault <-> permitted e write mode.
Proof.
  intros Hm. unfold TLB.check_access, permitted. destruct write; rewrite land_bit by done.
  - destruct (Z.testbit (TlbEntry.xwe e) mode), (TlbEntry.fonw e); simpl; naive_solver.
  - destruct (Z.testbit (TlbEntry.xre e) mode), (TlbEntry.fonr e); simpl; naive_solver.
Qed.

(** The mode an access is checked in. *)
Definition access_mode (tc : TLB.ThreadContext) (flags : Z) : Z :=
  if PcPAL (TLB.PC tc) then
    if EvQ.isSet flags Request.ALTMODE then ALT_MODE_AM (TLB.IPR_ALT_MODE tc) else mode_kernel
  else DTB_CM_CM (TLB.IPR_DTB_CM tc).

Lemma two_bits_nonneg x : 0 <= Z.land x 3.
Proof. change 3 with (Z.ones 2). rewrite Z.land_ones by lia. apply Z.mod_pos_bound. lia. Qed.

Lemma access_mode_nonneg tc flags : 0 <= access_mode tc flags.
Proof.
  unfold access_mode, ALT_MODE_AM, DTB_CM_CM, mode_kernel.
  destruct (PcPAL _); [destruct (EvQ.isSet _ _)|]; try lia; apply two_bits_nonneg.
Qed.

Lemma page_address e v : 0 <= TlbEntry.ppn e < 2 ^ 30 -> 0 <= v ->
  uint 64 (TlbEntry.pageStart e + offset v) = TlbEntry.ppn e * 2 ^ 13 + v mod 2 ^ 13 /\
  0 <= TlbEntry.ppn e * 2 ^ 13 + v mod 2 ^ 13 < 2 ^ 43.
Proof.
  intros Hp Hv. unfold TlbEntry.pageStart, offset, PageShift, PageOffset.
  change 0x1fff with (Z.ones 13). rewrite Z.land_ones by lia. rewrite Z.shiftl_mul_pow2 by lia.
  pose proof (Z.mod_pos_bound v (2 ^ 13) ltac:(lia)). 
  rewrite (uint_small 64 (TlbEntry.ppn e * 2 ^ 13)) by lia. rewrite uint_small by lia. lia.
Qed.

(** A data access to a mapped, aligned virtual address outside the kernel
    superpage is decided by a valid entry for the page and the address space:
    it faults unless the entry permits it in the mode of the access, and
    otherwise gets the entry's frame with the offset in the page. *)
Theorem translateData_mapped s req tc write i0 e0 :
  let v := Request._vaddr req in
  let asn := uint 8 (DTB_ASN_ASN (TLB.IPR_DTB_ASN tc)) in
  wf s -> 0 <= v ->
  EvQ.isSet (Request.privateFlags req) Request.VALID_VADDR = true ->
  EvQ.isSet (Request.privateFlags req) Request.VALID_SIZE = true ->
  Z.land v (uint 64 (Request._size req - 1)) = 0 ->
  EvQ.isSet (Request._flags req) Request.PHYSICAL = false ->
  TLB.validVirtualAddress v = true -> VAddrSpaceEV6 v <> 0x7e ->
  live (TLB.table s) i0 e0 -> TLB.matches e0 (vpn v) asn = true ->
  exists i e f req' s', live (TLB.table s) i e /\ TLB.matches e (vpn v) asn = true /\
    TLB.translateData s req tc write = Ok (f, req', s') /\ wf s' /\ TLB.table s' = TLB.table s /\
    (f = TLB.NoFault -> permitted e write (access_mode tc (Request._flags req))) /\
    (permitted e write (access_mode tc (Request._flags req)) -> 0 <= TlbEntry.ppn e < 2 ^ 30 ->
       f = TLB.NoFault /\ Request._paddr req' = TlbEntry.ppn e * 2 ^ 13 + v mod 2 ^ 13).
Proof.
  intros v asn Hw Hv0 Hva Hsz Hal Hph Hvalid Hsp He0 Hm0.
  pose proof (tlb_lookup_ok s (vpn v) asn Hw) as Hl.
  destruct (TLB.lookup s (vpn v) asn) as [[[i|] s']|?] eqn:Elk.
  2:{ destruct Hl as (_ & Hno & _). specialize (Hno _ _ He0). congruence. }
  2:{ destruct Hl as (_ & Hno & _). specialize (Hno _ _ He0). congruence. }
  destruct Hl as (e & He & Hm & Hw' & Ht & _ & _). exists i, e.
  unfold TLB.translateData, Request.getVaddr, Request.getSize, Request.getFlags.
  rewrite Hva, Hsz. cbn [c_assert]. repeat bind_step. fold v.
  assert (EvQ.isSet (Request.privateFlags req) (Z.lor Request.VALID_PADDR Request.VALID_VADDR) = true) as ->
    by (rewrite isSet_lor, Hva; apply orb_true_r).
  cbn [c_assert]. repeat bind_step. rewrite Hal, Hph, Hvalid. cbn [negb Z.eqb].
  apply Z.eqb_neq in Hsp. rewrite Hsp.
  fold asn. rewrite Elk. bind_step. rewrite Ht, (live_vget _ _ _ He). bind_step.
  destruct (setPaddr_getPaddr req (uint 64 (TlbEntry.pageStart e + offset v)) Hva) as (req1 & E1 & E2 & E3 & E4 & E5).
  rewrite E1. bind_step. fold (access_mode tc (Request._flags req)).
  pose proof (check_access_permitted e write (access_mode tc (Request._flags req)) v (Request._flags req)
    (access_mode_nonneg _ _)) as Hperm.
  destruct (TLB.check_access e write _ v _) eqn:Ec.
  all: try (eexists _, _, _; split_and!; try done; intros Hp; apply Hperm in Hp; done).
  destruct (finish_total req1 false E4 E5) as ([f req2] & Ef).
  rewrite Ef. bind_step. exists f, req2, s'. split_and!; [done..| |].
  - intros _. by apply Hperm.
  - intros _ Hppn. destruct (page_address e v Hppn Hv0) as [Ea Hr]. rewrite Ea in *.
    rewrite (finish_plain req1 false _ E2 Hr) in Ef. injection Ef as <- <-. done.
Qed.

Definition demo_req : Request.t :=
  Request.mk 0 8 0 (Z.lor Request.VALID_VADDR Request.VALID_SIZE) 0 0 0x2010 0 0 0 0.
Definition demo_tc : TLB.ThreadContext := TLB.mkTC 0 0 0 (Z.shiftl 1 57) 0.

Lemma translateData_mapped_witness : exists req' s',
  TLB.translateData demo_tlb demo_req demo_tc true = Ok (TLB.NoFault, req', s') /\
  Request._paddr req' = 5 * 2 ^ 13 + 0x10.
Proof.
  destruct (translateData_mapped demo_tlb demo_req demo_tc true 0 (TlbEntry.placed (demo_entry 5) 1))
    as (i & e & f & req' & s' & Hl & _ & E & _ & _ & _ & Hp).
  1: exact wf_demo.
  1: done.
  1-6: vm_compute; done.
  1: by apply live_demo.
  1: vm_compute; done.
  exists req', s'. apply live_demo in Hl as [-> ->].
  destruct Hp as [-> Hp]; [vm_compute; done|vm_compute; done|].
  split; [exact E|]. rewrite Hp. reflexivity.
Defined.
