(* ===== verification/ChunkGenerator.v ===== *)
(** * Splitting a region into chunks

    [src/base/chunk_generator.hh]: the iterator that the ports use to cut a
    region of memory at page or block boundaries, the loop every client writes
    around it, and the rule by which the clients' loops are proved. *)
From S2P Require Import Prelude EventQueue IntMath.

Module ChunkGenerator.

Record t := mk {
  curAddr : Z;
  nextAddr : Z;
  curSize : Z;
  sizeLeft : Z;
  startAddr : Z;
  chunkSize : Z
}.

(** The constructor; sizes are 32 bits wide and addresses 64. *)
Definition new (_startAddr totalSize _chunkSize : Z) : res t :=
  let totalSize := uint 32 totalSize in
  _ ← c_assert ((_chunkSize =? 0) || IntMath.isPowerOf2 32 _chunkSize);
  let nextAddr :=
    if _chunkSize =? 0 then uint 64 (_startAddr + totalSize)
    else
      let n := IntMath.roundUp 64 _startAddr (sint 32 _chunkSize) in
      if _startAddr =? n then uint 64 (n + _chunkSize) else n in
  let left_in_chunk := uint 32 (uint 64 (nextAddr - _startAddr)) in
  let curSize := Z.min totalSize left_in_chunk in
  Ok (mk _startAddr nextAddr curSize (uint 32 (totalSize - curSize)) _startAddr _chunkSize).

Definition addr (g : t) : Z := curAddr g.
Definition size (g : t) : Z := curSize g.
Definition complete (g : t) : Z := uint 32 (uint 64 (curAddr g - startAddr g)).
Definition done (g : t) : bool := curSize g =? 0.
Definition next (g : t) : bool * t :=
  if sizeLeft g =? 0 then
    (false, mk (curAddr g) (nextAddr g) 0 (sizeLeft g) (startAddr g) (chunkSize g))
  else
    let curSize := Z.min (sizeLeft g) (chunkSize g) in
    (true, mk (nextAddr g) (uint 64 (nextAddr g + curSize)) curSize (uint 32 (sizeLeft g - curSize))
              (startAddr g) (chunkSize g)).

(** [for (ChunkGenerator gen(...); !gen.done(); gen.next()) body]; the body
    gets the address and the size of the chunk, and may leave the loop with a
    result of its own. *)
Section loop.
Context {S R : Type} (body : Z -> Z -> S -> res (S + R)).

Fixpoint loop (fuel : nat) (g : t) (s : S) : res (S + R) :=
  if done g then Ok (inl s) else
  match fuel with
  | O => Er OutOfFuel
  | Datatypes.S fuel =>
      r ← body (addr g) (size g) s;
      match r with
      | inr out => Ok (inr out)
      | inl s => loop fuel (next g).2 s
      end
  end.
(** Every chunk takes at least a byte of the region. *)
Definition for_chunks (a n chunk : Z) (s : S) : res (S + R) :=
  g ← new a n chunk; loop (Datatypes.S (Z.to_nat (uint 32 n))) g s.
End loop.

(** The chunks a loop visits. *)
Definition chunks (a n chunk : Z) : res (list (Z * Z)) :=
  r ← for_chunks (R := Empty_set) (fun x k l => Ok (inl (l ++ [(x, k)]))) a n chunk [];
  match r with inl l => Ok l | inr e => match (e : Empty_set) with end end.

(** ** The state of a generator in the middle of a region *)

(** The chunk at [k] bytes into the region: the chunks before it took [k], it
    takes up to the next boundary, and [sizeLeft] is what is left after it. *)
Record at_chunk (a n chunk k : Z) (g : t) : Prop := {
  ac_pos : 0 <= k;
  ac_addr : 0 < curSize g -> curAddr g = a + k;
  ac_size : 0 <= curSize g;
  ac_left : sizeLeft g = n - k - curSize g;
  ac_room : 0 <= sizeLeft g;
  ac_next : 0 < sizeLeft g -> chunk <> 0 /\ nextAddr g = a + k + curSize g /\ nextAddr g mod chunk = 0;
  ac_in : 0 < curSize g -> chunk <> 0 -> (a + k) mod chunk + curSize g <= chunk;
  ac_done : curSize g = 0 -> k = n;
  ac_chunk : chunkSize g = chunk
}.

(** A region that does not wrap around, cut at multiples of [chunk]. *)
Record region (a n chunk : Z) : Prop := {
  rg_addr : 0 <= a;
  rg_size : 0 <= n < 2 ^ 32;
  rg_chunk : chunk = 0 \/ exists k, 0 <= k < 31 /\ chunk = 2 ^ k;
  rg_end : a + n + chunk < 2 ^ 64
}.

Lemma new_at a n chunk : region a n chunk -> exists g, new a n chunk = Ok g /\ at_chunk a n chunk 0 g.
Proof.
  intros [Ha Hn Hc He]. unfold new. rewrite (uint_small 32 n) by lia.
  destruct Hc as [->|(k & Hk & ->)].
  - cbn [Z.eqb orb c_assert]. bind_step. rewrite (uint_small 64 (a + n)) by lia.
    replace (a + n - a) with n by lia. rewrite (uint_small 64 n), (uint_small 32 n) by lia.
    rewrite Z.min_id, Z.sub_diag. change (uint 32 0) with 0. eexists. split; [done|]. constructor; cbn; lia.
  - assert (0 < 2 ^ k < 2 ^ 31) by (split; [apply Z.pow_pos_nonneg; lia|apply Z.pow_lt_mono_r; lia]).
    rewrite IntMath.isPowerOf2_pow by lia. rewrite orb_true_r. cbn [c_assert]. bind_step.
    replace (2 ^ k =? 0) with false by lia. rewrite (sint_small 32 (2 ^ k)) by lia.
    rewrite IntMath.roundUp_spec by lia.
    set (c := 2 ^ k) in *. pose proof (Z.div_mod a c ltac:(lia)) as Hdm.
    pose proof (Z.mod_pos_bound a c ltac:(lia)) as Hm.
    assert ((if a =? (a + c - 1) / c * c then uint 64 ((a + c - 1) / c * c + c) else (a + c - 1) / c * c)
      = a + (c - a mod c)) as ->.
    { destruct (decide (a mod c = 0)) as [Hz|Hz].
      - replace ((a + c - 1) / c) with (a / c);
          [|apply (Z.div_unique_pos _ _ _ (c - 1)); lia].
        replace (a =? a / c * c) with true by lia. rewrite uint_small by lia. lia.
      - replace ((a + c - 1) / c) with (a / c + 1);
          [|apply (Z.div_unique_pos _ _ _ (a mod c - 1)); lia].
        replace (a =? (a / c + 1) * c) with false by lia. lia. }
    replace (a + (c - a mod c) - a) with (c - a mod c) by lia.
    rewrite (uint_small 64 (c - _)), (uint_small 32 (c - _)), uint_small by lia.
    eexists. split; [done|]. constructor; cbn; try lia.
    + intros Hl. split_and!; [lia..|]. rewrite Z.mod_divide by lia. exists (a / c + 1). lia.
    + rewrite Z.add_0_r. lia.
Qed.

Lemma next_at a n chunk k g : region a n chunk -> at_chunk a n chunk k g -> 0 < curSize g ->
  at_chunk a n chunk (k + curSize g) (next g).2.
Proof.
  intros [Ha Hn Hc He] [] Hs. unfold next. destruct (Z.eqb_spec (sizeLeft g) 0) as [E|E].
  - constructor; cbn; lia.
  - destruct ac_next0 as (Hne & Hna & Hmod); [lia|]. rewrite ac_chunk0.
    assert (0 < chunk < 2 ^ 31).
    { destruct Hc as [?|(j & Hj & ->)]; [done|]. split; [apply Z.pow_pos_nonneg; lia|apply Z.pow_lt_mono_r; lia]. }
    rewrite (uint_small 64), (uint_small 32) by lia. constructor; cbn; try lia.
    + intros Hl. split_and!; [lia..|]. rewrite Z.min_r in * by lia.
      rewrite <- Z.add_mod_idemp_l, Hmod, Z.add_0_l by lia. by apply Z.mod_same.
    + intros _ _. replace (a + (k + curSize g)) with (nextAddr g) by lia. rewrite Hmod. lia.
Qed.

(** ** The rule for loops over chunks

    [P k] holds when the first [k] bytes of the region are done, [Q] of a
    result the body leaves with. *)
Section rule.
Context {S R : Type} (body : Z -> Z -> S -> res (S + R)) (P : Z -> S -> Prop) (Q : R -> Prop).
Context (a n chunk : Z) (Hrg : region a n chunk).
Context (Hbody : forall k c s, 0 <= k -> 0 < c -> k + c <= n ->
  (chunk <> 0 -> (a + k) mod chunk + c <= chunk) -> P k s ->
  match body (a + k) c s with Ok (inl s') => P (k + c) s' | Ok (inr r) => Q r | Er _ => False end).

Lemma loop_rule fuel g k s : at_chunk a n chunk k g -> P k s -> n - k < Z.of_nat fuel ->
  match loop body fuel g s with Ok (inl s') => P n s' | Ok (inr r) => Q r | Er _ => False end.
Proof.
  revert g k s. induction fuel as [|fuel IH]; intros g k s Hg HP Hf.
  - simpl. destruct Hg. unfold done. destruct (Z.eqb_spec (curSize g) 0) as [E|E]; [|lia].
    by rewrite <- (ac_done0 E).
  - simpl. unfold done. destruct (Z.eqb_spec (curSize g) 0) as [E|E].
    { by rewrite <- (ac_done _ _ _ _ _ Hg E). }
    pose proof (ac_size _ _ _ _ _ Hg). pose proof (ac_left _ _ _ _ _ Hg). pose proof (ac_room _ _ _ _ _ Hg).
    unfold addr, size. rewrite (ac_addr _ _ _ _ _ Hg) by lia.
    pose proof (Hbody k (curSize g) s (ac_pos _ _ _ _ _ Hg) ltac:(lia) ltac:(lia)
      (ac_in _ _ _ _ _ Hg ltac:(lia)) HP) as Hb.
    destruct (body (a + k) (curSize g) s) as [[s'|r]|f]; [|done..].
    bind_step. apply (IH _ (k + curSize g)); [apply next_at; [done..|lia]|done|lia].
Qed.

Lemma for_chunks_rule s : P 0 s ->
  match for_chunks body a n chunk s with Ok (inl s') => P n s' | Ok (inr r) => Q r | Er _ => False end.
Proof.
  intros HP. unfold for_chunks. destruct (new_at a n chunk Hrg) as (g & -> & Hg). bind_step.
  apply (loop_rule _ _ 0); [done..|]. destruct (rg_size _ _ _ Hrg).
  rewrite (uint_small 32 n) by done. lia.
Qed.
End rule.

(** ** The chunks partition the region *)

(** The chunks [l] follow each other from [a] and end at [b]. *)
Fixpoint contiguous (a : Z) (l : list (Z * Z)) (b : Z) : Prop :=
  match l with
  | [] => a = b
  | (x, k) :: l => x = a /\ contiguous (a + k) l b
  end.

Lemma contiguous_snoc a l b k : contiguous a l b -> contiguous a (l ++ [(b, k)]) (b + k).
Proof.
  revert a. induction l as [|[x j] l IH]; intros a; simpl; [by intros ->|].
  intros [-> H]. split; [done|]. by apply IH.
Qed.
End ChunkGenerator.

(** For a region below the end of the address space, the loop ends, and its
    chunks are the region in order: each starts where the one before it ended,
    none is empty, and none crosses a multiple of the chunk size. *)
Theorem chunks_partition a n chunk : ChunkGenerator.region a n chunk ->
  exists l, ChunkGenerator.chunks a n chunk = Ok l /\ ChunkGenerator.contiguous a l (a + n) /\
    Forall (fun '(x, k) => 0 < k /\ (chunk <> 0 -> x mod chunk + k <= chunk)) l.
Proof.
  intros Hrg. unfold ChunkGenerator.chunks.
  pose proof (ChunkGenerator.for_chunks_rule (R := Empty_set) (fun x k l => Ok (inl (l ++ [(x, k)])))
    (fun k l => ChunkGenerator.contiguous a l (a + k) /\
      Forall (fun '(x, k) => 0 < k /\ (chunk <> 0 -> x mod chunk + k <= chunk)) l) (fun _ => True) a n chunk Hrg) as H.
  ospecialize (H _ []).
  { intros k c l Hk Hc _ Hin [Hl Hall]. rewrite Z.add_assoc. split; [by apply ChunkGenerator.contiguous_snoc|].
    apply Forall_app. split; [done|]. by repeat constructor. }
  destruct (ChunkGenerator.for_chunks _ a n chunk []) as [[l|[]]|f].
  - exists l. split; [done|]. apply H. simpl. split; [lia|constructor].
  - destruct H. simpl. split; [lia|constructor].
Qed.

Lemma chunks_partition_witness :
  exists l, ChunkGenerator.chunks 0x1ff0 0x4020 0x2000 = Ok l /\
    ChunkGenerator.contiguous 0x1ff0 l (0x1ff0 + 0x4020) /\ length l = 4%nat.
Proof.
  destruct (chunks_partition 0x1ff0 0x4020 0x2000) as (l & E & H & _).
  - constructor; [lia|lia| |lia]. right. exists 13. split; [lia|reflexivity].
  - exists l. split_and!; [exact E|exact H|]. vm_compute in E. injection E as <-. reflexivity.
Defined.
