(* ===== verification/PageTable.v ===== *)
(** * The page table of a simulated process

    [src/mem/page_table.hh] and [page_table.cc] for Alpha (Module
    [PageTable]), and the parts of [src/sim/process.cc],
    [src/sim/syscall_emul.hh] and [src/arch/alpha/faults.cc] that use it: the
    stack's growth, [mmap], [mremap] and the handlers of TLB misses (Module
    [Process]).  The page pointer of the system is passed along: every frame
    comes from [System.new_page]. *)
From S2P Require Import Prelude EventQueue IntMath Request Packet PhysMem AlphaTLB.

(** [LogVMPageSize] and [VMPageSize] of Alpha. *)
Definition LogVMPageSize := 13.
Definition VMPageSize := 2 ^ LogVMPageSize.

Module PageTable.

Record t := mk {
  pTable : gmap Z TlbEntry.t;
  pTableCache : (Z * TlbEntry.t) * (Z * TlbEntry.t) * (Z * TlbEntry.t);
  pageSize : Z;
  offsetMask : Z
}.

(** The constructor; the entries of the cache keep what their storage holds. *)
Definition new (g0 g1 g2 : TlbEntry.t) (_pageSize : Z) : res t :=
  l ← IntMath.floorLog2_64 _pageSize;
  _ ← c_assert (IntMath.isPowerOf2 64 _pageSize);
  Ok (mk ∅ ((0, g0), (0, g1), (0, g2)) _pageSize (Bitfield.mask l)).

Definition pageAlign (pt : t) (a : Z) : Z := Z.land a (uint 64 (Z.lnot (offsetMask pt))).
Definition pageOffset (pt : t) (a : Z) : Z := Z.land a (offsetMask pt).

Definition set_table (pt : t) (m : gmap Z TlbEntry.t) : t :=
  mk m (pTableCache pt) (pageSize pt) (offsetMask pt).
Definition updateCache (pt : t) (vaddr : Z) (entry : TlbEntry.t) : t :=
  let '(c0, c1, _) := pTableCache pt in
  mk (pTable pt) ((vaddr, entry), c0, c1) (pageSize pt) (offsetMask pt).

(** The number of pages of a [size], enough for the loops below. *)
Definition page_fuel (pt : t) (size : Z) : nat := S (Z.to_nat (size / pageSize pt)).

Section memory.
Context (M5_pid physmem_size : Z).

Fixpoint allocate_loop (fuel : nat) (page_ptr : Z) (pt : t) (vaddr size : Z) : res (t * Z) :=
  if size <=? 0 then Ok (pt, page_ptr) else
  match fuel with
  | O => Er OutOfFuel
  | S fuel =>
      match pTable pt !! vaddr with
      | Some _ => Er Fatal
      | None =>
          '(frame, page_ptr) ← System.new_page LogVMPageSize physmem_size page_ptr;
          let e := TlbEntry.new M5_pid vaddr frame in
          let pt := updateCache (set_table pt (<[vaddr := e]> (pTable pt))) vaddr e in
          allocate_loop fuel page_ptr pt (uint 64 (vaddr + pageSize pt)) (sint 64 (size - pageSize pt))
      end
  end.
Definition allocate (page_ptr : Z) (pt : t) (vaddr size : Z) : res (t * Z) :=
  _ ← c_assert (pageOffset pt vaddr =? 0);
  allocate_loop (page_fuel pt size) page_ptr pt vaddr size.
End memory.

(** [pTable[new_vaddr]] after the erasure is a new entry, with the bytes [g] of
    its storage, when the two addresses are the same. *)
Definition move_page (g : TlbEntry.t) (pt : t) (vaddr new_vaddr : Z) (e : TlbEntry.t) : t :=
  let m := delete vaddr (<[new_vaddr := e]> (pTable pt)) in
  let e' := TlbEntry.updateVaddr (default g (m !! new_vaddr)) new_vaddr in
  updateCache (set_table pt (<[new_vaddr := e']> m)) new_vaddr e'.
Fixpoint remap_loop (g : TlbEntry.t) (fuel : nat) (pt : t) (vaddr size new_vaddr : Z) : res t :=
  if size <=? 0 then Ok pt else
  match fuel with
  | O => Er OutOfFuel
  | S fuel =>
      match pTable pt !! vaddr with
      | None => Er AssertFail
      | Some e =>
          remap_loop g fuel (move_page g pt vaddr new_vaddr e) (uint 64 (vaddr + pageSize pt))
            (sint 64 (size - pageSize pt)) (uint 64 (new_vaddr + pageSize pt))
      end
  end.
Definition remap (g : TlbEntry.t) (pt : t) (vaddr size new_vaddr : Z) : res t :=
  _ ← c_assert (pageOffset pt vaddr =? 0);
  _ ← c_assert (pageOffset pt new_vaddr =? 0);
  remap_loop g (page_fuel pt size) pt vaddr size new_vaddr.

Fixpoint deallocate_loop (fuel : nat) (pt : t) (vaddr size : Z) : res t :=
  if size <=? 0 then Ok pt else
  match fuel with
  | O => Er OutOfFuel
  | S fuel =>
      match pTable pt !! vaddr with
      | None => Er AssertFail
      | Some _ =>
          deallocate_loop fuel (set_table pt (delete vaddr (pTable pt)))
            (uint 64 (vaddr + pageSize pt)) (sint 64 (size - pageSize pt))
      end
  end.
Definition deallocate (pt : t) (vaddr size : Z) : res t :=
  _ ← c_assert (pageOffset pt vaddr =? 0);
  deallocate_loop (page_fuel pt size) pt vaddr size.

(** [lookup(vaddr, entry)]: the entry, when it returns true. *)
Definition lookup (pt : t) (vaddr : Z) : option TlbEntry.t * t :=
  let page_addr := pageAlign pt vaddr in
  let '((v0, e0), (v1, e1), (v2, e2)) := pTableCache pt in
  if v0 =? page_addr then (Some e0, pt)
  else if v1 =? page_addr then (Some e1, pt)
  else if v2 =? page_addr then (Some e2, pt)
  else match pTable pt !! page_addr with
       | None => (None, pt)
       | Some e => (Some e, updateCache pt page_addr e)
       end.

Definition translate (pt : t) (vaddr : Z) : option Z * t :=
  match lookup pt vaddr with
  | (None, pt) => (None, pt)
  | (Some e, pt) => (Some (uint 64 (pageOffset pt vaddr + TlbEntry.pageStart e)), pt)
  end.

Inductive Fault :=
| NoFault
| GenericPageTableFault (vaddr : Z).

Definition translate_req (pt : t) (req : Request.t) : res (Fault * Request.t * t) :=
  v ← Request.getVaddr req;
  n ← Request.getSize req;
  _ ← c_assert (pageAlign pt (uint 64 (v + n - 1)) =? pageAlign pt v);
  match translate pt v with
  | (None, pt) => Ok (GenericPageTableFault v, req, pt)
  | (Some paddr, pt) =>
      req ← Request.setPaddr req paddr;
      if uint 64 (Z.land paddr (uint 64 (pageSize pt - 1)) + uint 64 n) >? pageSize pt then Er Panic
      else Ok (NoFault, req, pt)
  end.
End PageTable.

(** ** The process *)
Module Process.

Record t := mk {
  M5_pid : Z;
  physmem_size : Z;
  page_ptr : Z;
  ptable : PageTable.t;
  stack_base : Z;
  stack_min : Z;
  max_stack_size : Z;
  mmap_end : Z;
  brk_point : Z
}.

Definition set_pages (p : t) (pt : PageTable.t) (ptr : Z) : t :=
  mk (M5_pid p) (physmem_size p) ptr pt (stack_base p) (stack_min p) (max_stack_size p)
     (mmap_end p) (brk_point p).
Definition set_ptable (p : t) (pt : PageTable.t) : t := set_pages p pt (page_ptr p).
Definition set_stack_min (p : t) (a : Z) : t :=
  mk (M5_pid p) (physmem_size p) (page_ptr p) (ptable p) (stack_base p) a (max_stack_size p)
     (mmap_end p) (brk_point p).
Definition set_mmap_end (p : t) (a : Z) : t :=
  mk (M5_pid p) (physmem_size p) (page_ptr p) (ptable p) (stack_base p) (stack_min p)
     (max_stack_size p) a (brk_point p).
Definition set_brk (p : t) (a : Z) : t :=
  mk (M5_pid p) (physmem_size p) (page_ptr p) (ptable p) (stack_base p) (stack_min p)
     (max_stack_size p) (mmap_end p) a.

(** [pTable->allocate(vaddr, size)], [translate(vaddr)] and [lookup(vaddr)]. *)
Definition allocate (p : t) (vaddr size : Z) : res t :=
  r ← PageTable.allocate (M5_pid p) (physmem_size p) (page_ptr p) (ptable p) vaddr (sint 64 size);
  Ok (set_pages p r.1 r.2).
Definition translate (p : t) (vaddr : Z) : option Z * t :=
  let '(r, pt) := PageTable.translate (ptable p) vaddr in (r, set_ptable p pt).
Definition lookup (p : t) (vaddr : Z) : option TlbEntry.t * t :=
  let '(r, pt) := PageTable.lookup (ptable p) vaddr in (r, set_ptable p pt).

(** The loop that extends the stack down to [vaddr]. *)
Fixpoint grow_stack (fuel : nat) (p : t) (vaddr : Z) : res t :=
  if negb (vaddr <? stack_min p) then Ok p else
  match fuel with
  | O => Er OutOfFuel
  | S fuel =>
      let p := set_stack_min p (uint 64 (stack_min p - EV5.PageBytes)) in
      if uint 64 (stack_base p - stack_min p) >? max_stack_size p then Er Fatal
      else if uint 64 (stack_base p - stack_min p) >? 8 * 1024 * 1024 then Er Fatal
      else p ← allocate p (stack_min p) EV5.PageBytes; grow_stack fuel p vaddr
  end.
Definition checkAndAllocNextPage (p : t) (vaddr : Z) : res (bool * t) :=
  if (vaddr >=? stack_min p) && (vaddr <? stack_base p) then
    p ← allocate p (IntMath.roundDown 64 vaddr VMPageSize) VMPageSize; Ok (true, p)
  else if (vaddr <? stack_min p) && (vaddr >=? uint 64 (stack_base p - max_stack_size p)) then
    p ← grow_stack (S (Z.to_nat ((stack_min p - vaddr) / EV5.PageBytes))) p vaddr; Ok (true, p)
  else Ok (false, p).

(** ** System calls *)
Record SyscallReturn := mkRet { retval : Z; success : bool }.
(** A return value of an unsigned and of a signed type. *)
Definition ret_addr (v : Z) : SyscallReturn := mkRet v true.
Definition ret_int (v : Z) : SyscallReturn := mkRet (uint 64 v) (v >=? 0).
Definition EINVAL := 22.
Definition ENOMEM := 12.

(** [mmapFunc], for an anonymous region; [growsDown] is [OS::mmapGrowsDown()]. *)
Definition mmapFunc (growsDown : bool) (p : t) (start length : Z) : res (SyscallReturn * t) :=
  if negb (start mod VMPageSize =? 0) || negb (length mod VMPageSize =? 0)
  then Ok (ret_int (- EINVAL), p)
  else
    let '(start, p) :=
      if growsDown then
        let start := uint 64 (mmap_end p - length) in (start, set_mmap_end p start)
      else (mmap_end p, set_mmap_end p (uint 64 (mmap_end p + length))) in
    p ← allocate p start length;
    Ok (ret_addr start, p).

Definition mremapFunc (g : TlbEntry.t) (p : t) (start old_length new_length flags : Z) :
    res (SyscallReturn * t) :=
  if negb (start mod VMPageSize =? 0) || negb (new_length mod VMPageSize =? 0)
  then Ok (ret_int (- EINVAL), p)
  else if new_length >? old_length then
    if uint 64 (start + old_length) =? mmap_end p then
      let diff := uint 64 (new_length - old_length) in
      p ← allocate p (mmap_end p) diff;
      Ok (ret_addr start, set_mmap_end p (uint 64 (mmap_end p + diff)))
    else if Z.land flags 1 =? 0 then Ok (ret_int (- ENOMEM), p)
    else
      pt ← PageTable.remap g (ptable p) start (sint 64 old_length) (mmap_end p);
      let p := set_ptable p pt in
      let start := mmap_end p in
      p ← allocate p (uint 64 (start + old_length)) (uint 64 (new_length - old_length));
      Ok (ret_addr start, set_mmap_end p (uint 64 (mmap_end p + new_length)))
  else
    pt ← PageTable.deallocate (ptable p) (uint 64 (start + new_length)) (sint 64 (uint 64 (old_length - new_length)));
    Ok (ret_addr start, set_ptable p pt).

(** ** TLB misses in a simulated process *)
Definition page (a : Z) : Z := Z.land a (uint 64 (Z.lnot EV5.PageOffset)).
Definition ItbPageFault_invoke (p : t) (itb : TLB.t) (pc : Z) : res (t * TLB.t) :=
  match lookup p pc with
  | (None, _) => Er Panic
  | (Some e, p) => itb ← TLB.insert itb (page pc) e; Ok (p, itb)
  end.
Definition NDtbMissFault_invoke (p : t) (dtb : TLB.t) (vaddr : Z) : res (t * TLB.t) :=
  let '(r, p) := lookup p vaddr in
  '(r, p) ← match r with
            | Some e => Ok (Some e, p)
            | None => q ← checkAndAllocNextPage p vaddr; Ok (lookup q.2 vaddr)
            end;
  match r with
  | None => Er Panic
  | Some e => dtb ← TLB.insert dtb (page vaddr) e; Ok (p, dtb)
  end.
End Process.
