(* ===== verification/PageTableProof.v ===== *)
(** * Proofs about the page table

    The invariant: pages are aligned, two pages never share a frame, every
    frame was handed out by the system, and the cached translations are those
    of the table (page 0 apart). *)
From S2P Require Import Prelude EventQueue IntMath Request Packet PhysMem AlphaTLB PageTable.

Module PageTableProof.
Import PageTable.
Module E := TlbEntry.

(** A page address: aligned and in the address space. *)
Definition page_addr (v : Z) : Prop := 0 <= v < 2 ^ 64 /\ v mod VMPageSize = 0.
Definition base (v : Z) : Z := v / VMPageSize * VMPageSize.

Definition cached_ok (m : gmap Z E.t) (c : Z * E.t) : Prop := c.1 = 0 \/ m !! c.1 = Some c.2.
Definition coherent (pt : t) : Prop :=
  let '(c0, c1, c2) := pTableCache pt in
  cached_ok (pTable pt) c0 /\ cached_ok (pTable pt) c1 /\ cached_ok (pTable pt) c2.

(** The table alone, for a system whose next page is [ptr]. *)
Record frames (pt : t) (ptr : Z) : Prop := {
  fr_size : pageSize pt = VMPageSize;
  fr_mask : offsetMask pt = VMPageSize - 1;
  fr_ptr : 0 <= ptr <= 2 ^ 18;
  fr_page : forall v e, pTable pt !! v = Some e -> page_addr v /\ E.tag e = EV5.vpn v;
  fr_frame : forall v e, pTable pt !! v = Some e -> 0 <= E.ppn e < ptr;
  fr_inj : forall v w e f, pTable pt !! v = Some e -> pTable pt !! w = Some f -> E.ppn e = E.ppn f -> v = w
}.

Lemma VMPageSize_pow : VMPageSize = 2 ^ 13.
Proof. reflexivity. Qed.

Lemma land_offset a : Z.land a (VMPageSize - 1) = a mod VMPageSize.
Proof. change (VMPageSize - 1) with (Z.ones 13). rewrite VMPageSize_pow. apply Z.land_ones. lia. Qed.

Lemma base_split a : a = base a + a mod VMPageSize.
Proof. unfold base. pose proof (Z.div_mod a VMPageSize ltac:(done)). lia. Qed.

Lemma pageOffset_mod pt a : offsetMask pt = VMPageSize - 1 -> pageOffset pt a = a mod VMPageSize.
Proof. intros E. unfold pageOffset. rewrite E. apply land_offset. Qed.

Lemma pageAlign_base pt a : offsetMask pt = VMPageSize - 1 -> 0 <= a < 2 ^ 64 -> pageAlign pt a = base a.
Proof.
  intros E Ha. unfold pageAlign. rewrite E, IntMath.land_not by (try done; lia).
  change (VMPageSize - 1) with (Z.ones 13). unfold base. rewrite VMPageSize_pow. apply IntMath.ldiff_ones_div. lia.
Qed.

Lemma base_page v : 0 <= v < 2 ^ 64 -> page_addr (base v).
Proof.
  intros Hv. unfold page_addr. pose proof (base_split v). pose proof (Z.mod_pos_bound v VMPageSize ltac:(done)).
  assert (0 <= base v) by (unfold base; apply Z.mul_nonneg_nonneg; [apply Z.div_pos; lia|done]).
  split; [lia|]. unfold base. apply Z.mod_mul. done.
Qed.

Lemma base_of_page v : v mod VMPageSize = 0 -> base v = v.
Proof. intros H. pose proof (base_split v). lia. Qed.

Lemma next_page v : page_addr v -> page_addr (uint 64 (v + VMPageSize)).
Proof.
  intros [Hv Hm]. split; [apply uint_range; lia|]. unfold uint.
  rewrite VMPageSize_pow in *. change (2 ^ 64) with (2 ^ 13 * 2 ^ 51). rewrite Z.rem_mul_r by done.
  rewrite (Z.mul_comm (2 ^ 13)), Z.mod_add by done. rewrite Z.mod_mod by done.
  rewrite <- Z.add_mod_idemp_r, Z.mod_same, Z.add_0_r by done. done.
Qed.

(** ** Frames *)
Lemma new_page_ok size ptr f ptr' : 0 <= ptr <= 2 ^ 18 -> 0 <= size < 2 ^ 63 ->
  System.new_page LogVMPageSize size ptr = Ok (f, ptr') -> f = ptr * VMPageSize /\ ptr' = ptr + 1 /\ ptr < 2 ^ 18 /\ f < size.
Proof.
  intros Hp Hs. unfold System.new_page, LogVMPageSize. rewrite Z.shiftl_mul_pow2 by lia.
  destruct (decide (ptr = 2 ^ 18)) as [->|Hne].
  - change (uint 64 (sint 32 (2 ^ 18 * 2 ^ 13))) with (2 ^ 64 - 2 ^ 31).
    by replace (2 ^ 64 - 2 ^ 31 >=? size) with true by lia.
  - rewrite (sint_small 32 (ptr * 2 ^ 13)), (sint_small 32 (ptr + 1)), uint_small by lia.
    destruct (Z.geb_spec (ptr * 2 ^ 13) size); [done|]. intros [= <- <-].
    rewrite VMPageSize_pow. lia.
Qed.

Lemma new_page_total size ptr : 0 <= ptr < 2 ^ 18 -> ptr * VMPageSize < size ->
  System.new_page LogVMPageSize size ptr = Ok (ptr * VMPageSize, ptr + 1).
Proof.
  intros Hp Hs. unfold System.new_page, LogVMPageSize. rewrite Z.shiftl_mul_pow2 by lia.
  rewrite VMPageSize_pow in *.
  rewrite (sint_small 32 (ptr * 2 ^ 13)), (sint_small 32 (ptr + 1)), uint_small by lia.
  by replace (ptr * 2 ^ 13 >=? size) with false by lia.
Qed.

Lemma ppn_new pid v ptr : 0 <= ptr < 2 ^ 18 -> E.ppn (E.new pid v (ptr * VMPageSize)) = ptr.
Proof.
  intros Hp. simpl. unfold EV5.vpn, EV5.VAddrImplMask, EV5.PageShift.
  rewrite Z.sub_1_r, <- Z.ones_equiv, Z.land_ones by lia. rewrite VMPageSize_pow.
  rewrite Z.mod_small by lia. rewrite Z.shiftr_div_pow2 by lia. by apply Z.div_mul.
Qed.

(** A page that is not mapped gets the next frame. *)
Lemma frames_insert pt ptr v e : frames pt ptr -> page_addr v -> pTable pt !! v = None -> ptr < 2 ^ 18 ->
  E.ppn e = ptr -> E.tag e = EV5.vpn v -> frames (set_table pt (<[v := e]> (pTable pt))) (ptr + 1).
Proof.
  intros [] Hv Hnone Hlt He Ht. constructor; simpl; [done|done|lia| | |].
  - intros w f [[<- <-]|[_ Hw]]%lookup_insert_Some; [done|by apply fr_page0].
  - intros w f [[<- <-]|[_ Hw]]%lookup_insert_Some; [lia|]. specialize (fr_frame0 _ _ Hw). lia.
  - intros w x f g [[<- <-]|[_ Hw]]%lookup_insert_Some [[<- <-]|[_ Hx]]%lookup_insert_Some Heq; [done| | |by eapply fr_inj0].
    + specialize (fr_frame0 _ _ Hx). lia.
    + specialize (fr_frame0 _ _ Hw). lia.
Qed.

Lemma frames_delete pt ptr v : frames pt ptr -> frames (set_table pt (delete v (pTable pt))) ptr.
Proof.
  intros []. constructor; simpl; [done..| | |].
  - intros w f [_ Hw]%lookup_delete_Some. by apply fr_page0.
  - intros w f [_ Hw]%lookup_delete_Some. by eapply fr_frame0.
  - intros w x f g [_ Hw]%lookup_delete_Some [_ Hx]%lookup_delete_Some. by apply fr_inj0.
Qed.

Lemma frames_cache pt ptr v e : frames pt ptr -> frames (updateCache pt v e) ptr.
Proof. intros []. unfold updateCache. destruct (pTableCache pt) as [[c0 c1] c2]. by constructor. Qed.

(** Moving a page to another address keeps its frame. *)
Lemma frames_move g pt ptr v w e : frames pt ptr -> page_addr w -> v <> w -> pTable pt !! v = Some e ->
  frames (move_page g pt v w e) ptr.
Proof.
  intros [] Hw Hne He. unfold move_page. apply frames_cache.
  rewrite lookup_delete_ne, lookup_insert_eq by done. simpl.
  assert (forall x f, <[w := E.updateVaddr e w]> (delete v (<[w := e]> (pTable pt))) !! x = Some f ->
    (x = w /\ f = E.updateVaddr e w) \/ (x <> w /\ x <> v /\ pTable pt !! x = Some f)) as Hcase.
  { intros x f [[<- <-]|[Hx [Hxv Hf]%lookup_delete_Some]]%lookup_insert_Some; [by left|right].
    rewrite lookup_insert_ne in Hf by done. done. }
  constructor; simpl; [done..| | |].
  - intros x f [[-> ->]|(_ & _ & Hx)]%Hcase; [done|by apply fr_page0].
  - intros x f [[-> ->]|(_ & _ & Hx)]%Hcase; [by apply (fr_frame0 v e)|by eapply fr_frame0].
  - intros x y f h [[-> ->]|(_ & Hxv & Hx)]%Hcase [[-> ->]|(_ & Hyv & Hy)]%Hcase Heq; [done| | |by eapply fr_inj0].
    + by destruct Hyv; apply (fr_inj0 y v h e).
    + by destruct Hxv; apply (fr_inj0 x v f e).
Qed.

(** ** The cache *)
Lemma coherent_cache pt v e : coherent pt -> pTable pt !! v = Some e -> coherent (updateCache pt v e).
Proof.
  unfold coherent, updateCache. destruct (pTableCache pt) as [[c0 c1] c2]. simpl.
  intros (H0 & H1 & _) He. split_and!; [by right|done..].
Qed.

Lemma coherent_insert pt v e : coherent pt -> pTable pt !! v = None ->
  coherent (set_table pt (<[v := e]> (pTable pt))).
Proof.
  unfold coherent, set_table. simpl. destruct (pTableCache pt) as [[c0 c1] c2]. intros (H0 & H1 & H2) Hnone.
  assert (forall c, cached_ok (pTable pt) c -> cached_ok (<[v := e]> (pTable pt)) c) as Hc.
  { intros [w f] [?|Hw]; [by left|right]. simpl in *. rewrite lookup_insert_ne; [done|]. intros <-. congruence. }
  split_and!; by apply Hc.
Qed.

Lemma updateCache_table pt v e : pTable (updateCache pt v e) = pTable pt.
Proof. unfold updateCache. by destruct (pTableCache pt) as [[c0 c1] c2]. Qed.

Lemma updateCache_size pt v e : pageSize (updateCache pt v e) = pageSize pt.
Proof. unfold updateCache. by destruct (pTableCache pt) as [[c0 c1] c2]. Qed.

(** With a coherent cache, [lookup] is the lookup of the table. *)
Lemma lookup_table pt ptr v : frames pt ptr -> coherent pt -> 0 <= v < 2 ^ 64 -> VMPageSize <= v ->
  exists pt', lookup pt v = (pTable pt !! base v, pt') /\ coherent pt' /\ frames pt' ptr /\ pTable pt' = pTable pt.
Proof.
  intros Hf Hc Hv Hnz. unfold lookup. rewrite pageAlign_base by (done || apply Hf).
  assert (0 < base v) as Hb.
  { unfold base. apply Z.mul_pos_pos; [|done]. apply Z.div_str_pos. split; [done|lia]. }
  assert (coherent pt) as Hc' by done. unfold coherent in Hc'.
  destruct (pTableCache pt) as [[[v0 e0] [v1 e1]] [v2 e2]] eqn:Ec. destruct Hc' as (H0 & H1 & H2).
  assert (forall w e, cached_ok (pTable pt) (w, e) -> w = base v -> pTable pt !! base v = Some e) as Hhit.
  { intros w e [E|E] ->; simpl in E; [lia|done]. }
  destruct (Z.eqb_spec v0 (base v)) as [E|_]; [exists pt; by rewrite (Hhit _ _ H0 E)|].
  destruct (Z.eqb_spec v1 (base v)) as [E|_]; [exists pt; by rewrite (Hhit _ _ H1 E)|].
  destruct (Z.eqb_spec v2 (base v)) as [E|_]; [exists pt; by rewrite (Hhit _ _ H2 E)|].
  destruct (pTable pt !! base v) as [e|] eqn:Ee; [|by exists pt].
  eexists. split; [done|]. split_and!; [by apply coherent_cache|by apply frames_cache|apply updateCache_table].
Qed.

Lemma page_start e : 0 <= E.ppn e < 2 ^ 18 -> E.pageStart e = E.ppn e * VMPageSize.
Proof.
  intros H. unfold E.pageStart, EV5.PageShift. rewrite Z.shiftl_mul_pow2 by lia.
  rewrite uint_small by lia. by rewrite VMPageSize_pow.
Qed.

(** The physical address of [v] under the table [m]. *)
Definition physical (m : gmap Z E.t) (v : Z) : option Z :=
  option_map (fun e => E.ppn e * VMPageSize + v mod VMPageSize) (m !! base v).

Lemma translate_table pt ptr v : frames pt ptr -> coherent pt -> 0 <= v < 2 ^ 64 -> VMPageSize <= v ->
  exists pt', translate pt v = (physical (pTable pt) v, pt') /\ coherent pt' /\ frames pt' ptr /\ pTable pt' = pTable pt.
Proof.
  intros Hf Hc Hv Hnz. destruct (lookup_table pt ptr v Hf Hc Hv Hnz) as (pt' & El & Hc' & Hf' & Ht).
  exists pt'. split; [|done]. unfold translate, physical. rewrite El.
  destruct (pTable pt !! base v) as [e|] eqn:Ee; [|done]. simpl. do 2 f_equal.
  pose proof (fr_frame _ _ Hf _ _ Ee). pose proof (fr_ptr _ _ Hf).
  rewrite (pageOffset_mod pt') by apply Hf'. rewrite page_start by lia.
  pose proof (Z.mod_pos_bound v VMPageSize ltac:(done)). rewrite VMPageSize_pow in *. rewrite uint_small by lia. lia.
Qed.

Lemma physical_range pt ptr v p : frames pt ptr -> physical (pTable pt) v = Some p ->
  0 <= p < ptr * VMPageSize /\ p mod VMPageSize = v mod VMPageSize.
Proof.
  intros Hf. unfold physical. destruct (pTable pt !! base v) as [e|] eqn:Ee; [|done]. simpl. intros [= <-].
  pose proof (fr_frame _ _ Hf _ _ Ee). pose proof (Z.mod_pos_bound v VMPageSize ltac:(done)).
  rewrite Z.add_comm, Z.mod_add, Z.mod_mod by done.
  rewrite VMPageSize_pow in *. nia.
Qed.

(** Two virtual addresses with the same physical address are the same. *)
Lemma physical_inj pt ptr v w p : frames pt ptr ->
  physical (pTable pt) v = Some p -> physical (pTable pt) w = Some p -> v = w.
Proof.
  intros Hf Hv Hw.
  destruct (physical_range _ _ _ _ Hf Hv) as [_ Hmv]. destruct (physical_range _ _ _ _ Hf Hw) as [_ Hmw].
  unfold physical in *. destruct (pTable pt !! base v) as [e|] eqn:Ee; [|done].
  destruct (pTable pt !! base w) as [f|] eqn:Ef; [|done]. simpl in *. injection Hv as Hv. injection Hw as Hw.
  assert (base v = base w) as Hb.
  { apply (fr_inj _ _ Hf _ _ _ _ Ee Ef). rewrite VMPageSize_pow in *. nia. }
  rewrite (base_split v), (base_split w), Hb. congruence.
Qed.

(** ** The loops over pages *)

(** The state of the table and its system in a run: frames, and for as long as
    nothing was unmapped the cache too. *)
Lemma allocate_step pid size ptr pt v f ptr' : 0 <= size < 2 ^ 63 -> frames pt ptr -> page_addr v ->
  pTable pt !! v = None -> System.new_page LogVMPageSize size ptr = Ok (f, ptr') ->
  let e := E.new pid v f in
  let pt' := updateCache (set_table pt (<[v := e]> (pTable pt))) v e in
  frames pt' ptr' /\ (coherent pt -> coherent pt') /\ pTable pt' = <[v := e]> (pTable pt) /\
  pageSize pt' = VMPageSize /\ E.ppn e = ptr /\ ptr' = ptr + 1 /\ ptr * VMPageSize < size.
Proof.
  intros Hs Hf Hv Hnone Hn e pt'.
  destruct (new_page_ok size ptr f ptr' (fr_ptr _ _ Hf) Hs Hn) as (Ef & -> & Hlt & Hin).
  assert (E.ppn e = ptr) as Hp.
  { unfold e. rewrite Ef. apply ppn_new. split; [apply (fr_ptr _ _ Hf)|done]. }
  split_and!; [apply frames_cache, frames_insert; done| | | |done|done|lia].
  - intros Hc. apply coherent_cache; [by apply coherent_insert|]. simpl. by rewrite lookup_insert_eq.
  - unfold pt'. by rewrite updateCache_table.
  - unfold pt'. rewrite updateCache_size. apply (fr_size _ _ Hf).
Qed.

Lemma allocate_loop_inv pid size fuel : 0 <= size < 2 ^ 63 -> forall ptr pt v n pt' ptr',
  frames pt ptr -> page_addr v -> allocate_loop pid size fuel ptr pt v n = Ok (pt', ptr') ->
  frames pt' ptr' /\ (coherent pt -> coherent pt') /\
  (size mod VMPageSize = 0 -> ptr * VMPageSize <= size -> ptr' * VMPageSize <= size).
Proof.
  intros Hs. induction fuel as [|fuel IH]; intros ptr pt v n pt' ptr' Hf Hv; simpl.
  { destruct (n <=? 0); [by intros [= <- <-]|done]. }
  destruct (n <=? 0); [by intros [= <- <-]|].
  destruct (pTable pt !! v) eqn:Hnone; [done|]. intros H. apply res_bind_Ok in H as ([f p1] & Hn & H).
  destruct (allocate_step pid size ptr pt v f p1) as (Hf1 & Hc1 & _ & Hps & _ & -> & Hin); [done..|].
  rewrite Hps in H. apply IH in H as (Hf2 & Hc2 & Hm); [|done|by apply next_page]. split_and!; [done|auto|].
  intros Hz _. apply Hm; [done|]. pose proof (base_split size) as Hb. unfold base in Hb. rewrite Hz in Hb.
  rewrite VMPageSize_pow in *. nia.
Qed.

Lemma allocate_inv pid size ptr pt v n pt' ptr' : 0 <= size < 2 ^ 63 -> frames pt ptr -> 0 <= v < 2 ^ 64 ->
  allocate pid size ptr pt v n = Ok (pt', ptr') -> frames pt' ptr' /\ (coherent pt -> coherent pt') /\
  (size mod VMPageSize = 0 -> ptr * VMPageSize <= size -> ptr' * VMPageSize <= size).
Proof.
  intros Hs Hf Hv H. unfold allocate in H. apply res_bind_Ok in H as ([] & Ha & H).
  apply c_assert_Ok in Ha. rewrite (pageOffset_mod pt) in Ha by apply Hf. apply Z.eqb_eq in Ha.
  by eapply allocate_loop_inv.
Qed.

Lemma remap_loop_inv g fuel : forall ptr pt v n w pt', frames pt ptr -> page_addr v -> page_addr w -> v <> w ->
  remap_loop g fuel pt v n w = Ok pt' -> frames pt' ptr.
Proof.
  induction fuel as [|fuel IH]; intros ptr pt v n w pt' Hf Hv Hw Hne; simpl.
  { destruct (n <=? 0); [by intros [= <-]|done]. }
  destruct (n <=? 0); [by intros [= <-]|].
  destruct (pTable pt !! v) as [e|] eqn:He; [|done]. rewrite (fr_size _ _ Hf).
  apply IH; [by apply frames_move|by apply next_page|by apply next_page|].
  intros Heq. apply Hne. destruct Hv as [Hv _], Hw as [Hw _]. unfold uint in Heq. rewrite VMPageSize_pow in Heq.
  pose proof (Z.div_mod (v + 2 ^ 13) (2 ^ 64) ltac:(done)). pose proof (Z.div_mod (w + 2 ^ 13) (2 ^ 64) ltac:(done)).
  lia.
Qed.

Lemma remap_inv g ptr pt v n w pt' : frames pt ptr -> 0 <= v < 2 ^ 64 -> 0 <= w < 2 ^ 64 -> v <> w ->
  remap g pt v n w = Ok pt' -> frames pt' ptr.
Proof.
  intros Hf Hv Hw Hne H. unfold remap in H. apply res_bind_Ok in H as ([] & Ha & H).
  apply res_bind_Ok in H as ([] & Hb & H). apply c_assert_Ok in Ha, Hb.
  rewrite (pageOffset_mod pt) in Ha, Hb by apply Hf. apply Z.eqb_eq in Ha, Hb. by apply (remap_loop_inv g (page_fuel pt n) ptr pt v n w pt').
Qed.

Lemma deallocate_loop_inv fuel : forall ptr pt v n pt', frames pt ptr ->
  deallocate_loop fuel pt v n = Ok pt' -> frames pt' ptr /\ pTableCache pt' = pTableCache pt.
Proof.
  induction fuel as [|fuel IH]; intros ptr pt v n pt' Hf; simpl.
  { destruct (n <=? 0); [by intros [= <-]|done]. }
  destruct (n <=? 0); [by intros [= <-]|].
  destruct (pTable pt !! v) as [e|] eqn:He; [|done]. intros H.
  apply (IH ptr) in H; [done|]. by apply frames_delete.
Qed.

Lemma deallocate_inv ptr pt v n pt' : frames pt ptr -> deallocate pt v n = Ok pt' ->
  frames pt' ptr /\ pTableCache pt' = pTableCache pt.
Proof.
  intros Hf H. unfold deallocate in H. apply res_bind_Ok in H as ([] & _ & H). by eapply deallocate_loop_inv.
Qed.

Lemma deallocate_loop_none fuel : forall pt v n pt' w, pTable pt !! w = None ->
  deallocate_loop fuel pt v n = Ok pt' -> pTable pt' !! w = None.
Proof.
  induction fuel as [|fuel IH]; intros pt v n pt' w Hw; simpl.
  { destruct (n <=? 0); [by intros [= <-]|done]. }
  destruct (n <=? 0); [by intros [= <-]|].
  destruct (pTable pt !! v) as [e|] eqn:He; [|done]. apply IH. simpl. rewrite lookup_delete_None. by right.
Qed.

Lemma deallocate_unmaps pt v n pt' : 0 < n -> deallocate pt v n = Ok pt' -> pTable pt' !! v = None.
Proof.
  intros Hn H. unfold deallocate in H. apply res_bind_Ok in H as ([] & _ & H). unfold page_fuel in H. simpl in H.
  replace (n <=? 0) with false in H by lia. destruct (pTable pt !! v) as [e|]; [|done].
  eapply deallocate_loop_none; [|exact H]. simpl. apply lookup_delete_eq.
Qed.

Lemma lookup_inv ptr pt v r pt' : frames pt ptr -> lookup pt v = (r, pt') ->
  frames pt' ptr /\ pTable pt' = pTable pt /\ (coherent pt -> coherent pt').
Proof.
  intros Hf. unfold lookup. assert (forall e, pTable pt !! pageAlign pt v = Some e -> coherent pt ->
    coherent (updateCache pt (pageAlign pt v) e)) as Hc by (intros; by apply coherent_cache).
  destruct (pTableCache pt) as [[[v0 e0] [v1 e1]] [v2 e2]].
  repeat (destruct (_ =? _); [by intros [= <- <-]|]).
  destruct (pTable pt !! pageAlign pt v) as [e|]; intros [= <- <-]; [|done].
  split_and!; [by apply frames_cache|apply updateCache_table|by apply Hc].
Qed.

Lemma translate_lookup pt v r pt' : translate pt v = (r, pt') -> exists r', lookup pt v = (r', pt').
Proof. unfold translate. destruct (lookup pt v) as [[e|] q]; intros [= <- <-]; eauto. Qed.

Lemma new_table g0 g1 g2 : exists pt, new g0 g1 g2 VMPageSize = Ok pt /\ frames pt 0 /\ coherent pt /\
  pTable pt = ∅ /\ pTableCache pt = ((0, g0), (0, g1), (0, g2)).
Proof.
  eexists. split; [vm_compute; reflexivity|]. split_and!; [|unfold coherent; simpl; split_and!; by left|done|done].
  constructor; simpl; [done|done|lia| | |]; by intros ? ? ?.
Qed.

(** ** What the cache may still hold *)

(** The entry that the cache answers a page address with. *)
Definition cached (pt : t) (a : Z) : option E.t :=
  let '((v0, e0), (v1, e1), (v2, e2)) := pTableCache pt in
  if v0 =? a then Some e0 else if v1 =? a then Some e1 else if v2 =? a then Some e2 else None.

Lemma lookup_cached pt v : lookup pt v =
  match cached pt (pageAlign pt v), pTable pt !! pageAlign pt v with
  | Some e, _ => (Some e, pt)
  | None, Some e => (Some e, updateCache pt (pageAlign pt v) e)
  | None, None => (None, pt)
  end.
Proof.
  unfold lookup, cached. destruct (pTableCache pt) as [[[v0 e0] [v1 e1]] [v2 e2]].
  repeat (destruct (_ =? _); [done|]). by destruct (pTable pt !! pageAlign pt v).
Qed.

Lemma cached_update pt a e b f : cached (updateCache pt a e) b = Some f -> (b = a /\ f = e) \/ (b <> a /\ cached pt b = Some f).
Proof.
  unfold cached, updateCache. destruct (pTableCache pt) as [[[v0 e0] [v1 e1]] [v2 e2]]. simpl.
  destruct (Z.eqb_spec a b) as [->|Hne]; [intros [= ->]; by left|]. intros H. right. split; [congruence|].
  destruct (v0 =? b); [done|]. by destruct (v1 =? b).
Qed.

(** A page of the table is never answered with another entry; a page that is
    not in the table is answered only when [R] says so, or it is page 0. *)
Definition cache_ok (R : Z -> Prop) (pt : t) : Prop :=
  forall a f, cached pt a = Some f -> pTable pt !! a = Some f \/ (pTable pt !! a = None /\ (a = 0 \/ R a)).

Lemma cache_ok_insert R pt m a e : cache_ok R pt -> m !! a = Some e ->
  (forall b, b <> a -> m !! b = pTable pt !! b \/ (m !! b = None /\ R b)) ->
  cache_ok R (updateCache (set_table pt m) a e).
Proof.
  intros H Ha Hm b f Hb. rewrite updateCache_table. simpl.
  apply cached_update in Hb as [[-> ->]|[Hne Hc]]; [by left|]. destruct (Hm b Hne) as [->|[Hb HR]]; [by apply H|].
  right. split; [done|by right].
Qed.

Lemma cache_ok_delete R pt a : cache_ok R pt -> R a -> cache_ok R (set_table pt (delete a (pTable pt))).
Proof.
  intros H Ha b f Hb. simpl. destruct (decide (b = a)) as [->|Hne].
  - right. rewrite lookup_delete_eq. by split; [|right].
  - rewrite lookup_delete_ne by done. by apply H.
Qed.

Lemma cache_ok_lookup R pt v : cache_ok R pt -> cache_ok R (lookup pt v).2.
Proof.
  intros H. rewrite lookup_cached. destruct (cached pt _); [done|].
  destruct (pTable pt !! pageAlign pt v) as [e|] eqn:Ee; [|done]. simpl.
  intros b f Hb. rewrite updateCache_table. apply cached_update in Hb as [[-> ->]|[_ Hb]]; [by left|by apply H].
Qed.

(** ** Pages and their frames *)

(** The number of pages of [n] bytes, and their addresses from [v] on. *)
Definition npages (n : Z) : Z := if n <=? 0 then 0 else (n + VMPageSize - 1) / VMPageSize.

Lemma npages_next n : 0 < n -> npages n = npages (n - VMPageSize) + 1.
Proof.
  intros Hn. unfold npages. destruct (Z.leb_spec n 0); [lia|].
  destruct (Z.leb_spec (n - VMPageSize) 0).
  - symmetry. apply (Z.div_unique_pos _ _ _ (n - 1)); lia.
  - replace (n + VMPageSize - 1) with (n - VMPageSize + VMPageSize - 1 + 1 * VMPageSize) by lia.
    by rewrite Z.div_add by done.
Qed.

Lemma npages_nonneg n : 0 <= npages n.
Proof. unfold npages. destruct (Z.leb_spec n 0); [done|]. apply Z.div_pos; [|done]. rewrite VMPageSize_pow. lia. Qed.

Definition pages (v n : Z) : list Z := (fun i => uint 64 (v + i * VMPageSize)) <$> seqZ 0 (npages n).

Lemma pages_none v n : n <= 0 -> pages v n = [].
Proof. intros H. unfold pages, npages. by replace (n <=? 0) with true by lia. Qed.

Lemma pages_next v n : 0 <= v < 2 ^ 64 -> 0 < n < 2 ^ 63 ->
  pages v n = v :: pages (uint 64 (v + VMPageSize)) (sint 64 (n - VMPageSize)).
Proof.
  intros Hv Hn. unfold pages. rewrite (sint_small 64) by (try rewrite VMPageSize_pow; lia). rewrite (npages_next n) by lia.
  pose proof (npages_nonneg (n - VMPageSize)). rewrite seqZ_cons by lia.
  rewrite fmap_cons, Z.mul_0_l, Z.add_0_r, uint_small by done. f_equal.
  replace (Z.pred (npages (n - VMPageSize) + 1)) with (npages (n - VMPageSize)) by lia.
  change (Z.succ 0) with (1 + 0). rewrite <- fmap_add_seqZ, <- list_fmap_compose. apply list_fmap_ext. intros i x _. simpl. unfold uint.
  rewrite Zplus_mod_idemp_l. f_equal. lia.
Qed.

Lemma sint_bound n : sint 64 n < 2 ^ 63.
Proof. apply sint_range. lia. Qed.

(** What the loops do to the frames of the pages: new ones for [l], those of the
    first to the second page of each pair, none for [l]. *)
Fixpoint take_frames (m : gmap Z Z) (ptr : Z) (l : list Z) : gmap Z Z * Z :=
  match l with [] => (m, ptr) | a :: l => take_frames (<[a := ptr]> m) (ptr + 1) l end.
Fixpoint move_frames (m : gmap Z Z) (l : list (Z * Z)) : gmap Z Z :=
  match l with
  | [] => m
  | (a, b) :: l => move_frames (match m !! a with Some f => <[b := f]> (delete a m) | None => m end) l
  end.
Fixpoint drop_frames (m : gmap Z Z) (l : list Z) : gmap Z Z :=
  match l with [] => m | a :: l => drop_frames (delete a m) l end.
Definition frames_of (pt : t) : gmap Z Z := E.ppn <$> pTable pt.

Lemma allocate_loop_frames R pid size fuel : 0 <= size < 2 ^ 63 -> forall ptr pt v n pt' ptr',
  frames pt ptr -> page_addr v -> n < 2 ^ 63 -> cache_ok R pt ->
  allocate_loop pid size fuel ptr pt v n = Ok (pt', ptr') ->
  cache_ok R pt' /\ take_frames (frames_of pt) ptr (pages v n) = (frames_of pt', ptr').
Proof.
  intros Hs. induction fuel as [|fuel IH]; intros ptr pt v n pt' ptr' Hf Hv Hn Hc; simpl.
  { destruct (Z.leb_spec n 0); [|done]. intros [= <- <-]. by rewrite pages_none. }
  destruct (Z.leb_spec n 0); [intros [= <- <-]; by rewrite pages_none|].
  destruct (pTable pt !! v) eqn:Hnone; [done|]. intros H1. apply res_bind_Ok in H1 as ([f p1] & Hnp & H1).
  destruct (allocate_step pid size ptr pt v f p1) as (Hf1 & _ & Ht1 & Hps & Hppn & -> & _); [done..|].
  assert (cache_ok R (updateCache (set_table pt (<[v := E.new pid v f]> (pTable pt))) v (E.new pid v f))) as Hc1.
  { apply cache_ok_insert; [done|by rewrite lookup_insert_eq|]. intros b Hb. left. by rewrite lookup_insert_ne. }
  set (pt1 := updateCache _ _ _) in *. rewrite Hps in H1.
  apply IH in H1 as [Hc2 E2]; [|done|by apply next_page|apply sint_bound|done]. split; [done|].
  destruct Hv as [Hv _]. rewrite pages_next by lia. simpl. rewrite <- E2. f_equal.
  unfold frames_of. by rewrite Ht1, fmap_insert, Hppn.
Qed.

Lemma remap_loop_frames (R : Z -> Prop) g fuel : forall ptr pt v n w pt', frames pt ptr -> page_addr v -> page_addr w -> v <> w ->
  n < 2 ^ 63 -> cache_ok R pt -> (forall a, a ∈ pages v n -> R a) -> remap_loop g fuel pt v n w = Ok pt' ->
  cache_ok R pt' /\ frames_of pt' = move_frames (frames_of pt) (zip (pages v n) (pages w n)).
Proof.
  induction fuel as [|fuel IH]; intros ptr pt v n w pt' Hf Hv Hw Hne Hn Hc HR; simpl.
  { destruct (Z.leb_spec n 0); [|done]. intros [= <-]. by rewrite pages_none. }
  destruct (Z.leb_spec n 0); [intros [= <-]; by rewrite pages_none|].
  destruct (pTable pt !! v) as [e|] eqn:He; [|done]. rewrite (fr_size _ _ Hf). intros H1.
  pose proof (proj1 Hv) as Hv1. pose proof (proj1 Hw) as Hw1.
  rewrite (pages_next v), (pages_next w) by lia. rewrite (pages_next v) in HR by lia.
  apply (IH ptr) in H1 as [Hc2 E2].
  - split; [done|]. rewrite E2. simpl. f_equal. unfold move_page, frames_of. rewrite updateCache_table. simpl.
    rewrite lookup_delete_ne, lookup_insert_eq by done. simpl.
    rewrite lookup_fmap, He. simpl. rewrite fmap_insert, fmap_delete, fmap_insert, !delete_insert_ne, insert_insert_eq by done. done.
  - by apply frames_move.
  - by apply next_page.
  - by apply next_page.
  - intros Heq. apply Hne. unfold uint in Heq. rewrite VMPageSize_pow in Heq.
    pose proof (Z.div_mod (v + 2 ^ 13) (2 ^ 64) ltac:(done)). pose proof (Z.div_mod (w + 2 ^ 13) (2 ^ 64) ltac:(done)). lia.
  - apply sint_bound.
  - unfold move_page. apply cache_ok_insert; [done|apply lookup_insert_eq|]. intros b Hb. rewrite lookup_insert_ne by done.
    destruct (decide (b = v)) as [->|Hbv]; [right; split; [apply lookup_delete_eq|apply HR; set_solver]|left].
    by rewrite lookup_delete_ne, lookup_insert_ne.
  - intros a Ha. apply HR. set_solver.
Qed.

Lemma deallocate_loop_frames (R : Z -> Prop) fuel : forall ptr pt v n pt', frames pt ptr -> page_addr v -> n < 2 ^ 63 ->
  cache_ok R pt -> (forall a, a ∈ pages v n -> R a) -> deallocate_loop fuel pt v n = Ok pt' ->
  cache_ok R pt' /\ frames_of pt' = drop_frames (frames_of pt) (pages v n).
Proof.
  induction fuel as [|fuel IH]; intros ptr pt v n pt' Hf Hv Hn Hc HR; simpl.
  { destruct (Z.leb_spec n 0); [|done]. intros [= <-]. by rewrite pages_none. }
  destruct (Z.leb_spec n 0); [intros [= <-]; by rewrite pages_none|].
  destruct (pTable pt !! v) as [e|] eqn:He; [|done]. rewrite (fr_size _ _ Hf). intros H1.
  pose proof (proj1 Hv) as Hv1. rewrite (pages_next v) by lia. rewrite (pages_next v) in HR by lia.
  apply (IH ptr) in H1 as [Hc2 E2].
  - split; [done|]. rewrite E2. simpl. f_equal. unfold frames_of. simpl. by rewrite fmap_delete.
  - by apply frames_delete.
  - by apply next_page.
  - apply sint_bound.
  - apply cache_ok_delete; [done|]. apply HR. set_solver.
  - intros a Ha. apply HR. set_solver.
Qed.

(** The translation of a page of the table, and of any other. *)
Lemma translate_cached R pt ptr v : frames pt ptr -> cache_ok R pt -> 0 <= v < 2 ^ 64 ->
  match frames_of pt !! base v with
  | Some f => (translate pt v).1 = Some (f * VMPageSize + v mod VMPageSize)
  | None => base v = 0 \/ R (base v) \/ (translate pt v).1 = None
  end.
Proof.
  intros Hf Hc Hv. unfold translate. rewrite lookup_cached, pageAlign_base by (done || apply Hf).
  unfold frames_of. rewrite lookup_fmap. destruct (pTable pt !! base v) as [e|] eqn:Ee; simpl.
  - assert (forall q, offsetMask q = VMPageSize - 1 ->
      uint 64 (pageOffset q v + E.pageStart e) = E.ppn e * VMPageSize + v mod VMPageSize) as Hp.
    { intros q Hq. pose proof (fr_frame _ _ Hf _ _ Ee). pose proof (fr_ptr _ _ Hf).
      rewrite (pageOffset_mod q) by done. rewrite page_start by lia.
      pose proof (Z.mod_pos_bound v VMPageSize ltac:(done)). rewrite VMPageSize_pow in *. rewrite uint_small by lia. lia. }
    destruct (cached pt (base v)) as [f|] eqn:Ec.
    + destruct (Hc _ _ Ec) as [E1|[E1 _]]; [|congruence]. assert (f = e) as -> by congruence. simpl. f_equal. apply Hp, Hf.
    + simpl. f_equal. apply Hp. apply (frames_cache pt ptr (base v) e) in Hf. apply Hf.
  - destruct (cached pt (base v)) as [f|] eqn:Ec; [|by right; right].
    destruct (Hc _ _ Ec) as [E1|[_ [H0|HR]]]; [congruence|by left|by right; left].
Qed.

(** ** Allocation, in full *)
Lemma allocate_loop_total pid size fuel : 0 <= size < 2 ^ 63 -> forall ptr pt v n,
  frames pt ptr -> page_addr v -> n < 2 ^ 63 -> npages n <= Z.of_nat fuel ->
  ptr + npages n <= 2 ^ 18 -> (ptr + npages n) * VMPageSize <= size -> v + npages n * VMPageSize < 2 ^ 64 ->
  (forall i, 0 <= i < npages n -> pTable pt !! (v + i * VMPageSize) = None) ->
  exists pt', allocate_loop pid size fuel ptr pt v n = Ok (pt', ptr + npages n) /\
    (forall i, 0 <= i < npages n ->
       pTable pt' !! (v + i * VMPageSize) = Some (E.new pid (v + i * VMPageSize) ((ptr + i) * VMPageSize))) /\
    (forall w, (forall i, 0 <= i < npages n -> w <> v + i * VMPageSize) -> pTable pt' !! w = pTable pt !! w).
Proof.
  intros Hs. assert (VMPageSize = 8192) as HV by reflexivity.
  induction fuel as [|fuel IH]; intros ptr pt v n Hf Hv Hn Hfuel Hptr Hsz Hend Hfree.
  { assert (n <= 0) by (destruct (decide (n <= 0)); [done|]; pose proof (npages_next n);
      pose proof (npages_nonneg (n - VMPageSize)); lia).
    simpl. unfold npages in *. replace (n <=? 0) with true in * by lia. rewrite Z.add_0_r.
    exists pt. split_and!; [done| |done]. lia. }
  simpl. destruct (Z.leb_spec n 0).
  { unfold npages in *. replace (n <=? 0) with true in * by lia. rewrite Z.add_0_r.
    exists pt. split_and!; [done| |done]. lia. }
  pose proof (npages_next n ltac:(done)) as Hstep. pose proof (npages_nonneg (n - VMPageSize)) as Hnn.
  assert (pTable pt !! v = None) as Hnone by (rewrite <- (Hfree 0) by lia; f_equal; lia).
  rewrite Hnone. pose proof (fr_ptr _ _ Hf).
  pose proof (new_page_total size ptr ltac:(lia) ltac:(lia)) as Hnp. rewrite Hnp. bind_step.
  destruct (allocate_step pid size ptr pt v (ptr * VMPageSize) (ptr + 1)) as (Hf1 & _ & Ht1 & Hps & _); [done..|].
  set (pt1 := updateCache _ _ _) in *. rewrite Hps.
  assert (uint 64 (v + VMPageSize) = v + VMPageSize) as Hu by (apply uint_small; destruct Hv; lia).
  rewrite Hu, (sint_small 64) by lia.
  destruct (IH (ptr + 1) pt1 (v + VMPageSize) (n - VMPageSize)) as (pt' & E1 & Hnew & Hold);
    [done|rewrite <- Hu; by apply next_page|lia|lia|lia|lia|lia| |].
  { intros i Hi. rewrite Ht1, lookup_insert_ne by lia. rewrite <- (Hfree (i + 1)) by lia. f_equal. lia. }
  exists pt'. split_and!.
  - rewrite E1. do 2 f_equal. lia.
  - intros i Hi. destruct (decide (i = 0)) as [->|Hi0].
    + rewrite Z.mul_0_l, !Z.add_0_r. rewrite Hold by (intros; lia). by rewrite Ht1, lookup_insert_eq.
    + specialize (Hnew (i - 1) ltac:(lia)).
      replace (v + VMPageSize + (i - 1) * VMPageSize) with (v + i * VMPageSize) in Hnew by lia.
      rewrite Hnew. do 2 f_equal. lia.
  - intros w Hw. rewrite Hold.
    + rewrite Ht1, lookup_insert_ne; [done|]. specialize (Hw 0 ltac:(lia)). lia.
    + intros i Hi. specialize (Hw (i + 1) ltac:(lia)). lia.
Qed.

Lemma page_fuel_enough pt n : pageSize pt = VMPageSize -> npages n <= Z.of_nat (page_fuel pt n).
Proof.
  intros E. unfold page_fuel, npages. rewrite E. destruct (Z.leb_spec n 0); [lia|].
  assert ((n + VMPageSize - 1) / VMPageSize <= n / VMPageSize + 1); [|assert (0 <= n / VMPageSize) by (apply Z.div_pos; [lia|done]); lia].
  rewrite <- Z.div_add by done. apply Z.div_le_mono; [done|lia].
Qed.

Lemma allocate_total pid size ptr pt v n : 0 <= size < 2 ^ 63 -> frames pt ptr -> page_addr v -> n < 2 ^ 63 ->
  ptr + npages n <= 2 ^ 18 -> (ptr + npages n) * VMPageSize <= size -> v + npages n * VMPageSize < 2 ^ 64 ->
  (forall i, 0 <= i < npages n -> pTable pt !! (v + i * VMPageSize) = None) ->
  exists pt', allocate pid size ptr pt v n = Ok (pt', ptr + npages n) /\
    (forall i, 0 <= i < npages n ->
       pTable pt' !! (v + i * VMPageSize) = Some (E.new pid (v + i * VMPageSize) ((ptr + i) * VMPageSize))) /\
    (forall w, (forall i, 0 <= i < npages n -> w <> v + i * VMPageSize) -> pTable pt' !! w = pTable pt !! w).
Proof.
  intros Hs Hf Hv Hn H1 H2 H3 H4. unfold allocate. rewrite (pageOffset_mod pt) by apply Hf.
  destruct (Hv) as [_ ->]. cbn [Z.eqb c_assert]. bind_step.
  by apply allocate_loop_total; try done; apply page_fuel_enough, Hf.
Qed.
End PageTableProof.
