(* ===== verification/PageTableTheorems.v ===== *)
(** * Theorems about the page table

    Isolation of pages, agreement of the cached lookup with the table, where
    that agreement is lost, and the handling of a TLB miss. *)
From S2P Require Import Prelude EventQueue IntMath Request Packet PhysMem AlphaTLB AlphaTLBProof PageTable PageTableProof.
Import PageTable PageTableProof.

(** ** Runs *)
Inductive pt_op :=
| Allocate (vaddr size : Z)
| Remap (vaddr size new_vaddr : Z)
| Deallocate (vaddr size : Z)
| Translate (vaddr : Z).

(** The arguments are 64-bit addresses and sizes, and a page is moved somewhere
    else. *)
Definition op_ok (o : pt_op) : Prop :=
  match o with
  | Allocate v n | Deallocate v n => 0 <= v < 2 ^ 64 /\ n < 2 ^ 63
  | Remap v n w => 0 <= v < 2 ^ 64 /\ 0 <= w < 2 ^ 64 /\ v <> w /\ n < 2 ^ 63
  | Translate v => 0 <= v < 2 ^ 64
  end.
Definition op_keeps (o : pt_op) : Prop :=
  match o with Allocate _ _ | Translate _ => True | _ => False end.

Section run.
Context (pid size : Z) (g : TlbEntry.t).

Definition pt_exec (s : t * Z) (o : pt_op) : res (t * Z) :=
  match o with
  | Allocate v n => allocate pid size s.2 s.1 v n
  | Remap v n w => pt ← remap g s.1 v n w; Ok (pt, s.2)
  | Deallocate v n => pt ← deallocate s.1 v n; Ok (pt, s.2)
  | Translate v => Ok ((translate s.1 v).2, s.2)
  end.
Fixpoint pt_run (s : t * Z) (ops : list pt_op) : res (t * Z) :=
  match ops with
  | [] => Ok s
  | o :: ops => s ← pt_exec s o; pt_run s ops
  end.

Lemma pt_exec_inv s o s' : 0 <= size < 2 ^ 63 -> size mod VMPageSize = 0 -> frames s.1 s.2 ->
  s.2 * VMPageSize <= size -> op_ok o -> pt_exec s o = Ok s' ->
  frames s'.1 s'.2 /\ s'.2 * VMPageSize <= size /\ (op_keeps o -> coherent s.1 -> coherent s'.1).
Proof.
  intros Hs Hm Hf Hin Ho. destruct s as [pt ptr], o as [v n|v n w|v n|v]; simpl in *.
  - destruct s' as [pt' ptr']. destruct Ho as [Ho _]. intros H. apply allocate_inv in H as (Hf' & Hc & Hi); [|done..]. auto.
  - intros H. inv_res. destruct Ho as (Hv & Hw & Hne & _). simpl. split_and!; [by apply (remap_inv g ptr pt v n w)|done|done].
  - intros H. inv_res. simpl. split_and!; [by apply (deallocate_inv ptr pt v n)|done|done].
  - intros [= <-]. destruct (translate pt v) as [r pt'] eqn:Et. apply translate_lookup in Et as [r' El].
    destruct (lookup_inv ptr pt v r' pt' Hf El) as (Hf' & _ & Hc). simpl. auto.
Qed.

Lemma pt_run_inv s ops s' : 0 <= size < 2 ^ 63 -> size mod VMPageSize = 0 -> frames s.1 s.2 ->
  s.2 * VMPageSize <= size -> Forall op_ok ops -> pt_run s ops = Ok s' ->
  frames s'.1 s'.2 /\ s'.2 * VMPageSize <= size /\ (Forall op_keeps ops -> coherent s.1 -> coherent s'.1).
Proof.
  intros Hs Hm. revert s. induction ops as [|o ops IH]; intros s Hf Hin Hok; simpl.
  { by intros [= <-]. }
  apply Forall_cons in Hok as [Ho Hok]. intros H. apply res_bind_Ok in H as (s1 & H1 & H).
  apply pt_exec_inv in H1 as (Hf1 & Hin1 & Hc1); [|done..].
  apply IH in H as (Hf2 & Hin2 & Hc2); [|done..]. split_and!; [done..|].
  intros [Hk Hks]%Forall_cons Hc. auto.
Qed.

(** The frames that the process's pages should have, and the system's next one:
    a new page gets the next frame, a moved one keeps its frame. *)
Definition spec_exec (s : gmap Z Z * Z) (o : pt_op) : gmap Z Z * Z :=
  match o with
  | Allocate v n => take_frames s.1 s.2 (pages v n)
  | Remap v n w => (move_frames s.1 (zip (pages v n) (pages w n)), s.2)
  | Deallocate v n => (drop_frames s.1 (pages v n), s.2)
  | Translate _ => s
  end.
Definition spec_run (s : gmap Z Z * Z) (ops : list pt_op) : gmap Z Z * Z := foldl spec_exec s ops.

(** The pages that were moved away or freed. *)
Definition released_by (o : pt_op) : list Z :=
  match o with Remap v n _ | Deallocate v n => pages v n | _ => [] end.
Definition released (ops : list pt_op) (a : Z) : Prop := exists o, o ∈ ops /\ a ∈ released_by o.

Lemma page_start_ok pt ptr v b : frames pt ptr -> 0 <= v < 2 ^ 64 -> c_assert (pageOffset pt v =? 0) = Ok b -> page_addr v.
Proof.
  intros Hf Hv Ha%c_assert_Ok. rewrite (pageOffset_mod pt) in Ha by apply Hf. apply Z.eqb_eq in Ha. done.
Qed.

Lemma pt_exec_frames (R : Z -> Prop) s o s' : 0 <= size < 2 ^ 63 -> frames s.1 s.2 -> cache_ok R s.1 -> op_ok o ->
  (forall a, a ∈ released_by o -> R a) -> pt_exec s o = Ok s' ->
  cache_ok R s'.1 /\ spec_exec (frames_of s.1, s.2) o = (frames_of s'.1, s'.2).
Proof.
  intros Hs Hf Hc Ho HR. destruct s as [pt ptr], o as [v n|v n w|v n|v]; simpl in *.
  - destruct s' as [pt' ptr'], Ho as [Hv Hn]. intros H. apply res_bind_Ok in H as ([] & Ha & H).
    by apply (allocate_loop_frames R) in H; [|done..|by eapply page_start_ok|done|done].
  - destruct Ho as (Hv & Hw & Hne & Hn). intros H. inv_res. match goal with H : remap _ _ _ _ _ = _ |- _ => rename H into Hr end.
    apply res_bind_Ok in Hr as ([] & Ha & Hr). apply res_bind_Ok in Hr as ([] & Hb & Hr).
    apply (remap_loop_frames R g _ ptr) in Hr as [Hc' E]; [|done|by eapply page_start_ok|by eapply page_start_ok|done..].
    simpl. by rewrite E.
  - destruct Ho as [Hv Hn]. intros H. inv_res. match goal with H : deallocate _ _ _ = _ |- _ => rename H into Hr end.
    apply res_bind_Ok in Hr as ([] & Ha & Hr).
    apply (deallocate_loop_frames R _ ptr) in Hr as [Hc' E]; [|done|by eapply page_start_ok|done..]. simpl. by rewrite E.
  - intros [= <-]. destruct (translate pt v) as [r pt'] eqn:Et. apply translate_lookup in Et as [r' El]. simpl.
    pose proof (cache_ok_lookup R pt v Hc) as Hc'. rewrite El in Hc'. split; [done|].
    destruct (lookup_inv ptr pt v r' pt' Hf El) as (_ & Ht & _). unfold frames_of. by rewrite Ht.
Qed.

Lemma pt_run_frames (R : Z -> Prop) ops : 0 <= size < 2 ^ 63 -> size mod VMPageSize = 0 -> forall s s', frames s.1 s.2 ->
  s.2 * VMPageSize <= size -> cache_ok R s.1 -> Forall op_ok ops -> (forall a, released ops a -> R a) -> pt_run s ops = Ok s' ->
  cache_ok R s'.1 /\ spec_run (frames_of s.1, s.2) ops = (frames_of s'.1, s'.2).
Proof.
  intros Hs Hm. induction ops as [|o ops IH]; intros s s' Hf Hin Hc Hok HR; simpl; [by intros [= <-]|].
  apply Forall_cons in Hok as [Ho Hok]. intros H. apply res_bind_Ok in H as (s1 & H1 & H).
  destruct (pt_exec_inv s o s1) as (Hf1 & Hin1 & _); [done..|].
  apply (pt_exec_frames R) in H1 as [Hc1 E1]; [|done..|].
  2:{ intros a Ha. apply HR. exists o. split; [set_solver|done]. }
  apply IH in H as [Hc2 E2]; [|done..|].
  2:{ intros a (o' & Ho' & Ha). apply HR. exists o'. split; [set_solver|done]. }
  split; [done|]. by rewrite E1.
Qed.
End run.

(** C37. However a process allocates, moves, frees and translates pages: the
    translation of an address whose page is mapped, after the calls that were
    made, is the byte of the page's frame, through the cache or not, it lies
    inside the memory, and no other address of a mapped page translates to it.
    An address whose page is not mapped does not translate, unless the page was
    freed or moved away (where the cache may still answer,
    [moved_page_shared]) or is page 0 ([null_page_translates]). *)
Theorem pages_isolated pid size g g0 g1 g2 ops pt0 pt ptr v :
  0 <= size < 2 ^ 63 -> size mod VMPageSize = 0 -> Forall op_ok ops ->
  new g0 g1 g2 VMPageSize = Ok pt0 -> pt_run pid size g (pt0, 0) ops = Ok (pt, ptr) -> 0 <= v < 2 ^ 64 ->
  let frame := (spec_run (∅, 0) ops).1 in
  match frame !! base v with
  | Some f => let p := f * VMPageSize + v mod VMPageSize in
      (translate pt v).1 = Some p /\ 0 <= p < size /\
      forall w, 0 <= w < 2 ^ 64 -> is_Some (frame !! base w) -> (translate pt w).1 = Some p -> w = v
  | None => VMPageSize <= v -> ~ released ops (base v) -> (translate pt v).1 = None
  end.
Proof.
  intros Hs Hm Hok Hn Hr Hv frame. destruct (new_table g0 g1 g2) as (q & Hq & Hf & _ & Ht & Ec). rewrite Hn in Hq. injection Hq as <-.
  destruct (pt_run_inv pid size g (pt0, 0) ops (pt, ptr)) as (Hf' & Hin & _); [done|done|done|simpl; lia|done|done|].
  destruct (pt_run_frames pid size g (released ops) ops Hs Hm (pt0, 0) (pt, ptr)) as [Hc E]; [done|simpl; lia| |done|done|done|].
  { intros a f. simpl. unfold cached. rewrite Ec, Ht. intros Ha. right. split; [done|]. left.
    by destruct (Z.eqb_spec 0 a). }
  simpl in *. unfold frames_of at 1 in E. rewrite Ht, fmap_empty in E. unfold frame. rewrite E. simpl.
  pose proof (fun w Hw => translate_cached _ pt ptr w Hf' Hc Hw) as Htr.
  destruct (frames_of pt !! base v) as [f|] eqn:Ef.
  - assert (physical (pTable pt) v = Some (f * VMPageSize + v mod VMPageSize)) as Hp.
    { unfold frames_of in Ef. rewrite lookup_fmap in Ef. unfold physical. destruct (pTable pt !! base v); [|done].
      injection Ef as <-. done. }
    destruct (physical_range pt ptr v _ Hf' Hp) as [Hrange _]. specialize (Htr v Hv) as Hv'. rewrite Ef in Hv'.
    split; [done|]. split; [lia|]. intros w Hw [h Hh] Htw. specialize (Htr w Hw). rewrite Hh in Htr.
    apply (physical_inj pt ptr w v (f * VMPageSize + v mod VMPageSize) Hf'); [|exact Hp]. unfold frames_of in Hh. rewrite lookup_fmap in Hh. unfold physical.
    destruct (pTable pt !! base w); [|done]. injection Hh as <-. simpl. congruence.
  - intros Hnz Hrel. specialize (Htr v Hv). rewrite Ef in Htr. destruct Htr as [H0|[?|?]]; [|done..].
    exfalso. pose proof (base_split v). pose proof (Z.mod_pos_bound v VMPageSize ltac:(done)). lia.
Qed.

Definition demo_g : TlbEntry.t := TlbEntry.zero.
Definition demo_ops : list pt_op :=
  [Allocate 0x10000 0x3000; Translate 0x10008; Remap 0x10000 0x2000 0x40000; Deallocate 0x12000 0x2000; Allocate 0x10000 1].

(** The moved page keeps frame 0, the page at its old address has frame 2. *)
Lemma pages_isolated_witness : exists pt0 pt, new demo_g demo_g demo_g VMPageSize = Ok pt0 /\
  pt_run 100 0x100000 demo_g (pt0, 0) demo_ops = Ok (pt, 3) /\
  (translate pt 0x40010).1 = Some 0x10 /\ (translate pt 0x10010).1 = Some 0x4010 /\ (translate pt 0x50000).1 = None /\
  forall w, 0 <= w < 2 ^ 64 -> is_Some ((spec_run (∅, 0) demo_ops).1 !! base w) -> (translate pt w).1 = Some 0x10 -> w = 0x40010.
Proof.
  eexists _, _. split; [vm_compute; reflexivity|]. split; [vm_compute; reflexivity|].
  assert (Forall op_ok demo_ops) as Hok by (unfold demo_ops; repeat constructor; simpl; lia).
  pose proof (fun v => pages_isolated 100 0x100000 demo_g demo_g demo_g demo_g demo_ops _ _ 3 v ltac:(done) eq_refl Hok
    ltac:(vm_compute; reflexivity) ltac:(vm_compute; reflexivity)) as H.
  pose proof (H 0x40010 ltac:(done)) as H1. pose proof (H 0x10010 ltac:(done)) as H2.
  split; [exact (proj1 H1)|]. split; [exact (proj1 H2)|]. split; [vm_compute; reflexivity|].
  exact (proj2 (proj2 H1)).
Defined.

(** One page: the loops go round once. *)
Lemma allocate_loop_one pid size fuel ptr pt v n r : 0 < n <= VMPageSize -> pageSize pt = VMPageSize ->
  allocate_loop pid size (S fuel) ptr pt v n = Ok r -> exists f ptr', System.new_page LogVMPageSize size ptr = Ok (f, ptr') /\
    pTable pt !! v = None /\ let e := TlbEntry.new pid v f in r = (updateCache (set_table pt (<[v := e]> (pTable pt))) v e, ptr').
Proof.
  intros Hn Hp H. simpl in H. replace (n <=? 0) with false in H by lia. destruct (pTable pt !! v); [done|].
  apply res_bind_Ok in H as ([f ptr'] & Hnp & H). exists f, ptr'. split; [done|]. split; [done|]. rewrite updateCache_size in H. simpl in H.
  rewrite Hp, (sint_small 64) in H by (rewrite VMPageSize_pow in *; lia).
  destruct fuel; simpl in H; replace (n - VMPageSize <=? 0) with true in H by lia; by injection H as <-.
Qed.

Lemma remap_loop_one g fuel pt v n w r : 0 < n <= VMPageSize -> pageSize pt = VMPageSize ->
  remap_loop g (S fuel) pt v n w = Ok r -> exists e, pTable pt !! v = Some e /\ r = move_page g pt v w e.
Proof.
  intros Hn Hp H. simpl in H. replace (n <=? 0) with false in H by lia. destruct (pTable pt !! v) as [e|]; [|done].
  exists e. split; [done|]. rewrite Hp, (sint_small 64) in H by (rewrite VMPageSize_pow in *; lia).
  destruct fuel; simpl in H; replace (n - VMPageSize <=? 0) with true in H by lia; by injection H as <-.
Qed.

(** A page that was just allocated and then moved is reached at both addresses:
    moving it leaves its old translation in the cache. *)
Theorem moved_page_shared pid size g pt ptr v w n pt1 ptr1 pt2 a : 0 <= size < 2 ^ 63 -> frames pt ptr ->
  0 <= v < 2 ^ 64 -> 0 <= w < 2 ^ 64 -> v <> w -> 0 < n <= VMPageSize -> 0 <= a < VMPageSize ->
  allocate pid size ptr pt v n = Ok (pt1, ptr1) -> remap g pt1 v n w = Ok pt2 ->
  pTable pt2 !! v = None /\ (translate pt2 (v + a)).1 = (translate pt2 (w + a)).1 /\
  (translate pt2 (w + a)).1 = Some (ptr * VMPageSize + a).
Proof.
  intros Hs Hf Hv Hw Hne Hn Ha H1 H2. pose proof (allocate_inv _ _ _ _ _ _ _ _ Hs Hf Hv H1) as (Hf1 & _ & _).
  apply res_bind_Ok in H1 as ([] & Hav & H1). pose proof (page_start_ok _ _ _ _ Hf Hv Hav) as Hpv.
  apply res_bind_Ok in H2 as ([] & _ & H2). apply res_bind_Ok in H2 as ([] & Haw & H2).
  pose proof (page_start_ok _ _ _ _ Hf1 Hw Haw) as Hpw.
  apply allocate_loop_one in H1 as (f & p1 & Hnp & Hnone & E1); [|done|apply Hf].
  apply remap_loop_one in H2 as (e & He & ->); [|done|apply Hf1].
  pose proof (frames_move g pt1 ptr1 v w e Hf1 Hpw Hne He) as Hf2.
  destruct (new_page_ok size ptr f p1 (fr_ptr _ _ Hf) Hs Hnp) as (-> & -> & Hlt & _).
  set (e0 := TlbEntry.new pid v (ptr * VMPageSize)) in E1. injection E1 as -> ->.
  assert (e = e0) as -> by (rewrite updateCache_table in He; simpl in He; rewrite lookup_insert_eq in He; congruence).
  pose proof (ppn_new pid v ptr (conj (proj1 (fr_ptr _ _ Hf)) Hlt)) as Hppn. fold e0 in Hppn.
  set (pt2 := move_page g _ v w e0) in *.
  assert (cached pt2 w = Some (TlbEntry.updateVaddr e0 w) /\ cached pt2 v = Some e0 /\ pTable pt2 !! v = None) as (Cw & Cv & Tv).
  { unfold pt2, move_page. rewrite !updateCache_table. simpl. rewrite lookup_delete_ne, lookup_insert_eq by done. simpl.
    unfold cached, updateCache. simpl. destruct (pTableCache pt) as [[[x0 y0] c1] c2]. simpl. rewrite !Z.eqb_refl.
    replace (w =? v) with false by lia. split_and!; [done..|]. by rewrite lookup_insert_ne, lookup_delete_eq. }
  split; [done|].
  assert (forall u e, page_addr u -> cached pt2 u = Some e -> TlbEntry.ppn e = ptr -> (translate pt2 (u + a)).1 = Some (ptr * VMPageSize + a)) as Htr.
  { intros u e [Hu Hm] Hc He'. pose proof (Z.div_mod u VMPageSize ltac:(done)) as Hd. pose proof (fr_ptr _ _ Hf) as Hptr.
    assert (u + a < 2 ^ 64) as Hua by (rewrite VMPageSize_pow in *; lia).
    assert (base (u + a) = u) as Hb.
    { unfold base. replace (u + a) with (a + u / VMPageSize * VMPageSize) by lia. rewrite Z.div_add, Z.div_small by (done || lia). lia. }
    unfold translate. rewrite lookup_cached, (pageAlign_base pt2), Hb, Hc by (apply Hf2 || lia). simpl. f_equal.
    rewrite (pageOffset_mod pt2) by apply Hf2. rewrite page_start by lia. rewrite He'.
    replace (u + a) with (a + u / VMPageSize * VMPageSize) by lia. rewrite Z.mod_add, Z.mod_small by (done || lia).
    rewrite VMPageSize_pow in *. rewrite uint_small by lia. lia. }
  rewrite (Htr v e0), (Htr w (TlbEntry.updateVaddr e0 w)) by done. done.
Qed.

(** A table with one page, in frame 0. *)
Definition demo_pt0 : t :=
  mk {[ 0x20000 := TlbEntry.new 100 0x20000 0 ]} ((0, demo_g), (0, demo_g), (0, demo_g)) 8192 8191.

Lemma frames_demo0 : frames demo_pt0 1.
Proof.
  constructor; simpl; [done|done|lia| | |].
  - intros v e [<- <-]%lookup_singleton_Some. split; [|done]. by split.
  - intros v e [<- <-]%lookup_singleton_Some. vm_compute. split; [discriminate|reflexivity].
  - intros v w e f [<- <-]%lookup_singleton_Some [<- <-]%lookup_singleton_Some _. done.
Qed.

Lemma moved_page_shared_witness : exists pt1 pt2, allocate 100 0x100000 1 demo_pt0 0x10000 0x2000 = Ok (pt1, 2) /\
  remap demo_g pt1 0x10000 0x2000 0x40000 = Ok pt2 /\ (translate pt2 0x10008).1 = Some 0x2008 /\ (translate pt2 0x40008).1 = Some 0x2008.
Proof.
  destruct (allocate 100 0x100000 1 demo_pt0 0x10000 0x2000) as [[pt1 i]|] eqn:E1; [|vm_compute in E1; discriminate].
  assert (i = 2) as -> by (vm_compute in E1; congruence).
  destruct (remap demo_g pt1 0x10000 0x2000 0x40000) as [pt2|] eqn:E2;
    [|vm_compute in E1; injection E1 as <-; vm_compute in E2; discriminate].
  exists pt1, pt2. split; [reflexivity|]. split; [exact E2|].
  destruct (moved_page_shared 100 0x100000 demo_g demo_pt0 1 0x10000 0x40000 0x2000 pt1 2 pt2 8 ltac:(done) frames_demo0
    ltac:(done) ltac:(done) ltac:(done) ltac:(done) ltac:(done) E1 E2) as (_ & H1 & H2).
  split; [exact (eq_trans H1 H2)|exact H2].
Defined.

(** ** The cache *)

(** As long as pages are only allocated, the lookup through the three-entry
    cache gives exactly what the table gives, for every address outside page
    0, and translation gives the frame with the offset. *)
Theorem cached_lookup_exact pid size g g0 g1 g2 ops pt0 pt ptr v :
  0 <= size < 2 ^ 63 -> size mod VMPageSize = 0 -> Forall op_ok ops -> Forall op_keeps ops ->
  new g0 g1 g2 VMPageSize = Ok pt0 -> pt_run pid size g (pt0, 0) ops = Ok (pt, ptr) ->
  VMPageSize <= v < 2 ^ 64 ->
  (lookup pt v).1 = pTable pt !! (v / VMPageSize * VMPageSize) /\
  (translate pt v).1 = option_map (fun e => TlbEntry.ppn e * VMPageSize + v mod VMPageSize)
                                  (pTable pt !! (v / VMPageSize * VMPageSize)).
Proof.
  intros Hs Hm Hok Hk Hn Hr Hv. destruct (new_table g0 g1 g2) as (q & Hq & Hf & Hc & _).
  rewrite Hn in Hq. injection Hq as <-.
  destruct (pt_run_inv pid size g (pt0, 0) ops (pt, ptr)) as (Hf' & _ & Hc'); [done|done|done|simpl; lia|done|done|]. simpl in *.
  assert (0 <= v < 2 ^ 64) as Hv' by (rewrite VMPageSize_pow in Hv; lia).
  destruct (lookup_table pt ptr v) as (pt1 & -> & _); [done|auto|done|lia|].
  destruct (translate_table pt ptr v) as (pt2 & -> & _); [done|auto|done|lia|]. done.
Qed.

Lemma cached_lookup_exact_witness : exists pt0 pt, new demo_g demo_g demo_g VMPageSize = Ok pt0 /\
  pt_run 100 0x100000 demo_g (pt0, 0) [Allocate 0x10000 0x8000; Translate 0x12345; Allocate 0x40000 1] = Ok (pt, 5) /\
  (translate pt 0x12345).1 = Some 0x2345.
Proof.
  eexists _, _. split; [vm_compute; reflexivity|]. split; [vm_compute; reflexivity|].
  etransitivity; [eapply (cached_lookup_exact 100 0x100000 demo_g demo_g demo_g demo_g
    [Allocate 0x10000 0x8000; Translate 0x12345; Allocate 0x40000 1])|].
  - done.
  - reflexivity.
  - repeat constructor; simpl; lia.
  - repeat constructor.
  - vm_compute. reflexivity.
  - vm_compute. reflexivity.
  - vm_compute. split; [discriminate|reflexivity].
  - vm_compute. reflexivity.
Defined.

(** A page just translated still translates after it has been freed: freeing
    does not touch the cache, which answers first. *)
Theorem freed_page_translates ptr pt v e pt1 pt2 n : frames pt ptr ->
  lookup pt v = (Some e, pt1) -> deallocate pt1 (pageAlign pt v) n = Ok pt2 ->
  0 < n -> pTable pt2 !! pageAlign pt v = None /\ (lookup pt2 v).1 = Some e.
Proof.
  intros Hf Hl Hd Hn. split; [by eapply deallocate_unmaps|].
  destruct (lookup_inv ptr pt v _ _ Hf Hl) as (Hf1 & _ & _).
  destruct (deallocate_inv ptr pt1 _ n pt2 Hf1 Hd) as [Hf2 Hc].
  assert (pageAlign pt2 v = pageAlign pt v) as Ha.
  { unfold pageAlign. by rewrite (fr_mask _ _ Hf2), (fr_mask _ _ Hf). }
  unfold lookup in *. rewrite Ha, Hc. destruct (pTableCache pt) as [[[v0 e0] [v1 e1]] [v2 e2]] eqn:Ec.
  destruct (v0 =? pageAlign pt v) eqn:E0; [injection Hl as <- <-; by rewrite Ec, E0|].
  destruct (v1 =? pageAlign pt v) eqn:E1; [injection Hl as <- <-; by rewrite Ec, E0, E1|].
  destruct (v2 =? pageAlign pt v) eqn:E2; [injection Hl as <- <-; by rewrite Ec, E0, E1, E2|].
  destruct (pTable pt !! pageAlign pt v) as [e'|]; [|done]. injection Hl as <- <-.
  unfold updateCache. rewrite Ec. simpl. by rewrite Z.eqb_refl.
Qed.

Definition demo_pt : t :=
  mk {[ 0x10000 := TlbEntry.new 100 0x10000 0 ]} ((0, demo_g), (0, demo_g), (0, demo_g)) 8192 8191.

Lemma frames_demo : frames demo_pt 1.
Proof.
  constructor; simpl; [done|done|lia| | |].
  - intros v e [<- <-]%lookup_singleton_Some. split; [|done]. by split.
  - intros v e [<- <-]%lookup_singleton_Some. vm_compute. split; [discriminate|reflexivity].
  - intros v w e f [<- <-]%lookup_singleton_Some [<- <-]%lookup_singleton_Some _. done.
Qed.

Lemma freed_page_translates_witness : exists pt2,
  deallocate (lookup demo_pt 0x10000).2 0x10000 8192 = Ok pt2 /\ pTable pt2 !! 0x10000 = None /\
  (lookup pt2 0x10000).1 = Some (TlbEntry.new 100 0x10000 0).
Proof.
  eexists. split; [vm_compute; reflexivity|].
  apply (freed_page_translates 1 demo_pt 0x10000 (TlbEntry.new 100 0x10000 0) (lookup demo_pt 0x10000).2 _ 8192).
  - exact frames_demo.
  - vm_compute. reflexivity.
  - vm_compute. reflexivity.
  - done.
Defined.

(** Every address of page 0 translates in a table that maps nothing: the
    cache starts out with entries for page 0, whose contents were never
    written. *)
Theorem null_page_translates g0 g1 g2 pt v : new g0 g1 g2 VMPageSize = Ok pt -> 0 <= v < VMPageSize ->
  pTable pt = ∅ /\ lookup pt v = (Some g0, pt).
Proof.
  intros Hn Hv. destruct (new_table g0 g1 g2) as (q & Hq & Hf & _ & Ht & Hc). rewrite Hn in Hq. injection Hq as <-.
  split; [done|]. unfold lookup. rewrite Hc.
  rewrite (pageAlign_base pt) by (try apply Hf; rewrite VMPageSize_pow in Hv; lia).
  unfold base. by rewrite Z.div_small by done.
Qed.

Lemma null_page_translates_witness : exists pt, new demo_g demo_g demo_g VMPageSize = Ok pt /\
  pTable pt = ∅ /\ lookup pt 8 = (Some demo_g, pt).
Proof.
  eexists. split; [vm_compute; reflexivity|].
  apply (null_page_translates demo_g demo_g demo_g); [vm_compute; reflexivity|done].
Defined.

(** ** A miss in the data TLB *)
Lemma page_base v : 0 <= v < 2 ^ 64 -> Process.page v = base v.
Proof.
  intros Hv. unfold Process.page. rewrite IntMath.land_not by (try done; lia).
  change EV5.PageOffset with (Z.ones 13). unfold base. rewrite VMPageSize_pow. apply IntMath.ldiff_ones_div. lia.
Qed.

Lemma vpn_base v : EV5.vpn (base v) = EV5.vpn v.
Proof.
  unfold EV5.vpn, base. rewrite VMPageSize_pow, <- IntMath.ldiff_ones_div by lia.
  apply Z.bits_inj'. intros i Hi. unfold EV5.PageShift.
  rewrite !Z.shiftr_spec, !Z.land_spec, Z.ldiff_spec by lia.
  rewrite (Z.ones_spec_high 13) by lia. by rewrite andb_true_r.
Qed.

Lemma roundDown_base v : 0 <= v < 2 ^ 64 -> IntMath.roundDown 64 v VMPageSize = base v.
Proof. intros Hv. rewrite VMPageSize_pow, IntMath.roundDown_spec by lia. done. Qed.

(** One page allocated at [v]. *)
Lemma allocate_one p v : 0 <= Process.physmem_size p < 2 ^ 63 ->
  frames (Process.ptable p) (Process.page_ptr p) -> coherent (Process.ptable p) -> 
  page_addr v -> v + VMPageSize < 2 ^ 64 -> pTable (Process.ptable p) !! v = None ->
  Process.page_ptr p < 2 ^ 18 -> (Process.page_ptr p + 1) * VMPageSize <= Process.physmem_size p ->
  exists pt', let e := TlbEntry.new (Process.M5_pid p) v (Process.page_ptr p * VMPageSize) in
    Process.allocate p v VMPageSize = Ok (Process.set_pages p pt' (Process.page_ptr p + 1)) /\
    frames pt' (Process.page_ptr p + 1) /\ coherent pt' /\ pTable pt' = <[v := e]> (pTable (Process.ptable p)).
Proof.
  intros Hs Hf Hc Hv Hend Hnone Hlt Hmem. assert (npages VMPageSize = 1) as H1 by reflexivity.
  destruct (allocate_total (Process.M5_pid p) (Process.physmem_size p) (Process.page_ptr p) (Process.ptable p) v VMPageSize)
    as (pt' & Ea & Hnew & Hold); rewrite ?H1; try done; try lia.
  { intros i Hi. assert (i = 0) as -> by lia. by rewrite Z.mul_0_l, Z.add_0_r. }
  destruct (allocate_inv _ _ _ _ _ _ _ _ Hs Hf (proj1 Hv) Ea) as (Hf' & Hc' & _). rewrite H1 in *.
  exists pt'. unfold Process.allocate. rewrite (sint_small 64 VMPageSize) by done. rewrite Ea. bind_step.
  split_and!; [done..|auto|]. apply map_eq. intros w. destruct (decide (w = v)) as [->|Hne].
  - rewrite lookup_insert_eq. specialize (Hnew 0 ltac:(lia)). by rewrite Z.mul_0_l, !Z.add_0_r in Hnew.
  - rewrite lookup_insert_ne by done. apply Hold. intros i Hi. assert (i = 0) as -> by lia. lia.
Qed.

Lemma process_lookup p v : frames (Process.ptable p) (Process.page_ptr p) -> coherent (Process.ptable p) ->
  VMPageSize <= v < 2 ^ 64 -> exists pt', Process.lookup p v =
    (pTable (Process.ptable p) !! base v, Process.set_ptable p pt') /\ coherent pt' /\
    frames pt' (Process.page_ptr p) /\ pTable pt' = pTable (Process.ptable p).
Proof.
  intros Hf Hc Hv. destruct (lookup_table (Process.ptable p) (Process.page_ptr p) v) as (pt' & E1 & H1 & H2 & H3);
    [done|done|rewrite VMPageSize_pow in Hv; lia|lia|].
  exists pt'. unfold Process.lookup. by rewrite E1.
Qed.

(** The stack page that holds [v] is not mapped yet and a frame is left. *)
Definition stack_page_free (p : Process.t) (v : Z) : Prop :=
  pTable (Process.ptable p) !! base v = None /\ Process.stack_min p <= v < Process.stack_base p /\
  v + VMPageSize < 2 ^ 64 /\ Process.page_ptr p < 2 ^ 18 /\
  (Process.page_ptr p + 1) * VMPageSize <= Process.physmem_size p.

Lemma alloc_stack_page p v : 0 <= Process.physmem_size p < 2 ^ 63 ->
  frames (Process.ptable p) (Process.page_ptr p) -> coherent (Process.ptable p) ->
  0 <= v < 2 ^ 64 -> stack_page_free p v ->
  exists pt' e, Process.checkAndAllocNextPage p v = Ok (true, Process.set_pages p pt' (Process.page_ptr p + 1)) /\
    frames pt' (Process.page_ptr p + 1) /\ coherent pt' /\
    pTable pt' = <[base v := e]> (pTable (Process.ptable p)).
Proof.
  intros Hs Hf Hc Hv (Hnone & Hst & Hend & Hlt & Hmem).
  pose proof (base_split v). pose proof (Z.mod_pos_bound v VMPageSize ltac:(done)).
  destruct (allocate_one p (base v)) as (pt' & Ea & Hf' & Hc' & Ht'); try done; [by apply base_page|lia|].
  exists pt', (TlbEntry.new (Process.M5_pid p) (base v) (Process.page_ptr p * VMPageSize)).
  split; [|done]. unfold Process.checkAndAllocNextPage.
  replace ((v >=? Process.stack_min p) && (v <? Process.stack_base p)) with true by lia.
  by rewrite roundDown_base, Ea.
Qed.

(** The lookups of the handler find the page. *)
Lemma miss_lookup p v : 0 <= Process.physmem_size p < 2 ^ 63 ->
  frames (Process.ptable p) (Process.page_ptr p) -> coherent (Process.ptable p) ->
  VMPageSize <= v < 2 ^ 64 -> is_Some (pTable (Process.ptable p) !! base v) \/ stack_page_free p v ->
  exists p1 e, (let '(r, q) := Process.lookup p v in
      match r with
      | Some e => Ok (Some e, q)
      | None => q ← Process.checkAndAllocNextPage q v; Ok (Process.lookup q.2 v)
      end) = Ok (Some e, p1) /\ pTable (Process.ptable p1) !! base v = Some e /\
    coherent (Process.ptable p1) /\ frames (Process.ptable p1) (Process.page_ptr p1).
Proof.
  intros Hs Hf Hc Hv Hcase. assert (0 <= v < 2 ^ 64) as Hv' by (rewrite VMPageSize_pow in Hv; lia).
  destruct (process_lookup p v Hf Hc Hv) as (pt1 & -> & Hc1 & Hf1 & Ht1).
  destruct Hcase as [[e He]|Hfree].
  - rewrite He. exists (Process.set_ptable p pt1), e. simpl. by rewrite Ht1.
  - destruct (alloc_stack_page (Process.set_ptable p pt1) v) as (pt2 & e & Ea & Hf2 & Hc2 & Ht2); [done..| |].
    { unfold stack_page_free in *. simpl. by rewrite Ht1. }
    change (Process.page_ptr (Process.set_ptable p pt1)) with (Process.page_ptr p) in *.
    destruct (process_lookup (Process.set_pages (Process.set_ptable p pt1) pt2 (Process.page_ptr p + 1)) v)
      as (pt3 & E3 & Hc3 & Hf3 & Ht3); [done..|].
    destruct Hfree as [-> _]. eexists _, e. split.
    + rewrite Ea. bind_step. cbn [snd]. rewrite E3. cbn [Process.ptable Process.set_pages].
      by rewrite Ht2, lookup_insert_eq.
    + simpl in *. by rewrite Ht3, Ht2, lookup_insert_eq.
Qed.

(** The handler of a data TLB miss on a mapped address, or on the part of the
    stack that has no page yet, leaves the page mapped and the TLB with its
    entry: the retried lookup, which had no match before, finds it. *)
Theorem dtb_miss_resolved p dtb v : 0 <= Process.physmem_size p < 2 ^ 63 ->
  frames (Process.ptable p) (Process.page_ptr p) -> coherent (Process.ptable p) -> TLBProof.wf dtb ->
  VMPageSize <= v < 2 ^ 64 -> is_Some (pTable (Process.ptable p) !! base v) \/ stack_page_free p v ->
  exists p' dtb' e, Process.NDtbMissFault_invoke p dtb v = Ok (p', dtb') /\
    pTable (Process.ptable p') !! base v = Some e /\ coherent (Process.ptable p') /\
    frames (Process.ptable p') (Process.page_ptr p') /\
    forall a, (forall i f, TLBProof.live (TLB.table dtb) i f -> TLB.matches f (EV5.vpn v) a = false) ->
      TlbEntry.asma e = true \/ TlbEntry.asn e = a ->
      exists i s, TLB.lookup dtb' (EV5.vpn v) a = Ok (Some i, s) /\
        TLBProof.live (TLB.table dtb') i (TlbEntry.placed e (EV5.vpn v)).
Proof.
  intros Hs Hf Hc Hw Hv Hcase. assert (0 <= v < 2 ^ 64) as Hv' by (rewrite VMPageSize_pow in Hv; lia).
  destruct (miss_lookup p v Hs Hf Hc Hv Hcase) as (p1 & e & El & He & Hc1 & Hf1).
  destruct (TLBProof.tlb_insert_ok dtb (Process.page v) e Hw) as (dtb' & Ei & Hw' & Ht & _).
  exists p1, dtb', e. split_and!; [|done..|].
  { unfold Process.NDtbMissFault_invoke. destruct (Process.lookup p v) as [r q]. rewrite El. bind_step. by rewrite Ei. }
  intros a Hmiss Ha.
  rewrite page_base, vpn_base in Ht by done.
  assert (TLBProof.live (TLB.table dtb') (TLB.nlu dtb) (TlbEntry.placed e (EV5.vpn v))) as Hl.
  { rewrite Ht. apply TLBProof.live_insert; [rewrite (TLBProof.wf_len _ Hw); apply Hw|]. by left. }
  assert (TLB.matches (TlbEntry.placed e (EV5.vpn v)) (EV5.vpn v) a = true) as Hm by by apply TLBProof.matches_spec.
  pose proof (TLBProof.tlb_lookup_ok dtb' (EV5.vpn v) a Hw') as Hlk.
  destruct (TLB.lookup dtb' (EV5.vpn v) a) as [[[i|] s']|f].
  - destruct Hlk as (e' & He' & Hm' & _). exists i, s'. split; [done|].
    pose proof He' as He2. rewrite Ht in He2. apply TLBProof.live_insert in He2; [|rewrite (TLBProof.wf_len _ Hw); apply Hw].
    destruct He2 as [(_ & -> & _)|(_ & Hold)]; [done|]. rewrite (Hmiss i e' Hold) in Hm'. done.
  - destruct Hlk as (_ & Hno & _). rewrite (Hno _ _ Hl) in Hm. done.
  - destruct Hlk as (_ & Hno & _). rewrite (Hno _ _ Hl) in Hm. done.
Qed.

Definition demo_process : Process.t :=
  Process.mk 100 0x100000 1 demo_pt 0x200000 0x1fe000 0x800000 0x400000 0.

Lemma dtb_miss_resolved_witness : exists p' dtb' e,
  Process.NDtbMissFault_invoke demo_process (TLB.new 4) 0x1ff008 = Ok (p', dtb') /\
  pTable (Process.ptable p') !! 0x1fe000 = Some e /\
  exists i s, TLB.lookup dtb' 0xff 100 = Ok (Some i, s).
Proof.
  destruct (dtb_miss_resolved demo_process (TLB.new 4) 0x1ff008) as (p' & dtb' & e & E & He & _ & _ & H).
  - done.
  - exact frames_demo.
  - by split_and!; left.
  - by apply TLBProof.new_wf.
  - done.
  - right. by split_and!.
  - exists p', dtb', e. split_and!; [exact E|exact He|].
    destruct (H 100) as (i & s & Hl & _).
    + intros i f Hi. by apply TLBProof.zero_not_live in Hi.
    + right. vm_compute in E. injection E as <- <-. vm_compute in He. by injection He as <-.
    + exists i, s. exact Hl.
Defined.
