(* ===== verification/Ports.v ===== *)
(** * Functional access through ports

    [Port::blobHelper] and the blob operations of [src/mem/port.cc] (Module
    [Port]), the port that translates a process's addresses of
    [src/mem/translating_port.cc] (Module [TranslatingPort]), and [brkFunc] of
    [src/sim/syscall_emul.cc], which goes through it (Module [Syscall]).

    A port sends its packets to a peer; what the peer does with a functional
    packet is an argument ([Peer]), of which physical memory is one instance. *)
From S2P Require Import Prelude EventQueue IntMath Request Packet PhysMem AlphaTLB ChunkGenerator PageTable.

(** [peerBlockSize()] and [sendFunctional(pkt)]. *)
Class Peer := {
  peerBlockSize : Z;
  sendFunctional : Bytes.mem -> Packet.t -> res (Bytes.mem * Packet.t)
}.

(** The memory's functional port; it has no packets of its own waiting, so
    [checkFunctional] on them finds nothing. *)
Definition recvFunctional (pm : PhysicalMemory.t) (m : Bytes.mem) (pkt : Packet.t) :
    res (Bytes.mem * Packet.t) :=
  PhysicalMemory.doFunctionalAccess m pm pkt.
Definition physmem_peer (pm : PhysicalMemory.t) : Peer :=
  {| peerBlockSize := PhysicalMemory.deviceBlockSize; sendFunctional := recvFunctional pm |}.

Definition shift_by (p : option Bytes.ptr) (d : Z) : option Bytes.ptr :=
  option_map (fun q => Bytes.shift q d) p.

Module Port.
Section port.
Context `{Peer} (g : Packet.t) (curTick : Z).

(** One packet: [setPhys], the constructor, [dataStatic], the access, and the
    destructor at the end of the block.  A request freed there would be the
    helper's own local. *)
Definition send_chunk (cmd : MemCmd.Command) (addr size : Z) (s : Bytes.mem * option Bytes.ptr * Request.t) :
    res (Bytes.mem * option Bytes.ptr * Request.t) :=
  let '(m, p, req) := s in
  req ← Request.setPhys_now curTick req addr (sint 32 size) 0;
  pkt ← Packet.new g curTick req cmd Packet.Broadcast;
  pkt ← Packet.dataStatic pkt p;
  '(m, pkt) ← sendFunctional m pkt;
  '(freed, m) ← Packet.destroy m pkt;
  if (freed : bool) then Er BadPointer else Ok (m, shift_by p size, Packet.req pkt).
Definition blobHelper (m : Bytes.mem) (addr : Z) (p : option Bytes.ptr) (size : Z) (cmd : MemCmd.Command) :
    res Bytes.mem :=
  r ← ChunkGenerator.for_chunks (R := Empty_set)
        (fun a n s => s ← send_chunk cmd a n s; Ok (inl s))
        addr size peerBlockSize (m, p, Request.new (Packet.req g));
  match r with inl s => Ok s.1.1 | inr e => match (e : Empty_set) with end end.

Definition writeBlob (m : Bytes.mem) (addr : Z) (p : option Bytes.ptr) (size : Z) : res Bytes.mem :=
  blobHelper m addr p size MemCmd.WriteReq.
Definition readBlob (m : Bytes.mem) (addr : Z) (p : option Bytes.ptr) (size : Z) : res Bytes.mem :=
  blobHelper m addr p size MemCmd.ReadReq.
(** The buffer of [size] bytes is the new array [fresh]. *)
Definition memsetBlob (fresh : positive) (m : Bytes.mem) (addr val size : Z) : res Bytes.mem :=
  if size <? 0 then Er OutOfRange else
  m ← blobHelper (<[fresh := replicate (Z.to_nat size) val]> m) addr (Some (fresh, 0)) size MemCmd.WriteReq;
  Bytes.free m (Some (fresh, 0)).
End port.
End Port.

Module TranslatingPort.

Inductive AllocType := Always | Never | NextPage.

Section tport.
Context `{Peer} (g : Packet.t) (curTick : Z) (allocating : AllocType).

(** The memory and the process, and the locals [paddr] and [prevSize] of the
    loops. *)
Record st := mk { mem : Bytes.mem; proc : Process.t; paddr : Z; prevSize : Z }.

Definition translate_to (s : st) (a : Z) : bool * st :=
  match Process.translate (proc s) a with
  | (None, p) => (false, mk (mem s) p (paddr s) (prevSize s))
  | (Some x, p) => (true, mk (mem s) p x (prevSize s))
  end.

Definition read_chunk (p : option Bytes.ptr) (a n : Z) (s : st) : res (st + bool * st) :=
  match translate_to s a with
  | (false, s) => Ok (inr (false, s))
  | (true, s) =>
      m ← Port.readBlob g curTick (mem s) (paddr s) (shift_by p (prevSize s)) (sint 32 n);
      Ok (inl (mk m (proc s) (paddr s) (sint 32 (prevSize s + n))))
  end.

(** What a translation that failed does before the access: it maps the page
    and translates again, or gives up. *)
Definition map_page (a : Z) (s : st) : res (option st) :=
  match allocating with
  | Always =>
      p ← Process.allocate (proc s) (IntMath.roundDown 64 a VMPageSize) VMPageSize;
      Ok (Some (translate_to (mk (mem s) p (paddr s) (prevSize s)) a).2)
  | NextPage =>
      '(ok, p) ← Process.checkAndAllocNextPage (proc s) a;
      if (ok : bool) then Ok (Some (translate_to (mk (mem s) p (paddr s) (prevSize s)) a).2) else Er Panic
  | Never => Ok None
  end.
Definition write_chunk (p : option Bytes.ptr) (a n : Z) (s : st) : res (st + bool * st) :=
  let '(ok, s) := translate_to s a in
  r ← (if (ok : bool) then Ok (Some s) else map_page a s);
  match r with
  | None => Ok (inr (false, s))
  | Some s =>
      m ← Port.writeBlob g curTick (mem s) (paddr s) (shift_by p (prevSize s)) (sint 32 n);
      Ok (inl (mk m (proc s) (paddr s) (sint 32 (prevSize s + n))))
  end.

(** The bool the operations return, and the state they leave. *)
Definition finish (r : st + bool * st) : bool * st :=
  match r with inl s => (true, s) | inr out => out end.

(** [paddr] starts out as whatever its storage holds. *)
Definition tryReadBlob (m : Bytes.mem) (p : Process.t) (g_paddr addr : Z) (buf : option Bytes.ptr) (size : Z) :
    res (bool * st) :=
  r ← ChunkGenerator.for_chunks (read_chunk buf) addr size VMPageSize (mk m p g_paddr 0);
  Ok (finish r).
Definition tryWriteBlob (m : Bytes.mem) (p : Process.t) (g_paddr addr : Z) (buf : option Bytes.ptr) (size : Z) :
    res (bool * st) :=
  r ← ChunkGenerator.for_chunks (write_chunk buf) addr size VMPageSize (mk m p g_paddr 0);
  Ok (finish r).

Definition memset_chunk (fresh : positive) (val a n : Z) (s : st) : res (st + bool * st) :=
  let '(ok, s) := translate_to s a in
  r ← (if (ok : bool) then Ok (Some s) else
       match allocating with
       | Always =>
           p ← Process.allocate (proc s) (IntMath.roundDown 64 a VMPageSize) VMPageSize;
           Ok (Some (translate_to (mk (mem s) p (paddr s) (prevSize s)) a).2)
       | _ => Ok None
       end);
  match r with
  | None => Ok (inr (false, s))
  | Some s =>
      m ← Port.memsetBlob g curTick fresh (mem s) (paddr s) val (sint 32 n);
      Ok (inl (mk m (proc s) (paddr s) (prevSize s)))
  end.
Definition tryMemsetBlob (fresh : positive) (m : Bytes.mem) (p : Process.t) (g_paddr addr val size : Z) :
    res (bool * st) :=
  r ← ChunkGenerator.for_chunks (memset_chunk fresh val) addr size VMPageSize (mk m p g_paddr 0);
  Ok (finish r).

(** [readBlob], [writeBlob] and [memsetBlob] end the simulation on failure. *)
Definition or_fatal (r : res (bool * st)) : res st :=
  '(ok, s) ← r; if (ok : bool) then Ok s else Er Fatal.
Definition readBlob m p g_paddr addr buf size : res st := or_fatal (tryReadBlob m p g_paddr addr buf size).
Definition writeBlob m p g_paddr addr buf size : res st := or_fatal (tryWriteBlob m p g_paddr addr buf size).
Definition memsetBlob fresh m p g_paddr addr val size : res st :=
  or_fatal (tryMemsetBlob fresh m p g_paddr addr val size).

(** Strings: the characters of [str] up to and including the null one, a byte
    at a time through the local [c], the array [cb]. *)
Fixpoint write_string (cb : positive) (str : list Z) (vaddr : Z) (s : st) : res (bool * st) :=
  match str with
  | [] => Er BadPointer
  | c :: str =>
      match translate_to s vaddr with
      | (false, s) => Ok (false, s)
      | (true, s) =>
          m ← Port.writeBlob g curTick (<[cb := [c]]> (mem s)) (paddr s) (Some (cb, 0)) 1;
          let s := mk m (proc s) (paddr s) (prevSize s) in
          if c =? 0 then Ok (true, s) else write_string cb str (uint 64 (vaddr + 1)) s
      end
  end.
Definition tryWriteString (cb : positive) (m : Bytes.mem) (p : Process.t) (g_paddr addr : Z) (str : list Z) :
    res (bool * st) := write_string cb str addr (mk m p g_paddr 0).

Fixpoint read_string (fuel : nat) (cb : positive) (str : list Z) (vaddr : Z) (s : st) : res (bool * list Z * st) :=
  match fuel with
  | O => Er OutOfFuel
  | S fuel =>
      match translate_to s vaddr with
      | (false, s) => Ok (false, str, s)
      | (true, s) =>
          m ← Port.readBlob g curTick (mem s) (paddr s) (Some (cb, 0)) 1;
          let s := mk m (proc s) (paddr s) (prevSize s) in
          l ← Bytes.read m (cb, 0) 1;
          c ← vget l 0;
          let str := str ++ [c] in
          if c =? 0 then Ok (true, str, s) else read_string fuel cb str (uint 64 (vaddr + 1)) s
      end
  end.
Definition tryReadString (fuel : nat) (cb : positive) (g_c : Z) (m : Bytes.mem) (p : Process.t) (g_paddr : Z)
    (str : list Z) (addr : Z) : res (bool * list Z * st) :=
  read_string fuel cb str addr (mk (<[cb := [g_c]]> m) p g_paddr 0).
End tport.
End TranslatingPort.

(** ** The break *)
Module Syscall.
Import TranslatingPort.
Section brk.
Context `{Peer} (g : Packet.t) (curTick : Z) (allocating : AllocType) (fresh : positive).

Definition set_proc (s : st) (p : Process.t) : st := mk (mem s) p (paddr s) (prevSize s).

(** The body of [brkFunc]'s loop. *)
Definition brk_chunk (new_brk a : Z) (s : st) : res st :=
  let '(r, p) := Process.translate (proc s) a in
  let s := set_proc s p in
  match r with
  | None =>
      p ← Process.allocate p (IntMath.roundDown 64 a VMPageSize) VMPageSize;
      Ok (set_proc s p)
  | Some _ =>
      let next_page := IntMath.roundUp 64 a VMPageSize in
      let size_needed := uint 32 (uint 64 (next_page - a)) in
      s ← TranslatingPort.memsetBlob g curTick allocating fresh (mem s) (proc s) (paddr s) a 0 (sint 32 size_needed);
      if (uint 64 (a + VMPageSize) >? next_page) && (next_page <? new_brk) then
        let '(r, p) := Process.translate (proc s) next_page in
        let s := set_proc s p in
        match r with
        | None => Ok s
        | Some _ =>
            let size_needed := uint 32 (VMPageSize - size_needed) in
            TranslatingPort.memsetBlob g curTick allocating fresh (mem s) (proc s) (paddr s) next_page 0 (sint 32 size_needed)
        end
      else Ok s
  end.
Definition brkFunc (m : Bytes.mem) (p : Process.t) (g_paddr new_brk : Z) : res (Process.SyscallReturn * st) :=
  let s := mk m p g_paddr 0 in
  if new_brk =? 0 then Ok (Process.ret_addr (Process.brk_point p), s)
  else
    s ← (if new_brk >? Process.brk_point p then
           r ← ChunkGenerator.for_chunks (R := Empty_set) (fun a n s => s ← brk_chunk new_brk a s; Ok (inl s))
                 (Process.brk_point p) (uint 64 (new_brk - Process.brk_point p)) VMPageSize s;
           match r with inl s => Ok s | inr e => match (e : Empty_set) with end end
         else Ok s);
    Ok (Process.ret_addr new_brk, set_proc s (Process.set_brk (proc s) new_brk)).
End brk.
End Syscall.
