(* ===== verification/PortsProof.v ===== *)
(** * Proofs about functional access

    [FunctionalMemory] states what a peer promises to the ports: it holds a
    byte per address, a read delivers the bytes and a write replaces them.
    Physical memory keeps the promise; the blob operations are proved from it
    alone. *)
From S2P Require Import Prelude EventQueue IntMath Request Packet PacketTheorems PhysMem PhysMemTheorems AlphaTLB ChunkGenerator PageTable PageTableProof Ports.

(** ** What a peer promises *)

(** [pkt'] is the response to [pkt], with its data and its request. *)
Record answers (pkt pkt' : Packet.t) : Prop := {
  an_cmd : Packet.cmd pkt' = MemCmd.responseCommand (Packet.cmd pkt);
  an_req : Packet.req pkt' = Packet.req pkt;
  an_data : Packet.data pkt' = Packet.data pkt;
  an_array : EvQ.isSet (Packet.flags pkt') Packet.ARRAY_DATA = EvQ.isSet (Packet.flags pkt) Packet.ARRAY_DATA;
  an_dynamic : EvQ.isSet (Packet.flags pkt') Packet.DYNAMIC_DATA = EvQ.isSet (Packet.flags pkt) Packet.DYNAMIC_DATA
}.

Class FunctionalMemory (P : Peer) := {
  (** The arrays that are the memory's own. *)
  owned : positive -> Prop;
  (** The byte at a physical address. *)
  contents : Bytes.mem -> Z -> option Z;
  block_ok : peerBlockSize = 0 \/ exists k, 0 <= k < 31 /\ peerBlockSize = 2 ^ k;
  (** The bytes depend on the memory's own arrays only. *)
  contents_frame m m' x : (forall b, owned b -> m' !! b = m !! b) -> contents m' x = contents m x;
  read_law m pkt a n db doff dl :
    Packet.cmd pkt = MemCmd.ReadReq -> carries m pkt a n db doff dl -> ~ owned db ->
    (forall x, a <= x < a + n -> is_Some (contents m x)) ->
    exists dl' pkt', sendFunctional m pkt = Ok (<[db := dl']> m, pkt') /\ answers pkt pkt' /\
      length dl' = length dl /\
      forall i, 0 <= i -> dl' !! Z.to_nat i =
        if decide (doff <= i < doff + n) then contents m (a + (i - doff)) else dl !! Z.to_nat i;
  write_law m pkt a n db doff dl :
    Packet.cmd pkt = MemCmd.WriteReq -> carries m pkt a n db doff dl -> ~ owned db ->
    (forall x, a <= x < a + n -> is_Some (contents m x)) ->
    exists m' pkt', sendFunctional m pkt = Ok (m', pkt') /\ answers pkt pkt' /\
      (forall b, ~ owned b -> m' !! b = m !! b) /\
      forall x, contents m' x =
        if decide (a <= x < a + n) then dl !! Z.to_nat (doff + (x - a)) else contents m x
}.

(** ** Physical memory keeps it *)
Module PhysMemPeer.
Import PhysicalMemory.

Definition byte_at (pm : t) (m : Bytes.mem) (x : Z) : option Z :=
  b ← pmemAddr pm;
  bytes ← m !! b;
  if bool_decide (Z.of_nat (length bytes) = cachedSize pm /\ cachedStart pm <= x)
  then bytes !! Z.to_nat (x - cachedStart pm) else None.

Lemma byte_at_holds pm m b bytes x : holds_bytes m pm b bytes -> byte_at pm m x =
  if decide (cachedStart pm <= x) then bytes !! Z.to_nat (x - cachedStart pm) else None.
Proof.
  intros []. unfold byte_at. rewrite hb_addr. simpl. rewrite hb_array. simpl.
  destruct (decide (cachedStart pm <= x)); [by rewrite bool_decide_eq_true_2|by rewrite bool_decide_eq_false_2 by naive_solver].
Qed.

Lemma byte_at_some pm m x : 0 <= cachedStart pm -> cachedStart pm + cachedSize pm < 2 ^ 64 ->
  is_Some (byte_at pm m x) -> exists b bytes, holds_bytes m pm b bytes /\
    cachedStart pm <= x < cachedStart pm + cachedSize pm.
Proof.
  intros H0 H1 [v Hv]. unfold byte_at in Hv. destruct (pmemAddr pm) as [b|] eqn:Eb; [|done]. simpl in Hv.
  destruct (m !! b) as [bytes|] eqn:Em; [|done]. simpl in Hv.
  destruct (bool_decide _) eqn:Ed; [|done]. apply bool_decide_eq_true_1 in Ed as [Hl Hx].
  exists b, bytes. split; [by constructor|]. apply lookup_lt_Some in Hv. lia.
Qed.

Lemma respond_answers pkt : Packet.needsResponse pkt = true -> 0 <= Packet.flags pkt ->
  exists pkt', Packet.makeAtomicResponse pkt = Ok pkt' /\ answers pkt pkt'.
Proof.
  intros Hn Hf. unfold Packet.makeAtomicResponse, Packet.makeResponse. rewrite Hn. cbn [c_assert]. bind_step.
  assert (Packet.isRequest pkt = true) as ->.
  { unfold Packet.isRequest, Packet.needsResponse in *. by destruct (Packet.cmd pkt). }
  cbn [c_assert]. bind_step. eexists. split; [done|].
  assert (forall f v, Z.land Packet.VALID_DST f = 0 -> Z.land Packet.VALID_SRC f = 0 ->
    EvQ.isSet (EvQ.clear (Packet.set_to (Packet.flags pkt) Packet.VALID_DST v) Packet.VALID_SRC) f =
    EvQ.isSet (Packet.flags pkt) f) as Hk.
  { intros f v H1 H2. rewrite isSet_clear_disjoint by done. unfold Packet.set_to.
    pose proof (isSet_clear_disjoint (Packet.flags pkt) Packet.VALID_DST f H1) as Hc. unfold EvQ.isSet in *.
    rewrite Z.land_lor_distr_l. destruct v; [rewrite H1|rewrite Z.land_0_l]; rewrite Z.lor_0_r; exact Hc. }
  constructor; try done; by apply Hk.
Qed.

Section instance.
Context (pm : t) (Hlo : 0 <= cachedStart pm) (Hhi : cachedStart pm + cachedSize pm < 2 ^ 64).

(** The packet's range is in the memory. *)
Lemma in_range m pkt a n db doff dl : carries m pkt a n db doff dl ->
  ~ pmemAddr pm = Some db ->
  (forall x, a <= x < a + n -> is_Some (byte_at pm m x)) ->
  exists b bytes, holds_bytes m pm b bytes /\ db <> b /\ cachedStart pm <= a /\
    a + n <= cachedStart pm + cachedSize pm.
Proof.
  intros Hc Hdb Hall. destruct (sz_range _ _ _ (c_sized _ _ _ _ _ _ _ Hc)) as (Ha & Hn & _).
  destruct (byte_at_some pm m a Hlo Hhi (Hall a ltac:(lia))) as (b & bytes & Hb & Hx).
  destruct (byte_at_some pm m (a + n - 1) Hlo Hhi (Hall (a + n - 1) ltac:(lia))) as (_ & _ & _ & Hy).
  exists b, bytes. split_and!; [done| |lia|lia]. intros ->. apply Hdb, (hb_addr _ _ _ _ Hb).
Qed.

Lemma physmem_frame m m' x : (forall b, pmemAddr pm = Some b -> m' !! b = m !! b) -> byte_at pm m' x = byte_at pm m x.
Proof. intros H. unfold byte_at. destruct (pmemAddr pm) as [b|]; [|done]. simpl. by rewrite (H b). Qed.

Lemma physmem_read m pkt a n db doff dl :
  Packet.cmd pkt = MemCmd.ReadReq -> carries m pkt a n db doff dl -> ~ pmemAddr pm = Some db ->
  (forall x, a <= x < a + n -> is_Some (byte_at pm m x)) ->
  exists dl' pkt', recvFunctional pm m pkt = Ok (<[db := dl']> m, pkt') /\ answers pkt pkt' /\
    length dl' = length dl /\
    forall i, 0 <= i -> dl' !! Z.to_nat i =
      if decide (doff <= i < doff + n) then byte_at pm m (a + (i - doff)) else dl !! Z.to_nat i.
Proof.
  intros Hcmd Hc Hdb Hall. destruct (in_range m pkt a n db doff dl Hc Hdb Hall) as (b & bytes & Hb & Hne & H1 & H2).
  destruct (access_facts m pm pkt b bytes a n db doff dl Hb Hc Hne) as (Ha & _).
  destruct (c_resp _ _ _ _ _ _ _ Hc) as (Hnr & Hfl & _).
  destruct (copy_out_ok m pm pkt b bytes a n db doff dl Hb Hc Hne H1 H2) as (dl' & Hco & Hlen & Hi).
  destruct (respond_answers pkt Hnr Hfl) as (pkt' & Hr & Han).
  exists dl', pkt'. split_and!; [|done..|].
  - unfold recvFunctional, doFunctionalAccess. rewrite (check_range_ok m pm pkt b bytes a n db doff dl) by done.
    bind_step. rewrite Ha. bind_step. unfold Packet.isRead at 1. rewrite Hcmd. cbn [MemCmd.isRead].
    change (MemCmd.isRead MemCmd.ReadReq) with true. cbv iota. rewrite Hco. bind_step. by rewrite Hr.
  - intros i Hi0. rewrite Hi by done. destruct (decide (doff <= i < doff + n)); [|done].
    rewrite (byte_at_holds pm m b bytes) by done. rewrite decide_True by lia. f_equal. lia.
Qed.

Lemma physmem_write m pkt a n db doff dl :
  Packet.cmd pkt = MemCmd.WriteReq -> carries m pkt a n db doff dl -> ~ pmemAddr pm = Some db ->
  (forall x, a <= x < a + n -> is_Some (byte_at pm m x)) ->
  exists m' pkt', recvFunctional pm m pkt = Ok (m', pkt') /\ answers pkt pkt' /\
    (forall b, ~ pmemAddr pm = Some b -> m' !! b = m !! b) /\
    forall x, byte_at pm m' x =
      if decide (a <= x < a + n) then dl !! Z.to_nat (doff + (x - a)) else byte_at pm m x.
Proof.
  intros Hcmd Hc Hdb Hall. destruct (in_range m pkt a n db doff dl Hc Hdb Hall) as (b & bytes & Hb & Hne & H1 & H2).
  destruct (access_facts m pm pkt b bytes a n db doff dl Hb Hc Hne) as (Ha & _).
  destruct (c_resp _ _ _ _ _ _ _ Hc) as (Hnr & Hfl & _).
  destruct (copy_in_ok m pm pkt b bytes a n db doff dl Hb Hc Hne H1 H2) as (bytes' & Hco & Hlen & Hi).
  destruct (respond_answers pkt Hnr Hfl) as (pkt' & Hr & Han).
  exists (<[b := bytes']> m), pkt'. split_and!; [|done|..].
  - unfold recvFunctional, doFunctionalAccess. rewrite (check_range_ok m pm pkt b bytes a n db doff dl) by done.
    bind_step. rewrite Ha. bind_step. unfold Packet.isRead, Packet.isWrite. rewrite Hcmd.
    change (MemCmd.isRead MemCmd.WriteReq) with false. change (MemCmd.isWrite MemCmd.WriteReq) with true. cbv iota.
    rewrite Hco. bind_step. by rewrite Hr.
  - intros c Hcn. apply lookup_insert_ne. intros <-. apply Hcn, (hb_addr _ _ _ _ Hb).
  - intros x. assert (holds_bytes (<[b := bytes']> m) pm b bytes') as Hb'.
    { destruct Hb. constructor; [done|apply lookup_insert_eq|lia|done]. }
    rewrite (byte_at_holds _ _ _ _ x Hb'), (byte_at_holds _ _ _ _ x Hb).
    destruct (decide (cachedStart pm <= x)); [|by rewrite decide_False by lia].
    rewrite Hi by lia. destruct (decide (a <= x < a + n)).
    + rewrite decide_True by lia. f_equal. lia.
    + by rewrite decide_False by lia.
Qed.

Lemma physmem_block : @peerBlockSize (physmem_peer pm) = 0 \/
  exists k, 0 <= k < 31 /\ @peerBlockSize (physmem_peer pm) = 2 ^ k.
Proof. by left. Qed.

Definition physmem_memory : FunctionalMemory (physmem_peer pm) :=
  {| owned := fun b => pmemAddr pm = Some b;
     contents := byte_at pm;
     block_ok := physmem_block;
     contents_frame := physmem_frame;
     read_law := physmem_read;
     write_law := physmem_write |}.
End instance.
End PhysMemPeer.

(** ** Blobs *)
Module PortProof.
Section port.
Context {P : Peer} {F : FunctionalMemory P} (g : Packet.t) (curTick : Z).

(** The packet of a chunk. *)
Lemma chunk_packet cmd a c req m db off dl :
  MemCmd.needsResponse cmd = true -> 0 <= a -> 0 < c < 2 ^ 31 -> a + c <= 2 ^ 64 ->
  m !! db = Some dl -> 0 <= off -> off + c <= Z.of_nat (length dl) ->
  exists req1 pkt0 pkt, Request.setPhys_now curTick req a (sint 32 c) 0 = Ok req1 /\
    Packet.new g curTick req1 cmd Packet.Broadcast = Ok pkt0 /\ Packet.dataStatic pkt0 (Some (db, off)) = Ok pkt /\
    carries m pkt a c db off dl /\ Packet.cmd pkt = cmd /\ Packet.flags pkt = 0x1B00.
Proof.
  intros Hcmd Ha Hc Hend Hm Ho Hl. rewrite sint_small by lia.
  unfold Request.setPhys_now, Request.setPhys. replace (0 <=? c) with true by lia. cbn [c_assert]. 
  eexists _, _, _. split; [bind_step; reflexivity|]. unfold Packet.new, Request.hasPaddr, Request.getPaddr, Request.hasSize, Request.getSize.
  cbn [Request.privateFlags Request._paddr Request._size].
  rewrite !Request.isSet_set_bits.
  change (EvQ.isSet (Z.lor Request.VALID_PADDR Request.VALID_SIZE) Request.VALID_PADDR) with true.
  change (EvQ.isSet (Z.lor Request.VALID_PADDR Request.VALID_SIZE) Request.VALID_SIZE) with true.
  rewrite !orb_true_r. cbn [c_assert]. split; [repeat bind_step; reflexivity|].
  unfold Packet.dataStatic. split; [cbn; reflexivity|].
  split; [|done]. constructor; try done.
  constructor; try done. cbn. apply uint_small. lia.
Qed.

Lemma destroy_answer m pkt pkt' : answers pkt pkt' -> Packet.flags pkt = 0x1B00 ->
  MemCmd.needsResponse (Packet.cmd pkt) = true -> Packet.destroy m pkt' = Ok (false, m).
Proof.
  intros [] Hf Hn. unfold Packet.destroy, Packet.deleteData. rewrite an_array0, an_dynamic0, Hf.
  change (EvQ.isSet 0x1B00 Packet.ARRAY_DATA) with false. change (EvQ.isSet 0x1B00 Packet.DYNAMIC_DATA) with false.
  cbv iota. repeat bind_step. cbn [fst]. do 2 f_equal.
  unfold Packet.isRequest. rewrite an_cmd0. by destruct (Packet.cmd pkt).
Qed.

Lemma region_block a n : 0 <= a -> 0 <= n < 2 ^ 31 -> a + n + 2 ^ 31 <= 2 ^ 64 ->
  ChunkGenerator.region a n peerBlockSize.
Proof.
  intros Ha Hn He. constructor; [done|lia|apply block_ok|].
  destruct block_ok as [->|(k & Hk & ->)]; [lia|].
  assert (2 ^ k < 2 ^ 31) by (apply Z.pow_lt_mono_r; lia). lia.
Qed.

Section blob.
Context (m : Bytes.mem) (a n : Z) (db : positive) (doff : Z) (dl : list Z).
Context (Ha : 0 <= a) (Hn : 0 <= n < 2 ^ 31) (He : a + n + 2 ^ 31 <= 2 ^ 64).
Context (Hm : m !! db = Some dl) (Hdb : ~ owned db) (Hd0 : 0 <= doff) (Hd1 : doff + n <= Z.of_nat (length dl)).
Context (Hall : forall x, a <= x < a + n -> is_Some (contents m x)).

Lemma contents_insert m' l x : contents (<[db := l]> m') x = contents m' x.
Proof. apply contents_frame. intros b Hb. apply lookup_insert_ne. by intros ->. Qed.

(** The buffer receives the bytes of the range. *)
Lemma readBlob_ok : exists dl', Port.readBlob g curTick m a (Some (db, doff)) n = Ok (<[db := dl']> m) /\
  length dl' = length dl /\ forall i, 0 <= i -> dl' !! Z.to_nat i =
    if decide (doff <= i < doff + n) then contents m (a + (i - doff)) else dl !! Z.to_nat i.
Proof.
  unfold Port.readBlob, Port.blobHelper.
  pose proof (ChunkGenerator.for_chunks_rule (R := Empty_set)
    (fun x c s => s ← Port.send_chunk g curTick MemCmd.ReadReq x c s; Ok (inl s))
    (fun k s => s.1.2 = Some (db, doff + k) /\ exists dk, s.1.1 = <[db := dk]> m /\ length dk = length dl /\
       forall i, 0 <= i -> dk !! Z.to_nat i =
         if decide (doff <= i < doff + k) then contents m (a + (i - doff)) else dl !! Z.to_nat i)
    (fun _ => False) a n peerBlockSize (region_block a n Ha Hn He)) as Hrule.
  ospecialize (Hrule _ (m, Some (db, doff), Request.new (Packet.req g)) _).
  { intros k c [[mk p] req] Hk Hc Hkc _ (Hp & dk & Hmk & Hlen & Hi). simpl in Hp, Hmk. subst p mk.
    destruct (chunk_packet MemCmd.ReadReq (a + k) c req (<[db := dk]> m) db (doff + k) dk)
      as (req1 & pkt0 & pkt & E1 & E2 & E3 & Hc3 & Hcmd & Hfl); [done|lia|lia|lia|apply lookup_insert_eq|lia|lia|].
    unfold Port.send_chunk. rewrite E1. bind_step. rewrite E2. bind_step. rewrite E3. bind_step.
    destruct (read_law (<[db := dk]> m) pkt (a + k) c db (doff + k) dk Hcmd Hc3 Hdb) as (dl' & pkt' & -> & Han & Hl' & Hi').
    { intros x Hx. rewrite contents_insert. apply Hall. lia. }
    bind_step. rewrite (destroy_answer _ pkt pkt' Han Hfl) by (by rewrite Hcmd). bind_step. bind_step.
    simpl. unfold Bytes.shift. simpl. split; [by rewrite Z.add_assoc|].
    exists dl'. split; [apply insert_insert_eq|]. split; [lia|]. intros i Hi0. rewrite Hi' by done.
    rewrite contents_insert. destruct (decide (doff + k <= i < doff + k + c)).
    - rewrite decide_True by lia. f_equal. lia.
    - rewrite Hi by done. destruct (decide (doff <= i < doff + k)); [by rewrite decide_True by lia|by rewrite decide_False by lia]. }
  { simpl. split; [by rewrite Z.add_0_r|]. exists dl. split; [by rewrite insert_id|]. split; [done|].
    intros i _. by rewrite decide_False by lia. }
  destruct (ChunkGenerator.for_chunks _ a n peerBlockSize _) as [[[[m' p'] req']|[]]|f]; [|done].
  destruct Hrule as (_ & dk & E & Hlen & Hi). simpl in E. subst m'. exists dk. split; [done|]. split; [done|].
  exact Hi.
Qed.

(** The range receives the bytes of the buffer, and nothing else changes. *)
Lemma writeBlob_ok : exists m', Port.writeBlob g curTick m a (Some (db, doff)) n = Ok m' /\
  (forall b, ~ owned b -> m' !! b = m !! b) /\
  forall x, contents m' x = if decide (a <= x < a + n) then dl !! Z.to_nat (doff + (x - a)) else contents m x.
Proof.
  unfold Port.writeBlob, Port.blobHelper.
  pose proof (ChunkGenerator.for_chunks_rule (R := Empty_set)
    (fun x c s => s ← Port.send_chunk g curTick MemCmd.WriteReq x c s; Ok (inl s))
    (fun k s => s.1.2 = Some (db, doff + k) /\ (forall b, ~ owned b -> s.1.1 !! b = m !! b) /\
       forall x, contents s.1.1 x =
         if decide (a <= x < a + k) then dl !! Z.to_nat (doff + (x - a)) else contents m x)
    (fun _ => False) a n peerBlockSize (region_block a n Ha Hn He)) as Hrule.
  ospecialize (Hrule _ (m, Some (db, doff), Request.new (Packet.req g)) _).
  { intros k c [[mk p] req] Hk Hc Hkc _ (Hp & Hfr & Hx). simpl in Hp, Hfr, Hx. subst p.
    destruct (chunk_packet MemCmd.WriteReq (a + k) c req mk db (doff + k) dl)
      as (req1 & pkt0 & pkt & E1 & E2 & E3 & Hc3 & Hcmd & Hfl); [done|lia|lia|lia|by rewrite Hfr|lia|lia|].
    unfold Port.send_chunk. rewrite E1. bind_step. rewrite E2. bind_step. rewrite E3. bind_step.
    destruct (write_law mk pkt (a + k) c db (doff + k) dl Hcmd Hc3 Hdb) as (m' & pkt' & -> & Han & Hfr' & Hx').
    { intros x Hxr. rewrite Hx, decide_False by lia. apply Hall. lia. }
    bind_step. rewrite (destroy_answer _ pkt pkt' Han Hfl) by (by rewrite Hcmd). bind_step. bind_step.
    simpl. unfold Bytes.shift. simpl. split_and!; [by rewrite Z.add_assoc|intros b Hb; by rewrite Hfr', Hfr|].
    intros x. rewrite Hx', Hx. destruct (decide (a + k <= x < a + k + c)).
    - rewrite decide_True by lia. f_equal. lia.
    - destruct (decide (a <= x < a + k)); [by rewrite decide_True by lia|by rewrite decide_False by lia]. }
  { simpl. split_and!; [by rewrite Z.add_0_r|done|]. intros x. by rewrite decide_False by lia. }
  destruct (ChunkGenerator.for_chunks _ a n peerBlockSize _) as [[[[m' p'] req']|[]]|f]; [|done].
  destruct Hrule as (_ & Hfr & Hx). by exists m'.
Qed.
End blob.
End port.
End PortProof.
