(* ===== verification/PortsTheorems.v ===== *)
(** * The virtual memory of a process

    Through a translating port a process sees a memory of bytes at virtual
    addresses.  The theorems hold for any peer that keeps the promise of
    [FunctionalMemory]. *)
From S2P Require Import Prelude EventQueue IntMath Request Packet PacketTheorems PhysMem PhysMemTheorems AlphaTLB ChunkGenerator PageTable PageTableProof PageTableTheorems Ports PortsProof.
Import TranslatingPort.

Module VirtMem.
Section vm.
Context {P : Peer} {F : FunctionalMemory P} (g : Packet.t) (curTick : Z).

Abbreviation table p := (PageTable.pTable (Process.ptable p)).

(** The byte at a virtual address. *)
Definition vbyte (m : Bytes.mem) (p : Process.t) (v : Z) : option Z :=
  x ← PageTableProof.physical (table p) v; contents m x.

(** The state of a process and its memory. *)
Record vm_ok (m : Bytes.mem) (p : Process.t) : Prop := {
  vm_frames : PageTableProof.frames (Process.ptable p) (Process.page_ptr p);
  vm_cache : PageTableProof.coherent (Process.ptable p);
  vm_size : 0 <= Process.physmem_size p < 2 ^ 63;
  vm_fit : Process.page_ptr p * VMPageSize <= Process.physmem_size p;
  vm_full : forall x, 0 <= x < Process.physmem_size p -> is_Some (contents m x)
}.

(** The same mappings and frames. *)
Definition same_pages (p q : Process.t) : Prop :=
  table q = table p /\ Process.page_ptr q = Process.page_ptr p /\ Process.physmem_size q = Process.physmem_size p.

Lemma vbyte_same m p q v : same_pages p q -> vbyte m q v = vbyte m p v.
Proof. intros (E & _). unfold vbyte. by rewrite E. Qed.

Lemma vm_ok_mem m m' p : vm_ok m p -> (forall x, 0 <= x < Process.physmem_size p -> is_Some (contents m' x)) -> vm_ok m' p.
Proof. intros [] H. by constructor. Qed.

Lemma vbyte_some m p v : vm_ok m p -> is_Some (vbyte m p v) <-> is_Some (PageTableProof.physical (table p) v).
Proof.
  intros Hok. unfold vbyte. destruct (PageTableProof.physical (table p) v) as [x|] eqn:E; simpl; [|done].
  split; [done|]. intros _. apply (vm_full _ _ Hok).
  destruct (PageTableProof.physical_range _ _ _ _ (vm_frames _ _ Hok) E). pose proof (vm_fit _ _ Hok). lia.
Qed.

Lemma process_translate m p v : vm_ok m p -> VMPageSize <= v < 2 ^ 64 ->
  exists q, Process.translate p v = (PageTableProof.physical (table p) v, q) /\ vm_ok m q /\ same_pages p q.
Proof.
  intros [] Hv. destruct (PageTableProof.translate_table (Process.ptable p) (Process.page_ptr p) v)
    as (pt' & E & Hc & Hf & Ht); [done|done|rewrite PageTableProof.VMPageSize_pow in Hv; lia|lia|].
  exists (Process.set_ptable p pt'). unfold Process.translate. rewrite E. split; [done|]. split; [by constructor|done].
Qed.

(** Inside a page, virtual and physical addresses advance together. *)
Lemma physical_step p v x j : PageTableProof.physical (table p) v = Some x -> 0 <= j ->
  v mod VMPageSize + j < VMPageSize -> PageTableProof.physical (table p) (v + j) = Some (x + j).
Proof.
  intros Hx Hj Hin. unfold PageTableProof.physical in *.
  assert (PageTableProof.base (v + j) = PageTableProof.base v /\ (v + j) mod VMPageSize = v mod VMPageSize + j) as [-> ->].
  { pose proof (Z.div_mod v VMPageSize ltac:(done)). pose proof (Z.mod_pos_bound v VMPageSize ltac:(done)).
    assert ((v + j) / VMPageSize = v / VMPageSize) as E.
    { symmetry. apply (Z.div_unique_pos _ _ _ (v mod VMPageSize + j)); lia. }
    unfold PageTableProof.base. split; [by rewrite E|]. pose proof (Z.div_mod (v + j) VMPageSize ltac:(done)). lia. }
  destruct (table p !! PageTableProof.base v); [|done]. simpl in *. injection Hx as <-. f_equal. lia.
Qed.

(** A chunk of a mapped page is a range of physical memory. *)
Lemma chunk_range m p v x c : vm_ok m p -> PageTableProof.physical (table p) v = Some x ->
  0 < c -> v mod VMPageSize + c <= VMPageSize ->
  0 <= x /\ x + c <= Process.physmem_size p /\ x + c + 2 ^ 31 <= 2 ^ 64.
Proof.
  intros Hok Hx Hc Hin. pose proof (physical_step p v x (c - 1) Hx ltac:(lia) ltac:(lia)) as Hl.
  destruct (PageTableProof.physical_range _ _ _ _ (vm_frames _ _ Hok) Hx) as [H1 _].
  destruct (PageTableProof.physical_range _ _ _ _ (vm_frames _ _ Hok) Hl) as [H2 _].
  pose proof (vm_fit _ _ Hok). pose proof (PageTableProof.fr_ptr _ _ (vm_frames _ _ Hok)).
  rewrite PageTableProof.VMPageSize_pow in *. lia.
Qed.

(** The virtual addresses of a range of a page's frame. *)
Lemma chunk_member m p v x c w y : vm_ok m p -> PageTableProof.physical (table p) v = Some x ->
  0 < c -> v mod VMPageSize + c <= VMPageSize -> PageTableProof.physical (table p) w = Some y ->
  (v <= w < v + c /\ y = x + (w - v)) \/ (~ v <= w < v + c /\ ~ x <= y < x + c).
Proof.
  intros Hok Hx Hc Hin Hw. destruct (decide (v <= w < v + c)) as [Hr|Hr].
  - left. split; [done|]. pose proof (physical_step p v x (w - v) Hx ltac:(lia) ltac:(lia)) as Hs.
    replace (v + (w - v)) with w in Hs by lia. congruence.
  - right. split; [done|]. intros Hy. apply Hr.
    pose proof (physical_step p v x (y - x) Hx ltac:(lia) ltac:(lia)) as Hs.
    replace (x + (y - x)) with y in Hs by lia.
    pose proof (PageTableProof.physical_inj _ _ _ _ _ (vm_frames _ _ Hok) Hw Hs). lia.
Qed.

(** Writing a chunk of a mapped page. *)
Lemma write_mapped m p v x c db off dl : vm_ok m p -> PageTableProof.physical (table p) v = Some x ->
  0 < c -> v mod VMPageSize + c <= VMPageSize ->
  m !! db = Some dl -> ~ owned db -> 0 <= off -> off + c <= Z.of_nat (length dl) ->
  exists m', Port.writeBlob g curTick m x (Some (db, off)) c = Ok m' /\ vm_ok m' p /\
    (forall b, ~ owned b -> m' !! b = m !! b) /\
    forall w, vbyte m' p w = if decide (v <= w < v + c) then dl !! Z.to_nat (off + (w - v)) else vbyte m p w.
Proof.
  intros Hok Hx Hc Hin Hm Hdb Ho Hl. destruct (chunk_range m p v x c Hok Hx Hc Hin) as (H0 & H1 & H2).
  assert (c < 2 ^ 31).
  { pose proof (Z.mod_pos_bound v VMPageSize ltac:(done)). rewrite PageTableProof.VMPageSize_pow in *. lia. }
  destruct (PortProof.writeBlob_ok g curTick m x c db off dl) as (m' & E & Hfr & Hx'); try done; try lia.
  { intros y Hy. apply (vm_full _ _ Hok). lia. }
  exists m'. split_and!; [done| |done|].
  - apply (vm_ok_mem m); [done|]. intros y Hy. rewrite Hx'. destruct (decide (x <= y < x + c)).
    + apply lookup_lt_is_Some. lia.
    + by apply (vm_full _ _ Hok).
  - intros w. unfold vbyte. destruct (PageTableProof.physical (table p) w) as [y|] eqn:Ey; simpl.
    + rewrite Hx'. destruct (chunk_member m p v x c w y Hok Hx Hc Hin Ey) as [[Hr ->]|[Hr Hn]].
      * rewrite !decide_True by lia. f_equal. lia.
      * by rewrite !decide_False.
    + rewrite decide_False; [done|]. intros Hr.
      pose proof (physical_step p v x (w - v) Hx ltac:(lia) ltac:(lia)) as Hs.
      replace (v + (w - v)) with w in Hs by lia. congruence.
Qed.

(** The page of [v] is mapped, or a frame is left for it. *)
Definition has_room (p : Process.t) (v : Z) : Prop :=
  PageTableProof.physical (table p) v = None ->
  Process.page_ptr p < 2 ^ 18 /\ (Process.page_ptr p + 1) * VMPageSize <= Process.physmem_size p.

(** [q] is [p] with the page of [v] mapped, to a new frame if it was not. *)
Record maps (p q : Process.t) (v : Z) : Prop := {
  mp_size : Process.physmem_size q = Process.physmem_size p;
  mp_page : is_Some (PageTableProof.physical (table q) v);
  mp_keep : forall w x, PageTableProof.physical (table p) w = Some x -> PageTableProof.physical (table q) w = Some x;
  mp_ptr : Process.page_ptr p <= Process.page_ptr q <= Process.page_ptr p + 1;
  mp_none : is_Some (PageTableProof.physical (table p) v) -> Process.page_ptr q = Process.page_ptr p
}.

Lemma maps_same p q v x : same_pages p q -> PageTableProof.physical (table p) v = Some x -> maps p q v.
Proof. intros (E1 & E2 & E3) Hx. constructor; rewrite ?E1, ?E2, ?E3; [done|by exists x|done|lia|done]. Qed.

Lemma maps_new m p v : vm_ok m p -> 0 <= v -> v + VMPageSize < 2 ^ 64 ->
  PageTableProof.physical (table p) v = None -> has_room p v ->
  exists q, Process.allocate p (IntMath.roundDown 64 v VMPageSize) VMPageSize = Ok q /\ vm_ok m q /\ maps p q v.
Proof.
  intros [] H0 He Hnone Hroom. destruct (Hroom Hnone) as [Hlt Hmem].
  assert (0 <= v < 2 ^ 64) as Hv by (rewrite PageTableProof.VMPageSize_pow in He; lia).
  assert (table p !! PageTableProof.base v = None) as Hb.
  { unfold PageTableProof.physical in Hnone. by destruct (table p !! PageTableProof.base v). }
  pose proof (PageTableProof.base_split v). pose proof (Z.mod_pos_bound v VMPageSize ltac:(done)).
  destruct (allocate_one p (PageTableProof.base v)) as (pt' & E & Hf' & Hc' & Ht'); try done; [by apply PageTableProof.base_page|lia|].
  rewrite roundDown_base, E by done. eexists. split; [done|]. split; [by constructor|].
  constructor; simpl; [done| | |lia|].
  - unfold PageTableProof.physical. rewrite Ht', lookup_insert_eq. by eexists.
  - intros w x Hw. unfold PageTableProof.physical in *. rewrite Ht'.
    destruct (decide (PageTableProof.base v = PageTableProof.base w)) as [Ew|Ew]; [|by rewrite lookup_insert_ne].
    rewrite <- Ew, Hb in Hw. done.
  - rewrite Hnone. by intros [? ?].
Qed.

(** Translation for a write: the page gets mapped on the way. *)
Definition ready (v : Z) (s : st) : res (option st) :=
  let '(ok, s) := translate_to s v in if (ok : bool) then Ok (Some s) else map_page Always v s.

Lemma ready_ok s v : vm_ok (mem s) (proc s) -> VMPageSize <= v -> v + VMPageSize < 2 ^ 64 -> has_room (proc s) v ->
  exists s' x, ready v s = Ok (Some s') /\ mem s' = mem s /\ vm_ok (mem s) (proc s') /\ maps (proc s) (proc s') v /\
    prevSize s' = prevSize s /\ paddr s' = x /\ PageTableProof.physical (table (proc s')) v = Some x.
Proof.
  intros Hok Hlo Hhi Hroom. assert (VMPageSize <= v < 2 ^ 64) as Hv by (rewrite PageTableProof.VMPageSize_pow in *; lia).
  destruct (process_translate (mem s) (proc s) v Hok Hv) as (q & E & Hq & Hsame).
  unfold ready, translate_to. rewrite E.
  destruct (PageTableProof.physical (table (proc s)) v) as [x|] eqn:Ex.
  - exists (mk (mem s) q x (prevSize s)), x. split_and!; try done; [by apply (maps_same _ _ _ x)|].
    simpl. destruct Hsame as (-> & _). done.
  - destruct (Hsame) as (Et & Ep & Es).
    destruct (maps_new (mem s) q v Hq) as (q1 & Ea & Hq1 & Hm); [rewrite PageTableProof.VMPageSize_pow in *; lia|done| | |].
    { by rewrite Et. } { unfold has_room in *. rewrite Et, Ep, Es. by intros _; apply Hroom. }
    simpl. rewrite Ea. bind_step. destruct (process_translate (mem s) q1 v Hq1 Hv) as (q2 & E2 & Hq2 & (Et2 & Ep2 & Es2)).
    destruct (mp_page _ _ _ Hm) as [x Hx]. unfold translate_to. simpl. rewrite E2, Hx.
    exists (mk (mem s) q2 x (prevSize s)), x. split_and!; try done; [|simpl; by rewrite Et2].
    destruct Hm. constructor; simpl; rewrite ?Et2, ?Ep2, ?Es2.
    + congruence.
    + done.
    + intros w y Hw. apply mp_keep0. by rewrite Et.
    + lia.
    + rewrite Ex. by intros [? ?].
Qed.

Lemma write_chunk_ready p v c s : write_chunk g curTick Always p v c s =
  (r ← ready v s;
   match r with
   | None => Ok (inr (false, (translate_to s v).2))
   | Some s =>
       m ← Port.writeBlob g curTick (mem s) (paddr s) (shift_by p (prevSize s)) (sint 32 c);
       Ok (inl (mk m (proc s) (paddr s) (sint 32 (prevSize s + c))))
   end).
Proof. unfold write_chunk, ready. by destruct (translate_to s v) as [ok s']. Qed.

Lemma write_chunk_ok s v c db off dl : vm_ok (mem s) (proc s) -> VMPageSize <= v -> v + VMPageSize < 2 ^ 64 ->
  has_room (proc s) v -> 0 < c -> v mod VMPageSize + c <= VMPageSize -> 0 <= prevSize s -> prevSize s + c < 2 ^ 31 ->
  mem s !! db = Some dl -> ~ owned db -> 0 <= off -> off + prevSize s + c <= Z.of_nat (length dl) ->
  exists s', write_chunk g curTick Always (Some (db, off)) v c s = Ok (inl s') /\
    vm_ok (mem s') (proc s') /\ maps (proc s) (proc s') v /\ prevSize s' = prevSize s + c /\
    (forall b, ~ owned b -> mem s' !! b = mem s !! b) /\
    forall w, (v <= w < v + c -> vbyte (mem s') (proc s') w = dl !! Z.to_nat (off + prevSize s + (w - v))) /\
      (~ v <= w < v + c -> is_Some (vbyte (mem s) (proc s) w) -> vbyte (mem s') (proc s') w = vbyte (mem s) (proc s) w).
Proof.
  intros Hok Hlo Hhi Hroom Hc Hin Hp0 Hp1 Hm Hdb Ho Hl.
  destruct (ready_ok s v Hok Hlo Hhi Hroom) as (s1 & x & E & Em & Hok1 & Hmaps & Eprev & Epa & Hx).
  rewrite write_chunk_ready, E. bind_step. rewrite Em, Eprev, Epa. unfold shift_by, Bytes.shift. simpl.
  rewrite !sint_small by lia.
  destruct (write_mapped (mem s) (proc s1) v x c db (off + prevSize s) dl) as (m' & -> & Hok' & Hfr & Hw); try done; [lia|].
  bind_step. eexists. split; [done|]. simpl. split_and!; [done..|]. intros w. split; intros Hr.
  - rewrite Hw. by rewrite decide_True.
  - intros Hs. rewrite Hw, decide_False by done. unfold vbyte in *.
    destruct (PageTableProof.physical (table (proc s)) w) as [y|] eqn:Ey; [|by destruct Hs].
    by rewrite (mp_keep _ _ _ Hmaps w y Ey).
Qed.

(** The number of pages that [k] bytes from [a] touch. *)
Definition pages (a k : Z) : Z :=
  if k =? 0 then 0 else (a + k - 1) / VMPageSize - a / VMPageSize + 1.

Lemma same_page_div v c : 0 < c -> v mod VMPageSize + c <= VMPageSize -> (v + c - 1) / VMPageSize = v / VMPageSize.
Proof.
  intros Hc Hin. symmetry. apply (Z.div_unique_pos _ _ _ (v mod VMPageSize + c - 1)).
  - pose proof (Z.mod_pos_bound v VMPageSize ltac:(done)). lia.
  - pose proof (Z.div_mod v VMPageSize ltac:(done)). lia.
Qed.

(** A chunk adds a page unless the byte before it is in the same one. *)
Lemma pages_step a k c : 0 <= k -> 0 < c -> (a + k) mod VMPageSize + c <= VMPageSize ->
  (0 < k /\ pages a (k + c) = pages a k /\ PageTableProof.base (a + k - 1) = PageTableProof.base (a + k)) \/
  pages a (k + c) = pages a k + 1.
Proof.
  intros Hk Hc Hin. unfold pages. replace (k + c =? 0) with false by lia.
  replace (a + (k + c) - 1) with (a + k + c - 1) by lia. rewrite same_page_div by done.
  destruct (Z.eqb_spec k 0) as [->|Hk0].
  { right. rewrite !Z.add_0_r. lia. }
  unfold PageTableProof.base.
  assert ((a + k - 1) / VMPageSize = (a + k) / VMPageSize \/ (a + k - 1) / VMPageSize + 1 = (a + k) / VMPageSize) as [->|<-];
    [|left; split_and!; [lia|lia|done]|right; lia].
  pose proof (Z.div_mod (a + k) VMPageSize ltac:(done)). pose proof (Z.mod_pos_bound (a + k) VMPageSize ltac:(done)).
  destruct (decide ((a + k) mod VMPageSize = 0)).
  - right. assert ((a + k - 1) / VMPageSize = (a + k) / VMPageSize - 1) as ->; [|lia].
    symmetry. apply (Z.div_unique_pos _ _ _ (VMPageSize - 1)); [done|]. lia.
  - left. symmetry. apply (Z.div_unique_pos _ _ _ ((a + k) mod VMPageSize - 1)); lia.
Qed.

Lemma pages_mono a k n : 0 <= k <= n -> pages a k <= pages a n.
Proof.
  intros Hk. unfold pages. destruct (Z.eqb_spec k 0), (Z.eqb_spec n 0); try lia.
  - assert (a / VMPageSize <= (a + n - 1) / VMPageSize) by (apply Z.div_le_mono; [done|lia]). lia.
  - assert ((a + k - 1) / VMPageSize <= (a + n - 1) / VMPageSize) by (apply Z.div_le_mono; [done|lia]). lia.
Qed.

Lemma region_page a n : 0 <= a -> 0 <= n < 2 ^ 31 -> a + n + VMPageSize < 2 ^ 64 -> ChunkGenerator.region a n VMPageSize.
Proof. intros Ha Hn He. constructor; [done|lia| |done]. right. exists 13. by rewrite PageTableProof.VMPageSize_pow. Qed.

(** The state after the first [k] bytes of a write. *)
Record written (m0 : Bytes.mem) (p0 : Process.t) (a off : Z) (dl : list Z) (k : Z) (s : st) : Prop := {
  wr_ok : vm_ok (mem s) (proc s);
  wr_prev : prevSize s = k;
  wr_size : Process.physmem_size (proc s) = Process.physmem_size p0;
  wr_ptr : Process.page_ptr (proc s) <= Process.page_ptr p0 + pages a k;
  wr_frame : forall b, ~ owned b -> mem s !! b = m0 !! b;
  wr_data : forall w, a <= w < a + k -> vbyte (mem s) (proc s) w = dl !! Z.to_nat (off + (w - a));
  wr_rest : forall w, ~ a <= w < a + k -> is_Some (vbyte m0 p0 w) -> vbyte (mem s) (proc s) w = vbyte m0 p0 w
}.

Section write.
Context (m : Bytes.mem) (p : Process.t) (a n : Z) (db : positive) (off : Z) (dl : list Z).
Context (Hok : vm_ok m p) (Ha : VMPageSize <= a) (Hn : 0 <= n < 2 ^ 31) (He : a + n + VMPageSize < 2 ^ 64).
Context (Hm : m !! db = Some dl) (Hdb : ~ owned db) (Ho : 0 <= off) (Hl : off + n <= Z.of_nat (length dl)).
Context (Hr1 : Process.page_ptr p + pages a n <= 2 ^ 18)
        (Hr2 : (Process.page_ptr p + pages a n) * VMPageSize <= Process.physmem_size p).

Lemma written_step k c s : 0 <= k -> 0 < c -> k + c <= n -> (a + k) mod VMPageSize + c <= VMPageSize ->
  written m p a off dl k s ->
  exists s', write_chunk g curTick Always (Some (db, off)) (a + k) c s = Ok (inl s') /\ written m p a off dl (k + c) s'.
Proof.
  intros Hk Hc Hkc Hin []. pose proof (pages_mono a (k + c) n ltac:(lia)) as Hmono.
  pose proof (pages_step a k c Hk Hc Hin) as Hstep.
  assert (0 < k -> PageTableProof.base (a + k - 1) = PageTableProof.base (a + k) ->
    is_Some (PageTableProof.physical (table (proc s)) (a + k))) as Hmapped.
  { intros Hk0 Hb. assert (is_Some (vbyte (mem s) (proc s) (a + k - 1))) as Hs.
    { rewrite wr_data0 by lia. apply lookup_lt_is_Some. lia. }
    rewrite vbyte_some in Hs by done. unfold PageTableProof.physical in *. rewrite Hb in Hs.
    by destruct (table (proc s) !! PageTableProof.base (a + k)). }
  assert (has_room (proc s) (a + k)) as Hroom.
  { intros Hnone. destruct Hstep as [(Hk0 & _ & Hb)|Hp].
    - specialize (Hmapped Hk0 Hb). rewrite Hnone in Hmapped. by destruct Hmapped.
    - rewrite wr_size0. rewrite PageTableProof.VMPageSize_pow in *. lia. }
  destruct (write_chunk_ok s (a + k) c db off dl) as (s' & E & Hok' & Hmaps & Hprev & Hfr & Hw); try done; try lia.
  { by rewrite wr_frame0. }
  exists s'. split; [done|]. constructor; [done|lia|..].
  - by rewrite (mp_size _ _ _ Hmaps).
  - destruct (mp_ptr _ _ _ Hmaps). destruct Hstep as [(Hk0 & Hp & Hb)|Hp]; [|lia].
    rewrite (mp_none _ _ _ Hmaps (Hmapped Hk0 Hb)). lia.
  - intros b Hb. by rewrite Hfr, wr_frame0.
  - intros w Hwr. destruct (Hw w) as [H1 H2]. destruct (decide (a + k <= w < a + k + c)) as [Hd|Hd].
    + rewrite H1 by done. f_equal. lia.
    + assert (a <= w < a + k) as Hold by lia. rewrite H2; [by apply wr_data0|done|].
      rewrite wr_data0 by done. apply lookup_lt_is_Some. lia.
  - intros w Hwr Hs. destruct (Hw w) as [_ H2]. assert (~ a <= w < a + k) as Hold by lia.
    rewrite H2; [by apply wr_rest0|lia|]. by rewrite wr_rest0.
Qed.

Lemma write_blob_written gp : exists s, tryWriteBlob g curTick Always m p gp a (Some (db, off)) n = Ok (true, s) /\
  written m p a off dl n s.
Proof.
  pose proof (ChunkGenerator.for_chunks_rule (write_chunk g curTick Always (Some (db, off)))
    (written m p a off dl) (fun _ => False) a n VMPageSize) as Hrule.
  ospecialize (Hrule _ _ (mk m p gp 0) _).
  - apply region_page; [rewrite PageTableProof.VMPageSize_pow in Ha; lia|done|done].
  - intros k c s Hk Hc Hkc Hin Hs.
    destruct (written_step k c s Hk Hc Hkc (Hin ltac:(done)) Hs) as (s' & -> & Hs'). done.
  - constructor; try done; [|intros w Hw; lia]. change (pages a 0) with 0. simpl. lia.
  - unfold tryWriteBlob.
    destruct (ChunkGenerator.for_chunks _ a n VMPageSize _) as [[s|]|]; [|done..]. by exists s.
Qed.
End write.

(** The state after the first [k] bytes of a read. *)
Record fetched (m0 : Bytes.mem) (p0 : Process.t) (a : Z) (db : positive) (off : Z) (dl : list Z) (k : Z) (s : st) : Prop := {
  ft_ok : vm_ok (mem s) (proc s);
  ft_prev : prevSize s = k;
  ft_pages : same_pages p0 (proc s);
  ft_buf : exists dk, mem s = <[db := dk]> m0 /\ length dk = length dl /\ forall i, 0 <= i -> dk !! Z.to_nat i =
    if decide (off <= i < off + k) then vbyte m0 p0 (a + (i - off)) else dl !! Z.to_nat i
}.

Section read.
Context (m : Bytes.mem) (p : Process.t) (a n : Z) (db : positive) (off : Z) (dl : list Z).
Context (Hok : vm_ok m p) (Ha : VMPageSize <= a) (Hn : 0 <= n < 2 ^ 31) (He : a + n + VMPageSize < 2 ^ 64).
Context (Hm : m !! db = Some dl) (Hdb : ~ owned db) (Ho : 0 <= off) (Hl : off + n <= Z.of_nat (length dl)).

(** A read that gave up met a page that is not mapped. *)
Definition unmapped (r : bool * st) : Prop :=
  r.1 = false /\ exists v, a <= v < a + n /\ vbyte m p v = None.

Lemma fetched_step k c s : 0 <= k -> 0 < c -> k + c <= n -> (a + k) mod VMPageSize + c <= VMPageSize ->
  fetched m p a db off dl k s ->
  match read_chunk g curTick (Some (db, off)) (a + k) c s with
  | Ok (inl s') => fetched m p a db off dl (k + c) s' | Ok (inr r) => unmapped r | Er _ => False end.
Proof.
  intros Hk Hc Hkc Hin [Hoks Hprev Hsame (dk & Emem & Hlen & Hi)].
  assert (VMPageSize <= a + k < 2 ^ 64) as Hv by (rewrite PageTableProof.VMPageSize_pow in *; lia).
  destruct (process_translate (mem s) (proc s) (a + k) Hoks Hv) as (q & E & Hq & Hsq).
  unfold read_chunk, translate_to. rewrite E.
  destruct (PageTableProof.physical (table (proc s)) (a + k)) as [x|] eqn:Ex.
  2:{ split; [done|]. exists (a + k). split; [lia|]. unfold vbyte.
      destruct Hsame as (Et & _). rewrite Et in Ex. by rewrite Ex. }
  simpl. destruct (chunk_range (mem s) (proc s) (a + k) x c Hoks Ex Hc Hin) as (H0 & H1 & H2).
  unfold shift_by, Bytes.shift. simpl. rewrite Hprev, !sint_small by lia.
  assert (forall y, contents (mem s) y = contents m y) as Hcm.
  { intros y. rewrite Emem. apply contents_frame. intros b Hb. apply lookup_insert_ne. by intros <-. }
  destruct (PortProof.readBlob_ok g curTick (mem s) x c db (off + k) dk) as (dk' & -> & Hlen' & Hi');
    [done|lia|lia|rewrite Emem; apply lookup_insert_eq|done|lia|lia| |].
  { intros y Hy. apply (vm_full _ _ Hoks). lia. }
  bind_step. destruct Hsame as (Et & Ep & Es), Hsq as (Et2 & Ep2 & Es2). constructor; simpl.
  - apply (vm_ok_mem (mem s)); [done|]. intros y Hy. rewrite contents_frame with (m := mem s).
    + apply (vm_full _ _ Hoks). by rewrite <- Es2.
    + intros b Hb. apply lookup_insert_ne. by intros <-.
  - done.
  - split_and!; congruence.
  - exists dk'. split; [rewrite Emem; apply insert_insert_eq|]. split; [lia|]. intros i Hi0. rewrite Hi' by done.
    destruct (decide (off + k <= i < off + k + c)).
    + rewrite decide_True by lia. rewrite Hcm. unfold vbyte. rewrite <- Et.
      replace (a + (i - off)) with (a + k + (i - (off + k))) by lia.
      by rewrite (physical_step (proc s) (a + k) x) by (done || lia).
    + rewrite Hi by done. destruct (decide (off <= i < off + k)); [by rewrite decide_True by lia|by rewrite decide_False by lia].
Qed.

Lemma read_blob_fetched gp : match tryReadBlob g curTick m p gp a (Some (db, off)) n with
  | Ok (true, s) => fetched m p a db off dl n s
  | Ok (false, s) => exists v, a <= v < a + n /\ vbyte m p v = None
  | Er _ => False end.
Proof.
  pose proof (ChunkGenerator.for_chunks_rule (read_chunk g curTick (Some (db, off)))
    (fetched m p a db off dl) unmapped a n VMPageSize) as Hrule.
  ospecialize (Hrule _ _ (mk m p gp 0) _).
  - apply region_page; [rewrite PageTableProof.VMPageSize_pow in Ha; lia|done|done].
  - intros k c s Hk Hc Hkc Hin. by apply fetched_step; [..|apply Hin].
  - constructor; simpl; [done|done|done|]. exists dl. split; [by rewrite insert_id|]. split; [done|].
    intros i _. by rewrite decide_False by lia.
  - unfold tryReadBlob.
    destruct (ChunkGenerator.for_chunks _ a n VMPageSize _) as [[s|[b s]]|]; [done| |done].
    destruct Hrule as [Eb Hv]. simpl in Eb. subst b. done.
Qed.
End read.
End vm.
End VirtMem.
Import VirtMem.

(** C27. Writing [n] bytes at a virtual address outside page 0, with a port that
    allocates, a coherent translation cache and frames left for the range: the
    bytes are there afterwards, every byte that was mapped elsewhere is
    unchanged, the memory outside the peer is untouched, and frames are used
    only for pages of the range. *)
Theorem write_blob_refines {P : Peer} {F : FunctionalMemory P} g curTick m p gp a n db off dl :
  vm_ok m p -> VMPageSize <= a -> 0 <= n < 2 ^ 31 -> a + n + VMPageSize < 2 ^ 64 ->
  m !! db = Some dl -> ~ owned db -> 0 <= off -> off + n <= Z.of_nat (length dl) ->
  Process.page_ptr p + pages a n <= 2 ^ 18 ->
  (Process.page_ptr p + pages a n) * VMPageSize <= Process.physmem_size p ->
  exists s, tryWriteBlob g curTick Always m p gp a (Some (db, off)) n = Ok (true, s) /\ vm_ok (mem s) (proc s) /\
    (forall w, a <= w < a + n -> vbyte (mem s) (proc s) w = dl !! Z.to_nat (off + (w - a))) /\
    (forall w, ~ a <= w < a + n -> is_Some (vbyte m p w) -> vbyte (mem s) (proc s) w = vbyte m p w) /\
    (forall b, ~ owned b -> mem s !! b = m !! b) /\
    Process.page_ptr (proc s) <= Process.page_ptr p + pages a n.
Proof.
  intros. destruct (write_blob_written g curTick m p a n db off dl) with (gp := gp) as (s & E & []); try done.
  exists s. split_and!; done.
Qed.

(** C28. Reading [n] bytes at a virtual address outside page 0, with a coherent
    translation cache: the read succeeds just when every
    byte of the range is mapped, the buffer then holds those bytes and nothing
    else has changed; otherwise it reports failure. *)
Theorem read_blob_refines {P : Peer} {F : FunctionalMemory P} g curTick m p gp a n db off dl :
  vm_ok m p -> VMPageSize <= a -> 0 <= n < 2 ^ 31 -> a + n + VMPageSize < 2 ^ 64 ->
  m !! db = Some dl -> ~ owned db -> 0 <= off -> off + n <= Z.of_nat (length dl) ->
  exists ok s, tryReadBlob g curTick m p gp a (Some (db, off)) n = Ok (ok, s) /\
    (ok = true <-> forall w, a <= w < a + n -> is_Some (vbyte m p w)) /\
    (ok = true -> exists dl', mem s = <[db := dl']> m /\ length dl' = length dl /\
       (forall i, 0 <= i -> dl' !! Z.to_nat i =
          if decide (off <= i < off + n) then vbyte m p (a + (i - off)) else dl !! Z.to_nat i) /\
       (forall w, vbyte (mem s) (proc s) w = vbyte m p w)).
Proof.
  intros Hok Ha Hn He Hm Hdb Ho Hl. pose proof (read_blob_fetched g curTick m p a n db off dl) as H.
  specialize (H Hok Ha Hn He Hm Hdb Ho Hl gp).
  destruct (tryReadBlob g curTick m p gp a (Some (db, off)) n) as [[[] s]|f]; [| |done].
  - destruct H as [_ _ Hsame (dl' & Em & Hlen & Hi)]. exists true, s. split; [done|]. split.
    + split; [|done]. intros _ w Hw. specialize (Hi (off + (w - a)) ltac:(lia)). rewrite decide_True in Hi by lia.
      replace (a + (off + (w - a) - off)) with w in Hi by lia. rewrite <- Hi. apply lookup_lt_is_Some. lia.
    + intros _. exists dl'. split_and!; [done..|]. intros w. rewrite (vbyte_same _ _ _ _ Hsame). unfold vbyte.
      destruct (PageTableProof.physical _ w) as [x|]; [|done]. simpl. rewrite Em. apply contents_frame.
      intros b Hb. apply lookup_insert_ne. by intros <-.
  - destruct H as (v & Hv & Hnone). exists false, s. split; [done|]. split; [|done]. split; [done|].
    intros Hall. destruct (Hall v Hv) as [? Hs]. congruence.
Qed.

(** ** A process with four pages of memory and nothing mapped *)
Definition demo_ram : PhysicalMemory.t := PhysicalMemory.mk [] (Some 1%positive) 0 10 0 0x8000 0.
Definition demo_zeros : list Z := replicate (Z.to_nat 0x8000) 0.
Definition demo_ram_bytes : Bytes.mem :=
  {[ 1%positive := demo_zeros; 2%positive := [65; 66; 67; 68] ]}.
Definition demo_vm : Process.t :=
  Process.mk 100 0x8000 0 (PageTable.mk ∅ ((0, demo_g), (0, demo_g), (0, demo_g)) 8192 8191)
    0x200000 0x1fe000 0x800000 0x400000 0.

#[export] Instance demo_peer : Peer := physmem_peer demo_ram.
#[export] Instance demo_memory : FunctionalMemory demo_peer :=
  PhysMemPeer.physmem_memory demo_ram ltac:(vm_compute; discriminate) ltac:(reflexivity).

Lemma demo_ram_holds : holds_bytes demo_ram_bytes demo_ram 1 demo_zeros.
Proof.
  constructor; [done| |unfold demo_zeros; by rewrite length_replicate|simpl; lia].
  unfold demo_ram_bytes. by rewrite lookup_insert_eq.
Qed.

Lemma demo_vm_ok : vm_ok demo_ram_bytes demo_vm.
Proof.
  constructor.
  - constructor; simpl; [done|done|lia|by intros ? ? ?..].
  - unfold PageTableProof.coherent. simpl. split_and!; by left.
  - done.
  - done.
  - intros x Hx. change (is_Some (PhysMemPeer.byte_at demo_ram demo_ram_bytes x)).
    change (0 <= x < 0x8000) in Hx. rewrite (PhysMemPeer.byte_at_holds _ _ _ _ _ demo_ram_holds).
    change (PhysicalMemory.cachedStart demo_ram) with 0. rewrite decide_True by lia.
    apply lookup_lt_is_Some. unfold demo_zeros. rewrite length_replicate. lia.
Qed.

Definition demo_storage : Packet.t :=
  Packet.mk 0 MemCmd.InvalidCmd (Request.mk 0 0 0 0 0 0 0 0 0 0 0) None 0 0 0 0 MemCmd.InvalidCmd 0 0 0 None.

(** Three bytes across a page boundary: two frames are used. *)
Lemma write_blob_refines_witness : exists s,
  tryWriteBlob demo_storage 0 Always demo_ram_bytes demo_vm 0 0x3ffe (Some (2%positive, 1)) 3 = Ok (true, s) /\
  vbyte (mem s) (proc s) 0x4000 = Some 68 /\ Process.page_ptr (proc s) <= 2.
Proof.
  destruct (write_blob_refines demo_storage 0 demo_ram_bytes demo_vm 0 0x3ffe 3 2 1 [65; 66; 67; 68])
    as (s & E & _ & Hd & _ & _ & Hp).
  - exact demo_vm_ok.
  - done.
  - done.
  - done.
  - reflexivity.
  - discriminate.
  - done.
  - done.
  - vm_compute. discriminate.
  - vm_compute. discriminate.
  - exists s. split_and!; [exact E| |exact Hp]. rewrite (Hd 0x4000 ltac:(lia)). reflexivity.
Defined.

(** A read of a range that is not mapped fails. *)
Lemma read_blob_refines_witness : exists s,
  tryReadBlob demo_storage 0 demo_ram_bytes demo_vm 0 0x3ffe (Some (2%positive, 1)) 3 = Ok (false, s).
Proof.
  destruct (read_blob_refines demo_storage 0 demo_ram_bytes demo_vm 0 0x3ffe 3 2 1 [65; 66; 67; 68])
    as ([] & s & E & Hiff & _).
  - exact demo_vm_ok.
  - done.
  - done.
  - done.
  - reflexivity.
  - discriminate.
  - done.
  - done.
  - exfalso. destruct Hiff as [Hall _]. destruct (Hall eq_refl 0x3ffe) as [x Hx]; [lia|]. discriminate Hx.
  - exists s. exact E.
Defined.

(** What is written through the port is read back through it. *)
Theorem write_read_blob {P : Peer} {F : FunctionalMemory P} g curTick m p gp a n db off dl cb cl :
  vm_ok m p -> VMPageSize <= a -> 0 <= n < 2 ^ 31 -> a + n + VMPageSize < 2 ^ 64 ->
  m !! db = Some dl -> ~ owned db -> 0 <= off -> off + n <= Z.of_nat (length dl) ->
  m !! cb = Some cl -> ~ owned cb -> n <= Z.of_nat (length cl) ->
  Process.page_ptr p + pages a n <= 2 ^ 18 ->
  (Process.page_ptr p + pages a n) * VMPageSize <= Process.physmem_size p ->
  exists s s' cl', tryWriteBlob g curTick Always m p gp a (Some (db, off)) n = Ok (true, s) /\
    tryReadBlob g curTick (mem s) (proc s) gp a (Some (cb, 0)) n = Ok (true, s') /\
    mem s' !! cb = Some cl' /\
    take (Z.to_nat n) cl' = take (Z.to_nat n) (drop (Z.to_nat off) dl).
Proof.
  intros Hok Ha Hn He Hm Hdb Ho Hl Hcm Hcb Hcl Hr1 Hr2.
  destruct (write_blob_written g curTick m p a n db off dl) with (gp := gp) as (s & E & Hw); try done.
  pose proof (read_blob_fetched g curTick (mem s) (proc s) a n cb 0 cl) as H.
  specialize (H (wr_ok _ _ _ _ _ _ _ Hw) Ha Hn He). rewrite (wr_frame _ _ _ _ _ _ _ Hw) in H by done.
  specialize (H Hcm Hcb ltac:(lia) ltac:(lia) gp).
  destruct (tryReadBlob g curTick (mem s) (proc s) gp a (Some (cb, 0)) n) as [[[] s']|f] eqn:Er; [| |done].
  - destruct H as [_ _ _ (cl' & Em & Hlen & Hi)]. exists s, s', cl'. split_and!; [done|done|rewrite Em; apply lookup_insert_eq|].
    apply list_eq. intros i. rewrite Bytes.take_drop_lookup. destruct (decide (i < Z.to_nat n)%nat) as [Hin|Hout].
    + rewrite lookup_take_lt by done. specialize (Hi (Z.of_nat i) ltac:(lia)). rewrite Nat2Z.id in Hi.
      rewrite Hi, decide_True by lia. rewrite (wr_data _ _ _ _ _ _ _ Hw) by lia. f_equal. lia.
    + apply lookup_take_ge. lia.
  - destruct H as (v & Hv & Hnone). rewrite (wr_data _ _ _ _ _ _ _ Hw) in Hnone by done.
    apply lookup_ge_None in Hnone. lia.
Qed.

Lemma write_read_blob_witness : exists s s' cl',
  tryWriteBlob demo_storage 0 Always (<[3%positive := [0; 0; 0; 0]]> demo_ram_bytes) demo_vm 0 0x3ffe (Some (2%positive, 1)) 3
    = Ok (true, s) /\
  tryReadBlob demo_storage 0 (mem s) (proc s) 0 0x3ffe (Some (3%positive, 0)) 3 = Ok (true, s') /\
  mem s' !! 3%positive = Some cl' /\ take 3 cl' = [66; 67; 68].
Proof.
  apply (write_read_blob demo_storage 0 (<[3%positive := [0; 0; 0; 0]]> demo_ram_bytes) demo_vm 0 0x3ffe 3
    2 1 [65; 66; 67; 68] 3 [0; 0; 0; 0]).
  - apply (vm_ok_mem demo_ram_bytes); [exact demo_vm_ok|]. intros x Hx.
    rewrite (contents_frame demo_ram_bytes); [by apply (vm_full _ _ demo_vm_ok)|].
    intros b [= <-]. by rewrite lookup_insert_ne.
  - done.
  - done.
  - done.
  - reflexivity.
  - discriminate.
  - done.
  - done.
  - reflexivity.
  - discriminate.
  - done.
  - vm_compute. discriminate.
  - vm_compute. discriminate.
Defined.
