(* ===== verification/Mshr.v ===== *)
(** * Outstanding misses

    [src/mem/cache/mshr.hh], [mshr.cc]: a miss status register with the
    requests that wait for its block (Module [MSHR]), and
    [src/mem/cache/mshr_queue.hh], [mshr_queue.cc]: the registers of a cache
    and the order in which they go out (Module [MSHRQueue]).

    Registers and packets are objects that several caches refer to: a packet's
    sender state is the register of the cache above that sent it, which the
    register below marks while its own request is not out yet.  Both live in a
    [store]; a reference is a key. *)
From S2P Require Import Prelude EventQueue IntMath Request Packet.

Module MSHR.

Inductive Source := FromCPU | FromSnoop | FromPrefetcher.
#[export] Instance Source_eq_dec : EqDecision Source.
Proof. solve_decision. Defined.

Record Target := mkTarget {
  recvTime : Z;
  t_readyTime : Z;
  t_order : Z;
  pkt : Z;
  source : Source;
  markedPending : bool
}.

Record TargetList := mkList { elems : list Target; needsExclusive : bool; hasUpgrade : bool }.
Definition empty_list : TargetList := mkList [] false false.
Definition resetFlags (l : TargetList) : TargetList := mkList (elems l) false false.
Definition isReset (l : TargetList) : bool := negb (needsExclusive l) && negb (hasUpgrade l).

(** The queue a register belongs to is its owner's; [data] is never written
    after [allocate] clears it. *)
Record t := mk {
  readyTime : Z;
  order : Z;
  addr : Z;
  size : Z;
  inService : bool;
  isForward : bool;
  isUncacheable : bool;
  downstreamPending : bool;
  pendingInvalidate : bool;
  pendingShared : bool;
  threadNum : Z;
  ntargets : Z;
  targets : TargetList;
  deferredTargets : TargetList
}.

(** [req] of a packet in [null_req] is null. *)
Record store := mkStore {
  packets : gmap Z Packet.t;
  null_req : gset Z;
  registers : gmap Z t
}.

Definition set_inService (m : t) (b : bool) : t :=
  mk (readyTime m) (order m) (addr m) (size m) b (isForward m) (isUncacheable m) (downstreamPending m)
     (pendingInvalidate m) (pendingShared m) (threadNum m) (ntargets m) (targets m) (deferredTargets m).
Definition set_downstream (m : t) (b : bool) : t :=
  mk (readyTime m) (order m) (addr m) (size m) (inService m) (isForward m) (isUncacheable m) b
     (pendingInvalidate m) (pendingShared m) (threadNum m) (ntargets m) (targets m) (deferredTargets m).
Definition set_pending (m : t) (inv shared : bool) : t :=
  mk (readyTime m) (order m) (addr m) (size m) (inService m) (isForward m) (isUncacheable m) (downstreamPending m)
     inv shared (threadNum m) (ntargets m) (targets m) (deferredTargets m).
Definition set_ntargets (m : t) (n : Z) : t :=
  mk (readyTime m) (order m) (addr m) (size m) (inService m) (isForward m) (isUncacheable m) (downstreamPending m)
     (pendingInvalidate m) (pendingShared m) (threadNum m) n (targets m) (deferredTargets m).
Definition set_lists (m : t) (l d : TargetList) : t :=
  mk (readyTime m) (order m) (addr m) (size m) (inService m) (isForward m) (isUncacheable m) (downstreamPending m)
     (pendingInvalidate m) (pendingShared m) (threadNum m) (ntargets m) l d.
Definition set_issue (m : t) (ready ord : Z) : t :=
  mk ready ord (addr m) (size m) (inService m) (isForward m) (isUncacheable m) (downstreamPending m)
     (pendingInvalidate m) (pendingShared m) (threadNum m) (ntargets m) (targets m) (deferredTargets m).

(** A register just constructed; the fields the constructor leaves are those of
    the storage [g]. *)
Definition new (g : t) : t :=
  mk (readyTime g) (order g) (addr g) (size g) false (isForward g) (isUncacheable g) (downstreamPending g)
     (pendingInvalidate g) (pendingShared g) (-1) 0 empty_list empty_list.

Definition get (w : store) (id : Z) : res t := deref (registers w !! id).
Definition put (w : store) (id : Z) (m : t) : store :=
  mkStore (packets w) (null_req w) (<[id := m]> (registers w)).
Definition get_pkt (w : store) (p : Z) : res Packet.t := deref (packets w !! p).
Definition put_pkt (w : store) (p : Z) (k : Packet.t) : store :=
  mkStore (<[p := k]> (packets w)) (null_req w) (registers w).

(** The two target lists of a register. *)
Inductive which := Current | Deferred.
Definition list_of (m : t) (l : which) : TargetList :=
  match l with Current => targets m | Deferred => deferredTargets m end.
Definition with_list (m : t) (l : which) (x : TargetList) : t :=
  match l with Current => set_lists m x (deferredTargets m) | Deferred => set_lists m (targets m) x end.

(** [dynamic_cast<MSHR*>(pkt->senderState)]. *)
Definition upstream (w : store) (k : Packet.t) : option Z :=
  s ← Packet.senderState k; if bool_decide (is_Some (registers w !! s)) then Some s else None.

(** ** Target lists *)

(** The flags of the list, the mark on the register above, the new target. *)
Definition add_flags (l : TargetList) (k : Packet.t) (src : Source) : TargetList :=
  if bool_decide (src = FromSnoop) then l
  else mkList (elems l) (needsExclusive l || Packet.needsExclusive k)
              (hasUpgrade l || bool_decide (Packet.cmd k = MemCmd.UpgradeReq)).
Definition mark_upstream (w : store) (k : Packet.t) : res store :=
  match upstream w k with
  | None => Ok w
  | Some u =>
      m ← get w u;
      _ ← c_assert (negb (downstreamPending m));
      Ok (put w u (set_downstream m true))
  end.
Definition add (curTick : Z) (w : store) (id : Z) (l : which) (p ready ord : Z) (src : Source) (markPending : bool) :
    res store :=
  k ← get_pkt w p;
  m ← get w id;
  let w := put w id (with_list m l (add_flags (list_of m l) k src)) in
  w ← (if markPending then mark_upstream w k else Ok w);
  m ← get w id;
  let x := list_of m l in
  Ok (put w id (with_list m l
        (mkList (elems x ++ [mkTarget curTick ready ord p src markPending]) (needsExclusive x) (hasUpgrade x)))).

(** [replaceUpgrades()]. *)
Fixpoint replace_upgrades (w : store) (ts : list Target) : res store :=
  match ts with
  | [] => Ok w
  | x :: ts =>
      k ← get_pkt w (pkt x);
      let w := if bool_decide (Packet.cmd k = MemCmd.UpgradeReq)
               then put_pkt w (pkt x) (Packet.set_cmd k MemCmd.ReadExReq (Packet.origCmd k)) else w in
      replace_upgrades w ts
  end.
Definition replaceUpgrades (w : store) (id : Z) (l : which) : res store :=
  m ← get w id;
  let x := list_of m l in
  if negb (hasUpgrade x) then Ok w else
  w ← replace_upgrades w (elems x);
  m ← get w id;
  let x := list_of m l in
  Ok (put w id (with_list m l (mkList (elems x) (needsExclusive x) false))).

(** [clearDownstreamPending()] of a list and of a register: the register above
    does the same for the ones above it. *)
Fixpoint clear_targets (clear : store -> Z -> res store) (w : store) (ts : list Target) : res store :=
  match ts with
  | [] => Ok w
  | x :: ts =>
      w ← (if markedPending x then
             k ← get_pkt w (pkt x);
             match upstream w k with None => Ok w | Some u => clear w u end
           else Ok w);
      clear_targets clear w ts
  end.
Fixpoint clear_downstream (fuel : nat) (w : store) (id : Z) : res store :=
  match fuel with
  | O => Er OutOfFuel
  | S fuel =>
      m ← get w id;
      _ ← c_assert (downstreamPending m);
      let w := put w id (set_downstream m false) in
      m ← get w id;
      clear_targets (clear_downstream fuel) w (elems (targets m))
  end.
(** Every call clears the mark of one register. *)
Definition clear_fuel (w : store) : nat := S (base.size (registers w)).
Definition clearDownstreamPending (w : store) (id : Z) : res store := clear_downstream (clear_fuel w) w id.
Definition list_clearDownstreamPending (w : store) (id : Z) (l : which) : res store :=
  m ← get w id; clear_targets (clear_downstream (clear_fuel w)) w (elems (list_of m l)).

(** ** Registers *)
Definition getNumTargets (m : t) : Z := ntargets m.
Definition hasTargets (m : t) : bool := match elems (targets m) with [] => false | _ => true end.
Definition getTarget (m : t) : res Target :=
  _ ← c_assert (hasTargets m); deref (head (elems (targets m))).
Definition pop (m : t) : res t :=
  match elems (targets m) with
  | [] => Er BadPointer
  | _ :: ts =>
      Ok (set_lists (set_ntargets m (uint 16 (ntargets m - 1)))
            (mkList ts (needsExclusive (targets m)) (hasUpgrade (targets m))) (deferredTargets m))
  end.
Definition popTarget (w : store) (id : Z) : res store := m ← get w id; m ← pop m; Ok (put w id m).

Definition isForwardNoResponse (w : store) (id : Z) : res bool :=
  m ← get w id;
  if negb (getNumTargets m =? 1) then Ok false else
  x ← getTarget m;
  k ← get_pkt w (pkt x);
  Ok (bool_decide (source x = FromCPU) && negb (Packet.needsResponse k)).

Definition allocate (curTick : Z) (w : store) (id _addr _size target whenReady _order : Z) : res store :=
  m ← get w id;
  k ← get_pkt w target;
  let m := mk whenReady _order _addr _size false false (Request.isUncacheable (Packet.req k)) false
              (pendingInvalidate m) (pendingShared m) 0 1 (targets m) (deferredTargets m) in
  _ ← c_assert (isReset (targets m));
  let src := if bool_decide (Packet.cmd k = MemCmd.HardPFReq) then FromPrefetcher else FromCPU in
  w ← add curTick (put w id m) id Current target whenReady _order src true;
  m ← get w id;
  _ ← c_assert (isReset (deferredTargets m));
  Ok (put w id (set_pending m false false)).

Definition markInService (w : store) (id : Z) : res (bool * store) :=
  m ← get w id;
  _ ← c_assert (negb (inService m));
  f ← isForwardNoResponse w id;
  if (f : bool) then
    _ ← c_assert (getNumTargets m =? 1);
    w ← popTarget w id; Ok (true, w)
  else
    let w := put w id (set_inService m true) in
    w ← (if negb (downstreamPending m) then list_clearDownstreamPending w id Current else Ok w);
    Ok (false, w).

Definition deallocate (w : store) (id : Z) : res store :=
  m ← get w id;
  _ ← c_assert (negb (hasTargets m));
  let m := set_lists m (resetFlags (targets m)) (deferredTargets m) in
  _ ← c_assert (isReset (deferredTargets m));
  _ ← c_assert (ntargets m =? 0);
  Ok (put w id (set_inService m false)).

Definition bump (w : store) (id : Z) : res store :=
  m ← get w id; Ok (put w id (set_ntargets m (uint 16 (ntargets m + 1)))).

Definition allocateTarget (curTick : Z) (w : store) (id p whenReady _order : Z) : res store :=
  k ← get_pkt w p;
  _ ← c_assert (negb (bool_decide (Packet.cmd k = MemCmd.HardPFReq)));
  m ← get w id;
  w ← (if inService m &&
          (negb (bool_decide (elems (deferredTargets m) = [])) || pendingInvalidate m ||
           (negb (needsExclusive (targets m)) && Packet.needsExclusive k))
       then add curTick w id Deferred p whenReady _order FromCPU true
       else add curTick w id Current p whenReady _order FromCPU (negb (inService m)));
  bump w id.

(** [handleSnoop]; [fresh] is the packet that [new Packet(pkt, true)] makes, in
    storage that held [g]. *)
Definition handleSnoop (curTick : Z) (g : Packet.t) (fresh : Z) (w : store) (id p _order : Z) : res (bool * store) :=
  m ← get w id;
  k ← get_pkt w p;
  if negb (inService m) || (Packet.isExpressSnoop k && downstreamPending m) then
    w ← (if Packet.needsExclusive k then
           w ← replaceUpgrades w id Current; replaceUpgrades w id Deferred
         else Ok w);
    Ok (false, w)
  else
    w ← (if Packet.needsExclusive k then replaceUpgrades w id Deferred else Ok w);
    m ← get w id;
    if pendingInvalidate m then Ok (true, w) else
    if needsExclusive (targets m) || Packet.needsExclusive k then
      k ← get_pkt w p;
      let w := put_pkt w fresh (Packet.copy g k curTick true) in
      w ← add curTick w id Current fresh curTick _order FromSnoop (downstreamPending m && needsExclusive (targets m));
      w ← bump w id;
      m ← get w id;
      k ← get_pkt w p;
      let w := if needsExclusive (targets m)
               then put_pkt w p (Packet.setSupplyExclusive (Packet.assertMemInhibit k))
               else mkStore (packets w) ({[fresh]} ∪ null_req w) (registers w) in
      let w := if Packet.needsExclusive k then put w id (set_pending m true (pendingShared m)) else w in
      Ok (true, w)
    else
      k ← get_pkt w p;
      let w := put w id (set_pending m (pendingInvalidate m) true) in
      Ok (true, put_pkt w p (Packet.assertShared k)).

Definition promoteDeferredTargets (curTick : Z) (w : store) (id : Z) : res (bool * store) :=
  m ← get w id;
  _ ← c_assert (negb (hasTargets m));
  match elems (deferredTargets m) with
  | [] => Ok (false, w)
  | x :: _ =>
      let m := set_lists m (deferredTargets m) (targets m) in
      _ ← c_assert (Z.of_nat (length (elems (targets m))) =? ntargets m);
      let m := set_lists m (targets m) (resetFlags (deferredTargets m)) in
      let m := set_pending m false false in
      Ok (true, put w id (set_issue m (Z.max curTick (t_readyTime x)) (t_order x)))
  end.

(** [handleFill(pkt, blk)]; the block is not used. *)
Definition handleFill (w : store) (id p : Z) : res store :=
  m ← get w id;
  k ← get_pkt w p;
  let k := if pendingShared m then Packet.assertShared k else k in
  let w := put_pkt w p k in
  if negb (Packet.sharedAsserted k) && negb (pendingInvalidate m) && needsExclusive (deferredTargets m) then
    _ ← c_assert (negb (needsExclusive (targets m)));
    let x := targets m in
    let w := put w id (set_lists m (mkList (elems x) true (hasUpgrade x)) (deferredTargets m)) in
    _ ← c_assert (negb (downstreamPending m));
    w ← list_clearDownstreamPending w id Deferred;
    m ← get w id;
    let x := targets m in
    Ok (put w id (set_lists m (mkList (elems x ++ elems (deferredTargets m)) (needsExclusive x) (hasUpgrade x))
                              empty_list))
  else Ok w.

(** [checkFunctional(pkt)] on the waiting packets, in order; [p] is a packet
    outside the store, whose data is in [b]. *)
Section functional.
Context (fresh : positive) (garbage : Z -> list Z).

Fixpoint list_checkFunctional (w : store) (b : Bytes.mem) (p : Packet.t) (ts : list Target) :
    res (bool * Bytes.mem * Packet.t) :=
  match ts with
  | [] => Ok (false, b, p)
  | x :: ts =>
      k ← get_pkt w (pkt x);
      '(hit, b, p) ← Packet.checkFunctional_pkt fresh garbage b p k;
      if (hit : bool) then Ok (true, b, p) else list_checkFunctional w b p ts
  end.
Definition checkFunctional (w : store) (id : Z) (b : Bytes.mem) (p : Packet.t) : res (bool * Bytes.mem * Packet.t) :=
  m ← get w id;
  if Packet.isPrint p then
    '(_, b, p) ← Packet.checkFunctional fresh garbage b p (addr m) (size m) None;
    Ok (false, b, p)
  else
    '(hit, b, p) ← list_checkFunctional w b p (elems (targets m));
    if (hit : bool) then Ok (true, b, p) else list_checkFunctional w b p (elems (deferredTargets m)).
End functional.
End MSHR.

(** ** The queue *)
Module MSHRQueue.

(** The lists hold references to registers. *)
Record t := mk {
  allocatedList : list Z;
  readyList : list Z;
  freeList : list Z;
  numEntries : Z;
  numReserve : Z;
  allocated : Z;
  inServiceEntries : Z
}.

(** The registers are the keys [ids], new ones. *)
Definition new (ids : list Z) (num_entries reserve : Z) : res t :=
  _ ← c_assert (Z.of_nat (length ids) =? num_entries + reserve - 1);
  Ok (mk [] [] ids (num_entries + reserve - 1) reserve 0 0).

Definition set_ready (q : t) (l : list Z) : t :=
  mk (allocatedList q) l (freeList q) (numEntries q) (numReserve q) (allocated q) (inServiceEntries q).
Definition set_inServiceEntries (q : t) (n : Z) : t :=
  mk (allocatedList q) (readyList q) (freeList q) (numEntries q) (numReserve q) (allocated q) n.

Fixpoint find_match (w : MSHR.store) (addr : Z) (l : list Z) : res (option Z) :=
  match l with
  | [] => Ok None
  | id :: l =>
      m ← MSHR.get w id;
      if MSHR.addr m =? addr then Ok (Some id) else find_match w addr l
  end.
Definition findMatch (w : MSHR.store) (q : t) (addr : Z) : res (option Z) := find_match w addr (allocatedList q).

Fixpoint find_matches (w : MSHR.store) (addr : Z) (l : list Z) : res (list Z) :=
  match l with
  | [] => Ok []
  | id :: l =>
      m ← MSHR.get w id;
      r ← find_matches w addr l;
      Ok (if MSHR.addr m =? addr then id :: r else r)
  end.
Definition findMatches (w : MSHR.store) (q : t) (addr : Z) : res (bool * list Z) :=
  r ← find_matches w addr (allocatedList q); Ok (negb (bool_decide (r = [])), r).

Section functional.
Context (fresh : positive) (garbage : Z -> list Z).

Fixpoint check_functional (w : MSHR.store) (b : Bytes.mem) (p : Packet.t) (blk_addr : Z) (l : list Z) :
    res (bool * Bytes.mem * Packet.t) :=
  match l with
  | [] => Ok (false, b, p)
  | id :: l =>
      m ← MSHR.get w id;
      '(hit, b, p) ← (if MSHR.addr m =? blk_addr then MSHR.checkFunctional fresh garbage w id b p else Ok (false, b, p));
      if (hit : bool) then Ok (true, b, p) else check_functional w b p blk_addr l
  end.
Definition checkFunctional (w : MSHR.store) (q : t) (b : Bytes.mem) (p : Packet.t) (blk_addr : Z) :
    res (bool * Bytes.mem * Packet.t) := check_functional w b p blk_addr (allocatedList q).
End functional.

Fixpoint find_pending (w : MSHR.store) (addr size : Z) (l : list Z) : res (option Z) :=
  match l with
  | [] => Ok None
  | id :: l =>
      m ← MSHR.get w id;
      if MSHR.addr m <? addr then
        if uint 64 (MSHR.addr m + MSHR.size m) >? addr then Ok (Some id) else find_pending w addr size l
      else if uint 64 (addr + size) >? MSHR.addr m then Ok (Some id) else find_pending w addr size l
  end.
Definition findPending (w : MSHR.store) (q : t) (addr size : Z) : res (option Z) :=
  find_pending w addr size (readyList q).

(** [addToReadyList]: at the end when nothing there is later, else before the
    first register that is. *)
Fixpoint insert_before (w : MSHR.store) (time id : Z) (l : list Z) : res (list Z) :=
  match l with
  | [] => Er AssertFail
  | i :: l =>
      m ← MSHR.get w i;
      if MSHR.readyTime m >? time then Ok (id :: i :: l)
      else r ← insert_before w time id l; Ok (i :: r)
  end.
Definition addToReadyList (w : MSHR.store) (q : t) (id : Z) : res t :=
  m ← MSHR.get w id;
  at_end ← match last (readyList q) with
           | None => Ok true
           | Some b => x ← MSHR.get w b; Ok (MSHR.readyTime x <=? MSHR.readyTime m)
           end;
  if (at_end : bool) then Ok (set_ready q (readyList q ++ [id]))
  else l ← insert_before w (MSHR.readyTime m) id (readyList q); Ok (set_ready q l).

Definition allocate (curTick : Z) (w : MSHR.store) (q : t) (addr size pkt when order : Z) :
    res (Z * MSHR.store * t) :=
  match freeList q with
  | [] => Er AssertFail
  | id :: free =>
      m ← MSHR.get w id;
      _ ← c_assert (MSHR.getNumTargets m =? 0);
      w ← MSHR.allocate curTick w id addr size pkt when order;
      let q := mk (allocatedList q ++ [id]) (readyList q) free (numEntries q) (numReserve q)
                  (allocated q) (inServiceEntries q) in
      q ← addToReadyList w q id;
      Ok (id, w, mk (allocatedList q) (readyList q) (freeList q) (numEntries q) (numReserve q)
                    (allocated q + 1) (inServiceEntries q))
  end.

(** Erasing through the iterator a register keeps: its own place in the list. *)
Definition erase (id : Z) (l : list Z) : res (list Z) :=
  if bool_decide (id ∈ l) then Ok (filter (fun i => i <> id) l) else Er BadPointer.

Definition deallocateOne (w : MSHR.store) (q : t) (id : Z) : res (MSHR.store * t) :=
  al ← erase id (allocatedList q);
  m ← MSHR.get w id;
  q ← (if MSHR.inService m then
         Ok (mk al (readyList q) (id :: freeList q) (numEntries q) (numReserve q) (allocated q - 1)
                (inServiceEntries q - 1))
       else
         rl ← erase id (readyList q);
         Ok (mk al rl (id :: freeList q) (numEntries q) (numReserve q) (allocated q - 1)
                (inServiceEntries q)));
  w ← MSHR.deallocate w id;
  Ok (w, q).
Definition deallocate (w : MSHR.store) (q : t) (id : Z) : res (MSHR.store * t) := deallocateOne w q id.

Definition moveToFront (w : MSHR.store) (q : t) (id : Z) : res t :=
  m ← MSHR.get w id;
  if negb (MSHR.inService m) then
    rl ← erase id (readyList q); Ok (set_ready q (id :: rl))
  else Ok q.

Definition markInService (w : MSHR.store) (q : t) (id : Z) : res (MSHR.store * t) :=
  '(gone, w) ← MSHR.markInService w id;
  if (gone : bool) then deallocate w q id
  else
    rl ← erase id (readyList q);
    Ok (w, set_inServiceEntries (set_ready q rl) (inServiceEntries q + 1)).

Definition markPending (w : MSHR.store) (q : t) (id : Z) : res (MSHR.store * t) :=
  m ← MSHR.get w id;
  _ ← c_assert (MSHR.inService m);
  let w := MSHR.put w id (MSHR.set_inService m false) in
  let q := set_inServiceEntries q (inServiceEntries q - 1) in
  q ← addToReadyList w q id;
  Ok (w, q).

(** The calls that [Cache::handleResponse] makes on a register and its queue
    when the response [p] arrives, with the targets that its loop takes, in the
    order it takes them.  [is_fill] says whether the response brings the block
    and is not an error; what the loop does with the block and the packets of
    the targets is the cache's, and does not touch the register. *)
Fixpoint serve (fuel : nat) (w : MSHR.store) (id : Z) : res (list MSHR.Target * MSHR.store) :=
  m ← MSHR.get w id;
  if negb (MSHR.hasTargets m) then Ok ([], w) else
  match fuel with
  | O => Er OutOfFuel
  | S fuel =>
      target ← MSHR.getTarget m;
      w ← MSHR.popTarget w id;
      '(ts, w) ← serve fuel w id;
      Ok (target :: ts, w)
  end.
Definition handleResponse (curTick : Z) (w : MSHR.store) (q : t) (id p : Z) (is_fill : bool) :
    res (list MSHR.Target * MSHR.store * t) :=
  m ← MSHR.get w id;
  _ ← MSHR.getTarget m;
  w ← (if is_fill then MSHR.handleFill w id p else Ok w);
  m ← MSHR.get w id;
  _ ← (if MSHR.hasTargets m then x ← MSHR.getTarget m; Ok (Some x) else Ok None);
  '(ts, w) ← serve (length (MSHR.elems (MSHR.targets m))) w id;
  '(again, w) ← MSHR.promoteDeferredTargets curTick w id;
  '(w, q) ← (if (again : bool) then markPending w q id else deallocate w q id);
  Ok (ts, w, q).

(** [squash(threadNum)]: all targets of the thread's registers, and the
    registers that are not out yet. *)
Fixpoint pop_all (w : MSHR.store) (id threadNum : Z) (ts : list MSHR.Target) : res MSHR.store :=
  match ts with
  | [] => Ok w
  | _ :: ts =>
      w ← MSHR.popTarget w id;
      _ ← c_assert (0 =? threadNum);
      pop_all w id threadNum ts
  end.
Fixpoint squash_loop (w : MSHR.store) (q : t) (threadNum : Z) (l : list Z) : res (MSHR.store * t) :=
  match l with
  | [] => Ok (w, q)
  | id :: l =>
      m ← MSHR.get w id;
      '(w, q) ← (if MSHR.threadNum m =? threadNum then
                   w ← pop_all w id threadNum (MSHR.elems (MSHR.targets m));
                   m ← MSHR.get w id;
                   _ ← c_assert (negb (MSHR.hasTargets m));
                   _ ← c_assert (MSHR.ntargets m =? 0);
                   if negb (MSHR.inService m) then deallocateOne w q id else Ok (w, q)
                 else Ok (w, q));
      squash_loop w q threadNum l
  end.
Definition squash (w : MSHR.store) (q : t) (threadNum : Z) : res (MSHR.store * t) :=
  squash_loop w q threadNum (allocatedList q).

Definition havePending (q : t) : bool := negb (bool_decide (readyList q = [])).
Definition isFull (q : t) : bool := allocated q >? numEntries q - numReserve q.
Definition getNextMSHR (curTick : Z) (w : MSHR.store) (q : t) : res (option Z) :=
  match readyList q with
  | [] => Ok None
  | id :: _ => m ← MSHR.get w id; Ok (if MSHR.readyTime m >? curTick then None else Some id)
  end.
Definition MaxTick := 0x7fffffffffffffff.
Definition nextMSHRReadyTime (w : MSHR.store) (q : t) : res Z :=
  match readyList q with [] => Ok MaxTick | id :: _ => m ← MSHR.get w id; Ok (MSHR.readyTime m) end.
End MSHRQueue.
