(* ===== verification/MshrProof.v ===== *)
(** * Proofs about outstanding misses

    A register is looked at up to its mark [downstreamPending], which the
    registers of other caches set and clear. *)
From S2P Require Import Prelude EventQueue IntMath Request Packet Mshr.

Module MshrProof.
Import MSHR.

Definition unmarked (m : t) : t := set_downstream m false.
Definition view (w : store) : gmap Z t := unmarked <$> registers w.

Lemma view_get w id m : get w id = Ok m -> view w !! id = Some (unmarked m).
Proof. intros H%deref_Ok. unfold view. by rewrite lookup_fmap, H. Qed.

Lemma view_put w id m : view (put w id m) = <[id := unmarked m]> (view w).
Proof. unfold view, put. simpl. by rewrite fmap_insert. Qed.

Lemma get_put w id m : get (put w id m) id = Ok m.
Proof. unfold get, put. simpl. by rewrite lookup_insert_eq. Qed.

Lemma unmarked_idem m : unmarked (unmarked m) = unmarked m.
Proof. done. Qed.

Lemma view_put_same w id m m' : get w id = Ok m -> unmarked m' = unmarked m -> view (put w id m') = view w.
Proof. intros Hg E. rewrite view_put, E. apply insert_id. by apply view_get. Qed.

(** ** Marks on the registers above *)
Lemma mark_upstream_view w k w' : mark_upstream w k = Ok w' ->
  view w' = view w /\ packets w' = packets w /\ null_req w' = null_req w.
Proof.
  unfold mark_upstream. destruct (upstream w k) as [u|]; [|by intros [= <-]].
  intros H. apply res_bind_Ok in H as (m & Hm & H). apply res_bind_Ok in H as ([] & _ & H). injection H as <-.
  split; [|done]. by apply (view_put_same w u m).
Qed.

Lemma clear_targets_view clear : (forall w id w', clear w id = Ok w' ->
    view w' = view w /\ packets w' = packets w /\ null_req w' = null_req w) ->
  forall ts w w', clear_targets clear w ts = Ok w' ->
    view w' = view w /\ packets w' = packets w /\ null_req w' = null_req w.
Proof.
  intros Hc. induction ts as [|x ts IH]; intros w w'; simpl; [by intros [= <-]|].
  intros H. apply res_bind_Ok in H as (w1 & H1 & H). apply IH in H as (E1 & E2 & E3).
  assert (view w1 = view w /\ packets w1 = packets w /\ null_req w1 = null_req w) as (F1 & F2 & F3); [|by rewrite E1, E2, E3].
  destruct (markedPending x); [|by injection H1 as <-].
  apply res_bind_Ok in H1 as (k & _ & H1). destruct (upstream w k); [by eapply Hc|by injection H1 as <-].
Qed.

Lemma clear_downstream_view fuel : forall w id w', clear_downstream fuel w id = Ok w' ->
  view w' = view w /\ packets w' = packets w /\ null_req w' = null_req w.
Proof.
  induction fuel as [|fuel IH]; intros w id w'; simpl; [done|].
  intros H. apply res_bind_Ok in H as (m & Hm & H). apply res_bind_Ok in H as ([] & _ & H).
  rewrite get_put in H. simpl in H. apply (clear_targets_view _ IH) in H as (E1 & E2 & E3).
  rewrite E1, E2, E3. split; [|done]. by apply (view_put_same w id m).
Qed.

Lemma list_clear_view w id l w' : list_clearDownstreamPending w id l = Ok w' ->
  view w' = view w /\ packets w' = packets w /\ null_req w' = null_req w.
Proof.
  intros H. apply res_bind_Ok in H as (m & _ & H).
  by apply (clear_targets_view _ (clear_downstream_view _)) in H.
Qed.

(** ** Adding a target *)
Definition added (l : TargetList) (k : Packet.t) (x : Target) : TargetList :=
  let f := add_flags l k (source x) in mkList (elems l ++ [x]) (needsExclusive f) (hasUpgrade f).

Lemma unmarked_with_list m l x : unmarked (with_list m l x) = with_list (unmarked m) l x.
Proof. by destruct l. Qed.

Lemma list_of_with m l x : list_of (with_list m l x) l = x.
Proof. by destruct l. Qed.

Lemma with_list_twice m l x y : with_list (with_list m l x) l y = with_list m l y.
Proof. by destruct l. Qed.

Lemma list_of_unmarked m l : list_of (unmarked m) l = list_of m l.
Proof. by destruct l. Qed.

Lemma view_lookup_get w id v : view w !! id = Some v -> exists m, get w id = Ok m /\ unmarked m = v.
Proof.
  unfold view. rewrite lookup_fmap. unfold get. destruct (registers w !! id) as [m|]; [|done].
  intros [= <-]. by exists m.
Qed.

Lemma add_view curTick w id l p ready ord src mp w' : add curTick w id l p ready ord src mp = Ok w' ->
  exists m k, view w !! id = Some m /\ packets w !! p = Some k /\ packets w' = packets w /\
    view w' = <[id := with_list m l (added (list_of m l) k (mkTarget curTick ready ord p src mp))]> (view w).
Proof.
  intros H. apply res_bind_Ok in H as (k & Hk%deref_Ok & H). apply res_bind_Ok in H as (m & Hm & H).
  set (w1 := put w id (with_list m l (add_flags (list_of m l) k src))) in H.
  apply res_bind_Ok in H as (w2 & H2 & H). apply res_bind_Ok in H as (m2 & Hm2 & H). injection H as <-.
  assert (view w2 = view w1 /\ packets w2 = packets w1 /\ null_req w2 = null_req w1) as (E1 & E2 & _).
  { destruct mp; [by eapply mark_upstream_view|by injection H2 as <-]. }
  apply view_get in Hm, Hm2. exists (unmarked m), k. split_and!; [done|done|done|].
  rewrite E1 in Hm2. unfold w1 in Hm2. rewrite view_put, lookup_insert_eq in Hm2. apply (inj Some) in Hm2.
  rewrite view_put, E1. unfold w1. rewrite view_put, insert_insert_eq. f_equal.
  rewrite unmarked_with_list, <- Hm2, unmarked_with_list, with_list_twice.
  rewrite <- (list_of_unmarked m2), <- Hm2, unmarked_with_list, list_of_with, list_of_unmarked.
  unfold added. f_equal. f_equal. unfold add_flags. simpl. by destruct (bool_decide _).
Qed.

(** ** Replacing upgrades *)

(** Commands as far as replacing upgrades may change them. *)
Definition cmd_step (a b : MemCmd.Command) : Prop := b = a \/ (a = MemCmd.UpgradeReq /\ b = MemCmd.ReadExReq).
Definition pkt_step (P Q : gmap Z Packet.t) (p : Z) : Prop :=
  forall k, P !! p = Some k -> exists k', Q !! p = Some k' /\ cmd_step (Packet.cmd k) (Packet.cmd k').
Definition pkts_step (P Q : gmap Z Packet.t) : Prop := forall p, pkt_step P Q p.

#[export] Instance pkts_step_refl : Reflexive pkts_step.
Proof. intros P p k H. exists k. split; [done|by left]. Qed.
#[export] Instance pkts_step_trans : Transitive pkts_step.
Proof.
  intros P Q R H1 H2 p k H. destruct (H1 p k H) as (k1 & E1 & S1). destruct (H2 p k1 E1) as (k2 & E2 & S2).
  exists k2. split; [done|]. unfold cmd_step in *.
  destruct S1 as [F1|[F1 G1]], S2 as [F2|[F2 G2]]; [left; congruence|right; split; congruence..].
Qed.

Lemma replace_upgrades_step ts : forall w w', replace_upgrades w ts = Ok w' ->
  view w' = view w /\ pkts_step (packets w) (packets w') /\ dom (packets w') = dom (packets w).
Proof.
  induction ts as [|x ts IH]; intros w w'; simpl; [by intros [= <-]|].
  intros H. apply res_bind_Ok in H as (k & Hk%deref_Ok & H). apply IH in H as (E1 & E2 & E3).
  destruct (bool_decide (Packet.cmd k = MemCmd.UpgradeReq)) eqn:Eb; [|done].
  split; [done|]. split.
  2:{ rewrite E3. simpl. rewrite dom_insert_L. apply elem_of_dom_2 in Hk. set_solver. }
  etransitivity; [|exact E2]. apply bool_decide_eq_true_1 in Eb. intros p k0 Hp. simpl.
  destruct (decide (p = pkt x)) as [->|Hne].
  - rewrite lookup_insert_eq. eexists. split; [done|]. right. simpl. by simplify_eq.
  - rewrite lookup_insert_ne by done. exists k0. split; [done|by left].
Qed.

Definition no_upgrade (l : TargetList) : TargetList := mkList (elems l) (needsExclusive l) false.

Lemma replaceUpgrades_step w id l w' : replaceUpgrades w id l = Ok w' ->
  pkts_step (packets w) (packets w') /\ dom (packets w') = dom (packets w) /\
  exists m, view w !! id = Some m /\ view w' = <[id := with_list m l (no_upgrade (list_of m l))]> (view w).
Proof.
  intros H. apply res_bind_Ok in H as (m & Hm & H). apply view_get in Hm.
  cbv zeta in H. destruct (hasUpgrade (list_of m l)) eqn:Eu; simpl in H.
  - apply res_bind_Ok in H as (w1 & H1 & H). apply res_bind_Ok in H as (m1 & Hm1 & H). injection H as <-.
    apply replace_upgrades_step in H1 as (E1 & E2 & E3). split; [done|]. split; [done|]. exists (unmarked m). split; [done|].
    apply view_get in Hm1. rewrite E1, Hm in Hm1. apply (inj Some) in Hm1.
    rewrite view_put, E1. f_equal. rewrite unmarked_with_list, <- Hm1. f_equal.
    by rewrite <- (list_of_unmarked m1), <- Hm1.
  - injection H as <-. split; [done|]. split; [done|]. exists (unmarked m). split; [done|].
    symmetry. apply insert_id. rewrite Hm. f_equal. unfold no_upgrade. rewrite list_of_unmarked, <- Eu.
    destruct l, m as [? ? ? ? ? ? ? ? ? ? ? ? [] []]; done.
Qed.

(** ** The invariant of a register *)
Definition known (P : gmap Z Packet.t) (x : Target) : Prop := is_Some (P !! pkt x).
Definition excl (P : gmap Z Packet.t) (x : Target) : Prop :=
  exists k, P !! pkt x = Some k /\ Packet.needsExclusive k = true.

Lemma cmd_step_excl k k' : cmd_step (Packet.cmd k) (Packet.cmd k') -> Packet.needsExclusive k' = Packet.needsExclusive k.
Proof. unfold Packet.needsExclusive. intros [->|[-> ->]]; done. Qed.

Lemma known_step P Q x : pkt_step P Q (pkt x) -> known P x -> known Q x.
Proof. intros Hs [k Hk]. destruct (Hs _ Hk) as (k' & Hk' & _). by exists k'. Qed.

Lemma excl_step P Q x : pkt_step P Q (pkt x) -> known P x -> excl Q x <-> excl P x.
Proof.
  intros Hs [k Hk]. destruct (Hs _ Hk) as (k' & Hk' & Hc). apply cmd_step_excl in Hc. unfold excl. split.
  - intros (k2 & E2 & Hx). exists k. split; [done|]. simplify_eq. congruence.
  - intros (k2 & E2 & Hx). exists k'. split; [done|]. simplify_eq. congruence.
Qed.

Record reg_ok (P : gmap Z Packet.t) (m : t) : Prop := {
  ro_count : ntargets m = Z.of_nat (length (elems (targets m)) + length (elems (deferredTargets m)));
  ro_known : forall l x, x ∈ elems (list_of m l) -> known P x;
  ro_idle : inService m = false -> deferredTargets m = empty_list /\ pendingInvalidate m = false;
  ro_excl : forall l x, needsExclusive (list_of m l) = false -> x ∈ elems (list_of m l) ->
    source x <> FromSnoop -> ~ excl P x;
  ro_last : forall l1 x l2, elems (targets m) = l1 ++ x :: l2 -> source x = FromSnoop -> excl P x ->
    l2 = [] /\ pendingInvalidate m = true;
  ro_deferred : forall x, x ∈ elems (deferredTargets m) -> source x = FromCPU;
  ro_reset : elems (deferredTargets m) = [] -> deferredTargets m = empty_list
}.

(** The requests from above that wait, in the order they will be served. *)
Definition from_above (x : Target) : Prop := source x <> FromSnoop.
Definition waiting (m : t) : list Target := filter from_above (elems (targets m)) ++ elems (deferredTargets m).

(** Requests from above and snoops are two queues: a snoop is not deferred. *)
Inductive lane := Requests | Snoops.
Definition of_lane (c : lane) (x : Target) : Prop :=
  match c with Requests => from_above x | Snoops => source x = FromSnoop end.
#[export] Instance of_lane_dec c x : Decision (of_lane c x).
Proof. destruct c; simpl; unfold from_above; apply _. Defined.
Definition snoops (m : t) : list Target := filter (of_lane Snoops) (elems (targets m)).
Definition queued (c : lane) (m : t) : list Target := match c with Requests => waiting m | Snoops => snoops m end.

Lemma no_snoops l : (forall x, x ∈ l -> source x = FromCPU) -> filter (of_lane Snoops) l = [].
Proof.
  induction l as [|x l IH]; intros H; [done|]. rewrite filter_cons_False; [apply IH; set_solver|].
  simpl. rewrite (H x); [done|set_solver].
Qed.

Lemma reg_ok_step_at P Q m : reg_ok P m ->
  (forall l x, x ∈ elems (list_of m l) -> pkt_step P Q (pkt x)) -> reg_ok Q m.
Proof.
  intros [] Hs. constructor; try done.
  - intros l x Hx. eapply known_step; [by eapply Hs|]. by eapply ro_known0.
  - intros l x Hn Hx Hc. rewrite (excl_step P Q); [by eapply ro_excl0|by eapply Hs|by eapply ro_known0].
  - intros l1 x l2 E Hc Hx. assert (x ∈ elems (list_of m Current)) as Hin by (simpl; rewrite E; set_solver).
    eapply ro_last0; [done..|]. rewrite <- (excl_step P Q); [done|by eapply Hs|by eapply ro_known0].
Qed.

Lemma reg_ok_step P Q m : reg_ok P m -> pkts_step P Q -> reg_ok Q m.
Proof. intros H Hs. apply (reg_ok_step_at P); [done|]. intros ???. apply Hs. Qed.

Lemma reg_ok_upgrade P m l : reg_ok P m -> reg_ok P (with_list m l (no_upgrade (list_of m l))).
Proof.
  intros []. unfold no_upgrade. destruct l; constructor; simpl in *; try done.
  all: try (intros [] x; [by apply (ro_known0 Current)|by apply (ro_known0 Deferred)]).
  all: try (intros [] x; [by apply (ro_excl0 Current)|by apply (ro_excl0 Deferred)]).
  - intros Hi. by destruct (ro_idle0 Hi) as [-> ->].
  - intros E. by rewrite (ro_reset0 E).
Qed.

Lemma queued_upgrade c m l : queued c (with_list m l (no_upgrade (list_of m l))) = queued c m.
Proof. by destruct c, l. Qed.

Lemma snoc_split {A} (l1 l2 l : list A) x y : l1 ++ x :: l2 = l ++ [y] ->
  (l2 = [] /\ x = y /\ l1 = l) \/ exists l3, l2 = l3 ++ [y] /\ l = l1 ++ x :: l3.
Proof.
  destruct l2 as [|z l2 _] using rev_ind; intros E.
  - apply app_inj_tail in E as [-> ->]. by left.
  - right. rewrite app_comm_cons, app_assoc in E. apply app_inj_tail in E as [<- ->]. by exists l2.
Qed.

(** ** A new target from above *)
Lemma excl_new P k x : P !! pkt x = Some k -> excl P x <-> Packet.needsExclusive k = true.
Proof. intros E. unfold excl. rewrite E. naive_solver. Qed.

(** On the list of the request that is out or will be next. *)
Lemma reg_ok_add_current P m k x : reg_ok P m -> P !! pkt x = Some k -> source x <> FromSnoop ->
  pendingInvalidate m = false ->
  let m' := with_list m Current (added (targets m) k x) in
  reg_ok P (set_ntargets m' (ntargets m + 1)).
Proof.
  intros [] Hk Hsrc Hpi m'. assert (Hf : bool_decide (source x = FromSnoop) = false) by (by apply bool_decide_eq_false_2).
  constructor; unfold m', added, add_flags; simpl in *; rewrite ?Hf; simpl.
  - rewrite length_app. simpl. lia.
  - intros [] y; simpl; [|by apply (ro_known0 Deferred)].
    intros [Hy| ->%list_elem_of_singleton]%elem_of_app; [by apply (ro_known0 Current)|by exists k].
  - done.
  - intros [] y; simpl; [|by apply (ro_excl0 Deferred)].
    intros [Hn Hx]%orb_false_iff [Hy| ->%list_elem_of_singleton]%elem_of_app Hs; [by apply (ro_excl0 Current)|].
    rewrite (excl_new P k) by done. congruence.
  - intros l1 y l2 E Hs He. symmetry in E. apply snoc_split in E as [(-> & -> & _)|(l3 & -> & E)]; [done|].
    destruct (ro_last0 _ _ _ E Hs He) as [_ ?]. congruence.
  - done.
  - done.
Qed.

(** On the list for the request after. *)
Lemma reg_ok_add_deferred P m k x : reg_ok P m -> P !! pkt x = Some k -> source x = FromCPU -> inService m = true ->
  let m' := with_list m Deferred (added (deferredTargets m) k x) in
  reg_ok P (set_ntargets m' (ntargets m + 1)).
Proof.
  intros [] Hk Hsrc Hin m'. assert (Hf : bool_decide (source x = FromSnoop) = false) by (rewrite Hsrc; done).
  constructor; unfold m', added, add_flags; simpl in *; rewrite ?Hf; simpl.
  - rewrite length_app. simpl. lia.
  - intros [] y; simpl; [by apply (ro_known0 Current)|].
    intros [Hy| ->%list_elem_of_singleton]%elem_of_app; [by apply (ro_known0 Deferred)|by exists k].
  - congruence.
  - intros [] y; simpl; [by apply (ro_excl0 Current)|].
    intros [Hn Hx]%orb_false_iff [Hy| ->%list_elem_of_singleton]%elem_of_app Hs; [by apply (ro_excl0 Deferred)|].
    rewrite (excl_new P k) by done. congruence.
  - done.
  - intros y [Hy| ->%list_elem_of_singleton]%elem_of_app; [by apply ro_deferred0|done].
  - by intros [_ ?]%app_nil.
Qed.

(** A snoop: the last target if it invalidates. *)
Lemma reg_ok_add_snoop P m k x : reg_ok P m -> P !! pkt x = Some k -> source x = FromSnoop ->
  pendingInvalidate m = false -> inService m = true ->
  let m' := set_ntargets (with_list m Current (added (targets m) k x)) (ntargets m + 1) in
  reg_ok P (if Packet.needsExclusive k then set_pending m' true (pendingShared m) else m').
Proof.
  intros [] Hk Hsrc Hpi Hin m'. assert (Hf : bool_decide (source x = FromSnoop) = true) by (rewrite Hsrc; done).
  set (m2 := if Packet.needsExclusive k then _ else m').
  assert (targets m2 = mkList (elems (targets m) ++ [x]) (needsExclusive (targets m)) (hasUpgrade (targets m)) /\
    deferredTargets m2 = deferredTargets m /\ ntargets m2 = ntargets m + 1 /\ inService m2 = true /\
    pendingInvalidate m2 = Packet.needsExclusive k) as (E1 & E2 & E3 & E4 & E5).
  { unfold m2, m', added, add_flags. simpl. rewrite Hf. by destruct (Packet.needsExclusive k). }
  constructor.
  - rewrite E1, E2, E3. simpl. rewrite length_app. simpl. lia.
  - intros [] y; simpl; rewrite ?E1, ?E2; simpl; [|by apply (ro_known0 Deferred)].
    intros [Hy| ->%list_elem_of_singleton]%elem_of_app; [by apply (ro_known0 Current)|by exists k].
  - congruence.
  - intros [] y; simpl; rewrite ?E1, ?E2; simpl; [|by apply (ro_excl0 Deferred)].
    intros Hn [Hy| ->%list_elem_of_singleton]%elem_of_app Hs; [by apply (ro_excl0 Current)|done].
  - intros l1 y l2. rewrite E1, E5. simpl. intros E Hs He.
    symmetry in E. apply snoc_split in E as [(-> & -> & _)|(l3 & -> & E)]; [by rewrite (excl_new P k) in He|].
    destruct (ro_last0 _ _ _ E Hs He) as [_ ?]. congruence.
  - rewrite E2. done.
  - rewrite E2. done.
Qed.

(** ** The operations on a register *)

(** What stays of a register while requests join it. *)
Record same_request (m m' : t) : Prop := {
  sr_addr : addr m' = addr m;
  sr_size : size m' = size m;
  sr_ready : readyTime m' = readyTime m;
  sr_order : order m' = order m;
  sr_service : inService m' = inService m;
  sr_targets : elems (targets m) `prefix_of` elems (targets m')
}.

#[export] Instance same_request_refl : Reflexive same_request.
Proof. by intros m. Qed.
#[export] Instance same_request_trans : Transitive same_request.
Proof. intros a b c [] []. constructor; [congruence..|by etransitivity]. Qed.

Lemma same_with_list m l x : elems (list_of m l) `prefix_of` elems x -> same_request m (with_list m l x).
Proof. by destruct l. Qed.

Lemma same_added m l k x n : same_request m (set_ntargets (with_list m l (added (list_of m l) k x)) n).
Proof. destruct l; constructor; try done. simpl. by apply prefix_app_r. Qed.

Lemma bump_view w id w' : bump w id = Ok w' -> exists m, view w !! id = Some m /\
  view w' = <[id := set_ntargets m (uint 16 (ntargets m + 1))]> (view w) /\ packets w' = packets w.
Proof.
  intros H. apply res_bind_Ok in H as (m & Hm & H). injection H as <-. exists (unmarked m).
  rewrite view_put. split; [by apply view_get|done].
Qed.

(** A target is put at the end of one of the lists and counted. *)
Lemma add_bump curTick w id l p ready ord src mp w1 w' m : view w !! id = Some m ->
  add curTick w id l p ready ord src mp = Ok w1 -> bump w1 id = Ok w' ->
  exists k, packets w !! p = Some k /\ packets w' = packets w /\
    view w' = <[id := set_ntargets (with_list m l (added (list_of m l) k (mkTarget curTick ready ord p src mp)))
                                   (uint 16 (ntargets m + 1))]> (view w).
Proof.
  intros Hm Ha Hb. apply add_view in Ha as (m0 & k & Hm0 & Hk & Ep & Ev). rewrite Hm in Hm0. apply (inj Some) in Hm0. subst m0.
  apply bump_view in Hb as (m1 & Hm1 & Ev1 & Ep1). exists k. split; [done|]. split; [congruence|].
  rewrite Ev, lookup_insert_eq in Hm1. apply (inj Some) in Hm1. subst m1.
  rewrite Ev1, Ev, insert_insert_eq. f_equal. f_equal. by destruct l.
Qed.

Lemma allocateTarget_ok curTick w id p ready ord w' m : view w !! id = Some m -> reg_ok (packets w) m ->
  ntargets m < 2 ^ 16 - 1 -> allocateTarget curTick w id p ready ord = Ok w' ->
  packets w' = packets w /\ exists m' x, view w' = <[id := m']> (view w) /\ reg_ok (packets w') m' /\
    waiting m' = waiting m ++ [x] /\ pkt x = p /\ t_order x = ord /\ source x = FromCPU /\ same_request m m' /\
    ntargets m' = ntargets m + 1 /\ snoops m' = snoops m.
Proof.
  intros Hm Hok Hn H. pose proof (ro_count _ _ Hok) as Hcnt.
  assert (uint 16 (ntargets m + 1) = ntargets m + 1) as Hu by (apply uint_small; lia).
  unfold allocateTarget in H. apply res_bind_Ok in H as (k & Hk%deref_Ok & H).
  apply res_bind_Ok in H as ([] & _ & H). apply res_bind_Ok in H as (m0 & Hm0 & H).
  apply view_get in Hm0. rewrite Hm in Hm0. apply (inj Some) in Hm0.
  assert (inService m0 = inService m /\ deferredTargets m0 = deferredTargets m /\
    pendingInvalidate m0 = pendingInvalidate m) as (E1 & E2 & E3) by by subst m.
  rewrite E1, E2, E3 in H. apply res_bind_Ok in H as (w1 & Ha & Hb).
  destruct (inService m && _) eqn:Ec.
  - destruct (add_bump _ _ _ _ _ _ _ _ _ _ _ m Hm Ha Hb) as (k' & Hk' & Ep & Ev). assert (k' = k) as -> by congruence.
    split; [done|]. rewrite Hu in Ev. eexists _, (mkTarget curTick ready ord p FromCPU true). split; [exact Ev|].
    apply andb_true_iff in Ec as [Ein _].
    split; [rewrite Ep; by apply reg_ok_add_deferred|]. split_and!; try done; try by apply same_added.
    unfold waiting. simpl. by rewrite app_assoc.
  - assert (pendingInvalidate m = false /\ elems (deferredTargets m) = []) as [Hpi Hd].
    { destruct (inService m) eqn:Ei; simpl in Ec.
      - apply orb_false_iff in Ec as [Ec _]. apply orb_false_iff in Ec as [Hd Hpi].
        split; [done|]. apply negb_false_iff, bool_decide_eq_true_1 in Hd. done.
      - destruct (ro_idle _ _ Hok Ei) as [-> ->]. done. }
    destruct (add_bump _ _ _ _ _ _ _ _ _ _ _ m Hm Ha Hb) as (k' & Hk' & Ep & Ev). assert (k' = k) as -> by congruence.
    split; [done|]. rewrite Hu in Ev. eexists _, (mkTarget curTick ready ord p FromCPU (negb (inService m))). split; [exact Ev|].
    split; [rewrite Ep; by apply reg_ok_add_current|]. split_and!; try done; try by apply same_added.
    + unfold waiting. simpl. rewrite Hd, !app_nil_r, filter_app. done.
    + unfold snoops. simpl. rewrite filter_app, (no_snoops [_]); [by rewrite app_nil_r|]. by intros y ->%list_elem_of_singleton.
Qed.

(** [replaceUpgrades] leaves a register's requests alone. *)
Lemma replaceUpgrades_ok w id l w' m : view w !! id = Some m -> reg_ok (packets w) m ->
  replaceUpgrades w id l = Ok w' -> pkts_step (packets w) (packets w') /\ dom (packets w') = dom (packets w) /\
  exists m', view w' = <[id := m']> (view w) /\ reg_ok (packets w') m' /\ (forall c, queued c m' = queued c m) /\
    same_request m m' /\ pendingInvalidate m' = pendingInvalidate m /\ pendingShared m' = pendingShared m /\
    ntargets m' = ntargets m /\ (forall l', needsExclusive (list_of m' l') = needsExclusive (list_of m l')).
Proof.
  intros Hm Hok H. apply replaceUpgrades_step in H as (Hs & Hd & m0 & Hm0 & Ev).
  rewrite Hm in Hm0. apply (inj Some) in Hm0. subst m0. split; [done|]. split; [done|]. eexists. split; [exact Ev|].
  split_and!; [by eapply reg_ok_step; [apply reg_ok_upgrade|]|intros c; apply queued_upgrade|apply same_with_list|..];
    destruct l; try done; by intros [].
Qed.

Lemma put_pkt_step w p k k' : packets w !! p = Some k -> Packet.cmd k' = Packet.cmd k ->
  pkts_step (packets w) (packets (put_pkt w p k')).
Proof.
  intros Hp Hc q k0 Hq. simpl. destruct (decide (q = p)) as [->|Hne].
  - rewrite lookup_insert_eq. exists k'. split; [done|]. left. congruence.
  - rewrite lookup_insert_ne by done. exists k0. split; [done|by left].
Qed.

Lemma put_fresh_step w p k : packets w !! p = None -> pkts_step (packets w) (packets (put_pkt w p k)).
Proof.
  intros Hp q k0 Hq. simpl. rewrite lookup_insert_ne by congruence. exists k0. split; [done|by left].
Qed.

(** The outcome of a snoop on the register: [xs] join its snoops. *)
Record snooped (w w' : store) (id : Z) (m : t) (xs : list Target) : Prop := {
  sn_step : pkts_step (packets w) (packets w');
  sn_view : exists m', view w' = <[id := m']> (view w) /\ reg_ok (packets w') m' /\ waiting m' = waiting m /\
    snoops m' = snoops m ++ xs /\ same_request m m' /\ ntargets m <= ntargets m' <= ntargets m + 1
}.

(** The copy of the snooped packet joins the list. *)
Lemma snoop_target curTick g fresh w id p ord m k mp w1 w2 : view w !! id = Some m -> reg_ok (packets w) m ->
  ntargets m < 2 ^ 16 - 1 -> inService m = true -> pendingInvalidate m = false ->
  packets w !! p = Some k -> packets w !! fresh = None ->
  let c := Packet.copy g k curTick true in
  add curTick (put_pkt w fresh c) id Current fresh curTick ord FromSnoop mp = Ok w1 -> bump w1 id = Ok w2 ->
  exists x, packets w2 = <[fresh := c]> (packets w) /\ source x = FromSnoop /\ pkt x = fresh /\
    view w2 = <[id := set_ntargets (with_list m Current (added (targets m) c x)) (ntargets m + 1)]> (view w) /\
    reg_ok (packets w2) (if Packet.needsExclusive k
      then set_pending (set_ntargets (with_list m Current (added (targets m) c x)) (ntargets m + 1)) true (pendingShared m)
      else set_ntargets (with_list m Current (added (targets m) c x)) (ntargets m + 1)).
Proof.
  intros Hm Hok Hn Hin Hpi Hp Hfresh c Ha Hb.
  assert (view (put_pkt w fresh c) !! id = Some m) as Hm' by exact Hm.
  destruct (add_bump _ _ _ _ _ _ _ _ _ _ _ m Hm' Ha Hb) as (k' & Hk' & Ep & Ev).
  simpl in Hk'. rewrite lookup_insert_eq in Hk'. injection Hk' as <-.
  pose proof (ro_count _ _ Hok) as Hcnt. rewrite uint_small in Ev by lia.
  eexists. split; [exact Ep|]. split; [|split; [|split; [exact Ev|]]]; [done|done|].
  assert (Packet.needsExclusive c = Packet.needsExclusive k) as <- by done.
  rewrite Ep. apply reg_ok_add_snoop; [|simpl; apply lookup_insert_eq|done..].
  eapply reg_ok_step; [done|]. by apply put_fresh_step.
Qed.

Lemma snooped_trans w w1 w2 id m m1 xs : pkts_step (packets w) (packets w1) -> view w1 = <[id := m1]> (view w) ->
  (forall c, queued c m1 = queued c m) -> same_request m m1 -> ntargets m1 = ntargets m -> snooped w1 w2 id m1 xs ->
  snooped w w2 id m xs.
Proof.
  intros S1 E1 W1 R1 N1 [S2 (m2 & E2 & Hok & W2 & V2 & R2 & N2)]. split; [by etransitivity|].
  exists m2. rewrite E2, E1, insert_insert_eq. pose proof (W1 Requests). pose proof (W1 Snoops). simpl in *.
  split_and!; [done|done|congruence|congruence|by etransitivity|lia..].
Qed.

Lemma snooped_refl w id m : view w !! id = Some m -> reg_ok (packets w) m -> snooped w w id m [].
Proof.
  intros Hm Hok. split; [done|]. exists m. split; [by rewrite insert_id|]. rewrite app_nil_r. split_and!; [done..|lia|lia].
Qed.

(** Upgrades are replaced when the snoop invalidates. *)
Lemma maybe_replace (c : bool) w id l w1 m : view w !! id = Some m -> reg_ok (packets w) m ->
  (if c then replaceUpgrades w id l else Ok w) = Ok w1 ->
  pkts_step (packets w) (packets w1) /\ dom (packets w1) = dom (packets w) /\
  exists m1, view w1 = <[id := m1]> (view w) /\ view w1 !! id = Some m1 /\ reg_ok (packets w1) m1 /\
    (forall c, queued c m1 = queued c m) /\ same_request m m1 /\ ntargets m1 = ntargets m /\
    pendingInvalidate m1 = pendingInvalidate m /\ needsExclusive (targets m1) = needsExclusive (targets m).
Proof.
  intros Hm Hok H. destruct c.
  - destruct (replaceUpgrades_ok _ _ _ _ _ Hm Hok H) as (S1 & D1 & m1 & Ev1 & Hok1 & W1 & R1 & I1 & _ & N1 & X1).
    split; [done|]. split; [done|]. exists m1. split_and!; try done; [rewrite Ev1; apply lookup_insert_eq|apply (X1 Current)].
  - injection H as <-. split; [done|]. split; [done|]. exists m. split_and!; try done. by rewrite insert_id.
Qed.

(** The snoop conflicts with the request that is out. *)
Lemma snoop_conflict curTick g fresh w id p ord mp m k w1 w2 m3 w' : view w !! id = Some m -> reg_ok (packets w) m ->
  ntargets m < 2 ^ 16 - 1 -> inService m = true -> pendingInvalidate m = false ->
  packets w !! p = Some k -> packets w !! fresh = None ->
  add curTick (put_pkt w fresh (Packet.copy g k curTick true)) id Current fresh curTick ord FromSnoop mp = Ok w1 ->
  bump w1 id = Ok w2 -> get w2 id = Ok m3 ->
  let w3 := if needsExclusive (targets m3)
            then put_pkt w2 p (Packet.setSupplyExclusive (Packet.assertMemInhibit k))
            else mkStore (packets w2) ({[fresh]} ∪ null_req w2) (registers w2) in
  w' = (if Packet.needsExclusive k then put w3 id (set_pending m3 true (pendingShared m3)) else w3) ->
  exists x, pkt x = fresh /\ snooped w w' id m [x].
Proof.
  intros Hm Hok Hn Hin Hpi Hp Hfresh H1 H2 Hm3 w3 ->.
  destruct (snoop_target curTick g fresh w id p ord m k mp w1 w2) as (x & Ep & Hsrc & Hpx & Ev & Hok2); try done.
  set (c := Packet.copy g k curTick true) in *. set (m4 := set_ntargets _ _) in *.
  apply view_get in Hm3. rewrite Ev, lookup_insert_eq in Hm3. apply (inj Some) in Hm3.
  assert (pkts_step (packets w) (packets w2)) as S2 by (rewrite Ep; by apply put_fresh_step).
  assert (pkts_step (packets w2) (packets w3) /\ view w3 = view w2) as [S3 Ev3].
  { unfold w3. destruct (needsExclusive (targets m3)); [|done]. split; [|done]. apply (put_pkt_step w2 p k); [|done].
    rewrite Ep, lookup_insert_ne; [done|congruence]. }
  assert (snoops m4 = snoops m ++ [x]) as V4.
  { unfold m4, snoops, added. simpl. by rewrite filter_app, (filter_cons_True (of_lane Snoops)). }
  exists x. split; [done|].
  assert (waiting m4 = waiting m) as W4.
  { unfold m4, waiting, added, add_flags. simpl. rewrite filter_app, filter_cons_False; [|intros Hx; by apply Hx].
    by rewrite app_nil_r. }
  assert (same_request m m4) as R4 by by apply (same_added m Current).
  split; [destruct (Packet.needsExclusive k); by etransitivity|].
  destruct (Packet.needsExclusive k) eqn:Ek.
  - exists (set_pending m4 true (pendingShared m)). rewrite view_put, Ev3, Ev, insert_insert_eq. split.
    { f_equal. change (set_pending (unmarked m3) true (pendingShared (unmarked m3)) = set_pending m4 true (pendingShared m4)).
      by rewrite <- Hm3. }
    split; [by eapply reg_ok_step|]. split; [done|]. split; [done|]. split; [by destruct R4; constructor|simpl; lia].
  - exists m4. split; [by rewrite Ev3, Ev|]. split; [by eapply reg_ok_step|]. split_and!; [done..|simpl; lia|simpl; lia].
Qed.

(** A read snooped while a read is out. *)
Lemma snoop_shared w id p m m0 k : view w !! id = Some m -> m = unmarked m0 -> reg_ok (packets w) m ->
  pendingInvalidate m = false -> inService m = true -> packets w !! p = Some k ->
  snooped w (put_pkt (put w id (set_pending m0 (pendingInvalidate m0) true)) p (Packet.assertShared k)) id m [].
Proof.
  intros Hm Em Hok Hpi Hin Hk.
  assert (pkts_step (packets w) (packets (put_pkt (put w id (set_pending m0 (pendingInvalidate m0) true)) p (Packet.assertShared k)))) as S1
    by by apply (put_pkt_step w p k).
  split; [done|]. exists (set_pending m (pendingInvalidate m) true). split.
  { transitivity (view (put w id (set_pending m0 (pendingInvalidate m0) true))); [done|]. rewrite view_put. by subst m. }
  split; [|rewrite app_nil_r; split_and!; [done|done|by constructor|simpl; lia..]].
  eapply reg_ok_step; [|exact S1]. destruct Hok. by constructor.
Qed.

(** A snoop [k] that conflicts with the request of register [m], which is out
    and comes first: it is kept for when the response arrives, unless a snoop
    kept already invalidates the block. *)
Definition defers (m : t) (k : Packet.t) : bool :=
  inService m && negb (Packet.isExpressSnoop k && downstreamPending m) && negb (pendingInvalidate m) &&
  (needsExclusive (targets m) || Packet.needsExclusive k).

Lemma handleSnoop_ok curTick g fresh w id p ord b w' m m0 k : view w !! id = Some m -> reg_ok (packets w) m ->
  ntargets m < 2 ^ 16 - 1 -> packets w !! fresh = None -> get w id = Ok m0 -> packets w !! p = Some k ->
  handleSnoop curTick g fresh w id p ord = Ok (b, w') ->
  exists xs, snooped w w' id m xs /\ pkt <$> xs = if defers m0 k then [fresh] else [].
Proof.
  intros Hm Hok Hn Hfresh Hm0 Hk H. unfold handleSnoop in H. rewrite Hm0 in H. assert (get_pkt w p = Ok k) as Hg by (unfold get_pkt; by rewrite Hk). simpl in H. rewrite Hg in H.
  cbn [mbind res_bind deref] in H. unfold defers.
  apply view_get in Hm0. rewrite Hm in Hm0. apply (inj Some) in Hm0.
  assert (inService m0 = inService m /\ pendingInvalidate m0 = pendingInvalidate m /\ targets m0 = targets m) as (E1 & E5 & E6) by by subst m.
  rewrite E1 in H |- *.
  destruct (negb (inService m) || _) eqn:Ebr.
  - exists []. split; [|by destruct (inService m); [simpl in *; rewrite Ebr|]].
    apply res_bind_Ok in H as (w1 & H1 & H). injection H as <- <-.
    destruct (Packet.needsExclusive k); [|injection H1 as <-; by apply snooped_refl].
    apply res_bind_Ok in H1 as (w2 & H2 & H1).
    destruct (maybe_replace true w id Current w2 m Hm Hok H2) as (S2 & _ & m2 & Ev2 & Hm2 & Hok2 & W2 & R2 & N2 & _).
    destruct (maybe_replace true w2 id Deferred w1 m2 Hm2 Hok2 H1) as (S1 & _ & m1 & Ev1 & Hm1 & Hok1 & W1 & R1 & N1 & _).
    apply (snooped_trans w w2 w1 id m m2); [done..|]. apply (snooped_trans w2 w1 w1 id m2 m1); [done..|]. by apply snooped_refl.
  - apply orb_false_iff in Ebr as [Ein ->]. apply negb_false_iff in Ein. rewrite Ein, E5, E6. cbn [andb negb].
    apply res_bind_Ok in H as (w1 & H1 & H).
    destruct (maybe_replace _ w id Deferred w1 m Hm Hok H1) as (S1 & D1 & m1 & Ev1 & Hm1 & Hok1 & W1 & R1 & N1 & I1 & X1).
    rewrite <- I1, <- X1. assert (forall xs, snooped w1 w' id m1 xs -> snooped w w' id m xs) as Htr
      by (intros xs; by apply snooped_trans).
    apply res_bind_Ok in H as (m2 & Hm2 & H). apply view_get in Hm2. rewrite Hm1 in Hm2. apply (inj Some) in Hm2.
    assert (pendingInvalidate m2 = pendingInvalidate m1) as E2 by by subst m1.
    rewrite E2 in H. destruct (pendingInvalidate m1) eqn:Epi.
    { injection H as <- <-. exists []. split; [|done]. by apply Htr, snooped_refl. }
    assert (targets m2 = targets m1) as E7 by by subst m1. rewrite E7 in H. cbn [andb negb].
    assert (inService m1 = true) as Ein1 by (rewrite (sr_service _ _ R1); done).
    destruct (needsExclusive (targets m1) || Packet.needsExclusive k).
    + apply res_bind_Ok in H as (k1 & Hk1%deref_Ok & H). apply res_bind_Ok in H as (w2 & H2 & H).
      apply res_bind_Ok in H as (w3 & H3 & H). apply res_bind_Ok in H as (m3 & Hm3 & H).
      apply res_bind_Ok in H as (k3 & Hk3%deref_Ok & H). injection H as <- <-.
      assert (packets w1 !! fresh = None) as F1 by (apply not_elem_of_dom; rewrite D1; by apply not_elem_of_dom).
      destruct (snoop_target curTick g fresh w1 id p ord m1 k1 (downstreamPending m2 && needsExclusive (targets m1)) w2 w3)
        as (x & Ep & _); try done; [lia|].
      assert (k3 = k1) as -> by (rewrite Ep, lookup_insert_ne in Hk3 by congruence; congruence).
      edestruct snoop_conflict as (y & Hy & Hs); [exact Hm1|exact Hok1| |exact Ein1|exact Epi|exact Hk1|exact F1|exact H2|exact H3|exact Hm3|reflexivity|]; [lia|].
      exists [y]. split; [by apply Htr|]. simpl. by rewrite Hy.
    + apply res_bind_Ok in H as (k1 & Hk1%deref_Ok & H). injection H as <- <-. exists []. split; [|done]. apply Htr.
      rewrite <- E2. by apply snoop_shared.
Qed.

(** ** Issue, response and release *)
Lemma isForward_view w id m b : view w !! id = Some m -> reg_ok (packets w) m -> isForwardNoResponse w id = Ok b ->
  b = true -> exists x, elems (targets m) = [x] /\ source x = FromCPU /\ ntargets m = 1.
Proof.
  intros Hm Hok H ->. apply res_bind_Ok in H as (m0 & Hm0 & H). apply view_get in Hm0. rewrite Hm in Hm0.
  apply (inj Some) in Hm0. unfold getNumTargets in H.
  destruct (Z.eqb_spec (ntargets m0) 1) as [E|E]; [|done]. simpl in H.
  apply res_bind_Ok in H as (x & Hx & H). apply res_bind_Ok in H as (k & _ & H).
  unfold getTarget in Hx. apply res_bind_Ok in Hx as ([] & Ht & Hx%deref_Ok).
  assert (targets m0 = targets m /\ ntargets m0 = ntargets m) as [Et En] by by subst m.
  pose proof (ro_count _ _ Hok) as Hc. rewrite <- En, E in Hc. rewrite Et in Hx.
  destruct (elems (targets m)) as [|y ts] eqn:El; [done|]. simpl in Hx, Hc. injection Hx as ->.
  assert (length ts = 0%nat) as Hl by lia. destruct ts; [|done].
  injection H as H. apply andb_true_iff in H as [Hs _]. apply bool_decide_eq_true_1 in Hs.
  exists x. split_and!; [done|done|lia].
Qed.

Lemma pop_view w id m w' : view w !! id = Some m -> popTarget w id = Ok w' ->
  exists x ts, elems (targets m) = x :: ts /\ packets w' = packets w /\
    view w' = <[id := set_lists (set_ntargets m (uint 16 (ntargets m - 1)))
      (mkList ts (needsExclusive (targets m)) (hasUpgrade (targets m))) (deferredTargets m)]> (view w).
Proof.
  intros Hm H. apply res_bind_Ok in H as (m0 & Hm0 & H). apply res_bind_Ok in H as (m1 & H1 & H). injection H as <-.
  apply view_get in Hm0. rewrite Hm in Hm0. apply (inj Some) in Hm0.
  assert (targets m0 = targets m) as Et by by subst m. unfold pop in H1. rewrite Et in H1.
  destruct (elems (targets m)) as [|x ts]; [done|]. injection H1 as <-. exists x, ts. split; [done|]. split; [done|].
  rewrite view_put. f_equal. by subst m.
Qed.

Lemma pop_total w id m x ts : view w !! id = Some m -> elems (targets m) = x :: ts -> exists w', popTarget w id = Ok w'.
Proof.
  intros Hm E. destruct (view_lookup_get w id m Hm) as (m0 & Hm0 & Em). unfold popTarget. rewrite Hm0. simpl.
  assert (targets m0 = targets m) as Et by by subst m. unfold pop. rewrite Et, E. simpl. by eexists.
Qed.

Lemma getTarget_head m x ts : elems (targets m) = x :: ts -> getTarget m = Ok x.
Proof. intros E. unfold getTarget, hasTargets. by rewrite E. Qed.

(** The loop over the targets takes all of them, in their order. *)
Lemma serve_ok ts : forall w id m, view w !! id = Some m -> elems (targets m) = ts ->
  Z.of_nat (length ts) <= ntargets m < 2 ^ 16 -> exists w', MSHRQueue.serve (length ts) w id = Ok (ts, w') /\
  packets w' = packets w /\ view w' = <[id := set_lists (set_ntargets m (ntargets m - Z.of_nat (length ts)))
      (mkList [] (needsExclusive (targets m)) (hasUpgrade (targets m))) (deferredTargets m)]> (view w).
Proof.
  induction ts as [|x ts IH]; intros w id m Hm El Hn; destruct (view_lookup_get w id m Hm) as (m0 & Hm0 & Em);
    assert (elems (targets m0) = elems (targets m)) as Et by (by subst m); rewrite El in Et; simpl; rewrite Hm0; simpl;
    unfold hasTargets at 1; rewrite Et; cbn [negb].
  - exists w. split; [done|]. split; [done|]. rewrite Z.sub_0_r. symmetry. apply insert_id. rewrite Hm. f_equal.
    destruct m as [? ? ? ? ? ? ? ? ? ? ? ? [] ?]; simpl in *. by subst.
  - rewrite (getTarget_head m0 x ts Et). cbn [mbind res_bind].
    destruct (pop_total w id m x ts Hm El) as [w1 H1]. rewrite H1. cbn [mbind res_bind].
    destruct (pop_view w id m w1 Hm H1) as (y & ys & Ey & Ep & Ev). rewrite El in Ey. injection Ey as <- <-.
    simpl in Hn. rewrite uint_small in Ev by lia.
    set (m1 := set_lists _ _ _) in Ev.
    destruct (IH w1 id m1) as (w' & H & Ep' & Ev'); [by rewrite Ev, lookup_insert_eq|done|simpl; lia|].
    exists w'. rewrite H. split; [done|]. split; [congruence|]. rewrite Ev', Ev, insert_insert_eq. simpl.
    replace (ntargets m - Z.of_nat (S (length ts))) with (ntargets m - 1 - Z.of_nat (length ts)) by lia. done.
Qed.

Lemma set_service_ok P m : reg_ok P m -> reg_ok P (set_inService m true).
Proof. intros []. by constructor. Qed.

(** The request goes out. *)
Lemma markInService_ok w id w' m : view w !! id = Some m -> reg_ok (packets w) m ->
  MSHR.markInService w id = Ok (false, w') -> packets w' = packets w /\ inService m = false /\
  view w' = <[id := set_inService m true]> (view w) /\ reg_ok (packets w') (set_inService m true).
Proof.
  intros Hm Hok H. unfold MSHR.markInService in H. apply res_bind_Ok in H as (m0 & Hm0 & H).
  apply res_bind_Ok in H as ([] & Hi%c_assert_Ok & H). apply res_bind_Ok in H as (f & Hf & H).
  apply view_get in Hm0. rewrite Hm in Hm0. apply (inj Some) in Hm0.
  destruct f.
  { apply res_bind_Ok in H as (? & _ & H). apply res_bind_Ok in H as (? & _ & H). done. }
  apply res_bind_Ok in H as (w1 & H1 & H). injection H as <-.
  assert (view (put w id (set_inService m0 true)) = <[id := set_inService m true]> (view w)) as Ev.
  { rewrite view_put. by subst m. }
  assert (view w1 = view (put w id (set_inService m0 true)) /\ packets w1 = packets w) as [E1 E2].
  { destruct (negb (downstreamPending m0)); [|by injection H1 as <-]. apply list_clear_view in H1 as (? & ? & _). done. }
  split; [done|]. split; [|split; [by rewrite E1, Ev|]].
  - assert (inService m0 = inService m) as <- by by subst m. by apply negb_true_iff.
  - rewrite E2. by apply set_service_ok.
Qed.

(** A request that expects no response is gone once it is out. *)
Lemma markInService_gone w id w' m : view w !! id = Some m -> reg_ok (packets w) m ->
  MSHR.markInService w id = Ok (true, w') -> packets w' = packets w /\ inService m = false /\
  exists x, elems (targets m) = [x] /\ source x = FromCPU /\ ntargets m = 1 /\
  view w' = <[id := set_lists (set_ntargets m 0) (mkList [] (needsExclusive (targets m)) (hasUpgrade (targets m)))
                      (deferredTargets m)]> (view w).
Proof.
  intros Hm Hok H. unfold MSHR.markInService in H. apply res_bind_Ok in H as (m0 & Hm0 & H).
  apply res_bind_Ok in H as ([] & Hi%c_assert_Ok & H). apply res_bind_Ok in H as (f & Hf & H).
  apply view_get in Hm0. rewrite Hm in Hm0. apply (inj Some) in Hm0.
  destruct f; [|apply res_bind_Ok in H as (? & _ & H); done].
  apply res_bind_Ok in H as ([] & _ & H). apply res_bind_Ok in H as (w1 & H1 & H). injection H as <-.
  destruct (isForward_view w id m true Hm Hok Hf eq_refl) as (x & Ex & Hs & Hn).
  destruct (pop_view w id m w1 Hm H1) as (y & ys & Ey & Ep & Ev). rewrite Ex in Ey. injection Ey as <- <-.
  rewrite Hn in Ev. split; [done|]. split; [|exists x; by split_and!].
  assert (inService m0 = inService m) as <- by by subst m. by apply negb_true_iff.
Qed.

(** The response may make the deferred requests part of this one. *)
Lemma handleFill_ok w id p w' m : view w !! id = Some m -> reg_ok (packets w) m -> inService m = true ->
  MSHR.handleFill w id p = Ok w' -> pkts_step (packets w) (packets w') /\
  exists m', view w' = <[id := m']> (view w) /\ reg_ok (packets w') m' /\ (forall c, queued c m' = queued c m) /\ same_request m m' /\
    ntargets m' = ntargets m.
Proof.
  intros Hm Hok Hin H. unfold handleFill in H. apply res_bind_Ok in H as (m0 & Hm0 & H).
  apply res_bind_Ok in H as (k & Hk%deref_Ok & H). apply view_get in Hm0. rewrite Hm in Hm0. apply (inj Some) in Hm0.
  set (k1 := if pendingShared m0 then _ else k) in H. set (w1 := put_pkt w p k1) in H.
  assert (pkts_step (packets w) (packets w1)) as S1.
  { apply (put_pkt_step w p k); [done|]. unfold k1. by destruct (pendingShared m0). }
  destruct (negb (Packet.sharedAsserted k1) && _ && _) eqn:Ec.
  2:{ injection H as <-. split; [done|]. exists m. split; [by rewrite insert_id|]. split_and!; [|done..].
      by eapply reg_ok_step. }
  apply andb_true_iff in Ec as [Ec _]. apply andb_true_iff in Ec as [_ Hpi]. apply negb_true_iff in Hpi.
  apply res_bind_Ok in H as ([] & _ & H). apply res_bind_Ok in H as ([] & _ & H). apply res_bind_Ok in H as (w2 & H2 & H).
  apply res_bind_Ok in H as (m2 & Hm2 & H). injection H as <-. apply list_clear_view in H2 as (Ev2 & Ep2 & _).
  apply view_get in Hm2. rewrite Ev2, view_put, lookup_insert_eq in Hm2. apply (inj Some) in Hm2.
  change (packets w2 = packets w1) in Ep2. rewrite <- Ep2 in S1. split; [done|].
  exists (set_lists m (mkList (elems (targets m) ++ elems (deferredTargets m)) true (hasUpgrade (targets m))) empty_list).
  split.
  { rewrite view_put, Ev2, view_put, insert_insert_eq. f_equal.
    change (set_lists (unmarked m2) (mkList (elems (targets (unmarked m2)) ++ elems (deferredTargets (unmarked m2)))
      (needsExclusive (targets (unmarked m2))) (hasUpgrade (targets (unmarked m2)))) empty_list = set_lists m
      (mkList (elems (targets m) ++ elems (deferredTargets m)) true (hasUpgrade (targets m))) empty_list).
    rewrite <- Hm2. by subst m. }
  split; [|split_and!; [|constructor; try done; simpl; by apply prefix_app_r|done]].
  - eapply reg_ok_step; [|exact S1]. destruct Hok. constructor; simpl in *.
    + rewrite length_app. lia.
    + intros [] x; simpl; [|by intros ?%elem_of_nil].
      intros [Hx|Hx]%elem_of_app; [by apply (ro_known0 Current)|by apply (ro_known0 Deferred)].
    + congruence.
    + intros [] x; simpl; [done|]. intros _ ?%elem_of_nil. done.
    + intros l1 x l2 E Hs He. exfalso.
      assert (x ∈ elems (targets m)) as Hx.
      { assert (x ∈ elems (targets m) ++ elems (deferredTargets m)) as Hx by (rewrite E; set_solver).
        apply elem_of_app in Hx as [?|Hx]; [done|]. apply ro_deferred0 in Hx. congruence. }
      apply list_elem_of_split in Hx as (a & b & Ea). destruct (ro_last0 _ _ _ Ea Hs He) as [_ Hp].
      assert (pendingInvalidate m0 = pendingInvalidate m) by by subst m. congruence.
    + by intros x ?%elem_of_nil.
    + done.
  - intros []; simpl.
    + unfold waiting. simpl. rewrite filter_app, app_nil_r. f_equal. apply filter_all.
      intros x Hx%(ro_deferred _ _ Hok). unfold from_above. by rewrite Hx.
    + unfold snoops. simpl. rewrite filter_app, (no_snoops (elems (deferredTargets m))); [by rewrite app_nil_r|].
      apply (ro_deferred _ _ Hok).
Qed.
End MshrProof.
