(* ===== verification/MshrQueueProof.v ===== *)
(** * Proofs about the miss queue

    The lists of the queue, the registers they name and the order of the
    registers that are ready. *)
From Stdlib Require Import Sorted.
From S2P Require Import Prelude EventQueue IntMath Request Packet Mshr MshrProof.

Module MshrQueueProof.
Import MSHR MshrProof.

Definition ready_time (v : gmap Z t) (i : Z) : Z := default 0 (readyTime <$> v !! i).
Definition by_time (v : gmap Z t) (i j : Z) : Prop := ready_time v i <= ready_time v j.
Definition idle (m : t) : Prop :=
  targets m = empty_list /\ deferredTargets m = empty_list /\ ntargets m = 0 /\ inService m = false.
Definition live (v : gmap Z t) (P : gmap Z Packet.t) (i : Z) : Prop :=
  exists m, v !! i = Some m /\ reg_ok P m /\ elems (targets m) <> [].
Definition pending (v : gmap Z t) (i : Z) : Prop := exists m, v !! i = Some m /\ inService m = false.

Record queue_ok (v : gmap Z t) (P : gmap Z Packet.t) (q : MSHRQueue.t) : Prop := {
  qo_nodup : NoDup (MSHRQueue.allocatedList q ++ MSHRQueue.freeList q);
  qo_live : forall i, i ∈ MSHRQueue.allocatedList q -> live v P i;
  qo_free : forall i, i ∈ MSHRQueue.freeList q -> exists m, v !! i = Some m /\ idle m;
  qo_ready : forall i, i ∈ MSHRQueue.readyList q <-> i ∈ MSHRQueue.allocatedList q /\ pending v i;
  qo_once : NoDup (MSHRQueue.readyList q);
  qo_sorted : StronglySorted (by_time v) (MSHRQueue.readyList q);
  qo_allocated : MSHRQueue.allocated q = Z.of_nat (length (MSHRQueue.allocatedList q));
  qo_service : MSHRQueue.inServiceEntries q =
    Z.of_nat (length (MSHRQueue.allocatedList q)) - Z.of_nat (length (MSHRQueue.readyList q));
  qo_total : MSHRQueue.numEntries q =
    Z.of_nat (length (MSHRQueue.allocatedList q)) + Z.of_nat (length (MSHRQueue.freeList q))
}.

(** ** Sorted lists *)
Lemma sorted_ext v v' l : (forall i, i ∈ l -> ready_time v' i = ready_time v i) ->
  StronglySorted (by_time v) l -> StronglySorted (by_time v') l.
Proof.
  intros E Hs. induction Hs as [|i l Hs IH Hf]; constructor.
  - apply IH. set_solver.
  - rewrite Forall_forall in Hf |- *. intros j Hj. unfold by_time. rewrite !E by set_solver. by apply Hf.
Qed.

Lemma sorted_insert v l1 i l2 : StronglySorted (by_time v) (l1 ++ l2) ->
  (forall j, j ∈ l1 -> by_time v j i) -> (forall j, j ∈ l2 -> by_time v i j) ->
  StronglySorted (by_time v) (l1 ++ i :: l2).
Proof.
  intros Hs H1 H2. induction l1 as [|j l1 IH]; simpl in *.
  - constructor; [done|]. by apply Forall_forall.
  - apply StronglySorted_inv in Hs as [Hs Hf]. constructor; [apply IH; set_solver|].
    rewrite Forall_app in Hf. destruct Hf. apply Forall_app. split; [done|]. constructor; [|done]. apply H1. set_solver.
Qed.

Lemma sorted_filter v (Q : Z -> Prop) `{forall i, Decision (Q i)} l :
  StronglySorted (by_time v) l -> StronglySorted (by_time v) (filter Q l).
Proof.
  intros Hs. induction Hs as [|i l Hs IH Hf]; [constructor|]. rewrite filter_cons. destruct (decide (Q i)); [|done].
  constructor; [done|]. rewrite Forall_forall in Hf |- *. intros j [_ Hj]%list_elem_of_filter. by apply Hf.
Qed.

Lemma sorted_head v i l j : StronglySorted (by_time v) (i :: l) -> j ∈ i :: l -> by_time v i j.
Proof.
  intros [_ Hf]%StronglySorted_inv [->|Hj]%elem_of_cons; [unfold by_time; lia|]. rewrite Forall_forall in Hf. by apply Hf.
Qed.

(** ** Joining the ready list *)
Lemma ready_time_get w i m : get w i = Ok m -> ready_time (view w) i = readyTime m.
Proof. intros H%view_get. unfold ready_time. by rewrite H. Qed.

Lemma known_get w i : is_Some (view w !! i) -> exists m, get w i = Ok m /\ ready_time (view w) i = readyTime m.
Proof.
  intros [v Hv]. destruct (view_lookup_get w i v Hv) as (m & Hm & _). exists m. split; [done|]. by apply ready_time_get.
Qed.

Lemma insert_before_ok w time id l : (forall i, i ∈ l -> is_Some (view w !! i)) -> ready_time (view w) id = time ->
  (exists i, i ∈ l /\ time < ready_time (view w) i) -> StronglySorted (by_time (view w)) l ->
  exists l1 l2, l = l1 ++ l2 /\ MSHRQueue.insert_before w time id l = Ok (l1 ++ id :: l2) /\
    (forall j, j ∈ l1 -> by_time (view w) j id) /\ (forall j, j ∈ l2 -> by_time (view w) id j).
Proof.
  intros Hk Ht. induction l as [|i l IH]; intros (j & Hj & Hl) Hs; [by apply elem_of_nil in Hj|].
  destruct (known_get w i) as (m & Hm & Et); [apply Hk; set_solver|]. simpl. rewrite Hm. simpl.
  destruct (Z.gtb_spec (readyTime m) time) as [Hg|Hg].
  - exists [], (i :: l). split_and!; [done|done|set_solver|]. intros x Hx.
    pose proof (sorted_head _ _ _ _ Hs Hx) as Hix. unfold by_time in *. lia.
  - apply StronglySorted_inv in Hs as [Hs Hf].
    destruct IH as (l1 & l2 & -> & -> & H1 & H2); [set_solver|..|done|].
    { exists j. split; [|done]. apply elem_of_cons in Hj as [->|Hj]; [lia|done]. }
    exists (i :: l1), l2. split_and!; [done|done| |done]. intros x [->|Hx]%elem_of_cons; [unfold by_time; lia|by apply H1].
Qed.

Lemma addToReadyList_ok w q id : (forall i, i ∈ MSHRQueue.readyList q -> is_Some (view w !! i)) ->
  is_Some (view w !! id) -> StronglySorted (by_time (view w)) (MSHRQueue.readyList q) ->
  exists l1 l2, MSHRQueue.readyList q = l1 ++ l2 /\
    MSHRQueue.addToReadyList w q id = Ok (MSHRQueue.set_ready q (l1 ++ id :: l2)) /\
    StronglySorted (by_time (view w)) (l1 ++ id :: l2).
Proof.
  intros Hk Hid Hs. destruct (known_get w id Hid) as (m & Hm & Et).
  unfold MSHRQueue.addToReadyList. rewrite Hm. simpl. set (l := MSHRQueue.readyList q) in *.
  destruct (last l) as [b|] eqn:El; simpl.
  2:{ apply last_None in El. exists [], []. rewrite El. split_and!; [done|done|]. repeat constructor. }
  apply last_Some in El as [l0 El]. destruct (known_get w b) as (mb & Hmb & Etb); [apply Hk; rewrite El; set_solver|].
  rewrite Hmb. simpl. destruct (Z.leb_spec (readyTime mb) (readyTime m)).
  - exists l, []. split; [by rewrite app_nil_r|]. split; [done|]. apply sorted_insert; [by rewrite app_nil_r| |set_solver].
    intros j Hj. assert (by_time (view w) j b) as Hjb; [|unfold by_time in *; lia].
    rewrite El in Hj, Hs. apply elem_of_app in Hj as [Hj| ->%list_elem_of_singleton]; [|unfold by_time; lia].
    apply list_elem_of_split in Hj as (a & c & ->). rewrite <- app_assoc in Hs. simpl in Hs.
    clear -Hs. induction a as [|y a IH]; simpl in *; apply StronglySorted_inv in Hs as [Hs Hf]; [|by apply IH].
    rewrite Forall_forall in Hf. apply Hf. set_solver.
  - destruct (insert_before_ok w (readyTime m) id l) as (l1 & l2 & E & -> & H1 & H2); [done|done|..|done|].
    { exists b. split; [rewrite El; set_solver|lia]. }
    exists l1, l2. split_and!; [done|done|]. apply sorted_insert; [by rewrite <- E|done|done].
Qed.

(** ** The lists of the queue *)
Lemma ready_time_ne v i j m : i <> j -> ready_time (<[i := m]> v) j = ready_time v j.
Proof. intros H. unfold ready_time. by rewrite lookup_insert_ne. Qed.

Lemma live_ne v P Q i j m : i <> j -> pkts_step P Q -> live v P j -> live (<[i := m]> v) Q j.
Proof.
  intros H Hs (x & Hx & Hok & Hne). exists x. rewrite lookup_insert_ne by done. split_and!; [done|by eapply reg_ok_step|done].
Qed.

Lemma live_eq v P i m : reg_ok P m -> elems (targets m) <> [] -> live (<[i := m]> v) P i.
Proof. intros Hok Hne. exists m. by rewrite lookup_insert_eq. Qed.

Lemma pending_ne v i j m : i <> j -> pending (<[i := m]> v) j <-> pending v j.
Proof. intros H. unfold pending. by rewrite lookup_insert_ne. Qed.

Lemma pending_eq v i m : v !! i = Some m -> pending v i <-> inService m = false.
Proof. intros H. unfold pending. rewrite H. naive_solver. Qed.

Lemma erase_ok id l : id ∈ l -> MSHRQueue.erase id l = Ok (filter (fun i => i <> id) l).
Proof. intros H. unfold MSHRQueue.erase. by rewrite bool_decide_eq_true_2. Qed.

Lemma length_erase (id : Z) l : NoDup l -> id ∈ l ->
  Z.of_nat (length (filter (fun i => i <> id) l)) = Z.of_nat (length l) - 1.
Proof.
  intros Hn Hi. apply list_elem_of_split in Hi as (a & b & ->). apply NoDup_app in Hn as (_ & H1 & H2).
  apply NoDup_cons in H2 as [H2 _]. rewrite filter_app, filter_cons_False by (intros Hx; by apply Hx).
  rewrite !filter_all, !length_app; [simpl; lia|..]; intros x Hx; [congruence|].
  intros ->. apply (H1 _ Hx). set_solver.
Qed.

(** Other caches at work: neither the registers of the queue nor the packets
    that wait there change, but for replaced upgrades. *)
Definition undisturbed (v v' : gmap Z t) (P P' : gmap Z Packet.t) (q : MSHRQueue.t) : Prop :=
  (forall i, i ∈ MSHRQueue.allocatedList q ++ MSHRQueue.freeList q -> v' !! i = v !! i) /\
  (forall i m l x, i ∈ MSHRQueue.allocatedList q -> v !! i = Some m -> x ∈ elems (list_of m l) -> pkt_step P P' (pkt x)).

Lemma queue_ok_undisturbed v v' P P' q : undisturbed v v' P P' q -> queue_ok v P q -> queue_ok v' P' q.
Proof.
  intros [Hv HP] []. assert (forall i, i ∈ MSHRQueue.readyList q -> v' !! i = v !! i) as Hr.
  { intros i [Hi _]%qo_ready0. apply Hv. set_solver. }
  constructor; try done.
  - intros i Hi. destruct (qo_live0 i Hi) as (m & Hm & Hok & Hne). exists m. rewrite Hv by set_solver.
    split_and!; [done| |done]. apply (reg_ok_step_at P); [done|]. intros l x Hx. by eapply HP.
  - intros i Hi. rewrite Hv by set_solver. by apply qo_free0.
  - intros i. rewrite qo_ready0. split; intros [Hi Hp]; (split; [done|]); unfold pending in *;
      [rewrite Hv by set_solver|rewrite Hv in Hp by set_solver]; done.
  - apply (sorted_ext v); [|done]. intros i Hi. unfold ready_time. by rewrite Hr.
Qed.

(** Requests join an allocated register. *)
Lemma queue_ok_update v P P' q i m m' : queue_ok v P q -> i ∈ MSHRQueue.allocatedList q -> v !! i = Some m ->
  pkts_step P P' -> reg_ok P' m' -> elems (targets m') <> [] -> same_request m m' -> queue_ok (<[i := m']> v) P' q.
Proof.
  intros [] Hi Hm Hs Hok Hne []. assert (i ∉ MSHRQueue.freeList q) as Hf.
  { apply NoDup_app in qo_nodup0 as (_ & H & _). by apply H. }
  constructor; try done.
  - intros j Hj. destruct (decide (i = j)) as [<-|Hij]; [by apply live_eq|]. apply (live_ne v P); auto.
  - intros j Hj. rewrite lookup_insert_ne by congruence. by apply qo_free0.
  - intros j. rewrite qo_ready0. destruct (decide (i = j)) as [<-|Hij]; [|by rewrite pending_ne].
    by rewrite (pending_eq _ i m' (lookup_insert_eq _ _ _)), (pending_eq v i m), sr_service0.
  - apply (sorted_ext v); [|done]. intros j _. destruct (decide (i = j)) as [<-|Hij]; [|by apply ready_time_ne].
    unfold ready_time. by rewrite lookup_insert_eq, Hm.
Qed.

Definition enqueue (q : MSHRQueue.t) (i : Z) (free l : list Z) : MSHRQueue.t :=
  MSHRQueue.mk (MSHRQueue.allocatedList q ++ [i]) l free (MSHRQueue.numEntries q) (MSHRQueue.numReserve q)
    (MSHRQueue.allocated q + 1) (MSHRQueue.inServiceEntries q).

(** A free register is taken. *)
Lemma queue_ok_enqueue v P q i m' free l1 l2 : queue_ok v P q -> MSHRQueue.freeList q = i :: free ->
  reg_ok P m' -> elems (targets m') <> [] -> inService m' = false -> MSHRQueue.readyList q = l1 ++ l2 ->
  StronglySorted (by_time (<[i := m']> v)) (l1 ++ i :: l2) -> queue_ok (<[i := m']> v) P (enqueue q i free (l1 ++ i :: l2)).
Proof.
  intros [] Ef Hok Hne Hin El Hs. rewrite Ef in *. assert ((i ∉ MSHRQueue.allocatedList q) /\ (i ∉ free)) as [Hia Hif].
  { apply NoDup_app in qo_nodup0 as (_ & H & [H2 _]%NoDup_cons). split; [|done]. intros Hi. apply (H i Hi). set_solver. }
  assert (i ∉ l1 ++ l2) as Hir by (rewrite <- El, qo_ready0; tauto).
  constructor; simpl.
  - by rewrite <- app_assoc.
  - intros j [Hj| ->%list_elem_of_singleton]%elem_of_app; [|by apply live_eq]. apply (live_ne v P); [congruence|done|by apply qo_live0].
  - intros j Hj. rewrite lookup_insert_ne by congruence. apply qo_free0. set_solver.
  - intros j. destruct (decide (i = j)) as [<-|Hij].
    + rewrite (pending_eq _ i m' (lookup_insert_eq _ _ _)). set_solver.
    + rewrite pending_ne by done. specialize (qo_ready0 j). rewrite El in qo_ready0. set_solver.
  - rewrite <- Permutation_middle. apply NoDup_cons. by rewrite <- El in *.
  - done.
  - rewrite length_app. simpl. lia.
  - rewrite qo_service0, El, !length_app. simpl. lia.
  - rewrite length_app. simpl in *. lia.
Qed.

Definition without (i : Z) (l : list Z) : list Z := filter (fun j => j <> i) l.
Lemma elem_without i j l : j ∈ without i l <-> j <> i /\ j ∈ l.
Proof. unfold without. by rewrite list_elem_of_filter. Qed.
Lemma without_id i l : i ∉ l -> without i l = l.
Proof. intros H. apply filter_all. intros x Hx ->. done. Qed.

Lemma not_pending q v P i m : queue_ok v P q -> v !! i = Some m -> inService m = true -> i ∉ MSHRQueue.readyList q.
Proof. intros Hq Hm Hin. rewrite (qo_ready _ _ _ Hq). rewrite (pending_eq v i m) by done. intros [_ ?]. congruence. Qed.

Lemma is_pending q v P i m : queue_ok v P q -> i ∈ MSHRQueue.allocatedList q -> v !! i = Some m ->
  inService m = false -> i ∈ MSHRQueue.readyList q.
Proof. intros Hq Hi Hm Hin. rewrite (qo_ready _ _ _ Hq). by rewrite (pending_eq v i m). Qed.

Definition released (q : MSHRQueue.t) (i n : Z) : MSHRQueue.t :=
  MSHRQueue.mk (without i (MSHRQueue.allocatedList q)) (without i (MSHRQueue.readyList q)) (i :: MSHRQueue.freeList q)
    (MSHRQueue.numEntries q) (MSHRQueue.numReserve q) (MSHRQueue.allocated q - 1) n.

(** A register is given back. *)
Lemma queue_ok_release v P P' q i m m' : queue_ok v P q -> i ∈ MSHRQueue.allocatedList q -> v !! i = Some m -> idle m' ->
  pkts_step P P' ->
  queue_ok (<[i := m']> v) P' (released q i (MSHRQueue.inServiceEntries q - (if inService m then 1 else 0))).
Proof.
  intros Hq Hi Hm Hidle Hs. pose proof Hq as []. apply NoDup_app in qo_nodup0 as (N1 & N2 & N3).
  assert (i ∉ MSHRQueue.freeList q) as Hf by by apply N2.
  constructor; simpl.
  - apply NoDup_app. split_and!; [by apply NoDup_filter| |by apply NoDup_cons].
    intros j [Hj Hj2]%elem_without [->|Hj3]%elem_of_cons; [done|]. by apply (N2 j).
  - intros j [Hj Hj2]%elem_without. apply (live_ne v P); [congruence|done|by apply qo_live0].
  - intros j [->|Hj]%elem_of_cons; [exists m'; by rewrite lookup_insert_eq|].
    rewrite lookup_insert_ne by congruence. by apply qo_free0.
  - intros j. rewrite !elem_without, qo_ready0. destruct (decide (i = j)) as [<-|Hij]; [tauto|].
    rewrite pending_ne by done. tauto.
  - by apply NoDup_filter.
  - apply (sorted_ext v); [|by apply sorted_filter]. intros j [Hj _]%elem_without. apply ready_time_ne. congruence.
  - unfold without. rewrite length_erase by done. lia.
  - assert (Z.of_nat (length (without i (MSHRQueue.readyList q))) =
      Z.of_nat (length (MSHRQueue.readyList q)) - (if inService m then 0 else 1)) as El.
    { destruct (inService m) eqn:Ei; [rewrite without_id; [lia|]|].
      - by apply (not_pending q v P i m).
      - apply length_erase; [done|]. by apply (is_pending q v P i m). }
    rewrite El. unfold without at 1. rewrite length_erase by done. destruct (inService m); lia.
  - unfold without. rewrite length_erase by done. lia.
Qed.

(** A register's request goes out. *)
Lemma queue_ok_issue v P q i m : queue_ok v P q -> i ∈ MSHRQueue.allocatedList q -> v !! i = Some m -> inService m = false ->
  queue_ok (<[i := set_inService m true]> v) P
    (MSHRQueue.set_inServiceEntries (MSHRQueue.set_ready q (without i (MSHRQueue.readyList q))) (MSHRQueue.inServiceEntries q + 1)).
Proof.
  intros Hq Hi Hm Hin. pose proof Hq as []. assert (i ∉ MSHRQueue.freeList q) as Hf.
  { apply NoDup_app in qo_nodup0 as (_ & H & _). by apply H. }
  destruct (qo_live0 i Hi) as (m0 & Hm0 & Hok & Hne). assert (m0 = m) as -> by congruence.
  constructor; simpl; try done.
  - intros j Hj. destruct (decide (i = j)) as [<-|Hij]; [apply live_eq; [by apply set_service_ok|done]|].
    apply (live_ne v P); [done|done|by apply qo_live0].
  - intros j Hj. rewrite lookup_insert_ne by congruence. by apply qo_free0.
  - intros j. rewrite elem_without, qo_ready0. destruct (decide (i = j)) as [<-|Hij];
      [|rewrite pending_ne by done; assert (j <> i) by congruence; tauto].
    rewrite (pending_eq _ i _ (lookup_insert_eq _ _ _)). simpl. split; [tauto|intros [_ ?]; done].
  - by apply NoDup_filter.
  - apply (sorted_ext v); [|by apply sorted_filter]. intros j [Hj _]%elem_without. apply ready_time_ne. congruence.
  - unfold without. rewrite length_erase; [lia|done|]. by apply (is_pending q v P i m).
Qed.

(** A register has to go out again. *)
Lemma queue_ok_reissue v P P' q i m m' l1 l2 : queue_ok v P q -> i ∈ MSHRQueue.allocatedList q -> v !! i = Some m ->
  inService m = true -> pkts_step P P' -> reg_ok P' m' -> elems (targets m') <> [] -> inService m' = false ->
  MSHRQueue.readyList q = l1 ++ l2 -> StronglySorted (by_time (<[i := m']> v)) (l1 ++ i :: l2) ->
  queue_ok (<[i := m']> v) P'
    (MSHRQueue.set_ready (MSHRQueue.set_inServiceEntries q (MSHRQueue.inServiceEntries q - 1)) (l1 ++ i :: l2)).
Proof.
  intros Hq Hi Hm Hin Hs Hok Hne Hin' El Hsort. pose proof (not_pending q v P i m Hq Hm Hin) as Hr.
  rewrite El in Hr. pose proof Hq as []. assert (i ∉ MSHRQueue.freeList q) as Hf.
  { apply NoDup_app in qo_nodup0 as (_ & H & _). by apply H. }
  constructor; simpl; try done.
  - intros j Hj. destruct (decide (i = j)) as [<-|Hij]; [by apply live_eq|].
    apply (live_ne v P); [done|done|by apply qo_live0].
  - intros j Hj. rewrite lookup_insert_ne by congruence. by apply qo_free0.
  - intros j. destruct (decide (i = j)) as [<-|Hij].
    + rewrite (pending_eq _ i m' (lookup_insert_eq _ _ _)). set_solver.
    + rewrite pending_ne by done. specialize (qo_ready0 j). rewrite El in qo_ready0. set_solver.
  - rewrite <- Permutation_middle. apply NoDup_cons. by rewrite <- El in *.
  - rewrite qo_service0, El, !length_app. simpl. lia.
Qed.

(** ** The registers of a queue stay the same *)
Definition in_queue (q : MSHRQueue.t) (i : Z) : Prop := i ∈ MSHRQueue.allocatedList q ++ MSHRQueue.freeList q.
Definition same_members (q q' : MSHRQueue.t) : Prop := forall i, in_queue q' i <-> in_queue q i.

Lemma enqueue_members q i free l : MSHRQueue.freeList q = i :: free -> same_members q (enqueue q i free l).
Proof. intros E j. unfold in_queue. simpl. rewrite E. set_solver. Qed.

Lemma released_members q i n : i ∈ MSHRQueue.allocatedList q -> same_members q (released q i n).
Proof.
  intros Hi j. unfold in_queue. simpl. rewrite !elem_of_app, elem_of_cons, elem_without.
  destruct (decide (j = i)) as [->|Hj]; tauto.
Qed.
End MshrQueueProof.
