(* ===== verification/MshrQueueOps.v ===== *)
(** * The operations of the miss queue

    Each operation keeps the invariant of the queue; what waits at a register
    afterwards. *)
From Stdlib Require Import Sorted.
From S2P Require Import Prelude EventQueue IntMath Request Packet Mshr MshrProof MshrQueueProof.

Module MshrQueueOps.
Import MSHR MshrProof MshrQueueProof.

(** The requests from above, or the snoops, that wait at register [i]. *)
Definition held (c : lane) (w : store) (i : Z) : list Target := default [] (queued c <$> view w !! i).

Lemma held_eq c w i m : view w !! i = Some m -> held c w i = queued c m.
Proof. intros H. unfold held. by rewrite H. Qed.

Lemma held_insert c w w' i j m : view w' = <[i := m]> (view w) ->
  held c w' j = if decide (i = j) then queued c m else held c w j.
Proof.
  intros E. unfold held. rewrite E. destruct (decide (i = j)) as [<-|H]; [by rewrite lookup_insert_eq|by rewrite lookup_insert_ne].
Qed.

Lemma queue_known w P q : queue_ok (view w) P q -> forall i, i ∈ MSHRQueue.readyList q -> is_Some (view w !! i).
Proof. intros Hq i [Hi _]%(qo_ready _ _ _ Hq). destruct (qo_live _ _ _ Hq i Hi) as (m & -> & _). done. Qed.

(** ** A register for a new miss *)
Definition request_source (k : Packet.t) : Source :=
  if bool_decide (Packet.cmd k = MemCmd.HardPFReq) then FromPrefetcher else FromCPU.

Lemma allocate_view curTick w id a s p ready ord w' m : view w !! id = Some m -> idle m ->
  allocate curTick w id a s p ready ord = Ok w' -> packets w' = packets w /\ exists m' x,
    view w' = <[id := m']> (view w) /\ reg_ok (packets w') m' /\ elems (targets m') = [x] /\ waiting m' = [x] /\ source x <> FromSnoop /\
    pkt x = p /\ t_order x = ord /\ inService m' = false /\ addr m' = a /\ size m' = s /\ readyTime m' = ready.
Proof.
  intros Hm (It & Id & In & Ii) H. unfold allocate in H. apply res_bind_Ok in H as (m0 & Hm0 & H).
  apply res_bind_Ok in H as (k & Hk%deref_Ok & H). apply view_get in Hm0. rewrite Hm in Hm0. apply (inj Some) in Hm0.
  set (m1 := mk _ _ _ _ _ _ _ _ _ _ _ _ _ _) in H. fold (request_source k) in H.
  apply res_bind_Ok in H as ([] & _ & H). apply res_bind_Ok in H as (w1 & H1 & H).
  apply res_bind_Ok in H as (m2 & Hm2 & H). apply res_bind_Ok in H as ([] & _ & H). injection H as <-.
  apply add_view in H1 as (m3 & k3 & Hm3 & Hk3 & Ep & Ev). simpl in Hk3. assert (k3 = k) as -> by congruence.
  rewrite view_put in Hm3, Ev. rewrite lookup_insert_eq in Hm3. apply (inj Some) in Hm3. rewrite insert_insert_eq in Ev.
  set (x := mkTarget _ _ _ _ _ _) in Ev. split; [done|].
  apply view_get in Hm2. rewrite Ev, lookup_insert_eq in Hm2. apply (inj Some) in Hm2.
  exists (set_pending (unmarked m2) false false), x. split; [by rewrite view_put, Ev, insert_insert_eq|].
  assert (targets m0 = empty_list /\ deferredTargets m0 = empty_list) as [Et Ed] by by subst m.
  assert (source x <> FromSnoop) as Hsrc by (unfold x, request_source; simpl; by destruct (bool_decide _)).
  assert (targets (unmarked m2) = added empty_list k x) as F1.
  { rewrite <- Hm2, <- Hm3. simpl. unfold m1. simpl. by rewrite Et. }
  assert (deferredTargets (unmarked m2) = empty_list) as F2.
  { rewrite <- Hm2, <- Hm3. simpl. done. }
  assert (ntargets (unmarked m2) = 1 /\ inService (unmarked m2) = false /\ addr (unmarked m2) = a /\
    size (unmarked m2) = s /\ readyTime (unmarked m2) = ready) as (F3 & F4 & F5 & F6 & F7) by by rewrite <- Hm2, <- Hm3.
  assert (reg_ok (packets w1) (set_pending (unmarked m2) false false)) as Hok.
  { rewrite Ep.
    assert (reg_ok (packets w) (set_lists (set_ntargets (set_pending (unmarked m2) false false) 0) empty_list empty_list)) as H0.
    { constructor; simpl; try done.
      - intros [] y ?%elem_of_nil; done.
      - intros [] y _ ?%elem_of_nil; done.
      - by intros [] y l2.
      - by intros y ?%elem_of_nil. }
    apply (reg_ok_add_current (packets w) _ k x) in H0; [|done..]. simpl in H0.
    clear -H0 F1 F2 F3. revert H0 F1 F2 F3. generalize (unmarked m2). intros [] H0; simpl in *. intros -> -> ->. exact H0. }
  split; [done|]. unfold waiting. simpl. simpl in F1, F2. rewrite F1, F2. simpl.
  rewrite filter_cons_True by done. rewrite filter_nil. split_and!; done.
Qed.

Lemma allocate_ok curTick w q a s p ready ord id w' q' : queue_ok (view w) (packets w) q ->
  MSHRQueue.allocate curTick w q a s p ready ord = Ok (id, w', q') ->
  packets w' = packets w /\ queue_ok (view w') (packets w') q' /\ id ∈ MSHRQueue.freeList q /\
  same_members q q' /\ exists m x, view w' = <[id := m]> (view w) /\ waiting m = [x] /\ snoops m = [] /\ pkt x = p /\ t_order x = ord /\ addr m = a.
Proof.
  intros Hq H. unfold MSHRQueue.allocate in H. destruct (MSHRQueue.freeList q) as [|i free] eqn:Ef; [done|].
  apply res_bind_Ok in H as (m0 & _ & H). apply res_bind_Ok in H as ([] & _ & H). apply res_bind_Ok in H as (w1 & H1 & H).
  destruct (qo_free _ _ _ Hq i) as (m & Hm & Hidle); [rewrite Ef; set_solver|].
  destruct (allocate_view _ _ _ _ _ _ _ _ _ _ Hm Hidle H1) as (Ep & m' & x & Ev & Hok & Ex & Hw & Hsrc & Hp & Ho & Hin & Ha & _).
  apply res_bind_Ok in H as (q1 & H2 & H). injection H as <- <- <-.
  set (q0 := MSHRQueue.mk _ _ _ _ _ _ _) in H2.
  assert (i ∉ MSHRQueue.readyList q) as Hir.
  { rewrite (qo_ready _ _ _ Hq). intros [Hi _]. pose proof (qo_nodup _ _ _ Hq) as Hn. rewrite Ef in Hn.
    apply NoDup_app in Hn as (_ & Hd & _). apply (Hd i Hi). set_solver. }
  destruct (addToReadyList_ok w1 q0 i) as (l1 & l2 & El & E2 & Hs).
  { intros j Hj. rewrite Ev. destruct (decide (i = j)) as [<-|Hij]; [by rewrite lookup_insert_eq|].
    rewrite lookup_insert_ne by done. by apply (queue_known w _ q Hq). }
  { rewrite Ev, lookup_insert_eq. done. }
  { rewrite Ev. apply (sorted_ext (view w)); [|exact (qo_sorted _ _ _ Hq)].
    intros j Hj. apply ready_time_ne. intros ->. done. }
  rewrite E2 in H2. injection H2 as <-. split; [done|]. split; [|split; [set_solver|split; [by apply (enqueue_members q i free (l1 ++ i :: l2))|]]].
  2:{ exists m', x. split_and!; try done. unfold snoops. rewrite Ex. by rewrite filter_cons_False. }
  rewrite Ev. change (queue_ok (<[i := m']> (view w)) (packets w1) (enqueue q i free (l1 ++ i :: l2))).
  apply queue_ok_enqueue; [by rewrite Ep|done|done|by rewrite Ex|done|done|by rewrite <- Ev].
Qed.

(** ** Giving a register back *)
Lemma deallocate_ok v P q id m m0 : queue_ok v P q -> id ∈ MSHRQueue.allocatedList q -> v !! id = Some m ->
  forall w1, view w1 = <[id := m0]> v -> inService m0 = inService m -> elems (targets m0) = [] ->
  deferredTargets m0 = empty_list -> ntargets m0 = 0 ->
  exists w' m', MSHRQueue.deallocate w1 q id =
      Ok (w', released q id (MSHRQueue.inServiceEntries q - (if inService m then 1 else 0))) /\
    packets w' = packets w1 /\ idle m' /\ view w' = <[id := m']> v.
Proof.
  intros Hq Hi Hm w1 Ev Ein Et Ed En. unfold MSHRQueue.deallocate, MSHRQueue.deallocateOne.
  rewrite (erase_ok _ _ Hi). cbn [mbind res_bind].
  destruct (view_lookup_get w1 id m0) as (m1 & Hm1 & Em1); [by rewrite Ev, lookup_insert_eq|].
  assert (targets m1 = targets m0 /\ deferredTargets m1 = deferredTargets m0 /\ ntargets m1 = ntargets m0 /\
    inService m1 = inService m0) as (F1 & F2 & F3 & F4) by by subst m0.
  assert (exists w', MSHR.deallocate w1 id = Ok w' /\ packets w' = packets w1 /\ exists m', idle m' /\
    view w' = <[id := m']> v) as (w' & Hd & Ep & m' & Hidle & Ev').
  { unfold MSHR.deallocate. rewrite Hm1. simpl. unfold hasTargets. rewrite F1, Et. simpl.
    rewrite F2, Ed. simpl. rewrite F3, En. simpl. eexists. split; [done|]. split; [done|].
    eexists. split; [|by rewrite view_put, Ev, insert_insert_eq]. unfold resetFlags. rewrite Et. split_and!; try done.
    simpl. by rewrite F3. }
  exists w', m'. rewrite Hm1. simpl. rewrite F4, Ein. split; [|done].
  destruct (inService m) eqn:Ei; simpl.
  - rewrite Hd. simpl. unfold released. rewrite (without_id id (MSHRQueue.readyList q)); [done|].
    by apply (not_pending q v P id m).
  - rewrite erase_ok by by apply (is_pending q v P id m). simpl. rewrite Hd. simpl. unfold released, without.
    by rewrite Z.sub_0_r.
Qed.

Lemma released_free q id n : id ∈ MSHRQueue.freeList (released q id n).
Proof. simpl. set_solver. Qed.

(** ** A register's request goes out *)
Lemma issue_ok w q id gone w1 w' q' m : queue_ok (view w) (packets w) q -> id ∈ MSHRQueue.allocatedList q ->
  view w !! id = Some m ->
  MSHR.markInService w id = Ok (gone, w1) -> MSHRQueue.markInService w q id = Ok (w', q') ->
  packets w' = packets w /\ inService m = false /\ queue_ok (view w') (packets w') q' /\ same_members q q' /\ exists m',
    view w' = <[id := m']> (view w) /\
    if gone : bool then (forall c, queued c m = filter (of_lane c) (elems (targets m)) /\ queued c m' = [])
    else (forall c, queued c m' = queued c m) /\ inService m' = true.
Proof.
  intros Hq Hi Hm H1 H. destruct (qo_live _ _ _ Hq id Hi) as (m0 & Hm0 & Hok & Hne). assert (m0 = m) as -> by congruence.
  unfold MSHRQueue.markInService in H. rewrite H1 in H. cbn [mbind res_bind] in H.
  destruct gone.
  - destruct (markInService_gone w id w1 m Hm Hok H1) as (Ep & Hin & x & Ex & Hs & Hn & Ev).
    destruct (ro_idle _ _ Hok Hin) as [Ed _].
    destruct (deallocate_ok (view w) (packets w) q id m _ Hq Hi Hm w1 Ev) as (w2 & m' & E & Ep' & Hidle & Ev'); [done..|].
    rewrite E in H. injection H as <- <-. split; [congruence|]. split; [done|]. split.
    + rewrite Ev', Ep', Ep. by apply (queue_ok_release (view w) (packets w)).
    + split; [by apply released_members|]. exists m'. split; [done|]. destruct Hidle as (It & Id & _).
      intros []; simpl; unfold waiting, snoops; rewrite ?Ed, ?It, ?Id; (split; [|done]); [|done]. apply app_nil_r.
  - destruct (markInService_ok w id w1 m Hm Hok H1) as (Ep & Hin & Ev & Hok').
    rewrite erase_ok in H by by apply (is_pending q (view w) (packets w) id m). injection H as <- <-.
    split; [done|]. split; [done|]. split; [rewrite Ev, Ep; by apply queue_ok_issue|]. split; [done|].
    exists (set_inService m true). split; [done|]. split; [by intros []|done].
Qed.

(** ** The response *)
Lemma promote_none curTick w id m : view w !! id = Some m -> elems (targets m) = [] -> elems (deferredTargets m) = [] ->
  promoteDeferredTargets curTick w id = Ok (false, w).
Proof.
  intros Hm Et Ed. destruct (view_lookup_get w id m Hm) as (m0 & Hm0 & Em).
  assert (targets m0 = targets m /\ deferredTargets m0 = deferredTargets m) as [F1 F2] by by subst m.
  unfold promoteDeferredTargets. rewrite Hm0. simpl. unfold hasTargets. by rewrite F1, F2, Et, Ed.
Qed.

Definition promoted (curTick : Z) (m : t) (x : Target) : t :=
  set_issue (set_pending (set_lists m (deferredTargets m) (resetFlags (targets m))) false false)
    (Z.max curTick (t_readyTime x)) (t_order x).

Lemma promote_some curTick w id m x ts : view w !! id = Some m -> elems (targets m) = [] ->
  elems (deferredTargets m) = x :: ts -> ntargets m = Z.of_nat (S (length ts)) ->
  exists w', promoteDeferredTargets curTick w id = Ok (true, w') /\ packets w' = packets w /\
    view w' = <[id := promoted curTick m x]> (view w).
Proof.
  intros Hm Et Ed En. destruct (view_lookup_get w id m Hm) as (m0 & Hm0 & Em).
  assert (targets m0 = targets m /\ deferredTargets m0 = deferredTargets m /\ ntargets m0 = ntargets m)
    as (F1 & F2 & F3) by by subst m.
  unfold promoteDeferredTargets. rewrite Hm0. simpl. unfold hasTargets. rewrite F1, F2, Et, Ed. cbn [negb c_assert mbind res_bind].
  assert ((Z.of_nat (length (x :: ts)) =? ntargets m0) = true) as -> by (apply Z.eqb_eq; rewrite F3, En; done).
  simpl. eexists. split; [done|]. split; [done|]. rewrite view_put. by subst m.
Qed.

(** The register for the requests that were deferred. *)
Lemma promoted_ok P curTick m m1 x ts : reg_ok P m1 -> elems (deferredTargets m1) = x :: ts ->
  m = set_lists (set_ntargets m1 (Z.of_nat (S (length ts))))
        (mkList [] (needsExclusive (targets m1)) (hasUpgrade (targets m1))) (deferredTargets m1) ->
  reg_ok P (set_inService (promoted curTick m x) false) /\
  waiting (set_inService (promoted curTick m x) false) = elems (deferredTargets m1) /\
  snoops (set_inService (promoted curTick m x) false) = [].
Proof.
  intros [] Ed ->. split_and!.
  - constructor; simpl; try done.
    + rewrite Ed. simpl. lia.
    + intros [] y; [by apply (ro_known0 Deferred)|by intros ?%elem_of_nil].
    + intros [] y; [by apply (ro_excl0 Deferred)|by intros _ ?%elem_of_nil].
    + intros l1 y l2 E Hs. assert (source y = FromCPU) by (apply ro_deferred0; rewrite E; set_solver). congruence.
    + by intros y ?%elem_of_nil.
  - unfold waiting. simpl. rewrite app_nil_r. apply filter_all. intros y Hy%ro_deferred0. unfold from_above. congruence.
  - by apply no_snoops.
Qed.

Lemma getTarget_ok m : elems (targets m) <> [] -> exists x, getTarget m = Ok x.
Proof. unfold getTarget, hasTargets. destruct (elems (targets m)) as [|x ts]; [done|]. intros _. by exists x. Qed.

Lemma maybe_target m : (if hasTargets m then x ← getTarget m; Ok (Some x) else Ok None) = Ok (head (elems (targets m))).
Proof. unfold getTarget, hasTargets. by destruct (elems (targets m)). Qed.

(** The register goes back to the ready list. *)
Lemma markPending_ok w q id m v : view w = <[id := m]> v -> inService m = true ->
  (forall i, i ∈ MSHRQueue.readyList q -> is_Some (v !! i) /\ i <> id) ->
  StronglySorted (by_time v) (MSHRQueue.readyList q) ->
  exists w' l1 l2, MSHRQueue.markPending w q id = Ok (w', MSHRQueue.set_ready
      (MSHRQueue.set_inServiceEntries q (MSHRQueue.inServiceEntries q - 1)) (l1 ++ id :: l2)) /\
    MSHRQueue.readyList q = l1 ++ l2 /\ packets w' = packets w /\ view w' = <[id := set_inService m false]> v /\
    StronglySorted (by_time (view w')) (l1 ++ id :: l2).
Proof.
  intros Ev Hin Hr Hs. destruct (view_lookup_get w id m) as (m0 & Hm0 & Em); [by rewrite Ev, lookup_insert_eq|].
  unfold MSHRQueue.markPending. rewrite Hm0. simpl. assert (inService m0 = true) as -> by by subst m. simpl.
  set (w1 := put w id (set_inService m0 false)). set (q1 := MSHRQueue.set_inServiceEntries q _).
  assert (view w1 = <[id := set_inService m false]> v) as Ev1.
  { unfold w1. rewrite view_put, Ev, insert_insert_eq. by subst m. }
  destruct (addToReadyList_ok w1 q1 id) as (l1 & l2 & El & E & Hs').
  - intros i Hi. destruct (Hr i Hi). by rewrite Ev1, lookup_insert_ne by congruence.
  - by rewrite Ev1, lookup_insert_eq.
  - rewrite Ev1. apply (sorted_ext v); [|done]. intros i Hi. destruct (Hr i Hi). apply ready_time_ne. congruence.
  - exists w1, l1, l2. rewrite E. by split_and!.
Qed.

(** The fill, when there is one. *)
Lemma maybe_fill_ok (is_fill : bool) w id p w1 m : view w !! id = Some m -> reg_ok (packets w) m -> inService m = true ->
  (if is_fill then handleFill w id p else Ok w) = Ok w1 -> pkts_step (packets w) (packets w1) /\
  exists m1, view w1 = <[id := m1]> (view w) /\ reg_ok (packets w1) m1 /\ (forall c, queued c m1 = queued c m) /\ same_request m m1 /\
    ntargets m1 = ntargets m.
Proof.
  intros Hm Hok Hin H. destruct is_fill; [by apply (handleFill_ok w id p)|]. injection H as <-.
  split; [done|]. exists m. split_and!; [by rewrite insert_id|done..].
Qed.

(** All targets served, the deferred ones become the next request or the
    register is free. *)
Lemma finish_ok curTick w1 q id m m1 v P : queue_ok v P q -> id ∈ MSHRQueue.allocatedList q -> v !! id = Some m ->
  inService m = true -> view w1 = <[id := m1]> v -> inService m1 = true -> pkts_step P (packets w1) -> reg_ok (packets w1) m1 ->
  ntargets m1 < 2 ^ 16 -> exists w2 again w3 w' q' m',
    MSHRQueue.serve (length (elems (targets m1))) w1 id = Ok (elems (targets m1), w2) /\ promoteDeferredTargets curTick w2 id = Ok (again, w3) /\
    (if (again : bool) then MSHRQueue.markPending w3 q id else MSHRQueue.deallocate w3 q id) = Ok (w', q') /\
    packets w' = packets w1 /\ queue_ok (view w') (packets w') q' /\ same_members q q' /\ view w' = <[id := m']> v /\
    waiting m' = elems (deferredTargets m1) /\ snoops m' = [] /\ inService m' = false /\
    (if again then id ∈ MSHRQueue.readyList q' else id ∈ MSHRQueue.freeList q').
Proof.
  intros Hq Hi Hm Hin Ev Hin1 Hs Hok Hn. pose proof (ro_count _ _ Hok) as Hc.
  destruct (serve_ok (elems (targets m1)) w1 id m1) as (w2 & H2 & Ep2 & Ev2); [by rewrite Ev, lookup_insert_eq|done|lia|].
  rewrite Ev, insert_insert_eq in Ev2. set (m2 := set_lists _ _ _) in Ev2.
  destruct (elems (deferredTargets m1)) as [|x ts] eqn:Ed; simpl in Hc.
  - pose proof (ro_reset _ _ Hok Ed) as Hr. exists w2, false, w2.
    destruct (deallocate_ok v P q id m m2 Hq Hi Hm w2 Ev2) as (w' & m' & E & Ep' & Hidle & Ev');
      [by rewrite Hin; simpl|done|done|simpl; lia|].
    do 2 eexists; exists m'. split; [done|]. split; [apply (promote_none curTick w2 id m2); [by rewrite Ev2, lookup_insert_eq|done..]|].
    split; [exact E|]. split; [congruence|]. rewrite Ev', Ep', Ep2. destruct Hidle as (It & Id & In & Ii).
    split; [by apply (queue_ok_release v P)|]. split; [by apply released_members|]. unfold waiting, snoops. rewrite It, Id. split_and!; [done|done|done|done|apply released_free].
  - destruct (promote_some curTick w2 id m2 x ts) as (w3 & H3 & Ep3 & Ev3);
      [by rewrite Ev2, lookup_insert_eq|done|done|simpl; lia|].
    rewrite Ev2, insert_insert_eq in Ev3.
    destruct (promoted_ok (packets w1) curTick m2 m1 x ts Hok Ed) as (Hokp & Hw & Hv); [by unfold m2; do 2 f_equal; lia|].
    destruct (markPending_ok w3 q id (promoted curTick m2 x) v Ev3) as (w' & l1 & l2 & H4 & El & Ep4 & Ev4 & Hs4); [done| |exact (qo_sorted _ _ _ Hq)|].
    { intros i Hir. split; [|intros ->; by apply (not_pending q v P id m)].
      apply (qo_ready _ _ _ Hq) in Hir as [Hia _]. destruct (qo_live _ _ _ Hq i Hia) as (? & -> & _). done. }
    exists w2, true, w3. do 2 eexists; eexists. split; [done|]. split; [done|]. split; [exact H4|]. split; [congruence|].
    rewrite Ev4, Ep4, Ep3, Ep2. rewrite Ev4 in Hs4. split.
    { apply (queue_ok_reissue v P _ q id m); try done. simpl. by rewrite Ed. }
    split; [done|]. split; [done|]. split; [by rewrite Hw|]. split; [done|]. split; [done|]. simpl. set_solver.
Qed.

Lemma response_ok curTick w q id p (is_fill : bool) w1 m : queue_ok (view w) (packets w) q ->
  id ∈ MSHRQueue.allocatedList q -> view w !! id = Some m -> inService m = true -> ntargets m < 2 ^ 16 ->
  (if is_fill then handleFill w id p else Ok w) = Ok w1 ->
  exists m1 w' q' m', view w1 !! id = Some m1 /\ reg_ok (packets w1) m1 /\ (forall c, queued c m1 = queued c m) /\
    MSHRQueue.handleResponse curTick w q id p is_fill = Ok (elems (targets m1), w', q') /\
    pkts_step (packets w) (packets w') /\ queue_ok (view w') (packets w') q' /\ same_members q q' /\ view w' = <[id := m']> (view w) /\
    waiting m' = elems (deferredTargets m1) /\ snoops m' = [] /\ inService m' = false /\
    (id ∈ MSHRQueue.readyList q' \/ (id ∈ MSHRQueue.freeList q' /\ waiting m' = [])).
Proof.
  intros Hq Hi Hm Hin Hn Hf. destruct (qo_live _ _ _ Hq id Hi) as (m0 & Hm0 & Hok & Hne). assert (m0 = m) as -> by congruence.
  destruct (maybe_fill_ok is_fill w id p w1 m Hm Hok Hin Hf) as (S1 & m1 & Ev1 & Hok1 & W1 & R1 & N1).
  destruct (finish_ok curTick w1 q id m m1 (view w) (packets w)) as (w2 & again & w3 & w' & q' & m' & H2 & H3 & H4 & Ep & Hq' & Hsm & Ev' & W' & V' & I' & Hend);
    try done; [by rewrite (sr_service _ _ R1)|lia|].
  exists m1, w', q', m'. split; [by rewrite Ev1, lookup_insert_eq|]. split; [done|]. split; [done|]. split.
  - unfold MSHRQueue.handleResponse. destruct (view_lookup_get w id m Hm) as (mg & Hmg & Emg).
    destruct (getTarget_ok mg) as [y Hy]; [by rewrite <- Emg in Hne|].
    destruct (view_lookup_get w1 id m1) as (mg1 & Hmg1 & Emg1); [by rewrite Ev1, lookup_insert_eq|].
    assert (targets mg1 = targets m1) as Et by by subst m1.
    rewrite Hmg. cbn [mbind res_bind]. rewrite Hy. cbn [mbind res_bind]. rewrite Hf. cbn [mbind res_bind].
    rewrite Hmg1. cbn [mbind res_bind]. rewrite (maybe_target mg1). cbn [mbind res_bind]. rewrite Et, H2. cbn [mbind res_bind]. rewrite H3. cbn [mbind res_bind].
    rewrite H4. done.
  - split; [by rewrite Ep|]. split_and!; try done. destruct again; [by left|right]. split; [done|].
    destruct (qo_free _ _ _ Hq' id Hend) as (m2 & Hm2 & It & Id & _). rewrite Ev', lookup_insert_eq in Hm2.
    apply (inj Some) in Hm2. subst m2. unfold waiting. by rewrite It, Id.
Qed.
End MshrQueueOps.
