(* ===== verification/MshrTheorems.v ===== *)
(** * Outstanding misses: the theorems

    The calls that a cache makes on its registers and their queue, as steps;
    what holds in every state they reach. *)
From Stdlib Require Import Sorted.
From S2P Require Import Prelude EventQueue IntMath Request Packet Mshr MshrProof MshrQueueProof MshrQueueOps.

Module MshrTheorems.
Import MSHR MshrProof MshrQueueProof MshrQueueOps.

(** ** Steps *)

(** A request or a snooped packet comes to register [id], to wait there; the
    targets [ts] leave it, in this order; nothing comes or goes. *)
Inductive label := Arrive (c : lane) (id p : Z) | Serve (id : Z) (ts : list Target) | Quiet.

(** [step_snoop]: the copy [fresh] of a snooped packet waits at the register when
    it conflicts with the request that is out.  [step_other]: what other caches and the cache's own ports do. *)
Inductive step : store * MSHRQueue.t -> label -> store * MSHRQueue.t -> Prop :=
| step_allocate curTick w q a s p ready ord id w' q' :
    MSHRQueue.allocate curTick w q a s p ready ord = Ok (id, w', q') -> step (w, q) (Arrive Requests id p) (w', q')
| step_target curTick w q id m p ready ord w' : id ∈ MSHRQueue.allocatedList q -> get w id = Ok m ->
    ntargets m < 2 ^ 16 - 1 -> allocateTarget curTick w id p ready ord = Ok w' ->
    step (w, q) (Arrive Requests id p) (w', q)
| step_snoop curTick g fresh w q id m p k ord b w' : id ∈ MSHRQueue.allocatedList q -> get w id = Ok m ->
    ntargets m < 2 ^ 16 - 1 -> packets w !! fresh = None -> packets w !! p = Some k ->
    handleSnoop curTick g fresh w id p ord = Ok (b, w') ->
    step (w, q) (if defers m k then Arrive Snoops id fresh else Quiet) (w', q)
| step_issue w q id m gone w1 w' q' : id ∈ MSHRQueue.allocatedList q -> get w id = Ok m ->
    MSHR.markInService w id = Ok (gone, w1) -> MSHRQueue.markInService w q id = Ok (w', q') ->
    step (w, q) (if gone : bool then Serve id (elems (targets m)) else Quiet) (w', q')
| step_response curTick w q id m p is_fill ts w' q' : id ∈ MSHRQueue.allocatedList q -> get w id = Ok m ->
    inService m = true -> ntargets m < 2 ^ 16 ->
    MSHRQueue.handleResponse curTick w q id p is_fill = Ok (ts, w', q') ->
    step (w, q) (Serve id ts) (w', q')
| step_other w w' q : undisturbed (view w) (view w') (packets w) (packets w') q -> step (w, q) Quiet (w', q).

(** Labels of a run, the latest last. *)
Inductive run (s : store * MSHRQueue.t) : list label -> store * MSHRQueue.t -> Prop :=
| run_nil : run s [] s
| run_snoc tr s1 l s2 : run s tr s1 -> step s1 l s2 -> run s (tr ++ [l]) s2.

(** A queue just made, of registers just made. *)
Definition initial (w : store) (ids : list Z) (num_entries reserve : Z) (q : MSHRQueue.t) : Prop :=
  MSHRQueue.new ids num_entries reserve = Ok q /\ NoDup ids /\
  forall i, i ∈ ids -> exists g, registers w !! i = Some (new g).

Definition reachable (w : store) (q : MSHRQueue.t) (tr : list label) : Prop :=
  exists w0 ids n r q0, initial w0 ids n r q0 /\ run (w0, q0) tr (w, q).

(** The packets of lane [c] that came to register [id], and those that left it. *)
#[export] Instance lane_eq_dec : EqDecision lane.
Proof. solve_decision. Defined.
Definition arrived (c : lane) (id : Z) (tr : list label) : list Z :=
  tr ≫= (fun l => match l with Arrive d i p => if decide (d = c /\ i = id) then [p] else [] | _ => [] end).
Definition served (c : lane) (id : Z) (tr : list label) : list Z :=
  tr ≫= (fun l => match l with Serve i ts => if decide (i = id) then pkt <$> filter (of_lane c) ts else [] | _ => [] end).

(** ** The invariant along steps *)
Lemma initial_ok w ids n r q : initial w ids n r q -> queue_ok (view w) (packets w) q.
Proof.
  intros (H & Hn & Hr). apply res_bind_Ok in H as ([] & Hl%c_assert_Ok & H). injection H as <-. apply Z.eqb_eq in Hl.
  constructor; simpl; try done.
  - intros i Hi. by apply elem_of_nil in Hi.
  - intros i Hi. destruct (Hr i Hi) as [g Hg]. exists (unmarked (new g)). split; [|done]. unfold view. by rewrite lookup_fmap, Hg.
  - intros i. split; [by intros ?%elem_of_nil|by intros [?%elem_of_nil _]].
  - apply NoDup_nil_2.
  - constructor.
Qed.

(** The effect of a step on what waits at a register. *)
Definition moves (w w' : store) (l : label) (i : Z) : Prop :=
  forall c, (pkt <$> held c w i) ++ arrived c i [l] = served c i [l] ++ (pkt <$> held c w' i).

Lemma moves_quiet w w' i : (forall c, held c w' i = held c w i) -> moves w w' Quiet i.
Proof. intros E c. simpl. by rewrite E, app_nil_r. Qed.

Lemma held_free c w P q i : queue_ok (view w) P q -> i ∈ MSHRQueue.freeList q -> held c w i = [].
Proof.
  intros Hq Hi. destruct (qo_free _ _ _ Hq i Hi) as (m & Hm & It & Id & _). rewrite (held_eq c w i m) by done.
  destruct c; simpl; unfold waiting, snoops; by rewrite It, ?Id.
Qed.

Lemma moves_other w w' q i : undisturbed (view w) (view w') (packets w) (packets w') q -> in_queue q i -> moves w w' Quiet i.
Proof. intros [Hv _] Hi. apply moves_quiet. intros c. unfold held. by rewrite Hv. Qed.

Lemma moves_insert_quiet w w' id m m' i : view w !! id = Some m -> view w' = <[id := m']> (view w) ->
  (forall c, queued c m' = queued c m) -> moves w w' Quiet i.
Proof.
  intros Hm Ev W. apply moves_quiet. intros c. rewrite (held_insert _ _ _ _ _ _ Ev). destruct (decide (id = i)) as [<-|]; [|done].
  by rewrite (held_eq c w id m).
Qed.

Lemma moves_arrive w w' d id p i m' x : view w' = <[id := m']> (view w) ->
  (forall c, queued c m' = held c w id ++ if decide (d = c) then [x] else []) -> pkt x = p ->
  moves w w' (Arrive d id p) i.
Proof.
  intros Ev W Hp c. rewrite (held_insert _ _ _ _ _ _ Ev). simpl. rewrite app_nil_r.
  destruct (decide (id = i)) as [<-|]; [|rewrite decide_False by tauto; by rewrite app_nil_r].
  rewrite W, fmap_app. f_equal. destruct (decide (d = c)); [rewrite decide_True by done|rewrite decide_False by tauto]; [|done].
  simpl. by rewrite Hp.
Qed.

Lemma moves_serve w w' id ts i m' : view w' = <[id := m']> (view w) ->
  (forall c, held c w id = filter (of_lane c) ts ++ queued c m') -> moves w w' (Serve id ts) i.
Proof.
  intros Ev W c. rewrite (held_insert _ _ _ _ _ _ Ev). simpl. rewrite !app_nil_r.
  destruct (decide (id = i)) as [<-|]; [|done]. by rewrite W, fmap_app.
Qed.

Lemma joined_nonempty m m' : same_request m m' -> elems (targets m) <> [] -> elems (targets m') <> [].
Proof. intros Hsr Hne. destruct (sr_targets _ _ Hsr) as [ts ->]. by destruct (elems (targets m)). Qed.

Lemma response_fill curTick w q id p (is_fill : bool) ts w' q' : MSHRQueue.handleResponse curTick w q id p is_fill = Ok (ts, w', q') ->
  exists w1, (if is_fill then handleFill w id p else Ok w) = Ok w1.
Proof.
  intros H. unfold MSHRQueue.handleResponse in H. apply res_bind_Ok in H as (? & _ & H).
  apply res_bind_Ok in H as (? & _ & H). apply res_bind_Ok in H as (w1 & H1 & _). by exists w1.
Qed.

Lemma queue_step w q l w' q' : step (w, q) l (w', q') -> queue_ok (view w) (packets w) q ->
  queue_ok (view w') (packets w') q' /\ same_members q q' /\ forall i, in_queue q i -> moves w w' l i.
Proof.
  intros Hst Hq. inversion Hst as [curTick ? ? a s p ready ord id ? ? H|curTick ? ? id mg p ready ord ? Hi Hg Hn H
    |curTick g fresh ? ? id mg p k ord b ? Hi Hg Hn Hf Hk H|? ? id mg gone w1 ? ? Hi Hg H1 H
    |curTick ? ? id mg p is_fill ts ? ? Hi Hg Hin Hn H|? ? ? H]; subst; try apply view_get in Hg as Hv;
    try destruct (qo_live _ _ _ Hq id Hi) as (m & Hm & Hok & Hne).
  - destruct (allocate_ok _ _ _ _ _ _ _ _ _ _ _ Hq H) as (Ep & Hq' & Hid & Hsm & m & x & Ev & W & V & Hp & _).
    split; [done|]. split; [done|]. intros i _. apply (moves_arrive w w' Requests id p i m x); [done| |done].
    intros c. rewrite (held_free c w _ q id Hq Hid). by destruct c.
  - rewrite Hm in Hv. apply (inj Some) in Hv. assert (ntargets m < 2 ^ 16 - 1) as Hn' by by subst m.
    destruct (allocateTarget_ok _ _ _ _ _ _ _ m Hm Hok Hn' H) as (Ep & m' & x & Ev & Hok' & W & Hp & _ & _ & Hsr & _ & V).
    split; [rewrite Ev|split; [done|]].
    + apply (queue_ok_update _ (packets w) _ _ _ m); try done; [by rewrite Ep|]. by apply (joined_nonempty m).
    + intros i _. apply (moves_arrive w w' Requests id p i m' x); [done| |done]. intros c. rewrite (held_eq c w id m) by done.
      destruct c; simpl; [done|]. by rewrite app_nil_r.
  - rewrite Hm in Hv. apply (inj Some) in Hv. assert (ntargets m < 2 ^ 16 - 1) as Hn' by by subst m.
    destruct (handleSnoop_ok _ _ _ _ _ _ _ _ _ m mg k Hm Hok Hn' Hf Hg Hk H) as (xs & [S1 (m' & Ev & Hok' & W & V & Hsr & _)] & Hxs).
    split; [rewrite Ev|split; [done|]].
    + apply (queue_ok_update _ (packets w) _ _ _ m); try done. by apply (joined_nonempty m).
    + intros i _. destruct (defers mg k).
      * destruct xs as [|x [|? ?]]; try done. injection Hxs as Hxs. apply (moves_arrive w w' Snoops id _ i m' x); [done| |done].
        intros c. rewrite (held_eq c w id m) by done. destruct c; simpl; [by rewrite app_nil_r|done].
      * destruct xs; [|done]. apply (moves_insert_quiet w w' id m m'); [done..|]. intros []; simpl; [done|]. by rewrite V, app_nil_r.
  - rewrite Hm in Hv. apply (inj Some) in Hv.
    destruct (issue_ok w q id gone w1 w' q' m Hq Hi Hm H1 H) as (Ep & Hin & Hq' & Hsm & m' & Ev & W).
    split; [done|]. split; [done|]. intros i _. destruct gone.
    + assert (targets mg = targets m) as -> by by subst m.
      apply (moves_serve w w' id _ i m'); [done|]. intros c. destruct (W c) as [Wc ->].
      by rewrite app_nil_r, (held_eq c w id m).
    + destruct W as [W _]. by apply (moves_insert_quiet w w' id m m').
  - rewrite Hm in Hv. apply (inj Some) in Hv. assert (inService m = true /\ ntargets m < 2 ^ 16) as [Hin' Hn'] by by subst m.
    destruct (response_fill _ _ _ _ _ _ _ _ _ H) as (w1 & H1).
    destruct (response_ok curTick w q id p is_fill w1 m) as (m1 & w2 & q2 & m' & Hm1 & Hok1 & W1 & H2 & _ & Hq' & Hsm & Ev & W & V & _); try done.
    rewrite H in H2. injection H2 as -> -> ->. split; [done|]. split; [done|]. intros i _.
    apply (moves_serve w w2 id _ i m'); [done|]. intros c. rewrite (held_eq c w id m), <- W1 by done.
    destruct c; simpl; [by rewrite W|by rewrite V, app_nil_r].
  - split; [by eapply queue_ok_undisturbed|]. split; [done|]. intros i Hi. by apply (moves_other w w' q').
Qed.

(** ** Runs *)
Lemma arrived_snoc c i tr l : arrived c i (tr ++ [l]) = arrived c i tr ++ arrived c i [l].
Proof. unfold arrived. by rewrite bind_app. Qed.
Lemma served_snoc c i tr l : served c i (tr ++ [l]) = served c i tr ++ served c i [l].
Proof. unfold served. by rewrite bind_app. Qed.

Lemma run_queue s tr s' : run s tr s' -> queue_ok (view s.1) (packets s.1) s.2 ->
  (forall c i, in_queue s.2 i -> held c s.1 i = []) ->
  queue_ok (view s'.1) (packets s'.1) s'.2 /\ same_members s.2 s'.2 /\
  forall c i, in_queue s.2 i -> arrived c i tr = served c i tr ++ (pkt <$> held c s'.1 i).
Proof.
  intros Hr Hq He. induction Hr as [|tr [w1 q1] l [w2 q2] _ (Hq1 & Hm1 & Hf) Hst]; simpl in *.
  - split; [done|]. split; [done|]. intros c i Hi. by rewrite He.
  - destruct (queue_step _ _ _ _ _ Hst Hq1) as (Hq2 & Hm2 & Hmv). split; [done|].
    split; [intros i; by rewrite (Hm2 i)|]. intros c i Hi. rewrite arrived_snoc, served_snoc, (Hf c i Hi), <- !app_assoc. f_equal.
    apply Hmv. by apply Hm1.
Qed.

Lemma misses_ok w q tr : reachable w q tr -> queue_ok (view w) (packets w) q /\
  forall c i, in_queue q i -> arrived c i tr = served c i tr ++ (pkt <$> held c w i).
Proof.
  intros (w0 & ids & n & r & q0 & Hi & Hr). pose proof (initial_ok _ _ _ _ _ Hi) as Hq0.
  destruct (run_queue _ _ _ Hr Hq0) as (Hq & Hm & Hf); simpl in *.
  - intros c i Hin. apply (held_free c w0 (packets w0) q0); [done|]. destruct Hi as (H & _ & _).
    apply res_bind_Ok in H as ([] & _ & H). injection H as <-. done.
  - split; [done|]. intros c i Hin. apply Hf. by apply Hm.
Qed.

(** What the lists of a queue say of its registers, in the terms of the code. *)
Record well_formed (w : store) (q : MSHRQueue.t) : Prop := {
  wf_disjoint : NoDup (MSHRQueue.allocatedList q ++ MSHRQueue.freeList q);
  wf_ready : forall i m, i ∈ MSHRQueue.allocatedList q -> get w i = Ok m ->
    (i ∈ MSHRQueue.readyList q <-> inService m = false);
  wf_order : forall i j l1 l2 l3 mi mj, MSHRQueue.readyList q = l1 ++ i :: l2 ++ j :: l3 ->
    get w i = Ok mi -> get w j = Ok mj -> readyTime mi <= readyTime mj;
  wf_counts : MSHRQueue.allocated q = Z.of_nat (length (MSHRQueue.allocatedList q)) /\
    MSHRQueue.inServiceEntries q = Z.of_nat (length (MSHRQueue.allocatedList q)) - Z.of_nat (length (MSHRQueue.readyList q));
  wf_targets : forall i m, i ∈ MSHRQueue.allocatedList q -> get w i = Ok m -> hasTargets m = true /\
    ntargets m = Z.of_nat (length (elems (targets m)) + length (elems (deferredTargets m)));
  wf_idle : forall i m, i ∈ MSHRQueue.freeList q -> get w i = Ok m ->
    inService m = false /\ targets m = empty_list /\ deferredTargets m = empty_list /\ ntargets m = 0
}.

Lemma sorted_middle v l1 i l2 j l3 : StronglySorted (by_time v) (l1 ++ i :: l2 ++ j :: l3) -> by_time v i j.
Proof.
  induction l1 as [|x l1 IH]; intros Hs; simpl in Hs; [|apply StronglySorted_inv in Hs as [Hs _]; by apply IH].
  apply (sorted_head v i _ j Hs). set_solver.
Qed.

Lemma well_formed_ok w q : queue_ok (view w) (packets w) q -> well_formed w q.
Proof.
  intros Hq. pose proof Hq as []. constructor; try done.
  - intros i m Hi Hm%view_get. rewrite qo_ready0, (pending_eq _ i _ Hm). naive_solver.
  - intros i j l1 l2 l3 mi mj El Hi Hj. rewrite El in qo_sorted0. apply sorted_middle in qo_sorted0.
    unfold by_time in qo_sorted0. by rewrite (ready_time_get w i mi Hi), (ready_time_get w j mj Hj) in qo_sorted0.
  - intros i m Hi Hm%view_get. destruct (qo_live0 i Hi) as (m0 & Hm0 & Hok & Hne). rewrite Hm in Hm0. apply (inj Some) in Hm0.
    subst m0. split; [|exact (ro_count _ _ Hok)]. unfold hasTargets. simpl in Hne. by destruct (elems (targets m)).
  - intros i m Hi Hm%view_get. destruct (qo_free0 i Hi) as (m0 & Hm0 & It & Id & In & Ii). rewrite Hm in Hm0. apply (inj Some) in Hm0.
    subst m0. done.
Qed.

(** C35. However a cache allocates registers, adds requests to them, sends them out,
    snoops them and takes responses, while other caches do the same: every
    register is either allocated or free, the ready list holds exactly the
    allocated registers whose request is not out, by ready time, the counters
    and target counts are right, free registers are empty; and at each register
    the targets that the loop over a response takes are the requests from above
    in the order they arrived, and in between the snooped packets in the order
    they arrived (those that conflicted with the request that was out, unless
    one before them invalidated the block): none is lost and none comes twice,
    what arrived is what was served followed by what waits. *)
Theorem misses_in_order w q tr : reachable w q tr ->
  well_formed w q /\ forall c i, in_queue q i -> arrived c i tr = served c i tr ++ (pkt <$> held c w i).
Proof. intros H. destruct (misses_ok w q tr H) as [Hq Hf]. split; [by apply well_formed_ok|done]. Qed.

(** ** The next request to send *)

(** [getNextMSHR] returns the allocated register, not out yet, whose ready time
    is the earliest, if that time has come; with none it returns null, and no
    register is ready.  [nextMSHRReadyTime] is the time it becomes so. *)
Theorem next_register curTick w q tr : reachable w q tr -> exists r,
  MSHRQueue.getNextMSHR curTick w q = Ok r /\
  match r with
  | Some i => i ∈ MSHRQueue.allocatedList q /\ exists m, get w i = Ok m /\ inService m = false /\ readyTime m <= curTick /\
      MSHRQueue.nextMSHRReadyTime w q = Ok (readyTime m) /\
      forall j mj, j ∈ MSHRQueue.allocatedList q -> get w j = Ok mj -> inService mj = false -> readyTime m <= readyTime mj
  | None => forall j mj, j ∈ MSHRQueue.allocatedList q -> get w j = Ok mj -> inService mj = false -> curTick < readyTime mj
  end.
Proof.
  intros H. destruct (misses_ok w q tr H) as [Hq _]. pose proof Hq as [].
  assert (forall j mj, j ∈ MSHRQueue.allocatedList q -> get w j = Ok mj -> inService mj = false -> j ∈ MSHRQueue.readyList q) as Hp.
  { intros j mj Hj Hmj%view_get Hin. apply qo_ready0. split; [done|]. by apply (pending_eq _ j _ Hmj). }
  unfold MSHRQueue.getNextMSHR, MSHRQueue.nextMSHRReadyTime. destruct (MSHRQueue.readyList q) as [|i l] eqn:El.
  - exists None. split; [done|]. intros j mj Hj Hmj Hin. by apply Hp, elem_of_nil in Hmj.
  - destruct (proj1 (qo_ready0 i)) as [Hi (v & Hv & Hin)]; [set_solver|].
    destruct (view_lookup_get w i v Hv) as (m & Hm & Em). rewrite Hm. simpl.
    assert (forall j mj, j ∈ MSHRQueue.allocatedList q -> get w j = Ok mj -> inService mj = false -> readyTime m <= readyTime mj) as Hmin.
    { intros j mj Hj Hmj Hjs. pose proof (sorted_head _ _ _ j qo_sorted0 (Hp j mj Hj Hmj Hjs)) as Hb. unfold by_time in Hb.
      by rewrite (ready_time_get w i m Hm), (ready_time_get w j mj Hmj) in Hb. }
    destruct (Z.gtb_spec (readyTime m) curTick).
    + exists None. split; [done|]. intros j mj Hj Hmj Hjs. specialize (Hmin j mj Hj Hmj Hjs). lia.
    + exists (Some i). split; [done|]. split; [done|]. exists m. split_and!; try done. by subst v.
Qed.

(** ** The response *)
Lemma fill_flag w id p w1 m m1 : view w !! id = Some m -> handleFill w id p = Ok w1 -> view w1 !! id = Some m1 ->
  needsExclusive (targets m1) = needsExclusive (targets m) \/
  exists k, packets w1 !! p = Some k /\ Packet.sharedAsserted k = false /\ pendingInvalidate m = false.
Proof.
  intros Hm H Hm1. unfold handleFill in H. apply res_bind_Ok in H as (m0 & Hm0 & H).
  apply res_bind_Ok in H as (k & Hk%deref_Ok & H). apply view_get in Hm0. rewrite Hm in Hm0. apply (inj Some) in Hm0.
  set (k1 := if pendingShared m0 then _ else k) in H. set (w2 := put_pkt w p k1) in H.
  destruct (negb (Packet.sharedAsserted k1) && _ && _) eqn:Ec.
  2:{ injection H as <-. left. assert (view w2 = view w) as E by done. rewrite E, Hm in Hm1. by injection Hm1 as ->. }
  right. apply andb_true_iff in Ec as [Ec _]. apply andb_true_iff in Ec as [Hs Hpi]. apply negb_true_iff in Hpi, Hs.
  apply res_bind_Ok in H as ([] & _ & H). apply res_bind_Ok in H as ([] & _ & H). apply res_bind_Ok in H as (w3 & H3 & H).
  apply res_bind_Ok in H as (m3 & _ & H). injection H as <-. apply list_clear_view in H3 as (_ & Ep & _).
  exists k1. simpl. rewrite Ep. simpl. rewrite lookup_insert_eq. split_and!; [done|done|by subst m].
Qed.

(** A response to a request that is out, once the fill (if it is one) has been
    handled: it always completes and serves targets [ts].  Whatever asked for
    ownership among the requests served had it: the request that went out asked
    for it, or the response is a fill that nobody else holds and that no snoop
    invalidates.  A snooped invalidation among the targets comes after every
    request that this response serves.  Afterwards the register is free, or
    ready to go out again for the requests still waiting. *)
Theorem response_served curTick w q tr id m p (is_fill : bool) w1 : reachable w q tr ->
  id ∈ MSHRQueue.allocatedList q -> get w id = Ok m -> inService m = true -> ntargets m < 2 ^ 16 ->
  (if is_fill then handleFill w id p else Ok w) = Ok w1 ->
  exists ts w' q', MSHRQueue.handleResponse curTick w q id p is_fill = Ok (ts, w', q') /\
    (forall x k, x ∈ ts -> source x <> FromSnoop -> packets w1 !! pkt x = Some k -> Packet.needsExclusive k = true ->
      needsExclusive (targets m) = true \/ (is_fill = true /\ exists r, packets w1 !! p = Some r /\
        Packet.sharedAsserted r = false /\ pendingInvalidate m = false)) /\
    (forall l1 x l2 k, ts = l1 ++ x :: l2 -> source x = FromSnoop -> packets w1 !! pkt x = Some k ->
      Packet.needsExclusive k = true -> l2 = []) /\
    (id ∈ MSHRQueue.readyList q' \/ (id ∈ MSHRQueue.freeList q' /\ held Requests w' id = [])).
Proof.
  intros H Hi Hg Hin Hn Hf. destruct (misses_ok w q tr H) as [Hq _]. apply view_get in Hg.
  destruct (response_ok curTick w q id p is_fill w1 (unmarked m)) as (m1 & w' & q' & m' & Hm1 & Hok & W1 & E & _ & _ & _ & Ev & W & _ & _ & Hend); try done.
  exists (elems (targets m1)), w', q'. split; [done|]. split_and!.
  - intros x k Hx Hs Hk He. destruct (needsExclusive (targets m1)) eqn:Efl.
    2:{ exfalso. apply (ro_excl _ _ Hok Current x Efl Hx Hs). by exists k. }
    destruct is_fill; [|injection Hf as <-; left; rewrite Hg in Hm1; injection Hm1 as <-; done].
    destruct (fill_flag w id p w1 (unmarked m) m1 Hg Hf Hm1) as [Eq|Hr]; [left; simpl in Eq; congruence|by right].
  - intros l1 x l2 k El Hs Hk He. destruct (ro_last _ _ Hok l1 x l2 El Hs) as [? _]; [by exists k|done].
  - destruct Hend as [?|[? ?]]; [by left|right]. split; [done|]. by rewrite (held_eq Requests w' id m') by by rewrite Ev, lookup_insert_eq.
Qed.

(** ** Allocation *)

(** The register above that sent the packet is not marked yet. *)
Definition unmarked_above (w : store) (k : Packet.t) : Prop :=
  forall u m, upstream w k = Some u -> registers w !! u = Some m -> downstreamPending m = false.

Lemma put_unmarked_above w id m k : is_Some (registers w !! id) -> downstreamPending m = false ->
  unmarked_above w k -> unmarked_above (put w id m) k.
Proof.
  intros Hid Hm H u x Hu. unfold put. simpl. destruct (decide (id = u)) as [<-|Hne]; [rewrite lookup_insert_eq; by intros [= <-]|].
  rewrite lookup_insert_ne by done. apply H. revert Hu. unfold upstream. destruct (Packet.senderState k) as [s0|]; [|done]. simpl.
  destruct (decide (id = s0)) as [<-|Hs]; [|by rewrite lookup_insert_ne].
  rewrite lookup_insert_eq. by rewrite !bool_decide_eq_true_2.
Qed.

Lemma mark_upstream_total w k id : unmarked_above w k -> is_Some (registers w !! id) ->
  exists w', mark_upstream w k = Ok w' /\ is_Some (registers w' !! id).
Proof.
  intros H Hid. unfold mark_upstream. destruct (upstream w k) as [u|] eqn:Eu; [|by exists w].
  assert (is_Some (registers w !! u)) as [m Hm].
  { unfold upstream in Eu. destruct (Packet.senderState k) as [s0|]; [|done]. simpl in Eu.
    destruct (bool_decide (is_Some (registers w !! s0))) eqn:Eb; [|done]. injection Eu as ->. by apply bool_decide_eq_true_1 in Eb. }
  unfold get. rewrite Hm. simpl. rewrite (H u m Eu Hm). simpl. eexists. split; [done|]. simpl.
  destruct (decide (u = id)) as [<-|]; [by rewrite lookup_insert_eq|by rewrite lookup_insert_ne].
Qed.

Lemma add_total curTick w id l p ready ord src k m : registers w !! id = Some m -> downstreamPending m = false ->
  packets w !! p = Some k -> unmarked_above w k -> exists w', add curTick w id l p ready ord src true = Ok w'.
Proof.
  intros Hm Hd Hk Hu. unfold add, get_pkt, get. rewrite Hk. simpl. rewrite Hm. simpl.
  destruct (mark_upstream_total (put w id (with_list m l (add_flags (list_of m l) k src))) k id) as (w2 & -> & [m2 Hm2]).
  - apply put_unmarked_above; [by exists m|by destruct l|done].
  - simpl. by rewrite lookup_insert_eq.
  - simpl. rewrite Hm2. simpl. by eexists.
Qed.

Lemma register_total curTick w id a s p ready ord k m : registers w !! id = Some m -> idle (unmarked m) ->
  packets w !! p = Some k -> unmarked_above w k -> exists w', MSHR.allocate curTick w id a s p ready ord = Ok w'.
Proof.
  intros Hm (It & Id & _ & _) Hk Hu. unfold MSHR.allocate, get, get_pkt. rewrite Hm. simpl. rewrite Hk. simpl.
  simpl in It, Id. rewrite It. simpl. set (m1 := mk _ _ _ _ _ _ _ _ _ _ _ _ _ _).
  destruct (add_total curTick (put w id m1) id Current p ready ord (request_source k) k m1) as [w1 H1].
  { simpl. by rewrite lookup_insert_eq. } { done. } { done. } { by apply put_unmarked_above. }
  unfold request_source in H1. rewrite H1. simpl. apply add_view in H1 as (v & k' & Hv & _ & _ & Ev).
  rewrite view_put, lookup_insert_eq in Hv. apply (inj Some) in Hv.
  destruct (view_lookup_get w1 id (with_list v Current (added (list_of v Current) k' (mkTarget curTick ready ord p
    (if bool_decide (Packet.cmd k = MemCmd.HardPFReq) then FromPrefetcher else FromCPU) true)))) as (m2 & Hm2 & Em2).
  { by rewrite Ev, lookup_insert_eq. }
  unfold get in Hm2. rewrite Hm2. simpl. assert (deferredTargets m2 = empty_list) as ->; [|by eexists].
  change (deferredTargets (unmarked m2) = empty_list). rewrite Em2, <- Hv. done.
Qed.

(** A queue that does not call itself full has its reserve of free registers,
    and the next miss gets one of them: [allocate] returns, with the request
    waiting at a register that was free. *)
Theorem allocation_returns curTick w q tr a s p k ready ord : reachable w q tr -> MSHRQueue.isFull q = false ->
  1 <= MSHRQueue.numReserve q -> packets w !! p = Some k -> unmarked_above w k ->
  MSHRQueue.numReserve q <= Z.of_nat (length (MSHRQueue.freeList q)) /\
  exists id w' q' m x, MSHRQueue.allocate curTick w q a s p ready ord = Ok (id, w', q') /\ id ∈ MSHRQueue.freeList q /\
    get w' id = Ok m /\ addr m = a /\ elems (targets m) = [x] /\ pkt x = p /\ id ∈ MSHRQueue.readyList q'.
Proof.
  intros H Hfull Hres Hk Hu. destruct (misses_ok w q tr H) as [Hq _]. pose proof Hq as [].
  unfold MSHRQueue.isFull in Hfull. destruct (Z.gtb_spec (MSHRQueue.allocated q) (MSHRQueue.numEntries q - MSHRQueue.numReserve q)); [done|].
  assert (MSHRQueue.numReserve q <= Z.of_nat (length (MSHRQueue.freeList q))) as Hlen by lia. split; [done|].
  unfold MSHRQueue.allocate. destruct (MSHRQueue.freeList q) as [|i free] eqn:Ef; [simpl in Hlen; lia|].
  destruct (qo_free0 i) as (v & Hv & Hidle); [set_solver|]. destruct (view_lookup_get w i v Hv) as (m & Hm & Em).
  rewrite Hm. simpl. assert (getNumTargets m = 0) as -> by (destruct Hidle as (_ & _ & In & _); by subst v). simpl.
  apply deref_Ok in Hm. subst v.
  destruct (register_total curTick w i a s p ready ord k m Hm Hidle Hk Hu) as [w1 H1]. rewrite H1. simpl.
  destruct (allocate_view _ _ _ _ _ _ _ _ _ _ Hv Hidle H1) as (_ & m' & x & Ev & _ & Ex & _ & _ & Hp & _ & Hin & Ha & _).
  destruct (view_lookup_get w1 i m') as (mg & Hmg & Emg); [by rewrite Ev, lookup_insert_eq|].
  set (q0 := MSHRQueue.mk _ _ _ _ _ _ _).
  assert (forall j, j ∈ MSHRQueue.readyList q -> j <> i) as Hne.
  { intros j [Hj _]%qo_ready0 ->. apply NoDup_app in qo_nodup0 as (_ & Hd & _). apply (Hd i Hj). set_solver. }
  destruct (addToReadyList_ok w1 q0 i) as (l1 & l2 & El & -> & _); simpl.
  - intros j Hj. rewrite Ev, lookup_insert_ne by (intros <-; by apply (Hne i)). by apply (queue_known w _ q Hq).
  - by rewrite Ev, lookup_insert_eq.
  - rewrite Ev. apply (sorted_ext (view w)); [|done]. intros j Hj. apply ready_time_ne. intros <-. by apply (Hne i).
  - eexists i, w1, _, mg, x. split; [done|]. split; [set_solver|]. split; [done|].
    assert (addr mg = addr m' /\ targets mg = targets m') as [-> ->] by by subst m'. split_and!; [done|done|done|set_solver].
Qed.

(** ** Clearing the marks above *)
Definition marked (x : Z * t) : Prop := downstreamPending x.2 = true.
Definition marks (w : store) : nat := base.size (filter marked (registers w)).

Lemma clear_mark w id m : registers w !! id = Some m -> downstreamPending m = true ->
  marks w = S (marks (put w id (set_downstream m false))).
Proof.
  intros Hm Hd. unfold marks, put. simpl. rewrite map_filter_insert_False by (unfold marked; simpl; done).
  rewrite <- (insert_delete_id (registers w) id m Hm) at 1. rewrite map_filter_insert_True by done.
  apply map_size_insert_None. rewrite map_lookup_filter, lookup_delete_eq. done.
Qed.

Lemma clear_targets_marks clear ts : (forall w id w', clear w id = Ok w' -> (marks w' <= marks w)%nat) ->
  forall w w', clear_targets clear w ts = Ok w' -> (marks w' <= marks w)%nat.
Proof.
  intros Hc. induction ts as [|x ts IH]; intros w w'; simpl; [by intros [= <-]|].
  intros H. apply res_bind_Ok in H as (w1 & H1 & H). apply IH in H. assert (marks w1 <= marks w)%nat; [|lia].
  destruct (markedPending x); [|by injection H1 as <-]. apply res_bind_Ok in H1 as (k & _ & H1).
  destruct (upstream w k); [by eapply Hc|by injection H1 as <-].
Qed.

Lemma clear_downstream_marks fuel : forall w id w', clear_downstream fuel w id = Ok w' -> (marks w' < marks w)%nat.
Proof.
  induction fuel as [|fuel IH]; intros w id w'; simpl; [done|]. intros H. apply res_bind_Ok in H as (m & Hm%deref_Ok & H).
  apply res_bind_Ok in H as ([] & Hd%c_assert_Ok & H). rewrite get_put in H. simpl in H.
  rewrite (clear_mark w id m Hm Hd).
  apply clear_targets_marks in H; [lia|]. intros ? ? ? Hc. apply IH in Hc. lia.
Qed.

Lemma clear_targets_fuel clear n : (forall w id, (marks w < n)%nat -> clear w id <> Er OutOfFuel) ->
  (forall w id w', clear w id = Ok w' -> (marks w' <= marks w)%nat) ->
  forall ts w, (marks w < n)%nat -> clear_targets clear w ts <> Er OutOfFuel.
Proof.
  intros Hf Hm. induction ts as [|x ts IH]; intros w Hn; simpl; [done|].
  destruct (if markedPending x then _ else _) as [w1|e] eqn:E1.
  - simpl. apply IH. assert (marks w1 <= marks w)%nat; [|lia].
    apply (clear_targets_marks clear [x] Hm). simpl. by rewrite E1.
  - simpl. intros [= ->]. destruct (markedPending x); [|done]. unfold get_pkt in E1.
    destruct (packets w !! pkt x) as [k|]; [|done]. simpl in E1. destruct (upstream w k); [|done]. by apply Hf in E1.
Qed.

Lemma clear_downstream_fuel fuel : forall w id, (marks w < fuel)%nat -> clear_downstream fuel w id <> Er OutOfFuel.
Proof.
  induction fuel as [|fuel IH]; intros w id Hn; [lia|]. simpl. unfold get. destruct (registers w !! id) as [m|] eqn:Hm; [|done].
  simpl. destruct (downstreamPending m) eqn:Hd; [|done]. simpl. rewrite lookup_insert_eq. simpl.
  apply (clear_targets_fuel _ fuel IH).
  - intros ? ? ? Hc%clear_downstream_marks. lia.
  - change (marks (put w id (set_downstream m false)) < fuel)%nat. rewrite (clear_mark w id m Hm Hd) in Hn. lia.
Qed.

Lemma marks_fuel w : (marks w < clear_fuel w)%nat.
Proof. unfold marks, clear_fuel. pose proof (map_size_filter marked (registers w)). lia. Qed.

(** Clearing the marks above a register ends, however the registers of the
    caches refer to each other: each call clears one mark and none is set.  The
    marks that go are those of registers above: nothing else of any register
    changes, and no packet. *)
Theorem clear_terminates w id l :
  list_clearDownstreamPending w id l <> Er OutOfFuel /\ clearDownstreamPending w id <> Er OutOfFuel /\
  forall w', list_clearDownstreamPending w id l = Ok w' ->
    (marks w' <= marks w)%nat /\ unmarked <$> registers w' = unmarked <$> registers w /\ packets w' = packets w.
Proof.
  split_and!.
  - unfold list_clearDownstreamPending, get. destruct (registers w !! id) as [m|]; [|done].
    change (clear_targets (clear_downstream (clear_fuel w)) w (elems (list_of m l)) <> Er OutOfFuel).
    apply (clear_targets_fuel _ (clear_fuel w)); [apply clear_downstream_fuel| |apply marks_fuel].
    intros ? ? ? Hc%clear_downstream_marks. lia.
  - apply clear_downstream_fuel, marks_fuel.
  - intros w' H. pose proof (list_clear_view w id l w' H) as (Ev & Ep & _). split; [|done].
    apply res_bind_Ok in H as (m & _ & H). apply clear_targets_marks in H; [done|]. intros ? ? ? Hc%clear_downstream_marks. lia.
Qed.

(** ** A concrete run

    A cache with registers 100 and 101 below a cache whose register 50 sent
    packet 1.  The read 1 misses and goes out; the write 2 has to wait for the
    next request; the invalidation 4 is snooped; the response is packet 9. *)
Definition demo_pkt (c : MemCmd.Command) (s : option Z) : Packet.t :=
  Packet.mk 0x300 c (Request.mk 0x40 8 0 3 0 0 0 0 0 0 0) None 0x40 8 0 0 c 0 0 0 s.
Definition demo_reg : t := mk 0 0 0 0 false false false false false false 0 0 empty_list empty_list.
Definition demo_w0 : store :=
  mkStore {[ 1 := demo_pkt MemCmd.ReadReq (Some 50); 2 := demo_pkt MemCmd.ReadExReq None;
             4 := demo_pkt MemCmd.ReadExReq None; 9 := demo_pkt MemCmd.ReadResp (Some 100) ]} ∅
          {[ 50 := demo_reg; 100 := new demo_reg; 101 := new demo_reg ]}.
Definition demo_q0 : MSHRQueue.t := MSHRQueue.mk [] [] [100; 101] 2 1 0 0.

Definition the {A} (d : A) (r : res A) : A := match r with Ok x => x | Er _ => d end.
Definition demo1 : Z * store * MSHRQueue.t := the (0, demo_w0, demo_q0) (MSHRQueue.allocate 10 demo_w0 demo_q0 0x40 64 1 10 1).
Definition demo2 : store * MSHRQueue.t := the (demo1.1.2, demo1.2) (MSHRQueue.markInService demo1.1.2 demo1.2 100).
Definition demo3 : store := the demo2.1 (allocateTarget 20 demo2.1 100 2 20 2).
Definition demo4 : bool * store := the (false, demo3) (handleSnoop 25 (demo_pkt MemCmd.ReadReq None) 8 demo3 100 4 3).
Definition demo5 : list Target * store * MSHRQueue.t :=
  the ([], demo4.2, demo2.2) (MSHRQueue.handleResponse 40 demo4.2 demo2.2 100 9 true).

Lemma demo_initial : initial demo_w0 [100; 101] 2 1 demo_q0.
Proof.
  split; [reflexivity|]. split; [apply (bool_decide_unpack _); by vm_compute|].
  intros i [->|[->|[]%elem_of_nil]%elem_of_cons]%elem_of_cons; exists demo_reg; reflexivity.
Qed.

Lemma demo_run1 : reachable demo1.1.2 demo1.2 [Arrive Requests 100 1].
Proof.
  exists demo_w0, [100; 101], 2, 1, demo_q0. split; [apply demo_initial|].
  apply (run_snoc _ [] (demo_w0, demo_q0)); [constructor|].
  apply (step_allocate 10 demo_w0 demo_q0 0x40 64 1 10 1). vm_compute. reflexivity.
Qed.

Lemma demo_step tr l w q w' q' : reachable w q tr -> step (w, q) l (w', q') -> reachable w' q' (tr ++ [l]).
Proof. intros (w0 & ids & n & r & q0 & Hi & Hr) Hs. exists w0, ids, n, r, q0. split; [done|]. by eapply run_snoc. Qed.

(** What happens up to the response: the snooped packet is kept in a copy, 8. *)
Definition demo_trace : list label :=
  [Arrive Requests 100 1; Quiet; Arrive Requests 100 2; Arrive Snoops 100 8].

Lemma demo_run4 : reachable demo4.2 demo2.2 demo_trace.
Proof.
  apply (demo_step [Arrive Requests 100 1; Quiet; Arrive Requests 100 2] (Arrive Snoops 100 8) demo3 demo2.2).
  - apply (demo_step [Arrive Requests 100 1; Quiet] (Arrive Requests 100 2) demo2.1 demo2.2).
    + apply (demo_step [Arrive Requests 100 1] Quiet demo1.1.2 demo1.2); [apply demo_run1|].
      eapply (step_issue _ _ 100 _ false); [vm_compute; left|vm_compute; reflexivity..].
    + eapply (step_target 20 _ _ 100 _ 2 20 2); [vm_compute; left|vm_compute; reflexivity..].
  - destruct (get demo3 100) as [m|] eqn:Em; [|vm_compute in Em; discriminate].
    destruct (packets demo3 !! 4) as [k|] eqn:Ek; [|vm_compute in Ek; discriminate].
    replace (Arrive Snoops 100 8) with (if defers m k then Arrive Snoops 100 8 else Quiet)
      by (vm_compute in Em, Ek; injection Em as <-; injection Ek as <-; reflexivity).
    eapply (step_snoop 25 (demo_pkt MemCmd.ReadReq None) 8 _ _ 100 _ 4 k 3 true); [vm_compute; left|exact Em| |vm_compute; reflexivity|exact Ek|vm_compute; reflexivity].
    vm_compute in Em. injection Em as <-. vm_compute. reflexivity.
Qed.

Lemma demo_run5 : reachable demo5.1.2 demo5.2 (demo_trace ++ [Serve 100 demo5.1.1]).
Proof.
  apply (demo_step demo_trace (Serve 100 demo5.1.1) demo4.2 demo2.2); [apply demo_run4|].
  eapply (step_response 40 _ _ 100 _ 9 true); [vm_compute; left|vm_compute; reflexivity..].
Qed.

(** The read and then the snooped packet are served, the write waits. *)
Lemma misses_in_order_witness : pkt <$> demo5.1.1 = [1; 8] /\ well_formed demo5.1.2 demo5.2 /\
  [1; 2] = [1] ++ (pkt <$> held Requests demo5.1.2 100) /\ [8] = [8] ++ (pkt <$> held Snoops demo5.1.2 100).
Proof.
  destruct (misses_in_order demo5.1.2 demo5.2 _ demo_run5) as [H1 H2].
  split; [vm_compute; reflexivity|]. split; [exact H1|].
  assert (in_queue demo5.2 100) as Hi by (vm_compute; left).
  split; [exact (H2 Requests 100 Hi)|exact (H2 Snoops 100 Hi)].
Defined.

Lemma next_register_witness : MSHRQueue.getNextMSHR 10 demo1.1.2 demo1.2 = Ok (Some 100) /\
  exists r, MSHRQueue.getNextMSHR 10 demo1.1.2 demo1.2 = Ok r.
Proof.
  destruct (next_register 10 demo1.1.2 demo1.2 _ demo_run1) as (r & H & _). split; [vm_compute; reflexivity|]. exists r. exact H.
Defined.

Lemma clear_terminates_witness : exists w', list_clearDownstreamPending demo1.1.2 100 Current = Ok w' /\
  (marks w' <= marks demo1.1.2)%nat /\ marks w' = 0%nat /\ marks demo1.1.2 = 1%nat.
Proof.
  destruct (clear_terminates demo1.1.2 100 Current) as (_ & _ & H).
  destruct (list_clearDownstreamPending demo1.1.2 100 Current) as [w'|] eqn:E; [|vm_compute in E; discriminate].
  exists w'. destruct (H w' eq_refl) as (H1 & _). split; [reflexivity|]. split; [exact H1|].
  vm_compute in E. injection E as <-. split; vm_compute; reflexivity.
Defined.

(** Two targets: the read and, after it, the snooped invalidation. *)
Lemma response_served_witness : exists ts w' q',
  MSHRQueue.handleResponse 40 demo4.2 demo2.2 100 9 true = Ok (ts, w', q') /\ pkt <$> ts = [1; 8] /\
  (100 ∈ MSHRQueue.readyList q' \/ (100 ∈ MSHRQueue.freeList q' /\ held Requests w' 100 = [])).
Proof.
  destruct (handleFill demo4.2 100 9) as [w1|] eqn:E1; [|vm_compute in E1; discriminate].
  destruct (get demo4.2 100) as [m|] eqn:Em; [|vm_compute in Em; discriminate].
  assert (inService m = true /\ ntargets m < 2 ^ 16) as [Hin Hn] by (vm_compute in Em; injection Em as <-; split; [reflexivity|vm_compute; reflexivity]).
  assert (100 ∈ MSHRQueue.allocatedList demo2.2) as Hi by (vm_compute; left).
  destruct (response_served 40 demo4.2 demo2.2 _ 100 m 9 true w1 demo_run4 Hi Em Hin Hn E1) as (ts & w' & q' & H1 & _ & _ & H2).
  exists ts, w', q'. split; [exact H1|]. split; [|exact H2].
  assert (ts = demo5.1.1) as ->; [|vm_compute; reflexivity]. unfold demo5. rewrite H1. reflexivity.
Defined.

Lemma allocation_returns_witness : exists id w' q',
  MSHRQueue.allocate 12 demo1.1.2 demo1.2 0x80 64 2 12 2 = Ok (id, w', q') /\ id ∈ MSHRQueue.readyList q'.
Proof.
  destruct (allocation_returns 12 demo1.1.2 demo1.2 _ 0x80 64 2 (demo_pkt MemCmd.ReadExReq None) 12 2 demo_run1)
    as (_ & id & w' & q' & m & x & H1 & _ & _ & _ & _ & _ & H2).
  - vm_compute. reflexivity.
  - vm_compute. discriminate.
  - vm_compute. reflexivity.
  - intros u m Hu. vm_compute in Hu. discriminate.
  - exists id, w', q'. split; [exact H1|exact H2].
Defined.
End MshrTheorems.
