(* ===== verification/Cache.v ===== *)
(** * The cache, in atomic mode

    [src/mem/cache/cache_impl.hh]: the controller around the tag store, the
    blocks' data and the miss queue, as far as it serves atomic requests from
    the CPU side (Module [Cache]).  What is connected below is a peer that
    answers atomic requests (class [AtomicPeer]). *)
From S2P Require Import Prelude EventQueue IntMath Request Packet CacheTags PhysMem Mshr.

(** [sendAtomic] of the port below: the latency, the bytes and the peer after it,
    and the packet. *)
Class AtomicPeer := {
  peer : Type;
  sendAtomic : Bytes.mem -> peer -> Packet.t -> res (Z * Bytes.mem * peer * Packet.t)
}.

Module Cache.
Section cache.
Context {P : AtomicPeer}.

(** The host's byte order; [new uint8_t[n]] returns array [alloc m], which holds
    [garbage n]; new packets and requests are built in storage [gp] and [gr]. *)
Context (host : ByteSwap.ByteOrder) (alloc : Bytes.mem -> positive) (garbage : Z -> list Z).
Context (gp : Packet.t) (gr : Request.t).
Context (numCpus curTick : Z).

(** The build's [FULL_SYSTEM]. *)
Context (fullSystem : bool).

(** A [BlkType*]: a block of the tag store or the temporary block. *)
Inductive Blk := InTags (p : nat) | TempBlk.

(** [dataBlks] is the array of the blocks' data, [tempData] that of the temporary
    block; [exitRequested]: the limit of misses has ended the simulation. *)
Record t := mk {
  bytes : Bytes.mem;
  tags : LRU.t;
  dataBlks : positive;
  tempBlock : CacheBlk.t;
  tempData : positive;
  blkSize : Z;
  hitLatency : Z;
  mshrs : MSHR.store;
  mshrQueue : MSHRQueue.t;
  hits : MemCmd.Command -> list Z;
  misses : MemCmd.Command -> list Z;
  missCount : Z;
  exitRequested : bool;
  below : peer
}.

Definition set_bytes (s : t) (m : Bytes.mem) : t :=
  mk m (tags s) (dataBlks s) (tempBlock s) (tempData s) (blkSize s) (hitLatency s) (mshrs s) (mshrQueue s)
     (hits s) (misses s) (missCount s) (exitRequested s) (below s).
Definition set_tags (s : t) (c : LRU.t) : t :=
  mk (bytes s) c (dataBlks s) (tempBlock s) (tempData s) (blkSize s) (hitLatency s) (mshrs s) (mshrQueue s)
     (hits s) (misses s) (missCount s) (exitRequested s) (below s).
Definition set_temp (s : t) (b : CacheBlk.t) : t :=
  mk (bytes s) (tags s) (dataBlks s) b (tempData s) (blkSize s) (hitLatency s) (mshrs s) (mshrQueue s)
     (hits s) (misses s) (missCount s) (exitRequested s) (below s).
Definition set_below (s : t) (x : peer) : t :=
  mk (bytes s) (tags s) (dataBlks s) (tempBlock s) (tempData s) (blkSize s) (hitLatency s) (mshrs s) (mshrQueue s)
     (hits s) (misses s) (missCount s) (exitRequested s) x.
Definition set_counts (s : t) (h m : MemCmd.Command -> list Z) (c : Z) (e : bool) : t :=
  mk (bytes s) (tags s) (dataBlks s) (tempBlock s) (tempData s) (blkSize s) (hitLatency s) (mshrs s) (mshrQueue s) h m c e (below s).

(** Through a block pointer. *)
Definition get_blk (s : t) (b : Blk) : res CacheBlk.t :=
  match b with InTags p => at_index (LRU.blks (tags s) !! p) | TempBlk => Ok (tempBlock s) end.
Definition upd_blk (s : t) (b : Blk) (f : CacheBlk.t -> CacheBlk.t) : res t :=
  match b with
  | InTags p => c ← LRU.upd_blk (tags s) p f; Ok (set_tags s c)
  | TempBlk => Ok (set_temp s (f (tempBlock s)))
  end.
Definition blk_data (s : t) (b : Blk) : res Bytes.ptr :=
  match b with
  | InTags p => x ← at_index (LRU.blks (tags s) !! p); Ok (dataBlks s, CacheBlk.data x)
  | TempBlk => Ok (tempData s, 0)
  end.
Definition or_status (s : t) (b : Blk) (bit : Z) : res t :=
  upd_blk s b (fun x => CacheBlk.set_status x (Z.lor (CacheBlk.status x) bit)).
Definition clear_status (s : t) (b : Blk) (bit : Z) : res t :=
  upd_blk s b (fun x => CacheBlk.set_status x (Z.land (CacheBlk.status x) (uint 32 (Z.lnot bit)))).
Definition invalidateBlk (s : t) (b : Blk) : res t :=
  match b with
  | InTags p => c ← LRU.invalidateBlk numCpus (tags s) (Some p); Ok (set_tags s c)
  | TempBlk =>
      occ ← LRU.occ_add numCpus (CacheBlk.contextSrc (tempBlock s)) (-1) (LRU.occupancies (LRU.stats (tags s)));
      let st := LRU.stats (tags s) in
      let c := LRU.set_stats (tags s) (LRU.warmedUp (tags s))
                 (LRU.mkStats (LRU.replacements st) (LRU.tagsInUse st - 1) (LRU.totalRefs st) (LRU.sampledRefs st)
                              (LRU.warmupCycle st) occ) in
      let x := CacheBlk.clearLoadLocks (CacheBlk.set_touched (CacheBlk.set_status (tempBlock s) 0) false) in
      Ok (set_temp (set_tags s c) (CacheBlk.set_contextSrc x (-1)))
  end.

(** [pkt->req->hasContextId() ? pkt->req->contextId() : -1]. *)
Definition context_of (pkt : Packet.t) : res Z :=
  if Request.hasContextId (Packet.req pkt) then Request.contextId (Packet.req pkt) else Ok (-1).

(** ** Counting hits and misses *)

(** The element of a counter that an access by context [id] belongs to. *)
Definition bucket (pkt : Packet.t) (id : Z) : res Z :=
  if bool_decide (Packet.cmd pkt = MemCmd.Writeback) then _ ← c_assert (id =? -1); Ok 0
  else if fullSystem && (id =? -1) then Ok numCpus else Ok (Z.rem id numCpus).
Definition count (h : MemCmd.Command -> list Z) (pkt : Packet.t) (id : Z) : res (MemCmd.Command -> list Z) :=
  i ← bucket pkt id;
  v ← vget (h (Packet.cmd pkt)) i;
  l ← vset (h (Packet.cmd pkt)) i (v + 1);
  Ok (fun c => if decide (c = Packet.cmd pkt) then l else h c).

Definition incHitCount (s : t) (pkt : Packet.t) (id : Z) : res t :=
  h ← count (hits s) pkt id; Ok (set_counts s h (misses s) (missCount s) (exitRequested s)).
Definition incMissCount (s : t) (pkt : Packet.t) (id : Z) : res t :=
  m ← count (misses s) pkt id;
  let last := missCount s =? 1 in
  Ok (set_counts s (hits s) m (if missCount s =? 0 then 0 else missCount s - 1) (exitRequested s || last)).

(** ** Serving a request from a block *)
Definition cmpAndSwap (s : t) (b : Blk) (pkt : Packet.t) : res t :=
  a ← Packet.getAddr pkt;
  let offset := LRU.extractBlkOffset (tags s) a in
  d ← blk_data s b;
  let blk_data := Bytes.shift d offset in
  n ← Packet.getSize pkt;
  _ ← c_assert (8 >=? n);
  q ← Packet.getPtr pkt;
  q ← deref q;
  overwrite_val ← Bytes.read (bytes s) q n;
  m ← Packet.setData (bytes s) pkt (Some blk_data);
  overwrite_mem ← (if Request.isCondSwap (Packet.req pkt) then
      if (n =? 8) || (n =? 4) then
        v ← Request.getExtraData (Packet.req pkt);
        cur ← Bytes.read m blk_data n;
        Ok (bool_decide (Packet.host_bytes host (Z.to_nat n) (uint (8 * n) v) = cur))
      else Er Panic
    else Ok true);
  if (overwrite_mem : bool) then
    m ← Bytes.write m blk_data overwrite_val;
    or_status (set_bytes s m) b CacheBlk.BlkDirty
  else Ok (set_bytes s m).

Definition satisfyCpuSideRequest (s : t) (pkt : Packet.t) (b : Blk) : res (t * Packet.t) :=
  o ← Packet.getOffset pkt (blkSize s);
  n ← Packet.getSize pkt;
  _ ← c_assert (o + n <=? blkSize s);
  if bool_decide (Packet.cmd pkt = MemCmd.SwapReq) then s ← cmpAndSwap s b pkt; Ok (s, pkt)
  else if Packet.isWrite pkt then
    s ← or_status s b CacheBlk.BlkDirty;
    x ← get_blk s b;
    '(ok, req, x) ← CacheBlk.checkWrite x pkt;
    s ← upd_blk s b (fun _ => x);
    let pkt := PhysicalMemory.set_req pkt req in
    s ← (if (ok : bool) then
           d ← blk_data s b;
           m ← Packet.writeDataToBlock (bytes s) pkt (Some d) (blkSize s);
           Ok (set_bytes s m)
         else Ok s);
    Ok (s, pkt)
  else if Packet.isRead pkt then
    s ← (if Packet.isLLSC pkt then
           x ← get_blk s b; x ← CacheBlk.trackLoadLocked x pkt; upd_blk s b (fun _ => x)
         else Ok s);
    d ← blk_data s b;
    m ← Packet.setDataFromBlock (bytes s) pkt (Some d) (blkSize s);
    let s := set_bytes s m in
    if n =? blkSize s then
      if Packet.needsExclusive pkt then s ← invalidateBlk s b; Ok (s, pkt)
      else s ← clear_status s b CacheBlk.BlkWritable; Ok (s, Packet.assertShared pkt)
    else Ok (s, pkt)
  else
    _ ← c_assert (bool_decide (Packet.cmd pkt = MemCmd.UpgradeReq));
    s ← invalidateBlk s b;
    Ok (s, pkt).

(** ** Replacement *)

(** [writebackBlk(blk)]: the packet, and the cache with the block clean. *)
Definition writebackBlk (s : t) (b : Blk) : res (Packet.t * t) :=
  x ← get_blk s b;
  _ ← c_assert (CacheBlk.isValid x && CacheBlk.isDirty x);
  req ← Request.new_phys curTick gr
          (LRU.regenerateBlkAddr (tags s) (CacheBlk.tag x) (uint 32 (CacheBlk.set x))) (blkSize s) 0;
  wb ← Packet.new gp curTick req MemCmd.Writeback (-1);
  '(m, wb) ← Packet.allocate (alloc (bytes s)) garbage (bytes s) wb;
  q ← Packet.getPtr wb;
  d ← blk_data s b;
  m ← Bytes.memcpy m q (Some d) (blkSize s);
  s ← clear_status (set_bytes s m) b CacheBlk.BlkDirty;
  Ok (wb, s).

Definition allocateBlock (s : t) (addr : Z) (writebacks : list Packet.t) : res (option Blk * list Packet.t * t) :=
  '(p, c) ← LRU.findVictim numCpus (tags s) addr;
  let s := set_tags s c in
  x ← get_blk s (InTags p);
  if CacheBlk.isValid x then
    let repl_addr := LRU.regenerateBlkAddr (tags s) (CacheBlk.tag x) (uint 32 (CacheBlk.set x)) in
    r ← MSHRQueue.findMatch (mshrs s) (mshrQueue s) repl_addr;
    match r with
    | Some id =>
        _ ← c_assert (negb (CacheBlk.isWritable x));
        m ← MSHR.get (mshrs s) id;
        _ ← c_assert (MSHR.needsExclusive (MSHR.targets m));
        Ok (None, writebacks, s)
    | None =>
        if CacheBlk.isDirty x then
          '(wb, s) ← writebackBlk s (InTags p); Ok (Some (InTags p), writebacks ++ [wb], s)
        else Ok (Some (InTags p), writebacks, s)
    end
  else Ok (Some (InTags p), writebacks, s).

(** [handleFill(pkt, blk, writebacks)]: the block now filled. *)
Definition handleFill (s : t) (pkt : Packet.t) (blk : option Blk) (writebacks : list Packet.t) :
    res (Blk * list Packet.t * t) :=
  addr ← Packet.getAddr pkt;
  '(b, writebacks, s) ← match blk with
    | None =>
        _ ← c_assert (Packet.hasData pkt);
        '(r, writebacks, s) ← allocateBlock s addr writebacks;
        match r with
        | None =>
            _ ← c_assert (negb (CacheBlk.isValid (tempBlock s)));
            let x := tempBlock s in
            Ok (TempBlk, writebacks,
                set_temp s (CacheBlk.mk (CacheBlk.asid x) (LRU.extractTag (tags s) addr) (CacheBlk.data x)
                              (CacheBlk.size x) (CacheBlk.status x) (CacheBlk.whenReady x)
                              (sint 32 (LRU.extractSet (tags s) addr)) (CacheBlk.isTouched x) (CacheBlk.refCount x)
                              (CacheBlk.contextSrc x) (CacheBlk.lockList x)))
        | Some b =>
            id ← context_of pkt;
            c ← match b with
                | InTags p => LRU.insertBlock numCpus curTick (tags s) addr p id
                | TempBlk => Ok (tags s)
                end;
            Ok (b, writebacks, set_tags s c)
        end
    | Some b =>
        x ← get_blk s b;
        _ ← c_assert (CacheBlk.tag x =? LRU.extractTag (tags s) addr);
        _ ← c_assert (Packet.hasData pkt || CacheBlk.isValid x);
        Ok (b, writebacks, s)
    end;
  s ← (if negb (Packet.sharedAsserted pkt) then
         upd_blk s b (fun x => CacheBlk.set_status x
           (Z.lor CacheBlk.BlkValid (Z.lor CacheBlk.BlkReadable CacheBlk.BlkWritable)))
       else
         _ ← c_assert (negb (Packet.needsExclusive pkt));
         upd_blk s b (fun x => CacheBlk.set_status x (Z.lor CacheBlk.BlkValid CacheBlk.BlkReadable)));
  s ← (if Packet.isRead pkt then
         q ← Packet.getPtr pkt;
         d ← blk_data s b;
         m ← Bytes.memcpy (bytes s) (Some d) q (blkSize s);
         Ok (set_bytes s m)
       else Ok s);
  s ← upd_blk s b (fun x => CacheBlk.mk (CacheBlk.asid x) (CacheBlk.tag x) (CacheBlk.data x) (CacheBlk.size x)
                     (CacheBlk.status x) (Packet.finishTime pkt) (CacheBlk.set x) (CacheBlk.isTouched x)
                     (CacheBlk.refCount x) (CacheBlk.contextSrc x) (CacheBlk.lockList x));
  Ok (b, writebacks, s).

(** ** Requests from the CPU side *)

(** [access(pkt, blk, lat, writebacks)]: whether the request is satisfied, the
    block, the latency, the blocks to write back. *)
Definition access (s : t) (pkt : Packet.t) (writebacks : list Packet.t) :
    res (bool * option Blk * Z * list Packet.t * t * Packet.t) :=
  if Request.isUncacheable (Packet.req pkt) then Ok (false, None, hitLatency s, writebacks, s, pkt) else
  id ← context_of pkt;
  a ← Packet.getAddr pkt;
  '(o, lat, c) ← LRU.accessBlock curTick (tags s) a;
  let s := set_tags s c in
  let blk := option_map InTags o in
  usable ← match blk with
           | Some b => x ← get_blk s b;
                       Ok (if Packet.needsExclusive pkt then CacheBlk.isWritable x else CacheBlk.isReadable x)
           | None => Ok false
           end;
  match blk, (usable : bool) with
  | Some b, true =>
      s ← incHitCount s pkt id;
      '(s, pkt) ← satisfyCpuSideRequest s pkt b; Ok (true, blk, lat, writebacks, s, pkt)
  | _, _ =>
      if bool_decide (Packet.cmd pkt = MemCmd.Writeback) then
        n ← Packet.getSize pkt;
        _ ← c_assert (blkSize s =? n);
        '(r, writebacks, s) ← match blk with
          | Some b => Ok (Some b, writebacks, s)
          | None =>
              '(r, writebacks, s) ← allocateBlock s a writebacks;
              match r with
              | Some (InTags p) =>
                  id ← context_of pkt;
                  c ← LRU.insertBlock numCpus curTick (tags s) a p id;
                  s ← upd_blk (set_tags s c) (InTags p)
                        (fun x => CacheBlk.set_status x (Z.lor CacheBlk.BlkValid CacheBlk.BlkReadable));
                  Ok (r, writebacks, s)
              | _ => Ok (None, writebacks, s)
              end
          end;
        match r with
        | None => s ← incMissCount s pkt id; Ok (false, None, lat, writebacks, s, pkt)
        | Some b =>
            q ← Packet.getPtr pkt;
            d ← blk_data s b;
            m ← Bytes.memcpy (bytes s) (Some d) q (blkSize s);
            s ← or_status (set_bytes s m) b CacheBlk.BlkDirty;
            _ ← c_assert (negb (Packet.needsResponse pkt));
            s ← incHitCount s pkt id;
            Ok (true, Some b, lat, writebacks, s, pkt)
        end
      else
      s ← incMissCount s pkt id;
      if bool_decide (blk = None) && Packet.isLLSC pkt && Packet.isWrite pkt then
        Ok (true, None, lat, writebacks, s,
            PhysicalMemory.set_req pkt (Request.setExtraData (Packet.req pkt) 0))
      else Ok (false, blk, lat, writebacks, s, pkt)
  end.

(** [getBusPacket]: [None] for a request that is just passed on. *)
Definition getBusPacket (s : t) (cpu_pkt : Packet.t) (blk : option Blk) (needsExclusive : bool) :
    res (option Packet.t * t) :=
  x ← match blk with Some b => x ← get_blk s b; Ok (Some x) | None => Ok None end;
  let blkValid := match x with Some x => CacheBlk.isValid x | None => false end in
  if Request.isUncacheable (Packet.req cpu_pkt) then
    _ ← c_assert (bool_decide (blk = None)); Ok (None, s)
  else if negb blkValid && (bool_decide (Packet.cmd cpu_pkt = MemCmd.Writeback) ||
                            bool_decide (Packet.cmd cpu_pkt = MemCmd.UpgradeReq)) then Ok (None, s)
  else
    _ ← c_assert (Packet.needsResponse cpu_pkt);
    cmd ← (if blkValid then
             _ ← c_assert (needsExclusive && negb match x with Some x => CacheBlk.isWritable x | None => false end);
             Ok MemCmd.UpgradeReq
           else Ok (if needsExclusive then MemCmd.ReadExReq else MemCmd.ReadReq));
    pkt ← Packet.new_block gp curTick (Packet.req cpu_pkt) cmd Packet.Broadcast (blkSize s);
    '(m, pkt) ← Packet.allocate (alloc (bytes s)) garbage (bytes s) pkt;
    Ok (Some pkt, set_bytes s m).

Definition send (s : t) (pkt : Packet.t) : res (Z * t * Packet.t) :=
  '(lat, m, x, pkt) ← sendAtomic (bytes s) (below s) pkt;
  Ok (lat, set_below (set_bytes s m) x, pkt).
Definition delete (s : t) (pkt : Packet.t) : res t :=
  '(_, m) ← Packet.destroy (bytes s) pkt; Ok (set_bytes s m).

Fixpoint send_writebacks (s : t) (writebacks : list Packet.t) : res t :=
  match writebacks with
  | [] => Ok s
  | wb :: writebacks =>
      '(_, s, wb) ← send s wb;
      s ← delete s wb;
      send_writebacks s writebacks
  end.

(** The miss: the request goes down, as itself or as a request for the block,
    which shares the request object. *)
Definition atomic_miss (s : t) (pkt : Packet.t) (blk : option Blk) (writebacks : list Packet.t) :
    res (Z * list Packet.t * t * Packet.t) :=
  '(r, s) ← getBusPacket s pkt blk (Packet.needsExclusive pkt);
  match r with
  | None =>
      '(lat, s, pkt) ← send s pkt;
      _ ← c_assert (negb (Packet.wasNacked pkt));
      Ok (lat, writebacks, s, pkt)
  | Some bus_pkt =>
      '(lat, s, bus_pkt) ← send s bus_pkt;
      _ ← c_assert (negb (Packet.wasNacked bus_pkt));
      let pkt := PhysicalMemory.set_req pkt (Packet.req bus_pkt) in
      '(writebacks, s, pkt) ←
        (if Packet.needsResponse pkt then
           _ ← c_assert (Packet.isResponse bus_pkt);
           if Packet.isError bus_pkt then
             pkt ← Packet.makeAtomicResponse pkt;
             pkt ← Packet.copyError pkt bus_pkt;
             Ok (writebacks, s, pkt)
           else if Packet.isRead bus_pkt || bool_decide (Packet.cmd bus_pkt = MemCmd.UpgradeResp) then
             '(b, writebacks, s) ← handleFill s bus_pkt blk writebacks;
             '(s, pkt) ← satisfyCpuSideRequest s pkt b;
             Ok (writebacks, s, pkt)
           else pkt ← Packet.makeAtomicResponse pkt; Ok (writebacks, s, pkt)
         else Ok (writebacks, s, pkt));
      s ← delete s bus_pkt;
      Ok (lat, writebacks, s, pkt)
  end.

(** [atomicAccess(pkt)]: the latency, the cache and the packet. *)
Definition atomicAccess (s : t) (pkt : Packet.t) : res (Z * t * Packet.t) :=
  let lat := hitLatency s in
  if Packet.memInhibitAsserted pkt then
    _ ← c_assert (negb (Request.isUncacheable (Packet.req pkt)));
    if Packet.isInvalidate pkt then
      a ← Packet.getAddr pkt;
      o ← LRU.findBlock (tags s) a;
      s ← match o with
          | Some p => x ← get_blk s (InTags p);
                      if CacheBlk.isValid x then invalidateBlk s (InTags p) else Ok s
          | None => Ok s
          end;
      '(l, s, pkt) ← send s pkt;
      Ok (sint 32 (lat + l), s, pkt)
    else Ok (lat, s, pkt)
  else
    '(satisfied, blk, lat, writebacks, s, pkt) ← access s pkt [];
    '(lat, writebacks, s, pkt) ←
      (if (satisfied : bool) then Ok (lat, writebacks, s, pkt)
       else '(l, writebacks, s, pkt) ← atomic_miss s pkt blk writebacks; Ok (sint 32 (lat + l), writebacks, s, pkt));
    s ← send_writebacks s writebacks;
    pkt ← (if Packet.needsResponse pkt then Packet.makeAtomicResponse pkt else Ok pkt);
    Ok (lat, s, pkt).
End cache.
End Cache.

(** Physical memory below. *)
Definition physmem_atomic (host : ByteSwap.ByteOrder) (rnd : Z) : AtomicPeer :=
  {| peer := PhysicalMemory.t; sendAtomic := PhysicalMemory.doAtomicAccess host rnd |}.
