(* ===== verification/CacheInv.v ===== *)
(** * The invariant of the cache

    What the cache relies on from the memory below (class [AtomicMemory]), the
    bytes that the cache and the memory hold together, and the invariant.  Before that, what the operations of
    the tag store do to its blocks (Module [CacheCore]). *)
From S2P Require Import Prelude EventQueue IntMath Request Packet CacheTags CacheTagsProof CacheTagsTheorems PacketTheorems PhysMem PhysMemTheorems Mshr Cache.

Module CacheCore.
Import LRU CacheTagsProof.

Record core := mkCore { k_tag : Z; k_status : Z; k_data : Z; k_set : Z }.
Definition core_of (b : CacheBlk.t) : core :=
  mkCore (CacheBlk.tag b) (CacheBlk.status b) (CacheBlk.data b) (CacheBlk.set b).
Definition cores (c : LRU.t) : list core := core_of <$> blks c.

Lemma cores_lookup c p b : blks c !! p = Some b -> cores c !! p = Some (core_of b).
Proof. intros H. unfold cores. by rewrite list_lookup_fmap, H. Qed.

Lemma cores_inv c p k : cores c !! p = Some k -> exists b, blks c !! p = Some b /\ core_of b = k.
Proof. unfold cores. rewrite list_lookup_fmap. destruct (blks c !! p) as [b|]; [|done]. intros [= <-]. by exists b. Qed.

(** An update through a block pointer. *)
Lemma upd_cores c p f c' : upd_blk c p f = Ok c' -> exists b, blks c !! p = Some b /\
  cores c' = <[p := core_of (f b)]> (cores c) /\ sets c' = sets c /\ stats c' = stats c.
Proof.
  intros H. apply res_bind_Ok in H as (b & Hb & H). injection H as <-. exists b.
  destruct (blks c !! p) as [b0|] eqn:E; [|done]. injection Hb as ->. split; [done|]. split; [|done].
  unfold cores. simpl. by rewrite list_fmap_insert.
Qed.

Lemma upd_cores_same c p f c' : upd_blk c p f = Ok c' -> (forall b, core_of (f b) = core_of b) -> cores c' = cores c.
Proof.
  intros H Hf. apply upd_cores in H as (b & Hb & E & _). rewrite E, Hf. apply list_insert_id. by apply cores_lookup.
Qed.

Lemma move_cores c i p c' : move c i p = Ok c' -> cores c' = cores c.
Proof.
  intros H. apply res_bind_Ok in H as (l & _ & H). apply res_bind_Ok in H as (l' & _ & H).
  apply res_bind_Ok in H as (ss & _ & H). by injection H as <-.
Qed.

Lemma access_cores now c a o lat c' : accessBlock now c a = Ok (o, lat, c') -> cores c' = cores c.
Proof.
  intros H. unfold accessBlock in H. apply res_bind_Ok in H as (l & _ & H). apply res_bind_Ok in H as ([p|] & _ & H).
  - apply res_bind_Ok in H as (c1 & H1%move_cores & H). apply res_bind_Ok in H as (b & _ & H).
    apply res_bind_Ok in H as (c2 & H2 & H). injection H as <- _ <-. rewrite <- H1. by apply upd_cores_same in H2.
  - by injection H as _ _ <-.
Qed.

Lemma victim_cores n c a p c' : findVictim n c a = Ok (p, c') -> cores c' = cores c.
Proof.
  intros H. unfold findVictim in H. apply res_bind_Ok in H as (l & _ & H). apply res_bind_Ok in H as (q & _ & H).
  apply res_bind_Ok in H as (b & _ & H). destruct (CacheBlk.isValid b); [|by injection H as _ <-].
  apply res_bind_Ok in H as (occ & _ & H). apply res_bind_Ok in H as (c1 & H1 & H). injection H as <- <-.
  change (cores c1 = cores c). by apply upd_cores_same in H1.
Qed.

Lemma insert_cores n now c a p ctx c' b : insertBlock n now c a p ctx = Ok c' -> blks c !! p = Some b ->
  cores c' = <[p := mkCore (extractTag c a) (CacheBlk.status b) (CacheBlk.data b) (CacheBlk.set b)]> (cores c).
Proof.
  intros H Hb. unfold insertBlock in H. apply res_bind_Ok in H as (c1 & H1 & H).
  assert (cores c1 = cores c /\ tagShift c1 = tagShift c) as [E1 Et].
  { unfold first_touch in H1. rewrite Hb in H1. cbn [at_index mbind res_bind] in H1. destruct (negb _); [|by injection H1 as <-].
    apply res_bind_Ok in H1 as (c0 & H0 & H1). injection H1 as <-. split.
    - change (cores c0 = cores c). by apply upd_cores_same in H0.
    - apply res_bind_Ok in H0 as (? & _ & H0). by injection H0 as <-. }
  apply res_bind_Ok in H as (c2 & H2 & H). apply res_bind_Ok in H as (occ & _ & H).
  apply res_bind_Ok in H as (c3 & H3 & H). apply move_cores in H. rewrite H.
  apply upd_cores_same in H3; [|done]. rewrite H3. change (cores c2 = <[p := mkCore (extractTag c a) (CacheBlk.status b)
    (CacheBlk.data b) (CacheBlk.set b)]> (cores c)).
  apply upd_cores in H2 as (b1 & Hb1 & E2 & _). rewrite E2, E1. f_equal.
  apply cores_lookup in Hb, Hb1. rewrite E1, Hb in Hb1. injection Hb1 as E3 E4 E5 E6. unfold core_of. simpl.
  unfold extractTag. by rewrite Et, <- E4, <- E5, <- E6.
Qed.

(** ** Blocks by their cores *)
Definition k_valid (k : core) : bool := negb (Z.land (k_status k) CacheBlk.BlkValid =? 0).
Definition k_dirty (k : core) : bool := negb (Z.land (k_status k) CacheBlk.BlkDirty =? 0).

Lemma holds_core c a p : holds c a p <-> set_of c p = Z.to_nat (extractSet c a) /\
  exists k, cores c !! p = Some k /\ k_tag k = extractTag c a /\ k_valid k = true.
Proof.
  unfold holds. split; intros [H1 (b & Hb & H2 & H3)]; (split; [done|]).
  - exists (core_of b). split; [by apply cores_lookup|done].
  - apply cores_inv in Hb as (x & Hx & <-). by exists x.
Qed.

Lemma same_geom_upd c p f c' : upd_blk c p f = Ok c' -> same_geom c c'.
Proof. intros H. apply res_bind_Ok in H as (b & _ & H). injection H as <-. apply same_geom_blks. Qed.
End CacheCore.

Import LRU CacheCore.

(** ** Memory below *)

(** A packet without a response, of [n] bytes at [a]. *)
Record silent (m : Bytes.mem) (pkt : Packet.t) (a n : Z) (db : positive) (doff : Z) (dl : list Z) : Prop := {
  s_sized : sized pkt a n;
  s_flags : EvQ.isSet (Packet.flags pkt) (Z.lor Packet.STATIC_DATA Packet.DYNAMIC_DATA) = true;
  s_data : Packet.data pkt = Some (db, doff);
  s_array : m !! db = Some dl;
  s_room : 0 <= doff /\ doff + n <= Z.of_nat (length dl);
  s_resp : Packet.needsResponse pkt = false /\ Packet.memInhibitAsserted pkt = false
}.

(** The laws: reads and upgrades change nothing, a writeback changes the bytes it
    names; arrays that are neither the memory's nor the packet's are left alone,
    and the packet becomes its response.  [am_owns] are the memory's own arrays. *)
Class AtomicMemory (P : AtomicPeer) := {
  am_ok : Bytes.mem -> peer -> Prop;
  am_owns : peer -> positive -> Prop;
  am_byte : Bytes.mem -> peer -> Z -> option Z;
  am_frame : forall m m' x, am_ok m x -> (forall b, am_owns x b -> m' !! b = m !! b) ->
    am_ok m' x /\ forall a, am_byte m' x a = am_byte m x a;
  am_exists : forall m x b, am_ok m x -> am_owns x b -> is_Some (m !! b);
  am_read : forall m x pkt a n db doff dl, am_ok m x -> carries m pkt a n db doff dl -> ~ am_owns x db ->
    Packet.cmd pkt = MemCmd.ReadReq \/ Packet.cmd pkt = MemCmd.ReadExReq ->
    (forall i, a <= i < a + n -> is_Some (am_byte m x i)) ->
    exists lat m' x' r dl', sendAtomic m x pkt = Ok (lat, m', x', r) /\ Packet.makeAtomicResponse pkt = Ok r /\
      am_ok m' x' /\ (forall b, am_owns x' b <-> am_owns x b) /\ (forall i, am_byte m' x' i = am_byte m x i) /\
      (forall b, b <> db -> ~ am_owns x b -> m' !! b = m !! b) /\ m' !! db = Some dl' /\ length dl' = length dl /\
      forall i, 0 <= i -> dl' !! Z.to_nat i =
        if decide (doff <= i < doff + n) then am_byte m x (a + (i - doff)) else dl !! Z.to_nat i;
  am_upgrade : forall m x pkt a n db doff dl, am_ok m x -> carries m pkt a n db doff dl -> ~ am_owns x db ->
    Packet.cmd pkt = MemCmd.UpgradeReq -> (forall i, a <= i < a + n -> is_Some (am_byte m x i)) ->
    exists lat m' x' r, sendAtomic m x pkt = Ok (lat, m', x', r) /\ Packet.makeAtomicResponse pkt = Ok r /\
      am_ok m' x' /\ (forall b, am_owns x' b <-> am_owns x b) /\ (forall i, am_byte m' x' i = am_byte m x i) /\
      (forall b, ~ am_owns x b -> m' !! b = m !! b);
  am_writeback : forall m x pkt a n db doff dl, am_ok m x -> silent m pkt a n db doff dl -> ~ am_owns x db ->
    Packet.cmd pkt = MemCmd.Writeback -> Request.getPaddr (Packet.req pkt) = Ok a ->
    Request.isInstFetch (Packet.req pkt) = false -> (forall i, a <= i < a + n -> is_Some (am_byte m x i)) ->
    exists lat m' x', sendAtomic m x pkt = Ok (lat, m', x', pkt) /\
      am_ok m' x' /\ (forall b, am_owns x' b <-> am_owns x b) /\ (forall b, ~ am_owns x b -> m' !! b = m !! b) /\
      forall i, am_byte m' x' i =
        if decide (a <= i < a + n) then dl !! Z.to_nat (doff + (i - a)) else am_byte m x i
}.

(** ** Physical memory satisfies the laws *)
Module PhysMemBelow.
Import PhysicalMemory.

Definition pm_ok (m : Bytes.mem) (pm : t) : Prop :=
  lockedAddrList pm = [] /\ exists b bytes, holds_bytes m pm b bytes.
Definition pm_owns (pm : t) (b : positive) : Prop := pmemAddr pm = Some b.
Definition pm_byte (m : Bytes.mem) (pm : t) (a : Z) : option Z :=
  b ← pmemAddr pm; Bytes.byte m b (a - cachedStart pm).

Lemma pm_byte_eq m pm b bytes a : holds_bytes m pm b bytes ->
  pm_byte m pm a = if 0 <=? a - cachedStart pm then bytes !! Z.to_nat (a - cachedStart pm) else None.
Proof. intros Hb. unfold pm_byte, Bytes.byte. rewrite (hb_addr _ _ _ _ Hb). simpl. by rewrite (hb_array _ _ _ _ Hb). Qed.

Lemma pm_frame m m' pm : pm_ok m pm -> (forall b, pm_owns pm b -> m' !! b = m !! b) ->
  pm_ok m' pm /\ forall a, pm_byte m' pm a = pm_byte m pm a.
Proof.
  intros [Hl (b & bytes & Hb)] Hf. pose proof (hb_addr _ _ _ _ Hb) as Ha. split.
  - split; [done|]. exists b, bytes. destruct Hb. constructor; try done. by rewrite Hf.
  - intros a. unfold pm_byte, Bytes.byte. rewrite Ha. simpl. by rewrite Hf.
Qed.

(** A range whose bytes all exist lies in the memory. *)
Lemma pm_range m pm b bytes a n : holds_bytes m pm b bytes -> 0 < n ->
  (forall i, a <= i < a + n -> is_Some (pm_byte m pm i)) ->
  cachedStart pm <= a /\ a + n <= cachedStart pm + cachedSize pm.
Proof.
  intros Hb Hn Hr. split.
  - specialize (Hr a ltac:(lia)). rewrite (pm_byte_eq _ _ _ _ _ Hb) in Hr.
    destruct (Z.leb_spec 0 (a - cachedStart pm)); [lia|]. by apply is_Some_None in Hr.
  - specialize (Hr (a + n - 1) ltac:(lia)). rewrite (pm_byte_eq _ _ _ _ _ Hb) in Hr.
    destruct (Z.leb_spec 0 (a + n - 1 - cachedStart pm)); [|by apply is_Some_None in Hr].
    apply lookup_lt_is_Some_1 in Hr. pose proof (hb_size _ _ _ _ Hb). lia.
Qed.

Lemma pm_owns_ne m pm b bytes db : holds_bytes m pm b bytes -> ~ pm_owns pm db -> db <> b.
Proof. intros Hb Hn ->. apply Hn. apply (hb_addr _ _ _ _ Hb). Qed.

Lemma pm_read host rnd m pm pkt a n db doff dl : pm_ok m pm -> carries m pkt a n db doff dl -> ~ pm_owns pm db ->
  Packet.cmd pkt = MemCmd.ReadReq \/ Packet.cmd pkt = MemCmd.ReadExReq ->
  (forall i, a <= i < a + n -> is_Some (pm_byte m pm i)) ->
  exists lat r dl', doAtomicAccess host rnd m pm pkt = Ok (lat, <[db := dl']> m, pm, r) /\
    Packet.makeAtomicResponse pkt = Ok r /\ length dl' = length dl /\
    forall i, 0 <= i -> dl' !! Z.to_nat i =
      if decide (doff <= i < doff + n) then pm_byte m pm (a + (i - doff)) else dl !! Z.to_nat i.
Proof.
  intros [Hl (b & bytes & Hb)] Hp Hdb Hcmd Hr. apply (pm_owns_ne m pm b bytes) in Hdb; [|done].
  destruct (access_facts m pm pkt b bytes a n db doff dl Hb Hp Hdb) as (Ha & _ & Hpos & _).
  destruct (pm_range m pm b bytes a n Hb Hpos Hr) as [Hlo Hhi].
  destruct (c_resp _ _ _ _ _ _ _ Hp) as (Hnr & Hfl & Hinh).
  destruct (copy_out_ok m pm pkt b bytes a n db doff dl Hb Hp Hdb Hlo Hhi) as (dl' & Hc & Hlen & Hi).
  destruct (makeResponse_ok pkt Hfl Hnr) as (r & Hresp & _). exists (calculateLatency rnd pm), r, dl'.
  split_and!; [|done|done|].
  - unfold doAtomicAccess. rewrite (check_range_ok m pm pkt b bytes a n db doff dl), bind_Ok by done.
    rewrite Hinh, Ha, bind_Ok. rewrite bool_decide_eq_false_2 by (destruct Hcmd; congruence).
    assert (Packet.isRead pkt = true /\ Packet.isWrite pkt = false /\ Packet.isLLSC pkt = false) as (-> & -> & ->).
    { unfold Packet.isRead, Packet.isWrite, Packet.isLLSC. by destruct Hcmd as [-> | ->]. }
    cbn [negb c_assert]. rewrite !bind_Ok, Hc, !bind_Ok, Hnr.
    unfold Packet.makeAtomicResponse. rewrite Hresp. done.
  - intros i Hi0. rewrite Hi by done. destruct (decide (doff <= i < doff + n)); [|done].
    rewrite (pm_byte_eq _ _ _ _ _ Hb). replace (0 <=? a + (i - doff) - cachedStart pm) with true by lia. f_equal. lia.
Qed.

Lemma pm_upgrade host rnd m pm pkt a n db doff dl : pm_ok m pm -> carries m pkt a n db doff dl -> ~ pm_owns pm db ->
  Packet.cmd pkt = MemCmd.UpgradeReq -> (forall i, a <= i < a + n -> is_Some (pm_byte m pm i)) ->
  exists lat r, doAtomicAccess host rnd m pm pkt = Ok (lat, m, pm, r) /\ Packet.makeAtomicResponse pkt = Ok r.
Proof.
  intros [Hl (b & bytes & Hb)] Hp Hdb Hcmd Hr. apply (pm_owns_ne m pm b bytes) in Hdb; [|done].
  destruct (access_facts m pm pkt b bytes a n db doff dl Hb Hp Hdb) as (Ha & _ & Hpos & _).
  destruct (pm_range m pm b bytes a n Hb Hpos Hr) as [Hlo Hhi].
  destruct (c_resp _ _ _ _ _ _ _ Hp) as (Hnr & Hfl & Hinh).
  destruct (respond pkt Hnr Hfl) as (r & Hresp & Hc & _). exists (calculateLatency rnd pm), r. split; [|done].
  unfold doAtomicAccess. rewrite (check_range_ok m pm pkt b bytes a n db doff dl), bind_Ok by done.
  rewrite Hinh, Ha, bind_Ok. rewrite bool_decide_eq_false_2 by congruence.
  assert (Packet.isRead pkt = false /\ Packet.isWrite pkt = false /\ Packet.isInvalidate pkt = true) as (-> & -> & ->).
  { unfold Packet.isRead, Packet.isWrite, Packet.isInvalidate. by rewrite Hcmd. }
  rewrite Hnr, Hresp, !bind_Ok. unfold Packet.needsResponse. rewrite Hc, Hcmd. done.
Qed.

Lemma pm_writeback host rnd m pm pkt a n db doff dl : pm_ok m pm -> silent m pkt a n db doff dl -> ~ pm_owns pm db ->
  Packet.cmd pkt = MemCmd.Writeback -> Request.isInstFetch (Packet.req pkt) = false ->
  (forall i, a <= i < a + n -> is_Some (pm_byte m pm i)) ->
  exists lat m', doAtomicAccess host rnd m pm pkt = Ok (lat, m', pm, pkt) /\ pm_ok m' pm /\
    (forall b, ~ pm_owns pm b -> m' !! b = m !! b) /\
    forall i, pm_byte m' pm i = if decide (a <= i < a + n) then dl !! Z.to_nat (doff + (i - a)) else pm_byte m pm i.
Proof.
  intros [Hl (b & bytes & Hb)] [Hsz Hf Hd Harr [Hd0 Hd1] [Hnr Hinh]] Hdb Hcmd Hif Hr.
  apply (pm_owns_ne m pm b bytes) in Hdb; [|done].
  destruct (sized_get pkt a n Hsz) as [Ha Hn]. destruct (sz_range pkt a n Hsz) as (H0 & [Hpos _] & H64).
  destruct (pm_range m pm b bytes a n Hb Hpos Hr) as [Hlo Hhi]. pose proof (hb_size _ _ _ _ Hb) as Hlen.
  destruct (hb_range _ _ _ _ Hb) as [Hr0 Hr1].
  destruct (Bytes.memcpy_ok m b (a - cachedStart pm) db doff n bytes dl) as (bytes' & Hm & Hl' & Hi);
    [apply (hb_array _ _ _ _ Hb)|done|lia..|].
  assert (holds_bytes (<[b := bytes']> m) pm b bytes') as Hb'.
  { destruct Hb. constructor; [done|by rewrite lookup_insert_eq|lia|done]. }
  assert (check_range pm pkt = Ok ()) as Hcr.
  { unfold check_range. rewrite Ha, bind_Ok, Hn. replace (a >=? cachedStart pm) with true by lia.
    cbn [c_assert]. rewrite !bind_Ok, !uint_small by lia. by replace (a + n <=? cachedStart pm + cachedSize pm) with true by lia. }
  exists (calculateLatency rnd pm), (<[b := bytes']> m). split_and!.
  - unfold doAtomicAccess. rewrite Hcr, bind_Ok, Hinh, Ha, bind_Ok.
    rewrite bool_decide_eq_false_2 by congruence.
    assert (Packet.isRead pkt = false /\ Packet.isWrite pkt = true /\ Packet.isLLSC pkt = false) as (-> & -> & Hll).
    { unfold Packet.isRead, Packet.isWrite, Packet.isLLSC. by rewrite Hcmd. }
    unfold writeOK. rewrite Hl, Hll, bind_Ok. cbn [fst snd negb].
    assert (set_req pkt (Packet.req pkt) = pkt) as -> by by destruct pkt.
    unfold copy_in, hostAddr. rewrite (hb_addr _ _ _ _ Hb). cbn [option_map]. unfold Packet.getPtr. rewrite Hf. cbn [c_assert].
    rewrite !bind_Ok, Hd, Hn, bind_Ok, Hm, !bind_Ok, Hif. cbn [negb c_assert]. rewrite !bind_Ok, Hnr. done.
  - split; [done|]. by exists b, bytes'.
  - intros b' Hb2. rewrite lookup_insert_ne; [done|]. intros ->. apply Hb2. apply (hb_addr _ _ _ _ Hb).
  - intros i. rewrite (pm_byte_eq _ _ _ _ _ Hb'), (pm_byte_eq _ _ _ _ _ Hb).
    destruct (Z.leb_spec 0 (i - cachedStart pm)); [|by rewrite decide_False by lia].
    rewrite Hi by lia. destruct (decide (a <= i < a + n)).
    + rewrite decide_True by lia. f_equal. lia.
    + by rewrite decide_False by lia.
Qed.

#[export] Instance physmem_below host rnd : AtomicMemory (physmem_atomic host rnd).
Proof.
  refine {| am_ok := (pm_ok : Bytes.mem -> @peer (physmem_atomic host rnd) -> Prop);
            am_owns := (pm_owns : @peer (physmem_atomic host rnd) -> positive -> Prop);
            am_byte := (pm_byte : Bytes.mem -> @peer (physmem_atomic host rnd) -> Z -> option Z) |}.
  - exact pm_frame.
  - intros m x b [_ (b' & bytes & Hb)] Ho. destruct Hb. unfold pm_owns in Ho. assert (b' = b) as -> by congruence. by exists bytes.
  - intros m x pkt a n db doff dl Hok Hp Hdb Hcmd Hr.
    destruct (pm_read host rnd m x pkt a n db doff dl Hok Hp Hdb Hcmd Hr) as (lat & r & dl' & E & Hresp & Hl & Hi).
    destruct (pm_frame m (<[db := dl']> m) x Hok) as [Hok' Hby].
    { intros b Hb. rewrite lookup_insert_ne; [done|]. intros ->. done. }
    exists lat, (<[db := dl']> m), x, r, dl'. split_and!; try done.
    + intros b Hb _. by rewrite lookup_insert_ne.
    + by rewrite lookup_insert_eq.
  - intros m x pkt a n db doff dl Hok Hp Hdb Hcmd Hr.
    destruct (pm_upgrade host rnd m x pkt a n db doff dl Hok Hp Hdb Hcmd Hr) as (lat & r & E & Hresp).
    by exists lat, m, x, r.
  - intros m x pkt a n db doff dl Hok Hp Hdb Hcmd _ Hif Hr.
    destruct (pm_writeback host rnd m x pkt a n db doff dl Hok Hp Hdb Hcmd Hif Hr) as (lat & m' & E & Hok' & Hf & Hi).
    by exists lat, m', x.
Defined.
End PhysMemBelow.

(** ** The invariant *)
Module CacheInv.
Section inv.
Context {P : AtomicPeer} {F : AtomicMemory P}.
Context (n : Z).

(** A block on its way down. *)
Record pending := mkPending { w_pkt : Packet.t; w_addr : Z; w_buf : positive; w_data : list Z }.

Definition memory (s : Cache.t) (a : Z) : option Z := am_byte (Cache.bytes s) (Cache.below s) a.
Definition cached (s : Cache.t) (p : nat) (a : Z) : option Z :=
  Bytes.byte (Cache.bytes s) (Cache.dataBlks s) (Cache.blkSize s * Z.of_nat p + a mod Cache.blkSize s).

(** The byte at address [a]: in the cache, on its way down, or below. *)
Definition contents (s : Cache.t) (w : option pending) (a : Z) : option Z :=
  match findBlock (Cache.tags s) a with
  | Ok (Some p) => cached s p a
  | _ =>
      match w with
      | Some w => if decide (w_addr w <= a < w_addr w + Cache.blkSize s)
                  then w_data w !! Z.to_nat (a - w_addr w) else memory s a
      | None => memory s a
      end
  end.

Record wb_ok (s : Cache.t) (w : pending) : Prop := {
  wo_silent : silent (Cache.bytes s) (w_pkt w) (w_addr w) (Cache.blkSize s) (w_buf w) 0 (w_data w);
  wo_len : Z.of_nat (length (w_data w)) = Cache.blkSize s;
  wo_cmd : Packet.cmd (w_pkt w) = MemCmd.Writeback;
  wo_req : Request.getPaddr (Packet.req (w_pkt w)) = Ok (w_addr w) /\ Request.isInstFetch (Packet.req (w_pkt w)) = false;
  wo_array : EvQ.isSet (Packet.flags (w_pkt w)) Packet.ARRAY_DATA = true;
  wo_apart : w_buf w <> Cache.dataBlks s /\ ~ am_owns (Cache.below s) (w_buf w);
  wo_addr : 0 <= w_addr w < 2 ^ 64 /\ w_addr w mod Cache.blkSize s = 0;
  wo_range : forall i, w_addr w <= i < w_addr w + Cache.blkSize s -> is_Some (memory s i);
  wo_gone : forall p, ~ holds (Cache.tags s) (w_addr w) p
}.

Definition k_readable (k : core) : bool :=
  let needed := Z.lor CacheBlk.BlkReadable CacheBlk.BlkValid in Z.land (k_status k) needed =? needed.

(** [E]: blocks marked clean whose bytes are not, or not yet, those below. *)
Record cache_ok (s : Cache.t) (w : option pending) (E : nat -> Prop) : Prop := {
  co_wf : wf n (Cache.tags s);
  co_unique : unique (Cache.tags s);
  co_size : LRU.blkSize (Cache.tags s) = Cache.blkSize s /\ 4 <= Cache.blkSize s < 2 ^ 31;
  co_fixed : forall p k, cores (Cache.tags s) !! p = Some k ->
    k_data k = Cache.blkSize s * Z.of_nat p /\ k_set k = Z.of_nat (set_of (Cache.tags s) p);
  co_array : exists arr, Cache.bytes s !! Cache.dataBlks s = Some arr /\
    Z.of_nat (length arr) = Cache.blkSize s * Z.of_nat (length (blks (Cache.tags s)));
  co_below : am_ok (Cache.bytes s) (Cache.below s) /\ ~ am_owns (Cache.below s) (Cache.dataBlks s);
  co_mshr : MSHRQueue.allocatedList (Cache.mshrQueue s) = [];
  co_readable : forall p k, cores (Cache.tags s) !! p = Some k -> k_valid k = true -> k_readable k = true;
  co_line : forall p k, cores (Cache.tags s) !! p = Some k -> k_valid k = true ->
    exists a, 0 <= a < 2 ^ 64 /\ holds (Cache.tags s) a p /\ is_Some (memory s a);
  co_clean : forall a p k, 0 <= a < 2 ^ 64 -> holds (Cache.tags s) a p -> cores (Cache.tags s) !! p = Some k ->
    k_dirty k = false -> ~ E p -> cached s p a = memory s a;
  co_aligned : forall a a', a / Cache.blkSize s = a' / Cache.blkSize s -> is_Some (memory s a) -> is_Some (memory s a');
  co_inmem : forall a, is_Some (memory s a) -> 0 <= a < 2 ^ 64;
  co_pending : forall x, w = Some x -> wb_ok s x;
  co_counts : forall c, n <= Z.of_nat (length (Cache.hits s c)) /\ n <= Z.of_nat (length (Cache.misses s c))
}.

(** ** Lines *)
Lemma holds_same_line c a a' p : wf n c -> 0 <= a < 2 ^ 64 -> 0 <= a' < 2 ^ 64 -> holds c a p ->
  holds c a' p <-> a' / LRU.blkSize c = a / LRU.blkSize c.
Proof.
  intros Hc Ha Ha' [H1 (b & Hb & H2 & H3)]. destruct (address_split n c a a' Hc Ha Ha') as (_ & _ & Hiff).
  destruct (blkAlign_eq n c a Hc Ha) as [E _]. destruct (blkAlign_eq n c a' Hc Ha') as [E' _]. rewrite E, E' in Hiff.
  assert (0 < LRU.blkSize c) as Hpos.
  { destruct (wf_blkSize n c Hc) as (k & Hk & -> & _). apply Z.pow_pos_nonneg; lia. }
  split.
  - intros [G1 (b' & Hb' & G2 & _)]. assert (b' = b) as -> by congruence.
    assert (extractTag c a = extractTag c a' /\ extractSet c a = extractSet c a') as K.
    { split; [congruence|]. apply (extractSet_inj n c a a' Hc). congruence. }
    apply Hiff in K. nia.
  - intros K. destruct (proj2 Hiff) as [G1 G2]; [by rewrite K|]. split; [congruence|]. exists b. by rewrite <- G1.
Qed.

Lemma same_geom_size c c' : wf n c -> wf n c' -> same_geom c c' -> LRU.blkSize c' = LRU.blkSize c.
Proof.
  intros Hc Hc' Hg. destruct (wf_blkSize n c Hc) as (k & _ & -> & E). destruct (wf_blkSize n c' Hc') as (k' & _ & -> & E').
  rewrite <- E, <- E', (sg_setShift _ _ Hg). done.
Qed.

Lemma holds_cores c c' a p : same_geom c c' -> cores c' = cores c -> holds c' a p <-> holds c a p.
Proof. intros Hg E. rewrite !holds_core, E, (sg_set c c' a Hg), (sg_tag c c' a Hg), (sg_set_of c c' p Hg). done. Qed.

(** A lookup finds the block that holds the line. *)
Lemma contents_held s w E a p : cache_ok s w E -> holds (Cache.tags s) a p -> contents s w a = cached s p a.
Proof.
  intros Hok Hp. unfold contents. by rewrite (proj2 (findBlock_iff n (Cache.tags s) a p (co_wf _ _ _ Hok) (co_unique _ _ _ Hok)) Hp).
Qed.

Lemma contents_miss s w E a : cache_ok s w E -> (forall p, ~ holds (Cache.tags s) a p) ->
  contents s w a = match w with
                   | Some w => if decide (w_addr w <= a < w_addr w + Cache.blkSize s)
                               then w_data w !! Z.to_nat (a - w_addr w) else memory s a
                   | None => memory s a
                   end.
Proof.
  intros Hok Hn. unfold contents. destruct (findBlock_holds n (Cache.tags s) a (co_wf _ _ _ Hok)) as ([p|] & -> & Ho); [|done].
  by destruct (Hn p).
Qed.
End inv.
End CacheInv.
