(* ===== verification/CacheServe.v ===== *)
(** * The cache serves a request from a block it holds

    And the changes that keep the invariant (Module [CacheStep]). *)
From S2P Require Import Prelude EventQueue IntMath Request Packet CacheTags CacheTagsProof CacheTagsTheorems PacketTheorems PhysMem PhysMemTheorems Mshr Cache CacheInv.
Import LRU CacheCore.

Module CacheStep.
Import CacheInv.
Section step.
Context {P : AtomicPeer} {F : AtomicMemory P}.
Context (n : Z).

(** The arrays that the cache, the memory and the block on its way down live in. *)
Definition involved (s : Cache.t) (w : option pending) (b : positive) : Prop :=
  b = Cache.dataBlks s \/ am_owns (Cache.below s) b \/ exists x, w = Some x /\ b = w_buf x.

Lemma silent_frame m m' pkt a k db doff dl : silent m pkt a k db doff dl -> m' !! db = m !! db -> silent m' pkt a k db doff dl.
Proof. intros [] E. constructor; try done. congruence. Qed.

(** Other arrays come, go and change. *)
Lemma ok_frame s w E m' : cache_ok n s w E -> (forall b, involved s w b -> m' !! b = Cache.bytes s !! b) ->
  cache_ok n (Cache.set_bytes s m') w E /\ (forall a, contents (Cache.set_bytes s m') w a = contents s w a) /\
  forall a, memory (Cache.set_bytes s m') a = memory s a.
Proof.
  intros Hok Hf. pose proof Hok as [].
  destruct co_below0 as [Hb Ho]. destruct (am_frame (Cache.bytes s) m' (Cache.below s) Hb) as [Hb' Hby].
  { intros b Hob. apply Hf. by right; left. }
  assert (Hm : forall a, memory (Cache.set_bytes s m') a = memory s a) by exact Hby.
  assert (Hc : forall p a, cached (Cache.set_bytes s m') p a = cached s p a).
  { intros p a. unfold cached, Bytes.byte. simpl. rewrite Hf; [done|by left]. }
  split; [|split; [|done]].
  - constructor; simpl; try done.
    + destruct co_array0 as (arr & Ha & Hl). exists arr. rewrite Hf; [done|by left].
    + intros p k Hk Hv. destruct (co_line0 p k Hk Hv) as (a & Ha & Hh & Hs). exists a. by rewrite Hm.
    + intros a p k Ha Hh Hk Hd HE. rewrite Hc, Hm. by eapply co_clean0.
    + intros a a' Ha. rewrite !Hm. by apply co_aligned0.
    + intros a. rewrite Hm. apply co_inmem0.
    + intros x Hx. destruct (co_pending0 x Hx). constructor; simpl; try done.
      * apply (silent_frame (Cache.bytes s)); [done|]. apply Hf. right; right. by exists x.
      * intros i Hi. rewrite Hm. by apply wo_range0.
  - intros a. unfold contents. simpl. destruct (findBlock (Cache.tags s) a) as [[p|]|]; [apply Hc|..];
      destruct w as [x|]; rewrite Hm; done.
Qed.

(** The tag store changes nothing but counts and recency. *)
Lemma ok_tags s w E c' : cache_ok n s w E -> wf n c' -> same_geom (Cache.tags s) c' -> cores c' = cores (Cache.tags s) ->
  cache_ok n (Cache.set_tags s c') w E /\ forall a, contents (Cache.set_tags s c') w a = contents s w a.
Proof.
  intros Hok Hc' Hg Ec. pose proof Hok as [].
  assert (Hh : forall a p, holds c' a p <-> holds (Cache.tags s) a p) by (intros a p; by apply holds_cores).
  assert (Hu : unique c') by (intros a p q; rewrite !Hh; apply co_unique0).
  split.
  - constructor; simpl; try done; try (rewrite Ec; done).
    + by rewrite (same_geom_size n (Cache.tags s) c').
    + rewrite Ec. intros p k Hk. rewrite (sg_set_of _ _ p Hg). by apply co_fixed0.
    + by rewrite (sg_blks _ _ Hg).
    + rewrite Ec. intros p k Hk Hv. destruct (co_line0 p k Hk Hv) as (a & Ha & Hp & Hs). exists a. by rewrite Hh.
    + rewrite Ec. intros a p k Ha Hp. rewrite Hh in Hp. by apply co_clean0.
    + intros x Hx. destruct (co_pending0 x Hx). constructor; simpl; try done. intros p. by rewrite Hh.
  - intros a. unfold contents. simpl.
    rewrite (findBlock_same n c' (Cache.tags s) Hc' co_wf0 Hu co_unique0 a a); [done|]. intros p. apply Hh.
Qed.

(** A block that is held changes its status. *)
Lemma ok_status s w (E E' : nat -> Prop) c' p k st : cache_ok n s w E -> wf n c' -> same_geom (Cache.tags s) c' ->
  cores (Cache.tags s) !! p = Some k -> k_valid k = true ->
  cores c' = <[p := mkCore (k_tag k) st (k_data k) (k_set k)]> (cores (Cache.tags s)) ->
  Z.land st (Z.lor CacheBlk.BlkReadable CacheBlk.BlkValid) = Z.lor CacheBlk.BlkReadable CacheBlk.BlkValid ->
  (forall q, q <> p -> E q -> E' q) ->
  (Z.land st CacheBlk.BlkDirty = 0 -> E' p \/ (k_dirty k = false /\ (E p -> E' p))) ->
  cache_ok n (Cache.set_tags s c') w E' /\ forall a, contents (Cache.set_tags s c') w a = contents s w a.
Proof.
  intros Hok Hc' Hg Hk Hv Ec Hst HE HEp. pose proof Hok as [].
  assert (p < length (cores (Cache.tags s)))%nat as Hlt by by apply lookup_lt_Some in Hk.
  set (k' := mkCore (k_tag k) st (k_data k) (k_set k)) in *.
  assert (Hv' : k_valid k' = true).
  { unfold k_valid. simpl. destruct (Z.eqb_spec (Z.land st CacheBlk.BlkValid) 0) as [E0|]; [|done].
    exfalso. assert (Z.land (Z.land st (Z.lor CacheBlk.BlkReadable CacheBlk.BlkValid)) CacheBlk.BlkValid = CacheBlk.BlkValid) as K
      by (rewrite Hst; done). rewrite <- Z.land_assoc in K. change (Z.land st CacheBlk.BlkValid = CacheBlk.BlkValid) in K.
    rewrite E0 in K. done. }
  assert (Hh : forall a q, holds c' a q <-> holds (Cache.tags s) a q).
  { intros a q. rewrite !holds_core, Ec, (sg_set _ _ a Hg), (sg_tag _ _ a Hg), (sg_set_of _ _ q Hg).
    destruct (decide (p = q)) as [<-|Hne]; [|by rewrite list_lookup_insert_ne].
    rewrite list_lookup_insert_eq by done. rewrite Hk. split; intros [H1 (x & [= <-] & H2 & H3)]; (split; [done|]); eauto. }
  assert (Hu : unique c') by (intros a q r; rewrite !Hh; apply co_unique0).
  assert (Hlk : forall q x, cores c' !! q = Some x -> (q = p /\ x = k') \/ (q <> p /\ cores (Cache.tags s) !! q = Some x)).
  { intros q x. rewrite Ec. destruct (decide (p = q)) as [<-|Hne].
    - rewrite list_lookup_insert_eq by done. intros [= <-]. by left.
    - rewrite list_lookup_insert_ne by done. right. by split. }
  split.
  - constructor; simpl; try done.
    + by rewrite (same_geom_size n (Cache.tags s) c').
    + intros q x [[-> ->]|[_ Hx]]%Hlk; rewrite (sg_set_of _ _ _ Hg); [by apply (co_fixed0 p k)|by apply co_fixed0].
    + by rewrite (sg_blks _ _ Hg).
    + intros q x [[-> ->]|[_ Hx]]%Hlk Hvx; [by apply Z.eqb_eq|by eapply co_readable0].
    + intros q x [[-> ->]|[_ Hx]]%Hlk Hvx; [destruct (co_line0 p k Hk Hv) as (a & ?)|destruct (co_line0 q x Hx Hvx) as (a & ?)];
        exists a; rewrite Hh; done.
    + intros a q x Ha Hq Hx Hd HE'. apply Hh in Hq. apply Hlk in Hx as [[-> ->]|[Hne Hx]].
      * apply negb_false_iff, Z.eqb_eq in Hd. destruct (HEp Hd) as [?|[Hd' HE0]]; [done|]. apply (co_clean0 a p k); auto.
      * apply (co_clean0 a q x); try done. intros HEq. by apply HE', HE.
    + intros x Hx. destruct (co_pending0 x Hx). constructor; simpl; try done. intros q. by rewrite Hh.
  - intros a. unfold contents. simpl.
    rewrite (findBlock_same n c' (Cache.tags s) Hc' co_wf0 Hu co_unique0 a a); [done|]. intros q. apply Hh.
Qed.

Lemma size_pos s w E : cache_ok n s w E -> 0 < Cache.blkSize s.
Proof. intros Hok. destruct (co_size _ _ _ _ Hok). lia. Qed.

Lemma blocks_apart size q p r : 0 <= r < size -> size * Z.of_nat p <= size * Z.of_nat q + r < size * Z.of_nat p + size -> q = p.
Proof.
  intros Hr H. destruct (Z.lt_trichotomy (Z.of_nat q) (Z.of_nat p)) as [Hl|[He|Hl]]; [nia|lia|nia].
Qed.

(** Bytes of a held block are overwritten. *)
Lemma ok_data s w E p k al o cnt v arr arr' : cache_ok n s w E -> cores (Cache.tags s) !! p = Some k ->
  holds (Cache.tags s) al p -> 0 <= al < 2 ^ 64 -> k_dirty k = true \/ E p ->
  0 <= o -> o + cnt <= Cache.blkSize s ->
  Cache.bytes s !! Cache.dataBlks s = Some arr -> length arr' = length arr ->
  (forall i, 0 <= i -> arr' !! Z.to_nat i =
     if decide (Cache.blkSize s * Z.of_nat p + o <= i < Cache.blkSize s * Z.of_nat p + o + cnt)
     then v (i - Cache.blkSize s * Z.of_nat p) else arr !! Z.to_nat i) ->
  let s' := Cache.set_bytes s (<[Cache.dataBlks s := arr']> (Cache.bytes s)) in
  cache_ok n s' w E /\ (forall a, memory s' a = memory s a) /\
  forall a, 0 <= a < 2 ^ 64 -> contents s' w a =
    if decide (a / Cache.blkSize s = al / Cache.blkSize s /\ o <= a mod Cache.blkSize s < o + cnt)
    then v (a mod Cache.blkSize s) else contents s w a.
Proof.
  intros Hok Hk Hal Hral Hd Ho1 Ho2 Harr Hlen Hi s'. pose proof (size_pos s w E Hok) as Hpos. pose proof Hok as [].
  destruct co_below0 as [Hb Ho]. destruct (am_frame (Cache.bytes s) (Cache.bytes s') (Cache.below s) Hb) as [Hb' Hby].
  { intros b Hob. unfold s'. simpl. rewrite lookup_insert_ne; [done|]. intros <-. done. }
  assert (Hm : forall a, memory s' a = memory s a) by exact Hby.
  assert (Hc : forall q a, cached s' q a =
    if decide (q = p /\ o <= a mod Cache.blkSize s < o + cnt) then v (a mod Cache.blkSize s) else cached s q a).
  { intros q a. unfold cached, Bytes.byte. unfold s'. simpl. rewrite lookup_insert_eq, Harr. simpl.
    pose proof (Z.mod_pos_bound a _ Hpos) as Hmod.
    assert (0 <= Cache.blkSize s * Z.of_nat q + a mod Cache.blkSize s) as Hnn by nia.
    replace (0 <=? Cache.blkSize s * Z.of_nat q + a mod Cache.blkSize s) with true by lia. rewrite Hi by done. destruct (decide (q = p)) as [->|Hne].
    - destruct (decide (o <= a mod Cache.blkSize s < o + cnt)).
      + rewrite !decide_True by lia. f_equal. lia.
      + by rewrite !decide_False by lia.
    - rewrite !decide_False; [done| |]; [intros [? _]; done|]. intros Hr. apply Hne.
      apply (blocks_apart (Cache.blkSize s) q p (a mod Cache.blkSize s)); lia. }
  split; [|split; [done|]].
  - constructor; simpl; try done.
    + exists arr'. rewrite lookup_insert_eq. destruct co_array0 as (x & Hx & Hl). rewrite Harr in Hx. injection Hx as <-.
      split; [done|]. by rewrite Hlen.
    + intros q x Hx Hv. destruct (co_line0 q x Hx Hv) as (a & ?). exists a. by rewrite Hm.
    + intros a q x Ha Hq Hx Hdq HEq. rewrite Hc, Hm. rewrite decide_False; [by eapply co_clean0|].
      intros [-> _]. assert (x = k) as -> by congruence. destruct Hd; [congruence|done].
    + intros a a' Ha. rewrite !Hm. by apply co_aligned0.
    + intros a. rewrite Hm. apply co_inmem0.
    + intros x Hx. destruct (co_pending0 x Hx). constructor; simpl; try done.
      * apply (silent_frame (Cache.bytes s)); [done|]. destruct wo_apart0. by rewrite lookup_insert_ne.
      * intros i Hir. rewrite Hm. by apply wo_range0.
  - intros a Ha. unfold contents. simpl. destruct (findBlock_holds n (Cache.tags s) a co_wf0) as (r & -> & Hr).
    destruct r as [q|].
    + rewrite Hc. pose proof (holds_same_line n (Cache.tags s) al a p co_wf0 Hral Ha Hal) as Hl.
      destruct co_size0 as [Hsz _]. rewrite Hsz in Hl.
      assert (q = p <-> a / Cache.blkSize s = al / Cache.blkSize s) as Hqp.
      { rewrite <- Hl. split; [by intros ->|]. intros Hp. by apply (co_unique0 a q p). }
      by rewrite (decide_ext _ _ _ _ (and_iff_compat_r _ Hqp)).
    + rewrite decide_False; [destruct w; rewrite ?Hm; done|]. intros [Hl _]. apply (Hr p).
      destruct co_size0 as [Hsz _]. apply (holds_same_line n (Cache.tags s) al a p co_wf0 Hral Ha Hal). by rewrite Hsz.
Qed.

(** A block whose bytes are those below is clean. *)
Lemma ok_clean s w (E E' : nat -> Prop) p : cache_ok n s w E -> (forall q, q <> p -> E q -> E' q) ->
  (forall a, 0 <= a < 2 ^ 64 -> holds (Cache.tags s) a p -> cached s p a = memory s a) -> cache_ok n s w E'.
Proof.
  intros [] HE Hp. constructor; try done. intros a q k Ha Hq Hk Hd HEq. destruct (decide (q = p)) as [->|Hne]; [by apply Hp|].
  apply (co_clean0 a q k); try done. intros HEq'. by apply HEq, HE.
Qed.

(** Hits and misses are counted. *)
Lemma ok_counts s w E h m c e : cache_ok n s w E ->
  (forall c, n <= Z.of_nat (length (h c)) /\ n <= Z.of_nat (length (m c))) -> cache_ok n (Cache.set_counts s h m c e) w E.
Proof. intros [] Hc. constructor; try done. intros x Hx. by destruct (co_pending0 x Hx). Qed.

Lemma ok_weaken s w (E E' : nat -> Prop) : cache_ok n s w E -> (forall q, E q -> E' q) -> cache_ok n s w E'.
Proof. intros [] HE. constructor; try done. intros a q k Ha Hq Hk Hd HEq. apply (co_clean0 a q k); auto. Qed.
End step.
End CacheStep.


Module CacheServe.
Import CacheInv CacheStep.
Section serve.
Context {P : AtomicPeer} {F : AtomicMemory P}.
Context (host : ByteSwap.ByteOrder) (n : Z).

(** ** Status bits *)
Definition needed := Z.lor CacheBlk.BlkReadable CacheBlk.BlkValid.

Lemma set_dirty st : Z.land st needed = needed ->
  Z.land (Z.lor st CacheBlk.BlkDirty) needed = needed /\ Z.land (Z.lor st CacheBlk.BlkDirty) CacheBlk.BlkDirty <> 0.
Proof.
  intros H. rewrite !Z.land_lor_distr_l, H. split; [done|]. intros E%Z.lor_eq_0_iff. by destruct E.
Qed.

Lemma clear_writable st : Z.land st needed = needed ->
  let st' := Z.land st (uint 32 (Z.lnot CacheBlk.BlkWritable)) in
  Z.land st' needed = needed /\ Z.land st' CacheBlk.BlkDirty = Z.land st CacheBlk.BlkDirty.
Proof. intros H st'. unfold st'. rewrite <- !Z.land_assoc. split; [exact H|done]. Qed.

(** ** Blocks through their pointers *)
Lemma get_blk_ok (s : Cache.t) p k : cores (Cache.tags s) !! p = Some k ->
  exists b, Cache.get_blk s (Cache.InTags p) = Ok b /\ blks (Cache.tags s) !! p = Some b /\ core_of b = k.
Proof. intros H. apply cores_inv in H as (b & Hb & <-). exists b. simpl. by rewrite Hb. Qed.

Lemma upd_blk_ok (s : Cache.t) w E p b f : cache_ok n s w E -> blks (Cache.tags s) !! p = Some b ->
  CacheBlk.contextSrc (f b) = CacheBlk.contextSrc b ->
  exists c', Cache.upd_blk s (Cache.InTags p) f = Ok (Cache.set_tags s c') /\ wf n c' /\ same_geom (Cache.tags s) c' /\
    blks c' !! p = Some (f b) /\ cores c' = <[p := core_of (f b)]> (cores (Cache.tags s)).
Proof.
  intros Hok Hb Hf. pose proof (co_wf _ _ _ _ Hok) as Hc.
  destruct (only_blk_upd n (Cache.tags s) p b f Hc Hb) as (c' & Hu & Hc' & Hg & _ & _ & _ & Hb' & _).
  { rewrite Hf. by apply (lookup_ctx n (Cache.tags s) p b). }
  exists c'. simpl. rewrite Hu. split; [done|]. split_and!; try done.
  apply upd_cores in Hu as (b0 & Hb0 & E' & _). assert (b0 = b) as -> by congruence. done.
Qed.

Lemma held_core (s : Cache.t) w E a p : cache_ok n s w E -> holds (Cache.tags s) a p ->
  exists k, cores (Cache.tags s) !! p = Some k /\ k_valid k = true /\ Z.land (k_status k) needed = needed /\
    k_data k = Cache.blkSize s * Z.of_nat p.
Proof.
  intros Hok Hh. apply holds_core in Hh as [_ (k & Hk & _ & Hv)]. exists k.
  destruct (co_fixed _ _ _ _ Hok p k Hk). split_and!; try done. apply Z.eqb_eq. by apply (co_readable _ _ _ _ Hok p k).
Qed.

(** The block's status is changed. *)
Lemma status_upd (s : Cache.t) w (E E' : nat -> Prop) p b g : cache_ok n s w E -> blks (Cache.tags s) !! p = Some b ->
  k_valid (core_of b) = true -> Z.land (g (CacheBlk.status b)) needed = needed ->
  (forall q, q <> p -> E q -> E' q) ->
  (Z.land (g (CacheBlk.status b)) CacheBlk.BlkDirty = 0 -> E' p \/ (k_dirty (core_of b) = false /\ (E p -> E' p))) ->
  exists c', Cache.upd_blk s (Cache.InTags p) (fun x => CacheBlk.set_status x (g (CacheBlk.status x))) =
      Ok (Cache.set_tags s c') /\ wf n c' /\ same_geom (Cache.tags s) c' /\
    blks c' !! p = Some (CacheBlk.set_status b (g (CacheBlk.status b))) /\
    cores c' = <[p := mkCore (CacheBlk.tag b) (g (CacheBlk.status b)) (CacheBlk.data b) (CacheBlk.set b)]> (cores (Cache.tags s)) /\
    cache_ok n (Cache.set_tags s c') w E' /\ forall a, contents (Cache.set_tags s c') w a = contents s w a.
Proof.
  intros Hok Hb Hv Hst HE HEp.
  destruct (upd_blk_ok s w E p b (fun x => CacheBlk.set_status x (g (CacheBlk.status x))) Hok Hb) as (c' & Hu & Hc' & Hg & Hb' & Ec);
    [done|].
  exists c'. split_and!; try done;
    destruct (ok_status n s w E E' c' p (core_of b) (g (CacheBlk.status b)) Hok Hc' Hg) as [G1 G2]; try done; by apply cores_lookup.
Qed.

(** ** Offsets *)
Lemma offset_ok (s : Cache.t) w E pkt a k : cache_ok n s w E -> sized pkt a k ->
  Packet.getOffset pkt (Cache.blkSize s) = Ok (a mod Cache.blkSize s).
Proof.
  intros Hok Hs. destruct (sized_get pkt a k Hs) as [Ha _]. unfold Packet.getOffset. rewrite Ha, bind_Ok. f_equal.
  destruct (co_size _ _ _ _ Hok) as [E1 E2]. destruct (wf_blkSize n _ (co_wf _ _ _ _ Hok)) as (j & Hj & Ej & _).
  rewrite <- E1 in *. rewrite uint_small by lia. rewrite Ej, Z.sub_1_r, <- Z.ones_equiv. apply Z.land_ones. lia.
Qed.

Lemma line_arith size a j : 0 < size -> 0 <= j -> a mod size + j < size ->
  (a + j) / size = a / size /\ (a + j) mod size = a mod size + j.
Proof.
  intros Hp Hj Hl. pose proof (Z.div_mod a size ltac:(lia)) as D. pose proof (Z.mod_pos_bound a size Hp) as B.
  assert (a + j = size * (a / size) + (a mod size + j)) as Ea by lia.
  split; symmetry; [apply (Z.div_unique_pos _ _ _ (a mod size + j))|apply (Z.mod_unique_pos _ _ (a / size))]; lia.
Qed.

Lemma in_line size a k x : 0 < size -> 0 < k -> a mod size + k <= size ->
  x / size = a / size /\ a mod size <= x mod size < a mod size + k <-> a <= x < a + k.
Proof.
  intros Hp Hk Hl. pose proof (Z.div_mod x size ltac:(lia)) as D. pose proof (Z.div_mod a size ltac:(lia)) as D'. split.
  - intros [E H]. rewrite E in D. lia.
  - intros H. destruct (line_arith size a (x - a) Hp) as [E1 E2]; [lia|lia|].
    replace (a + (x - a)) with x in * by lia. lia.
Qed.

(** What no access changes. *)
Record shell (s s' : Cache.t) : Prop := {
  sh_data : Cache.dataBlks s' = Cache.dataBlks s;
  sh_size : Cache.blkSize s' = Cache.blkSize s;
  sh_owns : forall b, am_owns (Cache.below s') b <-> am_owns (Cache.below s) b
}.
#[export] Instance shell_refl : Reflexive shell.
Proof. by intros s. Qed.
#[export] Instance shell_trans : Transitive shell.
Proof. intros a b c [H1 H2 H3] [G1 G2 G3]. constructor; [congruence..|]. intros x. by rewrite G3, H3. Qed.

(** The block's bytes at an address of the line. *)
Lemma contents_in_block (s : Cache.t) w E a j p : cache_ok n s w E -> holds (Cache.tags s) a p -> 0 <= a -> 0 <= j ->
  a mod Cache.blkSize s + j < Cache.blkSize s -> a + j < 2 ^ 64 ->
  contents s w (a + j) = Bytes.byte (Cache.bytes s) (Cache.dataBlks s) (Cache.blkSize s * Z.of_nat p + a mod Cache.blkSize s + j).
Proof.
  intros Hok Hh Ha Hj Hl H64. pose proof (size_pos n s w E Hok) as Hpos.
  destruct (line_arith (Cache.blkSize s) a j Hpos Hj Hl) as [Ed Em].
  rewrite (contents_held n s w E (a + j) p Hok).
  - unfold cached. rewrite Em. f_equal. lia.
  - apply (holds_same_line n (Cache.tags s) a (a + j) p (co_wf _ _ _ _ Hok)); [lia|lia|done|].
    destruct (co_size _ _ _ _ Hok) as [-> _]. done.
Qed.

Definition plain_read (pkt : Packet.t) : Prop := Packet.cmd pkt = MemCmd.ReadReq.
Definition plain_write (pkt : Packet.t) : Prop := Packet.cmd pkt = MemCmd.WriteReq.

Lemma satisfy_read s w E p pkt a k db doff dl : cache_ok n s w E -> holds (Cache.tags s) a p ->
  carries (Cache.bytes s) pkt a k db doff dl -> a mod Cache.blkSize s + k <= Cache.blkSize s ->
  ~ involved s w db -> plain_read pkt ->
  exists s' pkt' dl', Cache.satisfyCpuSideRequest host n s pkt (Cache.InTags p) = Ok (s', pkt') /\
    cache_ok n s' w E /\ (forall x, contents s' w x = contents s w x) /\ shell s s' /\
    Cache.bytes s' = <[db := dl']> (Cache.bytes s) /\ length dl' = length dl /\
    (pkt' = pkt \/ pkt' = Packet.assertShared pkt) /\
    forall i, 0 <= i -> dl' !! Z.to_nat i =
      if decide (doff <= i < doff + k) then contents s w (a + (i - doff)) else dl !! Z.to_nat i.
Proof.
  intros Hok Hh Hp Hin Hdb Hcmd. pose proof (size_pos n s w E Hok) as Hpos.
  destruct (held_core s w E a p Hok Hh) as (kc & Hk & Hv & Hst & Hdat).
  destruct (get_blk_ok s p kc Hk) as (b & Hgb & Hb & Ecore).
  pose proof (c_sized _ _ _ _ _ _ _ Hp) as Hsz. destruct (sized_get pkt a k Hsz) as [_ Hn].
  destruct (sz_range pkt a k Hsz) as (Ha0 & Hk0 & H64). destruct (c_room _ _ _ _ _ _ _ Hp) as [Hd0 Hd1].
  destruct (co_array _ _ _ _ Hok) as (arr & Harr & Hlen).
  pose proof (Z.mod_pos_bound a _ Hpos) as Hmod.
  assert (Hpl : (p < length (blks (Cache.tags s)))%nat) by by apply lookup_lt_Some in Hb.
  assert (Hptr : Cache.blk_data s (Cache.InTags p) = Ok (Cache.dataBlks s, Cache.blkSize s * Z.of_nat p)).
  { simpl. rewrite Hb. cbn [at_index mbind res_bind]. do 2 f_equal. rewrite <- Hdat, <- Ecore. done. }
  destruct (Bytes.memcpy_ok (Cache.bytes s) db doff (Cache.dataBlks s) (Cache.blkSize s * Z.of_nat p + a mod Cache.blkSize s) k dl arr)
    as (dl' & Hcpy & Hl' & Hi); [apply (c_array _ _ _ _ _ _ _ Hp)|done|lia|lia|lia|nia|nia|].
  destruct (ok_frame n s w E (<[db := dl']> (Cache.bytes s)) Hok) as (Hok1 & Hcont & _).
  { intros x Hx. rewrite lookup_insert_ne; [done|]. intros ->. done. }
  set (s1 := Cache.set_bytes s (<[db := dl']> (Cache.bytes s))) in *.
  assert (Hspec : forall i, 0 <= i -> dl' !! Z.to_nat i =
      if decide (doff <= i < doff + k) then contents s w (a + (i - doff)) else dl !! Z.to_nat i).
  { intros i Hi0. rewrite Hi by done. destruct (decide (doff <= i < doff + k)); [|done].
    rewrite (contents_in_block s w E a (i - doff) p) by (done || lia). unfold Bytes.byte. rewrite Harr. simpl.
    replace (0 <=? Cache.blkSize s * Z.of_nat p + a mod Cache.blkSize s + (i - doff)) with true by nia. f_equal. lia. }
  assert (Hred : Cache.satisfyCpuSideRequest host n s pkt (Cache.InTags p) =
    if k =? Cache.blkSize s then
      (x ← Cache.clear_status s1 (Cache.InTags p) CacheBlk.BlkWritable; Ok (x, Packet.assertShared pkt))
    else Ok (s1, pkt)).
  { unfold Cache.satisfyCpuSideRequest. rewrite (offset_ok s w E pkt a k Hok Hsz), bind_Ok, Hn, bind_Ok.
    replace (a mod Cache.blkSize s + k <=? Cache.blkSize s) with true by lia. cbn [c_assert]. rewrite bind_Ok.
    rewrite bool_decide_eq_false_2 by (rewrite Hcmd; done).
    assert (Packet.isWrite pkt = false /\ Packet.isRead pkt = true /\ Packet.isLLSC pkt = false /\ Packet.needsExclusive pkt = false)
      as (-> & -> & -> & ->) by (unfold Packet.isWrite, Packet.isRead, Packet.isLLSC, Packet.needsExclusive; by rewrite Hcmd).
    rewrite bind_Ok, Hptr, bind_Ok. unfold Packet.setDataFromBlock.
    rewrite (offset_ok s w E pkt a k Hok Hsz), bind_Ok. unfold Packet.setData, Packet.getPtr.
    rewrite (c_flags _ _ _ _ _ _ _ Hp). cbn [c_assert]. rewrite !bind_Ok, Hn, bind_Ok, (c_data _ _ _ _ _ _ _ Hp).
    cbn [option_map Bytes.shift fst snd]. unfold Bytes.shift. cbn [fst snd]. rewrite Hcpy, bind_Ok. done. }
  rewrite Hred. destruct (Z.eqb_spec k (Cache.blkSize s)).
  - assert (Hb1 : blks (Cache.tags s1) !! p = Some b) by exact Hb. destruct (clear_writable (k_status kc) Hst) as [G1 G2].
    destruct (status_upd s1 w E E p b (fun st => Z.land st (uint 32 (Z.lnot CacheBlk.BlkWritable))) Hok1 Hb1)
      as (c' & Hu & _ & _ & _ & _ & Hok2 & Hc2); [by rewrite Ecore|by rewrite <- Ecore in G1|done| |].
    { rewrite <- Ecore in G2. cbn [core_of k_status] in G2. rewrite G2. intros Hz. right.
      split; [|done]. unfold k_dirty. simpl. by rewrite Hz. }
    unfold Cache.clear_status. rewrite Hu, bind_Ok. exists (Cache.set_tags s1 c'), (Packet.assertShared pkt), dl'.
    split_and!; try done; [|by right]. intros x. by rewrite Hc2, Hcont.
  - exists s1, pkt, dl'. split_and!; try done. by left.
Qed.

(** The block is marked dirty and loses its load-locks. *)
Lemma dirty_blk s w (E E' : nat -> Prop) p b : cache_ok n s w E -> blks (Cache.tags s) !! p = Some b ->
  k_valid (core_of b) = true -> Z.land (CacheBlk.status b) needed = needed -> (forall q, q <> p -> E q -> E' q) ->
  exists c1 c2 b1, Cache.or_status s (Cache.InTags p) CacheBlk.BlkDirty = Ok (Cache.set_tags s c1) /\
    Cache.get_blk (Cache.set_tags s c1) (Cache.InTags p) = Ok b1 /\
    Cache.upd_blk (Cache.set_tags s c1) (Cache.InTags p) (fun _ => CacheBlk.clearLoadLocks b1) = Ok (Cache.set_tags s c2) /\
    same_geom (Cache.tags s) c2 /\
    cores c2 = <[p := mkCore (CacheBlk.tag b) (Z.lor (CacheBlk.status b) CacheBlk.BlkDirty) (CacheBlk.data b) (CacheBlk.set b)]>
                 (cores (Cache.tags s)) /\
    cache_ok n (Cache.set_tags s c2) w E' /\ forall a, contents (Cache.set_tags s c2) w a = contents s w a.
Proof.
  intros Hok Hb Hv Hst HE. destruct (set_dirty (CacheBlk.status b) Hst) as [G1 G2].
  destruct (status_upd s w E E' p b (fun st => Z.lor st CacheBlk.BlkDirty) Hok Hb Hv G1 HE)
    as (c1 & Hu1 & Hc1 & Hg1 & Hb1 & Ec1 & Hok1 & Hcont1); [intros Hz; by rewrite Hz in G2|].
  set (b1 := CacheBlk.set_status b (Z.lor (CacheBlk.status b) CacheBlk.BlkDirty)) in *.
  set (s1 := Cache.set_tags s c1) in *.
  destruct (upd_blk_ok s1 w E' p b1 (fun _ => CacheBlk.clearLoadLocks b1) Hok1 Hb1) as (c2 & Hu2 & Hc2 & Hg2 & _ & Ec2); [done|].
  assert (cores c2 = cores c1) as E21.
  { rewrite Ec2. apply list_insert_id. change (core_of (CacheBlk.clearLoadLocks b1)) with (core_of b1). by apply cores_lookup. }
  destruct (ok_tags n s1 w E' c2 Hok1 Hc2 Hg2 E21) as [Hok2 Hcont2].
  exists c1, c2, b1. split_and!; try done.
  - simpl. by rewrite Hb1.
  - by etrans.
  - by rewrite E21.
  - intros a. transitivity (contents s1 w a); [apply Hcont2|apply Hcont1].
Qed.

Lemma satisfy_write s w (E E' : nat -> Prop) p pkt a k db doff dl : cache_ok n s w E -> holds (Cache.tags s) a p ->
  carries (Cache.bytes s) pkt a k db doff dl -> a mod Cache.blkSize s + k <= Cache.blkSize s ->
  plain_write pkt -> (forall q, q <> p -> E q -> E' q) ->
  exists s' arr', Cache.satisfyCpuSideRequest host n s pkt (Cache.InTags p) = Ok (s', pkt) /\
    cache_ok n s' w E' /\ shell s s' /\ Cache.bytes s' = <[Cache.dataBlks s := arr']> (Cache.bytes s) /\
    (forall x, memory s' x = memory s x) /\
    forall x, 0 <= x < 2 ^ 64 -> contents s' w x = if decide (a <= x < a + k) then dl !! Z.to_nat (doff + (x - a)) else contents s w x.
Proof.
  intros Hok Hh Hp Hin Hcmd HE. pose proof (size_pos n s w E Hok) as Hpos.
  destruct (held_core s w E a p Hok Hh) as (kc & Hk & Hv & Hst & Hdat).
  destruct (get_blk_ok s p kc Hk) as (b & _ & Hb & Ecore). subst kc.
  pose proof (c_sized _ _ _ _ _ _ _ Hp) as Hsz. destruct (sized_get pkt a k Hsz) as [_ Hn].
  destruct (sz_range pkt a k Hsz) as (Ha0 & Hk0 & H64). destruct (c_room _ _ _ _ _ _ _ Hp) as [Hd0 Hd1].
  destruct (co_array _ _ _ _ Hok) as (arr & Harr & Hlen). pose proof (Z.mod_pos_bound a _ Hpos) as Hmod.
  assert (Hpl : (p < length (blks (Cache.tags s)))%nat) by by apply lookup_lt_Some in Hb.
  destruct (dirty_blk s w E E' p b Hok Hb Hv Hst HE) as (c1 & c2 & b1 & Hu1 & Hg1 & Hu2 & Hg2 & Ec2 & Hok2 & Hcont2).
  set (s2 := Cache.set_tags s c2) in *. set (kd := mkCore _ _ _ _) in Ec2.
  assert (Hk2 : cores (Cache.tags s2) !! p = Some kd).
  { simpl. rewrite Ec2. apply list_lookup_insert_eq. by apply lookup_lt_Some in Hk. }
  destruct (cores_inv c2 p kd Hk2) as (b2 & Hb2 & Ecore2).
  assert (Hh2 : holds (Cache.tags s2) a p).
  { apply holds_core in Hh as [Hset (k0 & Hk0' & Ht & _)]. assert (k0 = core_of b) as -> by congruence.
    change (holds c2 a p). apply holds_core. split; [by rewrite (sg_set _ _ a Hg2), (sg_set_of _ _ p Hg2)|]. exists kd.
    rewrite (sg_tag _ _ a Hg2). split_and!; try done. destruct (set_dirty _ Hst) as [G1 _].
    unfold k_valid. simpl. destruct (Z.eqb_spec (Z.land (Z.lor (CacheBlk.status b) CacheBlk.BlkDirty) CacheBlk.BlkValid) 0) as [E0|]; [|done].
    exfalso. apply (f_equal (fun z => Z.land z CacheBlk.BlkValid)) in G1. rewrite <- Z.land_assoc in G1.
    change (Z.land needed CacheBlk.BlkValid) with CacheBlk.BlkValid in G1. cbn [k_status core_of] in G1. rewrite E0 in G1. done. }
  destruct (Bytes.memcpy_ok (Cache.bytes s) (Cache.dataBlks s) (Cache.blkSize s * Z.of_nat p + a mod Cache.blkSize s) db doff k arr dl)
    as (arr' & Hcpy & Hl' & Hi); [done|apply (c_array _ _ _ _ _ _ _ Hp)|lia|nia|nia|lia|lia|].
  destruct (ok_data n s2 w E' p kd a (a mod Cache.blkSize s) k (fun o => dl !! Z.to_nat (doff + (o - a mod Cache.blkSize s))) arr arr')
    as (Hok3 & Hmem3 & Hcont3); try done; [lia| |lia| |].
  { left. unfold k_dirty. simpl. destruct (set_dirty _ Hst) as [_ G2]. cbn [k_status core_of] in G2.
    destruct (Z.eqb_spec (Z.land (Z.lor (CacheBlk.status b) CacheBlk.BlkDirty) CacheBlk.BlkDirty) 0); done. }
  { intros i Hi0. rewrite Hi by done. simpl. destruct (decide _); [f_equal; lia|done]. }
  exists (Cache.set_bytes s2 (<[Cache.dataBlks s := arr']> (Cache.bytes s))), arr'. split_and!; try done.
  - unfold Cache.satisfyCpuSideRequest. rewrite (offset_ok s w E pkt a k Hok Hsz), bind_Ok, Hn, bind_Ok.
    replace (a mod Cache.blkSize s + k <=? Cache.blkSize s) with true by lia. cbn [c_assert]. rewrite bind_Ok.
    rewrite bool_decide_eq_false_2 by (rewrite Hcmd; done).
    assert (Packet.isWrite pkt = true /\ Packet.isLLSC pkt = false) as [-> Hll]
      by (unfold Packet.isWrite, Packet.isLLSC; by rewrite Hcmd).
    rewrite Hu1, bind_Ok, Hg1, bind_Ok. unfold CacheBlk.checkWrite. rewrite Hll, bind_Ok, Hu2, bind_Ok.
    assert (PhysicalMemory.set_req pkt (Packet.req pkt) = pkt) as -> by by destruct pkt.
    assert (Cache.blk_data s2 (Cache.InTags p) = Ok (Cache.dataBlks s, Cache.blkSize s * Z.of_nat p)) as ->.
    { simpl. rewrite Hb2. cbn [at_index mbind res_bind]. do 2 f_equal. cbn [core_of k_data] in Hdat. rewrite <- Hdat.
      by apply (f_equal k_data) in Ecore2. }
    rewrite !bind_Ok. unfold Packet.writeDataToBlock.
    change (Cache.blkSize s2) with (Cache.blkSize s). rewrite (offset_ok s w E pkt a k Hok Hsz), bind_Ok.
    unfold Packet.writeData, Packet.getPtr. rewrite (c_flags _ _ _ _ _ _ _ Hp). cbn [c_assert].
    rewrite !bind_Ok, Hn, bind_Ok, (c_data _ _ _ _ _ _ _ Hp). cbn [option_map]. unfold Bytes.shift. cbn [fst snd].
    change (Cache.bytes s2) with (Cache.bytes s). rewrite Hcpy, !bind_Ok. done.
  - intros x Hx. specialize (Hcont3 x Hx). change (Cache.blkSize s2) with (Cache.blkSize s) in Hcont3.
    rewrite Hcont2 in Hcont3. etrans; [exact Hcont3|].
    pose proof (in_line (Cache.blkSize s) a k x Hpos ltac:(lia) Hin) as Hiff. destruct (decide (a <= x < a + k)) as [Hr|Hr].
    + rewrite decide_True by (by apply Hiff). apply Hiff in Hr as [Hr _]. do 2 f_equal.
      pose proof (Z.div_mod x (Cache.blkSize s) ltac:(lia)). pose proof (Z.div_mod a (Cache.blkSize s) ltac:(lia)). rewrite Hr in *. lia.
    + rewrite decide_False; [done|]. intros K. by apply Hr, Hiff.
Qed.
End serve.
End CacheServe.
