(* ===== verification/CacheMiss.v ===== *)
(** * The cache gets a block from below *)
From S2P Require Import Prelude EventQueue IntMath Request Packet CacheTags CacheTagsProof CacheTagsTheorems PacketTheorems PhysMem PhysMemTheorems Mshr Cache CacheInv CacheServe.
Import LRU CacheCore.

Module CacheMiss.
Import CacheInv CacheStep CacheServe.
Section miss.
Context {P : AtomicPeer} {F : AtomicMemory P}.
Context (host : ByteSwap.ByteOrder) (alloc : Bytes.mem -> positive) (garbage : Z -> list Z).
Context (gp : Packet.t) (gr : Request.t) (n now : Z).
Context (alloc_fresh : forall m, m !! alloc m = None).
Context (garbage_length : forall k, 0 <= k -> Z.of_nat (length (garbage k)) = k).

(** ** The request for the block *)
Definition bus_pkt (cmd : MemCmd.Command) (req : Request.t) (fb : positive) (al size : Z) : Packet.t :=
  Packet.mk 0x6b00 cmd req (Some (fb, 0)) al size (Packet.src gp) Packet.Broadcast MemCmd.InvalidCmd now
    (Packet.finishTime gp) (Packet.firstWordTime gp) None.
Definition bus_resp (cmd : MemCmd.Command) (req : Request.t) (fb : positive) (al size : Z) : Packet.t :=
  Packet.mk 0x6300 (MemCmd.responseCommand cmd) req (Some (fb, 0)) al size (Packet.src gp) (Packet.src gp) cmd now
    (Packet.finishTime gp) (Packet.firstWordTime gp) None.

Definition bus_cmd (cmd : MemCmd.Command) : Prop :=
  cmd = MemCmd.ReadReq \/ cmd = MemCmd.ReadExReq \/ cmd = MemCmd.UpgradeReq.

Lemma bus_response cmd req fb al size : bus_cmd cmd ->
  Packet.makeAtomicResponse (bus_pkt cmd req fb al size) = Ok (bus_resp cmd req fb al size).
Proof. intros [-> |[-> | ->]]; reflexivity. Qed.

Lemma bus_carries m cmd req fb al size l : bus_cmd cmd -> m !! fb = Some l -> Z.of_nat (length l) = size ->
  0 <= al -> 0 < size < 2 ^ 31 -> al + size <= 2 ^ 64 -> carries m (bus_pkt cmd req fb al size) al size fb 0 l.
Proof.
  intros Hc Hl Hlen H0 H1 H2. constructor; try done; [lia|].
  by destruct Hc as [-> |[-> | ->]].
Qed.

Lemma align_eq s w E a : cache_ok n s w E -> 0 <= a < 2 ^ 64 ->
  Z.land a (uint 64 (Z.lnot (Cache.blkSize s - 1))) = a / Cache.blkSize s * Cache.blkSize s.
Proof.
  intros Hok Ha. destruct (co_size _ _ _ _ Hok) as [<- _]. destruct (blkAlign_eq n _ a (co_wf _ _ _ _ Hok) Ha) as [H _].
  unfold blkAlign in H. by rewrite (wf_blkMask n _ (co_wf _ _ _ _ Hok)) in H.
Qed.

Definition line (s : Cache.t) (a : Z) : Z := a / Cache.blkSize s * Cache.blkSize s.

Lemma line_facts s w E a : cache_ok n s w E -> is_Some (memory s a) ->
  0 <= line s a /\ line s a + Cache.blkSize s <= 2 ^ 64 /\ line s a mod Cache.blkSize s = 0 /\
  line s a <= a < line s a + Cache.blkSize s /\
  forall i, line s a <= i < line s a + Cache.blkSize s -> i / Cache.blkSize s = a / Cache.blkSize s /\ is_Some (memory s i).
Proof.
  intros Hok Ha. pose proof (size_pos n s w E Hok) as Hp. pose proof (Z.div_mod a (Cache.blkSize s) ltac:(lia)) as D.
  pose proof (Z.mod_pos_bound a _ Hp) as B. pose proof (co_inmem _ _ _ _ Hok a Ha) as Ha64. unfold line.
  assert (forall i, a / Cache.blkSize s * Cache.blkSize s <= i < a / Cache.blkSize s * Cache.blkSize s + Cache.blkSize s ->
    i / Cache.blkSize s = a / Cache.blkSize s /\ is_Some (memory s i)) as Hl.
  { intros i Hi. assert (i / Cache.blkSize s = a / Cache.blkSize s) as Ei.
    { symmetry. apply (Z.div_unique_pos _ _ _ (i - a / Cache.blkSize s * Cache.blkSize s)); lia. }
    split; [done|]. by apply (co_aligned _ _ _ _ Hok a). }
  split_and!; try done; try lia.
  - apply Z.mul_nonneg_nonneg; [apply Z.div_pos|]; lia.
  - destruct (Hl (a / Cache.blkSize s * Cache.blkSize s + Cache.blkSize s - 1)) as [_ Hs]; [lia|].
    apply (co_inmem _ _ _ _ Hok) in Hs. lia.
  - by apply Z.mod_mul; lia.
Qed.

(** [getBusPacket] for a request of the CPU. *)
Lemma getBusPacket_ok s w E pkt a k blk ne cmd : cache_ok n s w E -> sized pkt a k -> is_Some (memory s a) ->
  Request.getPaddr (Packet.req pkt) = Ok a -> Request.isUncacheable (Packet.req pkt) = false ->
  (plain_read pkt \/ plain_write pkt) ->
  match blk with
  | None => cmd = if ne then MemCmd.ReadExReq else MemCmd.ReadReq
  | Some (Cache.InTags p) => ne = true /\ cmd = MemCmd.UpgradeReq /\ exists b, blks (Cache.tags s) !! p = Some b /\
      CacheBlk.isValid b = true /\ CacheBlk.isWritable b = false
  | Some Cache.TempBlk => False
  end ->
  let fb := alloc (Cache.bytes s) in
  Cache.getBusPacket alloc garbage gp now s pkt blk ne =
    Ok (Some (bus_pkt cmd (Packet.req pkt) fb (line s a) (Cache.blkSize s)),
        Cache.set_bytes s (<[fb := garbage (Cache.blkSize s)]> (Cache.bytes s))).
Proof.
  intros Hok Hsz Ha Hpa Hun Hcmd Hblk fb. pose proof (co_inmem _ _ _ _ Hok a Ha) as Ha64.
  destruct (co_size _ _ _ _ Hok) as [_ Hbs].
  assert (Hnew : forall c, Packet.new_block gp now (Packet.req pkt) c Packet.Broadcast (Cache.blkSize s) =
    Ok (Packet.mk 0xb00 c (Packet.req pkt) None (line s a) (Cache.blkSize s) (Packet.src gp) Packet.Broadcast
          MemCmd.InvalidCmd now (Packet.finishTime gp) (Packet.firstWordTime gp) None)).
  { intros c. unfold Packet.new_block. pose proof Hpa as Hpa'. unfold Request.getPaddr in Hpa'.
    apply res_bind_Ok in Hpa' as ([] & Hp%c_assert_Ok & _). unfold Request.hasPaddr. rewrite Hp, Hpa, bind_Ok.
    cbn [Packet.time Packet.size]. rewrite bind_Ok. cbn [Packet.addr Packet.set_range]. rewrite (align_eq s w E a Hok Ha64).
    rewrite uint_small by lia. reflexivity. }
  assert (Hnr : Packet.needsResponse pkt = true /\ bool_decide (Packet.cmd pkt = MemCmd.Writeback) = false /\
    bool_decide (Packet.cmd pkt = MemCmd.UpgradeReq) = false).
  { unfold Packet.needsResponse. destruct Hcmd as [-> | ->]; done. }
  destruct Hnr as (Hnr & Hw & Hu). unfold Cache.getBusPacket.
  destruct blk as [[p|]|]; [|done|].
  - destruct Hblk as (-> & -> & b & Hb & Hv & Hwr). simpl. rewrite Hb. cbn [at_index mbind res_bind].
    rewrite Hv, Hun. cbn [negb andb]. rewrite Hnr, Hwr. cbn [negb andb c_assert mbind res_bind]. rewrite Hnew. reflexivity.
  - cbn [mbind res_bind]. rewrite Hun, Hw, Hu. cbn [negb orb andb]. rewrite Hnr. cbn [c_assert mbind res_bind].
    subst cmd. rewrite Hnew. reflexivity.
Qed.

(** ** The memory below works *)
Lemma ok_peer s w E m' x' : cache_ok n s w E -> am_ok m' x' -> (forall b, am_owns x' b <-> am_owns (Cache.below s) b) ->
  (forall i, am_byte m' x' i = memory s i) ->
  (forall b, involved s w b -> ~ am_owns (Cache.below s) b -> m' !! b = Cache.bytes s !! b) ->
  let s' := Cache.set_below (Cache.set_bytes s m') x' in
  cache_ok n s' w E /\ (forall a, contents s' w a = contents s w a) /\ shell s s' /\ forall a, memory s' a = memory s a.
Proof.
  intros Hok Hx Ho Hby Hf s'. pose proof Hok as []. destruct co_below0 as [_ Hno].
  assert (Hm : forall a, memory s' a = memory s a) by exact Hby.
  assert (Hd : m' !! Cache.dataBlks s = Cache.bytes s !! Cache.dataBlks s) by (apply Hf; [by left|done]).
  assert (Hc : forall p a, cached s' p a = cached s p a) by (intros p a; unfold cached, Bytes.byte; simpl; by rewrite Hd).
  split_and!; try done.
  - constructor; simpl; try done.
    + by rewrite Hd.
    + split; [done|]. by rewrite Ho.
    + intros p k Hk Hv. destruct (co_line0 p k Hk Hv) as (a & ?). exists a. by rewrite Hm.
    + intros a p k Ha Hh Hk Hdk HE. rewrite Hc, Hm. by eapply co_clean0.
    + intros a a' Ha. rewrite !Hm. by apply co_aligned0.
    + intros a. rewrite Hm. apply co_inmem0.
    + intros y Hy. destruct (co_pending0 y Hy). constructor; simpl; try done.
      * apply (silent_frame (Cache.bytes s)); [done|]. destruct wo_apart0. apply Hf; [right; right; by exists y|done].
      * by rewrite Ho.
      * intros i Hi. rewrite Hm. by apply wo_range0.
  - intros a. unfold contents. simpl. destruct (findBlock (Cache.tags s) a) as [[p|]|]; [apply Hc|..];
      destruct w as [y|]; rewrite Hm; done.
Qed.

(** An array is taken for a packet. *)
Lemma fresh_apart s w E : cache_ok n s w E -> ~ involved s w (alloc (Cache.bytes s)).
Proof.
  intros Hok [H|[H|(x & Hx & H)]].
  - destruct (co_array _ _ _ _ Hok) as (arr & Ha & _). rewrite <- H, alloc_fresh in Ha. done.
  - destruct (am_exists _ _ _ (proj1 (co_below _ _ _ _ Hok)) H) as [l Hl]. by rewrite alloc_fresh in Hl.
  - pose proof (s_array _ _ _ _ _ _ _ (wo_silent _ _ (co_pending _ _ _ _ Hok x Hx))) as Ha.
    rewrite <- H, alloc_fresh in Ha. done.
Qed.

Lemma ok_alloc s w E l : cache_ok n s w E ->
  let s' := Cache.set_bytes s (<[alloc (Cache.bytes s) := l]> (Cache.bytes s)) in
  cache_ok n s' w E /\ (forall a, contents s' w a = contents s w a) /\ forall a, memory s' a = memory s a.
Proof.
  intros Hok s'. apply ok_frame; [done|]. intros b Hb. rewrite lookup_insert_ne; [done|].
  intros <-. by apply (fresh_apart s w E Hok).
Qed.

(** Asking for a block, or for the right to write it. *)
Record asked (s s2 : Cache.t) (w : option pending) (E : nat -> Prop) (fb : positive) : Prop := {
  ak_ok : cache_ok n s2 w E;
  ak_contents : forall x, contents s2 w x = contents s w x;
  ak_memory : forall x, memory s2 x = memory s x;
  ak_shell : shell s s2;
  ak_tags : Cache.tags s2 = Cache.tags s;
  ak_fresh : ~ involved s2 w fb /\ Cache.bytes s !! fb = None;
  ak_frame : forall b, b <> fb -> ~ involved s w b -> Cache.bytes s2 !! b = Cache.bytes s !! b;
  ak_mshrs : Cache.mshrs s2 = Cache.mshrs s /\ Cache.mshrQueue s2 = Cache.mshrQueue s
}.

Lemma involved_shell s s' w b : shell s s' -> involved s' w b <-> involved s w b.
Proof. intros []. unfold involved. rewrite sh_data0, sh_owns0. done. Qed.

Lemma read_below s w E cmd req a : cache_ok n s w E -> is_Some (memory s a) ->
  cmd = MemCmd.ReadReq \/ cmd = MemCmd.ReadExReq ->
  let fb := alloc (Cache.bytes s) in
  exists lat s2 dl, Cache.send (Cache.set_bytes s (<[fb := garbage (Cache.blkSize s)]> (Cache.bytes s)))
      (bus_pkt cmd req fb (line s a) (Cache.blkSize s)) = Ok (lat, s2, bus_resp cmd req fb (line s a) (Cache.blkSize s)) /\
    asked s s2 w E fb /\ Cache.bytes s2 !! fb = Some dl /\ Z.of_nat (length dl) = Cache.blkSize s /\
    forall o, 0 <= o < Cache.blkSize s -> dl !! Z.to_nat o = memory s2 (line s a + o).
Proof.
  intros Hok Ha Hcmd fb. destruct (co_size _ _ _ _ Hok) as [_ Hbs]. destruct (line_facts s w E a Hok Ha) as (L0 & L1 & _ & _ & L2).
  destruct (ok_alloc s w E (garbage (Cache.blkSize s)) Hok) as (Hok1 & Hc1 & Hm1).
  fold fb in Hok1, Hc1, Hm1. set (s1 := Cache.set_bytes s (<[fb := garbage (Cache.blkSize s)]> (Cache.bytes s))) in *.
  assert (bus_cmd cmd) as Hbc by (destruct Hcmd; [by left|by right; left]).
  assert (Hni : ~ involved s w fb) by apply (fresh_apart s w E Hok).
  destruct (am_read (Cache.bytes s1) (Cache.below s1) (bus_pkt cmd req fb (line s a) (Cache.blkSize s)) (line s a) (Cache.blkSize s) fb 0
    (garbage (Cache.blkSize s))) as (lat & m' & x' & r & dl & Hsend & Hresp & Hok' & Ho & Hby & Hf & Hdl & Hlen & Hi).
  - apply (co_below _ _ _ _ Hok1).
  - apply bus_carries; try done; [simpl; by rewrite lookup_insert_eq|apply garbage_length; lia|lia].
  - intros Hown. apply Hni. by right; left.
  - by destruct Hcmd as [-> | ->]; [left|right].
  - intros i Hir. change (is_Some (memory s1 i)). rewrite Hm1. by apply L2.
  - rewrite bus_response in Hresp by done. injection Hresp as <-.
    destruct (ok_peer s1 w E m' x' Hok1 Hok' Ho Hby) as (Hok2 & Hc2 & Hsh & Hm2).
    { intros b Hb Hnb. apply Hf; [|done]. intros ->. apply Hni. exact Hb. }
    exists lat, (Cache.set_below (Cache.set_bytes s1 m') x'), dl. unfold Cache.send. rewrite Hsend. split; [done|].
    split; [|split_and!; [done|by rewrite Hlen, garbage_length by lia|]].
    + constructor; try done.
      * intros x. by rewrite Hc2, Hc1.
      * intros x. by rewrite Hm2, Hm1.
      * split; [|apply alloc_fresh]. rewrite (involved_shell s1 _ w fb Hsh). exact Hni.
      * intros b Hb Hnb. simpl. rewrite Hf; [simpl; by rewrite lookup_insert_ne|done|]. intros Hown. apply Hnb. by right; left.
    + intros o Hor. rewrite Hi by lia. rewrite decide_True by lia. rewrite Z.sub_0_r, Hm2. done.
Qed.

Lemma upgrade_below s w E req a : cache_ok n s w E -> is_Some (memory s a) ->
  let fb := alloc (Cache.bytes s) in
  exists lat s2, Cache.send (Cache.set_bytes s (<[fb := garbage (Cache.blkSize s)]> (Cache.bytes s)))
      (bus_pkt MemCmd.UpgradeReq req fb (line s a) (Cache.blkSize s)) =
      Ok (lat, s2, bus_resp MemCmd.UpgradeReq req fb (line s a) (Cache.blkSize s)) /\ asked s s2 w E fb /\
    is_Some (Cache.bytes s2 !! fb).
Proof.
  intros Hok Ha fb. destruct (co_size _ _ _ _ Hok) as [_ Hbs]. destruct (line_facts s w E a Hok Ha) as (L0 & L1 & _ & _ & L2).
  destruct (ok_alloc s w E (garbage (Cache.blkSize s)) Hok) as (Hok1 & Hc1 & Hm1).
  fold fb in Hok1, Hc1, Hm1. set (s1 := Cache.set_bytes s (<[fb := garbage (Cache.blkSize s)]> (Cache.bytes s))) in *.
  assert (Hbc : bus_cmd MemCmd.UpgradeReq) by (by right; right).
  assert (Hni : ~ involved s w fb) by apply (fresh_apart s w E Hok).
  destruct (am_upgrade (Cache.bytes s1) (Cache.below s1) (bus_pkt MemCmd.UpgradeReq req fb (line s a) (Cache.blkSize s)) (line s a)
    (Cache.blkSize s) fb 0 (garbage (Cache.blkSize s))) as (lat & m' & x' & r & Hsend & Hresp & Hok' & Ho & Hby & Hf).
  - apply (co_below _ _ _ _ Hok1).
  - apply bus_carries; try done; [simpl; by rewrite lookup_insert_eq|apply garbage_length; lia|lia].
  - intros Hown. apply Hni. by right; left.
  - done.
  - intros i Hir. change (is_Some (memory s1 i)). rewrite Hm1. by apply L2.
  - rewrite bus_response in Hresp by done. injection Hresp as <-.
    destruct (ok_peer s1 w E m' x' Hok1 Hok' Ho Hby) as (Hok2 & Hc2 & Hsh & Hm2); [intros b _ Hnb; by apply Hf|].
    exists lat, (Cache.set_below (Cache.set_bytes s1 m') x'). unfold Cache.send. rewrite Hsend. split; [done|].
    assert (Hfb : ~ am_owns (Cache.below s1) fb) by (intros Hown; apply Hni; by right; left).
    split; [constructor; try done|].
    + intros x. by rewrite Hc2, Hc1.
    + intros x. by rewrite Hm2, Hm1.
    + split; [|apply alloc_fresh]. rewrite (involved_shell s1 _ w fb Hsh). exact Hni.
    + intros b Hb Hnb. simpl. rewrite Hf; [simpl; by rewrite lookup_insert_ne|]. intros Hown. apply Hnb. by right; left.
    + simpl. rewrite Hf by done. simpl. by rewrite lookup_insert_eq.
Qed.
End miss.
End CacheMiss.
