(* ===== verification/CacheFill.v ===== *)
(** * The cache replaces a block *)
From S2P Require Import Prelude EventQueue IntMath Request Packet CacheTags CacheTagsProof CacheTagsTheorems PacketTheorems PhysMem PhysMemTheorems Mshr Cache CacheInv CacheServe CacheMiss.
Import LRU CacheCore.

Module CacheFill.
Import CacheInv CacheStep CacheServe CacheMiss.
Section fill.
Context {P : AtomicPeer} {F : AtomicMemory P}.
Context (host : ByteSwap.ByteOrder) (alloc : Bytes.mem -> positive) (garbage : Z -> list Z).
Context (gp : Packet.t) (gr : Request.t) (n now : Z).
Context (alloc_fresh : forall m, m !! alloc m = None).
Context (garbage_length : forall k, 0 <= k -> Z.of_nat (length (garbage k)) = k).

Definition no_block (q : nat) : Prop := False.

(** ** Another line in the place of a block *)
Section replace.
Context (s : Cache.t) (a : Z) (p : nat) (k : core) (st : Z) (c3 : LRU.t).
Context (Hok : cache_ok n s None no_block).
Context (Ha : is_Some (memory s a)) (Hmiss : forall q, ~ holds (Cache.tags s) a q).
Context (Hk : cores (Cache.tags s) !! p = Some k) (Hset : set_of (Cache.tags s) p = Z.to_nat (extractSet (Cache.tags s) a)).
Context (Hc3 : wf n c3) (Hg : same_geom (Cache.tags s) c3).
Context (Ec : cores c3 = <[p := mkCore (extractTag (Cache.tags s) a) st (k_data k) (k_set k)]> (cores (Cache.tags s))).
Context (Hst : Z.land st needed = needed).

Lemma st_valid : negb (Z.land st CacheBlk.BlkValid =? 0) = true.
Proof.
  destruct (Z.eqb_spec (Z.land st CacheBlk.BlkValid) 0) as [E|]; [|done].
  apply (f_equal (fun z => Z.land z CacheBlk.BlkValid)) in Hst. rewrite <- Z.land_assoc in Hst.
  change (Z.land needed CacheBlk.BlkValid) with CacheBlk.BlkValid in Hst. rewrite E in Hst. done.
Qed.

Lemma replaced_lookup q x : cores c3 !! q = Some x ->
  (q = p /\ x = mkCore (extractTag (Cache.tags s) a) st (k_data k) (k_set k)) \/ (q <> p /\ cores (Cache.tags s) !! q = Some x).
Proof.
  rewrite Ec. destruct (decide (p = q)) as [<-|Hne].
  - rewrite list_lookup_insert_eq by by apply lookup_lt_Some in Hk. intros [= <-]. by left.
  - rewrite list_lookup_insert_ne by done. right. by split.
Qed.

Lemma replaced_here x : holds c3 x p <-> extractTag (Cache.tags s) x = extractTag (Cache.tags s) a /\
  extractSet (Cache.tags s) x = extractSet (Cache.tags s) a.
Proof.
  rewrite holds_core, Ec, (sg_set _ _ x Hg), (sg_tag _ _ x Hg), (sg_set_of _ _ p Hg).
  rewrite list_lookup_insert_eq by by apply lookup_lt_Some in Hk. split.
  - intros [H1 (y & [= <-] & H2 & _)]. split; [done|]. apply (extractSet_inj n _ x a (co_wf _ _ _ _ Hok)). congruence.
  - intros [H1 H2]. split; [congruence|]. eexists. split; [done|]. split; [done|]. apply st_valid.
Qed.

Lemma replaced_other x q : q <> p -> holds c3 x q <-> holds (Cache.tags s) x q.
Proof.
  intros Hne. rewrite !holds_core, Ec, (sg_set _ _ x Hg), (sg_tag _ _ x Hg), (sg_set_of _ _ q Hg).
  by rewrite list_lookup_insert_ne.
Qed.

Lemma replaced_unique : unique c3.
Proof.
  assert (Hmix : forall x q, q <> p -> holds c3 x p -> holds c3 x q -> False).
  { intros x q Hne H1 H2. apply replaced_here in H1 as [E1 E2]. apply (replaced_other x q Hne) in H2.
    apply (Hmiss q). destruct H2 as [H2 H3]. split; [congruence|]. by rewrite <- E1. }
  intros x q r Hq Hr. destruct (decide (q = p)) as [->|Hqp], (decide (r = p)) as [->|Hrp]; [done| | |].
  - by destruct (Hmix x r).
  - by destruct (Hmix x q).
  - apply (co_unique _ _ _ _ Hok x); [by apply (replaced_other x q)|by apply (replaced_other x r)].
Qed.

Lemma replaced_line x : 0 <= x < 2 ^ 64 -> holds c3 x p <-> x / Cache.blkSize s = a / Cache.blkSize s.
Proof.
  intros Hx. assert (holds c3 a p) as Hap by by apply replaced_here.
  rewrite (holds_same_line n c3 a x p Hc3 (co_inmem _ _ _ _ Hok a Ha) Hx Hap).
  rewrite (same_geom_size n _ c3 (co_wf _ _ _ _ Hok) Hc3 Hg). destruct (co_size _ _ _ _ Hok) as [-> _]. done.
Qed.

(** The old block: clean, or on its way down. *)
Definition evicted (m3 : Bytes.mem) (w : option pending) : Prop :=
  match w with
  | None => k_valid k = true -> k_dirty k = false
  | Some y => exists a0, 0 <= a0 < 2 ^ 64 /\ holds (Cache.tags s) a0 p /\ is_Some (memory s a0) /\ w_addr y = line s a0 /\
      silent m3 (w_pkt y) (w_addr y) (Cache.blkSize s) (w_buf y) 0 (w_data y) /\
      Z.of_nat (length (w_data y)) = Cache.blkSize s /\ Packet.cmd (w_pkt y) = MemCmd.Writeback /\
      Request.getPaddr (Packet.req (w_pkt y)) = Ok (w_addr y) /\ Request.isInstFetch (Packet.req (w_pkt y)) = false /\
      EvQ.isSet (Packet.flags (w_pkt y)) Packet.ARRAY_DATA = true /\ ~ involved s None (w_buf y) /\
      forall o, 0 <= o < Cache.blkSize s -> w_data y !! Z.to_nat o =
        Bytes.byte (Cache.bytes s) (Cache.dataBlks s) (Cache.blkSize s * Z.of_nat p + o)
  end.

Lemma held_old x a0 : 0 <= x < 2 ^ 64 -> 0 <= a0 < 2 ^ 64 -> holds (Cache.tags s) a0 p ->
  holds (Cache.tags s) x p <-> x / Cache.blkSize s = a0 / Cache.blkSize s.
Proof.
  intros Hx Ha0 Hh. rewrite (holds_same_line n _ a0 x p (co_wf _ _ _ _ Hok) Ha0 Hx Hh).
  destruct (co_size _ _ _ _ Hok) as [-> _]. done.
Qed.

(** The old line is not held any more. *)
Lemma old_gone x a0 q : 0 <= x < 2 ^ 64 -> 0 <= a0 < 2 ^ 64 -> holds (Cache.tags s) a0 p ->
  x / Cache.blkSize s = a0 / Cache.blkSize s -> ~ holds c3 x q.
Proof.
  intros Hx Ha0 Hh El Hq. pose proof (co_inmem _ _ _ _ Hok a Ha) as Ha64.
  assert (Hxp : holds (Cache.tags s) x p) by by apply (held_old x a0).
  destruct (decide (q = p)) as [->|Hne].
  - apply (replaced_line x Hx) in Hq. apply (Hmiss p). apply (held_old a a0 Ha64 Ha0 Hh). congruence.
  - apply (replaced_other x q Hne) in Hq. apply Hne. by apply (co_unique _ _ _ _ Hok x).
Qed.

Lemma replaced_pending m3 y : (forall b, involved s None b -> m3 !! b = Cache.bytes s !! b) -> evicted m3 (Some y) ->
  (forall x, memory (Cache.set_tags (Cache.set_bytes s m3) c3) x = memory s x) ->
  wb_ok (Cache.set_tags (Cache.set_bytes s m3) c3) y.
Proof.
  intros Hf (a0 & Ha0 & Hh & Hs0 & Ew & Hsil & Hl & Hcmd & Hp & Hif & Harr & Hni & Hdat) Hm.
  destruct (line_facts n s None no_block a0 Hok Hs0) as (L0 & L1 & L2 & L3 & L4).
  constructor; simpl; try done.
  - split; intros Hx; apply Hni; [by left|by right; left].
  - rewrite Ew. split; [|done]. pose proof (size_pos n s None no_block Hok). lia.
  - intros i Hi. rewrite Hm. apply L4. by rewrite <- Ew.
  - intros q. rewrite Ew. destruct (L4 (line s a0)) as [El _]; [pose proof (size_pos n s None no_block Hok); lia|].
    apply (old_gone (line s a0) a0); try done. pose proof (size_pos n s None no_block Hok). lia.
Qed.

Lemma ok_replace m3 w : (forall b, involved s None b -> m3 !! b = Cache.bytes s !! b) -> evicted m3 w ->
  let s3 := Cache.set_tags (Cache.set_bytes s m3) c3 in
  cache_ok n s3 w (eq p) /\ (forall x, memory s3 x = memory s x).
Proof.
  intros Hf He s3. pose proof Hok as []. pose proof (co_inmem0 a Ha) as Ha64.
  destruct (ok_frame n s None no_block m3 Hok Hf) as (Hok1 & _ & Hm).
  assert (Hm3 : forall x, memory s3 x = memory s x) by exact Hm. split; [|done].
  assert (Hcd : forall q x, cached s3 q x = cached s q x).
  { intros q x. unfold cached, Bytes.byte. simpl. rewrite Hf; [done|by left]. }
  constructor; simpl; try done.
  - apply replaced_unique.
  - by rewrite (same_geom_size n _ c3 co_wf0 Hc3 Hg).
  - intros q x [[-> ->]|[_ Hx]]%replaced_lookup; rewrite (sg_set_of _ _ _ Hg); [by apply (co_fixed0 p k)|by apply co_fixed0].
  - destruct co_array0 as (arr & Harr & Hlen). exists arr. rewrite Hf by by left. by rewrite (sg_blks _ _ Hg).
  - destruct (co_below _ _ _ _ Hok1). done.
  - intros q x [[-> ->]|[_ Hx]]%replaced_lookup Hv; [by apply Z.eqb_eq|by eapply co_readable0].
  - intros q x [[-> ->]|[Hne Hx]]%replaced_lookup Hv.
    + exists a. rewrite Hm3, replaced_here. done.
    + destruct (co_line0 q x Hx Hv) as (b & Hb & Hh & Hs). exists b. rewrite Hm3, (replaced_other b q Hne). done.
  - intros b q x Hb Hh Hx Hd Hne. assert (q <> p) as Hqp by congruence. rewrite Hcd, Hm3.
    apply (replaced_other b q Hqp) in Hh. apply replaced_lookup in Hx as [[? _]|[_ Hx]]; [done|]. apply (co_clean0 b q x); try done. by intros [].
  - intros b b' Hb. rewrite !Hm3. by apply co_aligned0.
  - intros b. rewrite Hm3. apply co_inmem0.
  - intros y ->. by apply replaced_pending.
Qed.

(** The other lines have the bytes they had. *)
Lemma replace_contents m3 w x : (forall b, involved s None b -> m3 !! b = Cache.bytes s !! b) -> evicted m3 w ->
  0 <= x < 2 ^ 64 -> x / Cache.blkSize s <> a / Cache.blkSize s ->
  contents (Cache.set_tags (Cache.set_bytes s m3) c3) w x = contents s None x.
Proof.
  intros Hf He Hx Hne. destruct (ok_replace m3 w Hf He) as [Hok3 Hm]. set (s3 := Cache.set_tags (Cache.set_bytes s m3) c3) in *.
  pose proof Hok as []. destruct (findBlock_holds n (Cache.tags s) x co_wf0) as ([q|] & _ & Hr).
  - rewrite (contents_held n s None no_block x q Hok Hr). destruct (decide (q = p)) as [->|Hqp].
    + rewrite (contents_miss n s3 w (eq p) x Hok3) by (intros r; by apply (old_gone x x)). destruct w as [y|].
      * destruct He as (a0 & Ha0 & Hh & Hs0 & Ew & _ & _ & _ & _ & _ & _ & _ & Hdat).
        pose proof (proj1 (held_old x a0 Hx Ha0 Hh) Hr) as El.
        assert (line s a0 = line s x) as Eline by (unfold line; by rewrite El).
        pose proof (size_pos n s None no_block Hok) as Hpos. pose proof (Z.div_mod x (Cache.blkSize s) ltac:(lia)) as D.
        pose proof (Z.mod_pos_bound x _ Hpos) as B. unfold line in Eline, Ew.
        rewrite decide_True by (simpl; lia). rewrite Hdat by lia. unfold cached. do 2 f_equal. lia.
      * rewrite Hm. symmetry. apply holds_core in Hr as Hr'. destruct Hr' as [_ (k0 & Hk0 & _ & Hv)].
        assert (k0 = k) as -> by congruence. apply (co_clean0 x p k); try done; [by apply He|by intros []].
    + rewrite (contents_held n s3 w (eq p) x q Hok3) by by apply (replaced_other x q Hqp).
      unfold cached, Bytes.byte. simpl. rewrite Hf; [done|by left].
  - rewrite (contents_miss n s None no_block x Hok Hr). rewrite (contents_miss n s3 w (eq p) x Hok3).
    + destruct w as [y|]; [|done]. rewrite decide_False; [done|]. intros Hxr.
      destruct He as (a0 & Ha0 & Hh & Hs0 & Ew & _). destruct (line_facts n s None no_block a0 Hok Hs0) as (_ & _ & _ & _ & L4).
      rewrite Ew in Hxr. destruct (L4 x Hxr) as [El _]. apply (Hr p). by apply (held_old x a0).
    + intros q Hq. destruct (decide (q = p)) as [->|Hqp]; [by apply (replaced_line x Hx) in Hq|].
      apply (Hr q). by apply (replaced_other x q Hqp).
Qed.
End replace.

(** ** Writing a block back *)
Definition wb_req (al size : Z) : Request.t :=
  Request.mk al size 0 3 now (Request._asid gr) (Request._vaddr gr) (Request._extraData gr) (Request._contextId gr)
    (Request._threadId gr) (Request._pc gr).

Lemma wb_packet al size : 0 <= size < 2 ^ 32 ->
  Request.new_phys now gr al size 0 = Ok (wb_req al size) /\
  Packet.new gp now (wb_req al size) MemCmd.Writeback (-1) =
    Ok (Packet.mk 0xb00 MemCmd.Writeback (wb_req al size) None al size (Packet.src gp) (-1) MemCmd.InvalidCmd now
          (Packet.finishTime gp) (Packet.firstWordTime gp) None).
Proof.
  intros Hs. split.
  - unfold Request.new_phys, Request.setPhys_now, Request.setPhys. replace (0 <=? size) with true by lia. reflexivity.
  - transitivity (Ok (Packet.mk 0xb00 MemCmd.Writeback (wb_req al size) None al (uint 32 size) (Packet.src gp) (-1)
      MemCmd.InvalidCmd now (Packet.finishTime gp) (Packet.firstWordTime gp) None)); [reflexivity|]. by rewrite uint_small.
Qed.

Lemma old_address s p b : cache_ok n s None no_block -> blks (Cache.tags s) !! p = Some b -> CacheBlk.isValid b = true ->
  exists a0, 0 <= a0 < 2 ^ 64 /\ holds (Cache.tags s) a0 p /\ is_Some (memory s a0) /\
    regenerateBlkAddr (Cache.tags s) (CacheBlk.tag b) (uint 32 (CacheBlk.set b)) = line s a0.
Proof.
  intros Hok Hb Hv. pose proof (cores_lookup _ _ _ Hb) as Hk. pose proof (co_wf _ _ _ _ Hok) as Hc.
  destruct (co_line _ _ _ _ Hok p (core_of b) Hk Hv) as (a0 & Ha0 & Hh & Hs). exists a0. do 3 (split; [done|]).
  destruct (co_fixed _ _ _ _ Hok p (core_of b) Hk) as [_ Hset]. simpl in Hset. destruct Hh as [H1 (b' & Hb' & H2 & _)].
  assert (b' = b) as -> by congruence. destruct (extractSet_mod n _ a0 Hc) as [_ Hr].
  destruct (wf_numSets n _ Hc) as (j & Hj & Ej & _). assert (2 ^ j < 2 ^ 32) by (apply Z.pow_lt_mono_r; lia).
  rewrite H2, Hset, H1, Z2Nat.id, uint_small by lia.
  destruct (address_split n _ a0 a0 Hc Ha0 Ha0) as (E1 & _ & _). rewrite E1.
  destruct (blkAlign_eq n _ a0 Hc Ha0) as [E2 _]. rewrite E2. destruct (co_size _ _ _ _ Hok) as [-> _]. done.
Qed.

Lemma clear_dirty st : Z.land st needed = needed ->
  Z.land (Z.land st (uint 32 (Z.lnot CacheBlk.BlkDirty))) needed = needed.
Proof. intros H. by rewrite <- Z.land_assoc. Qed.

(** The block is copied into a packet and marked clean. *)
Lemma writebackBlk_ok s p b : cache_ok n s None no_block -> blks (Cache.tags s) !! p = Some b ->
  CacheBlk.isValid b = true -> CacheBlk.isDirty b = true ->
  let fb := alloc (Cache.bytes s) in
  exists y m3 c1, Cache.writebackBlk alloc garbage gp gr now s (Cache.InTags p) =
      Ok (w_pkt y, Cache.set_tags (Cache.set_bytes s m3) c1) /\ w_pkt y = bus_pkt gp now MemCmd.Writeback (wb_req (w_addr y) (Cache.blkSize s)) fb (w_addr y) (Cache.blkSize s) /\
    (forall b, b <> fb -> m3 !! b = Cache.bytes s !! b) /\
    evicted s p (core_of b) m3 (Some y) /\ w_buf y = fb /\ wf n c1 /\ same_geom (Cache.tags s) c1 /\
    exists st, cores c1 = <[p := mkCore (CacheBlk.tag b) st (CacheBlk.data b) (CacheBlk.set b)]> (cores (Cache.tags s)) /\
      blks c1 !! p = Some (CacheBlk.set_status b st).
Proof.
  intros Hok Hb Hv Hd fb. pose proof (size_pos n s None no_block Hok) as Hpos. destruct (co_size _ _ _ _ Hok) as [_ Hbs].
  destruct (old_address s p b Hok Hb Hv) as (a0 & Ha0 & Hh & Hs0 & Eaddr).
  destruct (line_facts n s None no_block a0 Hok Hs0) as (L0 & L1 & L2 & L3 & L4).
  destruct (co_array _ _ _ _ Hok) as (arr & Harr & Hlen). assert (Hpl : (p < length (blks (Cache.tags s)))%nat) by by apply lookup_lt_Some in Hb.
  assert (Hdat : CacheBlk.data b = Cache.blkSize s * Z.of_nat p) by apply (co_fixed _ _ _ _ Hok p (core_of b) (cores_lookup _ _ _ Hb)).
  assert (Hni : ~ involved s None fb) by apply (fresh_apart alloc n alloc_fresh s None no_block Hok).
  set (m1 := <[fb := garbage (Cache.blkSize s)]> (Cache.bytes s)).
  destruct (Bytes.memcpy_ok m1 fb 0 (Cache.dataBlks s) (Cache.blkSize s * Z.of_nat p) (Cache.blkSize s) (garbage (Cache.blkSize s)) arr)
    as (l & Hcpy & Hl & Hi).
  { unfold m1. by rewrite lookup_insert_eq. }
  { unfold m1. rewrite lookup_insert_ne; [done|]. intros Efb. apply Hni. by left. }
  { lia. } { lia. } { rewrite garbage_length by lia. lia. } { nia. } { nia. }
  set (m3 := <[fb := l]> m1) in *.
  assert (Hfr : forall b, b <> fb -> m3 !! b = Cache.bytes s !! b) by (intros x Hx; unfold m3, m1; by rewrite !lookup_insert_ne).
  destruct (ok_frame n s None no_block m3 Hok) as (Hok1 & _ & _).
  { intros x Hx. apply Hfr. intros ->. done. }
  destruct (upd_blk_ok n (Cache.set_bytes s m3) None no_block p b (fun x => CacheBlk.set_status x
    (Z.land (CacheBlk.status x) (uint 32 (Z.lnot CacheBlk.BlkDirty)))) Hok1 Hb) as (c1 & Hu & Hc1 & Hg1 & Hb1 & Ec1); [done|].
  set (pk := bus_pkt gp now MemCmd.Writeback (wb_req (line s a0) (Cache.blkSize s)) fb (line s a0) (Cache.blkSize s)).
  exists (mkPending pk (line s a0) fb l), m3, c1. split_and!; try done.
  - assert (Cache.get_blk s (Cache.InTags p) = Ok b) as Hgb by (simpl; by rewrite Hb).
    assert (Cache.blk_data s (Cache.InTags p) = Ok (Cache.dataBlks s, Cache.blkSize s * Z.of_nat p)) as Hptr
      by (simpl; rewrite Hb; simpl; by rewrite Hdat).
    destruct (wb_packet (line s a0) (Cache.blkSize s)) as [E1 E2]; [lia|].
    unfold Cache.writebackBlk. rewrite Hgb, bind_Ok, Hv, Hd. cbn [andb c_assert]. rewrite bind_Ok, Eaddr, E1, bind_Ok, E2, bind_Ok.
    unfold Packet.allocate. cbn [Packet.data]. change (EvQ.noneSet _ _) with true. cbn [c_assert]. rewrite bind_Ok.
    change (Packet.getSize _) with (Ok (A:=Z) (Cache.blkSize s)). rewrite !bind_Ok. fold fb. fold m1.
    change (Packet.getPtr _) with (Ok (Some (fb, 0))). rewrite bind_Ok, Hptr, bind_Ok, Hcpy, bind_Ok.
    unfold Cache.clear_status. fold m3. rewrite Hu, bind_Ok. reflexivity.
  - exists a0. simpl. assert (length l = length (garbage (Cache.blkSize s))) as Hl' by exact Hl.
    assert (Z.of_nat (length l) = Cache.blkSize s) as Hl2 by (rewrite Hl'; apply garbage_length; lia).
    split_and!; try done; try lia.
    + constructor; [constructor; [done..|lia]|done|done|unfold m3; by rewrite lookup_insert_eq|lia|done].
    + intros o Ho. rewrite <- (Z.add_0_l o) at 1. rewrite Hi by lia. rewrite decide_True by lia. unfold Bytes.byte. rewrite Harr. simpl.
      replace (0 <=? Cache.blkSize s * Z.of_nat p + o) with true by nia. f_equal. lia.
  - exists (Z.land (CacheBlk.status b) (uint 32 (Z.lnot CacheBlk.BlkDirty))). by split.
Qed.

(** ** Making room *)
Definition wbs (w : option pending) : list Packet.t := match w with Some y => [w_pkt y] | None => [] end.

(** [s0] is the cache once the victim is chosen, [s1] once it is ready to go. *)
Lemma allocateBlock_ok s a : cache_ok n s None no_block ->
  exists p b w c0 s1 st, let s0 := Cache.set_tags s c0 in
    Cache.allocateBlock alloc garbage gp gr n now s a [] = Ok (Some (Cache.InTags p), wbs w, s1) /\
    cache_ok n s0 None no_block /\ (forall x, contents s0 None x = contents s None x) /\
    same_geom (Cache.tags s) c0 /\ cores c0 = cores (Cache.tags s) /\
    blks c0 !! p = Some b /\ set_of c0 p = Z.to_nat (extractSet c0 a) /\
    s1 = Cache.set_tags (Cache.set_bytes s (Cache.bytes s1)) (Cache.tags s1) /\
    wf n (Cache.tags s1) /\ same_geom c0 (Cache.tags s1) /\
    cores (Cache.tags s1) = <[p := mkCore (CacheBlk.tag b) st (CacheBlk.data b) (CacheBlk.set b)]> (cores c0) /\
    (forall x, (forall y, w = Some y -> x <> w_buf y) -> Cache.bytes s1 !! x = Cache.bytes s !! x) /\
    evicted s0 p (core_of b) (Cache.bytes s1) w /\
    (forall y, w = Some y -> Cache.bytes s !! w_buf y = None).
Proof.
  intros Hok. pose proof (co_wf _ _ _ _ Hok) as Hc.
  destruct (victim_ok n (Cache.tags s) a Hc) as (p & c0 & ptrs & Hv & Hc0 & Hg0 & Es & Hl & Hlast & _).
  pose proof (victim_cores _ _ _ _ _ Hv) as Ec0.
  destruct (ok_tags n s None no_block c0 Hok Hc0 Hg0 Ec0) as [Hok0 Hcont0]. set (s0 := Cache.set_tags s c0) in *.
  assert (Hin : p ∈ ptrs) by by apply last_Some_elem_of.
  assert (Hset : set_of c0 p = Z.to_nat (extractSet c0 a)).
  { rewrite (sg_set_of _ _ p Hg0), (sg_set _ _ a Hg0). by apply (elem_of_set n (Cache.tags s) _ ptrs p Hc Hl). }
  assert (exists b, blks c0 !! p = Some b) as [b Hb].
  { destruct (set_NoDup n (Cache.tags s) _ ptrs Hc Hl) as (_ & _ & Hall). rewrite Forall_forall in Hall.
    apply lookup_lt_is_Some_2. rewrite (sg_blks _ _ Hg0). by apply Hall. }
  assert (Hgb : Cache.get_blk s0 (Cache.InTags p) = Ok b) by (simpl; by rewrite Hb).
  unfold Cache.allocateBlock. rewrite Hv, bind_Ok. fold s0. rewrite Hgb, bind_Ok.
  assert (Hself : s0 = Cache.set_tags (Cache.set_bytes s (Cache.bytes s0)) (Cache.tags s0)) by by destruct s.
  assert (Hcores : cores c0 = <[p := mkCore (CacheBlk.tag b) (CacheBlk.status b) (CacheBlk.data b) (CacheBlk.set b)]> (cores c0)).
  { symmetry. apply list_insert_id. by apply (cores_lookup c0 p b). }
  destruct (CacheBlk.isValid b) eqn:Hvb.
  2:{ exists p, b, None, c0, s0, (CacheBlk.status b). split_and!; try done. intros Hx. change (CacheBlk.isValid b = true) in Hx. congruence. }
  unfold MSHRQueue.findMatch. rewrite (co_mshr _ _ _ _ Hok0). cbn [MSHRQueue.find_match]. rewrite bind_Ok.
  destruct (CacheBlk.isDirty b) eqn:Hdb.
  - destruct (writebackBlk_ok s0 p b Hok0 Hb Hvb Hdb) as (y & m3 & c1 & E & _ & Hfr & Hev & Ebuf & Hc1 & Hg1 & st & Ec1 & _).
    rewrite E, bind_Ok. exists p, b, (Some y), c0, (Cache.set_tags (Cache.set_bytes s0 m3) c1), st. split_and!; try done.
    + intros x Hx. simpl. apply Hfr. rewrite <- Ebuf. by apply Hx.
    + intros y' [= <-]. rewrite Ebuf. apply alloc_fresh.
  - exists p, b, None, c0, s0, (CacheBlk.status b). split_and!; try done. intros _. exact Hdb.
Qed.

(** ** The fill *)
Definition filled_status := Z.lor CacheBlk.BlkValid (Z.lor CacheBlk.BlkReadable CacheBlk.BlkWritable).

(** The victim gets the new line and its status; its bytes are still the old ones. *)
Lemma insert_filled s1 c0 a p b st ctx : wf n c0 -> wf n (Cache.tags s1) -> same_geom c0 (Cache.tags s1) ->
  blks c0 !! p = Some b -> set_of c0 p = Z.to_nat (extractSet c0 a) -> -1 <= ctx ->
  cores (Cache.tags s1) = <[p := mkCore (CacheBlk.tag b) st (CacheBlk.data b) (CacheBlk.set b)]> (cores c0) ->
  exists c2 c3, insertBlock n now (Cache.tags s1) a p ctx = Ok c2 /\
    Cache.upd_blk (Cache.set_tags s1 c2) (Cache.InTags p) (fun x => CacheBlk.set_status x filled_status) = Ok (Cache.set_tags s1 c3) /\
    wf n c3 /\ same_geom c0 c3 /\
    cores c3 = <[p := mkCore (extractTag c0 a) filled_status (CacheBlk.data b) (CacheBlk.set b)]> (cores c0).
Proof.
  intros Hc0 Hc1 Hg Hb Hset Hctx Ec1.
  assert (Hlt : (p < length (cores c0))%nat) by (by apply cores_lookup, lookup_lt_Some in Hb).
  destruct (cores_inv (Cache.tags s1) p (mkCore (CacheBlk.tag b) st (CacheBlk.data b) (CacheBlk.set b))) as (b1 & Hb1 & Eb1).
  { rewrite Ec1. by apply list_lookup_insert_eq. }
  destruct (insert_ok n now (Cache.tags s1) a p ctx b1 Hc1 Hb1) as (c2 & Hi & Hc2 & Hg2 & _); [|done|].
  { by rewrite (sg_set_of _ _ p Hg), (sg_set _ _ a Hg). }
  pose proof (insert_cores _ _ _ _ _ _ _ b1 Hi Hb1) as Ec2. rewrite Ec1, list_insert_insert_eq, (sg_tag _ _ a Hg) in Ec2.
  injection Eb1 as E1 E2 E3 E4. rewrite E2, E3, E4 in Ec2.
  destruct (cores_inv c2 p (mkCore (extractTag c0 a) st (CacheBlk.data b) (CacheBlk.set b))) as (b2 & Hb2 & Eb2).
  { rewrite Ec2. by apply list_lookup_insert_eq. }
  destruct (only_blk_upd n c2 p b2 (fun x => CacheBlk.set_status x filled_status) Hc2 Hb2) as (c3 & Hu & Hc3 & Hg3 & _).
  { apply (lookup_ctx n c2 p b2 Hc2 Hb2). }
  exists c2, c3. split; [done|]. split; [simpl; by rewrite Hu|]. split; [done|]. split; [by etrans; [|etrans]|].
  apply upd_cores in Hu as (b2' & Hb2' & Ec3 & _). assert (b2' = b2) as -> by congruence.
  rewrite Ec3, Ec2, list_insert_insert_eq. injection Eb2 as F1 F2 F3 F4. unfold core_of. simpl. by rewrite F1, F3, F4.
Qed.

(** The data arrives: the block is clean. *)
Lemma data_arrives s3 w p a fb dl b3 : cache_ok n s3 w (eq p) -> holds (Cache.tags s3) a p -> is_Some (memory s3 a) ->
  a mod Cache.blkSize s3 = 0 -> blks (Cache.tags s3) !! p = Some b3 -> fb <> Cache.dataBlks s3 ->
  Cache.bytes s3 !! fb = Some dl -> Z.of_nat (length dl) = Cache.blkSize s3 ->
  (forall o, 0 <= o < Cache.blkSize s3 -> dl !! Z.to_nat o = memory s3 (a + o)) ->
  exists m4, Bytes.memcpy (Cache.bytes s3) (Some (Cache.dataBlks s3, Cache.blkSize s3 * Z.of_nat p)) (Some (fb, 0)) (Cache.blkSize s3) = Ok m4 /\
    cache_ok n (Cache.set_bytes s3 m4) w no_block /\ (forall x, memory (Cache.set_bytes s3 m4) x = memory s3 x) /\
    (forall x, x <> Cache.dataBlks s3 -> m4 !! x = Cache.bytes s3 !! x) /\
    forall x, 0 <= x < 2 ^ 64 -> contents (Cache.set_bytes s3 m4) w x =
      if decide (x / Cache.blkSize s3 = a / Cache.blkSize s3) then memory s3 x else contents s3 w x.
Proof.
  intros Hok Hh Ha Ham Hb Hne Hfb Hlen Hdl. pose proof (size_pos n s3 w (eq p) Hok) as Hpos. pose proof (co_inmem _ _ _ _ Hok a Ha) as Ha64.
  destruct (co_array _ _ _ _ Hok) as (arr & Harr & Hal). assert (Hpl : (p < length (blks (Cache.tags s3)))%nat) by by apply lookup_lt_Some in Hb.
  destruct (Bytes.memcpy_ok (Cache.bytes s3) (Cache.dataBlks s3) (Cache.blkSize s3 * Z.of_nat p) fb 0 (Cache.blkSize s3) arr dl)
    as (arr' & Hcpy & Hl' & Hi); [done|done|lia|nia|nia|lia|lia|].
  destruct (ok_data n s3 w (eq p) p (core_of b3) a 0 (Cache.blkSize s3) (fun o => dl !! Z.to_nat o) arr arr') as (Hok4 & Hm4 & Hc4);
    try done; try lia; [by apply cores_lookup|..].
  { intros i Hi0. by rewrite Hi, !Z.add_0_r by done. }
  exists (<[Cache.dataBlks s3 := arr']> (Cache.bytes s3)). set (s4 := Cache.set_bytes s3 _) in *.
  assert (Hline : forall x, x / Cache.blkSize s3 = a / Cache.blkSize s3 -> dl !! Z.to_nat (x mod Cache.blkSize s3) = memory s3 x).
  { intros x Hx. pose proof (Z.mod_pos_bound x _ Hpos). rewrite Hdl by lia. f_equal.
    pose proof (Z.div_mod x (Cache.blkSize s3) ltac:(lia)). pose proof (Z.div_mod a (Cache.blkSize s3) ltac:(lia)). rewrite Hx in *. lia. }
  assert (Hc5 : forall x, 0 <= x < 2 ^ 64 -> contents s4 w x =
      if decide (x / Cache.blkSize s3 = a / Cache.blkSize s3) then memory s3 x else contents s3 w x).
  { intros x Hx. rewrite (Hc4 x Hx). pose proof (Z.mod_pos_bound x _ Hpos).
    destruct (decide (x / Cache.blkSize s3 = a / Cache.blkSize s3)) as [El|El].
    - rewrite decide_True by (split; [done|lia]). by apply Hline.
    - rewrite decide_False; [done|]. intros [? _]. done. }
  split; [exact Hcpy|]. split; [|split; [exact Hm4|split; [intros x Hx; by rewrite lookup_insert_ne|exact Hc5]]].
  apply (ok_clean n s4 w (eq p) no_block p Hok4); [congruence|]. intros x Hx Hxp.
  rewrite <- (contents_held n s4 w (eq p) x p Hok4 Hxp), (Hc5 x Hx), Hm4.
  rewrite decide_True; [done|]. apply (holds_same_line n _ a x p (co_wf _ _ _ _ Hok) Ha64 Hx Hh) in Hxp.
  by destruct (co_size _ _ _ _ Hok) as [<- _].
Qed.

Definition context_ok (req : Request.t) : Prop := Request.hasContextId req = true -> -1 <= Request._contextId req.

Lemma context_of_ok pkt : context_ok (Packet.req pkt) -> exists ctx, Cache.context_of pkt = Ok ctx /\ -1 <= ctx.
Proof.
  intros H. unfold Cache.context_of. destruct (Request.hasContextId (Packet.req pkt)) eqn:E; [|by exists (-1)].
  exists (Request._contextId (Packet.req pkt)). split; [by apply CacheBlk.contextId_ok|by apply H].
Qed.

(** A miss is filled: nothing changes but where the bytes are. *)
Record filled (s s' : Cache.t) (w : option pending) (a : Z) (p : nat) : Prop := {
  fl_ok : cache_ok n s' w no_block;
  fl_contents : forall x, 0 <= x < 2 ^ 64 -> contents s' w x = contents s None x;
  fl_memory : forall x, memory s' x = memory s x;
  fl_holds : holds (Cache.tags s') a p;
  fl_shell : shell s s';
  fl_frame : forall b, b <> Cache.dataBlks s -> (forall y, w = Some y -> b <> w_buf y) -> Cache.bytes s' !! b = Cache.bytes s !! b;
  fl_buf : forall y, w = Some y -> Cache.bytes s !! w_buf y = None
}.

Lemma handleFill_miss s cmd req fb a dl : cache_ok n s None no_block -> is_Some (memory s a) ->
  (forall q, ~ holds (Cache.tags s) a q) -> a mod Cache.blkSize s = 0 ->
  cmd = MemCmd.ReadReq \/ cmd = MemCmd.ReadExReq -> context_ok req ->
  ~ involved s None fb -> Cache.bytes s !! fb = Some dl -> Z.of_nat (length dl) = Cache.blkSize s ->
  (forall o, 0 <= o < Cache.blkSize s -> dl !! Z.to_nat o = memory s (a + o)) ->
  exists p w s', Cache.handleFill alloc garbage gp gr n now s (bus_resp gp now cmd req fb a (Cache.blkSize s)) None [] =
      Ok (Cache.InTags p, wbs w, s') /\ filled s s' w a p.
Proof.
  intros Hok Ha Hmiss Ham Hcmd Hctx Hni Hfb Hlen Hdl. pose proof (co_inmem _ _ _ _ Hok a Ha) as Ha64.
  destruct (allocateBlock_ok s a Hok) as (p & b & w & c0 & s1 & st & Hall & Hok0 & Hcont0 & Hg0 & Ec0 & Hb & Hset & Hs1 & Hc1 & Hg1 & Ec1 & Hfr0 & Hev & Hbuf).
  assert (Hfr : forall x, is_Some (Cache.bytes s !! x) -> Cache.bytes s1 !! x = Cache.bytes s !! x).
  { intros x [l Hx]. apply Hfr0. intros y Hy ->. rewrite (Hbuf y Hy) in Hx. done. }
  set (s0 := Cache.set_tags s c0) in *. set (r := bus_resp gp now cmd req fb a (Cache.blkSize s)).
  destruct (context_of_ok r Hctx) as (ctx & Hid & Hctx').
  destruct (insert_filled s1 c0 a p b st ctx (co_wf _ _ _ _ Hok0) Hc1 Hg1 Hb Hset Hctx' Ec1) as (c2 & c3 & Hins & Hupd & Hc3 & Hg3 & Ec3).
  set (s3 := Cache.set_tags s1 c3) in *.
  assert (Es3 : s3 = Cache.set_tags (Cache.set_bytes s0 (Cache.bytes s1)) c3) by (unfold s3; by rewrite Hs1).
  assert (Hinv : forall x, involved s0 None x -> Cache.bytes s1 !! x = Cache.bytes s0 !! x).
  { intros x Hx. apply Hfr. destruct Hx as [->|[Hx|(y & ? & _)]]; [|by apply (am_exists _ _ _ (proj1 (co_below _ _ _ _ Hok)) Hx)|done].
    destruct (co_array _ _ _ _ Hok) as (arr & Harr & _). by exists arr. }
  assert (Hmiss0 : forall q, ~ holds (Cache.tags s0) a q) by (intros q Hq; apply (Hmiss q); by apply (holds_cores (Cache.tags s) c0 a q Hg0 Ec0)).
  assert (Hk0 : cores (Cache.tags s0) !! p = Some (core_of b)) by by apply cores_lookup.
  destruct (ok_replace s0 a p (core_of b) filled_status c3 Hok0 Ha Hmiss0 Hk0 Hset Hc3 Hg3 Ec3 eq_refl (Cache.bytes s1) w Hinv Hev) as [Hok3 Hm3].
  pose proof (replace_contents s0 a p (core_of b) filled_status c3 Hok0 Ha Hmiss0 Hk0 Hset Hc3 Hg3 Ec3 eq_refl (Cache.bytes s1) w) as Hcont3.
  rewrite <- Es3 in Hok3, Hm3, Hcont3.
  assert (Hh3 : holds (Cache.tags s3) a p).
  { apply (replaced_here s0 a p (core_of b) filled_status c3 Hok0 Hk0 Hset Hg3 Ec3 eq_refl a). done. }
  destruct (cores_inv c3 p (mkCore (extractTag c0 a) filled_status (CacheBlk.data b) (CacheBlk.set b))) as (b3 & Hb3 & Eb3).
  { rewrite Ec3. apply list_lookup_insert_eq. by apply lookup_lt_Some in Hk0. }
  assert (Hfb1 : Cache.bytes s3 !! fb = Some dl) by (change (Cache.bytes s1 !! fb = Some dl); rewrite Hfr; [done|by exists dl]).
  assert (Hsz3 : Cache.blkSize s3 = Cache.blkSize s /\ Cache.dataBlks s3 = Cache.dataBlks s) by by rewrite Es3.
  destruct Hsz3 as [Hsz3 Hdb3].
  destruct (data_arrives s3 w p a fb dl b3 Hok3 Hh3) as (m4 & Hcpy & Hok4 & Hm4 & Hfr4 & Hc4).
  { by rewrite Hm3. } { by rewrite Hsz3. } { done. }
  { rewrite Hdb3. intros ->. apply Hni. by left. } { done. } { by rewrite Hsz3. }
  { intros o Ho. rewrite Hm3. apply Hdl. by rewrite <- Hsz3. }
  set (s4 := Cache.set_bytes s3 m4) in *.
  set (ready := fun x => CacheBlk.mk (CacheBlk.asid x) (CacheBlk.tag x) (CacheBlk.data x) (CacheBlk.size x)
                     (CacheBlk.status x) (Packet.finishTime r) (CacheBlk.set x) (CacheBlk.isTouched x)
                     (CacheBlk.refCount x) (CacheBlk.contextSrc x) (CacheBlk.lockList x)).
  destruct (upd_blk_ok n s4 w no_block p b3 ready Hok4 Hb3) as (c5 & Hu5 & Hc5 & Hg5 & _ & Ec5); [done|].
  change (core_of (ready b3)) with (core_of b3) in Ec5. rewrite list_insert_id in Ec5 by by apply (cores_lookup c3).
  destruct (ok_tags n s4 w no_block c5 Hok4 Hc5 Hg5 Ec5) as [Hok5 Hcont5].
  exists p, w, (Cache.set_tags s4 c5). split.
  - assert (Hptr : Cache.blk_data s3 (Cache.InTags p) = Ok (Cache.dataBlks s3, Cache.blkSize s3 * Z.of_nat p)).
    { simpl. rewrite Hb3. cbn [at_index mbind res_bind]. do 2 f_equal.
      destruct (co_fixed _ _ _ _ Hok3 p (core_of b3) (cores_lookup _ _ _ Hb3)) as [Hd _]. exact Hd. }
    assert (Packet.hasData r = true /\ Packet.sharedAsserted r = false /\ Packet.isRead r = true /\
      Packet.getAddr r = Ok a /\ Packet.getPtr r = Ok (Some (fb, 0))) as (R1 & R2 & R3 & R4 & R5)
      by (destruct Hcmd as [-> | ->]; done).
    unfold Cache.handleFill. rewrite R4, bind_Ok, R1. cbn [c_assert]. rewrite bind_Ok, Hall, !bind_Ok, Hid, bind_Ok, Hins, !bind_Ok, R2.
    cbn [negb]. fold filled_status. rewrite Hupd, bind_Ok, R3, R5, bind_Ok. fold s3. rewrite Hptr, bind_Ok, Hcpy, !bind_Ok. fold s4.
    fold ready. rewrite Hu5, bind_Ok. reflexivity.
  - constructor; try done.
    + intros x Hx. rewrite Hcont5, (Hc4 x Hx), Hsz3, Hm3. destruct (decide (x / Cache.blkSize s = a / Cache.blkSize s)) as [El|El].
      * rewrite <- Hcont0. symmetry. apply (contents_miss n s0 None no_block x Hok0). intros q Hq.
        apply (Hmiss0 q). apply (holds_same_line n c0 x a q (co_wf _ _ _ _ Hok0) Hx Ha64 Hq).
        destruct (co_size _ _ _ _ Hok0) as [Hbs0 _]. change (blkSize c0 = Cache.blkSize s) in Hbs0. by rewrite Hbs0.
      * rewrite <- Hcont0. by apply Hcont3.
    + intros x. change (memory s4 x = memory s x). rewrite Hm4, Hm3. done.
    + apply (holds_cores (Cache.tags s4) c5 a p Hg5 Ec5). exact Hh3.
    + unfold s4. rewrite Es3. done.
    + intros x Hx Hsome. simpl. rewrite Hfr4 by by rewrite Hdb3. by apply Hfr0.
Qed.

(** The right to write a block that is held: it may lose its dirty mark. *)
Lemma handleFill_upgrade s req fb a p : cache_ok n s None no_block -> holds (Cache.tags s) a p ->
  exists s', Cache.handleFill alloc garbage gp gr n now s (bus_resp gp now MemCmd.UpgradeReq req fb a (Cache.blkSize s)) (Some (Cache.InTags p)) [] =
      Ok (Cache.InTags p, [], s') /\ cache_ok n s' None (eq p) /\ (forall x, contents s' None x = contents s None x) /\
    (forall x, memory s' x = memory s x) /\ holds (Cache.tags s') a p /\ shell s s' /\ Cache.bytes s' = Cache.bytes s.
Proof.
  intros Hok Hh. destruct (held_core n s None no_block a p Hok Hh) as (kc & Hk & Hv & Hst & _).
  destruct (get_blk_ok s p kc Hk) as (b & Hgb & Hb & Ecore). subst kc.
  destruct (status_upd n s None no_block (eq p) p b (fun _ => filled_status) Hok Hb Hv) as (c1 & Hu1 & Hc1 & Hg1 & Hb1 & Ec1 & Hok1 & Hcont1);
    [done|by intros ? ? []|by left|].
  set (s1 := Cache.set_tags s c1) in *. set (b1 := CacheBlk.set_status b filled_status) in *.
  set (r := bus_resp gp now MemCmd.UpgradeReq req fb a (Cache.blkSize s)).
  set (ready := fun x => CacheBlk.mk (CacheBlk.asid x) (CacheBlk.tag x) (CacheBlk.data x) (CacheBlk.size x)
                     (CacheBlk.status x) (Packet.finishTime r) (CacheBlk.set x) (CacheBlk.isTouched x)
                     (CacheBlk.refCount x) (CacheBlk.contextSrc x) (CacheBlk.lockList x)).
  destruct (upd_blk_ok n s1 None (eq p) p b1 ready Hok1 Hb1) as (c2 & Hu2 & Hc2 & Hg2 & _ & Ec2); [done|].
  change (core_of (ready b1)) with (core_of b1) in Ec2. rewrite list_insert_id in Ec2 by by apply (cores_lookup c1).
  destruct (ok_tags n s1 None (eq p) c2 Hok1 Hc2 Hg2 Ec2) as [Hok2 Hcont2].
  exists (Cache.set_tags s1 c2). split_and!; try done.
  - assert ((CacheBlk.tag b =? extractTag (Cache.tags s) a) = true) as Ht.
    { apply Z.eqb_eq. destruct Hh as [_ (b' & Hb' & Ht & _)]. congruence. }
    unfold Cache.handleFill. change (Packet.getAddr r) with (Ok a). rewrite bind_Ok, Hgb, bind_Ok, Ht. cbn [c_assert].
    change (Packet.hasData r) with false. change (CacheBlk.isValid b) with (k_valid (core_of b)). rewrite Hv. cbn [orb c_assert].
    rewrite !bind_Ok. change (Packet.sharedAsserted r) with false. cbn [negb]. fold filled_status. rewrite Hu1, bind_Ok.
    change (Packet.isRead r) with false. cbv iota. rewrite bind_Ok. fold s1 ready. rewrite Hu2, bind_Ok. reflexivity.
  - intros x. by rewrite Hcont2, Hcont1.
  - apply (holds_cores c1 c2 a p Hg2 Ec2). apply holds_core in Hh as [Hset (k0 & Hk0 & Ht & _)].
    assert (k0 = core_of b) as -> by congruence. apply holds_core. rewrite (sg_set_of _ _ p Hg1), (sg_set _ _ a Hg1), (sg_tag _ _ a Hg1).
    split; [done|]. exists (core_of b1). split; [by apply cores_lookup|]. by split.
Qed.

(** ** Packets are deleted *)
Lemma delete_ok s w E pkt fb l : cache_ok n s w E -> ~ involved s w fb -> Cache.bytes s !! fb = Some l ->
  Packet.data pkt = Some (fb, 0) -> EvQ.isSet (Packet.flags pkt) Packet.ARRAY_DATA = true ->
  let s' := Cache.set_bytes s (delete fb (Cache.bytes s)) in
  Cache.delete s pkt = Ok s' /\ cache_ok n s' w E /\ (forall x, contents s' w x = contents s w x) /\
  forall x, memory s' x = memory s x.
Proof.
  intros Hok Hni Hl Hd Hfl s'. split.
  - unfold Cache.delete, Packet.destroy, Packet.deleteData. rewrite Hfl, Hd. unfold Bytes.free.
    rewrite bool_decide_eq_true_2 by (by exists l). cbn [Z.eqb andb]. rewrite !bind_Ok. reflexivity.
  - apply ok_frame; [done|]. intros b Hb. rewrite lookup_delete_ne; [done|]. intros ->. done.
Qed.

(** ** Writebacks go down *)
Lemma send_writeback_ok s y : cache_ok n s (Some y) no_block -> exists s', Cache.send_writebacks s [w_pkt y] = Ok s' /\
  cache_ok n s' None no_block /\ (forall x, 0 <= x < 2 ^ 64 -> contents s' None x = contents s (Some y) x) /\ shell s s' /\
  Cache.bytes s' !! w_buf y = None /\ forall b, ~ involved s (Some y) b -> Cache.bytes s' !! b = Cache.bytes s !! b.
Proof.
  intros Hok. pose proof Hok as []. destruct (co_pending0 y eq_refl) as [Hsil Hlen Hcmd [Hreq Hif] Harr [Hap Hno] [Hw0 Hwm] Hrange Hgone].
  pose proof (size_pos n s (Some y) no_block Hok) as Hpos.
  destruct (am_writeback (Cache.bytes s) (Cache.below s) (w_pkt y) (w_addr y) (Cache.blkSize s) (w_buf y) 0 (w_data y))
    as (lat & m' & x' & Hsend & Hok' & Ho & Hf & Hby); [apply co_below0|done..|].
  set (s1 := Cache.set_below (Cache.set_bytes s m') x').
  assert (Hm1 : forall x, memory s1 x = if decide (w_addr y <= x < w_addr y + Cache.blkSize s)
      then w_data y !! Z.to_nat (x - w_addr y) else memory s x).
  { intros x. unfold memory, s1. simpl. rewrite Hby. by destruct (decide _). }
  assert (Hdom : forall x, is_Some (memory s1 x) <-> is_Some (memory s x)).
  { intros x. rewrite Hm1. destruct (decide _) as [Hr|]; [|done]. split; [intros _; by apply Hrange|]. intros _.
    apply lookup_lt_is_Some_2. lia. }
  assert (Hout : forall x p, 0 <= x < 2 ^ 64 -> holds (Cache.tags s) x p -> ~ (w_addr y <= x < w_addr y + Cache.blkSize s)).
  { intros x p Hx Hh Hr. apply (Hgone p). apply (holds_same_line n _ x (w_addr y) p co_wf0 Hx Hw0 Hh).
    destruct co_size0 as [-> _]. destruct (line_arith (Cache.blkSize s) (w_addr y) (x - w_addr y) Hpos) as [El _]; [lia|lia|].
    rewrite <- El. f_equal. lia. }
  assert (Hd1 : m' !! Cache.dataBlks s = Cache.bytes s !! Cache.dataBlks s) by (apply Hf, co_below0).
  assert (Hc1 : forall p x, cached s1 p x = cached s p x) by (intros p x; unfold cached, Bytes.byte; simpl; by rewrite Hd1).
  assert (Hok1 : cache_ok n s1 None no_block).
  { constructor; simpl; try done.
    - by rewrite Hd1.
    - split; [done|]. rewrite Ho. apply co_below0.
    - intros p k Hk Hv. destruct (co_line0 p k Hk Hv) as (a & Ha & Hh & Hs). exists a. by rewrite Hdom.
    - intros a p k Ha Hh Hk Hd HE. rewrite Hc1, Hm1, decide_False by (by apply (Hout a p)). by apply (co_clean0 a p k).
    - intros a a' Ha. rewrite !Hdom. by apply co_aligned0.
    - intros a. rewrite Hdom. apply co_inmem0. }
  assert (Hcont1 : forall x, 0 <= x < 2 ^ 64 -> contents s1 None x = contents s (Some y) x).
  { intros x Hx. unfold contents. simpl. destruct (findBlock (Cache.tags s) x) as [[p|]|]; [apply Hc1|apply Hm1..]. }
  destruct (delete_ok s1 None no_block (w_pkt y) (w_buf y) (w_data y) Hok1) as (Hdel & Hok2 & Hcont2 & _).
  { intros [Hx|[Hx|(z & ? & _)]]; [done|by apply Ho in Hx|done]. }
  { simpl. rewrite Hf by done. apply (s_array _ _ _ _ _ _ _ Hsil). }
  { apply (s_data _ _ _ _ _ _ _ Hsil). } { done. }
  eexists. split; [|split; [exact Hok2|split; [|split; [|split]]]].
  - unfold Cache.send_writebacks, Cache.send. rewrite Hsend, !bind_Ok. fold s1. rewrite Hdel, bind_Ok. reflexivity.
  - intros x Hx. by rewrite Hcont2, Hcont1.
  - done.
  - simpl. apply lookup_delete_eq.
  - intros b Hb. simpl. rewrite lookup_delete_ne by (intros <-; apply Hb; right; right; by exists y).
    apply Hf. intros Hx. apply Hb. by right; left.
Qed.
End fill.
End CacheFill.
