(* ===== verification/CacheAtomic.v ===== *)
(** * The cache serves an atomic request

    From the access to the writebacks and the response. *)
From S2P Require Import Prelude EventQueue IntMath Request Packet CacheTags CacheTagsProof CacheTagsTheorems PacketTheorems PhysMem PhysMemTheorems Mshr Cache CacheInv CacheServe CacheMiss CacheFill.
Import LRU CacheCore.

Module CacheAtomic.
Import CacheInv CacheStep CacheServe CacheMiss CacheFill.
Section atomic.
Context {P : AtomicPeer} {F : AtomicMemory P}.
Context (host : ByteSwap.ByteOrder) (alloc : Bytes.mem -> positive) (garbage : Z -> list Z).
Context (gp : Packet.t) (gr : Request.t) (n now : Z) (full : bool).
Context (alloc_fresh : forall m, m !! alloc m = None).
Context (garbage_length : forall k, 0 <= k -> Z.of_nat (length (garbage k)) = k).

(** What an access to [k] bytes at [a] does: from contents [f] to contents [f'],
    with the packet's array in [m']. *)
Definition effect (pkt : Packet.t) (a k : Z) (db : positive) (doff : Z) (dl : list Z) (f f' : Z -> option Z) (m' : Bytes.mem) : Prop :=
  (plain_read pkt -> (forall x, 0 <= x < 2 ^ 64 -> f' x = f x) /\ exists dl', m' !! db = Some dl' /\ length dl' = length dl /\
     forall i, 0 <= i -> dl' !! Z.to_nat i = if decide (doff <= i < doff + k) then f (a + (i - doff)) else dl !! Z.to_nat i) /\
  (plain_write pkt -> m' !! db = Some dl /\ forall x, 0 <= x < 2 ^ 64 ->
     f' x = if decide (a <= x < a + k) then dl !! Z.to_nat (doff + (x - a)) else f x).

Lemma effect_ext pkt a k db doff dl f g f' g' m m' : effect pkt a k db doff dl f f' m ->
  (forall x, 0 <= x < 2 ^ 64 -> g x = f x) -> (forall x, 0 <= x < 2 ^ 64 -> g' x = f' x) -> m' !! db = m !! db ->
  0 <= a -> a + k <= 2 ^ 64 -> effect pkt a k db doff dl g g' m'.
Proof.
  intros [H1 H2] Hf Hf' Hm Ha Hk. split; intros Hp.
  - destruct (H1 Hp) as (E1 & dl' & E2 & E3 & E4). split; [intros x Hx; by rewrite Hf', Hf, E1|].
    exists dl'. rewrite Hm. split_and!; try done. intros i Hi. rewrite E4 by done.
    destruct (decide _); [|done]. symmetry. apply Hf. lia.
  - destruct (H2 Hp) as [E1 E2]. rewrite Hm. split; [done|]. intros x Hx. rewrite Hf', E2 by done.
    destruct (decide _); [done|]. symmetry. by apply Hf.
Qed.

(** A request is served from the block that holds its line. *)
Lemma satisfy_served s w (E : nat -> Prop) p pkt a k db doff dl : cache_ok n s w E -> holds (Cache.tags s) a p ->
  carries (Cache.bytes s) pkt a k db doff dl -> a mod Cache.blkSize s + k <= Cache.blkSize s -> ~ involved s w db ->
  (plain_read pkt /\ (forall q, ~ E q)) \/ (plain_write pkt /\ (forall q, q <> p -> ~ E q)) ->
  exists s' pkt', Cache.satisfyCpuSideRequest host n s pkt (Cache.InTags p) = Ok (s', pkt') /\
    cache_ok n s' w no_block /\ shell s s' /\ (pkt' = pkt \/ pkt' = Packet.assertShared pkt) /\
    effect pkt a k db doff dl (contents s w) (contents s' w) (Cache.bytes s') /\
    forall b, b <> db -> b <> Cache.dataBlks s -> Cache.bytes s' !! b = Cache.bytes s !! b.
Proof.
  intros Hok Hh Hp Hin Hdb [[Hr HE]|[Hw HE]].
  - destruct (satisfy_read host n s w E p pkt a k db doff dl Hok Hh Hp Hin Hdb Hr) as (s' & pkt' & dl' & E1 & Hok' & Hc & Hsh & Hb & Hl & Hpk & Hi).
    exists s', pkt'. split; [done|]. split; [|split_and!; try done].
    + apply (ok_weaken n s' w E); [done|]. intros q HEq. by apply (HE q).
    + split; [|intros Hw; unfold plain_read, plain_write in *; congruence]. intros _. split; [intros x _; apply Hc|].
      exists dl'. rewrite Hb, lookup_insert_eq. done.
    + intros b Hb1 _. rewrite Hb. by rewrite lookup_insert_ne.
  - destruct (satisfy_write host n s w E no_block p pkt a k db doff dl Hok Hh Hp Hin Hw) as (s' & arr' & E1 & Hok' & Hsh & Hb & _ & Hc).
    { intros q Hq HEq. by destruct (HE q Hq). }
    exists s', pkt. split_and!; try done; [by left| |].
    + split; [intros Hr; unfold plain_read, plain_write in *; congruence|]. intros _. split; [|done].
      rewrite Hb, lookup_insert_ne; [apply (c_array _ _ _ _ _ _ _ Hp)|]. intros Hx. apply Hdb. left. congruence.
    + intros b _ Hb2. rewrite Hb. by rewrite lookup_insert_ne.
Qed.

(** ** A request of the CPU

    A read or write of [k] bytes at [a], within a block and within the memory;
    its bytes are in array [db], from [doff]. *)
Record cpu_request (s : Cache.t) (pkt : Packet.t) (a k : Z) (db : positive) (doff : Z) (dl : list Z) : Prop := {
  cr_carries : carries (Cache.bytes s) pkt a k db doff dl;
  cr_cmd : plain_read pkt \/ plain_write pkt;
  cr_paddr : Request.getPaddr (Packet.req pkt) = Ok a;
  cr_cacheable : Request.isUncacheable (Packet.req pkt) = false;
  cr_context : Request.hasContextId (Packet.req pkt) = true /\ 0 <= Request._contextId (Packet.req pkt);
  cr_line : a mod Cache.blkSize s + k <= Cache.blkSize s;
  cr_memory : is_Some (memory s a);
  cr_apart : ~ involved s None db
}.

Lemma request_range s pkt a k db doff dl : cpu_request s pkt a k db doff dl -> 0 <= a < 2 ^ 64 /\ a + k <= 2 ^ 64.
Proof. intros []. destruct (sz_range _ _ _ (c_sized _ _ _ _ _ _ _ cr_carries0)). lia. Qed.

(** The request is served; a block [w] may still be on its way down. *)
Record served (s s' : Cache.t) (w : option pending) (pkt : Packet.t) (a k : Z) (db : positive) (doff : Z) (dl : list Z) : Prop := {
  sv_ok : cache_ok n s' w no_block;
  sv_shell : shell s s';
  sv_effect : effect pkt a k db doff dl (contents s None) (contents s' w) (Cache.bytes s');
  sv_frame : forall b, b <> db -> ~ involved s None b -> (forall y, w = Some y -> b <> w_buf y) -> Cache.bytes s' !! b = Cache.bytes s !! b;
  sv_buf : forall y, w = Some y -> Cache.bytes s !! w_buf y = None
}.

(** ** The lookup *)
Lemma count_ok h pkt id : 0 < n -> (forall c, n <= Z.of_nat (length (h c))) -> 0 <= id -> plain_read pkt \/ plain_write pkt ->
  exists h', Cache.count n full h pkt id = Ok h' /\ forall c, n <= Z.of_nat (length (h' c)).
Proof.
  intros Hn Hh Hid Hcmd. unfold Cache.count, Cache.bucket.
  rewrite bool_decide_eq_false_2 by (unfold plain_read, plain_write in Hcmd; destruct Hcmd; congruence).
  replace (full && (id =? -1)) with false by (destruct full; lia). rewrite bind_Ok.
  assert (0 <= Z.rem id n < Z.of_nat (length (h (Packet.cmd pkt)))) as Hr.
  { pose proof (Z.rem_bound_pos id n Hid Hn). specialize (Hh (Packet.cmd pkt)). lia. }
  destruct (vget_lt _ _ Hr) as (v & -> & _). rewrite bind_Ok, vset_lt, bind_Ok by done. eexists. split; [done|].
  intros c. cbv beta. destruct (decide (c = Packet.cmd pkt)); [|done]. rewrite length_insert. done.
Qed.

(** The tags and the counts differ. *)
Definition looked_up (s s1 : Cache.t) : Prop :=
  Cache.bytes s1 = Cache.bytes s /\ Cache.dataBlks s1 = Cache.dataBlks s /\ Cache.blkSize s1 = Cache.blkSize s /\
  Cache.below s1 = Cache.below s.

Lemma counted s pkt id : cache_ok n s None no_block -> 0 <= id -> plain_read pkt \/ plain_write pkt ->
  (exists s1, Cache.incHitCount n full s pkt id = Ok s1 /\ cache_ok n s1 None no_block /\
     (forall x, contents s1 None x = contents s None x) /\ looked_up s s1 /\ Cache.tags s1 = Cache.tags s) /\
  (exists s1, Cache.incMissCount n full s pkt id = Ok s1 /\ cache_ok n s1 None no_block /\
     (forall x, contents s1 None x = contents s None x) /\ looked_up s s1 /\ Cache.tags s1 = Cache.tags s).
Proof.
  intros Hok Hid Hcmd. pose proof (co_counts _ _ _ _ Hok) as Hco. pose proof (wf_cpus _ _ (co_wf _ _ _ _ Hok)) as Hn. split.
  - destruct (count_ok (Cache.hits s) pkt id Hn) as (h & Hh & Hl); [apply Hco|done|done|]. unfold Cache.incHitCount.
    rewrite Hh, bind_Ok. eexists. split; [done|]. split; [apply ok_counts; [done|]|done]. intros c. split; [apply Hl|apply Hco].
  - destruct (count_ok (Cache.misses s) pkt id Hn) as (h & Hh & Hl); [apply Hco|done|done|]. unfold Cache.incMissCount.
    rewrite Hh, bind_Ok. eexists. split; [done|]. split; [apply ok_counts; [done|]|done]. intros c. split; [apply Hco|apply Hl].
Qed.

Abbreviation access_to := (Cache.access host alloc garbage gp gr n now full).

Lemma access_cases s pkt a k db doff dl : cache_ok n s None no_block -> cpu_request s pkt a k db doff dl ->
  exists lat s1, cache_ok n s1 None no_block /\ (forall x, contents s1 None x = contents s None x) /\ looked_up s s1 /\
  ((exists p, holds (Cache.tags s1) a p /\ access_to s pkt [] =
      ('(s2, r) ← Cache.satisfyCpuSideRequest host n s1 pkt (Cache.InTags p); Ok (true, Some (Cache.InTags p), lat, [], s2, r))) \/
   (exists p b, holds (Cache.tags s1) a p /\ blks (Cache.tags s1) !! p = Some b /\ CacheBlk.isValid b = true /\
      CacheBlk.isWritable b = false /\ plain_write pkt /\ access_to s pkt [] = Ok (false, Some (Cache.InTags p), lat, [], s1, pkt)) \/
   ((forall p, ~ holds (Cache.tags s1) a p) /\ access_to s pkt [] = Ok (false, None, lat, [], s1, pkt))).
Proof.
  intros Hok [Hp Hcmd Hpa Hun [Hctx Hid] _ Hm _]. destruct (sized_get _ _ _ (c_sized _ _ _ _ _ _ _ Hp)) as [Ha _].
  pose proof (co_wf _ _ _ _ Hok) as Hc.
  destruct (access_ok n now (Cache.tags s) a Hc) as (o & lat & c' & Hacc & Hf & Hc' & Hg & _ & Hh).
  destruct (ok_tags n s None no_block c' Hok Hc' Hg (access_cores _ _ _ _ _ _ Hacc)) as [Hok1 Hcont].
  set (s0 := Cache.set_tags s c') in *.
  destruct (counted s0 pkt _ Hok1 Hid Hcmd) as [(sh & Eh & Hokh & Hch & Hlh & Hth) (sm & Em & Hokm & Hcm & Hlm & Htm)].
  assert (Hnw : bool_decide (Packet.cmd pkt = MemCmd.Writeback) = false /\ Packet.isLLSC pkt = false).
  { unfold Packet.isLLSC. by destruct Hcmd as [-> | ->]. }
  destruct Hnw as [Hnw Hnl]. unfold Cache.access, Cache.context_of.
  rewrite Hun, Hctx, CacheBlk.contextId_ok, bind_Ok, Ha, bind_Ok, Hacc, bind_Ok by done. fold s0.
  destruct (findBlock_holds n (Cache.tags s) a Hc) as (o' & Hf' & Ho). rewrite Hf in Hf'. injection Hf' as <-. exists lat.
  destruct o as [p|]; cbn [option_map].
  - apply Hh in Ho. destruct (held_core n _ None no_block a p Hok1 Ho) as (kc & Hk & Hv & Hst & _).
    destruct (get_blk_ok _ p kc Hk) as (b & Hgb & Hb & Ecore). subst kc. rewrite Hgb, !bind_Ok, Eh, Hnw, Em, !bind_Ok.
    assert (Hus : (if Packet.needsExclusive pkt then CacheBlk.isWritable b else CacheBlk.isReadable b) = true \/
      (CacheBlk.isWritable b = false /\ plain_write pkt /\ Packet.needsExclusive pkt = true)).
    { unfold Packet.needsExclusive. destruct Hcmd as [Hr|Hw]; [left; rewrite Hr; by apply Z.eqb_eq|]. rewrite Hw. simpl.
      destruct (CacheBlk.isWritable b); auto. }
    destruct Hus as [-> |(Hwr & Hw & ->)].
    + exists sh. split_and!; try done; [intros x; by rewrite Hch|]. left. exists p. by rewrite Hth.
    + rewrite Hwr. exists sm. split_and!; try done; [intros x; by rewrite Hcm|]. right; left. exists p, b. rewrite Htm. done.
  - rewrite !bind_Ok, Hnw, Em, bind_Ok, Hnl. exists sm. split_and!; try done; [intros x; by rewrite Hcm|]. right; right.
    rewrite Htm. split; [intros p Hp'; apply Hh in Hp'; by apply (Ho p)|done].
Qed.

(** ** The miss *)

(** Once the block is there, the request is served from it and the packet that
    brought it is deleted. *)
Lemma fill_served s s2 s3 w (E : nat -> Prop) p fb r pkt a k db doff dl :
  asked n s s2 None no_block fb -> is_Some (Cache.bytes s2 !! fb) ->
  cache_ok n s3 w E -> (forall x, 0 <= x < 2 ^ 64 -> contents s3 w x = contents s2 None x) -> holds (Cache.tags s3) a p -> shell s2 s3 ->
  (forall b, b <> Cache.dataBlks s2 -> (forall y, w = Some y -> b <> w_buf y) -> Cache.bytes s3 !! b = Cache.bytes s2 !! b) ->
  (forall y, w = Some y -> Cache.bytes s2 !! w_buf y = None) ->
  (plain_read pkt /\ (forall q, ~ E q)) \/ (plain_write pkt /\ (forall q, q <> p -> ~ E q)) ->
  cpu_request s pkt a k db doff dl ->
  Packet.data r = Some (fb, 0) -> EvQ.isSet (Packet.flags r) Packet.ARRAY_DATA = true ->
  exists s4 pkt' s5, Cache.satisfyCpuSideRequest host n s3 pkt (Cache.InTags p) = Ok (s4, pkt') /\
    (pkt' = pkt \/ pkt' = Packet.assertShared pkt) /\ Cache.delete s4 r = Ok s5 /\ served s s5 w pkt a k db doff dl.
Proof.
  intros [_ Hcont2 _ Hsh2 _ [Hfb Hfb0] Hfr2 _] [lf Hlf] Hok3 Hcont3 Hh Hsh3 Hfr3 Hbuf HE Hreq Hrd Hrf.
  pose proof (request_range _ _ _ _ _ _ _ Hreq) as Hra. pose proof Hreq as [Hp _ _ _ _ Hin _ Hdb].
  pose proof (c_array _ _ _ _ _ _ _ Hp) as Harr.
  assert (Hne : db <> fb) by (intros ->; congruence).
  assert (Hdb2 : Cache.bytes s2 !! db = Some dl) by (rewrite Hfr2; done).
  assert (Hnd : db <> Cache.dataBlks s) by (intros ->; apply Hdb; by left).
  assert (Hbne : forall x l, Cache.bytes s2 !! x = Some l -> forall y, w = Some y -> x <> w_buf y) by (intros x l Hx y Hy ->; rewrite Hbuf in Hx; done).
  assert (Hdb3 : Cache.bytes s3 !! db = Some dl) by (rewrite Hfr3; [done|by rewrite (sh_data _ _ Hsh2)|by apply (Hbne db dl)]).
  assert (Hfbd : fb <> Cache.dataBlks s2) by (intros ->; apply Hfb; by left).
  assert (Hfb3 : Cache.bytes s3 !! fb = Some lf) by (rewrite Hfr3; [done|done|by apply (Hbne fb lf)]).
  assert (Hinv : forall x l, Cache.bytes s2 !! x = Some l -> ~ involved s2 None x -> ~ involved s3 w x).
  { intros x l Hx Hn Hi. apply (involved_shell s2 s3 w x Hsh3) in Hi. destruct Hi as [Hi|[Hi|(y & Hy & Hi)]];
      [apply Hn; by left|apply Hn; by right; left|by apply (Hbne x l Hx y Hy)]. }
  assert (Hp3 : carries (Cache.bytes s3) pkt a k db doff dl) by (destruct Hp; constructor; done).
  destruct (satisfy_served s3 w E p pkt a k db doff dl Hok3 Hh Hp3) as (s4 & pkt' & Hsat & Hok4 & Hsh4 & Hpk & Heff & Hfr4).
  { rewrite (sh_size _ _ Hsh3), (sh_size _ _ Hsh2). done. }
  { apply (Hinv db dl); [done|]. rewrite (involved_shell s s2 None db Hsh2). done. } { done. }
  assert (Hd3 : Cache.dataBlks s3 = Cache.dataBlks s2) by apply (sh_data _ _ Hsh3).
  assert (Hfb4 : Cache.bytes s4 !! fb = Some lf) by (rewrite Hfr4; [done|congruence|congruence]).
  destruct (delete_ok n s4 w no_block r fb lf Hok4) as (Hdel & Hok5 & Hcont5 & _); [|done..|].
  { rewrite (involved_shell s3 s4 w fb Hsh4). by apply (Hinv fb lf). }
  exists s4, pkt'. eexists. split; [done|]. split; [done|]. split; [exact Hdel|].
  assert (Hsh : shell s s4) by (transitivity s2; [done|transitivity s3; done]). constructor; [done|by destruct Hsh| | |].
  - apply (effect_ext pkt a k db doff dl _ _ _ _ _ _ Heff); [|by intros x Hx|by apply lookup_delete_ne|lia..].
    intros x Hx. by rewrite (Hcont3 x Hx), Hcont2.
  - intros b Hb Hni Hby. simpl. destruct (decide (b = fb)) as [->|Hbf]; [by rewrite lookup_delete_eq|].
    assert (Hbd : b <> Cache.dataBlks s2) by (rewrite (sh_data _ _ Hsh2); intros ->; apply Hni; by left).
    rewrite lookup_delete_ne, Hfr4 by congruence. rewrite Hfr3 by done. by apply Hfr2.
  - intros y Hy. rewrite <- (Hbuf y Hy). symmetry. apply Hfr2; [intros Ey; rewrite <- Ey, Hbuf in Hlf; done|].
    intros Hi. apply (involved_shell s s2 None _ Hsh2) in Hi. pose proof (co_pending _ _ _ _ Hok3 y Hy) as Hwb.
    destruct (wo_apart _ _ Hwb) as [W1 W2]. destruct Hi as [Hi|[Hi|(z & ? & _)]]; [congruence|by apply W2, (sh_owns _ _ Hsh3)|done].
Qed.

Lemma miss_steps s s1 s2 s3 s4 s5 cmd fb al size lat pkt pkt' blk b l : bus_cmd cmd -> Packet.needsResponse pkt = true ->
  let r := bus_resp gp now cmd (Packet.req pkt) fb al size in
  Cache.getBusPacket alloc garbage gp now s pkt blk (Packet.needsExclusive pkt) = Ok (Some (bus_pkt gp now cmd (Packet.req pkt) fb al size), s1) ->
  Cache.send s1 (bus_pkt gp now cmd (Packet.req pkt) fb al size) = Ok (lat, s2, r) ->
  Cache.handleFill alloc garbage gp gr n now s2 r blk [] = Ok (b, l, s3) ->
  Cache.satisfyCpuSideRequest host n s3 pkt b = Ok (s4, pkt') -> Cache.delete s4 r = Ok s5 ->
  Cache.atomic_miss host alloc garbage gp gr n now s pkt blk [] = Ok (lat, l, s5, pkt').
Proof.
  intros Hcmd Hnr r Hbus Hsend Hfill Hsat Hdel. unfold Cache.atomic_miss. rewrite Hbus, bind_Ok, Hsend, bind_Ok.
  assert (Packet.wasNacked r = false /\ Packet.isResponse r = true /\ Packet.isError r = false /\
    Packet.isRead r || bool_decide (Packet.cmd r = MemCmd.UpgradeResp) = true) as (-> & -> & -> & ->)
    by (destruct Hcmd as [-> |[-> | ->]]; done).
  assert (PhysicalMemory.set_req pkt (Packet.req r) = pkt) as -> by by destruct pkt.
  rewrite Hnr. cbn [negb c_assert]. rewrite !bind_Ok, Hfill, bind_Ok, Hsat, !bind_Ok, Hdel. done.
Qed.

Lemma plain_facts pkt : plain_read pkt \/ plain_write pkt -> Packet.needsResponse pkt = true /\
  (plain_read pkt -> Packet.needsExclusive pkt = false) /\ (plain_write pkt -> Packet.needsExclusive pkt = true).
Proof. unfold Packet.needsResponse, Packet.needsExclusive, plain_read, plain_write. intros [-> | ->]; split_and!; done. Qed.

(** The line is not in the cache. *)
Lemma miss_ok s pkt a k db doff dl : cache_ok n s None no_block -> cpu_request s pkt a k db doff dl ->
  (forall p, ~ holds (Cache.tags s) a p) ->
  exists lat w s' pkt', Cache.atomic_miss host alloc garbage gp gr n now s pkt None [] = Ok (lat, wbs w, s', pkt') /\
    (pkt' = pkt \/ pkt' = Packet.assertShared pkt) /\ served s s' w pkt a k db doff dl.
Proof.
  intros Hok Hreq Hmiss. pose proof Hreq as [Hp Hcmd Hpa Hun Hctx Hin Hm Hdb]. pose proof (request_range _ _ _ _ _ _ _ Hreq) as Hra.
  destruct (plain_facts pkt Hcmd) as (Hnr & _ & _). set (ne := Packet.needsExclusive pkt).
  set (cmd := if ne then MemCmd.ReadExReq else MemCmd.ReadReq).
  assert (Hc : cmd = MemCmd.ReadReq \/ cmd = MemCmd.ReadExReq) by (unfold cmd; destruct ne; auto).
  pose proof (getBusPacket_ok alloc garbage gp n now s None no_block pkt a k None ne cmd Hok (c_sized _ _ _ _ _ _ _ Hp) Hm Hpa Hun Hcmd eq_refl) as Hbus.
  destruct (read_below alloc garbage gp n now alloc_fresh garbage_length s None no_block cmd (Packet.req pkt) a Hok Hm Hc)
    as (lat & s2 & l & Hsend & Hask & Hfb & Hll & Hl). set (fb := alloc (Cache.bytes s)) in *.
  pose proof Hask as [Hok2 Hcont2 Hmem2 Hsh2 Ht2 [Hni2 _] _ _]. destruct (line_facts n s None no_block a Hok Hm) as (L0 & L1 & L2 & L3 & L4).
  destruct (L4 (line s a)) as [Ea Hsl]; [pose proof (size_pos n s None no_block Hok); lia|].
  assert (Hline : forall c q, wf n c -> blkSize c = Cache.blkSize s -> holds c (line s a) q -> holds c a q).
  { intros c q Hwc Hb Hq. apply (holds_same_line n c (line s a) a q Hwc); [lia|lia|done|]. by rewrite Hb. }
  destruct (handleFill_miss alloc garbage gp gr n now alloc_fresh garbage_length s2 cmd (Packet.req pkt) fb (line s a) l)
    as (p & w & s3 & Hfill & Hf); try done.
  { by rewrite Hmem2. }
  { rewrite Ht2. intros q Hq. apply (Hmiss q). apply (Hline _ q (co_wf _ _ _ _ Hok)); [|done]. apply (co_size _ _ _ _ Hok). }
  { by rewrite (sh_size _ _ Hsh2). } { intros _. destruct Hctx. lia. } { by rewrite (sh_size _ _ Hsh2). } { by rewrite (sh_size _ _ Hsh2). }
  rewrite (sh_size _ _ Hsh2) in Hfill. destruct Hf as [Hok3 Hcont3 Hmem3 Hh3 Hsh3 Hfr3 Hbuf3].
  destruct (fill_served s s2 s3 w no_block p fb (bus_resp gp now cmd (Packet.req pkt) fb (line s a) (Cache.blkSize s)) pkt a k db doff dl)
    as (s4 & pkt' & s5 & Hsat & Hpk & Hdel & Hsv); try done.
  { apply (Hline _ p (co_wf _ _ _ _ Hok3)); [|done]. rewrite (proj1 (co_size _ _ _ _ Hok3)), (sh_size _ _ Hsh3), (sh_size _ _ Hsh2). done. }
  { destruct Hcmd as [Hr|Hw]; [left; split; [done|by intros q []]|right; split; [done|by intros q ? []]]. }
  exists lat, w, s5, pkt'. split_and!; try done.
  eapply (miss_steps s _ s2 s3 s4 s5 cmd fb (line s a) (Cache.blkSize s) lat pkt pkt' None (Cache.InTags p) (wbs w)); try exact Hbus; try done.
  destruct Hc as [-> | ->]; [by left|by right; left].
Qed.

(** The block is in the cache, but may not be written. *)
Lemma upgrade_ok s pkt a k db doff dl p b : cache_ok n s None no_block -> cpu_request s pkt a k db doff dl ->
  holds (Cache.tags s) a p -> blks (Cache.tags s) !! p = Some b -> CacheBlk.isValid b = true -> CacheBlk.isWritable b = false ->
  plain_write pkt ->
  exists lat s' pkt', Cache.atomic_miss host alloc garbage gp gr n now s pkt (Some (Cache.InTags p)) [] = Ok (lat, [], s', pkt') /\
    (pkt' = pkt \/ pkt' = Packet.assertShared pkt) /\ served s s' None pkt a k db doff dl.
Proof.
  intros Hok Hreq Hh Hb Hv Hwr Hw. pose proof Hreq as [Hp Hcmd Hpa Hun Hctx Hin Hm Hdb]. pose proof (request_range _ _ _ _ _ _ _ Hreq) as Hra.
  destruct (plain_facts pkt Hcmd) as (Hnr & _ & Hne). specialize (Hne Hw).
  assert (Hbus : exists s1, Cache.getBusPacket alloc garbage gp now s pkt (Some (Cache.InTags p)) (Packet.needsExclusive pkt) =
    Ok (Some (bus_pkt gp now MemCmd.UpgradeReq (Packet.req pkt) (alloc (Cache.bytes s)) (line s a) (Cache.blkSize s)), s1) /\
    s1 = Cache.set_bytes s (<[alloc (Cache.bytes s) := garbage (Cache.blkSize s)]> (Cache.bytes s))).
  { eexists. split; [|done]. apply (getBusPacket_ok alloc garbage gp n now s None no_block pkt a k (Some (Cache.InTags p)) _ MemCmd.UpgradeReq
      Hok (c_sized _ _ _ _ _ _ _ Hp) Hm Hpa Hun Hcmd). split_and!; try done. by exists b. }
  destruct Hbus as (s1 & Hbus & Es1).
  destruct (upgrade_below alloc garbage gp n now alloc_fresh garbage_length s None no_block (Packet.req pkt) a Hok Hm)
    as (lat & s2 & Hsend & Hask & Hfb). rewrite <- Es1 in Hsend. set (fb := alloc (Cache.bytes s)) in *.
  pose proof Hask as [Hok2 Hcont2 Hmem2 Hsh2 Ht2 _ _ _]. destruct (line_facts n s None no_block a Hok Hm) as (L0 & L1 & L2 & L3 & L4).
  destruct (L4 (line s a)) as [Ea _]; [pose proof (size_pos n s None no_block Hok); lia|].
  destruct (handleFill_upgrade alloc garbage gp gr n now s2 (Packet.req pkt) fb (line s a) p Hok2)
    as (s3 & Hfill & Hok3 & Hcont3 & _ & Hh3 & Hsh3 & Hb3).
  { rewrite Ht2. apply (holds_same_line n _ a (line s a) p (co_wf _ _ _ _ Hok)); [lia|lia|done|]. by rewrite (proj1 (co_size _ _ _ _ Hok)). }
  rewrite (sh_size _ _ Hsh2) in Hfill.
  destruct (fill_served s s2 s3 None (eq p) p fb (bus_resp gp now MemCmd.UpgradeReq (Packet.req pkt) fb (line s a) (Cache.blkSize s)) pkt a k db doff dl)
    as (s4 & pkt' & s5 & Hsat & Hpk & Hdel & Hsv); try done.
  { apply (holds_same_line n _ (line s a) a p (co_wf _ _ _ _ Hok3)); [lia|lia|done|].
    by rewrite (proj1 (co_size _ _ _ _ Hok3)), (sh_size _ _ Hsh3), (sh_size _ _ Hsh2). }
  { intros x _ _. by rewrite Hb3. } { right. split; [done|]. congruence. }
  exists lat, s5, pkt'. split_and!; try done.
  apply (miss_steps s s1 s2 s3 s4 s5 MemCmd.UpgradeReq fb (line s a) (Cache.blkSize s) lat pkt pkt' (Some (Cache.InTags p)) (Cache.InTags p) []); try done.
  by right; right.
Qed.

(** ** The whole access *)
Lemma served_lookup s s1 s' w pkt a k db doff dl : cpu_request s pkt a k db doff dl ->
  (forall x, contents s1 None x = contents s None x) -> looked_up s s1 ->
  served s1 s' w pkt a k db doff dl -> served s s' w pkt a k db doff dl.
Proof.
  intros Hreq Hc (E1 & E2 & E3 & E4) []. pose proof (request_range _ _ _ _ _ _ _ Hreq).
  constructor; try done; [| |unfold involved in *; rewrite E1, E2, E4 in sv_frame0; exact sv_frame0|by rewrite <- E1].
  - destruct sv_shell0 as [H1 H2 H3]. constructor; [congruence..|]. by rewrite <- E4.
  - apply (effect_ext pkt a k db doff dl _ _ _ _ _ _ sv_effect0); [intros x _; by rewrite Hc|done..|lia|lia].
Qed.

Lemma request_lookup s s1 pkt a k db doff dl : looked_up s s1 -> cpu_request s pkt a k db doff dl -> cpu_request s1 pkt a k db doff dl.
Proof.
  intros (E1 & E2 & E3 & E4) []. constructor; try done; [by rewrite E1|by rewrite E3| |].
  - unfold memory in *. by rewrite E1, E4.
  - unfold involved in *. by rewrite E2, E4.
Qed.

Lemma hit_ok s pkt a k db doff dl p : cache_ok n s None no_block -> cpu_request s pkt a k db doff dl -> holds (Cache.tags s) a p ->
  exists s' pkt', Cache.satisfyCpuSideRequest host n s pkt (Cache.InTags p) = Ok (s', pkt') /\
    (pkt' = pkt \/ pkt' = Packet.assertShared pkt) /\ served s s' None pkt a k db doff dl.
Proof.
  intros Hok [Hp Hcmd _ _ _ Hin _ Hdb] Hh.
  destruct (satisfy_served s None no_block p pkt a k db doff dl Hok Hh Hp Hin Hdb) as (s' & pkt' & Hsat & Hok' & Hsh & Hpk & Heff & Hfr).
  { destruct Hcmd; [left; split; [done|by intros q []]|right; split; [done|by intros q ? []]]. }
  exists s', pkt'. split_and!; try done. constructor; try done. intros b Hb Hni _. apply Hfr; [done|]. intros ->. apply Hni. by left.
Qed.

Lemma writebacks_ok s s' w pkt a k db doff dl : cpu_request s pkt a k db doff dl -> served s s' w pkt a k db doff dl ->
  exists s'', Cache.send_writebacks s' (wbs w) = Ok s'' /\ served s s'' None pkt a k db doff dl.
Proof.
  intros Hreq Hsv. destruct w as [y|]; [|by exists s']. destruct Hsv as [Hok Hsh Heff Hfr Hbuf].
  pose proof (request_range _ _ _ _ _ _ _ Hreq) as Hra. pose proof Hreq as [Hp _ _ _ _ _ _ Hdb]. specialize (Hbuf y eq_refl).
  destruct (send_writeback_ok n s' y Hok) as (s2 & Hs & Hok2 & Hc2 & Hsh2 & Hy & Hfr2).
  assert (Hni : forall b, ~ involved s None b -> b <> w_buf y -> ~ involved s' (Some y) b).
  { intros b Hb Hne [Hi|[Hi|(z & [= <-] & Hi)]]; [|apply (sh_owns _ _ Hsh) in Hi|done].
    - apply Hb. left. by rewrite <- (sh_data _ _ Hsh).
    - apply Hb. by right; left. }
  exists s2. split; [done|]. constructor; [done|by etrans| | |done].
  - apply (effect_ext pkt a k db doff dl _ _ _ _ _ _ Heff); [done|exact Hc2| |lia..].
    apply Hfr2, Hni; [done|]. intros ->. pose proof (c_array _ _ _ _ _ _ _ Hp). congruence.
  - intros b Hb Hnb _. destruct (decide (b = w_buf y)) as [->|Hne]; [congruence|].
    rewrite Hfr2 by by apply Hni. apply Hfr; [done..|]. by intros z [= <-].
Qed.

Lemma access_served s pkt a k db doff dl : cache_ok n s None no_block -> cpu_request s pkt a k db doff dl ->
  exists lat w s' pkt',
    ('(satisfied, blk, lat, writebacks, s, pkt) ← access_to s pkt [];
     if (satisfied : bool) then Ok (lat, writebacks, s, pkt)
     else '(l, writebacks, s, pkt) ← Cache.atomic_miss host alloc garbage gp gr n now s pkt blk writebacks;
          Ok (sint 32 (lat + l), writebacks, s, pkt)) = Ok (lat, wbs w, s', pkt') /\
    (pkt' = pkt \/ pkt' = Packet.assertShared pkt) /\ served s s' w pkt a k db doff dl.
Proof.
  intros Hok Hreq. destruct (access_cases s pkt a k db doff dl Hok Hreq) as (lat & s1 & Hok1 & Hc1 & Hlk & Hcase).
  pose proof (request_lookup s s1 pkt a k db doff dl Hlk Hreq) as Hreq1.
  destruct Hcase as [(p & Hh & ->)|[(p & b & Hh & Hb & Hv & Hwr & Hw & ->)|[Hmiss ->]]].
  - destruct (hit_ok s1 pkt a k db doff dl p Hok1 Hreq1 Hh) as (s2 & pkt' & Hsat & Hpk & Hsv).
    rewrite Hsat, !bind_Ok. exists lat, None, s2, pkt'. split_and!; try done. by apply (served_lookup s s1).
  - destruct (upgrade_ok s1 pkt a k db doff dl p b Hok1 Hreq1 Hh Hb Hv Hwr Hw) as (l & s2 & pkt' & Hm & Hpk & Hsv).
    rewrite bind_Ok, Hm, bind_Ok. eexists _, None, s2, pkt'. split_and!; try done. by apply (served_lookup s s1).
  - destruct (miss_ok s1 pkt a k db doff dl Hok1 Hreq1 Hmiss) as (l & w & s2 & pkt' & Hm & Hpk & Hsv).
    rewrite bind_Ok, Hm, bind_Ok. eexists _, w, s2, pkt'. split_and!; try done. by apply (served_lookup s s1).
Qed.

Lemma atomic_ok s pkt a k db doff dl : cache_ok n s None no_block -> cpu_request s pkt a k db doff dl ->
  exists lat s' r, Cache.atomicAccess host alloc garbage gp gr n now full s pkt = Ok (lat, s', r) /\
    served s s' None pkt a k db doff dl /\ Packet.cmd r = MemCmd.responseCommand (Packet.cmd pkt) /\
    Packet.req r = Packet.req pkt /\ Packet.data r = Packet.data pkt.
Proof.
  intros Hok Hreq. pose proof Hreq as [Hp _ _ _ _ _ _ _]. destruct (c_resp _ _ _ _ _ _ _ Hp) as (Hnr & Hfl & Hinh).
  destruct (access_served s pkt a k db doff dl Hok Hreq) as (lat & w & s1 & pkt' & E & Hpk & Hsv).
  destruct (writebacks_ok s s1 w pkt a k db doff dl Hreq Hsv) as (s2 & Hwb & Hsv2).
  assert (Hpk' : Packet.needsResponse pkt' = true /\ 0 <= Packet.flags pkt' /\ Packet.cmd pkt' = Packet.cmd pkt /\
    Packet.req pkt' = Packet.req pkt /\ Packet.data pkt' = Packet.data pkt).
  { destruct Hpk as [-> | ->]; split_and!; try done. simpl. apply Z.lor_nonneg. split; [done|]. done. }
  destruct Hpk' as (Hnr' & Hfl' & Hc' & Hr' & Hd').
  destruct (respond pkt' Hnr' Hfl') as (r & Hresp & Hc & Hr & Hd).
  exists lat, s2, r. split; [|split; [done|split_and!; congruence]].
  unfold Cache.atomicAccess. rewrite Hinh.
  destruct (access_to s pkt []) as [[[[[[sat blk] l0] wb0] s0] pkt0]|]; [|done].
  rewrite bind_Ok in E. rewrite bind_Ok. rewrite E, bind_Ok, Hwb, bind_Ok, Hnr', Hresp. done.
Qed.
End atomic.
End CacheAtomic.
