(* ===== verification/CacheTheorems.v ===== *)
(** * Theorems on the cache in atomic mode

    The cache and the memory below it are one array of bytes (Module [Flat]). *)
From S2P Require Import Prelude EventQueue IntMath Request Packet CacheTags CacheTagsProof CacheTagsTheorems PacketTheorems PhysMem PhysMemTheorems Mshr Cache CacheInv CacheServe CacheMiss CacheFill CacheAtomic.
Import LRU CacheCore.
Import CacheInv CacheStep CacheServe CacheMiss CacheFill CacheAtomic.

(** ** A flat memory *)
Module Flat.

(** A read or write of [size] bytes at [addr], whose bytes are in array [buf]
    from [off]. *)
Record op := mkOp { pkt : Packet.t; addr : Z; size : Z; buf : positive; off : Z }.

(** Bytes by address, and the requesters' arrays. *)
Record t := mk { cells : Z -> option Z; arrays : Bytes.mem }.

Definition update (f : Z -> option Z) (a : Z) (l : list Z) (x : Z) : option Z :=
  if decide (a <= x < a + Z.of_nat (length l)) then l !! Z.to_nat (x - a) else f x.

Definition step (s : t) (o : op) : res t :=
  if bool_decide (Packet.cmd (pkt o) = MemCmd.ReadReq) then
    l ← at_index (mapM (cells s) (seqZ (addr o) (size o)));
    m ← Bytes.write (arrays s) (buf o, off o) l;
    Ok (mk (cells s) m)
  else
    l ← Bytes.read (arrays s) (buf o, off o) (size o);
    Ok (mk (update (cells s) (addr o) l) (arrays s)).

Fixpoint run (s : t) (ops : list op) : res t :=
  match ops with [] => Ok s | o :: ops => s ← step s o; run s ops end.
End Flat.

Section flat.
Context {P : AtomicPeer} {F : AtomicMemory P}.
Context (host : ByteSwap.ByteOrder) (alloc : Bytes.mem -> positive) (garbage : Z -> list Z).
Context (gp : Packet.t) (gr : Request.t) (n now : Z) (full : bool).
Context (alloc_fresh : forall m, m !! alloc m = None).
Context (garbage_length : forall k, 0 <= k -> Z.of_nat (length (garbage k)) = k).

(** The cache serves the requests in turn. *)
Fixpoint atomic_run (s : Cache.t) (ops : list Flat.op) : res Cache.t :=
  match ops with
  | [] => Ok s
  | o :: ops => '(_, s, _) ← Cache.atomicAccess host alloc garbage gp gr n now full s (Flat.pkt o); atomic_run s ops
  end.

Definition requested (s : Cache.t) (o : Flat.op) : Prop :=
  exists dl, cpu_request s (Flat.pkt o) (Flat.addr o) (Flat.size o) (Flat.buf o) (Flat.off o) dl.

(** The cache and the flat memory hold the same bytes. *)
Definition same_bytes (s : Cache.t) (f : Flat.t) : Prop :=
  (forall x, 0 <= x < 2 ^ 64 -> contents s None x = Flat.cells f x) /\
  forall b, ~ involved s None b -> Cache.bytes s !! b = Flat.arrays f !! b.

(** The bytes that exist are those of the memory. *)
Lemma contents_dom s x : cache_ok n s None no_block -> 0 <= x < 2 ^ 64 ->
  is_Some (contents s None x) <-> is_Some (memory s x).
Proof.
  intros Hok Hx. destruct (findBlock_holds n (Cache.tags s) x (co_wf _ _ _ _ Hok)) as ([p|] & _ & Hh).
  2:{ by rewrite (contents_miss n s None no_block x Hok Hh). }
  pose proof (size_pos n s None no_block Hok) as Hpos. pose proof (Z.mod_pos_bound x _ Hpos) as Hmod.
  rewrite (contents_held n s None no_block x p Hok Hh). destruct (held_core n s None no_block x p Hok Hh) as (kc & Hk & Hv & _).
  destruct (co_line _ _ _ _ Hok p kc Hk Hv) as (a0 & Ha0 & Hh0 & Hs0). apply cores_inv in Hk as (b & Hb & _).
  apply lookup_lt_Some in Hb. destruct (co_array _ _ _ _ Hok) as (arr & Harr & Hlen). split; intros _.
  - apply (co_aligned _ _ _ _ Hok a0); [|done]. destruct (co_size _ _ _ _ Hok) as [<- _]. symmetry.
    by apply (holds_same_line n _ a0 x p (co_wf _ _ _ _ Hok) Ha0 Hx Hh0).
  - unfold cached, Bytes.byte. rewrite Harr. simpl.
    replace (0 <=? Cache.blkSize s * Z.of_nat p + x mod Cache.blkSize s) with true by nia. apply lookup_lt_is_Some_2. nia.
Qed.

Lemma bytes_at (f : Z -> option Z) a k : 0 <= k -> (forall x, a <= x < a + k -> is_Some (f x)) ->
  exists l, mapM f (seqZ a k) = Some l /\ Z.of_nat (length l) = k /\ forall i, 0 <= i < k -> l !! Z.to_nat i = f (a + i).
Proof.
  intros Hk Hf. destruct (mapM_is_Some_2 f (seqZ a k)) as [l Hl].
  { apply Forall_forall. intros x [H1 H2]%elem_of_seqZ. apply Hf. lia. }
  apply mapM_Some_1 in Hl as H2. exists l. split; [done|]. pose proof (Forall2_length _ _ _ H2) as Hlen. rewrite length_seqZ in Hlen.
  split; [lia|]. intros i Hi. assert (seqZ a k !! Z.to_nat i = Some (a + i)) as Hs by (apply lookup_seqZ; lia).
  destruct (Forall2_lookup_l _ _ _ _ _ H2 Hs) as (v & Hv & Hfv). by rewrite Hv.
Qed.

Lemma request_bytes s pkt a k db doff dl x : cache_ok n s None no_block -> cpu_request s pkt a k db doff dl ->
  a <= x < a + k -> 0 <= x < 2 ^ 64 /\ is_Some (contents s None x).
Proof.
  intros Hok Hreq Hx. pose proof (request_range _ _ _ _ _ _ _ Hreq). destruct Hreq as [_ _ _ _ _ Hin Hm _].
  split; [lia|]. apply contents_dom; [done|lia|]. pose proof (size_pos n s None no_block Hok) as Hpos.
  destruct (line_arith (Cache.blkSize s) a (x - a) Hpos) as [El _]; [lia|lia|].
  apply (co_aligned _ _ _ _ Hok a); [|done]. rewrite <- El. f_equal. lia.
Qed.

(** The same bytes exist before and after. *)
Lemma served_dom s s' pkt a k db doff dl x : cache_ok n s None no_block -> cpu_request s pkt a k db doff dl ->
  served n s s' None pkt a k db doff dl -> is_Some (memory s x) -> is_Some (memory s' x).
Proof.
  intros Hok Hreq [Hok' _ [Hr Hw] _ _] Hx. pose proof (co_inmem _ _ _ _ Hok x Hx) as Hx64. apply contents_dom; [done|done|].
  apply contents_dom in Hx; [|done|done]. destruct (cr_cmd _ _ _ _ _ _ _ Hreq) as [H|H].
  - destruct (Hr H) as [-> _]; done.
  - destruct (Hw H) as [_ ->]; [|done]. destruct (decide _); [|done]. apply lookup_lt_is_Some_2.
    destruct (c_room _ _ _ _ _ _ _ (cr_carries _ _ _ _ _ _ _ Hreq)). lia.
Qed.

(** Other requests can still be made. *)
Lemma served_requested s s' pkt a k db doff dl o : cache_ok n s None no_block -> cpu_request s pkt a k db doff dl ->
  served n s s' None pkt a k db doff dl -> requested s o -> requested s' o.
Proof.
  intros Hok Hreq Hsv [dl0 [Hp Hcmd Hpa Hun Hctx Hin Hm Hdb]].
  assert (exists dl1, Cache.bytes s' !! Flat.buf o = Some dl1 /\ length dl1 = length dl0) as (dl1 & Hb & Hl).
  { destruct (decide (Flat.buf o = db)) as [Eb|Hne].
    - pose proof (c_array _ _ _ _ _ _ _ (cr_carries _ _ _ _ _ _ _ Hreq)) as Hd. pose proof (c_array _ _ _ _ _ _ _ Hp) as Hd0.
      rewrite Eb in *. assert (dl0 = dl) as -> by congruence. destruct (sv_effect _ _ _ _ _ _ _ _ _ _ Hsv) as [Hr Hw].
      destruct (cr_cmd _ _ _ _ _ _ _ Hreq) as [H|H]; [destruct (Hr H) as (_ & dl' & E1 & E2 & _)|destruct (Hw H) as [E1 _]]; eauto.
    - exists dl0. rewrite (sv_frame _ _ _ _ _ _ _ _ _ _ Hsv); [|done|done|done]. split; [apply (c_array _ _ _ _ _ _ _ Hp)|done]. }
  pose proof (sv_shell _ _ _ _ _ _ _ _ _ _ Hsv) as Hsh. exists dl1. constructor; try done.
  - destruct Hp. constructor; try done. by rewrite Hl.
  - by rewrite (sh_size _ _ Hsh).
  - by apply (served_dom s s' pkt a k db doff dl).
  - by rewrite (involved_shell s s' None _ Hsh).
Qed.

(** One request, on both sides. *)
Lemma flat_step s s' f o dl : cache_ok n s None no_block ->
  cpu_request s (Flat.pkt o) (Flat.addr o) (Flat.size o) (Flat.buf o) (Flat.off o) dl ->
  served n s s' None (Flat.pkt o) (Flat.addr o) (Flat.size o) (Flat.buf o) (Flat.off o) dl ->
  same_bytes s f -> exists f', Flat.step f o = Ok f' /\ same_bytes s' f'.
Proof.
  intros Hok Hreq Hsv [Hcells Harr]. pose proof (request_range _ _ _ _ _ _ _ Hreq) as Hra.
  pose proof Hreq as [Hp Hcmd _ _ _ _ _ Hdb]. pose proof Hsv as [_ Hsh [Hr Hw] Hfr _].
  destruct (c_room _ _ _ _ _ _ _ Hp) as [Hd0 Hd1]. destruct (sz_range _ _ _ (c_sized _ _ _ _ _ _ _ Hp)) as (_ & Hk & _).
  assert (Hbuf : Flat.arrays f !! Flat.buf o = Some dl) by (rewrite <- Harr by done; apply (c_array _ _ _ _ _ _ _ Hp)).
  assert (Hnot : forall b, ~ involved s' None b -> ~ involved s None b) by (intros b; by rewrite (involved_shell s s' None b Hsh)).
  unfold Flat.step. destruct Hcmd as [H|H].
  - rewrite bool_decide_eq_true_2 by done. destruct (Hr H) as (Hc & dl' & Hb' & Hl' & Hi).
    destruct (bytes_at (Flat.cells f) (Flat.addr o) (Flat.size o)) as (l & -> & Hl & Hli); [lia| |].
    { intros x Hx. destruct (request_bytes _ _ _ _ _ _ _ x Hok Hreq Hx) as [Hx64 Hsome]. by rewrite <- Hcells. }
    cbn [at_index]. rewrite bind_Ok. destruct (write_splice (Flat.arrays f) (Flat.buf o) (Flat.off o) l dl Hbuf) as [-> Hlen]; [lia|lia|].
    rewrite bind_Ok. eexists. split; [done|]. split; simpl.
    + intros x Hx. by rewrite Hc, Hcells.
    + intros b Hb. destruct (decide (b = Flat.buf o)) as [->|Hne].
      * rewrite lookup_insert_eq, Hb'. f_equal. apply list_eq. intros i. rewrite <- (Nat2Z.id i), Hi by lia.
        unfold splice. rewrite Bytes.splice_lookup, Nat2Z.id by lia. destruct (decide _) as [Hin|].
        -- rewrite decide_True by lia. rewrite Hcells by lia. rewrite <- Hli by lia. f_equal. lia.
        -- by rewrite decide_False by lia.
      * rewrite lookup_insert_ne, Hfr by auto. by apply Harr, Hnot.
  - rewrite bool_decide_eq_false_2 by (rewrite H; done). destruct (Hw H) as [Hb' Hc].
    destruct (read_slice (Flat.arrays f) (Flat.buf o) (Flat.off o) (Flat.size o) dl Hbuf) as [-> Hlen]; [lia..|].
    rewrite bind_Ok. eexists. split; [done|]. split; simpl.
    + intros x Hx. rewrite Hc by done. unfold Flat.update. rewrite Hlen, Z2Nat.id by lia. destruct (decide _); [|by apply Hcells].
      unfold slice. rewrite Bytes.take_drop_lookup, decide_True by lia. f_equal. lia.
    + intros b Hb. destruct (decide (b = Flat.buf o)) as [->|Hne]; [congruence|].
      rewrite Hfr by auto. by apply Harr, Hnot.
Qed.

Lemma flat_run s f ops : cache_ok n s None no_block -> same_bytes s f -> Forall (requested s) ops ->
  exists s' f', atomic_run s ops = Ok s' /\ Flat.run f ops = Ok f' /\ cache_ok n s' None no_block /\ same_bytes s' f' /\
    shell s s'.
Proof.
  revert s f. induction ops as [|o ops IH]; intros s f Hok Hsame Hall; [by exists s, f|].
  apply Forall_cons in Hall as [[dl Hreq] Hall].
  destruct (atomic_ok host alloc garbage gp gr n now full alloc_fresh garbage_length s _ _ _ _ _ dl Hok Hreq) as (lat & s1 & r & Hacc & Hsv & _).
  destruct (flat_step s s1 f o dl Hok Hreq Hsv Hsame) as (f1 & Hstep & Hsame1).
  destruct (IH s1 f1) as (s' & f' & E1 & E2 & H1 & H2 & H3); [apply Hsv|done| |].
  { eapply Forall_impl; [exact Hall|]. intros o' Ho'. by apply (served_requested s s1 _ _ _ _ _ dl o' Hok Hreq Hsv). }
  exists s', f'. simpl. rewrite Hacc, Hstep, !bind_Ok. split_and!; try done. etrans; [apply Hsv|done].
Qed.
End flat.

(** ** The claims *)

(** C9. A cache over a memory is transparent: it serves every read and write of the
    CPU that lies within a block and within the memory, on a hit, on a miss with
    or without a dirty victim, and on a write to a block it may only read.  A
    read delivers the bytes of the cache and the memory together and changes
    none of them; a write changes exactly its own bytes; the invariant is kept,
    and the arrays of others are left alone: whatever was allocated on the way is
    freed again. *)
Theorem cache_serves_request {P : AtomicPeer} {F : AtomicMemory P} host alloc garbage gp gr n now full s pkt a k db doff dl :
  (forall m : Bytes.mem, m !! alloc m = None) -> (forall k, 0 <= k -> Z.of_nat (length (garbage k)) = k) ->
  cache_ok n s None no_block -> cpu_request s pkt a k db doff dl ->
  exists lat s' r, Cache.atomicAccess host alloc garbage gp gr n now full s pkt = Ok (lat, s', r) /\
    cache_ok n s' None no_block /\ Packet.cmd r = MemCmd.responseCommand (Packet.cmd pkt) /\
    (Packet.cmd pkt = MemCmd.ReadReq -> (forall x, 0 <= x < 2 ^ 64 -> contents s' None x = contents s None x) /\
       exists dl', Cache.bytes s' !! db = Some dl' /\ length dl' = length dl /\ forall i, 0 <= i ->
         dl' !! Z.to_nat i = if decide (doff <= i < doff + k) then contents s None (a + (i - doff)) else dl !! Z.to_nat i) /\
    (Packet.cmd pkt = MemCmd.WriteReq -> Cache.bytes s' !! db = Some dl /\ forall x, 0 <= x < 2 ^ 64 ->
       contents s' None x = if decide (a <= x < a + k) then dl !! Z.to_nat (doff + (x - a)) else contents s None x) /\
    forall b, b <> db -> ~ involved s None b -> Cache.bytes s' !! b = Cache.bytes s !! b.
Proof.
  intros Hal Hga Hok Hreq.
  destruct (atomic_ok host alloc garbage gp gr n now full Hal Hga s pkt a k db doff dl Hok Hreq) as (lat & s' & r & E & [Hok' _ [Hr Hw] Hfr _] & Hc & _).
  exists lat, s', r. split_and!; try done. intros b Hb Hni. by apply Hfr.
Qed.

(** C8. Any sequence of such reads and writes over a cache behaves as over one flat
    array of bytes: all of them are served, and the requesters' arrays and the
    bytes at every address end up the same, whatever was replaced, written back
    and fetched again on the way. *)
Theorem cache_refines_flat_memory {P : AtomicPeer} {F : AtomicMemory P} host alloc garbage gp gr n now full s ops :
  (forall m : Bytes.mem, m !! alloc m = None) -> (forall k, 0 <= k -> Z.of_nat (length (garbage k)) = k) ->
  cache_ok n s None no_block -> Forall (requested s) ops ->
  exists s' f', atomic_run host alloc garbage gp gr n now full s ops = Ok s' /\
    Flat.run (Flat.mk (contents s None) (Cache.bytes s)) ops = Ok f' /\ cache_ok n s' None no_block /\
    (forall x, 0 <= x < 2 ^ 64 -> contents s' None x = Flat.cells f' x) /\
    forall b, ~ involved s None b -> Cache.bytes s' !! b = Flat.arrays f' !! b.
Proof.
  intros Hal Hga Hok Hops. destruct (flat_run host alloc garbage gp gr n now full Hal Hga s (Flat.mk (contents s None) (Cache.bytes s)) ops)
    as (s' & f' & E1 & E2 & H1 & [H2 H3] & Hsh); [done|by split|done|]. exists s', f'. split_and!; try done.
  intros b Hb. apply H3. by rewrite (involved_shell s s' None b Hsh).
Qed.

(** ** A cache of eight 64-byte blocks over 4 kB of memory *)
Definition demo_peer : AtomicPeer := physmem_atomic ByteSwap.LittleEndianByteOrder 0.
#[local] Existing Instance demo_peer.
#[local] Instance demo_below : AtomicMemory demo_peer := PhysMemBelow.physmem_below ByteSwap.LittleEndianByteOrder 0.
Definition demo_mem : PhysicalMemory.t := PhysicalMemory.mk [] (Some 1%positive) 0 10 0 4096 0x1000.
Definition demo_arrays : Bytes.mem :=
  list_to_map [(1%positive, replicate 4096 5); (2%positive, replicate 512 0); (3%positive, replicate 64 0);
               (4%positive, [90; 91; 92; 93]); (5%positive, [0; 0; 0; 0]);
               (6%positive, [0; 0; 0; 0]); (7%positive, replicate 64 0)].
Definition demo_cache : Cache.t :=
  Cache.mk demo_arrays demo_lru 2 (CacheBlk.set_status CacheBlk.new 0) 3 64 1 (MSHR.mkStore ∅ ∅ ∅) (MSHRQueue.mk [] [] [] 0 0 0 0)
    (fun _ => [0]) (fun _ => [0]) 0 false (demo_mem : peer).

(** Four bytes at [a], in array [b]. *)
Definition demo_op (c : MemCmd.Command) (a : Z) (b : positive) : Flat.op :=
  Flat.mkOp (Packet.mk 0x1f00 c (Request.mk a 4 0 0x23 0 0 0 0 0 0 0) (Some (b, 0)) a 4 3 0 MemCmd.InvalidCmd 0 0 0 None) a 4 b 0.
Definition demo_pkt0 : Packet.t := Packet.mk 0 MemCmd.InvalidCmd (Request.mk 0 0 0 0 0 0 0 0 0 0 0) None 0 0 0 0 MemCmd.InvalidCmd 0 0 0 None.
Definition demo_alloc (m : Bytes.mem) : positive := fresh (dom m : gset positive).
Definition demo_garbage (k : Z) : list Z := replicate (Z.to_nat k) 0xcd.

Lemma demo_alloc_fresh (m : Bytes.mem) : m !! demo_alloc m = None.
Proof. apply not_elem_of_dom. apply (is_fresh (dom m : gset positive)). Qed.
Lemma demo_garbage_length k : 0 <= k -> Z.of_nat (length (demo_garbage k)) = k.
Proof. unfold demo_garbage. rewrite length_replicate. lia. Qed.

Lemma demo_cache_memory a : is_Some (memory demo_cache a) <-> 0x1000 <= a < 0x2000.
Proof.
  assert (PhysMemTheorems.holds_bytes demo_arrays demo_mem 1 (replicate 4096 5)) as Hb by (split; [done|done|done|simpl; lia]).
  change (memory demo_cache a) with (PhysMemBelow.pm_byte demo_arrays demo_mem a).
  rewrite (PhysMemBelow.pm_byte_eq _ _ _ _ a Hb). change (PhysicalMemory.cachedStart demo_mem) with 0x1000.
  destruct (Z.leb_spec 0 (a - 0x1000)).
  - rewrite lookup_lt_is_Some, length_replicate. lia.
  - split; [intros [? ?]; done|lia].
Qed.

Definition core_fixedb (c : LRU.t) (size : Z) : bool :=
  forallb (fun '(p, k) => (k_data k =? size * Z.of_nat p) && (k_set k =? Z.of_nat (set_of c p)) && negb (k_valid k))
          (imap (fun p k => (p, k)) (cores c)).

Lemma demo_cores p k : cores demo_lru !! p = Some k ->
  k_data k = 64 * Z.of_nat p /\ k_set k = Z.of_nat (set_of demo_lru p) /\ k_valid k = false.
Proof.
  assert (core_fixedb demo_lru 64 = true) as H by by vm_compute. intros Hk.
  apply forallb_forall with (x := (p, k)) in H; [simpl in H; destruct (k_valid k); lia|].
  apply list_elem_of_In. apply list_elem_of_lookup_2 with p. by rewrite list_lookup_imap, Hk.
Qed.

Lemma demo_cache_ok : cache_ok 1 demo_cache None no_block.
Proof.
  constructor.
  - apply demo_lru_ok.
  - apply demo_lru_ok.
  - split; [reflexivity|simpl; lia].
  - intros p k Hk. by destruct (demo_cores p k Hk) as (? & ? & _).
  - exists (replicate 512 0). by split.
  - split; [|done]. split; [done|]. exists 1%positive, (replicate 4096 5). split; [done|done|done|simpl; lia].
  - done.
  - intros p k Hk Hv. destruct (demo_cores p k Hk) as (_ & _ & H). congruence.
  - intros p k Hk Hv. destruct (demo_cores p k Hk) as (_ & _ & H). congruence.
  - intros a p k _ Hh Hk. destruct (demo_cores p k Hk) as (_ & _ & H). apply holds_core in Hh as [_ (k' & Hk' & _ & Hv)]. congruence.
  - intros a a' Ha. rewrite !demo_cache_memory. change (Cache.blkSize demo_cache) with 64 in Ha.
    pose proof (Z.div_mod a 64 ltac:(lia)). pose proof (Z.mod_pos_bound a 64 ltac:(lia)).
    pose proof (Z.div_mod a' 64 ltac:(lia)). pose proof (Z.mod_pos_bound a' 64 ltac:(lia)). lia.
  - intros a. rewrite demo_cache_memory. lia.
  - done.
  - simpl. lia.
Qed.

Lemma demo_requested c a b : c = MemCmd.ReadReq \/ c = MemCmd.WriteReq -> 0x1000 <= a < 0x2000 -> a mod 64 <= 60 ->
  (b = 4%positive \/ b = 5%positive) -> requested demo_cache (demo_op c a b).
Proof.
  intros Hc Ha Hm Hb. exists (default [] (demo_arrays !! b)).
  assert (~ involved demo_cache None b) as Hni.
  { intros [H|[H|(y & ? & _)]]; [|injection H as H|done]; destruct Hb as [-> | ->]; done. }
  constructor; try done.
  - constructor; try done; [constructor; simpl; try done; lia|by destruct Hb as [-> | ->]|by destruct Hb as [-> | ->]|by destruct Hc as [-> | ->]].
  - change (a mod 64 + 4 <= 64). lia.
  - by apply demo_cache_memory.
Qed.

(** The line that is written is replaced and fetched again. *)
Definition demo_ops : list Flat.op :=
  [demo_op MemCmd.WriteReq 0x1004 4; demo_op MemCmd.ReadReq 0x1104 5; demo_op MemCmd.ReadReq 0x1204 5; demo_op MemCmd.ReadReq 0x1004 5].

Abbreviation demo_run := (atomic_run ByteSwap.LittleEndianByteOrder demo_alloc demo_garbage demo_pkt0 (Packet.req demo_pkt0) 1 7 false).
Abbreviation demo_access :=
  (Cache.atomicAccess ByteSwap.LittleEndianByteOrder demo_alloc demo_garbage demo_pkt0 (Packet.req demo_pkt0) 1 7 false).

Lemma cache_serves_request_witness :
  exists lat s' r, demo_access demo_cache (Flat.pkt (demo_op MemCmd.ReadReq 0x1004 5)) = Ok (lat, s', r) /\
    Cache.bytes s' !! 5%positive = Some [5; 5; 5; 5].
Proof.
  destruct (demo_requested MemCmd.ReadReq 0x1004 5) as (dl & Hreq); [by left|lia|vm_compute; discriminate|by right|].
  destruct (cache_serves_request ByteSwap.LittleEndianByteOrder demo_alloc demo_garbage demo_pkt0 (Packet.req demo_pkt0) 1 7 false
    demo_cache (Flat.pkt (demo_op MemCmd.ReadReq 0x1004 5)) 0x1004 4 5 0 dl demo_alloc_fresh demo_garbage_length demo_cache_ok Hreq)
    as (lat & s' & r & E & _ & _ & Hr & _). exists lat, s', r. split; [exact E|].
  destruct (Hr eq_refl) as (_ & dl' & Hd & Hl & Hi). rewrite Hd. f_equal.
  assert (dl = [0; 0; 0; 0]) as ->.
  { pose proof (PhysMemTheorems.c_array _ _ _ _ _ _ _ (cr_carries _ _ _ _ _ _ _ Hreq)) as Ha. vm_compute in Ha. by injection Ha as <-. }
  apply list_eq. intros i. destruct (decide (i < 4)%nat) as [Hlt|Hge].
  - rewrite <- (Nat2Z.id i), Hi by lia. do 4 (destruct i as [|i]; [vm_compute; reflexivity|]). lia.
  - rewrite !lookup_ge_None_2; [done|simpl; lia|rewrite Hl; simpl; lia].
Defined.

Lemma cache_refines_flat_memory_witness :
  exists s', demo_run demo_cache demo_ops = Ok s' /\ Cache.bytes s' !! 5%positive = Some [90; 91; 92; 93].
Proof.
  destruct (cache_refines_flat_memory ByteSwap.LittleEndianByteOrder demo_alloc demo_garbage demo_pkt0 (Packet.req demo_pkt0) 1 7 false
    demo_cache demo_ops demo_alloc_fresh demo_garbage_length demo_cache_ok) as (s' & f' & E1 & E2 & _ & _ & Hb).
  - repeat apply Forall_cons_2; try apply Forall_nil_2; apply demo_requested; auto; try lia; vm_compute; discriminate.
  - exists s'. split; [exact E1|].
    assert (match Flat.run (Flat.mk (contents demo_cache None) (Cache.bytes demo_cache)) demo_ops with
            | Ok f => Flat.arrays f !! 5%positive | Er _ => None end = Some [90; 91; 92; 93]) as H by (vm_compute; reflexivity).
    rewrite E2 in H. rewrite Hb, H; [reflexivity|]. intros [Hi|[Hi|(y & ? & _)]]; discriminate.
Defined.

(** Load-locks survive replacement: a line is loaded with a lock, replaced, changed
    in memory by another context while the cache does not hold it, and fetched
    again into the same block; the store conditional of the first context then
    succeeds and overwrites the other's bytes. *)
Definition demo_llsc : res (option (list Z) * option (list Z) * Z) :=
  s ← demo_run demo_cache [demo_op MemCmd.LoadLockedReq 0x1004 5; demo_op MemCmd.ReadReq 0x1104 6;
                           demo_op MemCmd.ReadReq 0x1204 6; demo_op MemCmd.ReadReq 0x1304 6];
  let first := Cache.bytes s !! 5%positive in
  '(_, m, x, _) ← sendAtomic (Cache.bytes s) (Cache.below s) (Flat.pkt (demo_op MemCmd.WriteReq 0x1004 4));
  s ← demo_run (Cache.set_below (Cache.set_bytes s m) x) [demo_op MemCmd.ReadReq 0x1004 6];
  '(_, s', r) ← demo_access s (Flat.pkt (demo_op MemCmd.StoreCondReq 0x1004 5));
  ok ← Request.getExtraData (Packet.req r);
  Ok (first, Cache.bytes s !! 6%positive, ok).

Theorem load_lock_survives_replacement : demo_llsc = Ok (Some [5; 5; 5; 5], Some [90; 91; 92; 93], 1).
Proof. vm_compute. reflexivity. Qed.

(** A conditional swap that fails loses a write: the upgrade for it replaces the
    block's whole status, the swap does not mark the block dirty again, and so
    the bytes written before it are dropped when the block is replaced. *)
Definition demo_block_read : Flat.op :=
  Flat.mkOp (Packet.mk 0x1f00 MemCmd.ReadReq (Request.mk 0x1000 64 0 0x23 0 0 0 0 0 0 0) (Some (7%positive, 0)) 0x1000 64 3 0
    MemCmd.InvalidCmd 0 0 0 None) 0x1000 64 7 0.
Definition demo_swap : Flat.op :=
  Flat.mkOp (Packet.mk 0x1f00 MemCmd.SwapReq
    (Request.mk 0x1004 4 Request.MEM_SWAP_COND 0xa3 0 0 0 0xffff 0 0 0) (Some (6%positive, 0)) 0x1004 4 3 0 MemCmd.InvalidCmd 0 0 0 None) 0x1004 4 6 0.

Definition demo_swap_run (l : list Flat.op) : res (option (list Z)) :=
  s ← demo_run demo_cache ([demo_op MemCmd.WriteReq 0x1004 4; demo_block_read] ++ l ++
                           [demo_op MemCmd.ReadReq 0x1104 5; demo_op MemCmd.ReadReq 0x1204 5; demo_op MemCmd.ReadReq 0x1304 5; demo_op MemCmd.ReadReq 0x1004 5]);
  Ok (Cache.bytes s !! 5%positive).

Theorem failed_swap_loses_write :
  demo_swap_run [] = Ok (Some [90; 91; 92; 93]) /\ demo_swap_run [demo_swap] = Ok (Some [5; 5; 5; 5]).
Proof. split; vm_compute; reflexivity. Qed.
