(* ===== verification/Rob.v ===== *)
(** * The reorder buffer

    [src/cpu/base_dyn_inst.hh] (Module [DynInst]: the status bits of a dynamic
    instruction), [src/cpu/o3/rob.hh] and [rob_impl.hh] (Module [ROB]), the
    choice of the thread that commits in [src/cpu/o3/commit_impl.hh] (Module
    [Commit]) and the CPU's list of instructions in flight in
    [src/cpu/o3/cpu.cc] (Module [InstList]).

    A [DynInstPtr] is a key into the instructions; an iterator of a list of
    instructions is the instruction its node holds, since every instruction is
    put on a list at most once. *)
From S2P Require Import Prelude.

(** ** Dynamic instructions *)
Module DynInst.

Inductive Status :=
| IqEntry | RobEntry | LsqEntry | Completed | ResultReady | CanIssue | Issued | Executed | CanCommit | AtCommit
| Committed | Squashed | SquashedInIQ | SquashedInLSQ | SquashedInROB | RecoverInst | BlockingInst | ThreadsyncWait
| SerializeBefore | SerializeAfter | SerializeHandled.

#[export] Instance status_eq_dec : EqDecision Status.
Proof. solve_decision. Defined.

(** The position of a status in the bit set. *)
Definition bit (st : Status) : Z :=
  match st with
  | IqEntry => 0 | RobEntry => 1 | LsqEntry => 2 | Completed => 3 | ResultReady => 4 | CanIssue => 5 | Issued => 6
  | Executed => 7 | CanCommit => 8 | AtCommit => 9 | Committed => 10 | Squashed => 11 | SquashedInIQ => 12
  | SquashedInLSQ => 13 | SquashedInROB => 14 | RecoverInst => 15 | BlockingInst => 16 | ThreadsyncWait => 17
  | SerializeBefore => 18 | SerializeAfter => 19 | SerializeHandled => 20
  end.

Record t := mk { seqNum : Z; threadNumber : Z; status : Z }.

Definition has (i : t) (st : Status) : bool := Z.testbit (status i) (bit st).
Definition set (st : Status) (i : t) : t := mk (seqNum i) (threadNumber i) (Z.setbit (status i) (bit st)).
Definition reset (st : Status) (i : t) : t := mk (seqNum i) (threadNumber i) (Z.clearbit (status i) (bit st)).

Lemma bit_inj st st' : bit st = bit st' -> st = st'.
Proof. by destruct st, st'. Qed.
Lemma bit_nonneg st : 0 <= bit st.
Proof. by destruct st. Qed.

Lemma has_set i st st' : has (set st i) st' = bool_decide (st = st') || has i st'.
Proof.
  unfold has, set. simpl. rewrite Z.setbit_eqb by apply bit_nonneg. f_equal.
  case_bool_decide as H; [subst; apply Z.eqb_refl|]. apply Z.eqb_neq. intros E. by apply H, bit_inj.
Qed.
Lemma has_reset i st st' : has (reset st i) st' = has i st' && negb (bool_decide (st = st')).
Proof.
  unfold has, reset. simpl. rewrite Z.clearbit_eqb. f_equal. f_equal.
  case_bool_decide as H; [subst; apply Z.eqb_refl|]. apply Z.eqb_neq. intros E. by apply H, bit_inj.
Qed.
End DynInst.

(** ** Iterators *)

(** An iterator: at an instruction, or the end of the list of thread [tid]. *)
Inductive It := Node (id : Z) | End (tid : Z).

#[export] Instance it_eq_dec : EqDecision It.
Proof. solve_decision. Defined.

(** [l.begin()], [--l.end()] and [--it] on the list [l] of a thread. *)
Definition it_begin (tid : Z) (l : list Z) : It := match l with [] => End tid | x :: _ => Node x end.
Definition it_last (l : list Z) : res It := match last l with Some x => Ok (Node x) | None => Er BadPointer end.
Fixpoint it_pred (l : list Z) (x : Z) : res It :=
  match l with
  | [] => Er BadPointer
  | y :: l' =>
      match l' with
      | [] => Er BadPointer
      | z :: _ => if z =? x then Ok (Node y) else it_pred l' x
      end
  end.

(** [*it] for an iterator of [l]. *)
Definition it_deref (l : list Z) (it : It) : res Z :=
  match it with
  | Node x => if bool_decide (x ∈ l) then Ok x else Er BadPointer
  | End _ => Er BadPointer
  end.

(** ** The reorder buffer *)
Module ROB.

Inductive Status := Running | Idle | ROBSquashing.
Inductive ROBPolicy := Dynamic | Partitioned | Threshold.

#[export] Instance policy_eq_dec : EqDecision ROBPolicy.
Proof. solve_decision. Defined.

(** The elements of the per-thread arrays that belong to one thread. *)
Record Thread := mkThread {
  robStatus : Status;
  threadEntries : Z;
  maxEntries : Z;
  instList : list Z;
  squashIt : It;
  squashedSeqNum : Z;
  doneSquashing : bool
}.

(** [insts] are the instructions that pointers lead to; [removeList] is the
    CPU's queue of instructions to remove and [dummyInst] the null pointer. *)
Record t := mk {
  insts : gmap Z DynInst.t;
  robPolicy : ROBPolicy;
  numEntries : Z;
  squashWidth : Z;
  threads : list Thread;
  numThreads : Z;
  activeThreads : list Z;
  tail : It;
  head : It;
  numInstsInROB : Z;
  removeList : list Z;
  removeInstsThisCycle : bool
}.

Definition set_insts (s : t) (m : gmap Z DynInst.t) : t :=
  mk m (robPolicy s) (numEntries s) (squashWidth s) (threads s) (numThreads s) (activeThreads s) (tail s) (head s)
     (numInstsInROB s) (removeList s) (removeInstsThisCycle s).
Definition set_threads (s : t) (l : list Thread) : t :=
  mk (insts s) (robPolicy s) (numEntries s) (squashWidth s) l (numThreads s) (activeThreads s) (tail s) (head s)
     (numInstsInROB s) (removeList s) (removeInstsThisCycle s).
Definition set_tail (s : t) (it : It) : t :=
  mk (insts s) (robPolicy s) (numEntries s) (squashWidth s) (threads s) (numThreads s) (activeThreads s) it (head s)
     (numInstsInROB s) (removeList s) (removeInstsThisCycle s).
Definition set_head (s : t) (it : It) : t :=
  mk (insts s) (robPolicy s) (numEntries s) (squashWidth s) (threads s) (numThreads s) (activeThreads s) (tail s) it
     (numInstsInROB s) (removeList s) (removeInstsThisCycle s).
Definition set_num (s : t) (n : Z) : t :=
  mk (insts s) (robPolicy s) (numEntries s) (squashWidth s) (threads s) (numThreads s) (activeThreads s) (tail s) (head s)
     n (removeList s) (removeInstsThisCycle s).
Definition set_active (s : t) (l : list Z) : t :=
  mk (insts s) (robPolicy s) (numEntries s) (squashWidth s) (threads s) (numThreads s) l (tail s) (head s)
     (numInstsInROB s) (removeList s) (removeInstsThisCycle s).

Definition set_list (l : list Z) (th : Thread) : Thread :=
  mkThread (robStatus th) (threadEntries th) (maxEntries th) l (squashIt th) (squashedSeqNum th) (doneSquashing th).
Definition set_entries (n : Z) (th : Thread) : Thread :=
  mkThread (robStatus th) n (maxEntries th) (instList th) (squashIt th) (squashedSeqNum th) (doneSquashing th).
Definition set_max (n : Z) (th : Thread) : Thread :=
  mkThread (robStatus th) (threadEntries th) n (instList th) (squashIt th) (squashedSeqNum th) (doneSquashing th).
Definition set_squashIt (it : It) (th : Thread) : Thread :=
  mkThread (robStatus th) (threadEntries th) (maxEntries th) (instList th) it (squashedSeqNum th) (doneSquashing th).
Definition set_done (b : bool) (th : Thread) : Thread :=
  mkThread (robStatus th) (threadEntries th) (maxEntries th) (instList th) (squashIt th) (squashedSeqNum th) b.
Definition start_squash (n : Z) (th : Thread) : Thread :=
  mkThread ROBSquashing (threadEntries th) (maxEntries th) (instList th) (squashIt th) n false.

(** Through pointers. *)
Definition inst (s : t) (id : Z) : res DynInst.t := deref (insts s !! id).
Definition upd_inst (s : t) (id : Z) (f : DynInst.t -> DynInst.t) : res t :=
  i ← inst s id; Ok (set_insts s (<[id := f i]> (insts s))).
Definition upd_thread (s : t) (tid : Z) (f : Thread -> Thread) : res t :=
  th ← vget (threads s) tid; l ← vset (threads s) tid (f th); Ok (set_threads s l).

(** [*it] for an iterator of any thread's list. *)
Definition deref_any (s : t) (it : It) : res DynInst.t :=
  match it with
  | Node x =>
      i ← inst s x;
      th ← vget (threads s) (DynInst.threadNumber i);
      _ ← it_deref (instList th) it;
      Ok i
  | End _ => Er BadPointer
  end.

(** ** Construction and hand-over *)

(** [std::transform] with [tolower]. *)
Definition to_lower (c : Ascii.ascii) : Ascii.ascii :=
  let n := Ascii.N_of_ascii c in
  if ((65 <=? n) && (n <=? 90))%N then Ascii.ascii_of_N (n + 32) else c.
Fixpoint lower (p : string) : string :=
  match p with EmptyString => EmptyString | String c p => String (to_lower c) (lower p) end.

(** The constructor; [robStatus], and the per-thread elements above
    [numThreads], are not initialised: [st] is what the storage held. *)
Definition new (m : gmap Z DynInst.t) (st : Status) (_numEntries _squashWidth : Z) (_smtROBPolicy : string)
    (_smtROBThreshold _numThreads : Z) : res t :=
  let thread max tid := mkThread st 0 max [] (End tid) 0 true in
  let name := lower _smtROBPolicy in
  '(policy, max) ← (if bool_decide (name = "dynamic"%string) then Ok (Dynamic, _numEntries)
                    else if bool_decide (name = "partitioned"%string) then
                      if _numThreads =? 0 then Er DivByZero else Ok (Partitioned, _numEntries / _numThreads)
                    else if bool_decide (name = "threshold"%string) then Ok (Threshold, _smtROBThreshold)
                    else Er AssertFail);
  Ok (mk m policy _numEntries _squashWidth (map (thread max) (seqZ 0 _numThreads)) _numThreads [] (End 0) (End 0) 0 [] false).

Definition setActiveThreads (s : t) (at_ptr : list Z) : t := set_active s at_ptr.

Definition switchOut (s : t) : t := set_threads s (map (set_list []) (threads s)).
Definition takeOverFrom (s : t) : t :=
  set_tail (set_head (set_num (set_threads s (imap (fun tid th => set_squashIt (End (Z.of_nat tid)) (set_entries 0 (set_done true th)))
    (threads s))) 0) (End 0)) (End 0).

(** [resetEntries()]; the loop over the active threads is [reset_loop]. *)
Fixpoint reset_loop (s : t) (active_threads : Z) (l : list Z) : res t :=
  match l with
  | [] => Ok s
  | tid :: l =>
      s ← (if bool_decide (robPolicy s = Partitioned) then
             upd_thread s tid (set_max (numEntries s / active_threads))
           else if bool_decide (robPolicy s = Threshold) && (active_threads =? 1) then
             upd_thread s tid (set_max (numEntries s))
           else Ok s);
      reset_loop s active_threads l
  end.
Definition resetEntries (s : t) : res t :=
  if negb (bool_decide (robPolicy s = Dynamic)) || (1 <? numThreads s)
  then reset_loop s (Z.of_nat (length (activeThreads s))) (activeThreads s) else Ok s.

Definition entryAmount (s : t) (num_threads : Z) : res Z :=
  if bool_decide (robPolicy s = Partitioned) then
    if num_threads =? 0 then Er DivByZero else Ok (numEntries s / num_threads)
  else Ok 0.

(** ** Counting *)
Definition countInsts_tid (s : t) (tid : Z) : res Z := th ← vget (threads s) tid; Ok (Z.of_nat (length (instList th))).
Definition countInsts (s : t) : Z := foldr (fun th n => Z.of_nat (length (instList th)) + n) 0 (threads s).
Definition numFreeEntries (s : t) : Z := uint 32 (numEntries s - numInstsInROB s).
Definition numFreeEntries_tid (s : t) (tid : Z) : res Z :=
  th ← vget (threads s) tid; Ok (uint 32 (maxEntries th - threadEntries th)).
Definition getMaxEntries (s : t) (tid : Z) : res Z := th ← vget (threads s) tid; Ok (maxEntries th).
Definition getThreadEntries (s : t) (tid : Z) : res Z := th ← vget (threads s) tid; Ok (threadEntries th).
Definition isFull (s : t) : bool := numInstsInROB s =? numEntries s.
Definition isFull_tid (s : t) (tid : Z) : res bool := th ← vget (threads s) tid; Ok (threadEntries th =? numEntries s).
Definition isEmpty (s : t) : bool := numInstsInROB s =? 0.
Definition isEmpty_tid (s : t) (tid : Z) : res bool := th ← vget (threads s) tid; Ok (threadEntries th =? 0).
Definition isDoneSquashing (s : t) (tid : Z) : res bool := th ← vget (threads s) tid; Ok (doneSquashing th).

(** ** Head and tail *)
Fixpoint head_loop (s : t) (lowest : option Z) (l : list Z) : res (option Z * t) :=
  match l with
  | [] => Ok (lowest, s)
  | tid :: l =>
      th ← vget (threads s) tid;
      match instList th with
      | [] => head_loop s lowest l
      | x :: _ =>
          i ← inst s x;
          match lowest with
          | None => head_loop (set_head s (Node x)) (Some (DynInst.seqNum i)) l
          | Some n =>
              if DynInst.seqNum i <? n then head_loop (set_head s (Node x)) (Some (DynInst.seqNum i)) l
              else head_loop s lowest l
          end
      end
  end.
Definition updateHead (s : t) : res t :=
  '(lowest, s) ← head_loop s None (activeThreads s);
  Ok (match lowest with None => set_head s (End 0) | Some _ => s end).

Fixpoint tail_loop (s : t) (first_valid : bool) (l : list Z) : res t :=
  match l with
  | [] => Ok s
  | tid :: l =>
      th ← vget (threads s) tid;
      if bool_decide (instList th = []) then tail_loop s first_valid l
      else if first_valid then
        it ← it_last (instList th); tail_loop (set_tail s it) false l
      else
        it ← it_last (instList th);
        i ← deref_any s it;
        j ← deref_any s (tail s);
        tail_loop (if DynInst.seqNum j <? DynInst.seqNum i then set_tail s it else s) false l
  end.
Definition updateTail (s : t) : res t := tail_loop (set_tail s (End 0)) true (activeThreads s).

(** ** Insertion and retirement *)
Definition insertInst (s : t) (id : Z) : res t :=
  _ ← c_assert (negb (numInstsInROB s =? numEntries s));
  i ← inst s id;
  let tid := DynInst.threadNumber i in
  s ← upd_thread s tid (fun th => set_list (instList th ++ [id]) th);
  th ← vget (threads s) tid;
  s ← (if numInstsInROB s =? 0 then
         let it := it_begin tid (instList th) in
         x ← it_deref (instList th) it;
         _ ← c_assert (x =? id);
         Ok (set_head s it)
       else Ok s);
  it ← it_last (instList th);
  s ← upd_inst (set_tail s it) id (DynInst.set DynInst.RobEntry);
  s ← upd_thread (set_num s (numInstsInROB s + 1)) tid (fun th => set_entries (uint 32 (threadEntries th + 1)) th);
  x ← it_deref (instList th) it;
  _ ← c_assert (x =? id);
  Ok s.

(** [cpu->removeFrontInst(inst)]. *)
Definition removeFrontInst (s : t) (id : Z) : t :=
  mk (insts s) (robPolicy s) (numEntries s) (squashWidth s) (threads s) (numThreads s) (activeThreads s) (tail s) (head s)
     (numInstsInROB s) (removeList s ++ [id]) true.

Definition retireHead (s : t) (tid : Z) : res t :=
  _ ← c_assert (0 <? numInstsInROB s);
  th ← vget (threads s) tid;
  x ← it_deref (instList th) (it_begin tid (instList th));
  i ← inst s x;
  _ ← c_assert (DynInst.has i DynInst.CanCommit);
  s ← upd_thread (set_num s (numInstsInROB s - 1)) tid (fun th => set_entries (uint 32 (threadEntries th - 1)) th);
  s ← upd_inst s x (fun i => DynInst.set DynInst.Committed (DynInst.reset DynInst.RobEntry i));
  s ← upd_thread s tid (fun th => set_list (list.tail (instList th)) th);
  s ← updateHead s;
  Ok (removeFrontInst s x).

Definition isHeadReady (s : t) (tid : Z) : res bool :=
  th ← vget (threads s) tid;
  if negb (threadEntries th =? 0) then
    x ← it_deref (instList th) (it_begin tid (instList th)); i ← inst s x; Ok (DynInst.has i DynInst.CanCommit)
  else Ok false.
Fixpoint can_commit (s : t) (l : list Z) : res bool :=
  match l with
  | [] => Ok false
  | tid :: l => b ← isHeadReady s tid; if (b : bool) then Ok true else can_commit s l
  end.
Definition canCommit (s : t) : res bool := can_commit s (activeThreads s).

(** [readHeadInst(tid)]: [None] is the null [dummyInst]. *)
Definition readHeadInst (s : t) (tid : Z) : res (option Z) :=
  th ← vget (threads s) tid;
  if negb (threadEntries th =? 0) then
    x ← it_deref (instList th) (it_begin tid (instList th));
    i ← inst s x;
    _ ← c_assert (DynInst.has i DynInst.RobEntry);
    Ok (Some x)
  else Ok None.
Definition readTailInst (s : t) (tid : Z) : res Z :=
  th ← vget (threads s) tid; it ← it_last (instList th); it_deref (instList th) it.

(** ** Squashing *)
Definition end_squash (s : t) (tid : Z) : res t :=
  upd_thread s tid (fun th => set_done true (set_squashIt (End tid) th)).

(** The loop of [doSquash]: whether it returned at the head of the list, and
    [robTailUpdate]. *)
Fixpoint squash_loop (n : nat) (s : t) (tid : Z) (robTailUpdate : bool) : res (bool * bool * t) :=
  match n with
  | O => Ok (false, robTailUpdate, s)
  | S n =>
      th ← vget (threads s) tid;
      if bool_decide (squashIt th = End tid) then Ok (false, robTailUpdate, s) else
      x ← it_deref (instList th) (squashIt th);
      i ← inst s x;
      if squashedSeqNum th <? DynInst.seqNum i then
        s ← upd_inst s x (fun i => DynInst.set DynInst.CanCommit (DynInst.set DynInst.Squashed i));
        if bool_decide (squashIt th = it_begin tid (instList th)) then
          s ← end_squash s tid; Ok (true, robTailUpdate, s)
        else
          it ← it_last (instList th);
          y ← it_deref (instList th) it;
          p ← it_pred (instList th) x;
          s ← upd_thread s tid (set_squashIt p);
          squash_loop n s tid (robTailUpdate || (x =? y))
      else Ok (false, robTailUpdate, s)
  end.

Definition doSquash (s : t) (tid : Z) : res t :=
  th ← vget (threads s) tid;
  _ ← c_assert (negb (bool_decide (squashIt th = End tid)));
  x ← it_deref (instList th) (squashIt th);
  i ← inst s x;
  if DynInst.seqNum i <? squashedSeqNum th then end_squash s tid
  else
    '(returned, robTailUpdate, s) ← squash_loop (Z.to_nat (squashWidth s)) s tid false;
    if (returned : bool) then Ok s else
    th ← vget (threads s) tid;
    x ← it_deref (instList th) (squashIt th);
    i ← inst s x;
    s ← (if DynInst.seqNum i <=? squashedSeqNum th then end_squash s tid else Ok s);
    if (robTailUpdate : bool) then updateTail s else Ok s.

Definition squash (s : t) (squash_num tid : Z) : res t :=
  if isEmpty s then Ok s else
  s ← upd_thread s tid (start_squash squash_num);
  th ← vget (threads s) tid;
  if bool_decide (instList th = []) then Ok s
  else it ← it_last (instList th); s ← upd_thread s tid (set_squashIt it); doSquash s tid.
End ROB.

(** ** Which thread commits *)
Module Commit.

Inductive ThreadStatus := Running | Idle | ROBSquashing | TrapPending | FetchTrapPending.
Inductive CommitPolicy := Aggressive | RoundRobin | OldestReady.

#[export] Instance thread_status_eq_dec : EqDecision ThreadStatus.
Proof. solve_decision. Defined.

Definition InvalidThreadID : Z := -1.

Record t := mk { commitStatus : list ThreadStatus; commitPolicy : CommitPolicy; priority_list : list Z }.

Definition may_commit (st : ThreadStatus) : bool := match st with Running | Idle | FetchTrapPending => true | _ => false end.

(** The loop of [oldestReady]: [oldest] holds a thread, and it is compared with
    a sequence number. *)
Fixpoint oldest_loop (s : ROB.t) (c : t) (oldest : option Z) (l : list Z) : res (option Z) :=
  match l with
  | [] => Ok oldest
  | tid :: l =>
      empty ← ROB.isEmpty_tid s tid;
      if (empty : bool) then oldest_loop s c oldest l else
      st ← vget (commitStatus c) tid;
      if negb (may_commit st) then oldest_loop s c oldest l else
      ready ← ROB.isHeadReady s tid;
      if negb ready then oldest_loop s c oldest l else
      x ← ROB.readHeadInst s tid;
      match oldest with
      | None => oldest_loop s c (Some (uint 32 tid)) l
      | Some o =>
          x ← deref x;
          i ← ROB.inst s x;
          oldest_loop s c (if DynInst.seqNum i <? o then Some (uint 32 tid) else oldest) l
      end
  end.
Definition oldestReady (s : ROB.t) (c : t) : res Z :=
  o ← oldest_loop s c None (ROB.activeThreads s);
  Ok (match o with Some tid => sint 16 tid | None => InvalidThreadID end).

Fixpoint round_robin_loop (s : ROB.t) (c : t) (before l : list Z) : res (Z * t) :=
  match l with
  | [] => Ok (InvalidThreadID, c)
  | tid :: l =>
      st ← vget (commitStatus c) tid;
      ready ← (if may_commit st then ROB.isHeadReady s tid else Ok false);
      if (ready : bool) then Ok (tid, mk (commitStatus c) (commitPolicy c) (before ++ l ++ [tid]))
      else round_robin_loop s c (before ++ [tid]) l
  end.
Definition roundRobin (s : ROB.t) (c : t) : res (Z * t) := round_robin_loop s c [] (priority_list c).

Definition getCommittingThread (s : ROB.t) (c : t) : res (Z * t) :=
  if 1 <? ROB.numThreads s then
    match commitPolicy c with
    | Aggressive | OldestReady => tid ← oldestReady s c; Ok (tid, c)
    | RoundRobin => roundRobin s c
    end
  else
    tid ← (match ROB.activeThreads s with [] => Er AssertFail | tid :: _ => Ok tid end);
    st ← vget (commitStatus c) tid;
    Ok (if may_commit st then tid else InvalidThreadID, c).

Fixpoint done_loop (s : ROB.t) (l : list Z) : res bool :=
  match l with
  | [] => Ok true
  | tid :: l => b ← ROB.isDoneSquashing s tid; if (b : bool) then done_loop s l else Ok false
  end.
Definition robDoneSquashing (s : ROB.t) : res bool := done_loop s (ROB.activeThreads s).

(** The part of [squashAll] that concerns the reorder buffer. *)
Definition squashAll (s : ROB.t) (tid : Z) : res ROB.t :=
  n ← (if ROB.isEmpty s then Ok 0 else
         x ← ROB.readHeadInst s tid; x ← deref x; i ← ROB.inst s x; Ok (uint 64 (DynInst.seqNum i - 1)));
  ROB.squash s n tid.

(** The squashing part of [tick]. *)
Fixpoint tick_squash (s : ROB.t) (c : t) (l : list Z) : res (ROB.t * t) :=
  match l with
  | [] => Ok (s, c)
  | tid :: l =>
      st ← vget (commitStatus c) tid;
      if bool_decide (st = ROBSquashing) then
        d ← ROB.isDoneSquashing s tid;
        if (d : bool) then
          cs ← vset (commitStatus c) tid Running;
          tick_squash s (mk cs (commitPolicy c) (priority_list c)) l
        else s ← ROB.doSquash s tid; tick_squash s c l
      else tick_squash s c l
  end.
End Commit.

(** ** The instructions in flight *)
Module InstList.

(** The part of the CPU that keeps them; [insts] as above. *)
Record t := mk { insts : gmap Z DynInst.t; instList : list Z; removeList : list Z; removeInstsThisCycle : bool }.

Definition inst (s : t) (id : Z) : res DynInst.t := deref (insts s !! id).

Definition addInst (s : t) (id : Z) : t := mk (insts s) (instList s ++ [id]) (removeList s) (removeInstsThisCycle s).
Definition addToRemoveList (s : t) (id : Z) : t := mk (insts s) (instList s) (removeList s ++ [id]) true.

Definition squashInstIt (s : t) (id tid : Z) : res t :=
  x ← it_deref (instList s) (Node id);
  i ← inst s x;
  if DynInst.threadNumber i =? tid then
    Ok (mk (<[x := DynInst.set DynInst.Squashed i]> (insts s)) (instList s) (removeList s ++ [x]) (removeInstsThisCycle s))
  else Ok s.

(** The loop of [removeInstsUntil] from the youngest instruction back: [l] is
    the list up to the iterator, last first. *)
Fixpoint until_loop (s : t) (seq_num tid : Z) (l : list Z) : res t :=
  match l with
  | [] => Ok s
  | x :: l =>
      i ← inst s x;
      if seq_num <? DynInst.seqNum i then s ← squashInstIt s x tid; until_loop s seq_num tid l else Ok s
  end.
Definition removeInstsUntil (s : t) (seq_num tid : Z) : res t :=
  _ ← c_assert (negb (bool_decide (instList s = [])));
  until_loop (mk (insts s) (instList s) (removeList s) true) seq_num tid (rev (instList s)).

(** The loop of [removeInstsNotInROB]: back to [stop], or to the first
    instruction and that one too. *)
Fixpoint not_in_rob_loop (s : t) (tid : Z) (stop : option Z) (l : list Z) : res t :=
  match l with
  | [] => match stop with None => Ok s | Some _ => Er BadPointer end
  | x :: l => if bool_decide (stop = Some x) then Ok s else s ← squashInstIt s x tid; not_in_rob_loop s tid stop l
  end.
Definition removeInstsNotInROB (s : t) (rob : ROB.t) (tid : Z) : res t :=
  if bool_decide (instList s = []) then Ok s else
  stop ← (if ROB.isEmpty rob then Ok None else x ← ROB.readTailInst rob tid; Ok (Some x));
  not_in_rob_loop (mk (insts s) (instList s) (removeList s) true) tid stop (rev (instList s)).

(** [instList.erase(it)]: the element must be there. *)
Definition erase (l : list Z) (x : Z) : res (list Z) :=
  if bool_decide (x ∈ l) then Ok (filter (fun y => y <> x) l) else Er BadPointer.
Fixpoint erase_all (l rm : list Z) : res (list Z) :=
  match rm with [] => Ok l | x :: rm => l ← erase l x; erase_all l rm end.
Definition cleanUpRemovedInsts (s : t) : res t :=
  l ← erase_all (instList s) (removeList s); Ok (mk (insts s) l [] false).
End InstList.
