(* ===== verification/RobProof.v ===== *)
(** * The invariant of the reorder buffer *)
From stdpp Require Import sorting.
From S2P Require Import Prelude Rob.

Module RobProof.
Import ROB.

(** ** The invariant *)
Definition older (m : gmap Z DynInst.t) (x y : Z) : Prop :=
  exists i j, m !! x = Some i /\ m !! y = Some j /\ DynInst.seqNum i < DynInst.seqNum j.
Definition entry (m : gmap Z DynInst.t) (tid x : Z) : Prop :=
  exists i, m !! x = Some i /\ DynInst.threadNumber i = tid /\ DynInst.has i DynInst.RobEntry = true.
(** Squashed, and ready to leave the buffer. *)
Definition gone (m : gmap Z DynInst.t) (n x : Z) : Prop :=
  exists i, m !! x = Some i /\ n < DynInst.seqNum i /\
    DynInst.has i DynInst.Squashed = true /\ DynInst.has i DynInst.CanCommit = true.

Record thread_ok (m : gmap Z DynInst.t) (tid : Z) (th : Thread) : Prop := {
  to_entry : Forall (entry m tid) (instList th);
  to_sorted : StronglySorted (older m) (instList th);
  to_count : threadEntries th = Z.of_nat (length (instList th));
  to_done : doneSquashing th = true -> squashIt th = End tid;
  to_squash : doneSquashing th = false ->
    exists l1 x l2, squashIt th = Node x /\ instList th = l1 ++ x :: l2 /\ Forall (gone m (squashedSeqNum th)) l2
}.

Record inv (s : t) : Prop := {
  i_thread : forall tid th, 0 <= tid -> threads s !! Z.to_nat tid = Some th -> thread_ok (insts s) tid th;
  i_active : Forall (fun tid => 0 <= tid < Z.of_nat (length (threads s))) (activeThreads s);
  i_count : numInstsInROB s = countInsts s;
  i_room : numInstsInROB s <= numEntries s < 2 ^ 31
}.

(** ** Elementary steps *)
Lemma upd_thread_ok s tid th f : 0 <= tid -> threads s !! Z.to_nat tid = Some th ->
  upd_thread s tid f = Ok (set_threads s (<[Z.to_nat tid := f th]> (threads s))).
Proof.
  intros H0 Hth. unfold upd_thread. assert (vget (threads s) tid = Ok th) as -> by by apply vget_Ok. rewrite bind_Ok, vset_lt; [done|].
  apply lookup_lt_Some in Hth. lia.
Qed.
Lemma upd_inst_ok s x i f : insts s !! x = Some i -> upd_inst s x f = Ok (set_insts s (<[x := f i]> (insts s))).
Proof. intros H. unfold upd_inst, inst. by rewrite H. Qed.
Lemma inst_ok s x i : insts s !! x = Some i -> inst s x = Ok i.
Proof. intros H. unfold inst. by rewrite H. Qed.
Lemma it_deref_ok l x : x ∈ l -> it_deref l (Node x) = Ok x.
Proof. intros H. unfold it_deref. by rewrite bool_decide_eq_true_2. Qed.
Lemma it_last_snoc l x : it_last (l ++ [x]) = Ok (Node x).
Proof. unfold it_last. by rewrite last_snoc. Qed.

Lemma it_pred_ok l1 y x l2 : NoDup (l1 ++ y :: x :: l2) -> it_pred (l1 ++ y :: x :: l2) x = Ok (Node y).
Proof.
  induction l1 as [|z l1 IH]; intros Hnd.
  - simpl. by rewrite Z.eqb_refl.
  - apply NoDup_cons in Hnd as [Hz Hnd]. specialize (IH Hnd). destruct l1 as [|z' l1]; simpl in *.
    + apply NoDup_cons in Hnd as [Hy _]. rewrite (proj2 (Z.eqb_neq y x)); [done|]. set_solver.
    + apply NoDup_cons in Hnd as [Hy _]. rewrite (proj2 (Z.eqb_neq z' x)); [done|]. set_solver.
Qed.

Lemma sorted_NoDup m l : StronglySorted (older m) l -> NoDup l.
Proof.
  induction 1 as [|x l _ IH Hx]; constructor; [|done]. intros Hin. rewrite Forall_forall in Hx.
  destruct (Hx x Hin) as (i & j & H1 & H2 & H3). rewrite H1 in H2. injection H2 as <-. lia.
Qed.

(** ** Marking *)
Definition squashed_inst (i : DynInst.t) : DynInst.t := DynInst.set DynInst.CanCommit (DynInst.set DynInst.Squashed i).
Definition mark (m : gmap Z DynInst.t) (l : list Z) : gmap Z DynInst.t := foldl (fun m x => alter squashed_inst x m) m l.

Lemma mark_out m l x : x ∉ l -> mark m l !! x = m !! x.
Proof.
  revert m. induction l as [|y l IH]; intros m Hx; [done|]. apply not_elem_of_cons in Hx as [Hne Hx]. simpl.
  rewrite IH by done. by apply lookup_alter_ne.
Qed.
Lemma mark_in m l x i : NoDup l -> x ∈ l -> m !! x = Some i -> mark m l !! x = Some (squashed_inst i).
Proof.
  revert m. induction l as [|y l IH]; intros m Hnd Hin Hx; [by apply not_elem_of_nil in Hin|].
  apply NoDup_cons in Hnd as [Hy Hnd]. simpl. apply elem_of_cons in Hin as [->|Hin].
  - rewrite mark_out by done. by rewrite lookup_alter_eq, Hx.
  - apply IH; [done..|]. rewrite lookup_alter_ne; [done|]. by intros ->.
Qed.

(** What marking and other changes of the status leave. *)
Definition same_order (m m' : gmap Z DynInst.t) : Prop :=
  forall x i, m !! x = Some i -> exists i', m' !! x = Some i' /\ DynInst.seqNum i' = DynInst.seqNum i /\
    DynInst.threadNumber i' = DynInst.threadNumber i /\
    (DynInst.has i DynInst.RobEntry = true -> DynInst.has i' DynInst.RobEntry = true) /\
    (DynInst.has i DynInst.Squashed = true -> DynInst.has i' DynInst.Squashed = true) /\
    (DynInst.has i DynInst.CanCommit = true -> DynInst.has i' DynInst.CanCommit = true).

Lemma same_order_alter m x f : (forall i, DynInst.seqNum (f i) = DynInst.seqNum i /\ DynInst.threadNumber (f i) = DynInst.threadNumber i /\
    forall st, st = DynInst.RobEntry \/ st = DynInst.Squashed \/ st = DynInst.CanCommit -> DynInst.has i st = true -> DynInst.has (f i) st = true) ->
  same_order m (alter f x m).
Proof.
  intros Hf y i Hy. destruct (decide (x = y)) as [->|Hne].
  - exists (f i). rewrite lookup_alter_eq, Hy. destruct (Hf i) as (H1 & H2 & H3). split_and!; auto.
  - exists i. by rewrite lookup_alter_ne.
Qed.
#[export] Instance same_order_refl : Reflexive same_order.
Proof. intros m x i Hx. by exists i. Qed.
#[export] Instance same_order_trans : Transitive same_order.
Proof.
  intros m1 m2 m3 H1 H2 x i Hx. destruct (H1 x i Hx) as (i2 & Hx2 & ? & ? & ? & ? & ?).
  destruct (H2 x i2 Hx2) as (i3 & Hx3 & ? & ? & ? & ? & ?). exists i3. split_and!; auto; congruence.
Qed.

Lemma same_order_set m x st : same_order m (alter (DynInst.set st) x m).
Proof.
  apply same_order_alter. intros i. split_and!; try done. intros st' _ H. rewrite DynInst.has_set, H. apply orb_true_r.
Qed.
Lemma same_order_mark m l : same_order m (mark m l).
Proof.
  revert m. induction l as [|x l IH]; intros m; [done|]. simpl. etrans; [|apply IH]. unfold squashed_inst.
  apply same_order_alter. intros i. split_and!; try done. intros st _ H. by rewrite !DynInst.has_set, H, !orb_true_r.
Qed.

Lemma older_mono m m' x y : same_order m m' -> older m x y -> older m' x y.
Proof.
  intros Hs (i & j & Hx & Hy & Hlt). destruct (Hs x i Hx) as (i' & Hx' & Ei & _). destruct (Hs y j Hy) as (j' & Hy' & Ej & _).
  exists i', j'. split_and!; [done|done|]. by rewrite Ei, Ej.
Qed.
Lemma entry_mono m m' tid x : same_order m m' -> entry m tid x -> entry m' tid x.
Proof.
  intros Hs (i & Hx & Ht & Hr). destruct (Hs x i Hx) as (i' & Hx' & _ & Et & Hr' & _). exists i'. split_and!; [done|congruence|auto].
Qed.
Lemma gone_mono m m' n x : same_order m m' -> gone m n x -> gone m' n x.
Proof.
  intros Hs (i & Hx & Hn & H1 & H2). destruct (Hs x i Hx) as (i' & Hx' & En & _ & _ & H3 & H4).
  exists i'. split_and!; [done|congruence|auto|auto].
Qed.
Lemma sorted_mono m m' l : same_order m m' -> StronglySorted (older m) l -> StronglySorted (older m') l.
Proof.
  intros Hs. induction 1 as [|x l _ IH Hx]; constructor; [done|]. eapply Forall_impl; [exact Hx|]. intros y. by apply older_mono.
Qed.

Lemma thread_mono m m' tid th : same_order m m' -> thread_ok m tid th -> thread_ok m' tid th.
Proof.
  intros Hs []. constructor; try done.
  - eapply Forall_impl; [exact to_entry0|]. intros x. by apply entry_mono.
  - by apply (sorted_mono m).
  - intros Hd. destruct (to_squash0 Hd) as (l1 & x & l2 & H1 & H2 & H3). exists l1, x, l2. split_and!; try done.
    eapply Forall_impl; [exact H3|]. intros y. by apply gone_mono.
Qed.

(** A change of one thread and of statuses. *)
Lemma inv_thread s tid th th' m' : inv s -> 0 <= tid -> threads s !! Z.to_nat tid = Some th -> same_order (insts s) m' ->
  thread_ok m' tid th' -> length (instList th') = length (instList th) ->
  inv (set_threads (set_insts s m') (<[Z.to_nat tid := th']> (threads s))).
Proof.
  intros [] H0 Hth Hm Hok Hlen. constructor; simpl.
  - intros tid' x H0' Hx. destruct (decide (Z.to_nat tid' = Z.to_nat tid)) as [E|Hne].
    + assert (tid' = tid) as -> by lia. rewrite list_lookup_insert_eq in Hx by by apply lookup_lt_Some in Hth. by injection Hx as <-.
    + rewrite list_lookup_insert_ne in Hx by done. apply (thread_mono (insts s)); auto.
  - by rewrite length_insert.
  - rewrite i_count0. unfold countInsts. simpl. clear - Hth Hlen. revert Hth. generalize (Z.to_nat tid). intros k.
    revert k. induction (threads s) as [|y l IH]; intros k Hk; [done|]. destruct k; simpl in *.
    + injection Hk as ->. by rewrite Hlen.
    + by rewrite <- (IH k Hk).
  - done.
Qed.

(** ** Head and tail *)
Lemma thread_lookup s tid : inv s -> tid ∈ activeThreads s ->
  exists th, vget (threads s) tid = Ok th /\ threads s !! Z.to_nat tid = Some th /\ thread_ok (insts s) tid th /\ 0 <= tid.
Proof.
  intros Hi Hin. pose proof (i_active _ Hi) as Ha. rewrite Forall_forall in Ha. specialize (Ha tid Hin).
  destruct (vget_lt (threads s) tid) as (th & E & Hth); [lia|]. exists th. split_and!; try done; [|lia]. apply (i_thread _ Hi); [lia|done].
Qed.

Lemma deref_any_ok s tid th x : inv s -> 0 <= tid -> threads s !! Z.to_nat tid = Some th -> x ∈ instList th ->
  exists i, deref_any s (Node x) = Ok i /\ insts s !! x = Some i.
Proof.
  intros Hi H0 Hth Hx. destruct (i_thread _ Hi tid th H0 Hth) as [He _ _ _ _]. rewrite Forall_forall in He.
  destruct (He x Hx) as (i & Hix & Ht & _). exists i. split; [|done]. unfold deref_any. rewrite (inst_ok s x i Hix), bind_Ok, Ht.
  assert (vget (threads s) tid = Ok th) as -> by by apply vget_Ok. by rewrite bind_Ok, it_deref_ok.
Qed.

Lemma head_entry s tid th x l : inv s -> 0 <= tid -> threads s !! Z.to_nat tid = Some th -> instList th = x :: l ->
  exists i, insts s !! x = Some i.
Proof.
  intros Hi H0 Hth Hl. destruct (i_thread _ Hi tid th H0 Hth) as [He _ _ _ _]. rewrite Hl in He. apply Forall_cons in He as [(i & Hx & _) _].
  by exists i.
Qed.

(** The heads of the threads in [l], with their ages. *)
Definition heads (s : t) (l : list Z) (x : Z) (i : DynInst.t) : Prop :=
  exists tid th r, tid ∈ l /\ vget (threads s) tid = Ok th /\ instList th = x :: r /\ insts s !! x = Some i.

Lemma head_loop_ok s it0 low l : inv s -> l ⊆ activeThreads s ->
  exists low' it, head_loop (set_head s it0) low l = Ok (low', set_head s it) /\
    match low' with
    | None => low = None /\ it = it0 /\ forall x i, ~ heads s l x i
    | Some n => (forall x i, heads s l x i -> n <= DynInst.seqNum i) /\ (forall n0, low = Some n0 -> n <= n0) /\
        ((it = it0 /\ low = Some n) \/ exists x i, it = Node x /\ heads s l x i /\ DynInst.seqNum i = n)
    end.
Proof.
  intros Hi. revert it0 low. induction l as [|tid l IH]; intros it0 low Hl.
  { exists low, it0. split; [done|]. destruct low as [n|].
    - split_and!; [intros x i (? & ? & ? & ?%elem_of_nil & _); done|intros ? [= <-]; lia|by left].
    - split_and!; try done. intros x i (? & ? & ? & ?%elem_of_nil & _); done. }
  destruct (thread_lookup s tid Hi) as (th & Ev & Hth & _ & H0); [apply Hl; by left|].
  assert (Hl' : l ⊆ activeThreads s) by (intros y Hy; apply Hl; by right).
  assert (Hcons : forall x i, heads s (tid :: l) x i <-> heads s l x i \/ (exists r, instList th = x :: r /\ insts s !! x = Some i)).
  { intros x i. split.
    - intros (tid' & th' & r & Hin & Ev' & Er & Hx). apply elem_of_cons in Hin as [->|Hin]; [|left; by exists tid', th', r].
      right. exists r. split; [congruence|done].
    - intros [(tid' & th' & r & Hin & H)|(r & Er & Hx)]; [exists tid', th', r|exists tid, th, r]; (split; [set_solver|done]). }
  cbn [head_loop]. change (threads (set_head s it0)) with (threads s). rewrite Ev, bind_Ok.
  destruct (instList th) as [|x r] eqn:El.
  { destruct (IH it0 low Hl') as (low' & it & E & H). exists low', it. split; [exact E|]. destruct low' as [n|].
    - destruct H as (H1 & H2 & H3). split_and!; [|done|].
      + intros x i [Hh|(r & ? & _)]%Hcons; [by apply (H1 x)|done].
      + destruct H3 as [?|(x & i & ? & ? & ?)]; [by left|right; exists x, i; rewrite Hcons; auto].
    - destruct H as (-> & -> & H3). split_and!; try done. intros x i [Hh|(r & ? & _)]%Hcons; [by apply (H3 x i)|done]. }
  destruct (head_entry s tid th x r Hi H0 Hth El) as (i & Hx).
  change (inst (set_head s it0) x) with (inst s x). rewrite (inst_ok s x i Hx), bind_Ok.
  assert (Hone : forall y j, heads s (tid :: l) y j <-> heads s l y j \/ (y = x /\ j = i)).
  { intros y j. rewrite Hcons. split; (intros [H|H]; [by left|right]); [destruct H as (r' & [= <- <-] & Hj); split; [done|congruence]|].
    destruct H as [-> ->]. by exists r. }
  assert (Hnew : exists low' it, head_loop (set_head s (Node x)) (Some (DynInst.seqNum i)) l = Ok (low', set_head s it) /\
    exists n, low' = Some n /\ (forall y j, heads s (tid :: l) y j -> n <= DynInst.seqNum j) /\ n <= DynInst.seqNum i /\
      exists y j, it = Node y /\ heads s (tid :: l) y j /\ DynInst.seqNum j = n).
  { destruct (IH (Node x) (Some (DynInst.seqNum i)) Hl') as (low' & it & E & H). exists low', it. split; [exact E|].
    destruct low' as [n|]; [|by destruct H as [? _]]. exists n. split; [done|]. destruct H as (H1 & H2 & H3).
    specialize (H2 _ eq_refl). split_and!; [|done|].
    - intros y j [Hh|[-> ->]]%Hone; [by apply (H1 y)|done].
    - destruct H3 as [[-> [= En]]|(y & j & -> & Hh & En)]; [exists x, i|exists y, j]; rewrite Hone; auto. }
  destruct Hnew as (low1 & it1 & E1 & n1 & -> & Hn1 & Hle1 & Hw1).
  destruct low as [n0|].
  - destruct (Z.ltb_spec (DynInst.seqNum i) n0).
    + change (set_head (set_head s it0) (Node x)) with (set_head s (Node x)). exists (Some n1), it1. split; [exact E1|].
      split_and!; [done|intros ? [= <-]; lia|by right].
    + destruct (IH it0 (Some n0) Hl') as (low' & it & E & Hs). exists low', it. split; [exact E|].
      destruct low' as [n|]; [|by destruct Hs as [? _]]. destruct Hs as (H1 & H2 & H3). specialize (H2 _ eq_refl) as Hn0.
      split_and!; [|done|].
      * intros y j [Hh|[-> ->]]%Hone; [by apply (H1 y)|lia].
      * destruct H3 as [?|(y & j & -> & Hh & En)]; [by left|]. right. exists y, j. rewrite Hone. auto.
  - change (set_head (set_head s it0) (Node x)) with (set_head s (Node x)). exists (Some n1), it1. split; [exact E1|].
    split_and!; [done|by intros ?|by right].
Qed.

(** The iterator is at the oldest of the threads' first instructions. *)
Definition oldest_head (s : t) (it : It) : Prop :=
  match it with
  | Node x => exists i, heads s (activeThreads s) x i /\ forall y j, heads s (activeThreads s) y j -> DynInst.seqNum i <= DynInst.seqNum j
  | End _ => forall y j, ~ heads s (activeThreads s) y j
  end.

Lemma updateHead_ok s : inv s -> exists it, updateHead s = Ok (set_head s it) /\ oldest_head s it.
Proof.
  intros Hi. destruct (head_loop_ok s (head s) None (activeThreads s) Hi) as (low & it & E & H); [done|].
  unfold updateHead. assert (set_head s (head s) = s) as Es by by destruct s. rewrite Es in E. rewrite E, bind_Ok.
  destruct low as [n|].
  - exists it. split; [done|]. destruct H as (H1 & _ & [[_ ?]|(x & i & -> & Hh & En)]); [done|]. exists i.
    split; [done|]. intros y j Hy. rewrite En. by apply (H1 y).
  - exists (End 0). split; [done|]. by destruct H as (_ & _ & H).
Qed.

(** The last instructions of the threads in [l], with their ages. *)
Definition tails (s : t) (l : list Z) (x : Z) (i : DynInst.t) : Prop :=
  exists tid th r, tid ∈ l /\ vget (threads s) tid = Ok th /\ instList th = r ++ [x] /\ insts s !! x = Some i.
(** The iterator is at the youngest of them. *)
Definition youngest_tail (s : t) (it : It) : Prop :=
  match it with
  | Node x => exists i, tails s (activeThreads s) x i /\ forall y j, tails s (activeThreads s) y j -> DynInst.seqNum j <= DynInst.seqNum i
  | End _ => forall y j, ~ tails s (activeThreads s) y j
  end.

Lemma tails_app s l l' x i : tails s (l ++ l') x i <-> tails s l x i \/ tails s l' x i.
Proof.
  split.
  - intros (tid & th & r & Hin & H). apply elem_of_app in Hin as [Hin|Hin]; [left|right]; by exists tid, th, r.
  - intros [(tid & th & r & Hin & H)|(tid & th & r & Hin & H)]; exists tid, th, r; (split; [set_solver|done]).
Qed.
Lemma tails_one s tid th r x i : vget (threads s) tid = Ok th -> instList th = r ++ [x] -> insts s !! x = Some i ->
  forall y j, tails s [tid] y j <-> y = x /\ j = i.
Proof.
  intros Ev El Hx y j. split.
  - intros (tid' & th' & r' & Hin & Ev' & El' & Hy). apply list_elem_of_singleton in Hin as ->. assert (th' = th) as -> by congruence. rewrite El in El'. apply app_inj_tail in El' as [_ <-]. split; congruence.
  - intros [-> ->]. exists tid, th, r. split; [set_solver|done].
Qed.

(** [dn] are the threads the loop has been through. *)
Lemma tail_loop_ok s l : inv s -> forall it0 (b : bool) (dn : list Z), dn ++ l = activeThreads s ->
  (if b then forall y j, ~ tails s dn y j
   else exists x i, it0 = Node x /\ tails s dn x i /\ forall y j, tails s dn y j -> DynInst.seqNum j <= DynInst.seqNum i) ->
  (b = true -> it0 = End 0) ->
  exists it, tail_loop (set_tail s it0) b l = Ok (set_tail s it) /\ youngest_tail s it.
Proof.
  intros Hi. induction l as [|tid l IH]; intros it0 b dn Hl Hb H0.
  { exists it0. split; [done|]. rewrite app_nil_r in Hl. rewrite Hl in Hb. destruct b; [by rewrite H0|]. destruct Hb as (x & i & -> & H). by exists i. }
  destruct (thread_lookup s tid Hi) as (th & Ev & Hth & Hok & Ht0); [rewrite <- Hl; set_solver|].
  assert (Hl' : (dn ++ [tid]) ++ l = activeThreads s) by (by rewrite <- app_assoc).
  cbn [tail_loop]. change (threads (set_tail s it0)) with (threads s). rewrite Ev, bind_Ok. case_bool_decide as El.
  { apply (IH it0 b (dn ++ [tid])); try done.
    assert (Hn : forall y j, tails s (dn ++ [tid]) y j -> tails s dn y j).
    { intros y j [?|(tid' & th' & r & Hin & Ev' & El' & _)]%tails_app; [done|]. apply list_elem_of_singleton in Hin as ->. assert (th' = th) as -> by congruence. rewrite El in El'. by destruct r. }
    destruct b; [intros y j Hy; by apply (Hb y j), Hn|]. destruct Hb as (x & i & -> & Hx & Hmax). exists x, i. split_and!; try done; [apply tails_app; by left|]. intros y j Hy. by apply (Hmax y), Hn. }
  destruct (exists_last El) as (r & x & Ex). assert (Hx : x ∈ instList th) by (rewrite Ex; set_solver). rewrite Ex, it_last_snoc.
  destruct (deref_any_ok s tid th x Hi Ht0 Hth Hx) as (i & Ei & Hxi). pose proof (tails_one s tid th r x i Ev Ex Hxi) as Hone. destruct b; rewrite bind_Ok.
  - apply (IH (Node x) false (dn ++ [tid])); try done. exists x, i. split_and!; try done; [apply tails_app; right; by apply Hone|].
    intros y j [Hy|[-> ->]%Hone]%tails_app; [by destruct (Hb y j)|lia].
  - destruct Hb as (x' & j & -> & Hx' & Hmax). pose proof Hx' as (tid' & th' & r' & Hin' & Ev' & El' & Hj).
    apply vget_Ok in Ev' as [Ht' Hth']. destruct (deref_any_ok s tid' th' x' Hi Ht' Hth') as (j' & Ej & Hj'); [rewrite El'; set_solver|]. assert (j' = j) as -> by congruence.
    change (deref_any (set_tail s (Node x')) (Node x)) with (deref_any s (Node x)). rewrite Ei, bind_Ok.
    change (deref_any (set_tail s (Node x')) (tail (set_tail s (Node x')))) with (deref_any s (Node x')). rewrite Ej, bind_Ok.
    destruct (Z.ltb_spec (DynInst.seqNum j) (DynInst.seqNum i)) as [Hlt|Hge].
    + apply (IH (Node x) false (dn ++ [tid])); try done. exists x, i. split_and!; try done; [apply tails_app; right; by apply Hone|]. intros y k [Hy|[-> ->]%Hone]%tails_app; [specialize (Hmax y k Hy)|]; lia.
    + apply (IH (Node x') false (dn ++ [tid])); try done. exists x', j. split_and!; try done; [apply tails_app; by left|]. intros y k [Hy|[-> ->]%Hone]%tails_app; [by apply (Hmax y)|lia].
Qed.

Lemma updateTail_ok s : inv s -> exists it, updateTail s = Ok (set_tail s it) /\ youngest_tail s it.
Proof. intros Hi. apply (tail_loop_ok s (activeThreads s) Hi (End 0) true []); try done. intros y j (? & ? & ? & ?%elem_of_nil & _); done. Qed.

Lemma inv_tail s it : inv s -> inv (set_tail s it).
Proof. intros []. by constructor. Qed.
Lemma rob_inv_head s it : inv s -> inv (set_head s it).
Proof. intros []. by constructor. Qed.

(** ** Squashing *)
Lemma squash_start s tid th x : threads s !! Z.to_nat tid = Some th -> squashIt th = Node x ->
  set_threads (set_insts s (insts s)) (<[Z.to_nat tid := set_squashIt (Node x) th]> (threads s)) = s.
Proof.
  intros Hth Hit. rewrite list_insert_id; [by destruct s|]. rewrite Hth. f_equal. destruct th. simpl in *. by rewrite Hit.
Qed.

Lemma rob_squash_loop_ok n s tid th l1 x l2 upd : 0 <= tid -> threads s !! Z.to_nat tid = Some th ->
  instList th = l1 ++ x :: l2 -> NoDup (instList th) -> squashIt th = Node x ->
  (forall y, y ∈ instList th -> is_Some (insts s !! y)) ->
  exists ret upd' over rest th', squash_loop n s tid upd =
      Ok (ret, upd', set_threads (set_insts s (mark (insts s) over)) (<[Z.to_nat tid := th']> (threads s))) /\
    rev (l1 ++ [x]) = over ++ rest /\ (length over <= n)%nat /\
    (forall y i, y ∈ over -> insts s !! y = Some i -> squashedSeqNum th < DynInst.seqNum i) /\
    match rest with
    | [] => ret = true /\ th' = set_done true (set_squashIt (End tid) th)
    | y :: _ => ret = false /\ th' = set_squashIt (Node y) th /\ upd' = upd || (negb (bool_decide (over = [])) && bool_decide (l2 = [])) /\
        (length over = n \/ forall i, insts s !! y = Some i -> DynInst.seqNum i <= squashedSeqNum th)
    end.
Proof.
  revert s th l1 x l2 upd. induction n as [|n IH]; intros s th l1 x l2 upd H0 Hth El Hnd Hit Hall.
  all: pose proof (squash_start s tid th x Hth Hit) as Hid.
  { exists false, upd, [], (rev (l1 ++ [x])), (set_squashIt (Node x) th). rewrite rev_unit. cbn [mark foldl squash_loop app]. rewrite Hid.
    split_and!; try done; [intros y i Hy; by apply not_elem_of_nil in Hy|by rewrite orb_false_r|by left]. }
  assert (Hx : x ∈ instList th) by (rewrite El; set_solver). destruct (Hall x Hx) as [i Hi].
  cbn [squash_loop]. assert (vget (threads s) tid = Ok th) as -> by by apply vget_Ok.
  rewrite bind_Ok, Hit, it_deref_ok, bind_Ok, (inst_ok s x i Hi), bind_Ok by done. rewrite bool_decide_eq_false_2 by done.
  destruct (Z.ltb_spec (squashedSeqNum th) (DynInst.seqNum i)) as [Hlt|Hge].
  2:{ exists false, upd, [], (rev (l1 ++ [x])), (set_squashIt (Node x) th). rewrite rev_unit. cbn [mark foldl app]. rewrite Hid.
      split_and!; try done; [simpl; lia|intros y j Hy; by apply not_elem_of_nil in Hy|by rewrite orb_false_r|right; intros j Hj; congruence]. }
  rewrite (upd_inst_ok s x i _ Hi), bind_Ok. set (m1 := <[x := _]> (insts s)).
  assert (Em1 : m1 = alter squashed_inst x (insts s)).
  { apply map_eq. intros y. unfold m1. destruct (decide (x = y)) as [<-|]; [by rewrite lookup_insert_eq, lookup_alter_eq, Hi|].
    by rewrite lookup_insert_ne, lookup_alter_ne. }
  rewrite El. destruct (decide (l1 = [])) as [->|Hl1].
  - simpl. rewrite bool_decide_eq_true_2 by done. unfold end_squash.
    rewrite (upd_thread_ok (set_insts s m1) tid th) by done. rewrite bind_Ok.
    exists true, upd, [x], [], (set_done true (set_squashIt (End tid) th)). cbn [mark foldl app length]. rewrite <- Em1.
    split_and!; try done; [simpl; lia|]. intros y j Hy%list_elem_of_singleton Hj. subst y. congruence.
  - destruct (exists_last Hl1) as (l0 & y & ->). rewrite bool_decide_eq_false_2.
    2:{ destruct l0 as [|z l0]; simpl; intros [= ->]; rewrite El in Hnd; simpl in Hnd; apply NoDup_cons in Hnd as [Hz _]; apply Hz; set_solver. }
    destruct (exists_last (l := (l0 ++ [y]) ++ x :: l2)) as (lf & z & Ez); [by destruct l0|]. rewrite Ez, it_last_snoc, bind_Ok.
    rewrite it_deref_ok, bind_Ok by set_solver. rewrite <- Ez.
    rewrite <- (app_assoc l0 [y]) in El |- *. cbn [app] in El |- *. rewrite El in Hnd. rewrite (it_pred_ok l0 y x l2 Hnd), bind_Ok.
    rewrite (upd_thread_ok (set_insts s m1) tid th), bind_Ok by done.
    set (s2 := set_threads _ _). set (th2 := set_squashIt (Node y) th).
    assert (Hth2 : threads s2 !! Z.to_nat tid = Some th2) by (simpl; apply list_lookup_insert_eq; by apply lookup_lt_Some in Hth).
    destruct (IH s2 th2 l0 y (x :: l2) (upd || (x =? z))) as (ret & upd' & over & rest & th' & E & Er & Hlen & Hover & Hrest); try done.
    { change (NoDup (instList th)). by rewrite El. }
    { intros w Hw. change (is_Some (m1 !! w)). rewrite Em1. destruct (decide (x = w)) as [<-|]; [rewrite lookup_alter_eq, Hi; by eexists|].
      rewrite lookup_alter_ne by done. by apply Hall. }
    assert (Hne : forall w, w ∈ over ++ rest -> m1 !! w = insts s !! w).
    { intros w Hw. rewrite Em1, lookup_alter_ne; [done|]. intros <-. rewrite <- Er in Hw.       apply list_elem_of_In, in_rev, list_elem_of_In in Hw. apply NoDup_app in Hnd as (_ & Hd & Hnd).
      apply elem_of_app in Hw as [Hw|Hw]; [apply (Hd x Hw); set_solver|]. apply list_elem_of_singleton in Hw. subst y.
      apply NoDup_cons in Hnd as [Hn _]. set_solver. }
    exists ret, upd', (x :: over), rest, th'. rewrite E. split_and!.
    + do 2 f_equal. unfold s2. cbn [set_threads set_insts insts threads mark foldl]. rewrite list_insert_insert_eq, Em1. done.
    + rewrite rev_unit. cbn [app]. by rewrite Er.
    + simpl. lia.
    + intros w j Hw Hj. apply elem_of_cons in Hw as [->|Hw]; [congruence|]. apply (Hover w j Hw).
      change (insts s2) with m1. rewrite Hne; [done|set_solver].
    + destruct rest as [|w rest]; [done|]. destruct Hrest as (-> & -> & Hup & Hw). split_and!; try done.
      { rewrite Hup, (bool_decide_eq_false_2 (x :: l2 = [])), andb_false_r, orb_false_r by done. rewrite (bool_decide_eq_false_2 (x :: over = [])) by done. cbn [negb andb]. f_equal. apply eq_true_iff_eq. rewrite Z.eqb_eq, bool_decide_eq_true.
        split; [|intros ->; by apply app_inj_tail in Ez as [_ ?]]. intros ->. destruct (decide (l2 = [])) as [|Hl2]; [done|]. destruct (exists_last Hl2) as (l3 & u & ->). exfalso.
        rewrite app_comm_cons, app_assoc in Ez. apply app_inj_tail in Ez as [_ ->]. apply NoDup_app in Hnd as (_ & _ & Hnd). apply NoDup_cons in Hnd as [_ Hnd]. apply NoDup_cons in Hnd as [Hnd _]. apply Hnd. set_solver. }
      destruct Hw as [Hw|Hw]; [left; simpl; lia|right]. intros j Hj. apply Hw. change (insts s2) with m1. rewrite Hne; [done|set_solver].
Qed.

Definition younger (m : gmap Z DynInst.t) (n x : Z) : Prop := exists i, m !! x = Some i /\ n < DynInst.seqNum i.

Lemma sorted_app m l l' : StronglySorted (older m) (l ++ l') ->
  StronglySorted (older m) l /\ StronglySorted (older m) l' /\ forall x y, x ∈ l -> y ∈ l' -> older m x y.
Proof.
  induction l as [|z l IH]; simpl; intros H; [split_and!; [constructor|done|intros x y Hx; by apply not_elem_of_nil in Hx]|].
  apply StronglySorted_inv in H as [H Hz]. destruct (IH H) as (H1 & H2 & H3). apply Forall_app in Hz as [Hz1 Hz2].
  split_and!; [by constructor|done|]. intros x y [->|Hx]%elem_of_cons Hy; [|by apply H3]. rewrite Forall_forall in Hz2. by apply Hz2.
Qed.

(** The threads before an old instruction hold old ones. *)
Lemma rest_old m n l1 x l2 over y rest : StronglySorted (older m) (l1 ++ x :: l2) -> rev (l1 ++ [x]) = over ++ y :: rest ->
  ~ younger m n y -> Forall (fun z => ~ younger m n z) (y :: rest).
Proof.
  intros Hs Er Hy. constructor; [done|]. apply Forall_forall. intros z Hz (i & Hi & Hn). apply Hy.
  assert (l1 ++ [x] = rev (y :: rest) ++ rev over) as E by (rewrite <- rev_app_distr, <- Er; by rewrite rev_involutive).
  change (l1 ++ x :: l2) with (l1 ++ [x] ++ l2) in Hs. rewrite app_assoc, E in Hs. apply sorted_app in Hs as (Hs & _ & _).
  apply sorted_app in Hs as (Hs & _ & _). simpl in Hs. apply sorted_app in Hs as (_ & _ & Hs).
  destruct (Hs z y) as (i' & j & H1 & H2 & H3); [by apply list_elem_of_In, in_rev; rewrite rev_involutive; apply list_elem_of_In|set_solver|].
  exists j. split; [done|]. rewrite Hi in H1. injection H1 as <-. lia.
Qed.

Lemma over_gone m n over : NoDup over -> Forall (younger m n) over -> Forall (gone (mark m over) n) over.
Proof.
  intros Hnd Ho. rewrite Forall_forall in Ho |- *. intros x Hx. destruct (Ho x Hx) as (i & Hi & Hn).
  exists (squashed_inst i). rewrite (mark_in m over x i Hnd Hx Hi). split_and!; [done|done|..]; unfold squashed_inst;
    rewrite !DynInst.has_set; reflexivity.
Qed.

(** The thread after some of its instructions were squashed. *)
Lemma squashed_thread m tid th l1 x l2 over rest : thread_ok m tid th -> instList th = l1 ++ x :: l2 ->
  rev (l1 ++ [x]) = over ++ rest -> Forall (gone m (squashedSeqNum th)) l2 -> Forall (younger m (squashedSeqNum th)) over ->
  thread_ok (mark m over) tid (set_done true (set_squashIt (End tid) th)) /\
  forall y rest', doneSquashing th = false -> rest = y :: rest' -> thread_ok (mark m over) tid (set_squashIt (Node y) th).
Proof.
  intros Hok El Er Hg Ho. pose proof (same_order_mark m over) as Hs. pose proof (thread_mono _ _ _ _ Hs Hok) as [].
  split; [by constructor|]. intros y rest' Hd ->. constructor; try done; simpl; [congruence|]. intros _.
  assert (E : l1 ++ [x] = (rev rest' ++ [y]) ++ rev over).
  { change (rev rest' ++ [y]) with (rev (y :: rest')). rewrite <- rev_app_distr, <- Er. by rewrite rev_involutive. }
  exists (rev rest'), y, (rev over ++ l2). split_and!; [done| |].
  - rewrite El. change (l1 ++ x :: l2) with (l1 ++ [x] ++ l2). rewrite app_assoc, E, <- !app_assoc. done.
  - assert (Hnd : NoDup over).
    { pose proof (sorted_NoDup m _ (to_sorted _ _ _ Hok)) as Hnd. rewrite El in Hnd. change (l1 ++ x :: l2) with (l1 ++ [x] ++ l2) in Hnd.
      rewrite app_assoc, E in Hnd. apply NoDup_app in Hnd as (Hnd & _). apply NoDup_app in Hnd as (_ & _ & Hnd). by rewrite <- Permutation_rev in Hnd. }
    apply Forall_app. split; [|eapply Forall_impl; [exact Hg|]; intros z; by apply gone_mono].
    pose proof (over_gone m (squashedSeqNum th) over Hnd Ho) as Hg'. rewrite Forall_forall in Hg' |- *. intros z Hz. apply Hg'.
    by apply list_elem_of_In, in_rev, list_elem_of_In.
Qed.

Lemma inv_lists s tid th y : inv s -> 0 <= tid -> threads s !! Z.to_nat tid = Some th -> y ∈ instList th -> is_Some (insts s !! y).
Proof.
  intros Hi H0 Hth Hy. destruct (deref_any_ok s tid th y Hi H0 Hth Hy) as (i & _ & Hx). by exists i.
Qed.

(** One cycle of squashing. *)
Lemma doSquash_ok s tid th l1 x l2 : inv s -> 0 <= tid -> threads s !! Z.to_nat tid = Some th -> doneSquashing th = false ->
  squashIt th = Node x -> instList th = l1 ++ x :: l2 -> Forall (gone (insts s) (squashedSeqNum th)) l2 -> 0 < squashWidth s ->
  exists over rest th' it,
    let s1 := set_threads (set_insts s (mark (insts s) over)) (<[Z.to_nat tid := th']> (threads s)) in
    doSquash s tid = Ok (set_tail s1 it) /\ inv s1 /\
    rev (l1 ++ [x]) = over ++ rest /\ Forall (younger (insts s) (squashedSeqNum th)) over /\
    Z.of_nat (length over) <= squashWidth s /\
    ((th' = set_done true (set_squashIt (End tid) th) /\ Forall (fun y => ~ younger (insts s) (squashedSeqNum th) y) rest) \/
     (exists y rest', rest = y :: rest' /\ th' = set_squashIt (Node y) th /\ younger (insts s) (squashedSeqNum th) y /\
        Z.of_nat (length over) = squashWidth s)) /\
    (if decide (l2 = [] /\ over <> [] /\ rest <> []) then youngest_tail s1 it else it = tail s).
Proof.
  intros Hi H0 Hth Hd Hit El Hg Hw. pose proof (i_thread _ Hi tid th H0 Hth) as Hok. pose proof (to_sorted _ _ _ Hok) as Hs.
  pose proof (sorted_NoDup _ _ Hs) as Hnd. rewrite El in Hs. set (n := squashedSeqNum th) in *.
  assert (Hall : forall y, y ∈ instList th -> is_Some (insts s !! y)) by (intros y; by apply (inv_lists s tid th)).
  assert (Hx : x ∈ instList th) by (rewrite El; set_solver). destruct (Hall x Hx) as [i Hix].
  assert (Ev : vget (threads s) tid = Ok th) by by apply vget_Ok.
  unfold doSquash. rewrite Ev, bind_Ok, Hit. rewrite bool_decide_eq_false_2 by done. cbn [negb c_assert].
  rewrite bind_Ok, it_deref_ok, bind_Ok, (inst_ok s x i Hix), bind_Ok by done. fold n.
  set (thd := set_done true (set_squashIt (End tid) th)).
  destruct (Z.ltb_spec (DynInst.seqNum i) n) as [Hlt|Hge].
  - exists [], (rev (l1 ++ [x])), thd, (tail s). cbn [mark foldl app length].
    unfold end_squash. rewrite (upd_thread_ok s tid th) by done. fold thd. split_and!; try done; [|lia| |].
    + apply (inv_thread s tid th thd (insts s)); try done. by apply (squashed_thread (insts s) tid th l1 x l2 [] (rev (l1 ++ [x]))).
    + left. split; [done|]. rewrite rev_unit. apply (rest_old (insts s) n l1 x l2 [] x (rev l1) Hs); [by rewrite rev_unit|].
      intros (j & Hj & Hn). assert (j = i) as -> by congruence. lia.
    + by rewrite decide_False by (intros (_ & ? & _); done).
  - destruct (rob_squash_loop_ok (Z.to_nat (squashWidth s)) s tid th l1 x l2 false H0 Hth El Hnd Hit Hall)
      as (ret & upd & over & rest & th' & -> & Er & Hlen & Hover & Hrest). rewrite bind_Ok. fold n in Hover, Hrest.
    assert (Hsub : forall y, y ∈ over ++ rest -> y ∈ instList th).
    { intros y Hy. rewrite <- Er in Hy. apply list_elem_of_In, in_rev, list_elem_of_In in Hy. rewrite El. set_solver. }
    assert (Ho : Forall (younger (insts s) n) over).
    { apply Forall_forall. intros y Hy. destruct (Hall y) as [j Hj]; [apply Hsub; set_solver|]. exists j. split; [done|]. by apply (Hover y). }
    destruct (squashed_thread (insts s) tid th l1 x l2 over rest Hok El Er Hg Ho) as [Hthd Hthn].
    assert (Hinv : forall th2, thread_ok (mark (insts s) over) tid th2 -> instList th2 = instList th ->
      inv (set_threads (set_insts s (mark (insts s) over)) (<[Z.to_nat tid := th2]> (threads s)))).
    { intros th2 H2 E2. apply (inv_thread s tid th); try done; [apply same_order_mark|by rewrite E2]. }
    destruct rest as [|y rest].
    { destruct Hrest as [-> ->]. exists over, [], thd, (tail s). split_and!; [done|by apply Hinv|done|done|lia|left; split; [done|constructor]|]. by rewrite decide_False by (intros (_ & _ & ?); done). }
    destruct Hrest as (-> & -> & Hup & Hstop). set (s1 := set_threads _ _).
    assert (Hth1 : threads s1 !! Z.to_nat tid = Some (set_squashIt (Node y) th)) by (simpl; apply list_lookup_insert_eq; by apply lookup_lt_Some in Hth).
    assert (vget (threads s1) tid = Ok (set_squashIt (Node y) th)) as -> by by apply vget_Ok. rewrite bind_Ok. cbn [set_squashIt instList squashIt squashedSeqNum].
    assert (Hyi : y ∈ instList th) by (apply Hsub; set_solver). rewrite it_deref_ok, bind_Ok by done.
    destruct (Hall y Hyi) as [j Hj].
    assert (Hyo : y ∉ over).
    { intros Hyo. pose proof Hnd as Hnd'. rewrite El in Hnd'. change (l1 ++ x :: l2) with (l1 ++ [x] ++ l2) in Hnd'. rewrite app_assoc in Hnd'.
      apply NoDup_app in Hnd' as (Hnd' & _). rewrite (Permutation_rev (l1 ++ [x])), Er in Hnd'. apply NoDup_app in Hnd' as (_ & Hd' & _).
      apply (Hd' y Hyo). set_solver. }
    assert (Hj1 : insts s1 !! y = Some j) by (simpl; by rewrite mark_out). rewrite (inst_ok s1 y j Hj1), bind_Ok. fold n.
    assert (Hfin : exists th2, (if DynInst.seqNum j <=? n then end_squash s1 tid else Ok s1) =
        Ok (set_threads (set_insts s (mark (insts s) over)) (<[Z.to_nat tid := th2]> (threads s))) /\
        inv (set_threads (set_insts s (mark (insts s) over)) (<[Z.to_nat tid := th2]> (threads s))) /\
        ((th2 = thd /\ Forall (fun z => ~ younger (insts s) n z) (y :: rest)) \/
         (exists y' rest', y :: rest = y' :: rest' /\ th2 = set_squashIt (Node y') th /\ younger (insts s) n y' /\ Z.of_nat (length over) = squashWidth s))).
    { destruct (Z.leb_spec (DynInst.seqNum j) n).
      - exists thd. unfold end_squash. rewrite (upd_thread_ok s1 tid _ _ H0 Hth1). split_and!.
        + unfold s1. cbn [set_threads set_insts threads]. by rewrite list_insert_insert_eq.
        + by apply Hinv.
        + left. split; [done|]. apply (rest_old (insts s) n l1 x l2 over y rest Hs Er). intros (j' & Hj' & Hn). assert (j' = j) as -> by congruence. lia.
      - exists (set_squashIt (Node y) th). split_and!; [done|by apply Hinv; [apply (Hthn y rest)|]|]. right. exists y, rest.
        split_and!; try done; [by exists j|]. destruct Hstop as [Hs'|Hs']; [lia|]. specialize (Hs' j Hj). lia. }
    destruct Hfin as (th2 & -> & Hi2 & Hcase). rewrite bind_Ok. destruct upd.
    + destruct (updateTail_ok _ Hi2) as (it & -> & Hit2). exists over, (y :: rest), th2, it. split_and!; try done; [lia|]. symmetry in Hup. apply andb_true_iff in Hup as [?%negb_true_iff%bool_decide_eq_false ?%bool_decide_eq_true].
      by rewrite decide_True.
    + exists over, (y :: rest), th2, (tail s). split_and!; try done; [lia|]. rewrite decide_False; [done|]. intros (-> & Hne & _). by rewrite bool_decide_eq_false_2 in Hup.
Qed.

(** A squash begins at the youngest instruction of the thread. *)
Lemma squash_begin s n tid th l x : inv s -> 0 <= tid -> threads s !! Z.to_nat tid = Some th -> instList th = l ++ [x] ->
  exists th', let s1 := set_threads s (<[Z.to_nat tid := th']> (threads s)) in
    squash s n tid = doSquash s1 tid /\ inv s1 /\ th' = set_squashIt (Node x) (start_squash n th).
Proof.
  intros Hi H0 Hth El. pose proof (i_thread _ Hi tid th H0 Hth) as Hok. exists (set_squashIt (Node x) (start_squash n th)).
  assert (Hne : isEmpty s = false).
  { unfold isEmpty. apply Z.eqb_neq. rewrite (i_count _ Hi). unfold countInsts. apply list_elem_of_lookup_2 in Hth as Hin.
    revert Hin. generalize (threads s). intros ts. induction ts as [|th' ts IH]; intros Hin; [by apply not_elem_of_nil in Hin|].
    assert (Hpos : 0 <= foldr (fun th m => Z.of_nat (length (instList th)) + m) 0 ts) by (clear; induction ts; simpl; lia).
    apply elem_of_cons in Hin as [<-|Hin]; simpl; [rewrite El, length_app; simpl; lia|]. specialize (IH Hin). lia. }
  split_and!; [| |done].
  - unfold squash. rewrite Hne, (upd_thread_ok s tid th), bind_Ok by done. set (s1 := set_threads s (<[Z.to_nat tid := start_squash n th]> (threads s))).
    assert (Hth1 : threads s1 !! Z.to_nat tid = Some (start_squash n th)) by (simpl; apply list_lookup_insert_eq; by apply lookup_lt_Some in Hth).
    assert (vget (threads s1) tid = Ok (start_squash n th)) as -> by by apply vget_Ok. rewrite bind_Ok. cbn [start_squash instList].
    rewrite El. rewrite bool_decide_eq_false_2 by by destruct l. rewrite it_last_snoc, bind_Ok, (upd_thread_ok s1 tid _ _ H0 Hth1), bind_Ok.
    f_equal. unfold s1. cbn [set_threads threads]. by rewrite list_insert_insert_eq.
  - assert (E : s = set_insts s (insts s)) by by destruct s. rewrite E at 1. apply (inv_thread s tid th); try done.
    destruct Hok. constructor; try done. intros _. exists l, x, []. split_and!; try done.
Qed.

Lemma count_insert ts k th th' : ts !! k = Some th ->
  foldr (fun th n => Z.of_nat (length (instList th)) + n) 0 (<[k := th']> ts) =
  foldr (fun th n => Z.of_nat (length (instList th)) + n) 0 ts - Z.of_nat (length (instList th)) + Z.of_nat (length (instList th')).
Proof.
  revert k. induction ts as [|y ts IH]; intros k Hk; [done|]. destruct k; simpl in *; [injection Hk as ->; lia|]. rewrite (IH k Hk). lia.
Qed.
Lemma count_member ts k th : ts !! k = Some th ->
  Z.of_nat (length (instList th)) <= foldr (fun th n => Z.of_nat (length (instList th)) + n) 0 ts.
Proof.
  revert k. induction ts as [|y ts IH]; intros k Hk; [done|].
  assert (Hpos : 0 <= foldr (fun th m => Z.of_nat (length (instList th)) + m) 0 ts) by (clear; induction ts; simpl; lia).
  destruct k; simpl in *; [injection Hk as ->; lia|]. specialize (IH k Hk). lia.
Qed.

(** ** Insertion and retirement *)
Lemma insertInst_ok s x i th : inv s -> insts s !! x = Some i -> 0 <= DynInst.threadNumber i ->
  threads s !! Z.to_nat (DynInst.threadNumber i) = Some th -> doneSquashing th = true -> numInstsInROB s <> numEntries s ->
  Forall (fun y => older (insts s) y x) (instList th) ->
  insertInst s x = Ok (set_head (set_tail (set_num (set_threads (set_insts s (<[x := DynInst.set DynInst.RobEntry i]> (insts s)))
      (<[Z.to_nat (DynInst.threadNumber i) := set_entries (threadEntries th + 1) (set_list (instList th ++ [x]) th)]> (threads s)))
      (numInstsInROB s + 1)) (Node x)) (if numInstsInROB s =? 0 then Node x else head s)).
Proof.
  intros Hi Hx H0 Hth Hd Hroom Hold. set (tid := DynInst.threadNumber i) in *. pose proof (i_thread _ Hi tid th H0 Hth) as Hok.
  assert (Hlt : (Z.to_nat tid < length (threads s))%nat) by by apply lookup_lt_Some in Hth.
  assert (Hcount : 0 <= threadEntries th <= numInstsInROB s).
  { rewrite (to_count _ _ _ Hok), (i_count _ Hi). pose proof (count_member (threads s) _ th Hth). unfold countInsts. lia. }
  pose proof (i_room _ Hi) as Hr.
  unfold insertInst. rewrite (proj2 (Z.eqb_neq _ _) Hroom). cbn [negb c_assert]. rewrite bind_Ok, (inst_ok s x i Hx), bind_Ok. fold tid.
  rewrite (upd_thread_ok s tid th), bind_Ok by done. set (th1 := set_list (instList th ++ [x]) th). set (s1 := set_threads s _).
  assert (Hth1 : threads s1 !! Z.to_nat tid = Some th1) by (simpl; by apply list_lookup_insert_eq).
  assert (vget (threads s1) tid = Ok th1) as -> by by apply vget_Ok. rewrite bind_Ok. cbn [th1 set_list instList].
  assert (Hhead : (if numInstsInROB s1 =? 0 then
         x0 ← it_deref (instList th ++ [x]) (it_begin tid (instList th ++ [x]));
         _ ← c_assert (x0 =? x);
         Ok (set_head s1 (it_begin tid (instList th ++ [x])))
       else Ok s1) = Ok (set_head s1 (if numInstsInROB s =? 0 then Node x else head s))).
  { change (numInstsInROB s1) with (numInstsInROB s). destruct (Z.eqb_spec (numInstsInROB s) 0) as [E0|]; [|by destruct s].
    assert (instList th = []) as ->. { apply nil_length_inv. pose proof (to_count _ _ _ Hok). lia. }
    cbn [it_begin app]. rewrite it_deref_ok by set_solver. by rewrite bind_Ok, Z.eqb_refl. }
  rewrite Hhead. set (it' := if numInstsInROB s =? 0 then Node x else head s). rewrite bind_Ok, it_last_snoc, bind_Ok.
  rewrite (upd_inst_ok (set_tail (set_head s1 it') (Node x)) x i) by done. rewrite bind_Ok.
  match goal with |- context [upd_thread ?a tid ?f] => rewrite (upd_thread_ok a tid th1 f H0 Hth1), bind_Ok end.
  rewrite it_deref_ok, bind_Ok, Z.eqb_refl by set_solver. cbn [c_assert]. rewrite bind_Ok. f_equal.
  unfold s1. cbn. rewrite list_insert_insert_eq. rewrite uint_small by lia. reflexivity.
Qed.

Lemma inserted_inv s x i th it it' : inv s -> insts s !! x = Some i -> 0 <= DynInst.threadNumber i ->
  threads s !! Z.to_nat (DynInst.threadNumber i) = Some th -> doneSquashing th = true -> numInstsInROB s <> numEntries s ->
  Forall (fun y => older (insts s) y x) (instList th) ->
  inv (set_head (set_tail (set_num (set_threads (set_insts s (<[x := DynInst.set DynInst.RobEntry i]> (insts s)))
      (<[Z.to_nat (DynInst.threadNumber i) := set_entries (threadEntries th + 1) (set_list (instList th ++ [x]) th)]> (threads s)))
      (numInstsInROB s + 1)) it) it').
Proof.
  intros Hi Hx H0 Hth Hd Hroom Hold. set (tid := DynInst.threadNumber i) in *. pose proof (i_thread _ Hi tid th H0 Hth) as Hok.
  set (m' := <[x := _]> (insts s)). assert (Hs : same_order (insts s) m').
  { assert (m' = alter (DynInst.set DynInst.RobEntry) x (insts s)) as ->; [|apply same_order_set].
    apply map_eq. intros y. unfold m'. destruct (decide (x = y)) as [<-|]; [by rewrite lookup_insert_eq, lookup_alter_eq, Hx|].
    by rewrite lookup_insert_ne, lookup_alter_ne. }
  constructor; simpl.
  - intros tid' th' H0' Hth'. destruct (decide (Z.to_nat tid' = Z.to_nat tid)) as [E|Hne].
    2:{ rewrite list_lookup_insert_ne in Hth' by done. apply (thread_mono (insts s)); [done|]. by apply (i_thread _ Hi). }
    assert (tid' = tid) as -> by lia. rewrite list_lookup_insert_eq in Hth' by by apply lookup_lt_Some in Hth. injection Hth' as <-.
    destruct (thread_mono _ _ _ _ Hs Hok). constructor; simpl.
    + apply Forall_app. split; [done|]. apply Forall_singleton. exists (DynInst.set DynInst.RobEntry i). unfold m'. rewrite lookup_insert_eq.
      split_and!; [done|done|]. by rewrite DynInst.has_set.
    + assert (Hold' : Forall (fun y => older m' y x) (instList th)) by (eapply Forall_impl; [exact Hold|]; intros y; by apply older_mono).
      revert to_sorted0 Hold'. clear. intros H1 H2. induction H1 as [|y l _ IH Hy]; simpl; [repeat constructor|].
      apply Forall_cons in H2 as [H2 H3]. constructor; [by apply IH|]. apply Forall_app. split; [done|]. by apply Forall_singleton.
    + rewrite length_app. simpl. lia.
    + done.
    + congruence.
  - rewrite length_insert. apply (i_active _ Hi).
  - rewrite (i_count _ Hi). unfold countInsts. simpl. rewrite (count_insert _ _ th) by done. simpl. rewrite length_app. simpl. lia.
  - pose proof (i_room _ Hi). lia.
Qed.

Lemma thread_frame m m' tid th : thread_ok m tid th -> (forall y, y ∈ instList th -> m' !! y = m !! y) -> thread_ok m' tid th.
Proof.
  intros [He Hs Hc Hd Hq] Hf. constructor; try done.
  - rewrite Forall_forall in He |- *. intros y Hy. destruct (He y Hy) as (i & H1 & H2). exists i. by rewrite Hf.
  - revert Hs Hf. clear. induction 1 as [|x l _ IH Hx]; intros Hf; constructor; [apply IH; set_solver|]. rewrite Forall_forall in Hx |- *.
    intros y Hy. destruct (Hx y Hy) as (i & j & H1 & H2 & H3). exists i, j. rewrite !Hf by set_solver. done.
  - intros Hf'. destruct (Hq Hf') as (l1 & x & l2 & H1 & H2 & H3). exists l1, x, l2. split_and!; try done.
    rewrite Forall_forall in H3 |- *. intros y Hy. destruct (H3 y Hy) as (i & H4). exists i. rewrite Hf; [done|]. rewrite H2. set_solver.
Qed.

(** The buffer once the head [x] of thread [tid] has left it. *)
Definition without_head (s : t) (tid x : Z) (i : DynInst.t) (th : Thread) (l : list Z) : t :=
  set_threads (set_insts (set_num s (numInstsInROB s - 1))
    (<[x := DynInst.set DynInst.Committed (DynInst.reset DynInst.RobEntry i)]> (insts s)))
    (<[Z.to_nat tid := set_list l (set_entries (threadEntries th - 1) th)]> (threads s)).

Lemma without_head_inv s tid x i th l : inv s -> 0 <= tid -> threads s !! Z.to_nat tid = Some th -> doneSquashing th = true ->
  instList th = x :: l -> insts s !! x = Some i -> inv (without_head s tid x i th l).
Proof.
  intros Hi H0 Hth Hd El Hx. pose proof (i_thread _ Hi tid th H0 Hth) as Hok. pose proof (sorted_NoDup _ _ (to_sorted _ _ _ Hok)) as Hnd.
  rewrite El in Hnd. apply NoDup_cons in Hnd as [Hxl Hnd].
  assert (Htx : DynInst.threadNumber i = tid).
  { pose proof (to_entry _ _ _ Hok) as He. rewrite El in He. apply Forall_cons in He as [(j & Hj & Ht & _) _]. congruence. }
  constructor; simpl.
  - intros tid' th' H0' Hth'. destruct (decide (Z.to_nat tid' = Z.to_nat tid)) as [E|Hne].
    + assert (tid' = tid) as -> by lia. rewrite list_lookup_insert_eq in Hth' by by apply lookup_lt_Some in Hth. injection Hth' as <-.
      apply (thread_frame (insts s)).
      * destruct Hok as [He Hs Hc Hd' Hq]. rewrite El in *. apply Forall_cons in He as [_ He]. apply StronglySorted_inv in Hs as [Hs _].
        constructor; try done; simpl in *; [lia|congruence].
      * intros y Hy. rewrite lookup_insert_ne; [done|]. intros <-. done.
    + rewrite list_lookup_insert_ne in Hth' by done. pose proof (i_thread _ Hi tid' th' H0' Hth') as Hok'. apply (thread_frame (insts s)); [done|].
      intros y Hy. rewrite lookup_insert_ne; [done|]. intros <-. pose proof (to_entry _ _ _ Hok') as He. rewrite Forall_forall in He.
      destruct (He x Hy) as (j & Hj & Ht & _). assert (j = i) as -> by congruence. lia.
  - rewrite length_insert. apply (i_active _ Hi).
  - rewrite (i_count _ Hi). unfold countInsts. simpl. rewrite (count_insert _ _ th) by done. rewrite El. simpl. lia.
  - pose proof (i_room _ Hi). lia.
Qed.

Lemma retireHead_ok s tid x i th l : inv s -> 0 <= tid -> threads s !! Z.to_nat tid = Some th -> doneSquashing th = true ->
  instList th = x :: l -> insts s !! x = Some i -> DynInst.has i DynInst.CanCommit = true ->
  exists it, retireHead s tid = Ok (removeFrontInst (set_head (without_head s tid x i th l) it) x) /\ oldest_head (without_head s tid x i th l) it.
Proof.
  intros Hi H0 Hth Hd El Hx Hc. destruct (updateHead_ok _ (without_head_inv s tid x i th l Hi H0 Hth Hd El Hx)) as (it & Eh & Hit).
  exists it. split; [|exact Hit]. pose proof (i_thread _ Hi tid th H0 Hth) as Hok.
  assert (Hcount : 1 <= threadEntries th <= numInstsInROB s).
  { pose proof (count_member (threads s) _ th Hth). rewrite (i_count _ Hi), (to_count _ _ _ Hok) in *. unfold countInsts. rewrite El in *. simpl in *. lia. }
  pose proof (i_room _ Hi). unfold retireHead. replace (0 <? numInstsInROB s) with true by lia. cbn [c_assert]. rewrite bind_Ok.
  assert (vget (threads s) tid = Ok th) as -> by by apply vget_Ok. rewrite bind_Ok, El. cbn [it_begin]. rewrite it_deref_ok, bind_Ok by set_solver.
  rewrite (inst_ok s x i Hx), bind_Ok, Hc. cbn [c_assert]. rewrite bind_Ok.
  rewrite (upd_thread_ok (set_num s (numInstsInROB s - 1)) tid th), bind_Ok by done. set (s1 := set_threads _ _).
  rewrite (upd_inst_ok s1 x i), bind_Ok by done. set (s2 := set_insts _ _).
  assert (Hth2 : threads s2 !! Z.to_nat tid = Some (set_entries (uint 32 (threadEntries th - 1)) th)).
  { simpl. apply list_lookup_insert_eq. by apply lookup_lt_Some in Hth. }
  rewrite (upd_thread_ok s2 tid _ _ H0 Hth2), bind_Ok.
  assert (E : set_threads s2 (<[Z.to_nat tid := set_list (list.tail (instList (set_entries (uint 32 (threadEntries th - 1)) th)))
    (set_entries (uint 32 (threadEntries th - 1)) th)]> (threads s2)) = without_head s tid x i th l).
  { unfold s2, s1, without_head. cbn. rewrite list_insert_insert_eq, El, uint_small by lia. reflexivity. }
  rewrite E, Eh. done.
Qed.
End RobProof.
