(* ===== verification/RobTheorems.v ===== *)
(** * Theorems on the reorder buffer *)
From stdpp Require Import sorting.
From S2P Require Import Prelude Rob RobProof.
Import ROB RobProof.

(** ** Runs

    What commit does with the buffer: instructions come from rename and are
    completed by execution, the head of a thread is retired, a squash begins and
    goes on cycle by cycle. *)
Inductive op :=
| Insert (x : Z)
| Complete (x : Z)
| Retire (tid : Z)
| Squash (n tid : Z)
| Cycle (tid : Z).

(** [markCompletedInsts] for one instruction. *)
Definition complete (s : t) (x : Z) : res t := upd_inst s x (DynInst.set DynInst.CanCommit).

Definition exec (s : t) (o : op) : res t :=
  match o with
  | Insert x => insertInst s x
  | Complete x => complete s x
  | Retire tid => retireHead s tid
  | Squash n tid => squash s n tid
  | Cycle tid => doSquash s tid
  end.

Definition at_thread (s : t) (tid : Z) (th : Thread) : Prop := 0 <= tid /\ threads s !! Z.to_nat tid = Some th.

(** When commit does it: it inserts into and retires from a thread that is not
    being squashed, in program order and while there is room. *)
Definition enabled (s : t) (o : op) : Prop :=
  match o with
  | Insert x => exists i th, insts s !! x = Some i /\ at_thread s (DynInst.threadNumber i) th /\ doneSquashing th = true /\
      numInstsInROB s <> numEntries s /\ Forall (fun y => older (insts s) y x) (instList th)
  | Complete x => is_Some (insts s !! x)
  | Retire tid => exists th x l i, at_thread s tid th /\ doneSquashing th = true /\ instList th = x :: l /\
      insts s !! x = Some i /\ DynInst.has i DynInst.CanCommit = true
  | Squash n tid => isEmpty s = true \/ exists th, at_thread s tid th /\ instList th <> []
  | Cycle tid => exists th, at_thread s tid th /\ doneSquashing th = false
  end.
Fixpoint enabled_run (s : t) (ops : list op) : Prop :=
  match ops with
  | [] => True
  | o :: ops => enabled s o /\ forall s', exec s o = Ok s' -> enabled_run s' ops
  end.

(** The instructions of a thread, in order. *)
Definition queue (s : t) (tid : Z) : list Z :=
  match vget (threads s) tid with Ok th => instList th | Er _ => [] end.

(** What an operation puts into and takes out of a thread's queue. *)
Definition puts (s : t) (o : op) (tid : Z) : list Z :=
  match o with
  | Insert x => match insts s !! x with Some i => if DynInst.threadNumber i =? tid then [x] else [] | None => [] end
  | _ => []
  end.
Definition takes (s : t) (o : op) (tid : Z) : list Z :=
  match o with Retire tid' => if tid' =? tid then take 1 (queue s tid) else [] | _ => [] end.

Fixpoint run (s : t) (ops : list op) (tid : Z) : res (t * list Z * list Z) :=
  match ops with
  | [] => Ok (s, [], [])
  | o :: ops => s1 ← exec s o; '(s', ins, outs) ← run s1 ops tid; Ok (s', puts s o tid ++ ins, takes s o tid ++ outs)
  end.

Lemma queue_at s tid th : at_thread s tid th -> queue s tid = instList th.
Proof. intros [H0 Hth]. unfold queue. assert (vget (threads s) tid = Ok th) as -> by by apply vget_Ok. done. Qed.

Lemma queue_insert s s' tid th th' tid' : at_thread s tid th -> threads s' = <[Z.to_nat tid := th']> (threads s) ->
  queue s' tid' = if tid =? tid' then instList th' else queue s tid'.
Proof.
  intros [H0 Hth] E. unfold queue. rewrite E. destruct (Z.eqb_spec tid tid') as [<-|Hne].
  - rewrite vget_insert_eq; [done|]. apply lookup_lt_Some in Hth. lia.
  - destruct (Z.leb_spec 0 tid'); [by rewrite vget_insert_ne|]. unfold vget. by replace (0 <=? tid') with false by lia.
Qed.

Lemma removeFront_inv s x : inv s -> inv (removeFrontInst s x).
Proof. intros []. by constructor. Qed.

Lemma alter_insert (m : gmap Z DynInst.t) x i f : m !! x = Some i -> <[x := f i]> m = alter f x m.
Proof.
  intros Hx. apply map_eq. intros y. destruct (decide (x = y)) as [<-|]; [by rewrite lookup_insert_eq, lookup_alter_eq, Hx|].
  by rewrite lookup_insert_ne, lookup_alter_ne.
Qed.

Lemma rob_inv_status s m' : inv s -> same_order (insts s) m' -> inv (set_insts s m').
Proof. intros [] Hm. constructor; try done. intros tid th H0 Hth. apply (thread_mono (insts s)); auto. Qed.

(** ** The iterators *)

(** A cycle of squashing of thread [tid] from the iterator [from] on: [over] are the
    instructions that it squashes, youngest first.  The head is left alone; the tail goes to
    the youngest of the threads' last instructions when the last instruction of the thread
    was squashed and some instruction of the thread was not reached, and is left alone
    otherwise. *)
Definition squash_moves (s : t) (tid : Z) (from : It) (s' : t) : Prop :=
  exists l1 x l2 over rest, from = Node x /\ queue s tid = l1 ++ x :: l2 /\ rev (l1 ++ [x]) = over ++ rest /\ insts s' = mark (insts s) over /\
    head s' = head s /\ if decide (l2 = [] /\ over <> [] /\ rest <> []) then youngest_tail s' (tail s') else tail s' = tail s.

(** What an operation does to the head and the tail of the buffer. *)
Definition iterators (s : t) (o : op) (s' : t) : Prop :=
  match o with
  | Insert x => tail s' = Node x /\ head s' = if numInstsInROB s =? 0 then Node x else head s
  | Complete _ => head s' = head s /\ tail s' = tail s
  | Retire _ => oldest_head s' (head s') /\ tail s' = tail s
  | Squash _ tid => if isEmpty s then s' = s else exists l x, queue s tid = l ++ [x] /\ squash_moves s tid (Node x) s'
  | Cycle tid => exists th, at_thread s tid th /\ squash_moves s tid (squashIt th) s'
  end.

(** A cycle of squashing keeps the queues. *)
Lemma cycle_step s tid th : inv s -> 0 < squashWidth s -> at_thread s tid th -> doneSquashing th = false ->
  exists s', doSquash s tid = Ok s' /\ inv s' /\ squashWidth s' = squashWidth s /\ (forall tid', queue s' tid' = queue s tid') /\ squash_moves s tid (squashIt th) s'.
Proof.
  intros Hi Hw Hat Hd. pose proof Hat as [H0 Hth]. destruct (to_squash _ _ _ (i_thread _ Hi tid th H0 Hth) Hd) as (l1 & x & l2 & Hit & El & Hg).
  destruct (doSquash_ok s tid th l1 x l2 Hi H0 Hth Hd Hit El Hg Hw) as (over & rest & th' & it & E & Hi1 & Er & _ & _ & Hcase & Htail).
  eexists. split; [exact E|]. split; [by apply inv_tail|]. split; [done|]. split.
  - intros tid'. erewrite (queue_insert s _ tid th th' tid' Hat) by reflexivity. destruct (Z.eqb_spec tid tid') as [<-|]; [|done].
    rewrite (queue_at s tid th Hat). destruct Hcase as [[-> _]|(y & r & _ & -> & _)]; done.
  - exists l1, x, l2, over, rest. by rewrite (queue_at s tid th Hat).
Qed.

(** Every operation succeeds, keeps the invariant, treats each thread as a
    queue and moves the iterators as it should. *)
Lemma rob_exec_ok s o : inv s -> 0 < squashWidth s -> enabled s o -> exists s', exec s o = Ok s' /\ inv s' /\ squashWidth s' = squashWidth s /\
  (forall tid, queue s tid ++ puts s o tid = takes s o tid ++ queue s' tid) /\ iterators s o s'.
Proof.
  intros Hi Hw He. destruct o as [x|x|tid|n tid|tid]; cbn [exec enabled puts takes iterators] in *.
  - destruct He as (i & th & Hx & Hat & Hd & Hroom & Hold). pose proof Hat as [H0 Hth].
    pose proof (insertInst_ok s x i th Hi Hx H0 Hth Hd Hroom Hold) as E. eexists. split; [exact E|].
    split; [by apply inserted_inv|]. split; [done|]. split; [|done]. intros tid. rewrite Hx. cbn [app].
    erewrite (queue_insert s (set_head _ _) _ th _ tid Hat) by reflexivity. destruct (Z.eqb_spec (DynInst.threadNumber i) tid) as [<-|]; [|by rewrite app_nil_r].
    by rewrite (queue_at s _ th Hat).
  - destruct He as [i Hx]. unfold complete. rewrite (upd_inst_ok s x i _ Hx), (alter_insert _ _ _ _ Hx). eexists. split; [done|].
    split; [apply rob_inv_status; [done|apply same_order_set]|]. split; [done|]. split; [|done]. intros tid. by rewrite app_nil_r.
  - destruct He as (th & x & l & i & Hat & Hd & El & Hx & Hc). pose proof Hat as [H0 Hth].
    destruct (retireHead_ok s tid x i th l Hi H0 Hth Hd El Hx Hc) as (it & E & Hit). eexists. split; [exact E|].
    split; [apply removeFront_inv, rob_inv_head; by apply without_head_inv|]. split; [done|]. split; [|done]. intros tid'. rewrite app_nil_r.
    erewrite (queue_insert s (removeFrontInst _ _) tid th _ tid' Hat) by reflexivity. destruct (Z.eqb_spec tid tid') as [<-|]; [|done].
    by rewrite (queue_at s _ th Hat), El.
  - destruct (isEmpty s) eqn:Eem.
    { exists s. unfold squash. rewrite Eem. split_and!; try done. intros tid'. by rewrite app_nil_r. }
    destruct He as [He|(th & Hat & Hne)]; [done|].
    pose proof Hat as [H0 Hth]. destruct (exists_last Hne) as (l & x & El).
    destruct (squash_begin s n tid th l x Hi H0 Hth El) as (th' & E & Hi1 & Eth). set (s1 := set_threads s _) in *.
    assert (Hat1 : at_thread s1 tid th') by (split; [done|]; simpl; apply list_lookup_insert_eq; by apply lookup_lt_Some in Hth).
    destruct (cycle_step s1 tid th' Hi1 Hw Hat1) as (s' & E' & Hi' & Hw' & Hq & Hm); [by rewrite Eth|]. exists s'. rewrite E.
    assert (Hq1 : forall tid', queue s1 tid' = queue s tid').
    { intros tid'. rewrite (queue_insert s s1 tid th th' tid' Hat eq_refl). destruct (Z.eqb_spec tid tid') as [<-|]; [|done]. by rewrite (queue_at s _ th Hat), Eth. }
    split_and!; try done; [intros tid'; by rewrite app_nil_r, Hq, Hq1|]. exists l, x. rewrite (queue_at s _ th Hat). split; [done|].
    rewrite Eth in Hm. unfold squash_moves in *. rewrite Hq1 in Hm. exact Hm.
  - destruct He as (th & Hat & Hd). destruct (cycle_step s tid th Hi Hw Hat Hd) as (s' & E & Hi' & Hw' & Hq & Hm). exists s'. split_and!; try done; [|by exists th].
    intros tid'. by rewrite app_nil_r, Hq.
Qed.

Lemma rob_new_inv m st ne w pol thr nt act s : new m st ne w pol thr nt = Ok s -> 0 <= ne < 2 ^ 31 ->
  Forall (fun tid => 0 <= tid < nt) act -> inv (setActiveThreads s act) /\ squashWidth s = w /\ forall tid, queue s tid = [].
Proof.
  unfold new. intros H Hne Hact. apply res_bind_Ok in H as ([p mx] & _ & [= <-]). simpl.
  assert (Hth : forall k th, map (fun tid => mkThread st 0 mx [] (End tid) 0 true) (seqZ 0 nt) !! k = Some th ->
    th = mkThread st 0 mx [] (End (Z.of_nat k)) 0 true).
  { intros k th Hk. apply list_lookup_fmap_Some in Hk as (tid & -> & Htid). apply lookup_seqZ in Htid as [Ht _]. by rewrite Ht. }
  split_and!; [|done|].
  - constructor; simpl.
    + intros tid th H0 Hk. apply Hth in Hk as ->. rewrite Z2Nat.id by done. constructor; simpl; try done. constructor.
    + rewrite length_map, length_seqZ. eapply Forall_impl; [exact Hact|]. intros tid. simpl. lia.
    + unfold countInsts. simpl. clear. induction (seqZ 0 nt) as [|tid l IH]; simpl; [done|]. lia.
    + lia.
  - intros tid. unfold queue. simpl. destruct (vget _ tid) as [th|] eqn:E; [|done]. apply vget_Ok in E as [_ Hk]. by apply Hth in Hk as ->.
Qed.

Lemma rob_run_queue s ops tid : inv s -> 0 < squashWidth s -> enabled_run s ops ->
  exists s' ins outs, run s ops tid = Ok (s', ins, outs) /\ inv s' /\ queue s tid ++ ins = outs ++ queue s' tid /\
    forall ops1 o ops2, ops = ops1 ++ o :: ops2 -> exists s1 ins1 outs1 s2, run s ops1 tid = Ok (s1, ins1, outs1) /\ exec s1 o = Ok s2 /\ iterators s1 o s2.
Proof.
  revert s. induction ops as [|o ops IH]; intros s Hi Hw Hr; [exists s, [], []; rewrite app_nil_r; split_and!; try done; by intros [|? ?]|]. destruct Hr as [He Hr].
  destruct (rob_exec_ok s o Hi Hw He) as (s1 & E & Hi1 & Ew & Hq & Hm). destruct (IH s1 Hi1) as (s' & ins & outs & E' & Hi' & Hq' & Hms); [lia|by apply Hr|].
  exists s', (puts s o tid ++ ins), (takes s o tid ++ outs). cbn [run]. rewrite E, bind_Ok, E', bind_Ok. split_and!; try done.
  - by rewrite app_assoc, Hq, <- app_assoc, Hq', app_assoc.
  - intros [|o1 ops1] o2 ops2 [= <- ->]; [exists s, [], [], s1; done|]. destruct (Hms ops1 o2 ops2 eq_refl) as (s2 & ins1 & outs1 & s3 & E2 & E3 & Hm3).
    exists s2. cbn [run]. rewrite E, bind_Ok, E2, bind_Ok. by eexists _, _, s3.
Qed.

(** C15. The reorder buffer commits in program order.  Whatever commit does with it
    within its own guards — insert, complete, retire, begin a squash, go on
    squashing — every operation succeeds, the invariant is kept (counts, per
    thread order, the place where a squash has to go on), and each thread is a
    queue: what was in it and what has been inserted is, in order, what has been
    retired and what is still there.  Every operation moves the global iterators so:
    an insertion puts the tail at the new instruction, and the head too when the buffer
    was empty; a retirement puts the head at the oldest of the threads' first
    instructions and leaves the tail; a cycle of squashing leaves the head, and
    puts the tail at the youngest of the threads' last instructions if it squashed the
    last instruction of its thread and did not go through the whole thread. *)
Theorem rob_commits_in_order s ops tid : inv s -> 0 < squashWidth s -> enabled_run s ops ->
  exists s' ins outs, run s ops tid = Ok (s', ins, outs) /\ inv s' /\ queue s tid ++ ins = outs ++ queue s' tid /\
    forall ops1 o ops2, ops = ops1 ++ o :: ops2 -> exists s1 ins1 outs1 s2, run s ops1 tid = Ok (s1, ins1, outs1) /\ exec s1 o = Ok s2 /\ iterators s1 o s2.
Proof. apply rob_run_queue. Qed.

(** ** A squash *)
Definition is_younger (m : gmap Z DynInst.t) (n x : Z) : bool :=
  match m !! x with Some i => n <? DynInst.seqNum i | None => false end.

Lemma is_younger_iff m n x : is_younger m n x = true <-> younger m n x.
Proof.
  unfold is_younger, younger. destruct (m !! x) as [i|]; [|naive_solver]. rewrite Z.ltb_lt. split; [by exists i|]. by intros (j & [= <-] & ?).
Qed.
Lemma is_younger_mark m n l x : is_younger (mark m l) n x = is_younger m n x.
Proof.
  revert m. induction l as [|y l IH]; intros m; [done|]. simpl. rewrite IH. unfold is_younger. destruct (decide (y = x)) as [<-|].
  - rewrite lookup_alter_eq. by destruct (m !! y).
  - by rewrite lookup_alter_ne.
Qed.

(** Cycles of squashing until the thread is done: how many, and the buffer. *)
Fixpoint drain (fuel : nat) (s : t) (tid : Z) : res (Z * t) :=
  d ← isDoneSquashing s tid;
  if (d : bool) then Ok (0, s) else
  match fuel with
  | O => Er OutOfFuel
  | S fuel => s ← doSquash s tid; '(k, s) ← drain fuel s tid; Ok (k + 1, s)
  end.

Lemma done_at s tid th : at_thread s tid th -> isDoneSquashing s tid = Ok (doneSquashing th).
Proof. intros [H0 Hth]. unfold isDoneSquashing. assert (vget (threads s) tid = Ok th) as -> by by apply vget_Ok. done. Qed.

Lemma bfilter_all (f : Z -> bool) l : Forall (fun x => f x = true) l -> List.filter f l = l.
Proof. induction 1 as [|x l H _ IH]; simpl; [done|]. by rewrite H, IH. Qed.
Lemma bfilter_none (f : Z -> bool) l : Forall (fun x => f x = false) l -> List.filter f l = [].
Proof. induction 1 as [|x l H _ IH]; simpl; [done|]. by rewrite H. Qed.

(** [n] instructions, at most [w] of them in a cycle, and one cycle at least. *)
Definition cycles (w n : Z) : Z := if n =? 0 then 1 else (n + w - 1) / w.

Lemma cycles_last w n : 0 < w -> 0 <= n <= w -> cycles w n = 1.
Proof.
  intros Hw Hn. unfold cycles. destruct (Z.eqb_spec n 0); [done|]. symmetry. apply (Z.div_unique_pos _ _ _ (n - 1)); lia.
Qed.
Lemma cycles_more w n : 0 < w -> 0 < n -> cycles w (w + n) = cycles w n + 1.
Proof.
  intros Hw Hn. unfold cycles. rewrite (proj2 (Z.eqb_neq _ _)) by lia. rewrite (proj2 (Z.eqb_neq n 0)) by lia.
  replace (w + n + w - 1) with (n + w - 1 + 1 * w) by lia. by rewrite Z.div_add by lia.
Qed.

Lemma cycles_pos w n : 0 < w -> 0 <= n -> 1 <= cycles w n.
Proof.
  intros Hw Hn. unfold cycles. destruct (Z.eqb_spec n 0); [done|]. apply Z.div_le_lower_bound; lia.
Qed.

(** The place of an element in a list without duplicates. *)
Lemma split_at_unique (a b a' b' : list Z) y : NoDup (a ++ y :: b) -> a ++ y :: b = a' ++ y :: b' -> a = a' /\ b = b'.
Proof.
  revert a'. induction a as [|z a IH]; intros a' Hnd E.
  - destruct a' as [|w a']; simpl in E; [by injection E|]. injection E as <- E. simpl in Hnd. apply NoDup_cons in Hnd as [Hn _].
    rewrite E in Hn. set_solver.
  - simpl in Hnd. apply NoDup_cons in Hnd as [Hz Hnd]. destruct a' as [|w a']; simpl in E; injection E as -> E; [set_solver|].
    destruct (IH a' Hnd E) as [-> ->]. done.
Qed.

Definition squash_done (s : t) (tid : Z) (th : Thread) (l : list Z) (it : It) : t :=
  set_tail (set_threads (set_insts s (mark (insts s) l)) (<[Z.to_nat tid := set_done true (set_squashIt (End tid) th)]> (threads s))) it.

Lemma drain_ok fuel s tid th l1 x l2 : inv s -> 0 < squashWidth s -> at_thread s tid th -> doneSquashing th = false ->
  squashIt th = Node x -> instList th = l1 ++ x :: l2 -> Forall (gone (insts s) (squashedSeqNum th)) l2 ->
  let ys := List.filter (is_younger (insts s) (squashedSeqNum th)) (rev (l1 ++ [x])) in
  cycles (squashWidth s) (Z.of_nat (length ys)) <= Z.of_nat fuel ->
  exists it, drain fuel s tid = Ok (cycles (squashWidth s) (Z.of_nat (length ys)), squash_done s tid th ys it).
Proof.
  revert s th l1 x l2. induction fuel as [|fuel IH]; intros s th l1 x l2 Hi Hw Hat Hd Hit El Hg ys Hf.
  { pose proof (cycles_pos (squashWidth s) (Z.of_nat (length ys)) Hw ltac:(lia)). lia. }
  pose proof Hat as [H0 Hth]. cbn [drain]. rewrite (done_at s tid th Hat), bind_Ok, Hd.
  destruct (doSquash_ok s tid th l1 x l2 Hi H0 Hth Hd Hit El Hg Hw) as (over & rest & th' & it & E & Hi1 & Er & Ho & Hlen & Hcase & _).
  set (s1 := set_threads _ _) in *. rewrite E, bind_Ok.
  assert (Hover : List.filter (is_younger (insts s) (squashedSeqNum th)) over = over).
  { apply bfilter_all. eapply Forall_impl; [exact Ho|]. intros y. apply is_younger_iff. }
  assert (Eys : ys = over ++ List.filter (is_younger (insts s) (squashedSeqNum th)) rest) by (unfold ys; by rewrite Er, List.filter_app, Hover).
  assert (Hat1 : at_thread (set_tail s1 it) tid th') by (split; [done|]; simpl; apply list_lookup_insert_eq; by apply lookup_lt_Some in Hth).
  destruct Hcase as [[-> Hrest]|(y & rest' & -> & -> & Hy & Hn)].
  - assert (ys = over) as ->.
    { rewrite Eys, bfilter_none; [by rewrite app_nil_r|]. eapply Forall_impl; [exact Hrest|]. intros y Hy. apply not_true_iff_false. intros Hy'. by apply Hy, is_younger_iff. }
    exists it. rewrite cycles_last by lia. destruct fuel; cbn [drain]; rewrite (done_at _ _ _ Hat1), bind_Ok; reflexivity.
  - set (th' := set_squashIt (Node y) th) in *. destruct (i_thread _ Hi1 tid th' H0 (proj2 Hat1)) as [_ _ _ _ Hq].
    assert (Er' : rev rest' ++ [y] = rev (y :: rest')) by done.
    assert (El' : instList th' = rev rest' ++ y :: rev over ++ l2).
    { change (instList th') with (instList th). rewrite El. change (x :: l2) with ([x] ++ l2). rewrite app_assoc.
      rewrite <- (rev_involutive (l1 ++ [x])), Er, rev_app_distr. simpl. by rewrite <- !app_assoc. }
    assert (Hg' : Forall (gone (insts s1) (squashedSeqNum th')) (rev over ++ l2)).
    { destruct (Hq Hd) as (l1' & x' & l2' & [= <-] & E2 & Hg2). pose proof (sorted_NoDup _ _ (to_sorted _ _ _ (i_thread _ Hi tid th H0 Hth))) as Hnd.
      change (instList th') with (instList th) in *. rewrite E2 in El', Hnd. by destruct (split_at_unique _ _ _ _ _ Hnd El') as [_ <-]. }
    set (zs := List.filter (is_younger (insts s) (squashedSeqNum th)) (y :: rest')) in *.
    assert (Hyz : is_younger (insts s) (squashedSeqNum th) y = true) by by apply is_younger_iff.
    assert (Hzs : (0 < length zs)%nat) by (unfold zs; simpl; rewrite Hyz; simpl; lia).
    assert (Ezs : List.filter (is_younger (insts (set_tail s1 it)) (squashedSeqNum th')) (rev (rev rest' ++ [y])) = zs).
    { rewrite Er', rev_involutive. unfold zs. apply List.filter_ext. intros z. apply is_younger_mark. }
    assert (Ecyc : cycles (squashWidth s) (Z.of_nat (length ys)) = cycles (squashWidth s) (Z.of_nat (length zs)) + 1).
    { rewrite Eys, length_app, Nat2Z.inj_add, Hn. apply cycles_more; lia. }
    destruct (IH (set_tail s1 it) th' (rev rest') y (rev over ++ l2) (inv_tail _ _ Hi1) Hw Hat1 Hd eq_refl El' Hg') as (it' & E').
    { rewrite Ezs. change (squashWidth (set_tail s1 it)) with (squashWidth s). lia. }
    rewrite Ezs in E'. change (squashWidth (set_tail s1 it)) with (squashWidth s) in E'. rewrite E', bind_Ok. exists it'.
    rewrite Ecyc. do 2 f_equal. unfold squash_done, s1. cbn. rewrite list_insert_insert_eq. unfold mark. rewrite Eys, foldl_app. reflexivity.
Qed.

(** C17. A squash is exact and takes as long as it must: squashing thread [tid], which has
    instructions, down to sequence number [n] marks precisely the younger instructions of the thread
    as squashed and ready to commit, changes no other instruction, queue or
    count, and is done after [(y - 1) / squashWidth] more cycles when [y]
    instructions are younger (none when [y] is 0). *)
Theorem squash_exact s n tid th fuel : inv s -> 0 < squashWidth s -> at_thread s tid th -> instList th <> [] ->
  let ys := List.filter (is_younger (insts s) n) (instList th) in
  Z.of_nat (length ys) <= Z.of_nat fuel ->
  exists s1 s', squash s n tid = Ok s1 /\
    drain fuel s1 tid = Ok (cycles (squashWidth s) (Z.of_nat (length ys)) - 1, s') /\ inv s' /\
    isDoneSquashing s' tid = Ok true /\ numInstsInROB s' = numInstsInROB s /\
    (forall tid', queue s' tid' = queue s tid') /\
    forall x, insts s' !! x = if bool_decide (x ∈ ys) then squashed_inst <$> insts s !! x else insts s !! x.
Proof.
  intros Hi Hw Hat Hne ys Hf. pose proof Hat as [H0 Hth]. destruct (exists_last Hne) as (l & x & El).
  destruct (squash_begin s n tid th l x Hi H0 Hth El) as (th' & E & Hi1 & Eth). set (s1 := set_threads s _) in *.
  assert (Hat1 : at_thread s1 tid th') by (split; [done|]; simpl; apply list_lookup_insert_eq; by apply lookup_lt_Some in Hth).
  assert (Hlen : length (List.filter (is_younger (insts s) n) (rev (l ++ [x]))) = length ys).
  { unfold ys. rewrite El. clear. generalize (l ++ [x]). intros q. induction q as [|a q IH]; [done|]. simpl. rewrite List.filter_app, length_app, IH. simpl.
    destruct (is_younger _ _ a); simpl; lia. }
  destruct (drain_ok (S fuel) s1 tid th' l x [] Hi1 Hw Hat1) as (it & Ed); try (by rewrite Eth).
  { rewrite Eth. simpl. change (insts s1) with (insts s). rewrite Hlen. unfold cycles. destruct (_ =? 0); [lia|].
    apply Z.div_le_upper_bound; [done|]. simpl. nia. }
  assert (Esq : squashedSeqNum th' = n) by by rewrite Eth. rewrite Esq in Ed. change (insts s1) with (insts s) in Ed. rewrite Hlen in Ed.
  cbn [drain] in Ed. rewrite (done_at s1 tid th' Hat1), bind_Ok in Ed. rewrite Eth in Ed at 1. cbn [set_squashIt start_squash doneSquashing] in Ed.
  apply res_bind_Ok in Ed as (s2 & E2 & Ed). apply res_bind_Ok in Ed as ([k s'] & Edr & [= Ek ->]).
  set (zs := List.filter _ (rev (l ++ [x]))) in *.
  assert (Hmem : forall y, y ∈ zs <-> y ∈ ys).
  { intros y. unfold zs, ys. rewrite El, !list_elem_of_In, !List.filter_In, <- in_rev. done. }
  assert (Hnd : NoDup zs).
  { unfold zs. pose proof (sorted_NoDup _ _ (to_sorted _ _ _ (i_thread _ Hi tid th H0 Hth))) as Hnd. rewrite El, (Permutation_rev (l ++ [x])) in Hnd.
    apply NoDup_ListNoDup, List.NoDup_filter, NoDup_ListNoDup, Hnd. }
  exists s2, (squash_done s1 tid th' zs it). rewrite E. split; [done|]. split; [rewrite Edr; do 2 f_equal; change (squashWidth s1) with (squashWidth s) in Ek; lia|].
  assert (Hat2 : at_thread (squash_done s1 tid th' zs it) tid (set_done true (set_squashIt (End tid) th'))).
  { split; [done|]. simpl. apply list_lookup_insert_eq. rewrite length_insert. by apply lookup_lt_Some in Hth. }
  split; [|split; [by rewrite (done_at _ _ _ Hat2)|split; [done|split]]].
  - apply inv_tail. apply (inv_thread s1 tid th'); [done|done|apply Hat1|apply same_order_mark| |done].
    pose proof (thread_mono _ _ _ _ (same_order_mark (insts s1) zs) (i_thread _ Hi1 tid th' H0 (proj2 Hat1))) as []. by constructor.
  - intros tid'. erewrite (queue_insert s1 (squash_done _ _ _ _ _) tid th' _ tid' Hat1) by reflexivity.
    rewrite (queue_insert s s1 tid th th' tid' Hat eq_refl). destruct (Z.eqb_spec tid tid') as [<-|]; [|done].
    rewrite (queue_at s tid th Hat), Eth. done.
  - intros y. change (insts (squash_done s1 tid th' zs it)) with (mark (insts s) zs). rewrite (bool_decide_ext _ _ (iff_sym (Hmem y))).
    case_bool_decide as Hy; [|by apply mark_out]. destruct (insts s !! y) as [i|] eqn:Hiy; [by apply mark_in|].
    exfalso. apply Hmem in Hy. unfold ys in Hy. apply list_elem_of_In, List.filter_In in Hy as [_ Hy]. unfold is_younger in Hy. by rewrite Hiy in Hy.
Qed.

(** ** Errors *)

(** C40. A squash of a thread without instructions while another thread has some
    ends the simulation: the thread is marked as squashing, but there is nowhere
    to begin, and the next cycle fails its assertion. *)
Theorem squash_of_empty_thread_fails s n tid th : inv s -> at_thread s tid th -> instList th = [] -> doneSquashing th = true ->
  isEmpty s = false ->
  exists s', squash s n tid = Ok s' /\ isDoneSquashing s' tid = Ok false /\ doSquash s' tid = Er AssertFail.
Proof.
  intros Hi Hat El Hd He. pose proof Hat as [H0 Hth]. unfold squash. rewrite He, (upd_thread_ok s tid th), bind_Ok by done.
  set (s1 := set_threads s _).
  assert (Hat1 : at_thread s1 tid (start_squash n th)) by (split; [done|]; simpl; apply list_lookup_insert_eq; by apply lookup_lt_Some in Hth).
  assert (Ev : vget (threads s1) tid = Ok (start_squash n th)) by (apply vget_Ok; exact Hat1). rewrite Ev, bind_Ok. simpl.
  rewrite El, bool_decide_eq_true_2 by done. exists s1. split_and!; [done|by rewrite (done_at _ _ _ Hat1)|].
  unfold doSquash. rewrite Ev, bind_Ok. simpl. rewrite (to_done _ _ _ (i_thread _ Hi tid th H0 Hth) Hd), bool_decide_eq_true_2 by done. done.
Qed.

(** Thread [tid] has a head that may commit. *)
Definition ready (s : t) (c : Commit.t) (tid : Z) : res bool :=
  e ← isEmpty_tid s tid;
  if (e : bool) then Ok false else
  st ← vget (Commit.commitStatus c) tid;
  if Commit.may_commit st then isHeadReady s tid else Ok false.

Fixpoint first_ready (s : t) (c : Commit.t) (l : list Z) : res (option Z) :=
  match l with [] => Ok None | tid :: l => r ← ready s c tid; if (r : bool) then Ok (Some tid) else first_ready s c l end.

Lemma oldest_stays s c o l r : (forall x i, insts s !! x = Some i -> o <= DynInst.seqNum i) ->
  Commit.oldest_loop s c (Some o) l = Ok r -> r = Some o.
Proof.
  intros Hseq. induction l as [|tid l IH]; cbn [Commit.oldest_loop]; intros H; [by injection H|].
  apply res_bind_Ok in H as (e & _ & H). destruct e; [by apply IH|]. apply res_bind_Ok in H as (st & _ & H).
  destruct (negb _); [by apply IH|]. apply res_bind_Ok in H as (rd & _ & H). destruct (negb _); [by apply IH|].
  apply res_bind_Ok in H as (x & _ & H). apply res_bind_Ok in H as (y & _ & H). apply res_bind_Ok in H as (i & Hi & H).
  unfold inst in Hi. apply deref_Ok in Hi. specialize (Hseq y i Hi). rewrite (proj2 (Z.ltb_ge _ _)) in H by done. by apply IH.
Qed.

(** The commit policy "oldest ready" does not look for the oldest instruction: it
    compares a sequence number with a thread number, so the first thread of the
    active list with a head that may commit is taken, however young, as long as
    sequence numbers are not below thread numbers. *)
Theorem oldestReady_takes_first s c tid0 : Forall (fun tid => 0 <= tid < 2 ^ 15) (activeThreads s) ->
  (forall x i tid, insts s !! x = Some i -> tid ∈ activeThreads s -> tid <= DynInst.seqNum i) ->
  Commit.oldestReady s c = Ok tid0 ->
  exists o, first_ready s c (activeThreads s) = Ok o /\ tid0 = match o with Some tid => tid | None => Commit.InvalidThreadID end.
Proof.
  unfold Commit.oldestReady. intros Hact Hseq H. apply res_bind_Ok in H as (r & Hl & [= Hr]).
  assert (Hsub : activeThreads s ⊆ activeThreads s) by done. revert Hsub Hl. generalize (activeThreads s) at 1 3 4. intros l.
  induction l as [|tid l IH]; cbn [Commit.oldest_loop first_ready]; intros Hsub Hl.
  { injection Hl as <-. exists None. by subst. }
  assert (Hin : tid ∈ activeThreads s) by (apply Hsub; by left). unfold ready.
  apply res_bind_Ok in Hl as (e & He & Hl). rewrite He, bind_Ok. destruct e; [apply IH; [set_solver|done]|].
  apply res_bind_Ok in Hl as (st & Hst & Hl). rewrite Hst, bind_Ok. destruct (Commit.may_commit st); cbn [negb] in Hl; [|apply IH; [set_solver|done]].
  apply res_bind_Ok in Hl as (rd & Hrd & Hl). rewrite Hrd, bind_Ok. destruct rd; cbn [negb] in Hl; [|apply IH; [set_solver|done]].
  apply res_bind_Ok in Hl as (x & _ & Hl). rewrite Forall_forall in Hact. specialize (Hact tid Hin). rewrite uint_small in Hl by lia.
  apply oldest_stays in Hl; [|intros y i Hy; by apply (Hseq y i tid)]. exists (Some tid). split; [done|]. subst r tid0. apply sint_small; lia.
Qed.

(** ** Instructions in flight *)
Section flight.
Import InstList.

Lemma until_loop_ok sn tid l s : NoDup l -> (forall x, x ∈ l -> x ∈ instList s /\ is_Some (insts s !! x)) ->
  StronglySorted (fun x y => older (insts s) y x) l ->
  exists s', until_loop s sn tid l = Ok s' /\ instList s' = instList s /\ removeInstsThisCycle s' = removeInstsThisCycle s /\
    removeList s' = removeList s ++ List.filter (fun x => match insts s !! x with
      | Some i => (sn <? DynInst.seqNum i) && (DynInst.threadNumber i =? tid) | None => false end) l.
Proof.
  revert s. induction l as [|x l IH]; intros s Hnd Hin Hs; [exists s; by rewrite app_nil_r|]. cbn [until_loop].
  apply NoDup_cons in Hnd as [Hxl Hnd]. apply StronglySorted_inv in Hs as [Hs Hx]. destruct (Hin x) as [Hxi [i Hi]]; [by left|].
  unfold inst at 1. rewrite Hi. cbn [deref]. rewrite bind_Ok. cbn [List.filter]. rewrite Hi.
  destruct (Z.ltb_spec sn (DynInst.seqNum i)) as [Hlt|Hge]; cbn [andb].
  - unfold squashInstIt. rewrite it_deref_ok, bind_Ok by done. unfold inst at 1. rewrite Hi. cbn [deref]. rewrite bind_Ok.
    destruct (DynInst.threadNumber i =? tid); rewrite bind_Ok.
    + set (m' := <[x := _]> (insts s)). destruct (IH (mk m' (instList s) (removeList s ++ [x]) (removeInstsThisCycle s)) Hnd) as (s' & E & E1 & E2 & E3).
      { intros y Hy. destruct (Hin y) as [H1 H2]; [by right|]. split; [done|]. simpl. unfold m'. rewrite lookup_insert_ne; [done|]. by intros <-. }
      { assert (Hm : same_order (insts s) m') by (unfold m'; rewrite (alter_insert _ _ _ _ Hi); apply same_order_set).
        simpl. clear - Hs Hm. induction Hs as [|y l _ IH Hy]; constructor; [done|]. eapply Forall_impl; [exact Hy|]. intros z. by apply older_mono. }
      exists s'. split_and!; try done. rewrite E3. simpl. rewrite <- app_assoc. cbn [app]. do 2 f_equal. apply List.filter_ext_in. intros y Hy%list_elem_of_In.
      unfold m'. rewrite lookup_insert_ne; [done|]. by intros <-.
    + destruct (IH s Hnd) as (s' & E & E1 & E2 & E3); [intros y Hy; apply Hin; by right|done|]. by exists s'.
  - exists s. split_and!; try done. rewrite bfilter_none; [by rewrite app_nil_r|]. eapply Forall_impl; [exact Hx|].
    intros y (j & i' & Hj & Hi' & Hlt). simpl. rewrite Hj. assert (i' = i) as -> by congruence. by replace (sn <? DynInst.seqNum j) with false by lia.
Qed.

Lemma erase_all_ok l rm : NoDup l -> NoDup rm -> rm ⊆ l -> erase_all l rm = Ok (List.filter (fun x => negb (bool_decide (x ∈ rm))) l).
Proof.
  revert l. induction rm as [|x rm IH]; intros l Hl Hrm Hsub; cbn [erase_all].
  { rewrite bfilter_all; [done|]. apply Forall_forall. intros y _. rewrite bool_decide_eq_false_2; [done|]. apply not_elem_of_nil. }
  apply NoDup_cons in Hrm as [Hx Hrm]. unfold erase. rewrite bool_decide_eq_true_2 by (apply Hsub; by left). rewrite bind_Ok.
  rewrite IH; [|by apply NoDup_filter|done|].
  - f_equal. clear. induction l as [|y l IH]; [done|]. rewrite filter_cons. destruct (decide (y <> x)) as [Hne|He]; cbn [List.filter].
    + rewrite IH. rewrite (bool_decide_ext (y ∈ x :: rm) (y ∈ rm)); [done|]. rewrite elem_of_cons. naive_solver.
    + rewrite IH. rewrite (bool_decide_eq_true_2 (y ∈ x :: rm)); [done|]. apply dec_stable in He. subst. by left.
  - intros y Hy. apply list_elem_of_filter. split; [by intros ->|]. apply Hsub. by right.
Qed.

(** Squashed instructions leave the CPU's list: after [removeInstsUntil] and
    [cleanUpRemovedInsts] it holds, in their order, exactly the instructions
    that are of another thread or not younger than the sequence number. *)
Theorem inst_list_squash s sn tid : instList s <> [] -> removeList s = [] -> StronglySorted (older (insts s)) (instList s) ->
  Forall (fun x => is_Some (insts s !! x)) (instList s) ->
  exists s1 s2, removeInstsUntil s sn tid = Ok s1 /\ cleanUpRemovedInsts s1 = Ok s2 /\ removeList s2 = [] /\
    instList s2 = List.filter (fun x => match insts s !! x with
      | Some i => negb ((sn <? DynInst.seqNum i) && (DynInst.threadNumber i =? tid)) | None => true end) (instList s).
Proof.
  intros Hne Hrm Hs Hall. pose proof (sorted_NoDup _ _ Hs) as Hnd.
  assert (Hrev : forall x, x ∈ rev (instList s) <-> x ∈ instList s) by (intros x; by rewrite !list_elem_of_In, <- in_rev).
  destruct (until_loop_ok sn tid (rev (instList s)) (mk (insts s) (instList s) (removeList s) true)) as (s1 & E & E1 & _ & E3).
  { by rewrite <- Permutation_rev. }
  { intros x Hx. apply Hrev in Hx. split; [done|]. rewrite Forall_forall in Hall. by apply Hall. }
  { simpl. clear - Hs. induction Hs as [|x l _ IH Hx]; simpl; [constructor|]. revert IH. generalize (rev l) (in_rev l). intros r Hr IH.
    assert (Hx' : Forall (fun y => older (insts s) x y) r).
    { rewrite Forall_forall in Hx |- *. intros y Hy. apply Hx. apply list_elem_of_In, Hr, list_elem_of_In, Hy. }
    clear - IH Hx'. induction IH as [|y r _ IH Hy]; simpl; [repeat constructor|]. apply Forall_cons in Hx' as [Hxy Hx'].
    constructor; [by apply IH|]. apply Forall_app. split; [done|]. by apply Forall_singleton. }
  set (p := fun x => match insts s !! x with Some i => (sn <? DynInst.seqNum i) && (DynInst.threadNumber i =? tid) | None => false end) in *.
  simpl in E1, E3. rewrite Hrm in E3. simpl in E3. exists s1. eexists. unfold removeInstsUntil. rewrite bool_decide_eq_false_2 by done. cbn [negb c_assert].
  rewrite bind_Ok. split; [exact E|]. unfold cleanUpRemovedInsts. rewrite E1, E3, erase_all_ok; [|done| |].
  - split; [done|]. split; [done|]. simpl. apply List.filter_ext_in. intros x Hx%list_elem_of_In.
    rewrite (bool_decide_ext (x ∈ List.filter p (rev (instList s))) (p x = true)).
    2:{ rewrite list_elem_of_In, List.filter_In, <- list_elem_of_In, Hrev. naive_solver. }
    unfold p. destruct (insts s !! x) as [i|]; [|done]. by destruct (_ && _).
  - apply NoDup_ListNoDup, List.NoDup_filter, NoDup_ListNoDup. by rewrite <- Permutation_rev.
  - intros x Hx. apply list_elem_of_In, List.filter_In in Hx as [Hx _]. apply list_elem_of_In in Hx. by apply Hrev.
Qed.
End flight.

(** ** The tail of an emptied buffer *)

(** The tail is not moved by a retirement: when the only instruction of the buffer
    retires, the tail is at an instruction that is in no list. *)
Theorem retired_tail_dangles s tid x i th : inv s -> at_thread s tid th -> doneSquashing th = true -> instList th = [x] -> insts s !! x = Some i ->
  DynInst.has i DynInst.CanCommit = true -> tail s = Node x -> exists s', retireHead s tid = Ok s' /\ tail s' = Node x /\ deref_any s' (tail s') = Er BadPointer.
Proof.
  intros Hi [H0 Hth] Hd El Hx Hc Ht. destruct (retireHead_ok s tid x i th [] Hi H0 Hth Hd El Hx Hc) as (it & -> & _). eexists. split; [done|]. split; [exact Ht|].
  simpl. rewrite Ht. unfold deref_any, inst. simpl. rewrite lookup_insert_eq. cbn [deref mbind res_bind]. simpl.
  pose proof (to_entry _ _ _ (i_thread _ Hi tid th H0 Hth)) as He. rewrite El in He. apply Forall_singleton in He as (j & Hj & Htid & _). assert (j = i) as -> by congruence.
  rewrite Htid, vget_insert_eq by (apply lookup_lt_Some in Hth; lia). cbn [mbind res_bind]. done.
Qed.

(** ** A buffer of eight entries for two threads *)
Definition demo_insts : gmap Z DynInst.t :=
  list_to_map (map (fun x => (x, DynInst.mk x 0 0)) [10; 11; 12; 13; 14] ++ map (fun x => (x, DynInst.mk x 1 0)) [20; 21]).
Definition demo_rob : t :=
  match new demo_insts Idle 8 2 "Dynamic" 0 2 with
  | Ok s => setActiveThreads s [0; 1]
  | Er _ => mk ∅ Dynamic 0 0 [] 0 [] (End 0) (End 0) 0 [] false
  end.
Definition demo_full : t :=
  match run demo_rob [Insert 10; Insert 11; Insert 12; Insert 13; Insert 14] 0 with Ok (s, _, _) => s | Er _ => demo_rob end.

Lemma demo_rob_inv : inv demo_rob /\ squashWidth demo_rob = 2.
Proof.
  destruct (rob_new_inv demo_insts Idle 8 2 "Dynamic" 0 2 [0; 1] (set_active demo_rob [])) as (H1 & H2 & _).
  - reflexivity.
  - lia.
  - repeat constructor; lia.
  - split; [exact H1|reflexivity].
Qed.

(** [enabled], evaluated. *)
Definition olderb (m : gmap Z DynInst.t) (x y : Z) : bool :=
  match m !! x, m !! y with Some i, Some j => DynInst.seqNum i <? DynInst.seqNum j | _, _ => false end.
Definition enabledb (s : t) (o : op) : bool :=
  match o with
  | Insert x =>
      match insts s !! x with
      | Some i =>
          match vget (threads s) (DynInst.threadNumber i) with
          | Ok th => doneSquashing th && negb (numInstsInROB s =? numEntries s) && forallb (fun y => olderb (insts s) y x) (instList th)
          | Er _ => false
          end
      | None => false
      end
  | Complete x => bool_decide (is_Some (insts s !! x))
  | Retire tid =>
      match vget (threads s) tid with
      | Ok th => doneSquashing th && match instList th with
                  | x :: _ => match insts s !! x with Some i => DynInst.has i DynInst.CanCommit | None => false end
                  | [] => false
                  end
      | Er _ => false
      end
  | Squash n tid => isEmpty s || match vget (threads s) tid with Ok th => negb (bool_decide (instList th = [])) | Er _ => false end
  | Cycle tid => match vget (threads s) tid with Ok th => negb (doneSquashing th) | Er _ => false end
  end.
Fixpoint enabled_runb (s : t) (ops : list op) : bool :=
  match ops with
  | [] => true
  | o :: ops => enabledb s o && match exec s o with Ok s' => enabled_runb s' ops | Er _ => true end
  end.

Lemma enabledb_sound s o : enabledb s o = true -> enabled s o.
Proof.
  destruct o as [x|x|tid|n tid|tid]; cbn [enabledb enabled].
  - destruct (insts s !! x) as [i|] eqn:Hx; [|done]. destruct (vget _ _) as [th|] eqn:Hv; [|done]. intros [[Hd Hn]%andb_true_iff Ho]%andb_true_iff.
    apply vget_Ok in Hv. exists i, th. split_and!; try done; [lia|]. apply Forall_forall. intros y Hy.
    rewrite forallb_forall in Ho. specialize (Ho y). rewrite <- list_elem_of_In in Ho. specialize (Ho Hy). unfold olderb in Ho.
    destruct (insts s !! y) as [j|] eqn:Hj; [|done]. rewrite Hx in Ho. exists j, i. split_and!; [done|done|lia].
  - apply bool_decide_eq_true_1.
  - destruct (vget _ _) as [th|] eqn:Hv; [|done]. intros [Hd H]%andb_true_iff. destruct (instList th) as [|x l] eqn:El; [done|].
    destruct (insts s !! x) as [i|] eqn:Hx; [|done]. apply vget_Ok in Hv. by exists th, x, l, i.
  - intros [H|H]%orb_true_iff; [by left|]. destruct (vget _ _) as [th|] eqn:Hv; [|done]. apply vget_Ok in Hv. right. exists th.
    split; [done|]. by apply negb_true_iff, bool_decide_eq_false_1 in H.
  - destruct (vget _ _) as [th|] eqn:Hv; [|done]. intros H%negb_true_iff. apply vget_Ok in Hv. by exists th.
Qed.
Lemma enabled_runb_sound s ops : enabled_runb s ops = true -> enabled_run s ops.
Proof.
  revert s. induction ops as [|o ops IH]; intros s; cbn [enabled_runb enabled_run]; [done|]. intros [H1 H2]%andb_true_iff.
  split; [by apply enabledb_sound|]. intros s' E. rewrite E in H2. by apply IH.
Qed.

Lemma rob_commits_in_order_witness :
  exists s', run demo_rob [Insert 10; Insert 11; Complete 10; Retire 0; Insert 12] 0 = Ok (s', [10; 11; 12], [10]) /\ queue s' 0 = [11; 12].
Proof.
  destruct (rob_commits_in_order demo_rob [Insert 10; Insert 11; Complete 10; Retire 0; Insert 12] 0) as (s' & ins & outs & E & _ & Hq & _).
  - apply demo_rob_inv.
  - rewrite (proj2 demo_rob_inv). lia.
  - apply enabled_runb_sound. vm_compute. reflexivity.
  - assert (ins = [10; 11; 12] /\ outs = [10]) as [-> ->].
    { vm_compute in E. injection E as _ <- <-. split; reflexivity. }
    exists s'. split; [exact E|]. change (queue demo_rob 0) with (@nil Z) in Hq. cbn [app] in Hq. by injection Hq as <-.
Defined.

Definition demo_one : t := match run demo_rob [Insert 10; Complete 10] 0 with Ok (s, _, _) => s | Er _ => demo_rob end.
Lemma demo_one_inv : inv demo_one.
Proof.
  destruct (rob_run_queue demo_rob [Insert 10; Complete 10] 0) as (s' & ins & outs & E & Hi & _).
  - apply demo_rob_inv.
  - rewrite (proj2 demo_rob_inv). lia.
  - apply enabled_runb_sound. vm_compute. reflexivity.
  - unfold demo_one. rewrite E. exact Hi.
Qed.

Lemma demo_full_inv : inv demo_full.
Proof.
  destruct (rob_run_queue demo_rob [Insert 10; Insert 11; Insert 12; Insert 13; Insert 14] 0) as (s' & ins & outs & E & Hi & _).
  - apply demo_rob_inv.
  - rewrite (proj2 demo_rob_inv). lia.
  - apply enabled_runb_sound. vm_compute. reflexivity.
  - unfold demo_full. rewrite E. exact Hi.
Qed.

Lemma retired_tail_dangles_witness : exists s', retireHead demo_one 0 = Ok s' /\ tail s' = Node 10 /\ deref_any s' (tail s') = Er BadPointer.
Proof.
  apply (retired_tail_dangles demo_one 0 10 (DynInst.mk 10 0 258) (mkThread Idle 1 8 [10] (End 0) 0 true)); try (vm_compute; reflexivity); [exact demo_one_inv|].
  split; [lia|vm_compute; reflexivity].
Defined.

Lemma squash_exact_witness :
  exists s1 s', squash demo_full 11 0 = Ok s1 /\ drain 3 s1 0 = Ok (1, s') /\ isDoneSquashing s' 0 = Ok true /\
    insts s' !! 12 = Some (squashed_inst (DynInst.mk 12 0 2)) /\ insts s' !! 11 = Some (DynInst.mk 11 0 2).
Proof.
  destruct (squash_exact demo_full 11 0 (mkThread Idle 5 8 [10; 11; 12; 13; 14] (End 0) 0 true) 3) as (s1 & s' & H1 & H2 & _ & H3 & _ & _ & H4).
  - exact demo_full_inv.
  - vm_compute. reflexivity.
  - split; [lia|vm_compute; reflexivity].
  - discriminate.
  - vm_compute. discriminate.
  - exists s1, s'. split; [exact H1|]. split; [exact H2|]. split; [exact H3|]. rewrite !H4. split; vm_compute; reflexivity.
Defined.

Lemma squash_of_empty_thread_fails_witness :
  exists s', squash demo_full 0 1 = Ok s' /\ doSquash s' 1 = Er AssertFail.
Proof.
  destruct (squash_of_empty_thread_fails demo_full 0 1 (mkThread Idle 0 8 [] (End 1) 0 true)) as (s' & H1 & _ & H2).
  - exact demo_full_inv.
  - split; [lia|vm_compute; reflexivity].
  - reflexivity.
  - reflexivity.
  - vm_compute. reflexivity.
  - exists s'. split; [exact H1|exact H2].
Defined.

Definition demo_two : t :=
  match run demo_rob [Insert 20; Insert 10; Complete 10; Complete 20] 0 with Ok (s, _, _) => set_active s [1; 0] | Er _ => demo_rob end.
Definition demo_commit : Commit.t := Commit.mk [Commit.Running; Commit.Running] Commit.OldestReady [].

Lemma oldestReady_takes_first_witness :
  Commit.oldestReady demo_two demo_commit = Ok 1 /\ first_ready demo_two demo_commit [1; 0] = Ok (Some 1).
Proof.
  destruct (oldestReady_takes_first demo_two demo_commit 1) as (o & H1 & H2).
  - vm_compute. repeat constructor; discriminate.
  - assert (map_Forall (fun _ i => 1 <= DynInst.seqNum i) (insts demo_two)) as Hall by (apply (bool_decide_unpack _); vm_compute; exact I).
    intros x i tid Hx Ht. specialize (Hall x i Hx). simpl in Hall. change (activeThreads demo_two) with [1; 0] in Ht. set_solver by lia.
  - vm_compute. reflexivity.
  - split; [vm_compute; reflexivity|]. change (activeThreads demo_two) with [1; 0] in H1. rewrite H1.
    destruct o as [tid|]; [by rewrite <- H2|discriminate].
Defined.

Definition demo_flight : InstList.t := InstList.mk demo_insts [10; 11; 12; 20; 21] [] false.
Lemma inst_list_squash_witness :
  exists s1 s2, InstList.removeInstsUntil demo_flight 10 0 = Ok s1 /\ InstList.cleanUpRemovedInsts s1 = Ok s2 /\
    InstList.instList s2 = [10; 20; 21].
Proof.
  destruct (inst_list_squash demo_flight 10 0) as (s1 & s2 & H1 & H2 & _ & H3).
  - discriminate.
  - reflexivity.
  - repeat (constructor || (eexists _, _; split; [reflexivity|split; [reflexivity|simpl; lia]])).
  - repeat (constructor || (eexists; reflexivity)).
  - exists s1, s2. split; [exact H1|]. split; [exact H2|]. rewrite H3. vm_compute. reflexivity.
Defined.
