(* ===== verification/StoreSet.v ===== *)
(** * Store sets

    [src/cpu/o3/store_set.hh] and [store_set.cc]: the predictor of memory
    dependences (Module [StoreSet]). *)
From S2P Require Import Prelude IntMath.

Module StoreSet.

(** [storeList] is a map from sequence numbers to sets, with the youngest store
    first. *)
Record t := mk {
  SSIT : list Z;
  validSSIT : list bool;
  LFST : list Z;
  validLFST : list bool;
  storeList : list (Z * Z);
  SSITSize : Z;
  LFSTSize : Z;
  indexMask : Z;
  offsetBits : Z
}.

Definition set_SSIT (s : t) (l : list Z) (v : list bool) : t :=
  mk l v (LFST s) (validLFST s) (storeList s) (SSITSize s) (LFSTSize s) (indexMask s) (offsetBits s).
Definition set_LFST (s : t) (l : list Z) (v : list bool) : t :=
  mk (SSIT s) (validSSIT s) l v (storeList s) (SSITSize s) (LFSTSize s) (indexMask s) (offsetBits s).
Definition set_list (s : t) (l : list (Z * Z)) : t :=
  mk (SSIT s) (validSSIT s) (LFST s) (validLFST s) l (SSITSize s) (LFSTSize s) (indexMask s) (offsetBits s).

(** [std::vector::resize]. *)
Definition resize {A} (d : A) (n : Z) (l : list A) : list A := take (Z.to_nat n) l ++ replicate (Z.to_nat n - length l) d.

Definition new (_SSIT_size _LFST_size : Z) : res t :=
  if negb (IntMath.isPowerOf2 32 _SSIT_size) then Er Fatal else
  if negb (IntMath.isPowerOf2 32 _LFST_size) then Er Fatal else
  let n := Z.to_nat _SSIT_size in
  let k := Z.to_nat _LFST_size in
  Ok (mk (replicate n 0) (replicate n false) (replicate k 0) (replicate k false) [] _SSIT_size _LFST_size (_SSIT_size - 1) 2).

Definition init (s : t) (_SSIT_size _LFST_size : Z) : t :=
  mk (resize 0 _SSIT_size (SSIT s)) (replicate (Z.to_nat _SSIT_size) false) (replicate (Z.to_nat _LFST_size) 0)
     (replicate (Z.to_nat _LFST_size) false) (storeList s) _SSIT_size _LFST_size (_SSIT_size - 1) 2.

Definition calcIndex (s : t) (PC : Z) : Z := sint 32 (Z.land (Z.shiftr PC (offsetBits s)) (uint 64 (indexMask s))).
Definition calcSSID (s : t) (PC : Z) : Z := uint 32 (Z.lxor PC (Z.shiftr PC 10) mod uint 64 (LFSTSize s)).

(** [SSID < LFSTSize]: an unsigned comparison. *)
Definition in_LFST (s : t) (id : Z) : bool := id <? uint 32 (LFSTSize s).

Definition violation (s : t) (store_PC load_PC : Z) : res t :=
  let load_index := calcIndex s load_PC in
  let store_index := calcIndex s store_PC in
  _ ← c_assert ((load_index <? SSITSize s) && (store_index <? SSITSize s));
  valid_load_SSID ← vget (validSSIT s) load_index;
  valid_store_SSID ← vget (validSSIT s) store_index;
  match (valid_load_SSID : bool), (valid_store_SSID : bool) with
  | false, false =>
      let new_set := calcSSID s load_PC in
      v ← vset (validSSIT s) load_index true;
      l ← vset (SSIT s) load_index new_set;
      v ← vset v store_index true;
      l ← vset l store_index new_set;
      _ ← c_assert (in_LFST s new_set);
      Ok (set_SSIT s l v)
  | true, false =>
      load_SSID ← vget (SSIT s) load_index;
      v ← vset (validSSIT s) store_index true;
      l ← vset (SSIT s) store_index load_SSID;
      _ ← c_assert (in_LFST s load_SSID);
      Ok (set_SSIT s l v)
  | false, true =>
      store_SSID ← vget (SSIT s) store_index;
      v ← vset (validSSIT s) load_index true;
      l ← vset (SSIT s) load_index store_SSID;
      Ok (set_SSIT s l v)
  | true, true =>
      load_SSID ← vget (SSIT s) load_index;
      store_SSID ← vget (SSIT s) store_index;
      _ ← c_assert (in_LFST s load_SSID && in_LFST s store_SSID);
      l ← (if load_SSID <? store_SSID then vset (SSIT s) store_index load_SSID else vset (SSIT s) load_index store_SSID);
      Ok (set_SSIT s l (validSSIT s))
  end.

Definition insertLoad (s : t) (load_PC load_seq_num : Z) : t := s.

(** [storeList[n] = id]. *)
Fixpoint put (l : list (Z * Z)) (n id : Z) : list (Z * Z) :=
  match l with
  | [] => [(n, id)]
  | (k, x) :: l' => if k <? n then (n, id) :: l else if k =? n then (n, id) :: l' else (k, x) :: put l' n id
  end.

Definition insertStore (s : t) (store_PC store_seq_num tid : Z) : res t :=
  let index := calcIndex s store_PC in
  _ ← c_assert (index <? SSITSize s);
  valid ← vget (validSSIT s) index;
  if negb valid then Ok s else
  store_SSID ← vget (SSIT s) index;
  _ ← c_assert (store_SSID <? LFSTSize s);
  l ← vset (LFST s) store_SSID store_seq_num;
  v ← vset (validLFST s) store_SSID true;
  Ok (set_list (set_LFST s l v) (put (storeList s) store_seq_num store_SSID)).

Definition checkInst (s : t) (PC : Z) : res Z :=
  let index := calcIndex s PC in
  _ ← c_assert (index <? SSITSize s);
  valid ← vget (validSSIT s) index;
  if negb valid then Ok 0 else
  inst_SSID ← vget (SSIT s) index;
  _ ← c_assert (inst_SSID <? LFSTSize s);
  valid ← vget (validLFST s) inst_SSID;
  if negb valid then Ok 0 else vget (LFST s) inst_SSID.

Definition issued (s : t) (issued_PC issued_seq_num : Z) (is_store : bool) : res t :=
  if negb is_store then Ok s else
  let index := calcIndex s issued_PC in
  _ ← c_assert (index <? SSITSize s);
  let s := set_list s (filter (fun x => x.1 <> issued_seq_num) (storeList s)) in
  valid ← vget (validSSIT s) index;
  if negb valid then Ok s else
  store_SSID ← vget (SSIT s) index;
  _ ← c_assert (store_SSID <? LFSTSize s);
  valid ← vget (validLFST s) store_SSID;
  n ← vget (LFST s) store_SSID;
  if valid && (n =? issued_seq_num) then v ← vset (validLFST s) store_SSID false; Ok (set_LFST s (LFST s) v) else Ok s.

(** The loop of [squash]; [fuel] bounds the number of iterations. *)
Fixpoint squash_loop (fuel : nat) (s : t) (squashed_num : Z) : res t :=
  match storeList s with
  | [] => Ok s
  | (n, idx) :: l =>
      match fuel with
      | O => Er OutOfFuel
      | S fuel =>
          if n <=? squashed_num then Ok s else
          last ← vget (LFST s) idx;
          valid ← vget (validLFST s) idx;
          if (valid : bool) && (squashed_num <? last) then
            v ← vset (validLFST s) idx false;
            squash_loop fuel (set_list (set_LFST s (LFST s) v) l) squashed_num
          else if negb valid && (squashed_num <? last) then squash_loop fuel (set_list s l) squashed_num
          else squash_loop fuel s squashed_num
      end
  end.
Definition squash (fuel : nat) (s : t) (squashed_num tid : Z) : res t := squash_loop fuel s squashed_num.

Definition clear (s : t) : t :=
  mk (SSIT s) (replicate (Z.to_nat (SSITSize s)) false) (LFST s) (replicate (Z.to_nat (LFSTSize s)) false) []
     (SSITSize s) (LFSTSize s) (indexMask s) (offsetBits s).
End StoreSet.
