(* ===== verification/StoreSetTheorems.v ===== *)
(** * Theorems on store sets *)
From stdpp Require Import sorting.
From S2P Require Import Prelude IntMath StoreSet.
Import StoreSet.

(** ** The invariant *)
Definition younger_first (a b : Z * Z) : Prop := b.1 < a.1.

(** [done] are stores that have issued. *)
Record wf (s : t) (done : list Z) : Prop := {
  w_ssit : exists k, 0 <= k < 31 /\ SSITSize s = 2 ^ k /\ indexMask s = 2 ^ k - 1;
  w_lfst : exists k, 0 <= k < 31 /\ LFSTSize s = 2 ^ k;
  w_offset : offsetBits s = 2;
  w_len : Z.of_nat (length (SSIT s)) = SSITSize s /\ Z.of_nat (length (validSSIT s)) = SSITSize s /\
    Z.of_nat (length (LFST s)) = LFSTSize s /\ Z.of_nat (length (validLFST s)) = LFSTSize s;
  w_sets : Forall (fun id => 0 <= id < LFSTSize s) (SSIT s);
  w_order : StronglySorted younger_first (storeList s);
  w_list : Forall (fun x => 0 <= x.2 < LFSTSize s /\ exists n, LFST s !! Z.to_nat x.2 = Some n /\ x.1 <= n) (storeList s);
  w_live : forall i n, validLFST s !! i = Some true -> LFST s !! i = Some n ->
    (n, Z.of_nat i) ∈ storeList s \/ n ∈ done
}.

Lemma index_range s d PC : wf s d -> 0 <= PC -> 0 <= calcIndex s PC < SSITSize s.
Proof.
  intros Hw HPC. destruct (w_ssit _ _ Hw) as (k & Hk & E & Em). unfold calcIndex. rewrite (w_offset _ _ Hw), Em, E.
  assert (0 < 2 ^ k) by (apply Z.pow_pos_nonneg; lia). assert (2 ^ k <= 2 ^ 30) by (apply Z.pow_le_mono_r; lia).
  rewrite uint_small by lia. replace (2 ^ k - 1) with (Z.ones k) by (rewrite Z.ones_equiv; lia). rewrite Z.land_ones by lia.
  pose proof (Z.mod_pos_bound (Z.shiftr PC 2) (2 ^ k)). rewrite sint_small by lia. lia.
Qed.

Lemma ssid_range s d PC : wf s d -> 0 <= PC -> 0 <= calcSSID s PC < LFSTSize s.
Proof.
  intros Hw HPC. destruct (w_lfst _ _ Hw) as (k & Hk & E). unfold calcSSID. rewrite E.
  assert (0 < 2 ^ k) by (apply Z.pow_pos_nonneg; lia). assert (2 ^ k <= 2 ^ 30) by (apply Z.pow_le_mono_r; lia).
  rewrite (uint_small 64) by lia. pose proof (Z.mod_pos_bound (Z.lxor PC (Z.shiftr PC 10)) (2 ^ k)). rewrite uint_small by lia. lia.
Qed.

Lemma in_LFST_true s d id : wf s d -> 0 <= id < LFSTSize s -> in_LFST s id = true.
Proof.
  intros Hw Hid. destruct (w_lfst _ _ Hw) as (k & Hk & E). unfold in_LFST. rewrite E.
  assert (0 < 2 ^ k) by (apply Z.pow_pos_nonneg; lia). assert (2 ^ k <= 2 ^ 30) by (apply Z.pow_le_mono_r; lia).
  rewrite uint_small by lia. lia.
Qed.

(** The set of an instruction, if it has one. *)
Definition set_of (s : t) (PC : Z) : option Z :=
  match vget (validSSIT s) (calcIndex s PC), vget (SSIT s) (calcIndex s PC) with Ok true, Ok id => Some id | _, _ => None end.

Lemma lookup_index s d PC : wf s d -> 0 <= PC -> exists v id, vget (validSSIT s) (calcIndex s PC) = Ok v /\
  vget (SSIT s) (calcIndex s PC) = Ok id /\ 0 <= id < LFSTSize s /\ set_of s PC = (if v then Some id else None).
Proof.
  intros Hw HPC. pose proof (index_range s d PC Hw HPC) as Hi. destruct (w_len _ _ Hw) as (L1 & L2 & _ & _).
  destruct (vget_lt (validSSIT s) (calcIndex s PC)) as (v & Ev & _); [lia|]. destruct (vget_lt (SSIT s) (calcIndex s PC)) as (id & Ei & _); [lia|].
  pose proof (Forall_vget _ _ _ _ (w_sets _ _ Hw) Ei) as Hid. simpl in Hid.
  exists v, id. split_and!; try lia; try done. unfold set_of. rewrite Ev, Ei. by destruct v.
Qed.

(** A change of the table of sets. *)
Lemma wf_SSIT s d l v : wf s d -> length l = length (SSIT s) -> length v = length (validSSIT s) ->
  Forall (fun id => 0 <= id < LFSTSize s) l -> wf (set_SSIT s l v) d.
Proof. intros [] E1 E2 Hl. constructor; try done. simpl. lia. Qed.

(** ** Violations *)
Lemma vget_put {A} (l : list A) i j x y : 0 <= i < Z.of_nat (length l) -> 0 <= j < Z.of_nat (length l) -> vget l j = Ok y ->
  vget (<[Z.to_nat i := x]> l) j = Ok (if i =? j then x else y).
Proof. intros Hi Hj Hy. destruct (Z.eqb_spec i j) as [<-|]; [by apply vget_insert_eq|]. by rewrite vget_insert_ne by lia. Qed.

(** The load and the store are in one set of [s'], which has the other tables of [s]. *)
Definition joined (s : t) (d : list Z) (st ld : Z) (s' : t) : Prop :=
  wf s' d /\ exists id, set_of s' st = Some id /\ set_of s' ld = Some id /\ 0 <= id < LFSTSize s /\ exists l v, s' = set_SSIT s l v.

Lemma joined_SSIT s d st ld l v id : wf s d -> length l = length (SSIT s) -> length v = length (validSSIT s) ->
  Forall (fun id => 0 <= id < LFSTSize s) l -> 0 <= id < LFSTSize s ->
  vget v (calcIndex s st) = Ok true -> vget v (calcIndex s ld) = Ok true ->
  vget l (calcIndex s st) = Ok id -> vget l (calcIndex s ld) = Ok id -> joined s d st ld (set_SSIT s l v).
Proof.
  intros Hw E1 E2 Hl Hid V1 V2 I1 I2. split; [by apply wf_SSIT|]. exists id.
  unfold set_of. change (calcIndex (set_SSIT s l v)) with (calcIndex s). simpl. rewrite V1, V2, I1, I2. repeat (split; [done|]). by exists l, v.
Qed.

Ltac slot := rewrite ?Z.eqb_refl; repeat case_match; done.
Ltac table :=
  rewrite ?length_insert; first [done | lia | by apply Forall_insert | by apply Forall_insert; [apply Forall_insert|] |
    erewrite vget_put; [|rewrite ?length_insert; lia..|eassumption]; slot |
    erewrite vget_put; [|rewrite ?length_insert; lia..|erewrite vget_put; [reflexivity|lia..|eassumption]]; slot].

Lemma violation_ok s d st ld : wf s d -> 0 <= st -> 0 <= ld -> exists s', violation s st ld = Ok s' /\ joined s d st ld s'.
Proof.
  intros Hw Hst Hld. pose proof (index_range s d st Hw Hst) as His. pose proof (index_range s d ld Hw Hld) as Hil.
  destruct (lookup_index s d st Hw Hst) as (vs & ids & Evs & Eis & Hids & _). destruct (lookup_index s d ld Hw Hld) as (vl & idl & Evl & Eil & Hidl & _).
  destruct (w_len _ _ Hw) as (L1 & L2 & _ & _). pose proof (w_sets _ _ Hw) as Hsets. pose proof (ssid_range s d ld Hw Hld) as Hnew.
  unfold violation. replace (calcIndex s ld <? SSITSize s) with true by lia. replace (calcIndex s st <? SSITSize s) with true by lia.
  cbn [andb c_assert]. rewrite bind_Ok, Evl, bind_Ok, Evs, bind_Ok. destruct vl, vs.
  - rewrite Eil, bind_Ok, Eis, bind_Ok. rewrite !(in_LFST_true s d _ Hw) by lia. cbn [andb c_assert]. rewrite bind_Ok.
    destruct (Z.ltb_spec idl ids); rewrite vset_lt, bind_Ok by lia; eexists; (split; [done|]).
    + apply (joined_SSIT _ _ _ _ _ _ idl); table.
    + apply (joined_SSIT _ _ _ _ _ _ ids); table.
  - rewrite Eil, bind_Ok. rewrite !vset_lt by lia. rewrite !bind_Ok. rewrite (in_LFST_true s d _ Hw) by lia.
    eexists. split; [done|]. apply (joined_SSIT _ _ _ _ _ _ idl); table.
  - rewrite Eis, bind_Ok. rewrite !vset_lt by lia. rewrite !bind_Ok.
    eexists. split; [done|]. apply (joined_SSIT _ _ _ _ _ _ ids); table.
  - do 4 (rewrite vset_lt by (rewrite ?length_insert; lia); rewrite ?bind_Ok). rewrite (in_LFST_true s d _ Hw) by lia.
    eexists. split; [done|]. apply (joined_SSIT _ _ _ _ _ _ (calcSSID s ld)); table.
Qed.

(** ** Stores *)
Lemma put_youngest l n id : Forall (fun x => x.1 < n) l -> put l n id = (n, id) :: l.
Proof. intros Hl. destruct Hl as [|[k x] l Hx _]; [done|]. simpl in *. by rewrite (proj2 (Z.ltb_lt k n)). Qed.

Lemma insertStore_ok s d pc n tid : wf s d -> 0 <= pc -> Forall (fun x => x.1 < n) (storeList s) ->
  exists s', insertStore s pc n tid = Ok s' /\ wf s' d /\
    s' = match set_of s pc with
         | Some id => set_list (set_LFST s (<[Z.to_nat id := n]> (LFST s)) (<[Z.to_nat id := true]> (validLFST s))) ((n, id) :: storeList s)
         | None => s
         end.
Proof.
  intros Hw Hpc Hn. pose proof (index_range s d pc Hw Hpc) as Hi. destruct (lookup_index s d pc Hw Hpc) as (v & id & Ev & Ei & Hid & ->).
  destruct (w_len _ _ Hw) as (_ & _ & L3 & L4). unfold insertStore. rewrite (proj2 (Z.ltb_lt _ _)) by lia. cbn [c_assert]. rewrite bind_Ok, Ev, bind_Ok.
  destruct v; [|by exists s]. cbn [negb]. rewrite Ei, bind_Ok, (proj2 (Z.ltb_lt _ _)) by lia. cbn [c_assert]. rewrite bind_Ok.
  rewrite !vset_lt by lia. rewrite !bind_Ok. rewrite put_youngest by done. eexists. split; [done|]. split; [|done].
  destruct Hw as [W1 W2 W3 W4 W5 W6 W7 W8]. constructor; try done; simpl.
  - rewrite !length_insert. lia.
  - apply SSorted_cons; [done|]. eapply Forall_impl; [exact Hn|]. done.
  - apply Forall_cons. split; [split; [done|]; exists n; rewrite list_lookup_insert_eq by lia; simpl; split; [done|lia]|].
    apply Forall_forall. intros [k j] Hx. rewrite Forall_forall in Hn, W7. pose proof (Hn _ Hx) as Hk. destruct (W7 _ Hx) as (Hj & n' & Hn' & Hle). simpl in *.
    split; [done|]. destruct (Z.eq_dec id j) as [<-|]; [exists n; rewrite list_lookup_insert_eq by lia; split; [done|lia]|].
    exists n'. by rewrite list_lookup_insert_ne by lia.
  - intros i m Hv Hm. destruct (decide (Z.to_nat id = i)) as [<-|Hne].
    + rewrite list_lookup_insert_eq in Hm by lia. injection Hm as <-. left. rewrite Z2Nat.id by lia. left.
    + rewrite list_lookup_insert_ne in Hv by done. rewrite list_lookup_insert_ne in Hm by done. destruct (W8 i m Hv Hm); [left; by right|by right].
Qed.

Lemma checkInst_eq s d pc : wf s d -> 0 <= pc -> checkInst s pc = Ok match set_of s pc with
    | Some id => match validLFST s !! Z.to_nat id, LFST s !! Z.to_nat id with Some true, Some n => n | _, _ => 0 end
    | None => 0
    end.
Proof.
  intros Hw Hpc. pose proof (index_range s d pc Hw Hpc) as Hi. destruct (lookup_index s d pc Hw Hpc) as (v & id & Ev & Ei & Hid & ->).
  destruct (w_len _ _ Hw) as (_ & _ & L3 & L4). unfold checkInst. rewrite (proj2 (Z.ltb_lt _ _)) by lia. cbn [c_assert]. rewrite bind_Ok, Ev, bind_Ok.
  destruct v; [|done]. cbn [negb]. rewrite Ei, bind_Ok, (proj2 (Z.ltb_lt _ _)) by lia. cbn [c_assert]. rewrite bind_Ok.
  destruct (vget_lt (validLFST s) id) as (b & -> & ->); [lia|]. destruct (vget_lt (LFST s) id) as (n & -> & ->); [lia|]. rewrite bind_Ok. by destruct b.
Qed.


(** Stores leave: [l] is what is left of the list and [v] of the valid bits. *)
Lemma wf_leave s d d' l v : wf s d -> l `sublist_of` storeList s -> length v = length (validLFST s) ->
  (forall i n, v !! i = Some true -> LFST s !! i = Some n -> validLFST s !! i = Some true /\ ((n, Z.of_nat i) ∈ storeList s -> (n, Z.of_nat i) ∈ l \/ n ∈ d')) ->
  d ⊆ d' -> wf (set_list (set_LFST s (LFST s) v) l) d'.
Proof.
  intros [] Hl Hv Hlive Hd. constructor; try done; simpl.
  - lia.
  - by eapply strongly_sorted_sublist.
  - by eapply forall_sublist.
  - intros i n H1 H2. destruct (Hlive i n H1 H2) as [H3 H4]. destruct (w_live0 i n H3 H2); [auto|right; auto].
Qed.

Lemma issued_ok s d pc n : wf s d -> 0 <= pc -> exists v, issued s pc n true = Ok (set_list (set_LFST s (LFST s) v) (filter (fun x => x.1 <> n) (storeList s))) /\
  wf (set_list (set_LFST s (LFST s) v) (filter (fun x => x.1 <> n) (storeList s))) (n :: d) /\
  v = match set_of s pc with
      | Some id => if bool_decide (validLFST s !! Z.to_nat id = Some true /\ LFST s !! Z.to_nat id = Some n) then <[Z.to_nat id := false]> (validLFST s) else validLFST s
      | None => validLFST s
      end.
Proof.
  intros Hw Hpc. pose proof (index_range s d pc Hw Hpc) as Hi. destruct (lookup_index s d pc Hw Hpc) as (b & id & Ev & Ei & Hid & ->).
  destruct (w_len _ _ Hw) as (_ & _ & L3 & L4). unfold issued. cbn [negb]. rewrite (proj2 (Z.ltb_lt _ _)) by lia. cbn [c_assert]. rewrite bind_Ok.
  cbn [set_list validSSIT SSIT LFSTSize validLFST LFST]. rewrite Ev, bind_Ok.
  assert (Hstay : forall i m, (m, i) ∈ storeList s -> (m, i) ∈ filter (fun x => x.1 <> n) (storeList s) \/ m ∈ n :: d).
  { intros i m Hm. destruct (decide (m = n)) as [->|]; [right; left|]. left. by apply list_elem_of_filter. }
  assert (Hsub : filter (fun x => x.1 <> n) (storeList s) `sublist_of` storeList s) by apply sublist_filter.
  assert (H0 : wf (set_list (set_LFST s (LFST s) (validLFST s)) (filter (fun x => x.1 <> n) (storeList s))) (n :: d)).
  { apply (wf_leave s d); [done..| |set_solver]. intros i m H1 _. split; [done|]. apply Hstay. }
  destruct b; [|by exists (validLFST s)]. cbn [negb]. rewrite Ei, bind_Ok, (proj2 (Z.ltb_lt _ _)) by lia. cbn [c_assert]. rewrite bind_Ok.
  destruct (vget_lt (validLFST s) id) as (b & -> & Hb); [lia|]. rewrite bind_Ok. destruct (vget_lt (LFST s) id) as (m & -> & Hm); [lia|]. rewrite bind_Ok.
  destruct (b && (m =? n)) eqn:E.
  - apply andb_true_iff in E as [-> <-%Z.eqb_eq]. rewrite vset_lt, bind_Ok by (simpl; lia). rewrite bool_decide_true by done.
    exists (<[Z.to_nat id := false]> (validLFST s)). split; [done|]. split; [|done]. apply (wf_leave s d); [done..|by rewrite length_insert| |set_solver].
    intros i k H1 _. split; [|apply Hstay]. destruct (decide (Z.to_nat id = i)) as [<-|]; [by rewrite list_lookup_insert_eq in H1 by lia|by rewrite list_lookup_insert_ne in H1].
  - rewrite bool_decide_false; [by exists (validLFST s)|]. rewrite Hb, Hm. intros [[= ->] [= ->]]. by rewrite Z.eqb_refl in E.
Qed.

(** ** Squashing *)
Definition younger_in (m : Z) (l : list (Z * Z)) (i : nat) : bool := existsb (fun x => (m <? x.1) && (Z.to_nat x.2 =? i)%nat) l.

Lemma younger_none m l i : Forall (fun x => x.1 <= m) l -> younger_in m l i = false.
Proof. induction 1 as [|x l Hx _ IH]; [done|]. unfold younger_in in *. simpl. rewrite IH. by rewrite (proj2 (Z.ltb_ge _ _)). Qed.

(** Enough fuel for one iteration per store in flight: the loop ends, the stores
    younger than [m] are gone and so is the last store of each of their sets. *)
Lemma set_squash_loop_ok fuel s d m : wf s d -> (length (storeList s) <= fuel)%nat ->
  exists v, squash_loop fuel s m = Ok (set_list (set_LFST s (LFST s) v) (filter (fun x => x.1 <= m) (storeList s))) /\
    wf (set_list (set_LFST s (LFST s) v) (filter (fun x => x.1 <= m) (storeList s))) d /\
    length v = length (validLFST s) /\
    forall i, v !! i = (fun b => b && negb (younger_in m (storeList s) i)) <$> validLFST s !! i.
Proof.
  revert s. induction fuel as [|fuel IH]; intros s Hw Hf; destruct (storeList s) as [|[n idx] l] eqn:El; simpl in Hf; try lia.
  1, 2: exists (validLFST s); assert (Es : s = set_list (set_LFST s (LFST s) (validLFST s)) []) by (rewrite <- El; by destruct s);
    cbn [squash_loop]; rewrite El; change (filter (fun x => x.1 <= m) []) with ([] : list (Z * Z)); rewrite <- Es; (split_and!; [done..|]); intros i; destruct (validLFST s !! i) as [[]|]; done.
  cbn [squash_loop]. rewrite El. pose proof (w_order _ _ Hw) as Ho. rewrite El in Ho. apply StronglySorted_inv in Ho as [Ho Hx].
  destruct (Z.leb_spec n m) as [Hle|Hgt].
  { assert (Ha : Forall (fun x => x.1 <= m) (storeList s)).
    { rewrite El. constructor; [done|]. eapply Forall_impl; [exact Hx|]. intros [k j]. unfold younger_first. simpl. lia. }
    assert (Eall : filter (fun x => x.1 <= m) ((n, idx) :: l) = storeList s) by (rewrite <- El; apply filter_all; by apply Forall_forall).
    exists (validLFST s). rewrite Eall. assert (Es : s = set_list (set_LFST s (LFST s) (validLFST s)) (storeList s)) by by destruct s.
    rewrite <- Es. split_and!; [done..|]. intros i. rewrite <- El, (younger_none _ _ _ Ha). destruct (validLFST s !! i) as [[]|]; done. }
  pose proof (w_list _ _ Hw) as Hl. rewrite El in Hl. apply Forall_cons in Hl as [(Hidx & n' & Hn' & Hle) _]. simpl in Hidx, Hn', Hle.
  destruct (w_len _ _ Hw) as (_ & _ & L3 & L4). assert (vget (LFST s) idx = Ok n') as -> by (apply vget_Ok; split; [lia|done]). rewrite bind_Ok.
  destruct (vget_lt (validLFST s) idx) as (b & -> & Hb); [lia|]. rewrite bind_Ok, (proj2 (Z.ltb_lt m n')) by lia. rewrite filter_cons_False by (simpl; lia).
  set (v1 := if b then <[Z.to_nat idx := false]> (validLFST s) else validLFST s).
  assert (Hv1 : forall i, v1 !! i = (fun c => c && negb (Z.to_nat idx =? i)%nat) <$> validLFST s !! i).
  { intros i. unfold v1. destruct (Nat.eqb_spec (Z.to_nat idx) i) as [<-|Hne].
    - rewrite Hb. destruct b; [|done]. rewrite list_lookup_insert_eq by lia. done.
    - destruct b; [rewrite list_lookup_insert_ne by done|]; destruct (validLFST s !! i) as [[]|]; done. }
  assert (Lv1 : length v1 = length (validLFST s)) by (unfold v1; destruct b; [apply length_insert|done]).
  set (s1 := set_list (set_LFST s (LFST s) v1) l).
  assert (Hw1 : wf s1 d).
  { apply (wf_leave s d); [done|rewrite El; by apply sublist_cons|done| |done]. intros i k Hi _. rewrite Hv1 in Hi.
    destruct (validLFST s !! i) as [[]|]; try done. split; [done|]. simpl in Hi. rewrite El. intros [[= _ Ei]|?]%elem_of_cons; [|by left].
    rewrite <- Ei, Nat2Z.id, Nat.eqb_refl in Hi. done. }
  destruct (IH s1 Hw1) as (v & E & Hwv & Lv & Hv); [simpl; lia|]. exists v.
  split_and!; [|done|by rewrite Lv, <- Lv1|].
  - refine (eq_trans _ E). destruct b; cbn [andb negb].
    + rewrite vset_lt, bind_Ok by lia. done.
    + by f_equal.
  - intros i. rewrite Hv. change (validLFST s1) with v1. rewrite Hv1. change (storeList s1) with l. unfold younger_in. simpl.
    rewrite (proj2 (Z.ltb_lt m n)) by lia. destruct (validLFST s !! i) as [c|]; [|done]. simpl. f_equal. rewrite <- andb_assoc, negb_orb. done.
Qed.

(** ** Runs *)
Inductive op := Violation (store_PC load_PC : Z) | Store (PC n : Z) | Load (PC n : Z) | Issue (PC n : Z) (is_store : bool) | Squash (n : Z) | Clear.

Definition exec (s : t) (o : op) : res t :=
  match o with
  | Violation st ld => violation s st ld
  | Store pc n => insertStore s pc n 0
  | Load pc n => Ok (insertLoad s pc n)
  | Issue pc n b => issued s pc n b
  | Squash n => squash (length (storeList s)) s n 0
  | Clear => Ok (clear s)
  end.
Fixpoint run (s : t) (ops : list op) : res t := match ops with [] => Ok s | o :: ops => s' ← exec s o; run s' ops end.

(** Addresses are not negative, and the thread's stores arrive in program order:
    [last] is the sequence number of the last one. *)
Fixpoint in_order (last : Z) (ops : list op) : Prop :=
  match ops with
  | [] => True
  | Store pc n :: ops => 0 <= pc /\ last < n /\ in_order n ops
  | Violation st ld :: ops => 0 <= st /\ 0 <= ld /\ in_order last ops
  | Issue pc _ _ :: ops => 0 <= pc /\ in_order last ops
  | _ :: ops => in_order last ops
  end.

(** What the operations say of the stores: those in flight and those issued. *)
Definition note (x : list Z * list Z) (o : op) : list Z * list Z :=
  match o with
  | Store _ n => (n :: x.1, x.2)
  | Issue _ n true => (filter (fun k => k <> n) x.1, n :: x.2)
  | Squash n => (filter (fun k => k <= n) x.1, x.2)
  | Clear => ([], x.2)
  | _ => x
  end.

Record tracked (s : t) (x : list Z * list Z) (last : Z) : Prop := {
  tr_wf : wf s x.2;
  tr_live : forall k i, (k, i) ∈ storeList s -> k ∈ x.1 /\ k <= last
}.

Definition latest (last : Z) (o : op) : Z := match o with Store _ n => n | _ => last end.

Lemma in_order_cons last o ops : in_order last (o :: ops) -> in_order (latest last o) ops.
Proof. destruct o; simpl; tauto. Qed.

Lemma wf_mono s d d' : wf s d -> d ⊆ d' -> wf s d'.
Proof. intros [] Hd. constructor; try done. intros i n H1 H2. destruct (w_live0 i n H1 H2); [by left|right; auto]. Qed.

Lemma wf_clear s d : wf s d -> wf (clear s) d.
Proof.
  intros [W1 W2 W3 (L1 & L2 & L3 & L4) W5 W6 W7 W8]. constructor; try done; simpl.
  - rewrite !length_replicate. lia.
  - constructor.
  - intros i n Hv _. apply lookup_replicate in Hv as [[=] _].
Qed.

Lemma set_exec_ok s x last o ops : tracked s x last -> in_order last (o :: ops) -> exists s', exec s o = Ok s' /\ tracked s' (note x o) (latest last o).
Proof.
  intros [Hw Hl] Ho. destruct o as [st ld|pc n|pc n|pc n []|n|]; simpl in Ho; cbn [exec note latest].
  - destruct (violation_ok s x.2 st ld Hw) as (s' & E & Hw' & _ & _ & _ & _ & l & v & ->); [tauto..|]. by exists (set_SSIT s l v).
  - destruct (insertStore_ok s x.2 pc n 0 Hw) as (s' & E & Hw' & Es); [tauto|..].
    { apply Forall_forall. intros [k i] Hk. apply Hl in Hk. simpl. lia. }
    exists s'. split; [done|]. split; [done|]. intros k i Hk. destruct (set_of s pc); subst s'; simpl in *.
    + apply elem_of_cons in Hk as [[= -> ->]|Hk]; [split; [left|done]|]. apply Hl in Hk. split; [right; tauto|lia].
    + apply Hl in Hk. split; [right; tauto|lia].
  - exists s. done.
  - destruct (issued_ok s x.2 pc n Hw) as (v & E & Hw' & _); [tauto|]. eexists. split; [exact E|]. split; [done|].
    intros k i [Hne Hk]%list_elem_of_filter. apply Hl in Hk. split; [apply list_elem_of_filter; tauto|tauto].
  - exists s. done.
  - destruct (set_squash_loop_ok (length (storeList s)) s x.2 n Hw) as (v & E & Hw' & _); [lia|]. eexists. split; [exact E|]. split; [done|].
    intros k i [Hne Hk]%list_elem_of_filter. apply Hl in Hk. split; [apply list_elem_of_filter; tauto|tauto].
  - exists (clear s). split; [done|]. split; [by apply wf_clear|]. simpl. set_solver.
Qed.

Lemma run_ok ops s x last : tracked s x last -> in_order last ops -> exists s' last', run s ops = Ok s' /\ tracked s' (foldl note x ops) last'.
Proof.
  revert s x last. induction ops as [|o ops IH]; intros s x last Ht Ho; [by exists s, last|].
  destruct (set_exec_ok s x last o ops Ht Ho) as (s1 & E & Ht1). apply in_order_cons in Ho.
  destruct (IH s1 _ _ Ht1 Ho) as (s' & last' & E' & Ht'). exists s', last'. cbn [run foldl]. by rewrite E, bind_Ok.
Qed.

Lemma new_tracked a b s : 0 <= a < 2 ^ 31 -> 0 <= b < 2 ^ 31 -> new a b = Ok s -> tracked s ([], []) 0.
Proof.
  intros Ha Hb. unfold new. destruct (IntMath.isPowerOf2 32 a) eqn:Ea; [|done]. destruct (IntMath.isPowerOf2 32 b) eqn:Eb; [|done]. intros [= <-].
  apply IntMath.isPowerOf2_log2 in Ea as [Pa Ea]; [|lia..]. apply IntMath.isPowerOf2_log2 in Eb as [Pb Eb]; [|lia..].
  assert (Hk : forall c, 0 < c < 2 ^ 31 -> 0 <= Z.log2 c < 31) by (intros c Hc; split; [apply Z.log2_nonneg|apply Z.log2_lt_pow2; lia]).
  split; [|simpl; set_solver]. constructor; simpl.
  - exists (Z.log2 a). split; [apply Hk; lia|]. lia.
  - exists (Z.log2 b). split; [apply Hk; lia|lia].
  - done.
  - rewrite !length_replicate. lia.
  - apply Forall_replicate. lia.
  - constructor.
  - constructor.
  - intros i n Hv _. apply lookup_replicate in Hv as [[=] _].
Qed.

(** ** Theorems *)

(** A run of the predictor.  From the constructor, whatever sequence of
    violations, inserted stores and loads, issues, squashes and clears, with the
    stores of the thread inserted in program order, succeeds: no assertion fails
    and every squash ends within as many iterations as there are stores in
    flight.  In the state reached an instruction is made to wait for nothing, for
    a store that is in flight, or for one that has issued: never for a store
    that was squashed before it issued. *)
Theorem store_set_run a b s0 ops : 0 <= a < 2 ^ 31 -> 0 <= b < 2 ^ 31 -> new a b = Ok s0 -> in_order 0 ops ->
  exists s, run s0 ops = Ok s /\ forall pc, 0 <= pc -> exists n, checkInst s pc = Ok n /\
    (n = 0 \/ n ∈ (foldl note ([], []) ops).1 \/ n ∈ (foldl note ([], []) ops).2).
Proof.
  intros Ha Hb Hn Ho. destruct (run_ok ops s0 ([], []) 0 (new_tracked a b s0 Ha Hb Hn) Ho) as (s & last & E & [Hw Hl]).
  exists s. split; [done|]. intros pc Hpc. eexists. split; [by eapply checkInst_eq|].
  destruct (lookup_index s _ pc Hw Hpc) as (v & id & _ & _ & Hid & ->). destruct v; [|by left].
  destruct (validLFST s !! Z.to_nat id) as [[]|] eqn:Ev; [|by left..]. destruct (LFST s !! Z.to_nat id) as [n|] eqn:En; [|by left].
  right. destruct (w_live _ _ Hw _ _ Ev En) as [Hi|Hi]; [left|by right]. by apply Hl in Hi as [? _].
Qed.

Lemma store_set_run_witness : exists s, run (match new 4 2 with Ok s => s | Er _ => clear (mk [] [] [] [] [] 0 0 0 0) end)
  [Violation 8 4; Store 8 1; Issue 8 1 true; Store 8 2; Squash 1; Store 8 3] = Ok s /\ checkInst s 4 = Ok 3.
Proof.
  destruct (store_set_run 4 2 (match new 4 2 with Ok s => s | Er _ => clear (mk [] [] [] [] [] 0 0 0 0) end)
    [Violation 8 4; Store 8 1; Issue 8 1 true; Store 8 2; Squash 1; Store 8 3]) as (s & E & _); [lia|lia|reflexivity|simpl; lia|].
  exists s. split; [exact E|]. vm_compute in E. injection E as <-. reflexivity.
Defined.

(** Violations are learned.  After a load and an older store have been found to
    conflict, the next time the store (number [n]) is inserted the load — and the store itself
    — is made to wait for exactly that store; the dependence goes away when
    the store issues, and when it is squashed, and stays when a squash
    spares it. *)
Theorem violation_learned s d st ld n : wf s d -> 0 <= st -> 0 <= ld -> Forall (fun x => x.1 < n) (storeList s) ->
  exists s1 s2, violation s st ld = Ok s1 /\ insertStore s1 st n 0 = Ok s2 /\
    checkInst s2 ld = Ok n /\ checkInst s2 st = Ok n /\
    (exists s3, issued s2 st n true = Ok s3 /\ checkInst s3 ld = Ok 0) /\
    forall m, exists s3, squash (length (storeList s2)) s2 m 0 = Ok s3 /\ checkInst s3 ld = Ok (if n <=? m then n else 0).
Proof.
  intros Hw Hst Hld Hn. destruct (violation_ok s d st ld Hw Hst Hld) as (s1 & E1 & Hw1 & id & Es & El & Hid & l & v & ->).
  set (s1 := set_SSIT s l v) in *. destruct (insertStore_ok s1 d st n 0 Hw1 Hst Hn) as (s2 & E2 & Hw2 & Eq). rewrite Es in Eq.
  destruct (w_len _ _ Hw) as (_ & _ & L3 & L4).
  assert (S2 : forall pc, set_of s2 pc = set_of s1 pc) by (intros pc; by rewrite Eq).
  assert (EL : LFST s2 !! Z.to_nat id = Some n) by (rewrite Eq; simpl; apply list_lookup_insert_eq; lia).
  assert (EV : validLFST s2 !! Z.to_nat id = Some true) by (rewrite Eq; simpl; apply list_lookup_insert_eq; lia).
  exists s1, s2. split_and!; [done|done|..].
  - rewrite (checkInst_eq s2 d ld Hw2 Hld), S2, El, EL, EV. done.
  - rewrite (checkInst_eq s2 d st Hw2 Hst), S2, Es, EL, EV. done.
  - destruct (issued_ok s2 d st n Hw2 Hst) as (v' & E & Hw3 & Ev'). eexists. split; [exact E|]. rewrite (checkInst_eq _ _ ld Hw3 Hld).
    change (set_of (set_list (set_LFST s2 (LFST s2) v') _) ld) with (set_of s2 ld). rewrite S2, El. rewrite S2, Es in Ev'. simpl. rewrite Ev', bool_decide_true by done.
    rewrite list_lookup_insert_eq; [done|]. by apply lookup_lt_Some in EV.
  - intros m. destruct (set_squash_loop_ok (length (storeList s2)) s2 d m Hw2) as (v' & E & Hw3 & _ & Hv'); [lia|]. eexists. split; [exact E|].
    rewrite (checkInst_eq _ _ ld Hw3 Hld). change (set_of (set_list (set_LFST s2 (LFST s2) v') _) ld) with (set_of s2 ld). rewrite S2, El. simpl. rewrite Hv', EV, EL. simpl.
    assert (Els : storeList s2 = (n, id) :: storeList s) by by rewrite Eq. rewrite Els. destruct (Z.leb_spec n m).
    + rewrite younger_none; [done|]. constructor; [done|]. eapply Forall_impl; [exact Hn|]. simpl. lia.
    + unfold younger_in. simpl. rewrite (proj2 (Z.ltb_lt m n)), Nat.eqb_refl by done. done.
Qed.

Definition small : t := mk [0; 0; 0; 0] [false; false; false; false] [0; 0] [false; false] [] 4 2 3 2.

Lemma violation_learned_witness : exists s1 s2, violation small 8 4 = Ok s1 /\ insertStore s1 8 5 0 = Ok s2 /\ checkInst s2 4 = Ok 5.
Proof.
  destruct (violation_learned small [] 8 4 5) as (s1 & s2 & E1 & E2 & E3 & _); [|lia|lia|constructor|by exists s1, s2].
  apply (tr_wf _ ([], []) 0). apply (new_tracked 4 2); [lia|lia|reflexivity].
Defined.
