(* ===== verification/MemDep.v ===== *)
(** * The memory dependence unit

    [src/cpu/o3/mem_dep_unit.hh] and [mem_dep_unit_impl.hh]: which loads and
    stores must wait for which stores and barriers (Module [MemDepUnit]).  The
    unit is a template over its predictor, here the class [MemDepPred];
    [StoreSet] is the instance the CPU uses.

    Instructions and entries are shared objects: a [DynInstPtr] is a key of
    [insts] and a [MemDepEntryPtr] a key of [entries], which an entry does not
    leave when the hash forgets it. *)
From S2P Require Import Prelude IntMath Rob StoreSet.

(** ** The predictor *)
Class MemDepPred (P : Type) := {
  dp_violation : P -> Z -> Z -> res P;
  dp_insertStore : P -> Z -> Z -> Z -> res P;
  dp_checkInst : P -> Z -> res Z;
  dp_issued : P -> Z -> Z -> bool -> res P;
  dp_squash : P -> Z -> Z -> res P;
  dp_clear : P -> P
}.

(** What the unit relies on.  [ok hist p]: [p] has been told of the stores
    [hist], in program order. *)
Class MemDepPredLaws (P : Type) `{MemDepPred P} := {
  dp_ok : list Z -> P -> Prop;
  dp_mono hist hist' p : dp_ok hist p -> hist ⊆ hist' -> dp_ok hist' p;
  dp_violation_ok hist p st ld : dp_ok hist p -> 0 <= st -> 0 <= ld -> exists p', dp_violation p st ld = Ok p' /\ dp_ok hist p';
  dp_insertStore_ok hist p pc n tid : dp_ok hist p -> 0 <= pc -> Forall (fun k => k < n) hist ->
    exists p', dp_insertStore p pc n tid = Ok p' /\ dp_ok (n :: hist) p';
  dp_checkInst_ok hist p pc : dp_ok hist p -> 0 <= pc -> exists n, dp_checkInst p pc = Ok n /\ (n = 0 \/ n ∈ hist);
  dp_issued_ok hist p pc n b : dp_ok hist p -> 0 <= pc -> exists p', dp_issued p pc n b = Ok p' /\ dp_ok hist p';
  dp_squash_ok hist p n tid : dp_ok hist p -> exists p', dp_squash p n tid = Ok p' /\ dp_ok hist p';
  dp_clear_ok hist p : dp_ok hist p -> dp_ok hist (dp_clear p)
}.

(** The store sets; a squash is given one iteration per store in flight. *)
#[export] Instance store_set_pred : MemDepPred StoreSet.t := {|
  dp_violation := StoreSet.violation;
  dp_insertStore := StoreSet.insertStore;
  dp_checkInst := StoreSet.checkInst;
  dp_issued := StoreSet.issued;
  dp_squash p n tid := StoreSet.squash (length (StoreSet.storeList p)) p n tid;
  dp_clear := StoreSet.clear
|}.

Module MemDepUnit.

(** What the unit reads of an instruction. *)
Record MemInst := mkInst {
  dyn : DynInst.t;
  PC : Z;
  isMemRef : bool;
  isLoad : bool;
  isStore : bool;
  isMemBarrier : bool;
  isWriteBarrier : bool
}.
Definition set_dyn (d : DynInst.t) (i : MemInst) : MemInst :=
  mkInst d (PC i) (isMemRef i) (isLoad i) (isStore i) (isMemBarrier i) (isWriteBarrier i).
Definition seq (i : MemInst) : Z := DynInst.seqNum (dyn i).
Definition tid_of (i : MemInst) : Z := DynInst.threadNumber (dyn i).

(** [MemDepEntry]; [listIt] is the instruction whose node it points to. *)
Record MemDepEntry := mkEntry {
  inst : Z;
  listIt : Z;
  dependInsts : list Z;
  regsReady_ : bool;
  memDepReady : bool;
  completed_ : bool;
  squashed : bool
}.
Definition new_entry (id : Z) : MemDepEntry := mkEntry id id [] false false false false.
Definition set_depend (l : list Z) (e : MemDepEntry) : MemDepEntry :=
  mkEntry (inst e) (listIt e) l (regsReady_ e) (memDepReady e) (completed_ e) (squashed e).
Definition set_regsReady (e : MemDepEntry) : MemDepEntry :=
  mkEntry (inst e) (listIt e) (dependInsts e) true (memDepReady e) (completed_ e) (squashed e).
Definition set_memDepReady (e : MemDepEntry) : MemDepEntry :=
  mkEntry (inst e) (listIt e) (dependInsts e) (regsReady_ e) true (completed_ e) (squashed e).
Definition set_squashed (e : MemDepEntry) : MemDepEntry :=
  mkEntry (inst e) (listIt e) (dependInsts e) (regsReady_ e) (memDepReady e) (completed_ e) true.

Section unit.
Context {P : Type} `{MemDepPred P}.

(** [ready] are the calls of [iqPtr->addReadyMemInst], the last one last;
    [fresh] is the address of the next entry. *)
Record t := mk {
  insts : gmap Z MemInst;
  entries : gmap Z MemDepEntry;
  fresh : Z;
  memDepHash : gmap Z Z;
  instList : list (list Z);
  instsToReplay : list Z;
  depPred : P;
  loadBarrier : bool;
  loadBarrierSN : Z;
  storeBarrier : bool;
  storeBarrierSN : Z;
  ready : list Z
}.

Definition set_insts (u : t) (m : gmap Z MemInst) : t :=
  mk m (entries u) (fresh u) (memDepHash u) (instList u) (instsToReplay u) (depPred u) (loadBarrier u) (loadBarrierSN u)
     (storeBarrier u) (storeBarrierSN u) (ready u).
Definition set_entries (u : t) (m : gmap Z MemDepEntry) : t :=
  mk (insts u) m (fresh u) (memDepHash u) (instList u) (instsToReplay u) (depPred u) (loadBarrier u) (loadBarrierSN u)
     (storeBarrier u) (storeBarrierSN u) (ready u).
Definition set_hash (u : t) (m : gmap Z Z) : t :=
  mk (insts u) (entries u) (fresh u) m (instList u) (instsToReplay u) (depPred u) (loadBarrier u) (loadBarrierSN u)
     (storeBarrier u) (storeBarrierSN u) (ready u).
Definition set_lists (u : t) (l : list (list Z)) : t :=
  mk (insts u) (entries u) (fresh u) (memDepHash u) l (instsToReplay u) (depPred u) (loadBarrier u) (loadBarrierSN u)
     (storeBarrier u) (storeBarrierSN u) (ready u).
Definition set_replay (u : t) (l : list Z) : t :=
  mk (insts u) (entries u) (fresh u) (memDepHash u) (instList u) l (depPred u) (loadBarrier u) (loadBarrierSN u)
     (storeBarrier u) (storeBarrierSN u) (ready u).
Definition set_pred (u : t) (p : P) : t :=
  mk (insts u) (entries u) (fresh u) (memDepHash u) (instList u) (instsToReplay u) p (loadBarrier u) (loadBarrierSN u)
     (storeBarrier u) (storeBarrierSN u) (ready u).
Definition set_loadBarrier (u : t) (b : bool) (n : Z) : t :=
  mk (insts u) (entries u) (fresh u) (memDepHash u) (instList u) (instsToReplay u) (depPred u) b n
     (storeBarrier u) (storeBarrierSN u) (ready u).
Definition set_storeBarrier (u : t) (b : bool) (n : Z) : t :=
  mk (insts u) (entries u) (fresh u) (memDepHash u) (instList u) (instsToReplay u) (depPred u) (loadBarrier u) (loadBarrierSN u)
     b n (ready u).

(** [iqPtr->addReadyMemInst(inst)]. *)
Definition addReadyMemInst (u : t) (id : Z) : t :=
  mk (insts u) (entries u) (fresh u) (memDepHash u) (instList u) (instsToReplay u) (depPred u) (loadBarrier u) (loadBarrierSN u)
     (storeBarrier u) (storeBarrierSN u) (ready u ++ [id]).

(** Through pointers. *)
Definition get_inst (u : t) (id : Z) : res MemInst := deref (insts u !! id).
Definition get_entry (u : t) (e : Z) : res MemDepEntry := deref (entries u !! e).
Definition upd_entry (u : t) (e : Z) (f : MemDepEntry -> MemDepEntry) : res t :=
  x ← get_entry u e; Ok (set_entries u (<[e := f x]> (entries u))).
Definition clearCanIssue (u : t) (id : Z) : res t :=
  i ← get_inst u id;
  Ok (set_insts u (<[id := set_dyn (DynInst.reset DynInst.CanIssue (dyn i)) i]> (insts u))).

(** The constructor; [n] is [Impl::MaxThreads]. *)
Definition new (m : gmap Z MemInst) (p : P) (n : nat) : t :=
  mk m ∅ 0 ∅ (replicate n []) [] p false 0 false 0 [].

Definition switchOut (u : t) : res t :=
  l ← vget (instList u) 0;
  _ ← c_assert (bool_decide (l = []));
  _ ← c_assert (bool_decide (instsToReplay u = []));
  _ ← c_assert (bool_decide (memDepHash u = ∅));
  Ok (set_hash (set_replay (set_lists u (map (fun _ => []) (instList u))) []) ∅).
Definition takeOverFrom (u : t) : t :=
  let u := set_storeBarrier (set_loadBarrier u false 0) false 0 in set_pred u (dp_clear (depPred u)).

Definition findInHash (u : t) (id : Z) : res Z :=
  i ← get_inst u id; match memDepHash u !! seq i with Some e => Ok e | None => Er AssertFail end.

Definition moveToReady (u : t) (e : Z) : res t :=
  x ← get_entry u e; _ ← c_assert (negb (squashed x)); Ok (addReadyMemInst u (inst x)).

(** A new entry, put into the hash (where an old one with the number would
    stay) and the instruction at the end of the list of its thread. *)
Definition add_entry (u : t) (id : Z) (i : MemInst) : res (Z * t) :=
  let e := fresh u in
  let h := match memDepHash u !! seq i with Some _ => memDepHash u | None => <[seq i := e]> (memDepHash u) end in
  l ← vget (instList u) (tid_of i);
  ls ← vset (instList u) (tid_of i) (l ++ [id]);
  Ok (e, mk (insts u) (<[e := new_entry id]> (entries u)) (e + 1) h ls (instsToReplay u) (depPred u) (loadBarrier u) (loadBarrierSN u)
            (storeBarrier u) (storeBarrierSN u) (ready u)).

(** The predictor hears of a store; only loads and stores may be inserted. *)
Definition insert_pred (u : t) (i : MemInst) : res t :=
  if isStore i then p ← dp_insertStore (depPred u) (PC i) (seq i) (tid_of i); Ok (set_pred u p)
  else if isLoad i then Ok u
  else Er Panic.

Definition producer (u : t) (i : MemInst) : res Z :=
  if isLoad i && loadBarrier u then Ok (loadBarrierSN u)
  else if isStore i && storeBarrier u then Ok (storeBarrierSN u)
  else dp_checkInst (depPred u) (PC i).

Definition insert (u : t) (id : Z) : res t :=
  i ← get_inst u id;
  '(e, u) ← add_entry u id i;
  producing_store ← producer u i;
  let store_entry := if producing_store =? 0 then None else memDepHash u !! producing_store in
  u ← (match store_entry with
       | None =>
           u ← upd_entry u e set_memDepReady;
           if DynInst.has (dyn i) DynInst.CanIssue then u ← upd_entry u e set_regsReady; moveToReady u e else Ok u
       | Some s =>
           u ← (if DynInst.has (dyn i) DynInst.CanIssue then upd_entry u e set_regsReady else Ok u);
           u ← clearCanIssue u id;
           upd_entry u s (fun x => set_depend (dependInsts x ++ [e]) x)
       end);
  insert_pred u i.

Definition insertNonSpec (u : t) (id : Z) : res t :=
  i ← get_inst u id; '(_, u) ← add_entry u id i; insert_pred u i.

Definition insertBarrier (u : t) (id : Z) : res t :=
  i ← get_inst u id;
  let u := if isMemBarrier i then set_storeBarrier (set_loadBarrier u true (seq i)) true (seq i)
           else if isWriteBarrier i then set_storeBarrier u true (seq i)
           else u in
  '(_, u) ← add_entry u id i; Ok u.

Definition regsReady (u : t) (id : Z) : res t :=
  e ← findInHash u id;
  u ← upd_entry u e set_regsReady;
  x ← get_entry u e;
  if memDepReady x then moveToReady u e else Ok u.

Definition nonSpecInstReady (u : t) (id : Z) : res t := e ← findInHash u id; moveToReady u e.

Definition reschedule (u : t) (id : Z) : t := set_replay u (instsToReplay u ++ [id]).

(** [replay()] takes every instruction of the list. *)
Fixpoint replay_loop (u : t) (l : list Z) : res t :=
  match l with
  | [] => Ok (set_replay u [])
  | id :: l => e ← findInHash u id; u ← moveToReady u e; replay_loop (set_replay u l) l
  end.
Definition replay (u : t) : res t := replay_loop u (instsToReplay u).

(** [std::list::erase] of a node. *)
Definition erase (l : list Z) (x : Z) : res (list Z) :=
  if bool_decide (x ∈ l) then Ok (filter (fun y => y <> x) l) else Er BadPointer.

Definition completed (u : t) (id : Z) : res t :=
  i ← get_inst u id;
  e ← findInHash u id;
  x ← get_entry u e;
  l ← vget (instList u) (tid_of i);
  l ← erase l (listIt x);
  ls ← vset (instList u) (tid_of i) l;
  Ok (set_hash (set_lists u ls) (delete (seq i) (memDepHash u))).

Fixpoint wake_loop (u : t) (l : list Z) : res t :=
  match l with
  | [] => Ok u
  | e :: l =>
      x ← get_entry u e;
      u ← (if regsReady_ x && negb (squashed x) then moveToReady u e else upd_entry u e set_memDepReady);
      wake_loop u l
  end.
Definition wakeDependents (u : t) (id : Z) : res t :=
  i ← get_inst u id;
  if negb (isStore i) && negb (isMemBarrier i) && negb (isWriteBarrier i) then Ok u else
  e ← findInHash u id;
  x ← get_entry u e;
  u ← wake_loop u (dependInsts x);
  upd_entry u e (set_depend []).

Definition completeBarrier (u : t) (id : Z) : res t :=
  u ← wakeDependents u id;
  u ← completed u id;
  i ← get_inst u id;
  let barr_sn := seq i in
  if isMemBarrier i then
    _ ← c_assert (loadBarrier u && storeBarrier u);
    let u := if loadBarrierSN u =? barr_sn then set_loadBarrier u false (loadBarrierSN u) else u in
    Ok (if storeBarrierSN u =? barr_sn then set_storeBarrier u false (storeBarrierSN u) else u)
  else if isWriteBarrier i then
    _ ← c_assert (storeBarrier u);
    Ok (if storeBarrierSN u =? barr_sn then set_storeBarrier u false (storeBarrierSN u) else u)
  else Ok u.

(** The instructions to replay that a squash leaves. *)
Fixpoint squash_replay (u : t) (l : list Z) (squashed_num tid : Z) : res (list Z) :=
  match l with
  | [] => Ok []
  | id :: l =>
      i ← get_inst u id;
      l' ← squash_replay u l squashed_num tid;
      Ok (if (tid_of i =? tid) && (squashed_num <? seq i) then l' else id :: l')
  end.
(** From the end of the thread's list; [l] is the list reversed. *)
Fixpoint squash_loop (u : t) (l : list Z) (squashed_num tid : Z) : res t :=
  match l with
  | [] => Ok u
  | id :: l =>
      i ← get_inst u id;
      if squashed_num <? seq i then
        e ← findInHash u id;
        u ← upd_entry u e set_squashed;
        let u := set_hash u (delete (seq i) (memDepHash u)) in
        ls ← vset (instList u) tid (rev l);
        squash_loop (set_lists u ls) l squashed_num tid
      else Ok u
  end.
Definition squash (u : t) (squashed_num tid : Z) : res t :=
  r ← squash_replay u (instsToReplay u) squashed_num tid;
  let u := set_replay u r in
  l ← vget (instList u) tid;
  u ← squash_loop u (rev l) squashed_num tid;
  p ← dp_squash (depPred u) squashed_num tid;
  Ok (set_pred u p).

(** The arguments of the predictor are (store, load); the unit passes (load,
    store). *)
Definition violation (u : t) (store_inst violating_load : Z) : res t :=
  l ← get_inst u violating_load;
  s ← get_inst u store_inst;
  p ← dp_violation (depPred u) (PC l) (PC s);
  Ok (set_pred u p).

Definition issue (u : t) (id : Z) : res t :=
  i ← get_inst u id; p ← dp_issued (depPred u) (PC i) (seq i) (isStore i); Ok (set_pred u p).

(** [InstructionQueue::wakeDependents], the part on memory instructions, and
    the call of [completeMemInst] that follows. *)
Definition complete (u : t) (id : Z) : res t :=
  i ← get_inst u id;
  if isMemRef i then u ← wakeDependents u id; completed u id
  else if isMemBarrier i || isWriteBarrier i then completeBarrier u id
  else Ok u.
End unit.
Arguments t : clear implicits.
End MemDepUnit.
