(* ===== verification/MemDepProof.v ===== *)
(** * Lemmas on the memory dependence unit: the invariant and that every
    operation keeps it *)
From stdpp Require Import sorting.
From S2P Require Import Prelude Rob StoreSet MemDep.
Import MemDepUnit.

(** An instruction without its status, which is all of it that changes. *)
Definition norm (i : MemInst) : MemInst := set_dyn (DynInst.mk (seq i) (tid_of i) 0) i.
Definition wakes (i : MemInst) : bool := isStore i || isMemBarrier i || isWriteBarrier i.

Section proof.
Context {P : Type} `{MemDepPredLaws P}.

(** One unit serves one thread: [V] are the instructions of the run. *)
Variables (V : gmap Z MemInst) (tid : Z).

Definition sq (x : Z) : Z := match V !! x with Some i => seq i | None => 0 end.

Definition barrier_flags (u : t P) (i : MemInst) : Prop :=
  isMemRef i = false ->
  (isMemBarrier i = true -> loadBarrier u = true /\ seq i <= loadBarrierSN u) /\
  (isMemBarrier i || isWriteBarrier i = true -> storeBarrier u = true /\ seq i <= storeBarrierSN u).

(** What is known of an instruction in the unit; [Q] are the numbers of the
    stores and barriers the unit has seen. *)
Definition known (u : t P) (Q : list Z) (last x : Z) : Prop :=
  exists i, V !! x = Some i /\ tid_of i = tid /\ 0 <= PC i /\ seq i <= last /\ (seq i ∈ Q -> wakes i = true) /\ barrier_flags u i.

Definition waits (u : t P) (al : list (Z * Z)) (d : Z) : Prop :=
  exists y e E, (y, e) ∈ al /\ entries u !! e = Some E /\ d ∈ dependInsts E.

(** [al]: the instructions of the thread in the unit, with their entries;
    [N]: the non-speculative instructions and barriers. *)
Record inv (u : t P) (al : list (Z * Z)) (N Q : list Z) (last : Z) : Prop := {
  v_insts : norm <$> insts u = V;
  v_tid : 0 <= tid;
  v_list : instList u !! Z.to_nat tid = Some al.*1;
  v_known : forall x e, (x, e) ∈ al -> known u Q last x;
  v_sorted : StronglySorted (fun a b => sq a.1 < sq b.1) al;
  v_hash : forall n e, memDepHash u !! n = Some e <-> exists x, (x, e) ∈ al /\ sq x = n;
  v_entry : forall x e, (x, e) ∈ al -> exists E, entries u !! e = Some E /\ inst E = x /\ listIt E = x /\ squashed E = false;
  v_fresh : forall e E, entries u !! e = Some E -> e < fresh u;
  v_wakes : forall y e E d, (y, e) ∈ al -> entries u !! e = Some E -> d ∈ dependInsts E -> exists i, V !! y = Some i /\ wakes i = true;
  v_deps : forall y e E d, (y, e) ∈ al -> entries u !! e = Some E -> d ∈ dependInsts E -> exists D, entries u !! d = Some D /\
    (squashed D = true \/ ((inst D, d) ∈ al /\ memDepReady D = false /\ sq y < sq (inst D) /\ inst D ∉ N /\ inst D ∉ ready u));
  v_nodup : forall y e E, (y, e) ∈ al -> entries u !! e = Some E -> NoDup (dependInsts E);
  v_one : forall y e E y' e' E' d, (y, e) ∈ al -> entries u !! e = Some E -> (y', e') ∈ al -> entries u !! e' = Some E' ->
    d ∈ dependInsts E -> d ∈ dependInsts E' -> e = e';
  v_state : forall x d D, (x, d) ∈ al -> entries u !! d = Some D ->
    x ∈ N \/ x ∈ ready u \/ (memDepReady D = true /\ regsReady_ D = false) \/ waits u al d;
  v_old : forall x, x ∈ N \/ x ∈ ready u -> sq x <= last;
  v_replay : forall x, x ∈ instsToReplay u -> x ∈ al.*1 /\ (x ∈ N \/ x ∈ ready u);
  v_Q : Forall (fun n => n <= last) Q;
  v_pred : dp_ok Q (depPred u);
  v_bar : (loadBarrier u = true -> loadBarrierSN u ∈ Q) /\ (storeBarrier u = true -> storeBarrierSN u ∈ Q)
}.

(** ** Reading *)
Lemma get_inst_V (u : t P) x i : norm <$> insts u = V -> V !! x = Some i -> exists j, get_inst u x = Ok j /\ norm j = i.
Proof.
  intros E Hx. rewrite <- E, lookup_fmap in Hx. unfold get_inst. destruct (insts u !! x) as [j|]; [|done]. injection Hx as Hx. by exists j.
Qed.

Lemma inst_ids u al N Q last x e : inv u al N Q last -> (x, e) ∈ al ->
  exists i, get_inst u x = Ok i /\ V !! x = Some (norm i) /\ seq i = sq x /\ tid_of i = tid /\ 0 <= PC i.
Proof.
  intros Hi Hx. destruct (v_known _ _ _ _ _ Hi x e Hx) as (i & Ev & Et & Ep & _). destruct (get_inst_V u x i (v_insts _ _ _ _ _ Hi) Ev) as (j & Ej & <-).
  exists j. unfold sq. rewrite Ev. done.
Qed.

Lemma hash_al u al N Q last x e : inv u al N Q last -> (x, e) ∈ al -> memDepHash u !! sq x = Some e.
Proof. intros Hi Hx. apply (v_hash _ _ _ _ _ Hi). by exists x. Qed.

Lemma findInHash_ok u al N Q last x e : inv u al N Q last -> (x, e) ∈ al -> findInHash u x = Ok e.
Proof.
  intros Hi Hx. destruct (inst_ids _ _ _ _ _ _ _ Hi Hx) as (i & E & _ & Es & _). unfold findInHash. rewrite E, bind_Ok, Es.
  by rewrite (hash_al _ _ _ _ _ _ _ Hi Hx).
Qed.

Lemma al_inst u al N Q last x e e' : inv u al N Q last -> (x, e) ∈ al -> (x, e') ∈ al -> e = e'.
Proof. intros Hi H1 H2. pose proof (hash_al _ _ _ _ _ _ _ Hi H1). pose proof (hash_al _ _ _ _ _ _ _ Hi H2). congruence. Qed.
Lemma al_entry u al N Q last x x' e : inv u al N Q last -> (x, e) ∈ al -> (x', e) ∈ al -> x = x'.
Proof.
  intros Hi H1 H2. destruct (v_entry _ _ _ _ _ Hi _ _ H1) as (E & HE & <- & _). destruct (v_entry _ _ _ _ _ Hi _ _ H2) as (E' & HE' & <- & _). congruence.
Qed.

(** ** Small changes *)

(** A change of flags of an entry. *)
Lemma inv_flag u al N Q last e E E' : inv u al N Q last -> entries u !! e = Some E -> inst E' = inst E -> listIt E' = listIt E ->
  squashed E' = squashed E -> dependInsts E' = dependInsts E -> (memDepReady E' = memDepReady E \/ ~ waits u al e) ->
  (forall x, (x, e) ∈ al -> x ∈ N \/ x ∈ ready u \/ (memDepReady E' = true /\ regsReady_ E' = false) \/ waits u al e) ->
  inv (set_entries u (<[e := E']> (entries u))) al N Q last.
Proof.
  intros Hi HE E1 E2 E3 E4 Hm Hst.
  assert (Hget : forall d D, <[e := E']> (entries u) !! d = Some D -> exists D0, entries u !! d = Some D0 /\ inst D = inst D0 /\ listIt D = listIt D0 /\
    squashed D = squashed D0 /\ dependInsts D = dependInsts D0 /\ (d <> e -> D = D0)).
  { intros d D Hd. destruct (decide (e = d)) as [<-|]; [rewrite lookup_insert_eq in Hd; injection Hd as <-; by exists E|].
    rewrite lookup_insert_ne in Hd by done. by exists D. }
  assert (Hw : forall d, waits (set_entries u (<[e := E']> (entries u))) al d <-> waits u al d).
  { intros d. split; intros (y & k & K & Hy & HK & Hd).
    - destruct (Hget k K HK) as (K0 & HK0 & _ & _ & _ & Ed & _). exists y, k, K0. by rewrite <- Ed.
    - destruct (decide (e = k)) as [<-|]; [exists y, e, E'; simpl; rewrite lookup_insert_eq, E4; split_and!; congruence|].
      exists y, k, K. simpl. by rewrite lookup_insert_ne. }
  constructor; try apply Hi; simpl.
  - intros x k Hx. destruct (v_entry _ _ _ _ _ Hi x k Hx) as (K & HK & K1 & K2 & K3). destruct (decide (e = k)) as [<-|].
    + exists E'. rewrite lookup_insert_eq. assert (K = E) as -> by congruence. split_and!; congruence.
    + exists K. by rewrite lookup_insert_ne.
  - intros d D Hd. destruct (Hget d D Hd) as (D0 & HD0 & _). by eapply v_fresh.
  - intros y k K d Hy HK Hd. destruct (Hget k K HK) as (K0 & HK0 & _ & _ & _ & Ed & _). rewrite Ed in Hd. by eapply v_wakes.
  - intros y k K d Hy HK Hd. destruct (Hget k K HK) as (K0 & HK0 & _ & _ & _ & Ed & _). rewrite Ed in Hd.
    destruct (v_deps _ _ _ _ _ Hi y k K0 d Hy HK0 Hd) as (D & HD & HDs). destruct (decide (e = d)) as [<-|].
    + exists E'. rewrite lookup_insert_eq. assert (D = E) as -> by congruence. split; [done|]. rewrite E3, E1. destruct HDs as [?|HDs]; [by left|right].
      destruct Hm as [->|Hn]; [done|]. destruct Hn. by exists y, k, K0.
    + exists D. by rewrite lookup_insert_ne.
  - intros y k K Hy HK. destruct (Hget k K HK) as (K0 & HK0 & _ & _ & _ & -> & _). by eapply v_nodup.
  - intros y k K y' k' K' d Hy HK Hy' HK' Hd Hd'. destruct (Hget k K HK) as (K0 & HK0 & _ & _ & _ & Ed & _).
    destruct (Hget k' K' HK') as (K0' & HK0' & _ & _ & _ & Ed' & _). rewrite Ed in Hd. rewrite Ed' in Hd'. by eapply (v_one _ _ _ _ _ Hi).
  - intros x d D Hx HD. rewrite Hw. destruct (decide (e = d)) as [<-|].
    + rewrite lookup_insert_eq in HD. injection HD as <-. by apply Hst.
    + rewrite lookup_insert_ne in HD by done. by eapply v_state.
Qed.

Lemma inv_ready u al N Q last x e : inv u al N Q last -> (x, e) ∈ al -> ~ waits u al e -> inv (addReadyMemInst u x) al N Q last.
Proof.
  intros Hi Hx Hn. constructor; try apply Hi; simpl.
  - intros y k K d Hy HK Hd. destruct (v_deps _ _ _ _ _ Hi y k K d Hy HK Hd) as (D & HD & HDs). exists D. split; [done|].
    destruct HDs as [?|(H1 & H2 & H3 & H4 & H5)]; [by left|right]. split_and!; try done. rewrite not_elem_of_app. split; [done|].
    intros Ex%list_elem_of_singleton. rewrite Ex in H1. apply Hn. assert (e = d) as -> by by eapply al_inst. by exists y, k, K.
  - intros y d D Hy HD. destruct (v_state _ _ _ _ _ Hi y d D Hy HD) as [?|[?|[?|?]]]; [by left|right; left; set_solver|auto..].
  - intros y [Hy|[Hy|Hy%list_elem_of_singleton]%elem_of_app]; [apply (v_old _ _ _ _ _ Hi); auto..|]. subst y.
    destruct (v_known _ _ _ _ _ Hi x e Hx) as (i & Ev & _ & _ & Hle & _). unfold sq. by rewrite Ev.
  - intros y Hy. destruct (v_replay _ _ _ _ _ Hi y Hy) as [? [?|?]]; split; try done; [by left|right; set_solver].
Qed.

Lemma moveToReady_eq u al N Q last x e : inv u al N Q last -> (x, e) ∈ al -> moveToReady u e = Ok (addReadyMemInst u x).
Proof.
  intros Hi Hx. destruct (v_entry _ _ _ _ _ Hi x e Hx) as (E & HE & <- & _ & Hs). unfold moveToReady, get_entry. rewrite HE. simpl. by rewrite Hs.
Qed.

(** Instructions need not count as non-speculative when their state is accounted for. *)
Lemma inv_fewer u al N N1 Q last : inv u al N1 Q last -> N ⊆ N1 -> (forall x, x ∈ N1 -> x ∈ N \/ x ∈ ready u \/ (x ∉ instsToReplay u /\
  forall d D, (x, d) ∈ al -> entries u !! d = Some D -> (memDepReady D = true /\ regsReady_ D = false))) -> inv u al N Q last.
Proof.
  intros Hi Hs Hx. constructor; try apply Hi.
  - intros y k K d Hy HK Hd. destruct (v_deps _ _ _ _ _ Hi y k K d Hy HK Hd) as (D & HD & HDs). exists D. set_solver.
  - intros y d D Hy HD. destruct (v_state _ _ _ _ _ Hi y d D Hy HD) as [[?|[?|[_ Hd]]]%Hx|?]; [by left|right; by left|right; right; left; by eapply Hd|by right].
  - intros y Hy. apply (v_old _ _ _ _ _ Hi). set_solver.
  - intros y Hy. destruct (v_replay _ _ _ _ _ Hi y Hy) as [? [[?|[?|[? _]]]%Hx|?]]; split; try done; [by left|by right|by right].
Qed.

Lemma inv_drop u al N Q last x : inv u al (x :: N) Q last -> x ∈ ready u \/ (x ∉ instsToReplay u /\
  forall d D, (x, d) ∈ al -> entries u !! d = Some D -> (memDepReady D = true /\ regsReady_ D = false)) -> inv u al N Q last.
Proof. intros Hi Hx. apply (inv_fewer u al N (x :: N)); [done|set_solver|]. intros y [->|?]%elem_of_cons; auto. Qed.

(** A new instruction becomes a dependent of [y]. *)
Lemma inv_depend u al N Q last x e E y s K i : inv u al (x :: N) Q last -> (x, e) ∈ al -> (y, s) ∈ al -> entries u !! e = Some E -> memDepReady E = false ->
  entries u !! s = Some K -> sq y < sq x -> V !! y = Some i -> wakes i = true -> x ∉ N -> x ∉ ready u -> x ∉ instsToReplay u ->
  ~ waits u al e ->
  inv (set_entries u (<[s := set_depend (dependInsts K ++ [e]) K]> (entries u))) al N Q last.
Proof.
  intros Hi Hx Hy HE Hm HK Hlt Hv Hwk HN Hr Hrp Hne.
  assert (Hse : s <> e) by (intros ->; assert (y = x) as -> by (by eapply al_entry); lia).
  assert (Hget : forall d D, <[s := set_depend (dependInsts K ++ [e]) K]> (entries u) !! d = Some D -> exists D0, entries u !! d = Some D0 /\ inst D = inst D0 /\
    listIt D = listIt D0 /\ squashed D = squashed D0 /\ memDepReady D = memDepReady D0 /\ regsReady_ D = regsReady_ D0 /\
    dependInsts D = dependInsts D0 ++ (if decide (d = s) then [e] else [])).
  { intros d D Hd. destruct (decide (s = d)) as [<-|]; [rewrite lookup_insert_eq in Hd; injection Hd as <-; exists K; rewrite decide_True by done; by split_and!|].
    rewrite lookup_insert_ne in Hd by done. exists D. rewrite decide_False by done. by rewrite app_nil_r. }
  assert (Hput : forall d D, entries u !! d = Some D -> exists D', <[s := set_depend (dependInsts K ++ [e]) K]> (entries u) !! d = Some D' /\ inst D' = inst D /\
    listIt D' = listIt D /\ squashed D' = squashed D /\ memDepReady D' = memDepReady D).
  { intros d D Hd. destruct (decide (s = d)) as [<-|]; [rewrite lookup_insert_eq; eexists; split; [done|]; by replace D with K by congruence|].
    exists D. by rewrite lookup_insert_ne. }
  assert (Hw : forall d, waits u al d -> waits (set_entries u (<[s := set_depend (dependInsts K ++ [e]) K]> (entries u))) al d).
  { intros d (z & k & Z' & Hz & HZ & Hd). destruct (decide (s = k)) as [<-|]; [|exists z, k, Z'; simpl; by rewrite lookup_insert_ne].
    exists z, s, (set_depend (dependInsts K ++ [e]) K). simpl. rewrite lookup_insert_eq. split_and!; [done|done|]. replace Z' with K in Hd by congruence. set_solver. }
  constructor; try apply Hi; simpl.
  - intros z k Hz. destruct (v_entry _ _ _ _ _ Hi z k Hz) as (Z0 & HZ & Z1 & Z2 & Z3). destruct (Hput k Z0 HZ) as (Z' & HZ' & P1 & P2 & P3 & _).
    exists Z'. split_and!; congruence.
  - intros d D Hd. destruct (Hget d D Hd) as (D0 & HD0 & _). by eapply v_fresh.
  - intros z k Z0 d Hz HZ Hd. destruct (Hget k Z0 HZ) as (Z1 & HZ1 & _ & _ & _ & _ & _ & Ed). rewrite Ed in Hd. apply elem_of_app in Hd as [Hd|Hd]; [by eapply v_wakes|].
    destruct (decide (k = s)) as [->|]; [|set_solver]. assert (z = y) as -> by by eapply al_entry. by exists i.
  - intros z k Z0 d Hz HZ Hd. destruct (Hget k Z0 HZ) as (Z1 & HZ1 & _ & _ & _ & _ & _ & Ed). rewrite Ed in Hd. apply elem_of_app in Hd as [Hd|Hd].
    + destruct (v_deps _ _ _ _ _ Hi z k Z1 d Hz HZ1 Hd) as (D & HD & HDs). destruct (Hput d D HD) as (D' & HD' & P1 & _ & P3 & P4). exists D'. rewrite P1, P3, P4.
      split; [done|]. set_solver.
    + destruct (decide (k = s)) as [->|]; [|set_solver]. apply list_elem_of_singleton in Hd as ->. assert (z = y) as -> by by eapply al_entry.
      exists E. rewrite lookup_insert_ne by done. split; [done|]. right. destruct (v_entry _ _ _ _ _ Hi x e Hx) as (E0 & HE0 & Ex & _).
      assert (E0 = E) as -> by congruence. by rewrite Ex.
  - intros z k Z0 Hz HZ. destruct (Hget k Z0 HZ) as (Z1 & HZ1 & _ & _ & _ & _ & _ & ->). apply NoDup_app. split_and!; [by eapply v_nodup| |destruct (decide (k = s)); apply NoDup_singleton || apply NoDup_nil_2].
    intros d Hd. destruct (decide (k = s)); [|set_solver]. intros ->%list_elem_of_singleton. apply Hne. by exists z, k, Z1.
  - intros z k Z0 z' k' Z0' d Hz HZ Hz' HZ' Hd Hd'. destruct (Hget k Z0 HZ) as (Z1 & HZ1 & _ & _ & _ & _ & _ & Ed). destruct (Hget k' Z0' HZ') as (Z1' & HZ1' & _ & _ & _ & _ & _ & Ed').
    rewrite Ed in Hd. rewrite Ed' in Hd'. apply elem_of_app in Hd as [Hd|Hd]; apply elem_of_app in Hd' as [Hd'|Hd'].
    + by eapply (v_one _ _ _ _ _ Hi).
    + destruct (decide (k' = s)); [|set_solver]. apply list_elem_of_singleton in Hd' as ->. destruct Hne. by exists z, k, Z1.
    + destruct (decide (k = s)); [|set_solver]. apply list_elem_of_singleton in Hd as ->. destruct Hne. by exists z', k', Z1'.
    + destruct (decide (k = s)), (decide (k' = s)); set_solver.
  - intros z d D Hz HD. destruct (Hget d D HD) as (D0 & HD0 & _ & _ & _ & P4 & P5 & _). rewrite P4, P5.
    destruct (v_state _ _ _ _ _ Hi z d D0 Hz HD0) as [[->|?]%elem_of_cons|[?|[?|?]]]; auto. right; right; right.
    assert (d = e) as -> by by eapply al_inst. exists y, s, (set_depend (dependInsts K ++ [e]) K). simpl. rewrite lookup_insert_eq. split_and!; [done|done|set_solver].
  - intros z Hz. apply (v_old _ _ _ _ _ Hi). set_solver.
  - intros z Hz. destruct (v_replay _ _ _ _ _ Hi z Hz) as [? [[->|?]%elem_of_cons|?]]; [done|split; [done|by left]|split; [done|by right]].
Qed.

(** ** A new entry *)
Definition added (u : t P) (x n : Z) : t P :=
  mk (insts u) (<[fresh u := new_entry x]> (entries u)) (fresh u + 1) (<[n := fresh u]> (memDepHash u))
     (alter (fun l => l ++ [x]) (Z.to_nat tid) (instList u)) (instsToReplay u) (depPred u) (loadBarrier u) (loadBarrierSN u)
     (storeBarrier u) (storeBarrierSN u) (ready u).

Lemma sq_V x i : V !! x = Some i -> sq x = seq i.
Proof. intros E. unfold sq. by rewrite E. Qed.

Lemma known_last u Q last x : known u Q last x -> sq x <= last.
Proof. intros (i & E & _ & _ & Hl & _). by rewrite (sq_V _ _ E). Qed.

Lemma known_mono u Q last last' x : known u Q last x -> last <= last' -> known u Q last' x.
Proof. intros (i & E & E1 & E2 & Hl & E3) Hle. exists i. repeat (split; [done || lia|]). done. Qed.

Lemma no_key u al N Q last n : inv u al N Q last -> last < n -> memDepHash u !! n = None.
Proof.
  intros Hi Hn. destruct (memDepHash u !! n) as [e|] eqn:Eh; [|done]. apply (v_hash _ _ _ _ _ Hi) in Eh as (y & Hy & E).
  pose proof (known_last _ _ _ _ (v_known _ _ _ _ _ Hi _ _ Hy)). lia.
Qed.

Lemma add_entry_eq u al N Q last x i : inv u al N Q last -> seq i = sq x -> tid_of i = tid -> last < sq x ->
  add_entry u x i = Ok (fresh u, added u x (sq x)).
Proof.
  intros Hi Es Et Hlt. unfold add_entry. rewrite Es, Et, (no_key u al N Q last) by done. pose proof (v_list _ _ _ _ _ Hi) as Hl. pose proof (v_tid _ _ _ _ _ Hi).
  assert (vget (instList u) tid = Ok al.*1) as -> by (by apply vget_Ok). rewrite bind_Ok. apply lookup_lt_Some in Hl as Hlt'. rewrite vset_lt, bind_Ok by lia.
  unfold added. do 3 f_equal. apply list_eq. intros k. destruct (decide (Z.to_nat tid = k)) as [<-|].
  - rewrite list_lookup_insert_eq, list_lookup_alter_eq, Hl by lia. done.
  - by rewrite list_lookup_insert_ne, list_lookup_alter_ne.
Qed.

(** With new barrier flags [ub], and [x] perhaps a store or a barrier. *)
Lemma inv_add_barrier u lb ln sb sn al N Q Q' last x i : let ub := set_storeBarrier (set_loadBarrier u lb ln) sb sn in
  inv u al N Q last -> V !! x = Some i -> tid_of i = tid -> 0 <= PC i -> last < sq x -> Q ⊆ Q' -> Q' ⊆ sq x :: Q -> (sq x ∈ Q' -> wakes i = true) ->
  (forall y e j, (y, e) ∈ al -> V !! y = Some j -> barrier_flags ub j) -> barrier_flags ub i -> (lb = true -> ln ∈ Q') -> (sb = true -> sn ∈ Q') ->
  inv (added ub x (sq x)) (al ++ [(x, fresh u)]) (x :: N) Q' (sq x).
Proof.
  intros ub Hi Hv Ht Hp Hlt HQ1 HQ2 HQx Hold Hb Hlb Hsb. change (fresh u) with (fresh ub). pose proof (sq_V _ _ Hv) as Es.
  assert (Hnew : forall y e, (y, e) ∈ al -> e <> fresh u /\ y <> x /\ sq y < sq x).
  { intros y e Hy. destruct (v_entry _ _ _ _ _ Hi y e Hy) as (E & HE & _). apply (v_fresh _ _ _ _ _ Hi) in HE.
    pose proof (known_last _ _ _ _ (v_known _ _ _ _ _ Hi _ _ Hy)). split_and!; [lia|intros ->; lia|lia]. }
  assert (Hent : forall y e E, (y, e) ∈ al ++ [(x, fresh u)] -> <[fresh u := new_entry x]> (entries u) !! e = Some E -> dependInsts E <> [] ->
    (y, e) ∈ al /\ entries u !! e = Some E).
  { intros y e E [Hy|[= -> ->]%list_elem_of_singleton]%elem_of_app HE Hd; [|rewrite lookup_insert_eq in HE; by injection HE as <-].
    split; [done|]. destruct (Hnew y e Hy). by rewrite lookup_insert_ne in HE by done. }
  assert (Hnil : forall (d : Z) l, d ∈ l -> l <> []) by (intros d l Hd ->; by apply not_elem_of_nil in Hd).
  constructor; simpl.
  - apply Hi.
  - apply Hi.
  - by rewrite list_lookup_alter_eq, (v_list _ _ _ _ _ Hi), fmap_app.
  - intros y e [Hy|[= -> ->]%list_elem_of_singleton]%elem_of_app; [|exists i; rewrite <- Es; by split_and!].
    destruct (v_known _ _ _ _ _ Hi y e Hy) as (j & Ej & J1 & J2 & J3 & J4 & _). exists j. split_and!; try done; [lia| |by eapply Hold].
    intros [Hq|Hq]%HQ2%elem_of_cons; [lia|by apply J4].
  - apply StronglySorted_app. split_and!; [|apply Hi|repeat constructor]. intros [y e] [z k] Hy [= -> ->]%list_elem_of_singleton. apply (Hnew y e Hy).
  - intros n e. destruct (Z.eq_dec (sq x) n) as [<-|Hne].
    + rewrite lookup_insert_eq. split; [intros [= <-]; exists x; set_solver|]. intros (y & Hy & E).
      apply elem_of_app in Hy as [Hy|[= -> ->]%list_elem_of_singleton]; [|done]. destruct (Hnew y e Hy) as (_ & _ & ?). lia.
    + rewrite lookup_insert_ne, (v_hash _ _ _ _ _ Hi) by done. split; intros (y & Hy & E); exists y; [set_solver|].
      apply elem_of_app in Hy as [Hy|[= -> ->]%list_elem_of_singleton]; done.
  - intros y e [Hy|[= -> ->]%list_elem_of_singleton]%elem_of_app; [|exists (new_entry x); by rewrite lookup_insert_eq].
    destruct (v_entry _ _ _ _ _ Hi y e Hy) as (E & HE & HE'). destruct (Hnew y e Hy) as (? & _). exists E. by rewrite lookup_insert_ne.
  - intros e E HE. destruct (decide (fresh u = e)) as [<-|]; [lia|]. rewrite lookup_insert_ne in HE by done. apply (v_fresh _ _ _ _ _ Hi) in HE. lia.
  - intros y e E d Hy HE Hd. destruct (Hent y e E Hy HE) as [Hy' HE']; [eauto|]. by eapply v_wakes.
  - intros y e E d Hy HE Hd. destruct (Hent y e E Hy HE) as [Hy' HE']; [eauto|]. destruct (v_deps _ _ _ _ _ Hi y e E d Hy' HE' Hd) as (D & HD & HDs).
    exists D. rewrite lookup_insert_ne by (apply (v_fresh _ _ _ _ _ Hi) in HD; lia). split; [done|]. destruct HDs as [?|(H1 & H2)]; [by left|right].
    destruct (Hnew _ _ H1) as (_ & Hx & _). set_solver.
  - intros y e E Hy HE. destruct (decide (dependInsts E = [])) as [->|Hd]; [apply NoDup_nil_2|]. destruct (Hent y e E Hy HE Hd) as [Hy' HE']. by eapply v_nodup.
  - intros y e E y' e' E' d Hy HE Hy' HE' Hd Hd'. destruct (Hent y e E Hy HE) as [Hz HZ]; [eauto|]. destruct (Hent y' e' E' Hy' HE') as [Hz' HZ']; [eauto|].
    by eapply (v_one _ _ _ _ _ Hi).
  - intros y d D [Hy|[= -> ->]%list_elem_of_singleton]%elem_of_app HD; [|left; left]. destruct (Hnew y d Hy) as (Hd & _). rewrite lookup_insert_ne in HD by done.
    destruct (v_state _ _ _ _ _ Hi y d D Hy HD) as [?|[?|[?|(z & k & K & Hz & HK & Hk)]]]; [left; by right|auto..]. right; right; right.
    exists z, k, K. destruct (Hnew z k Hz) as (Hk' & _). simpl. rewrite lookup_insert_ne by done. set_solver.
  - intros y [[->|Hy]%elem_of_cons|Hy]; [done|..]; (etrans; [apply (v_old _ _ _ _ _ Hi y); auto|lia]).
  - intros y Hy. destruct (v_replay _ _ _ _ _ Hi y Hy) as [? ?]. rewrite fmap_app. set_solver.
  - apply Forall_forall. intros n [->|Hn]%HQ2%elem_of_cons; [lia|]. pose proof (v_Q _ _ _ _ _ Hi) as HQ. rewrite Forall_forall in HQ. apply HQ in Hn. lia.
  - eapply dp_mono; [apply Hi|done].
  - done.
Qed.

Lemma inv_add u al N Q last x i : inv u al N Q last -> V !! x = Some i -> tid_of i = tid -> 0 <= PC i -> last < sq x -> barrier_flags u i ->
  inv (added u x (sq x)) (al ++ [(x, fresh u)]) (x :: N) Q (sq x).
Proof.
  intros Hi Hv Ht Hp Hlt Hb. destruct (v_bar _ _ _ _ _ Hi) as [B1 B2].
  pose proof (inv_add_barrier u (loadBarrier u) (loadBarrierSN u) (storeBarrier u) (storeBarrierSN u) al N Q Q last x i) as Hadd.
  replace (set_storeBarrier _ _ _) with u in Hadd by by destruct u. apply Hadd; try done; [set_solver|..].
  - intros HQ. pose proof (v_Q _ _ _ _ _ Hi) as HQ'. rewrite Forall_forall in HQ'. apply HQ' in HQ. lia.
  - intros y e j Hy Hj. destruct (v_known _ _ _ _ _ Hi y e Hy) as (j' & Ej & _ & _ & _ & _ & Hf). assert (j' = j) as -> by congruence. exact Hf.
Qed.

Lemma unit_inv_status u al N Q last m : inv u al N Q last -> norm <$> m = V -> inv (set_insts u m) al N Q last.
Proof. intros Hi Hm. constructor; try apply Hi. done. Qed.

Lemma inv_pred u al N Q Q' last p : inv u al N Q last -> dp_ok Q' p -> Q ⊆ Q' -> Forall (fun n => n <= last) Q' ->
  (forall x e i, (x, e) ∈ al -> V !! x = Some i -> seq i ∈ Q' -> wakes i = true) -> inv (set_pred u p) al N Q' last.
Proof.
  intros Hi Hp Hs HQ Hw. constructor; try apply Hi; try done; simpl.
  - intros x e Hx. destruct (v_known _ _ _ _ _ Hi x e Hx) as (i & E & E1 & E2 & E3 & _ & E4). exists i. split_and!; try done. by eapply Hw.
  - destruct (v_bar _ _ _ _ _ Hi). split; intros; apply Hs; auto.
Qed.

(** Instructions of the unit are known by their number. *)
Lemma al_seq u al N Q last x e y e' : inv u al N Q last -> (x, e) ∈ al -> (y, e') ∈ al -> sq x = sq y -> x = y.
Proof.
  intros Hi Hx Hy E. pose proof (hash_al _ _ _ _ _ _ _ Hi Hx) as H1. pose proof (hash_al _ _ _ _ _ _ _ Hi Hy) as H2.
  rewrite E, H2 in H1. injection H1 as ->. by eapply al_entry.
Qed.

Lemma insert_pred_ok u al N Q last x e i j : inv u al N Q last -> (x, e) ∈ al -> V !! x = Some (norm i) -> norm j = norm i -> seq i = last -> Forall (fun n => n < last) Q ->
  isLoad i || isStore i = true -> exists u', insert_pred u j = Ok u' /\ inv u' al N (if isStore i then last :: Q else Q) last.
Proof.
  intros Hi Hx Hv Ej El HQ Hk. assert (PC j = PC i /\ seq j = seq i /\ isStore j = isStore i /\ isLoad j = isLoad i) as (E1 & E2 & E3 & E4) by (exact (conj (f_equal PC Ej) (conj (f_equal seq Ej) (conj (f_equal isStore Ej) (f_equal isLoad Ej))))).
  unfold insert_pred. rewrite E1, E2, E3, E4, El. destruct (isStore i) eqn:Est.
  - destruct (v_known _ _ _ _ _ Hi x e Hx) as (i' & Ei & _ & Hp & _). assert (i' = norm i) as -> by congruence.
    destruct (dp_insertStore_ok Q (depPred u) (PC i) last (tid_of j) (v_pred _ _ _ _ _ Hi) Hp HQ) as (p & -> & Hok). rewrite bind_Ok.
    exists (set_pred u p). split; [done|]. apply (inv_pred u al N Q); try done; [set_solver|constructor; [done|apply Hi]|].
    intros y k z Hy Hz [Hs|Hs]%elem_of_cons.
    + assert (y = x) as ->. { eapply al_seq; [done..|]. rewrite (sq_V _ _ Hz), (sq_V _ _ Hv), Hs. done. }
      rewrite Hv in Hz. injection Hz as <-. unfold wakes, norm. simpl. by rewrite Est.
    + destruct (v_known _ _ _ _ _ Hi y k Hy) as (z' & Ez' & _ & _ & _ & Hw & _). assert (z' = z) as -> by congruence. by apply Hw.
  - rewrite orb_false_r in Hk. rewrite Hk. by exists u.
Qed.

Lemma producer_ok u al N Q last i : inv u al N Q last -> 0 <= PC i -> exists n, producer u i = Ok n /\ (n = 0 \/ n ∈ Q).
Proof.
  intros Hi Hp. unfold producer. destruct (v_bar _ _ _ _ _ Hi) as [Hl Hs]. destruct (isLoad i && loadBarrier u) eqn:El; [|destruct (isStore i && storeBarrier u) eqn:Es].
  - apply andb_true_iff in El as [_ El]. eauto.
  - apply andb_true_iff in Es as [_ Es]. eauto.
  - by apply dp_checkInst_ok; [apply Hi|].
Qed.

Lemma norm_canIssue (u : t P) x i : get_inst u x = Ok i -> norm <$> insts u = V ->
  norm <$> <[x := set_dyn (DynInst.reset DynInst.CanIssue (dyn i)) i]> (insts u) = V.
Proof.
  intros Hx <-. rewrite fmap_insert. apply insert_id. rewrite lookup_fmap. unfold get_inst in Hx. destruct (insts u !! x) as [j|]; [|done].
  injection Hx as ->. done.
Qed.

Lemma upd_entry_eq (u : t P) e E f : entries u !! e = Some E -> upd_entry u e f = Ok (set_entries u (<[e := f E]> (entries u))).
Proof. intros HE. unfold upd_entry, get_entry. by rewrite HE. Qed.

(** What an insertion leaves when no producer is found. *)
Lemma insert_free u al N Q last x e b : inv u al (x :: N) Q last -> (x, e) ∈ al -> entries u !! e = Some (new_entry x) -> ~ waits u al e -> x ∉ instsToReplay u ->
  exists u', (u ← upd_entry u e set_memDepReady; if (b : bool) then u ← upd_entry u e set_regsReady; moveToReady u e else Ok u) = Ok u' /\ inv u' al N Q last.
Proof.
  intros Hi Hx He Hn Hr. rewrite (upd_entry_eq u e _ _ He), bind_Ok.
  assert (Hi1 : inv (set_entries u (<[e := set_memDepReady (new_entry x)]> (entries u))) al (x :: N) Q last).
  { apply (inv_flag u al (x :: N) Q last e (new_entry x)); try done; [by right|]. intros y Hy. assert (y = x) as -> by by eapply al_entry. left; left. }
  destruct b.
  - rewrite (upd_entry_eq _ e (set_memDepReady (new_entry x))), bind_Ok by (simpl; by rewrite lookup_insert_eq).
    assert (Hn1 : ~ waits (set_entries u (<[e := set_memDepReady (new_entry x)]> (entries u))) al e).
    { intros (y & k & K & Hy & HK & Hd). simpl in HK. apply Hn. destruct (decide (e = k)) as [<-|]; [rewrite lookup_insert_eq in HK; injection HK as <-; by apply not_elem_of_nil in Hd|].
      rewrite lookup_insert_ne in HK by done. by exists y, k, K. }
    pose proof (inv_flag _ al (x :: N) Q last e (set_memDepReady (new_entry x)) (set_regsReady (set_memDepReady (new_entry x))) Hi1) as Hi2.
    cbn [set_entries entries] in Hi2. rewrite lookup_insert_eq in Hi2. specialize (Hi2 eq_refl eq_refl eq_refl eq_refl eq_refl (or_introl eq_refl)).
    specialize (Hi2 ltac:(intros y Hy; assert (y = x) as -> by (by eapply al_entry); left; left)).
    rewrite (moveToReady_eq _ al (x :: N) Q last x e) by done. eexists. split; [done|].
    apply (inv_drop _ al N Q last x); [|left; simpl; set_solver]. apply (inv_ready _ al (x :: N) Q last x e); [done..|].
    intros (y & k & K & Hy & HK & Hd). apply Hn1. simpl in HK. destruct (decide (e = k)) as [<-|]; [rewrite lookup_insert_eq in HK; injection HK as <-; by apply not_elem_of_nil in Hd|].
    rewrite lookup_insert_ne in HK by done. exists y, k, K. simpl. by rewrite lookup_insert_ne in HK |- * by done.
  - eexists. split; [done|]. apply (inv_drop _ al N Q last x); [done|]. right. split; [done|]. intros d D Hd HD. assert (d = e) as -> by by eapply al_inst.
    simpl in HD. rewrite lookup_insert_eq in HD. by injection HD as <-.
Qed.

Lemma waits_flag u al e E E' d : entries u !! e = Some E -> dependInsts E' = dependInsts E ->
  waits (set_entries u (<[e := E']> (entries u))) al d -> waits u al d.
Proof.
  intros HE Ed (y & k & K & Hy & HK & Hd). simpl in HK. destruct (decide (e = k)) as [<-|].
  - rewrite lookup_insert_eq in HK. injection HK as <-. rewrite Ed in Hd. by exists y, e, E.
  - rewrite lookup_insert_ne in HK by done. by exists y, k, K.
Qed.

(** What an insertion leaves when a producer is found. *)
Lemma insert_behind u al N Q last x e y s i b : inv u al (x :: N) Q last -> (x, e) ∈ al -> entries u !! e = Some (new_entry x) -> ~ waits u al e ->
  x ∉ N -> x ∉ ready u -> x ∉ instsToReplay u -> (y, s) ∈ al -> sq y < sq x -> V !! y = Some i -> wakes i = true ->
  exists u', (u ← (if (b : bool) then upd_entry u e set_regsReady else Ok u); u ← clearCanIssue u x; upd_entry u s (fun z => set_depend (dependInsts z ++ [e]) z)) = Ok u' /\
    inv u' al N Q last /\ depPred u' = depPred u.
Proof.
  intros Hi Hx He Hn HN Hrd Hr Hy Hlt Hv Hw.
  assert (exists u1 E1, (if b then upd_entry u e set_regsReady else Ok u) = Ok u1 /\ inv u1 al (x :: N) Q last /\ entries u1 !! e = Some E1 /\ memDepReady E1 = false /\
    ~ waits u1 al e /\ ready u1 = ready u /\ instsToReplay u1 = instsToReplay u /\ depPred u1 = depPred u) as (u1 & E1 & -> & Hi1 & HE1 & Hm1 & Hn1 & R1 & R2 & R3).
  { destruct b; [|by exists u, (new_entry x)]. rewrite (upd_entry_eq u e _ _ He). exists (set_entries u (<[e := set_regsReady (new_entry x)]> (entries u))), (set_regsReady (new_entry x)).
    split_and!; try done; [|simpl; by rewrite lookup_insert_eq|intros Hw'; apply Hn; by apply (waits_flag u al e (new_entry x) (set_regsReady (new_entry x)))].
    apply (inv_flag u al (x :: N) Q last e (new_entry x)); try done; [by left|]. intros z Hz. assert (z = x) as -> by (by eapply al_entry). left; left. }
  rewrite <- R1 in Hrd. rewrite <- R2 in Hr. rewrite <- R3. rewrite bind_Ok. destruct (inst_ids _ _ _ _ _ _ _ Hi1 Hx) as (ix & Ex & _). unfold clearCanIssue. rewrite Ex, !bind_Ok.
  destruct (v_entry _ _ _ _ _ Hi1 y s Hy) as (K & HK & _). rewrite (upd_entry_eq _ s K) by done. eexists. split; [done|]. split; [|done].
  pose proof (unit_inv_status _ _ _ _ _ _ Hi1 (norm_canIssue _ _ _ Ex (v_insts _ _ _ _ _ Hi1))) as Hi2.
  by apply (inv_depend _ al N Q last x e E1 y s K i Hi2).
Qed.

Lemma norm_fields i j : norm j = norm i -> seq j = seq i /\ tid_of j = tid_of i /\ PC j = PC i /\ isLoad j = isLoad i /\ isStore j = isStore i /\
  isMemRef j = isMemRef i /\ isMemBarrier j = isMemBarrier i /\ isWriteBarrier j = isWriteBarrier i.
Proof.
  intros E. split_and!; [exact (f_equal seq E)|exact (f_equal tid_of E)|exact (f_equal PC E)|exact (f_equal isLoad E)|exact (f_equal isStore E)|exact (f_equal isMemRef E)|exact (f_equal isMemBarrier E)|exact (f_equal isWriteBarrier E)].
Qed.

(** A new instruction of the thread. *)
Definition arrives (last x : Z) (i : MemInst) : Prop := V !! x = Some i /\ tid_of i = tid /\ 0 <= PC i /\ last < sq x.

Lemma arrives_get u al N Q last x i : inv u al N Q last -> arrives last x i ->
  exists j, get_inst u x = Ok j /\ norm j = i /\ add_entry u x j = Ok (fresh u, added u x (sq x)).
Proof.
  intros Hi (Hv & Ht & Hp & Hl). destruct (get_inst_V u x i (v_insts _ _ _ _ _ Hi) Hv) as (j & Ej & <-). exists j. split_and!; try done.
  apply (add_entry_eq u al N Q last); try done. by rewrite (sq_V _ _ Hv).
Qed.

Lemma arrives_new u al N Q last x i : inv u al N Q last -> arrives last x i ->
  x ∉ N /\ x ∉ ready u /\ x ∉ instsToReplay u /\ Forall (fun n => n < sq x) Q /\ ~ waits (added u x (sq x)) (al ++ [(x, fresh u)]) (fresh u).
Proof.
  intros Hi (Hv & Ht & Hp & Hl). split_and!.
  - intros HN. pose proof (v_old _ _ _ _ _ Hi x (or_introl HN)). lia.
  - intros Hr. pose proof (v_old _ _ _ _ _ Hi x (or_intror Hr)). lia.
  - intros Hr. destruct (v_replay _ _ _ _ _ Hi x Hr) as [_ Hx]. pose proof (v_old _ _ _ _ _ Hi x Hx). lia.
  - eapply Forall_impl; [apply (v_Q _ _ _ _ _ Hi)|]. simpl. lia.
  - intros (y & k & K & Hy & HK & Hd). simpl in HK. destruct (decide (fresh u = k)) as [<-|Hk].
    + rewrite lookup_insert_eq in HK. injection HK as <-. by apply not_elem_of_nil in Hd.
    + rewrite lookup_insert_ne in HK by done. apply elem_of_app in Hy as [Hy|[= -> ->]%list_elem_of_singleton]; [|done].
      destruct (v_deps _ _ _ _ _ Hi y k K (fresh u) Hy HK Hd) as (D & HD & _). apply (v_fresh _ _ _ _ _ Hi) in HD. lia.
Qed.

Lemma unit_insert_ok u al N Q last x i : inv u al N Q last -> arrives last x i -> isMemRef i = true -> isLoad i || isStore i = true ->
  exists u', insert u x = Ok u' /\ inv u' (al ++ [(x, fresh u)]) N (if isStore i then sq x :: Q else Q) (sq x).
Proof.
  intros Hi Ha Hm Hk. destruct (arrives_get _ _ _ _ _ _ _ Hi Ha) as (j & Ej & En & Ea). destruct (arrives_new _ _ _ _ _ _ _ Hi Ha) as (HN & Hr & Hrp & HQ & Hnw).
  destruct Ha as (Hv & Ht & Hp & Hl). pose proof (inv_add u al N Q last x i Hi Hv Ht Hp Hl) as Hi1.
  assert (barrier_flags u i) as Hb by (intros ?; congruence). specialize (Hi1 Hb). set (u1 := added u x (sq x)) in *. set (al1 := al ++ [(x, fresh u)]) in *.
  assert (Hx : (x, fresh u) ∈ al1) by set_solver. assert (He : entries u1 !! fresh u = Some (new_entry x)) by apply lookup_insert_eq.
  assert (En' : norm j = norm i) by by subst i. destruct (norm_fields i j En') as (_ & _ & F3 & F4 & F5 & _).
  destruct (producer_ok u1 al1 (x :: N) Q (sq x) j Hi1) as (n & Epr & Hn); [lia|].
  unfold insert. rewrite Ej, bind_Ok, Ea, bind_Ok. fold u1. rewrite Epr, bind_Ok.
  assert (Hfin : forall m, (exists u', m = Ok u' /\ inv u' al1 N Q (sq x)) ->
    exists u', m ≫= (fun u' => insert_pred u' j) = Ok u' /\ inv u' al1 N (if isStore i then sq x :: Q else Q) (sq x)).
  { intros m (u2 & -> & Hi2). rewrite bind_Ok. apply (insert_pred_ok u2 al1 N Q (sq x) x (fresh u) i j); try done; [by subst i|symmetry; by apply sq_V]. }
  apply Hfin. destruct (if n =? 0 then None else memDepHash u1 !! n) as [s|] eqn:Es.
  - destruct (Z.eqb_spec n 0) as [|Hn0]; [done|]. destruct Hn as [?|Hn]; [done|]. apply (v_hash _ _ _ _ _ Hi1) in Es as (y & Hy & Ey).
    rewrite Forall_forall in HQ. specialize (HQ n Hn). simpl in HQ. destruct (v_known _ _ _ _ _ Hi1 y s Hy) as (k & Hk' & _ & _ & _ & Hw & _).
    rewrite (sq_V _ _ Hk') in Ey. assert (Hlt : sq y < sq x) by (rewrite (sq_V _ _ Hk'); lia).
    destruct (insert_behind u1 al1 N Q (sq x) x (fresh u) y s k (DynInst.has (dyn j) DynInst.CanIssue) Hi1 Hx He Hnw HN Hr Hrp Hy Hlt Hk') as (u2 & E2 & Hi2 & _); [apply Hw; by rewrite Ey|].
    by exists u2.
  - by apply (insert_free u1 al1 N Q (sq x) x (fresh u)).
Qed.

Lemma insertNonSpec_ok u al N Q last x i : inv u al N Q last -> arrives last x i -> isMemRef i = true -> isLoad i || isStore i = true ->
  exists u', insertNonSpec u x = Ok u' /\ inv u' (al ++ [(x, fresh u)]) (x :: N) (if isStore i then sq x :: Q else Q) (sq x).
Proof.
  intros Hi Ha Hm Hk. destruct (arrives_get _ _ _ _ _ _ _ Hi Ha) as (j & Ej & En & Ea). destruct (arrives_new _ _ _ _ _ _ _ Hi Ha) as (_ & _ & _ & HQ & _).
  destruct Ha as (Hv & Ht & Hp & Hl). unfold insertNonSpec. rewrite Ej, bind_Ok, Ea, bind_Ok.
  assert (barrier_flags u i) as Hb by (intros ?; congruence). pose proof (inv_add u al N Q last x i Hi Hv Ht Hp Hl Hb) as Hi1.
  apply (insert_pred_ok _ _ _ Q (sq x) x (fresh u) i j); try done; [set_solver|by subst i|by subst i|symmetry; by apply sq_V].
Qed.

Lemma add_entry_barrier (u : t P) lb ln sb sn x j : add_entry (set_storeBarrier (set_loadBarrier u lb ln) sb sn) x j =
  '(e, u) ← add_entry u x j; Ok (e, set_storeBarrier (set_loadBarrier u lb ln) sb sn).
Proof.
  unfold add_entry. simpl. destruct (vget (instList u) (tid_of j)) as [l|]; [|done]. rewrite !bind_Ok. destruct (vset (instList u) (tid_of j) (l ++ [x])); done.
Qed.

(** Only a barrier that is not a memory reference is inserted as one. *)
Lemma insertBarrier_ok u al N Q last x i : inv u al N Q last -> arrives last x i -> isMemRef i = false -> isMemBarrier i || isWriteBarrier i = true ->
  exists u', insertBarrier u x = Ok u' /\ inv u' (al ++ [(x, fresh u)]) (x :: N) (sq x :: Q) (sq x).
Proof.
  intros Hi Ha Hm Hk. destruct (arrives_get _ _ _ _ _ _ _ Hi Ha) as (j & Ej & En & _). assert (En' : norm j = norm i) by by subst i.
  destruct (norm_fields i j En') as (F1 & F2 & _ & _ & _ & _ & F7 & F8). destruct Ha as (Hv & Ht & Hp & Hl). pose proof (sq_V _ _ Hv) as Es.
  set (ub := if isMemBarrier i then set_storeBarrier (set_loadBarrier u true (sq x)) true (sq x) else set_storeBarrier (set_loadBarrier u (loadBarrier u) (loadBarrierSN u)) true (sq x)).
  assert (Eu : insertBarrier u x = '(_, u) ← add_entry ub x j; Ok u).
  { unfold insertBarrier. rewrite Ej, bind_Ok, F7, F8, F1, <- Es. unfold ub. destruct (isMemBarrier i); [done|]. simpl in Hk. rewrite Hk. by do 2 f_equal. }
  assert (Hadd : add_entry ub x j = Ok (fresh u, added ub x (sq x))).
  { pose proof (add_entry_eq u al N Q last x j Hi) as E. rewrite F1, F2 in E. specialize (E (eq_sym Es) Ht Hl).
    unfold ub. destruct (isMemBarrier i); rewrite add_entry_barrier, E; done. }
  rewrite Eu, Hadd, bind_Ok. eexists. split; [done|]. destruct (v_bar _ _ _ _ _ Hi) as [B1 B2].
  assert (Hflags : forall y e k, (y, e) ∈ al -> V !! y = Some k -> barrier_flags ub k).
  { intros y e k Hy Hk'. destruct (v_known _ _ _ _ _ Hi y e Hy) as (k' & Ek & _ & _ & Hle & _ & Hf). assert (k' = k) as -> by congruence. intros Hr. destruct (Hf Hr) as [H1 H2].
    unfold ub. destruct (isMemBarrier i); simpl; split; intros Hb; try (split; [done|lia]). by apply H1. }
  assert (Hq : Q ⊆ sq x :: Q) by (intros n Hn; by right).
  assert (Hw : wakes i = true) by (unfold wakes; by rewrite <- orb_assoc, Hk, orb_true_r).
  assert (Hx : barrier_flags ub i) by (intros _; unfold ub; destruct (isMemBarrier i); simpl; split; intros; by split; try lia).
  unfold ub in *. destruct (isMemBarrier i) eqn:Emb.
  - by apply (inv_add_barrier u _ _ _ _ al N Q (sq x :: Q) last x i); try done; intros; left.
  - apply (inv_add_barrier u _ _ _ _ al N Q (sq x :: Q) last x i); try done; [intros; right; auto|intros; left].
Qed.

(** ** Registers, replay *)
Lemma not_waits u al N Q last x e E : inv u al N Q last -> (x, e) ∈ al -> entries u !! e = Some E ->
  x ∈ N \/ x ∈ ready u \/ memDepReady E = true -> ~ waits u al e.
Proof.
  intros Hi Hx HE Hst (y & k & K & Hy & HK & Hd). destruct (v_deps _ _ _ _ _ Hi y k K e Hy HK Hd) as (D & HD & HDs).
  assert (D = E) as -> by congruence. destruct (v_entry _ _ _ _ _ Hi x e Hx) as (E0 & HE0 & Ei & _ & Es). assert (E0 = E) as -> by congruence. subst x.
  destruct HDs as [?|(_ & Hm & _ & ? & ?)]; [congruence|]. destruct Hst as [?|[?|?]]; [done|done|congruence].
Qed.

Lemma regsReady_ok u al N Q last x e : inv u al N Q last -> (x, e) ∈ al -> exists u', regsReady u x = Ok u' /\ inv u' al N Q last.
Proof.
  intros Hi Hx. destruct (v_entry _ _ _ _ _ Hi x e Hx) as (E & HE & Ex & El & Es). unfold regsReady. rewrite (findInHash_ok _ _ _ _ _ _ _ Hi Hx), bind_Ok.
  rewrite (upd_entry_eq u e E _ HE), bind_Ok. unfold get_entry. cbn [set_entries entries]. rewrite lookup_insert_eq. cbn [deref set_regsReady memDepReady]. rewrite bind_Ok.
  destruct (memDepReady E) eqn:Em.
  - pose proof (inv_ready u al N Q last x e Hi Hx (not_waits _ _ _ _ _ _ _ _ Hi Hx HE (or_intror (or_intror Em)))) as Hi1.
    exists (addReadyMemInst (set_entries u (<[e := set_regsReady E]> (entries u))) x). split.
    + unfold moveToReady, get_entry. cbn [set_entries entries]. rewrite lookup_insert_eq. simpl. by rewrite Em, Es, Ex.
    + apply (inv_flag (addReadyMemInst u x) al N Q last e E (set_regsReady E) Hi1 HE); try done; [by left|]. intros z Hz.
      assert (z = x) as -> by by eapply al_entry. right; left. simpl. set_solver.
  - eexists. split; [simpl; by rewrite Em|]. apply (inv_flag u al N Q last e E (set_regsReady E) Hi HE); try done; [by left|]. intros z Hz.
    destruct (v_state _ _ _ _ _ Hi z e E Hz HE) as [?|[?|[[? _]|?]]]; [by left|by right; left|congruence|by right; right; right].
Qed.

Lemma nonSpecInstReady_ok u al N Q last x e : inv u al N Q last -> (x, e) ∈ al -> x ∈ N \/ x ∈ ready u ->
  exists u', (e ← findInHash u x; moveToReady u e) = Ok u' /\ inv u' al N Q last /\ ready u' = ready u ++ [x] /\ instsToReplay u' = instsToReplay u.
Proof.
  intros Hi Hx Hst. destruct (v_entry _ _ _ _ _ Hi x e Hx) as (E & HE & _). rewrite (findInHash_ok _ _ _ _ _ _ _ Hi Hx), bind_Ok.
  rewrite (moveToReady_eq _ _ _ _ _ _ _ Hi Hx). eexists. split; [done|]. split; [|done]. apply (inv_ready u al N Q last x e Hi Hx). eapply not_waits; try done. tauto.
Qed.

Lemma inv_replay u al N Q last l : inv u al N Q last -> (forall x, x ∈ l -> x ∈ al.*1 /\ (x ∈ N \/ x ∈ ready u)) -> inv (set_replay u l) al N Q last.
Proof. intros Hi Hl. constructor; try apply Hi. done. Qed.

Lemma in_fst (al : list (Z * Z)) x : x ∈ al.*1 -> exists e, (x, e) ∈ al.
Proof. intros ([y e] & -> & Hy)%list_elem_of_fmap. by exists e. Qed.

Lemma replay_loop_ok l u al N Q last : inv u al N Q last -> instsToReplay u = l -> exists u', replay_loop u l = Ok u' /\ inv u' al N Q last /\ instsToReplay u' = [].
Proof.
  revert u. induction l as [|x l IH]; intros u Hi El; cbn [replay_loop].
  - eexists. split; [done|]. split; [|done]. apply inv_replay; [done|]. intros x Hx. by apply not_elem_of_nil in Hx.
  - destruct (v_replay _ _ _ _ _ Hi x) as [Hx Hst]; [rewrite El; left|]. apply in_fst in Hx as (e & Hx).
    destruct (nonSpecInstReady_ok u al N Q last x e Hi Hx Hst) as (u1 & E1 & Hi1 & R1 & R2). apply res_bind_Ok in E1 as (e' & -> & E1). rewrite bind_Ok, E1, bind_Ok.
    apply IH; [|done]. apply inv_replay; [done|]. intros z Hz. rewrite R1. destruct (v_replay _ _ _ _ _ Hi z) as [? ?]; [rewrite El; by right|]. set_solver.
Qed.

(** ** Waking dependents *)
Definition cleared (s : Z) (u : t P) : t P := set_entries u (alter (set_depend []) s (entries u)).

Lemma cleared_lookup s (u : t P) d D : alter (set_depend []) s (entries u) !! d = Some D ->
  exists D0, entries u !! d = Some D0 /\ inst D = inst D0 /\ listIt D = listIt D0 /\ squashed D = squashed D0 /\ memDepReady D = memDepReady D0 /\
    regsReady_ D = regsReady_ D0 /\ dependInsts D = (if decide (d = s) then [] else dependInsts D0).
Proof.
  intros HD. destruct (decide (s = d)) as [<-|].
  - rewrite lookup_alter_eq in HD. destruct (entries u !! s) as [D0|]; [|done]. injection HD as <-. exists D0. by rewrite decide_True.
  - rewrite lookup_alter_ne in HD by done. exists D. by rewrite decide_False.
Qed.
Lemma cleared_get s (u : t P) d D0 : entries u !! d = Some D0 ->
  exists D, alter (set_depend []) s (entries u) !! d = Some D /\ inst D = inst D0 /\ listIt D = listIt D0 /\ squashed D = squashed D0 /\ memDepReady D = memDepReady D0.
Proof.
  intros HD. destruct (decide (s = d)) as [<-|]; [rewrite lookup_alter_eq, HD; by eexists|rewrite lookup_alter_ne by done; by exists D0].
Qed.

(** The instructions that wait for [s]. *)
Definition pending (al : list (Z * Z)) (l : list Z) : list Z := (filter (fun a => a.2 ∈ l) al).*1.

Lemma elem_pending al l x : x ∈ pending al l <-> exists d, d ∈ l /\ (x, d) ∈ al.
Proof.
  unfold pending. rewrite list_elem_of_fmap. split.
  - intros ([y d] & -> & [Hd Hy]%list_elem_of_filter). by exists d.
  - intros (d & Hd & Hx). exists (x, d). split; [done|]. by apply list_elem_of_filter.
Qed.

Lemma waits_cleared u al N Q last y s K d : inv u al N Q last -> (y, s) ∈ al -> entries u !! s = Some K -> d ∈ dependInsts K -> ~ waits (cleared s u) al d.
Proof.
  intros Hi Hy HK Hd (z & k & D & Hz & HD & Hdd). apply cleared_lookup in HD as (D0 & HD0 & _ & _ & _ & _ & _ & E). rewrite E in Hdd.
  destruct (decide (k = s)); [by apply not_elem_of_nil in Hdd|]. assert (k = s) by by eapply (v_one _ _ _ _ _ Hi z k D0 y s K d). done.
Qed.

Lemma cleared_inv u al N Q last y s K : inv u al N Q last -> (y, s) ∈ al -> entries u !! s = Some K ->
  inv (cleared s u) al (pending al (dependInsts K) ++ N) Q last.
Proof.
  intros Hi Hy HK.
  assert (Hlow : forall z k D d, (z, k) ∈ al -> alter (set_depend []) s (entries u) !! k = Some D -> d ∈ dependInsts D ->
    k <> s /\ exists D0, entries u !! k = Some D0 /\ d ∈ dependInsts D0).
  { intros z k D d Hz HD Hd. apply cleared_lookup in HD as (D0 & HD0 & _ & _ & _ & _ & _ & E). rewrite E in Hd.
    destruct (decide (k = s)); [by apply not_elem_of_nil in Hd|]. eauto. }
  constructor; try apply Hi; simpl.
  - intros x e Hx. destruct (v_entry _ _ _ _ _ Hi x e Hx) as (E & HE & E1 & E2 & E3). destruct (cleared_get s u e E HE) as (E' & HE' & F1 & F2 & F3 & _).
    exists E'. split_and!; congruence.
  - intros e E HE. apply cleared_lookup in HE as (E0 & HE0 & _). by eapply v_fresh.
  - intros z k D d Hz HD Hd. destruct (Hlow z k D d Hz HD Hd) as (_ & D0 & HD0 & Hd0). by eapply v_wakes.
  - intros z k D d Hz HD Hd. destruct (Hlow z k D d Hz HD Hd) as (Hne & D0 & HD0 & Hd0). destruct (v_deps _ _ _ _ _ Hi z k D0 d Hz HD0 Hd0) as (C & HC & HCs).
    destruct (cleared_get s u d C HC) as (C' & HC' & F1 & _ & F3 & F4). exists C'. rewrite F1, F3, F4. split; [done|]. destruct HCs as [?|(H1 & H2 & H3 & H4 & H5)]; [by left|right].
    split_and!; try done. rewrite not_elem_of_app, elem_pending. split; [|done]. intros (d' & Hd' & Hx). assert (d' = d) as -> by by eapply al_inst.
    apply Hne. by eapply (v_one _ _ _ _ _ Hi z k D0 y s K d).
  - intros z k D Hz HD. apply cleared_lookup in HD as (D0 & HD0 & _ & _ & _ & _ & _ & ->). destruct (decide (k = s)); [apply NoDup_nil_2|by eapply v_nodup].
  - intros z k D z' k' D' d Hz HD Hz' HD' Hd Hd'. destruct (Hlow z k D d Hz HD Hd) as (_ & D0 & HD0 & Hd0). destruct (Hlow z' k' D' d Hz' HD' Hd') as (_ & D0' & HD0' & Hd0').
    by eapply (v_one _ _ _ _ _ Hi).
  - intros x d D Hx HD. apply cleared_lookup in HD as (D0 & HD0 & _ & _ & _ & F4 & F5 & _). rewrite F4, F5.
    destruct (v_state _ _ _ _ _ Hi x d D0 Hx HD0) as [?|[?|[?|(z & k & C & Hz & HC & Hd)]]]; [left; set_solver|auto..].
    destruct (decide (k = s)) as [->|].
    + left. apply elem_of_app. left. apply elem_pending. exists d. split; [|done]. by replace K with C by congruence.
    + right; right; right. exists z, k, C. simpl. by rewrite lookup_alter_ne.
  - intros x [[(d & Hd & Hx)%elem_pending|?]%elem_of_app|?]; [|apply (v_old _ _ _ _ _ Hi); auto..]. by eapply known_last, (v_known _ _ _ _ _ Hi).
  - intros x Hx. destruct (v_replay _ _ _ _ _ Hi x Hx). set_solver.
Qed.

(** A step of the loop leaves [s] and the tables alone. *)
Definition same_tables (u u' : t P) : Prop :=
  insts u' = insts u /\ memDepHash u' = memDepHash u /\ instList u' = instList u /\ instsToReplay u' = instsToReplay u /\ depPred u' = depPred u /\
  loadBarrier u' = loadBarrier u /\ loadBarrierSN u' = loadBarrierSN u /\ storeBarrier u' = storeBarrier u /\ storeBarrierSN u' = storeBarrierSN u /\ ready u `prefix_of` ready u'.

Definition wake_one (u : t P) (d : Z) : res (t P) :=
  x ← get_entry u d; if regsReady_ x && negb (squashed x) then moveToReady u d else upd_entry u d set_memDepReady.

Lemma wake_loop_cons (u : t P) d l : wake_loop u (d :: l) = u' ← wake_one u d; wake_loop u' l.
Proof. cbn [wake_loop]. unfold wake_one. destruct (get_entry u d); done. Qed.

(** What the loop needs of a dependent. *)
Definition wakeable (s : Z) (u : t P) (al : list (Z * Z)) (d : Z) : Prop :=
  d <> s /\ ~ waits (cleared s u) al d /\ exists D, entries u !! d = Some D /\ (squashed D = true \/ ((inst D, d) ∈ al /\ inst D ∉ instsToReplay u)).

Lemma cleared_insert s u d D D' : d <> s -> entries u !! d = Some D -> dependInsts D' = dependInsts D ->
  cleared s (set_entries u (<[d := D']> (entries u))) = set_entries (cleared s u) (<[d := D']> (entries (cleared s u))).
Proof. intros Hne _ _. unfold cleared, set_entries. simpl. f_equal. by rewrite alter_insert_ne. Qed.

Lemma wake_one_ok s u al N Q last d ps : inv (cleared s u) al (ps ++ N) Q last -> wakeable s u al d -> (forall x, x ∈ ps -> x ∈ al.*1) ->
  exists u', wake_one u d = Ok u' /\ inv (cleared s u') al (filter (fun x => (x, d) ∉ al) ps ++ N) Q last /\ same_tables u u' /\
    entries u' !! s = entries u !! s /\ forall d', d' <> d -> wakeable s u al d' -> wakeable s u' al d'.
Proof.
  intros Hi (Hne & Hnw & D & HD & HDs) Hps. unfold wake_one, get_entry. rewrite HD. cbn [deref]. rewrite bind_Ok.
  assert (HDc : entries (cleared s u) !! d = Some D) by (simpl; by rewrite lookup_alter_ne).
  destruct (regsReady_ D && negb (squashed D)) eqn:Eb.
  - apply andb_true_iff in Eb as [Er Es%negb_true_iff]. destruct HDs as [?|[Hx Hrp]]; [congruence|].
    exists (addReadyMemInst u (inst D)). split; [unfold moveToReady, get_entry; rewrite HD; simpl; by rewrite Es|]. split_and!; try done; [|unfold same_tables; split_and!; try done; by eexists].
    change (cleared s (addReadyMemInst u (inst D))) with (addReadyMemInst (cleared s u) (inst D)).
    pose proof (inv_ready _ _ _ _ _ _ _ Hi Hx Hnw) as Hi1. apply (inv_fewer _ _ _ (ps ++ N)); [done|by intros z; rewrite !elem_of_app, list_elem_of_filter; intros [[_ ?]|?]; [left|right]|].
    intros x [Hxp|?]%elem_of_app; [|left; apply elem_of_app; by right]. destruct (decide ((x, d) ∈ al)) as [Hd|Hd].
    + right; left. assert (x = inst D) as -> by by eapply (al_entry _ _ _ _ _ _ _ _ Hi). simpl. set_solver.
    + left. apply elem_of_app. left. by apply list_elem_of_filter.
  - rewrite (upd_entry_eq u d D _ HD). eexists. split; [done|]. split_and!; try done.
    + rewrite (cleared_insert s u d D) by done.
      assert (Hi1 : inv (set_entries (cleared s u) (<[d := set_memDepReady D]> (entries (cleared s u)))) al (ps ++ N) Q last).
      { apply (inv_flag (cleared s u) al (ps ++ N) Q last d D (set_memDepReady D) Hi HDc); try done; [by right|]. intros x Hx.
        destruct (v_state _ _ _ _ _ Hi x d D Hx HDc) as [?|[?|[[_ ?]|?]]]; [by left|by right; left|right; right; left; done|done]. }
      apply (inv_fewer _ _ _ (ps ++ N)); [done|by intros z; rewrite !elem_of_app, list_elem_of_filter; intros [[_ ?]|?]; [left|right]|]. intros x [Hxp|?]%elem_of_app; [|left; apply elem_of_app; by right]. destruct (decide ((x, d) ∈ al)) as [Hd|Hd].
      * right; right. destruct (v_entry _ _ _ _ _ Hi x d Hd) as (D0 & HD0 & Ex & _ & Es0). assert (D0 = D) as -> by congruence. subst x.
        destruct HDs as [?|[_ Hrp]]; [congruence|]. split; [done|]. intros d' D' Hd' HD'. assert (d' = d) as -> by (by eapply (al_inst _ _ _ _ _ _ _ _ Hi)).
        simpl in HD'. rewrite lookup_insert_eq in HD'. injection HD' as <-. simpl. split; [done|]. rewrite Es0, andb_true_r in Eb. done.
      * left. apply elem_of_app. left. by apply list_elem_of_filter.
    + simpl. by rewrite lookup_insert_ne.
    + intros d' Hd' (Hne' & Hnw' & D' & HD' & HDs'). split; [done|]. split.
      * rewrite (cleared_insert s u d D) by done. intros Hw. apply Hnw'. by eapply (waits_flag (cleared s u) al d D (set_memDepReady D)).
      * exists D'. simpl. by rewrite lookup_insert_ne.
Qed.

Lemma same_trans u1 u2 u3 : same_tables u1 u2 -> same_tables u2 u3 -> same_tables u1 u3.
Proof.
  intros (A1 & A2 & A3 & A4 & A5 & A6 & A7 & A8 & A9 & A10) (B1 & B2 & B3 & B4 & B5 & B6 & B7 & B8 & B9 & B10).
  unfold same_tables. split_and!; try congruence. by etrans.
Qed.
Lemma same_refl u : same_tables u u.
Proof. by unfold same_tables. Qed.

Lemma wake_loop_ok l s u al N Q last ps : inv (cleared s u) al (ps ++ N) Q last -> NoDup l -> Forall (wakeable s u al) l ->
  (forall x, x ∈ ps -> exists d, d ∈ l /\ (x, d) ∈ al) ->
  exists u', wake_loop u l = Ok u' /\ inv (cleared s u') al N Q last /\ same_tables u u' /\ entries u' !! s = entries u !! s.
Proof.
  revert u ps. induction l as [|d l IH]; intros u ps Hi Hnd Hl Hps.
  - destruct ps as [|x ps]; [|destruct (Hps x) as (d & Hd & _); [left|by apply not_elem_of_nil in Hd]]. exists u. by split_and!.
  - apply NoDup_cons in Hnd as [Hd Hnd]. apply Forall_cons in Hl as [Hw Hl].
    destruct (wake_one_ok s u al N Q last d ps Hi Hw) as (u1 & E1 & Hi1 & S1 & T1 & W1).
    { intros x (d' & _ & Hx)%Hps. apply list_elem_of_fmap. by exists (x, d'). }
    destruct (IH u1 (filter (fun x => (x, d) ∉ al) ps) Hi1 Hnd) as (u' & E' & Hi' & S' & T').
    + apply Forall_forall. intros d' Hd'. apply W1; [by intros ->|]. by rewrite Forall_forall in Hl; apply Hl.
    + intros x [Hn Hx]%list_elem_of_filter. destruct (Hps x Hx) as (d' & [->|Hd']%elem_of_cons & Hx'); [done|by exists d'].
    + exists u'. rewrite wake_loop_cons, E1, bind_Ok. split_and!; try done; [by eapply same_trans|congruence].
Qed.

Lemma wakeDependents_ok u al N Q last x e : inv u al N Q last -> (x, e) ∈ al ->
  exists u', wakeDependents u x = Ok u' /\ inv u' al N Q last /\ same_tables u u' /\ forall E, entries u' !! e = Some E -> dependInsts E = [].
Proof.
  intros Hi Hx. destruct (inst_ids _ _ _ _ _ _ _ Hi Hx) as (i & Ei & Ev & _). unfold wakeDependents. rewrite Ei, bind_Ok.
  destruct (negb (isStore i) && negb (isMemBarrier i) && negb (isWriteBarrier i)) eqn:Ew.
  - exists u. split_and!; try done. intros E HE. destruct (dependInsts E) as [|d l] eqn:Ed; [done|].
    destruct (v_wakes _ _ _ _ _ Hi x e E d Hx HE) as (j & Ej & Hj); [rewrite Ed; left|]. assert (j = norm i) as -> by congruence.
    unfold wakes, norm in Hj. simpl in Hj. by destruct (isStore i), (isMemBarrier i), (isWriteBarrier i).
  - rewrite (findInHash_ok _ _ _ _ _ _ _ Hi Hx), bind_Ok. destruct (v_entry _ _ _ _ _ Hi x e Hx) as (E & HE & _). unfold get_entry. rewrite HE. cbn [deref]. rewrite bind_Ok.
    destruct (wake_loop_ok (dependInsts E) e u al N Q last (pending al (dependInsts E))) as (u' & E' & Hi' & S' & T').
    + by apply (cleared_inv u al N Q last x e E).
    + by eapply v_nodup.
    + apply Forall_forall. intros d Hd. destruct (v_deps _ _ _ _ _ Hi x e E d Hx HE Hd) as (D & HD & HDs). split; [|split].
      * intros ->. assert (D = E) as -> by congruence. destruct (v_entry _ _ _ _ _ Hi x e Hx) as (E0 & HE0 & Ex & _ & Es). assert (E0 = E) as -> by congruence.
        destruct HDs as [?|(_ & _ & Hlt & _)]; [congruence|]. rewrite Ex in Hlt. lia.
      * by eapply waits_cleared.
      * exists D. split; [done|]. destruct HDs as [?|(H1 & _ & _ & H4 & H5)]; [by left|right]. split; [done|]. intros [_ [?|?]]%(v_replay _ _ _ _ _ Hi); done.
    + intros y (d & Hd & Hy)%elem_pending. by exists d.
    + rewrite E', bind_Ok. rewrite HE in T'. rewrite (upd_entry_eq u' e E _ T'). eexists. split; [done|].
      assert (Ec : set_entries u' (<[e := set_depend [] E]> (entries u')) = cleared e u').
      { unfold cleared. f_equal. apply map_eq. intros k. destruct (decide (e = k)) as [<-|]; [by rewrite lookup_insert_eq, lookup_alter_eq, T'|].
        by rewrite lookup_insert_ne, lookup_alter_ne. }
      rewrite Ec. split_and!; [done|done|]. intros E0 HE0. simpl in HE0. rewrite lookup_alter_eq, T' in HE0. by injection HE0 as <-.
Qed.

(** ** Completion *)
Lemma filter_fst (al : list (Z * Z)) x : (filter (fun a => a.1 <> x) al).*1 = filter (fun y => y <> x) al.*1.
Proof. induction al as [|[y e] al IH]; [done|]. rewrite !filter_cons, fmap_cons, filter_cons. simpl. case_decide; simpl; [by f_equal|done]. Qed.

Definition removed (u : t P) (x : Z) (l : list Z) : t P :=
  set_hash (set_lists u (<[Z.to_nat tid := l]> (instList u))) (delete (sq x) (memDepHash u)).

Lemma removed_inv u al N Q last x e : inv u al N Q last -> (x, e) ∈ al -> (forall E, entries u !! e = Some E -> dependInsts E = []) ->
  x ∈ N \/ x ∈ ready u -> x ∉ instsToReplay u -> inv (removed u x (filter (fun y => y <> x) al.*1)) (filter (fun a => a.1 <> x) al) N Q last.
Proof.
  intros Hi Hx Hd Hst Hr. set (al' := filter _ al).
  assert (Hal : forall y k, (y, k) ∈ al' <-> y <> x /\ (y, k) ∈ al) by (intros y k; unfold al'; by rewrite list_elem_of_filter).
  assert (Hke : forall y k E d, (y, k) ∈ al -> entries u !! k = Some E -> d ∈ dependInsts E -> y <> x).
  { intros y k E d Hy HE Hdd ->. assert (k = e) as -> by by eapply al_inst. rewrite (Hd E HE) in Hdd. by apply not_elem_of_nil in Hdd. }
  destruct (v_entry _ _ _ _ _ Hi x e Hx) as (E & HE & _).
  assert (Hnw : ~ waits u al e) by (eapply not_waits; [done..|tauto]).
  constructor; simpl; try apply Hi.
  - rewrite list_lookup_insert_eq by (eapply lookup_lt_Some; apply Hi). unfold al'. by rewrite filter_fst.
  - intros y k [_ Hy]%Hal. by apply (v_known _ _ _ _ _ Hi y k).
  - apply strongly_sorted_filter, Hi.
  - intros n k. destruct (Z.eq_dec (sq x) n) as [<-|Hne].
    + rewrite lookup_delete_eq. split; [done|]. intros (y & [Hyx Hy]%Hal & Ey). destruct Hyx. by eapply al_seq.
    + rewrite lookup_delete_ne, (v_hash _ _ _ _ _ Hi) by done. split; intros (y & Hy & Ey); exists y; split; try done; [|by apply Hal in Hy as [_ ?]].
      apply Hal. split; [|done]. intros ->. done.
  - intros y k [_ Hy]%Hal. by apply (v_entry _ _ _ _ _ Hi y k).
  - intros y k K d [_ Hy]%Hal. by apply (v_wakes _ _ _ _ _ Hi y k K d).
  - intros y k K d [_ Hy]%Hal HK Hdd. destruct (v_deps _ _ _ _ _ Hi y k K d Hy HK Hdd) as (D & HD & HDs). exists D. split; [done|].
    destruct HDs as [?|(H1 & H2)]; [by left|right]. split; [|done]. apply Hal. split; [|done]. intros Ex. rewrite Ex in H1. apply Hnw. assert (e = d) as -> by by eapply al_inst. by exists y, k, K.
  - intros y k K [_ Hy]%Hal. by apply (v_nodup _ _ _ _ _ Hi y k K).
  - intros y k K y' k' K' d [_ Hy]%Hal HK [_ Hy']%Hal. by apply (v_one _ _ _ _ _ Hi y k K y' k' K' d).
  - intros y d D [_ Hy]%Hal HD. destruct (v_state _ _ _ _ _ Hi y d D Hy HD) as [?|[?|[?|(z & k & K & Hz & HK & Hdd)]]]; auto.
    right; right; right. exists z, k, K. split_and!; try done. apply Hal. split; [|done]. by eapply Hke.
  - intros y Hy. destruct (v_replay _ _ _ _ _ Hi y Hy) as [(k & Hk)%in_fst ?]. split; [|done]. apply list_elem_of_fmap. exists (y, k). split; [done|].
    apply Hal. split; [|done]. by intros ->.
Qed.

Lemma completed_ok u al N Q last x e : inv u al N Q last -> (x, e) ∈ al -> (forall E, entries u !! e = Some E -> dependInsts E = []) ->
  x ∈ N \/ x ∈ ready u -> x ∉ instsToReplay u ->
  completed u x = Ok (removed u x (filter (fun y => y <> x) al.*1)) /\ inv (removed u x (filter (fun y => y <> x) al.*1)) (filter (fun a => a.1 <> x) al) N Q last.
Proof.
  intros Hi Hx Hd Hst Hr. split; [|by eapply removed_inv]. destruct (inst_ids _ _ _ _ _ _ _ Hi Hx) as (i & Ei & _ & Es & Et & _).
  unfold completed. rewrite Ei, bind_Ok, (findInHash_ok _ _ _ _ _ _ _ Hi Hx), bind_Ok. destruct (v_entry _ _ _ _ _ Hi x e Hx) as (E & HE & _ & El & _).
  unfold get_entry. rewrite HE. cbn [deref]. rewrite bind_Ok, Et. pose proof (v_list _ _ _ _ _ Hi) as Hl. pose proof (v_tid _ _ _ _ _ Hi).
  assert (vget (instList u) tid = Ok al.*1) as -> by (by apply vget_Ok). rewrite bind_Ok. unfold erase. rewrite El, bool_decide_true by (apply list_elem_of_fmap; by exists (x, e)).
  rewrite bind_Ok. apply lookup_lt_Some in Hl as Hlt. rewrite vset_lt, bind_Ok by lia. by rewrite Es.
Qed.

Lemma inv_barriers u al N Q last lb ln sb sn : inv u al N Q last ->
  (forall y e j, (y, e) ∈ al -> V !! y = Some j -> barrier_flags (set_storeBarrier (set_loadBarrier u lb ln) sb sn) j) ->
  (lb = true -> ln ∈ Q) -> (sb = true -> sn ∈ Q) -> inv (set_storeBarrier (set_loadBarrier u lb ln) sb sn) al N Q last.
Proof.
  intros Hi Hf Hl Hs. constructor; try apply Hi; try done. intros x e Hx. destruct (v_known _ _ _ _ _ Hi x e Hx) as (i & E & E1 & E2 & E3 & E4 & _).
  exists i. split_and!; try done. by eapply Hf.
Qed.

(** No other barrier in the unit is older. *)
Definition oldest_barrier (al : list (Z * Z)) (x : Z) : Prop :=
  forall y e j, (y, e) ∈ al -> V !! y = Some j -> isMemRef j = false -> y <> x -> sq x < sq y.

Lemma completeBarrier_ok u al N Q last x e i : inv u al N Q last -> (x, e) ∈ al -> V !! x = Some i -> isMemRef i = false -> isMemBarrier i || isWriteBarrier i = true ->
  x ∈ N \/ x ∈ ready u -> x ∉ instsToReplay u -> oldest_barrier al x ->
  exists u', completeBarrier u x = Ok u' /\ inv u' (filter (fun a => a.1 <> x) al) N Q last.
Proof.
  intros Hi Hx Hv Hm Hk Hst Hr Ho. destruct (wakeDependents_ok u al N Q last x e Hi Hx) as (u1 & E1 & Hi1 & (T1 & T2 & T3 & T4 & T5 & T6 & T7 & T8 & T9 & T10) & Hd1).
  destruct (completed_ok u1 al N Q last x e Hi1 Hx Hd1) as [E2 Hi2].
  { destruct Hst as [?|Hst]; [by left|right]. destruct T10 as [k ->]. set_solver. }
  { by rewrite T4. }
  set (u2 := removed u1 x _) in *. set (al' := filter _ al) in *. unfold completeBarrier. rewrite E1, bind_Ok, E2, bind_Ok.
  destruct (get_inst_V u2 x i (v_insts _ _ _ _ _ Hi2) Hv) as (j & Ej & En). rewrite Ej, bind_Ok. assert (En' : norm j = norm i) by by subst i.
  destruct (norm_fields i j En') as (F1 & _ & _ & _ & _ & _ & F7 & F8). rewrite F1, F7, F8.
  destruct (v_known _ _ _ _ _ Hi1 x e Hx) as (i' & Ev & _ & _ & _ & _ & Hf). assert (i' = i) as -> by congruence. destruct (Hf Hm) as [Hfl Hfs].
  change (loadBarrier u2) with (loadBarrier u1). change (storeBarrier u2) with (storeBarrier u1). destruct (v_bar _ _ _ _ _ Hi2) as [B1 B2].
  assert (Hrest : forall y k j, (y, k) ∈ al' -> V !! y = Some j -> isMemRef j = false -> seq i < seq j /\ barrier_flags u1 j).
  { intros y k z [Hne Hy]%list_elem_of_filter Hz Hmz. split.
    - rewrite <- (sq_V _ _ Hv), <- (sq_V _ _ Hz). by eapply Ho.
    - destruct (v_known _ _ _ _ _ Hi1 y k Hy) as (z' & Ez & _ & _ & _ & _ & Hz'). by replace z with z' by congruence. }
  assert (Hgoal : forall lb sb, (lb = loadBarrier u1 \/ (lb = false /\ loadBarrierSN u1 = seq i)) -> (sb = storeBarrier u1 \/ (sb = false /\ storeBarrierSN u1 = seq i)) ->
    inv (set_storeBarrier (set_loadBarrier u2 lb (loadBarrierSN u1)) sb (storeBarrierSN u1)) al' N Q last).
  { intros lb sb Hlb Hsb. apply inv_barriers; [done|..].
    - intros y k z Hy Hz Hmz. destruct (Hrest y k z Hy Hz Hmz) as [Hlt Hzf]. destruct (Hzf Hmz) as [Z1 Z2]. simpl. split; intros Hb.
      + destruct (Z1 Hb). destruct Hlb as [->|[-> ?]]; [done|lia].
      + destruct (Z2 Hb). destruct Hsb as [->|[-> ?]]; [done|lia].
    - intros ->. apply B1. destruct Hlb as [Hq|[? _]]; [exact (eq_sym Hq)|done].
    - intros ->. apply B2. destruct Hsb as [Hq|[? _]]; [exact (eq_sym Hq)|done]. }
  assert (Eta : u2 = set_storeBarrier (set_loadBarrier u2 (loadBarrier u1) (loadBarrierSN u1)) (storeBarrier u1) (storeBarrierSN u1)) by by unfold u2.
  destruct (isMemBarrier i) eqn:Emb.
  - destruct (Hfl eq_refl) as [L1 _]. destruct (Hfs eq_refl) as [S1 _]. rewrite L1, S1. cbn [andb c_assert]. rewrite bind_Ok. eexists. split; [done|].
    change (loadBarrierSN u2) with (loadBarrierSN u1). rewrite L1, S1 in *.
    destruct (Z.eqb_spec (loadBarrierSN u1) (seq i)) as [El|]; simpl; change (storeBarrierSN u2) with (storeBarrierSN u1); destruct (Z.eqb_spec (storeBarrierSN u1) (seq i)) as [Es|].
    + apply (Hgoal false false); auto.
    + replace (set_loadBarrier u2 false (loadBarrierSN u1)) with (set_storeBarrier (set_loadBarrier u2 false (loadBarrierSN u1)) true (storeBarrierSN u1)); [apply Hgoal; auto|]. rewrite Eta at 2. done.
    + replace (set_storeBarrier u2 false (storeBarrierSN u1)) with (set_storeBarrier (set_loadBarrier u2 true (loadBarrierSN u1)) false (storeBarrierSN u1)); [apply Hgoal; auto|]. rewrite Eta at 2. done.
    + done.
  - simpl in Hk. rewrite Hk. destruct (Hfs Hk) as [S1 _]. rewrite S1. cbn [c_assert]. rewrite bind_Ok. eexists. split; [done|]. rewrite S1 in *.
    change (storeBarrierSN u2) with (storeBarrierSN u1). destruct (Z.eqb_spec (storeBarrierSN u1) (seq i)) as [Es|]; [|done].
    replace (set_storeBarrier u2 false (storeBarrierSN u1)) with (set_storeBarrier (set_loadBarrier u2 (loadBarrier u1) (loadBarrierSN u1)) false (storeBarrierSN u1)); [apply Hgoal; auto|].
    rewrite Eta at 2. done.
Qed.

Lemma complete_ok u al N Q last x e i : inv u al N Q last -> (x, e) ∈ al -> V !! x = Some i -> isMemRef i || (isMemBarrier i || isWriteBarrier i) = true ->
  x ∈ N \/ x ∈ ready u -> x ∉ instsToReplay u -> (isMemRef i = false -> oldest_barrier al x) ->
  exists u', complete u x = Ok u' /\ inv u' (filter (fun a => a.1 <> x) al) N Q last.
Proof.
  intros Hi Hx Hv Hk Hst Hr Ho. destruct (get_inst_V u x i (v_insts _ _ _ _ _ Hi) Hv) as (j & Ej & En). unfold complete. rewrite Ej, bind_Ok.
  assert (En' : norm j = norm i) by by subst i. destruct (norm_fields i j En') as (_ & _ & _ & _ & _ & F6 & F7 & F8). rewrite F6, F7, F8.
  destruct (isMemRef i) eqn:Em.
  - destruct (wakeDependents_ok u al N Q last x e Hi Hx) as (u1 & -> & Hi1 & (_ & _ & _ & T4 & _ & _ & _ & _ & _ & T10) & Hd1). rewrite bind_Ok.
    destruct (completed_ok u1 al N Q last x e Hi1 Hx Hd1) as [E2 Hi2]; [|by rewrite T4|eauto]. destruct Hst as [?|Hst]; [by left|right]. destruct T10 as [k ->]. set_solver.
  - simpl in Hk. rewrite Hk. apply (completeBarrier_ok u al N Q last x e i); auto.
Qed.

(** ** Squashing *)
Lemma squash_replay_ok u al N Q last l n : inv u al N Q last -> (forall x, x ∈ l -> x ∈ al.*1) ->
  squash_replay u l n tid = Ok (filter (fun x => sq x <= n) l).
Proof.
  intros Hi. induction l as [|x l IH]; intros Hl; [done|]. cbn [squash_replay]. destruct (in_fst al x) as (e & Hx); [apply Hl; left|].
  destruct (inst_ids _ _ _ _ _ _ _ Hi Hx) as (i & Ei & _ & Es & Et & _). rewrite Ei, bind_Ok, IH, bind_Ok by (intros y Hy; apply Hl; by right). rewrite Es, Et, Z.eqb_refl, filter_cons. simpl.
  destruct (Z.ltb_spec n (sq x)); case_decide; done || lia.
Qed.

Definition dropped (u : t P) (x e : Z) (E : MemDepEntry) (l : list Z) : t P :=
  set_lists (set_hash (set_entries u (<[e := set_squashed E]> (entries u))) (delete (sq x) (memDepHash u))) (<[Z.to_nat tid := l]> (instList u)).

Lemma dropped_inv u al N Q last x e E : inv u (al ++ [(x, e)]) N Q last -> entries u !! e = Some E -> x ∉ instsToReplay u -> inv (dropped u x e E al.*1) al N Q last.
Proof.
  intros Hi HE Hr. assert (Hin : forall y k, (y, k) ∈ al -> (y, k) ∈ al ++ [(x, e)]) by set_solver. assert (Hx : (x, e) ∈ al ++ [(x, e)]) by set_solver.
  assert (Hlt : forall y k, (y, k) ∈ al -> sq y < sq x).
  { intros y k Hy. pose proof (v_sorted _ _ _ _ _ Hi) as Hs. apply StronglySorted_app in Hs as (Hs & _ & _). apply (Hs (y, k) (x, e)); [done|set_solver]. }
  assert (Hke : forall y k, (y, k) ∈ al -> k <> e).
  { intros y k Hy ->. assert (y = x) as -> by (by eapply (al_entry _ _ _ _ _ _ _ _ Hi); [apply Hin|]). apply Hlt in Hy. lia. }
  assert (Hent : forall y k K, (y, k) ∈ al -> <[e := set_squashed E]> (entries u) !! k = Some K -> entries u !! k = Some K).
  { intros y k K Hy HK. by rewrite lookup_insert_ne in HK by (symmetry; by eapply Hke). }
  constructor; simpl; try apply Hi.
  - rewrite list_lookup_insert_eq by (eapply lookup_lt_Some; apply Hi). done.
  - intros y k Hy%Hin. by apply (v_known _ _ _ _ _ Hi y k).
  - pose proof (v_sorted _ _ _ _ _ Hi) as Hs. by apply StronglySorted_app in Hs as (_ & Hs & _).
  - intros n k. destruct (Z.eq_dec (sq x) n) as [<-|Hne].
    + rewrite lookup_delete_eq. split; [done|]. intros (y & Hy%Hlt & Ey). lia.
    + rewrite lookup_delete_ne, (v_hash _ _ _ _ _ Hi) by done. split; intros (y & Hy & Ey); exists y; split; try done; [|by apply Hin].
      apply elem_of_app in Hy as [?|[= -> ->]%list_elem_of_singleton]; done.
  - intros y k Hy. destruct (v_entry _ _ _ _ _ Hi y k (Hin _ _ Hy)) as (K & HK & HK'). exists K. by rewrite lookup_insert_ne by (symmetry; by eapply Hke).
  - intros k K HK. destruct (decide (e = k)) as [<-|]; [by eapply v_fresh|]. rewrite lookup_insert_ne in HK by done. by eapply v_fresh.
  - intros y k K d Hy HK%(Hent y) Hd; [|done]. eapply v_wakes; [done|by apply Hin|done..].
  - intros y k K d Hy HK%(Hent y) Hd; [|done]. destruct (v_deps _ _ _ _ _ Hi y k K d (Hin _ _ Hy) HK Hd) as (D & HD & HDs).
    destruct (decide (e = d)) as [<-|Hne]; [exists (set_squashed E); rewrite lookup_insert_eq; split; [done|by left]|]. exists D. rewrite lookup_insert_ne by done. split; [done|].
    destruct HDs as [?|(H1 & H2)]; [by left|right]. split; [|done]. apply elem_of_app in H1 as [?|[= _ ->]%list_elem_of_singleton]; done.
  - intros y k K Hy HK%(Hent y); [|done]. eapply v_nodup; [done|by apply Hin|done].
  - intros y k K y' k' K' d Hy HK%(Hent y) Hy' HK'%(Hent y'); [|done..]. by apply (v_one _ _ _ _ _ Hi y k K y' k' K' d); auto.
  - intros y d D Hy HD%(Hent y); [|done]. destruct (v_state _ _ _ _ _ Hi y d D (Hin _ _ Hy) HD) as [?|[?|[?|(z & k & K & Hz & HK & Hd)]]]; auto.
    right; right; right. destruct (v_deps _ _ _ _ _ Hi z k K d Hz HK Hd) as (D' & HD' & HDs). assert (D' = D) as -> by congruence.
    destruct (v_entry _ _ _ _ _ Hi y d (Hin _ _ Hy)) as (D0 & HD0 & Ey & _ & Es). assert (D0 = D) as -> by congruence.
    destruct HDs as [?|(_ & _ & Hzy & _)]; [congruence|]. rewrite Ey in Hzy. pose proof (Hlt y d Hy).
    apply elem_of_app in Hz as [Hz|[= -> ->]%list_elem_of_singleton]; [|lia]. exists z, k, K. simpl. by rewrite lookup_insert_ne by (symmetry; by eapply Hke).
  - intros y Hy. destruct (v_replay _ _ _ _ _ Hi y Hy) as [Hy' ?]. split; [|done]. rewrite fmap_app in Hy'. apply elem_of_app in Hy' as [?|Hy']; [done|]. apply list_elem_of_singleton in Hy' as ->. done.
Qed.

Lemma squash_loop_inv al u N Q last n : inv u al N Q last -> (forall x, x ∈ instsToReplay u -> sq x <= n) ->
  exists u', squash_loop u (rev al.*1) n tid = Ok u' /\ inv u' (filter (fun a => sq a.1 <= n) al) N Q last /\ ready u' = ready u.
Proof.
  revert u. induction al as [|[x e] al IH] using rev_ind; intros u Hi Hr; [by exists u|].
  rewrite fmap_app, rev_app_distr. cbn [fmap list_fmap rev app squash_loop fst]. assert (Hx : (x, e) ∈ al ++ [(x, e)]) by set_solver.
  destruct (inst_ids _ _ _ _ _ _ _ Hi Hx) as (i & -> & _ & Es & _). rewrite bind_Ok, Es. destruct (Z.ltb_spec n (sq x)) as [Hlt|Hge].
  - rewrite (findInHash_ok _ _ _ _ _ _ _ Hi Hx), bind_Ok. destruct (v_entry _ _ _ _ _ Hi x e Hx) as (E & HE & _). rewrite (upd_entry_eq u e E _ HE), bind_Ok.
    pose proof (v_list _ _ _ _ _ Hi) as Hl. apply lookup_lt_Some in Hl. pose proof (v_tid _ _ _ _ _ Hi). cbn [set_hash instList set_entries]. rewrite vset_lt, bind_Ok by lia.
    rewrite rev_involutive. assert (Hi1 : inv (dropped u x e E al.*1) al N Q last).
    { apply dropped_inv; [done..|]. intros Hx'. apply Hr in Hx'. lia. }
    destruct (IH _ Hi1 Hr) as (u' & E' & Hi' & R'). exists u'. split; [exact E'|]. rewrite filter_app, filter_cons_False, app_nil_r by (simpl; lia). done.
  - exists u. split; [done|]. split; [|done]. rewrite filter_all; [done|]. intros [y k] [Hy|[= -> ->]%list_elem_of_singleton]%elem_of_app; [|done]. simpl.
    pose proof (v_sorted _ _ _ _ _ Hi) as Hs. apply StronglySorted_app in Hs as (Hs & _ & _). specialize (Hs (y, k) (x, e) Hy ltac:(set_solver)). simpl in Hs. lia.
Qed.

Lemma inv_pred_same u al N Q last p : inv u al N Q last -> dp_ok Q p -> inv (set_pred u p) al N Q last.
Proof.
  intros Hi Hp. apply (inv_pred u al N Q); try done; [apply Hi|]. intros x e i Hx Hv HQ. destruct (v_known _ _ _ _ _ Hi x e Hx) as (j & Ej & _ & _ & _ & Hw & _).
  assert (j = i) as -> by congruence. by apply Hw.
Qed.

Lemma squash_ok u al N Q last n : inv u al N Q last -> exists u', squash u n tid = Ok u' /\ inv u' (filter (fun a => sq a.1 <= n) al) N Q last /\ ready u' = ready u.
Proof.
  intros Hi. unfold squash. rewrite (squash_replay_ok u al N Q last) by (done || intros x Hx; by apply (v_replay _ _ _ _ _ Hi)). rewrite bind_Ok.
  assert (Hi1 : inv (set_replay u (filter (fun x => sq x <= n) (instsToReplay u))) al N Q last).
  { apply inv_replay; [done|]. intros x [_ Hx]%list_elem_of_filter. by apply (v_replay _ _ _ _ _ Hi). }
  pose proof (v_list _ _ _ _ _ Hi1) as Hl. pose proof (v_tid _ _ _ _ _ Hi). assert (vget (instList (set_replay u (filter (fun x => sq x <= n) (instsToReplay u)))) tid = Ok al.*1) as -> by (by apply vget_Ok).
  rewrite bind_Ok. destruct (squash_loop_inv al _ N Q last n Hi1) as (u' & -> & Hi' & R'); [by intros x [? _]%list_elem_of_filter|]. rewrite bind_Ok.
  destruct (dp_squash_ok Q (depPred u') n tid (v_pred _ _ _ _ _ Hi')) as (p & -> & Hp). rewrite bind_Ok. eexists. split; [done|]. split; [by apply inv_pred_same|done].
Qed.

Lemma violation_inv u al N Q last st ld i j : inv u al N Q last -> V !! st = Some i -> V !! ld = Some j -> 0 <= PC i -> 0 <= PC j ->
  exists u', violation u st ld = Ok u' /\ inv u' al N Q last /\ ready u' = ready u.
Proof.
  intros Hi Hs Hl P1 P2. destruct (get_inst_V u st i (v_insts _ _ _ _ _ Hi) Hs) as (i' & Ei & <-). destruct (get_inst_V u ld j (v_insts _ _ _ _ _ Hi) Hl) as (j' & Ej & <-).
  unfold violation. rewrite Ej, bind_Ok, Ei, bind_Ok. destruct (dp_violation_ok Q (depPred u) (PC j') (PC i') (v_pred _ _ _ _ _ Hi) P2 P1) as (p & -> & Hp).
  rewrite bind_Ok. eexists. split; [done|]. split; [by apply inv_pred_same|done].
Qed.

Lemma issue_inv u al N Q last x e : inv u al N Q last -> (x, e) ∈ al -> exists u', issue u x = Ok u' /\ inv u' al N Q last /\ ready u' = ready u.
Proof.
  intros Hi Hx. destruct (inst_ids _ _ _ _ _ _ _ Hi Hx) as (i & Ei & _ & _ & _ & Hp). unfold issue. rewrite Ei, bind_Ok.
  destruct (dp_issued_ok Q (depPred u) (PC i) (seq i) (isStore i) (v_pred _ _ _ _ _ Hi) Hp) as (p & -> & Hok). rewrite bind_Ok. eexists. split; [done|]. split; [by apply inv_pred_same|done].
Qed.
End proof.
