(* ===== verification/MemDepTheorems.v ===== *)
(** * Theorems on the memory dependence unit *)
From stdpp Require Import sorting.
From S2P Require Import Prelude IntMath Rob StoreSet StoreSetTheorems MemDep MemDepProof.
Import MemDepUnit.

(** ** The store sets are a predictor the unit can use *)
Definition told (hist : list Z) (p : StoreSet.t) : Prop :=
  (exists d, wf p d) /\ (forall k i, (k, i) ∈ StoreSet.storeList p -> k ∈ hist) /\
  forall i n, StoreSet.validLFST p !! i = Some true -> StoreSet.LFST p !! i = Some n -> n ∈ hist.

Lemma told_insert hist p pc n tid : told hist p -> 0 <= pc -> Forall (fun k => k < n) hist ->
  exists p', StoreSet.insertStore p pc n tid = Ok p' /\ told (n :: hist) p'.
Proof.
  intros ([d Hw] & Hl & Hv) Hpc Hn. destruct (insertStore_ok p d pc n tid Hw Hpc) as (p' & E & Hw' & Ep).
  { apply Forall_forall. intros [k i] Hk%Hl. rewrite Forall_forall in Hn. by apply Hn. }
  exists p'. split; [done|]. split; [by exists d|]. destruct (set_of p pc) as [id|]; subst p'; simpl; [|split; [intros; right; eauto|intros; right; eauto]]. split.
  - intros k i [[= -> ->]|?]%elem_of_cons; [left|right; eauto].
  - intros i m H1 H2. destruct (decide (Z.to_nat id = i)) as [<-|Hne].
    + apply lookup_lt_Some in H2 as Hlt. rewrite length_insert in Hlt. rewrite list_lookup_insert_eq in H2 by done. injection H2 as <-. left.
    + rewrite list_lookup_insert_ne in H1 by done. rewrite list_lookup_insert_ne in H2 by done. right. eauto.
Qed.

Lemma told_leave hist p d l v : told hist p -> wf (StoreSet.set_list (StoreSet.set_LFST p (StoreSet.LFST p) v) l) d -> l ⊆ StoreSet.storeList p ->
  (forall i, v !! i = Some true -> StoreSet.validLFST p !! i = Some true) -> told hist (StoreSet.set_list (StoreSet.set_LFST p (StoreSet.LFST p) v) l).
Proof. intros (_ & Hl & Hv) Hw Hs Hi. split; [by exists d|]. split; simpl; [intros k i Hk%Hs; eauto|eauto]. Qed.

#[export] Instance store_set_laws : MemDepPredLaws StoreSet.t.
Proof.
  refine {| dp_ok := told |}.
  - intros hist hist' p (Hw & Hl & Hv) Hs. split; [done|]. split; intros; apply Hs; eauto.
  - intros hist p st ld ([d Hw] & Hl & Hv) Hst Hld. destruct (violation_ok p d st ld Hw Hst Hld) as (p' & E & Hw' & _ & _ & _ & _ & l & v & ->).
    eexists. split; [exact E|]. split; [by exists d|done].
  - apply told_insert.
  - intros hist p pc ([d Hw] & Hl & Hv) Hpc. eexists. split; [by eapply checkInst_eq|].
    destruct (lookup_index p d pc Hw Hpc) as (v & id & _ & _ & Hid & ->). destruct v; [|by left].
    destruct (StoreSet.validLFST p !! Z.to_nat id) as [[]|] eqn:Ev; [|by left..]. destruct (StoreSet.LFST p !! Z.to_nat id) as [n|] eqn:En; [|by left]. right. eauto.
  - intros hist p pc n [] Ht Hpc; [|by exists p]. pose proof Ht as ([d Hw] & _). destruct (issued_ok p d pc n Hw Hpc) as (v & E & Hw' & Ev). eexists. split; [exact E|].
    apply (told_leave hist p (n :: d)); [done|done|by intros x [_ ?]%list_elem_of_filter|]. intros i Hi. rewrite Ev in Hi.
    destruct (set_of p pc) as [id|]; [|done]. case_bool_decide; [|done]. destruct (decide (Z.to_nat id = i)) as [<-|]; [|by rewrite list_lookup_insert_ne in Hi].
    apply lookup_lt_Some in Hi as Hlt. rewrite length_insert in Hlt. by rewrite list_lookup_insert_eq in Hi.
  - intros hist p n tid Ht. pose proof Ht as ([d Hw] & _). destruct (set_squash_loop_ok (length (StoreSet.storeList p)) p d n Hw) as (v & E & Hw' & _ & Hv); [lia|].
    eexists. split; [exact E|]. apply (told_leave hist p d); [done|done|by intros x [_ ?]%list_elem_of_filter|]. intros i Hi. rewrite Hv in Hi.
    destruct (StoreSet.validLFST p !! i) as [[]|]; done.
  - intros hist p ([d Hw] & _). split; [exists d; by apply wf_clear|]. simpl. split; [intros k i Hk; by apply not_elem_of_nil in Hk|].
    intros i n Hv _. apply lookup_replicate in Hv as [[=] _].
Defined.

(** ** Runs *)
Inductive op :=
| Insert (x : Z) | NonSpec (x : Z) | Barrier (x : Z) | Regs (x : Z) | NonSpecReady (x : Z) | Issue (x : Z)
| Reschedule (x : Z) | Replay | Complete (x : Z) | Squash (n : Z) | Violation (store load : Z).

Section runs.
Context {P : Type} `{MemDepPredLaws P}.
Variables (V : gmap Z MemInst) (tid : Z).

Definition exec (u : t P) (o : op) : res (t P) :=
  match o with
  | Insert x => insert u x
  | NonSpec x => insertNonSpec u x
  | Barrier x => insertBarrier u x
  | Regs x => regsReady u x
  | NonSpecReady x => nonSpecInstReady u x
  | Issue x => issue u x
  | Reschedule x => Ok (reschedule u x)
  | Replay => replay u
  | Complete x => complete u x
  | Squash n => squash u n tid
  | Violation st ld => violation u st ld
  end.

(** What the run says of the instructions: the last number inserted, and the
    non-speculative ones. *)
Definition note (g : Z * list Z) (o : op) : Z * list Z :=
  match o with
  | Insert x => (sq V x, g.2)
  | NonSpec x | Barrier x => (sq V x, x :: g.2)
  | _ => g
  end.

Definition member (u : t P) (x : Z) : Prop := exists l, instList u !! Z.to_nat tid = Some l /\ x ∈ l.

(** What the instruction queue guarantees: instructions of the thread arrive in
    program order, and only those that are non-speculative or were handed over
    are issued, replayed and completed, barriers oldest first. *)
Definition allowed (u : t P) (g : Z * list Z) (o : op) : Prop :=
  match o with
  | Insert x | NonSpec x => exists i, arrives V tid g.1 x i /\ isMemRef i = true /\ isLoad i || isStore i = true
  | Barrier x => exists i, arrives V tid g.1 x i /\ isMemRef i = false /\ isMemBarrier i || isWriteBarrier i = true
  | Regs x | Issue x => member u x
  | NonSpecReady x => member u x /\ x ∈ g.2
  | Reschedule x => member u x /\ (x ∈ g.2 \/ x ∈ ready u)
  | Complete x => member u x /\ (x ∈ g.2 \/ x ∈ ready u) /\ x ∉ instsToReplay u /\
      exists i, V !! x = Some i /\ isMemRef i || (isMemBarrier i || isWriteBarrier i) = true /\
        (isMemRef i = false -> forall y j, member u y -> V !! y = Some j -> isMemRef j = false -> y <> x -> sq V x < sq V y)
  | Violation st ld => exists i j, V !! st = Some i /\ V !! ld = Some j /\ 0 <= PC i /\ 0 <= PC j
  | Replay | Squash _ => True
  end.

Fixpoint run (u : t P) (ops : list op) : res (t P) := match ops with [] => Ok u | o :: ops => u ← exec u o; run u ops end.
Fixpoint allowed_run (u : t P) (g : Z * list Z) (ops : list op) : Prop :=
  match ops with [] => True | o :: ops => allowed u g o /\ forall u', exec u o = Ok u' -> allowed_run u' (note g o) ops end.

Lemma member_al u al N Q last x : inv V tid u al N Q last -> member u x -> exists e, (x, e) ∈ al.
Proof. intros Hi (l & El & Hx). rewrite (v_list _ _ _ _ _ _ _ Hi) in El. injection El as <-. by apply in_fst. Qed.

Lemma exec_inv u al N Q last o : inv V tid u al N Q last -> allowed u (last, N) o ->
  exists u' al' Q', exec u o = Ok u' /\ inv V tid u' al' (note (last, N) o).2 Q' (note (last, N) o).1.
Proof.
  intros Hi Ha. destruct o as [x|x|x|x|x|x|x| |x|n|st ld]; cbn [exec note allowed fst snd] in *.
  - destruct Ha as (i & Ha & Hm & Hk). destruct (unit_insert_ok V tid u al N Q last x i Hi Ha Hm Hk) as (u' & E & Hi'). eauto.
  - destruct Ha as (i & Ha & Hm & Hk). destruct (insertNonSpec_ok V tid u al N Q last x i Hi Ha Hm Hk) as (u' & E & Hi'). eauto.
  - destruct Ha as (i & Ha & Hm & Hk). destruct (insertBarrier_ok V tid u al N Q last x i Hi Ha Hm Hk) as (u' & E & Hi'). eauto.
  - destruct (member_al _ _ _ _ _ _ Hi Ha) as (e & Hx). destruct (regsReady_ok V tid u al N Q last x e Hi Hx) as (u' & E & Hi'). eauto.
  - destruct Ha as [Ha HN]. destruct (member_al _ _ _ _ _ _ Hi Ha) as (e & Hx).
    destruct (nonSpecInstReady_ok V tid u al N Q last x e Hi Hx (or_introl HN)) as (u' & E & Hi' & _). eauto.
  - destruct (member_al _ _ _ _ _ _ Hi Ha) as (e & Hx). destruct (issue_inv V tid u al N Q last x e Hi Hx) as (u' & E & Hi' & _). eauto.
  - destruct Ha as [Ha HN]. destruct (member_al _ _ _ _ _ _ Hi Ha) as (e & Hx). exists (reschedule u x), al, Q. split; [done|]. apply inv_replay; [done|].
    intros y [Hy|Hy]%elem_of_app; [by apply (v_replay _ _ _ _ _ _ _ Hi)|]. apply list_elem_of_singleton in Hy as ->. split; [apply list_elem_of_fmap; by exists (x, e)|done].
  - destruct (replay_loop_ok V tid (instsToReplay u) u al N Q last Hi eq_refl) as (u' & E & Hi' & _). eauto.
  - destruct Ha as (Ha & HN & Hr & i & Hv & Hk & Ho). destruct (member_al _ _ _ _ _ _ Hi Ha) as (e & Hx).
    destruct (complete_ok V tid u al N Q last x e i Hi Hx Hv Hk HN Hr) as (u' & E & Hi'); [|eauto]. intros Hm y k j Hy Hj Hmj Hne. apply (Ho Hm y j); try done.
    exists al.*1. split; [apply Hi|]. apply list_elem_of_fmap. by exists (y, k).
  - destruct (squash_ok V tid u al N Q last n Hi) as (u' & E & Hi' & _). eauto.
  - destruct Ha as (i & j & Hs & Hl & P1 & P2). destruct (violation_inv V tid u al N Q last st ld i j Hi Hs Hl P1 P2) as (u' & E & Hi' & _). eauto.
Qed.

Lemma run_inv ops u al g Q : inv V tid u al g.2 Q g.1 -> allowed_run u g ops ->
  exists u' al' Q', run u ops = Ok u' /\ inv V tid u' al' (foldl note g ops).2 Q' (foldl note g ops).1.
Proof.
  revert u al g Q. induction ops as [|o ops IH]; intros u al [last N] Q Hi Ha; [eauto|]. destruct Ha as [Ha Hr].
  destruct (exec_inv u al N Q last o Hi Ha) as (u1 & al1 & Q1 & E1 & Hi1). destruct (IH u1 al1 (note (last, N) o) Q1 Hi1 (Hr u1 E1)) as (u' & al' & Q' & E' & Hi').
  exists u', al', Q'. cbn [run foldl]. by rewrite E1, bind_Ok.
Qed.

Lemma unit_new_inv m p n : norm <$> m = V -> 0 <= tid < Z.of_nat n -> dp_ok [] p -> inv V tid (new m p n) [] [] [] 0.
Proof.
  intros Hm Ht Hp. constructor; try done; simpl; try (intros; by set_solver).
  - apply lookup_replicate. split; [done|lia].
  - constructor.
Qed.

(** ** What the unit promises *)

(** The entry of instruction [x]. *)
Definition entry_of (u : t P) (x : Z) : option MemDepEntry := e ← memDepHash u !! sq V x; entries u !! e.

(** [x] waits for no other memory instruction: it is non-speculative, it has been
    handed to the instruction queue, or only its registers are missing. *)
Definition free (u : t P) (N : list Z) (x : Z) : Prop :=
  x ∈ N \/ x ∈ ready u \/ exists E, entry_of u x = Some E /\ memDepReady E = true /\ regsReady_ E = false.

(** The completion of [y] will wake [x]. *)
Definition held_by (u : t P) (x y : Z) : Prop :=
  exists d E, memDepHash u !! sq V x = Some d /\ entry_of u y = Some E /\ d ∈ dependInsts E.

Lemma inv_promise u al N Q last x : inv V tid u al N Q last -> member u x ->
  free u N x \/ (x ∉ ready u /\ exists y i, member u y /\ V !! y = Some i /\ wakes i = true /\ sq V y < sq V x /\ held_by u x y).
Proof.
  intros Hi Hx. destruct (member_al _ _ _ _ _ _ Hi Hx) as (d & Hd). destruct (v_entry _ _ _ _ _ _ _ Hi x d Hd) as (D & HD & Ex & _ & Es).
  pose proof (hash_al _ _ _ _ _ _ _ _ _ Hi Hd) as Hh. assert (Eo : entry_of u x = Some D) by (unfold entry_of; by rewrite Hh).
  destruct (v_state _ _ _ _ _ _ _ Hi x d D Hd HD) as [?|[?|[?|(y & e & E & Hy & HE & Hde)]]]; [left; by left|left; right; by left|left; right; right; eauto|right].
  destruct (v_deps _ _ _ _ _ _ _ Hi y e E d Hy HE Hde) as (D' & HD' & HDs). assert (D' = D) as -> by congruence.
  destruct HDs as [?|(_ & _ & Hlt & _ & Hr)]; [congruence|]. rewrite Ex in Hlt, Hr. split; [done|].
  destruct (v_wakes _ _ _ _ _ _ _ Hi y e E d Hy HE Hde) as (i & Hv & Hw). exists y, i. split_and!; try done.
  - exists al.*1. split; [apply Hi|]. apply list_elem_of_fmap. by exists (y, e).
  - exists d, E. split_and!; try done. unfold entry_of. by rewrite (hash_al _ _ _ _ _ _ _ _ _ Hi Hy).
Qed.

Lemma unit_inv_head u al N Q last x l : inv V tid u al N Q last -> instList u !! Z.to_nat tid = Some (x :: l) -> free u N x.
Proof.
  intros Hi El. destruct (inv_promise u al N Q last x Hi) as [?|(_ & y & i & (l' & El' & Hy) & _ & _ & Hlt & _)]; [exists (x :: l); split; [done|left]|done|].
  rewrite El in El'. injection El' as <-. pose proof (v_sorted _ _ _ _ _ _ _ Hi) as Hs. rewrite (v_list _ _ _ _ _ _ _ Hi) in El. injection El as El.
  destruct al as [|[x0 e0] al]; [done|]. injection El as -> <-. apply StronglySorted_inv in Hs as [_ Hs]. apply elem_of_cons in Hy as [->|Hy]; [lia|].
  apply in_fst in Hy as (e & Hy). rewrite Forall_forall in Hs. specialize (Hs _ Hy). simpl in Hs. lia.
Qed.

(** ** Theorems *)

(** C16. No wake-up is lost.  Whatever the instruction queue does with the unit within
    its own guards (insert, make ready, issue, reschedule, replay, complete,
    squash, report violations), with any predictor that keeps the laws of
    [MemDepPred], every operation succeeds.  In the state reached an instruction is
    either free — non-speculative, handed to the queue, or waiting for its
    registers only — or it has not been handed over and an older store or barrier,
    itself in the unit, holds it and will wake it; the oldest instruction of the
    unit is always free, so the unit cannot deadlock. *)
Theorem no_lost_wakeup m p n ops : norm <$> m = V -> 0 <= tid < Z.of_nat n -> dp_ok [] p -> allowed_run (new m p n) (0, []) ops ->
  let N := (foldl note (0, []) ops).2 in
  exists u, run (new m p n) ops = Ok u /\
    (forall x, member u x -> free u N x \/
       (x ∉ ready u /\ exists y i, member u y /\ V !! y = Some i /\ wakes i = true /\ sq V y < sq V x /\ held_by u x y)) /\
    forall x l, instList u !! Z.to_nat tid = Some (x :: l) -> free u N x.
Proof.
  intros Hm Ht Hp Ha N. destruct (run_inv ops (new m p n) [] (0, []) [] (unit_new_inv m p n Hm Ht Hp) Ha) as (u & al & Q & E & Hi). exists u. split; [done|]. split.
  - intros x Hx. by eapply inv_promise.
  - intros x l El. by eapply unit_inv_head.
Qed.
End runs.

(** A load, a store and a barrier of thread 0, the load ready to issue. *)
Definition code : gmap Z MemInst := {[
  1 := mkInst (DynInst.mk 1 0 0) 8 true false true false false;
  2 := mkInst (DynInst.mk 2 0 32) 4 true true false false false;
  3 := mkInst (DynInst.mk 3 0 0) 12 false false false true false;
  4 := mkInst (DynInst.mk 4 0 32) 16 true true false false false ]}.


Lemma small_told : told [] small.
Proof.
  split; [exists []; apply (tr_wf _ ([], []) 0), (new_tracked 4 2); [lia|lia|reflexivity]|]. split; [intros k i Hk; by apply not_elem_of_nil in Hk|].
  intros i n Hv _. destruct i as [|[|i]]; discriminate.
Qed.

(** The store conflicts with the load, so the load waits for it; the barrier
    holds the second load. *)
Lemma no_lost_wakeup_witness : exists u, run 0 (new code small 1) [Violation 1 2; Insert 1; Insert 2; Barrier 3; Insert 4] = Ok u /\
  ready u = [] /\ member 0 u 4.
Proof.
  destruct (no_lost_wakeup (norm <$> code) 0 code small 1 [Violation 1 2; Insert 1; Insert 2; Barrier 3; Insert 4]) as (u & E & _); [reflexivity|lia|..].
  - apply small_told.
  - cbn [allowed_run allowed]. repeat (split; [|intros u' E; vm_compute in E; injection E as <-]); try done.
    1: do 2 eexists; split_and!; try reflexivity; done.
    all: eexists; split_and!; [split_and!; [reflexivity|reflexivity|done|done]|reflexivity|reflexivity].
  - exists u. split; [exact E|]. vm_compute in E. injection E as <-. split; [reflexivity|]. eexists. split; [reflexivity|]. set_solver.
Defined.

(** ** Squashed barriers *)
Section barriers.
Context {P : Type} `{MemDepPredLaws P}.
Variables (V : gmap Z MemInst) (tid : Z).

Lemma squash_loop_barrier l (u u' : t P) n : squash_loop u l n tid = Ok u' ->
  loadBarrier u' = loadBarrier u /\ loadBarrierSN u' = loadBarrierSN u /\ insts u' = insts u /\ fresh u' = fresh u.
Proof.
  revert u. induction l as [|x l IH]; intros u Hs; [by injection Hs as <-|]. cbn [squash_loop] in Hs. apply res_bind_Ok in Hs as (i & _ & Hs).
  destruct (n <? seq i); [|by injection Hs as <-]. apply res_bind_Ok in Hs as (e & _ & Hs). apply res_bind_Ok in Hs as (u1 & Hu & Hs).
  unfold upd_entry in Hu. apply res_bind_Ok in Hu as (E & _ & [= <-]). apply res_bind_Ok in Hs as (ls & _ & Hs). by apply IH in Hs.
Qed.

Lemma squash_barrier (u u' : t P) n : squash u n tid = Ok u' ->
  loadBarrier u' = loadBarrier u /\ loadBarrierSN u' = loadBarrierSN u /\ insts u' = insts u /\ fresh u' = fresh u.
Proof.
  unfold squash. intros Hs. apply res_bind_Ok in Hs as (r & _ & Hs). apply res_bind_Ok in Hs as (l & _ & Hs). apply res_bind_Ok in Hs as (u1 & Hl & Hs).
  apply res_bind_Ok in Hs as (p & _ & [= <-]). by apply squash_loop_barrier in Hl.
Qed.

Lemma insertBarrier_flags (u u' : t P) b i : insertBarrier u b = Ok u' -> insts u !! b = Some i -> isMemBarrier i = true ->
  loadBarrier u' = true /\ loadBarrierSN u' = seq i /\ insts u' = insts u.
Proof.
  unfold insertBarrier, get_inst. intros Hs Hb Hm. rewrite Hb in Hs. simpl in Hs. rewrite Hm in Hs. apply res_bind_Ok in Hs as ([e u1] & Ha & [= <-]).
  unfold add_entry in Ha. apply res_bind_Ok in Ha as (l & _ & Ha). by apply res_bind_Ok in Ha as (ls & _ & [= _ <-]).
Qed.

(** A load that is inserted while the last load barrier is one that the hash does
    not know goes straight to the instruction queue. *)
Lemma insert_past_barrier (u u' : t P) x i : insert u x = Ok u' -> insts u !! x = Some i -> isLoad i = true -> loadBarrier u = true ->
  memDepHash u !! loadBarrierSN u = None -> loadBarrierSN u <> seq i -> DynInst.has (dyn i) DynInst.CanIssue = true -> x ∈ ready u'.
Proof.
  unfold insert, get_inst. intros Hs Hx Hl Hb Hh Hne Hc. rewrite Hx in Hs. cbn [deref] in Hs. rewrite bind_Ok in Hs.
  apply res_bind_Ok in Hs as ([e u1] & Ha & Hs). unfold add_entry in Ha. apply res_bind_Ok in Ha as (l & _ & Ha). apply res_bind_Ok in Ha as (ls & _ & Ha).
  injection Ha as <- Ha. apply res_bind_Ok in Hs as (q & Hq & Hs). unfold producer in Hq. rewrite Hl in Hq.
  assert (loadBarrier u1 = true) as Hb1 by by rewrite <- Ha. rewrite Hb1 in Hq. injection Hq as <-.
  assert ((if loadBarrierSN u1 =? 0 then None else memDepHash u1 !! loadBarrierSN u1) = None) as E.
  { destruct (_ =? 0); [done|]. rewrite <- Ha. simpl. destruct (memDepHash u !! seq i); [done|]. by rewrite lookup_insert_ne by congruence. }
  rewrite E, Hc in Hs. apply res_bind_Ok in Hs as (u4 & Hs & Hp). apply res_bind_Ok in Hs as (u2 & H2 & Hs). apply res_bind_Ok in Hs as (u3 & H3 & Hs).
  assert (x ∈ ready u4) as Hr.
  { unfold moveToReady in Hs. apply res_bind_Ok in Hs as (E3 & HE3 & Hs). apply res_bind_Ok in Hs as (_ & _ & [= <-]). simpl.
    assert (inst E3 = x) as <-; [|set_solver]. unfold upd_entry, get_entry in H2, H3, HE3. subst u1. cbn [entries] in H2. rewrite lookup_insert_eq in H2. injection H2 as <-.
    cbn [entries set_entries] in H3. rewrite lookup_insert_eq in H3. injection H3 as <-. cbn [entries set_entries] in HE3. rewrite lookup_insert_eq in HE3. by injection HE3 as <-. }
  unfold insert_pred in Hp. destruct (isStore i); [by apply res_bind_Ok in Hp as (p & _ & [= <-])|]. rewrite Hl in Hp. by injection Hp as <-.
Qed.

(** A squashed barrier hides the ones before it.  After a memory barrier [b] has
    been inserted and squashed, the next load that has its registers is handed to
    the instruction queue at once, although every older instruction — a memory
    barrier among them — is still in the unit. *)
Theorem squashed_barrier_hides_older u al N Q last b ib x i n : inv V tid u al N Q last -> arrives V tid last b ib -> isMemRef ib = false -> isMemBarrier ib = true ->
  last <= n < sq V b -> arrives V tid (sq V b) x (norm i) -> insts u !! x = Some i -> isMemRef i = true -> isLoad i = true -> DynInst.has (dyn i) DynInst.CanIssue = true ->
  exists u1 u2 u3, insertBarrier u b = Ok u1 /\ squash u1 n tid = Ok u2 /\ insert u2 x = Ok u3 /\
    x ∈ ready u3 /\ instList u3 !! Z.to_nat tid = Some (al.*1 ++ [x]).
Proof.
  intros Hi Hb Hmb Hbb Hn Hx Hix Hmx Hlx Hcx. destruct (insertBarrier_ok V tid u al N Q last b ib Hi Hb Hmb) as (u1 & E1 & Hi1); [by rewrite Hbb|].
  destruct (get_inst_V V u b ib (v_insts _ _ _ _ _ _ _ Hi) (proj1 Hb)) as (jb & Ejb & Enb). unfold get_inst in Ejb. destruct (insts u !! b) as [jb'|] eqn:Eb; [|done]. injection Ejb as ->.
  destruct (insertBarrier_flags u u1 b jb E1 Eb) as (F1 & F2 & F3); [by subst ib|]. assert (Esb : seq jb = sq V b) by (rewrite (sq_V _ _ _ (proj1 Hb)); by subst ib).
  destruct (squash_ok V tid u1 _ _ _ _ n Hi1) as (u2 & E2 & Hi2 & _). destruct (squash_barrier u1 u2 n E2) as (G1 & G2 & G3 & _).
  assert (Eal : filter (fun a => sq V a.1 <= n) (al ++ [(b, fresh u)]) = al).
  { rewrite filter_app, filter_cons_False, app_nil_r by (simpl; lia). apply filter_all. intros [y e] Hy. pose proof (known_last V tid _ _ _ _ (v_known _ _ _ _ _ _ _ Hi y e Hy)). simpl. lia. }
  rewrite Eal in Hi2. destruct (unit_insert_ok V tid u2 al _ _ _ x (norm i) Hi2 Hx Hmx) as (u3 & E3 & Hi3); [by apply orb_true_iff; left|].
  exists u1, u2, u3. split_and!; try done.
  - apply (insert_past_barrier u2 u3 x i E3); [by rewrite G3, F3|done|by rewrite G1| | |done]; rewrite G2, F2, Esb.
    + destruct (memDepHash u2 !! sq V b) as [e|] eqn:Eh; [|done]. apply (v_hash _ _ _ _ _ _ _ Hi2) in Eh as (y & Hy & Ey).
      pose proof (known_last V tid _ _ _ _ (v_known _ _ _ _ _ _ _ Hi y e Hy)). lia.
    + destruct Hx as (Hvx & _ & _ & Hlt). rewrite (sq_V _ _ _ Hvx) in Hlt. change (seq (norm i)) with (seq i) in Hlt. lia.
  - rewrite (v_list _ _ _ _ _ _ _ Hi3), fmap_app. done.
Qed.
End barriers.

Definition barriers : gmap Z MemInst := {[
  1 := mkInst (DynInst.mk 1 0 0) 8 false false false true false;
  2 := mkInst (DynInst.mk 2 0 0) 12 false false false true false;
  3 := mkInst (DynInst.mk 3 0 32) 16 true true false false false ]}.

Lemma squashed_barrier_hides_older_witness : exists u u1 u2 u3, insertBarrier (new barriers small 1) 1 = Ok u /\ insertBarrier u 2 = Ok u1 /\ squash u1 1 0 = Ok u2 /\
  insert u2 3 = Ok u3 /\ 3 ∈ ready u3 /\ instList u3 !! 0%nat = Some [1; 3].
Proof.
  destruct (insertBarrier_ok (norm <$> barriers) 0 (new barriers small 1) [] [] [] 0 1 (mkInst (DynInst.mk 1 0 0) 8 false false false true false)) as (u & E & Hi).
  - by apply unit_new_inv; [|lia|apply small_told].
  - split_and!; [reflexivity|reflexivity|done|done].
  - reflexivity.
  - reflexivity.
  - assert (Hins : insts u = barriers) by (vm_compute in E; injection E as <-; reflexivity).
    destruct (squashed_barrier_hides_older (norm <$> barriers) 0 u _ _ _ _ 2 (mkInst (DynInst.mk 2 0 0) 12 false false false true false) 3
      (mkInst (DynInst.mk 3 0 32) 16 true true false false false) 1 Hi) as (u1 & u2 & u3 & E1 & E2 & E3 & H4 & H5).
    + split_and!; [reflexivity|reflexivity|done|done].
    + reflexivity.
    + reflexivity.
    + done.
    + split_and!; [reflexivity|reflexivity|done|done].
    + by rewrite Hins.
    + reflexivity.
    + reflexivity.
    + reflexivity.
    + exists u, u1, u2, u3. split_and!; done.
Defined.
