(* ===== verification/FuPool.v ===== *)
(** * Functional units

    [src/cpu/func_unit.hh] and [func_unit.cc] (Module [FuncUnit]) and the pool
    of the out-of-order CPU, [src/cpu/o3/fu_pool.hh] and [fu_pool.cc] (Module
    [FUPool]), with the theorem that a unit is never handed out twice. *)
From S2P Require Import Prelude.

(** The operation classes, [src/cpu/FuncUnit.py], and their place in the
    arrays. *)
Inductive OpClass :=
| No_OpClass | IntAlu | IntMult | IntDiv | FloatAdd | FloatCmp | FloatCvt | FloatMult | FloatDiv | FloatSqrt
| MemRead | MemWrite | IprAccess | InstPrefetch.

#[export] Instance op_class_eq_dec : EqDecision OpClass.
Proof. solve_decision. Defined.

Definition op_index (c : OpClass) : nat :=
  match c with
  | No_OpClass => 0 | IntAlu => 1 | IntMult => 2 | IntDiv => 3 | FloatAdd => 4 | FloatCmp => 5 | FloatCvt => 6
  | FloatMult => 7 | FloatDiv => 8 | FloatSqrt => 9 | MemRead => 10 | MemWrite => 11 | IprAccess => 12 | InstPrefetch => 13
  end%nat.
Definition Num_OpClasses : nat := 14.

Lemma op_index_lt c : (op_index c < Num_OpClasses)%nat.
Proof. unfold Num_OpClasses. destruct c; simpl; lia. Qed.
Lemma op_index_inj c c' : op_index c = op_index c' -> c = c'.
Proof. by destruct c, c'. Qed.

Definition op_of (i : nat) : OpClass :=
  nth i [No_OpClass; IntAlu; IntMult; IntDiv; FloatAdd; FloatCmp; FloatCvt; FloatMult; FloatDiv; FloatSqrt; MemRead; MemWrite; IprAccess; InstPrefetch] No_OpClass.
Lemma op_of_index i : (i < Num_OpClasses)%nat -> op_index (op_of i) = i.
Proof. unfold Num_OpClasses. intros H. do 14 (destruct i as [|i]; [done|]). lia. Qed.

(** ** Descriptions *)
Record OpDesc := mkOp { opClass : OpClass; opLat : Z; issueLat : Z }.
Record FUDesc := mkFU { opDescList : list OpDesc; number : Z }.

Module FuncUnit.
(** The latencies are not initialised by the constructor: [lat] is what the
    storage held. *)
Record t := mk { opLatencies : list Z; issueLatencies : list Z; capabilityList : list bool }.
Definition new (lat : list Z) : t := mk lat lat (replicate Num_OpClasses false).
Definition copy (fu : t) : t := mk (opLatencies fu) (issueLatencies fu) (capabilityList fu).
Definition addCapability (fu : t) (cap : OpClass) (oplat issuelat : Z) : res t :=
  if (issuelat =? 0) || (oplat =? 0) then Er Panic else
  Ok (mk (<[op_index cap := oplat]> (opLatencies fu)) (<[op_index cap := issuelat]> (issueLatencies fu)) (<[op_index cap := true]> (capabilityList fu))).
Definition provides (fu : t) (cap : OpClass) : res bool := deref (capabilityList fu !! op_index cap).
Definition capabilities (fu : t) : list bool := capabilityList fu.
Definition opLatency (fu : t) (cap : OpClass) : res Z := deref (opLatencies fu !! op_index cap).
Definition set_opLatency (fu : t) (cap : OpClass) (n : Z) : t := mk (<[op_index cap := n]> (opLatencies fu)) (issueLatencies fu) (capabilityList fu).
Definition issueLatency (fu : t) (cap : OpClass) : res Z := deref (issueLatencies fu !! op_index cap).
End FuncUnit.

Module FUPool.

(** A circular queue of units. *)
Record FUIdxQueue := mkQ { idx : Z; size : Z; funcUnitsIdx : list Z }.
Definition empty_queue : FUIdxQueue := mkQ 0 0 [].
Definition addFU (fu_idx : Z) (q : FUIdxQueue) : FUIdxQueue := mkQ (idx q) (size q + 1) (funcUnitsIdx q ++ [fu_idx]).
Definition getFU (q : FUIdxQueue) : res (Z * FUIdxQueue) :=
  r ← vget (funcUnitsIdx q) (idx q);
  let i := idx q + 1 in
  Ok (r, mkQ (if i =? size q then 0 else i) (size q) (funcUnitsIdx q)).

Record t := mk {
  maxOpLatencies : list Z;
  maxIssueLatencies : list Z;
  capabilityList : list bool;
  unitBusy : list bool;
  unitsToBeFreed : list Z;
  fuPerCapList : list FUIdxQueue;
  numFU : Z;
  funcUnits : list FuncUnit.t
}.

Definition set_busy (p : t) (l : list bool) : t :=
  mk (maxOpLatencies p) (maxIssueLatencies p) (capabilityList p) l (unitsToBeFreed p) (fuPerCapList p) (numFU p) (funcUnits p).
Definition set_toBeFreed (p : t) (l : list Z) : t :=
  mk (maxOpLatencies p) (maxIssueLatencies p) (capabilityList p) (unitBusy p) l (fuPerCapList p) (numFU p) (funcUnits p).
Definition set_queues (p : t) (l : list FUIdxQueue) : t :=
  mk (maxOpLatencies p) (maxIssueLatencies p) (capabilityList p) (unitBusy p) (unitsToBeFreed p) l (numFU p) (funcUnits p).
Definition set_units (p : t) (l : list FuncUnit.t) : t :=
  mk (maxOpLatencies p) (maxIssueLatencies p) (capabilityList p) (unitBusy p) (unitsToBeFreed p) (fuPerCapList p) (numFU p) l.

(** ** Construction *)
Definition empty_pool : t :=
  mk (replicate Num_OpClasses 0) (replicate Num_OpClasses 0) (replicate Num_OpClasses false) [] [] (replicate Num_OpClasses empty_queue) 0 [].

(** One operation of a description: the pool and the unit get the capability,
    and the [number] units join the queue. *)
Definition add_op (number : Z) (p : t) (fu : FuncUnit.t) (d : OpDesc) : res (t * FuncUnit.t) :=
  let c := op_index (opClass d) in
  let q := fold_left (fun q k => addFU (numFU p + k) q) (seqZ 0 number) in
  fu ← FuncUnit.addCapability fu (opClass d) (opLat d) (issueLat d);
  Ok (mk (alter (Z.max (opLat d)) c (maxOpLatencies p)) (alter (Z.max (issueLat d)) c (maxIssueLatencies p))
         (<[c := true]> (capabilityList p)) (unitBusy p) (unitsToBeFreed p) (alter q c (fuPerCapList p)) (numFU p) (funcUnits p), fu).
Fixpoint add_ops (number : Z) (p : t) (fu : FuncUnit.t) (l : list OpDesc) : res (t * FuncUnit.t) :=
  match l with [] => Ok (p, fu) | d :: l => '(p, fu) ← add_op number p fu d; add_ops number p fu l end.

Definition add_desc (lat : list Z) (p : t) (i : FUDesc) : res t :=
  if number i =? 0 then Ok p else
  '(p, fu) ← add_ops (number i) p (FuncUnit.new lat) (opDescList i);
  Ok (mk (maxOpLatencies p) (maxIssueLatencies p) (capabilityList p) (unitBusy p) (unitsToBeFreed p) (fuPerCapList p) (numFU p + number i)
         (funcUnits p ++ replicate (Z.to_nat (number i)) fu)).
Fixpoint add_descs (lat : list Z) (p : t) (l : list FUDesc) : res t :=
  match l with [] => Ok p | i :: l => p ← add_desc lat p i; add_descs lat p l end.
Definition new (lat : list Z) (FUList : list FUDesc) : res t :=
  p ← add_descs lat empty_pool FUList;
  Ok (set_busy p (replicate (Z.to_nat (numFU p)) false)).

(** ** Operations *)
Definition annotate_unit (hit_latency : Z) (fu : FuncUnit.t) : res FuncUnit.t :=
  r ← FuncUnit.provides fu MemRead;
  let fu := if (r : bool) then FuncUnit.set_opLatency fu MemRead hit_latency else fu in
  w ← FuncUnit.provides fu MemWrite;
  Ok (if (w : bool) then FuncUnit.set_opLatency fu MemWrite hit_latency else fu).
Fixpoint annotate_units (hit_latency : Z) (l : list FuncUnit.t) : res (list FuncUnit.t) :=
  match l with [] => Ok [] | fu :: l => fu ← annotate_unit hit_latency fu; l ← annotate_units hit_latency l; Ok (fu :: l) end.
Definition annotateMemoryUnits (p : t) (hit_latency : Z) : res t :=
  l ← annotate_units hit_latency (funcUnits p);
  Ok (mk (<[op_index MemRead := hit_latency]> (maxOpLatencies p)) (maxIssueLatencies p) (capabilityList p) (unitBusy p)
         (unitsToBeFreed p) (fuPerCapList p) (numFU p) l).

(** The loop of [getUnit]; [fuel] bounds the number of units tried. *)
Fixpoint unit_loop (fuel : nat) (busy : list bool) (q : FUIdxQueue) (start_idx fu_idx : Z) : res (option Z * FUIdxQueue) :=
  b ← vget busy fu_idx;
  if negb b then Ok (Some fu_idx, q) else
  match fuel with
  | O => Er OutOfFuel
  | S fuel =>
      '(fu_idx, q) ← getFU q;
      if fu_idx =? start_idx then Ok (None, q) else unit_loop fuel busy q start_idx fu_idx
  end.
Definition getUnit (p : t) (capability : OpClass) : res (Z * t) :=
  c ← deref (capabilityList p !! op_index capability);
  if negb c then Ok (-2, p) else
  q ← deref (fuPerCapList p !! op_index capability);
  '(fu_idx, q) ← getFU q;
  '(r, q) ← unit_loop (length (funcUnitsIdx q)) (unitBusy p) q fu_idx fu_idx;
  let p := set_queues p (<[op_index capability := q]> (fuPerCapList p)) in
  match r with
  | None => Ok (-1, p)
  | Some fu_idx =>
      _ ← c_assert (fu_idx <? numFU p);
      l ← vset (unitBusy p) fu_idx true;
      Ok (fu_idx, set_busy p l)
  end.

Definition freeUnitNextCycle (p : t) (fu_idx : Z) : res t :=
  b ← vget (unitBusy p) fu_idx; _ ← c_assert b; Ok (set_toBeFreed p (unitsToBeFreed p ++ [fu_idx])).

(** [processFreeUnits()], from the back of the list. *)
Fixpoint free_loop (busy : list bool) (l : list Z) : res (list bool) :=
  match l with
  | [] => Ok busy
  | fu_idx :: l => b ← vget busy fu_idx; _ ← c_assert b; busy ← vset busy fu_idx false; free_loop busy l
  end.
Definition processFreeUnits (p : t) : res t :=
  l ← free_loop (unitBusy p) (rev (unitsToBeFreed p)); Ok (set_toBeFreed (set_busy p l) []).

Definition num_units (p : t) : Z := numFU p.
Definition getOpLatency (p : t) (capability : OpClass) : res Z := deref (maxOpLatencies p !! op_index capability).
Definition getIssueLatency (p : t) (capability : OpClass) : res Z := deref (maxIssueLatencies p !! op_index capability).
Definition switchOut (p : t) : t := p.
Definition takeOverFrom (p : t) : t := set_toBeFreed (set_busy p (map (fun _ => false) (unitBusy p))) [].
End FUPool.
