(* ===== verification/FuPoolTheorems.v ===== *)
(** * Theorems on the pool of functional units *)
From S2P Require Import Prelude FuPool.
Import FUPool.

(** ** The circular queues *)
Definition rot (q : FUIdxQueue) : list Z := drop (Z.to_nat (idx q)) (funcUnitsIdx q) ++ take (Z.to_nat (idx q)) (funcUnitsIdx q).

Record wfq (q : FUIdxQueue) : Prop := {
  q_size : size q = Z.of_nat (length (funcUnitsIdx q));
  q_idx : 0 <= idx q;
  q_in : funcUnitsIdx q <> [] -> idx q < size q
}.

Lemma getFU_rot q x r : wfq q -> rot q = x :: r -> exists q', getFU q = Ok (x, q') /\ wfq q' /\ funcUnitsIdx q' = funcUnitsIdx q /\ rot q' = r ++ [x].
Proof.
  intros [Hs Hi Hin] Hr. destruct q as [i n l]. unfold rot in Hr. simpl in *. assert (Hne : l <> []) by (intros ->; by rewrite drop_nil, take_nil in Hr).
  specialize (Hin Hne). destruct (lookup_lt_is_Some_2 l (Z.to_nat i)) as [y Hy]; [lia|]. rewrite (drop_S l y _ Hy) in Hr. injection Hr as -> <-.
  unfold getFU. simpl. assert (vget l i = Ok x) as -> by (by apply vget_Ok). rewrite bind_Ok. eexists. split; [done|]. pose proof (take_S_r l _ x Hy) as Ht.
  destruct (Z.eqb_spec (i + 1) n) as [E|].
  - split_and!; [split; simpl; try done; lia|done|]. unfold rot. simpl. rewrite drop_0, app_nil_r, drop_ge by lia. simpl. rewrite <- Ht. symmetry. apply take_ge. lia.
  - split_and!; [split; simpl; try done; lia|done|]. unfold rot. simpl. replace (Z.to_nat (i + 1)) with (S (Z.to_nat i)) by lia. by rewrite Ht, app_assoc.
Qed.

Lemma rot_perm q : rot q ≡ₚ funcUnitsIdx q.
Proof. unfold rot. rewrite Permutation_app_comm. by rewrite take_drop. Qed.

(** The scan visits the units in the order of the queue and takes the first
    that is not busy. *)
Lemma unit_loop_ok fuel busy q s cur l1 l2 : wfq q -> rot q = l1 ++ s :: l2 -> s ∉ l1 -> (length l1 < fuel)%nat ->
  Forall (fun k => exists b, vget busy k = Ok b) (cur :: l1) ->
  exists r q', unit_loop fuel busy q s cur = Ok (r, q') /\ wfq q' /\ funcUnitsIdx q' = funcUnitsIdx q /\
    match r with
    | Some k => k ∈ cur :: l1 /\ vget busy k = Ok false
    | None => Forall (fun k => vget busy k = Ok true) (cur :: l1)
    end.
Proof.
  revert q cur l1 l2. induction fuel as [|fuel IH]; intros q cur l1 l2 Hq Hr Hs Hf Hb; [lia|]. apply Forall_cons in Hb as [[b Eb] Hb]. cbn [unit_loop]. rewrite Eb, bind_Ok.
  destruct b; cbn [negb]; [|exists (Some cur), q; split_and!; try done; left].
  destruct l1 as [|a l1]; simpl in Hr.
  - destruct (getFU_rot q s l2 Hq Hr) as (q' & -> & Hq' & Eu & _). rewrite bind_Ok. simpl. rewrite Z.eqb_refl. exists None, q'. split_and!; try done. by constructor.
  - destruct (getFU_rot q a (l1 ++ s :: l2) Hq Hr) as (q' & -> & Hq' & Eu & Er). rewrite bind_Ok. simpl.
    destruct (Z.eqb_spec a s) as [->|]; [set_solver|]. simpl in Hf.
    destruct (IH q' a l1 (l2 ++ [a])) as (r & q'' & E & Hq'' & Eu' & Hres); [done|by rewrite Er, <- app_assoc|set_solver|lia|done|].
    exists r, q''. rewrite E. split_and!; [done|done|congruence|]. destruct r as [k|]; [|by constructor]. destruct Hres as [Hk ?]. split; [by right|done].
Qed.

(** ** The pool *)
Definition queue (p : t) (c : OpClass) : list Z := match fuPerCapList p !! op_index c with Some q => funcUnitsIdx q | None => [] end.
Definition provides (p : t) (k : Z) (c : OpClass) : Prop :=
  0 <= k /\ exists fu, funcUnits p !! Z.to_nat k = Some fu /\ FuncUnit.capabilityList fu !! op_index c = Some true.

Record wf (p : t) : Prop := {
  p_queue : forall c, exists q, fuPerCapList p !! op_index c = Some q /\ wfq q /\ NoDup (funcUnitsIdx q);
  p_cap : forall c, capabilityList p !! op_index c = Some (bool_decide (queue p c <> []));
  p_units : forall c k, k ∈ queue p c <-> provides p k c;
  p_num : numFU p = Z.of_nat (length (funcUnits p));
  p_busy : length (unitBusy p) = length (funcUnits p)
}.

Lemma unit_busy p c k : wf p -> k ∈ queue p c -> 0 <= k < numFU p /\ exists b, vget (unitBusy p) k = Ok b.
Proof.
  intros Hw Hk. apply (p_units _ Hw) in Hk as (H0 & fu & Hf & _). apply lookup_lt_Some in Hf. rewrite (p_num _ Hw). split; [lia|].
  destruct (vget_lt (unitBusy p) k) as (b & -> & _); [rewrite (p_busy _ Hw); lia|]. by exists b.
Qed.

Lemma wf_queues p c q q' l : wf p -> fuPerCapList p !! op_index c = Some q -> wfq q' -> funcUnitsIdx q' = funcUnitsIdx q -> length l = length (unitBusy p) ->
  wf (set_busy (set_queues p (<[op_index c := q']> (fuPerCapList p))) l) /\
  forall c', queue (set_busy (set_queues p (<[op_index c := q']> (fuPerCapList p))) l) c' = queue p c'.
Proof.
  intros Hw Hq Hq' Eu Hl.
  assert (EQ : forall c', queue (set_busy (set_queues p (<[op_index c := q']> (fuPerCapList p))) l) c' = queue p c').
  { intros c'. unfold queue. simpl. destruct (decide (c = c')) as [<-|Hne].
    - rewrite list_lookup_insert_eq by (by eapply lookup_lt_Some). by rewrite Hq.
    - by rewrite list_lookup_insert_ne by (intros E; by apply Hne, op_index_inj). }
  split; [|done]. constructor; simpl.
  - intros c'. destruct (p_queue _ Hw c') as (r & Hr & Hrw & Hrn). destruct (decide (c = c')) as [<-|Hne].
    + exists q'. rewrite list_lookup_insert_eq by (by eapply lookup_lt_Some). assert (r = q) as -> by congruence. by rewrite Eu.
    + exists r. by rewrite list_lookup_insert_ne by (intros E; by apply Hne, op_index_inj).
  - intros c'. rewrite EQ. apply Hw.
  - intros c' k. rewrite EQ. apply (p_units _ Hw).
  - apply Hw.
  - rewrite Hl. apply Hw.
Qed.

(** What [getUnit] returns. *)
Lemma getUnit_ok p c : wf p -> exists r p', getUnit p c = Ok (r, p') /\ wf p' /\ unitsToBeFreed p' = unitsToBeFreed p /\ (forall k c', provides p' k c' <-> provides p k c') /\
  ((r = -2 /\ p' = p /\ forall k, ~ provides p k c) \/
   (r = -1 /\ unitBusy p' = unitBusy p /\ (exists k, provides p k c) /\ forall k, provides p k c -> vget (unitBusy p) k = Ok true) \/
   (provides p r c /\ vget (unitBusy p) r = Ok false /\ unitBusy p' = <[Z.to_nat r := true]> (unitBusy p))).
Proof.
  intros Hw. unfold getUnit. rewrite (p_cap _ Hw c). cbn [deref]. rewrite bind_Ok. case_bool_decide as Hne; cbn [negb].
  2: { exists (-2), p. split_and!; try done. left. split_and!; try done. intros k Hk%(p_units _ Hw). destruct (queue p c); [by apply not_elem_of_nil in Hk|done]. }
  destruct (p_queue _ Hw c) as (q & Eq & Hq & Hnd). rewrite Eq. cbn [deref]. rewrite bind_Ok.
  assert (Equ : queue p c = funcUnitsIdx q) by (unfold queue; by rewrite Eq).
  destruct (rot q) as [|s r0] eqn:Er; [pose proof (rot_perm q) as Hp; rewrite Er in Hp; apply Permutation_nil_l in Hp; congruence|].
  destruct (getFU_rot q s r0 Hq Er) as (q1 & -> & Hq1 & Eu1 & Er1). rewrite bind_Ok.
  pose proof (rot_perm q) as Hp. rewrite Er in Hp. assert (Hnd' : NoDup (s :: r0)) by by rewrite Hp. apply NoDup_cons in Hnd' as [Hs _].
  assert (Hmem : forall k, k ∈ s :: r0 <-> provides p k c) by (intros k; by rewrite Hp, <- Equ, (p_units _ Hw)).
  assert (Hlen : (length r0 < length (funcUnitsIdx q1))%nat) by (rewrite Eu1; apply Permutation_length in Hp; simpl in Hp; lia).
  destruct (unit_loop_ok (length (funcUnitsIdx q1)) (unitBusy p) q1 s s r0 [] Hq1 Er1 Hs Hlen) as (r & q2 & -> & Hq2 & Eu2 & Hres).
  { apply Forall_forall. intros k Hk. apply (unit_busy p c k Hw). by apply (p_units _ Hw), Hmem. }
  rewrite bind_Ok. destruct r as [k|].
  - destruct Hres as [Hk Hb]. assert (Hkp : provides p k c) by by apply Hmem. destruct (unit_busy p c k Hw) as [Hkr _]; [by apply (p_units _ Hw)|].
    change (numFU (set_queues _ _)) with (numFU p). rewrite (proj2 (Z.ltb_lt _ _)) by lia. cbn [c_assert]. rewrite bind_Ok.
    cbn [set_queues unitBusy]. rewrite vset_lt, bind_Ok by (rewrite (p_busy _ Hw); rewrite (p_num _ Hw) in Hkr; lia).
    destruct (wf_queues p c q q2 (<[Z.to_nat k := true]> (unitBusy p)) Hw Eq Hq2) as [Hw' _]; [congruence|by rewrite length_insert|].
    eexists k, _. split; [done|]. split_and!; try done. right; right. done.
  - destruct (wf_queues p c q q2 (unitBusy p) Hw Eq Hq2) as [Hw' _]; [congruence|done|].
    eexists (-1), _. split; [done|]. split_and!; try done. right; left. split_and!; try done.
    + exists s. apply Hmem. left.
    + intros k Hk%Hmem. by rewrite Forall_forall in Hres; apply Hres.
Qed.

(** ** Construction *)
Lemma fold_addFU l n q : fold_left (fun q k => addFU (n + k) q) l q = mkQ (idx q) (size q + Z.of_nat (length l)) (funcUnitsIdx q ++ map (Z.add n) l).
Proof.
  revert q. induction l as [|k l IH]; intros q; simpl; [rewrite app_nil_r, Z.add_0_r; by destruct q|]. rewrite IH. simpl. rewrite <- app_assoc. simpl. f_equal. lia.
Qed.

(** The units [n], [n + 1], ... of one description. *)
Definition block (n m : Z) : list Z := map (Z.add n) (seqZ 0 m).

Lemma elem_block n m k : k ∈ block n m <-> n <= k < n + m.
Proof. unfold block. rewrite elem_of_map. split; [intros (x & -> & Hx%elem_of_seqZ); lia|]. intros Hk. exists (k - n). rewrite elem_of_seqZ. lia. Qed.
Lemma NoDup_block n m : NoDup (block n m).
Proof. unfold block. change (map (Z.add n)) with (fmap (M := list) (Z.add n)). apply NoDup_fmap_2; [intros x y; lia|apply NoDup_seqZ]. Qed.

Definition has_op (l : list OpDesc) (c : OpClass) : bool := bool_decide (c ∈ opClass <$> l).

Lemma has_op_cons d l c : has_op (d :: l) c = bool_decide (opClass d = c) || has_op l c.
Proof.
  unfold has_op. rewrite fmap_cons. case_bool_decide as H; symmetry; [apply elem_of_cons in H as [->|H]|].
  - by rewrite bool_decide_true.
  - by rewrite (bool_decide_true (_ ∈ _)), orb_true_r.
  - rewrite elem_of_cons in H. rewrite !bool_decide_false by naive_solver. done.
Qed.
Lemma has_op_insert (caps : list bool) d l c :
  (fun b => b || has_op l c) <$> <[op_index (opClass d) := true]> caps !! op_index c = (fun b => b || has_op (d :: l) c) <$> caps !! op_index c.
Proof.
  rewrite has_op_cons. destruct (decide (opClass d = c)) as [<-|Hne].
  - rewrite bool_decide_true by done. destruct (caps !! op_index (opClass d)) as [b|] eqn:Eb.
    + rewrite list_lookup_insert_eq by (by eapply lookup_lt_Some). simpl. by rewrite orb_true_r.
    + by rewrite list_insert_ge, Eb by (by apply lookup_ge_None).
  - rewrite list_lookup_insert_ne by (intros E; by apply Hne, op_index_inj). by rewrite bool_decide_false.
Qed.

Lemma add_ops_ok m l p fu p' fu' : 0 <= m -> NoDup (opClass <$> l) -> add_ops m p fu l = Ok (p', fu') ->
  numFU p' = numFU p /\ funcUnits p' = funcUnits p /\ unitBusy p' = unitBusy p /\ unitsToBeFreed p' = unitsToBeFreed p /\
  length (capabilityList p') = length (capabilityList p) /\ length (FuncUnit.capabilityList fu') = length (FuncUnit.capabilityList fu) /\
  (forall c, fuPerCapList p' !! op_index c = (fun q => if has_op l c then mkQ (idx q) (size q + m) (funcUnitsIdx q ++ block (numFU p) m) else q) <$> fuPerCapList p !! op_index c) /\
  (forall c, capabilityList p' !! op_index c = (fun b => b || has_op l c) <$> capabilityList p !! op_index c) /\
  (forall c, FuncUnit.capabilityList fu' !! op_index c = (fun b => b || has_op l c) <$> FuncUnit.capabilityList fu !! op_index c).
Proof.
  intros Hm. revert p fu. induction l as [|d l IH]; intros p fu Hnd H.
  - injection H as <- <-. split_and!; try done; intros c; [destruct (fuPerCapList p !! op_index c); done|destruct (capabilityList p !! op_index c) as [[]|]; done|destruct (FuncUnit.capabilityList fu !! op_index c) as [[]|]; done].
  - rewrite fmap_cons in Hnd. apply NoDup_cons in Hnd as [Hd Hnd]. cbn [add_ops] in H. apply res_bind_Ok in H as ([p1 fu1] & H1 & H). unfold add_op in H1.
    apply res_bind_Ok in H1 as (fu2 & Hfu & [= <- <-]). unfold FuncUnit.addCapability in Hfu. destruct ((issueLat d =? 0) || (opLat d =? 0)); [done|]. injection Hfu as <-.
    apply IH in H as (E1 & E2 & E3 & E4 & L1 & L2 & EQ & EC & EF); [|done]. simpl in *. rewrite length_insert in L1, L2. split_and!; try done.
    + intros c. rewrite EQ, has_op_cons. destruct (decide (opClass d = c)) as [<-|Hne].
      * rewrite list_lookup_alter_eq. destruct (fuPerCapList p !! op_index (opClass d)) as [q|]; [|done]. simpl. rewrite bool_decide_true by done. unfold has_op. rewrite bool_decide_false by done.
        rewrite fold_addFU, length_seqZ. simpl. do 2 f_equal. lia.
      * rewrite list_lookup_alter_ne by (intros E; by apply Hne, op_index_inj). by rewrite bool_decide_false.
    + intros c. rewrite EC. apply has_op_insert.
    + intros c. rewrite EF. apply has_op_insert.
Qed.

(** A pool under construction. *)
Record building (p : t) : Prop := {
  b_queue : forall c, exists q, fuPerCapList p !! op_index c = Some q /\ wfq q /\ NoDup (funcUnitsIdx q) /\ idx q = 0;
  b_cap : forall c, capabilityList p !! op_index c = Some (bool_decide (queue p c <> []));
  b_units : forall c k, k ∈ queue p c <-> provides p k c;
  b_num : numFU p = Z.of_nat (length (funcUnits p));
  b_idle : unitBusy p = [] /\ unitsToBeFreed p = []
}.

Lemma empty_building : building empty_pool.
Proof.
  assert (Hl : forall {A} (x : A) c, replicate Num_OpClasses x !! op_index c = Some x) by (intros A x c; apply lookup_replicate; split; [done|apply op_index_lt]).
  constructor; try done.
  - intros c. exists empty_queue. split; [apply Hl|]. split_and!; first [done|by split|apply NoDup_nil_2].
  - intros c. unfold queue. cbn [empty_pool capabilityList fuPerCapList]. by rewrite !Hl.
  - intros c k. unfold queue, provides. cbn [empty_pool fuPerCapList funcUnits]. rewrite Hl. split; [intros Hk; by apply not_elem_of_nil in Hk|]. intros (_ & fu & Hf & _). done.
Qed.

Lemma add_desc_building lat p i p' : building p -> 0 <= number i -> NoDup (opClass <$> opDescList i) -> add_desc lat p i = Ok p' -> building p'.
Proof.
  intros Hb Hn Hnd H. unfold add_desc in H. destruct (Z.eqb_spec (number i) 0) as [|Hn0]; [by injection H as <-|].
  apply res_bind_Ok in H as ([p1 fu] & H1 & [= <-]). apply add_ops_ok in H1 as (E1 & E2 & E3 & E4 & L1 & L2 & EQ & EC & EF); [|done..].
  assert (Hf : forall c, FuncUnit.capabilityList fu !! op_index c = Some (has_op (opDescList i) c)).
  { intros c. rewrite EF. cbn [FuncUnit.new FuncUnit.capabilityList]. rewrite (proj2 (lookup_replicate _ _ _ _) (conj eq_refl (op_index_lt c))). done. }
  match goal with |- building ?x => set (p2 := x) end.
  assert (Equ : forall c, queue p2 c = queue p c ++ (if has_op (opDescList i) c then block (numFU p) (number i) else [])).
  { intros c. unfold queue. simpl. rewrite EQ. destruct (b_queue _ Hb c) as (q & -> & _). simpl. destruct (has_op _ c); [done|]. by rewrite app_nil_r. }
  assert (Hpr : forall k c, provides p2 k c <-> provides p k c \/ (numFU p <= k < numFU p + number i /\ has_op (opDescList i) c = true)).
  { intros k c. unfold provides. simpl. rewrite E2, (b_num _ Hb). split.
    - intros (H0 & f & Hl & Hc). apply lookup_app_Some in Hl as [Hl|[Hge Hl]]; [left; eauto|right]. apply lookup_replicate in Hl as [-> Hl].
      rewrite Hf in Hc. injection Hc as ->. split; [lia|done].
    - intros [(H0 & f & Hl & Hc)|[Hk Hc]]; [split; [done|]; exists f; split; [by apply lookup_app_l_Some|done]|]. split; [lia|]. exists fu. rewrite Hf, Hc. split; [|done].
      apply lookup_app_Some. right. split; [lia|]. apply lookup_replicate. split; [done|lia]. }
  constructor.
  - intros c. simpl. rewrite EQ. destruct (b_queue _ Hb c) as (q & Eq & [Q1 Q2 Q3] & Qn & Qi). rewrite Eq. simpl. eexists. split; [done|].
    destruct (has_op (opDescList i) c); [|by split]. simpl. split_and!; [|..|done].
    + split; simpl; [rewrite length_app, Q1; unfold block; rewrite length_map, length_seqZ; lia|lia|]. intros _. rewrite Q1, Qi. lia.
    + apply NoDup_app. split_and!; [done| |apply NoDup_block]. intros k Hk Hk'%elem_block.
      assert (k ∈ queue p c) as Hkq by (unfold queue; by rewrite Eq). apply (b_units _ Hb) in Hkq as (_ & f & Hl & _). apply lookup_lt_Some in Hl. rewrite (b_num _ Hb) in Hk'. lia.
  - intros c. rewrite Equ. simpl. rewrite EC, (b_cap _ Hb). simpl. f_equal. destruct (has_op (opDescList i) c); [|by rewrite app_nil_r, orb_false_r].
    rewrite orb_true_r. symmetry. apply bool_decide_true. intros Hnil. apply app_eq_nil in Hnil as [_ Hnil].
    assert (Hk : numFU p ∈ block (numFU p) (number i)) by (apply elem_block; lia). rewrite Hnil in Hk. by apply not_elem_of_nil in Hk.
  - intros c k. rewrite Equ, elem_of_app, Hpr, (b_units _ Hb). destruct (has_op (opDescList i) c) eqn:Eh; [rewrite elem_block; tauto|].
    split; [intros [?|Hk]; [by left|by apply not_elem_of_nil in Hk]|]. intros [?|[_ ?]]; [by left|done].
  - simpl. rewrite E1, E2, length_app, length_replicate, (b_num _ Hb). lia.
  - simpl. rewrite E3, E4. apply Hb.
Qed.

Definition good_desc (i : FUDesc) : Prop := 0 <= number i /\ NoDup (opClass <$> opDescList i).

Lemma add_descs_building lat l p p' : building p -> Forall good_desc l -> add_descs lat p l = Ok p' -> building p'.
Proof.
  intros Hb Hl. revert p Hb. induction Hl as [|i l [Hn Hd] _ IH]; intros p Hb H; [by injection H as <-|]. cbn [add_descs] in H. apply res_bind_Ok in H as (p1 & H1 & H).
  eapply IH; [|done]. by eapply add_desc_building.
Qed.

Lemma pool_new_wf lat l p : Forall good_desc l -> new lat l = Ok p -> wf p /\ unitsToBeFreed p = [] /\ Forall (fun b => b = false) (unitBusy p).
Proof.
  intros Hl H. unfold new in H. apply res_bind_Ok in H as (p1 & H1 & [= <-]). apply (add_descs_building lat l) in H1; [|apply empty_building|done].
  split_and!; [|apply H1|by apply Forall_replicate]. constructor; simpl; try apply H1.
  - intros c. destruct (b_queue _ H1 c) as (q & Eq & Hq & Hn & _). by exists q.
  - rewrite length_replicate, (b_num _ H1). lia.
Qed.

(** ** Runs *)
Inductive op := Get (c : OpClass) | Free (k : Z) | Process.

(** [held] are the units that were returned and not given back yet. *)
Definition step (s : t * list Z) (o : op) : res (t * list Z) :=
  match o with
  | Get c => '(r, p) ← getUnit s.1 c; Ok (p, if 0 <=? r then r :: s.2 else s.2)
  | Free k => p ← freeUnitNextCycle s.1 k; Ok (p, filter (fun x => x <> k) s.2)
  | Process => p ← processFreeUnits s.1; Ok (p, s.2)
  end.
Fixpoint run (s : t * list Z) (ops : list op) : res (t * list Z) := match ops with [] => Ok s | o :: ops => s ← step s o; run s ops end.

(** Only a unit that is held is given back. *)
Fixpoint allowed (s : t * list Z) (ops : list op) : Prop :=
  match ops with
  | [] => True
  | o :: ops => (match o with Free k => k ∈ s.2 | _ => True end) /\ forall s', step s o = Ok s' -> allowed s' ops
  end.

Record inv (p : t) (held : list Z) : Prop := {
  n_wf : wf p;
  n_held : NoDup (held ++ unitsToBeFreed p);
  n_busy : forall k, vget (unitBusy p) k = Ok true <-> k ∈ held ++ unitsToBeFreed p
}.

Lemma vget_insert_cases (l : list bool) i x k b : 0 <= i < Z.of_nat (length l) -> vget (<[Z.to_nat i := x]> l) k = Ok b <-> (k = i /\ b = x) \/ (k <> i /\ vget l k = Ok b).
Proof.
  intros Hi. destruct (Z.eq_dec k i) as [->|Hne]; [rewrite vget_insert_eq by done; naive_solver|]. destruct (Z.lt_ge_cases k 0) as [Hk|Hk].
  - split; [intros [? _]%vget_Ok; lia|]. intros [[? _]|[_ [? _]%vget_Ok]]; [done|lia].
  - rewrite vget_insert_ne by lia. naive_solver.
Qed.

Lemma free_loop_ok l busy : NoDup l -> Forall (fun k => vget busy k = Ok true) l ->
  exists busy', free_loop busy l = Ok busy' /\ length busy' = length busy /\ forall k, vget busy' k = Ok true <-> vget busy k = Ok true /\ k ∉ l.
Proof.
  revert busy. induction l as [|i l IH]; intros busy Hnd Hl; [exists busy; split_and!; try done; intros k; split; [|tauto]; intros; split; [done|apply not_elem_of_nil]|].
  apply NoDup_cons in Hnd as [Hi Hnd]. apply Forall_cons in Hl as [Hb Hl]. cbn [free_loop]. rewrite Hb, bind_Ok. cbn [c_assert]. rewrite bind_Ok.
  pose proof Hb as [H0 Hlt]%vget_Ok. apply lookup_lt_Some in Hlt. rewrite vset_lt, bind_Ok by lia.
  destruct (IH (<[Z.to_nat i := false]> busy) Hnd) as (busy' & -> & Elen & Hk).
  { apply Forall_forall. intros k Hkl. rewrite Forall_forall in Hl. apply vget_insert_cases; [lia|]. right. split; [by intros ->|by apply Hl]. }
  exists busy'. split_and!; [done|by rewrite Elen, length_insert|]. intros k. rewrite Hk, vget_insert_cases by lia. rewrite not_elem_of_cons. split; [|naive_solver].
  intros [[[_ ?]|[? ?]] ?]; [done|naive_solver].
Qed.

Lemma wf_busy p l r : wf p -> length l = length (unitBusy p) -> wf (set_toBeFreed (set_busy p l) r).
Proof. intros [] Hl. constructor; try done. simpl. by rewrite Hl. Qed.

Lemma step_inv p held o : inv p held -> (match o with Free k => k ∈ held | _ => True end) -> exists p' held', step (p, held) o = Ok (p', held') /\ inv p' held'.
Proof.
  intros [Hw Hn Hb] Ho. destruct o as [c|k|]; cbn [step fst snd].
  - destruct (getUnit_ok p c Hw) as (r & p' & -> & Hw' & Ef & _ & Hres). rewrite bind_Ok. eexists _, _. split; [done|].
    destruct Hres as [(-> & -> & _)|[(-> & Eb & _)|(Hr & Hr' & Eb)]]; [by split|split; [done|by rewrite Ef|by rewrite Ef, Eb]|].
    assert (0 <= r) by apply Hr. rewrite (proj2 (Z.leb_le 0 r)) by done. assert (Hnew : r ∉ held ++ unitsToBeFreed p) by (intros Hin%Hb; congruence).
    assert (Hlt : 0 <= r < Z.of_nat (length (unitBusy p))). { pose proof Hr' as [? Hl]%vget_Ok. apply lookup_lt_Some in Hl. lia. }
    split; [done|rewrite Ef; simpl; by apply NoDup_cons|]. intros k. rewrite Ef, Eb, vget_insert_cases by done. simpl. rewrite elem_of_cons, Hb. split; [tauto|].
    destruct (Z.eq_dec k r); [tauto|]. intros [?|?]; [done|tauto].
  - apply list_elem_of_split in Ho as Hsplit. assert (vget (unitBusy p) k = Ok true) as Hk by (apply Hb; set_solver). unfold freeUnitNextCycle. rewrite Hk, bind_Ok. simpl.
    eexists _, _. split; [done|]. assert (Hp : filter (fun x => x <> k) held ++ unitsToBeFreed p ++ [k] ≡ₚ held ++ unitsToBeFreed p).
    { destruct Hsplit as (l1 & l2 & ->). apply NoDup_app in Hn as (Hn & _). apply NoDup_app in Hn as (_ & Hd & Hn2). apply NoDup_cons in Hn2 as [Hn2 _].
      rewrite filter_app, filter_cons_False, !filter_all; [|set_solver..|tauto]. rewrite <- !app_assoc. apply Permutation_app_head. simpl.
      rewrite (Permutation_app_comm (unitsToBeFreed p) [k]). simpl. by rewrite Permutation_middle. }
    split; simpl; [by apply (wf_busy p (unitBusy p))|by rewrite Hp|]. intros x. by rewrite Hp.
  - unfold processFreeUnits. apply NoDup_app in Hn as (Hn1 & Hd & Hn2).
    destruct (free_loop_ok (rev (unitsToBeFreed p)) (unitBusy p)) as (l & -> & El & Hl).
    + by rewrite <- Permutation_rev.
    + apply Forall_forall. intros k. rewrite <- Permutation_rev. intros Hk. apply Hb. set_solver.
    + rewrite !bind_Ok. eexists _, _. split; [done|]. split; simpl; [by apply wf_busy|by rewrite app_nil_r|]. intros k. rewrite Hl, Hb, app_nil_r, <- Permutation_rev. set_solver.
Qed.

Lemma run_units ops p held : inv p held -> allowed (p, held) ops -> exists p' held', run (p, held) ops = Ok (p', held') /\ inv p' held'.
Proof.
  revert p held. induction ops as [|o ops IH]; intros p held Hi Ha; [by exists p, held|]. destruct Ha as [Ho Ha]. destruct (step_inv p held o Hi Ho) as (p1 & h1 & E & Hi1).
  destruct (IH p1 h1 Hi1 (Ha _ E)) as (p' & h' & E' & Hi'). exists p', h'. cbn [run]. by rewrite E, bind_Ok.
Qed.

(** C34. A functional unit has one holder.  In a pool built from descriptions none of
    which names an operation class twice, after whatever units have been taken, given back and freed,
    asking for a unit ends, and the answer is exact: [-2] when no unit provides
    the operation, [-1] when every unit that provides it is held or is only freed
    at the end of the cycle, and otherwise a unit that provides it and that nobody
    holds. *)
Theorem units_exclusive lat l p0 ops : Forall good_desc l -> new lat l = Ok p0 -> allowed (p0, []) ops ->
  exists p held, run (p0, []) ops = Ok (p, held) /\ NoDup held /\ forall c, exists r p', getUnit p c = Ok (r, p') /\
    ((r = -2 /\ forall k, ~ provides p k c) \/
     (r = -1 /\ (exists k, provides p k c) /\ forall k, provides p k c -> k ∈ held \/ k ∈ unitsToBeFreed p) \/
     (provides p r c /\ r ∉ held /\ r ∉ unitsToBeFreed p)).
Proof.
  intros Hl Hn Ha. destruct (pool_new_wf lat l p0 Hl Hn) as (Hw & Ef & Hidle).
  assert (Hi0 : inv p0 []).
  { split; [done|rewrite Ef; apply NoDup_nil_2|]. intros k. rewrite Ef. split; [|intros Hk; by apply not_elem_of_nil in Hk]. intros Hk. by apply (Forall_vget _ _ _ _ Hidle) in Hk. }
  destruct (run_units ops p0 [] Hi0 Ha) as (p & held & E & [Hwp Hnd Hb]). exists p, held. split_and!; [done|by apply NoDup_app in Hnd as (? & _)|].
  intros c. destruct (getUnit_ok p c Hwp) as (r & p' & E' & _ & _ & _ & Hres). exists r, p'. split; [done|].
  destruct Hres as [(-> & _ & ?)|[(-> & _ & ? & Hall)|(? & Hfree & _)]]; [by left|right; left|right; right].
  - split_and!; try done. intros k Hk%Hall%Hb. by apply elem_of_app in Hk.
  - split; [done|]. assert (r ∉ held ++ unitsToBeFreed p) as Hr by (intros Hin%Hb; congruence). by apply not_elem_of_app in Hr.
Qed.

(** A description that names a class twice puts its units on the class's list twice, and the
    search ends when it meets the unit it began with: it answers that all units are taken
    while the last one is idle. *)
Theorem repeated_class_hides_unit : exists p0 p held p',
  new (replicate 14 0) [mkFU [mkOp IntAlu 1 1; mkOp IntAlu 1 1] 2; mkFU [mkOp IntAlu 1 1] 1] = Ok p0 /\ run (p0, []) [Get IntAlu; Get IntAlu; Get IntAlu; Free 2; Process] = Ok (p, held) /\
  held = [1; 0] /\ provides p 2 IntAlu /\ vget (unitBusy p) 2 = Ok false /\ getUnit p IntAlu = Ok (-1, p').
Proof.
  eexists _, _, _, _. split; [vm_compute; reflexivity|]. split; [vm_compute; reflexivity|]. split; [reflexivity|]. split; [|split; vm_compute; reflexivity].
  split; [done|]. eexists. split; reflexivity.
Qed.

Definition two_alus : list FUDesc := [mkFU [mkOp IntAlu 1 1; mkOp IntMult 3 1] 2; mkFU [mkOp MemRead 1 1] 1].

Lemma units_exclusive_witness : exists p held, run (match new (replicate 14 0) two_alus with Ok p => p | Er _ => empty_pool end, [])
  [Get IntAlu; Get IntMult; Get IntAlu; Free 1; Process] = Ok (p, held) /\ held = [0].
Proof.
  destruct (units_exclusive (replicate 14 0) two_alus (match new (replicate 14 0) two_alus with Ok p => p | Er _ => empty_pool end)
    [Get IntAlu; Get IntMult; Get IntAlu; Free 1; Process]) as (p & held & E & _).
  - repeat (apply Forall_cons; split; [split; [done|by apply (bool_decide_unpack (NoDup _)); vm_compute]|]). by apply Forall_nil.
  - reflexivity.
  - cbn [allowed]. repeat (split; [done|intros s' E'; vm_compute in E'; injection E' as <-]). split; [set_solver|]. intros s' E'; vm_compute in E'; injection E' as <-. split; [done|]. done.
  - exists p, held. split; [exact E|]. vm_compute in E. by injection E as _ <-.
Defined.
