(* ===== verification/InstQueue.v ===== *)
(** * Issue from the instruction queue

    [src/cpu/o3/dep_graph.hh] (Module [DependencyGraph]: which instructions wait
    for which register) and, of [src/cpu/o3/inst_queue.hh] and
    [inst_queue_impl.hh], the ready queues, their age order and the choice of the
    instructions that issue (Module [InstructionQueue]). *)
From S2P Require Import Prelude Rob FuPool.

(** ** The dependency graph *)
Module DependencyGraph.

(** A register: its producer and, newest first, the consumers. *)
Record DepEntry := mkDep { producer : option Z; consumers : list Z }.
Record t := mk { dependGraph : list DepEntry; numEntries : Z; memAllocCounter : Z; nodesTraversed : Z; nodesRemoved : Z }.

Definition new : t := mk [] 0 0 0 0.
Definition resize (g : t) (num_entries : Z) : t :=
  mk (replicate (Z.to_nat num_entries) (mkDep None [])) num_entries (memAllocCounter g) (nodesTraversed g) (nodesRemoved g).
Definition reset (g : t) : t :=
  mk (map (fun _ => mkDep None []) (dependGraph g)) (numEntries g)
     (uint 32 (memAllocCounter g - foldr (fun e n => Z.of_nat (length (consumers e)) + n) 0 (dependGraph g))) (nodesTraversed g) (nodesRemoved g).

Definition upd (g : t) (idx : Z) (e : DepEntry) (alloc : Z) : res t :=
  l ← vset (dependGraph g) idx e; Ok (mk l (numEntries g) (uint 32 alloc) (nodesTraversed g) (nodesRemoved g)).

Definition insert (g : t) (idx : Z) (new_inst : Z) : res t :=
  e ← vget (dependGraph g) idx; upd g idx (mkDep (producer e) (new_inst :: consumers e)) (memAllocCounter g + 1).
Definition setInst (g : t) (idx : Z) (new_inst : Z) : res t :=
  e ← vget (dependGraph g) idx; upd g idx (mkDep (Some new_inst) (consumers e)) (memAllocCounter g).
Definition clearInst (g : t) (idx : Z) : res t :=
  e ← vget (dependGraph g) idx; upd g idx (mkDep None (consumers e)) (memAllocCounter g).

(** The search of [remove]: the chain without the first node of the
    instruction, and how many nodes were passed. *)
Fixpoint remove_loop (l : list Z) (x : Z) : res (list Z * Z) :=
  match l with
  | [] => Er AssertFail
  | y :: l => if y =? x then Ok (l, 0) else '(l, n) ← remove_loop l x; Ok (y :: l, n + 1)
  end.
Definition remove (g : t) (idx : Z) (inst_to_remove : Z) : res t :=
  e ← vget (dependGraph g) idx;
  if bool_decide (consumers e = []) then Ok g else
  '(l, n) ← remove_loop (consumers e) inst_to_remove;
  g ← upd g idx (mkDep (producer e) l) (memAllocCounter g - 1);
  Ok (mk (dependGraph g) (numEntries g) (memAllocCounter g) (uint 64 (nodesTraversed g + n)) (uint 64 (nodesRemoved g + 1))).

Definition pop (g : t) (idx : Z) : res (option Z * t) :=
  e ← vget (dependGraph g) idx;
  match consumers e with
  | [] => Ok (None, g)
  | x :: l => g ← upd g idx (mkDep (producer e) l) (memAllocCounter g - 1); Ok (Some x, g)
  end.
Definition empty (g : t) (idx : Z) : res bool := e ← vget (dependGraph g) idx; Ok (bool_decide (consumers e = [])).
End DependencyGraph.

(** ** The queue *)
Module InstructionQueue.

(** What the queue reads of an instruction. *)
Record Inst := mkInst { dyn : DynInst.t; opClass : OpClass; isMemRef : bool }.
Record ListOrderEntry := mkOrder { queueType : OpClass; oldestInst : Z }.

(** An event that completes an instruction of a long latency: the instruction,
    the unit, the cycles from now and whether the unit is freed then. *)
Record FUCompletion := mkFUC { fu_inst : Z; fuIdx : Z; delay : Z; freeFU : bool }.

(** A call of [memDepUnit[tid]]; [insert] comes with what the unit reads of the
    instruction then, whether it is ready to issue. *)
Inductive MemCall :=
| MInsert (id : Z) (readyToIssue : bool) | MInsertNonSpec (id : Z) | MInsertBarrier (id : Z) | MRegsReady (id : Z) | MNonSpecInstReady (id : Z) | MIssue (id : Z)
| MWakeDependents (id : Z) | MCompleted (id : Z) | MCompleteBarrier (id : Z) | MReschedule (id : Z) | MReplay (id : Z) | MViolation (store load : Z) | MSquash (n tid : Z).

(** A node of [listOrder] has an identity, which iterators refer to; [None] is
    the end.  A ready queue is a priority queue on the sequence number, oldest
    first.  [issueSize] and [lateSize] are the sizes in the slots 0 and -1 of the
    queue to execution.  [memCalls] are the calls of the memory dependence units,
    the last one last; [wbOutstanding], [wbMax] and [ableToIssue] are the write-back counters of the IEW stage. *)
Record t := mk {
  insts : gmap Z Inst;
  readyInsts : list (list Z);
  listOrder : list (Z * ListOrderEntry);
  fresh : Z;
  queueOnList : list bool;
  readyIt : list (option Z);
  instsToExecute : list Z;
  issueSize : Z;
  lateSize : Z;
  events : list FUCompletion;
  fuPool : FUPool.t;
  freeEntries : Z;
  count : list Z;
  totalWidth : Z;
  memCalls : list MemCall;
  wbOutstanding : Z;
  wbMax : Z;
  ableToIssue : bool;
  switchedOut : bool
}.

Definition set_insts (s : t) (m : gmap Z Inst) : t :=
  mk m (readyInsts s) (listOrder s) (fresh s) (queueOnList s) (readyIt s) (instsToExecute s) (issueSize s) (lateSize s) (events s) (fuPool s) (freeEntries s)
     (count s) (totalWidth s) (memCalls s) (wbOutstanding s) (wbMax s) (ableToIssue s) (switchedOut s).
Definition set_ready (s : t) (l : list (list Z)) : t :=
  mk (insts s) l (listOrder s) (fresh s) (queueOnList s) (readyIt s) (instsToExecute s) (issueSize s) (lateSize s) (events s) (fuPool s) (freeEntries s)
     (count s) (totalWidth s) (memCalls s) (wbOutstanding s) (wbMax s) (ableToIssue s) (switchedOut s).
Definition set_order (s : t) (l : list (Z * ListOrderEntry)) (n : Z) (on : list bool) (it : list (option Z)) : t :=
  mk (insts s) (readyInsts s) l n on it (instsToExecute s) (issueSize s) (lateSize s) (events s) (fuPool s) (freeEntries s)
     (count s) (totalWidth s) (memCalls s) (wbOutstanding s) (wbMax s) (ableToIssue s) (switchedOut s).
Definition set_execute (s : t) (l : list Z) (n late : Z) (ev : list FUCompletion) : t :=
  mk (insts s) (readyInsts s) (listOrder s) (fresh s) (queueOnList s) (readyIt s) l n late ev (fuPool s) (freeEntries s)
     (count s) (totalWidth s) (memCalls s) (wbOutstanding s) (wbMax s) (ableToIssue s) (switchedOut s).
Definition set_pool (s : t) (p : FUPool.t) : t :=
  mk (insts s) (readyInsts s) (listOrder s) (fresh s) (queueOnList s) (readyIt s) (instsToExecute s) (issueSize s) (lateSize s) (events s) p (freeEntries s)
     (count s) (totalWidth s) (memCalls s) (wbOutstanding s) (wbMax s) (ableToIssue s) (switchedOut s).
Definition set_free (s : t) (n : Z) (c : list Z) : t :=
  mk (insts s) (readyInsts s) (listOrder s) (fresh s) (queueOnList s) (readyIt s) (instsToExecute s) (issueSize s) (lateSize s) (events s) (fuPool s) n
     c (totalWidth s) (memCalls s) (wbOutstanding s) (wbMax s) (ableToIssue s) (switchedOut s).
Definition set_memCalls (s : t) (l : list MemCall) : t :=
  mk (insts s) (readyInsts s) (listOrder s) (fresh s) (queueOnList s) (readyIt s) (instsToExecute s) (issueSize s) (lateSize s) (events s) (fuPool s) (freeEntries s)
     (count s) (totalWidth s) l (wbOutstanding s) (wbMax s) (ableToIssue s) (switchedOut s).
Definition set_wb (s : t) (n : Z) (b : bool) : t :=
  mk (insts s) (readyInsts s) (listOrder s) (fresh s) (queueOnList s) (readyIt s) (instsToExecute s) (issueSize s) (lateSize s) (events s) (fuPool s) (freeEntries s)
     (count s) (totalWidth s) (memCalls s) n (wbMax s) b (switchedOut s).

Definition set_switchedOut (s : t) (b : bool) : t :=
  mk (insts s) (readyInsts s) (listOrder s) (fresh s) (queueOnList s) (readyIt s) (instsToExecute s) (issueSize s) (lateSize s) (events s) (fuPool s) (freeEntries s)
     (count s) (totalWidth s) (memCalls s) (wbOutstanding s) (wbMax s) (ableToIssue s) b.

(** Through pointers and arrays. *)
Definition inst (s : t) (id : Z) : res Inst := deref (insts s !! id).
Definition seq (s : t) (id : Z) : res Z := i ← inst s id; Ok (DynInst.seqNum (dyn i)).
Definition upd_inst (s : t) (id : Z) (f : DynInst.t -> DynInst.t) : res t :=
  i ← inst s id; Ok (set_insts s (<[id := mkInst (f (dyn i)) (opClass i) (isMemRef i)]> (insts s))).
Definition ready (s : t) (c : OpClass) : res (list Z) := deref (readyInsts s !! op_index c).
Definition top (q : list Z) : res Z := match q with x :: _ => Ok x | [] => Er BadPointer end.

(** ** The ready queues *)
Fixpoint push_in (s : t) (q : list Z) (id n : Z) : res (list Z) :=
  match q with
  | [] => Ok [id]
  | x :: q' => k ← seq s x; if n <? k then Ok (id :: q) else q' ← push_in s q' id n; Ok (x :: q')
  end.
Definition push (s : t) (c : OpClass) (id : Z) : res t :=
  n ← seq s id; q ← ready s c; q ← push_in s q id n; Ok (set_ready s (<[op_index c := q]> (readyInsts s))).
Definition pop (s : t) (c : OpClass) : res t :=
  q ← ready s c; _ ← top q; Ok (set_ready s (<[op_index c := tail q]> (readyInsts s))).

(** ** The age order *)
Fixpoint order_insert (l : list (Z * ListOrderEntry)) (x : Z * ListOrderEntry) : list (Z * ListOrderEntry) :=
  match l with
  | [] => [x]
  | y :: l' => if oldestInst x.2 <? oldestInst y.2 then x :: l else y :: order_insert l' x
  end.
Definition addToOrderList (s : t) (op_class : OpClass) : res t :=
  q ← ready s op_class;
  _ ← c_assert (negb (bool_decide (q = [])));
  x ← top q;
  n ← seq s x;
  Ok (set_order s (order_insert (listOrder s) (fresh s, mkOrder op_class n)) (fresh s + 1)
        (<[op_index op_class := true]> (queueOnList s)) (<[op_index op_class := Some (fresh s)]> (readyIt s))).

(** From the node after the iterator on: before the first entry that is not older. *)
Fixpoint younger_insert (l : list (Z * ListOrderEntry)) (x : Z * ListOrderEntry) : list (Z * ListOrderEntry) :=
  match l with
  | [] => [x]
  | y :: l' => if oldestInst y.2 <? oldestInst x.2 then y :: younger_insert l' x else x :: l
  end.
Fixpoint insert_after (l : list (Z * ListOrderEntry)) (it : Z) (x : Z * ListOrderEntry) : list (Z * ListOrderEntry) :=
  match l with
  | [] => []
  | y :: l' => if y.1 =? it then y :: younger_insert l' x else y :: insert_after l' it x
  end.
(** [*it]. *)
Fixpoint node (l : list (Z * ListOrderEntry)) (it : Z) : res ListOrderEntry :=
  match l with [] => Er BadPointer | y :: l => if y.1 =? it then Ok y.2 else node l it end.
Definition moveToYoungerInst (s : t) (it : Z) : res t :=
  e ← node (listOrder s) it;
  q ← ready s (queueType e);
  x ← top q;
  n ← seq s x;
  Ok (set_order s (insert_after (listOrder s) it (fresh s, mkOrder (queueType e) n)) (fresh s + 1) (queueOnList s)
        (<[op_index (queueType e) := Some (fresh s)]> (readyIt s))).

(** [listOrder.erase(it)], and the iterator after [it]. *)
Definition erase (l : list (Z * ListOrderEntry)) (it : Z) : list (Z * ListOrderEntry) := filter (fun y => y.1 <> it) l.
Fixpoint next (l : list (Z * ListOrderEntry)) (it : Z) : option Z :=
  match l with [] => None | y :: l => if y.1 =? it then head (map fst l) else next l it end.
Definition erase_node (s : t) (it : Z) : res t :=
  _ ← node (listOrder s) it; Ok (set_order s (erase (listOrder s) it) (fresh s) (queueOnList s) (readyIt s)).

Definition call (s : t) (c : MemCall) : t := set_memCalls s (memCalls s ++ [c]).

(** The instruction goes onto the queue of its class. *)
Definition addReadyMemInst (s : t) (id : Z) : res t :=
  i ← inst s id;
  let c := opClass i in
  s ← push s c id;
  on ← deref (queueOnList s !! op_index c);
  if negb on then addToOrderList s c else
  q ← ready s c;
  x ← top q;
  n ← seq s x;
  it ← deref (readyIt s !! op_index c);
  it ← deref it;
  e ← node (listOrder s) it;
  if n <? oldestInst e then s ← erase_node s it; addToOrderList s c else Ok s.

Definition addIfReady (s : t) (id : Z) : res t :=
  i ← inst s id;
  if negb (DynInst.has (dyn i) DynInst.CanIssue) then Ok s
  else if isMemRef i then Ok (call s (MRegsReady id))
  else addReadyMemInst s id.

Definition hasReadyInsts (s : t) : bool :=
  negb (bool_decide (listOrder s = [])) || existsb (fun q => negb (bool_decide (q = []))) (readyInsts s).

(** The part of [resetState] on the ready queues. *)
Definition resetReady (s : t) : t :=
  set_order (set_ready s (replicate Num_OpClasses [])) [] (fresh s) (replicate Num_OpClasses false) (replicate Num_OpClasses None).

(** ** Issue *)
Definition incrWb (s : t) : res t :=
  let n := wbOutstanding s + 1 in
  let s := set_wb s n (if n =? wbMax s then false else ableToIssue s) in
  _ ← c_assert (n <=? wbMax s); Ok s.

Definition decrWb (s : t) : res t :=
  let s := set_wb s (wbOutstanding s - 1) (if wbOutstanding s =? wbMax s then true else ableToIssue s) in
  _ ← c_assert (0 <=? wbOutstanding s); Ok s.

(** What follows the removal of the top of a queue: a new place for the
    queue, or none. *)
Definition reorder (s : t) (c : OpClass) (order_it : Z) : res t :=
  q ← ready s c;
  if negb (bool_decide (q = [])) then moveToYoungerInst s order_it
  else Ok (set_order s (listOrder s) (fresh s) (<[op_index c := false]> (queueOnList s)) (<[op_index c := None]> (readyIt s))).

(** A unit for the class: [-2] when it needs none, and the latency. *)
Definition getUnit (s : t) (c : OpClass) : res (Z * Z * t) :=
  if bool_decide (c = No_OpClass) then Ok (-2, 1, s) else
  '(idx, p) ← FUPool.getUnit (fuPool s) c;
  op_latency ← (if -1 <? idx then FUPool.getOpLatency p c else Ok 1);
  Ok (idx, op_latency, set_pool s p).

(** The instruction goes to execution, at once or through an event. *)
Definition execute (s : t) (id : Z) (c : OpClass) (idx op_latency : Z) : res t :=
  if op_latency =? 1 then
    let s := set_execute s (instsToExecute s ++ [id]) (issueSize s + 1) (lateSize s) (events s) in
    if 0 <=? idx then p ← FUPool.freeUnitNextCycle (fuPool s) idx; Ok (set_pool s p) else Ok s
  else
    issue_latency ← FUPool.getIssueLatency (fuPool s) c;
    let s := set_execute s (instsToExecute s) (issueSize s) (lateSize s) (events s ++ [mkFUC id idx (op_latency - 1) (1 <? issue_latency)]) in
    if 1 <? issue_latency then Ok s else p ← FUPool.freeUnitNextCycle (fuPool s) idx; Ok (set_pool s p).

(** The bookkeeping of an issued instruction. *)
Definition issued (s : t) (id : Z) (i : Inst) : res t :=
  s ← upd_inst s id (DynInst.set DynInst.Issued);
  if negb (isMemRef i) then
    c ← vget (count s) (DynInst.threadNumber (dyn i));
    l ← vset (count s) (DynInst.threadNumber (dyn i)) (uint 32 (c - 1));
    upd_inst (set_free s (uint 32 (freeEntries s + 1)) l) id (DynInst.reset DynInst.IqEntry)
  else Ok (call s (MIssue id)).

(** The loop of [scheduleReadyInsts]; [fuel] bounds the number of iterations. *)
Fixpoint schedule_loop (fuel : nat) (s : t) (order_it : option Z) (total_issued : Z) : res (Z * t) :=
  match order_it with
  | None => Ok (total_issued, s)
  | Some it =>
      if negb ((total_issued <? totalWidth s) && ableToIssue s) then Ok (total_issued, s) else
      match fuel with
      | O => Er OutOfFuel
      | S fuel =>
          e ← node (listOrder s) it;
          let op_class := queueType e in
          q ← ready s op_class;
          _ ← c_assert (negb (bool_decide (q = [])));
          issuing_inst ← top q;
          i ← inst s issuing_inst;
          _ ← c_assert (DynInst.seqNum (dyn i) =? oldestInst e);
          if DynInst.has (dyn i) DynInst.Squashed then
            s ← pop s op_class;
            s ← reorder s op_class it;
            let after := next (listOrder s) it in
            s ← erase_node s it;
            schedule_loop fuel s after total_issued
          else
            '(idx, op_latency, s) ← getUnit s op_class;
            if negb (idx =? -1) then
              s ← execute s issuing_inst op_class idx op_latency;
              s ← pop s op_class;
              s ← reorder s op_class it;
              s ← issued s issuing_inst i;
              let after := next (listOrder s) it in
              s ← erase_node s it;
              s ← incrWb s;
              schedule_loop fuel s after (total_issued + 1)
            else schedule_loop fuel s (next (listOrder s) it) total_issued
      end
  end.
Definition scheduleReadyInsts (fuel : nat) (s : t) : res (Z * t) :=
  schedule_loop fuel s (head (map fst (listOrder s))) 0.

Definition processFUCompletion (s : t) (id fu_idx : Z) : res t :=
  if switchedOut s then Ok s else
  s ← (if -1 <? fu_idx then p ← FUPool.freeUnitNextCycle (fuPool s) fu_idx; Ok (set_pool s p) else Ok s);
  Ok (set_execute s (instsToExecute s ++ [id]) (issueSize s) (lateSize s + 1) (events s)).
Definition process (s : t) (ev : FUCompletion) : res t := processFUCompletion s (fu_inst ev) (if freeFU ev then fuIdx ev else -1).

Definition getInstToExecute (s : t) : res (Z * t) :=
  match instsToExecute s with
  | [] => Er AssertFail
  | x :: l => Ok (x, set_execute s l (issueSize s) (lateSize s) (events s))
  end.
End InstructionQueue.
