(* ===== verification/InstQueueProof.v ===== *)
(** * Lemmas on issue: the age order of the ready queues *)
From stdpp Require Import sorting.
From S2P Require Import Prelude Rob FuPool FuPoolTheorems InstQueue.
Import InstructionQueue.

(** What does not change of an instruction while it is in the queues. *)
Record Stat := mkStat { st_seq : Z; st_tid : Z; st_class : OpClass; st_mem : bool; st_squashed : bool }.
Definition stat (i : Inst) : Stat :=
  mkStat (DynInst.seqNum (dyn i)) (DynInst.threadNumber (dyn i)) (opClass i) (isMemRef i) (DynInst.has (dyn i) DynInst.Squashed).

Definition Order := list (Z * ListOrderEntry).
Definition rq (R : list (list Z)) (c : OpClass) : list Z := default [] (R !! op_index c).
Definition older (a b : Z * ListOrderEntry) : Prop := oldestInst a.2 <= oldestInst b.2.

(** ** Lists of nodes *)
Lemma node_at (B A : Order) k e : k ∉ B.*1 -> node (B ++ (k, e) :: A) k = Ok e.
Proof. induction B as [|[j f] B IH]; simpl; intros Hk; [by rewrite Z.eqb_refl|]. destruct (Z.eqb_spec j k); [set_solver|]. apply IH. set_solver. Qed.
Lemma next_node_at (B A : Order) k e : k ∉ B.*1 -> next (B ++ (k, e) :: A) k = head (map fst A).
Proof. induction B as [|[j f] B IH]; simpl; intros Hk; [by rewrite Z.eqb_refl|]. destruct (Z.eqb_spec j k); [set_solver|]. apply IH. set_solver. Qed.
Lemma insert_after_at (B A : Order) k e x : k ∉ B.*1 -> insert_after (B ++ (k, e) :: A) k x = B ++ (k, e) :: younger_insert A x.
Proof. induction B as [|[j f] B IH]; simpl; intros Hk; [by rewrite Z.eqb_refl|]. destruct (Z.eqb_spec j k); [set_solver|]. f_equal. apply IH. set_solver. Qed.
Lemma erase_at (B A : Order) k e : k ∉ B.*1 -> k ∉ A.*1 -> erase (B ++ (k, e) :: A) k = B ++ A.
Proof.
  intros HB HA. unfold erase. rewrite filter_app, filter_cons_False by (simpl; tauto).
  rewrite !filter_all; [done|..]; intros [j f] Hj; simpl; intros ->; [apply HA|apply HB]; apply list_elem_of_fmap; by exists (k, f).
Qed.

Lemma younger_insert_split (A : Order) x : exists A1 A2, A = A1 ++ A2 /\ younger_insert A x = A1 ++ x :: A2 /\
  Forall (fun y => oldestInst y.2 < oldestInst x.2) A1 /\ match A2 with [] => True | y :: _ => oldestInst x.2 <= oldestInst y.2 end.
Proof.
  induction A as [|y A IH]; simpl; [by exists [], []|]. destruct (Z.ltb_spec (oldestInst y.2) (oldestInst x.2)).
  - destruct IH as (A1 & A2 & -> & -> & H1 & H2). exists (y :: A1), A2. split_and!; try done. by constructor.
  - exists [], (y :: A). split_and!; try done; lia.
Qed.
Lemma order_insert_split (A : Order) x : exists A1 A2, A = A1 ++ A2 /\ order_insert A x = A1 ++ x :: A2 /\
  Forall (fun y => oldestInst y.2 <= oldestInst x.2) A1 /\ match A2 with [] => True | y :: _ => oldestInst x.2 <= oldestInst y.2 end.
Proof.
  induction A as [|y A IH]; simpl; [by exists [], []|]. destruct (Z.ltb_spec (oldestInst x.2) (oldestInst y.2)).
  - exists [], (y :: A). split_and!; try done; lia.
  - destruct IH as (A1 & A2 & -> & -> & H1 & H2). exists (y :: A1), A2. split_and!; try done. by constructor.
Qed.

Lemma order_sorted_insert (A1 A2 : Order) x : StronglySorted older (A1 ++ A2) -> Forall (fun y => oldestInst y.2 <= oldestInst x.2) A1 ->
  match A2 with [] => True | y :: _ => oldestInst x.2 <= oldestInst y.2 end -> StronglySorted older (A1 ++ x :: A2).
Proof.
  intros Hs H1 H2. apply StronglySorted_app in Hs as (Hc & Hs1 & Hs2). apply StronglySorted_app. rewrite Forall_forall in H1. split_and!; [|done|].
  - intros a b Ha [->|Hb]%elem_of_cons; [by apply H1|by apply Hc].
  - constructor; [done|]. destruct A2 as [|y A2]; [constructor|]. apply StronglySorted_inv in Hs2 as [_ Hy]. constructor; [done|]. eapply Forall_impl; [exact Hy|].
    intros z. unfold older. lia.
Qed.

Section order.
Variable V : gmap Z Stat.

Definition sq (x : Z) : Z := match V !! x with Some i => st_seq i | None => 0 end.

(** The ready queues, their nodes in the order, and the iterators agree. *)
Record order_ok (R : list (list Z)) (L : Order) (n : Z) (on : list bool) (it : list (option Z)) : Prop := {
  o_len : length R = Num_OpClasses /\ length on = Num_OpClasses /\ length it = Num_OpClasses;
  o_ready : forall c x, x ∈ rq R c -> exists i, V !! x = Some i /\ st_class i = c;
  o_qsort : forall c, StronglySorted (fun x y => sq x <= sq y) (rq R c);
  o_ids : NoDup L.*1 /\ Forall (fun k => k < n) L.*1;
  o_sort : StronglySorted older L;
  o_nodes : forall k e, (k, e) ∈ L -> exists x q, rq R (queueType e) = x :: q /\ oldestInst e = sq x /\ it !! op_index (queueType e) = Some (Some k);
  o_on : forall c, on !! op_index c = Some (bool_decide (rq R c <> []));
  o_all : forall c, rq R c <> [] -> exists k e, (k, e) ∈ L /\ queueType e = c
}.

Lemma rq_insert R c q c' : length R = Num_OpClasses -> rq (<[op_index c := q]> R) c' = if decide (c = c') then q else rq R c'.
Proof.
  intros Hl. unfold rq. destruct (decide (c = c')) as [<-|Hne].
  - rewrite list_lookup_insert_eq; [done|]. rewrite Hl. apply op_index_lt.
  - rewrite list_lookup_insert_ne; [done|]. intros E. by apply Hne, op_index_inj.
Qed.

Lemma rq_lookup R c : length R = Num_OpClasses -> R !! op_index c = Some (rq R c).
Proof. intros Hl. unfold rq. destruct (lookup_lt_is_Some_2 R (op_index c)) as [q ->]; [rewrite Hl; apply op_index_lt|done]. Qed.

(** One node per class. *)
Lemma one_node R L n on it k e k' e' : order_ok R L n on it -> (k, e) ∈ L -> (k', e') ∈ L -> queueType e = queueType e' -> k = k'.
Proof.
  intros Ho H1 H2 E. destruct (o_nodes _ _ _ _ _ Ho k e H1) as (_ & _ & _ & _ & E1). destruct (o_nodes _ _ _ _ _ Ho k' e' H2) as (_ & _ & _ & _ & E2).
  rewrite E in E1. congruence.
Qed.

Lemma it_insert (it : list (option Z)) c x c' : length it = Num_OpClasses -> <[op_index c := x]> it !! op_index c' = if decide (c = c') then Some x else it !! op_index c'.
Proof.
  intros Hl. destruct (decide (c = c')) as [<-|Hne]; [apply list_lookup_insert_eq; rewrite Hl; apply op_index_lt|].
  apply list_lookup_insert_ne. intros E. by apply Hne, op_index_inj.
Qed.
Lemma on_insert (on : list bool) c x c' : length on = Num_OpClasses -> <[op_index c := x]> on !! op_index c' = if decide (c = c') then Some x else on !! op_index c'.
Proof.
  intros Hl. destruct (decide (c = c')) as [<-|Hne]; [apply list_lookup_insert_eq; rewrite Hl; apply op_index_lt|].
  apply list_lookup_insert_ne. intros E. by apply Hne, op_index_inj.
Qed.

(** The queue of class [c] becomes [y :: q] and its node [(k, e)], if it had one,
    is replaced by a new one in the right place. *)
Lemma order_replace R L A1 A2 n on it c y q : order_ok R L n on it ->
  (forall k e, (k, e) ∈ A1 ++ A2 -> (k, e) ∈ L /\ queueType e <> c) -> (forall k e, (k, e) ∈ L -> queueType e <> c -> (k, e) ∈ A1 ++ A2) ->
  NoDup (A1 ++ A2).*1 -> StronglySorted older (A1 ++ A2) ->
  StronglySorted (fun x y => sq x <= sq y) (y :: q) -> (forall x, x ∈ y :: q -> exists i, V !! x = Some i /\ st_class i = c) ->
  Forall (fun z => oldestInst z.2 <= sq y) A1 -> match A2 with [] => True | z :: _ => sq y <= oldestInst z.2 end ->
  order_ok (<[op_index c := y :: q]> R) (A1 ++ (n, mkOrder c (sq y)) :: A2) (n + 1) (<[op_index c := true]> on) (<[op_index c := Some n]> it).
Proof.
  intros Ho HL HL' Hnd Hs Hqs Hk H1 H2. destruct (o_len _ _ _ _ _ Ho) as (LR & Lo & Li).
  assert (Hin : forall k e, (k, e) ∈ A1 ++ (n, mkOrder c (sq y)) :: A2 <-> (k, e) = (n, mkOrder c (sq y)) \/ (k, e) ∈ A1 ++ A2) by (intros k e; rewrite !elem_of_app, elem_of_cons; tauto).
  assert (Hlt : forall k e, (k, e) ∈ A1 ++ A2 -> k < n).
  { intros k e [Hke _]%HL. destruct (o_ids _ _ _ _ _ Ho) as [_ Hids]. rewrite Forall_forall in Hids. apply Hids. apply list_elem_of_fmap. by exists (k, e). }
  constructor.
  - by rewrite !length_insert.
  - intros c' x. rewrite rq_insert by done. destruct (decide (c = c')) as [<-|]; [apply Hk|apply (o_ready _ _ _ _ _ Ho)].
  - intros c'. rewrite rq_insert by done. destruct (decide (c = c')) as [<-|]; [done|apply Ho].
  - rewrite fmap_app, fmap_cons. simpl. split.
    + rewrite fmap_app in Hnd. rewrite <- Permutation_middle. constructor; [|done]. rewrite <- fmap_app. intros ([k e] & E & Hke)%list_elem_of_fmap. simpl in E. subst k. apply Hlt in Hke. lia.
    + apply Forall_forall. intros k Hk'. apply elem_of_app in Hk' as [Hk'|[->|Hk']%elem_of_cons]; [|lia|]; apply list_elem_of_fmap in Hk' as ([j e] & -> & Hje); simpl;
        assert (j < n) by (apply (Hlt j e); apply elem_of_app; tauto); lia.
  - by apply order_sorted_insert.
  - intros k e [[= -> ->]|Hke]%Hin.
    + simpl. rewrite rq_insert, decide_True by done. rewrite it_insert, decide_True by done. by exists y, q.
    + destruct (HL k e Hke) as [Hke' Hne]. rewrite rq_insert, decide_False by done. rewrite it_insert, decide_False by done. by apply (o_nodes _ _ _ _ _ Ho).
  - intros c'. rewrite rq_insert, on_insert by done. destruct (decide (c = c')) as [<-|]; [by rewrite bool_decide_true|apply Ho].
  - intros c'. rewrite rq_insert by done. destruct (decide (c = c')) as [<-|Hne]; [intros _; exists n, (mkOrder c (sq y)); split; [apply Hin; by left|done]|].
    intros Hq. destruct (o_all _ _ _ _ _ Ho c' Hq) as (k & e & Hke & <-). exists k, e. split; [|done]. apply Hin. right. by apply HL'.
Qed.

(** The queue of class [c] becomes empty and its node goes. *)
Lemma order_remove R B A n on it k e c : order_ok R (B ++ (k, e) :: A) n on it -> queueType e = c ->
  order_ok (<[op_index c := []]> R) (B ++ A) n (<[op_index c := false]> on) (<[op_index c := None]> it).
Proof.
  intros Ho Ec. destruct (o_len _ _ _ _ _ Ho) as (LR & Lo & Li). destruct (o_ids _ _ _ _ _ Ho) as [Hnd Hids]. rewrite fmap_app, fmap_cons in Hnd, Hids. simpl in Hnd, Hids.
  assert (Hin : forall j f, (j, f) ∈ B ++ A -> (j, f) ∈ B ++ (k, e) :: A) by (intros j f; rewrite !elem_of_app, elem_of_cons; tauto).
  assert (Hk : k ∉ (B ++ A).*1) by (rewrite <- Permutation_middle in Hnd; apply NoDup_cons in Hnd as [Hk _]; by rewrite fmap_app).
  assert (Hne : forall j f, (j, f) ∈ B ++ A -> queueType f <> c).
  { intros j f Hjf E. apply Hk. apply list_elem_of_fmap. exists (j, f). split; [|done]. simpl. apply (one_node _ _ _ _ _ k e j f Ho); [apply elem_of_app; right; left|by apply Hin|congruence]. }
  constructor.
  - by rewrite !length_insert.
  - intros c' x. rewrite rq_insert by done. destruct (decide (c = c')) as [<-|]; [intros Hx; by apply not_elem_of_nil in Hx|apply (o_ready _ _ _ _ _ Ho)].
  - intros c'. rewrite rq_insert by done. destruct (decide (c = c')) as [<-|]; [constructor|apply Ho].
  - rewrite fmap_app. rewrite <- Permutation_middle in Hnd, Hids. apply NoDup_cons in Hnd as [_ Hnd]. apply Forall_cons in Hids as [_ Hids]. done.
  - pose proof (o_sort _ _ _ _ _ Ho) as Hs. apply StronglySorted_app in Hs as (H1 & H2 & H3). apply StronglySorted_inv in H3 as [H3 _]. apply StronglySorted_app. split_and!; try done.
    intros a b Ha Hb. apply H1; [done|by right].
  - intros j f Hjf. pose proof (Hne j f Hjf) as Hc. rewrite rq_insert, decide_False by done. rewrite it_insert, decide_False by done. apply (o_nodes _ _ _ _ _ Ho). by apply Hin.
  - intros c'. rewrite rq_insert, on_insert by done. destruct (decide (c = c')) as [<-|]; [by rewrite bool_decide_false by (intros Hnil; by apply Hnil)|apply Ho].
  - intros c'. rewrite rq_insert by done. destruct (decide (c = c')) as [<-|Hcc]; [done|]. intros Hq. destruct (o_all _ _ _ _ _ Ho c' Hq) as (j & f & Hjf & Ef). exists j, f. split; [|done].
    apply elem_of_app in Hjf as [?|[[= -> ->]|?]%elem_of_cons]; [apply elem_of_app; by left|congruence|apply elem_of_app; by right].
Qed.

(** Behind its top a queue may change freely. *)
Lemma order_tail R L n on it c z q q' : order_ok R L n on it -> rq R c = z :: q -> StronglySorted (fun x y => sq x <= sq y) (z :: q') ->
  (forall x, x ∈ q' -> exists i, V !! x = Some i /\ st_class i = c) -> order_ok (<[op_index c := z :: q']> R) L n on it.
Proof.
  intros Ho Hz Hs Hk. destruct (o_len _ _ _ _ _ Ho) as (LR & Lo & Li). constructor; try apply Ho.
  - by rewrite length_insert.
  - intros c' x. rewrite rq_insert by done. destruct (decide (c = c')) as [<-|]; [|apply (o_ready _ _ _ _ _ Ho)].
    intros [->|Hx]%elem_of_cons; [apply (o_ready _ _ _ _ _ Ho); rewrite Hz; left|by apply Hk].
  - intros c'. rewrite rq_insert by done. destruct (decide (c = c')) as [<-|]; [done|apply Ho].
  - intros k e Hke. destruct (o_nodes _ _ _ _ _ Ho k e Hke) as (x & r & Hr & Hx). rewrite rq_insert by done. destruct (decide (c = queueType e)) as [E|]; [|by exists x, r].
    exists z, q'. rewrite <- E, Hz in Hr. injection Hr as <- _. done.
  - intros c'. rewrite rq_insert by done. destruct (decide (c = c')) as [<-|]; [|apply Ho]. rewrite (o_on _ _ _ _ _ Ho c), Hz. by rewrite !bool_decide_true.
  - intros c'. rewrite rq_insert by done. destruct (decide (c = c')) as [<-|]; [|apply Ho]. intros _. apply (o_all _ _ _ _ _ Ho). by rewrite Hz.
Qed.

(** ** The queue *)
Record sched (s : t) : Prop := {
  s_insts : stat <$> insts s = V;
  s_order : order_ok (readyInsts s) (listOrder s) (fresh s) (queueOnList s) (readyIt s)
}.

Lemma inst_V s x st : stat <$> insts s = V -> V !! x = Some st -> exists i, inst s x = Ok i /\ stat i = st.
Proof. intros E Hx. rewrite <- E, lookup_fmap in Hx. unfold inst. destruct (insts s !! x) as [j|]; [|done]. injection Hx as Hx. by exists j. Qed.

Lemma seq_V s x st : stat <$> insts s = V -> V !! x = Some st -> seq s x = Ok (sq x).
Proof. intros E Hx. destruct (inst_V s x st E Hx) as (i & Ei & <-). unfold seq, sq. by rewrite Ei, Hx. Qed.

Lemma ready_eq s c : length (readyInsts s) = Num_OpClasses -> ready s c = Ok (rq (readyInsts s) c).
Proof. intros Hl. unfold ready. by rewrite (rq_lookup _ c Hl). Qed.

Lemma push_in_ok s q x : stat <$> insts s = V -> (forall y, y ∈ q -> is_Some (V !! y)) ->
  exists q1 q2, q = q1 ++ q2 /\ push_in s q x (sq x) = Ok (q1 ++ x :: q2) /\ Forall (fun y => sq y <= sq x) q1 /\ match q2 with [] => True | y :: _ => sq x < sq y end.
Proof.
  intros E. induction q as [|y q IH]; intros Hq; [by exists [], []|]. destruct (Hq y) as [st Hy]; [left|]. cbn [push_in]. rewrite (seq_V s y st E Hy), bind_Ok.
  destruct (Z.ltb_spec (sq x) (sq y)); [by exists [], (y :: q)|]. destruct IH as (q1 & q2 & -> & -> & H1 & H2); [intros z Hz; apply Hq; by right|]. rewrite bind_Ok.
  exists (y :: q1), q2. split_and!; try done. constructor; [lia|done].
Qed.

Lemma sorted_push q1 q2 x : StronglySorted (fun x y => sq x <= sq y) (q1 ++ q2) -> Forall (fun y => sq y <= sq x) q1 -> match q2 with [] => True | y :: _ => sq x < sq y end ->
  StronglySorted (fun x y => sq x <= sq y) (q1 ++ x :: q2).
Proof.
  intros Hs H1 H2. apply StronglySorted_app in Hs as (Hc & Hs1 & Hs2). apply StronglySorted_app. rewrite Forall_forall in H1. split_and!; [|done|].
  - intros a b Ha [->|Hb]%elem_of_cons; [by apply H1|by apply Hc].
  - constructor; [done|]. destruct q2 as [|y q2]; [constructor|]. apply StronglySorted_inv in Hs2 as [_ Hy]. constructor; [lia|]. eapply Forall_impl; [exact Hy|]. simpl. lia.
Qed.

Lemma addToOrderList_eq s c y q : stat <$> insts s = V -> length (readyInsts s) = Num_OpClasses -> rq (readyInsts s) c = y :: q -> is_Some (V !! y) ->
  addToOrderList s c = Ok (set_order s (order_insert (listOrder s) (fresh s, mkOrder c (sq y))) (fresh s + 1)
    (<[op_index c := true]> (queueOnList s)) (<[op_index c := Some (fresh s)]> (readyIt s))).
Proof.
  intros E Hl Hq [st Hy]. unfold addToOrderList. rewrite ready_eq by done. rewrite bind_Ok, Hq, bool_decide_false by done. cbn [negb c_assert top]. rewrite !bind_Ok.
  by rewrite (seq_V s y st E Hy), bind_Ok.
Qed.

(** Only the queues and their order differ. *)
Definition same_rest (s s' : t) : Prop := s' = set_order (set_ready s (readyInsts s')) (listOrder s') (fresh s') (queueOnList s') (readyIt s').

Lemma addReady_ok s x st : sched s -> V !! x = Some st -> exists s', addReadyMemInst s x = Ok s' /\ sched s' /\ same_rest s s' /\
  (forall c, rq (readyInsts s') c ≡ₚ (if decide (st_class st = c) then [x] else []) ++ rq (readyInsts s) c).
Proof.
  intros [Es Ho] Hx. destruct (o_len _ _ _ _ _ Ho) as (LR & Lo & Li). destruct (inst_V s x st Es Hx) as (i & Ei & Est). unfold addReadyMemInst. rewrite Ei, bind_Ok.
  assert (Ec : opClass i = st_class st) by by rewrite <- Est. rewrite Ec. set (c := st_class st). set (q := rq (readyInsts s) c).
  assert (Hkn : forall y, y ∈ q -> exists i, V !! y = Some i /\ st_class i = c) by (intros y Hy; by apply (o_ready _ _ _ _ _ Ho)).
  destruct (push_in_ok s q x Es) as (q1 & q2 & Eq & Ep & H1 & H2); [intros y Hy; destruct (Hkn y Hy) as (j & -> & _); by exists j|].
  pose proof (o_qsort _ _ _ _ _ Ho c) as Hqs. fold q in Hqs. rewrite Eq in Hqs. pose proof (sorted_push q1 q2 x Hqs H1 H2) as Hqs'.
  assert (Hkn' : forall y, y ∈ q1 ++ x :: q2 -> exists i, V !! y = Some i /\ st_class i = c).
  { intros y. rewrite elem_of_app, elem_of_cons. intros [Hy|[->|Hy]]; [apply Hkn; rewrite Eq; set_solver|by exists st|apply Hkn; rewrite Eq; set_solver]. }
  unfold push. rewrite (seq_V s x st Es Hx), bind_Ok, ready_eq, bind_Ok by done. fold q. rewrite Ep, !bind_Ok.
  set (R1 := <[op_index c := q1 ++ x :: q2]> (readyInsts s)). set (s1 := set_ready s R1).
  assert (LR1 : length R1 = Num_OpClasses) by by (unfold R1; rewrite length_insert).
  assert (Hrq : forall c', rq R1 c' = if decide (c = c') then q1 ++ x :: q2 else rq (readyInsts s) c') by (intros c'; by apply rq_insert).
  assert (Hperm : forall c', rq R1 c' ≡ₚ (if decide (c = c') then [x] else []) ++ rq (readyInsts s) c').
  { intros c'. rewrite Hrq. destruct (decide (c = c')) as [<-|]; [|done]. fold q. rewrite Eq. by rewrite <- Permutation_middle. }
  change (queueOnList s1) with (queueOnList s). rewrite (o_on _ _ _ _ _ Ho c). cbn [deref]. rewrite bind_Ok. fold q. destruct (decide (q = [])) as [Enil|Hne].
  - rewrite bool_decide_false by tauto. cbn [negb]. rewrite Enil in Eq. symmetry in Eq. apply app_eq_nil in Eq as [-> ->]. simpl in *.
    assert (Eq1 : rq (readyInsts s1) c = [x]) by (change (readyInsts s1) with R1; by rewrite Hrq, decide_True). rewrite (addToOrderList_eq s1 c x [] Es LR1 Eq1 (mk_is_Some _ _ Hx)). eexists. split; [done|]. split; [|by split].
    split; [done|]. simpl. destruct (order_insert_split (listOrder s) (fresh s, mkOrder c (sq x))) as (A1 & A2 & EL & -> & F1 & F2).
    assert (Hnc : forall k e, (k, e) ∈ listOrder s -> queueType e <> c).
    { intros k e Hke <-. destruct (o_nodes _ _ _ _ _ Ho k e Hke) as (z & r & Hr & _). unfold q in Enil. congruence. }
    unfold R1. apply (order_replace (readyInsts s) (listOrder s) A1 A2); try done; rewrite <- ?EL; try apply Ho; [|done]. intros k e Hke. split; [done|by eapply Hnc].
  - rewrite bool_decide_true by done. cbn [negb]. rewrite ready_eq by done. change (readyInsts s1) with R1. change (readyIt s1) with (readyIt s). rewrite bind_Ok, Hrq, decide_True by done.
    destruct (o_all _ _ _ _ _ Ho c Hne) as (k & e & Hke & Ece). destruct (o_nodes _ _ _ _ _ Ho k e Hke) as (z & r & Hr & Eold & Eit). rewrite Ece in Hr, Eit. fold q in Hr.
    rewrite Eit. cbn [deref]. apply list_elem_of_split in Hke as Hsp. destruct Hsp as (B & A & EL). destruct (o_ids _ _ _ _ _ Ho) as [Hnd Hids]. rewrite EL, fmap_app, fmap_cons in Hnd. simpl in Hnd.
    assert (HkB : k ∉ B.*1 /\ k ∉ A.*1). { rewrite <- Permutation_middle in Hnd. apply NoDup_cons in Hnd as [Hk _]. by apply not_elem_of_app in Hk. } destruct HkB as [HkB HkA].
    destruct q1 as [|z' q1].
    + cbn [app] in *. rewrite Hr in Eq. subst q2. cbn [top]. rewrite bind_Ok, (seq_V s1 x st Es Hx), !bind_Ok. cbn [deref]. rewrite bind_Ok. change (listOrder s1) with (listOrder s). rewrite EL, node_at, bind_Ok by done. rewrite Eold, (proj2 (Z.ltb_lt _ _)) by lia.
      unfold erase_node. change (listOrder s1) with (listOrder s). rewrite EL, node_at by done. rewrite bind_Ok, erase_at by done. rewrite bind_Ok.
      rewrite (addToOrderList_eq (set_order s1 (B ++ A) (fresh s1) (queueOnList s1) (readyIt s1)) c x (z :: r) Es LR1) by (done || change (rq R1 c = x :: z :: r); by rewrite Hrq, decide_True). eexists. split; [done|]. split; [|by split].
      split; [done|].
      change (order_ok R1 (order_insert (B ++ A) (fresh s, mkOrder c (sq x))) (fresh s + 1) (<[op_index c := true]> (queueOnList s)) (<[op_index c := Some (fresh s)]> (readyIt s))).
      destruct (order_insert_split (B ++ A) (fresh s, mkOrder c (sq x))) as (A1 & A2 & EBA & -> & F1 & F2). unfold R1.
      assert (Hone : forall j f, (j, f) ∈ B ++ A -> (j, f) ∈ listOrder s /\ queueType f <> c).
      { intros j f Hjf. assert (Hj : (j, f) ∈ listOrder s) by (rewrite EL; set_solver). split; [done|]. intros Ef. assert (k = j) as <- by (eapply (one_node _ _ _ _ _ k e j f Ho); [done..|congruence]).
        apply elem_of_app in Hjf as [Hjf|Hjf]; [apply HkB|apply HkA]; apply list_elem_of_fmap; by exists (k, f). }
      rewrite EBA in Hone. apply (order_replace (readyInsts s) (listOrder s) A1 A2); try done.
      * intros j f Hjf Hf. rewrite <- EBA. rewrite EL in Hjf. apply elem_of_app in Hjf as [?|[[= -> ->]|?]%elem_of_cons]; [apply elem_of_app; by left|congruence|apply elem_of_app; by right].
      * rewrite <- EBA, fmap_app. rewrite <- Permutation_middle in Hnd. by apply NoDup_cons in Hnd as [_ ?].
      * rewrite <- EBA. pose proof (o_sort _ _ _ _ _ Ho) as Hs. rewrite EL in Hs. apply StronglySorted_app in Hs as (S1 & S2 & S3). apply StronglySorted_inv in S3 as [S3 _].
        apply StronglySorted_app. split_and!; try done. intros a b Ha Hb. apply S1; [done|by right].
    + simpl in Eq. rewrite Hr in Eq. injection Eq as <- Er. cbn [app top]. rewrite bind_Ok.
      destruct (Hkn z) as (iz & Hz & _); [rewrite Hr; left|]. rewrite (seq_V s1 z iz Es Hz), !bind_Ok. cbn [deref]. rewrite bind_Ok. change (listOrder s1) with (listOrder s). rewrite EL, node_at, bind_Ok by done. rewrite Eold, Z.ltb_irrefl.
      eexists. split; [done|]. split; [|by split; [|]; destruct s]. split; [done|]. simpl. unfold R1. apply (order_tail _ _ _ _ _ c z r); try done.
      intros y Hy. apply Hkn'. by right.
Qed.
End order.
