(* ===== verification/InstQueueTheorems.v ===== *)
(** * Theorems on issue and on the dependency graph *)
From stdpp Require Import sorting.
From S2P Require Import Prelude Rob FuPool FuPoolTheorems InstQueue InstQueueProof.
Import InstructionQueue.

(** ** The pool within a cycle *)
Lemma getUnit_latencies p c r p' : FUPool.getUnit p c = Ok (r, p') ->
  FUPool.maxOpLatencies p' = FUPool.maxOpLatencies p /\ FUPool.maxIssueLatencies p' = FUPool.maxIssueLatencies p.
Proof.
  unfold FUPool.getUnit. intros H. apply res_bind_Ok in H as (b & _ & H). destruct b; cbn [negb] in H; [|by injection H as _ <-]. apply res_bind_Ok in H as (q & _ & H).
  apply res_bind_Ok in H as ([k q1] & _ & H). apply res_bind_Ok in H as ([o q2] & _ & H). destruct o as [j|]; [|by injection H as _ <-].
  apply res_bind_Ok in H as (_ & _ & H). by apply res_bind_Ok in H as (l & _ & [= _ <-]).
Qed.

(** Every unit of the class is taken. *)
Definition class_busy (p : FUPool.t) (c : OpClass) : Prop :=
  c <> No_OpClass /\ (exists k, provides p k c) /\ forall k, provides p k c -> vget (FUPool.unitBusy p) k = Ok true.

(** The pool has only become busier. *)
Definition busier (p p' : FUPool.t) : Prop :=
  (forall k c, provides p' k c <-> provides p k c) /\ forall k, vget (FUPool.unitBusy p) k = Ok true -> vget (FUPool.unitBusy p') k = Ok true.

Lemma busier_refl p : busier p p.
Proof. by split. Qed.
Lemma busier_trans p1 p2 p3 : busier p1 p2 -> busier p2 p3 -> busier p1 p3.
Proof. intros [A1 A2] [B1 B2]. split; [intros k c; by rewrite B1|auto]. Qed.
Lemma class_busier p p' c : busier p p' -> class_busy p c -> class_busy p' c.
Proof. intros [E Hb] (Hc & (k & Hk) & Hall). split; [done|]. split; [exists k; by apply E|]. intros j Hj. apply Hb, Hall. by apply E. Qed.

(** The status bits of an instruction. *)
Definition flag (s : t) (x : Z) (st : DynInst.Status) : bool := match insts s !! x with Some i => DynInst.has (dyn i) st | None => false end.

(** The instructions of [iss] have been issued; nothing else has changed of what
    the registers depend on. *)
Record status_step (s s' : t) (iss : list Z) : Prop := {
  ss_other : forall x st, st <> DynInst.Issued -> st <> DynInst.IqEntry -> flag s' x st = flag s x st;
  ss_issued : forall x, flag s' x DynInst.Issued = flag s x DynInst.Issued || bool_decide (x ∈ iss);
  ss_calls : forall c, c ∈ memCalls s -> c ∈ memCalls s';
  ss_count : length (count s') = length (count s)
}.

Lemma status_same s s' : insts s' = insts s -> memCalls s' = memCalls s -> count s' = count s -> status_step s s' [].
Proof. intros E1 E2 E3. unfold flag in *. constructor; unfold flag; [by rewrite E1|intros x; by rewrite E1, orb_false_r|by rewrite E2|by rewrite E3]. Qed.

Lemma status_trans s s1 s' i1 i2 : status_step s s1 i1 -> status_step s1 s' i2 -> status_step s s' (i1 ++ i2).
Proof.
  intros H1 H2. constructor.
  - intros x st N1 N2. by rewrite (ss_other _ _ _ H2), (ss_other _ _ _ H1).
  - intros x. rewrite (ss_issued _ _ _ H2), (ss_issued _ _ _ H1), <- orb_assoc. f_equal. apply eq_true_iff_eq. rewrite orb_true_iff, !bool_decide_eq_true. set_solver.
  - intros c Hc. by apply (ss_calls _ _ _ H2), (ss_calls _ _ _ H1).
  - by rewrite (ss_count _ _ _ H2), (ss_count _ _ _ H1).
Qed.

Lemma flag_upd (m : gmap Z Inst) x i f y st : m !! x = Some i ->
  match (<[x := mkInst (f (dyn i)) (opClass i) (isMemRef i)]> m : gmap Z Inst) !! y with Some i => DynInst.has (dyn i) st | None => false end =
  if decide (x = y) then DynInst.has (f (dyn i)) st else match m !! y with Some i => DynInst.has (dyn i) st | None => false end.
Proof. intros Hx. destruct (decide (x = y)) as [<-|]; [by rewrite lookup_insert_eq|by rewrite lookup_insert_ne]. Qed.

Lemma iq_status_upd s s' x i f (b : bool) : insts s !! x = Some i -> insts s' = <[x := mkInst (f (dyn i)) (opClass i) (isMemRef i)]> (insts s) ->
  (forall c, c ∈ memCalls s -> c ∈ memCalls s') -> length (count s') = length (count s) -> (forall st, st <> DynInst.Issued -> st <> DynInst.IqEntry -> DynInst.has (f (dyn i)) st = DynInst.has (dyn i) st) ->
  DynInst.has (f (dyn i)) DynInst.Issued = DynInst.has (dyn i) DynInst.Issued || b -> status_step s s' (if b then [x] else []).
Proof.
  intros Hx E Hc Hn Ho Hi. constructor; [..|done|done]; unfold flag.
  - intros y st N1 N2. rewrite E, (flag_upd _ x i f y st Hx). destruct (decide (x = y)) as [<-|]; [|done]. rewrite Hx. by apply Ho.
  - intros y. rewrite E, (flag_upd _ x i f y _ Hx). destruct (decide (x = y)) as [<-|Hne].
    + rewrite Hx, Hi. f_equal. destruct b; [by rewrite bool_decide_true by set_solver|by rewrite bool_decide_false by set_solver].
    + rewrite bool_decide_false; [by rewrite orb_false_r|]. destruct b; set_solver.
Qed.

(** ** The loop *)
Section issue.
Variable V : gmap Z Stat.
Notation sq := (sq V).

(** What surrounds the queues: the pool, the latencies, the write-back
    counters and the threads of the instructions. *)
Record env (s : t) : Prop := {
  e_pool : wf (fuPool s);
  e_lat : forall c, (exists n, FUPool.maxOpLatencies (fuPool s) !! op_index c = Some n) /\ exists n, FUPool.maxIssueLatencies (fuPool s) !! op_index c = Some n;
  e_wb : wbOutstanding s <= wbMax s /\ (ableToIssue s = true -> wbOutstanding s < wbMax s);
  e_free : 0 <= freeEntries s < 2 ^ 32;
  e_tid : forall x st, V !! x = Some st -> 0 <= st_tid st < Z.of_nat (length (count s))
}.

Definition all_ready (s : t) : list Z := concat (readyInsts s).

Lemma concat_pop (R : list (list Z)) i x q : R !! i = Some (x :: q) -> concat R ≡ₚ x :: concat (<[i := q]> R).
Proof.
  revert i. induction R as [|r R IH]; intros i Hi; [done|]. destruct i as [|i]; simpl in *; [by injection Hi as ->|]. rewrite (IH i Hi). by rewrite Permutation_middle.
Qed.

Lemma all_ready_class s y : sched V s -> y ∈ all_ready s -> exists c, y ∈ rq (readyInsts s) c.
Proof.
  intros Hs Hy. apply elem_of_concat in Hy as (q & Hq & Hy). apply list_elem_of_lookup in Hq as (i & Hi). destruct (o_len _ _ _ _ _ _ (s_order _ _ Hs)) as (LR & _).
  apply lookup_lt_Some in Hi as Hlt. rewrite LR in Hlt. exists (op_of i). unfold rq. rewrite op_of_index by done. by rewrite Hi.
Qed.

(** The top of a queue leaves, and the queue gets a new place or none. *)
Lemma retire_ok s B k e A x q : sched V s -> listOrder s = B ++ (k, e) :: A -> rq (readyInsts s) (queueType e) = x :: q ->
  exists R A' n on it, (s1 ← pop s (queueType e); reorder s1 (queueType e) k) = Ok (set_order (set_ready s R) (B ++ (k, e) :: A') n on it) /\
    R = <[op_index (queueType e) := q]> (readyInsts s) /\ order_ok V R (B ++ A') n on it /\ k ∉ B.*1 /\ k ∉ A'.*1 /\
    Forall (fun a => sq x <= oldestInst a.2) A' /\ (length A' <= S (length A))%nat.
Proof.
  intros [Es Ho] EL Hq. set (c := queueType e) in *. destruct (o_len _ _ _ _ _ _ Ho) as (LR & Lo & Li). destruct (o_ids _ _ _ _ _ _ Ho) as [Hnd Hids].
  rewrite EL, fmap_app, fmap_cons in Hnd, Hids. simpl in Hnd, Hids.
  assert (HkB : k ∉ B.*1 /\ k ∉ A.*1). { rewrite <- Permutation_middle in Hnd. apply NoDup_cons in Hnd as [Hk _]. by apply not_elem_of_app in Hk. } destruct HkB as [HkB HkA].
  assert (Hk : k < fresh s) by (rewrite Forall_forall in Hids; apply Hids; set_solver).
  pose proof (o_sort _ _ _ _ _ _ Ho) as Hs. rewrite EL in Hs. apply StronglySorted_app in Hs as (S1 & S2 & S3). apply StronglySorted_inv in S3 as [S3 S4].
  destruct (o_nodes _ _ _ _ _ _ Ho k e) as (x' & q' & Hq' & Eold & _); [rewrite EL; set_solver|]. fold c in Hq'. rewrite Hq in Hq'. injection Hq' as <- <-.
  unfold pop. rewrite ready_eq by done. rewrite Hq, bind_Ok. cbn [top tail]. rewrite !bind_Ok. set (R := <[op_index c := q]> (readyInsts s)).
  assert (LR1 : length R = Num_OpClasses) by by (unfold R; rewrite length_insert). assert (Hrq : rq R c = q) by (unfold R; by rewrite rq_insert, decide_True).
  unfold reorder. rewrite ready_eq by done. change (readyInsts (set_ready s R)) with R. rewrite bind_Ok, Hrq. destruct q as [|y q].
  - rewrite bool_decide_true by done. cbn [negb]. eexists R, A, (fresh s), _, _. split; [by rewrite <- EL|]. split_and!; try done; [|by rewrite Forall_forall; intros a Ha; rewrite Forall_forall in S4; rewrite <- Eold; apply S4|lia].
    apply (order_remove V (readyInsts s) B A (fresh s) (queueOnList s) (readyIt s) k e c); [by rewrite <- EL|done].
  - rewrite bool_decide_false by done. cbn [negb]. unfold moveToYoungerInst. change (listOrder (set_ready s R)) with (listOrder s). rewrite EL, node_at, bind_Ok by done. fold c.
    rewrite ready_eq by done. change (readyInsts (set_ready s R)) with R. rewrite bind_Ok, Hrq. cbn [top]. rewrite bind_Ok.
    destruct (o_ready _ _ _ _ _ _ Ho c y) as (iy & Hy & Hyc); [rewrite Hq; set_solver|]. rewrite (seq_V V (set_ready s R) y iy) by done. rewrite bind_Ok, insert_after_at by done. change (fresh (set_ready s R)) with (fresh s).
    destruct (younger_insert_split A (fresh s, mkOrder c (sq y))) as (A1 & A2 & EA & -> & F1 & F2). simpl in F1, F2.
    eexists R, (A1 ++ (fresh s, mkOrder c (sq y)) :: A2), (fresh s + 1), _, _. split; [done|]. split; [done|].
    pose proof (o_qsort _ _ _ _ _ _ Ho c) as Hqs. rewrite Hq in Hqs. apply StronglySorted_inv in Hqs as [Hqs Hxy]. apply Forall_cons in Hxy as [Hxy _].
    assert (Hone : forall j f, (j, f) ∈ B ++ A -> (j, f) ∈ listOrder s /\ queueType f <> c).
    { intros j f Hjf. assert (Hj : (j, f) ∈ listOrder s) by (rewrite EL; set_solver). split; [done|]. intros Ef.
      assert (k = j) as <- by (eapply (one_node V _ _ _ _ _ k e j f Ho); [rewrite EL; set_solver|done|done]).
      apply elem_of_app in Hjf as [Hjf|Hjf]; [apply HkB|apply HkA]; apply list_elem_of_fmap; by exists (k, f). }
    assert (Hbefore : Forall (fun z => oldestInst z.2 <= sq y) (B ++ A1)).
    { apply Forall_app. split; [|eapply Forall_impl; [exact F1|]; simpl; lia]. apply Forall_forall. intros b Hb. specialize (S1 b (k, e) Hb ltac:(left)). unfold older in S1. simpl in S1. lia. }
    split_and!.
    + rewrite app_assoc. rewrite EA in Hone, S1, S3, Hnd. change (queueOnList (set_ready s R)) with (queueOnList s).
      assert (Eon : queueOnList s = <[op_index c := true]> (queueOnList s)) by (symmetry; apply list_insert_id; by rewrite (o_on _ _ _ _ _ _ Ho c), Hq).
      rewrite Eon. apply (order_replace V (readyInsts s) (listOrder s) (B ++ A1) A2 (fresh s) (queueOnList s) (readyIt s) c y q).
      * done.
      * intros j f Hjf. apply Hone. by rewrite app_assoc.
      * intros j f Hjf Hf. rewrite <- app_assoc, <- EA. rewrite EL in Hjf. apply elem_of_app in Hjf as [?|[[= -> ->]|?]%elem_of_cons]; [apply elem_of_app; by left|done|apply elem_of_app; by right].
      * rewrite <- app_assoc, fmap_app. rewrite <- Permutation_middle in Hnd. by apply NoDup_cons in Hnd as [_ ?].
      * rewrite <- app_assoc. apply StronglySorted_app. split_and!; try done. intros a b Ha Hb. apply S1; [done|by right].
      * done.
      * intros z Hz. apply (o_ready _ _ _ _ _ _ Ho). rewrite Hq. by right.
      * done.
      * done.
    + done.
    + rewrite fmap_app, fmap_cons. simpl. rewrite EA, fmap_app in HkA. rewrite not_elem_of_app, not_elem_of_cons. apply not_elem_of_app in HkA as [? ?]. split_and!; [done|lia|done].
    + rewrite EA in S4. apply Forall_app in S4 as [S5 S6]. apply Forall_app. split; [eapply Forall_impl; [exact S5|]|constructor; [simpl; lia|]; eapply Forall_impl; [exact S6|]]; intros a; unfold older; simpl; lia.
    + rewrite EA, !length_app. simpl. lia.
Qed.

(** What has gone to execution. *)
Definition in_flight (s : t) : list Z := instsToExecute s ++ map fu_inst (events s).

(** Nothing of the queues and of their order differs. *)
Definition same_queues (s s' : t) : Prop :=
  readyInsts s' = readyInsts s /\ listOrder s' = listOrder s /\ fresh s' = fresh s /\ queueOnList s' = queueOnList s /\ readyIt s' = readyIt s /\ totalWidth s' = totalWidth s.

Lemma sched_same s s' : sched V s -> stat <$> insts s' = V -> same_queues s s' -> sched V s'.
Proof. intros [_ Ho] E (E1 & E2 & E3 & E4 & E5 & _). split; [done|]. by rewrite E1, E2, E3, E4, E5. Qed.

Lemma env_pool s p : env s -> wf p -> FUPool.maxOpLatencies p = FUPool.maxOpLatencies (fuPool s) -> FUPool.maxIssueLatencies p = FUPool.maxIssueLatencies (fuPool s) -> env (set_pool s p).
Proof. intros [] Hw E1 E2. constructor; try done. simpl. by rewrite E1, E2. Qed.

Lemma getUnit_issue s c : env s -> exists idx lat p, getUnit s c = Ok (idx, lat, set_pool s p) /\ env (set_pool s p) /\ busier (fuPool s) p /\
  ((idx = -1 /\ class_busy p c) \/ (idx = -2 /\ lat = 1) \/ (0 <= idx /\ vget (FUPool.unitBusy p) idx = Ok true)).
Proof.
  intros He. unfold getUnit. case_bool_decide as Hc.
  - exists (-2), 1, (fuPool s). split; [by destruct s|]. split_and!; [by destruct s|apply busier_refl|auto].
  - destruct (getUnit_ok (fuPool s) c (e_pool _ He)) as (r & p & E & Hw & _ & Hpr & Hres). rewrite E, bind_Ok. destruct (getUnit_latencies _ _ _ _ E) as [L1 L2].
    assert (Henv : env (set_pool s p)) by by apply env_pool.
    assert (Hbu : busier (fuPool s) p).
    { split; [done|]. intros k Hk. destruct Hres as [(_ & -> & _)|[(_ & -> & _)|(_ & Hr & ->)]]; try done. destruct (Z.eq_dec k r) as [->|]; [congruence|].
      pose proof Hr as [? Hlt]%vget_Ok. apply lookup_lt_Some in Hlt. apply vget_insert_cases; [lia|auto]. }
    destruct Hres as [(-> & -> & _)|[(-> & Eb & Hex & Hall)|(Hr & Hr' & Eb)]].
    + exists (-2), 1, (fuPool s). split_and!; try done; auto.
    + exists (-1), 1, p. split_and!; try done. left. split; [done|]. split; [done|]. split; [destruct Hex as [k Hk]; exists k; by apply Hpr|]. intros k Hk. rewrite Eb. by apply Hall, Hpr.
    + assert (0 <= r) by apply Hr. rewrite (proj2 (Z.ltb_lt (-1) r)) by lia. destruct (e_lat _ Henv c) as [(n & En) _]. simpl in En. unfold FUPool.getOpLatency. rewrite En. cbn [deref]. rewrite bind_Ok.
      exists r, n, p. split_and!; try done. right; right. split; [done|]. rewrite Eb. pose proof Hr' as [? Hlt]%vget_Ok. apply lookup_lt_Some in Hlt. apply vget_insert_eq. lia.
Qed.

Lemma free_next p idx : wf p -> vget (FUPool.unitBusy p) idx = Ok true ->
  exists p', FUPool.freeUnitNextCycle p idx = Ok p' /\ wf p' /\ busier p p' /\ FUPool.maxOpLatencies p' = FUPool.maxOpLatencies p /\ FUPool.maxIssueLatencies p' = FUPool.maxIssueLatencies p.
Proof. intros Hw Hb. unfold FUPool.freeUnitNextCycle. rewrite Hb, bind_Ok. eexists. split; [done|]. split_and!; try done. by apply (wf_busy p (FUPool.unitBusy p)). Qed.

Lemma execute_ok s x c idx lat : env s -> stat <$> insts s = V -> (idx = -2 /\ lat = 1) \/ (0 <= idx /\ vget (FUPool.unitBusy (fuPool s)) idx = Ok true) ->
  exists s', execute s x c idx lat = Ok s' /\ env s' /\ stat <$> insts s' = V /\ same_queues s s' /\ busier (fuPool s) (fuPool s') /\ ableToIssue s' = ableToIssue s /\ in_flight s' ≡ₚ x :: in_flight s /\ status_step s s' [].
Proof.
  intros He Es Hidx. assert (Hex : forall l n ev, env (set_execute s l n (lateSize s) ev)) by (intros; destruct He; by constructor). unfold execute.
  assert (Hnow : (instsToExecute s ++ [x]) ++ map fu_inst (events s) ≡ₚ x :: in_flight s) by (unfold in_flight; rewrite <- app_assoc; simpl; by rewrite <- Permutation_middle).
  assert (Hlater : forall idx n b, instsToExecute s ++ map fu_inst (events s ++ [mkFUC x idx n b]) ≡ₚ x :: in_flight s).
  { intros. unfold in_flight. rewrite map_app, app_assoc. simpl. by rewrite (Permutation_app_comm _ [x]). }
  destruct (Z.eqb_spec lat 1) as [->|Hne].
  - destruct (Z.leb_spec 0 idx) as [H0|H0].
    + destruct Hidx as [[-> _]|[_ Hb]]; [lia|]. destruct (free_next (fuPool s) idx (e_pool _ He) Hb) as (p & E & Hw & Hbu & L1 & L2). cbn [set_execute fuPool]. rewrite E, bind_Ok.
      eexists. split; [done|]. split_and!; try done; [by apply env_pool|by apply status_same].
    + eexists. split; [done|]. split_and!; try done. by apply status_same.
  - destruct Hidx as [[_ ?]|[H0 Hb]]; [done|]. destruct (e_lat _ He c) as [_ (n & En)]. unfold FUPool.getIssueLatency. rewrite En. cbn [deref]. rewrite bind_Ok. destruct (1 <? n).
    + eexists. split; [done|]. split_and!; try done; [apply Hlater|by apply status_same].
    + destruct (free_next (fuPool s) idx (e_pool _ He) Hb) as (p & E & Hw & Hbu & L1 & L2). cbn [set_execute fuPool]. rewrite E, bind_Ok.
      eexists. split; [done|]. split_and!; try done; [by apply env_pool|apply Hlater|by apply status_same].
Qed.

Lemma upd_inst_eq s x i f : inst s x = Ok i -> upd_inst s x f = Ok (set_insts s (<[x := mkInst (f (dyn i)) (opClass i) (isMemRef i)]> (insts s))).
Proof. intros Hi. unfold upd_inst. by rewrite Hi. Qed.

Lemma stat_upd s x i f : inst s x = Ok i -> stat <$> insts s = V -> stat (mkInst (f (dyn i)) (opClass i) (isMemRef i)) = stat i ->
  stat <$> <[x := mkInst (f (dyn i)) (opClass i) (isMemRef i)]> (insts s) = V.
Proof.
  intros Hi <- E. rewrite fmap_insert, E. apply insert_id. rewrite lookup_fmap. unfold inst in Hi. destruct (insts s !! x) as [j|]; [|done]. by injection Hi as ->.
Qed.

Lemma issued_state s x st i : env s -> stat <$> insts s = V -> V !! x = Some st -> stat i = st ->
  exists s', issued s x i = Ok s' /\ env s' /\ stat <$> insts s' = V /\ same_queues s s' /\ fuPool s' = fuPool s /\ ableToIssue s' = ableToIssue s /\ in_flight s' = in_flight s /\ status_step s s' [x].
Proof.
  intros He Es Hx <-. destruct (inst_V V s x (stat i) Es Hx) as (j & Ej & Est). unfold issued. rewrite (upd_inst_eq s x j _ Ej), bind_Ok.
  assert (F1 : stat <$> <[x := mkInst (DynInst.set DynInst.Issued (dyn j)) (opClass j) (isMemRef j)]> (insts s) = V).
  { apply (stat_upd s x j (DynInst.set DynInst.Issued)); try done. unfold stat. simpl. f_equal. by rewrite DynInst.has_set, bool_decide_false. }
  match type of F1 with stat <$> ?m = _ => set (m1 := m) in * end. set (s1 := set_insts s m1).
  assert (Ej' : insts s !! x = Some j) by (unfold inst in Ej; by destruct (insts s !! x); [injection Ej as ->|]).
  assert (Hst1 : forall s', insts s' = m1 -> (forall c, c ∈ memCalls s -> c ∈ memCalls s') -> length (count s') = length (count s) -> status_step s s' [x]).
  { intros s' E Hc Hn. apply (iq_status_upd s s' x j (DynInst.set DynInst.Issued) true); try done; [|by rewrite DynInst.has_set, bool_decide_true, orb_true_r].
    intros st N1 N2. by rewrite DynInst.has_set, bool_decide_false by done. }
  assert (He1 : env s1) by (destruct He; by constructor). destruct (negb (isMemRef i)); [|eexists; split; [done|]; split_and!; try done; [by destruct He|]; apply Hst1; [done| |done]; simpl; set_solver].
  pose proof (e_tid _ He x _ Hx) as Ht. simpl in Ht. change (count s1) with (count s). destruct (vget_lt (count s) (DynInst.threadNumber (dyn i)) Ht) as (n & -> & _). rewrite bind_Ok, vset_lt, bind_Ok by done.
  destruct (inst_V V s1 x (stat i) F1 Hx) as (j1 & Ej1 & Est1). rewrite (upd_inst_eq _ x j1) by exact Ej1. eexists. split; [done|].
  split_and!; try done.
  - destruct He. constructor; try done; simpl; [apply uint_range; lia|]. by rewrite length_insert.
  - simpl. apply (stat_upd s1 x j1 (DynInst.reset DynInst.IqEntry)); try done. unfold stat. simpl. f_equal. rewrite DynInst.has_reset, bool_decide_false by done. by rewrite andb_true_r.
  - apply (status_trans s s1 _ [x] []); [by apply Hst1|]. apply (iq_status_upd s1 _ x j1 (DynInst.reset DynInst.IqEntry) false); try done.
    + unfold inst in Ej1. by destruct (insts s1 !! x); [injection Ej1 as ->|].
    + simpl. by rewrite length_insert.
    + intros st N1 N2. rewrite DynInst.has_reset, bool_decide_false by done. by rewrite andb_true_r.
    + rewrite DynInst.has_reset, bool_decide_false by done. by rewrite andb_true_r, orb_false_r.
Qed.

Lemma incrWb_ok s : env s -> ableToIssue s = true -> exists n b, incrWb s = Ok (set_wb s n b) /\ env (set_wb s n b).
Proof.
  intros He Ha. destruct (e_wb _ He) as [Hw Hlt]. specialize (Hlt Ha). unfold incrWb. simpl. rewrite (proj2 (Z.leb_le _ _)) by lia. cbn [c_assert]. rewrite bind_Ok. eexists _, _. split; [done|].
  destruct He. constructor; try done. simpl. split; [lia|]. destruct (Z.eqb_spec (wbOutstanding s + 1) (wbMax s)); [done|lia].
Qed.
(** The state from which the loop goes on after the top of a queue has left. *)
Definition left (s : t) (R : list (list Z)) (L : Order) (n : Z) (on : list bool) (it : list (option Z)) : t := set_order (set_ready s R) L n on it.

Lemma env_left s R L n on it : env s -> env (left s R L n on it).
Proof. intros []. by constructor. Qed.

(** A node that is older than an instruction in the queues. *)
Lemma node_of s y : sched V s -> y ∈ all_ready s -> exists k e st, (k, e) ∈ listOrder s /\ V !! y = Some st /\ queueType e = st_class st /\ oldestInst e <= sq y.
Proof.
  intros Hs Hy. destruct (all_ready_class s y Hs Hy) as (c & Hc). pose proof (s_order _ _ Hs) as Ho. destruct (o_ready _ _ _ _ _ _ Ho c y Hc) as (st & Hst & <-).
  destruct (o_all _ _ _ _ _ _ Ho (st_class st)) as (k & e & Hke & Ee); [intros E; rewrite E in Hc; by apply not_elem_of_nil in Hc|]. exists k, e, st. split_and!; try done.
  destruct (o_nodes _ _ _ _ _ _ Ho k e Hke) as (x & q & Hq & -> & _). pose proof (o_qsort _ _ _ _ _ _ Ho (st_class st)) as Hsort. rewrite Ee in Hq. rewrite Hq in Hc, Hsort.
  apply StronglySorted_inv in Hsort as [_ Hx]. rewrite Forall_forall in Hx. apply elem_of_cons in Hc as [->|Hc]; [lia|by apply Hx].
Qed.

(** What one execution of the loop did. *)
Record issue_run (s s' : t) (iss drp : list Z) : Prop := {
  r_sched : sched V s';
  r_env : env s';
  r_ready : all_ready s ≡ₚ iss ++ drp ++ all_ready s';
  r_flight : in_flight s' ≡ₚ iss ++ in_flight s;
  r_width : totalWidth s' = totalWidth s;
  r_status : status_step s s' iss;
  r_pool : busier (fuPool s) (fuPool s');
  r_iss : forall x, x ∈ iss -> exists st, V !! x = Some st /\ st_squashed st = false;
  r_drp : forall x, x ∈ drp -> exists st, V !! x = Some st /\ st_squashed st = true;
  r_age : forall x y, x ∈ iss ++ drp -> y ∈ all_ready s' -> sq y < sq x -> exists st, V !! y = Some st /\ class_busy (fuPool s') (st_class st)
}.

Lemma issue_nothing s : sched V s -> env s -> issue_run s s [] [].
Proof. intros Hs He. constructor; try done; try (by intros ? ?%not_elem_of_nil); [by apply status_same|by intros ? ? ?%not_elem_of_nil]. Qed.

Lemma issue_trans s s1 s' i1 d1 i2 d2 : issue_run s s1 i1 d1 -> issue_run s1 s' i2 d2 -> issue_run s s' (i1 ++ i2) (d1 ++ d2).
Proof.
  intros H1 H2. constructor; try apply H2.
  - rewrite (r_ready _ _ _ _ H1), (r_ready _ _ _ _ H2). solve_Permutation.
  - rewrite (r_flight _ _ _ _ H2), (r_flight _ _ _ _ H1). solve_Permutation.
  - by rewrite (r_width _ _ _ _ H2), (r_width _ _ _ _ H1).
  - eapply status_trans; [apply H1|apply H2].
  - eapply busier_trans; [apply H1|apply H2].
  - intros x [Hx|Hx]%elem_of_app; [by apply H1|by apply H2].
  - intros x [Hx|Hx]%elem_of_app; [by apply H1|by apply H2].
  - intros x y Hx Hy Hlt. assert (x ∈ i1 ++ d1 \/ x ∈ i2 ++ d2) as [Hx1|Hx2] by set_solver; [|by apply (r_age _ _ _ _ H2 x y)].
    destruct (r_age _ _ _ _ H1 x y) as (st & Hst & Hb); [done|rewrite (r_ready _ _ _ _ H2); set_solver|done|]. exists st. split; [done|]. eapply class_busier; [apply H2|done].
Qed.

(** Before the node of the loop are only classes without a unit. *)
Definition passed (s : t) (B : Order) : Prop := forall k e, (k, e) ∈ B -> class_busy (fuPool s) (queueType e).

Lemma older_passed s B k e A x q y : sched V s -> listOrder s = B ++ (k, e) :: A -> rq (readyInsts s) (queueType e) = x :: q -> passed s B -> y ∈ all_ready s -> sq y < sq x ->
  exists st, V !! y = Some st /\ class_busy (fuPool s) (st_class st).
Proof.
  intros Hs EL Hq HB Hy Hlt. destruct (node_of s y Hs Hy) as (j & f & st & Hjf & Hst & Ef & Hold). exists st. split; [done|]. rewrite <- Ef. apply (HB j).
  pose proof (s_order _ _ Hs) as Ho. destruct (o_nodes _ _ _ _ _ _ Ho k e) as (x' & q' & Hq' & Eold & _); [rewrite EL; set_solver|]. rewrite Hq in Hq'. injection Hq' as <- <-.
  rewrite EL in Hjf. pose proof (o_sort _ _ _ _ _ _ Ho) as S. rewrite EL in S. apply StronglySorted_app in S as (_ & _ & S). apply StronglySorted_inv in S as [_ S]. rewrite Forall_forall in S.
  apply elem_of_app in Hjf as [?|[[= -> ->]|Hjf]%elem_of_cons]; [done|lia|]. specialize (S _ Hjf). unfold older in S. simpl in S. lia.
Qed.

(** One instruction leaves the queues. *)
Lemma leave_run s s1 B k e A x q n on it L iss drp : sched V s -> listOrder s = B ++ (k, e) :: A -> rq (readyInsts s) (queueType e) = x :: q -> passed s B ->
  readyInsts s1 = <[op_index (queueType e) := q]> (readyInsts s) -> listOrder s1 = L -> fresh s1 = n -> queueOnList s1 = on -> readyIt s1 = it ->
  order_ok V (<[op_index (queueType e) := q]> (readyInsts s)) L n on it -> stat <$> insts s1 = V -> env s1 -> totalWidth s1 = totalWidth s -> busier (fuPool s) (fuPool s1) ->
  iss ++ drp = [x] -> in_flight s1 ≡ₚ iss ++ in_flight s -> status_step s s1 iss ->
  (forall y, y ∈ iss -> exists st, V !! y = Some st /\ st_squashed st = false) -> (forall y, y ∈ drp -> exists st, V !! y = Some st /\ st_squashed st = true) ->
  issue_run s s1 iss drp.
Proof.
  intros Hs EL Hq HB ER <- <- <- <- Ho Es He Hw Hbu Ex Hfl Hst Hi Hd. destruct (o_len _ _ _ _ _ _ (s_order _ _ Hs)) as (LR & _).
  assert (Hperm : all_ready s ≡ₚ x :: all_ready s1) by (unfold all_ready; rewrite ER; apply concat_pop; rewrite (rq_lookup _ _ LR); by f_equal).
  constructor; try done.
  - split; [done|]. by rewrite ER.
  - by rewrite app_assoc, Ex.
  - intros z y. rewrite Ex. intros ->%list_elem_of_singleton Hy Hlt. destruct (older_passed s B k e A x q y) as (st & Hvy & Hb); try done; [rewrite Hperm; by right|].
    exists st. split; [done|]. by eapply class_busier.
Qed.

(** The loop, once the node has been looked at. *)
Lemma erase_eq s B k e A : listOrder s = B ++ (k, e) :: A -> k ∉ B.*1 -> k ∉ A.*1 ->
  erase_node s k = Ok (set_order s (B ++ A) (fresh s) (queueOnList s) (readyIt s)) /\ next (listOrder s) k = head (map fst A).
Proof. intros EL HB HA. unfold erase_node. by rewrite EL, node_at, bind_Ok, erase_at, next_node_at by done. Qed.

Lemma squashed_step s B k e A x q st : sched V s -> env s -> listOrder s = B ++ (k, e) :: A -> rq (readyInsts s) (queueType e) = x :: q -> passed s B ->
  V !! x = Some st -> st_squashed st = true ->
  exists s1 A', (forall (f : t -> option Z -> res (Z * t)), (s1 ← pop s (queueType e); s2 ← reorder s1 (queueType e) k; s3 ← erase_node s2 k; f s3 (next (listOrder s2) k)) = f s1 (head (map fst A'))) /\
    issue_run s s1 [] [x] /\ listOrder s1 = B ++ A' /\ (length A' <= S (length A))%nat /\ passed s1 B.
Proof.
  intros Hs He EL Hq HB Hx Hsq. destruct (retire_ok s B k e A x q Hs EL Hq) as (R & A' & n & on & it & E & ER & Ho & HkB & HkA & _ & Hlen).
  apply res_bind_Ok in E as (s1 & E1 & E2). destruct (erase_eq (set_order (set_ready s R) (B ++ (k, e) :: A') n on it) B k e A') as [E3 E4]; try done.
  exists (left s R (B ++ A') n on it), A'. split_and!; try done.
  - intros f. rewrite E1, bind_Ok, E2, bind_Ok. cbv zeta. by rewrite E4, E3.
  - subst R. eapply (leave_run s); try done; [by destruct Hs|by apply env_left|by apply status_same|by intros ? ?%not_elem_of_nil|].
    intros y ->%list_elem_of_singleton. by exists st.
Qed.

Lemma issued_step s B k e A x q i idx lat : sched V s -> env s -> listOrder s = B ++ (k, e) :: A -> rq (readyInsts s) (queueType e) = x :: q -> passed s B ->
  V !! x = Some (stat i) -> st_squashed (stat i) = false -> ableToIssue s = true -> (idx = -2 /\ lat = 1) \/ (0 <= idx /\ vget (FUPool.unitBusy (fuPool s)) idx = Ok true) ->
  exists s1 A', (forall (f : t -> option Z -> res (Z * t)), (s0 ← execute s x (queueType e) idx lat; s1 ← pop s0 (queueType e); s2 ← reorder s1 (queueType e) k; s2 ← issued s2 x i;
      s3 ← erase_node s2 k; s4 ← incrWb s3; f s4 (next (listOrder s2) k)) = f s1 (head (map fst A'))) /\
    issue_run s s1 [x] [] /\ listOrder s1 = B ++ A' /\ (length A' <= S (length A))%nat /\ passed s1 B.
Proof.
  intros Hs He EL Hq HB Hx Hsq Ha Hidx. destruct (execute_ok s x (queueType e) idx lat He (s_insts _ _ Hs) Hidx) as (s0 & E0 & He0 & Es0 & Hsame0 & Hbu & Ha0 & Hf0 & Hst0).
  pose proof (sched_same s s0 Hs Es0 Hsame0) as Hs0. destruct Hsame0 as (Q1 & Q2 & Q3 & Q4 & Q5 & Q6).
  destruct (retire_ok s0 B k e A x q Hs0) as (R & A' & n & on & it & E & ER & Ho & HkB & HkA & _ & Hlen); [by rewrite Q2|by rewrite Q1|].
  apply res_bind_Ok in E as (s1 & E1 & E2). set (s2 := set_order (set_ready s0 R) (B ++ (k, e) :: A') n on it) in *.
  destruct (issued_state s2 x (stat i) i) as (s3 & E3 & He3 & Es3 & (W1 & W2 & W3 & W4 & W5 & W6) & P3 & Ha3 & Hf3 & Hst3); try done; [by apply (env_left s0 R)|].
  destruct (erase_eq s3 B k e A') as [E4 E5]; [by rewrite W2|done|done|]. set (s4 := set_order s3 (B ++ A') (fresh s3) (queueOnList s3) (readyIt s3)) in *.
  assert (He4 : env s4) by (destruct He3; by constructor). destruct (incrWb_ok s4 He4) as (m & b & E6 & He6); [change (ableToIssue s4) with (ableToIssue s3); by rewrite Ha3, <- Ha|].
  exists (set_wb s4 m b), A'.
  assert (Hpool : fuPool (set_wb s4 m b) = fuPool s0) by exact P3. split_and!; try done.
  - intros f. rewrite E0, bind_Ok, E1, bind_Ok, E2, bind_Ok, E3, bind_Ok. cbv zeta. by rewrite E5, E4, bind_Ok, E6, bind_Ok.
  - rewrite Q1 in ER. subst R. apply (leave_run s (set_wb s4 m b) B k e A x q n on it (B ++ A')); try done.
    + change (totalWidth s3 = totalWidth s). rewrite W6. exact Q6.
    + by rewrite Hpool.
    + change (in_flight (set_wb s4 m b)) with (in_flight s3). rewrite Hf3. by change (in_flight s2) with (in_flight s0).
    + apply (status_trans s s0 _ [] [x]); [done|]. apply (status_trans s0 s2 _ [] [x]); [by apply status_same|]. apply (status_trans s2 s3 _ [x] []); [done|by apply status_same].
    + intros y ->%list_elem_of_singleton. by exists (stat i).
    + by intros ? ?%not_elem_of_nil.
  - intros j f Hjf. rewrite Hpool. eapply class_busier; [exact Hbu|by apply (HB j)].
Qed.

(** A unit is asked for: the queues stay. *)
Lemma pool_run s p : sched V s -> env (set_pool s p) -> busier (fuPool s) p -> issue_run s (set_pool s p) [] [].
Proof. intros [] He Hb. constructor; try done; try (by intros ? ?%not_elem_of_nil); [by apply status_same|by intros ? ? ?%not_elem_of_nil]. Qed.

Definition exhausted (n : Z) (s : t) : Prop :=
  n < totalWidth s -> ableToIssue s = true -> forall y, y ∈ all_ready s -> exists st, V !! y = Some st /\ class_busy (fuPool s) (st_class st).

Lemma schedule_loop_ok fuel s B A total : sched V s -> env s -> listOrder s = B ++ A -> passed s B -> (length (all_ready s) + length A <= fuel)%nat -> total <= totalWidth s ->
  exists n s' iss drp, schedule_loop fuel s (head (map fst A)) total = Ok (n, s') /\ issue_run s s' iss drp /\ n = total + Z.of_nat (length iss) /\ n <= totalWidth s /\ exhausted n s'.
Proof.
  revert s B A total. induction fuel as [|fuel IH]; intros s B A total Hs He EL HB Hf Hw.
  all: destruct A as [|[k e] A]; [exists total, s, [], []; split; [done|]; split_and!; [by apply issue_nothing|simpl; lia|done|];
      intros _ _ y Hy; destruct (node_of s y Hs Hy) as (k & e & st & Hke & Hst & Ef & _); exists st; split; [done|]; rewrite <- Ef; apply (HB k); by rewrite EL, app_nil_r in Hke|].
  all: cbn [map head fst schedule_loop]; destruct (Z.ltb_spec total (totalWidth s)) as [Hlt|Hge]; cbn [andb negb];
    [|exists total, s, [], []; split; [done|]; split_and!; [by apply issue_nothing|simpl; lia|done|intros ?; lia]].
  all: destruct (ableToIssue s) eqn:Ha; cbn [negb]; [|exists total, s, [], []; split; [done|]; split_and!; [by apply issue_nothing|simpl; lia|done|intros _; congruence]].
  { simpl in Hf. lia. }
  pose proof (s_order _ _ Hs) as Ho. destruct (o_len _ _ _ _ _ _ Ho) as (LR & _). destruct (o_nodes _ _ _ _ _ _ Ho k e) as (x & q & Hq & Eold & _); [rewrite EL; set_solver|].
  destruct (o_ids _ _ _ _ _ _ Ho) as [Hnd _]. rewrite EL, fmap_app in Hnd. apply NoDup_app in Hnd as (_ & Hnd & _).
  assert (HkB : k ∉ B.*1) by (intros Hk; apply (Hnd k Hk); left).
  rewrite EL, node_at, bind_Ok by done. cbv zeta. rewrite ready_eq by done. rewrite Hq, bind_Ok, bool_decide_false by done. cbn [negb c_assert top]. rewrite !bind_Ok.
  destruct (o_ready _ _ _ _ _ _ Ho (queueType e) x) as (st & Hx & Hcl); [rewrite Hq; left|]. destruct (inst_V V s x st (s_insts _ _ Hs) Hx) as (i & Ei & <-). rewrite Ei, bind_Ok.
  replace (DynInst.seqNum (dyn i) =? oldestInst e) with true by (symmetry; apply Z.eqb_eq; rewrite Eold; unfold InstQueueProof.sq; by rewrite Hx). cbn [c_assert]. rewrite bind_Ok.
  assert (Hgo : forall s1 A' iss drp, issue_run s s1 iss drp -> length (iss ++ drp) = 1%nat -> listOrder s1 = B ++ A' -> (length A' <= S (length A))%nat -> passed s1 B ->
    exists n s' iss' drp', schedule_loop fuel s1 (head (map fst A')) (total + Z.of_nat (length iss)) = Ok (n, s') /\ issue_run s s' iss' drp' /\
      n = total + Z.of_nat (length iss') /\ n <= totalWidth s /\ exhausted n s').
  { intros s1 A' iss drp Hr H1 EL1 Hl HB1. pose proof (r_width _ _ _ _ Hr) as Hw1. pose proof (Permutation_length (r_ready _ _ _ _ Hr)) as Hp. rewrite !length_app in Hp; rewrite length_app in H1. simpl in Hf.
    destruct (IH s1 B A' (total + Z.of_nat (length iss)) (r_sched _ _ _ _ Hr) (r_env _ _ _ _ Hr) EL1 HB1) as (n & s' & iss' & drp' & E & Hr' & -> & Hn & Hex); [lia|lia|].
    exists (total + Z.of_nat (length iss) + Z.of_nat (length iss')), s', (iss ++ iss'), (drp ++ drp'). split; [done|]. split_and!; [by eapply issue_trans|rewrite length_app; lia|lia|done]. }
  destruct (DynInst.has (dyn i) DynInst.Squashed) eqn:Hsq.
  - destruct (squashed_step s B k e A x q (stat i) Hs He EL Hq HB Hx Hsq) as (s1 & A' & E & Hr & EL1 & Hl & HB1).
    rewrite (E (fun s' after => schedule_loop fuel s' after total)). destruct (Hgo s1 A' [] [x]) as (n & s' & iss & drp & H); try done. rewrite Z.add_0_r in H. by exists n, s', iss, drp.
  - destruct (getUnit_issue s (queueType e) He) as (idx & lat & p & E & Hep & Hbu & Hres). rewrite E, bind_Ok. cbv beta iota.
    pose proof (pool_run s p Hs Hep Hbu) as Hr0. assert (HBp : passed (set_pool s p) B) by (intros j f Hjf; eapply class_busier; [exact Hbu|by apply (HB j)]).
    destruct Hres as [(-> & Hcb)|Hres].
    + cbn [Z.eqb Pos.eqb negb]. change (listOrder (set_pool s p)) with (listOrder s). rewrite EL, next_node_at by done.
      destruct (IH (set_pool s p) (B ++ [(k, e)]) A total (r_sched _ _ _ _ Hr0) Hep) as (n & s' & iss & drp & E' & Hr' & Hn); [by rewrite <- app_assoc| |simpl in Hf; change (all_ready (set_pool s p)) with (all_ready s); lia|done|].
      { intros j f [Hj|[= -> ->]%list_elem_of_singleton]%elem_of_app; [by apply (HBp j)|done]. }
      exists n, s', iss, drp. split; [done|]. split; [|done]. by apply (issue_trans s (set_pool s p) s' [] []).
    + assert (Hidx : idx =? -1 = false) by (apply Z.eqb_neq; destruct Hres as [[-> _]|[? _]]; lia). rewrite Hidx. cbn [negb].
      destruct (issued_step (set_pool s p) B k e A x q i idx lat (r_sched _ _ _ _ Hr0) Hep EL Hq HBp Hx Hsq Ha Hres) as (s1 & A' & E1 & Hr & EL1 & Hl & HB1).
      rewrite (E1 (fun s' after => schedule_loop fuel s' after (total + 1))). apply (Hgo s1 A' [x] []); try done. by apply (issue_trans s (set_pool s p) s1 [] []).
Qed.

Lemma resetReady_ok s : stat <$> insts s = V -> sched V (resetReady s).
Proof.
  intros Es. assert (Hl : forall {A} (x : A) c, replicate Num_OpClasses x !! op_index c = Some x) by (intros A x c; apply lookup_replicate; split; [done|apply op_index_lt]).
  assert (Hq : forall c, rq (replicate Num_OpClasses []) c = []) by (intros c; unfold rq; by rewrite Hl).
  split; [done|]. constructor; try done; cbn [resetReady set_order set_ready readyInsts listOrder queueOnList readyIt].
  - intros c x. rewrite Hq. by intros ?%not_elem_of_nil.
  - intros c. rewrite Hq. constructor.
  - split; constructor.
  - constructor.
  - by intros k e ?%not_elem_of_nil.
  - intros c. rewrite Hl, Hq. by rewrite bool_decide_false by (intros H; by apply H).
  - intros c. by rewrite Hq.
Qed.

(** Instructions become ready. *)
Fixpoint add_all (s : t) (l : list Z) : res t := match l with [] => Ok s | x :: l => s ← addReadyMemInst s x; add_all s l end.

Lemma concat_perm (R R' : list (list Z)) : Forall2 (≡ₚ) R R' -> concat R ≡ₚ concat R'.
Proof. induction 1 as [|q q' R R' Hq _ IH]; simpl; [done|]. by rewrite Hq, IH. Qed.

Lemma ready_perm s s' x st : length (readyInsts s) = Num_OpClasses -> length (readyInsts s') = Num_OpClasses ->
  (forall c, rq (readyInsts s') c ≡ₚ (if decide (st_class st = c) then [x] else []) ++ rq (readyInsts s) c) -> all_ready s' ≡ₚ x :: all_ready s.
Proof.
  intros L L' H. unfold all_ready. set (c := st_class st) in *. set (q := rq (readyInsts s) c).
  transitivity (concat (<[op_index c := x :: q]> (readyInsts s))).
  - apply concat_perm, Forall2_same_length_lookup_2; [by rewrite length_insert, L'|]. intros i a b Ha Hb. apply lookup_lt_Some in Ha as Hi. rewrite L' in Hi.
    specialize (H (op_of i)). unfold rq in H at 1. rewrite op_of_index, Ha in H by done. simpl in H. rewrite H. clear H.
    assert (Eb : b = rq (<[op_index c := x :: q]> (readyInsts s)) (op_of i)) by (unfold rq; by rewrite op_of_index, Hb by done). rewrite Eb, rq_insert by done. by destruct (decide (c = op_of i)) as [<-|].
  - rewrite (concat_pop _ (op_index c) x q) by (apply list_lookup_insert_eq; rewrite L; apply op_index_lt). rewrite list_insert_insert_eq, list_insert_id; [done|]. by apply rq_lookup.
Qed.

Lemma add_all_ok l s : sched V s -> env s -> Forall (fun x => is_Some (V !! x)) l ->
  exists s1, add_all s l = Ok s1 /\ sched V s1 /\ env s1 /\ all_ready s1 ≡ₚ l ++ all_ready s /\ in_flight s1 = in_flight s /\ fuPool s1 = fuPool s /\ totalWidth s1 = totalWidth s.
Proof.
  revert s. induction l as [|x l IH]; intros s Hs He Hl; [by exists s|]. apply Forall_cons in Hl as [[st Hx] Hl]. destruct (addReady_ok V s x st Hs Hx) as (s1 & E & Hs1 & Hrest & Hq).
  assert (He1 : env s1) by (rewrite Hrest; destruct He; by constructor). destruct (IH s1 Hs1 He1 Hl) as (s2 & E2 & Hs2 & He2 & Hp & Hf & Hpool & Hw).
  assert (Hr : all_ready s1 ≡ₚ x :: all_ready s) by (apply (ready_perm s s1 x st); [apply (s_order _ _ Hs)|apply (s_order _ _ Hs1)|done]).
  exists s2. cbn [add_all]. rewrite E, bind_Ok. split; [done|]. split_and!; try done; [|by rewrite Hf, Hrest|by rewrite Hpool, Hrest|by rewrite Hw, Hrest]. rewrite Hp, Hr. by rewrite <- Permutation_middle.
Qed.
End issue.

(** C13. Issue goes by age, up to the units.  In a queue whose order and pool are
    consistent, when any known instructions have become ready, the cycle ends,
    leaves the queue consistent, and splits what was ready into the instructions
    that go to execution, those dropped because they were squashed, and those that
    stay.  At most [totalWidth] issue.  No instruction overtakes an older one,
    unless every unit of the class of the older one is taken; and when neither the
    width nor the write-back buffer stopped the loop, that holds for all that stay. *)
Theorem issue_oldest_first V s l : sched V s -> env V s -> 0 <= totalWidth s -> Forall (fun x => is_Some (V !! x)) l ->
  exists s1, add_all s l = Ok s1 /\ all_ready s1 ≡ₚ l ++ all_ready s /\
  forall fuel, (length (all_ready s1) + length (listOrder s1) <= fuel)%nat ->
  exists n s' iss drp, scheduleReadyInsts fuel s1 = Ok (n, s') /\ sched V s' /\ env V s' /\
    all_ready s1 ≡ₚ iss ++ drp ++ all_ready s' /\ in_flight s' ≡ₚ iss ++ in_flight s1 /\ n = Z.of_nat (length iss) /\ n <= totalWidth s /\
    (forall x, x ∈ iss -> exists st, V !! x = Some st /\ st_squashed st = false) /\ (forall x, x ∈ drp -> exists st, V !! x = Some st /\ st_squashed st = true) /\
    forall y, y ∈ all_ready s' -> (exists x, x ∈ iss ++ drp /\ sq V y < sq V x) \/ (n < totalWidth s /\ ableToIssue s' = true) ->
      exists st, V !! y = Some st /\ class_busy (fuPool s') (st_class st).
Proof.
  intros Hs He Hw Hl. destruct (add_all_ok V l s Hs He Hl) as (s1 & E & Hs1 & He1 & Hp & Hf & Hpool & Hw1). exists s1. split; [done|]. split; [done|]. intros fuel Hfuel.
  destruct (schedule_loop_ok V fuel s1 [] (listOrder s1) 0) as (n & s' & iss & drp & E' & Hr & -> & Hn & Hex); try done; [by intros k e ?%not_elem_of_nil|lia|].
  exists (Z.of_nat (length iss)), s', iss, drp. split; [exact E'|]. rewrite Hw1 in Hn. split_and!; try apply Hr; try done.
  intros y Hy [(x & Hx & Hlt)|[Hlt Ha]]; [by apply (r_age _ _ _ _ _ Hr x y)|]. apply Hex; [rewrite (r_width _ _ _ _ _ Hr), Hw1; lia|done|done].
Qed.

(** Three instructions for one adder, the oldest of them squashed, and a load:
    in one cycle the load and the older addition issue. *)
Definition wit_inst (n : Z) (c : OpClass) (squashed : bool) : Inst :=
  let d := DynInst.mk n 0 0 in mkInst (if squashed then DynInst.set DynInst.Squashed d else d) c (bool_decide (c = MemRead)).
Definition wit_insts : gmap Z Inst := {[1 := wit_inst 1 IntAlu true; 2 := wit_inst 2 IntAlu false; 3 := wit_inst 3 IntAlu false; 4 := wit_inst 4 MemRead false]}.
Definition wit_pool : FUPool.t := match FUPool.new (replicate 14 0) [mkFU [mkOp IntAlu 1 1] 1; mkFU [mkOp MemRead 2 1] 1] with Ok p => p | Er _ => FUPool.empty_pool end.
Definition wit_queue : t := resetReady (mk wit_insts [] [] 0 [] [] [] 0 0 [] wit_pool 60 [4] 8 [] 0 8 true false).

Definition wit_check : bool :=
  match add_all wit_queue [4; 3; 1; 2] with
  | Ok s1 => bool_decide (length (all_ready s1) + length (listOrder s1) <= 10)%nat &&
      match scheduleReadyInsts 10 s1 with Ok (n, s') => bool_decide (n = 2 /\ in_flight s' = [2; 4] /\ all_ready s' = [3]) | Er _ => false end
  | Er _ => false
  end.
Lemma wit_check_true : wit_check = true.
Proof. vm_compute. reflexivity. Qed.

Lemma issue_oldest_first_witness : exists s1 n s', add_all wit_queue [4; 3; 1; 2] = Ok s1 /\ scheduleReadyInsts 10 s1 = Ok (n, s') /\ n = 2 /\ in_flight s' = [2; 4] /\ all_ready s' = [3].
Proof.
  destruct (issue_oldest_first (stat <$> wit_insts) wit_queue [4; 3; 1; 2]) as (s1 & E1 & _ & H).
  - by apply resetReady_ok.
  - split.
    + apply (pool_new_wf (replicate 14 0) [mkFU [mkOp IntAlu 1 1] 1; mkFU [mkOp MemRead 2 1] 1]); [|reflexivity].
      repeat (apply Forall_cons; split; [split; [done|by apply (bool_decide_unpack (NoDup _)); vm_compute]|]). by apply Forall_nil.
    + intros c. destruct c; split; eexists; reflexivity.
    + done.
    + done.
    + intros x st Hx. assert (Ht : map_Forall (fun _ st => st_tid st = 0) (stat <$> wit_insts)) by (apply (bool_decide_unpack _); by vm_compute). rewrite (Ht x st Hx). by vm_compute.
  - done.
  - repeat (apply Forall_cons; split; [by eexists|]). by apply Forall_nil.
  - pose proof wit_check_true as Hc. unfold wit_check in Hc. rewrite E1 in Hc. apply andb_true_iff in Hc as [Hlen%bool_decide_eq_true Hc].
    destruct (H 10%nat Hlen) as (n & s' & iss & drp & E & _). rewrite E in Hc. apply bool_decide_eq_true in Hc. by exists s1, n, s'.
Defined.
