(* ===== verification/InstQueueRegs.v ===== *)
(** * The instruction queue and its registers

    The rest of [src/cpu/o3/inst_queue.hh] and [inst_queue_impl.hh]: entry into
    the queue, the registers the instructions wait for, waking, the
    non-speculative instructions, retirement and squashing (Module
    [InstQueueRegs]).  The ready queues and issue are the [InstructionQueue] inside. *)
From S2P Require Import Prelude Rob FuPool InstQueue.
Import InstructionQueue.

Module InstQueueRegs.

(** What the queue reads and writes of an instruction besides its status. *)
Record RegInst := mkReg {
  srcRegs : list Z;
  readySrc : list bool;
  readyRegs : Z;
  destRegs : list Z;
  isMemBarrier : bool;
  isWriteBarrier : bool;
  isNonSpeculative : bool;
  isStoreConditional : bool;
  memOpDone : bool
}.
Definition set_src (r : RegInst) (l : list bool) (n : Z) : RegInst :=
  mkReg (srcRegs r) l n (destRegs r) (isMemBarrier r) (isWriteBarrier r) (isNonSpeculative r) (isStoreConditional r) (memOpDone r).
Definition set_memOpDone (r : RegInst) : RegInst :=
  mkReg (srcRegs r) (readySrc r) (readyRegs r) (destRegs r) (isMemBarrier r) (isWriteBarrier r) (isNonSpeculative r) (isStoreConditional r) true.
Definition numSrcRegs (r : RegInst) : Z := Z.of_nat (length (srcRegs r)).

Inductive IQPolicy := Dynamic | Partitioned | Threshold.

#[export] Instance iq_policy_eq_dec : EqDecision IQPolicy.
Proof. solve_decision. Defined.

Record t := mk {
  iq : InstructionQueue.t;
  regs : gmap Z RegInst;
  instList : list (list Z);
  nonSpecInsts : gmap Z Z;
  dependGraph : DependencyGraph.t;
  regScoreboard : list bool;
  squashedSeqNum : list Z;
  numEntries : Z;
  numPhysRegs : Z;
  numThreads : Z;
  iqPolicy : IQPolicy;
  maxEntries : list Z;
  activeThreads : list Z
}.

Definition set_iq (s : t) (q : InstructionQueue.t) : t :=
  mk q (regs s) (instList s) (nonSpecInsts s) (dependGraph s) (regScoreboard s) (squashedSeqNum s) (numEntries s) (numPhysRegs s) (numThreads s) (iqPolicy s)
     (maxEntries s) (activeThreads s).
Definition set_regs (s : t) (m : gmap Z RegInst) : t :=
  mk (iq s) m (instList s) (nonSpecInsts s) (dependGraph s) (regScoreboard s) (squashedSeqNum s) (numEntries s) (numPhysRegs s) (numThreads s) (iqPolicy s)
     (maxEntries s) (activeThreads s).
Definition set_list (s : t) (l : list (list Z)) : t :=
  mk (iq s) (regs s) l (nonSpecInsts s) (dependGraph s) (regScoreboard s) (squashedSeqNum s) (numEntries s) (numPhysRegs s) (numThreads s) (iqPolicy s)
     (maxEntries s) (activeThreads s).
Definition set_nonSpec (s : t) (m : gmap Z Z) : t :=
  mk (iq s) (regs s) (instList s) m (dependGraph s) (regScoreboard s) (squashedSeqNum s) (numEntries s) (numPhysRegs s) (numThreads s) (iqPolicy s)
     (maxEntries s) (activeThreads s).
Definition set_graph (s : t) (g : DependencyGraph.t) (sb : list bool) : t :=
  mk (iq s) (regs s) (instList s) (nonSpecInsts s) g sb (squashedSeqNum s) (numEntries s) (numPhysRegs s) (numThreads s) (iqPolicy s)
     (maxEntries s) (activeThreads s).
Definition set_squashedSeqNum (s : t) (l : list Z) : t :=
  mk (iq s) (regs s) (instList s) (nonSpecInsts s) (dependGraph s) (regScoreboard s) l (numEntries s) (numPhysRegs s) (numThreads s) (iqPolicy s)
     (maxEntries s) (activeThreads s).
Definition set_max (s : t) (l : list Z) : t :=
  mk (iq s) (regs s) (instList s) (nonSpecInsts s) (dependGraph s) (regScoreboard s) (squashedSeqNum s) (numEntries s) (numPhysRegs s) (numThreads s) (iqPolicy s)
     l (activeThreads s).
Definition set_active (s : t) (l : list Z) : t :=
  mk (iq s) (regs s) (instList s) (nonSpecInsts s) (dependGraph s) (regScoreboard s) (squashedSeqNum s) (numEntries s) (numPhysRegs s) (numThreads s) (iqPolicy s)
     (maxEntries s) l.

(** Through pointers and arrays. *)
Definition reg (s : t) (id : Z) : res RegInst := deref (regs s !! id).
Definition upd_reg (s : t) (id : Z) (f : RegInst -> RegInst) : res t := r ← reg s id; Ok (set_regs s (<[id := f r]> (regs s))).
Definition upd_dyn (s : t) (id : Z) (f : DynInst.t -> DynInst.t) : res t := q ← upd_inst (iq s) id f; Ok (set_iq s q).
Definition call (s : t) (c : MemCall) : t := set_iq s (InstructionQueue.call (iq s) c).
Definition add_count (s : t) (tid n : Z) : res t :=
  c ← vget (count (iq s)) tid; l ← vset (count (iq s)) tid (uint 32 (c + n)); Ok (set_iq s (set_free (iq s) (freeEntries (iq s)) l)).
Definition add_free (s : t) (n : Z) : t := set_iq s (set_free (iq s) (uint 32 (freeEntries (iq s) + n)) (count (iq s))).
Definition push_list (s : t) (tid id : Z) : res t := l ← vget (instList s) tid; l ← vset (instList s) tid (l ++ [id]); Ok (set_list s l).

(** ** Construction and hand-over *)
Definition resetState (s : t) : t :=
  let per_thread {A} (x : A) (l : list A) := replicate (Z.to_nat (numThreads s)) x ++ drop (Z.to_nat (numThreads s)) l in
  let q := resetReady (set_free (iq s) (numEntries s) (per_thread 0 (count (iq s)))) in
  mk q (regs s) (per_thread [] (instList s)) ∅ (dependGraph s) (replicate (Z.to_nat (numPhysRegs s)) false) (per_thread 0 (squashedSeqNum s)) (numEntries s)
     (numPhysRegs s) (numThreads s) (iqPolicy s) (maxEntries s) (activeThreads s).

(** The constructor: [s] is the storage with the parameters and the queue in it,
    and [thresholdIQ] the product of the threshold and the number of entries, which
    is computed in floating point. *)
Definition new (s : t) (smtIQPolicy : string) (thresholdIQ : Z) : res t :=
  let s := set_graph s (DependencyGraph.resize DependencyGraph.new (numPhysRegs s)) (regScoreboard s) in
  let s := resetState s in
  let name := ROB.lower smtIQPolicy in
  '(policy, max) ← (if bool_decide (name = "dynamic"%string) then Ok (Dynamic, numEntries s)
                    else if bool_decide (name = "partitioned"%string) then
                      if numThreads s =? 0 then Er DivByZero else Ok (Partitioned, numEntries s / numThreads s)
                    else if bool_decide (name = "threshold"%string) then Ok (Threshold, thresholdIQ)
                    else Er AssertFail);
  Ok (mk (iq s) (regs s) (instList s) (nonSpecInsts s) (dependGraph s) (regScoreboard s) (squashedSeqNum s) (numEntries s) (numPhysRegs s) (numThreads s) policy
         (replicate (Z.to_nat (numThreads s)) max ++ drop (Z.to_nat (numThreads s)) (maxEntries s)) (activeThreads s)).

Definition setActiveThreads (s : t) (at_ptr : list Z) : t := set_active s at_ptr.

(** [switchOut()]; the memory dependence units are switched out beside it. *)
Definition switchOut (s : t) : t :=
  let s := resetState s in
  let s := set_graph s (DependencyGraph.reset (dependGraph s)) (regScoreboard s) in
  set_iq s (InstructionQueue.set_switchedOut (set_execute (iq s) [] (issueSize (iq s)) (lateSize (iq s)) (events (iq s))) true).
Definition takeOverFrom (s : t) : t := set_iq s (InstructionQueue.set_switchedOut (iq s) false).

(** ** Capacity *)
Definition entryAmount (s : t) (num_threads : Z) : res Z :=
  if bool_decide (iqPolicy s = Partitioned) then
    if num_threads =? 0 then Er DivByZero else Ok (numEntries s / num_threads)
  else Ok 0.
Fixpoint reset_loop (s : t) (active_threads : Z) (l : list Z) : res t :=
  match l with
  | [] => Ok s
  | tid :: l =>
      s ← (if bool_decide (iqPolicy s = Partitioned) then
             m ← vset (maxEntries s) tid (numEntries s / active_threads); Ok (set_max s m)
           else if bool_decide (iqPolicy s = Threshold) && (active_threads =? 1) then
             m ← vset (maxEntries s) tid (numEntries s); Ok (set_max s m)
           else Ok s);
      reset_loop s active_threads l
  end.
Definition resetEntries (s : t) : res t :=
  if negb (bool_decide (iqPolicy s = Dynamic)) || (1 <? numThreads s)
  then reset_loop s (Z.of_nat (length (activeThreads s))) (activeThreads s) else Ok s.
Definition numFreeEntries (s : t) : Z := freeEntries (iq s).
Definition numFreeEntries_tid (s : t) (tid : Z) : res Z :=
  m ← vget (maxEntries s) tid; c ← vget (count (iq s)) tid; Ok (uint 32 (m - c)).
Definition isFull (s : t) : bool := freeEntries (iq s) =? 0.
Definition isFull_tid (s : t) (tid : Z) : res bool := n ← numFreeEntries_tid s tid; Ok (n =? 0).
Definition getCount (s : t) (tid : Z) : res Z := vget (count (iq s)) tid.
Definition countInsts (s : t) : Z := sint 32 (numEntries s - freeEntries (iq s)).
Definition check_free (s : t) : res unit := c_assert (freeEntries (iq s) =? uint 32 (numEntries s - countInsts s)).

(** ** Source registers *)
Definition markSrcRegReady (s : t) (id : Z) : res t :=
  r ← reg s id;
  let n := uint 32 (readyRegs r + 1) in
  s ← upd_reg s id (fun r => set_src r (readySrc r) n);
  if n =? numSrcRegs r then upd_dyn s id (DynInst.set DynInst.CanIssue) else Ok s.
Definition markSrcRegReady_idx (s : t) (id idx : Z) : res t :=
  r ← reg s id;
  l ← vset (readySrc r) idx true;
  s ← upd_reg s id (fun r => set_src r l (readyRegs r));
  markSrcRegReady s id.
Definition isReadySrcRegIdx (s : t) (id idx : Z) : res bool := r ← reg s id; vget (readySrc r) idx.

Definition addIfReady (s : t) (id : Z) : res t := q ← InstructionQueue.addIfReady (iq s) id; Ok (set_iq s q).

Fixpoint dependents_loop (s : t) (id : Z) (return_val : bool) (l : list Z) : res (bool * t) :=
  match l with
  | [] => Ok (return_val, s)
  | src_reg_idx :: l =>
      b ← isReadySrcRegIdx s id src_reg_idx;
      if (b : bool) then dependents_loop s id return_val l else
      r ← reg s id;
      src_reg ← vget (srcRegs r) src_reg_idx;
      if numPhysRegs s <=? src_reg then dependents_loop s id return_val l else
      sb ← vget (regScoreboard s) src_reg;
      if negb sb then
        g ← DependencyGraph.insert (dependGraph s) src_reg id;
        dependents_loop (set_graph s g (regScoreboard s)) id true l
      else
        s ← markSrcRegReady_idx s id src_reg_idx;
        dependents_loop s id return_val l
  end.
Definition addToDependents (s : t) (id : Z) : res (bool * t) :=
  r ← reg s id; dependents_loop s id false (seqZ 0 (numSrcRegs r)).

Fixpoint producers_loop (s : t) (id : Z) (l : list Z) : res t :=
  match l with
  | [] => Ok s
  | dest_reg :: l =>
      if numPhysRegs s <=? dest_reg then producers_loop s id l else
      e ← DependencyGraph.empty (dependGraph s) dest_reg;
      if negb e then Er Panic else
      g ← DependencyGraph.setInst (dependGraph s) dest_reg id;
      sb ← vset (regScoreboard s) dest_reg false;
      producers_loop (set_graph s g sb) id l
  end.
Definition addToProducers (s : t) (id : Z) : res t := r ← reg s id; producers_loop s id (destRegs r).
Definition recordProducer (s : t) (id : Z) : res t := addToProducers s id.

(** ** Entry *)

(** What [insert] and [insertNonSpec] begin with. *)
Definition enter (s : t) (id : Z) (i : Inst) : res t :=
  _ ← c_assert (negb (freeEntries (iq s) =? 0));
  s ← push_list s (DynInst.threadNumber (dyn i)) id;
  upd_dyn (add_free s (-1)) id (DynInst.set DynInst.IqEntry).

Definition insert (s : t) (id : Z) : res t :=
  i ← inst (iq s) id;
  s ← enter s id i;
  '(_, s) ← addToDependents s id;
  s ← addToProducers s id;
  s ← (if isMemRef i then i ← inst (iq s) id; Ok (call s (MInsert id (DynInst.has (dyn i) DynInst.CanIssue))) else addIfReady s id);
  s ← add_count s (DynInst.threadNumber (dyn i)) 1;
  _ ← check_free s;
  Ok s.

Definition insertNonSpec (s : t) (id : Z) : res t :=
  i ← inst (iq s) id;
  let s := set_nonSpec s (<[DynInst.seqNum (dyn i) := id]> (nonSpecInsts s)) in
  s ← enter s id i;
  s ← addToProducers s id;
  let s := if isMemRef i then call s (MInsertNonSpec id) else s in
  s ← add_count s (DynInst.threadNumber (dyn i)) 1;
  _ ← check_free s;
  Ok s.
Definition insertBarrier (s : t) (id : Z) : res t := insertNonSpec (call s (MInsertBarrier id)) id.

Definition scheduleNonSpec (s : t) (n : Z) : res t :=
  id ← (match nonSpecInsts s !! n with Some id => Ok id | None => Er AssertFail end);
  s ← upd_dyn s id (DynInst.set DynInst.AtCommit);
  s ← upd_dyn s id (DynInst.set DynInst.CanIssue);
  i ← inst (iq s) id;
  s ← (if negb (isMemRef i) then addIfReady s id else Ok (call s (MNonSpecInstReady id)));
  Ok (set_nonSpec s (delete n (nonSpecInsts s))).

(** ** Retirement and waking *)
Fixpoint commit_loop (s : t) (n : Z) (l : list Z) : res (list Z) :=
  match l with
  | [] => Ok []
  | x :: l' => k ← seq (iq s) x; if k <=? n then commit_loop s n l' else Ok l
  end.
Definition commit (s : t) (n tid : Z) : res t :=
  l ← vget (instList s) tid;
  l ← commit_loop s n l;
  l ← vset (instList s) tid l;
  let s := set_list s l in
  _ ← check_free s;
  Ok s.

Definition completeMemInst (s : t) (id : Z) : res t :=
  i ← inst (iq s) id;
  s ← upd_reg (add_free s 1) id set_memOpDone;
  add_count (call s (MCompleted id)) (DynInst.threadNumber (dyn i)) (-1).

(** The chain of a register; [fuel] bounds its length. *)
Fixpoint wake_loop (fuel : nat) (s : t) (dest_reg : Z) (dependents : Z) : res (Z * t) :=
  '(dep_inst, g) ← DependencyGraph.pop (dependGraph s) dest_reg;
  let s := set_graph s g (regScoreboard s) in
  match dep_inst with
  | None => Ok (dependents, s)
  | Some x =>
      match fuel with
      | O => Er OutOfFuel
      | S fuel =>
          s ← markSrcRegReady s x;
          s ← addIfReady s x;
          wake_loop fuel s dest_reg (dependents + 1)
      end
  end.
Definition wake_reg (s : t) (dest_reg : Z) (dependents : Z) : res (Z * t) :=
  e ← vget (DependencyGraph.dependGraph (dependGraph s)) dest_reg;
  '(n, s) ← wake_loop (length (DependencyGraph.consumers e)) s dest_reg dependents;
  b ← DependencyGraph.empty (dependGraph s) dest_reg;
  _ ← c_assert b;
  g ← DependencyGraph.clearInst (dependGraph s) dest_reg;
  sb ← vset (regScoreboard s) dest_reg true;
  Ok (n, set_graph s g sb).
Fixpoint wake_regs (s : t) (l : list Z) (dependents : Z) : res (Z * t) :=
  match l with
  | [] => Ok (dependents, s)
  | dest_reg :: l =>
      if numPhysRegs s <=? dest_reg then wake_regs s l dependents else
      '(n, s) ← wake_reg s dest_reg dependents;
      wake_regs s l n
  end.
Definition wakeDependents (s : t) (id : Z) : res (Z * t) :=
  i ← inst (iq s) id;
  _ ← c_assert (negb (DynInst.has (dyn i) DynInst.Squashed));
  r ← reg s id;
  s ← (if isMemRef i then completeMemInst (call s (MWakeDependents id)) id
       else if isMemBarrier r || isWriteBarrier r then Ok (call s (MCompleteBarrier id)) else Ok s);
  wake_regs s (destRegs r) 0.

Definition addReadyMemInst (s : t) (id : Z) : res t := q ← InstructionQueue.addReadyMemInst (iq s) id; Ok (set_iq s q).
Definition rescheduleMemInst (s : t) (id : Z) : res t := s ← upd_dyn s id (DynInst.reset DynInst.CanIssue); Ok (call s (MReschedule id)).
Definition replayMemInst (s : t) (id : Z) : t := call s (MReplay id).
Definition violation (s : t) (store faulting_load : Z) : t := call s (MViolation store faulting_load).

(** ** Squashing *)
Fixpoint remove_srcs (s : t) (id : Z) (l : list Z) : res t :=
  match l with
  | [] => Ok s
  | src_reg_idx :: l =>
      r ← reg s id;
      src_reg ← vget (srcRegs r) src_reg_idx;
      b ← vget (readySrc r) src_reg_idx;
      if negb b && (src_reg <? numPhysRegs s) then
        g ← DependencyGraph.remove (dependGraph s) src_reg id;
        remove_srcs (set_graph s g (regScoreboard s)) id l
      else remove_srcs s id l
  end.
Definition special (r : RegInst) : bool := isNonSpeculative r || isStoreConditional r || isMemBarrier r || isWriteBarrier r.
Definition setSquashedInIQ (d : DynInst.t) : DynInst.t := DynInst.set DynInst.Squashed (DynInst.set DynInst.SquashedInIQ d).
Definition squash_inst (s : t) (id : Z) : res t :=
  i ← inst (iq s) id;
  r ← reg s id;
  if negb (DynInst.has (dyn i) DynInst.Issued) || (isMemRef i && negb (memOpDone r)) then
    s ← (if negb (special r) then remove_srcs s id (seqZ 0 (numSrcRegs r))
         else if negb (isStoreConditional r) || negb (DynInst.has (dyn i) DynInst.Completed) then
           _ ← c_assert (bool_decide (is_Some (nonSpecInsts s !! DynInst.seqNum (dyn i))));
           Ok (set_nonSpec s (delete (DynInst.seqNum (dyn i)) (nonSpecInsts s)))
         else Ok s);
    s ← upd_dyn s id setSquashedInIQ;
    s ← upd_dyn s id (fun d => DynInst.reset DynInst.IqEntry (DynInst.set DynInst.CanCommit (DynInst.set DynInst.Issued d)));
    s ← add_count s (DynInst.threadNumber (dyn i)) (-1);
    Ok (add_free s 1)
  else Ok s.

(** From the tail to the front of the list: [l] is what has not been looked at,
    reversed, and [kept] what was passed over.  Before the front the iterator is
    at the end of the list again. *)
Fixpoint squash_loop (s : t) (tid n : Z) (l kept : list Z) : res t :=
  match l with
  | [] => ls ← vset (instList s) tid kept; Ok (set_list s ls)
  | x :: l' =>
      i ← inst (iq s) x;
      if DynInst.seqNum (dyn i) <=? n then ls ← vset (instList s) tid (rev l ++ kept); Ok (set_list s ls)
      else if negb (DynInst.threadNumber (dyn i) =? tid) || DynInst.has (dyn i) DynInst.SquashedInIQ then squash_loop s tid n l' (x :: kept)
      else s ← squash_inst s x; squash_loop s tid n l' kept
  end.
Definition doSquash (s : t) (tid : Z) : res t :=
  l ← vget (instList s) tid;
  n ← vget (squashedSeqNum s) tid;
  squash_loop s tid n (rev l) [].

(** [doneSeqNum] is what the time buffer holds. *)
Definition squash (s : t) (doneSeqNum tid : Z) : res t :=
  l ← vset (squashedSeqNum s) tid doneSeqNum;
  let s := set_squashedSeqNum s l in
  c ← vget (count (iq s)) tid;
  s ← (if 0 <? c then doSquash s tid else Ok s);
  Ok (call s (MSquash doneSeqNum tid)).
End InstQueueRegs.
