(* ===== verification/InstQueueRegsProof.v ===== *)
(** * Lemmas on the registers of the instruction queue *)
From stdpp Require Import sorting.
From S2P Require Import Prelude Rob FuPool FuPoolTheorems InstQueue InstQueueProof InstQueueTheorems InstQueueRegs.
Import InstructionQueue InstQueueRegs.
#[local] Existing Instance DynInst.status_eq_dec.

(** What does not change of an instruction. *)
Record RegStat := mkRegStat { rs_src : list Z; rs_dest : list Z; rs_special : bool }.
Definition rstat (r : RegInst) : RegStat := mkRegStat (srcRegs r) (destRegs r) (special r).

(** ** Views of the state *)
Definition entries (s : t) : list DependencyGraph.DepEntry := DependencyGraph.dependGraph (dependGraph s).
Definition gchain (g : DependencyGraph.t) (k : Z) : list Z := match DependencyGraph.dependGraph g !! Z.to_nat k with Some e => DependencyGraph.consumers e | None => [] end.
Definition chain (s : t) (k : Z) : list Z := gchain (dependGraph s) k.
Definition sb (s : t) (k : Z) : bool := default false (regScoreboard s !! Z.to_nat k).
Definition slots (r : RegInst) : list (Z * bool) := zip (srcRegs r) (readySrc r).
Definition member (s : t) (x : Z) : Prop := exists l, l ∈ instList s /\ x ∈ l.

(** Occurrences of an instruction in a chain; operands that wait for a
    register; operands that are there. *)
Definition cnt (y : Z) (l : list Z) : nat := length (filter (fun z => z = y) l).
Definition pend (P : list (Z * bool)) (k : Z) : nat := length (filter (fun p => p.1 = k /\ p.2 = false) P).
Definition got (n : Z) (b : Z -> bool) (P : list (Z * bool)) : nat := length (filter (fun p => p.2 = true \/ (p.1 < n /\ b p.1 = true)) P).

(** The instruction has been passed on to be issued. *)
Definition handed (V : gmap Z Stat) (q : InstructionQueue.t) (y : Z) : Prop :=
  y ∈ all_ready q \/ MRegsReady y ∈ memCalls q \/ MInsert y true ∈ memCalls q \/ flag q y DynInst.Issued = true \/ exists st, V !! y = Some st /\ st_squashed st = true.

(** ** Counting *)
Lemma occ_cons y z l : cnt y (z :: l) = ((if decide (z = y) then 1 else 0) + cnt y l)%nat.
Proof. unfold cnt. rewrite filter_cons. by destruct (decide (z = y)). Qed.
Lemma occ_app y l l' : cnt y (l ++ l') = (cnt y l + cnt y l')%nat.
Proof. unfold cnt. by rewrite filter_app, length_app. Qed.
Lemma cnt_elem y l : (0 < cnt y l)%nat <-> y ∈ l.
Proof.
  induction l as [|z l IH]; [unfold cnt; simpl; split; [lia|by intros ?%not_elem_of_nil]|]. rewrite occ_cons, elem_of_cons. destruct (decide (z = y)) as [->|]; [split; [by left|lia]|].
  rewrite <- IH. simpl. split; [intros ?; by right|intros [?|?]; [congruence|done]].
Qed.
Lemma cnt_zero y l : cnt y l = 0%nat <-> y ∉ l.
Proof. rewrite <- cnt_elem. lia. Qed.
Lemma cnt_perm y l l' : l ≡ₚ l' -> cnt y l = cnt y l'.
Proof. intros H. unfold cnt. by rewrite H. Qed.
Lemma cnt_replicate y x n : cnt y (replicate n x) = if decide (x = y) then n else 0%nat.
Proof. induction n as [|n IH]; simpl; [by destruct (decide _)|]. rewrite occ_cons, IH. by destruct (decide (x = y)). Qed.

Lemma pend_cons p P k : pend (p :: P) k = ((if decide (p.1 = k /\ p.2 = false) then 1 else 0) + pend P k)%nat.
Proof. unfold pend. rewrite filter_cons. by destruct (decide _). Qed.
Lemma pend_app P Q k : pend (P ++ Q) k = (pend P k + pend Q k)%nat.
Proof. unfold pend. by rewrite filter_app, length_app. Qed.
Lemma pend_elem P k : (0 < pend P k)%nat <-> (k, false) ∈ P.
Proof.
  induction P as [|[a b] P IH]; [unfold pend; simpl; split; [lia|by intros ?%not_elem_of_nil]|]. rewrite pend_cons, elem_of_cons. simpl. destruct (decide (a = k /\ b = false)) as [[-> ->]|Hn].
  - split; [by left|lia].
  - rewrite <- IH. simpl. split; [intros ?; by right|intros [[= <- <-]|?]; [tauto|done]].
Qed.
Lemma got_cons n b p P : got n b (p :: P) = ((if decide (p.2 = true \/ ((p.1 < n)%Z /\ b p.1 = true)) then 1 else 0) + got n b P)%nat.
Proof. unfold got. rewrite filter_cons. by destruct (decide _). Qed.
Lemma got_app n b P Q : got n b (P ++ Q) = (got n b P + got n b Q)%nat.
Proof. unfold got. by rewrite filter_app, length_app. Qed.
Lemma got_le n b P : (got n b P <= length P)%nat.
Proof. apply length_filter. Qed.
Lemma got_full n b P : got n b P = length P <-> forall p, p ∈ P -> p.2 = true \/ (p.1 < n /\ b p.1 = true).
Proof.
  induction P as [|p P IH]; [split; [by intros _ ? ?%not_elem_of_nil|done]|]. rewrite got_cons. simpl. pose proof (got_le n b P). destruct (decide _) as [Hp|Hp].
  - split; [intros H1 q [->|Hq]%elem_of_cons; [done|]; apply IH; [lia|done]|]. intros H1. assert (got n b P = length P); [|lia]. apply IH. intros q Hq. apply H1. by right.
  - split; [lia|]. intros H1. destruct Hp. apply H1. left.
Qed.
Lemma got_ext n b b' P : (forall p, p ∈ P -> p.2 = false -> p.1 < n -> b' p.1 = b p.1) -> got n b' P = got n b P.
Proof.
  induction P as [|[a f] P IH]; intros Hp; [done|]. rewrite !got_cons. f_equal; [|apply IH; intros q Hq; apply Hp; by right]. simpl. destruct f.
  - by rewrite !decide_True by (by left).
  - destruct (decide (a < n)) as [Hn|Hn]; [|by rewrite !decide_False by (intros [?|[? _]]; congruence || lia)].
    pose proof (Hp (a, false) ltac:(left) eq_refl Hn) as E. simpl in E. by rewrite E.
Qed.
(** A register has come. *)
Lemma got_set n b k P : 0 <= k < n -> b k = false -> got n (fun j => bool_decide (j = k) || b j) P = (got n b P + pend P k)%nat.
Proof.
  intros Hk Hb. induction P as [|[a f] P IH]; [done|]. rewrite !got_cons, pend_cons, IH. simpl. destruct f.
  - rewrite (decide_True (P := true = true \/ _)), (decide_True (P := true = true \/ _)), decide_False by (try (by left); by intros [_ ?]). lia.
  - destruct (decide (a = k)) as [->|Hne].
    + rewrite decide_True by (right; split; [lia|by rewrite bool_decide_true]). rewrite (decide_False (P := false = true \/ _)) by (intros [?|[_ ?]]; congruence). rewrite decide_True by done. lia.
    + rewrite (decide_False (P := a = k /\ _)) by tauto. rewrite bool_decide_false by done. simpl. lia.
Qed.

(** ** The dependency graph *)
Lemma gchain_upd g k e n g' : DependencyGraph.upd g k e n = Ok g' -> 0 <= k /\
  length (DependencyGraph.dependGraph g') = length (DependencyGraph.dependGraph g) /\ forall k', 0 <= k' -> gchain g' k' = if decide (k = k') then DependencyGraph.consumers e else gchain g k'.
Proof.
  intros H. unfold DependencyGraph.upd in H. apply res_bind_Ok in H as (l & Hl & [= <-]). destruct (decide (0 <= k < Z.of_nat (length (DependencyGraph.dependGraph g)))) as [Hk|Hk].
  - rewrite vset_lt in Hl by done. injection Hl as <-. split; [lia|]. split; [simpl; by rewrite length_insert|]. intros k' Hk'. unfold gchain. simpl. destruct (decide (k = k')) as [<-|].
    + by rewrite list_lookup_insert_eq by lia.
    + by rewrite list_lookup_insert_ne by lia.
  - exfalso. unfold vset in Hl. repeat (case_match || case_bool_decide); try done; lia.
Qed.

Lemma gchain_get g k : 0 <= k < Z.of_nat (length (DependencyGraph.dependGraph g)) -> exists p, vget (DependencyGraph.dependGraph g) k = Ok (DependencyGraph.mkDep p (gchain g k)).
Proof. intros Hk. destruct (vget_lt _ k Hk) as ([p c] & E & Hl). exists p. rewrite E. unfold gchain. by rewrite Hl. Qed.

Lemma upd_total g k e n : 0 <= k < Z.of_nat (length (DependencyGraph.dependGraph g)) -> exists g', DependencyGraph.upd g k e n = Ok g'.
Proof. intros Hk. unfold DependencyGraph.upd. rewrite vset_lt by done. by eexists. Qed.

(** [g'] is [g] with the chain of [k] replaced. *)
Definition rechain (g g' : DependencyGraph.t) (k : Z) (l : list Z) : Prop :=
  length (DependencyGraph.dependGraph g') = length (DependencyGraph.dependGraph g) /\ forall k', 0 <= k' -> gchain g' k' = if decide (k = k') then l else gchain g k'.

Lemma graph_insert_ok g k x : 0 <= k < Z.of_nat (length (DependencyGraph.dependGraph g)) -> exists g', DependencyGraph.insert g k x = Ok g' /\ rechain g g' k (x :: gchain g k).
Proof.
  intros Hk. unfold DependencyGraph.insert. destruct (gchain_get g k Hk) as (p & ->). rewrite bind_Ok. destruct (upd_total g k (DependencyGraph.mkDep p (x :: gchain g k)) (DependencyGraph.memAllocCounter g + 1) Hk) as (g' & E).
  exists g'. split; [done|]. by apply gchain_upd in E as (_ & ? & ?).
Qed.
Lemma graph_setInst_ok g k x : 0 <= k < Z.of_nat (length (DependencyGraph.dependGraph g)) -> exists g', DependencyGraph.setInst g k x = Ok g' /\ rechain g g' k (gchain g k).
Proof.
  intros Hk. unfold DependencyGraph.setInst. destruct (gchain_get g k Hk) as (p & ->). rewrite bind_Ok. destruct (upd_total g k (DependencyGraph.mkDep (Some x) (gchain g k)) (DependencyGraph.memAllocCounter g) Hk) as (g' & E).
  exists g'. split; [done|]. by apply gchain_upd in E as (_ & ? & ?).
Qed.
Lemma graph_clearInst_ok g k : 0 <= k < Z.of_nat (length (DependencyGraph.dependGraph g)) -> exists g', DependencyGraph.clearInst g k = Ok g' /\ rechain g g' k (gchain g k).
Proof.
  intros Hk. unfold DependencyGraph.clearInst. destruct (gchain_get g k Hk) as (p & ->). rewrite bind_Ok. destruct (upd_total g k (DependencyGraph.mkDep None (gchain g k)) (DependencyGraph.memAllocCounter g) Hk) as (g' & E).
  exists g'. split; [done|]. by apply gchain_upd in E as (_ & ? & ?).
Qed.
Lemma graph_pop_ok g k : 0 <= k < Z.of_nat (length (DependencyGraph.dependGraph g)) ->
  match gchain g k with
  | [] => DependencyGraph.pop g k = Ok (None, g)
  | x :: l => exists g', DependencyGraph.pop g k = Ok (Some x, g') /\ rechain g g' k l
  end.
Proof.
  intros Hk. unfold DependencyGraph.pop. destruct (gchain_get g k Hk) as (p & ->). rewrite bind_Ok. cbn [DependencyGraph.consumers DependencyGraph.producer]. destruct (gchain g k) as [|x l]; [done|].
  destruct (upd_total g k (DependencyGraph.mkDep p l) (DependencyGraph.memAllocCounter g - 1) Hk) as (g' & E). exists g'. rewrite E. split; [done|]. by apply gchain_upd in E as (_ & ? & ?).
Qed.
Lemma graph_empty_ok g k : 0 <= k < Z.of_nat (length (DependencyGraph.dependGraph g)) -> DependencyGraph.empty g k = Ok (bool_decide (gchain g k = [])).
Proof. intros Hk. unfold DependencyGraph.empty. by destruct (gchain_get g k Hk) as (p & ->). Qed.

Lemma remove_loop_ok l x : x ∈ l -> exists l' n, DependencyGraph.remove_loop l x = Ok (l', n) /\ l ≡ₚ x :: l'.
Proof.
  induction l as [|y l IH]; [by intros ?%not_elem_of_nil|]. cbn [DependencyGraph.remove_loop]. destruct (Z.eqb_spec y x) as [->|Hne]; [by exists l, 0|]. intros [->|Hx]%elem_of_cons; [done|].
  destruct (IH Hx) as (l' & n & -> & Hp). rewrite bind_Ok. exists (y :: l'), (n + 1). split; [done|]. rewrite Hp. constructor.
Qed.
(** An instruction that is not there can only be taken out of an empty chain. *)
Lemma graph_remove_ok g k x : 0 <= k < Z.of_nat (length (DependencyGraph.dependGraph g)) -> x ∈ gchain g k \/ gchain g k = [] ->
  exists g' l', DependencyGraph.remove g k x = Ok g' /\ rechain g g' k l' /\ (gchain g k ≡ₚ x :: l' \/ gchain g k = [] /\ l' = []).
Proof.
  intros Hk Hx. unfold DependencyGraph.remove. destruct (gchain_get g k Hk) as (p & ->). rewrite bind_Ok. cbn [DependencyGraph.consumers DependencyGraph.producer]. case_bool_decide as He.
  - exists g, []. split; [done|]. split; [|by right]. split; [done|]. intros k' Hk'. destruct (decide (k = k')) as [<-|]; done.
  - destruct Hx as [Hx|]; [|done]. destruct (remove_loop_ok _ x Hx) as (l' & n & -> & Hp). rewrite bind_Ok. destruct (upd_total g k (DependencyGraph.mkDep p l') (DependencyGraph.memAllocCounter g - 1) Hk) as (g' & E).
    rewrite E, bind_Ok. apply gchain_upd in E as (_ & E1 & E2). eexists _, l'. split; [done|]. split; [by split|by left].
Qed.

(** ** Changes of the status bits *)

(** Nothing but status bits that issue does not look at. *)
Record quiet (q q' : InstructionQueue.t) : Prop := {
  qt_eq : q' = InstructionQueue.set_insts q (insts q');
  qt_stat : stat <$> insts q' = stat <$> insts q
}.
Lemma quiet_refl q : quiet q q.
Proof. split; [by destruct q|done]. Qed.
Lemma quiet_trans q1 q2 q3 : quiet q1 q2 -> quiet q2 q3 -> quiet q1 q3.
Proof. intros [E1 S1] [E2 S2]. split; [rewrite E2, E1; simpl; by rewrite E2|congruence]. Qed.

(** Operands are the same when nothing they mention has changed. *)
Ltac same_operands H := destruct H as [[? ? ? ?] ?]; by split; [constructor|].

Section deps.
Variable V : gmap Z Stat.
Variable W : gmap Z RegStat.
Notation sched := (sched V).
Notation env := (env V).
Notation handed := (handed V).

Lemma quiet_sched q q' : quiet q q' -> sched q -> sched q'.
Proof. intros [-> E] [E1 E2]. split; simpl in *; [congruence|done]. Qed.
Lemma quiet_env q q' : quiet q q' -> env q -> env q'.
Proof. intros [-> E] []. by constructor. Qed.

Lemma upd_inst_quiet q x st f : sched q -> V !! x = Some st -> (forall d, DynInst.seqNum (f d) = DynInst.seqNum d /\ DynInst.threadNumber (f d) = DynInst.threadNumber d /\ DynInst.has (f d) DynInst.Squashed = DynInst.has d DynInst.Squashed) ->
  exists q' d, upd_inst q x f = Ok q' /\ quiet q q' /\ (forall b, flag q x b = DynInst.has d b) /\ forall y b, flag q' y b = if decide (x = y) then DynInst.has (f d) b else flag q y b.
Proof.
  intros Hs Hx Hf. destruct (inst_V V q x st (s_insts _ _ Hs) Hx) as (i & Ei & _). rewrite (upd_inst_eq q x i f Ei). unfold inst in Ei. destruct (insts q !! x) as [j|] eqn:Ej; [|done]. injection Ei as ->.
  eexists _, (dyn i). split; [done|]. split_and!.
  - split; [done|]. simpl. rewrite fmap_insert. replace (stat _) with (stat i); [by rewrite <- fmap_insert, insert_id|]. destruct (Hf (dyn i)) as (E1 & E2 & E3). unfold stat. simpl. by rewrite E1, E2, E3.
  - intros b. unfold flag. by rewrite Ej.
  - intros y b. unfold flag. simpl. by apply flag_upd.
Qed.

Lemma upd_set q x st b : sched q -> V !! x = Some st -> b <> DynInst.Squashed ->
  exists q', upd_inst q x (DynInst.set b) = Ok q' /\ quiet q q' /\ forall y c, flag q' y c = flag q y c || bool_decide (x = y /\ b = c).
Proof.
  intros Hs Hx Hb. destruct (upd_inst_quiet q x st (DynInst.set b) Hs Hx) as (q' & d & E & Hq & Hd & Hf).
  { intros d. split_and!; try done. by rewrite DynInst.has_set, bool_decide_false. }
  exists q'. split_and!; try done. intros y c. rewrite Hf. destruct (decide (x = y)) as [<-|Hne]; [|by rewrite bool_decide_false, orb_false_r by tauto]. rewrite DynInst.has_set, Hd, orb_comm. f_equal.
  apply bool_decide_ext. tauto.
Qed.
Lemma upd_reset q x st b : sched q -> V !! x = Some st -> b <> DynInst.Squashed ->
  exists q', upd_inst q x (DynInst.reset b) = Ok q' /\ quiet q q' /\ forall y c, flag q' y c = flag q y c && negb (bool_decide (x = y /\ b = c)).
Proof.
  intros Hs Hx Hb. destruct (upd_inst_quiet q x st (DynInst.reset b) Hs Hx) as (q' & d & E & Hq & Hd & Hf).
  { intros d. split_and!; try done. by rewrite DynInst.has_reset, bool_decide_false, andb_true_r. }
  exists q'. split_and!; try done. intros y c. rewrite Hf. destruct (decide (x = y)) as [<-|Hne]; [|by rewrite bool_decide_false, andb_true_r by tauto]. rewrite DynInst.has_reset, Hd. do 2 f_equal.
  apply bool_decide_ext. tauto.
Qed.

(** ** The invariant *)
Definition live (s : t) (x : Z) (r : RegInst) : Prop :=
  flag (iq s) x DynInst.Issued = false \/ (memOpDone r = false /\ exists st, V !! x = Some st /\ st_mem st = true).

(** The operands of an instruction, the chains and the scoreboard agree. *)
Record operands (s : t) (y : Z) (r : RegInst) : Prop := {
  w_len : (length (srcRegs r) <= length (readySrc r))%nat /\ numSrcRegs r < 2 ^ 32;
  w_src : forall p, p ∈ slots r -> 0 <= p.1 /\ (p.1 < numPhysRegs s \/ p.2 = true);
  w_chain : forall k, 0 <= k < numPhysRegs s -> cnt y (chain s k) = if sb s k then 0%nat else pend (slots r) k;
  w_ready : readyRegs r = Z.of_nat (got (numPhysRegs s) (sb s) (slots r))
}.
Definition waits (s : t) (y : Z) (r : RegInst) : Prop := operands s y r /\ (readyRegs r = numSrcRegs r -> handed (iq s) y).

(** [X] are the instructions whose operands are being looked at. *)
Record deps (X : Z -> Prop) (s : t) : Prop := {
  d_sched : sched (iq s);
  d_env : env (iq s);
  d_static : rstat <$> regs s = W;
  d_size : 0 <= numPhysRegs s /\ length (entries s) = Z.to_nat (numPhysRegs s) /\ length (regScoreboard s) = Z.to_nat (numPhysRegs s);
  d_tids : length (instList s) = length (count (iq s)) /\ length (squashedSeqNum s) = length (count (iq s));
  d_member : forall tid l x, instList s !! tid = Some l -> x ∈ l -> exists st w, V !! x = Some st /\ W !! x = Some w /\ st_tid st = Z.of_nat tid;
  d_sorted : forall l, l ∈ instList s -> StronglySorted (fun x y => sq V x < sq V y) l;
  d_chain : forall k y, 0 <= k -> y ∈ chain s k -> member s y /\ (exists w, W !! y = Some w /\ rs_special w = false) /\ flag (iq s) y DynInst.Issued = false /\ flag (iq s) y DynInst.CanIssue = false;
  d_ready : forall k y, 0 <= k -> y ∈ chain s k -> y ∉ all_ready (iq s);
  d_waits : forall y r, ~ X y -> member s y -> regs s !! y = Some r -> special r = false -> live s y r -> waits s y r;
  d_nonspec : forall n y, nonSpecInsts s !! n = Some y -> exists st w, V !! y = Some st /\ W !! y = Some w /\ rs_special w = true
}.

Lemma sorted_nodup l : StronglySorted (fun x y => sq V x < sq V y) l -> NoDup l.
Proof. induction 1 as [|x l Hl IH Hx]; [constructor|]. constructor; [|done]. intros Hin. rewrite Forall_forall in Hx. specialize (Hx x Hin). simpl in Hx. lia. Qed.

(** The queue inside changes, and what is in a chain stays there. *)
Lemma deps_iq X s q : deps X s -> sched q -> env q -> length (count q) = length (count (iq s)) ->
  (forall x, flag (iq s) x DynInst.Issued = true -> flag q x DynInst.Issued = true) ->
  (forall k x, 0 <= k -> x ∈ chain s k -> flag q x DynInst.Issued = false /\ flag q x DynInst.CanIssue = false /\ x ∉ all_ready q) ->
  (forall y, handed (iq s) y -> handed q y) -> deps X (set_iq s q).
Proof.
  intros Hd Hs He Hl Hi Hc Hh. constructor; try apply Hd; try done.
  - cbn [set_iq iq instList squashedSeqNum]. rewrite Hl. apply Hd.
  - intros k y Hk Hy. destruct (d_chain _ _ Hd k y Hk Hy) as (? & ? & _). destruct (Hc k y Hk Hy) as (? & ? & _). by split_and!.
  - intros k y Hk Hy. by destruct (Hc k y Hk Hy) as (_ & _ & ?).
  - intros y r HX Hm Hr Hsp Hlive. destruct (d_waits _ _ Hd y r HX Hm Hr Hsp) as [[H1 H2 H3 H4] H5]; [|by split; [constructor|auto]]. destruct Hlive as [Hl'|Hl']; [left|by right].
    cbn [set_iq iq] in Hl'. destruct (flag (iq s) y DynInst.Issued) eqn:E; [|done]. apply Hi in E. congruence.
Qed.

(** What follows from the invariant for an instruction in the list. *)
Lemma member_known X s y : deps X s -> member s y -> exists st w r, V !! y = Some st /\ W !! y = Some w /\ regs s !! y = Some r /\ rstat r = w.
Proof.
  intros Hd (l & Hl & Hy). apply list_elem_of_lookup in Hl as (tid & Hl). destruct (d_member _ _ Hd tid l y Hl Hy) as (st & w & Hst & Hw & _).
  pose proof Hw as Hw'. rewrite <- (d_static _ _ Hd), lookup_fmap in Hw'. destruct (regs s !! y) as [r|]; [|done]. injection Hw' as Hr. by exists st, w, r.
Qed.

(** Calls of the memory dependence units. *)
Lemma handed_calls q q' y : (forall c, c ∈ memCalls q -> c ∈ memCalls q') -> all_ready q' = all_ready q -> (forall x, flag q' x DynInst.Issued = flag q x DynInst.Issued) -> handed q y -> handed q' y.
Proof. intros Hc Ha Hf. unfold InstQueueRegsProof.handed. rewrite Ha, Hf. intros [?|[?|[?|?]]]; auto. Qed.

Lemma deps_call X s c : deps X s -> deps X (call s c).
Proof.
  intros Hd. apply deps_iq; try done.
  - by destruct (d_sched _ _ Hd).
  - by destruct (d_env _ _ Hd).
  - intros k x Hk Hx. destruct (d_chain _ _ Hd k x Hk Hx) as (_ & _ & ? & ?). split_and!; try done. by apply (d_ready _ _ Hd k).
  - intros y. apply handed_calls; try done. simpl. set_solver.
Qed.

(** Status bits other than the two that count here. *)
Lemma deps_quiet X s q : deps X s -> quiet (iq s) q -> (forall x, flag q x DynInst.Issued = flag (iq s) x DynInst.Issued) ->
  (forall k x, 0 <= k -> x ∈ chain s k -> flag q x DynInst.CanIssue = false) -> deps X (set_iq s q).
Proof.
  intros Hd Hq Hf Hc. pose proof (qt_eq _ _ Hq) as E. apply deps_iq; try done.
  - by eapply quiet_sched, Hd.
  - by eapply quiet_env, Hd.
  - by rewrite E.
  - intros x. by rewrite Hf.
  - intros k x Hk Hx. destruct (d_chain _ _ Hd k x Hk Hx) as (_ & _ & ? & _). rewrite Hf. split_and!; [done|by eapply Hc|]. rewrite E. by apply (d_ready _ _ Hd k).
  - intros y. apply handed_calls; [by rewrite E|by rewrite E|done].
Qed.

Lemma deps_free X s n c : deps X s -> 0 <= n < 2 ^ 32 -> length c = length (count (iq s)) -> deps X (set_iq s (set_free (iq s) n c)).
Proof.
  intros Hd Hn Hl. apply deps_iq; try done.
  - by destruct (d_sched _ _ Hd).
  - destruct (d_env _ _ Hd). constructor; try done. simpl. by rewrite Hl.
  - intros k x Hk Hx. destruct (d_chain _ _ Hd k x Hk Hx) as (_ & _ & ? & ?). split_and!; try done. by apply (d_ready _ _ Hd k).
Qed.
Lemma add_count_ok X s tid n : deps X s -> 0 <= tid < Z.of_nat (length (count (iq s))) -> exists c, add_count s tid n = Ok (set_iq s (set_free (iq s) (freeEntries (iq s)) c)) /\
  length c = length (count (iq s)).
Proof.
  intros Hd Ht. unfold add_count. destruct (vget_lt (count (iq s)) tid Ht) as (k & -> & _). rewrite bind_Ok, vset_lt, bind_Ok by done. eexists. split; [done|]. by rewrite length_insert.
Qed.
Lemma check_free_ok X s : deps X s -> check_free s = Ok ().
Proof.
  intros Hd. destruct (d_env _ _ Hd) as [_ _ _ Hf _]. unfold check_free, countInsts. replace (_ =? _) with true; [done|]. symmetry. apply Z.eqb_eq.
  unfold sint, uint. pose proof (Z.mod_eq (numEntries s - freeEntries (iq s) + 2 ^ (32 - 1)) (2 ^ 32) ltac:(lia)) as E. set (m := (_ + 2 ^ (32 - 1)) mod 2 ^ 32) in *. clearbody m.
  replace (numEntries s - _) with (freeEntries (iq s) + ((numEntries s - freeEntries (iq s) + 2 ^ (32 - 1)) / 2 ^ 32) * 2 ^ 32) by lia. rewrite Z_mod_plus_full. symmetry. by apply Z.mod_small.
Qed.
(** ** Operands *)

(** The operands that are found to be there when the instruction enters. *)
Definition marks (n : Z) (b : Z -> bool) (P : list (Z * bool)) : nat := length (filter (fun p => p.2 = false /\ p.1 < n /\ b p.1 = true) P).
Definition noted (n : Z) (b : Z -> bool) (p : Z * bool) : Z * bool := (p.1, p.2 || ((p.1 <? n) && b p.1)).

Definition flagged (P : list (Z * bool)) : nat := length (filter (fun p => p.2 = true) P).
Lemma got_split n b P : got n b P = (flagged P + marks n b P)%nat.
Proof.
  unfold flagged, marks, got. induction P as [|[a f] P IH]; [done|]. rewrite !filter_cons. simpl. destruct f.
  - rewrite (decide_True (P := true = true \/ _)) by (by left). rewrite (decide_True (P := true = true)) by done. rewrite decide_False by (by intros [? _]). simpl. lia.
  - rewrite (decide_False (P := false = true)) by done. destruct (decide (false = true \/ a < n /\ b a = true)) as [[?|Hp]|Hp]; [done| |].
    + rewrite decide_True by done. simpl. lia.
    + rewrite decide_False by tauto. lia.
Qed.
Lemma pend_noted n b P k : b k = false -> pend (map (noted n b) P) k = pend P k.
Proof.
  intros Hb. induction P as [|[a f] P IH]; [done|]. simpl map. rewrite !pend_cons, IH. f_equal. simpl. destruct (decide (a = k)) as [->|Hne].
  - by rewrite Hb, andb_false_r, orb_false_r.
  - by rewrite !decide_False by tauto.
Qed.
Lemma got_noted n b P : got n b (map (noted n b) P) = got n b P.
Proof.
  induction P as [|[a f] P IH]; [done|]. simpl map. rewrite !got_cons, IH. f_equal. simpl. destruct f; [done|]. simpl.
  destruct (Z.ltb_spec a n), (b a); simpl; try done. by rewrite !decide_True by auto.
Qed.

Lemma marks_cons n b p P : marks n b (p :: P) = ((if decide (p.2 = false /\ (p.1 < n)%Z /\ b p.1 = true) then 1 else 0) + marks n b P)%nat.
Proof. unfold marks. rewrite filter_cons. by destruct (decide _). Qed.

Lemma mark_ok s x st r : sched (iq s) -> V !! x = Some st -> regs s !! x = Some r -> 0 <= readyRegs r -> readyRegs r + 1 < 2 ^ 32 ->
  exists q, markSrcRegReady s x = Ok (set_iq (set_regs s (<[x := set_src r (readySrc r) (readyRegs r + 1)]> (regs s))) q) /\ quiet (iq s) q /\
    forall y c, flag q y c = flag (iq s) y c || bool_decide (x = y /\ DynInst.CanIssue = c /\ readyRegs r + 1 = numSrcRegs r).
Proof.
  intros Hs Hx Hr H0 H1. unfold markSrcRegReady, upd_reg, reg. rewrite Hr. cbn [deref]. rewrite !bind_Ok. rewrite uint_small by lia. destruct (Z.eqb_spec (readyRegs r + 1) (numSrcRegs r)) as [E|E].
  - unfold upd_dyn. cbn [set_regs iq]. destruct (upd_set (iq s) x st DynInst.CanIssue Hs Hx) as (q & Eq & Hq & Hf); [done|]. rewrite Eq, bind_Ok. exists q. split; [done|]. split; [done|]. intros y c. rewrite Hf. f_equal. apply bool_decide_ext. tauto.
  - exists (iq s). split; [done|]. split; [apply quiet_refl|]. intros y c. rewrite bool_decide_false, orb_false_r by tauto. done.
Qed.

Lemma slots_lookup r j : (length (srcRegs r) <= length (readySrc r))%nat -> forall p D, drop j (slots r) = p :: D ->
  vget (srcRegs r) (Z.of_nat j) = Ok p.1 /\ vget (readySrc r) (Z.of_nat j) = Ok p.2 /\ (j < length (readySrc r))%nat /\ drop (S j) (slots r) = D /\ take (S j) (slots r) = take j (slots r) ++ [p].
Proof.
  intros Hl [a b] D Hd. assert (Hj : slots r !! j = Some (a, b)) by (rewrite <- (Nat.add_0_r j), <- lookup_drop, Hd; done). unfold slots in Hj. apply lookup_zip_Some in Hj as [Ha Hb].
  split_and!; [apply vget_Ok; rewrite Nat2Z.id; split; [lia|done]..|by apply lookup_lt_Some in Hb| |].
  - replace (S j) with (j + 1)%nat by lia. rewrite <- drop_drop, Hd. done.
  - apply take_S_r. unfold slots. by apply lookup_zip_Some.
Qed.

Lemma slots_insert r j p D : (length (srcRegs r) <= length (readySrc r))%nat -> drop j (slots r) = p :: D -> forall n,
  slots (set_src r (<[j := true]> (readySrc r)) n) = take j (slots r) ++ (p.1, true) :: D.
Proof.
  intros Hl Hd n. destruct (slots_lookup r j Hl p D Hd) as ([_ Ha]%vget_Ok & _ & Hj & HD & _). rewrite Nat2Z.id in Ha. unfold slots. simpl.
  rewrite <- (list_insert_id (srcRegs r) j p.1 Ha) at 1. rewrite <- insert_zip_with. rewrite insert_take_drop by (apply lookup_lt_Some in Ha; rewrite length_zip_with; lia). by rewrite <- HD.
Qed.

Lemma dependents_ok x st D j s r rv : sched (iq s) -> V !! x = Some st -> regs s !! x = Some r -> drop j (slots r) = D ->
  (length (srcRegs r) <= length (readySrc r))%nat -> (forall p, p ∈ D -> 0 <= p.1 /\ (p.1 < numPhysRegs s \/ p.2 = true)) ->
  length (entries s) = Z.to_nat (numPhysRegs s) -> length (regScoreboard s) = Z.to_nat (numPhysRegs s) -> 0 <= readyRegs r -> readyRegs r + Z.of_nat (length D) < 2 ^ 32 ->
  exists rv' q r' g, dependents_loop s x rv (seqZ (Z.of_nat j) (Z.of_nat (length D))) = Ok (rv', set_graph (set_iq (set_regs s (<[x := r']> (regs s))) q) g (regScoreboard s)) /\
    quiet (iq s) q /\ (forall y c, flag q y c = flag (iq s) y c ||
      bool_decide (x = y /\ DynInst.CanIssue = c /\ readyRegs r < numSrcRegs r <= readyRegs r + Z.of_nat (marks (numPhysRegs s) (sb s) D))) /\
    r' = set_src r (readySrc r') (readyRegs r + Z.of_nat (marks (numPhysRegs s) (sb s) D)) /\ slots r' = take j (slots r) ++ map (noted (numPhysRegs s) (sb s)) D /\
    length (readySrc r') = length (readySrc r) /\
    length (DependencyGraph.dependGraph g) = length (entries s) /\ forall k, 0 <= k < numPhysRegs s -> gchain g k = replicate (if sb s k then 0 else pend D k) x ++ chain s k.
Proof.
  revert j s r rv. induction D as [|p D IH]; intros j s r rv Hs Hx Hr Hd Hl Hp Hg Hb H0 H1.
  - exists rv, (iq s), r, (dependGraph s). split_and!; try done.
    + simpl. rewrite insert_id by done. by destruct s.
    + apply quiet_refl.
    + intros y c. rewrite bool_decide_false, orb_false_r; [done|]. unfold marks. simpl. intros (_ & _ & ?). lia.
    + unfold marks. simpl. rewrite Z.add_0_r. by destruct r.
    + simpl. rewrite <- Hd. symmetry. apply take_drop.
    + intros k Hk. by destruct (sb s k).
  - destruct (slots_lookup r j Hl p D Hd) as (Ea & Eb & Hj & HD & HT). destruct (Hp p) as [Hp0 Hp1]; [left|]. assert (HpD : forall p, p ∈ D -> 0 <= p.1 /\ (p.1 < numPhysRegs s \/ p.2 = true)) by (intros q Hq; apply Hp; by right).
    simpl length in H1. rewrite seqZ_cons by (simpl; lia). replace (Z.pred (Z.of_nat (length (p :: D)))) with (Z.of_nat (length D)) by (simpl; lia). rewrite <- Nat2Z.inj_succ.
    cbn [dependents_loop]. unfold isReadySrcRegIdx, reg. rewrite Hr. cbn [deref]. rewrite !bind_Ok, Eb, bind_Ok.
    destruct (p.2) eqn:Ep.
    + destruct (IH (S j) s r rv) as (rv' & q & r' & g & E & Hq & Hf & Hr' & Hsl & Hlen & Hgl & Hch); try done; [simpl; lia|]. exists rv', q, r', g. split; [exact E|].
      rewrite marks_cons, decide_False by (by rewrite Ep; intros [? _]). split_and!; try done.
      * rewrite Hsl, HT, <- app_assoc. simpl. f_equal. f_equal. unfold noted. rewrite Ep. destruct p. simpl in *. by subst.
      * intros k Hk. rewrite (Hch k Hk), pend_cons, decide_False by (by rewrite Ep; intros [_ ?]). done.
    + destruct Hp1 as [Hp1|]; [|congruence]. rewrite Ea, bind_Ok. rewrite (proj2 (Z.leb_gt _ _)) by lia.
      destruct (lookup_lt_is_Some_2 (regScoreboard s) (Z.to_nat p.1)) as [b Esb]; [lia|]. assert (vget (regScoreboard s) p.1 = Ok b) as -> by by apply vget_Ok. rewrite bind_Ok.
      assert (Hsb : sb s p.1 = b) by (unfold sb; by rewrite Esb). destruct b; cbn [negb].
      * unfold markSrcRegReady_idx, reg, upd_reg. rewrite Hr. cbn [deref]. rewrite bind_Ok, vset_lt, bind_Ok by lia. rewrite Nat2Z.id. unfold reg. rewrite Hr. cbn [deref]. rewrite !bind_Ok.
        set (r1 := set_src r (<[j := true]> (readySrc r)) (readyRegs r)). set (s1 := set_regs s (<[x := r1]> (regs s))).
        destruct (mark_ok s1 x st r1) as (q1 & -> & Hq1 & Hf1); try done; [simpl; by rewrite lookup_insert_eq|simpl; lia|]. rewrite bind_Ok.
        set (r2 := set_src r1 (readySrc r1) (readyRegs r1 + 1)).
        match goal with |- context [dependents_loop ?x _ _ _] => set (s2 := x) end.
        assert (Es2 : slots r2 = take j (slots r) ++ (p.1, true) :: D) by (apply (slots_insert r j p D Hl Hd)).
        assert (Hlj : (j < length (slots r))%nat) by (apply (f_equal length) in Hd; rewrite length_drop in Hd; simpl in Hd; lia).
        destruct (IH (S j) s2 r2 rv) as (rv' & q & r' & g & E & Hq & Hf & Hr' & Hsl & Hlen & Hgl & Hch); try done; try (simpl; lia).
        -- by apply (quiet_sched (iq s1)).
        -- simpl. by rewrite lookup_insert_eq.
        -- rewrite Es2. replace (S j) with (length (take j (slots r)) + 1)%nat by (rewrite length_take; lia). by rewrite drop_app_add.
        -- simpl. by rewrite length_insert.
        -- exists rv', q, r', g. rewrite E. split; [f_equal; f_equal; unfold s2, s1; simpl; by rewrite insert_insert_eq, insert_insert_eq|]. rewrite marks_cons, decide_True by done. split_and!; try done.
           ++ by eapply quiet_trans.
           ++ intros y c. rewrite Hf. change (iq s2) with q1. rewrite Hf1, <- orb_assoc. f_equal. change (iq s1) with (iq s). apply eq_true_iff_eq. rewrite orb_true_iff, !bool_decide_eq_true. change (readyRegs r2) with (readyRegs r + 1). change (readyRegs r1) with (readyRegs r).
              change (numSrcRegs r2) with (numSrcRegs r). change (numSrcRegs r1) with (numSrcRegs r). change (marks (numPhysRegs s2) (sb s2) D) with (marks (numPhysRegs s) (sb s) D). rewrite Nat2Z.inj_add. split; [intros [(?&?&?)|(?&?&?)]; split_and!; try done; lia|].
              intros (? & ? & ? & ?). destruct (decide (readyRegs r + 1 = numSrcRegs r)); [left|right]; split_and!; try done; lia.
           ++ rewrite Hr' at 1. change (marks (numPhysRegs s2) (sb s2) D) with (marks (numPhysRegs s) (sb s) D). change (readyRegs r2) with (readyRegs r + 1). rewrite Nat2Z.inj_add, Z.add_assoc. done.
           ++ rewrite Hsl, Es2. change (sb s2) with (sb s). change (numPhysRegs s2) with (numPhysRegs s). rewrite (take_app_ge _ _ (S j)) by (rewrite length_take; lia). replace (S j - _)%nat with 1%nat by (rewrite length_take; lia). rewrite <- app_assoc. simpl. f_equal.
              f_equal. unfold noted. rewrite Hsb, (proj2 (Z.ltb_lt _ _)) by done. by rewrite orb_true_r.
           ++ rewrite Hlen. simpl. by rewrite length_insert.
           ++ intros k Hk. rewrite (Hch k Hk). change (sb s2 k) with (sb s k). change (chain s2 k) with (chain s k). destruct (sb s k) eqn:Ek; [done|]. rewrite pend_cons, decide_False; [done|]. intros [<- _]. congruence.
      * destruct (graph_insert_ok (dependGraph s) p.1 x) as (g1 & -> & Hg1 & Hc1); [unfold entries in Hg; lia|]. rewrite bind_Ok.
        destruct (IH (S j) (set_graph s g1 (regScoreboard s)) r true) as (rv' & q & r' & g & E & Hq & Hf & Hr' & Hsl & Hlen & Hgl & Hch); try done; [unfold entries in *; simpl; by rewrite Hg1|lia|].
        exists rv', q, r', g. rewrite E. split; [done|]. rewrite marks_cons, decide_False by (intros (_ & _ & ?); congruence). split_and!; try done.
        -- rewrite Hsl, HT, <- app_assoc. simpl. f_equal. f_equal. change (sb (set_graph s g1 (regScoreboard s))) with (sb s). unfold noted. rewrite Hsb, Ep, andb_false_r. destruct p. simpl in *. by subst.
        -- rewrite Hgl. unfold entries. simpl. done.
        -- intros k Hk. rewrite (Hch k Hk). change (sb (set_graph s g1 (regScoreboard s)) k) with (sb s k). unfold chain. simpl. rewrite Hc1 by lia. rewrite pend_cons. destruct (decide (p.1 = k)) as [<-|Hne].
           ++ rewrite Hsb, decide_True by done. simpl. by rewrite (app_comm_cons (replicate _ _)), replicate_cons_app, <- app_assoc.
           ++ rewrite decide_False by tauto. done.
Qed.

(** ** Producers *)
Lemma producers_ok x l s : length (entries s) = Z.to_nat (numPhysRegs s) -> length (regScoreboard s) = Z.to_nat (numPhysRegs s) ->
  (forall k, k ∈ l -> k < numPhysRegs s -> 0 <= k /\ chain s k = []) ->
  exists g b, producers_loop s x l = Ok (set_graph s g b) /\ length (DependencyGraph.dependGraph g) = length (entries s) /\ length b = length (regScoreboard s) /\
    (forall k, 0 <= k -> gchain g k = chain s k) /\ forall k, 0 <= k < numPhysRegs s -> default false (b !! Z.to_nat k) = sb s k && negb (bool_decide (k ∈ l)).
Proof.
  revert s. induction l as [|k l IH]; intros s Hg Hb Hl.
  - exists (dependGraph s), (regScoreboard s). split; [by destruct s|]. split_and!; try done. intros k Hk. rewrite bool_decide_false by apply not_elem_of_nil. by rewrite andb_true_r.
  - assert (Hl' : forall k', k' ∈ l -> k' < numPhysRegs s -> 0 <= k' /\ chain s k' = []) by (intros k' Hk'; apply Hl; by right). cbn [producers_loop]. destruct (Z.leb_spec (numPhysRegs s) k) as [Hk|Hk].
    + destruct (IH s Hg Hb Hl') as (g & b & E & E1 & E2 & E3 & E4). exists g, b. split_and!; try done. intros k' Hk'. rewrite (E4 k' Hk'). do 2 f_equal. apply bool_decide_ext. rewrite elem_of_cons. split; [by right|intros [->|?]; [lia|done]].
    + destruct (Hl k) as [H0 Hc]; [left|done|]. unfold entries in Hg. rewrite graph_empty_ok by lia. unfold chain in Hc. rewrite Hc, bool_decide_true by done. rewrite bind_Ok. cbn [negb].
      destruct (graph_setInst_ok (dependGraph s) k x) as (g1 & -> & Hg1 & Hc1); [lia|]. rewrite bind_Ok, vset_lt, bind_Ok by lia. set (s1 := set_graph s g1 (<[Z.to_nat k := false]> (regScoreboard s))).
      assert (Hch : forall k', 0 <= k' -> chain s1 k' = chain s k') by (intros k' Hk'; unfold chain; simpl; rewrite Hc1 by done; by destruct (decide (k = k')) as [<-|]).
      destruct (IH s1) as (g & b & E & E1 & E2 & E3 & E4).
      * unfold entries. simpl. by rewrite Hg1.
      * simpl. by rewrite length_insert.
      * intros k' Hk' Hlt. destruct (Hl' k' Hk' Hlt) as [? ?]. split; [done|]. by rewrite Hch.
      * exists g, b. split; [exact E|]. split_and!.
        -- rewrite E1. unfold entries. simpl. by rewrite Hg1.
        -- rewrite E2. simpl. by rewrite length_insert.
        -- intros k' Hk'. by rewrite (E3 k' Hk'), Hch.
        -- intros k' Hk'. rewrite (E4 k' Hk'). unfold sb. simpl. destruct (decide (k = k')) as [<-|Hne].
           ++ rewrite list_lookup_insert_eq by lia. rewrite (bool_decide_true (k ∈ k :: l)) by left. simpl. by rewrite andb_false_r.
           ++ rewrite list_lookup_insert_ne by lia. do 2 f_equal. apply bool_decide_ext. rewrite elem_of_cons. split; [by right|intros [->|?]; [done|done]].
Qed.

Lemma operands_producers s y r g (b : list bool) (l : list Z) : operands s y r -> length (DependencyGraph.dependGraph g) = length (entries s) -> (forall k, 0 <= k -> gchain g k = chain s k) ->
  (forall k, k ∈ l -> k < numPhysRegs s -> 0 <= k /\ chain s k = []) ->
  (forall k, 0 <= k < numPhysRegs s -> default false (b !! Z.to_nat k) = sb s k && negb (bool_decide (k ∈ l))) -> (forall k, k ∈ l -> k < numPhysRegs s -> k ∉ srcRegs r) -> operands (set_graph s g b) y r.
Proof.
  intros [H1 H2 H3 H4] Hg Hc Hl Hb Hn.
  assert (Hs : forall p, p ∈ slots r -> p.1 ∈ srcRegs r) by (intros [a f] Hp; apply list_elem_of_lookup in Hp as (i & Hp); unfold slots in Hp; apply lookup_zip_Some in Hp as [Ha _]; by eapply list_elem_of_lookup_2).
  constructor; try done.
  - intros k Hk. change (numPhysRegs (set_graph s g b)) with (numPhysRegs s) in Hk. change (cnt y (gchain g k) = if default false (b !! Z.to_nat k) then 0%nat else pend (slots r) k). rewrite (Hc k), (H3 k) by lia. rewrite (Hb k) by done. destruct (decide (k ∈ l)) as [Hkl|Hkl].
    + rewrite (bool_decide_true (k ∈ l)) by done. rewrite andb_false_r. destruct (sb s k); [|done]. symmetry. destruct (pend (slots r) k) as [|m] eqn:E; [done|]. exfalso.
      assert ((k, false) ∈ slots r) as Hp by (apply pend_elem; lia). apply (Hn k Hkl); [lia|]. by apply Hs in Hp.
    + rewrite (bool_decide_false (k ∈ l)) by done. by rewrite andb_true_r.
  - rewrite H4. f_equal. symmetry. apply got_ext. intros p Hp Hf Hlt. change (numPhysRegs (set_graph s g b)) with (numPhysRegs s) in Hlt. change (default false (b !! Z.to_nat p.1) = sb s p.1). rewrite Hb by (split; [by apply H2|done]). rewrite bool_decide_false; [by rewrite andb_true_r|].
    intros Hpl. apply (Hn p.1 Hpl Hlt). by apply Hs.
Qed.

(** ** Steps on the invariant *)

(** The graph and the scoreboard change. *)
Lemma deps_graph X s g b : deps X s -> length (DependencyGraph.dependGraph g) = length (entries s) -> length b = length (regScoreboard s) ->
  (forall k y, 0 <= k -> y ∈ gchain g k -> y ∈ chain s k \/
     (member s y /\ (exists w, W !! y = Some w /\ rs_special w = false) /\ flag (iq s) y DynInst.Issued = false /\ flag (iq s) y DynInst.CanIssue = false) /\ y ∉ all_ready (iq s)) ->
  (forall y r, ~ X y -> operands s y r -> member s y -> regs s !! y = Some r -> special r = false -> live s y r -> operands (set_graph s g b) y r) -> deps X (set_graph s g b).
Proof.
  intros Hd Hg Hb Hc Ho. constructor; try apply Hd.
  - destruct (d_size _ _ Hd) as (? & ? & ?). unfold entries. simpl. by rewrite Hg, Hb.
  - intros k y Hk Hy. destruct (Hc k y Hk Hy) as [?|[? _]]; [by apply (d_chain _ _ Hd k y Hk)|done].
  - intros k y Hk Hy. destruct (Hc k y Hk Hy) as [?|[_ ?]]; [by apply (d_ready _ _ Hd k y Hk)|done].
  - intros y r HX Hm Hr Hsp Hl. destruct (d_waits _ _ Hd y r HX Hm Hr Hsp Hl) as [H1 H2]. split; [by apply Ho|done].
Qed.

Lemma deps_regs X s x r r' : deps X s -> X x -> regs s !! x = Some r -> rstat r' = rstat r -> deps X (set_regs s (<[x := r']> (regs s))).
Proof.
  intros Hd HX Hr E. constructor; try apply Hd.
  - simpl. rewrite fmap_insert, E, <- (d_static _ _ Hd). apply insert_id. by rewrite lookup_fmap, Hr.
  - intros y r1 HX' Hm Hr1 Hsp Hl. cbn [set_regs regs] in Hr1. assert (x <> y) as Hne by congruence. rewrite lookup_insert_ne in Hr1 by done.
    same_operands (d_waits _ _ Hd y r1 HX' Hm Hr1 Hsp Hl).
Qed.

Lemma deps_mono (X X' : Z -> Prop) s : deps X s -> (forall y, X y -> X' y) -> deps X' s.
Proof. intros Hd HX. constructor; try apply Hd. intros y r Hy. apply (d_waits _ _ Hd). auto. Qed.

(** Putting an instruction where it is issued from. *)
Lemma push_ready_ok X s x st : deps X s -> V !! x = Some st -> (forall k, 0 <= k -> x ∉ chain s k) ->
  exists q, InstructionQueue.addReadyMemInst (iq s) x = Ok q /\ deps X (set_iq s q) /\ handed q x /\ (forall y c, flag q y c = flag (iq s) y c) /\ (forall y, handed (iq s) y -> handed q y) /\
    count q = count (iq s) /\ freeEntries q = freeEntries (iq s).
Proof.
  intros Hd Hx Hn. destruct (addReady_ok V (iq s) x st (d_sched _ _ Hd) Hx) as (q & E & Hs & Hrest & Hq). exists q.
  assert (Hp : all_ready q ≡ₚ x :: all_ready (iq s)) by (apply (ready_perm (iq s) q x st); [apply (s_order _ _ (d_sched _ _ Hd))|apply (s_order _ _ Hs)|done]).
  assert (Hfl : forall y c, flag q y c = flag (iq s) y c) by (intros; rewrite Hrest; done).
  assert (Hha : forall y, handed (iq s) y -> handed q y).
  { intros y. unfold InstQueueRegsProof.handed. rewrite Hfl. intros [Hy|Hy]; [left; rewrite Hp; by right|right]. by rewrite Hrest. }
  split; [done|]. split_and!; try done; [|left; rewrite Hp; left|by rewrite Hrest|by rewrite Hrest]. apply deps_iq; try done.
  - rewrite Hrest. by destruct (d_env _ _ Hd).
  - by rewrite Hrest.
  - intros y. by rewrite Hfl.
  - intros k y Hk Hy. destruct (d_chain _ _ Hd k y Hk Hy) as (_ & _ & ? & ?). rewrite !Hfl. split_and!; try done. rewrite Hp. intros [->|Hin]%elem_of_cons; [by apply (Hn k)|by apply (d_ready _ _ Hd k y)].
Qed.

Lemma addIfReady_ok X s x st : deps X s -> V !! x = Some st -> (flag (iq s) x DynInst.CanIssue = true -> forall k, 0 <= k -> x ∉ chain s k) ->
  exists q, addIfReady s x = Ok (set_iq s q) /\ deps X (set_iq s q) /\ (flag (iq s) x DynInst.CanIssue = true -> handed q x) /\ (forall y c, flag q y c = flag (iq s) y c) /\
    (forall y, handed (iq s) y -> handed q y) /\ count q = count (iq s) /\ freeEntries q = freeEntries (iq s).
Proof.
  intros Hd Hx Hn. unfold addIfReady, InstructionQueue.addIfReady. destruct (inst_V V (iq s) x st (s_insts _ _ (d_sched _ _ Hd)) Hx) as (i & Ei & Est). rewrite Ei, bind_Ok.
  assert (Hf : flag (iq s) x DynInst.CanIssue = DynInst.has (dyn i) DynInst.CanIssue) by (unfold flag; unfold inst in Ei; by destruct (insts (iq s) !! x); [injection Ei as ->|]). rewrite Hf in *.
  destruct (DynInst.has (dyn i) DynInst.CanIssue); cbn [negb]; [|exists (iq s); rewrite bind_Ok; split; [done|]; split_and!; try done; by destruct s].
  specialize (Hn eq_refl). destruct (isMemRef i).
  - rewrite bind_Ok. eexists. split; [done|]. split_and!; try done; [by apply (deps_call X s)|intros _; right; left; simpl; set_solver|].
    intros y. apply handed_calls; try done. simpl. set_solver.
  - destruct (push_ready_ok X s x st Hd Hx Hn) as (q & E & Hrest). rewrite E, bind_Ok. exists q. split; [done|]. destruct Hrest as (? & ? & ? & ? & ? & ?). split_and!; by try intros _.
Qed.

(** ** Waking *)

(** The members of a chain, and that none of them gets too many operands. *)
Definition wakeable (s : t) (k : Z) (l : list Z) : Prop := forall y r, y ∈ l -> regs s !! y = Some r ->
  0 <= readyRegs r /\ readyRegs r + Z.of_nat (cnt y l) <= numSrcRegs r < 2 ^ 32 /\
  (readyRegs r + Z.of_nat (cnt y l) = numSrcRegs r -> forall k', 0 <= k' -> k' <> k -> y ∉ chain s k').

Lemma iq_wake_loop_ok X k l s n : deps X s -> 0 <= k < numPhysRegs s -> chain s k = l -> (forall y, y ∈ l -> X y) -> wakeable s k l ->
  exists q m g, wake_loop (length l) s k n = Ok (n + Z.of_nat (length l), set_graph (set_iq (set_regs s m) q) g (regScoreboard s)) /\
    deps X (set_graph (set_iq (set_regs s m) q) g (regScoreboard s)) /\ rechain (dependGraph s) g k [] /\
    (forall y r, regs s !! y = Some r -> m !! y = Some (set_src r (readySrc r) (readyRegs r + Z.of_nat (cnt y l)))) /\
    (forall y, flag q y DynInst.Issued = flag (iq s) y DynInst.Issued) /\ (forall y, handed (iq s) y -> handed q y) /\ count q = count (iq s) /\ freeEntries q = freeEntries (iq s) /\
    (forall y r, y ∈ l -> regs s !! y = Some r -> readyRegs r + Z.of_nat (cnt y l) = numSrcRegs r -> handed q y).
Proof.
  revert s n. induction l as [|x l IH]; intros s n Hd Hk Hl HX Hw; destruct (d_size _ _ Hd) as (HN & Hsz & Hsb); pose proof (graph_pop_ok (dependGraph s) k ltac:(unfold entries in Hsz; lia)) as Hpop; unfold chain in Hl; rewrite Hl in Hpop.
  - cbn [wake_loop length]. rewrite Hpop, bind_Ok. exists (iq s), (regs s), (dependGraph s). split_and!; try done.
    + simpl. rewrite Z.add_0_r. by destruct s.
    + by destruct s.
    + split; [done|]. intros k' Hk'. by destruct (decide (k = k')) as [<-|].
    + intros y r Hr. rewrite Hr. f_equal. unfold cnt. simpl. rewrite Z.add_0_r. by destruct r.
    + by intros ? ? ?%not_elem_of_nil.
  - destruct Hpop as (g1 & Ep & Hg1 & Hc1). cbn [wake_loop length]. rewrite Ep, bind_Ok. set (s1 := set_graph s g1 (regScoreboard s)).
    destruct (d_chain _ _ Hd k x) as (Hm & (w & Hwx & Hsp) & Hni & Hnc); [lia|unfold chain; rewrite Hl; left|]. destruct (member_known X s x Hd Hm) as (st & w' & r & Hst & _ & Hr & _).
    assert (Hxl : x ∈ x :: l) by left. destruct (Hw x r Hxl Hr) as (H0 & [H1 H2] & H3). rewrite occ_cons, decide_True in H1, H3 by done.
    assert (Hch1 : forall k', 0 <= k' -> chain s1 k' = if decide (k = k') then l else chain s k') by (intros k' Hk'; unfold chain; simpl; by apply Hc1).
    assert (Hd1 : deps X s1).
    { apply deps_graph; try done.
      - intros k' y Hk'. rewrite Hc1 by done. intros Hy. left. destruct (decide (k = k')) as [<-|]; [|done]. unfold chain. rewrite Hl. by right.
      - intros y ry HXy [O1 O2 O3 O4] _ _ _ _. constructor; try done. intros k' Hk'. rewrite Hch1 by lia. destruct (decide (k = k')) as [<-|]; [|by apply O3].
        pose proof (O3 k Hk) as O3k. unfold chain in O3k. rewrite Hl, occ_cons, decide_False in O3k; [exact O3k|]. intros ->. by apply HXy, HX. }
    destruct (mark_ok s1 x st r) as (q2 & E2 & Hq2 & Hf2); [apply Hd1|done|done|done|lia|]. rewrite E2, bind_Ok. set (r2 := set_src r (readySrc r) (readyRegs r + 1)) in *. set (s2 := set_iq (set_regs s1 (<[x := r2]> (regs s1))) q2) in *.
    assert (Hfull : readyRegs r + 1 = numSrcRegs r -> forall k', 0 <= k' -> x ∉ chain s1 k').
    { intros Hf k' Hk'. rewrite Hch1 by done. destruct (decide (k = k')) as [<-|Hne]; [apply cnt_zero; lia|]. apply H3; [lia|done|congruence]. }
    assert (Hd2 : deps X s2).
    { apply (deps_quiet X (set_regs s1 (<[x := r2]> (regs s1)))).
      - apply (deps_regs X s1 x r); try done. by apply HX.
      - done.
      - intros y. rewrite Hf2, bool_decide_false, orb_false_r; [done|]. by intros (_ & ? & _).
      - intros k' y Hk' Hy. change (chain s1 k') with (chain s1 k') in Hy. rewrite Hf2. destruct (d_chain _ _ Hd1 k' y Hk' Hy) as (_ & _ & _ & ->). simpl. apply bool_decide_false. intros (-> & _ & Hf). by apply (Hfull Hf k'). }
    destruct (addIfReady_ok X s2 x st Hd2 Hst) as (q3 & E3 & Hd3 & Hh3 & Hf3 & Hm3 & Hc3 & Hfe3).
    { change (iq s2) with q2. rewrite Hf2. destruct (decide (readyRegs r + 1 = numSrcRegs r)) as [Hf|Hf].
      - intros _ k' Hk'. by apply (Hfull Hf).
      - rewrite bool_decide_false, orb_false_r by tauto. change (iq s1) with (iq s). congruence. }
    rewrite E3, bind_Ok. set (s3 := set_iq s2 q3) in *.
    assert (Hreg3 : forall y ry, regs s !! y = Some ry -> regs s3 !! y = Some (if decide (x = y) then r2 else ry)).
    { intros y ry Hy. change (regs s3) with (<[x := r2]> (regs s)). destruct (decide (x = y)) as [<-|]; [by rewrite lookup_insert_eq|by rewrite lookup_insert_ne]. }
    assert (Hch3 : forall k', 0 <= k' -> chain s3 k' = if decide (k = k') then l else chain s k') by exact Hch1.
    destruct (IH s3 (n + 1)) as (q & m & g & E & Hd4 & Hre & Hregs & Hfl & Hha & Hco & Hfr & Hdone); try done.
    { rewrite Hch3 by lia. by rewrite decide_True. } { intros y Hy. apply HX. by right. }
    { intros y ry3 Hy Hry3. destruct (regs s !! y) as [ry|] eqn:Ery; [|exfalso].
      - rewrite (Hreg3 y ry Ery) in Hry3. injection Hry3 as <-. destruct (Hw y ry) as (A0 & [A1 A2] & A3); [by right|done|]. rewrite occ_cons in A1, A3.
        destruct (decide (x = y)) as [<-|Hne]; [assert (ry = r) as -> by congruence; change (readyRegs r2) with (readyRegs r + 1); change (numSrcRegs r2) with (numSrcRegs r)|]; split_and!; try lia.
        + intros Hf k' Hk' Hne. rewrite Hch3, decide_False by (done || congruence). apply A3; [lia|done|done].
        + intros Hf k' Hk' Hne'. rewrite Hch3, decide_False by (done || congruence). apply A3; [lia|done|done].
      - change (regs s3) with (<[x := r2]> (regs s)) in Hry3. rewrite lookup_insert_ne in Hry3 by congruence. congruence. }
    exists q, m, g. rewrite E. split; [f_equal; f_equal; lia|]. split_and!; try done.
    + split; [by rewrite (proj1 Hre)|]. intros k' Hk'. rewrite (proj2 Hre k' Hk'). destruct (decide (k = k')); [done|]. change (gchain (dependGraph s3) k') with (chain s3 k'). by rewrite Hch3, decide_False by done.
    + intros y ry Hy. rewrite (Hregs y _ (Hreg3 y ry Hy)). rewrite occ_cons. destruct (decide (x = y)) as [<-|]; [|done]. assert (ry = r) as -> by congruence. unfold r2, set_src. simpl. do 2 f_equal. lia.
    + intros y. rewrite Hfl. change (iq s3) with q3. rewrite Hf3. change (iq s2) with q2. rewrite Hf2, bool_decide_false, orb_false_r; [done|]. by intros (_ & ? & _).
    + intros y Hy. apply Hha. change (iq s3) with q3. apply Hm3. change (iq s2) with q2. revert Hy. apply handed_calls; [by rewrite (qt_eq _ _ Hq2)|by rewrite (qt_eq _ _ Hq2)|].
      intros z. rewrite Hf2, bool_decide_false, orb_false_r; [done|]. by intros (_ & ? & _).
    + rewrite Hco. change (iq s3) with q3. rewrite Hc3. change (iq s2) with q2. by rewrite (qt_eq _ _ Hq2).
    + rewrite Hfr. change (iq s3) with q3. rewrite Hfe3. change (iq s2) with q2. by rewrite (qt_eq _ _ Hq2).
    + intros y ry Hy Hry Hf. rewrite occ_cons in Hf. destruct (decide (y ∈ l)) as [Hyl|Hyl].
      * apply (Hdone y _ Hyl (Hreg3 y ry Hry)). destruct (decide (x = y)) as [<-|]; [|exact Hf]. assert (ry = r) as -> by congruence. unfold r2. cbn [set_src readyRegs]. change (numSrcRegs (set_src r (readySrc r) (readyRegs r + 1))) with (numSrcRegs r). lia.
      * apply elem_of_cons in Hy as [->|?]; [|done]. assert (ry = r) as -> by congruence. rewrite decide_True in Hf by done. apply cnt_zero in Hyl. apply Hha. change (iq s3) with q3. apply Hh3. change (iq s2) with q2. rewrite Hf2.
        apply orb_true_iff. right. apply bool_decide_eq_true. split_and!; try done. lia.
Qed.

(** The invariant with the instructions of [L] left out. *)
Definition but (L : list Z) (s : t) : Prop := deps (fun y => y ∈ L) s.

Lemma deps_restore L s : but L s -> (forall y r, y ∈ L -> member s y -> regs s !! y = Some r -> special r = false -> live s y r -> waits s y r) -> but [] s.
Proof. intros Hd Hw. constructor; try apply Hd. intros y r _ Hm Hr Hsp Hl. destruct (decide (y ∈ L)); [by apply Hw|by apply (d_waits _ _ Hd)]. Qed.

Lemma slots_length r : (length (srcRegs r) <= length (readySrc r))%nat -> length (slots r) = length (srcRegs r).
Proof. intros Hl. unfold slots. rewrite length_zip_with. lia. Qed.

(** What is in a chain waits for a register that has not come. *)
Lemma chain_waits L s k y : but L s -> y ∉ L -> 0 <= k < numPhysRegs s -> y ∈ chain s k ->
  exists r, regs s !! y = Some r /\ operands s y r /\ sb s k = false /\ cnt y (chain s k) = pend (slots r) k /\ member s y /\ special r = false /\ live s y r.
Proof.
  intros Hd HL Hk Hy. destruct (d_chain _ _ Hd k y) as (Hm & (w & Hw & Hsp) & Hni & _); [lia|done|]. destruct (member_known _ s y Hd Hm) as (st & w' & r & _ & Hw' & Hr & Ew).
  assert (special r = false) as Hs by (rewrite Hw in Hw'; injection Hw' as <-; by rewrite <- Ew in Hsp). assert (Hlive : live s y r) by by left.
  destruct (d_waits _ _ Hd y r) as [Ho _]; try done. exists r. pose proof (w_chain _ _ _ Ho k Hk) as Hc. apply cnt_elem in Hy. destruct (sb s k); [lia|]. by split_and!.
Qed.

Lemma chain_wakeable s k : but [] s -> 0 <= k < numPhysRegs s -> wakeable s k (chain s k).
Proof.
  intros Hd Hk y r Hy Hr. destruct (chain_waits [] s k y Hd (not_elem_of_nil y) Hk Hy) as (r' & Hr' & Ho & Hsb & Hc & _). assert (r' = r) as -> by congruence. destruct (w_len _ _ _ Ho) as [Hl Hn].
  pose proof (got_set (numPhysRegs s) (sb s) k (slots r) Hk Hsb) as Hg. pose proof (got_le (numPhysRegs s) (fun j => bool_decide (j = k) || sb s j) (slots r)) as Hle. rewrite (slots_length r Hl) in Hle.
  rewrite (w_ready _ _ _ Ho), Hc. unfold numSrcRegs in *. split_and!; try lia. intros Hf k' Hk' Hne Hin.
  assert (Hfull : got (numPhysRegs s) (fun j => bool_decide (j = k) || sb s j) (slots r) = length (slots r)) by (rewrite (slots_length r Hl); lia).
  destruct (decide (k' < numPhysRegs s)) as [Hlt|Hge].
  - destruct (chain_waits [] s k' y Hd (not_elem_of_nil y) ltac:(lia) Hin) as (r' & Hr'' & _ & Hsb' & Hc' & _). assert (r' = r) as -> by congruence. apply cnt_elem in Hin. rewrite Hc' in Hin. apply pend_elem in Hin.
    destruct (proj1 (got_full _ _ _) Hfull _ Hin) as [?|[_ Hb]]; [done|]. simpl in Hb. rewrite bool_decide_false, Hsb' in Hb by done. done.
  - unfold chain, gchain in Hin. destruct (d_size _ _ Hd) as (_ & Hsz & _). unfold entries in Hsz. rewrite lookup_ge_None_2 in Hin by lia. by apply not_elem_of_nil in Hin.
Qed.

Lemma wake_reg_ok s k n : but [] s -> 0 <= k < numPhysRegs s ->
  exists q m g b, wake_reg s k n = Ok (n + Z.of_nat (length (chain s k)), set_graph (set_iq (set_regs s m) q) g b) /\ but [] (set_graph (set_iq (set_regs s m) q) g b).
Proof.
  intros Hd Hk. destruct (d_size _ _ Hd) as (HN & Hsz & Hsbl). unfold entries in Hsz. unfold wake_reg. destruct (gchain_get (dependGraph s) k ltac:(lia)) as (p & ->). rewrite bind_Ok. cbn [DependencyGraph.consumers].
  destruct (iq_wake_loop_ok (fun y => y ∈ chain s k) k (chain s k) s n) as (q & m & g & E & Hd1 & Hre & Hregs & Hfl & Hha & Hco & Hfr & Hdone); try done.
  { eapply deps_mono; [exact Hd|]. by intros y ?%not_elem_of_nil. } { by apply chain_wakeable. }
  change (gchain (dependGraph s) k) with (chain s k). rewrite E, bind_Ok. set (s1 := set_graph (set_iq (set_regs s m) q) g (regScoreboard s)) in *. destruct Hre as [Hgl Hgc].
  assert (Hck : gchain g k = []) by (rewrite Hgc, decide_True by (done || lia); done). change (dependGraph s1) with g. rewrite graph_empty_ok by lia. rewrite Hck, bool_decide_true by done. rewrite bind_Ok. cbn [c_assert]. rewrite bind_Ok.
  destruct (graph_clearInst_ok g k) as (g2 & -> & Hg2 & Hc2); [lia|]. rewrite bind_Ok. change (regScoreboard s1) with (regScoreboard s). rewrite vset_lt, bind_Ok by lia. set (b := <[Z.to_nat k := true]> (regScoreboard s)).
  exists q, m, g2, b. split; [done|]. change (but [] (set_graph s1 g2 b)).
  assert (Hch2 : forall k', 0 <= k' -> gchain g2 k' = if decide (k = k') then [] else chain s k').
  { intros k' Hk'. rewrite Hc2 by done. destruct (decide (k = k')) as [<-|]; [done|]. by rewrite Hgc, decide_False by done. }
  assert (Hb2 : forall j, 0 <= j -> default false (b !! Z.to_nat j) = bool_decide (j = k) || sb s j).
  { intros j Hj. unfold b, sb. destruct (decide (j = k)) as [->|Hne]; [by rewrite list_lookup_insert_eq, bool_decide_true by (done || lia)|]. by rewrite list_lookup_insert_ne, bool_decide_false by (done || lia). }
  assert (Hop : forall y r, (forall k', 0 <= k' < numPhysRegs s -> k' <> k -> cnt y (chain s k') = if sb s k' then 0%nat else pend (slots r) k') ->
    (length (srcRegs r) <= length (readySrc r))%nat /\ numSrcRegs r < 2 ^ 32 -> (forall p, p ∈ slots r -> 0 <= p.1 /\ (p.1 < numPhysRegs s \/ p.2 = true)) ->
    readyRegs r = Z.of_nat (got (numPhysRegs s) (sb s) (slots r)) + (if sb s k then 0 else Z.of_nat (pend (slots r) k)) -> operands (set_graph s1 g2 b) y r).
  { intros y r H1 H2 H3 H4. constructor; try done.
    - intros k' Hk'. change (numPhysRegs (set_graph s1 g2 b)) with (numPhysRegs s) in Hk'. change (cnt y (gchain g2 k') = if default false (b !! Z.to_nat k') then 0%nat else pend (slots r) k').
      rewrite Hch2, Hb2 by lia. destruct (decide (k = k')) as [<-|Hne]; [by rewrite bool_decide_true|]. rewrite bool_decide_false by congruence. simpl. by apply H1.
    - rewrite H4. change (numPhysRegs (set_graph s1 g2 b)) with (numPhysRegs s). rewrite (got_ext _ (fun j => bool_decide (j = k) || sb s j) (sb (set_graph s1 g2 b))) by (intros p' Hp' _ _; apply Hb2; by apply H3). destruct (sb s k) eqn:Ek.
      + rewrite Z.add_0_r. f_equal. symmetry. apply got_ext. intros p' _ _ _. destruct (decide (p'.1 = k)) as [->|]; [by rewrite bool_decide_true, Ek|by rewrite bool_decide_false].
      + rewrite got_set by done. lia. }
  apply (deps_restore (chain s k)).
  - apply deps_graph; [exact Hd1|exact Hg2|unfold b; by rewrite length_insert|..].
    + intros k' y Hk'. rewrite Hc2 by done. intros Hy. left. by destruct (decide (k = k')) as [<-|].
    + intros y r HX [O1 O2 O3 O4] _ _ _ _. change (numPhysRegs s1) with (numPhysRegs s) in *. change (sb s1) with (sb s) in *. apply Hop; try done.
      * intros k' Hk' Hne. rewrite <- (O3 k' Hk'). unfold chain. change (dependGraph s1) with g. by rewrite Hgc, decide_False by (done || lia).
      * rewrite O4. pose proof (O3 k Hk) as Hp. unfold chain in Hp. change (dependGraph s1) with g in Hp. rewrite Hck in Hp. destruct (sb s k); [lia|]. rewrite <- Hp. unfold cnt. simpl. lia.
  - intros y r Hy _ Hr _ _. destruct (chain_waits [] s k y Hd (not_elem_of_nil y) Hk Hy) as (r0 & Hr0 & [O1 O2 O3 O4] & Hsb & Hc & _). pose proof (Hregs y r0 Hr0) as Hm. change (regs (set_graph s1 g2 b)) with m in Hr. rewrite Hm in Hr. injection Hr as <-. split.
    + apply Hop; try done.
      * intros k' Hk' Hne. apply (O3 k' Hk').
      * rewrite Hsb. cbn [set_src readyRegs]. by rewrite O4, Hc.
    + cbn [set_src readyRegs]. intros Hf. by apply (Hdone y r0).
Qed.

(** No chain belongs to a number that is no register. *)
Lemma chain_range X s k y : deps X s -> 0 <= k -> y ∈ chain s k -> k < numPhysRegs s.
Proof.
  intros Hd Hk Hy. destruct (decide (k < numPhysRegs s)) as [|Hge]; [done|]. unfold chain, gchain in Hy. destruct (d_size _ _ Hd) as (_ & Hsz & _). unfold entries in Hsz.
  rewrite lookup_ge_None_2 in Hy by lia. by apply not_elem_of_nil in Hy.
Qed.

Lemma wake_regs_ok l s n : but [] s -> (forall k, k ∈ l -> 0 <= k) -> exists n' s', wake_regs s l n = Ok (n', s') /\ but [] s'.
Proof.
  revert s n. induction l as [|k l IH]; intros s n Hd Hl; [by exists n, s|]. assert (Hl' : forall k, k ∈ l -> 0 <= k) by (intros; apply Hl; by right). cbn [wake_regs].
  destruct (Z.leb_spec (numPhysRegs s) k); [by apply IH|]. destruct (wake_reg_ok s k n Hd) as (q & m & g & b & -> & Hd1); [split; [apply Hl; left|done]|]. rewrite bind_Ok. by apply IH.
Qed.

Lemma deps_done L s x r : but L s -> regs s !! x = Some r -> but L (set_regs s (<[x := set_memOpDone r]> (regs s))).
Proof.
  intros Hd Hr. constructor; try apply Hd.
  - simpl. rewrite fmap_insert. replace (rstat (set_memOpDone r)) with (rstat r) by done. rewrite <- (d_static _ _ Hd). apply insert_id. by rewrite lookup_fmap, Hr.
  - intros y r1 HX Hm Hr1 Hsp Hl. cbn [set_regs regs] in Hr1. destruct (decide (x = y)) as [<-|Hne].
    + rewrite lookup_insert_eq in Hr1. injection Hr1 as <-. destruct (d_waits _ _ Hd x r HX Hm Hr Hsp) as [[? ? ? ?] ?]; [|by split; [constructor|]]. destruct Hl as [Hl|[Hl _]]; [by left|done].
    + rewrite lookup_insert_ne in Hr1 by done. same_operands (d_waits _ _ Hd y r1 HX Hm Hr1 Hsp Hl).
Qed.

Lemma iq_wakeDependents_ok s x st w : but [] s -> V !! x = Some st -> W !! x = Some w -> st_squashed st = false -> (forall k, k ∈ rs_dest w -> 0 <= k) ->
  exists n s', wakeDependents s x = Ok (n, s') /\ but [] s'.
Proof.
  intros Hd Hx Hw Hsq Hdest. unfold wakeDependents. destruct (inst_V V (iq s) x st (s_insts _ _ (d_sched _ _ Hd)) Hx) as (i & Ei & Est). rewrite Ei, bind_Ok.
  replace (DynInst.has (dyn i) DynInst.Squashed) with false by (by rewrite <- Hsq, <- Est). cbn [negb c_assert]. rewrite bind_Ok. pose proof Hw as Hr. rewrite <- (d_static _ _ Hd), lookup_fmap in Hr.
  destruct (regs s !! x) as [r|] eqn:Er; [|done]. injection Hr as Hr. unfold reg. rewrite Er. cbn [deref]. rewrite bind_Ok.
  assert (Hgo : forall s1, but [] s1 -> exists n s', wake_regs s1 (destRegs r) 0 = Ok (n, s') /\ but [] s') by (intros s1 Hs1; apply wake_regs_ok; [done|]; by rewrite <- Hr in Hdest).
  destruct (isMemRef i); [|destruct (isMemBarrier r || isWriteBarrier r); rewrite bind_Ok; apply Hgo; [by apply deps_call|done]].
  pose proof (deps_call _ s (MWakeDependents x) Hd) as Hd1. set (s1 := call s (MWakeDependents x)) in *. unfold completeMemInst. change (inst (iq s1) x) with (inst (iq s) x). rewrite Ei, bind_Ok.
  unfold upd_reg, reg. change (regs (add_free s1 1)) with (regs s). rewrite Er. cbn [deref]. rewrite !bind_Ok.
  assert (Hd2 : but [] (add_free s1 1)) by (apply deps_free; [done|apply uint_range; lia|done]).
  pose proof (deps_done [] (add_free s1 1) x r Hd2 Er) as Hd3. pose proof (deps_call _ _ (MCompleted x) Hd3) as Hd4.
  match type of Hd4 with deps _ ?z => set (s4 := z) in * end. pose proof (e_tid _ _ (d_env _ _ Hd4) x st Hx) as Ht. rewrite <- Est in Ht. simpl in Ht.
  destruct (add_count_ok _ s4 (DynInst.threadNumber (dyn i)) (-1) Hd4 Ht) as (c & Ec & Hc). change (regs (add_free s1 1)) with (regs s) in s4. fold s4. rewrite Ec, bind_Ok. apply Hgo. apply deps_free; [done|apply (e_free _ _ (d_env _ _ Hd4))|done].
Qed.
End deps.
