(* ===== verification/InstQueueRegsOps.v ===== *)
(** * The operations of the instruction queue keep its invariant *)
From stdpp Require Import sorting.
From S2P Require Import Prelude Rob FuPool FuPoolTheorems InstQueue InstQueueProof InstQueueTheorems InstQueueRegs InstQueueRegsProof.
Import InstructionQueue InstQueueRegs.
#[local] Existing Instance DynInst.status_eq_dec.

Section ops.
Variable V : gmap Z Stat.
Variable W : gmap Z RegStat.
Notation sched := (sched V).
Notation env := (env V).
Notation handed := (handed V).
Notation live := (live V).
Notation deps := (deps V W).
Notation but := (but V W).

(** ** The lists *)
Lemma deps_list L s tid l0 l' : but L s -> instList s !! tid = Some l0 -> l0 ≡ₚ L ++ l' -> l' `sublist_of` l0 -> (forall k y, 0 <= k -> y ∈ L -> y ∉ chain s k) -> but [] (set_list s (<[tid := l']> (instList s))).
Proof.
  intros Hd Hl Hp Hsl HL. assert (Hlt : (tid < length (instList s))%nat) by by apply lookup_lt_Some in Hl.
  assert (Hsort : StronglySorted (fun x y => sq V x < sq V y) l0) by (apply (d_sorted _ _ _ _ Hd); by eapply list_elem_of_lookup_2).
  assert (Hnd : NoDup (L ++ l')) by (rewrite <- Hp; by eapply sorted_nodup). apply NoDup_app in Hnd as (_ & Hdis & Hnd).
  assert (Hlook : forall tid' l, <[tid := l']> (instList s) !! tid' = Some l -> (tid' = tid /\ l = l') \/ (tid' <> tid /\ instList s !! tid' = Some l)).
  { intros tid' l H. destruct (decide (tid' = tid)) as [->|Hne]; [rewrite list_lookup_insert_eq in H by done; left; split; [done|congruence]|right; by rewrite list_lookup_insert_ne in H by congruence]. }
  assert (Hin : forall y, y ∈ l' -> y ∈ l0) by (intros y Hy; rewrite Hp; set_solver).
  assert (Hsub : forall y, member (set_list s (<[tid := l']> (instList s))) y -> member s y /\ y ∉ L).
  { intros y (l & Hll & Hy). apply list_elem_of_lookup in Hll as (tid' & Hll). cbn [set_list instList] in Hll. apply Hlook in Hll as [[-> ->]|[Hne Hll]].
    - split; [exists l0; split; [by eapply list_elem_of_lookup_2|by apply Hin]|]. intros HyL. by apply (Hdis y).
    - split; [exists l; split; [by eapply list_elem_of_lookup_2|done]|]. intros HyL. destruct (d_member _ _ _ _ Hd tid' l y Hll Hy) as (st & _ & Hst & _ & Et).
      destruct (d_member _ _ _ _ Hd tid l0 y Hl) as (st' & _ & Hst' & _ & Et'); [rewrite Hp; set_solver|]. apply Hne. assert (st' = st) as -> by congruence. lia. }
  constructor; try apply Hd.
  - cbn [set_list instList squashedSeqNum iq]. rewrite length_insert. apply Hd.
  - intros tid' l y Hll Hy. cbn [set_list instList] in Hll. apply Hlook in Hll as [[-> ->]|[_ Hll]]; [apply (d_member _ _ _ _ Hd tid l0); auto|by apply (d_member _ _ _ _ Hd tid' l)].
  - intros l Hll. apply list_elem_of_lookup in Hll as (tid' & Hll). cbn [set_list instList] in Hll. apply Hlook in Hll as [[-> ->]|[_ Hll]]; [by eapply strongly_sorted_sublist|]. apply (d_sorted _ _ _ _ Hd). by eapply list_elem_of_lookup_2.
  - intros k y Hk Hy. destruct (d_chain _ _ _ _ Hd k y Hk Hy) as (Hm & Hrest). split; [|done]. destruct Hm as (l & Hll & Hyl). apply list_elem_of_lookup in Hll as (tid' & Hll).
    destruct (decide (tid' = tid)) as [->|Hne].
    + exists l'. split; [cbn [set_list instList]; by eapply list_elem_of_lookup_2, list_lookup_insert_eq|]. assert (l = l0) as -> by congruence. rewrite Hp in Hyl. apply elem_of_app in Hyl as [HyL|?]; [|done]. by destruct (HL k y Hk HyL).
    + exists l. split; [|done]. cbn [set_list instList]. apply list_elem_of_lookup. exists tid'. by rewrite list_lookup_insert_ne by congruence.
  - intros y r _ Hm Hr Hsp Hlv. destruct (Hsub y Hm) as [Hm' HyL]. same_operands (d_waits _ _ _ _ Hd y r HyL Hm' Hr Hsp Hlv).
Qed.

Lemma push_member s tid l x y : instList s !! tid = Some l -> member (set_list s (<[tid := l ++ [x]]> (instList s))) y -> y <> x -> member s y.
Proof.
  intros Hl (l1 & Hll & Hy) Hne. apply list_elem_of_lookup in Hll as (tid' & Hll). cbn [set_list instList] in Hll. assert (Hlt : (tid < length (instList s))%nat) by by apply lookup_lt_Some in Hl. destruct (decide (tid' = tid)) as [->|Hnt].
  - rewrite list_lookup_insert_eq in Hll by done. injection Hll as <-. exists l. split; [by eapply list_elem_of_lookup_2|]. apply elem_of_app in Hy as [?|Hy]; [done|]. by apply list_elem_of_singleton in Hy.
  - rewrite list_lookup_insert_ne in Hll by congruence. exists l1. split; [by eapply list_elem_of_lookup_2|done].
Qed.

Lemma deps_push s tid l x st w : but [] s -> instList s !! tid = Some l -> V !! x = Some st -> W !! x = Some w -> st_tid st = Z.of_nat tid -> (forall y, y ∈ l -> sq V y < sq V x) ->
  but [x] (set_list s (<[tid := l ++ [x]]> (instList s))).
Proof.
  intros Hd Hl Hx Hw Ht Hn. assert (Hlt : (tid < length (instList s))%nat) by by apply lookup_lt_Some in Hl.
  assert (Hlook : forall tid' l1, <[tid := l ++ [x]]> (instList s) !! tid' = Some l1 -> (tid' = tid /\ l1 = l ++ [x]) \/ (tid' <> tid /\ instList s !! tid' = Some l1)).
  { intros tid' l1 H. destruct (decide (tid' = tid)) as [->|Hne]; [rewrite list_lookup_insert_eq in H by done; left; split; [done|congruence]|right; by rewrite list_lookup_insert_ne in H by congruence]. }
  assert (Hsub : forall y, member (set_list s (<[tid := l ++ [x]]> (instList s))) y -> y <> x -> member s y) by (intros y; by apply push_member).
  constructor; try apply Hd.
  - cbn [set_list instList squashedSeqNum iq]. rewrite length_insert. apply Hd.
  - intros tid' l1 y Hll Hy. cbn [set_list instList] in Hll. apply Hlook in Hll as [[-> ->]|[_ Hll]]; [|by apply (d_member _ _ _ _ Hd tid' l1)].
    apply elem_of_app in Hy as [?| ->%list_elem_of_singleton]; [by apply (d_member _ _ _ _ Hd tid l)|by exists st, w].
  - intros l1 Hll. apply list_elem_of_lookup in Hll as (tid' & Hll). cbn [set_list instList] in Hll. apply Hlook in Hll as [[-> ->]|[_ Hll]]; [|apply (d_sorted _ _ _ _ Hd); by eapply list_elem_of_lookup_2].
    apply StronglySorted_app. split_and!; [intros y z Hy ->%list_elem_of_singleton; by apply Hn|apply (d_sorted _ _ _ _ Hd); by eapply list_elem_of_lookup_2|repeat constructor].
  - intros k y Hk Hy. destruct (d_chain _ _ _ _ Hd k y Hk Hy) as (Hm & Hrest). split; [|done]. destruct Hm as (l1 & Hll & Hyl). apply list_elem_of_lookup in Hll as (tid' & Hll).
    destruct (decide (tid' = tid)) as [->|Hne].
    + exists (l ++ [x]). split; [cbn [set_list instList]; by eapply list_elem_of_lookup_2, list_lookup_insert_eq|]. assert (l1 = l) as -> by congruence. set_solver.
    + exists l1. split; [|done]. cbn [set_list instList]. apply list_elem_of_lookup. exists tid'. by rewrite list_lookup_insert_ne by congruence.
  - intros y r HX Hm Hr Hsp Hlv. assert (y <> x) as Hne by set_solver. same_operands (d_waits _ _ _ _ Hd y r (not_elem_of_nil y) (Hsub y Hm Hne) Hr Hsp Hlv).
Qed.

(** ** Retirement *)
Lemma iq_commit_loop_ok s n l : but [] s -> (forall x, x ∈ l -> is_Some (V !! x)) -> exists l1 l2, commit_loop s n l = Ok l2 /\ l = l1 ++ l2 /\ Forall (fun x => sq V x <= n) l1.
Proof.
  intros Hd. induction l as [|x l IH]; intros Hk; [by exists [], []|]. destruct (Hk x) as [st Hx]; [left|]. cbn [commit_loop]. rewrite (seq_V V (iq s) x st (s_insts _ _ (d_sched _ _ _ _ Hd)) Hx), bind_Ok.
  destruct (Z.leb_spec (sq V x) n); [|by exists [], (x :: l)]. destruct IH as (l1 & l2 & E & -> & Hf); [intros; apply Hk; by right|]. exists (x :: l1), l2. split_and!; try done. by constructor.
Qed.
Lemma iq_commit_ok s n tid l : but [] s -> 0 <= tid -> instList s !! Z.to_nat tid = Some l -> (forall x, x ∈ l -> sq V x <= n -> flag (iq s) x DynInst.Issued = true) ->
  exists s', commit s n tid = Ok s' /\ but [] s'.
Proof.
  intros Hd Ht Hl Hi. assert (Hlt : (Z.to_nat tid < length (instList s))%nat) by by apply lookup_lt_Some in Hl. unfold commit. assert (vget (instList s) tid = Ok l) as -> by by apply vget_Ok. rewrite bind_Ok.
  destruct (iq_commit_loop_ok s n l Hd) as (l1 & l2 & -> & -> & Hf). { intros x Hx. destruct (d_member _ _ _ _ Hd _ _ _ Hl Hx) as (st & _ & -> & _). by eexists. }
  rewrite bind_Ok, vset_lt, bind_Ok by lia.
  assert (Hd1 : but [] (set_list s (<[Z.to_nat tid := l2]> (instList s)))).
  { apply (deps_list l1 s (Z.to_nat tid) (l1 ++ l2)); try done; [eapply deps_mono; [exact Hd|by intros y ?%not_elem_of_nil]|by apply sublist_inserts_l|]. intros k y Hk Hy Hc. destruct (d_chain _ _ _ _ Hd k y Hk Hc) as (_ & _ & Hni & _).
    rewrite Forall_forall in Hf. rewrite (Hi y) in Hni; [done|set_solver|by apply Hf]. }
  rewrite (check_free_ok V W _ _ Hd1), bind_Ok. by eexists.
Qed.

(** ** Squashing *)
Lemma remove_srcs_ok x D j s r : regs s !! x = Some r -> drop j (slots r) = D -> (length (srcRegs r) <= length (readySrc r))%nat ->
  (forall p, p ∈ D -> 0 <= p.1 /\ (p.1 < numPhysRegs s \/ p.2 = true)) -> length (entries s) = Z.to_nat (numPhysRegs s) ->
  (forall k, 0 <= k < numPhysRegs s -> cnt x (chain s k) = if sb s k then 0%nat else pend D k) -> (forall k, 0 <= k < numPhysRegs s -> sb s k = true -> chain s k = []) ->
  exists g, remove_srcs s x (seqZ (Z.of_nat j) (Z.of_nat (length D))) = Ok (set_graph s g (regScoreboard s)) /\ length (DependencyGraph.dependGraph g) = length (entries s) /\
    (forall k y, 0 <= k -> y <> x -> cnt y (gchain g k) = cnt y (chain s k)) /\ forall k, 0 <= k < numPhysRegs s -> cnt x (gchain g k) = 0%nat.
Proof.
  revert j s. induction D as [|p D IH]; intros j s Hr Hd Hl Hp Hg Hc Hb.
  - exists (dependGraph s). split; [by destruct s|]. split_and!; try done. intros k Hk. change (cnt x (chain s k) = 0%nat). rewrite (Hc k Hk). by destruct (sb s k).
  - destruct (slots_lookup r j Hl p D Hd) as (Ea & Eb & Hj & HD & _). destruct (Hp p) as [Hp0 Hp1]; [left|]. assert (HpD : forall p, p ∈ D -> 0 <= p.1 /\ (p.1 < numPhysRegs s \/ p.2 = true)) by (intros q Hq; apply Hp; by right).
    rewrite seqZ_cons by (simpl; lia). replace (Z.pred (Z.of_nat (length (p :: D)))) with (Z.of_nat (length D)) by (simpl; lia). rewrite <- Nat2Z.inj_succ.
    cbn [remove_srcs]. unfold reg. rewrite Hr. cbn [deref]. rewrite !bind_Ok, Ea, bind_Ok, Eb, bind_Ok. destruct (p.2) eqn:Ep; cbn [negb andb].
    + apply (IH (S j) s); try done. intros k Hk. rewrite (Hc k Hk), pend_cons, decide_False by (by rewrite Ep; intros [_ ?]). done.
    + destruct Hp1 as [Hp1|]; [|congruence]. rewrite (proj2 (Z.ltb_lt _ _)) by done. unfold entries in Hg.
      destruct (graph_remove_ok (dependGraph s) p.1 x) as (g1 & l' & -> & [Hg1 Hc1] & Hl'); [lia| |].
      { destruct (sb s p.1) eqn:Esb; [right; by apply Hb|left]. apply cnt_elem. change (gchain (dependGraph s) p.1) with (chain s p.1). rewrite Hc, Esb by lia. rewrite pend_cons, decide_True by done. lia. }
      rewrite bind_Ok. set (s1 := set_graph s g1 (regScoreboard s)). assert (Hch : forall k, 0 <= k -> chain s1 k = if decide (p.1 = k) then l' else chain s k) by (intros k Hk; unfold chain; simpl; by apply Hc1).
      change (gchain (dependGraph s) p.1) with (chain s p.1) in Hl'.
      destruct (IH (S j) s1) as (g & E & Hgl & Hot & Hx); try done.
      * unfold entries. simpl. by rewrite Hg1.
      * intros k Hk. change (numPhysRegs s1) with (numPhysRegs s) in Hk. change (sb s1 k) with (sb s k). rewrite Hch by lia. pose proof (Hc k Hk) as Hck. rewrite pend_cons in Hck. destruct (decide (p.1 = k)) as [<-|Hne]; [|rewrite decide_False in Hck by tauto; done].
        rewrite decide_True in Hck by done. destruct Hl' as [Hl'|[Hnil ->]].
        -- rewrite (cnt_perm x _ _ Hl'), occ_cons, decide_True in Hck by done. destruct (sb s p.1); lia.
        -- rewrite Hnil in Hck. destruct (sb s p.1); [done|]. unfold cnt in Hck. simpl in Hck. lia.
      * intros k Hk Hsk. change (numPhysRegs s1) with (numPhysRegs s) in Hk. change (sb s1 k) with (sb s k) in Hsk. rewrite Hch by lia. destruct (decide (p.1 = k)) as [<-|]; [|by apply Hb].
        rewrite (Hb _ Hk Hsk) in Hl'. destruct Hl' as [Hl'|[_ ?]]; [|done]. by apply Permutation_nil_cons in Hl'.
      * exists g. rewrite E. split; [done|]. split_and!; [rewrite Hgl; unfold entries; simpl; done| |done].
        intros k y Hk Hne. rewrite (Hot k y Hk Hne), Hch by done. destruct (decide (p.1 = k)) as [<-|]; [|done]. destruct Hl' as [Hl'|[-> ->]]; [|done].
        symmetry. rewrite (cnt_perm y _ _ Hl'), occ_cons, decide_False by congruence. done.
Qed.

(** A special instruction is still in the map of those that wait for commit. *)
Definition held (s : t) (x : Z) : Prop := forall st r, V !! x = Some st -> regs s !! x = Some r -> special r = true -> live s x r ->
  isStoreConditional r = false \/ flag (iq s) x DynInst.Completed = false -> is_Some (nonSpecInsts s !! st_seq st).

(** No instruction of [L] is in a chain. *)
Definition unchained (s : t) (L : list Z) : Prop := forall k y, 0 <= k -> y ∈ L -> y ∉ chain s k.

(** The instruction leaves the graph, or the map. *)
Lemma squash_graph L s x st r i : but L s -> unchained s L -> x ∉ L -> member s x -> V !! x = Some st -> regs s !! x = Some r -> live s x r -> held s x -> inst (iq s) x = Ok i -> stat i = st ->
  exists s1, (if negb (special r) then remove_srcs s x (seqZ 0 (numSrcRegs r))
     else if negb (isStoreConditional r) || negb (DynInst.has (dyn i) DynInst.Completed) then
       _ ← c_assert (bool_decide (is_Some (nonSpecInsts s !! DynInst.seqNum (dyn i)))); Ok (set_nonSpec s (delete (DynInst.seqNum (dyn i)) (nonSpecInsts s)))
     else Ok s) = Ok s1 /\
    but (x :: L) s1 /\ unchained s1 (x :: L) /\ instList s1 = instList s /\ regs s1 = regs s /\ iq s1 = iq s /\ forall n, n <> st_seq st -> nonSpecInsts s1 !! n = nonSpecInsts s !! n.
Proof.
  intros Hd HL HxL Hm Hx Hr Hlive Hheld Ei Est. assert (Hd' : but (x :: L) s) by (eapply deps_mono; [exact Hd|set_solver]).
  assert (Hspec : special r = true -> unchained s (x :: L)).
  { intros Hsp k y Hk [->|Hy]%elem_of_cons; [|by apply HL]. intros Hc. destruct (d_chain _ _ _ _ Hd k x Hk Hc) as (_ & (w & Hw & Hs) & _). rewrite <- (d_static _ _ _ _ Hd), lookup_fmap, Hr in Hw. injection Hw as <-. simpl in Hs. congruence. }
  destruct (special r) eqn:Hsp; cbn [negb].
  - specialize (Hspec eq_refl). assert (Hc : DynInst.has (dyn i) DynInst.Completed = flag (iq s) x DynInst.Completed) by (unfold flag; unfold inst in Ei; by destruct (insts (iq s) !! x); [injection Ei as ->|]).
    rewrite Hc. destruct (negb (isStoreConditional r) || negb (flag (iq s) x DynInst.Completed)) eqn:Hb; [|by exists s].
    assert (DynInst.seqNum (dyn i) = st_seq st) as -> by by rewrite <- Est. rewrite bool_decide_true; [|apply (Hheld st r); try done; apply orb_true_iff in Hb as [?%negb_true_iff|?%negb_true_iff]; auto]. cbn [c_assert]. rewrite bind_Ok.
    eexists. split; [done|]. split_and!; try done.
    + constructor; try apply Hd'; [intros y ry HX Hmy Hry Hspy Hly; same_operands (d_waits _ _ _ _ Hd' y ry HX Hmy Hry Hspy Hly)|]. intros n y Hn. cbn [set_nonSpec nonSpecInsts] in Hn. apply lookup_delete_Some in Hn as [_ Hn]. by apply (d_nonspec _ _ _ _ Hd' n).
    + intros n Hn. simpl. by rewrite lookup_delete_ne.
  - destruct (d_waits _ _ _ _ Hd x r HxL Hm Hr Hsp Hlive) as [Ho _]. destruct (w_len _ _ _ Ho) as [Hlen _]. destruct (d_size _ _ _ _ Hd) as (HN & Hsz & Hsbl).
    destruct (remove_srcs_ok x (slots r) 0 s r) as (g & E & Hgl & Hoth & Hxk); try done; try apply Ho.
    { intros k Hk Hsb. destruct (chain s k) as [|y l] eqn:El; [done|exfalso]. assert (Hy : y ∈ chain s k) by (rewrite El; left). destruct (chain_waits V W L s k y) as (ry & _ & _ & Hsb' & _); try done; [|congruence].
      intros HyL. by apply (HL k y ltac:(lia) HyL). }
    rewrite (slots_length r Hlen) in E. unfold numSrcRegs. change 0 with (Z.of_nat 0). rewrite E. eexists. split; [done|].
    assert (Hxc : forall k, 0 <= k -> x ∉ gchain g k).
    { intros k Hk. destruct (decide (k < numPhysRegs s)) as [Hlt|Hge]; [apply cnt_zero; apply Hxk; lia|]. unfold gchain. unfold entries in *. rewrite lookup_ge_None_2 by lia. apply not_elem_of_nil. }
    assert (Hsub : forall k y, 0 <= k -> y ∈ gchain g k -> y ∈ chain s k).
    { intros k y Hk Hy. destruct (decide (y = x)) as [->|Hne]; [by destruct (Hxc k Hk)|]. apply cnt_elem. rewrite <- (Hoth k y Hk Hne). by apply cnt_elem. }
    split_and!; try done.
    + apply deps_graph; try done; [intros k y Hk Hy; left; by apply Hsub|]. intros y ry HX [O1 O2 O3 O4] _ _ _ _. constructor; try done. intros k Hk. assert (y <> x) by set_solver. transitivity (cnt y (chain s k)); [apply Hoth; [lia|done]|exact (O3 k Hk)].
    + intros k y Hk [->|Hy]%elem_of_cons; [by apply Hxc|]. intros Hc. apply (HL k y Hk Hy). by apply Hsub.
Qed.

End ops.

(** ** The squashed bit *)

(** What an instruction is once its squashed bit is set. *)
Definition marked (st : Stat) : Stat := mkStat (st_seq st) (st_tid st) (st_class st) (st_mem st) true.
Definition mark_at (V : gmap Z Stat) (x : Z) : gmap Z Stat := alter marked x V.
(** [V'] is [V] with more squashed instructions. *)
Definition squashes (V V' : gmap Z Stat) : Prop :=
  forall y, match V !! y, V' !! y with Some a, Some b => b = a \/ b = marked a | None, None => True | _, _ => False end.

Lemma squashes_refl V : squashes V V.
Proof. intros y. destruct (V !! y); [by left|done]. Qed.
Lemma squashes_trans V1 V2 V3 : squashes V1 V2 -> squashes V2 V3 -> squashes V1 V3.
Proof.
  intros H1 H2 y. specialize (H1 y). specialize (H2 y). destruct (V1 !! y) as [a|], (V2 !! y) as [b|], (V3 !! y) as [c|]; try done.
  destruct H1 as [-> | ->], H2 as [-> | ->]; auto.
Qed.
Lemma squashes_mark V x : squashes V (mark_at V x).
Proof.
  intros y. unfold mark_at. destruct (decide (x = y)) as [<-|Hne]; [rewrite lookup_alter_eq|rewrite lookup_alter_ne by done]; destruct (V !! _); simpl; auto.
Qed.
Lemma squashes_lookup V V' y st : squashes V V' -> V !! y = Some st ->
  exists st', V' !! y = Some st' /\ st_seq st' = st_seq st /\ st_tid st' = st_tid st /\ st_class st' = st_class st /\ st_mem st' = st_mem st /\ (st_squashed st = true -> st_squashed st' = true).
Proof. intros H Hy. specialize (H y). rewrite Hy in H. destruct (V' !! y) as [st'|]; [|done]. exists st'. by destruct H as [-> | ->]. Qed.
Lemma squashes_back V V' y st' : squashes V V' -> V' !! y = Some st' -> exists st, V !! y = Some st /\ st_seq st' = st_seq st /\ st_tid st' = st_tid st /\ st_mem st' = st_mem st.
Proof. intros H Hy. specialize (H y). rewrite Hy in H. destruct (V !! y) as [st|]; [|done]. exists st. by destruct H as [-> | ->]. Qed.
Lemma squashes_sq V V' y : squashes V V' -> sq V' y = sq V y.
Proof. intros H. specialize (H y). unfold sq. destruct (V !! y), (V' !! y); try done. by destruct H as [-> | ->]. Qed.

Lemma strongly_sorted_mono {A} (R R' : A -> A -> Prop) l : (forall x y, R x y -> R' x y) -> StronglySorted R l -> StronglySorted R' l.
Proof. intros HR. induction 1 as [|x l Hl IH Hx]; constructor; [done|]. eapply Forall_impl; [exact Hx|]. intros y. apply HR. Qed.

Lemma order_squashes V V' R L n on it : squashes V V' -> order_ok V R L n on it -> order_ok V' R L n on it.
Proof.
  intros H []. constructor; try done.
  - intros c x Hx. destruct (o_ready c x Hx) as (st & Hst & Hc). destruct (squashes_lookup _ _ _ _ H Hst) as (st' & ? & _ & _ & ? & _). exists st'. split; congruence.
  - intros c. eapply strongly_sorted_mono; [|apply o_qsort]. intros x y. simpl. by rewrite !(squashes_sq _ _ _ H).
  - intros k e Hk. destruct (o_nodes k e Hk) as (x & q & ? & ? & ?). exists x, q. by rewrite (squashes_sq _ _ _ H).
Qed.

Section squash.
Variable W : gmap Z RegStat.

(** An update of the status of an instruction that sets its squashed bit, and that only
    an instruction outside the chains may take issue bits from. *)
Lemma deps_mark V X s x st f : deps V W X s -> V !! x = Some st ->
  (forall d, DynInst.seqNum (f d) = DynInst.seqNum d /\ DynInst.threadNumber (f d) = DynInst.threadNumber d /\ DynInst.has (f d) DynInst.Squashed = true /\
     (DynInst.has d DynInst.Issued = true -> DynInst.has (f d) DynInst.Issued = true)) ->
  ((forall k, 0 <= k -> x ∉ chain s k) \/ forall d, DynInst.has (f d) DynInst.Issued = DynInst.has d DynInst.Issued /\ DynInst.has (f d) DynInst.CanIssue = DynInst.has d DynInst.CanIssue) ->
  exists q, upd_dyn s x f = Ok (set_iq s q) /\ deps (mark_at V x) W X (set_iq s q) /\ (forall y c, y <> x -> flag q y c = flag (iq s) y c) /\ flag q x DynInst.Squashed = true /\
    count q = count (iq s) /\ freeEntries q = freeEntries (iq s) /\ all_ready q = all_ready (iq s).
Proof.
  intros Hd Hx Hf Hch. pose proof (squashes_mark V x) as HV. destruct (inst_V V (iq s) x st (s_insts _ _ (d_sched _ _ _ _ Hd)) Hx) as (i & Ei & Est).
  unfold upd_dyn. rewrite (upd_inst_eq _ _ _ _ Ei), bind_Ok. set (q := InstructionQueue.set_insts _ _). unfold inst in Ei. destruct (insts (iq s) !! x) as [j|] eqn:Ej; [|done]. injection Ei as ->.
  assert (Hfl : forall y c, flag q y c = if decide (x = y) then DynInst.has (f (dyn i)) c else flag (iq s) y c) by (intros y c; unfold flag; simpl; by apply flag_upd).
  assert (Hoth : forall y c, y <> x -> flag q y c = flag (iq s) y c) by (intros y c Hne; rewrite Hfl, decide_False; congruence).
  destruct (Hf (dyn i)) as (F1 & F2 & F3 & F4). assert (Hfx : forall c, flag (iq s) x c = DynInst.has (dyn i) c) by (intros c; unfold flag; by rewrite Ej).
  assert (Hiss : forall y, flag (iq s) y DynInst.Issued = true -> flag q y DynInst.Issued = true) by (intros y Hy; rewrite Hfl; destruct (decide (x = y)) as [<-|]; [rewrite Hfx in Hy; auto|done]).
  assert (Hhand : forall y, handed V (iq s) y -> handed (mark_at V x) q y).
  { intros y [?|[?|[?|[?|(sy & Hsy & ?)]]]]; [by left|by right; left|by right; right; left|right; right; right; left; auto|]. right; right; right; right.
    destruct (squashes_lookup _ _ _ _ HV Hsy) as (sy' & ? & _ & _ & _ & _ & Hq). exists sy'. auto. }
  exists q. split; [done|]. split_and!; try done; [|rewrite Hfl; by rewrite decide_True]. constructor; try apply Hd.
  - split; [|by apply (order_squashes V), Hd]. simpl. rewrite fmap_insert. assert (Hs : stat (mkInst (f (dyn i)) (opClass i) (isMemRef i)) = marked st) by (rewrite <- Est; unfold stat, marked; simpl; by rewrite F1, F2, F3). rewrite Hs.
    unfold mark_at. rewrite <- (s_insts _ _ (d_sched _ _ _ _ Hd)) at 1. rewrite (s_insts _ _ (d_sched _ _ _ _ Hd)). apply map_eq. intros y. destruct (decide (x = y)) as [<-|Hne]; [by rewrite lookup_insert_eq, lookup_alter_eq, Hx|by rewrite lookup_insert_ne, lookup_alter_ne].
  - destruct (d_env _ _ _ _ Hd). constructor; try done. intros y sy Hy. destruct (squashes_back _ _ _ _ HV Hy) as (sy0 & Hy0 & _ & -> & _). by apply (e_tid y).
  - intros tid l y Hl Hy. destruct (d_member _ _ _ _ Hd tid l y Hl Hy) as (sy & w & Hsy & Hw & Et). destruct (squashes_lookup _ _ _ _ HV Hsy) as (sy' & ? & _ & E & _). exists sy', w. split_and!; congruence.
  - intros l Hl. eapply strongly_sorted_mono; [|by apply (d_sorted _ _ _ _ Hd)]. intros a b. simpl. by rewrite !(squashes_sq _ _ _ HV).
  - intros k y Hk Hy. destruct (d_chain _ _ _ _ Hd k y Hk Hy) as (? & ? & Hi & Hc). split_and!; try done; change (iq (set_iq s q)) with q.
    + rewrite Hfl. destruct (decide (x = y)) as [<-|]; [|done]. destruct Hch as [Hn|He]; [by destruct (Hn k Hk)|]. destruct (He (dyn i)) as [-> _]. by rewrite <- Hfx.
    + rewrite Hfl. destruct (decide (x = y)) as [<-|]; [|done]. destruct Hch as [Hn|He]; [by destruct (Hn k Hk)|]. destruct (He (dyn i)) as [_ ->]. by rewrite <- Hfx.
  - intros y r HX Hm Hr Hsp Hlv. destruct (d_waits _ _ _ _ Hd y r HX Hm Hr Hsp) as [[? ? ? ?] Hh]; [|split; [by constructor|auto]].
    destruct Hlv as [Hlv|(? & sy & Hy & Hmem)]; [left; destruct (flag (iq s) y DynInst.Issued) eqn:E; [apply Hiss in E; change (flag q y DynInst.Issued = false) in Hlv; congruence|done]|right].
    split; [done|]. destruct (squashes_back _ _ _ _ HV Hy) as (sy0 & Hy0 & _ & _ & Hm0). exists sy0. split; congruence.
  - intros n y Hn. destruct (d_nonspec _ _ _ _ Hd n y Hn) as (sy & w & Hy & Hw & Hs). destruct (squashes_lookup _ _ _ _ HV Hy) as (sy' & ? & _). by exists sy', w.
Qed.

(** The two updates of a squashed instruction. *)
Lemma squash_marks V L s x st : but V W L s -> unchained s (x :: L) -> V !! x = Some st ->
  exists q, (s ← upd_dyn s x setSquashedInIQ; upd_dyn s x (fun d => DynInst.reset DynInst.IqEntry (DynInst.set DynInst.CanCommit (DynInst.set DynInst.Issued d)))) = Ok (set_iq s q) /\
    but (mark_at V x) W L (set_iq s q) /\ (forall y c, y <> x -> flag q y c = flag (iq s) y c) /\ count q = count (iq s) /\ freeEntries q = freeEntries (iq s).
Proof.
  intros Hd HL Hx. assert (Hnc : forall k, 0 <= k -> x ∉ chain s k) by (intros k Hk; apply (HL k x Hk); left).
  destruct (deps_mark V _ s x st setSquashedInIQ Hd Hx) as (q1 & -> & Hd1 & Hf1 & Hs1 & Hc1 & Hfr1 & _).
  { intros d. split_and!; try done; unfold setSquashedInIQ; rewrite !DynInst.has_set; [by rewrite bool_decide_true|]. intros ->. by rewrite !orb_true_r. }
  { by left. }
  rewrite bind_Ok. assert (Hx1 : mark_at V x !! x = Some (marked st)) by (unfold mark_at; by rewrite lookup_alter_eq, Hx).
  set (f := fun d => DynInst.reset DynInst.IqEntry (DynInst.set DynInst.CanCommit (DynInst.set DynInst.Issued d))).
  destruct (upd_inst_quiet (mark_at V x) q1 x _ f (d_sched _ _ _ _ Hd1) Hx1) as (q & d & E & Hq & _ & Hf).
  { intros d. split_and!; try done. unfold f. by rewrite DynInst.has_reset, !DynInst.has_set, !bool_decide_false, andb_true_r by done. }
  unfold upd_dyn. change (iq (set_iq s q1)) with q1. rewrite E, bind_Ok. exists q. split; [done|].
  assert (Hother : forall y c, y <> x -> flag q y c = flag q1 y c) by (intros y c Hne; by rewrite Hf, decide_False by congruence).
  assert (Hcnt : count q = count q1 /\ freeEntries q = freeEntries q1) by (rewrite (qt_eq _ _ Hq); done). destruct Hcnt as [Hcn Hfn].
  split_and!; [|intros y c Hne; rewrite Hother by done; by apply Hf1|congruence..].
  change (but (mark_at V x) W L (set_iq (set_iq s q1) q)). apply deps_iq; try done.
  - eapply quiet_sched; [exact Hq|apply Hd1].
  - eapply quiet_env; [exact Hq|apply Hd1].
  - by rewrite Hcn.
  - intros y Hy. rewrite Hf. destruct (decide (x = y)) as [<-|]; [|done]. unfold f. by rewrite DynInst.has_reset, !DynInst.has_set, (bool_decide_true (DynInst.Issued = DynInst.Issued)), orb_true_r.
  - intros k y Hk Hy. change (y ∈ chain s k) in Hy. assert (y <> x) by (intros ->; by apply (Hnc k)). destruct (d_chain _ _ _ _ Hd1 k y Hk Hy) as (_ & _ & ? & ?). rewrite !Hother by done. split_and!; try done.
    rewrite (qt_eq _ _ Hq). by apply (d_ready _ _ _ _ Hd1 k y).
  - intros y. change (iq (set_iq s q1)) with q1. intros [Hy|[Hy|[Hy|[Hy|Hy]]]]; [left|right; left|right; right; left|right; right; right; left|by right; right; right; right]; try (rewrite (qt_eq _ _ Hq); exact Hy).
    rewrite Hf. destruct (decide (x = y)) as [<-|]; [|done]. unfold f. by rewrite DynInst.has_reset, !DynInst.has_set, (bool_decide_true (DynInst.Issued = DynInst.Issued)), orb_true_r.
Qed.

Lemma squash_inst_ok V L s x st r : but V W L s -> unchained s L -> x ∉ L -> member s x -> V !! x = Some st -> regs s !! x = Some r -> held V s x ->
  exists s' V', squash_inst s x = Ok s' /\ squashes V V' /\ but V' W (x :: L) s' /\ unchained s' (x :: L) /\ instList s' = instList s /\ regs s' = regs s /\
    (forall y c, y <> x -> flag (iq s') y c = flag (iq s) y c) /\ forall n, n <> st_seq st -> nonSpecInsts s' !! n = nonSpecInsts s !! n.
Proof.
  intros Hd HL HxL Hm Hx Hr Hheld. destruct (inst_V V (iq s) x st (s_insts _ _ (d_sched _ _ _ _ Hd)) Hx) as (i & Ei & Est). unfold squash_inst, reg. rewrite Ei, bind_Ok, Hr. cbn [deref]. rewrite bind_Ok.
  assert (Hni : DynInst.has (dyn i) DynInst.Issued = flag (iq s) x DynInst.Issued) by (unfold flag; unfold inst in Ei; by destruct (insts (iq s) !! x); [injection Ei as ->|]).
  assert (Hmem : isMemRef i = st_mem st) by by rewrite <- Est. rewrite Hni, Hmem. destruct (negb (flag (iq s) x DynInst.Issued) || (st_mem st && negb (memOpDone r))) eqn:Hb.
  - assert (Hlive : live V s x r).
    { apply orb_true_iff in Hb as [?%negb_true_iff|[? ?%negb_true_iff]%andb_true_iff]; [by left|right]. split; [done|by exists st]. }
    destruct (squash_graph V W L s x st r i) as (s1 & E1 & Hd1 & HL1 & Hli1 & Hre1 & Hiq1 & Hns1); try done. rewrite E1, bind_Ok.
    destruct (squash_marks V (x :: L) s1 x st Hd1) as (q & E2 & Hd3 & Hf2 & Hc2 & Hfr2); [intros k y Hk Hy; apply HL1; [done|set_solver]|done|].
    destruct (upd_dyn s1 x setSquashedInIQ) as [s2|]; [|done]. rewrite bind_Ok in E2 |- *. rewrite E2, bind_Ok.
    pose proof (e_tid _ _ (d_env _ _ _ _ Hd1) x st Hx) as Ht. rewrite <- Est in Ht. simpl in Ht.
    destruct (add_count_ok (mark_at V x) W _ (set_iq s1 q) (DynInst.threadNumber (dyn i)) (-1) Hd3) as (c & -> & Hc); [change (iq (set_iq s1 q)) with q; by rewrite Hc2|].
    rewrite bind_Ok. eexists _, (mark_at V x). split; [done|]. split; [apply squashes_mark|]. split_and!; try done.
    + apply deps_free; [|apply uint_range; lia|done]. apply deps_free; [done|apply (e_free _ _ (d_env _ _ _ _ Hd3))|done].
    + intros y b Hne. cbn [add_free set_iq iq set_free flag insts]. change (flag q y b = flag (iq s) y b). by rewrite Hf2, Hiq1.
  - exists s, V. split; [done|]. split; [apply squashes_refl|]. apply orb_false_iff in Hb as [Hb%negb_false_iff _]. split_and!; try done.
    + eapply deps_mono; [exact Hd|set_solver].
    + intros k y Hk [->|Hy]%elem_of_cons; [|by apply HL]. intros Hc. destruct (d_chain _ _ _ _ Hd k x Hk Hc) as (_ & _ & Hi & _). congruence.
Qed.

Lemma held_frame V V' s s' x y st : squashes V V' -> held V s y -> V !! x = Some st -> sq V y <> sq V x -> y <> x -> regs s' = regs s -> (forall y c, y <> x -> flag (iq s') y c = flag (iq s) y c) ->
  (forall n, n <> st_seq st -> nonSpecInsts s' !! n = nonSpecInsts s !! n) -> held V' s' y.
Proof.
  intros HV Hh Hx Hsq Hne Hr Hf Hn sy' ry Hy' Hry Hsp Hl Hc. destruct (squashes_back _ _ _ _ HV Hy') as (sy & Hy & -> & _ & _). rewrite Hr in Hry. rewrite Hf in Hc by done. rewrite Hn by (unfold sq in Hsq; rewrite Hy, Hx in Hsq; done).
  apply (Hh sy ry Hy Hry Hsp); [|done]. destruct Hl as [Hl|(Hl & st' & Hst' & Hm)]; [left; by rewrite Hf in Hl|right]. split; [done|]. destruct (squashes_back _ _ _ _ HV Hst') as (st0 & ? & _ & _ & ?). exists st0. split; congruence.
Qed.

Lemma iq_squash_loop_ok tid n l0 l : forall V L s M kept, but V W L s -> unchained s L -> 0 <= tid -> instList s !! Z.to_nat tid = Some l0 -> l0 = rev l ++ M -> M ≡ₚ L ++ kept -> kept `sublist_of` M ->
  (forall y, y ∈ l -> n < sq V y -> held V s y) -> exists s' V', squash_loop s tid n l kept = Ok s' /\ squashes V V' /\ but V' W [] s'.
Proof.
  induction l as [|x l IH]; intros V L s M kept Hd HL Ht Hl0 El HM Hk Hheld; assert (Hlt : (Z.to_nat tid < length (instList s))%nat) by (by apply lookup_lt_Some in Hl0); cbn [squash_loop].
  - rewrite vset_lt, bind_Ok by lia. eexists _, V. split; [done|]. split; [apply squashes_refl|]. simpl in El. subst M. by apply (deps_list V W L s (Z.to_nat tid) l0).
  - assert (Hxl : x ∈ l0) by (rewrite El; simpl; set_solver). destruct (d_member _ _ _ _ Hd _ _ _ Hl0 Hxl) as (st & w & Hx & Hw & Htid). assert (Hm : member s x) by (exists l0; split; [by eapply list_elem_of_lookup_2|done]).
    destruct (inst_V V (iq s) x st (s_insts _ _ (d_sched _ _ _ _ Hd)) Hx) as (i & Ei & Est). rewrite Ei, bind_Ok. assert (Hsq : DynInst.seqNum (dyn i) = sq V x) by (unfold sq; rewrite Hx, <- Est; done). rewrite Hsq.
    assert (Hsort : StronglySorted (fun x y => sq V x < sq V y) l0) by (apply (d_sorted _ _ _ _ Hd); by eapply list_elem_of_lookup_2).
    destruct (Z.leb_spec (sq V x) n) as [Hle|Hgt].
    { rewrite vset_lt, bind_Ok by lia. eexists _, V. split; [done|]. split; [apply squashes_refl|]. apply (deps_list V W L s (Z.to_nat tid) l0); try done; [rewrite El, HM; solve_Permutation|]. rewrite El. by apply sublist_app. }
    simpl in El. rewrite <- app_assoc in El. simpl in El. destruct (negb _ || _) eqn:Hskip.
    + apply (IH V L s (x :: M) (x :: kept)); try done; [rewrite HM; solve_Permutation|by constructor|]. intros y Hy. apply Hheld. by right.
    + destruct (member_known V W _ s x Hd Hm) as (st' & w' & r & _ & _ & Hr & _). assert (Hnd : NoDup l0) by by eapply sorted_nodup.
      assert (HxM : x ∉ M) by (rewrite El in Hnd; apply NoDup_app in Hnd as (_ & _ & Hnd); by apply NoDup_cons in Hnd as [? _]).
      destruct (squash_inst_ok V L s x st r Hd HL) as (s1 & V1 & E1 & HV1 & Hd1 & HL1 & Hli1 & Hre1 & Hf1 & Hns1); try done; [rewrite HM in HxM; set_solver|apply Hheld; [left|done]|]. rewrite E1, bind_Ok.
      destruct (IH V1 (x :: L) s1 (x :: M) kept) as (s2 & V2 & E2 & HV2 & Hd2); try done; [by rewrite Hli1|by rewrite HM|by constructor| |exists s2, V2; split_and!; try done; by eapply squashes_trans].
      intros y Hy Hny. rewrite (squashes_sq _ _ _ HV1) in Hny. rewrite El in Hsort. apply StronglySorted_app in Hsort as (Hs & _ & _).
      assert (sq V y < sq V x) by (apply Hs; [by rewrite list_elem_of_In, <- in_rev, <- list_elem_of_In|left]).
      apply (held_frame V V1 s s1 x y st); try done; [apply Hheld; [by right|done]|lia|]. intros ->. lia.
Qed.

Lemma iq_squash_ok V s n tid l : but V W [] s -> 0 <= tid -> instList s !! Z.to_nat tid = Some l -> (forall y, y ∈ l -> n < sq V y -> held V s y) ->
  exists s' V', squash s n tid = Ok s' /\ squashes V V' /\ but V' W [] s'.
Proof.
  intros Hd Ht Hl Hheld. assert (Hlt : (Z.to_nat tid < length (instList s))%nat) by by apply lookup_lt_Some in Hl. destruct (d_tids _ _ _ _ Hd) as [E1 E2]. unfold squash. rewrite vset_lt, bind_Ok by lia.
  set (s1 := set_squashedSeqNum s (<[Z.to_nat tid := n]> (squashedSeqNum s))).
  assert (Hd1 : but V W [] s1).
  { constructor; try apply Hd; [cbn [s1 set_squashedSeqNum instList squashedSeqNum iq]; rewrite length_insert; apply Hd|]. intros y r HX Hm Hr Hsp Hlv. same_operands (d_waits _ _ _ _ Hd y r HX Hm Hr Hsp Hlv). }
  destruct (vget_lt (count (iq s1)) tid) as (c & -> & _); [change (count (iq s1)) with (count (iq s)); lia|]. rewrite bind_Ok. destruct (0 <? c).
  - unfold doSquash. change (instList s1) with (instList s). assert (vget (instList s) tid = Ok l) as -> by by apply vget_Ok. rewrite bind_Ok.
    assert (vget (squashedSeqNum s1) tid = Ok n) as -> by (apply vget_Ok; split; [done|]; apply list_lookup_insert_eq; lia). rewrite bind_Ok.
    destruct (iq_squash_loop_ok tid n l (rev l) V [] s1 [] []) as (s2 & V2 & -> & HV2 & Hd2); try done; [by intros ? ? ? ?%not_elem_of_nil|by rewrite rev_involutive, app_nil_r| |rewrite bind_Ok; eexists _, V2; split; [done|split; [done|by apply deps_call]]].
    intros y Hy. apply Hheld. by rewrite list_elem_of_In, <- in_rev, <- list_elem_of_In in Hy.
  - rewrite bind_Ok. eexists _, V. split; [done|]. split; [apply squashes_refl|by apply deps_call].
Qed.
End squash.

Section entry.
Variable V : gmap Z Stat.
Variable W : gmap Z RegStat.
Notation sched := (sched V).
Notation env := (env V).
Notation handed := (handed V).
Notation live := (live V).
Notation deps := (deps V W).
Notation but := (but V W).

(** ** Entry *)

(** An instruction comes from renaming: in program order, with destination
    registers that no instruction here still reads. *)
Record arrives (s : t) (x : Z) (st : Stat) (r : RegInst) (l : list Z) : Prop := {
  a_stat : V !! x = Some st;
  a_reg : regs s !! x = Some r;
  a_tid : 0 <= st_tid st /\ instList s !! Z.to_nat (st_tid st) = Some l;
  a_order : forall y, y ∈ l -> sq V y < sq V x;
  a_free : freeEntries (iq s) <> 0;
  a_dest : forall k, k ∈ destRegs r -> k < numPhysRegs s -> 0 <= k /\ k ∉ srcRegs r /\
    forall y ry, member s y -> regs s !! y = Some ry -> special ry = false -> live s y ry -> k ∉ srcRegs ry
}.
(** An instruction that is tracked: its operands as renaming left them. *)
Record arrives_spec (s : t) (x : Z) (r : RegInst) : Prop := {
  a_spec : special r = false;
  a_new : flag (iq s) x DynInst.Issued = false /\ x ∉ all_ready (iq s);
  a_len : (length (srcRegs r) <= length (readySrc r))%nat /\ numSrcRegs r < 2 ^ 31;
  a_src : forall p, p ∈ slots r -> 0 <= p.1 /\ (p.1 < numPhysRegs s \/ p.2 = true);
  a_flags : readyRegs r = Z.of_nat (flagged (slots r));
  a_can : flag (iq s) x DynInst.CanIssue = bool_decide (readyRegs r = numSrcRegs r)
}.

Lemma iq_arrives_new s x st r l : but [] s -> arrives s x st r l -> ~ member s x.
Proof.
  intros Hd Ha (l1 & Hl & Hx). apply list_elem_of_lookup in Hl as (tid & Hl). destruct (d_member _ _ _ _ Hd tid l1 x Hl Hx) as (st' & _ & Hst & _ & Et). destruct (a_tid _ _ _ _ _ Ha) as [H0 Hl'].
  rewrite (a_stat _ _ _ _ _ Ha) in Hst. injection Hst as <-. rewrite Et, Nat2Z.id in Hl'. assert (l1 = l) as -> by congruence. pose proof (a_order _ _ _ _ _ Ha x Hx). lia.
Qed.

Lemma enter_ok s x st r l i : but [] s -> arrives s x st r l -> inst (iq s) x = Ok i -> stat i = st ->
  exists q, enter s x i = Ok (set_iq (set_list s (<[Z.to_nat (st_tid st) := l ++ [x]]> (instList s))) q) /\ but [x] (set_iq (set_list s (<[Z.to_nat (st_tid st) := l ++ [x]]> (instList s))) q) /\
    (forall y c, c <> DynInst.IqEntry -> flag q y c = flag (iq s) y c) /\ all_ready q = all_ready (iq s) /\ (forall y, handed (iq s) y <-> handed q y) /\
    (forall j, inst (iq s) x = Ok j -> exists j', inst q x = Ok j' /\ stat j' = stat j).
Proof.
  intros Hd Ha Ei Est. pose proof (a_stat _ _ _ _ _ Ha) as Hx. destruct (a_tid _ _ _ _ _ Ha) as [Ht Hl]. assert (Hlt : (Z.to_nat (st_tid st) < length (instList s))%nat) by by apply lookup_lt_Some in Hl.
  unfold enter. rewrite (proj2 (Z.eqb_neq _ _) (a_free _ _ _ _ _ Ha)). cbn [negb c_assert]. rewrite bind_Ok. assert (DynInst.threadNumber (dyn i) = st_tid st) as -> by by rewrite <- Est.
  unfold push_list. assert (vget (instList s) (st_tid st) = Ok l) as -> by by apply vget_Ok. rewrite bind_Ok, vset_lt, !bind_Ok by lia. set (s1 := set_list s _).
  assert (Hw : exists w, W !! x = Some w) by (exists (rstat r); by rewrite <- (d_static _ _ _ _ Hd), lookup_fmap, (a_reg _ _ _ _ _ Ha)). destruct Hw as [w Hw].
  assert (Hd1 : but [x] s1) by (apply (deps_push V W s _ l x st w); try done; [lia|apply Ha]).
  assert (Hd2 : but [x] (add_free s1 (-1))) by (apply deps_free; [done|apply uint_range; lia|done]). unfold upd_dyn.
  destruct (upd_set V (iq (add_free s1 (-1))) x st DynInst.IqEntry (d_sched _ _ _ _ Hd2) Hx) as (q & E & Hq & Hf); [done|]. rewrite E, bind_Ok. exists q.
  assert (Hfl : forall y c, c <> DynInst.IqEntry -> flag q y c = flag (iq s) y c) by (intros y c Hc; rewrite Hf, bool_decide_false, orb_false_r by (intros [_ ?]; congruence); done).
  split; [done|]. split_and!; try done.
  - change (but [x] (set_iq (add_free s1 (-1)) q)). apply deps_quiet; try done; [intros y; by apply Hfl|]. intros k y Hk Hy. rewrite Hfl by done. by destruct (d_chain _ _ _ _ Hd2 k y Hk Hy) as (_ & _ & _ & ?).
  - by rewrite (qt_eq _ _ Hq).
  - intros y. unfold InstQueueRegsProof.handed. rewrite Hfl by done. by rewrite (qt_eq _ _ Hq).
  - intros j Ej. destruct (inst_V V (iq s) x st (s_insts _ _ (d_sched _ _ _ _ Hd)) Hx) as (j0 & Ej0 & Est0). assert (j0 = j) as -> by congruence.
    destruct (inst_V V q x st) as (j' & Ej' & Est'); [|done|exists j'; split; [done|congruence]]. apply (s_insts V). by eapply quiet_sched, Hd2.
Qed.

(** The destinations. *)
Lemma enter_producers s x r : but [x] s -> regs s !! x = Some r -> (special r = true \/ operands s x r) ->
  (forall k, k ∈ destRegs r -> k < numPhysRegs s -> 0 <= k /\ k ∉ srcRegs r /\ forall y ry, y <> x -> member s y -> regs s !! y = Some ry -> special ry = false -> live s y ry -> k ∉ srcRegs ry) ->
  exists g b, addToProducers s x = Ok (set_graph s g b) /\ but [x] (set_graph s g b) /\ (operands s x r -> operands (set_graph s g b) x r) /\ forall k, 0 <= k -> gchain g k = chain s k.
Proof.
  intros Hd Hr Hx Hdest. destruct (d_size _ _ _ _ Hd) as (HN & Hsz & Hsb). unfold addToProducers, reg. rewrite Hr. cbn [deref]. rewrite bind_Ok.
  assert (Hslot : forall ry k, (k, false) ∈ slots ry -> k ∈ srcRegs ry) by (intros ry k Hp; apply list_elem_of_lookup in Hp as (j & Hp); unfold slots in Hp; apply lookup_zip_Some in Hp as [Hj _]; by eapply list_elem_of_lookup_2).
  assert (Hempty : forall k, k ∈ destRegs r -> k < numPhysRegs s -> 0 <= k /\ chain s k = []).
  { intros k Hk Hlt. destruct (Hdest k Hk Hlt) as (H0 & Hnx & Hny). split; [done|]. destruct (chain s k) as [|y l] eqn:El; [done|exfalso]. assert (Hy : y ∈ chain s k) by (rewrite El; left). destruct (decide (y = x)) as [->|Hne].
    - destruct (d_chain _ _ _ _ Hd k x H0 Hy) as (_ & (w & Hw & Hs) & _). rewrite <- (d_static _ _ _ _ Hd), lookup_fmap, Hr in Hw. injection Hw as <-. simpl in Hs. destruct Hx as [?|Ho]; [congruence|].
      pose proof (w_chain _ _ _ Ho k ltac:(lia)) as Hc. apply cnt_elem in Hy. destruct (sb s k); [lia|]. rewrite Hc in Hy. apply pend_elem in Hy. by apply Hnx, Hslot.
    - destruct (chain_waits V W [x] s k y) as (ry & Hry & Ho & _ & Hc & Hm & Hsp & Hlv); try done; [set_solver|]. apply cnt_elem in Hy. rewrite Hc in Hy. apply pend_elem in Hy. by apply (Hny y ry), Hslot. }
  destruct (producers_ok x (destRegs r) s Hsz Hsb Hempty) as (g & b & -> & Hg & Hb & Hch & Hsb'). exists g, b. split; [done|]. split_and!; try done.
  - apply deps_graph; try done; [intros k y Hk Hy; left; by rewrite <- Hch|]. intros y ry HX Ho Hm Hry Hsp Hlv. apply (operands_producers s y ry g b (destRegs r)); try done. intros k Hk Hlt. apply (Hdest k Hk Hlt) with (y := y); try done. set_solver.
  - intros Ho. apply (operands_producers s x r g b (destRegs r)); try done. intros k Hk Hlt. by destruct (Hdest k Hk Hlt) as (_ & ? & _).
Qed.

(** The sources: the instruction joins the chains of the registers it misses. *)
Lemma enter_dependents s x st r : but [x] s -> V !! x = Some st -> regs s !! x = Some r -> member s x -> (forall k, 0 <= k -> x ∉ chain s k) -> arrives_spec s x r ->
  exists rv q r' g, addToDependents s x = Ok (rv, set_graph (set_iq (set_regs s (<[x := r']> (regs s))) q) g (regScoreboard s)) /\
    but [x] (set_graph (set_iq (set_regs s (<[x := r']> (regs s))) q) g (regScoreboard s)) /\ operands (set_graph (set_iq (set_regs s (<[x := r']> (regs s))) q) g (regScoreboard s)) x r' /\
    rstat r' = rstat r /\ (forall y, flag q y DynInst.Issued = flag (iq s) y DynInst.Issued) /\ (readyRegs r' = numSrcRegs r' -> flag q x DynInst.CanIssue = true) /\
    quiet (iq s) q.
Proof.
  intros Hd Hx Hr Hm Hnc Ha. destruct (d_size _ _ _ _ Hd) as (HN & Hsz & Hsbl). destruct (a_len _ _ _ Ha) as [Hlen Hnum]. pose proof (a_flags _ _ _ Ha) as Hrr. pose proof (slots_length r Hlen) as Hsl.
  pose proof (got_split (numPhysRegs s) (sb s) (slots r)) as Hgs. pose proof (got_le (numPhysRegs s) (sb s) (slots r)) as Hgl. unfold addToDependents, reg. rewrite Hr. cbn [deref]. rewrite bind_Ok. unfold numSrcRegs in *. rewrite <- Hsl.
  destruct (dependents_ok V x st (slots r) 0 s r false) as (rv & q & r' & g & E & Hq & Hf & Hr' & Hslots & Hlr & Hg & Hch); try done; [apply Hd|apply Ha|lia|..].
  { lia. }
  exists rv, q, r', g. change (Z.of_nat 0) with 0 in E. rewrite E. split; [done|]. simpl take in Hslots. simpl in Hslots.
  assert (Est : rstat r' = rstat r) by (by rewrite Hr'). assert (Esrc : srcRegs r' = srcRegs r) by (by rewrite Hr').
  assert (Hrdy : readyRegs r' = Z.of_nat (got (numPhysRegs s) (sb s) (slots r))) by (rewrite Hr'; cbn [set_src readyRegs]; lia).
  assert (Hiss : forall y, flag q y DynInst.Issued = flag (iq s) y DynInst.Issued) by (intros y; rewrite Hf, bool_decide_false, orb_false_r by (by intros (_ & ? & _)); done).
  assert (Hcan : flag q x DynInst.CanIssue = bool_decide (readyRegs r' = numSrcRegs r)).
  { rewrite Hf, (a_can _ _ _ Ha). apply eq_true_iff_eq. rewrite orb_true_iff, !bool_decide_eq_true. unfold numSrcRegs in *. split; [intros [?|(_ & _ & ?)]; lia|]. intros Hfull. destruct (decide (readyRegs r = Z.of_nat (length (srcRegs r)))); [by left|right]. split_and!; try done; lia. }
  assert (Hwait : forall k, 0 <= k < numPhysRegs s -> sb s k = false -> (0 < pend (slots r) k)%nat -> flag q x DynInst.CanIssue = false).
  { intros k Hk Hb Hp. rewrite Hcan. apply bool_decide_false. rewrite Hrdy. unfold numSrcRegs. rewrite <- Hsl. intros Hfull. apply pend_elem in Hp. destruct (proj1 (got_full (numPhysRegs s) (sb s) (slots r)) ltac:(lia) _ Hp) as [?|[_ ?]]; [done|]. simpl in *. congruence. }
  set (s1 := set_iq (set_regs s (<[x := r']> (regs s))) q).
  assert (Hd1 : but [x] s1).
  { apply (deps_quiet V W _ (set_regs s (<[x := r']> (regs s)))); try done; [apply (deps_regs V W _ s x r); try done; set_solver|]. intros k y Hk Hy. assert (y <> x) by (intros ->; by apply (Hnc k)).
    rewrite Hf, bool_decide_false, orb_false_r by (intros [? _]; congruence). by destruct (d_chain _ _ _ _ Hd k y Hk Hy) as (_ & _ & _ & ?). }
  split_and!; try done.
  - apply deps_graph; try done.
    + intros k y Hk Hy. destruct (decide (k < numPhysRegs s)) as [Hlt|Hge]; [|unfold gchain in Hy; unfold entries in *; rewrite lookup_ge_None_2 in Hy by lia; by apply not_elem_of_nil in Hy].
      rewrite Hch in Hy by lia. apply elem_of_app in Hy as [Hy|Hy]; [right|by left]. apply elem_of_replicate in Hy as [-> Hne]. destruct (sb s k) eqn:Hb; [done|]. destruct (a_new _ _ _ Ha) as [Hni Hnr].
      split; [split_and!|change (x ∉ all_ready q); by rewrite (qt_eq _ _ Hq)].
      * done.
      * exists (rstat r). rewrite <- (d_static _ _ _ _ Hd), lookup_fmap, Hr. split; [done|apply Ha].
      * change (flag q x DynInst.Issued = false). by rewrite Hiss.
      * apply (Hwait k); [lia|done|lia].
    + intros y ry HX [O1 O2 O3 O4] _ _ _ _. constructor; try done. intros k Hk. change (numPhysRegs (set_graph s1 g (regScoreboard s))) with (numPhysRegs s) in Hk. transitivity (cnt y (chain s k)); [|exact (O3 k Hk)].
      change (cnt y (gchain g k) = cnt y (chain s k)). rewrite Hch, occ_app, cnt_replicate, decide_False by (done || set_solver). done.
  - constructor.
    + unfold numSrcRegs. rewrite Esrc, Hlr. split; [done|lia].
    + intros p Hp. rewrite Hslots in Hp. apply elem_of_map in Hp as (p0 & -> & Hp0). destruct (a_src _ _ _ Ha p0 Hp0) as [? [?|Ht]]; simpl; split; try done; [by left|right; by rewrite Ht].
    + intros k Hk. change (numPhysRegs (set_graph s1 g (regScoreboard s))) with (numPhysRegs s) in Hk. change (cnt x (gchain g k) = if sb s k then 0%nat else pend (slots r') k). rewrite Hch, occ_app, cnt_replicate, decide_True by done.
      rewrite (proj2 (cnt_zero x (chain s k))) by (apply Hnc; lia). destruct (sb s k) eqn:Hb; [done|]. rewrite Hslots, pend_noted by done. lia.
    + change (readyRegs r' = Z.of_nat (got (numPhysRegs s) (sb s) (slots r'))). by rewrite Hslots, got_noted.
  - intros Hfull. rewrite Hcan. apply bool_decide_true. rewrite Hfull. unfold numSrcRegs. by rewrite Esrc.
Qed.

(** The last steps of both insertions. *)
Lemma enter_done L s x st : but L s -> V !! x = Some st -> exists s', (s1 ← add_count s (st_tid st) 1; _ ← check_free s1; Ok s1) = Ok s' /\ but L s' /\ exists c, s' = set_iq s (set_free (iq s) (freeEntries (iq s)) c).
Proof.
  intros Hd Hx. destruct (add_count_ok V W _ s (st_tid st) 1 Hd (e_tid _ _ (d_env _ _ _ _ Hd) x st Hx)) as (c & -> & Hc). rewrite bind_Ok.
  assert (Hd1 : but L (set_iq s (set_free (iq s) (freeEntries (iq s)) c))) by (apply deps_free; [done|apply (e_free _ _ (d_env _ _ _ _ Hd))|done]).
  rewrite (check_free_ok V W _ _ Hd1), bind_Ok. eexists. split; [done|]. split; [done|by exists c].
Qed.

Lemma insert_inst_ok s x st r l : but [] s -> arrives s x st r l -> arrives_spec s x r -> exists s', insert s x = Ok s' /\ but [] s'.
Proof.
  intros Hd Ha Hs. pose proof (a_stat _ _ _ _ _ Ha) as Hx. pose proof (a_reg _ _ _ _ _ Ha) as Hr. destruct (a_tid _ _ _ _ _ Ha) as [Ht Hl]. pose proof (iq_arrives_new _ _ _ _ _ Hd Ha) as Hnm.
  destruct (inst_V V (iq s) x st (s_insts _ _ (d_sched _ _ _ _ Hd)) Hx) as (i & Ei & Est). unfold insert. rewrite Ei, bind_Ok.
  destruct (enter_ok s x st r l i Hd Ha Ei Est) as (q1 & E1 & Hd1 & Hf1 & Hr1 & Hh1 & Hj1). rewrite E1, bind_Ok. set (s1 := set_iq (set_list s _) q1) in *.
  assert (Hmx : member s1 x) by (exists (l ++ [x]); split; [apply list_elem_of_lookup; exists (Z.to_nat (st_tid st)); apply list_lookup_insert_eq; by apply lookup_lt_Some in Hl|set_solver]).
  destruct (enter_dependents s1 x st r) as (rv & q2 & r2 & g2 & E2 & Hd2 & Ho2 & Er2 & Hi2 & Hc2 & Hq2); try done.
  { intros k Hk Hc. apply Hnm. by destruct (d_chain _ _ _ _ Hd k x Hk Hc) as (? & _). }
  { destruct Hs as [S1 [S2 S3] S4 S5 S6 S7]. constructor; try done; [|by rewrite <- S7; apply Hf1]. split; [by rewrite <- S2; apply Hf1|]. change (x ∉ all_ready q1). by rewrite Hr1. }
  rewrite E2, bind_Ok. cbv beta iota. set (s2 := set_graph (set_iq (set_regs s1 _) q2) g2 _) in *.
  assert (Hr2 : regs s2 !! x = Some r2) by apply lookup_insert_eq. assert (Eds : destRegs r2 = destRegs r /\ srcRegs r2 = srcRegs r) by (split; [exact (f_equal rs_dest Er2)|exact (f_equal rs_src Er2)]). destruct Eds as [Ed Es].
  destruct (enter_producers s2 x r2) as (g3 & b3 & E3 & Hd3 & Ho3 & Hch3); try done; [by right|..].
  { intros k Hk Hlt. rewrite Ed in Hk. destruct (a_dest _ _ _ _ _ Ha k Hk Hlt) as (H0 & Hnx & Hny). rewrite Es. split_and!; try done. intros y ry Hne Hm Hry Hsp Hlv.
    apply (Hny y ry); try done.
    - apply (push_member s (Z.to_nat (st_tid st)) l x y Hl); [|done]. exact Hm.
    - change (regs s2) with (<[x := r2]> (regs s)) in Hry. by rewrite lookup_insert_ne in Hry.
    - destruct Hlv as [Hlv|Hlv]; [left|by right]. change (flag q2 y DynInst.Issued = false) in Hlv. rewrite Hi2 in Hlv. change (flag q1 y DynInst.Issued = false) in Hlv. by rewrite Hf1 in Hlv. }
  rewrite E3, bind_Ok. set (s3 := set_graph s2 g3 b3) in *. specialize (Ho3 Ho2).
  assert (Hnc : flag (iq s3) x DynInst.CanIssue = true -> forall k, 0 <= k -> x ∉ chain s3 k) by (intros Hc k Hk Hin; destruct (d_chain _ _ _ _ Hd3 k x Hk Hin) as (_ & _ & _ & ?); congruence).
  assert (Hmid : exists s4, (if isMemRef i then i ← inst (iq s3) x; Ok (call s3 (MInsert x (DynInst.has (dyn i) DynInst.CanIssue))) else addIfReady s3 x) = Ok s4 /\ but [x] s4 /\ exists q4, s4 = set_iq s3 q4 /\ (flag (iq s3) x DynInst.CanIssue = true -> handed q4 x)).
  { destruct (isMemRef i).
    - destruct (inst_V V (iq s3) x st (s_insts _ _ (d_sched _ _ _ _ Hd3)) Hx) as (i3 & Ei3 & _). rewrite Ei3, bind_Ok. eexists. split; [done|]. split; [by apply deps_call|]. eexists. split; [done|]. intros Hc. right; right; left. simpl.
      assert (DynInst.has (dyn i3) DynInst.CanIssue = true) as -> by (rewrite <- Hc; unfold flag; unfold inst in Ei3; by destruct (insts (iq s3) !! x); [injection Ei3 as ->|]). set_solver.
    - destruct (addIfReady_ok V W _ s3 x st Hd3 Hx Hnc) as (q4 & E4 & Hd4 & Hh4 & _). exists (set_iq s3 q4). split_and!; try done. by exists q4. }
  destruct Hmid as (s4 & E4 & Hd4 & q4 & -> & Hh4). rewrite E4, bind_Ok. assert (DynInst.threadNumber (dyn i) = st_tid st) as -> by by rewrite <- Est.
  destruct (enter_done [x] (set_iq s3 q4) x st Hd4 Hx) as (s5 & E5 & Hd5 & c & ->). exists (set_iq (set_iq s3 q4) (set_free q4 (freeEntries q4) c)). split; [exact E5|].
  apply (deps_restore V W [x]); [done|]. intros y ry ->%list_elem_of_singleton _ Hry Hsp Hlv. change (regs s2 !! x = Some ry) in Hry. assert (ry = r2) as -> by congruence. destruct Ho3 as [? ? ? ?]. split; [by constructor|].
  intros Hfull. change (handed q4 x). apply Hh4. change (flag q2 x DynInst.CanIssue = true). by apply Hc2.
Qed.

Lemma iq_insertNonSpec_ok s x st r l : but [] s -> arrives s x st r l -> special r = true -> exists s', insertNonSpec s x = Ok s' /\ but [] s'.
Proof.
  intros Hd Ha Hsp. pose proof (a_stat _ _ _ _ _ Ha) as Hx. pose proof (a_reg _ _ _ _ _ Ha) as Hr. destruct (a_tid _ _ _ _ _ Ha) as [Ht Hl]. destruct (inst_V V (iq s) x st (s_insts _ _ (d_sched _ _ _ _ Hd)) Hx) as (i & Ei & Est). unfold insertNonSpec. rewrite Ei, bind_Ok.
  set (s0 := set_nonSpec s _).
  assert (Hd0 : but [] s0).
  { constructor; try apply Hd; [intros y ry HX Hm Hry Hspy Hlv; same_operands (d_waits _ _ _ _ Hd y ry HX Hm Hry Hspy Hlv)|]. intros n y Hn. cbn [s0 set_nonSpec nonSpecInsts] in Hn. apply lookup_insert_Some in Hn as [[_ <-]|[_ Hn]]; [|by apply (d_nonspec _ _ _ _ Hd n)].
    exists st, (rstat r). split_and!; try done. by rewrite <- (d_static _ _ _ _ Hd), lookup_fmap, Hr. }
  assert (Ha0 : arrives s0 x st r l) by (destruct Ha; by constructor).
  destruct (enter_ok s0 x st r l i Hd0 Ha0 Ei Est) as (q1 & E1 & Hd1 & Hf1 & _). rewrite E1, bind_Ok. set (s1 := set_iq (set_list s0 _) q1) in *.
  destruct (enter_producers s1 x r) as (g2 & b2 & E2 & Hd2 & _); try done; [by left|..].
  { intros k Hk Hlt. destruct (a_dest _ _ _ _ _ Ha k Hk Hlt) as (H0 & Hnx & Hny). split_and!; try done. intros y ry Hne Hm Hry Hspy Hlv. apply (Hny y ry); try done.
    - apply (push_member s0 (Z.to_nat (st_tid st)) l x y Hl); [exact Hm|done].
    - destruct Hlv as [Hlv|Hlv]; [left|by right]. change (flag q1 y DynInst.Issued = false) in Hlv. by rewrite Hf1 in Hlv. }
  rewrite E2, bind_Ok. cbv zeta. assert (DynInst.threadNumber (dyn i) = st_tid st) as -> by by rewrite <- Est.
  match goal with |- context [add_count ?z] => set (s3 := z) end.
  assert (Hd3 : but [x] s3) by (unfold s3; destruct (isMemRef i); [by apply deps_call|done]). assert (Hr3 : regs s3 = regs s) by (unfold s3; by destruct (isMemRef i)).
  destruct (enter_done [x] s3 x st Hd3 Hx) as (s4 & E4 & Hd4 & c & ->). eexists. split; [exact E4|]. apply (deps_restore V W [x]); [done|]. intros y ry ->%list_elem_of_singleton _ Hry Hspy. change (regs s3 !! x = Some ry) in Hry. rewrite Hr3 in Hry. congruence.
Qed.

Lemma scheduleNonSpec_ok s n x : but [] s -> nonSpecInsts s !! n = Some x -> exists s', scheduleNonSpec s n = Ok s' /\ but [] s'.
Proof.
  intros Hd Hn. destruct (d_nonspec _ _ _ _ Hd n x Hn) as (st & w & Hx & Hw & Hsp). unfold scheduleNonSpec. rewrite Hn, bind_Ok. unfold upd_dyn.
  assert (Hnc : forall k, 0 <= k -> x ∉ chain s k) by (intros k Hk Hc; destruct (d_chain _ _ _ _ Hd k x Hk Hc) as (_ & (w' & Hw' & ?) & _); congruence).
  destruct (upd_set V (iq s) x st DynInst.AtCommit (d_sched _ _ _ _ Hd) Hx) as (q1 & E1 & Hq1 & Hf1); [done|]. rewrite E1, !bind_Ok.
  assert (Hd1 : but [] (set_iq s q1)).
  { apply deps_quiet; try done; [intros y; rewrite Hf1, bool_decide_false, orb_false_r by (by intros [_ ?]); done|]. intros k y Hk Hy. rewrite Hf1, bool_decide_false, orb_false_r by (by intros [_ ?]). by destruct (d_chain _ _ _ _ Hd k y Hk Hy) as (_ & _ & _ & ?). }
  destruct (upd_set V (iq (set_iq s q1)) x st DynInst.CanIssue (d_sched _ _ _ _ Hd1) Hx) as (q2 & E2 & Hq2 & Hf2); [done|]. change (iq (set_iq s q1)) with q1 in *. rewrite E2, !bind_Ok. set (s2 := set_iq (set_iq s q1) q2).
  assert (Hd2 : but [] s2).
  { apply (deps_quiet V W _ (set_iq s q1)); try done; [intros y; rewrite Hf2, bool_decide_false, orb_false_r by (by intros [_ ?]); done|]. intros k y Hk Hy. assert (y <> x) by (intros ->; by apply (Hnc k)). rewrite Hf2, bool_decide_false, orb_false_r by (intros [? _]; congruence).
    by destruct (d_chain _ _ _ _ Hd1 k y Hk Hy) as (_ & _ & _ & ?). }
  change (iq s2) with q2. destruct (inst_V V q2 x st (s_insts _ _ (d_sched _ _ _ _ Hd2)) Hx) as (i & Ei & _). rewrite Ei, bind_Ok.
  assert (Hlast : forall s', but [] s' -> but [] (set_nonSpec s' (delete n (nonSpecInsts s')))).
  { intros s' Hd'. constructor; try apply Hd'; [intros y ry HX Hm Hry Hspy Hlv; same_operands (d_waits _ _ _ _ Hd' y ry HX Hm Hry Hspy Hlv)|]. intros m y Hm. cbn [set_nonSpec nonSpecInsts] in Hm. apply lookup_delete_Some in Hm as [_ Hm]. by apply (d_nonspec _ _ _ _ Hd' m). }
  destruct (negb (isMemRef i)).
  - destruct (addIfReady_ok V W _ s2 x st Hd2 Hx) as (q3 & E3 & Hd3 & _); [intros _; exact Hnc|]. rewrite E3, bind_Ok. eexists. split; [done|]. by apply Hlast.
  - rewrite bind_Ok. eexists. split; [done|]. by apply Hlast, deps_call.
Qed.
End entry.
