(* ===== verification/InstQueueRegsTheorems.v ===== *)
(** * Theorems on the registers of the instruction queue *)
From stdpp Require Import sorting.
From S2P Require Import Prelude Rob FuPool FuPoolTheorems InstQueue InstQueueProof InstQueueTheorems InstQueueRegs InstQueueRegsProof InstQueueRegsOps.
Import InstructionQueue InstQueueRegs.
#[local] Existing Instance DynInst.status_eq_dec.

(** ** Runs *)
Inductive op :=
| Insert (x : Z) | InsertNonSpec (x : Z) | InsertBarrier (x : Z) | ScheduleNonSpec (n : Z) | Wake (x : Z) | Commit (n tid : Z) | Squash (n tid : Z)
| AddReadyMem (x : Z) | Reschedule (x : Z) | Replay (x : Z) | Violation (store load : Z) | Schedule
| SetStatus (x : Z) (b : DynInst.Status).

(** Enough iterations for a cycle of issue. *)
Definition cycle_fuel (q : InstructionQueue.t) : nat := length (all_ready q) + length (listOrder q).

Definition exec (s : t) (o : op) : res t :=
  match o with
  | Insert x => insert s x
  | InsertNonSpec x => insertNonSpec s x
  | InsertBarrier x => insertBarrier s x
  | ScheduleNonSpec n => scheduleNonSpec s n
  | Wake x => '(_, s) ← wakeDependents s x; Ok s
  | Commit n tid => commit s n tid
  | Squash n tid => squash s n tid
  | AddReadyMem x => addReadyMemInst s x
  | Reschedule x => rescheduleMemInst s x
  | Replay x => Ok (replayMemInst s x)
  | Violation store load => Ok (violation s store load)
  | Schedule => '(_, q) ← scheduleReadyInsts (cycle_fuel (iq s)) (iq s); Ok (set_iq s q)
  | SetStatus x b => upd_dyn s x (DynInst.set b)
  end.
Fixpoint run (s : t) (ops : list op) : res t := match ops with [] => Ok s | o :: ops => s ← exec s o; run s ops end.

(** What is fixed of the instructions, but for the squashed bit. *)
Definition stats (s : t) : gmap Z Stat := stat <$> insts (iq s).
Definition rstats (s : t) : gmap Z RegStat := rstat <$> regs s.

(** All operands of the instruction are there. *)
Definition complete (s : t) (r : RegInst) : Prop := forall p, p ∈ slots r -> p.2 = true \/ (p.1 < numPhysRegs s /\ sb s p.1 = true).

(** What the other stages keep to: instructions enter in program order as
    renaming left them, only issued ones commit, a completed one has not been
    squashed, a special instruction that is squashed has not been scheduled,
    the memory dependence unit hands over what has its registers, and the other
    stages set any status bit but the two of issue; the reorder buffer sets the
    squashed bit. *)
Definition enabled (s : t) (o : op) : Prop :=
  match o with
  | Insert x => exists st r l, arrives (stats s) s x st r l /\ arrives_spec s x r
  | InsertNonSpec x | InsertBarrier x => exists st r l, arrives (stats s) s x st r l /\ special r = true
  | ScheduleNonSpec n => is_Some (nonSpecInsts s !! n)
  | Wake x => is_Some (insts (iq s) !! x) /\ flag (iq s) x DynInst.Squashed = false /\ exists r, regs s !! x = Some r /\ forall k, k ∈ destRegs r -> 0 <= k
  | Commit n tid => 0 <= tid /\ exists l, instList s !! Z.to_nat tid = Some l /\ forall x, x ∈ l -> sq (stats s) x <= n -> flag (iq s) x DynInst.Issued = true
  | Squash n tid => 0 <= tid /\ exists l, instList s !! Z.to_nat tid = Some l /\ forall x, x ∈ l -> n < sq (stats s) x -> held (stats s) s x
  | AddReadyMem x => is_Some (insts (iq s) !! x) /\ forall r, regs s !! x = Some r -> special r = true \/ complete s r
  | Reschedule x => is_Some (insts (iq s) !! x)
  | Replay _ | Violation _ _ => True
  | Schedule => 0 <= totalWidth (iq s)
  | SetStatus x b => is_Some (insts (iq s) !! x) /\ b <> DynInst.Issued /\ b <> DynInst.CanIssue
  end.
Fixpoint enabled_run (s : t) (ops : list op) : Prop := match ops with [] => True | o :: ops => enabled s o /\ forall s', exec s o = Ok s' -> enabled_run s' ops end.

Lemma enabled_cons s o s1 ops : enabled s o -> exec s o = Ok s1 -> enabled_run s1 ops -> enabled_run s (o :: ops).
Proof. intros Ho E Hr. split; [done|]. intros s' E'. rewrite E in E'. by injection E' as <-. Qed.

Lemma schedule_deps V W s : but V W [] s -> 0 <= totalWidth (iq s) -> exists n q, scheduleReadyInsts (cycle_fuel (iq s)) (iq s) = Ok (n, q) /\ but V W [] (set_iq s q).
Proof.
  intros Hd Hw. destruct (schedule_loop_ok V (cycle_fuel (iq s)) (iq s) [] (listOrder (iq s)) 0) as (n & q & iss & drp & E & Hr & _); try done; try apply Hd; [by intros ? ? ?%not_elem_of_nil|].
  exists n, q. split; [exact E|]. pose proof (r_status _ _ _ _ _ Hr) as [Hot His Hca Hco]. pose proof (r_ready _ _ _ _ _ Hr) as Hp.
  assert (Hsub : forall k x, 0 <= k -> x ∈ chain s k -> x ∉ iss /\ x ∉ drp /\ x ∉ all_ready q).
  { intros k x Hk Hx. pose proof (d_ready _ _ _ _ Hd k x Hk Hx) as Hn. rewrite Hp in Hn. rewrite !not_elem_of_app in Hn. tauto. }
  apply deps_iq; try done; try apply Hr.
  - intros x Hx. by rewrite His, Hx.
  - intros k x Hk Hx. destruct (d_chain _ _ _ _ Hd k x Hk Hx) as (_ & _ & Hi & Hc). destruct (Hsub k x Hk Hx) as (H1 & _ & H3). rewrite His, Hi, Hot, Hc, bool_decide_false by done. done.
  - intros y. unfold handed. rewrite His. intros [Hy|[Hy|[Hy|[Hy|Hy]]]]; [|auto 8..|rewrite Hy; auto 8|auto 8]. rewrite Hp in Hy. apply elem_of_app in Hy as [Hy|[Hy|Hy]%elem_of_app].
    + right; right; right; left. rewrite (bool_decide_true (y ∈ iss)) by done. apply orb_true_r.
    + right; right; right; right. by apply (r_drp _ _ _ _ _ Hr).
    + by left.
Qed.

(** The invariant, for the instructions as they are. *)
Definition iq_ok (s : t) : Prop := but (stats s) (rstats s) [] s.
Lemma but_ok V W s : but V W [] s -> iq_ok s.
Proof. intros Hd. unfold iq_ok, stats, rstats. by rewrite (s_insts _ _ (d_sched _ _ _ _ Hd)), (d_static _ _ _ _ Hd). Qed.
Lemma stats_lookup s x : is_Some (insts (iq s) !! x) -> exists st, stats s !! x = Some st /\ st_squashed st = flag (iq s) x DynInst.Squashed.
Proof. intros [i Hi]. exists (stat i). unfold stats, flag. by rewrite lookup_fmap, Hi. Qed.

Lemma status_deps s x b : iq_ok s -> enabled s (SetStatus x b) -> exists s', upd_dyn s x (DynInst.set b) = Ok s' /\ iq_ok s'.
Proof.
  intros Hd (Hi & Hni & Hnc). destruct (stats_lookup s x Hi) as (st & Hx & _). destruct (decide (b = DynInst.Squashed)) as [->|Hns].
  - destruct (deps_mark _ _ _ s x st (DynInst.set DynInst.Squashed) Hd Hx) as (q & -> & Hd' & _).
    + intros d. rewrite !DynInst.has_set. by split_and!.
    + right. intros d. by rewrite !DynInst.has_set, !bool_decide_false by done.
    + eexists. split; [done|]. exact (but_ok _ _ _ Hd').
  - unfold upd_dyn. destruct (upd_set (stats s) (iq s) x st b (d_sched _ _ _ _ Hd) Hx Hns) as (q & -> & Hq & Hf). rewrite bind_Ok. eexists. split; [done|]. apply (but_ok (stats s) (rstats s)), deps_quiet; try done.
    + intros y. rewrite Hf, bool_decide_false by (intros [_ ?]; congruence). apply orb_false_r.
    + intros k y Hk Hy. rewrite Hf, bool_decide_false by (intros [_ ?]; congruence). by destruct (d_chain _ _ _ _ Hd k y Hk Hy) as (_ & _ & _ & ->).
Qed.

Lemma step_deps s o : iq_ok s -> enabled s o -> exists s', exec s o = Ok s' /\ iq_ok s'.
Proof.
  intros Hd Ho. assert (Hok : forall r : res t, (exists s', r = Ok s' /\ but (stats s) (rstats s) [] s') -> exists s', r = Ok s' /\ iq_ok s') by (intros r (s' & -> & H'); exists s'; split; [done|exact (but_ok _ _ _ H')]).
  destruct o as [x|x|x|n|x|n tid|n tid|x|x|x|x y| |x b]; cbn [exec]; [..|by apply status_deps]; cbn [enabled] in Ho.
  - apply Hok. destruct Ho as (st & r & l & H1 & H2). by eapply insert_inst_ok.
  - apply Hok. destruct Ho as (st & r & l & H1 & H2). by eapply iq_insertNonSpec_ok.
  - apply Hok. destruct Ho as (st & r & l & H1 & H2). unfold insertBarrier. eapply iq_insertNonSpec_ok; [by apply deps_call| |done]. destruct H1. by constructor.
  - apply Hok. destruct Ho as [x Hx]. by eapply scheduleNonSpec_ok.
  - apply Hok. destruct Ho as (Hi & Hsq & r & Hr & Hk). destruct (stats_lookup s x Hi) as (st & Hx & Est). destruct (iq_wakeDependents_ok (stats s) (rstats s) s x st (rstat r) Hd Hx) as (n & s' & -> & Hd'); [unfold rstats; by rewrite lookup_fmap, Hr|congruence|done|].
    exists s'. by rewrite bind_Ok.
  - apply Hok. destruct Ho as (Ht & l & H1 & H2). by eapply iq_commit_ok.
  - destruct Ho as (Ht & l & H1 & H2). destruct (iq_squash_ok _ _ s n tid l Hd Ht H1 H2) as (s' & V' & E & _ & Hd'). exists s'. split; [done|]. exact (but_ok _ _ _ Hd').
  - apply Hok. destruct Ho as (Hi & Hc). destruct (stats_lookup s x Hi) as (st & Hx & _). unfold addReadyMemInst. destruct (push_ready_ok (stats s) (rstats s) _ s x st Hd Hx) as (q & -> & Hd' & _); [|rewrite bind_Ok; by exists (set_iq s q)].
    intros k Hk Hin. destruct (chain_waits (stats s) (rstats s) [] s k x Hd (not_elem_of_nil x)) as (r & Hr & _ & Hsb & Hcn & _ & Hsp & _); [split; [done|by eapply chain_range]|done|]. destruct (Hc r Hr) as [?|Hcm]; [congruence|].
    apply cnt_elem in Hin. rewrite Hcn in Hin. apply pend_elem in Hin. destruct (Hcm _ Hin) as [?|[_ ?]]; [done|]. simpl in *. congruence.
  - apply Hok. destruct (stats_lookup s x Ho) as (st & Hx & _). unfold rescheduleMemInst, upd_dyn. destruct (upd_reset (stats s) (iq s) x st DynInst.CanIssue (d_sched _ _ _ _ Hd) Hx) as (q & E & Hq & Hf); [done|]. rewrite E, !bind_Ok. eexists. split; [done|]. apply deps_call.
    apply deps_quiet; try done; [intros y; rewrite Hf, bool_decide_false, andb_true_r by (by intros [_ ?]); done|]. intros k y Hk Hy. rewrite Hf. by destruct (d_chain _ _ _ _ Hd k y Hk Hy) as (_ & _ & _ & ->).
  - apply Hok. eexists. split; [done|]. by apply deps_call.
  - apply Hok. eexists. split; [done|]. by apply deps_call.
  - apply Hok. destruct (schedule_deps _ _ s Hd Ho) as (n & q & -> & Hd'). rewrite bind_Ok. by exists (set_iq s q).
Qed.

Lemma run_deps ops s : iq_ok s -> enabled_run s ops -> exists s', run s ops = Ok s' /\ iq_ok s'.
Proof.
  revert s. induction ops as [|o ops IH]; intros s Hd Ho; [by exists s|]. destruct Ho as [Ho Hr]. destruct (step_deps s o Hd Ho) as (s1 & E & Hd1). cbn [run]. rewrite E, bind_Ok. apply IH; [done|]. by apply Hr.
Qed.

(** ** Construction *)

(** The storage of a queue with its parameters. *)
Record fresh_queue (s : t) : Prop := {
  f_env : env (stats s) (iq s);
  f_sizes : 0 <= numPhysRegs s /\ 0 <= numEntries s < 2 ^ 32 /\ numThreads s = Z.of_nat (length (count (iq s))) /\ length (instList s) = length (count (iq s)) /\ length (squashedSeqNum s) = length (count (iq s))
}.

Lemma new_deps s p thr s0 : fresh_queue s -> new s p thr = Ok s0 -> iq_ok s0.
Proof.
  intros [F2 (HN & HE & HT & HI & HQ)] H. apply (but_ok (stats s) (rstats s)). unfold new in H. apply res_bind_Ok in H as ([pol mx] & _ & [= <-]).
  assert (Hrep : forall {A} (x : A) (l : list A), length l = length (count (iq s)) -> replicate (Z.to_nat (numThreads s)) x ++ drop (Z.to_nat (numThreads s)) l = replicate (length (count (iq s))) x).
  { intros A x l Hl. rewrite HT, Nat2Z.id, drop_ge by lia. by rewrite app_nil_r. }
  cbn [set_graph numThreads numPhysRegs iq regs instList nonSpecInsts dependGraph regScoreboard squashedSeqNum numEntries resetState].
  rewrite (Hrep _ [] (instList s) HI), (Hrep _ 0 (squashedSeqNum s) HQ), (Hrep _ 0 (count (iq s)) eq_refl).
  assert (Hnil : forall tid l, replicate (length (count (iq s))) ([] : list Z) !! tid = Some l -> l = []) by (intros tid l Hl; by apply lookup_replicate in Hl as [-> _]).
  assert (Hnc : forall k, gchain (DependencyGraph.resize DependencyGraph.new (numPhysRegs s)) k = []).
  { intros k. unfold gchain. simpl. destruct (replicate _ _ !! _) as [e|] eqn:E; [|done]. by apply lookup_replicate in E as [-> _]. }
  constructor.
  - by apply resetReady_ok.
  - destruct F2 as [P1 P2 P3 P4 P5]. constructor; try done. intros x st Hx. simpl. rewrite length_replicate. by apply (P5 x).
  - done.
  - split; [done|]. unfold entries. simpl. by rewrite !length_replicate.
  - simpl. by rewrite !length_replicate.
  - intros tid l x Hl Hx. cbn [instList] in Hl. apply Hnil in Hl as ->. by apply not_elem_of_nil in Hx.
  - intros l Hl. cbn [instList] in Hl. apply elem_of_replicate in Hl as [-> _]. constructor.
  - intros k y _ Hy. unfold chain in Hy. cbn [dependGraph] in Hy. rewrite Hnc in Hy. by apply not_elem_of_nil in Hy.
  - intros k y _ Hy. unfold chain in Hy. cbn [dependGraph] in Hy. rewrite Hnc in Hy. by apply not_elem_of_nil in Hy.
  - intros y r _ (l & Hl & Hy). cbn [instList] in Hl. apply elem_of_replicate in Hl as [-> _]. by apply not_elem_of_nil in Hy.
  - intros n y Hn. simpl in Hn. by rewrite lookup_empty in Hn.
Qed.

(** ** Theorem *)

(** The instruction is on a ready queue or has been reported to the memory dependence
    unit, or it is squashed. *)
Definition handed_on (q : InstructionQueue.t) (y : Z) : Prop :=
  y ∈ all_ready q \/ MRegsReady y ∈ memCalls q \/ MInsert y true ∈ memCalls q \/ flag q y DynInst.Squashed = true.

(** C14. From the construction of the queue, whatever the other stages do within
    their guards (insert, wake, issue, commit, squash, reschedule, set status bits,
    the squashed bit among them), every operation succeeds.  In the state reached, an
    instruction in the queue that is neither non-speculative nor a store conditional
    nor a barrier, and has not been issued, is in one of two situations: some
    operand's register has not been produced, the instruction is in the chain of that
    register, it is in no ready queue and cannot issue; or all its operands are
    there, and it has been put on a ready queue or reported to the memory
    dependence unit, or it was squashed. *)
Theorem register_wakeups s p thr s0 ops : fresh_queue s -> new s p thr = Ok s0 -> enabled_run s0 ops ->
  exists s', run s0 ops = Ok s' /\ forall y r, member s' y -> regs s' !! y = Some r ->
    isNonSpeculative r = false -> isStoreConditional r = false -> isMemBarrier r = false -> isWriteBarrier r = false -> flag (iq s') y DynInst.Issued = false ->
    (exists k, (k, false) ∈ slots r /\ sb s' k = false /\ y ∈ chain s' k /\ y ∉ all_ready (iq s') /\ flag (iq s') y DynInst.CanIssue = false) \/
    (complete s' r /\ handed_on (iq s') y).
Proof.
  intros Hf Hn He. destruct (run_deps ops s0 (new_deps s p thr s0 Hf Hn) He) as (s' & E & Hd). exists s'. split; [done|]. intros y r Hm Hr H1 H2 H3 H4 Hi.
  assert (Hsp : special r = false) by (unfold special; by rewrite H1, H2, H3, H4).
  destruct (d_waits _ _ _ _ Hd y r (not_elem_of_nil y) Hm Hr Hsp) as [Ho Hh]; [by left|]. destruct (w_len _ _ _ Ho) as [Hl _]. pose proof (slots_length r Hl) as Hsl.
  destruct (decide (got (numPhysRegs s') (sb s') (slots r) = length (slots r))) as [Hfull|Hmiss].
  - right. split; [exact (proj1 (got_full _ _ _) Hfull)|]. destruct Hh as [?|[?|[?|[?|(st & Hst & Hq)]]]]; [rewrite (w_ready _ _ _ Ho), Hfull, Hsl; done|by left|by right; left|by right; right; left|congruence|].
    right; right; right. unfold stats in Hst. rewrite lookup_fmap in Hst. unfold flag. destruct (insts (iq s') !! y); [|done]. by injection Hst as <-.
  - left. destruct (decide (Exists (fun q => ~ (q.2 = true \/ (q.1 < numPhysRegs s' /\ sb s' q.1 = true))) (slots r))) as [Hex|Hex].
    + apply Exists_exists in Hex as ([k b] & Hp & Hnot). simpl in Hnot. destruct (w_src _ _ _ Ho _ Hp) as [H5 H6]. simpl in H5, H6. destruct b; [tauto|]. destruct H6 as [H6|]; [|done]. destruct (sb s' k) eqn:Hb; [tauto|].
      assert (Hy : y ∈ chain s' k) by (apply cnt_elem; rewrite (w_chain _ _ _ Ho k) by done; rewrite Hb; by apply pend_elem). exists k. destruct (d_chain _ _ _ _ Hd k y H5 Hy) as (_ & _ & _ & Hc). split_and!; try done. by apply (d_ready _ _ _ _ Hd k).
    + exfalso. apply Hmiss, got_full. intros q Hq. destruct (decide (q.2 = true \/ (q.1 < numPhysRegs s' /\ sb s' q.1 = true))) as [|Hc]; [done|]. destruct Hex. apply Exists_exists. by exists q.
Qed.

(** An instruction that produces a register, and one that reads it: the second
    waits while the first issues, and is ready when the first completes. *)
Definition two_insts : gmap Z Inst :=
  {[1 := mkInst (DynInst.set DynInst.CanIssue (DynInst.mk 1 0 0)) IntAlu false; 2 := mkInst (DynInst.mk 2 0 0) IntAlu false]}.
Definition two_regs : gmap Z RegInst :=
  {[1 := mkReg [] [] 0 [2] false false false false false; 2 := mkReg [2] [false] 0 [3] false false false false false]}.
Definition two_storage : t :=
  mk (InstructionQueue.mk two_insts [] [] 0 [] [] [] 0 0 [] wit_pool 60 [0] 8 [] 0 8 true false) two_regs [[]] ∅ DependencyGraph.new [] [0] 60 4 1 Dynamic [] [0].
Definition two_start : t := Eval vm_compute in match new two_storage "dynamic" 0 with Ok s => s | Er _ => two_storage end.
Definition two_entered : t := Eval vm_compute in match insert two_start 1 with Ok s => s | Er _ => two_storage end.
Definition two_both : t := Eval vm_compute in match insert two_entered 2 with Ok s => s | Er _ => two_storage end.
(** The second is squashed in the end. *)
Definition two_ops : list op := [Insert 1; Insert 2; Schedule; Wake 1; SetStatus 2 DynInst.Squashed; Squash 1 0].

Definition two_after (s : t) (o : op) : t := match exec s o with Ok s => s | Er _ => two_storage end.
Definition two_issued : t := Eval vm_compute in two_after two_both Schedule.
Definition two_woken : t := Eval vm_compute in two_after two_issued (Wake 1).
Definition two_marked : t := Eval vm_compute in two_after two_woken (SetStatus 2 DynInst.Squashed).

Lemma two_new : new two_storage "dynamic" 0 = Ok two_start.
Proof. vm_compute. reflexivity. Qed.
Lemma two_insert : exec two_start (Insert 1) = Ok two_entered.
Proof. vm_compute. reflexivity. Qed.
Lemma two_insert_both : exec two_entered (Insert 2) = Ok two_both.
Proof. vm_compute. reflexivity. Qed.
Lemma two_issue : exec two_both Schedule = Ok two_issued.
Proof. vm_compute. reflexivity. Qed.
Lemma two_wake : exec two_issued (Wake 1) = Ok two_woken.
Proof. vm_compute. reflexivity. Qed.
Lemma two_mark : exec two_woken (SetStatus 2 DynInst.Squashed) = Ok two_marked.
Proof. vm_compute. reflexivity. Qed.
(** Once the first has completed the second is ready; after the squash it is gone, and
    marked so that it can be committed. *)
Lemma two_ready : all_ready (iq two_woken) = [2] /\ sb two_woken 2 = true.
Proof. vm_compute. done. Qed.
Definition two_check : bool := match run two_start two_ops with
  | Ok s => bool_decide (instList s = [[1]] /\ flag (iq s) 2 DynInst.SquashedInIQ = true /\ flag (iq s) 2 DynInst.Squashed = true /\ flag (iq s) 2 DynInst.CanCommit = true) | Er _ => false end.
Lemma two_check_true : two_check = true.
Proof. vm_compute. reflexivity. Qed.

Lemma two_fresh : fresh_queue two_storage.
Proof.
  constructor; try done. constructor; try done.
  - apply (pool_new_wf (replicate 14 0) [mkFU [mkOp IntAlu 1 1] 1; mkFU [mkOp MemRead 2 1] 1]); [|reflexivity].
    repeat (apply Forall_cons; split; [split; [done|by apply (bool_decide_unpack (NoDup _)); vm_compute]|]). by apply Forall_nil.
  - intros c. destruct c; split; eexists; reflexivity.
  - intros x st Hx. assert (Ht : map_Forall (fun _ st => st_tid st = 0) (stat <$> two_insts)) by (apply (bool_decide_unpack _); by vm_compute). rewrite (Ht x st Hx). by vm_compute.
Qed.

Lemma two_first : enabled two_start (Insert 1).
Proof.
  exists (mkStat 1 0 IntAlu false false), (mkReg [] [] 0 [2] false false false false false), []. split; constructor; try done.
  - by intros y ?%not_elem_of_nil.
  - intros k ->%list_elem_of_singleton _. split_and!; [done|set_solver|]. intros y ry (l & Hl & Hy). change (l ∈ [[]]) in Hl. apply list_elem_of_singleton in Hl as ->. by apply not_elem_of_nil in Hy.
  - split; [done|]. change (1 ∉ @nil Z). apply not_elem_of_nil.
  - by intros p ?%not_elem_of_nil.
Qed.

Lemma two_second : enabled two_entered (Insert 2).
Proof.
  exists (mkStat 2 0 IntAlu false false), (mkReg [2] [false] 0 [3] false false false false false), [1]. split; constructor; try done.
  - by intros y ->%list_elem_of_singleton.
  - intros k ->%list_elem_of_singleton _. split_and!; [done|set_solver|]. intros y ry (l & Hl & Hy) Hr _ _. change (l ∈ [[1]]) in Hl. apply list_elem_of_singleton in Hl as ->. apply list_elem_of_singleton in Hy as ->.
    change (Some (mkReg [] [] 0 [2] false false false false false) = Some ry) in Hr. injection Hr as <-. apply not_elem_of_nil.
  - split; [done|]. change (2 ∉ [1]). set_solver.
  - intros p ->%list_elem_of_singleton. simpl. split; [done|]. left. done.
Qed.

Lemma two_squash : enabled two_marked (Squash 1 0).
Proof.
  split; [done|]. exists [1; 2]. split; [done|]. intros x Hx _ st r _ Hr Hs. exfalso. apply elem_of_cons in Hx as [->|Hx]; [|apply list_elem_of_singleton in Hx as ->]; vm_compute in Hr; injection Hr as <-; done.
Qed.

Lemma two_enabled : enabled_run two_start two_ops.
Proof.
  apply (enabled_cons two_start (Insert 1) two_entered); [exact two_first|exact two_insert|]. apply (enabled_cons two_entered (Insert 2) two_both); [exact two_second|exact two_insert_both|].
  apply (enabled_cons two_both Schedule two_issued); [done|exact two_issue|]. apply (enabled_cons two_issued (Wake 1) two_woken); [|exact two_wake|].
  { split; [by eexists|]. split; [done|]. eexists. split; [done|]. by intros k ->%list_elem_of_singleton. }
  apply (enabled_cons two_woken (SetStatus 2 DynInst.Squashed) two_marked); [by split; [eexists|]|exact two_mark|]. split; [exact two_squash|done].
Qed.

Lemma register_wakeups_witness : exists s, run two_start two_ops = Ok s /\ instList s = [[1]] /\ flag (iq s) 2 DynInst.Squashed = true.
Proof.
  destruct (register_wakeups two_storage "dynamic" 0 two_start two_ops two_fresh two_new two_enabled) as (s & E & _).
  exists s. split; [exact E|]. pose proof two_check_true as Hc. unfold two_check in Hc. rewrite E in Hc. apply bool_decide_eq_true in Hc. split; apply Hc.
Defined.
