(* ===== verification/LsqUnit.v ===== *)
(** * The load/store queue of a thread

    [src/cpu/o3/lsq_unit.hh] and [lsq_unit_impl.hh] (Module [LSQUnit]) and the
    data accesses of [src/cpu/base_dyn_inst.hh] and [src/cpu/translation.hh] that
    call it.

    A [DynInstPtr] is a key into the instructions.  What the unit asks of the rest
    of the system comes from an [Env]: the answer of the data cache to a packet
    ([sendTiming]), of the TLB to a request and of the ISA to a store
    conditional, each a function of the history so far.  What the unit tells the
    rest of the system (the IEW stage, the CPU and the cache) is the history
    [trace], the last event last.  The storage of requests and packets that the
    code deletes by hand is not modelled; that of sender states is, since packets
    share them. *)
From S2P Require Import Prelude IntMath Request Packet Rob.

Module LSQUnit.

(** A [Fault] of the architecture. *)
Inductive Fault := NoFault | MachineCheckFault | OtherFault (n : Z).
#[export] Instance Fault_eq_dec : EqDecision Fault.
Proof. solve_decision. Defined.
Definition is_fault (f : Fault) : bool := match f with NoFault => false | _ => true end.

(** ** Instructions *)

(** What the unit reads and writes of a dynamic instruction; [memData] are the
    bytes written to the buffer of 64 bytes so far, [None] the null pointer. *)
Record Inst := mkInst {
  dyn : DynInst.t;
  isMemRef : bool;
  isLoad : bool;
  isStore : bool;
  isStoreConditional : bool;
  isDataPrefetch : bool;
  fault : Fault;
  reqMade : bool;
  isUncacheable : bool;
  effAddr : Z;
  effAddrValid : bool;
  physEffAddr : Z;
  memReqFlags : Z;
  lqIdx : Z;
  sqIdx : Z;
  memData : option (list Z)
}.

Definition set_dyn (f : DynInst.t -> DynInst.t) (i : Inst) : Inst :=
  mkInst (f (dyn i)) (isMemRef i) (isLoad i) (isStore i) (isStoreConditional i) (isDataPrefetch i) (fault i) (reqMade i) (isUncacheable i)
         (effAddr i) (effAddrValid i) (physEffAddr i) (memReqFlags i) (lqIdx i) (sqIdx i) (memData i).
Definition set_idx (l st : Z) (i : Inst) : Inst :=
  mkInst (dyn i) (isMemRef i) (isLoad i) (isStore i) (isStoreConditional i) (isDataPrefetch i) (fault i) (reqMade i) (isUncacheable i)
         (effAddr i) (effAddrValid i) (physEffAddr i) (memReqFlags i) l st (memData i).
Definition set_memData (d : option (list Z)) (i : Inst) : Inst :=
  mkInst (dyn i) (isMemRef i) (isLoad i) (isStore i) (isStoreConditional i) (isDataPrefetch i) (fault i) (reqMade i) (isUncacheable i)
         (effAddr i) (effAddrValid i) (physEffAddr i) (memReqFlags i) (lqIdx i) (sqIdx i) d.
Definition set_reqMade (i : Inst) : Inst :=
  mkInst (dyn i) (isMemRef i) (isLoad i) (isStore i) (isStoreConditional i) (isDataPrefetch i) (fault i) true (isUncacheable i)
         (effAddr i) (effAddrValid i) (physEffAddr i) (memReqFlags i) (lqIdx i) (sqIdx i) (memData i).
Definition set_fault (f : Fault) (i : Inst) : Inst :=
  mkInst (dyn i) (isMemRef i) (isLoad i) (isStore i) (isStoreConditional i) (isDataPrefetch i) f (reqMade i) (isUncacheable i)
         (effAddr i) (effAddrValid i) (physEffAddr i) (memReqFlags i) (lqIdx i) (sqIdx i) (memData i).
Definition set_uncacheable (i : Inst) : Inst :=
  mkInst (dyn i) (isMemRef i) (isLoad i) (isStore i) (isStoreConditional i) (isDataPrefetch i) (fault i) (reqMade i) true
         (effAddr i) (effAddrValid i) (physEffAddr i) (memReqFlags i) (lqIdx i) (sqIdx i) (memData i).
Definition set_phys (pa fl : Z) (i : Inst) : Inst :=
  mkInst (dyn i) (isMemRef i) (isLoad i) (isStore i) (isStoreConditional i) (isDataPrefetch i) (fault i) (reqMade i) (isUncacheable i)
         (effAddr i) (effAddrValid i) pa fl (lqIdx i) (sqIdx i) (memData i).
Definition set_effAddr (a : Z) (i : Inst) : Inst :=
  mkInst (dyn i) (isMemRef i) (isLoad i) (isStore i) (isStoreConditional i) (isDataPrefetch i) (fault i) (reqMade i) (isUncacheable i)
         a true (physEffAddr i) (memReqFlags i) (lqIdx i) (sqIdx i) (memData i).

Definition seqNum (i : Inst) : Z := DynInst.seqNum (dyn i).
Definition has (i : Inst) (st : DynInst.Status) : bool := DynInst.has (dyn i) st.

(** ** Packets and the history *)

(** [pdata] is the place of the data: the [memData] of an instruction and an
    offset into it. *)
Record Pkt := mkPkt {
  cmd : MemCmd.Command;
  preq : Request.t;
  pdata : Z * Z;
  senderState : option Z
}.

Record LSQSenderState := mkState {
  ss_inst : Z;
  ss_isLoad : bool;
  ss_idx : Z;
  noWB : bool;
  ss_isSplit : bool;
  pktToSend : bool;
  outstanding : Z;
  mainPkt : option Pkt;
  pendingPacket : option Pkt
}.

(** [new LSQSenderState], its [isLoad], [idx] and [inst] assigned. *)
Definition new_state (id : Z) (load : bool) (idx : Z) : LSQSenderState :=
  mkState id load idx false false false 1 None None.
Definition set_split (main : option Pkt) (x : LSQSenderState) : LSQSenderState :=
  mkState (ss_inst x) (ss_isLoad x) (ss_idx x) (noWB x) true (pktToSend x) 2 main (pendingPacket x).
Definition set_noWB (x : LSQSenderState) : LSQSenderState :=
  mkState (ss_inst x) (ss_isLoad x) (ss_idx x) true (ss_isSplit x) (pktToSend x) (outstanding x) (mainPkt x) (pendingPacket x).
Definition set_pending (p : option Pkt) (x : LSQSenderState) : LSQSenderState :=
  mkState (ss_inst x) (ss_isLoad x) (ss_idx x) (noWB x) (ss_isSplit x) true (outstanding x) (mainPkt x) p.
(** [complete()]: what it returns and the state it leaves. *)
Definition complete (x : LSQSenderState) : bool * LSQSenderState :=
  (outstanding x - 1 =? 0,
   mkState (ss_inst x) (ss_isLoad x) (ss_idx x) (noWB x) (ss_isSplit x) (pktToSend x) (outstanding x - 1) (mainPkt x) (pendingPacket x)).

(** The calls of the IEW stage and of the CPU, the events scheduled, the packets
    offered to the cache with its answer, and the accesses completed. *)
Inductive Ev :=
| ERescheduleMemInst (id : Z) | EReplayMemInst (id : Z) | EDecrWb (sn : Z) | EInstToCommit (id : Z) | EActivityThisCycle | EWakeCPU
| EUpdateLSQNextCycle | EWriteback (id : Z) (pkt : Pkt) (delay : Z) | ESendTiming (pkt : Pkt) (ok : bool)
| ELockedRead (id : Z) (req : Request.t) | ELockedWrite (id : Z) (req : Request.t) (ok : bool) | ECompleteAcc (id : Z) (pkt : Pkt).

(** The rest of the system.  [translate] gives what the TLB makes of a request
    and its fault; [genMachineCheckFault] of the ISAs modelled is
    [MachineCheckFault]. *)
Record Env := mkEnv {
  HasUnalignedMemAcc : bool;
  peerBlockSize : Z;
  sendTiming : list Ev -> Pkt -> bool;
  translate : list Ev -> bool -> Request.t -> Fault * Request.t;
  handleLockedWrite : list Ev -> Z -> Request.t -> bool
}.

(** The objects the units share; [retryTid] is that of the [LSQ]. *)
Record World := mkWorld {
  insts : gmap Z Inst;
  states : gmap Z LSQSenderState;
  nextState : Z;
  retryTid : Z;
  trace : list Ev
}.

(** ** The queues *)
Record SQEntry := mkSQEntry {
  inst : option Z;
  req : option Request.t;
  sreqLow : option Request.t;
  sreqHigh : option Request.t;
  size : Z;
  data : list Z;
  isSplit : bool;
  canWB : bool;
  committed : bool;
  completed : bool
}.

(** [sizeof(IntReg)]. *)
Definition data_size : nat := 8.
(** [SQEntry()]; [split], [lo] and [hi] are what the storage of the fields that
    the constructor leaves out held. *)
Definition empty_entry (split : bool) (lo hi : option Request.t) : SQEntry :=
  mkSQEntry None None lo hi 0 (replicate data_size 0) split false false false.
(** [SQEntry(inst)]. *)
Definition new_entry (id : Z) : SQEntry :=
  mkSQEntry (Some id) None None None 0 (replicate data_size 0) false false false false.

Definition set_canWB (b : bool) (e : SQEntry) : SQEntry :=
  mkSQEntry (inst e) (req e) (sreqLow e) (sreqHigh e) (size e) (data e) (isSplit e) b (committed e) (completed e).
Definition set_committed (e : SQEntry) : SQEntry :=
  mkSQEntry (inst e) (req e) (sreqLow e) (sreqHigh e) (size e) (data e) (isSplit e) (canWB e) true (completed e).
Definition set_completed (e : SQEntry) : SQEntry :=
  mkSQEntry (inst e) (req e) (sreqLow e) (sreqHigh e) (size e) (data e) (isSplit e) (canWB e) (committed e) true.

Record LQ := mkLQ { loadQueue : list (option Z); LQEntries : Z; loads : Z; loadHead : Z; loadTail : Z }.
Record SQ := mkSQ {
  storeQueue : list SQEntry; SQEntries : Z; stores : Z; storesToWB : Z; storeHead : Z; storeWBIdx : Z; storeTail : Z }.
Record Stall := mkStall { stalled : bool; stallingStoreIsn : Z; stallingLoadIdx : Z }.
Record Blocked := mkBlocked {
  retryPkt : option Pkt; isStoreBlocked : bool; isLoadBlocked : bool; loadBlockedHandled : bool; blockedLoadSeqNum : Z }.
Record Ports := mkPorts { cachePorts : Z; usedPorts : Z; hasPendingPkt : bool; pendingPkt : option Pkt }.

(** The members of an [LSQUnit], in groups. *)
Record Unit_ := mkUnit {
  lsqID : Z;
  switchedOut : bool;
  lq : LQ;
  sq : SQ;
  stall : Stall;
  blocked : Blocked;
  ports : Ports;
  memDepViolator : option Z
}.

Record t := mk { unit_ : Unit_; world : World }.

Definition set_lq (s : t) (q : LQ) : t :=
  let u := unit_ s in mk (mkUnit (lsqID u) (switchedOut u) q (sq u) (stall u) (blocked u) (ports u) (memDepViolator u)) (world s).
Definition set_sq (s : t) (q : SQ) : t :=
  let u := unit_ s in mk (mkUnit (lsqID u) (switchedOut u) (lq u) q (stall u) (blocked u) (ports u) (memDepViolator u)) (world s).
Definition set_stall (s : t) (x : Stall) : t :=
  let u := unit_ s in mk (mkUnit (lsqID u) (switchedOut u) (lq u) (sq u) x (blocked u) (ports u) (memDepViolator u)) (world s).
Definition set_blocked (s : t) (x : Blocked) : t :=
  let u := unit_ s in mk (mkUnit (lsqID u) (switchedOut u) (lq u) (sq u) (stall u) x (ports u) (memDepViolator u)) (world s).
Definition set_ports (s : t) (x : Ports) : t :=
  let u := unit_ s in mk (mkUnit (lsqID u) (switchedOut u) (lq u) (sq u) (stall u) (blocked u) x (memDepViolator u)) (world s).
Definition set_violator (s : t) (x : option Z) : t :=
  let u := unit_ s in mk (mkUnit (lsqID u) (switchedOut u) (lq u) (sq u) (stall u) (blocked u) (ports u) x) (world s).
Definition set_world (s : t) (w : World) : t := mk (unit_ s) w.

Definition lqs (s : t) : LQ := lq (unit_ s).
Definition sqs (s : t) : SQ := sq (unit_ s).

(** ** The shared objects *)
Definition w_insts (w : World) (m : gmap Z Inst) : World := mkWorld m (states w) (nextState w) (retryTid w) (trace w).
Definition w_states (w : World) (m : gmap Z LSQSenderState) (n : Z) : World := mkWorld (insts w) m n (retryTid w) (trace w).
Definition set_retryTid (s : t) (tid : Z) : t :=
  let w := world s in set_world s (mkWorld (insts w) (states w) (nextState w) tid (trace w)).
Definition cacheBlocked (s : t) : bool := negb (retryTid (world s) =? -1).
Definition emit (s : t) (e : Ev) : t :=
  let w := world s in set_world s (mkWorld (insts w) (states w) (nextState w) (retryTid w) (trace w ++ [e])).

Definition get (s : t) (id : Z) : res Inst := deref (insts (world s) !! id).
Definition seq (s : t) (id : Z) : res Z := i ← get s id; Ok (seqNum i).
Definition upd (s : t) (id : Z) (f : Inst -> Inst) : res t :=
  i ← get s id; Ok (set_world s (w_insts (world s) (<[id := f i]> (insts (world s))))).
Definition set_status (s : t) (id : Z) (st : DynInst.Status) : res t := upd s id (set_dyn (DynInst.set st)).

Definition get_state (s : t) (p : Z) : res LSQSenderState := deref (states (world s) !! p).
Definition put_state (s : t) (p : Z) (x : LSQSenderState) : t :=
  set_world s (w_states (world s) (<[p := x]> (states (world s))) (nextState (world s))).
Definition alloc_state (s : t) (x : LSQSenderState) : Z * t :=
  let p := nextState (world s) in (p, set_world s (w_states (world s) (<[p := x]> (states (world s))) (p + 1))).
Definition delete_state (s : t) (p : Z) : t :=
  set_world s (w_states (world s) (delete p (states (world s))) (nextState (world s))).

(** [dcachePort->sendTiming(pkt)]. *)
Definition send (env : Env) (s : t) (pkt : Pkt) : bool * t :=
  let ok := sendTiming env (trace (world s)) pkt in (ok, emit s (ESendTiming pkt ok)).

(** Elements of the queues. *)
Definition entry (s : t) (i : Z) : res SQEntry := vget (storeQueue (sqs s)) i.
Definition entry_inst (s : t) (i : Z) : res Z := e ← entry s i; deref (inst e).
Definition put_entry (s : t) (i : Z) (f : SQEntry -> SQEntry) : res t :=
  let q := sqs s in
  e ← entry s i;
  l ← vset (storeQueue q) i (f e);
  Ok (set_sq s (mkSQ l (SQEntries q) (stores q) (storesToWB q) (storeHead q) (storeWBIdx q) (storeTail q))).
Definition load_at (s : t) (i : Z) : res Z := o ← vget (loadQueue (lqs s)) i; deref o.

(** [assert(p)] on a pointer. *)
Definition assert_ptr {A} (o : option A) : res A := match o with Some a => Ok a | None => Er AssertFail end.

(** The bytes [off, off + n) of an array. *)
Definition bytes (l : list Z) (off n : Z) : res (list Z) :=
  if (0 <=? off) && (0 <=? n) && (off + n <=? Z.of_nat (length l)) then Ok (take (Z.to_nat n) (drop (Z.to_nat off) l)) else Er OutOfRange.

(** ** Indices *)

(** [incrStIdx] and [incrLdIdx] with the number of entries [n]; the comparison is
    unsigned. *)
Definition incrIdx (n i : Z) : Z := if n <=? u32 (i + 1) then 0 else i + 1.
(** [decrStIdx] and [decrLdIdx]. *)
Definition decrIdx (n i : Z) : Z := if i - 1 <? 0 then sint 32 (i - 1 + n) else i - 1.

Definition incrStIdx (s : t) (i : Z) : Z := incrIdx (SQEntries (sqs s)) i.
Definition decrStIdx (s : t) (i : Z) : Z := decrIdx (SQEntries (sqs s)) i.
Definition incrLdIdx (s : t) (i : Z) : Z := incrIdx (LQEntries (lqs s)) i.
Definition decrLdIdx (s : t) (i : Z) : Z := decrIdx (LQEntries (lqs s)) i.

Definition set_storesToWB (s : t) (n : Z) : t :=
  let q := sqs s in set_sq s (mkSQ (storeQueue q) (SQEntries q) (stores q) n (storeHead q) (storeWBIdx q) (storeTail q)).
Definition set_storeWBIdx (s : t) (i : Z) : t :=
  let q := sqs s in set_sq s (mkSQ (storeQueue q) (SQEntries q) (stores q) (storesToWB q) (storeHead q) i (storeTail q)).
Definition set_usedPorts (s : t) (n : Z) : t :=
  let p := ports (unit_ s) in set_ports s (mkPorts (cachePorts p) n (hasPendingPkt p) (pendingPkt p)).
Definition umod (a n : Z) : res Z := if n =? 0 then Er DivByZero else Ok (u32 a mod n).

(** ** Construction and queries *)

(** The constructor and [init]: [lo], [hi] and [split] are what the storage of
    the entries held, [isn], [idx] and [pend] what that of the members which
    neither assigns did. *)
Definition init (split : bool) (lo hi : option Request.t) (isn idx : Z) (pend : option Pkt) (w : World)
  (cache_ports maxLQEntries maxSQEntries id : Z) : t :=
  let LQn := u32 (maxLQEntries + 1) in
  let SQn := u32 (maxSQEntries + 1) in
  mk (mkUnit id false (mkLQ (replicate (Z.to_nat LQn) None) LQn 0 0 0)
        (mkSQ (replicate (Z.to_nat SQn) (empty_entry split lo hi)) SQn 0 0 0 0 0)
        (mkStall false isn idx) (mkBlocked None false false false 0) (mkPorts cache_ports 0 false pend) None) w.

Definition clearLQ (s : t) : t := let q := lqs s in set_lq s (mkLQ [] (LQEntries q) (loads q) (loadHead q) (loadTail q)).
Definition clearSQ (s : t) : t :=
  let q := sqs s in set_sq s (mkSQ [] (SQEntries q) (stores q) (storesToWB q) (storeHead q) (storeWBIdx q) (storeTail q)).

Definition switchOut (s : t) : res t :=
  let u := unit_ s in
  let q := lq u in
  _ ← c_assert (forallb (fun o => bool_decide (o = None)) (loadQueue q));
  _ ← c_assert (storesToWB (sq u) =? 0);
  Ok (mk (mkUnit (lsqID u) true (mkLQ (map (fun _ => None) (loadQueue q)) (LQEntries q) (loads q) (loadHead q) (loadTail q))
            (sq u) (stall u) (blocked u) (ports u) (memDepViolator u)) (world s)).

Definition takeOverFrom (s : t) : t :=
  let u := unit_ s in
  let b := blocked u in
  let p := ports u in
  mk (mkUnit (lsqID u) false (mkLQ (loadQueue (lq u)) (LQEntries (lq u)) 0 0 0) (mkSQ (storeQueue (sq u)) (SQEntries (sq u)) 0 0 0 0 0)
        (mkStall false (stallingStoreIsn (stall u)) (stallingLoadIdx (stall u)))
        (mkBlocked (retryPkt b) (isStoreBlocked b) false false 0) (mkPorts (cachePorts p) 0 (hasPendingPkt p) (pendingPkt p)) None) (world s).

(** The loops push entries, and count them, until the vector has the size asked for. *)
Definition resizeLQ (s : t) (sz : Z) : res t :=
  let q := lqs s in
  let size_plus_sentinel := u32 (sz + 1) in
  _ ← c_assert (LQEntries q <=? size_plus_sentinel);
  if LQEntries q <? size_plus_sentinel then
    let more := Z.to_nat (size_plus_sentinel - Z.of_nat (length (loadQueue q))) in
    Ok (set_lq s (mkLQ (loadQueue q ++ replicate more None) (LQEntries q + Z.of_nat more) (loads q) (loadHead q) (loadTail q)))
  else Ok (set_lq s (mkLQ (loadQueue q) size_plus_sentinel (loads q) (loadHead q) (loadTail q))).
Definition resizeSQ (split : bool) (lo hi : option Request.t) (s : t) (sz : Z) : t :=
  let q := sqs s in
  let size_plus_sentinel := u32 (sz + 1) in
  if SQEntries q <? size_plus_sentinel then
    let more := Z.to_nat (size_plus_sentinel - Z.of_nat (length (storeQueue q))) in
    set_sq s (mkSQ (storeQueue q ++ replicate more (empty_entry split lo hi)) (SQEntries q + Z.of_nat more) (stores q) (storesToWB q)
                (storeHead q) (storeWBIdx q) (storeTail q))
  else set_sq s (mkSQ (storeQueue q) size_plus_sentinel (stores q) (storesToWB q) (storeHead q) (storeWBIdx q) (storeTail q)).

Definition tick (s : t) : t := set_usedPorts s 0.
Definition violation (s : t) : bool := bool_decide (is_Some (memDepViolator (unit_ s))).
Definition getMemDepViolator (s : t) : option Z * t := (memDepViolator (unit_ s), set_violator s None).
Definition loadBlocked (s : t) : bool := isLoadBlocked (blocked (unit_ s)).
Definition clearLoadBlocked (s : t) : t :=
  let b := blocked (unit_ s) in
  set_blocked s (mkBlocked (retryPkt b) (isStoreBlocked b) false (loadBlockedHandled b) (blockedLoadSeqNum b)).
Definition isLoadBlockedHandled (s : t) : bool := loadBlockedHandled (blocked (unit_ s)).
Definition setLoadBlockedHandled (s : t) : t :=
  let b := blocked (unit_ s) in
  set_blocked s (mkBlocked (retryPkt b) (isStoreBlocked b) (isLoadBlocked b) true (blockedLoadSeqNum b)).
Definition numLoads (s : t) : Z := loads (lqs s).
Definition numStores (s : t) : Z := stores (sqs s).
Definition lqFull (s : t) : bool := u32 (LQEntries (lqs s) - 1) <=? u32 (loads (lqs s)).
Definition sqFull (s : t) : bool := u32 (SQEntries (sqs s) - 1) <=? u32 (stores (sqs s)).
Definition isFull (s : t) : bool := lqFull s || sqFull s.
Definition getCount (s : t) : Z := u32 (loads (lqs s) + stores (sqs s)).
Definition hasStoresToWB (s : t) : bool := negb (storesToWB (sqs s) =? 0).
Definition numStoresToWB (s : t) : Z := storesToWB (sqs s).
Definition willWB (s : t) : res bool :=
  e ← entry s (storeWBIdx (sqs s)); Ok (canWB e && negb (completed e) && negb (isStoreBlocked (blocked (unit_ s)))).
Definition isStalled (s : t) : bool := stalled (stall (unit_ s)).
Definition getLoadHead (s : t) : Z := loadHead (lqs s).
Definition getLoadHeadSeqNum (s : t) : res Z :=
  o ← vget (loadQueue (lqs s)) (loadHead (lqs s)); match o with Some id => seq s id | None => Ok 0 end.
Definition getStoreHead (s : t) : Z := storeHead (sqs s).
Definition getStoreHeadSeqNum (s : t) : res Z :=
  e ← entry s (storeHead (sqs s)); match inst e with Some id => seq s id | None => Ok 0 end.

Definition numFreeEntries (s : t) : Z :=
  let free_lq_entries := u32 (LQEntries (lqs s) - loads (lqs s)) in
  let free_sq_entries := u32 (SQEntries (sqs s) - stores (sqs s)) in
  if free_lq_entries <? free_sq_entries then u32 (free_lq_entries - 1) else u32 (free_sq_entries - 1).

(** The loop of [numLoadsReady], for at most [fuel] rounds. *)
Fixpoint ready_loop (fuel : nat) (s : t) (load_idx retval : Z) : res Z :=
  match fuel with
  | O => Er OutOfFuel
  | S fuel' =>
      if load_idx =? loadTail (lqs s) then Ok retval
      else
        o ← vget (loadQueue (lqs s)) load_idx;
        id ← assert_ptr o;
        i ← get s id;
        ready_loop fuel' s load_idx (if has i DynInst.CanIssue then retval + 1 else retval)
  end.
Definition numLoadsReady (fuel : nat) (s : t) : res Z := ready_loop fuel s (loadHead (lqs s)) 0.

(** ** Insertion *)

(** The indices an instruction keeps are of type [int16_t]. *)
Definition insertLoad (s : t) (id : Z) : res t :=
  let q := lqs s in
  m ← umod (loadTail q + 1) (LQEntries q);
  _ ← c_assert (negb (m =? u32 (loadHead q)));
  _ ← c_assert (u32 (loads q) <? LQEntries q);
  s ← upd s id (set_idx (sint 16 (loadTail q)) (sint 16 (if stores (sqs s) =? 0 then -1 else storeTail (sqs s))));
  l ← vset (loadQueue q) (loadTail q) (Some id);
  Ok (set_lq s (mkLQ l (LQEntries q) (loads q + 1) (loadHead q) (incrLdIdx s (loadTail q)))).

Definition insertStore (s : t) (id : Z) : res t :=
  let q := sqs s in
  m ← umod (storeTail q + 1) (SQEntries q);
  _ ← c_assert (negb (m =? u32 (storeHead q)));
  _ ← c_assert (u32 (stores q) <? SQEntries q);
  s ← upd s id (set_idx (sint 16 (loadTail (lqs s))) (sint 16 (storeTail q)));
  l ← vset (storeQueue q) (storeTail q) (new_entry id);
  Ok (set_sq s (mkSQ l (SQEntries q) (stores q + 1) (storesToWB q) (storeHead q) (storeWBIdx q) (incrStIdx s (storeTail q)))).

Definition insert (s : t) (id : Z) : res t :=
  i ← get s id;
  _ ← c_assert (isMemRef i);
  _ ← c_assert (isLoad i || isStore i);
  s ← (if isLoad i then insertLoad s id else insertStore s id);
  set_status s id DynInst.LsqEntry.

(** ** Reading *)

(** How a load gets its data: from a store, not yet, or from memory. *)
Inductive Forward := FromStore (store_idx : Z) | Mismatch (store_idx : Z) | FromMemory.

(** The loop over the older stores; [vaddr] and [sz] are those of the request. *)
Fixpoint forward_loop (fuel : nat) (s : t) (vaddr sz store_idx : Z) : res Forward :=
  match fuel with
  | O => Er OutOfFuel
  | S fuel' =>
      if store_idx =? -1 then Ok FromMemory
      else if store_idx =? storeWBIdx (sqs s) then Ok FromMemory
      else
        let store_idx := decrStIdx s store_idx in
        e ← entry s store_idx;
        id ← assert_ptr (inst e);
        let store_size := size e in
        if store_size =? 0 then forward_loop fuel' s vaddr sz store_idx
        else
          i ← get s id;
          if isUncacheable i then forward_loop fuel' s vaddr sz store_idx
          else
            _ ← c_assert (effAddrValid i);
            let store_has_lower_limit := effAddr i <=? vaddr in
            let store_has_upper_limit := u64 (vaddr + sz) <=? u64 (effAddr i + store_size) in
            let lower_load_has_store_part := vaddr <? u64 (effAddr i + store_size) in
            let upper_load_has_store_part := effAddr i <? u64 (vaddr + sz) in
            if store_has_lower_limit && store_has_upper_limit then Ok (FromStore store_idx)
            else if (store_has_lower_limit && lower_load_has_store_part) || (store_has_upper_limit && upper_load_has_store_part)
                    || (lower_load_has_store_part && upper_load_has_store_part)
            then if completed e then Er Panic else Ok (Mismatch store_idx)
            else forward_loop fuel' s vaddr sz store_idx
  end.

(** The store has all the data: the load takes it, and completes in an event. *)
Definition forward_data (s : t) (id : Z) (rq : Request.t) (vaddr sz store_idx : Z) : res (Fault * t) :=
  e ← entry s store_idx;
  let shift_amt := sint 32 (Z.land vaddr (u64 (size e - 1))) in
  i ← get s id;
  _ ← c_assert (bool_decide (memData i = None));
  d ← bytes (data e) shift_amt sz;
  s ← upd s id (set_memData (Some d));
  Ok (NoFault, emit s (EWriteback id (mkPkt MemCmd.ReadReq rq (id, 0) None) 0)).

(** The store has part of the data: the load waits for it. *)
Definition stall_load (s : t) (id load_idx store_idx : Z) : res (Fault * t) :=
  let x := stall (unit_ s) in
  n ← seq s id;
  older ← (if stalled x then j ← load_at s (stallingLoadIdx x); k ← seq s j; Ok (n <? k) else Ok true);
  isn ← (j ← entry_inst s store_idx; seq s j);
  let s := if (older : bool) then set_stall s (mkStall true isn load_idx) else s in
  let s := emit (emit s (ERescheduleMemInst id)) (EDecrWb n) in
  s ← upd s id (set_dyn (DynInst.reset DynInst.Issued));
  Ok (NoFault, s).

(** The packets of a load are sent. *)
Definition send_load (env : Env) (s : t) (id : Z) (rq : Request.t) (lo hi : option Request.t) (load_idx : Z) : res t :=
  let command := if Request.isLLSC rq then MemCmd.LoadLockedReq else MemCmd.ReadReq in
  let '(p, s) := alloc_state s (new_state id true load_idx) in
  let data_pkt := mkPkt command rq (id, 0) (Some p) in
  match HasUnalignedMemAcc env, lo with
  | true, Some lo =>
      hi ← deref hi;
      let fst_data_pkt := mkPkt command lo (id, 0) (Some p) in
      off ← Request.getSize lo;
      let snd_data_pkt := mkPkt command hi (id, off) (Some p) in
      x ← get_state s p;
      let s := put_state s p (set_split (Some data_pkt) x) in
      let '(ok, s) := send env s fst_data_pkt in
      if ok then
        let s := set_usedPorts s (usedPorts (ports (unit_ s)) + 1) in
        let '(ok, s) := send env s snd_data_pkt in
        if ok then Ok s
        else
          x ← get_state s p;
          Ok (set_retryTid (put_state s p (complete x).2) (lsqID (unit_ s)))
      else Ok (set_retryTid (delete_state s p) (lsqID (unit_ s)))
  | _, _ =>
      let '(ok, s) := send env s data_pkt in
      if ok then Ok s else Ok (set_retryTid (delete_state s p) (lsqID (unit_ s)))
  end.

(** No store has the data: the load goes to memory. *)
Definition read_memory (env : Env) (s : t) (id : Z) (rq : Request.t) (lo hi : option Request.t) (load_idx : Z) : res (Fault * t) :=
  i ← get s id;
  _ ← c_assert (bool_decide (memData i = None));
  s ← upd s id (set_memData (Some []));
  let s := set_usedPorts s (usedPorts (ports (unit_ s)) + 1) in
  s ← (if cacheBlocked s then Ok s else send_load env s id rq lo hi load_idx);
  if cacheBlocked s then
    let s := emit s (EDecrWb (seqNum i)) in
    let b := blocked (unit_ s) in
    if isLoadBlocked b && (blockedLoadSeqNum b <? seqNum i) then Ok (NoFault, s)
    else Ok (NoFault, set_blocked s (mkBlocked (retryPkt b) (isStoreBlocked b) true false (seqNum i)))
  else Ok (NoFault, s).

Definition read (env : Env) (s : t) (rq : Request.t) (lo hi : option Request.t) (load_idx : Z) : res (Fault * t) :=
  id ← (o ← vget (loadQueue (lqs s)) load_idx; assert_ptr o);
  i ← get s id;
  _ ← c_assert (negb (has i DynInst.Executed));
  if Request.isUncacheable rq && (negb (load_idx =? loadHead (lqs s)) || negb (has i DynInst.AtCommit))
  then Ok (MachineCheckFault, emit s (ERescheduleMemInst id))
  else
    s ← (if Request.isLLSC rq then _ ← c_assert (bool_decide (lo = None)); Ok (emit s (ELockedRead id rq)) else Ok s);
    vaddr ← Request.getVaddr rq;
    sz ← Request.getSize rq;
    f ← forward_loop (S (length (storeQueue (sqs s)))) s vaddr sz (sqIdx i);
    match f with
    | FromStore store_idx => forward_data s id rq vaddr sz store_idx
    | Mismatch store_idx => stall_load s id load_idx store_idx
    | FromMemory => read_memory env s id rq lo hi load_idx
    end.

(** [write]; [d] are the bytes of the data in the guest's order, [sizeof(T)] of them. *)
Definition write (s : t) (rq : Request.t) (lo hi : option Request.t) (d : list Z) (store_idx : Z) : res (Fault * t) :=
  e ← entry s store_idx;
  _ ← assert_ptr (inst e);
  _ ← c_assert (Z.of_nat (length d) <=? Z.of_nat data_size);
  s ← put_entry s store_idx (fun e =>
        mkSQEntry (inst e) (Some rq) lo hi (Z.of_nat (length d)) (d ++ drop (length d) (data e)) (isSplit e) (canWB e) (committed e) (completed e));
  Ok (NoFault, s).

(** ** The accesses of an instruction *)

(** What [initiateAcc] of an instruction asks for: nothing, with a fault of its
    own, or the access to [a_size] bytes at [a_addr]; [a_data] are the bytes of a
    store, [a_res] what its last argument points to. *)
Inductive Access :=
| NoAccess (f : Fault)
| MemAccess (a_addr a_size a_flags a_asid a_pc a_context : Z) (a_data : list Z) (a_res : option Z).

(** [splitRequest]. *)
Definition splitRequest (env : Env) (rq : Request.t) : res (option (Request.t * Request.t)) :=
  let block_size := peerBlockSize env in
  addr ← Request.getVaddr rq;
  sz ← Request.getSize rq;
  let split_addr := IntMath.roundDown 64 (u64 (addr + sz - 1)) block_size in
  _ ← c_assert ((split_addr <=? addr) || (u64 (split_addr - addr) <? block_size));
  if addr <? split_addr then p ← Request.splitOnVaddr rq split_addr; Ok (Some p) else Ok None.

(** [initiateTranslation], to the end of [WholeTranslationState::finish]: the TLB
    answers at once; the fault of the whole and the requests it leaves. *)
Definition initiateTranslation (env : Env) (h : list Ev) (wr : bool) (rq : Request.t) (lohi : option (Request.t * Request.t)) :
  res (Fault * Request.t * option (Request.t * Request.t)) :=
  match HasUnalignedMemAcc env, lohi with
  | true, Some (lo, hi) =>
      let '(f0, lo) := translate env h wr lo in
      let '(f1, hi) := translate env h wr hi in
      rq ← (if is_fault f0 then Ok rq else pa ← Request.getPaddr lo; Request.setPaddr rq pa);
      rq ← (fl ← Request.getFlags lo; Request.setFlags rq fl);
      rq ← (fl ← Request.getFlags hi; Request.setFlags rq fl);
      Ok (if is_fault f0 then f0 else f1, rq, Some (lo, hi))
  | _, _ => let '(f, rq) := translate env h wr rq in Ok (f, rq, None)
  end.

(** [finishTranslation]; the main request it leaves. *)
Definition finishTranslation (s : t) (id : Z) (f : Fault) (rq : Request.t) (rs : option Z) : res (Request.t * t) :=
  s ← upd s id (set_fault f);
  s ← (if Request.isUncacheable rq then upd s id set_uncacheable else Ok s);
  if is_fault f then Ok (rq, s)
  else
    pa ← Request.getPaddr rq;
    fl ← Request.getFlags rq;
    s ← upd s id (set_phys pa fl);
    if Request.isCondSwap rq then v ← assert_ptr rs; Ok (Request.setExtraData rq v, s) else Ok (rq, s).

(** What [read] and [write] of a dynamic instruction do before they call the queue:
    the request, made, split and translated; [None] for a fault. *)
Definition make_request (env : Env) (s : t) (id : Z) (wr : bool) (addr sz flags asid pc ctx : Z) (rs : option Z) :
  res (option (Request.t * option (Request.t * Request.t)) * t) :=
  s ← upd s id set_reqMade;
  i ← get s id;
  rq ← Request.new_virt 0 (Request.mk 0 0 0 0 0 0 0 0 0 0 0) asid addr sz flags pc ctx (DynInst.threadNumber (dyn i));
  lohi ← (if HasUnalignedMemAcc env then splitRequest env rq else Ok None);
  r ← initiateTranslation env (trace (world s)) wr rq lohi;
  let '(f, rq, lohi) := r in
  r ← finishTranslation s id f rq rs;
  let '(rq, s) := r in
  if is_fault f then Ok (None, s)
  else
    va ← Request.getVaddr rq;
    s ← upd s id (set_effAddr va);
    Ok (Some (rq, lohi), s).

(** [initiateAcc] of a load and of a store: the fault is what the instruction keeps. *)
Definition initiateAcc (env : Env) (s : t) (id : Z) (wr : bool) (a : Access) : res (Fault * t) :=
  match a with
  | NoAccess f => Ok (f, s)
  | MemAccess addr sz flags asid pc ctx d rs =>
      r ← make_request env s id wr addr sz flags asid pc ctx (if wr then rs else None);
      let '(rq, s) := r in
      i ← get s id;
      match rq with
      | Some (rq, lohi) =>
          r ← (if wr then write s rq (fst <$> lohi) (snd <$> lohi) d (sqIdx i) else read env s rq (fst <$> lohi) (snd <$> lohi) (lqIdx i));
          s ← upd r.2 id (set_fault r.1);
          Ok (r.1, s)
      | None => s ← (if wr then Ok s else set_status s id DynInst.Executed); Ok (fault i, s)
      end
  end.

(** ** Execution *)

(** The loop that looks for a load that went ahead, from [load_idx] on: the first
    with a valid address in the same 256 bytes.  [Some _] is a return in the loop,
    [None] its end or its [break]. *)
Fixpoint violation_loop (fuel : nat) (s : t) (addr load_idx : Z) : res (option Fault * t) :=
  match fuel with
  | O => Er OutOfFuel
  | S fuel' =>
      if load_idx =? loadTail (lqs s) then Ok (None, s)
      else
        id ← load_at s load_idx;
        i ← get s id;
        if effAddrValid i && (Z.shiftr (effAddr i) 8 =? Z.shiftr addr 8) then
          older ← match memDepViolator (unit_ s) with None => Ok true | Some v => n ← seq s v; Ok (seqNum i <? n) end;
          if (older : bool) then Ok (Some MachineCheckFault, set_violator s (Some id)) else Ok (None, s)
        else violation_loop fuel' s addr (incrLdIdx s load_idx)
  end.

Definition executeLoad (env : Env) (s : t) (id : Z) (a : Access) : res (Fault * t) :=
  i ← get s id;
  _ ← c_assert (negb (has i DynInst.Squashed));
  r ← initiateAcc env s id false a;
  let '(load_fault, s) := r in
  i ← get s id;
  if is_fault load_fault then
    s ← (if negb (reqMade i && isUncacheable i) || has i DynInst.AtCommit then set_status s id DynInst.Executed else Ok s);
    Ok (load_fault, emit (emit s (EInstToCommit id)) EActivityThisCycle)
  else if loadBlocked s then Ok (load_fault, s)
  else
    _ ← c_assert (effAddrValid i);
    r ← violation_loop (S (length (loadQueue (lqs s)))) s (effAddr i) (incrLdIdx s (lqIdx i));
    Ok (default load_fault r.1, r.2).

Definition executeStore (env : Env) (s : t) (id : Z) (a : Access) : res (Fault * t) :=
  _ ← c_assert (negb (stores (sqs s) =? 0));
  i ← get s id;
  let store_idx := sqIdx i in
  _ ← c_assert (negb (has i DynInst.Squashed));
  let load_idx := lqIdx i in
  r ← initiateAcc env s id true a;
  let '(store_fault, s) := r in
  e ← entry s store_idx;
  if size e =? 0 then Ok (store_fault, s)
  else
    _ ← c_assert (negb (is_fault store_fault));
    s ← (if isStoreConditional i then s ← put_entry s store_idx (set_canWB true); Ok (set_storesToWB s (storesToWB (sqs s) + 1)) else Ok s);
    i ← get s id;
    _ ← c_assert (effAddrValid i);
    r ← violation_loop (S (length (loadQueue (lqs s)))) s (effAddr i) load_idx;
    Ok (default store_fault r.1, r.2).

(** ** Commit *)
Definition commitLoad (s : t) : res t :=
  let q := lqs s in
  o ← vget (loadQueue q) (loadHead q);
  _ ← assert_ptr o;
  l ← vset (loadQueue q) (loadHead q) None;
  Ok (set_lq s (mkLQ l (LQEntries q) (loads q - 1) (incrLdIdx s (loadHead q)) (loadTail q))).

Fixpoint commitLoads_loop (fuel : nat) (s : t) (youngest_inst : Z) : res t :=
  match fuel with
  | O => Er OutOfFuel
  | S fuel' =>
      if loads (lqs s) =? 0 then Ok s
      else
        id ← load_at s (loadHead (lqs s));
        n ← seq s id;
        if n <=? youngest_inst then s ← commitLoad s; commitLoads_loop fuel' s youngest_inst else Ok s
  end.
Definition commitLoads (s : t) (youngest_inst : Z) : res t :=
  let q := lqs s in
  _ ← (if loads q =? 0 then Ok () else o ← vget (loadQueue q) (loadHead q); _ ← assert_ptr o; Ok ());
  commitLoads_loop (S (length (loadQueue q))) s youngest_inst.

Fixpoint commitStores_loop (fuel : nat) (s : t) (youngest_inst store_idx : Z) : res t :=
  match fuel with
  | O => Er OutOfFuel
  | S fuel' =>
      if store_idx =? storeTail (sqs s) then Ok s
      else
        e ← entry s store_idx;
        id ← assert_ptr (inst e);
        if canWB e then commitStores_loop fuel' s youngest_inst (incrStIdx s store_idx)
        else
          n ← seq s id;
          if youngest_inst <? n then Ok s
          else
            s ← put_entry s store_idx (set_canWB true);
            let s := set_storesToWB s (storesToWB (sqs s) + 1) in
            commitStores_loop fuel' s youngest_inst (incrStIdx s store_idx)
  end.
Definition commitStores (s : t) (youngest_inst : Z) : res t :=
  let q := sqs s in
  _ ← (if stores q =? 0 then Ok () else e ← entry s (storeHead q); _ ← assert_ptr (inst e); Ok ());
  commitStores_loop (S (length (storeQueue q))) s youngest_inst (storeHead q).

(** ** Completion *)

(** The stalling store at [store_idx] is done: the stalled load is replayed. *)
Definition unstall (s : t) (store_idx : Z) : res t :=
  let x := stall (unit_ s) in
  if stalled x then
    n ← (j ← entry_inst s store_idx; seq s j);
    if n =? stallingStoreIsn x then
      let s := set_stall s (mkStall false 0 (stallingLoadIdx x)) in
      id ← load_at s (stallingLoadIdx x);
      Ok (emit s (EReplayMemInst id))
    else Ok s
  else Ok s.

(** [do incrStIdx(storeHead); --stores; while (...)]. *)
Fixpoint head_loop (fuel : nat) (s : t) : res t :=
  match fuel with
  | O => Er OutOfFuel
  | S fuel' =>
      let q := sqs s in
      let s := set_sq s (mkSQ (storeQueue q) (SQEntries q) (stores q - 1) (storesToWB q) (incrStIdx s (storeHead q)) (storeWBIdx q) (storeTail q)) in
      e ← entry s (storeHead (sqs s));
      if completed e && negb (storeHead (sqs s) =? storeTail (sqs s)) then head_loop fuel' s else Ok s
  end.

Definition completeStore (s : t) (store_idx : Z) : res t :=
  e ← entry s store_idx;
  id ← assert_ptr (inst e);
  s ← put_entry s store_idx set_completed;
  let s := set_storesToWB s (storesToWB (sqs s) - 1) in
  let s := emit (emit s EWakeCPU) EActivityThisCycle in
  s ← (if store_idx =? storeHead (sqs s)
       then s ← head_loop (length (storeQueue (sqs s))) s; Ok (emit s EUpdateLSQNextCycle) else Ok s);
  s ← unstall s store_idx;
  set_status s id DynInst.Completed.

Definition storePostSend (s : t) : res t :=
  let wb := storeWBIdx (sqs s) in
  s ← unstall s wb;
  id ← entry_inst s wb;
  i ← get s id;
  s ← (if isStoreConditional i then Ok s else set_status s id DynInst.Completed);
  Ok (set_storeWBIdx s (incrStIdx s wb)).

Definition writeback (s : t) (id : Z) (pkt : Pkt) : res t :=
  let s := emit s EWakeCPU in
  i ← get s id;
  if has i DynInst.Squashed then
    let s := emit s (EDecrWb (seqNum i)) in
    _ ← c_assert (negb (isStore i));
    Ok s
  else
    s ← (if has i DynInst.Executed then Ok s else s ← set_status s id DynInst.Executed; Ok (emit s (ECompleteAcc id pkt)));
    Ok (emit (emit s (EInstToCommit id)) EActivityThisCycle).

(** [WritebackEvent::process]. *)
Definition process_writeback (s : t) (id : Z) (pkt : Pkt) : res t :=
  s ← (if switchedOut (unit_ s) then Ok s else writeback s id pkt);
  Ok (match senderState pkt with Some p => delete_state s p | None => s end).

Definition completeDataAccess (env : Env) (s : t) (pkt : Pkt) : res t :=
  p ← deref (senderState pkt);
  x ← get_state s p;
  let id := ss_inst x in
  i ← get s id;
  _ ← c_assert (negb (bool_decide (cmd pkt = MemCmd.NetworkNackError)));
  let '(finished, s) := if HasUnalignedMemAcc env then let '(b, x) := complete x in (b, put_state s p x) else (true, s) in
  if negb finished then Ok s
  else
    s ← (if switchedOut (unit_ s) || has i DynInst.Squashed then Ok (emit s (EDecrWb (seqNum i)))
         else
           s ← (if noWB x then Ok s
                else if HasUnalignedMemAcc env && ss_isSplit x && ss_isLoad x then m ← deref (mainPkt x); writeback s id m else writeback s id pkt);
           if isStore i then completeStore s (ss_idx x) else Ok s);
    Ok (delete_state s p).

(** ** Writing back *)
Definition sendStore (env : Env) (s : t) (data_pkt : Pkt) : res (bool * t) :=
  let '(ok, s) := send env s data_pkt in
  if ok then Ok (true, s)
  else
    let b := blocked (unit_ s) in
    _ ← c_assert (bool_decide (retryPkt b = None));
    Ok (false, set_retryTid (set_blocked s (mkBlocked (Some data_pkt) true (isLoadBlocked b) (loadBlockedHandled b) (blockedLoadSeqNum b)))
                 (lsqID (unit_ s))).

Definition set_pendingPkt (s : t) (h : bool) (p : option Pkt) : t :=
  let x := ports (unit_ s) in set_ports s (mkPorts (cachePorts x) (usedPorts x) h p).

Definition writebackPendingStore (env : Env) (s : t) : res t :=
  let x := ports (unit_ s) in
  if hasPendingPkt x then
    p ← assert_ptr (pendingPkt x);
    r ← sendStore env s p;
    s ← (if (r.1 : bool) then storePostSend r.2 else Ok r.2);
    Ok (set_pendingPkt s false None)
  else Ok s.

(** The packets of the store at [storeWBIdx]: the second one if it is split, and
    the request that goes on. *)
Definition store_packets (env : Env) (s : t) (e : SQEntry) (id p : Z) (rq : Request.t) : res (Pkt * option Pkt * Request.t * t) :=
  let command := if Request.isSwap rq then MemCmd.SwapReq else if Request.isLLSC rq then MemCmd.StoreCondReq else MemCmd.WriteReq in
  if negb (HasUnalignedMemAcc env) || negb (isSplit e) then Ok (mkPkt command rq (id, 0) (Some p), None, rq, s)
  else
    lo ← deref (sreqLow e);
    hi ← deref (sreqHigh e);
    off ← Request.getSize lo;
    x ← get_state s p;
    Ok (mkPkt command lo (id, 0) (Some p), Some (mkPkt command hi (id, off) (Some p)), lo, put_state s p (set_split None x)).

(** The store at [storeWBIdx] is sent: its data, its packets, its sender state,
    and what becomes of it when the cache takes them and when it does not. *)
Definition writeback_store (env : Env) (s : t) (e : SQEntry) (id : Z) (rq : Request.t) : res t :=
  let wb := storeWBIdx (sqs s) in
  s ← put_entry s wb set_committed;
  i ← get s id;
  _ ← c_assert (bool_decide (memData i = None));
  sz ← Request.getSize rq;
  d ← bytes (data e) 0 sz;
  s ← upd s id (set_memData (Some d));
  let '(p, s) := alloc_state s (new_state id false wb) in
  r ← store_packets env s e id p rq;
  let '(data_pkt, snd_data_pkt, rq, s) := r in
  r ← (if isStoreConditional i then
         _ ← c_assert (negb (isSplit e));
         let ok := handleLockedWrite env (trace (world s)) id rq in
         Ok (ok, emit s (ELockedWrite id rq ok))
       else x ← get_state s p; Ok (true, put_state s p (set_noWB x)));
  let '(success, s) := r in
  if negb (success : bool) then
    let s := emit s (EWriteback id data_pkt 1) in
    s ← completeStore s wb;
    Ok (set_storeWBIdx s (incrStIdx s wb))
  else
    r ← sendStore env s data_pkt;
    let '(ok, s) := r in
    let split := HasUnalignedMemAcc env && isSplit e in
    if negb (ok : bool) then
      if split then x ← get_state s p; Ok (put_state s p (set_pending snd_data_pkt x)) else Ok s
    else if split then
      p2 ← assert_ptr snd_data_pkt;
      let x := ports (unit_ s) in
      if usedPorts x <? cachePorts x then
        r ← sendStore env (set_usedPorts s (usedPorts x + 1)) p2;
        if (r.1 : bool) then storePostSend r.2 else Ok r.2
      else
        _ ← c_assert (bool_decide (pendingPkt x = None));
        Ok (set_pendingPkt s true (Some p2))
    else storePostSend s.

Fixpoint writeback_loop (fuel : nat) (env : Env) (s : t) : res t :=
  match fuel with
  | O => Er OutOfFuel
  | S fuel' =>
      let q := sqs s in
      let x := ports (unit_ s) in
      if negb ((0 <? storesToWB q) && negb (storeWBIdx q =? storeTail q)) then Ok s
      else
        e ← entry s (storeWBIdx q);
        match inst e with
        | None => Ok s
        | Some id =>
            if negb (canWB e && (usedPorts x <? cachePorts x)) then Ok s
            else if isStoreBlocked (blocked (unit_ s)) || cacheBlocked s then Ok s
            else if size e =? 0 then
              s ← completeStore s (storeWBIdx q);
              writeback_loop fuel' env (set_storeWBIdx s (incrStIdx s (storeWBIdx q)))
            else
              let s := set_usedPorts s (usedPorts x + 1) in
              i ← get s id;
              if isDataPrefetch i then writeback_loop fuel' env (set_storeWBIdx s (incrStIdx s (storeWBIdx q)))
              else
                rq ← assert_ptr (req e);
                _ ← c_assert (negb (committed e));
                _ ← (if HasUnalignedMemAcc env && isSplit e then _ ← assert_ptr (sreqLow e); _ ← assert_ptr (sreqHigh e); Ok () else Ok ());
                s ← writeback_store env s e id rq;
                writeback_loop fuel' env s
        end
  end.

Definition writebackStores (env : Env) (s : t) : res t :=
  s ← (if HasUnalignedMemAcc env then writebackPendingStore env s else Ok s);
  s ← writeback_loop (S (S (length (storeQueue (sqs s))))) env s;
  let s := set_usedPorts s 0 in
  _ ← c_assert ((0 <=? stores (sqs s)) && (0 <=? storesToWB (sqs s)));
  Ok s.

Definition recvRetry (env : Env) (s : t) : res t :=
  let b := blocked (unit_ s) in
  if isStoreBlocked b then
    pkt ← assert_ptr (retryPkt b);
    let '(ok, s) := send env s pkt in
    if ok then
      p ← deref (senderState pkt);
      x ← get_state s p;
      let more := HasUnalignedMemAcc env && pktToSend x in
      s ← (if more then Ok s else storePostSend s);
      let b := blocked (unit_ s) in
      let s := set_retryTid (set_blocked s (mkBlocked None false (isLoadBlocked b) (loadBlockedHandled b) (blockedLoadSeqNum b))) (-1) in
      if more then
        pp ← assert_ptr (pendingPacket x);
        r ← sendStore env s pp;
        if (r.1 : bool) then storePostSend r.2 else Ok r.2
      else Ok s
    else Ok (set_retryTid s (lsqID (unit_ s)))
  else Ok s.

(** ** Squashing *)
Fixpoint squash_loads (fuel : nat) (s : t) (squashed_num load_idx : Z) : res t :=
  match fuel with
  | O => Er OutOfFuel
  | S fuel' =>
      let q := lqs s in
      if loads q =? 0 then Ok s
      else
        id ← load_at s load_idx;
        n ← seq s id;
        if squashed_num <? n then
          let x := stall (unit_ s) in
          let s := if stalled x && (load_idx =? stallingLoadIdx x) then set_stall s (mkStall false 0 0) else s in
          s ← set_status s id DynInst.Squashed;
          l ← vset (loadQueue q) load_idx None;
          squash_loads fuel' (set_lq s (mkLQ l (LQEntries q) (loads q - 1) (loadHead q) load_idx)) squashed_num (decrLdIdx s load_idx)
        else Ok s
  end.

Fixpoint squash_stores (fuel : nat) (env : Env) (s : t) (squashed_num store_idx : Z) : res t :=
  match fuel with
  | O => Er OutOfFuel
  | S fuel' =>
      let q := sqs s in
      if stores q =? 0 then Ok s
      else
        e ← entry s store_idx;
        id ← deref (inst e);
        n ← seq s id;
        if squashed_num <? n then
          if canWB e then Ok s
          else
            let x := stall (unit_ s) in
            if stalled x && (n =? stallingStoreIsn x) then Er Panic
            else
              s ← set_status s id DynInst.Squashed;
              let split := HasUnalignedMemAcc env && isSplit e in
              l ← vset (storeQueue q) store_idx
                    (mkSQEntry None None (if split then None else sreqLow e) (if split then None else sreqHigh e) (size e) (data e) (isSplit e)
                       false (committed e) (completed e));
              squash_stores fuel' env
                (set_sq s (mkSQ l (SQEntries q) (stores q - 1) (storesToWB q) (storeHead q) (storeWBIdx q) store_idx))
                squashed_num (decrStIdx s store_idx)
        else Ok s
  end.

(** The blocked load and the violator are forgotten if they are squashed. *)
Definition squash_flags (s : t) (squashed_num : Z) : res t :=
  let b := blocked (unit_ s) in
  let s := if isLoadBlocked b && (squashed_num <? blockedLoadSeqNum b)
           then set_blocked s (mkBlocked (retryPkt b) (isStoreBlocked b) false false 0) else s in
  match memDepViolator (unit_ s) with
  | None => Ok s
  | Some v => n ← seq s v; Ok (if squashed_num <? n then set_violator s None else s)
  end.

Definition squash (env : Env) (s : t) (squashed_num : Z) : res t :=
  s ← squash_loads (S (length (loadQueue (lqs s)))) s squashed_num (decrLdIdx s (loadTail (lqs s)));
  s ← squash_flags s squashed_num;
  squash_stores (S (length (storeQueue (sqs s)))) env s squashed_num (decrStIdx s (storeTail (sqs s))).
End LSQUnit.
