(* ===== verification/LsqInv.v ===== *)
(** * The invariant of the load/store queue

    What holds of an [LSQUnit] between operations: [L] are its loads and [E] the
    entries of its stores, oldest first, the first [w] stores have been sent, and
    [C] is the highest number up to which stores were committed.  Before that, the circular queues:
    [ring v n h t l] says that the vector [v] of [n] entries with head [h] and tail [t]
    holds the list [l]. *)
From S2P Require Import Prelude LsqUnit EventQueue Request Packet Rob.
Import LSQUnit.

(** The index of the [k]-th element from the head [h]. *)
Definition pos (n h : Z) (k : nat) : Z := (h + Z.of_nat k) mod n.

Record ring {A} (v : list A) (n h t : Z) (l : list A) : Prop := mkRing {
  r_len : Z.of_nat (length v) = n;
  r_n : 0 < n <= 2 ^ 15;
  r_head : 0 <= h < n;
  r_free : Z.of_nat (length l) < n;
  r_tail : t = pos n h (length l);
  r_get : forall k x, l !! k = Some x -> v !! Z.to_nat (pos n h k) = Some x
}.

(** ** Positions *)
Section Pos.
Context (n : Z) (Hn : 0 < n <= 2 ^ 15).

Lemma pos_range h k : 0 <= pos n h k < n.
Proof. apply Z.mod_pos_bound. lia. Qed.
Lemma pos_0 h : 0 <= h < n -> pos n h 0 = h.
Proof. intros. unfold pos. rewrite Z.mod_small; lia. Qed.
Lemma pos_pos h j k : pos n (pos n h j) k = pos n h (j + k).
Proof. unfold pos. rewrite Zplus_mod_idemp_l. f_equal. lia. Qed.
Lemma pos_inj h j k : Z.of_nat j < n -> Z.of_nat k < n -> pos n h j = pos n h k -> j = k.
Proof.
  intros Hj Hk E. unfold pos in E. pose proof (Z.div_mod (h + Z.of_nat j) n ltac:(lia)). pose proof (Z.div_mod (h + Z.of_nat k) n ltac:(lia)).
  rewrite E in H. assert (Hd : Z.of_nat j - Z.of_nat k = n * ((h + Z.of_nat j) / n - (h + Z.of_nat k) / n)) by lia.
  assert ((h + Z.of_nat j) / n - (h + Z.of_nat k) / n = 0) by nia. lia.
Qed.
Lemma incrIdx_pos h k : incrIdx n (pos n h k) = pos n h (S k).
Proof.
  pose proof (pos_range h k). unfold incrIdx. rewrite uint_small by lia.
  rewrite <- Nat.add_1_r, <- (pos_pos h k 1). set (i := pos n h k) in *. unfold pos.
  destruct (Z.leb_spec n (i + 1)).
  - replace (i + Z.of_nat 1) with n by lia. by rewrite Z_mod_same_full.
  - rewrite Z.mod_small; lia.
Qed.
Lemma decrIdx_pos h k : decrIdx n (pos n h (S k)) = pos n h k.
Proof.
  pose proof (pos_range h k). rewrite <- Nat.add_1_r, <- (pos_pos h k 1). generalize dependent (pos n h k). intros i Hi. unfold decrIdx, pos.
  destruct (decide (i + 1 = n)) as [E|].
  - replace (i + Z.of_nat 1) with n by lia. rewrite Z_mod_same_full. change (0 - 1 <? 0) with true. cbv iota. rewrite sint_small; [lia|lia|]. change (2 ^ (32 - 1)) with (2 ^ 31). lia.
  - rewrite Z.mod_small by lia. destruct (Z.ltb_spec (i + Z.of_nat 1 - 1) 0); lia.
Qed.
(** Before the head comes the free place. *)
Lemma decrIdx_head h : 0 <= h < n -> decrIdx n h = pos n h (Z.to_nat (n - 1)).
Proof.
  intros Hh. unfold decrIdx, pos. destruct (Z.ltb_spec (h - 1) 0).
  - rewrite sint_small by (change (2 ^ (32 - 1)) with (2 ^ 31); lia). rewrite Z.mod_small; lia.
  - replace (h + Z.of_nat (Z.to_nat (n - 1))) with (h - 1 + 1 * n) by lia. rewrite Z.mod_add, Z.mod_small; lia.
Qed.
End Pos.

(** ** Entries *)
Section Ring.
Context {A : Type}.
Implicit Types (v l : list A) (x : A) (n h t : Z).

Lemma ring_vget v n h t l k x : ring v n h t l -> l !! k = Some x -> vget v (pos n h k) = Ok x.
Proof. intros [? Hn ? ? ? Hg] Hk. apply vget_Ok. split; [apply pos_range; lia|by apply Hg]. Qed.

Lemma ring_slot v n h t l k : ring v n h t l -> 0 <= pos n h k < Z.of_nat (length v).
Proof. intros [-> Hn _ _ _ _]. by apply pos_range. Qed.

Lemma ring_sentinel v n h t l : ring v n h t l -> exists x, vget v (pos n h (length l)) = Ok x.
Proof. intros Hr. destruct (vget_lt v (pos n h (length l))) as (x & Hx & _); [by eapply ring_slot|]. by exists x. Qed.

Lemma ring_tail_eq v n h t l k : ring v n h t l -> (k <= length l)%nat -> (pos n h k =? t) = bool_decide (k = length l).
Proof.
  intros [? Hn ? ? -> ?] Hk. case_bool_decide as E; [subst; apply Z.eqb_refl|]. apply Z.eqb_neq. intros Ep. apply E.
  eapply pos_inj; [exact Hn| | |exact Ep]; lia.
Qed.

Lemma ring_update v n h t l k x y : ring v n h t l -> l !! k = Some x -> ring (<[Z.to_nat (pos n h k) := y]> v) n h t (<[k := y]> l).
Proof.
  intros [Hl Hn Hh Hf Ht Hg] Hk. pose proof (lookup_lt_Some _ _ _ Hk) as Hlt.
  split; rewrite ?length_insert; try done. intros j z Hj. destruct (decide (j = k)) as [->|Hne].
  - rewrite list_lookup_insert_eq in Hj by done. rewrite list_lookup_insert_eq; [done|]. pose proof (pos_range n Hn h k). lia.
  - rewrite list_lookup_insert_ne in Hj by done. rewrite list_lookup_insert_ne; [by apply Hg|].
    pose proof (lookup_lt_Some _ _ _ Hj). pose proof (pos_range n Hn h k). pose proof (pos_range n Hn h j).
    intros E. apply Hne. symmetry. eapply (pos_inj n Hn h); lia.
Qed.

Lemma ring_push v n h t l x : ring v n h t l -> Z.of_nat (length l) + 1 < n ->
  ring (<[Z.to_nat t := x]> v) n h (incrIdx n t) (l ++ [x]).
Proof.
  intros [Hl Hn Hh Hf Ht Hg] Hfull. subst t. split; rewrite ?length_insert, ?length_app; try done.
  - simpl. lia.
  - rewrite incrIdx_pos by done. f_equal. simpl. lia.
  - intros j z Hj. pose proof (pos_range n Hn h (length l)). pose proof (pos_range n Hn h j).
    destruct (decide (j = length l)) as [->|Hne].
    + rewrite list_lookup_middle in Hj by done. rewrite list_lookup_insert_eq; [congruence|lia].
    + pose proof (lookup_lt_Some _ _ _ Hj) as Hlt. rewrite length_app in Hlt. simpl in Hlt.
      rewrite lookup_app_l in Hj by lia. rewrite list_lookup_insert_ne; [by apply Hg|].
      intros E. apply Hne. symmetry. eapply (pos_inj n Hn h); lia.
Qed.

(** The head moves over an entry, whose place may be overwritten. *)
Lemma ring_pop v n h t x l : ring v n h t (x :: l) -> ring v n (incrIdx n h) t l.
Proof.
  intros [Hl Hn Hh Hf Ht Hg]. simpl in *. rewrite <- (pos_0 n h Hh), incrIdx_pos by done.
  assert (E : forall k, pos n (pos n h 1) k = pos n h (S k)) by (intros k; by rewrite pos_pos).
  split; try done.
  - by apply pos_range.
  - lia.
  - rewrite E. subst t. done.
  - intros k y Hk. rewrite E. by apply Hg.
Qed.
Lemma ring_pop_clear v n h t x l y : ring v n h t (x :: l) -> ring (<[Z.to_nat h := y]> v) n (incrIdx n h) t l.
Proof.
  intros Hr. pose proof (r_n _ _ _ _ _ Hr) as Hn. eapply ring_pop with (x := y). rewrite <- (pos_0 n h (r_head _ _ _ _ _ Hr)) at 1.
  by apply (ring_update v n h t (x :: l) 0 x y).
Qed.

(** The tail moves back over the last entry. *)
Lemma ring_shrink v n h t l x : ring v n h t (l ++ [x]) -> ring v n h (pos n h (length l)) l.
Proof.
  intros [Hl Hn Hh Hf Ht Hg]. rewrite length_app in Hf. simpl in Hf. split; try done; [lia|].
  intros k y Hk. apply Hg. by apply lookup_app_l_Some.
Qed.
Lemma ring_shrink_clear v n h t l x y : ring v n h t (l ++ [x]) -> ring (<[Z.to_nat (pos n h (length l)) := y]> v) n h (pos n h (length l)) l.
Proof.
  intros Hr. assert (Hk : (l ++ [x]) !! length l = Some x) by by rewrite list_lookup_middle.
  pose proof (ring_update _ _ _ _ _ _ _ y Hr Hk) as Hr'. rewrite insert_app_r_alt, Nat.sub_diag in Hr' by lia. by eapply ring_shrink.
Qed.
Lemma ring_last v n h t l x : ring v n h t (l ++ [x]) -> decrIdx n t = pos n h (length l).
Proof. intros [? Hn ? ? -> ?]. rewrite length_app. simpl. rewrite Nat.add_1_r. by apply decrIdx_pos. Qed.
End Ring.


(** ** Ages *)

(** The sequence number of an instruction and the instruction of an entry. *)
Definition sn (m : gmap Z Inst) (id : Z) : Z := match m !! id with Some i => seqNum i | None => 0 end.
Definition eid (e : SQEntry) : Z := default 0 (inst e).
(** How many of [ids] are older than [n]. *)
Definition older (m : gmap Z Inst) (ids : list Z) (n : Z) : nat := length (filter (fun id => sn m id < n) ids).

Definition waits (e : SQEntry) : bool := canWB e && negb (completed e).
Definition numWaiting (E : list SQEntry) : Z := Z.of_nat (length (filter (fun e => waits e = true) E)).

(** ** Packets in the history *)
Definition accepted (h : list Ev) (p : Z) : Prop := exists pkt, ESendTiming pkt true ∈ h /\ senderState pkt = Some p.

Definition is_store_cmd (c : MemCmd.Command) : bool :=
  match c with MemCmd.WriteReq | MemCmd.SwapReq | MemCmd.StoreCondReq => true | _ => false end.
(** The store whose packet an event says the cache took, and all of them in order. *)
Definition sent_by (ev : Ev) : option Z :=
  match ev with ESendTiming pkt true => if is_store_cmd (cmd pkt) then Some (pdata pkt).1 else None | _ => None end.
Definition sent (h : list Ev) : list Z := omap sent_by h.

(** ** Requests *)
Definition rq_ok (rq : Request.t) : Prop :=
  EvQ.isSet (Request.privateFlags rq) Request.VALID_VADDR = true /\ EvQ.isSet (Request.privateFlags rq) Request.VALID_SIZE = true.

(** ** Loads and stores *)

(** The index of the [k]-th load and of the [k]-th store. *)
Definition loadPos (s : t) (k : nat) : Z := pos (LQEntries (lqs s)) (loadHead (lqs s)) k.
Definition storePos (s : t) (k : nat) : Z := pos (SQEntries (sqs s)) (storeHead (sqs s)) k.

(** The predicates below are on parts of the state: [lp] and [sp] are the indices
    of the loads and of the stores, [m] the instructions, [st] the sender states
    and [nx] the next one, [h] the history, [rp] the refused packet and [blk]
    whether there is one. *)

(** A load that has not executed knows where the stores older than it end, and no
    store younger than it may be written back. *)
Definition older_stores (sp : nat -> Z) (m : gmap Z Inst) (E : list SQEntry) (i : Inst) : Prop :=
  (forall e, e ∈ E -> canWB e = true -> sn m (eid e) < seqNum i) /\
  let j := older m (eid <$> E) (seqNum i) in
  (sqIdx i = -1 /\ j = 0%nat) \/ sqIdx i = sp j.

Record load_ok (lp sp : nat -> Z) (m : gmap Z Inst) (E : list SQEntry) (k : nat) (id : Z) (i : Inst) : Prop := mkLoadOk {
  l_get : m !! id = Some i;
  l_load : isLoad i = true;
  l_store : isStore i = false;
  l_idx : lqIdx i = lp k;
  l_older : has i DynInst.Executed = false -> older_stores sp m E i
}.

(** An access of [sz] bytes at a multiple of [sz]. *)
Definition aligned (addr sz : Z) : Prop := (sz = 1 \/ sz = 2 \/ sz = 4 \/ sz = 8) /\ addr mod sz = 0.

(** The data a store holds. *)
Definition written (e : SQEntry) (i : Inst) : Prop :=
  size e <> 0 -> effAddrValid i = true /\ 0 < size e <= 8 /\ (aligned (effAddr i) (size e) /\ 0 <= effAddr i /\ effAddr i + size e < 2 ^ 64) /\
    exists rq, req e = Some rq /\ rq_ok rq /\ Request._size rq = size e /\ Request._vaddr rq = effAddr i.

(** A store that may not be written back knows where the loads younger than it
    begin; those that may are committed or conditional. *)
Record store_ok (lp sp : nat -> Z) (blk : bool) (m : gmap Z Inst) (L : list Z) (w : nat) (C : Z) (k : nat) (e : SQEntry) (id : Z) (i : Inst) : Prop := mkStoreOk {
  t_inst : inst e = Some id;
  t_get : m !! id = Some i;
  t_store : isStore i = true;
  t_load : isLoad i = false;
  t_idx : sqIdx i = sp k;
  t_split : isSplit e = false;
  t_data : length (data e) = data_size;
  t_written : written e i;
  t_can : canWB e = true -> seqNum i <= C \/ isStoreConditional i = true;
  t_live : canWB e = true -> has i DynInst.Squashed = false;
  t_sent : (k < w)%nat -> canWB e = true;
  t_younger : canWB e = false -> lqIdx i = lp (older m L (seqNum i));
  t_completed : completed e = true -> (k < w)%nat;
  t_memData : committed e = false -> memData i = None;
  t_mem : committed e = true -> memData i <> None;
  t_committed : committed e = true -> (k < w)%nat \/ (k = w /\ blk = true)
}.

(** ** The stalled load *)
Definition stall_ok (x : Stall) (lp : nat -> Z) (m : gmap Z Inst) (L : list Z) : Prop :=
  stalled x = true ->
  exists k id i, L !! k = Some id /\ stallingLoadIdx x = lp k /\ m !! id = Some i /\ memData i = None /\
                 has i DynInst.Executed = false /\ stallingStoreIsn x < seqNum i.

(** ** The store the cache refused *)
Definition refused (sp : nat -> Z) (st : gmap Z LSQSenderState) (h : list Ev) (E : list SQEntry) (w : nat) (pkt : Pkt) : Prop :=
  is_store_cmd (cmd pkt) = true /\
  exists p x e, senderState pkt = Some p /\ st !! p = Some x /\ ss_isLoad x = false /\ E !! w = Some e /\ inst e = Some (ss_inst x) /\
    ss_idx x = sp w /\ (pdata pkt).1 = ss_inst x /\ committed e = true /\ canWB e = true /\ ~ accepted h p.
Definition retry_ok (sp : nat -> Z) (rp : option Pkt) (blk : bool) (st : gmap Z LSQSenderState) (h : list Ev) (E : list SQEntry) (w : nat) : Prop :=
  blk = bool_decide (is_Some rp) /\ forall pkt, rp = Some pkt -> refused sp st h E w pkt.

(** ** Accesses in flight *)
Record state_ok (m : gmap Z Inst) (x : LSQSenderState) : Prop := mkStateOk {
  x_pending : pktToSend x = false;
  x_split : ss_isSplit x = true -> ss_isLoad x = true /\ is_Some (mainPkt x);
  x_inst : exists i, m !! ss_inst x = Some i /\ memData i <> None /\ isStore i = negb (ss_isLoad x)
}.

(** The entry that waits for the response to an accepted packet. *)
Definition awaits (sp : nat -> Z) (E : list SQEntry) (w : nat) (x : LSQSenderState) : Prop :=
  exists k e, (k < w)%nat /\ E !! k = Some e /\ inst e = Some (ss_inst x) /\ ss_idx x = sp k /\ committed e = true /\ completed e = false.

Record flight_ok (sp : nat -> Z) (rp : option Pkt) (blk : bool) (m : gmap Z Inst) (st : gmap Z LSQSenderState) (nx : Z) (h : list Ev)
  (E : list SQEntry) (w : nat) (C : Z) : Prop := mkFlightOk {
  f_fresh : forall p, is_Some (st !! p) -> p < nx;
  f_pkts : forall pkt ok p, ESendTiming pkt ok ∈ h -> senderState pkt = Some p -> p < nx;
  f_states : forall p x, st !! p = Some x -> state_ok m x;
  f_awaits : forall p x, st !! p = Some x -> ss_isLoad x = false -> accepted h p -> awaits sp E w x;
  f_inj : forall p q x y, st !! p = Some x -> st !! q = Some y -> ss_isLoad x = false -> ss_isLoad y = false ->
    accepted h p -> accepted h q -> ss_inst x = ss_inst y -> p = q;
  f_retry : retry_ok sp rp blk st h E w;
  f_events : forall id pkt d, EWriteback id pkt d ∈ h ->
    (exists i, m !! id = Some i /\ memData i <> None) /\
    forall p, senderState pkt = Some p -> p < nx /\ ~ accepted h p /\ (forall r, rp = Some r -> senderState r <> Some p);
  f_squashed : forall id i, m !! id = Some i -> isStore i = true -> memData i <> None -> has i DynInst.Squashed = false;
  f_sorted : StronglySorted Z.lt (sn m <$> sent h);
  f_sent : forall id, id ∈ sent h ->
    (exists i, m !! id = Some i /\ (seqNum i <= C \/ isStoreConditional i = true)) /\
    forall k e, (w <= k)%nat -> E !! k = Some e -> sn m id < sn m (eid e)
}.

(** ** The unit *)
Record Inv (s : t) (L : list Z) (E : list SQEntry) (w : nat) (C : Z) : Prop := mkInv {
  i_lq : ring (loadQueue (lqs s)) (LQEntries (lqs s)) (loadHead (lqs s)) (loadTail (lqs s)) (Some <$> L);
  i_loads : loads (lqs s) = Z.of_nat (length L);
  i_sq : ring (storeQueue (sqs s)) (SQEntries (sqs s)) (storeHead (sqs s)) (storeTail (sqs s)) E;
  i_stores : stores (sqs s) = Z.of_nat (length E);
  i_w : (w <= length E)%nat;
  i_wb : storeWBIdx (sqs s) = storePos s w;
  i_toWB : storesToWB (sqs s) = numWaiting E;
  i_lsorted : StronglySorted Z.lt (sn (insts (world s)) <$> L);
  i_ssorted : StronglySorted Z.lt (sn (insts (world s)) ∘ eid <$> E);
  i_load : forall k id, L !! k = Some id -> exists i, load_ok (loadPos s) (storePos s) (insts (world s)) E k id i;
  i_store : forall k e, E !! k = Some e ->
    exists id i, store_ok (loadPos s) (storePos s) (isStoreBlocked (blocked (unit_ s))) (insts (world s)) L w C k e id i;
  i_stall : stall_ok (stall (unit_ s)) (loadPos s) (insts (world s)) L;
  i_pending : hasPendingPkt (ports (unit_ s)) = false;
  i_on : switchedOut (unit_ s) = false;
  i_violator : forall v, memDepViolator (unit_ s) = Some v -> is_Some (insts (world s) !! v);
  i_flight : flight_ok (storePos s) (retryPkt (blocked (unit_ s))) (isStoreBlocked (blocked (unit_ s))) (insts (world s)) (states (world s))
               (nextState (world s)) (trace (world s)) E w C
}.

(** ** Changes that the invariant does not see *)

(** Of the unit: the flags of blocked loads, the ports and the violator. *)
Section Frames.
Context (s : t) (L : list Z) (E : list SQEntry) (w : nat) (C : Z) (H : Inv s L E w C).

Lemma Inv_blocked a b n : Inv (set_blocked s (mkBlocked (retryPkt (blocked (unit_ s))) (isStoreBlocked (blocked (unit_ s))) a b n)) L E w C.
Proof. destruct H. by split. Qed.
Lemma Inv_usedPorts n : Inv (set_usedPorts s n) L E w C.
Proof. destruct H. by split. Qed.
Lemma Inv_retryTid n : Inv (set_retryTid s n) L E w C.
Proof. destruct H. by split. Qed.
Lemma Inv_violator v : (forall x, v = Some x -> is_Some (insts (world s) !! x)) -> Inv (set_violator s v) L E w C.
Proof. destruct H. by split. Qed.
End Frames.

(** Of the history: the events that are neither packets taken nor write-backs. *)
Definition quiet (nx : Z) (ev : Ev) : Prop :=
  match ev with
  | ESendTiming pkt ok => ok = false /\ forall p, senderState pkt = Some p -> p < nx
  | EWriteback _ _ _ => False
  | _ => True
  end.

Lemma accepted_app h ev p : accepted (h ++ [ev]) p <-> accepted h p \/ exists pkt, ev = ESendTiming pkt true /\ senderState pkt = Some p.
Proof.
  unfold accepted. split.
  - intros (pkt & [Hin| <-%list_elem_of_singleton]%elem_of_app & Hp); [left|right]; eauto.
  - intros [(pkt & Hin & Hp)|(pkt & -> & Hp)]; exists pkt; set_solver.
Qed.
Lemma accepted_mono h ev p : accepted h p -> accepted (h ++ [ev]) p.
Proof. intros. apply accepted_app. by left. Qed.
Lemma accepted_quiet nx h ev p : quiet nx ev -> accepted (h ++ [ev]) p -> accepted h p.
Proof. intros Hq [?|(pkt & -> & _)]%accepted_app; [done|]. destruct Hq as [? _]. done. Qed.
Lemma sent_app h ev : sent (h ++ [ev]) = sent h ++ match sent_by ev with Some id => [id] | None => [] end.
Proof. unfold sent. rewrite omap_app. simpl. by destruct (sent_by ev). Qed.
Lemma sent_quiet nx h ev : quiet nx ev -> sent (h ++ [ev]) = sent h.
Proof.
  intros Hq. rewrite sent_app. replace (sent_by ev) with (@None Z); [apply app_nil_r|].
  destruct ev as [| | | | | | | |pkt [] | | |]; try done. by destruct Hq.
Qed.

Lemma flight_quiet sp rp blk m st nx h E w C ev : flight_ok sp rp blk m st nx h E w C -> quiet nx ev -> flight_ok sp rp blk m st nx (h ++ [ev]) E w C.
Proof.
  intros [] Hq. split; rewrite ?(sent_quiet nx) by done; try done.
  - intros pkt ok p [Hin| <-%list_elem_of_singleton]%elem_of_app Hp; [by eapply f_pkts0|]. by apply Hq.
  - intros p x Hx Hl Ha. eapply f_awaits0; [done..|by eapply accepted_quiet].
  - intros p q x y Hx Hy Hl Hl' Ha Hb. eapply f_inj0; [done..|by eapply accepted_quiet|by eapply accepted_quiet].
  - destruct f_retry0 as [Hb Hr]. split; [done|]. intros pkt Hp. destruct (Hr pkt Hp) as (Hc & p & x & e & ? & ? & ? & ? & ? & ? & ? & ? & ? & Hna).
    split; [done|]. exists p, x, e. repeat split; try done. intros Ha. apply Hna. by eapply accepted_quiet.
  - intros id pkt d [Hin| <-%list_elem_of_singleton]%elem_of_app; [|done]. destruct (f_events0 id pkt d Hin) as [Hi Hp].
    split; [done|]. intros p Hp'. destruct (Hp p Hp') as (? & Hna & ?). repeat split; try done. intros Ha. apply Hna. by eapply accepted_quiet.
Qed.

Lemma Inv_emit s L E w C ev : Inv s L E w C -> quiet (nextState (world s)) ev -> Inv (emit s ev) L E w C.
Proof. intros [] Hq. split; try done. by apply flight_quiet. Qed.

(** Of the instructions. *)
Lemma sn_get m id i : m !! id = Some i -> sn m id = seqNum i.
Proof. unfold sn. by intros ->. Qed.
Lemma sn_insert m id i i' : m !! id = Some i -> seqNum i' = seqNum i -> forall x, sn (<[id := i']> m) x = sn m x.
Proof.
  intros Hi Hs x. unfold sn. destruct (decide (x = id)) as [->|Hne]; [by rewrite lookup_insert_eq, Hi|by rewrite lookup_insert_ne].
Qed.
Lemma older_ext m m' ids n : (forall x, sn m' x = sn m x) -> older m' ids n = older m ids n.
Proof. intros He. unfold older. f_equal. apply list_filter_iff. intros x. by rewrite He. Qed.
Lemma fmap_sn m m' (ids : list Z) : (forall x, sn m' x = sn m x) -> sn m' <$> ids = sn m <$> ids.
Proof. intros He. apply list_fmap_ext. intros i x _. apply He. Qed.
Lemma fmap_sn_eid m m' (E : list SQEntry) : (forall x, sn m' x = sn m x) -> sn m' ∘ eid <$> E = sn m ∘ eid <$> E.
Proof. intros He. apply list_fmap_ext. intros i x _. apply He. Qed.

Record keeps (stalling : Prop) (E : list SQEntry) (id : Z) (i i' : Inst) : Prop := mkKeeps {
  k_seq : seqNum i' = seqNum i;
  k_load : isLoad i' = isLoad i;
  k_store : isStore i' = isStore i;
  k_sc : isStoreConditional i' = isStoreConditional i;
  k_lq : lqIdx i' = lqIdx i;
  k_sq : sqIdx i' = sqIdx i;
  k_exec : has i DynInst.Executed = true -> has i' DynInst.Executed = true;
  k_mem : memData i <> None -> memData i' <> None;
  k_smem : isStore i = true -> memData i = None -> memData i' = None;
  k_eff : forall e, e ∈ E -> inst e = Some id -> size e <> 0 -> effAddrValid i = true -> effAddrValid i' = true /\ effAddr i' = effAddr i;
  k_sqd : isStore i = true -> memData i <> None -> has i' DynInst.Squashed = has i DynInst.Squashed;
  k_live : forall e, e ∈ E -> inst e = Some id -> canWB e = true -> has i' DynInst.Squashed = has i DynInst.Squashed;
  k_stall : stalling -> memData i' = memData i /\ has i' DynInst.Executed = has i DynInst.Executed
}.
Definition stalling (x : Stall) (lp : nat -> Z) (L : list Z) (id : Z) : Prop :=
  stalled x = true /\ exists k, L !! k = Some id /\ stallingLoadIdx x = lp k.

Section Keeps.
Context (m : gmap Z Inst) (id : Z) (i i' : Inst) (Hi : m !! id = Some i).

Lemma load_ok_keeps P lp sp E k j a : keeps P E id i i' -> load_ok lp sp m E k j a ->
  exists b, load_ok lp sp (<[id := i']> m) E k j b.
Proof.
  intros Hk [Hj ? ? ? Ho]. pose proof (sn_insert m id i i' Hi (k_seq _ _ _ _ _ Hk)) as Hsn.
  assert (Hos : forall b, seqNum b = seqNum a -> sqIdx b = sqIdx a -> older_stores sp m E a -> older_stores sp (<[id := i']> m) E b).
  { intros b Hs Hq [H1 H2]. split; [intros e He Hc; rewrite Hsn, Hs; by apply H1|]. rewrite (older_ext m _ _ _ Hsn), Hs, Hq. done. }
  destruct (decide (j = id)) as [->|Hne].
  - rewrite Hi in Hj. injection Hj as <-. exists i'. destruct Hk. split; try congruence; [by rewrite lookup_insert_eq|].
    intros Hx. apply Hos; [done..|]. apply Ho. destruct (has i DynInst.Executed) eqn:Ex; [|done]. by rewrite k_exec0 in Hx.
  - exists a. split; try done; [by rewrite lookup_insert_ne|]. intros Hx. apply Hos; [done..|by apply Ho].
Qed.

Lemma store_ok_keeps P lp sp blk E L w C k e j a : keeps P E id i i' -> e ∈ E -> store_ok lp sp blk m L w C k e j a ->
  exists b, store_ok lp sp blk (<[id := i']> m) L w C k e j b.
Proof.
  intros Hk He []. pose proof (sn_insert m id i i' Hi (k_seq _ _ _ _ _ Hk)) as Hsn.
  destruct (decide (j = id)) as [->|Hne].
  - rewrite Hi in t_get0. injection t_get0 as <-. exists i'. destruct Hk.
    split; rewrite ?k_seq0, ?k_sc0, ?(older_ext m _ _ _ Hsn) by done; try congruence; try done; [by rewrite lookup_insert_eq|..].
    + intros Hs. destruct (t_written0 Hs) as (Hv & ? & ? & rq & ? & ? & ? & ?). destruct (k_eff0 e He t_inst0 Hs Hv) as [? ->].
      split; [done|]. split; [lia|]. split; [done|]. by exists rq.
    + intros Hc. rewrite (k_live0 e) by done. by apply t_live0.
    + intros Hc. rewrite k_lq0. by apply t_younger0.
    + intros Hc. by apply k_smem0, t_memData0.
    + intros Hc. by apply k_mem0, t_mem0.
  - exists a. split; rewrite ?(older_ext m _ _ _ Hsn) by done; try done. by rewrite lookup_insert_ne.
Qed.

Lemma stall_ok_keeps x lp L E : keeps (stalling x lp L id) E id i i' -> stall_ok x lp m L -> stall_ok x lp (<[id := i']> m) L.
Proof.
  intros Hk Hs Hst. destruct (Hs Hst) as (k & j & a & Hj & Hp & Ha & Hm & Hx & Hn). destruct (decide (j = id)) as [->|Hne].
  - rewrite Hi in Ha. injection Ha as <-. exists k, id, i'. destruct Hk. destruct k_stall0 as [Em Ex]; [split; eauto|].
    rewrite lookup_insert_eq, Em, Ex, k_seq0. done.
  - exists k, j, a. by rewrite lookup_insert_ne.
Qed.

Lemma flight_keeps P sp rp blk st nx h E w C : keeps P E id i i' ->
  flight_ok sp rp blk m st nx h E w C -> flight_ok sp rp blk (<[id := i']> m) st nx h E w C.
Proof.
  intros Hk []. pose proof (sn_insert m id i i' Hi (k_seq _ _ _ _ _ Hk)) as Hsn. destruct Hk. split; try done.
  - intros p x Hx. destruct (f_states0 p x Hx) as [? ? (a & Ha & Hm & Hs)]. split; [done..|]. destruct (decide (ss_inst x = id)) as [E1|Hne].
    + subst id. exists i'. rewrite lookup_insert_eq. rewrite Hi in Ha. injection Ha as <-. rewrite k_store0. auto.
    + exists a. by rewrite lookup_insert_ne.
  - intros j pkt d Hin. destruct (f_events0 j pkt d Hin) as [(a & Ha & Hm) Hp]. split; [|done]. destruct (decide (j = id)) as [->|Hne].
    + exists i'. rewrite lookup_insert_eq. rewrite Hi in Ha. injection Ha as <-. auto.
    + exists a. by rewrite lookup_insert_ne.
  - intros j a Ha Hs Hm. destruct (decide (j = id)) as [->|Hne].
    + rewrite lookup_insert_eq in Ha. injection Ha as <-. rewrite k_store0 in Hs.
      assert (Hm' : memData i <> None) by (intros E1; by rewrite k_smem0 in Hm). rewrite k_sqd0 by done. by eapply f_squashed0.
    + rewrite lookup_insert_ne in Ha by done. by eapply f_squashed0.
  - rewrite (fmap_sn m _ _ Hsn). done.
  - intros j Hj. destruct (f_sent0 j Hj) as [(a & Ha & Hc) Hlt]. split; [|intros k e Hk He; rewrite !Hsn; by eapply Hlt].
    destruct (decide (j = id)) as [->|Hne].
    + exists i'. rewrite lookup_insert_eq. rewrite Hi in Ha. injection Ha as <-. by rewrite k_seq0, k_sc0.
    + exists a. by rewrite lookup_insert_ne.
Qed.
End Keeps.

Lemma Inv_upd s L E w C id i f : Inv s L E w C -> insts (world s) !! id = Some i ->
  keeps (stalling (stall (unit_ s)) (loadPos s) L id) E id i (f i) ->
  upd s id f = Ok (set_world s (w_insts (world s) (<[id := f i]> (insts (world s))))) /\
  Inv (set_world s (w_insts (world s) (<[id := f i]> (insts (world s))))) L E w C.
Proof.
  intros [] Hi Hk. split; [unfold upd, get; by rewrite Hi|]. pose proof (sn_insert _ id i (f i) Hi (k_seq _ _ _ _ _ Hk)) as Hsn.
  split; try done; simpl.
  - rewrite (fmap_sn (insts (world s)) _ _ Hsn). done.
  - rewrite (fmap_sn_eid (insts (world s)) _ _ Hsn). done.
  - intros k j Hj. destruct (i_load0 k j Hj) as [a Ha]. by eapply load_ok_keeps.
  - intros k e He. destruct (i_store0 k e He) as (j & a & Ha). destruct (store_ok_keeps _ _ _ _ Hi _ _ _ _ E _ _ _ _ _ _ _ Hk (list_elem_of_lookup_2 _ _ _ He) Ha) as [b Hb]. by exists j, b.
  - by eapply stall_ok_keeps.
  - intros v Hv. destruct (i_violator0 v Hv) as [a Ha]. destruct (decide (v = id)) as [->|Hne]; [by rewrite lookup_insert_eq|].
    rewrite lookup_insert_ne by done. by exists a.
  - by eapply flight_keeps.
Qed.
