(* ===== verification/LsqOps.v ===== *)
(** * The operations of the load/store queue keep its invariant

    For each operation of [LSQUnit]: where it is called as the CPU calls it, it
    ends without a fault, and what it does to the loads, to the entries of the
    stores and to the number of stores sent. *)
From S2P Require Import Prelude EventQueue Request Packet Rob LsqUnit LsqInv.
Import LSQUnit.

(** ** Lists of entries *)
Lemma length_cons_eqb {A} (x : A) l : (Z.of_nat (length (x :: l)) =? 0) = false.
Proof. apply Z.eqb_neq. simpl. lia. Qed.
Lemma numWaiting_cons e E : numWaiting (e :: E) = numWaiting E + Z.b2z (waits e).
Proof. unfold numWaiting. rewrite filter_cons. destruct (waits e); case_decide; try done; simpl length; simpl Z.b2z; lia. Qed.
Lemma numWaiting_app E E' : numWaiting (E ++ E') = numWaiting E + numWaiting E'.
Proof. unfold numWaiting. rewrite filter_app, length_app. lia. Qed.
Lemma numWaiting_insert E k e e' : E !! k = Some e -> numWaiting (<[k := e']> E) = numWaiting E + Z.b2z (waits e') - Z.b2z (waits e).
Proof.
  intros Hk. rewrite <- (take_drop_middle _ _ _ Hk) at 2. rewrite insert_take_drop by (by eapply lookup_lt_Some).
  rewrite !numWaiting_app, !numWaiting_cons. lia.
Qed.
Lemma fmap_insert_same {B} (f : SQEntry -> B) (E : list SQEntry) (k : nat) e e' : E !! k = Some e -> f e' = f e -> f <$> <[k := e']> E = f <$> E.
Proof.
  intros Hk Hf. rewrite list_fmap_insert, Hf. apply list_insert_id. by rewrite list_lookup_fmap, Hk.
Qed.

Lemma strongly_sorted_lookup {A} (R : A -> A -> Prop) l j k x y : StronglySorted R l -> (j < k)%nat -> l !! j = Some x -> l !! k = Some y -> R x y.
Proof.
  intros Hs. revert j k. induction Hs as [|z l Hs IH Hz]; intros j k Hlt Hj Hk; [done|]. destruct k as [|k]; [lia|]. destruct j as [|j]; simpl in *.
  - injection Hj as ->. rewrite Forall_forall in Hz. apply Hz. by eapply list_elem_of_lookup_2.
  - eapply IH; [|done..]. lia.
Qed.
Lemma strongly_sorted_snoc l (x : Z) : StronglySorted Z.lt l -> (forall y, y ∈ l -> y < x) -> StronglySorted Z.lt (l ++ [x]).
Proof.
  induction 1 as [|z l Hs IH Hz]; intros Hx; simpl; [by repeat constructor|]. constructor; [apply IH; set_solver|].
  apply Forall_app. split; [done|]. constructor; [|done]. apply Hx. set_solver.
Qed.

Section Older.
Context (m : gmap Z Inst).

Lemma older_cons id ids n : older m (id :: ids) n = (if decide (sn m id < n)%Z then S (older m ids n) else older m ids n).
Proof. unfold older. rewrite filter_cons. by case_decide. Qed.
Lemma older_app ids ids' n : older m (ids ++ ids') n = (older m ids n + older m ids' n)%nat.
Proof. unfold older. by rewrite filter_app, length_app. Qed.
Lemma older_all ids n : (forall id, id ∈ ids -> sn m id < n) -> older m ids n = length ids.
Proof. intros Ha. unfold older. by rewrite filter_all. Qed.
Lemma older_none ids n : (forall id, id ∈ ids -> n <= sn m id) -> older m ids n = 0%nat.
Proof.
  induction ids as [|id ids IH]; intros Ha; [done|]. rewrite older_cons. case_decide as Hd.
  - specialize (Ha id). set_solver by lia.
  - apply IH. set_solver.
Qed.
Lemma older_le ids n : (older m ids n <= length ids)%nat.
Proof. apply length_filter. Qed.
(** In a sorted list the older ones are the first ones. *)
Lemma older_lookup ids n k id : StronglySorted Z.lt (sn m <$> ids) -> ids !! k = Some id -> (k < older m ids n)%nat <-> sn m id < n.
Proof.
  revert k. induction ids as [|x ids IH]; intros k Hs Hk; [done|]. apply StronglySorted_inv in Hs as [Hs Hx]. rewrite older_cons.
  destruct k as [|k]; simpl in Hk.
  - injection Hk as ->. case_decide; [split; [done|lia]|]. split; [|done]. intros Ho. exfalso.
    rewrite older_none in Ho; [lia|]. intros y Hy. rewrite Forall_forall in Hx. specialize (Hx (sn m y)).
    assert (sn m id < sn m y); [|lia]. apply Hx. apply list_elem_of_fmap. by exists y.
  - case_decide as Hd.
    + rewrite <- (IH k Hs Hk). lia.
    + split; [|intros Hlt; exfalso].
      * rewrite older_none; [lia|]. intros y Hy. rewrite Forall_forall in Hx. specialize (Hx (sn m y)).
        assert (sn m x < sn m y); [|lia]. apply Hx. apply list_elem_of_fmap. by exists y.
      * rewrite Forall_forall in Hx. specialize (Hx (sn m id)). assert (sn m x < sn m id); [|lia]. apply Hx. apply list_elem_of_fmap.
        exists id. split; [done|]. by eapply list_elem_of_lookup_2.
Qed.
End Older.

(** No two entries are of the same store. *)
Lemma Inv_sn_inj s L E w C j k x y : Inv s L E w C -> E !! j = Some x -> E !! k = Some y -> inst x = inst y -> j = k.
Proof.
  intros H Hj Hk Hi. destruct (Nat.lt_trichotomy j k) as [Hlt|[->|Hlt]]; [|done|]; exfalso.
  - pose proof (strongly_sorted_lookup _ _ j k _ _ (i_ssorted _ _ _ _ _ H) Hlt ltac:(by rewrite list_lookup_fmap, Hj) ltac:(by rewrite list_lookup_fmap, Hk)) as Hl.
    simpl in Hl. unfold eid in Hl. rewrite Hi in Hl. lia.
  - pose proof (strongly_sorted_lookup _ _ k j _ _ (i_ssorted _ _ _ _ _ H) Hlt ltac:(by rewrite list_lookup_fmap, Hk) ltac:(by rewrite list_lookup_fmap, Hj)) as Hl.
    simpl in Hl. unfold eid in Hl. rewrite Hi in Hl. lia.
Qed.

(** ** Status bits *)
Lemma keeps_status P E id i st : (P -> st <> DynInst.Executed) -> (st = DynInst.Squashed -> isStore i = true -> memData i = None) ->
  (st = DynInst.Squashed -> forall e, e ∈ E -> inst e = Some id -> canWB e = false) -> keeps P E id i (set_dyn (DynInst.set st) i).
Proof.
  intros He Hs Hl. split; unfold has; simpl; try done; try rewrite !DynInst.has_set.
  - intros ->. apply orb_true_r.
  - intros Hst Hm. case_bool_decide as E1; [|done]. by rewrite Hs in Hm.
  - intros e Hin Hid Hc. case_bool_decide as E1; [|done]. by rewrite (Hl E1 e) in Hc.
  - intros Hp. rewrite bool_decide_eq_false_2; [done|]. by apply He.
Qed.
Lemma keeps_reset P E id i : keeps P E id i (set_dyn (DynInst.reset DynInst.Issued) i).
Proof. split; unfold has; simpl; try done; rewrite ?DynInst.has_reset; simpl; rewrite ?andb_true_r; done. Qed.
Lemma Inv_status s L E w C id i st : Inv s L E w C -> insts (world s) !! id = Some i ->
  (stalling (stall (unit_ s)) (loadPos s) L id -> st <> DynInst.Executed) -> (st = DynInst.Squashed -> isStore i = true -> memData i = None) ->
  (st = DynInst.Squashed -> forall e, e ∈ E -> inst e = Some id -> canWB e = false) ->
  exists s', set_status s id st = Ok s' /\ Inv s' L E w C /\ s' = set_world s (w_insts (world s) (<[id := set_dyn (DynInst.set st) i]> (insts (world s)))).
Proof.
  intros H Hi H1 H2 H3. destruct (Inv_upd s L E w C id i _ H Hi (keeps_status _ E id i st H1 H2 H3)) as [Hu Hv]. eauto.
Qed.

Lemma Inv_mono s L E w C C' : Inv s L E w C -> C <= C' -> Inv s L E w C'.
Proof.
  intros [] HC. split; try done.
  - intros k e He. destruct (i_store k e He) as (id & i & []). exists id, i. split; try done. intros Hc. destruct (t_can Hc); [left; lia|by right].
  - destruct i_flight. split; try done. intros id Hid. destruct (f_sent id Hid) as [(i & Hi & Hc) ?]. split; [|done]. exists i. split; [done|].
    destruct Hc; [left; lia|by right].
Qed.

(** ** Commit of loads *)
Lemma loadPos_cons s L E w C : Inv s L E w C -> L <> [] -> loadPos s 0 = loadHead (lqs s) /\ (forall k,
  pos (LQEntries (lqs s)) (incrIdx (LQEntries (lqs s)) (loadHead (lqs s))) k = loadPos s (S k)).
Proof.
  intros [] _. pose proof (r_head _ _ _ _ _ i_lq) as Hh. pose proof (r_n _ _ _ _ _ i_lq) as Hn. unfold loadPos. split; [by apply pos_0|].
  intros k. rewrite <- (pos_0 _ _ Hh) at 1. rewrite incrIdx_pos by done. by rewrite pos_pos.
Qed.

Lemma commitLoad_ok s id L E w C i : Inv s (id :: L) E w C -> insts (world s) !! id = Some i -> has i DynInst.Executed = true ->
  (forall e, e ∈ E -> canWB e = false -> sn (insts (world s)) id < sn (insts (world s)) (eid e)) ->
  exists s', commitLoad s = Ok s' /\ Inv s' L E w C /\ world s' = world s.
Proof.
  intros H Hi Hx Hy. destruct (loadPos_cons _ _ _ _ _ H ltac:(done)) as [H0 HS]. destruct H. unfold commitLoad.
  rewrite <- H0. unfold loadPos. rewrite (ring_vget _ _ _ _ _ 0 (Some id) i_lq ltac:(done)). cbn [mbind res_bind assert_ptr].
  rewrite vset_lt by (by eapply ring_slot). cbn [mbind res_bind]. eexists. split; [reflexivity|]. split; [|done].
  assert (Hp : forall k, pos (LQEntries (lqs s)) (incrLdIdx s (pos (LQEntries (lqs s)) (loadHead (lqs s)) 0)) k = loadPos s (S k)).
  { intros k. unfold incrLdIdx. change (pos (LQEntries (lqs s)) (loadHead (lqs s)) 0) with (loadPos s 0). rewrite H0. apply HS. }
  split; simpl; try done.
  - change (pos (LQEntries (lqs s)) (loadHead (lqs s)) 0) with (loadPos s 0). rewrite H0. by eapply ring_pop_clear.
  - simpl in i_loads. lia.
  - by apply StronglySorted_inv in i_lsorted as [? _].
  - intros k j Hj. destruct (i_load (S k) j Hj) as [a []]. exists a. split; try done. rewrite l_idx. symmetry. apply Hp.
  - intros k e He. destruct (i_store k e He) as (j & a & []). exists j, a. split; try done. intros Hc. rewrite t_younger by done.
    rewrite older_cons, decide_True; [symmetry; apply Hp|]. rewrite <- (sn_get _ _ _ t_get). unfold eid in Hy. specialize (Hy e).
    rewrite t_inst in Hy. apply Hy; [by eapply list_elem_of_lookup_2|done].
  - intros Hs. destruct (i_stall Hs) as (k & j & a & Hj & Hp' & Ha & Hm & Hx' & Hn). destruct k as [|k].
    + injection Hj as <-. congruence.
    + exists k, j, a. split; [done|]. split; [|done]. rewrite Hp'. symmetry. apply Hp.
Qed.

Lemma filter_sorted_all (m : gmap Z Inst) n id (L : list Z) : StronglySorted Z.lt (sn m <$> id :: L) -> n < sn m id ->
  filter (fun x => n < sn m x) (id :: L) = id :: L.
Proof.
  intros Hs Hn. apply filter_all. intros x [->|Hx]%elem_of_cons; [done|]. apply StronglySorted_inv in Hs as [_ Hf].
  rewrite Forall_forall in Hf. specialize (Hf (sn m x)). etrans; [exact Hn|]. apply Hf. apply list_elem_of_fmap. by exists x.
Qed.

Lemma commitLoads_loop_ok n L : forall fuel s E w C, Inv s L E w C -> (length L < fuel)%nat ->
  (forall id i, id ∈ L -> insts (world s) !! id = Some i -> seqNum i <= n -> has i DynInst.Executed = true) ->
  (forall e, e ∈ E -> sn (insts (world s)) (eid e) <= n -> canWB e = true) ->
  exists s', commitLoads_loop fuel s n = Ok s' /\ Inv s' (filter (fun id => n < sn (insts (world s)) id) L) E w C /\ world s' = world s.
Proof.
  induction L as [|id L IH]; intros fuel s E w C H Hf Hl Hs; (destruct fuel as [|fuel]; [simpl in Hf; lia|]); cbn [commitLoads_loop].
  - rewrite (i_loads _ _ _ _ _ H). cbn. by exists s.
  - rewrite (i_loads _ _ _ _ _ H). rewrite length_cons_eqb.
    destruct (loadPos_cons _ _ _ _ _ H ltac:(done)) as [H0 _]. unfold load_at. rewrite <- H0. unfold loadPos.
    rewrite (ring_vget _ _ _ _ _ 0 (Some id) (i_lq _ _ _ _ _ H) ltac:(done)). cbn [mbind res_bind deref].
    destruct (i_load _ _ _ _ _ H 0 id ltac:(done)) as [i Hi]. destruct Hi as [Hi _ _ _ _]. unfold seq, get. rewrite Hi. cbn [mbind res_bind deref].
    destruct (Z.leb_spec (seqNum i) n) as [Hle|Hgt].
    + destruct (commitLoad_ok s id L E w C i H Hi) as (s1 & -> & H1 & Hw); [apply (Hl id); [set_solver|done..]|..].
      { intros e He Hc. apply Z.lt_nge. intros Hle'. rewrite (Hs e He) in Hc; [done|]. rewrite (sn_get _ _ _ Hi) in Hle'. lia. }
      cbn [mbind res_bind]. destruct (IH fuel s1 E w C H1) as (s2 & -> & H2 & Hw2); rewrite ?Hw; [simpl in Hf; lia| |done|].
      { intros j a Hj. apply Hl. set_solver. }
      exists s2. rewrite Hw in H2, Hw2. rewrite filter_cons_False by (rewrite (sn_get _ _ _ Hi); lia). done.
    + exists s. split; [done|]. rewrite filter_sorted_all; [done|by apply H|by rewrite (sn_get _ _ _ Hi)].
Qed.

Lemma commitLoads_ok s L E w C n : Inv s L E w C ->
  (forall id i, id ∈ L -> insts (world s) !! id = Some i -> seqNum i <= n -> has i DynInst.Executed = true) ->
  (forall e, e ∈ E -> sn (insts (world s)) (eid e) <= n -> canWB e = true) ->
  exists s', commitLoads s n = Ok s' /\ Inv s' (filter (fun id => n < sn (insts (world s)) id) L) E w C /\ world s' = world s.
Proof.
  intros H Hl Hs. unfold commitLoads. assert (Hf : (length L < S (length (loadQueue (lqs s))))%nat).
  { pose proof (i_lq _ _ _ _ _ H) as [Hlen _ _ Hfree _ _]. rewrite length_fmap in Hfree. lia. }
  rewrite (i_loads _ _ _ _ _ H). destruct L as [|id L].
  - cbn [length Z.of_nat Z.eqb mbind res_bind]. by apply commitLoads_loop_ok.
  - rewrite length_cons_eqb.
    destruct (loadPos_cons _ _ _ _ _ H ltac:(done)) as [H0 _]. rewrite <- H0. unfold loadPos.
    rewrite (ring_vget _ _ _ _ _ 0 (Some id) (i_lq _ _ _ _ _ H) ltac:(done)). cbn [mbind res_bind assert_ptr]. by apply commitLoads_loop_ok.
Qed.

(** ** A change of one entry *)
Definition with_entry (s : t) (k : nat) (e : SQEntry) (n : Z) : t :=
  let q := sqs s in
  set_sq s (mkSQ (<[Z.to_nat (storePos s k) := e]> (storeQueue q)) (SQEntries q) (stores q) n (storeHead q) (storeWBIdx q) (storeTail q)).

Lemma entry_ok s L E w C k e : Inv s L E w C -> E !! k = Some e -> entry s (storePos s k) = Ok e.
Proof. intros H He. unfold entry, storePos. eapply ring_vget; [by apply H|done]. Qed.
Lemma put_entry_ok s L E w C k e f : Inv s L E w C -> E !! k = Some e ->
  put_entry s (storePos s k) f = Ok (with_entry s k (f e) (storesToWB (sqs s))).
Proof.
  intros H He. unfold put_entry. rewrite (entry_ok _ _ _ _ _ _ _ H He). cbn [mbind res_bind].
  rewrite vset_lt; [done|]. unfold storePos. eapply ring_slot. by apply H.
Qed.

(** What an entry may become between its insertion and its sending. *)
Record entry_step (m : gmap Z Inst) (L : list Z) (C : Z) (e e' : SQEntry) : Prop := mkEntryStep {
  s_inst : inst e' = inst e;
  s_split : isSplit e' = isSplit e;
  s_data : length (data e') = length (data e);
  s_completed : completed e' = completed e;
  s_committed : committed e' = committed e;
  s_written : forall i, m !! eid e = Some i -> written e i -> written e' i;
  s_canWB : canWB e = true -> canWB e' = true;
  s_new : canWB e = false -> canWB e' = true -> forall i, m !! eid e = Some i ->
    (seqNum i <= C \/ isStoreConditional i = true) /\ has i DynInst.Squashed = false /\
    forall j a, j ∈ L -> m !! j = Some a -> has a DynInst.Executed = false -> seqNum i < seqNum a
}.

Lemma Inv_entry s L E w C k e e' : Inv s L E w C -> E !! k = Some e -> entry_step (insts (world s)) L C e e' ->
  Inv (with_entry s k e' (numWaiting (<[k := e']> E))) L (<[k := e']> E) w C.
Proof.
  intros [] Hk []. assert (Heid : eid e' = eid e) by (unfold eid; by rewrite s_inst0).
  destruct (i_store k e Hk) as (id & i & Hok). pose proof (t_inst _ _ _ _ _ _ _ _ _ _ _ Hok) as Hid. pose proof (t_get _ _ _ _ _ _ _ _ _ _ _ Hok) as Hi.
  assert (Hei : eid e = id) by (unfold eid; by rewrite Hid).
  assert (Hlk : forall j x, <[k := e']> E !! j = Some x -> (j = k /\ x = e') \/ (j <> k /\ E !! j = Some x)).
  { intros j x Hj. apply list_lookup_insert_Some in Hj. naive_solver. }
  split; simpl; rewrite ?length_insert; try done.
  - by eapply ring_update.
  - rewrite (fmap_insert_same (sn (insts (world s)) ∘ eid) E k e e' Hk); [done|]. simpl. by rewrite Heid.
  - intros j l Hl. destruct (i_load j l Hl) as [a []]. exists a. split; try done. intros Hx. destruct (l_older Hx) as [H1 H2].
    split; [|by rewrite (fmap_insert_same eid E k e e' Hk)]. intros x Hin Hc.
    apply list_elem_of_lookup in Hin as [j' Hj']. destruct (Hlk j' x Hj') as [[-> ->]|[Hne Hj'']].
    + destruct (canWB e) eqn:Ec; [rewrite Heid; apply H1; [by eapply list_elem_of_lookup_2|done]|].
      rewrite Heid, Hei, (sn_get _ _ _ Hi). destruct (s_new0 eq_refl Hc i) as (_ & _ & Hn); [by rewrite Hei|].
      eapply Hn; [by eapply list_elem_of_lookup_2|done..].
    + apply H1; [by eapply list_elem_of_lookup_2|done].
  - intros j x Hj. destruct (Hlk j x Hj) as [[-> ->]|[Hne Hj']]; [|by apply i_store]. exists id, i. destruct Hok.
    split; rewrite ?s_inst0, ?s_completed0, ?s_committed0, ?s_split0, ?s_data0 by done; try done.
    + apply s_written0; [by rewrite Hei|done].
    + intros Hc. destruct (canWB e) eqn:Ec; [by apply t_can|]. apply (s_new0 eq_refl Hc i). by rewrite Hei.
    + intros Hc. destruct (canWB e) eqn:Ec; [by apply t_live|]. apply (s_new0 eq_refl Hc i). by rewrite Hei.
    + intros Hlt. auto.
    + intros Hc. apply t_younger. destruct (canWB e) eqn:Ec; [|done]. by rewrite s_canWB0 in Hc.
  - destruct i_flight. split; try done.
    + intros p x Hx Hl Ha. destruct (f_awaits p x Hx Hl Ha) as (j & y & Hj & Hy & ? & ? & ? & ?). destruct (decide (j = k)) as [->|Hne].
      * rewrite Hk in Hy. injection Hy as <-. exists k, e'. rewrite list_lookup_insert_eq by (by eapply lookup_lt_Some). repeat split; try done; congruence.
      * exists j, y. by rewrite list_lookup_insert_ne.
    + destruct f_retry as [Hb Hr]. split; [done|]. intros pkt Hp. destruct (Hr pkt Hp) as (Hcmd & p & x & y & ? & ? & ? & Hy & ? & ? & ? & ? & ? & ?).
      split; [done|]. destruct (decide (w = k)) as [->|Hne].
      * rewrite Hk in Hy. injection Hy as <-. exists p, x, e'. rewrite list_lookup_insert_eq by (by eapply lookup_lt_Some).
        repeat split; try done; try congruence. by apply s_canWB0.
      * exists p, x, y. by rewrite list_lookup_insert_ne.
    + intros j Hj. destruct (f_sent j Hj) as [Hi' Hlt]. split; [done|]. intros q x Hq Hx. destruct (Hlk q x Hx) as [[-> ->]|[Hne Hx']].
      * rewrite Heid. by eapply Hlt.
      * by eapply Hlt.
Qed.

(** ** Commit of stores *)

(** What committing the stores up to [n] makes of an entry. *)
Definition mark (m : gmap Z Inst) (n : Z) (e : SQEntry) : SQEntry :=
  if canWB e then e else if decide (sn m (eid e) <= n) then set_canWB true e else e.

Lemma store_at s L E w C k e : Inv s L E w C -> E !! k = Some e -> exists id i,
  inst e = Some id /\ eid e = id /\ insts (world s) !! id = Some i /\ seq s id = Ok (seqNum i) /\ get s id = Ok i /\
  store_ok (loadPos s) (storePos s) (isStoreBlocked (blocked (unit_ s))) (insts (world s)) L w C k e id i.
Proof.
  intros H He. destruct (i_store _ _ _ _ _ H k e He) as (id & i & Hok). exists id, i. destruct Hok as [Hid Hi].
  unfold seq, get, eid. rewrite Hid, Hi. done.
Qed.
Lemma incrStIdx_ok s L E w C k : Inv s L E w C -> incrStIdx s (storePos s k) = storePos s (S k).
Proof. intros H. apply incrIdx_pos. eapply r_n. by apply H. Qed.
Lemma storePos_tail s L E w C k : Inv s L E w C -> (k <= length E)%nat -> (storePos s k =? storeTail (sqs s)) = bool_decide (k = length E).
Proof. intros H Hk. eapply ring_tail_eq; [by apply H|done]. Qed.

Lemma commitStores_loop_ok n : forall fuel k s L E w C, Inv s L E w C -> n <= C -> (k <= length E)%nat -> (length E - k < fuel)%nat ->
  (forall j a, j ∈ L -> insts (world s) !! j = Some a -> has a DynInst.Executed = false -> n < seqNum a) ->
  (forall e a, e ∈ E -> insts (world s) !! eid e = Some a -> seqNum a <= n -> has a DynInst.Squashed = false) ->
  exists s', commitStores_loop fuel s n (storePos s k) = Ok s' /\ Inv s' L (take k E ++ (mark (insts (world s)) n <$> drop k E)) w C /\
             world s' = world s.
Proof.
  induction fuel as [|fuel IH]; intros k s L E w C H Hn Hk Hf Hl Hq; [lia|]. cbn [commitStores_loop].
  rewrite (storePos_tail _ _ _ _ _ _ H Hk). case_bool_decide as Ek.
  - exists s. subst k. rewrite drop_all, app_nil_r, firstn_all. done.
  - destruct (lookup_lt_is_Some_2 E k) as [e He]; [lia|]. rewrite (entry_ok _ _ _ _ _ _ _ H He). cbn [mbind res_bind].
    destruct (store_at _ _ _ _ _ _ _ H He) as (id & i & Hid & Heid & Hi & Hsq & _ & Hok). rewrite Hid. cbn [assert_ptr mbind res_bind].
    rewrite (drop_S _ _ _ He). cbn [fmap list_fmap]. unfold mark at 1. destruct (canWB e) eqn:Ec.
    + rewrite (incrStIdx_ok _ _ _ _ _ _ H). destruct (IH (S k) s L E w C H Hn) as (s' & -> & H' & Hw); [lia..|done|done|].
      exists s'. rewrite (take_S_r _ _ _ He), <- app_assoc in H'. done.
    + rewrite Hsq. cbn [mbind res_bind]. destruct (Z.ltb_spec n (seqNum i)) as [Hlt|Hge].
      * exists s. split; [done|]. split; [|done]. rewrite decide_False by (rewrite Heid, (sn_get _ _ _ Hi); lia).
        replace (mark (insts (world s)) n <$> drop (S k) E) with (drop (S k) E).
        -- rewrite <- (drop_S _ _ _ He), take_drop. done.
        -- symmetry. rewrite <- (list_fmap_id (drop (S k) E)) at 2. apply list_fmap_ext. intros j x Hj. rewrite lookup_drop in Hj.
           unfold mark. destruct (canWB x); [done|]. rewrite decide_False; [done|]. apply Z.lt_nge. etrans; [exact Hlt|].
           rewrite <- (sn_get _ _ _ Hi), <- Heid. pose proof (i_ssorted _ _ _ _ _ H) as Hs. eapply (strongly_sorted_lookup _ _ k (S k + j) _ _ Hs).
           ++ lia.
           ++ by rewrite list_lookup_fmap, He.
           ++ by rewrite list_lookup_fmap, Hj.
      * rewrite (put_entry_ok _ _ _ _ _ _ _ _ H He). cbn [mbind res_bind]. set (e' := set_canWB true e).
        assert (Hst : entry_step (insts (world s)) L C e e').
        { split; try done. intros _ _ a Ha. rewrite Heid, Hi in Ha. injection Ha as <-. split; [left; lia|]. split.
          - apply (Hq e); [by eapply list_elem_of_lookup_2|by rewrite Heid|lia].
          - intros j a Hj Ha Hx. specialize (Hl j a Hj Ha Hx). lia. }
        pose proof (Inv_entry _ _ _ _ _ _ _ _ H He Hst) as H1.
        assert (Hnum : numWaiting (<[k := e']> E) = storesToWB (sqs s) + 1).
        { rewrite (numWaiting_insert _ _ _ _ He), (i_toWB _ _ _ _ _ H). unfold waits, e'. simpl. rewrite Ec.
          destruct (completed e) eqn:Ecp; [|simpl; lia]. pose proof (t_sent _ _ _ _ _ _ _ _ _ _ _ Hok (t_completed _ _ _ _ _ _ _ _ _ _ _ Hok Ecp)). congruence. }
        rewrite Hnum in H1. pose proof (lookup_lt_Some _ _ _ He) as Hlen.
        assert (Hs1 : set_storesToWB (with_entry s k e' (storesToWB (sqs s))) (storesToWB (sqs s) + 1) = with_entry s k e' (storesToWB (sqs s) + 1)) by done.
        change (storesToWB (sqs (with_entry s k e' (storesToWB (sqs s))))) with (storesToWB (sqs s)). rewrite Hs1.
        set (s1 := with_entry s k e' (storesToWB (sqs s) + 1)) in *. change (storePos s k) with (storePos s1 k).
        rewrite (incrStIdx_ok _ _ _ _ _ _ H1). destruct (IH (S k) s1 L _ w C H1 Hn) as (s' & -> & H' & Hw); rewrite ?length_insert; [lia..|done| |].
        { intros y a Hy. apply list_elem_of_lookup in Hy as [j Hj]. apply list_lookup_insert_Some in Hj as [(-> & <- & _)|[_ Hj]]; [|apply Hq; by eapply list_elem_of_lookup_2].
          change (eid e') with (eid e). apply Hq. by eapply list_elem_of_lookup_2. }
        exists s'. split; [done|]. split; [|done]. rewrite decide_True by (rewrite Heid, (sn_get _ _ _ Hi); lia).
        rewrite (take_S_r _ k e') in H' by (by apply list_lookup_insert_eq). rewrite take_insert_ge, drop_insert_lt, <- app_assoc in H' by lia. done.
Qed.

Lemma commitStores_ok s L E w C n : Inv s L E w C ->
  (forall j a, j ∈ L -> insts (world s) !! j = Some a -> has a DynInst.Executed = false -> n < seqNum a) ->
  (forall e a, e ∈ E -> insts (world s) !! eid e = Some a -> seqNum a <= n -> has a DynInst.Squashed = false) ->
  exists s', commitStores s n = Ok s' /\ Inv s' L (mark (insts (world s)) n <$> E) w (Z.max C n) /\ world s' = world s.
Proof.
  intros H Hl Hq. apply (Inv_mono _ _ _ _ _ (Z.max C n)) in H; [|lia]. unfold commitStores.
  assert (H0 : storePos s 0 = storeHead (sqs s)) by (apply pos_0; eapply r_head; by apply H).
  assert (Hf : (length E - 0 < S (length (storeQueue (sqs s))))%nat).
  { pose proof (i_sq _ _ _ _ _ H) as [Hlen _ _ Hfree _ _]. lia. }
  rewrite (i_stores _ _ _ _ _ H), <- H0. destruct E as [|e E].
  - cbn [length Z.of_nat Z.eqb mbind res_bind]. apply (commitStores_loop_ok n _ 0 s L [] w _ H); [lia|simpl; lia|done..].
  - rewrite length_cons_eqb, (entry_ok _ _ _ _ _ 0 e H) by done. cbn [mbind res_bind].
    destruct (store_at _ _ _ _ _ 0 e H ltac:(done)) as (id & i & -> & _). cbn [mbind res_bind assert_ptr].
    apply (commitStores_loop_ok n _ 0 s L (e :: E) w _ H); [lia|simpl; lia|done..].
Qed.

(** ** Insertion *)

(** ** A new instruction *)
Definition with_inst (s : t) (id : Z) (i : Inst) : t := set_world s (w_insts (world s) (<[id := i]> (insts (world s)))).

Lemma older_ext_in m m' ids n : (forall x, x ∈ ids -> sn m' x = sn m x) -> older m' ids n = older m ids n.
Proof.
  induction ids as [|x ids IH]; intros He; [done|]. rewrite !older_cons, He by (by left). rewrite IH; [done|]. intros y Hy. apply He. by right.
Qed.

Lemma Inv_new s L E w C id i : Inv s L E w C -> insts (world s) !! id = None -> memData i = None -> Inv (with_inst s id i) L E w C.
Proof.
  intros H Hid Hm. set (m := insts (world s)) in *.
  assert (Hsn : forall x, x <> id -> sn (<[id := i]> m) x = sn m x) by (intros x Hx; unfold sn; by rewrite lookup_insert_ne).
  assert (Hdom : forall x a, m !! x = Some a -> x <> id) by (intros x a Ha ->; congruence).
  assert (Hget : forall x a, m !! x = Some a -> <[id := i]> m !! x = Some a) by (intros x a Ha; rewrite lookup_insert_ne; [done|]; intros <-; congruence).
  assert (HL : forall x, x ∈ L -> x <> id).
  { intros x Hx. apply list_elem_of_lookup in Hx as [k Hk]. destruct (i_load _ _ _ _ _ H k x Hk) as [a []]. by eapply Hdom. }
  assert (HE : forall e, e ∈ E -> eid e <> id).
  { intros e Hx. apply list_elem_of_lookup in Hx as [k Hk]. destruct (i_store _ _ _ _ _ H k e Hk) as (j & a & []). unfold eid. rewrite t_inst. by eapply Hdom. }
  assert (Ho : forall n, older (<[id := i]> m) (eid <$> E) n = older m (eid <$> E) n).
  { intros n. apply older_ext_in. intros x (e & -> & He)%list_elem_of_fmap. by apply Hsn, HE. }
  assert (Hol : forall n, older (<[id := i]> m) L n = older m L n).
  { intros n. apply older_ext_in. intros x Hx. by apply Hsn, HL. }
  destruct H. split; try done; simpl; fold m.
  - replace (sn (<[id := i]> m) <$> L) with (sn m <$> L); [done|]. apply list_fmap_ext. intros k x Hk. symmetry. apply Hsn, HL. by eapply list_elem_of_lookup_2.
  - replace (sn (<[id := i]> m) ∘ eid <$> E) with (sn m ∘ eid <$> E); [done|]. apply list_fmap_ext. intros k x Hk. symmetry. apply Hsn, HE. by eapply list_elem_of_lookup_2.
  - intros k x Hk. destruct (i_load k x Hk) as [a []]. exists a. split; try done; [by apply Hget|]. intros Hx. destruct (l_older Hx) as [H1 H2].
    split; [|by rewrite Ho]. intros e He Hc. rewrite Hsn by auto. by apply H1.
  - intros k e Hk. destruct (i_store k e Hk) as (j & a & []). exists j, a. split; try done; [by apply Hget|]. by rewrite Hol.
  - intros Hst. destruct (i_stall Hst) as (k & j & a & ? & ? & Ha & ?). exists k, j, a. split_and!; try naive_solver.
  - intros v Hv. destruct (i_violator v Hv) as [a Ha]. exists a. by apply Hget.
  - destruct i_flight. fold m in f_states, f_events, f_squashed, f_sorted, f_sent. split; try done.
    + intros p x Hx. destruct (f_states p x Hx) as [? ? (a & Ha & ?)]. split; try done. exists a. split; [by apply Hget|done].
    + intros j pkt d Hin. destruct (f_events j pkt d Hin) as [(a & Ha & ?) ?]. split; [|done]. exists a. split; [by apply Hget|done].
    + intros j a Ha Hs Hma. destruct (decide (j = id)) as [->|Hne]; [rewrite lookup_insert_eq in Ha; congruence|].
      rewrite lookup_insert_ne in Ha by done. by eapply f_squashed.
    + assert (Hs : forall x, x ∈ sent (trace (world s)) -> x <> id).
      { intros x Hx. destruct (f_sent x Hx) as [(a & Ha & _) _]. by eapply Hdom. }
      replace (sn (<[id := i]> m) <$> sent (trace (world s))) with (sn m <$> sent (trace (world s))); [done|].
      apply list_fmap_ext. intros k x Hk. symmetry. apply Hsn, Hs. by eapply list_elem_of_lookup_2.
    + intros x Hx. destruct (f_sent x Hx) as [(a & Ha & ?) Hlt]. split; [exists a; split; [by apply Hget|done]|]. intros k e Hk He.
      rewrite !Hsn; [by eapply Hlt|apply HE; by eapply list_elem_of_lookup_2|by eapply Hdom].
Qed.

(** ** A load at the tail *)
Lemma Inv_push_load s L E w C id i : Inv s L E w C -> insts (world s) !! id = Some i -> isLoad i = true -> isStore i = false ->
  has i DynInst.Executed = false -> lqIdx i = loadTail (lqs s) -> sqIdx i = (if stores (sqs s) =? 0 then -1 else storeTail (sqs s)) ->
  (forall j, j ∈ L -> sn (insts (world s)) j < seqNum i) -> (forall e, e ∈ E -> sn (insts (world s)) (eid e) < seqNum i) ->
  Z.of_nat (length L) + 1 < LQEntries (lqs s) ->
  let q := lqs s in
  Inv (set_lq s (mkLQ (<[Z.to_nat (loadTail q) := Some id]> (loadQueue q)) (LQEntries q) (loads q + 1) (loadHead q) (incrLdIdx s (loadTail q)))) (L ++ [id]) E w C.
Proof.
  intros H Hi Hld Hst Hx Hlq Hsq HL HE Hf q. pose proof (i_lq _ _ _ _ _ H) as Hr. destruct H. split; simpl; try done.
  - rewrite fmap_app. apply ring_push; [done|]. by rewrite length_fmap.
  - rewrite length_app. simpl. unfold q. lia.
  - rewrite fmap_app. apply strongly_sorted_snoc; [done|]. intros y (j & -> & Hj)%list_elem_of_fmap. rewrite (sn_get _ _ _ Hi). by apply HL.
  - intros k j [Hk|[-> ->]]%lookup_snoc_Some.
    + destruct Hk as [_ Hk]. by apply i_load.
    + exists i. split; try done.
      * rewrite Hlq, (r_tail _ _ _ _ _ Hr), length_fmap. done.
      * intros _. split; [intros e He _; by apply HE|]. rewrite older_all, length_fmap.
        -- rewrite Hsq, i_stores. destruct (Z.eqb_spec (Z.of_nat (length E)) 0) as [E0|]; [left; split; [done|lia]|right].
           rewrite (r_tail _ _ _ _ _ i_sq). done.
        -- intros y (e & -> & He)%list_elem_of_fmap. by apply HE.
  - intros k e Hk. destruct (i_store k e Hk) as (j & a & []). exists j, a. split; try done. intros Hc. rewrite older_app, (older_none _ [id]), Nat.add_0_r by
      (intros y ->%list_elem_of_singleton; rewrite (sn_get _ _ _ Hi); specialize (HE e (list_elem_of_lookup_2 _ _ _ Hk)); unfold eid in HE; rewrite t_inst in HE;
       simpl in HE; rewrite (sn_get _ _ _ t_get) in HE; lia). by apply t_younger.
  - intros Hs. destruct (i_stall Hs) as (k & j & a & Hj & ?). exists k, j, a. split; [by apply lookup_app_l_Some|done].
Qed.

(** ** A store at the tail *)
Lemma Inv_push_store s L E w C id i : Inv s L E w C -> insts (world s) !! id = Some i -> isLoad i = false -> isStore i = true ->
  memData i = None -> lqIdx i = loadTail (lqs s) -> sqIdx i = storeTail (sqs s) ->
  (forall j, j ∈ L -> sn (insts (world s)) j < seqNum i) -> (forall e, e ∈ E -> sn (insts (world s)) (eid e) < seqNum i) ->
  (forall j, j ∈ sent (trace (world s)) -> sn (insts (world s)) j < seqNum i) ->
  Z.of_nat (length E) + 1 < SQEntries (sqs s) ->
  let q := sqs s in
  Inv (set_sq s (mkSQ (<[Z.to_nat (storeTail q) := new_entry id]> (storeQueue q)) (SQEntries q) (stores q + 1) (storesToWB q) (storeHead q) (storeWBIdx q)
         (incrStIdx s (storeTail q)))) L (E ++ [new_entry id]) w C.
Proof.
  intros H Hi Hld Hst Hm Hlq Hsq HL HE Hsent Hf q. pose proof (i_sq _ _ _ _ _ H) as Hr. pose proof (i_lq _ _ _ _ _ H) as Hrl. destruct H. split; simpl; try done.
  - by apply ring_push.
  - rewrite length_app. simpl. unfold q. lia.
  - rewrite length_app. lia.
  - rewrite numWaiting_app. unfold q. rewrite i_toWB. unfold numWaiting at 3. simpl. lia.
  - rewrite fmap_app. apply strongly_sorted_snoc; [done|]. intros y (e & -> & He)%list_elem_of_fmap.
    change ((sn (insts (world s)) ∘ eid) (new_entry id)) with (sn (insts (world s)) id). rewrite (sn_get _ _ _ Hi). by apply HE.
  - intros k j Hk. destruct (i_load k j Hk) as [a []]. exists a. split; try done. intros Hx. destruct (l_older Hx) as [H1 H2]. split.
    + intros e [He| ->%list_elem_of_singleton]%elem_of_app Hc; [by apply H1|done].
    + rewrite fmap_app, older_app, (older_none _ (eid <$> [new_entry id])), Nat.add_0_r; [done|]. intros y ->%list_elem_of_singleton. simpl.
      change (eid (new_entry id)) with id. rewrite (sn_get _ _ _ Hi), <- (sn_get _ _ _ l_get). specialize (HL j (list_elem_of_lookup_2 _ _ _ Hk)). lia.
  - intros k e [Hk|[-> <-]]%lookup_snoc_Some; [destruct Hk as [_ Hk]; by apply i_store|].
    exists id, i. split; try done.
    + by rewrite Hsq, (r_tail _ _ _ _ _ Hr).
    + intros Hlt. lia.
    + intros _. rewrite Hlq, (r_tail _ _ _ _ _ Hrl), length_fmap, older_all by (by apply HL). done.
  - destruct i_flight. split; try done.
    + intros p x Hx Hl Ha. destruct (f_awaits p x Hx Hl Ha) as (k & e & ? & He & ?). exists k, e. split; [done|]. split; [by apply lookup_app_l_Some|done].
    + destruct f_retry as [Hb Hr']. split; [done|]. intros pkt Hp. destruct (Hr' pkt Hp) as (? & p & x & e & ? & ? & ? & He & ?).
      split; [done|]. exists p, x, e. split_and!; try done; [by apply lookup_app_l_Some|naive_solver..].
    + intros j Hj. destruct (f_sent j Hj) as [? Hlt]. split; [done|]. intros k e Hk [He|[_ <-]]%lookup_snoc_Some; [destruct He as [_ He]; by eapply Hlt|].
      change (eid (new_entry id)) with id. rewrite (sn_get _ _ _ Hi). by apply Hsent.
Qed.

(** ** Insertion *)
Lemma upd_new s id i f : upd (with_inst s id i) id f = Ok (with_inst s id (f i)).
Proof.
  unfold upd, get, with_inst. simpl. rewrite lookup_insert_eq. cbn [mbind res_bind deref]. unfold set_world, w_insts. simpl. by rewrite insert_insert_eq.
Qed.

(** An instruction that the unit has not seen and may take. *)
Record fresh (s : t) (id : Z) (i : Inst) : Prop := mkFresh {
  n_id : insts (world s) !! id = None;
  n_mem : memData i = None;
  n_ref : isMemRef i = true;
  n_kind : isStore i = negb (isLoad i);
  n_exec : has i DynInst.Executed = false;
  n_young : forall j a, insts (world s) !! j = Some a -> seqNum a < seqNum i;
  n_room : (if isLoad i then lqFull s else sqFull s) = false
}.

Lemma not_full {A} (v : list A) n h t' (k : nat) (l : list A) : ring v n h t' l -> k = length l -> (u32 (n - 1) <=? u32 (Z.of_nat k)) = false ->
  Z.of_nat (length l) + 1 < n /\ umod (t' + 1) n = Ok (incrIdx n t') /\ (incrIdx n t' =? u32 h) = false /\ (u32 (Z.of_nat k) <? n) = true.
Proof.
  intros Hr -> Hf. pose proof (r_n _ _ _ _ _ Hr) as Hn. pose proof (r_head _ _ _ _ _ Hr) as Hh. pose proof (r_free _ _ _ _ _ Hr) as Hl.
  rewrite !uint_small in Hf by lia. apply Z.leb_gt in Hf. assert (Hroom : Z.of_nat (length l) + 1 < n) by lia. split; [done|].
  rewrite (r_tail _ _ _ _ _ Hr), incrIdx_pos by done. pose proof (pos_range n Hn h (length l)) as Hp. split_and!.
  - unfold umod. replace (n =? 0) with false by (symmetry; apply Z.eqb_neq; lia). rewrite uint_small by lia. f_equal.
    change (pos n h (length l) + 1) with (pos n h (length l) + Z.of_nat 1). change ((pos n h (length l) + Z.of_nat 1) mod n) with (pos n (pos n h (length l)) 1).
    rewrite pos_pos. f_equal. lia.
  - rewrite uint_small by lia. apply Z.eqb_neq. intros E. rewrite <- (pos_0 n h Hh) in E at 2. apply pos_inj in E; lia.
  - rewrite uint_small by lia. apply Z.ltb_lt. lia.
Qed.

Lemma Inv_seen s L E w C id i : Inv s L E w C -> fresh s id i ->
  (forall j, j ∈ L -> sn (insts (world s)) j < seqNum i) /\ (forall e, e ∈ E -> sn (insts (world s)) (eid e) < seqNum i) /\
  (forall j, j ∈ sent (trace (world s)) -> sn (insts (world s)) j < seqNum i).
Proof.
  intros H Hn. split_and!.
  - intros j Hj. apply list_elem_of_lookup in Hj as [k Hk]. destruct (i_load _ _ _ _ _ H k j Hk) as [a []]. rewrite (sn_get _ _ _ l_get). by eapply n_young.
  - intros e He. apply list_elem_of_lookup in He as [k Hk]. destruct (store_at _ _ _ _ _ _ _ H Hk) as (j & a & _ & -> & Ha & _). rewrite (sn_get _ _ _ Ha). by eapply n_young.
  - intros j Hj. destruct (f_sent _ _ _ _ _ _ _ _ _ _ (i_flight _ _ _ _ _ H) j Hj) as [(a & Ha & _) _]. rewrite (sn_get _ _ _ Ha). by eapply n_young.
Qed.

(** Indices fit into 16 bits. *)
Lemma sint16_tail {A} (v : list A) n h t' l : ring v n h t' l -> sint 16 t' = t'.
Proof.
  intros [_ Hn _ _ -> _]. pose proof (pos_range n Hn h (length l)). apply sint_small; [lia|]. change (2 ^ (16 - 1)) with (2 ^ 15). lia.
Qed.
Lemma sint16_older s L E w C : Inv s L E w C -> sint 16 (if stores (sqs s) =? 0 then -1 else storeTail (sqs s)) = if stores (sqs s) =? 0 then -1 else storeTail (sqs s).
Proof. intros H. destruct (_ =? 0); [done|]. eapply sint16_tail. by apply H. Qed.

Lemma lsq_insertLoad_ok s L E w C id i : Inv s L E w C -> fresh s id i -> isLoad i = true ->
  exists s' i', insertLoad (with_inst s id i) id = Ok s' /\ Inv s' (L ++ [id]) E w C /\ insts (world s') = <[id := i']> (insts (world s)) /\
    seqNum i' = seqNum i /\ isStore i' = isStore i /\ memData i' = None /\ trace (world s') = trace (world s).
Proof.
  intros H Hn Hld. destruct (Inv_seen _ _ _ _ _ _ _ H Hn) as (HL & HE & _). pose proof (n_room _ _ _ Hn) as Hroom. rewrite Hld in Hroom. unfold lqFull in Hroom.
  rewrite (i_loads _ _ _ _ _ H) in Hroom. destruct (not_full _ _ _ _ (length L) _ (i_lq _ _ _ _ _ H) ltac:(by rewrite length_fmap) Hroom) as (Hr & Hm & Hh & Hl).
  rewrite length_fmap in Hr.
  unfold insertLoad. change (lqs (with_inst s id i)) with (lqs s). change (sqs (with_inst s id i)) with (sqs s). rewrite Hm. cbn [mbind res_bind].
  rewrite Hh. cbn [negb c_assert mbind res_bind]. rewrite <- (i_loads _ _ _ _ _ H) in Hl. rewrite Hl. cbn [c_assert mbind res_bind]. rewrite upd_new. cbn [mbind res_bind].
  rewrite vset_lt by (rewrite (r_tail _ _ _ _ _ (i_lq _ _ _ _ _ H)); by eapply ring_slot, H). cbn [mbind res_bind].
  rewrite (sint16_older _ _ _ _ _ H), (sint16_tail _ _ _ _ _ (i_lq _ _ _ _ _ H)).
  set (i' := set_idx _ _ i). assert (H1 : Inv (with_inst s id i') L E w C) by (apply Inv_new; [done|by apply Hn|by apply Hn]).
  assert (Hne : forall x, x <> id -> sn (insts (world (with_inst s id i'))) x = sn (insts (world s)) x) by (intros x Hx; unfold sn; simpl; by rewrite lookup_insert_ne).
  eexists _, i'. split; [reflexivity|]. split; [|split_and!; try done; apply Hn]. apply (Inv_push_load _ _ _ _ _ _ i' H1); try done.
  - simpl. by rewrite lookup_insert_eq.
  - simpl. by rewrite (n_kind _ _ _ Hn), Hld.
  - apply Hn.
  - intros j Hj. destruct (decide (j = id)) as [->|Hjd]; [|rewrite Hne by done; by apply HL]. exfalso. apply list_elem_of_lookup in Hj as [k Hk].
    destruct (i_load _ _ _ _ _ H k id Hk) as [a []]. rewrite (n_id _ _ _ Hn) in l_get. done.
  - intros e He. rewrite Hne; [by apply HE|]. apply list_elem_of_lookup in He as [k Hk]. destruct (store_at _ _ _ _ _ _ _ H Hk) as (j & a & _ & -> & Ha & _).
    intros ->. rewrite (n_id _ _ _ Hn) in Ha. done.
Qed.

Lemma lsq_insertStore_ok s L E w C id i : Inv s L E w C -> fresh s id i -> isLoad i = false ->
  exists s' i', insertStore (with_inst s id i) id = Ok s' /\ Inv s' L (E ++ [new_entry id]) w C /\ insts (world s') = <[id := i']> (insts (world s)) /\
    seqNum i' = seqNum i /\ isStore i' = isStore i /\ memData i' = None /\ trace (world s') = trace (world s).
Proof.
  intros H Hn Hld. destruct (Inv_seen _ _ _ _ _ _ _ H Hn) as (HL & HE & HS). pose proof (n_room _ _ _ Hn) as Hroom. rewrite Hld in Hroom. unfold sqFull in Hroom.
  rewrite (i_stores _ _ _ _ _ H) in Hroom. destruct (not_full _ _ _ _ (length E) _ (i_sq _ _ _ _ _ H) eq_refl Hroom) as (Hr & Hm & Hh & Hl).
  unfold insertStore. change (lqs (with_inst s id i)) with (lqs s). change (sqs (with_inst s id i)) with (sqs s). rewrite Hm. cbn [mbind res_bind].
  rewrite Hh. cbn [negb c_assert mbind res_bind]. rewrite <- (i_stores _ _ _ _ _ H) in Hl. rewrite Hl. cbn [c_assert mbind res_bind]. rewrite upd_new. cbn [mbind res_bind].
  rewrite vset_lt by (rewrite (r_tail _ _ _ _ _ (i_sq _ _ _ _ _ H)); by eapply ring_slot, H). cbn [mbind res_bind].
  rewrite (sint16_tail _ _ _ _ _ (i_sq _ _ _ _ _ H)), (sint16_tail _ _ _ _ _ (i_lq _ _ _ _ _ H)).
  set (i' := set_idx _ _ i). assert (H1 : Inv (with_inst s id i') L E w C) by (apply Inv_new; [done|by apply Hn|by apply Hn]).
  assert (Hne : forall x a, insts (world s) !! x = Some a -> sn (insts (world (with_inst s id i'))) x = sn (insts (world s)) x).
  { intros x a Hx. unfold sn. simpl. rewrite lookup_insert_ne; [done|]. intros <-. rewrite (n_id _ _ _ Hn) in Hx. done. }
  eexists _, i'. split; [reflexivity|]. split; [|split_and!; try done; apply Hn]. apply (Inv_push_store _ _ _ _ _ _ i' H1); try done.
  - simpl. by rewrite lookup_insert_eq.
  - simpl. by rewrite (n_kind _ _ _ Hn), Hld.
  - apply Hn.
  - intros j Hj. pose proof Hj as Hj'. apply list_elem_of_lookup in Hj' as [k Hk]. destruct (i_load _ _ _ _ _ H k j Hk) as [a []]. rewrite (Hne j a l_get). by apply HL.
  - intros e He. pose proof He as He'. apply list_elem_of_lookup in He' as [k Hk]. destruct (store_at _ _ _ _ _ _ _ H Hk) as (j & a & _ & Hj & Ha & _).
    rewrite Hj, (Hne j a Ha), <- Hj. by apply HE.
  - intros j Hj. destruct (f_sent _ _ _ _ _ _ _ _ _ _ (i_flight _ _ _ _ _ H) j Hj) as [(a & Ha & _) _]. rewrite (Hne j a Ha). by apply HS.
Qed.

Lemma lsq_insert_ok s L E w C id i : Inv s L E w C -> fresh s id i ->
  exists s', insert (with_inst s id i) id = Ok s' /\
    Inv s' (if isLoad i then L ++ [id] else L) (if isLoad i then E else E ++ [new_entry id]) w C /\ trace (world s') = trace (world s).
Proof.
  intros H Hn. unfold insert, get. simpl. rewrite lookup_insert_eq. cbn [mbind res_bind deref]. rewrite (n_ref _ _ _ Hn), (n_kind _ _ _ Hn).
  cbn [c_assert mbind res_bind]. rewrite orb_negb_r. cbn [c_assert mbind res_bind].
  assert (Hs : exists s' i', (if isLoad i then insertLoad (with_inst s id i) id else insertStore (with_inst s id i) id) = Ok s' /\
    Inv s' (if isLoad i then L ++ [id] else L) (if isLoad i then E else E ++ [new_entry id]) w C /\ insts (world s') = <[id := i']> (insts (world s)) /\
    seqNum i' = seqNum i /\ isStore i' = isStore i /\ memData i' = None /\ trace (world s') = trace (world s)).
  { destruct (isLoad i) eqn:Eld; [by apply lsq_insertLoad_ok|by apply lsq_insertStore_ok]. }
  destruct Hs as (s1 & i' & -> & H1 & Hm & _ & _ & Hmem & Htr). cbn [mbind res_bind].
  destruct (Inv_status s1 _ _ w C id i' DynInst.LsqEntry H1) as (s2 & -> & H2 & ->); [by rewrite Hm, lookup_insert_eq|done..|].
  eexists. split; [done|]. split; [done|]. done.
Qed.

(** ** Squashing

    [squash] removes the loads and then the stores younger than a number.  Between
    the two loops the stores that are about to go may refer to loads that have
    gone, so the loops are followed on a state that still has the queues of before
    ([cut]), and the invariant is established for the shorter queues at the end. *)

(** The state [g] with other queues and another stall. *)
Definition cut (g : t) (q : LQ) (x : Stall) (q' : SQ) : t := set_sq (set_stall (set_lq g q) x) q'.

Record cut_lq (g : t) (q : LQ) (L : list Z) : Prop := mkCutLq {
  c_lring : ring (loadQueue q) (LQEntries q) (loadHead q) (loadTail q) (Some <$> L);
  c_ln : LQEntries q = LQEntries (lqs g);
  c_lhead : loadHead q = loadHead (lqs g);
  c_loads : loads q = Z.of_nat (length L)
}.
Record cut_sq (g : t) (q : SQ) (E : list SQEntry) : Prop := mkCutSq {
  c_sring : ring (storeQueue q) (SQEntries q) (storeHead q) (storeTail q) E;
  c_sn : SQEntries q = SQEntries (sqs g);
  c_shead : storeHead q = storeHead (sqs g);
  c_swb : storeWBIdx q = storeWBIdx (sqs g);
  c_stoWB : storesToWB q = storesToWB (sqs g);
  c_stores : stores q = Z.of_nat (length E)
}.

Lemma stall_ok_prefix x lp m L id : stall_ok x lp m (L ++ [id]) -> stallingLoadIdx x <> lp (length L) -> stall_ok x lp m L.
Proof.
  intros Hs Hne Hst. destruct (Hs Hst) as (k & j & a & Hj & Hp & Hr). exists k, j, a. split; [|done].
  apply lookup_snoc_Some in Hj as [[? ?]|[-> _]]; [done|]. by rewrite Hp in Hne.
Qed.

Lemma squash_loads_ok n L L2 : forall fuel g q x E w C L1, Inv g L E w C -> L = L1 ++ L2 -> cut_lq g q L1 ->
  stall_ok x (loadPos g) (insts (world g)) L1 -> (length L1 < fuel)%nat ->
  exists g' q' x', squash_loads fuel (cut g q x (sqs g)) n (decrIdx (LQEntries q) (loadTail q)) = Ok (cut g' q' x' (sqs g')) /\ Inv g' L E w C /\
    cut_lq g' q' (filter (fun id => sn (insts (world g)) id <= n) L1) /\
    stall_ok x' (loadPos g') (insts (world g')) (filter (fun id => sn (insts (world g)) id <= n) L1) /\
    unit_ g' = unit_ g /\ states (world g') = states (world g) /\ trace (world g') = trace (world g) /\
    (forall id, sn (insts (world g')) id = sn (insts (world g)) id) /\ nextState (world g') = nextState (world g).
Proof.
  intros fuel g q x E w C L1. revert fuel g q x L2. induction L1 as [|id L1 IH] using rev_ind; intros fuel g q x L2 H HL Hq Hx Hf;
    (destruct fuel as [|fuel]; [lia|]); cbn [squash_loads]; change (lqs (cut g q x (sqs g))) with q; rewrite (c_loads _ _ _ Hq).
  { cbn. exists g, q, x. done. }
  rewrite length_app in *. simpl in Hf. replace (Z.of_nat (length L1 + length [id]) =? 0) with false by (symmetry; apply Z.eqb_neq; simpl; lia).
  pose proof (c_lring _ _ _ Hq) as Hr. rewrite fmap_app in Hr. simpl in Hr. rewrite (ring_last _ _ _ _ _ _ Hr), length_fmap.
  unfold load_at. change (lqs (cut g q x (sqs g))) with q.
  rewrite (ring_vget _ _ _ _ _ (length L1) (Some id) (c_lring _ _ _ Hq)) by (by rewrite list_lookup_fmap, list_lookup_middle). cbn [mbind res_bind deref].
  assert (Hid : L !! length L1 = Some id) by (rewrite HL, <- app_assoc; by apply list_lookup_middle).
  destruct (i_load _ _ _ _ _ H _ _ Hid) as [i [Hi Hld Hst _ _]].
  unfold seq, get. change (insts (world (cut g q x (sqs g)))) with (insts (world g)). rewrite Hi. cbn [mbind res_bind deref].
  rewrite filter_app. destruct (Z.ltb_spec n (seqNum i)) as [Hlt|Hge].
  - rewrite (filter_cons_False _ id), app_nil_r by (rewrite (sn_get _ _ _ Hi); lia).
    change (stall (unit_ (cut g q x (sqs g)))) with x.
    set (x1 := if stalled x && (pos (LQEntries q) (loadHead q) (length L1) =? stallingLoadIdx x) then mkStall false 0 0 else x).
    assert (Es : (if stalled x && (pos (LQEntries q) (loadHead q) (length L1) =? stallingLoadIdx x) then set_stall (cut g q x (sqs g)) (mkStall false 0 0)
                  else cut g q x (sqs g)) = cut g q x1 (sqs g)) by (unfold x1; by destruct (_ && _)).
    rewrite Es. clear Es.
    assert (Hx1 : stall_ok x1 (loadPos g) (insts (world g)) L1).
    { unfold x1. destruct (stalled x && _) eqn:Est; [intros ?; done|]. destruct (stalled x) eqn:Ex; [|intros ?; congruence].
      apply (stall_ok_prefix _ _ _ _ id Hx). simpl in Est. apply Z.eqb_neq in Est. unfold loadPos. rewrite <- (c_ln _ _ _ Hq), <- (c_lhead _ _ _ Hq). congruence. }
    assert (Hno : forall e, e ∈ E -> inst e = Some id -> canWB e = false).
    { intros e He Hie. apply list_elem_of_lookup in He as [k Hk]. destruct (i_store _ _ _ _ _ H k e Hk) as (j & a & []). congruence. }
    pose proof (keeps_status (stalling (stall (unit_ g)) (loadPos g) L id) E id i DynInst.Squashed ltac:(done) ltac:(congruence) (fun _ => Hno)) as Hk.
    pose proof (keeps_status (stalling x1 (loadPos g) L1 id) E id i DynInst.Squashed ltac:(done) ltac:(congruence) (fun _ => Hno)) as Hk1.
    destruct (Inv_upd g L E w C id i _ H Hi Hk) as [Hu H1]. set (g1 := set_world g _) in *.
    assert (Hu1 : set_status (cut g q x1 (sqs g)) id DynInst.Squashed = Ok (cut g1 q x1 (sqs g1))).
    { unfold set_status, upd, get. change (insts (world (cut g q x1 (sqs g)))) with (insts (world g)). by rewrite Hi. }
    rewrite Hu1. cbn [mbind res_bind]. rewrite vset_lt by (by eapply ring_slot). cbn [mbind res_bind].
    set (q1 := mkLQ _ _ _ _ _). change (set_lq (cut g1 q x1 (sqs g1)) q1) with (cut g1 q1 x1 (sqs g1)).
    assert (Hq1 : cut_lq g1 q1 L1).
    { split; [|apply Hq|apply Hq|simpl; lia]. simpl. pose proof (ring_shrink_clear _ _ _ _ _ _ None Hr) as Hr1. by rewrite length_fmap in Hr1. }
    assert (Hsn : forall y, sn (insts (world g1)) y = sn (insts (world g)) y) by (by apply sn_insert with (i := i)).
    destruct (IH fuel g1 q1 x1 ([id] ++ L2) H1) as (g' & q' & x' & Hrun & H' & Hq' & Hx' & Hun & Hss & Htr & Hsn' & Hnx); [by rewrite HL, <- app_assoc|done| |lia|].
    { by eapply (stall_ok_keeps (insts (world g)) id i _ Hi). }
    exists g', q', x'. change (decrLdIdx (cut g1 q x1 (sqs g1)) (pos (LQEntries q) (loadHead q) (length L1)))
      with (decrIdx (LQEntries q1) (loadTail q1)). rewrite Hrun.
    assert (Ef : filter (fun y => sn (insts (world g1)) y <= n) L1 = filter (fun y => sn (insts (world g)) y <= n) L1).
    { apply list_filter_iff. intros y. by rewrite Hsn. }
    rewrite Ef in Hq', Hx'. split_and!; try done. intros y. by rewrite Hsn', Hsn.
  - assert (Ef : filter (fun y => sn (insts (world g)) y <= n) L1 ++ filter (fun y => sn (insts (world g)) y <= n) [id] = L1 ++ [id]).
    { rewrite <- filter_app. apply filter_all. intros y Hy. apply list_elem_of_lookup in Hy as [k Hk].
      destruct (decide (k = length L1)) as [->|Hne].
      - rewrite list_lookup_middle in Hk by done. injection Hk as <-. rewrite (sn_get _ _ _ Hi). lia.
      - pose proof (lookup_lt_Some _ _ _ Hk) as Hkl. rewrite length_app in Hkl. simpl in Hkl.
        assert (sn (insts (world g)) y < sn (insts (world g)) id); [|rewrite (sn_get _ _ _ Hi) in *; lia].
        eapply (strongly_sorted_lookup _ _ k (length L1) _ _ (i_lsorted _ _ _ _ _ H)); [lia|..]; rewrite list_lookup_fmap.
        + assert (HkL : L !! k = Some y) by (rewrite HL; by apply lookup_app_l_Some). by rewrite HkL.
        + by rewrite Hid. }
    exists g, q, x. rewrite Ef. done.
Qed.

(** A store that may not be written back has not been handed to the cache. *)
Lemma uncommitted s L E w C k e id i : Inv s L E w C -> E !! k = Some e ->
  store_ok (loadPos s) (storePos s) (isStoreBlocked (blocked (unit_ s))) (insts (world s)) L w C k e id i -> canWB e = false -> committed e = false.
Proof.
  intros H He [] Hc. destruct (committed e) eqn:Ec; [|done]. destruct t_committed as [Hlt|[-> Hb]]; [done|by rewrite t_sent in Hc|].
  destruct (f_retry _ _ _ _ _ _ _ _ _ _ (i_flight _ _ _ _ _ H)) as [Hb' Hr]. rewrite Hb in Hb'. symmetry in Hb'. apply bool_decide_eq_true in Hb' as [pkt Hp].
  destruct (Hr pkt Hp) as (_ & p & x & y & _ & _ & _ & Hy & _ & _ & _ & _ & Hcy & _). congruence.
Qed.

Lemma squash_stores_ok env n E E2 : forall fuel g q x q' L L' w C E1, Inv g L E w C -> E = E1 ++ E2 -> cut_sq g q' E1 ->
  stall_ok x (loadPos g) (insts (world g)) L' -> (forall id, id ∈ L' -> sn (insts (world g)) id <= n) ->
  (forall e, e ∈ E -> canWB e = true -> sn (insts (world g)) (eid e) <= n) -> (length E1 < fuel)%nat ->
  exists g' q1, squash_stores fuel env (cut g q x q') n (decrIdx (SQEntries q') (storeTail q')) = Ok (cut g' q x q1) /\ Inv g' L E w C /\
    cut_sq g' q1 (filter (fun e => sn (insts (world g)) (eid e) <= n) E1) /\ unit_ g' = unit_ g /\
    stall_ok x (loadPos g') (insts (world g')) L' /\ (forall id, sn (insts (world g')) id = sn (insts (world g)) id) /\ trace (world g') = trace (world g).
Proof.
  intros fuel g q x q' L L' w C E1. revert fuel g q' E2. induction E1 as [|e E1 IH] using rev_ind; intros fuel g q' E2 H HE Hq Hx HL' Hc Hf;
    (destruct fuel as [|fuel]; [lia|]); cbn [squash_stores]; change (sqs (cut g q x q')) with q'; rewrite (c_stores _ _ _ Hq).
  { cbn. exists g, q'. done. }
  rewrite length_app in *. simpl in Hf. replace (Z.of_nat (length E1 + length [e]) =? 0) with false by (symmetry; apply Z.eqb_neq; simpl; lia).
  pose proof (c_sring _ _ _ Hq) as Hr. rewrite (ring_last _ _ _ _ _ _ Hr). unfold entry. change (sqs (cut g q x q')) with q'.
  rewrite (ring_vget _ _ _ _ _ (length E1) e Hr) by (by apply list_lookup_middle). cbn [mbind res_bind].
  assert (He : E !! length E1 = Some e) by (rewrite HE, <- app_assoc; by apply list_lookup_middle).
  destruct (store_at _ _ _ _ _ _ _ H He) as (id & i & Hid & Heid & Hi & _ & _ & Hok). rewrite Hid. cbn [mbind res_bind deref].
  unfold seq, get. change (insts (world (cut g q x q'))) with (insts (world g)). rewrite Hi. cbn [mbind res_bind deref].
  rewrite filter_app. destruct (Z.ltb_spec n (seqNum i)) as [Hlt|Hge].
  - rewrite (filter_cons_False _ e), app_nil_r by (rewrite Heid, (sn_get _ _ _ Hi); lia).
    destruct (canWB e) eqn:Ec.
    { specialize (Hc e (list_elem_of_lookup_2 _ _ _ He) Ec). rewrite Heid, (sn_get _ _ _ Hi) in Hc. lia. }
    change (stall (unit_ (cut g q x q'))) with x.
    assert (Hns : stalled x && (seqNum i =? stallingStoreIsn x) = false).
    { destruct (stalled x) eqn:Ex; [|done]. apply Z.eqb_neq. destruct (Hx Ex) as (k & j & a & Hj & _ & Ha & _ & _ & Hlt').
      specialize (HL' j (list_elem_of_lookup_2 _ _ _ Hj)). rewrite (sn_get _ _ _ Ha) in HL'. lia. }
    rewrite Hns.
    assert (Hm : memData i = None) by (apply (t_memData _ _ _ _ _ _ _ _ _ _ _ Hok); by eapply uncommitted).
    assert (Hno : forall y, y ∈ E -> inst y = Some id -> canWB y = false).
    { intros y Hy Hiy. apply list_elem_of_lookup in Hy as [k Hk]. assert (k = length E1) as -> by (eapply (Inv_sn_inj _ _ _ _ _ k (length E1) y e H); congruence). congruence. }
    pose proof (keeps_status (stalling (stall (unit_ g)) (loadPos g) L id) E id i DynInst.Squashed ltac:(done) ltac:(done) (fun _ => Hno)) as Hk.
    pose proof (keeps_status (stalling x (loadPos g) L' id) E id i DynInst.Squashed ltac:(done) ltac:(done) (fun _ => Hno)) as Hk1.
    destruct (Inv_upd g L E w C id i _ H Hi Hk) as [Hu H1]. set (g1 := set_world g _) in *.
    assert (Hu1 : set_status (cut g q x q') id DynInst.Squashed = Ok (cut g1 q x q')).
    { unfold set_status, upd, get. change (insts (world (cut g q x q'))) with (insts (world g)). by rewrite Hi. }
    rewrite Hu1. cbn [mbind res_bind]. rewrite vset_lt by (by eapply ring_slot). cbn [mbind res_bind].
    set (q1 := mkSQ _ _ _ _ _ _ _). change (set_sq (cut g1 q x q') q1) with (cut g1 q x q1).
    assert (Hq1 : cut_sq g1 q1 E1).
    { split; try apply Hq; [|simpl; lia]. simpl. by eapply ring_shrink_clear. }
    assert (Hsn : forall y, sn (insts (world g1)) y = sn (insts (world g)) y) by (by apply sn_insert with (i := i)).
    destruct (IH fuel g1 q1 ([e] ++ E2) H1) as (g' & q2 & Hrun & H' & Hq' & Hun & Hx' & Hsn' & Htr); [by rewrite HE, <- app_assoc|done|..].
    { by eapply (stall_ok_keeps (insts (world g)) id i _ Hi). }
    { intros j Hj. rewrite Hsn. by apply HL'. }
    { intros y Hy Hcy. rewrite Hsn. by apply Hc. }
    { lia. }
    exists g', q2. change (decrStIdx (cut g1 q x q') (pos (SQEntries q') (storeHead q') (length E1))) with (decrIdx (SQEntries q1) (storeTail q1)). rewrite Hrun.
    assert (Ef : filter (fun y => sn (insts (world g1)) (eid y) <= n) E1 = filter (fun y => sn (insts (world g)) (eid y) <= n) E1).
    { apply list_filter_iff. intros y. by rewrite Hsn. }
    rewrite Ef in Hq'. split_and!; try done. intros y. by rewrite Hsn', Hsn.
  - assert (Ef : filter (fun y => sn (insts (world g)) (eid y) <= n) E1 ++ filter (fun y => sn (insts (world g)) (eid y) <= n) [e] = E1 ++ [e]).
    { rewrite <- filter_app. apply filter_all. intros y Hy. apply list_elem_of_lookup in Hy as [k Hk].
      destruct (decide (k = length E1)) as [->|Hne].
      - rewrite list_lookup_middle in Hk by done. injection Hk as <-. rewrite Heid, (sn_get _ _ _ Hi). lia.
      - pose proof (lookup_lt_Some _ _ _ Hk) as Hkl. rewrite length_app in Hkl. simpl in Hkl.
        assert (sn (insts (world g)) (eid y) < sn (insts (world g)) (eid e)); [|rewrite Heid, (sn_get _ _ _ Hi) in *; lia].
        eapply (strongly_sorted_lookup _ _ k (length E1) _ _ (i_ssorted _ _ _ _ _ H)); [lia|..]; rewrite list_lookup_fmap.
        + assert (HkL : E !! k = Some y) by (rewrite HE; by apply lookup_app_l_Some). by rewrite HkL.
        + by rewrite He. }
    exists g, q'. rewrite Ef. done.
Qed.

(** ** The shorter queues *)

(** In a sorted list, those up to [n] come first. *)
Lemma sorted_filter_prefix {A} (f : A -> Z) (n : Z) (l : list A) : StronglySorted Z.lt (f <$> l) ->
  exists l2, l = filter (fun x => f x <= n) l ++ l2 /\ forall x, x ∈ l2 -> n < f x.
Proof.
  induction l as [|x l IH]; intros Hs; [exists []; split; [done|]; intros x Hx; by apply elem_of_nil in Hx|]. pose proof Hs as Hs0. apply StronglySorted_inv in Hs as [Hs Hx].
  destruct (decide (f x <= n)) as [Hle|Hgt].
  - destruct (IH Hs) as (l2 & Hl & H2). exists l2. rewrite filter_cons_True by done. split; [|done]. simpl. by rewrite <- Hl.
  - exists (x :: l). rewrite filter_cons_False by done. assert (Ha : forall y, y ∈ x :: l -> n < f y).
    { intros y [->|Hy]%elem_of_cons; [lia|]. rewrite Forall_forall in Hx. assert (f x < f y); [|lia]. apply Hx. apply list_elem_of_fmap. eauto. }
    split; [|done]. destruct (IH Hs) as (l2 & Hl & H2). replace (filter (fun y => f y <= n) l) with (@nil A); [done|].
    symmetry. destruct (filter (fun y => f y <= n) l) as [|y r] eqn:Ef; [done|]. exfalso.
    assert (Hy : y ∈ filter (fun y => f y <= n) l) by (rewrite Ef; left). apply list_elem_of_filter in Hy as [Hy1 Hy2]. specialize (Ha y ltac:(by right)). lia.
Qed.

Lemma Inv_cut g L E w C q x q' n : Inv g L E w C ->
  (forall e, e ∈ E -> canWB e = true -> sn (insts (world g)) (eid e) <= n) ->
  cut_lq g q (filter (fun id => sn (insts (world g)) id <= n) L) -> cut_sq g q' (filter (fun e => sn (insts (world g)) (eid e) <= n) E) ->
  stall_ok x (loadPos g) (insts (world g)) (filter (fun id => sn (insts (world g)) id <= n) L) ->
  Inv (cut g q x q') (filter (fun id => sn (insts (world g)) id <= n) L) (filter (fun e => sn (insts (world g)) (eid e) <= n) E) w C.
Proof.
  intros H Hc Hq Hq' Hx. set (m := insts (world g)) in *.
  destruct (sorted_filter_prefix (sn m) n L (i_lsorted _ _ _ _ _ H)) as (L2 & HL & HL2).
  destruct (sorted_filter_prefix (sn m ∘ eid) n E (i_ssorted _ _ _ _ _ H)) as (E2 & HE & HE2). simpl in HE, HE2.
  set (L1 := filter (fun id => sn m id <= n) L) in *. set (E1 := filter (fun e => sn m (eid e) <= n) E) in *.
  assert (HL1 : forall k id, L1 !! k = Some id -> L !! k = Some id /\ sn m id <= n).
  { intros k id Hk. split; [rewrite HL; by apply lookup_app_l_Some|]. apply list_elem_of_lookup_2 in Hk. apply list_elem_of_filter in Hk. by destruct Hk. }
  assert (HE1 : forall k e, E1 !! k = Some e -> E !! k = Some e /\ sn m (eid e) <= n).
  { intros k e Hk. split; [rewrite HE; by apply lookup_app_l_Some|]. apply list_elem_of_lookup_2 in Hk. apply list_elem_of_filter in Hk. by destruct Hk. }
  assert (HcE : forall k e, E !! k = Some e -> canWB e = true -> E1 !! k = Some e).
  { intros k e Hk Hce. rewrite HE in Hk. apply lookup_app_Some in Hk as [Hk|[Hge Hk]]; [done|]. exfalso.
    pose proof (HE2 e (list_elem_of_lookup_2 _ _ _ Hk)) as Hgt. simpl in Hgt. specialize (Hc e). rewrite HE in Hc. 
    assert (sn m (eid e) <= n); [apply Hc; [apply elem_of_app; right; by eapply list_elem_of_lookup_2|done]|lia]. }
  assert (Hw : (w <= length E1)%nat).
  { destruct w as [|w']; [lia|]. destruct (lookup_lt_is_Some_2 E w') as [e He]; [pose proof (i_w _ _ _ _ _ H); lia|].
    destruct (store_at _ _ _ _ _ _ _ H He) as (id & i & _ & _ & _ & _ & _ & Hok). pose proof (t_sent _ _ _ _ _ _ _ _ _ _ _ Hok ltac:(lia)) as Hce.
    pose proof (lookup_lt_Some _ _ _ (HcE w' e He Hce)). lia. }
  assert (Hlp : forall k, pos (LQEntries q) (loadHead q) k = loadPos g k) by (intros k; unfold loadPos; by rewrite (c_ln _ _ _ Hq), (c_lhead _ _ _ Hq)).
  assert (Hsp : forall k, pos (SQEntries q') (storeHead q') k = storePos g k) by (intros k; unfold storePos; by rewrite (c_sn _ _ _ Hq'), (c_shead _ _ _ Hq')).
  assert (Hnum : numWaiting E = numWaiting E1).
  { rewrite HE at 1. rewrite numWaiting_app. replace (numWaiting E2) with 0; [lia|]. unfold numWaiting. symmetry.
    replace (filter (fun e => waits e = true) E2) with (@nil SQEntry); [done|]. symmetry. destruct (filter _ E2) as [|y r] eqn:Ef; [done|]. exfalso.
    assert (Hy : y ∈ filter (fun e => waits e = true) E2) by (rewrite Ef; left). apply list_elem_of_filter in Hy as [Hy1 Hy2].
    unfold waits in Hy1. apply andb_true_iff in Hy1 as [Hy1 _]. specialize (Hc y). specialize (HE2 y Hy2). simpl in HE2. rewrite HE in Hc.
    assert (sn m (eid y) <= n); [apply Hc; [apply elem_of_app; by right|done]|lia]. }
  destruct H. split; simpl; try done; try apply Hq; try apply Hq'.
  - etrans; [apply (c_swb _ _ _ Hq')|]. rewrite i_wb. symmetry. apply Hsp.
  - etrans; [apply (c_stoWB _ _ _ Hq')|]. by rewrite i_toWB.
  - eapply strongly_sorted_sublist; [|exact i_lsorted]. apply fmap_sublist. apply sublist_filter.
  - eapply strongly_sorted_sublist; [|exact i_ssorted]. apply fmap_sublist. apply sublist_filter.
  - intros k id Hk. destruct (HL1 k id Hk) as [Hk' Hle]. destruct (i_load k id Hk') as [i []]. exists i. split; try done; [rewrite l_idx; symmetry; apply Hlp|].
    intros Hx'. destruct (l_older Hx') as [Ho1 Ho2]. assert (Eo : older m (eid <$> E1) (seqNum i) = older m (eid <$> E) (seqNum i)).
    { rewrite HE. rewrite fmap_app, older_app, (older_none m (eid <$> E2)); [lia|]. intros y (e & -> & He)%list_elem_of_fmap. specialize (HE2 e He). simpl in HE2.
      pose proof (sn_get m id i l_get). lia. }
    split; fold m; rewrite ?Eo.
    + intros e He. apply Ho1. rewrite HE. set_solver.
    + destruct Ho2 as [?|Ho2]; [by left|right]. rewrite Ho2. symmetry. apply Hsp.
  - intros k e Hk. destruct (HE1 k e Hk) as [Hk' Hle]. destruct (i_store k e Hk') as (id & i & []). exists id, i.
    split; try done; [rewrite t_idx; symmetry; apply Hsp|]. intros Hce. rewrite t_younger by done. fold m. rewrite HL at 1.
    rewrite older_app, (older_none m L2), Nat.add_0_r; [symmetry; apply Hlp|]. intros y Hy. specialize (HL2 y Hy). unfold eid in Hle. rewrite t_inst in Hle. simpl in Hle.
    pose proof (sn_get m id i t_get). lia.
  - intros Hst. destruct (Hx Hst) as (k & id & i & ? & Hp & ?). exists k, id, i. split; [done|]. split; [|done]. rewrite Hp. symmetry. apply Hlp.
  - destruct i_flight. split; try done.
    + intros p y Hy Hl Ha. destruct (f_awaits p y Hy Hl Ha) as (k & e & Hk & He & ? & Hi & ? & ?). exists k, e.
      destruct (i_store k e He) as (id & i & []). split_and!; try done; [apply HcE; auto|]. rewrite Hi. symmetry. apply Hsp.
    + destruct f_retry as [Hb Hr]. split; [done|]. intros pkt Hp. destruct (Hr pkt Hp) as (? & p & y & e & ? & ? & ? & He & ? & Hi & ? & ? & ? & ?).
      split; [done|]. exists p, y, e. split_and!; try done; [by apply HcE|]. rewrite Hi. symmetry. apply Hsp.
    + intros id Hid. destruct (f_sent id Hid) as [Hi Hlt]. split; [done|]. intros k e Hk He. eapply Hlt; [done|]. by apply HE1.
Qed.

(** No violator and no blocked load is younger than [n]. *)
Definition no_younger (s : t) (n : Z) : Prop :=
  (forall v, memDepViolator (unit_ s) = Some v -> sn (insts (world s)) v <= n) /\
  (isLoadBlocked (blocked (unit_ s)) = true -> blockedLoadSeqNum (blocked (unit_ s)) <= n).

Lemma squash_flags_ok g q x q' L E w C n : Inv g L E w C ->
  exists g', squash_flags (cut g q x q') n = Ok (cut g' q x q') /\ Inv g' L E w C /\ lqs g' = lqs g /\ sqs g' = sqs g /\ world g' = world g /\
    no_younger g' n.
Proof.
  intros H. unfold squash_flags. change (blocked (unit_ (cut g q x q'))) with (blocked (unit_ g)).
  set (b := blocked (unit_ g)). set (g1 := if isLoadBlocked b && (n <? blockedLoadSeqNum b) then set_blocked g (mkBlocked (retryPkt b) (isStoreBlocked b) false false 0) else g).
  assert (E1 : (if isLoadBlocked b && (n <? blockedLoadSeqNum b) then set_blocked (cut g q x q') (mkBlocked (retryPkt b) (isStoreBlocked b) false false 0)
                else cut g q x q') = cut g1 q x q') by (unfold g1; by destruct (_ && _)).
  rewrite E1. assert (H1 : Inv g1 L E w C) by (unfold g1; destruct (_ && _); [by apply Inv_blocked|done]).
  assert (Hg : lqs g1 = lqs g /\ sqs g1 = sqs g /\ world g1 = world g) by (unfold g1; by destruct (_ && _)).
  assert (Hb : isLoadBlocked (blocked (unit_ g1)) = true -> blockedLoadSeqNum (blocked (unit_ g1)) <= n).
  { unfold g1, b. destruct (isLoadBlocked (blocked (unit_ g))) eqn:Eb; simpl; [|congruence]. destruct (Z.ltb_spec n (blockedLoadSeqNum (blocked (unit_ g)))); simpl; [done|lia]. }
  clearbody g1. destruct Hg as (Hg1 & Hg2 & Hg3).
  change (memDepViolator (unit_ (cut g1 q x q'))) with (memDepViolator (unit_ g1)). destruct (memDepViolator (unit_ g1)) as [v|] eqn:Ev.
  - destruct (i_violator _ _ _ _ _ H1 v Ev) as [a Ha]. unfold seq, get. change (insts (world (cut g1 q x q'))) with (insts (world g1)). rewrite Ha.
    cbn [mbind res_bind deref]. destruct (Z.ltb_spec n (seqNum a)).
    + exists (set_violator g1 None). split; [done|]. split; [by apply Inv_violator|]. done.
    + exists g1. split_and!; try done. split; [|done]. intros x' Hx'. assert (x' = v) as -> by congruence. by rewrite (sn_get _ _ _ Ha).
  - exists g1. split_and!; try done. split; [|done]. intros x' Hx'. congruence.
Qed.

Lemma cut_self g : cut g (lqs g) (stall (unit_ g)) (sqs g) = g.
Proof. by destruct g as [[] w]. Qed.

Lemma lsq_squash_ok env s L E w C n : Inv s L E w C -> (forall e, e ∈ E -> canWB e = true -> sn (insts (world s)) (eid e) <= n) ->
  exists s', squash env s n = Ok s' /\
    Inv s' (filter (fun id => sn (insts (world s)) id <= n) L) (filter (fun e => sn (insts (world s)) (eid e) <= n) E) w C /\
    (forall id, sn (insts (world s')) id = sn (insts (world s)) id) /\ trace (world s') = trace (world s) /\ no_younger s' n.
Proof.
  intros H Hc. unfold squash.
  assert (Hq : cut_lq s (lqs s) L) by (split; try apply H; done).
  destruct (squash_loads_ok n L [] (S (length (loadQueue (lqs s)))) s (lqs s) (stall (unit_ s)) E w C L H) as
    (g & q & x & Hrun & Hg & Hql & Hx & Hun & Hst & Htr & Hsn & Hnx); [by rewrite app_nil_r|done|by apply H| |].
  { pose proof (i_lq _ _ _ _ _ H) as [Hlen _ _ Hfree _ _]. rewrite length_fmap in Hfree. lia. }
  rewrite cut_self in Hrun. change (decrLdIdx s (loadTail (lqs s))) with (decrIdx (LQEntries (lqs s)) (loadTail (lqs s))). rewrite Hrun. cbn [mbind res_bind].
  destruct (squash_flags_ok g q x (sqs g) L E w C n Hg) as (g1 & -> & Hg1 & El & Es & Ew & Hny). cbn [mbind res_bind]. rewrite <- Es.
  change (sqs (cut g1 q x (sqs g1))) with (sqs g1).
  change (decrStIdx (cut g1 q x (sqs g1)) (storeTail (sqs g1))) with (decrIdx (SQEntries (sqs g1)) (storeTail (sqs g1))).
  set (L1 := filter (fun id => sn (insts (world s)) id <= n) L) in *.
  assert (Ef : L1 = filter (fun id => sn (insts (world g1)) id <= n) L).
  { apply list_filter_iff. intros y. by rewrite Ew, Hsn. }
  destruct (squash_stores_ok env n E [] (S (length (storeQueue (sqs g1)))) g1 q x (sqs g1) L L1 w C E Hg1) as (g2 & q2 & -> & Hg2 & Hq2 & Hun2 & Hx2 & Hsn2 & Htr2);
    [by rewrite app_nil_r|by split; try apply Hg1| | | | |].
  { unfold loadPos. rewrite El, Ew. done. }
  { intros id Hid. rewrite Ef in Hid. apply list_elem_of_filter in Hid. by destruct Hid. }
  { intros e He Hce. rewrite Ew, Hsn. by apply Hc. }
  { pose proof (i_sq _ _ _ _ _ Hg1) as [Hlen _ _ Hfree _ _]. lia. }
  assert (Hsn3 : forall id, sn (insts (world g2)) id = sn (insts (world s)) id) by (intros id; by rewrite Hsn2, Ew, Hsn).
  assert (E1 : L1 = filter (fun id => sn (insts (world g2)) id <= n) L) by (apply list_filter_iff; intros y; by rewrite Hsn3).
  assert (E2 : filter (fun e => sn (insts (world g1)) (eid e) <= n) E = filter (fun e => sn (insts (world g2)) (eid e) <= n) E).
  { apply list_filter_iff. intros y. by rewrite Hsn2. }
  assert (E3 : filter (fun e => sn (insts (world s)) (eid e) <= n) E = filter (fun e => sn (insts (world g2)) (eid e) <= n) E).
  { apply list_filter_iff. intros y. by rewrite Hsn3. }
  exists (cut g2 q x q2). split; [done|]. split; [|split_and!; [done|by etrans; [exact Htr2|rewrite Ew]|]].
  2: { destruct Hny as [Hv Hb]. split; simpl; rewrite Hun2; [|done]. intros v Hv'. rewrite Hsn2. by apply Hv. }
  rewrite E3, E1. apply Inv_cut; [done|..].
  - intros e He Hce. rewrite Hsn3. by apply Hc.
  - rewrite <- E1. destruct Hql. split; try done; unfold lqs; rewrite Hun2; fold (lqs g1); rewrite El; done.
  - by rewrite <- E2.
  - by rewrite <- E1.
Qed.
