(* ===== verification/LsqSend.v ===== *)
(** * Sending and completing stores

    The steps of a store from the time it may be written back: the write-back
    index passes it, its packet is made and taken or refused by the cache, and
    its completion lets the head of the queue move on. *)
From S2P Require Import Prelude EventQueue Request Packet Rob LsqUnit LsqInv LsqOps.
Import LSQUnit.

(** ** The write-back index moves *)
Lemma storePos_wb s n k : storePos (set_storeWBIdx s n) k = storePos s k.
Proof. done. Qed.

Lemma Inv_skip s L E w C e : Inv s L E w C -> E !! w = Some e -> canWB e = true -> retryPkt (blocked (unit_ s)) = None ->
  Inv (set_storeWBIdx s (storePos s (S w))) L E (S w) C.
Proof.
  intros [] He Hc Hrp. pose proof (lookup_lt_Some _ _ _ He). split; try done.
  - intros k x Hx. destruct (i_store k x Hx) as (id & i & []). exists id, i. split; try done.
    + intros Hk. destruct (decide (k = w)) as [->|]; [congruence|]. apply t_sent. lia.
    + intros Hcp. specialize (t_completed Hcp). lia.
    + intros Hcm. destruct (t_committed Hcm) as [|[-> _]]; left; lia.
  - destruct i_flight. split; try done.
    + intros p x Hx Hl Ha. destruct (f_awaits p x Hx Hl Ha) as (k & y & Hk & ?). exists k, y. split; [lia|done].
    + destruct f_retry as [Hb _]. split; [done|]. intros pkt Hp. simpl in Hp. congruence.
    + intros id Hid. destruct (f_sent id Hid) as [? Hlt]. split; [done|]. intros k x Hk Hx. eapply Hlt; [|done]. lia.
Qed.

(** ** The store's data and its sender state *)
Definition handed (s : t) (k : nat) (e : SQEntry) (id : Z) (i : Inst) (d : list Z) (x : LSQSenderState) : t :=
  let w := world s in
  set_world (with_entry s k (set_committed e) (storesToWB (sqs s)))
    (mkWorld (<[id := set_memData (Some d) i]> (insts w)) (<[nextState w := x]> (states w)) (nextState w + 1) (retryTid w) (trace w)).

Lemma Inv_handed s L E w C k e id i d x : Inv s L E w C -> (k < w)%nat -> E !! k = Some e -> committed e = false -> inst e = Some id ->
  insts (world s) !! id = Some i -> x = mkState id false (storePos s k) (noWB x) false false 1 None None ->
  Inv (handed s k e id i d x) L (<[k := set_committed e]> E) w C.
Proof.
  intros H Hkw Hk Hcm Hid Hi Hx. set (e' := set_committed e). set (m := insts (world s)) in *. set (i' := set_memData (Some d) i).
  pose proof (sn_insert m id i i' Hi eq_refl) as Hsn.
  assert (Hlk : forall j y, <[k := e']> E !! j = Some y -> (j = k /\ y = e') \/ (j <> k /\ E !! j = Some y)).
  { intros j y Hj. apply list_lookup_insert_Some in Hj. naive_solver. }
  destruct (store_at _ _ _ _ _ _ _ H Hk) as (id0 & i0 & Hid0 & _ & Hi0 & _ & _ & Hok). rewrite Hid in Hid0. injection Hid0 as <-.
  fold m in Hi0. rewrite Hi in Hi0. injection Hi0 as <-. assert (Hst : isStore i = true) by apply Hok. assert (Hsq : has i DynInst.Squashed = false) by (apply Hok, Hok; lia).
  assert (Hw' : numWaiting (<[k := e']> E) = numWaiting E) by (rewrite (numWaiting_insert _ _ _ _ Hk); unfold waits, e'; simpl; lia).
  pose proof H as H0. destruct H. split; simpl; rewrite ?length_insert; try done; fold m e' i'.
  - by eapply ring_update.
  - by rewrite Hw'.
  - by rewrite (fmap_sn _ _ _ Hsn).
  - rewrite (fmap_sn_eid _ _ _ Hsn), (fmap_insert_same (sn m ∘ eid) E k e e' Hk); done.
  - intros j l Hl. destruct (i_load j l Hl) as [a Ha]. assert (Hne : l <> id) by (intros ->; destruct Ha; fold m in l_get; congruence).
    destruct Ha. exists a. split; try done; [by rewrite lookup_insert_ne|]. intros Hxx. destruct (l_older Hxx) as [H1 H2].
    split; rewrite ?(older_ext m _ _ _ Hsn), ?(fmap_insert_same eid E k e e' Hk); try done. intros y Hy Hc. rewrite Hsn.
    apply list_elem_of_lookup in Hy as [j' Hj']. destruct (Hlk j' y Hj') as [[-> ->]|[Hne' Hj'']].
    + change (eid e') with (eid e). apply H1; [by eapply list_elem_of_lookup_2|done].
    + apply H1; [by eapply list_elem_of_lookup_2|done].
  - intros j y Hj. destruct (Hlk j y Hj) as [[-> ->]|[Hne Hj']].
    + exists id, i'. destruct Hok. split; try done; rewrite ?(older_ext m _ _ _ Hsn); try done; [by rewrite lookup_insert_eq|]. intros _. by left.
    + destruct (i_store j y Hj') as (l & a & Ha). assert (Hli : l <> id).
      { intros ->. apply Hne. eapply (Inv_sn_inj _ _ _ _ _ j k y e H0); [done..|]. destruct Ha. congruence. }
      exists l, a. destruct Ha. split; try done; rewrite ?(older_ext m _ _ _ Hsn); try done. by rewrite lookup_insert_ne.
  - intros Hs. destruct (i_stall Hs) as (j & l & a & Hl & ? & Ha & ?). exists j, l, a. destruct (i_load j l Hl) as [b []]. rewrite lookup_insert_ne; [done|].
    intros <-. unfold m in *. congruence.
  - intros v Hv. destruct (i_violator v Hv) as [a Ha]. destruct (decide (v = id)) as [->|]; [by rewrite lookup_insert_eq|rewrite lookup_insert_ne by done; by exists a].
  - assert (Hnx : states (world s) !! nextState (world s) = None).
    { destruct (states (world s) !! nextState (world s)) eqn:E1; [|done]. destruct i_flight. specialize (f_fresh (nextState (world s))). rewrite E1 in f_fresh.
      specialize (f_fresh ltac:(done)). lia. }
    assert (Hna : ~ accepted (trace (world s)) (nextState (world s))).
    { intros (pkt & Hin & Hp). destruct i_flight. specialize (f_pkts _ _ _ Hin Hp). lia. }
    destruct i_flight. fold m in f_states, f_events, f_squashed, f_sorted, f_sent. split; simpl.
    + intros p [y Hy]. destruct (decide (p = nextState (world s))) as [->|]; [lia|]. rewrite lookup_insert_ne in Hy by done. specialize (f_fresh p ltac:(by exists y)). lia.
    + intros pkt ok p Hin Hp. specialize (f_pkts _ _ _ Hin Hp). lia.
    + intros p y Hy. destruct (decide (p = nextState (world s))) as [->|].
      * rewrite lookup_insert_eq in Hy. injection Hy as <-. rewrite Hx. split; try done. exists i'. simpl. by rewrite lookup_insert_eq.
      * rewrite lookup_insert_ne in Hy by done. destruct (f_states p y Hy) as [? ? (a & Ha & ?)]. split; try done. destruct (decide (ss_inst y = id)) as [E1|].
        -- exists i'. rewrite E1 in *. rewrite lookup_insert_eq. rewrite Hi in Ha. injection Ha as <-. split_and!; try done. naive_solver.
        -- exists a. by rewrite lookup_insert_ne.
    + intros p y Hy Hl Ha. destruct (decide (p = nextState (world s))) as [->|]; [done|]. rewrite lookup_insert_ne in Hy by done.
      destruct (f_awaits p y Hy Hl Ha) as (j & z & Hj & Hz & ?). exists j, z. split; [done|]. split; [|done]. rewrite list_lookup_insert_ne; [done|].
      intros <-. rewrite Hk in Hz. injection Hz as <-. naive_solver congruence.
    + intros p q y z Hy Hz Hly Hlz Hap Haq He. destruct (decide (p = nextState (world s))) as [->|]; [done|]. destruct (decide (q = nextState (world s))) as [->|]; [done|].
      rewrite lookup_insert_ne in Hy, Hz by done. by eapply f_inj.
    + destruct f_retry as [Hb Hr]. split; [done|]. intros pkt Hp. destruct (Hr pkt Hp) as (? & p & y & z & ? & Hy & ? & Hz & ?). split; [done|]. exists p, y, z.
      split_and!; try done; [|rewrite list_lookup_insert_ne; [done|lia]|naive_solver..]. rewrite lookup_insert_ne; [done|]. intros <-. congruence.
    + intros j pkt d' Hin. destruct (f_events j pkt d' Hin) as [(a & Ha & Hma) Hp]. split.
      * destruct (decide (j = id)) as [->|]; [exists i'; by rewrite lookup_insert_eq|exists a; by rewrite lookup_insert_ne].
      * intros p Hp'. destruct (Hp p Hp') as (? & ? & ?). split_and!; try done. lia.
    + intros j a Ha Hs Hma. destruct (decide (j = id)) as [->|].
      * rewrite lookup_insert_eq in Ha. injection Ha as <-. done.
      * rewrite lookup_insert_ne in Ha by done. by eapply f_squashed.
    + by rewrite (fmap_sn _ _ _ Hsn).
    + intros j Hj. destruct (f_sent j Hj) as [(a & Ha & ?) Hlt]. split.
      * destruct (decide (j = id)) as [->|]; [exists i'; rewrite lookup_insert_eq; rewrite Hi in Ha; injection Ha as <-; done|exists a; by rewrite lookup_insert_ne].
      * intros j' y Hj' Hy. rewrite !Hsn. destruct (Hlk j' y Hy) as [[-> ->]|[? ?]]; [lia|by eapply Hlt].
Qed.

(** ** The cache takes a packet *)

(** No response to a packet of the store [id] is awaited. *)
Definition unawaited (s : t) (id : Z) : Prop :=
  forall q y, states (world s) !! q = Some y -> ss_isLoad y = false -> accepted (trace (world s)) q -> ss_inst y <> id.

Lemma Inv_accept s L E w C k e id i p x pkt : Inv s L E (S w) C -> k = w -> E !! k = Some e -> inst e = Some id -> insts (world s) !! id = Some i ->
  committed e = true -> completed e = false -> states (world s) !! p = Some x -> ss_isLoad x = false -> ss_inst x = id -> ss_idx x = storePos s k ->
  senderState pkt = Some p -> (pdata pkt).1 = id -> is_store_cmd (cmd pkt) = true -> unawaited s id ->
  retryPkt (blocked (unit_ s)) = None -> (forall j pk d, EWriteback j pk d ∈ trace (world s) -> senderState pk <> Some p) ->
  (forall j, j ∈ sent (trace (world s)) -> sn (insts (world s)) j < seqNum i) ->
  Inv (emit s (ESendTiming pkt true)) L E (S w) C.
Proof.
  intros H -> He Hid Hi Hcm Hcp Hp Hl Hx Hix Hpk Hpd Hcmd Hun Hrp Hev Hlt. pose proof H as H0. destruct H. split; try done.
  assert (Hacc : forall q, accepted (trace (world s) ++ [ESendTiming pkt true]) q -> accepted (trace (world s)) q \/ q = p).
  { intros q [?|(pk & [= <-] & Hq)]%accepted_app; [by left|right; congruence]. }
  assert (Hsent : sent (trace (world s) ++ [ESendTiming pkt true]) = sent (trace (world s)) ++ [id]).
  { rewrite sent_app. simpl. by rewrite Hcmd, Hpd. }
  destruct i_flight. split; simpl; try done.
  - intros pk ok q [Hin|[= -> ->]%list_elem_of_singleton]%elem_of_app Hq; [by eapply f_pkts|]. apply f_fresh. rewrite Hpk in Hq. injection Hq as <-. by exists x.
  - intros q y Hy Hly [Ha| ->]%Hacc; [by eapply f_awaits|]. rewrite Hp in Hy. injection Hy as <-. exists w, e. split_and!; try done; [lia|congruence].
  - intros q r y z Hy Hz Hly Hlz Hq Hr Hyz. apply Hacc in Hq as [Hq| ->], Hr as [Hr| ->]; [by eapply f_inj| | |done].
    + rewrite Hp in Hz. injection Hz as <-. exfalso. apply (Hun q y); [done..|congruence].
    + rewrite Hp in Hy. injection Hy as <-. exfalso. apply (Hun r z); [done..|congruence].
  - destruct f_retry as [Hb _]. split; [done|]. intros pk Hpk'. congruence.
  - intros j pk d [Hin|Heq%list_elem_of_singleton]%elem_of_app; [|done]. destruct (f_events j pk d Hin) as [Hj Hs]. split; [done|].
    intros q Hq. destruct (Hs q Hq) as (? & Hna & ?). split_and!; try done. intros [?| ->]%Hacc; [done|]. by apply (Hev j pk d Hin).
  - rewrite Hsent, fmap_app. apply strongly_sorted_snoc; [done|]. intros y (j & -> & Hj)%list_elem_of_fmap. simpl. rewrite (sn_get _ _ _ Hi). by apply Hlt.
  - rewrite Hsent. intros j [Hj| ->%list_elem_of_singleton]%elem_of_app; [by apply f_sent|].
    destruct (store_at _ _ _ _ _ _ _ H0 He) as (id0 & i0 & Hid0 & Heid & Hi0 & _ & _ & Hok). assert (id0 = id) as -> by congruence.
    assert (i0 = i) as -> by congruence. split; [exists i; split; [done|]; apply Hok; apply Hok; lia|]. intros j y Hj Hy. rewrite <- Heid.
    eapply (strongly_sorted_lookup _ _ w j _ _ i_ssorted); [lia|by rewrite list_lookup_fmap, He|by rewrite list_lookup_fmap, Hy].
Qed.

(** ** The cache refuses a packet *)
Lemma Inv_refuse s L E w C e id p x pkt a b c : Inv s L E (S w) C -> E !! w = Some e -> inst e = Some id ->
  committed e = true -> completed e = false -> states (world s) !! p = Some x -> ss_isLoad x = false -> ss_inst x = id -> ss_idx x = storePos s w ->
  senderState pkt = Some p -> (pdata pkt).1 = id -> is_store_cmd (cmd pkt) = true -> unawaited s id -> ~ accepted (trace (world s)) p ->
  retryPkt (blocked (unit_ s)) = None ->
  (forall j pk d, EWriteback j pk d ∈ trace (world s) -> senderState pk <> Some p) ->
  (forall j, j ∈ sent (trace (world s)) -> sn (insts (world s)) j < sn (insts (world s)) id) ->
  Inv (set_blocked (set_storeWBIdx s (storePos s w)) (mkBlocked (Some pkt) true a b c)) L E w C.
Proof.
  intros H He Hid Hcm Hcp Hp Hl Hx Hix Hpk Hpd Hcmd Hun Hna Hrp Hev Hlt. pose proof H as H0. destruct H. split; try done.
  - lia.
  - intros k y Hy. destruct (i_store k y Hy) as (j & i & []). exists j, i. split; try done.
    + intros Hk. apply t_sent. lia.
    + intros Hc. specialize (t_completed Hc). destruct (decide (k = w)) as [->|]; [|lia]. congruence.
    + intros Hc. destruct (decide (k = w)) as [->|]; [by right|left]. destruct (t_committed Hc) as [|[_ Hb]]; [lia|]. exfalso.
      destruct i_flight. destruct f_retry as [Hb' _]. rewrite Hb, Hrp in Hb'. done.
  - destruct i_flight. split; try done.
    + intros q y Hy Hly Ha. destruct (f_awaits q y Hy Hly Ha) as (k & z & Hk & Hz & Hiz & ?). exists k, z. split; [|done].
      destruct (decide (k = w)) as [->|]; [|lia]. exfalso. apply (Hun q y Hy Hly Ha). congruence.
    + split; [done|]. intros pk [= <-]. split; [done|]. exists p, x, e. split_and!; try done; try congruence.
      destruct (store_at _ _ _ _ _ _ _ H0 He) as (? & ? & _ & _ & _ & _ & _ & Hok). apply Hok. lia.
    + intros j pk d Hin. destruct (f_events j pk d Hin) as [? Hs]. split; [done|]. intros q Hq. destruct (Hs q Hq) as (? & ? & _). split_and!; try done.
      intros r [= <-] Hr. apply (Hev j pk d Hin). congruence.
    + intros j Hj. destruct (f_sent j Hj) as [? Hl']. split; [done|]. intros k y Hk Hy. destruct (decide (k = w)) as [->|]; [|apply (Hl' k y); [lia|done]].
      rewrite He in Hy. injection Hy as <-. unfold eid. rewrite Hid. by apply Hlt.
Qed.

Lemma Inv_unrefuse s L E w C pkt a b c : Inv s L E w C -> retryPkt (blocked (unit_ s)) = Some pkt ->
  Inv (set_storeWBIdx (set_blocked s (mkBlocked None false a b c)) (storePos s (S w))) L E (S w) C.
Proof.
  intros H Hrp. pose proof H as H0. destruct H. pose proof (proj2 (f_retry _ _ _ _ _ _ _ _ _ _ i_flight) pkt Hrp) as (_ & p & x & e & _ & _ & _ & He & _ & _ & _ & Hcm & Hc & _).
  pose proof (lookup_lt_Some _ _ _ He) as Hlt. split; try done.
  - intros k y Hy. destruct (i_store k y Hy) as (j & i & []). exists j, i. split; try done.
    + intros Hk. destruct (decide (k = w)) as [->|]; [congruence|]. apply t_sent. lia.
    + intros Hcp. specialize (t_completed Hcp). lia.
    + intros Hcm'. destruct (t_committed Hcm') as [|[-> _]]; left; lia.
  - destruct i_flight. split; try done.
    + intros q y Hy Hly Ha. destruct (f_awaits q y Hy Hly Ha) as (k & z & Hk & ?). exists k, z. split; [lia|done].
    + intros j pk d Hin. destruct (f_events j pk d Hin) as [? Hs]. split; [done|]. intros q Hq. destruct (Hs q Hq) as (? & ? & _). split_and!; done.
    + intros j Hj. destruct (f_sent j Hj) as [? Hl']. split; [done|]. intros k y Hk Hy. apply (Hl' k y); [lia|done].
Qed.

(** ** A store completes *)
Lemma Inv_complete s L E w C k e : Inv s L E w C -> (k < w)%nat -> E !! k = Some e -> completed e = false -> unawaited s (eid e) ->
  Inv (with_entry s k (set_completed e) (storesToWB (sqs s) - 1)) L (<[k := set_completed e]> E) w C.
Proof.
  intros H Hkw Hk Hcp Hun. set (e' := set_completed e). destruct (store_at _ _ _ _ _ _ _ H Hk) as (id & i & Hid & Heid & Hi & _ & _ & Hok).
  assert (Hlk : forall j x, <[k := e']> E !! j = Some x -> (j = k /\ x = e') \/ (j <> k /\ E !! j = Some x)).
  { intros j x Hj. apply list_lookup_insert_Some in Hj. naive_solver. }
  assert (Hc : canWB e = true) by (apply Hok; lia).
  destruct H. split; simpl; rewrite ?length_insert; try done.
  - by eapply ring_update.
  - rewrite (numWaiting_insert _ _ _ _ Hk), i_toWB. unfold waits, e'. simpl. rewrite Hcp, Hc. simpl. lia.
  - rewrite (fmap_insert_same (sn (insts (world s)) ∘ eid) E k e e' Hk); done.
  - intros j l Hl. destruct (i_load j l Hl) as [a []]. exists a. split; try done. intros Hx. destruct (l_older Hx) as [H1 H2].
    split; [|by rewrite (fmap_insert_same eid E k e e' Hk)]. intros y Hy Hcy. apply list_elem_of_lookup in Hy as [j' Hj']. destruct (Hlk j' y Hj') as [[-> ->]|[_ Hj'']].
    + change (eid e') with (eid e). apply H1; [by eapply list_elem_of_lookup_2|done].
    + apply H1; [by eapply list_elem_of_lookup_2|done].
  - intros j y Hj. destruct (Hlk j y Hj) as [[-> ->]|[Hne Hj']]; [|by apply i_store]. exists id, i. destruct Hok. split; done.
  - destruct i_flight. split; try done.
    + intros p x Hx Hl Ha. destruct (f_awaits p x Hx Hl Ha) as (j & z & Hj & Hz & Hiz & ?). exists j, z. split; [done|]. split; [|done].
      rewrite list_lookup_insert_ne; [done|]. intros <-. rewrite Hk in Hz. injection Hz as <-. apply (Hun p x Hx Hl Ha). unfold eid. by rewrite Hiz.
    + destruct f_retry as [Hb Hr]. split; [done|]. intros pkt Hp. destruct (Hr pkt Hp) as (? & p & y & z & ? & Hy & ? & Hz & ?). split; [done|]. exists p, y, z.
      split_and!; try done; [|naive_solver..]. rewrite list_lookup_insert_ne; [done|lia].
    + intros j Hj. destruct (f_sent j Hj) as [? Hlt]. split; [done|]. intros q y Hq Hy. destruct (Hlk q y Hy) as [[-> ->]|[_ Hy']]; [lia|by eapply Hlt].
Qed.

(** The head leaves a completed store. *)
Lemma Inv_pop s L e E w C : Inv s L (e :: E) w C -> completed e = true ->
  let q := sqs s in
  exists w', w = S w' /\
  Inv (set_sq s (mkSQ (storeQueue q) (SQEntries q) (stores q - 1) (storesToWB q) (incrStIdx s (storeHead q)) (storeWBIdx q) (storeTail q))) L E w' C.
Proof.
  intros H Hcp q. destruct (store_at _ _ _ _ _ 0 e H ltac:(done)) as (id & i & Hid & Heid & Hi & _ & _ & Hok).
  pose proof (t_completed _ _ _ _ _ _ _ _ _ _ _ Hok Hcp) as Hw. destruct w as [|w]; [lia|]. exists w. split; [done|].
  pose proof (t_sent _ _ _ _ _ _ _ _ _ _ _ Hok Hw) as Hc.
  assert (Hp : forall k, pos (SQEntries q) (incrStIdx s (storeHead q)) k = storePos s (S k)).
  { intros k. pose proof (r_head _ _ _ _ _ (i_sq _ _ _ _ _ H)) as Hh. pose proof (r_n _ _ _ _ _ (i_sq _ _ _ _ _ H)) as Hn. unfold incrStIdx, storePos, q.
    rewrite <- (pos_0 _ _ Hh) at 1. rewrite incrIdx_pos by done. by rewrite pos_pos. }
  destruct H. split; simpl; try done.
  - by eapply ring_pop.
  - simpl in i_stores. unfold q. lia.
  - simpl in i_w. lia.
  - unfold q. rewrite i_wb. symmetry. apply Hp.
  - unfold q. rewrite i_toWB, numWaiting_cons. unfold waits. rewrite Hcp, andb_false_r. simpl. lia.
  - by apply StronglySorted_inv in i_ssorted as [? _].
  - intros k j Hj. destruct (i_load k j Hj) as [a []]. exists a. split; try done. intros Hx. destruct (l_older Hx) as [H1 H2].
    split; [intros y Hy; apply H1; by right|]. assert (Hlt : sn (insts (world s)) (eid e) < seqNum a) by (apply H1; [by left|done]).
    rewrite fmap_cons, older_cons, decide_True in H2 by done. destruct H2 as [[_ ?]|H2]; [done|right]. rewrite H2. symmetry. apply Hp.
  - intros k y Hy. destruct (i_store (S k) y Hy) as (j & a & []). exists j, a. split; try done; [rewrite t_idx; symmetry; apply Hp|..].
    + intros Hk. apply t_sent. lia.
    + intros Hk. specialize (t_completed Hk). lia.
    + intros Hk. destruct (t_committed Hk) as [|[? ?]]; [left; lia|right; split; [lia|done]].
  - destruct i_flight. split; try done.
    + intros p x Hx Hl Ha. destruct (f_awaits p x Hx Hl Ha) as (k & z & Hk & Hz & Hiz & Hix & ? & ?). destruct k as [|k]; [simpl in Hz; congruence|].
      exists k, z. split_and!; try done; [lia|]. rewrite Hix. symmetry. apply Hp.
    + destruct f_retry as [Hb Hr]. split; [done|]. intros pkt Hpk. destruct (Hr pkt Hpk) as (? & p & y & z & ? & Hy & ? & Hz & ? & Hix & ?). split; [done|]. exists p, y, z.
      split_and!; try done; [|naive_solver..]. rewrite Hix. symmetry. apply Hp.
    + intros j Hj. destruct (f_sent j Hj) as [? Hlt]. split; [done|]. intros k y Hk Hy. apply (Hlt (S k) y); [lia|done].
Qed.

(** What the head leaves behind. *)
Fixpoint drop_done (E : list SQEntry) (w : nat) : list SQEntry * nat :=
  match E with
  | e :: E' => if completed e then drop_done E' (pred w) else (E, w)
  | [] => ([], w)
  end.

Lemma lsq_head_loop_ok : forall fuel s L e E w C, Inv s L (e :: E) w C -> completed e = true -> (length E < fuel)%nat ->
  exists s', head_loop fuel s = Ok s' /\ Inv s' L (drop_done E (pred w)).1 (drop_done E (pred w)).2 C /\
    storeQueue (sqs s') = storeQueue (sqs s) /\ lqs s' = lqs s /\ world s' = world s /\ stall (unit_ s') = stall (unit_ s) /\ blocked (unit_ s') = blocked (unit_ s) /\
    ports (unit_ s') = ports (unit_ s) /\ storeWBIdx (sqs s') = storeWBIdx (sqs s) /\ SQEntries (sqs s') = SQEntries (sqs s) /\ lsqID (unit_ s') = lsqID (unit_ s).
Proof.
  induction fuel as [|fuel IH]; intros s L e E w C H Hcp Hf; [lia|]. cbn [head_loop].
  destruct (Inv_pop _ _ _ _ _ _ H Hcp) as (w' & -> & H1). cbn [pred]. set (s1 := set_sq s _) in *.
  assert (Hh : storeHead (sqs s1) = storePos s1 0) by (unfold storePos; symmetry; apply pos_0; eapply r_head; by apply H1).
  rewrite Hh. rewrite (storePos_tail _ _ _ _ _ 0 H1) by lia. destruct E as [|e' E].
  - destruct (ring_sentinel _ _ _ _ _ (i_sq _ _ _ _ _ H1)) as [y Hy]. cbn [length] in Hy. unfold entry, storePos. rewrite Hy. cbn [mbind res_bind]. rewrite andb_false_r.
    exists s1. done.
  - rewrite (entry_ok _ _ _ _ _ 0 e' H1) by done. cbn [mbind res_bind length]. rewrite bool_decide_eq_false_2 by done. cbn [negb drop_done]. rewrite andb_true_r.
    destruct (completed e') eqn:Ec; [|by exists s1]. destruct (IH s1 L e' E w' C H1 Ec ltac:(simpl in Hf; lia)) as (s' & -> & H' & Hrest). exists s'. split; [done|].
    split; [done|]. destruct Hrest as (-> & -> & -> & -> & -> & -> & -> & -> & ->). done.
Qed.

(** ** What does not depend on the write-back index *)
Lemma unstall_wb s n i : unstall (set_storeWBIdx s n) i = (fun s' => set_storeWBIdx s' n) <$> unstall s i.
Proof.
  unfold unstall, entry_inst, entry, seq, get, load_at. simpl. destruct (stalled _); [|done].
  destruct (vget (storeQueue (sqs s)) i) as [e|]; [simpl|done]. destruct (inst e) as [j|]; [simpl|done]. destruct (insts (world s) !! j) as [a|]; [simpl|done].
  destruct (seqNum a =? _); [|done]. by destruct (vget _ _) as [[l|]|].
Qed.
Lemma set_status_wb s n id st : set_status (set_storeWBIdx s n) id st = (fun s' => set_storeWBIdx s' n) <$> set_status s id st.
Proof. unfold set_status, upd, get. simpl. by destruct (insts (world s) !! id). Qed.
Lemma head_loop_wb fuel : forall s n, head_loop fuel (set_storeWBIdx s n) = (fun s' => set_storeWBIdx s' n) <$> head_loop fuel s.
Proof.
  induction fuel as [|fuel IH]; intros s n; [done|]. cbn [head_loop]. unfold entry. simpl.
  unfold incrStIdx. simpl. destruct (vget _ _) as [e|]; [simpl|done]. destruct (_ && _); [|done].
  match goal with |- head_loop fuel ?x = _ <$> head_loop fuel ?y => change x with (set_storeWBIdx y n) end. apply IH.
Qed.

Lemma completeStore_wb s n i : completeStore (set_storeWBIdx s n) i = (fun s' => set_storeWBIdx s' n) <$> completeStore s i.
Proof.
  unfold completeStore, put_entry, entry. simpl. destruct (vget (storeQueue (sqs s)) i) as [e|]; [simpl|done]. destruct (inst e) as [j|]; [simpl|done].
  destruct (vset _ _ _) as [l|]; [simpl|done].
  set (s1 := emit _ EActivityThisCycle).
  match goal with |- context [emit (emit ?y EWakeCPU) EActivityThisCycle] => set (s2 := emit (emit y EWakeCPU) EActivityThisCycle) end.
  change s1 with (set_storeWBIdx s2 n). change (sqs (set_storeWBIdx s2 n)) with (sqs s2).
  destruct (_ =? _).
  - rewrite head_loop_wb. destruct (head_loop _ s2) as [s3|]; [simpl|done]. change (emit (set_storeWBIdx s3 n) EUpdateLSQNextCycle) with (set_storeWBIdx (emit s3 EUpdateLSQNextCycle) n).
    rewrite unstall_wb. destruct (unstall _ i) as [s4|]; [simpl|done]. apply set_status_wb.
  - simpl. rewrite unstall_wb. destruct (unstall _ i) as [s4|]; [simpl|done]. apply set_status_wb.
Qed.

(** ** Completion *)

(** What completing a store leaves as it is. *)
Record steady (s s' : t) : Prop := mkSteady {
  e_lq : lqs s' = lqs s;
  e_n : SQEntries (sqs s') = SQEntries (sqs s);
  e_wb : storeWBIdx (sqs s') = storeWBIdx (sqs s);
  e_len : length (storeQueue (sqs s')) = length (storeQueue (sqs s));
  e_blocked : blocked (unit_ s') = blocked (unit_ s);
  e_ports : ports (unit_ s') = ports (unit_ s);
  e_id : lsqID (unit_ s') = lsqID (unit_ s);
  e_states : states (world s') = states (world s);
  e_tid : retryTid (world s') = retryTid (world s);
  e_sn : forall id, sn (insts (world s')) id = sn (insts (world s)) id
}.
Lemma steady_trans a b c : steady a b -> steady b c -> steady a c.
Proof. intros [] []. split; congruence. Qed.

Lemma unstall_ok s L E w C i e j a : Inv s L E w C -> entry s i = Ok e -> inst e = Some j -> insts (world s) !! j = Some a ->
  exists s', unstall s i = Ok s' /\ Inv s' L E w C /\ steady s s' /\ sqs s' = sqs s /\ insts (world s') = insts (world s).
Proof.
  intros H He Hj Ha. unfold unstall. destruct (stalled (stall (unit_ s))) eqn:Est; [|by exists s].
  unfold entry_inst. rewrite He. cbn [mbind res_bind]. rewrite Hj. cbn [mbind res_bind deref]. unfold seq, get. rewrite Ha. cbn [mbind res_bind deref].
  destruct (_ =? _); [|by exists s]. destruct (i_stall _ _ _ _ _ H Est) as (k & l & b & Hl & Hp & _). unfold load_at.
  match goal with |- context [lqs (set_stall s ?x)] => change (lqs (set_stall s x)) with (lqs s) end. rewrite Hp. unfold loadPos.
  rewrite (ring_vget _ _ _ _ _ k (Some l) (i_lq _ _ _ _ _ H)) by (by rewrite list_lookup_fmap, Hl). cbn [mbind res_bind deref].
  eexists. split; [reflexivity|]. split; [|done]. apply Inv_emit; [|done]. destruct H. by split.
Qed.

Lemma drop_done_measure E w : (forall k e, E !! k = Some e -> completed e = true -> (k < w)%nat) -> (w <= length E)%nat ->
  (length (drop_done E w).1 - (drop_done E w).2 = length E - w)%nat.
Proof.
  revert w. induction E as [|e E IH]; intros w Hc Hw; [done|]. cbn [drop_done]. destruct (completed e) eqn:Ec; [|done].
  pose proof (Hc 0%nat e ltac:(done) Ec). rewrite IH; simpl; [lia| |simpl in Hw; lia]. intros k y Hy Hcy. specialize (Hc (S k) y Hy Hcy). lia.
Qed.

(** The entries and the number sent after the [k]-th store has completed. *)
Definition finish (E : list SQEntry) (w k : nat) (e : SQEntry) : list SQEntry * nat :=
  match k with O => drop_done (tail E) (pred w) | S _ => (<[k := set_completed e]> E, w) end.

Lemma completeStore_ok s L E w C k e : Inv s L E w C -> (k < w)%nat -> E !! k = Some e -> completed e = false -> unawaited s (eid e) ->
  exists s', completeStore s (storePos s k) = Ok s' /\ Inv s' L (finish E w k e).1 (finish E w k e).2 C /\ steady s s' /\
    (length (finish E w k e).1 - (finish E w k e).2 = length E - w)%nat.
Proof.
  intros H Hkw Hk Hcp Hun. destruct (store_at _ _ _ _ _ _ _ H Hk) as (id & i & Hid & Heid & Hi & _ & _ & Hok).
  unfold completeStore. rewrite (entry_ok _ _ _ _ _ _ _ H Hk). cbn [mbind res_bind]. rewrite Hid. cbn [mbind res_bind assert_ptr].
  rewrite (put_entry_ok _ _ _ _ _ _ _ _ H Hk). cbn [mbind res_bind].
  pose proof (Inv_complete _ _ _ _ _ _ _ H Hkw Hk Hcp Hun) as H1.
  change (storesToWB (sqs (with_entry s k (set_completed e) (storesToWB (sqs s))))) with (storesToWB (sqs s)).
  change (set_storesToWB (with_entry s k (set_completed e) (storesToWB (sqs s))) (storesToWB (sqs s) - 1)) with (with_entry s k (set_completed e) (storesToWB (sqs s) - 1)).
  set (s1 := with_entry s k (set_completed e) (storesToWB (sqs s) - 1)) in *.
  assert (H2 : Inv (emit (emit s1 EWakeCPU) EActivityThisCycle) L (<[k := set_completed e]> E) w C) by (do 2 (apply Inv_emit; [|done]); done).
  set (s2 := emit (emit s1 EWakeCPU) EActivityThisCycle) in *. assert (Hs2 : steady s s2) by (split; try done; simpl; by rewrite length_insert).
  set (idx := storePos s k). pose proof (lookup_lt_Some _ _ _ Hk) as Hlt.
  assert (Hvec : storeQueue (sqs s2) !! Z.to_nat idx = Some (set_completed e)).
  { simpl. apply list_lookup_insert_eq. pose proof (ring_slot _ _ _ _ _ k (i_sq _ _ _ _ _ H)) as Hsl. unfold idx, storePos. lia. }
  assert (Hidx : 0 <= idx) by (apply pos_range; eapply r_n; by apply H).
  assert (Hhead : (idx =? storeHead (sqs s2)) = bool_decide (k = 0%nat)).
  { assert (storeHead (sqs s2) = storePos s 0) as -> by (symmetry; apply pos_0; eapply r_head; by apply H). case_bool_decide as E0; [subst; apply Z.eqb_refl|].
    apply Z.eqb_neq. intros E1. apply E0. pose proof (r_n _ _ _ _ _ (i_sq _ _ _ _ _ H)). pose proof (r_free _ _ _ _ _ (i_sq _ _ _ _ _ H)). eapply (pos_inj _ ltac:(done)); [lia|lia|exact E1]. }
  rewrite Hhead.
  assert (Hm : exists s3, (if bool_decide (k = 0%nat) then s' ← head_loop (length (storeQueue (sqs s2))) s2; Ok (emit s' EUpdateLSQNextCycle) else Ok s2) = Ok s3 /\
            Inv s3 L (finish E w k e).1 (finish E w k e).2 C /\ steady s2 s3 /\ storeQueue (sqs s3) = storeQueue (sqs s2) /\ insts (world s3) = insts (world s2) /\
            (length (finish E w k e).1 - (finish E w k e).2 = length E - w)%nat).
  { case_bool_decide as E0.
    - subst k. destruct E as [|e0 E]; [done|]. injection Hk as ->. cbn [finish tail]. cbn [insert list_insert] in H2.
      destruct (lsq_head_loop_ok (length (storeQueue (sqs s2))) s2 L _ E w C H2 eq_refl) as (s3 & -> & H3 & Hr1 & Hr2 & Hr3 & Hr4 & Hr5 & Hr6 & Hr7 & Hr8 & Hr9).
      { pose proof (r_len _ _ _ _ _ (i_sq _ _ _ _ _ H2)). pose proof (r_free _ _ _ _ _ (i_sq _ _ _ _ _ H2)) as Hfr. simpl in Hfr. simpl in *. lia. }
      cbn [mbind res_bind]. exists (emit s3 EUpdateLSQNextCycle). split; [done|]. split; [by apply Inv_emit|]. split; [|split; [done|split; [simpl; by rewrite Hr3|]]].
      + split; simpl; try done; try (by rewrite Hr3); try (by rewrite Hr1). exact (f_equal length Hr1).
      + rewrite drop_done_measure; [simpl; lia| |pose proof (i_w _ _ _ _ _ H); simpl in *; lia]. intros j y Hy Hcy.
        destruct (store_at _ _ _ _ _ (S j) y H Hy) as (? & ? & _ & _ & _ & _ & _ & Hoky). pose proof (t_completed _ _ _ _ _ _ _ _ _ _ _ Hoky Hcy). lia.
    - exists s2. destruct k as [|k]; [done|]. cbn [finish fst snd]. rewrite length_insert. done. }
  destruct Hm as (s3 & -> & H3 & Hs3 & Hq3 & Hi3 & Hmeas). cbn [mbind res_bind].
  assert (He3 : entry s3 idx = Ok (set_completed e)) by (apply vget_Ok; split; [done|by rewrite Hq3]).
  destruct (unstall_ok s3 _ _ _ _ idx _ id i H3 He3) as (s4 & -> & H4 & Hs4 & _ & Hi4); [done|by rewrite Hi3|]. cbn [mbind res_bind].
  destruct (Inv_status s4 _ _ _ _ id i DynInst.Completed H4) as (s5 & -> & H5 & ->); [by rewrite Hi4, Hi3|done..|].
  eexists. split; [done|]. split; [done|]. split; [|done]. eapply steady_trans; [exact Hs2|]. eapply steady_trans; [exact Hs3|]. eapply steady_trans; [exact Hs4|].
  split; try done. intros j. simpl. apply sn_insert with (i := i); [by rewrite Hi4, Hi3|done].
Qed.
