(* ===== verification/LsqWriteback.v ===== *)
(** * Writing back keeps the invariant of the load/store queue *)
From S2P Require Import Prelude EventQueue Request Packet Rob LsqUnit LsqInv LsqOps LsqSend.
Import LSQUnit.

Lemma res_fmap_Ok {A B} (f : A -> B) (m : res A) b : f <$> m = Ok b -> exists a, m = Ok a /\ b = f a.
Proof. destruct m as [a|]; [|done]. intros [= <-]. by exists a. Qed.
Lemma set_storeWBIdx_id s n : storeWBIdx (sqs s) = n -> set_storeWBIdx s n = s.
Proof. intros <-. by destruct s as [[? ? ? [] ? ? ? ?] ?]. Qed.

(** ** After a packet was taken *)
Lemma storePostSend_ok s L E w C e : Inv (set_storeWBIdx s (storePos s (S w))) L E (S w) C -> storeWBIdx (sqs s) = storePos s w -> E !! w = Some e ->
  exists s', storePostSend s = Ok s' /\ Inv s' L E (S w) C /\ steady (set_storeWBIdx s (storePos s (S w))) s'.
Proof.
  intros H Hwb He. set (n := storePos s (S w)) in *. set (g := set_storeWBIdx s n) in *.
  destruct (store_at _ _ _ _ _ _ _ H He) as (id & i & Hid & Heid & Hi & _ & _ & Hok). change (storePos g) with (storePos s) in Hok.
  pose proof (entry_ok _ _ _ _ _ _ _ H He) as Hent. change (storePos g) with (storePos s) in Hent.
  destruct (unstall_ok g L E (S w) C (storePos s w) e id i H Hent Hid Hi) as (g1 & Hun & H1 & Hst1 & Hsq1 & Hin1).
  unfold g in Hun. rewrite unstall_wb in Hun. apply res_fmap_Ok in Hun as (s1 & Hs1 & ->).
  unfold storePostSend. rewrite Hwb, Hs1. cbn [mbind res_bind].
  assert (Hent1 : entry_inst s1 (storePos s w) = Ok id).
  { unfold entry_inst, entry. assert (Hq : storeQueue (sqs s1) = storeQueue (sqs s)) by (apply (f_equal storeQueue) in Hsq1; exact Hsq1).
    rewrite Hq. unfold entry in Hent. change (sqs g) with (sqs (set_storeWBIdx s n)) in Hent. simpl in Hent. rewrite Hent. cbn [mbind res_bind]. by rewrite Hid. }
  rewrite Hent1. cbn [mbind res_bind]. change (insts (world (set_storeWBIdx s1 n))) with (insts (world s1)) in Hin1.
  change (insts (world g)) with (insts (world s)) in *. unfold get. rewrite Hin1, Hi. cbn [mbind res_bind deref].
  assert (Hn : SQEntries (sqs s1) = SQEntries (sqs s)) by (apply (f_equal SQEntries) in Hsq1; exact Hsq1).
  assert (Hinc : forall s2, SQEntries (sqs s2) = SQEntries (sqs s) -> incrStIdx s2 (storePos s w) = n).
  { intros s2 Hs2. unfold incrStIdx. rewrite Hs2. apply (incrStIdx_ok _ _ _ _ _ w H). }
  destruct (isStoreConditional i).
  - cbn [mbind res_bind]. rewrite (Hinc s1 Hn). by exists (set_storeWBIdx s1 n).
  - destruct (Inv_status (set_storeWBIdx s1 n) L E (S w) C id i DynInst.Completed H1) as (g2 & Hst & H2 & Hg2); [by rewrite <- Hi, <- Hin1|done..|].
    rewrite set_status_wb in Hst. apply res_fmap_Ok in Hst as (s2 & Hs2 & Eg2). rewrite Hs2. cbn [mbind res_bind].
    assert (Hn2 : SQEntries (sqs s2) = SQEntries (sqs s)).
    { rewrite Eg2 in Hg2. apply (f_equal (fun x => SQEntries (sqs x))) in Hg2. simpl in Hg2. by rewrite Hg2. }
    rewrite (Hinc s2 Hn2). exists (set_storeWBIdx s2 n). rewrite <- Eg2. split; [done|]. split; [done|]. eapply steady_trans; [exact Hst1|]. rewrite Hg2.
    split; try done. intros j. simpl. apply sn_insert with (i := i); [by rewrite Hin1|done].
Qed.

(** A write-back event is scheduled. *)
Lemma Inv_event s L E w C id i pkt d : Inv s L E w C -> insts (world s) !! id = Some i -> memData i <> None ->
  (forall p, senderState pkt = Some p -> p < nextState (world s) /\ ~ accepted (trace (world s)) p /\ (forall r, retryPkt (blocked (unit_ s)) = Some r -> senderState r <> Some p)) ->
  Inv (emit s (EWriteback id pkt d)) L E w C.
Proof.
  intros [] Hi Hm Hp. assert (Ha : forall p, accepted (trace (world s) ++ [EWriteback id pkt d]) p -> accepted (trace (world s)) p).
  { intros p [?|(pk & ? & _)]%accepted_app; done. }
  assert (Hs : sent (trace (world s) ++ [EWriteback id pkt d]) = sent (trace (world s))) by (rewrite sent_app; apply app_nil_r).
  split; try done. destruct i_flight. split; simpl; rewrite ?Hs; try done.
  - intros pk ok p [Hin|Heq%list_elem_of_singleton]%elem_of_app; [by eapply f_pkts|done].
  - intros p x Hx Hl Hac. eapply f_awaits; eauto.
  - intros p q x y Hx Hy Hl Hl' Hac Hbc. eapply f_inj; eauto.
  - destruct f_retry as [Hb Hr]. split; [done|]. intros pk Hpk. destruct (Hr pk Hpk) as (? & p & x & e & ? & ? & ? & ? & ? & ? & ? & ? & ? & Hna). split; [done|].
    exists p, x, e. split_and!; try done. intros Hac. by apply Hna, Ha.
  - intros j pk d' [Hin|[= -> -> ->]%list_elem_of_singleton]%elem_of_app.
    + destruct (f_events j pk d' Hin) as [? Hq]. split; [done|]. intros p Hp'. destruct (Hq p Hp') as (? & Hna & ?). split_and!; try done. intros Hac. by apply Hna, Ha.
    + split; [by exists i|]. intros p Hp'. destruct (Hp p Hp') as (? & Hna & ?). split_and!; try done. intros Hac. by apply Hna, Ha.
Qed.

Lemma unawaited_unsent s L E w C k e : Inv s L E w C -> E !! k = Some e -> (w <= k)%nat -> unawaited s (eid e).
Proof.
  intros H He Hk q y Hy Hl Ha Heq. destruct (f_awaits _ _ _ _ _ _ _ _ _ _ (i_flight _ _ _ _ _ H) q y Hy Hl Ha) as (j & z & Hj & Hz & Hiz & _).
  destruct (store_at _ _ _ _ _ _ _ H He) as (id & i & Hid & Heid & _).
  assert (j = k); [|lia]. eapply (Inv_sn_inj _ _ _ _ _ j k z e H); [done..|]. rewrite Hid, Hiz. congruence.
Qed.

Lemma unblocked s L E w C : Inv s L E w C -> isStoreBlocked (blocked (unit_ s)) = false -> retryPkt (blocked (unit_ s)) = None.
Proof.
  intros H Hb. destruct (f_retry _ _ _ _ _ _ _ _ _ _ (i_flight _ _ _ _ _ H)) as [Hr _]. rewrite Hb in Hr. symmetry in Hr. apply bool_decide_eq_false in Hr.
  destruct (retryPkt _); [|done]. exfalso. by apply Hr.
Qed.

Lemma store_cmd rq : is_store_cmd (if Request.isSwap rq then MemCmd.SwapReq else if Request.isLLSC rq then MemCmd.StoreCondReq else MemCmd.WriteReq) = true.
Proof. by destruct (Request.isSwap rq), (Request.isLLSC rq). Qed.

(** ** A store is written back *)

(** Either one more store has been sent, or the cache has refused one. *)
Definition progress (E E' : list SQEntry) (w w' : nat) (s' : t) : Prop :=
  (length E' - w' < length E - w)%nat \/ isStoreBlocked (blocked (unit_ s')) = true.

Section Send.
Context (env : Env) (s : t) (L : list Z) (E : list SQEntry) (w : nat) (C : Z) (e : SQEntry) (id : Z) (i : Inst) (x : LSQSenderState) (d : list Z) (pkt : Pkt).
Context (H : Inv s L E w C) (He : E !! w = Some e) (Hid : inst e = Some id) (Hi : insts (world s) !! id = Some i).
Context (Hc : canWB e = true) (Hcm : committed e = false) (Hb : isStoreBlocked (blocked (unit_ s)) = false).
Context (Hx : x = mkState id false (storePos s w) (noWB x) false false 1 None None).
Context (Hpk : senderState pkt = Some (nextState (world s))) (Hpd : (pdata pkt).1 = id) (Hcmd : is_store_cmd (cmd pkt) = true).

Lemma Inv_handed_next : Inv (handed (set_storeWBIdx s (storePos s (S w))) w e id i d x) L (<[w := set_committed e]> E) (S w) C.
Proof. apply Inv_handed; try done; [|lia]. eapply Inv_skip; [done..|]. by eapply unblocked. Qed.

Lemma handed_facts h : (forall p, accepted h p -> accepted (trace (world s)) p) -> (forall j pk dl, EWriteback j pk dl ∈ h -> EWriteback j pk dl ∈ trace (world s)) ->
  sent h = sent (trace (world s)) ->
  completed e = false /\ eid e = id /\
  (forall q y, (<[nextState (world s) := x]> (states (world s))) !! q = Some y -> ss_isLoad y = false -> accepted h q -> ss_inst y <> id) /\
  ~ accepted h (nextState (world s)) /\ (forall j pk dl, EWriteback j pk dl ∈ h -> senderState pk <> Some (nextState (world s))) /\
  (forall j, j ∈ sent h -> sn (<[id := set_memData (Some d) i]> (insts (world s))) j < seqNum i).
Proof.
  intros Hac Hev Hse. destruct (store_at _ _ _ _ _ _ _ H He) as (id0 & i0 & Hid0 & Heid & Hi0 & _ & _ & Hok). assert (id0 = id) as -> by congruence.
  pose proof (i_flight _ _ _ _ _ H) as Hfl.
  assert (Hna : ~ accepted h (nextState (world s))).
  { intros (pk & Hin & Hp)%Hac. pose proof (f_pkts _ _ _ _ _ _ _ _ _ _ Hfl _ _ _ Hin Hp). lia. }
  split_and!; try done.
  - destruct (completed e) eqn:Ecp; [|done]. pose proof (t_completed _ _ _ _ _ _ _ _ _ _ _ Hok Ecp). lia.
  - intros q y Hy Hl Ha. destruct (decide (q = nextState (world s))) as [->|]; [done|]. rewrite lookup_insert_ne in Hy by done.
    rewrite <- Heid. apply (unawaited_unsent _ _ _ _ _ _ _ H He ltac:(lia) q y Hy Hl). by apply Hac.
  - intros j pk dl Hin Hp. destruct (f_events _ _ _ _ _ _ _ _ _ _ Hfl _ _ _ (Hev _ _ _ Hin)) as [_ Hq]. destruct (Hq _ Hp) as (? & _). lia.
  - intros j Hj. rewrite Hse in Hj. rewrite (sn_insert _ _ _ _ Hi) by done. destruct (f_sent _ _ _ _ _ _ _ _ _ _ Hfl j Hj) as [_ Hlt].
    specialize (Hlt w e ltac:(lia) He). by rewrite Heid, (sn_get _ _ _ Hi) in Hlt.
Qed.

(** The packet [pkt] is offered to the cache, after a quiet event or none. *)
Lemma send_ok ev : (forall y, ev = Some y -> quiet (nextState (world s) + 1) y) ->
  let s1 := match ev with Some y => emit (handed s w e id i d x) y | None => handed s w e id i d x end in
  exists ok s2, sendStore env s1 pkt = Ok (ok, s2) /\
    (if ok : bool then exists s3, storePostSend s2 = Ok s3 /\ Inv s3 L (<[w := set_committed e]> E) (S w) C /\ ports (unit_ s3) = ports (unit_ s)
     else Inv s2 L (<[w := set_committed e]> E) w C /\ isStoreBlocked (blocked (unit_ s2)) = true /\ ports (unit_ s2) = ports (unit_ s)).
Proof.
  intros Hev s1. set (n := storePos s (S w)). set (E' := <[w := set_committed e]> E).
  assert (Hg : Inv (set_storeWBIdx s1 n) L E' (S w) C).
  { pose proof Inv_handed_next as Hh. unfold s1. destruct ev as [y|]; [|exact Hh]. apply (Inv_emit _ _ _ _ _ y Hh). simpl. by apply Hev. }
  assert (Htr : trace (world s1) = trace (world s) ++ match ev with Some y => [y] | None => [] end) by (unfold s1; destruct ev; [done|simpl; by rewrite app_nil_r]).
  destruct (handed_facts (trace (world s1))) as (Hcp & Heid & Hun & Hna & Hevs & Hlt).
  { intros p. rewrite Htr. destruct ev as [y|]; [|by rewrite app_nil_r]. eapply accepted_quiet. by apply Hev. }
  { intros j pk dl. rewrite Htr. destruct ev as [y|]; [|by rewrite app_nil_r]. intros [?|<-%list_elem_of_singleton]%elem_of_app; [done|]. by specialize (Hev _ eq_refl). }
  { rewrite Htr. destruct ev as [y|]; [|by rewrite app_nil_r]. eapply sent_quiet. by apply Hev. }
  assert (Hst1 : states (world s1) = <[nextState (world s) := x]> (states (world s))) by (unfold s1; by destruct ev).
  assert (Hin1 : insts (world s1) = <[id := set_memData (Some d) i]> (insts (world s))) by (unfold s1; by destruct ev).
  assert (Hbl1 : blocked (unit_ s1) = blocked (unit_ s)) by (unfold s1; by destruct ev).
  assert (Hwb1 : storeWBIdx (sqs s1) = storePos s1 w) by (unfold s1; destruct ev; apply (i_wb _ _ _ _ _ H)).
  assert (Hsp1 : forall k, storePos s1 k = storePos s k) by (unfold s1; by destruct ev).
  assert (Hpo1 : ports (unit_ s1) = ports (unit_ s)) by (unfold s1; by destruct ev).
  assert (Hnx1 : nextState (world s1) = nextState (world s) + 1) by (unfold s1; by destruct ev).
  pose proof (lookup_lt_Some _ _ _ He) as Hwl. assert (HE' : E' !! w = Some (set_committed e)) by (by apply list_lookup_insert_eq).
  assert (Hrp : retryPkt (blocked (unit_ s)) = None) by (by eapply unblocked). assert (Hxi : ss_isLoad x = false /\ ss_inst x = id /\ ss_idx x = storePos s w) by (by rewrite Hx).
  destruct Hxi as (Hx1 & Hx2 & Hx3). clearbody s1. unfold sendStore, send. destruct (sendTiming env (trace (world s1)) pkt) eqn:Eok.
  - eexists _, _. split; [reflexivity|]. cbv beta iota.
    assert (Ha : Inv (emit (set_storeWBIdx s1 n) (ESendTiming pkt true)) L E' (S w) C).
    { apply (Inv_accept (set_storeWBIdx s1 n) L E' w C w (set_committed e) id (set_memData (Some d) i) (nextState (world s)) x pkt Hg); try done; simpl.
      - rewrite Hin1. by rewrite lookup_insert_eq.
      - rewrite Hst1. by rewrite lookup_insert_eq.
      - rewrite Hx3. symmetry. apply Hsp1.
      - intros q y. simpl. rewrite Hst1. apply Hun.
      - by rewrite Hbl1.
      - intros j Hj. rewrite Hin1. by apply Hlt. }
    change (emit (set_storeWBIdx s1 n) (ESendTiming pkt true)) with (set_storeWBIdx (emit s1 (ESendTiming pkt true)) n) in Ha.
    unfold n in Ha. rewrite <- Hsp1 in Ha. change (storePos s1 (S w)) with (storePos (emit s1 (ESendTiming pkt true)) (S w)) in Ha.
    destruct (storePostSend_ok _ _ _ _ _ (set_committed e) Ha) as (s3 & Hs3 & H3 & Hst3); [done..|]. exists s3. split; [done|]. split; [done|]. rewrite (e_ports _ _ Hst3). simpl. by rewrite Hpo1.
  - change (blocked (unit_ (emit s1 (ESendTiming pkt false)))) with (blocked (unit_ s1)). rewrite Hbl1. rewrite Hrp. cbn [bool_decide c_assert mbind res_bind]. cbv beta iota.
    eexists _, _. split; [reflexivity|]. cbv beta iota. split_and!; [|done|simpl; by rewrite Hpo1]. apply Inv_retryTid.
    assert (Hf : Inv (emit (set_storeWBIdx s1 n) (ESendTiming pkt false)) L E' (S w) C).
    { apply Inv_emit; [done|]. split; [done|]. intros p Hp. simpl. rewrite Hnx1. rewrite Hpk in Hp. injection Hp as <-. lia. }
    assert (Hq : quiet (nextState (world s) + 1) (ESendTiming pkt false)) by (split; [done|]; intros p Hp; rewrite Hpk in Hp; injection Hp as <-; lia).
    pose proof (Inv_refuse _ L E' w C (set_committed e) id (nextState (world s)) x pkt (isLoadBlocked (blocked (unit_ s))) (loadBlockedHandled (blocked (unit_ s))) (blockedLoadSeqNum (blocked (unit_ s))) Hf HE' Hid eq_refl Hcp) as Hr.
    assert (Eid : set_storeWBIdx (emit (set_storeWBIdx s1 n) (ESendTiming pkt false)) (storePos (emit (set_storeWBIdx s1 n) (ESendTiming pkt false)) w) = emit s1 (ESendTiming pkt false)).
    { change (set_storeWBIdx (emit s1 (ESendTiming pkt false)) (storePos s1 w) = emit s1 (ESendTiming pkt false)). by apply set_storeWBIdx_id. }
    rewrite Eid in Hr. apply Hr; try done; simpl; clear Hr.
    + rewrite Hst1. by rewrite lookup_insert_eq.
    + rewrite Hx3. symmetry. apply Hsp1.
    + intros q y. simpl. rewrite Hst1. intros Hy Hl Ha. apply (Hun q y Hy Hl). by eapply accepted_quiet.
    + intros Ha. apply Hna. by eapply accepted_quiet.
    + by rewrite Hbl1.
    + intros j pk dl [?|?%list_elem_of_singleton]%elem_of_app; [by eapply Hevs|done].
    + intros j Hj. rewrite (sent_quiet _ _ _ Hq) in Hj. rewrite Hin1. rewrite !(sn_insert _ _ _ _ Hi) by done. rewrite (sn_get _ _ _ Hi).
      specialize (Hlt j Hj). by rewrite (sn_insert _ _ _ _ Hi) in Hlt by done.
Qed.
End Send.

(** What a step of writing back does: the invariant, with the same loads. *)
Definition step_ok (s' : t) (L : list Z) (E : list SQEntry) (w : nat) (C : Z) (ports0 : Ports) (r : res t) : Prop :=
  exists E' w', r = Ok s' /\ Inv s' L E' w' C /\ progress E E' w w' s' /\ ports (unit_ s') = ports0.

Lemma writeback_store_ok env s L E w C e id i rq : Inv s L E w C -> E !! w = Some e -> inst e = Some id -> insts (world s) !! id = Some i ->
  canWB e = true -> committed e = false -> size e <> 0 -> req e = Some rq -> isStoreBlocked (blocked (unit_ s)) = false ->
  exists s', step_ok s' L E w C (ports (unit_ s)) (writeback_store env s e id rq).
Proof.
  intros H He Hid Hi Hc Hcm Hsz Hrq Hb. destruct (store_at _ _ _ _ _ _ _ H He) as (id0 & i0 & Hid0 & Heid & Hi0 & _ & _ & Hok).
  assert (id0 = id) as -> by congruence. assert (i0 = i) as -> by congruence. destruct (t_written _ _ _ _ _ _ _ _ _ _ _ Hok Hsz) as (_ & Hszr & _ & rq' & Hrq' & [_ Hvs] & Hrsz & _).
  assert (rq' = rq) as -> by congruence. pose proof (lookup_lt_Some _ _ _ He) as Hwl.
  unfold writeback_store. rewrite (i_wb _ _ _ _ _ H), (put_entry_ok _ _ _ _ _ _ _ _ H He). cbn [mbind res_bind]. unfold get. simpl insts. rewrite Hi. cbn [mbind res_bind deref].
  rewrite (t_memData _ _ _ _ _ _ _ _ _ _ _ Hok Hcm). cbn [bool_decide c_assert mbind res_bind]. rewrite bool_decide_eq_true_2 by done. cbn [c_assert mbind res_bind].
  unfold Request.getSize. rewrite Hvs, Hrsz. cbn [c_assert mbind res_bind].
  assert (Hby : exists d, bytes (data e) 0 (size e) = Ok d).
  { unfold bytes. rewrite (t_data _ _ _ _ _ _ _ _ _ _ _ Hok). assert (Hle : (0 <=? 0) && (0 <=? size e) && (0 + size e <=? Z.of_nat data_size) = true) by (unfold data_size; rewrite !andb_true_iff, !Z.leb_le; lia).
    rewrite Hle. by eexists. }
  destruct Hby as [d ->]. cbn [mbind res_bind]. unfold upd, get. simpl insts. rewrite Hi. cbn [mbind res_bind deref]. unfold alloc_state. cbv beta iota.
  simpl nextState. set (p := nextState (world s)). unfold store_packets. rewrite (t_split _ _ _ _ _ _ _ _ _ _ _ Hok), orb_true_r. cbn [mbind res_bind]. cbv beta iota.
  set (pkt := mkPkt _ rq (id, 0) (Some p)). rewrite andb_false_r. cbv beta iota. 
  assert (Hcmd : is_store_cmd (cmd pkt) = true) by apply store_cmd.
  set (x := new_state id false (storePos s w)).
  destruct (isStoreConditional i) eqn:Esc.
  - cbn [negb c_assert mbind res_bind]. cbv beta iota. change (set_world _ (w_states _ (<[p := x]> _) (p + 1))) with (handed s w e id i d x).
    set (s1 := handed s w e id i d x). destruct (handleLockedWrite env (trace (world s1)) id rq) eqn:Elw; cbn [negb].
    + destruct (send_ok env s L E w C e id i x d pkt H He Hid Hi Hc Hcm Hb eq_refl eq_refl eq_refl Hcmd (Some (ELockedWrite id rq true))) as (ok & s2 & Hs2 & Hr); [by intros y [= <-]|].
      fold s1 in Hs2. rewrite Hs2. cbn [mbind res_bind]. cbv beta iota. destruct ok; cbn [negb].
      * destruct Hr as (s3 & -> & H3 & Hu). exists s3; eexists _, _. split_and!; [done..| |done]. left. rewrite length_insert. lia.
      * destruct Hr as (H3 & Hbl & Hu). exists s2; eexists _, _. split_and!; [done..| |done]. by right.
    + assert (Hg : Inv (handed (set_storeWBIdx s (storePos s (S w))) w e id i d x) L (<[w := set_committed e]> E) (S w) C) by (by apply Inv_handed_next).
      destruct (handed_facts s L E w C e id i x d H He Hid Hi (trace (world s))) as (Hcp & _ & Hun & Hna & _); [done..|].
      change (handed (set_storeWBIdx s (storePos s (S w))) w e id i d x) with (set_storeWBIdx s1 (storePos s (S w))) in Hg.
      assert (Hg2 : Inv (emit (emit (set_storeWBIdx s1 (storePos s (S w))) (ELockedWrite id rq false)) (EWriteback id pkt 1)) L (<[w := set_committed e]> E) (S w) C).
      { eapply (Inv_event _ _ _ _ _ id (set_memData (Some d) i)).
        - by apply Inv_emit.
        - simpl. by rewrite lookup_insert_eq.
        - done.
        - simpl. intros q [= <-]. split_and!; [lia| |].
          + intros [?|(pk & ? & _)]%accepted_app; done.
          + intros r Hr. rewrite (unblocked _ _ _ _ _ H Hb) in Hr. done. }
      destruct (completeStore_ok _ _ _ _ _ w (set_committed e) Hg2) as (s2 & Hs2 & H2 & Hst & Hms); [lia|by apply list_lookup_insert_eq|done| |].
      { intros q y. simpl. intros Hy Hl Ha. change (eid (set_committed e)) with (eid e). rewrite Heid. apply (Hun q y Hy Hl).
        apply accepted_app in Ha as [Ha|(pk & ? & _)]; [|done]. apply accepted_app in Ha as [Ha|(pk & ? & _)]; done. }
      change (emit (emit (set_storeWBIdx s1 (storePos s (S w))) (ELockedWrite id rq false)) (EWriteback id pkt 1))
        with (set_storeWBIdx (emit (emit s1 (ELockedWrite id rq false)) (EWriteback id pkt 1)) (storePos s (S w))) in Hs2, Hst.
      change (storePos (set_storeWBIdx (emit (emit s1 (ELockedWrite id rq false)) (EWriteback id pkt 1)) (storePos s (S w))) w) with (storePos s w) in Hs2.
      rewrite completeStore_wb in Hs2. apply res_fmap_Ok in Hs2 as (s3 & Hs3 & ->). rewrite Hs3. cbn [mbind res_bind].
      assert (Hinc : incrStIdx s3 (storePos s w) = storePos s (S w)).
      { pose proof (e_n _ _ Hst) as Hn. simpl in Hn. unfold incrStIdx. rewrite Hn. apply (incrStIdx_ok _ _ _ _ _ w H). }
      rewrite Hinc. eexists; eexists _, _. split_and!; [done|exact H2| |].
      * left. rewrite Hms, length_insert. lia.
      * pose proof (e_ports _ _ Hst) as Hp. simpl in Hp. simpl. by rewrite Hp.
  - unfold get_state. simpl states. rewrite lookup_insert_eq. cbn [mbind res_bind deref negb]. cbv beta iota. unfold put_state. simpl states. simpl nextState.
    rewrite insert_insert_eq. change (set_world _ (w_states _ (<[p := set_noWB x]> _) (p + 1))) with (handed s w e id i d (set_noWB x)).
    destruct (send_ok env s L E w C e id i (set_noWB x) d pkt H He Hid Hi Hc Hcm Hb eq_refl eq_refl eq_refl Hcmd None) as (ok & s2 & Hs2 & Hr); [done|].
    cbv iota in Hs2. rewrite Hs2. cbn [mbind res_bind]. cbv beta iota. destruct ok; cbn [negb].
    + destruct Hr as (s3 & -> & H3 & Hu). exists s3; eexists _, _. split_and!; [done..| |done]. left. rewrite length_insert. lia.
    + destruct Hr as (H3 & Hbl & Hu). exists s2; eexists _, _. split_and!; [done..| |done]. by right.
Qed.

(** Rounds of the loop that are enough. *)
Definition rounds (s : t) (E : list SQEntry) (w : nat) : nat := if isStoreBlocked (blocked (unit_ s)) then 1 else (length E - w + 2)%nat.

Lemma rounds_progress s s' E E' w w' fuel : isStoreBlocked (blocked (unit_ s)) = false -> progress E E' w w' s' -> (rounds s E w <= S fuel)%nat -> (rounds s' E' w' <= fuel)%nat.
Proof. unfold rounds. intros -> [Hlt|Hb] Hf; [destruct (isStoreBlocked _); lia|rewrite Hb; lia]. Qed.

(** The next store to send, if there is one, may not be. *)
Definition drained (E : list SQEntry) (w : nat) : Prop := match E !! w with Some e => canWB e = false | None => True end.
(** Why the loop ends: the cache refused a packet, or there is nothing left to
    send, if there are ports for all the stores. *)
Definition stops (s s' : t) (E E' : list SQEntry) (w w' : nat) : Prop :=
  (isStoreBlocked (blocked (unit_ s)) = true -> isStoreBlocked (blocked (unit_ s')) = true) /\
  (usedPorts (ports (unit_ s)) + Z.of_nat (length E - w) <= cachePorts (ports (unit_ s)) ->
   isStoreBlocked (blocked (unit_ s')) = true \/ cacheBlocked s' = true \/ drained E' w').

Lemma stops_trans s s1 s' E E1 E' w w1 w' : isStoreBlocked (blocked (unit_ s)) = false -> progress E E1 w w1 s1 -> stops s1 s' E1 E' w1 w' ->
  cachePorts (ports (unit_ s1)) = cachePorts (ports (unit_ s)) -> usedPorts (ports (unit_ s1)) <= usedPorts (ports (unit_ s)) + 1 -> stops s s' E E' w w'.
Proof.
  intros Hb Hp [H1 H2] Hc Hu. split; [congruence|]. intros Hport. destruct Hp as [Hlt|Hb1]; [|left; by apply H1]. apply H2. rewrite Hc. lia.
Qed.
Lemma no_waiting_drained s L E w C : Inv s L E w C -> storesToWB (sqs s) <= 0 -> drained E w.
Proof.
  intros H Hs. unfold drained. destruct (E !! w) as [e|] eqn:He; [|done]. destruct (canWB e) eqn:Ec; [|done]. exfalso.
  destruct (store_at _ _ _ _ _ _ _ H He) as (id & i & _ & _ & _ & _ & _ & Hok). rewrite (i_toWB _ _ _ _ _ H) in Hs. unfold numWaiting in Hs.
  assert (Hin : e ∈ filter (fun x => waits x = true) E).
  { apply list_elem_of_filter. split; [|by eapply list_elem_of_lookup_2]. unfold waits. rewrite Ec. destruct (completed e) eqn:Ecp; [|done].
    pose proof (t_completed _ _ _ _ _ _ _ _ _ _ _ Hok Ecp). lia. }
  destruct (filter _ E); [set_solver|simpl in Hs; lia].
Qed.

Lemma writeback_loop_ok env : forall fuel s L E w C, Inv s L E w C -> (rounds s E w <= fuel)%nat ->
  exists s' E' w', writeback_loop fuel env s = Ok s' /\ Inv s' L E' w' C /\ stops s s' E E' w w'.
Proof.
  induction fuel as [|fuel IH]; intros s L E w C H Hf; [unfold rounds in Hf; destruct (isStoreBlocked _); lia|]. cbn [writeback_loop].
  destruct (Z.ltb_spec 0 (storesToWB (sqs s))) as [_|Hno];
    [|exists s, E, w; split_and!; try done; split; [done|]; intros _; do 2 right; by eapply no_waiting_drained]. rewrite (i_wb _ _ _ _ _ H), (storePos_tail _ _ _ _ _ w H (i_w _ _ _ _ _ H)).
  case_bool_decide as Ew; cbn [andb negb].
  { exists s, E, w. split_and!; try done. split; [done|]. intros _. do 2 right. unfold drained. by rewrite (lookup_ge_None_2 E w) by lia. }
  destruct (lookup_lt_is_Some_2 E w) as [e He]; [pose proof (i_w _ _ _ _ _ H); lia|]. pose proof (lookup_lt_Some _ _ _ He) as Hwl.
  rewrite (entry_ok _ _ _ _ _ _ _ H He). cbn [mbind res_bind].
  destruct (store_at _ _ _ _ _ _ _ H He) as (id & i & Hid & Heid & Hi & _ & _ & Hok). rewrite Hid.
  destruct (canWB e) eqn:Ec; cbn [andb negb].
  2: { exists s, E, w. split_and!; try done. split; [done|]. intros _. do 2 right. unfold drained. by rewrite He. }
  destruct (Z.ltb_spec (usedPorts (ports (unit_ s))) (cachePorts (ports (unit_ s)))); cbn [negb]; [|exists s, E, w; split_and!; try done; split; [done|]; lia].
  destruct (isStoreBlocked (blocked (unit_ s))) eqn:Eb; cbn [orb]; [exists s, E, w; split_and!; try done; split; auto|].
  destruct (cacheBlocked s) eqn:Ecb; [exists s, E, w; split_and!; try done; split; auto|].
  assert (Hcp : completed e = false).
  { destruct (completed e) eqn:Ecp; [|done]. pose proof (t_completed _ _ _ _ _ _ _ _ _ _ _ Hok Ecp). lia. }
  assert (Hsk : forall s1, Inv s1 L E w C -> isStoreBlocked (blocked (unit_ s1)) = false -> Inv (set_storeWBIdx s1 (storePos s1 (S w))) L E (S w) C).
  { intros s1 H1 Hb1. eapply Inv_skip; [done..|]. by eapply unblocked. }
  destruct (Z.eqb_spec (size e) 0) as [Esz|Esz].
  - pose proof (Hsk s H Eb) as H1.
    destruct (completeStore_ok _ _ _ _ _ w e H1 ltac:(lia) He Hcp) as (s2 & Hs2 & H2 & Hst & Hms).
    { intros q y. simpl. apply (unawaited_unsent _ _ _ _ _ _ _ H He ltac:(lia)). }
    change (storePos (set_storeWBIdx s (storePos s (S w))) w) with (storePos s w) in Hs2. rewrite completeStore_wb in Hs2. apply res_fmap_Ok in Hs2 as (s3 & Hs3 & ->).
    rewrite Hs3. cbn [mbind res_bind]. assert (Hinc : incrStIdx s3 (storePos s w) = storePos s (S w)).
    { pose proof (e_n _ _ Hst) as Hn. simpl in Hn. unfold incrStIdx. rewrite Hn. apply (incrStIdx_ok _ _ _ _ _ w H). }
    rewrite Hinc. pose proof (e_ports _ _ Hst) as Hpo. simpl in Hpo.
    assert (Hpr : progress E (finish E (S w) w e).1 w (finish E (S w) w e).2 (set_storeWBIdx s3 (storePos s (S w)))) by (left; lia).
    destruct (IH _ L _ _ C H2) as (s' & E' & w' & -> & H' & Hsp); [by eapply rounds_progress|]. exists s', E', w'. split_and!; try done. eapply stops_trans; [done..| |]; simpl; rewrite Hpo; [done|lia].
  - set (s1 := set_usedPorts s _). assert (H1 : Inv s1 L E w C) by (by apply Inv_usedPorts). unfold get. change (insts (world s1)) with (insts (world s)). rewrite Hi.
    cbn [mbind res_bind deref]. destruct (isDataPrefetch i).
    + assert (Hinc : incrStIdx s1 (storePos s w) = storePos s1 (S w)) by apply (incrStIdx_ok _ _ _ _ _ w H1). rewrite Hinc.
      assert (Hpr : progress E E w (S w) (set_storeWBIdx s1 (storePos s1 (S w)))) by (left; lia).
      destruct (IH _ L _ _ C (Hsk s1 H1 Eb)) as (s' & E' & w' & -> & H' & Hsp); [by eapply rounds_progress|]. exists s', E', w'. split_and!; try done. eapply stops_trans; [done..|]. simpl. lia.
    + destruct (t_written _ _ _ _ _ _ _ _ _ _ _ Hok Esz) as (_ & _ & _ & rq & Hrq & _). rewrite Hrq. cbn [mbind res_bind assert_ptr].
      assert (Hcm : committed e = false).
      { destruct (committed e) eqn:Ecm; [|done]. destruct (t_committed _ _ _ _ _ _ _ _ _ _ _ Hok Ecm) as [|[_ Hb]]; [lia|congruence]. }
      rewrite Hcm. cbn [negb c_assert mbind res_bind]. rewrite (t_split _ _ _ _ _ _ _ _ _ _ _ Hok), andb_false_r. cbn [mbind res_bind].
      destruct (writeback_store_ok env s1 L E w C e id i rq H1 He Hid Hi Ec Hcm Esz Hrq Eb) as (s2 & E1 & w1 & -> & H2 & Hpr & Hpo). cbn [mbind res_bind].
      destruct (IH _ L _ _ C H2) as (s' & E' & w' & -> & H' & Hsp); [by eapply rounds_progress|]. exists s', E', w'. split_and!; try done. eapply stops_trans; [done..| |]; rewrite Hpo; simpl; [done|lia].
Qed.

Lemma numWaiting_nonneg E : 0 <= numWaiting E.
Proof. unfold numWaiting. lia. Qed.

Lemma writebackStores_ok env s L E w C : Inv s L E w C -> exists s' E' w', writebackStores env s = Ok s' /\ Inv s' L E' w' C /\ stops s s' E E' w w'.
Proof.
  intros H. unfold writebackStores, writebackPendingStore. rewrite (i_pending _ _ _ _ _ H).
  assert (Hp : (if HasUnalignedMemAcc env then Ok s else Ok s) = Ok s) by (by destruct (HasUnalignedMemAcc env)). rewrite Hp. cbn [mbind res_bind].
  destruct (writeback_loop_ok env (S (S (length (storeQueue (sqs s))))) s L E w C H) as (s' & E' & w' & -> & H' & Hsp).
  { unfold rounds. pose proof (r_len _ _ _ _ _ (i_sq _ _ _ _ _ H)). pose proof (r_free _ _ _ _ _ (i_sq _ _ _ _ _ H)). destruct (isStoreBlocked _); lia. }
  cbn [mbind res_bind]. pose proof (Inv_usedPorts _ _ _ _ _ H' 0) as H2. rewrite (i_stores _ _ _ _ _ H2), (i_toWB _ _ _ _ _ H2).
  assert (Hnn : (0 <=? Z.of_nat (length E')) && (0 <=? numWaiting E') = true).
  { pose proof (numWaiting_nonneg E'). rewrite andb_true_iff, !Z.leb_le. lia. }
  rewrite Hnn. cbn [c_assert mbind res_bind]. exists (set_usedPorts s' 0), E', w'. split_and!; try done.
Qed.

(** ** A retry *)
Lemma unstall_blocked s b i : unstall (set_blocked s b) i = (fun s' => set_blocked s' b) <$> unstall s i.
Proof.
  unfold unstall, entry_inst, entry, seq, get, load_at. simpl. destruct (stalled _); [|done].
  change (sqs (set_blocked s b)) with (sqs s).
  destruct (vget (storeQueue (sqs s)) i) as [e|]; [simpl|done]. destruct (inst e) as [j|]; [simpl|done]. destruct (insts (world s) !! j) as [a|]; [simpl|done].
  destruct (seqNum a =? _); [|done]. match goal with |- context [lqs (set_stall (set_blocked s b) ?x)] => change (lqs (set_stall (set_blocked s b) x)) with (lqs s); change (lqs (set_stall s x)) with (lqs s) end.
  by destruct (vget _ _) as [[l|]|].
Qed.
Lemma storePostSend_blocked s b : storePostSend (set_blocked s b) = (fun s' => set_blocked s' b) <$> storePostSend s.
Proof.
  unfold storePostSend. rewrite unstall_blocked. change (sqs (set_blocked s b)) with (sqs s). destruct (unstall s _) as [s1|]; [|done]. cbn [fmap res_fmap mbind res_bind].
  unfold entry_inst, entry. change (sqs (set_blocked s1 b)) with (sqs s1). destruct (vget _ _) as [e|]; [|done]. cbn [mbind res_bind]. destruct (inst e) as [j|]; [|done].
  cbn [mbind res_bind deref]. unfold get, set_status, upd, get. change (insts (world (set_blocked s1 b))) with (insts (world s1)).
  destruct (insts (world s1) !! j) as [a|]; [|done]. cbn [mbind res_bind deref]. by destruct (isStoreConditional a).
Qed.

Lemma recvRetry_ok env s L E w C : Inv s L E w C -> exists s' E' w', recvRetry env s = Ok s' /\ Inv s' L E' w' C.
Proof.
  intros H. unfold recvRetry. destruct (isStoreBlocked (blocked (unit_ s))) eqn:Eb; [|by exists s, E, w].
  destruct (f_retry _ _ _ _ _ _ _ _ _ _ (i_flight _ _ _ _ _ H)) as [Hb Hr]. rewrite Eb in Hb. symmetry in Hb. apply bool_decide_eq_true in Hb as [pkt Hpkt].
  destruct (Hr pkt Hpkt) as (Hcmd & p & x & e & Hpk & Hx & Hl & He & Hid & Hix & Hpd & Hcm & Hc & Hna). rewrite Hpkt. cbn [mbind res_bind assert_ptr].
  destruct (store_at _ _ _ _ _ _ _ H He) as (id & i & Hid0 & Heid & Hi & _ & _ & Hok). assert (id = ss_inst x) as -> by congruence.
  assert (Hcp : completed e = false).
  { destruct (completed e) eqn:Ecp; [|done]. pose proof (t_completed _ _ _ _ _ _ _ _ _ _ _ Hok Ecp). lia. }
  unfold send. cbv beta iota. destruct (sendTiming env (trace (world s)) pkt).
  - rewrite Hpk. cbn [mbind res_bind deref]. unfold get_state. simpl states. rewrite Hx. cbn [mbind res_bind deref].
    destruct (f_states _ _ _ _ _ _ _ _ _ _ (i_flight _ _ _ _ _ H) p x Hx) as [Hpend _ _]. rewrite Hpend, andb_false_r.
    set (b0 := blocked (unit_ s)). set (b1 := mkBlocked None false (isLoadBlocked b0) (loadBlockedHandled b0) (blockedLoadSeqNum b0)).
    set (s1 := emit s (ESendTiming pkt true)). set (n := storePos s (S w)).
    pose proof (Inv_unrefuse s L E w C pkt (isLoadBlocked b0) (loadBlockedHandled b0) (blockedLoadSeqNum b0) H Hpkt) as Hg. fold b1 n in Hg.
    assert (Ha : Inv (emit (set_storeWBIdx (set_blocked s b1) n) (ESendTiming pkt true)) L E (S w) C).
    { apply (Inv_accept _ L E w C w e (ss_inst x) i p x pkt Hg); try done; simpl.
      - rewrite <- Heid. apply (unawaited_unsent _ _ _ _ _ _ _ H He ltac:(lia)).
      - intros j pk d Hin Hp. destruct (f_events _ _ _ _ _ _ _ _ _ _ (i_flight _ _ _ _ _ H) j pk d Hin) as [_ Hq]. destruct (Hq p Hp) as (_ & _ & Hr'). by apply (Hr' pkt Hpkt).
      - intros j Hj. destruct (f_sent _ _ _ _ _ _ _ _ _ _ (i_flight _ _ _ _ _ H) j Hj) as [_ Hlt]. specialize (Hlt w e ltac:(lia) He). by rewrite Heid, (sn_get _ _ _ Hi) in Hlt. }
    change (emit (set_storeWBIdx (set_blocked s b1) n) (ESendTiming pkt true)) with (set_storeWBIdx (set_blocked s1 b1) (storePos (set_blocked s1 b1) (S w))) in Ha.
    destruct (storePostSend_ok _ _ _ _ _ e Ha) as (s2 & Hs2 & H2 & _); [apply (i_wb _ _ _ _ _ H)|done|]. rewrite storePostSend_blocked in Hs2.
    apply res_fmap_Ok in Hs2 as (s3 & Hs3 & ->). rewrite Hs3. cbn [mbind res_bind]. cbv beta iota. eexists _, E, (S w). split; [reflexivity|].
    assert (Hb3 : blocked (unit_ s3) = b0).
    { pose proof (storePostSend_blocked s1 b0) as Hbb. change (set_blocked s1 b0) with (set_blocked (emit s (ESendTiming pkt true)) (blocked (unit_ s))) in Hbb.
      assert (Es1 : set_blocked (emit s (ESendTiming pkt true)) (blocked (unit_ s)) = s1) by (unfold s1; by destruct s as [[] ?]).
      rewrite Es1, Hs3 in Hbb. injection Hbb as Hbb. rewrite Hbb. done. }
    rewrite Hb3. by apply Inv_retryTid.
  - eexists _, E, w. split; [reflexivity|]. apply Inv_retryTid, Inv_emit; [done|]. split; [done|]. intros q Hq. apply (f_fresh _ _ _ _ _ _ _ _ _ _ (i_flight _ _ _ _ _ H)).
    rewrite Hpk in Hq. injection Hq as <-. by exists x.
Qed.

(** ** Responses and events *)

(** ** Sender states *)
Lemma Inv_delete s L E w C p : Inv s L E w C -> (forall r, retryPkt (blocked (unit_ s)) = Some r -> senderState r <> Some p) -> Inv (delete_state s p) L E w C.
Proof.
  intros [] Hr. split; try done. destruct i_flight.
  assert (Hd : forall q y, delete p (states (world s)) !! q = Some y -> states (world s) !! q = Some y) by (intros q y [_ Hy]%lookup_delete_Some; done).
  split; simpl; try done.
  - intros q [y Hy]. apply f_fresh. exists y. by apply Hd.
  - intros q y Hy. eapply f_states. by apply Hd.
  - intros q y Hy. eapply f_awaits. by apply Hd.
  - intros q r y z Hy Hz. eapply f_inj; by apply Hd.
  - destruct f_retry as [Hb Hr']. split; [done|]. intros pkt Hpkt. destruct (Hr' pkt Hpkt) as (? & q & y & e & Hq & Hy & ?). split; [done|]. exists q, y, e.
    split; [done|]. split; [|done]. rewrite lookup_delete_ne; [done|]. intros <-. by apply (Hr pkt Hpkt).
Qed.

Lemma Inv_put_state s L E w C p x y : Inv s L E w C -> states (world s) !! p = Some x -> ss_inst y = ss_inst x -> ss_isLoad y = ss_isLoad x -> ss_idx y = ss_idx x ->
  ss_isSplit y = ss_isSplit x -> pktToSend y = pktToSend x -> mainPkt y = mainPkt x -> Inv (put_state s p y) L E w C.
Proof.
  intros [] Hp H1 H2 H3 H4 H5 H6. split; try done. destruct i_flight.
  assert (Hd : forall q z, <[p := y]> (states (world s)) !! q = Some z -> exists z', states (world s) !! q = Some z' /\
    ss_inst z = ss_inst z' /\ ss_isLoad z = ss_isLoad z' /\ ss_idx z = ss_idx z' /\ ss_isSplit z = ss_isSplit z' /\ pktToSend z = pktToSend z' /\ mainPkt z = mainPkt z').
  { intros q z [[<- <-]|[_ Hz]]%lookup_insert_Some; [by exists x|by exists z]. }
  split; simpl; try done.
  - intros q [z Hz]. destruct (Hd q z Hz) as (z' & Hz' & _). apply f_fresh. by exists z'.
  - intros q z Hz. destruct (Hd q z Hz) as (z' & Hz' & E1 & E2 & _ & E4 & E5 & E6). destruct (f_states q z' Hz') as [? ? ?]. split; rewrite ?E1, ?E2, ?E4, ?E5, ?E6; done.
  - intros q z Hz Hl Ha. destruct (Hd q z Hz) as (z' & Hz' & E1 & E2 & E3 & _). destruct (f_awaits q z' Hz' ltac:(congruence) Ha) as (k & e & ? & ? & ? & ? & ?).
    exists k, e. rewrite E1, E3. done.
  - intros q r a b Ha Hb Hla Hlb Hqa Hrb Hab. destruct (Hd q a Ha) as (a' & Ha' & Ea1 & Ea2 & _). destruct (Hd r b Hb) as (b' & Hb' & Eb1 & Eb2 & _).
    eapply f_inj; [exact Ha'|exact Hb'|congruence..].
  - destruct f_retry as [Hb Hr']. split; [done|]. intros pkt Hpkt. destruct (Hr' pkt Hpkt) as (? & q & z & e & Hq & Hz & ? & ? & ? & ? & ? & ?). split; [done|].
    destruct (decide (q = p)) as [->|Hne].
    + exists p, y, e. rewrite lookup_insert_eq. rewrite Hp in Hz. injection Hz as <-. rewrite H1, H2, H3. done.
    + exists q, z, e. by rewrite lookup_insert_ne.
Qed.

(** Completion does not look at sender states. *)
Lemma unstall_delete s p i : unstall (delete_state s p) i = (fun s' => delete_state s' p) <$> unstall s i.
Proof.
  unfold unstall, entry_inst, entry, seq, get, load_at. simpl. destruct (stalled _); [|done]. change (sqs (delete_state s p)) with (sqs s).
  destruct (vget (storeQueue (sqs s)) i) as [e|]; [simpl|done]. destruct (inst e) as [j|]; [simpl|done]. destruct (insts (world s) !! j) as [a|]; [simpl|done].
  destruct (seqNum a =? _); [|done]. match goal with |- context [lqs (set_stall (delete_state s p) ?x)] =>
    change (lqs (set_stall (delete_state s p) x)) with (lqs s); change (lqs (set_stall s x)) with (lqs s) end.
  by destruct (vget _ _) as [[l|]|].
Qed.
Lemma set_status_delete s p id st : set_status (delete_state s p) id st = (fun s' => delete_state s' p) <$> set_status s id st.
Proof. unfold set_status, upd, get. simpl. by destruct (insts (world s) !! id). Qed.
Lemma head_loop_delete fuel : forall s p, head_loop fuel (delete_state s p) = (fun s' => delete_state s' p) <$> head_loop fuel s.
Proof.
  induction fuel as [|fuel IH]; intros s p; [done|]. cbn [head_loop]. change (sqs (delete_state s p)) with (sqs s).
  set (q := mkSQ _ _ _ _ _ _ _). match goal with |- context [set_sq s ?q'] => change q' with q end.
  unfold entry. change (sqs (set_sq (delete_state s p) q)) with q. change (sqs (set_sq s q)) with q.
  destruct (vget _ _) as [e|]; [|done]. cbn [mbind res_bind]. destruct (_ && _); [|done]. change (set_sq (delete_state s p) q) with (delete_state (set_sq s q) p). apply IH.
Qed.
Lemma completeStore_delete s p i : completeStore (delete_state s p) i = (fun s' => delete_state s' p) <$> completeStore s i.
Proof.
  unfold completeStore, put_entry, entry. change (sqs (delete_state s p)) with (sqs s). destruct (vget (storeQueue (sqs s)) i) as [e|]; [|done]. cbn [mbind res_bind].
  destruct (inst e) as [j|]; [|done]. cbn [mbind res_bind assert_ptr]. destruct (vset _ _ _) as [l|]; [|done]. cbn [mbind res_bind].
  match goal with |- context [set_sq s ?q'] => set (q := q') end. match goal with |- context [set_sq (delete_state s p) ?q'] => change q' with q end.
  set (s2 := emit (emit (set_storesToWB (set_sq s q) (storesToWB (sqs (set_sq s q)) - 1)) EWakeCPU) EActivityThisCycle).
  match goal with |- context [emit (emit ?y EWakeCPU) EActivityThisCycle] => change (emit (emit y EWakeCPU) EActivityThisCycle) with (delete_state s2 p) at 1 2 3 4 end.
  change (sqs (delete_state s2 p)) with (sqs s2). destruct (_ =? _).
  - rewrite head_loop_delete. destruct (head_loop _ s2) as [s3|]; [|done]. cbn [fmap res_fmap mbind res_bind].
    change (emit (delete_state s3 p) EUpdateLSQNextCycle) with (delete_state (emit s3 EUpdateLSQNextCycle) p). rewrite unstall_delete.
    destruct (unstall _ i) as [s4|]; [|done]. cbn [fmap res_fmap mbind res_bind]. apply set_status_delete.
  - cbn [mbind res_bind]. rewrite unstall_delete. destruct (unstall _ i) as [s4|]; [|done]. cbn [fmap res_fmap mbind res_bind]. apply set_status_delete.
Qed.

(** ** The write-back of an instruction *)
Lemma writeback_ok s L E w C id i pkt : Inv s L E w C -> insts (world s) !! id = Some i -> memData i <> None ->
  exists s', writeback s id pkt = Ok s' /\ Inv s' L E w C /\ sqs s' = sqs s /\ states (world s') = states (world s) /\ blocked (unit_ s') = blocked (unit_ s) /\
    (forall q, accepted (trace (world s')) q <-> accepted (trace (world s)) q).
Proof.
  intros H Hi Hm. unfold writeback. set (s0 := emit s EWakeCPU). assert (H0 : Inv s0 L E w C) by (by apply Inv_emit).
  assert (Hac : forall a ev q, (forall pk ok, ev <> ESendTiming pk ok) -> accepted (trace (world (emit a ev))) q <-> accepted (trace (world a)) q).
  { intros a ev q Hev. simpl. rewrite accepted_app. split; [intros [?|(pk & -> & _)]; [done|by edestruct Hev]|by left]. }
  unfold get. change (insts (world s0)) with (insts (world s)). rewrite Hi. cbn [mbind res_bind deref]. destruct (has i DynInst.Squashed) eqn:Esq.
  - assert (Hst : isStore i = false).
    { destruct (isStore i) eqn:Est; [|done]. pose proof (f_squashed _ _ _ _ _ _ _ _ _ _ (i_flight _ _ _ _ _ H) id i Hi Est Hm). congruence. }
    rewrite Hst. cbn [negb c_assert mbind res_bind]. eexists. split; [reflexivity|]. split; [by apply Inv_emit|]. split_and!; try done.
    intros q. unfold s0. by rewrite !Hac by done.
  - assert (Hs1 : exists s1, (if has i DynInst.Executed then Ok s0 else s' ← set_status s0 id DynInst.Executed; Ok (emit s' (ECompleteAcc id pkt))) = Ok s1 /\ Inv s1 L E w C /\
        sqs s1 = sqs s /\ states (world s1) = states (world s) /\ blocked (unit_ s1) = blocked (unit_ s) /\ (forall q, accepted (trace (world s1)) q <-> accepted (trace (world s)) q)).
    { destruct (has i DynInst.Executed); [exists s0; split_and!; try done; intros q; unfold s0; by rewrite Hac|].
      destruct (Inv_status s0 L E w C id i DynInst.Executed H0 Hi) as (s1 & -> & H1 & ->); [|done..|].
      { intros (Hst & k & Hk & Hp). destruct (i_stall _ _ _ _ _ H Hst) as (k' & j & a & Hj & Hp' & Ha & Hma & _).
        assert (k = k'); [|subst k'; congruence]. change (loadPos s0) with (loadPos s) in Hp. change (stall (unit_ s0)) with (stall (unit_ s)) in Hp. rewrite Hp in Hp'.
        pose proof (r_n _ _ _ _ _ (i_lq _ _ _ _ _ H)) as Hn. pose proof (r_free _ _ _ _ _ (i_lq _ _ _ _ _ H)) as Hfr. rewrite length_fmap in Hfr.
        pose proof (lookup_lt_Some _ _ _ Hk). pose proof (lookup_lt_Some _ _ _ Hj). eapply (pos_inj _ Hn); [lia|lia|exact Hp']. }
      cbn [mbind res_bind]. eexists. split; [reflexivity|]. split; [by apply Inv_emit|]. split_and!; try done. intros q. rewrite Hac by done. exact (Hac s EWakeCPU q ltac:(done)). }
    destruct Hs1 as (s1 & -> & H1 & ? & ? & ? & Hq). cbn [mbind res_bind]. eexists. split; [reflexivity|]. split; [by do 2 (apply Inv_emit; [|done])|].
    split_and!; try done. intros q. by rewrite !Hac by done.
Qed.

(** ** Responses of the cache *)
Lemma completeDataAccess_ok env s L E w C pkt p x : Inv s L E w C -> senderState pkt = Some p -> states (world s) !! p = Some x -> accepted (trace (world s)) p ->
  cmd pkt <> MemCmd.NetworkNackError -> exists s' E' w', completeDataAccess env s pkt = Ok s' /\ Inv s' L E' w' C.
Proof.
  intros H Hpk Hx Hacc Hnack. unfold completeDataAccess. rewrite Hpk. cbn [mbind res_bind deref]. unfold get_state. rewrite Hx. cbn [mbind res_bind deref].
  destruct (f_states _ _ _ _ _ _ _ _ _ _ (i_flight _ _ _ _ _ H) p x Hx) as [_ Hsp (i & Hi & Hm & Hst)]. unfold get. rewrite Hi. cbn [mbind res_bind deref].
  rewrite bool_decide_eq_false_2 by done. cbn [negb c_assert mbind res_bind].
  assert (Hs0 : exists s0, (if HasUnalignedMemAcc env then let '(b, x0) := complete x in (b, put_state s p x0) else (true, s)) =
      ((if HasUnalignedMemAcc env then (complete x).1 else true), s0) /\ Inv s0 L E w C /\ sqs s0 = sqs s /\ insts (world s0) = insts (world s) /\
      (exists y, states (world s0) !! p = Some y /\ ss_inst y = ss_inst x /\ ss_isLoad y = ss_isLoad x /\ ss_idx y = ss_idx x) /\ trace (world s0) = trace (world s) /\ unit_ s0 = unit_ s).
  { destruct (HasUnalignedMemAcc env).
    - eexists. split; [reflexivity|]. split; [by eapply Inv_put_state|]. split_and!; try done. simpl. eexists. by rewrite lookup_insert_eq.
    - exists s. split_and!; try done. by exists x. }
  destruct Hs0 as (s0 & -> & H0 & Hsq0 & Hin0 & (y & Hy & Hy1 & Hy2 & Hy3) & Htr0 & Hu0). cbv beta iota.
  destruct (if HasUnalignedMemAcc env then _ else _); cbn [negb]; [|by exists s0, E, w].
  rewrite Hu0, (i_on _ _ _ _ _ H). cbn [orb].
  assert (Hnr : forall a : t, blocked (unit_ a) = blocked (unit_ s) -> forall r, retryPkt (blocked (unit_ a)) = Some r -> senderState r <> Some p).
  { intros a Ha r Hr Hp. rewrite Ha in Hr. destruct (f_retry _ _ _ _ _ _ _ _ _ _ (i_flight _ _ _ _ _ H)) as [_ Hrr].
    destruct (Hrr r Hr) as (_ & p' & _ & _ & Hp' & _ & _ & _ & _ & _ & _ & _ & _ & Hna). apply Hna. congruence. }
  destruct (has i DynInst.Squashed).
  - cbn [mbind res_bind]. eexists _, E, w. split; [reflexivity|]. apply Inv_delete; [by apply Inv_emit|]. apply Hnr. simpl. by rewrite Hu0.
  - assert (Hs1 : exists s1, (if noWB x then Ok s0 else if HasUnalignedMemAcc env && ss_isSplit x && ss_isLoad x then m ← deref (mainPkt x); writeback s0 (ss_inst x) m
        else writeback s0 (ss_inst x) pkt) = Ok s1 /\ Inv s1 L E w C /\ sqs s1 = sqs s0 /\ states (world s1) = states (world s0) /\ blocked (unit_ s1) = blocked (unit_ s) /\
        (forall q, accepted (trace (world s1)) q <-> accepted (trace (world s)) q)).
    { destruct (noWB x); [exists s0; split_and!; try done; [by rewrite Hu0|intros q; by rewrite Htr0]|].
      assert (Hwb : forall pk, exists s1, writeback s0 (ss_inst x) pk = Ok s1 /\ Inv s1 L E w C /\ sqs s1 = sqs s0 /\ states (world s1) = states (world s0) /\ blocked (unit_ s1) = blocked (unit_ s) /\
        (forall q, accepted (trace (world s1)) q <-> accepted (trace (world s)) q)).
      { intros pk. destruct (writeback_ok s0 L E w C (ss_inst x) i pk H0) as (s1 & -> & H1 & ? & ? & Hb1 & Hq); [by rewrite Hin0|done|]. exists s1. split_and!; try done.
        - by rewrite Hb1, Hu0.
        - intros q. by rewrite Hq, Htr0. }
      destruct (HasUnalignedMemAcc env && ss_isSplit x && ss_isLoad x) eqn:Esp; [|apply Hwb].
      apply andb_true_iff in Esp as [Esp _]. apply andb_true_iff in Esp as [_ Esp]. destruct (Hsp Esp) as [_ [m Hmm]]. rewrite Hmm. cbn [mbind res_bind deref]. apply Hwb. }
    destruct Hs1 as (s1 & -> & H1 & Hsq1 & Hst1 & Hb1 & Hq1). cbn [mbind res_bind]. rewrite Hst.
    assert (Hg : Inv (delete_state s1 p) L E w C) by (apply Inv_delete; [done|by apply Hnr]).
    destruct (ss_isLoad x) eqn:El; cbn [negb mbind res_bind]; [by exists (delete_state s1 p), E, w|].
    destruct (f_awaits _ _ _ _ _ _ _ _ _ _ (i_flight _ _ _ _ _ H) p x Hx El Hacc) as (k & e & Hk & He & Hie & Hix & Hcm & Hcp).
    destruct (completeStore_ok (delete_state s1 p) L E w C k e Hg Hk He Hcp) as (s2 & Hs2 & H2 & _).
    { intros q z Hz Hl Ha Heq. simpl in Hz, Ha. apply lookup_delete_Some in Hz as [Hne Hz]. apply Hne. symmetry. 
      eapply (f_inj _ _ _ _ _ _ _ _ _ _ (i_flight _ _ _ _ _ H1) q p z y Hz); [by rewrite Hst1|done|congruence|done|by apply Hq1|].
      rewrite Heq. unfold eid. rewrite Hie. simpl. congruence. }
    assert (Hpos : storePos (delete_state s1 p) k = ss_idx x) by (rewrite Hix; unfold storePos; change (sqs (delete_state s1 p)) with (sqs s1); by rewrite Hsq1, Hsq0).
    rewrite Hpos, completeStore_delete in Hs2. apply res_fmap_Ok in Hs2 as (s3 & Hs3 & ->). rewrite Hs3. cbn [mbind res_bind]. eauto.
Qed.

(** ** Events *)
Lemma process_writeback_ok s L E w C id pkt d : Inv s L E w C -> EWriteback id pkt d ∈ trace (world s) ->
  exists s', process_writeback s id pkt = Ok s' /\ Inv s' L E w C.
Proof.
  intros H Hin. destruct (f_events _ _ _ _ _ _ _ _ _ _ (i_flight _ _ _ _ _ H) id pkt d Hin) as [(i & Hi & Hm) Hp].
  unfold process_writeback. rewrite (i_on _ _ _ _ _ H). destruct (writeback_ok s L E w C id i pkt H Hi Hm) as (s1 & -> & H1 & _ & _ & Hb & _). cbn [mbind res_bind].
  eexists. split; [reflexivity|]. destruct (senderState pkt) as [p|]; [|done]. apply Inv_delete; [done|]. rewrite Hb. by apply Hp.
Qed.
