(* ===== verification/LsqAccess.v ===== *)
(** * The request of a load or a store

    What [BaseDynInst::read] and [BaseDynInst::write] do before they call the
    load/store queue: the request they make, split and translate. *)
From S2P Require Import Prelude EventQueue IntMath Request Packet Rob LsqUnit LsqInv LsqOps.
Import LSQUnit.

(** What the unit relies on: the TLB keeps the virtual address, the size and the
    kind of an access and gives a physical address unless it faults; cache blocks
    hold at least 8 bytes. *)
Class EnvLaws (env : Env) : Prop := mkEnvLaws {
  tr_range : forall h wr rq, Request._vaddr (translate env h wr rq).2 = Request._vaddr rq /\ Request._size (translate env h wr rq).2 = Request._size rq;
  tr_valid : forall h wr rq, rq_ok rq -> rq_ok (translate env h wr rq).2;
  tr_paddr : forall h wr rq, (translate env h wr rq).1 = NoFault -> Request.hasPaddr (translate env h wr rq).2 = true;
  tr_kind : forall h wr rq, Request.isLLSC (translate env h wr rq).2 = Request.isLLSC rq /\ Request.isCondSwap (translate env h wr rq).2 = Request.isCondSwap rq;
  block_size : exists k, 3 <= k < 64 /\ peerBlockSize env = 2 ^ k
}.

(** An access that the ISA may make. *)
Definition access_ok (env : Env) (wr : bool) (a : Access) : Prop :=
  match a with
  | NoAccess f => wr = false -> is_fault f = true
  | MemAccess addr sz flags asid pc ctx d rs =>
      0 <= addr /\ 0 < sz <= 8 /\ addr + sz < 2 ^ 64 /\ (wr = true -> Z.of_nat (length d) = sz /\ aligned addr sz) /\
      (EvQ.isSet flags Request.MEM_SWAP_COND = true -> wr = true /\ is_Some rs) /\
      (HasUnalignedMemAcc env = true -> EvQ.isSet flags Request.LLSC = true -> (addr + sz - 1) / peerBlockSize env * peerBlockSize env <= addr)
  end.

(** What making a request leaves of an instruction. *)
Record accessed (i i' : Inst) : Prop := mkAccessed {
  a_dyn : dyn i' = dyn i;
  a_load : isLoad i' = isLoad i;
  a_store : isStore i' = isStore i;
  a_sc : isStoreConditional i' = isStoreConditional i;
  a_lq : lqIdx i' = lqIdx i;
  a_sq : sqIdx i' = sqIdx i;
  a_mem : memData i' = memData i
}.
Lemma accessed_refl i : accessed i i.
Proof. done. Qed.
Lemma accessed_trans i j k : accessed i j -> accessed j k -> accessed i k.
Proof. intros [] []. split; congruence. Qed.

(** A step on the instruction [id] alone. *)
Definition touched (s s' : t) (id : Z) (i i' : Inst) : Prop :=
  s' = set_world s (w_insts (world s) (<[id := i']> (insts (world s)))) /\ accessed i i'.

Lemma upd_touched s0 s id i i1 f : touched s0 s id i i1 -> accessed i1 (f i1) ->
  exists s', upd s id f = Ok s' /\ touched s0 s' id i (f i1).
Proof.
  intros [-> Ha] Hf. unfold upd, get. simpl. rewrite lookup_insert_eq. cbn [mbind res_bind deref]. eexists. split; [reflexivity|].
  split; [unfold set_world, w_insts; simpl; by rewrite insert_insert_eq|by eapply accessed_trans].
Qed.
Lemma get_touched s0 s id i i1 : touched s0 s id i i1 -> get s id = Ok i1.
Proof. intros [-> _]. unfold get. simpl. by rewrite lookup_insert_eq. Qed.

Lemma isSet_lor_r f a b : EvQ.isSet f a = true -> EvQ.isSet f (Z.lor a b) = true.
Proof.
  unfold EvQ.isSet. intros Hf. apply negb_true_iff in Hf. apply negb_true_iff. apply Z.eqb_neq. apply Z.eqb_neq in Hf. rewrite Z.land_lor_distr_r. intros E.
  apply Z.lor_eq_0_iff in E as [? _]. done.
Qed.
Lemma isSet_lor_l f a b : EvQ.isSet f b = true -> EvQ.isSet f (Z.lor a b) = true.
Proof. rewrite Z.lor_comm. apply isSet_lor_r. Qed.

(** ** The request *)

(** The request of an access of [sz] bytes at [addr] with the kind of [flags]. *)
Record request_for (addr sz flags : Z) (rq : Request.t) : Prop := mkRequestFor {
  q_ok : rq_ok rq;
  q_vaddr : Request._vaddr rq = addr;
  q_size : Request._size rq = sz;
  q_llsc : Request.isLLSC rq = EvQ.isSet flags Request.LLSC;
  q_swap : Request.isCondSwap rq = EvQ.isSet flags Request.MEM_SWAP_COND
}.

Lemma new_virt_ok addr sz flags asid pc ctx tid : 0 <= sz -> exists rq,
  Request.new_virt 0 (Request.mk 0 0 0 0 0 0 0 0 0 0 0) asid addr sz flags pc ctx tid = Ok rq /\ request_for addr sz flags rq /\
  EvQ.noneSet (Request.privateFlags rq) Request.VALID_PADDR = true.
Proof.
  intros Hsz. unfold Request.new_virt, Request.setVirt. rewrite (proj2 (Z.leb_le 0 sz) Hsz). cbn [c_assert mbind res_bind]. eexists. split; [reflexivity|].
  split; [|reflexivity]. split; [split; reflexivity|reflexivity..].
Qed.

Lemma translate_for env `{!EnvLaws env} h wr addr sz flags rq : request_for addr sz flags rq -> request_for addr sz flags (translate env h wr rq).2.
Proof.
  intros []. destruct (tr_range h wr rq) as [E1 E2]. destruct (tr_kind h wr rq) as [E3 E4].
  split; [by apply tr_valid|by rewrite E1|by rewrite E2|by rewrite E3|by rewrite E4].
Qed.

Lemma splitRequest_ok env `{!EnvLaws env} addr sz flags rq : request_for addr sz flags rq -> EvQ.noneSet (Request.privateFlags rq) Request.VALID_PADDR = true ->
  0 <= addr -> 0 < sz <= 8 -> addr + sz < 2 ^ 64 ->
  exists r, splitRequest env rq = Ok r /\
    match r with
    | None => True
    | Some (lo, hi) => addr < (addr + sz - 1) / peerBlockSize env * peerBlockSize env /\
        exists a1 s1 a2 s2, request_for a1 s1 flags lo /\ request_for a2 s2 flags hi
    end.
Proof.
  intros [[Hv Hs] Ha Hz Hl Hc] Hn Ha0 Hsz Hw. destruct block_size as (k & Hk & Hb). unfold splitRequest. rewrite Hb.
  unfold Request.getVaddr, Request.getSize. rewrite Hv, Hs, Ha, Hz. cbn [c_assert mbind res_bind]. rewrite (uint_small 64 (addr + sz - 1)) by lia.
  rewrite IntMath.roundDown_spec by lia. set (B := 2 ^ k). assert (HB : 8 <= B) by (change 8 with (2 ^ 3); apply Z.pow_le_mono_r; lia).
  set (sp := (addr + sz - 1) / B * B). assert (Hsp : addr + sz - 1 - B < sp <= addr + sz - 1).
  { pose proof (Z.div_mod (addr + sz - 1) B ltac:(lia)). pose proof (Z.mod_pos_bound (addr + sz - 1) B ltac:(lia)). unfold sp. lia. }
  destruct (Z.ltb_spec addr sp) as [Hlt|Hge].
  - rewrite (uint_small 64 (sp - addr)) by lia. replace ((sp <=? addr) || (sp - addr <? B)) with true.
    + cbn [c_assert mbind res_bind]. unfold Request.splitOnVaddr. rewrite Hv, Hn. cbn [c_assert mbind res_bind]. rewrite Ha, Hz, (uint_small 64 sz), (uint_small 64 (addr + sz)) by lia.
      replace ((sp >? addr) && (sp <? addr + sz)) with true by (symmetry; apply andb_true_iff; split; [apply Z.gtb_lt|apply Z.ltb_lt]; lia).
      cbn [c_assert mbind res_bind]. eexists. split; [reflexivity|]. split; [done|]. eexists _, _, _, _. split; (split; [split; done|reflexivity|reflexivity|done|done]).
    + symmetry. apply orb_true_iff. right. apply Z.ltb_lt. lia.
  - replace ((sp <=? addr) || _) with true; [|symmetry; apply orb_true_iff; left; by apply Z.leb_le]. cbn [c_assert mbind res_bind]. by exists None.
Qed.

Lemma setFlags_for addr sz flags rq rq2 a2 s2 : request_for addr sz flags rq -> request_for a2 s2 flags rq2 ->
  exists rq', (fl ← Request.getFlags rq2; Request.setFlags rq fl) = Ok rq' /\ request_for addr sz flags rq' /\ Request.privateFlags rq' = Request.privateFlags rq.
Proof.
  intros [[Hv Hs] Ha Hz Hl Hc] [[Hv2 Hs2] _ _ Hl2 Hc2]. unfold Request.getFlags, Request.setFlags. rewrite (isSet_lor_l _ _ _ Hv2), (isSet_lor_l _ _ _ Hv). cbn [c_assert mbind res_bind].
  eexists. split; [reflexivity|]. split; [|done]. split; try done.
  - unfold Request.isLLSC in *. simpl. rewrite Request.isSet_set_bits, Hl, Hl2. apply orb_diag.
  - unfold Request.isCondSwap in *. simpl. rewrite Request.isSet_set_bits, Hc, Hc2. apply orb_diag.
Qed.

(** ** Translation *)
Lemma initiateTranslation_ok env `{!EnvLaws env} h wr addr sz flags rq lohi : request_for addr sz flags rq ->
  (match lohi with None => True | Some (lo, hi) => exists a1 s1 a2 s2, request_for a1 s1 flags lo /\ request_for a2 s2 flags hi end) ->
  exists f rq' lohi', initiateTranslation env h wr rq lohi = Ok (f, rq', lohi') /\ request_for addr sz flags rq' /\ (f = NoFault -> Request.hasPaddr rq' = true) /\
    match lohi' with None => True | Some (lo, hi) => HasUnalignedMemAcc env = true /\ is_Some lohi /\ exists a1 s1 a2 s2, request_for a1 s1 flags lo /\ request_for a2 s2 flags hi end.
Proof.
  intros Hrq Hlh.
  assert (Hone : exists f rq' lohi', (let '(f, rq1) := translate env h wr rq in @Ok (Fault * Request.t * option (Request.t * Request.t)) (f, rq1, None)) = Ok (f, rq', lohi') /\ request_for addr sz flags rq' /\
    (f = NoFault -> Request.hasPaddr rq' = true) /\
    match lohi' with None => True | Some (lo, hi) => HasUnalignedMemAcc env = true /\ is_Some lohi /\ exists a1 s1 a2 s2, request_for a1 s1 flags lo /\ request_for a2 s2 flags hi end).
  { pose proof (translate_for env h wr _ _ _ _ Hrq) as Ht. pose proof (tr_paddr h wr rq) as Hp. destruct (translate env h wr rq) as [f rq1]. by exists f, rq1, None. }
  unfold initiateTranslation. destruct (HasUnalignedMemAcc env) eqn:Eu; [|done]. destruct lohi as [[lo hi]|]; [|done]. clear Hone.
  destruct Hlh as (a1 & s1 & a2 & s2 & Hlo & Hhi). pose proof (translate_for env h wr _ _ _ _ Hlo) as Tlo. pose proof (translate_for env h wr _ _ _ _ Hhi) as Thi.
  pose proof (tr_paddr h wr lo) as Plo. destruct (translate env h wr lo) as [f0 lo1]. destruct (translate env h wr hi) as [f1 hi1]. simpl in *.
  assert (H1 : exists rq1, (if is_fault f0 then Ok rq else pa ← Request.getPaddr lo1; Request.setPaddr rq pa) = Ok rq1 /\ request_for addr sz flags rq1 /\ (f0 = NoFault -> Request.hasPaddr rq1 = true)).
  { destruct f0; simpl; [|by exists rq..]. unfold Request.getPaddr. specialize (Plo eq_refl). unfold Request.hasPaddr in Plo. rewrite Plo. cbn [c_assert mbind res_bind].
    destruct Hrq as [[Hv Hs] ? ? ? ?]. unfold Request.setPaddr. rewrite Hv. cbn [c_assert mbind res_bind]. eexists. split; [reflexivity|]. split.
    - split; try done. split; simpl; rewrite Request.isSet_set_bits; [by rewrite Hv|by rewrite Hs].
    - intros _. unfold Request.hasPaddr. simpl. rewrite Request.isSet_set_bits. apply orb_true_r. }
  destruct H1 as (rq1 & -> & Hrq1 & Hp1). cbn [mbind res_bind].
  destruct (setFlags_for _ _ _ rq1 lo1 _ _ Hrq1 Tlo) as (rq2 & -> & Hrq2 & Hpf2). cbn [mbind res_bind].
  destruct (setFlags_for _ _ _ rq2 hi1 _ _ Hrq2 Thi) as (rq3 & -> & Hrq3 & Hpf3). cbn [mbind res_bind].
  eexists _, rq3, _. split; [reflexivity|]. split; [done|]. split.
  - intros Hf. unfold Request.hasPaddr. rewrite Hpf3, Hpf2. apply Hp1. by destruct f0.
  - split; [done|]. split; [done|]. by exists a1, s1, a2, s2.
Qed.

Lemma finishTranslation_ok s0 s id i i1 f rq rs addr sz flags : touched s0 s id i i1 -> request_for addr sz flags rq -> (f = NoFault -> Request.hasPaddr rq = true) ->
  (EvQ.isSet flags Request.MEM_SWAP_COND = true -> is_Some rs) ->
  exists rq' s' i', finishTranslation s id f rq rs = Ok (rq', s') /\ touched s0 s' id i i' /\ request_for addr sz flags rq' /\ LSQUnit.fault i' = f /\
    (Request.isUncacheable rq = true -> isUncacheable i' = true) /\ Request.isUncacheable rq' = Request.isUncacheable rq /\ reqMade i' = reqMade i1.
Proof.
  intros Ht Hrq Hp Hrs. unfold finishTranslation.
  destruct (upd_touched s0 s id i i1 (set_fault f) Ht ltac:(done)) as (s1 & -> & Ht1). cbn [mbind res_bind].
  assert (H2 : exists s2 i2, (if Request.isUncacheable rq then upd s1 id set_uncacheable else Ok s1) = Ok s2 /\ touched s0 s2 id i i2 /\ LSQUnit.fault i2 = f /\
    (Request.isUncacheable rq = true -> isUncacheable i2 = true) /\ reqMade i2 = reqMade i1).
  { destruct (Request.isUncacheable rq); [|by exists s1, (set_fault f i1)].
    destruct (upd_touched s0 s1 id i _ set_uncacheable Ht1 ltac:(done)) as (s2 & -> & Ht2). by eexists _, _. }
  destruct H2 as (s2 & i2 & -> & Ht2 & Hf2 & Hu2 & Hr2). cbn [mbind res_bind]. destruct (is_fault f) eqn:Ef; [by exists rq, s2, i2|].
  assert (f = NoFault) as E0 by (by destruct f). specialize (Hp E0). unfold Request.hasPaddr in Hp. pose proof Hrq as Hrq0. destruct Hrq as [[Hv Hs] ? ? ? Hc].
  unfold Request.getPaddr, Request.getFlags. rewrite Hp. cbn [c_assert mbind res_bind]. rewrite (isSet_lor_r _ _ _ Hp). cbn [c_assert mbind res_bind].
  destruct (upd_touched s0 s2 id i i2 (set_phys (Request._paddr rq) (Request._flags rq)) Ht2 ltac:(done)) as (s3 & -> & Ht3). cbn [mbind res_bind].
  destruct (Request.isCondSwap rq) eqn:Ecs; [|by exists rq, s3, (set_phys (Request._paddr rq) (Request._flags rq) i2)].
  destruct (Hrs (eq_sym Hc)) as [v ->]. cbn [mbind res_bind assert_ptr]. eexists _, s3, _. split; [reflexivity|]. split; [exact Ht3|]. split; [|done].
  split; [split; simpl; rewrite Request.isSet_set_bits; [by rewrite Hv|by rewrite Hs]|done|done|done|exact (eq_trans Ecs Hc)].
Qed.

Lemma make_request_ok env `{!EnvLaws env} s id i wr addr sz flags asid pc ctx d rs : insts (world s) !! id = Some i ->
  access_ok env wr (MemAccess addr sz flags asid pc ctx d rs) ->
  exists r s' i', make_request env s id wr addr sz flags asid pc ctx (if wr then rs else None) = Ok (r, s') /\ touched s s' id i i' /\ reqMade i' = true /\
    match r with
    | None => is_fault (LSQUnit.fault i') = true
    | Some (rq, lohi) => request_for addr sz flags rq /\ effAddrValid i' = true /\ effAddr i' = addr /\ (Request.isUncacheable rq = true -> isUncacheable i' = true) /\
        (Request.isLLSC rq = true -> lohi = None) /\
        (match lohi with None => True | Some (lo, hi) => exists a1 s1, request_for a1 s1 flags lo end)
    end.
Proof.
  intros Hi (Ha0 & Hsz & Hw & _ & Hcs & Hll). unfold make_request.
  set (s1 := set_world s (w_insts (world s) (<[id := set_reqMade i]> (insts (world s))))).
  assert (Hu : upd s id set_reqMade = Ok s1) by (unfold upd, get; by rewrite Hi). rewrite Hu. cbn [mbind res_bind]. assert (Ht1 : touched s s1 id i (set_reqMade i)) by done. rewrite (get_touched _ _ _ _ _ Ht1). cbn [mbind res_bind].
  destruct (new_virt_ok addr sz flags asid pc ctx (DynInst.threadNumber (dyn (set_reqMade i))) ltac:(lia)) as (rq & -> & Hrq & Hn). cbn [mbind res_bind].
  assert (Hsp : exists lohi, (if HasUnalignedMemAcc env then splitRequest env rq else Ok None) = Ok lohi /\
    match lohi with None => True | Some (lo, hi) => (HasUnalignedMemAcc env = true /\ addr < (addr + sz - 1) / peerBlockSize env * peerBlockSize env) /\
       exists a1 s1 a2 s2, request_for a1 s1 flags lo /\ request_for a2 s2 flags hi end).
  { destruct (HasUnalignedMemAcc env); [|by exists None]. destruct (splitRequest_ok env addr sz flags rq Hrq Hn Ha0 Hsz Hw) as (r & -> & Hr). exists r. split; [done|].
    destruct r as [[lo hi]|]; [|done]. destruct Hr as [? ?]. done. }
  destruct Hsp as (lohi & -> & Hlh). cbn [mbind res_bind].
  destruct (initiateTranslation_ok env (trace (world s1)) wr addr sz flags rq lohi Hrq) as (f & rq1 & lohi1 & -> & Hrq1 & Hp1 & Hlh1).
  { destruct lohi as [[lo hi]|]; [|done]. by destruct Hlh. }
  cbn [mbind res_bind]. cbv beta iota.
  destruct (finishTranslation_ok s s1 id i (set_reqMade i) f rq1 (if wr then rs else None) addr sz flags Ht1 Hrq1 Hp1) as (rq2 & s2 & i2 & -> & Ht2 & Hrq2 & Hf2 & Hu2 & Hu2' & Hr2).
  { intros Hc. destruct (Hcs Hc) as [-> ?]. done. }
  cbn [mbind res_bind]. cbv beta iota. destruct (is_fault f) eqn:Ef.
  - exists None, s2, i2. by rewrite Hf2.
  - unfold Request.getVaddr. destruct Hrq2 as [[Hv Hs] Hva ? Hl ?] eqn:Eq. rewrite Hv. cbn [c_assert mbind res_bind]. rewrite Hva.
    destruct (upd_touched s s2 id i i2 (set_effAddr addr) Ht2 ltac:(done)) as (s3 & -> & Ht3). cbn [mbind res_bind].
    exists (Some (rq2, lohi1)), s3, (set_effAddr addr i2). split_and!; try done.
    + intros Hun. simpl. apply Hu2. by rewrite <- Hu2'.
    + intros Hll'. destruct lohi1 as [[lo hi]|]; [|done]. destruct Hlh1 as (Hun & [[lo0 hi0] ->] & _). destruct Hlh as [[_ Hlt] _]. rewrite Hl in Hll'.
      specialize (Hll Hun Hll'). lia.
    + destruct lohi1 as [[lo hi]|]; [|done]. destruct Hlh1 as (_ & _ & a1 & s1' & _ & _ & ? & _). by exists a1, s1'.
Qed.
