(* ===== verification/LsqForward.v ===== *)
(** * Loads read the youngest older store that overlaps them

    What the search of [read] through the older stores finds, and that [read]
    keeps the invariant of the load/store queue on each of its three ways. *)
From S2P Require Import Prelude EventQueue IntMath Request Packet Rob LsqUnit LsqInv LsqOps LsqSend LsqWriteback LsqAccess.
Import LSQUnit.

(** ** What a store has of a load *)
Definition overlaps (vaddr sz : Z) (i : Inst) (e : SQEntry) : bool := (vaddr <? effAddr i + size e) && (effAddr i <? vaddr + sz).
Definition covers (vaddr sz : Z) (i : Inst) (e : SQEntry) : bool := (effAddr i <=? vaddr) && (vaddr + sz <=? effAddr i + size e).
(** A store that has been executed, to cacheable memory. *)
Definition visible (i : Inst) (e : SQEntry) : bool := negb (size e =? 0) && negb (isUncacheable i).

(** [e] is visible and overlaps the load. *)
Definition touches (m : gmap Z Inst) (vaddr sz : Z) (e : SQEntry) : bool :=
  match m !! eid e with Some i => visible i e && overlaps vaddr sz i e | None => false end.
Definition supplies (m : gmap Z Inst) (vaddr sz : Z) (e : SQEntry) : bool :=
  match m !! eid e with Some i => visible i e && covers vaddr sz i e | None => false end.

(** The youngest entry among [w, j) that touches the load is the [k]-th. *)
Definition youngest (m : gmap Z Inst) (E : list SQEntry) (w j : nat) (vaddr sz : Z) (k : nat) (e : SQEntry) : Prop :=
  (w <= k < j)%nat /\ E !! k = Some e /\ touches m vaddr sz e = true /\
  forall k' e', (k < k' < j)%nat -> E !! k' = Some e' -> touches m vaddr sz e' = false.

Definition search_spec (s : t) (E : list SQEntry) (w j : nat) (vaddr sz : Z) (f : Forward) : Prop :=
  let m := insts (world s) in
  match f with
  | FromStore idx => exists k e, idx = storePos s k /\ youngest m E w j vaddr sz k e /\ supplies m vaddr sz e = true
  | Mismatch idx => exists k e, idx = storePos s k /\ youngest m E w j vaddr sz k e /\ supplies m vaddr sz e = false
  | FromMemory => forall k e, (w <= k < j)%nat -> E !! k = Some e -> touches m vaddr sz e = false
  end.

Lemma search_spec_S s E w j vaddr sz f e : E !! j = Some e -> touches (insts (world s)) vaddr sz e = false ->
  search_spec s E w j vaddr sz f -> search_spec s E w (S j) vaddr sz f.
Proof.
  intros He Ht. assert (Hy : forall k x, youngest (insts (world s)) E w j vaddr sz k x -> youngest (insts (world s)) E w (S j) vaddr sz k x).
  { intros k x (Hk & Hx & Htx & Hy). split_and!; try done; [lia|lia|]. intros k' e' Hk' He'. destruct (decide (k' = j)) as [->|]; [congruence|]. apply (Hy k' e'); [lia|done]. }
  destruct f; simpl.
  - intros (k & x & ? & ? & ?). exists k, x. auto.
  - intros (k & x & ? & ? & ?). exists k, x. auto.
  - intros Hn k x Hk Hx. destruct (decide (k = j)) as [->|]; [congruence|]. apply (Hn k x); [lia|done].
Qed.

(** The comparisons of the code, where no sum wraps around. *)
Lemma limits vaddr sz ea n : 0 <= vaddr -> 0 < sz -> vaddr + sz < 2 ^ 64 -> 0 <= ea -> 0 < n -> ea + n < 2 ^ 64 ->
  let lower := ea <=? vaddr in
  let upper := u64 (vaddr + sz) <=? u64 (ea + n) in
  let lower_part := vaddr <? u64 (ea + n) in
  let upper_part := ea <? u64 (vaddr + sz) in
  (lower && upper) = (ea <=? vaddr) && (vaddr + sz <=? ea + n) /\
  ((lower && upper) = false -> (lower && lower_part || upper && upper_part || lower_part && upper_part) = (vaddr <? ea + n) && (ea <? vaddr + sz)) /\
  ((lower && upper) = true -> (vaddr <? ea + n) && (ea <? vaddr + sz) = true).
Proof.
  intros Hv Hs Hvs He Hn Hen. cbv zeta. rewrite !uint_small by lia.
  destruct (Z.leb_spec ea vaddr), (Z.leb_spec (vaddr + sz) (ea + n)), (Z.ltb_spec vaddr (ea + n)), (Z.ltb_spec ea (vaddr + sz)); simpl; split_and!; try done; lia.
Qed.

Lemma forward_loop_ok s L E w C vaddr sz : Inv s L E w C -> 0 <= vaddr -> 0 < sz -> vaddr + sz < 2 ^ 64 ->
  forall j fuel, (w <= j <= length E)%nat -> (j - w < fuel)%nat ->
  exists f, forward_loop fuel s vaddr sz (storePos s j) = Ok f /\ search_spec s E w j vaddr sz f.
Proof.
  intros H Hv Hs Hvs. pose proof (r_n _ _ _ _ _ (i_sq _ _ _ _ _ H)) as Hn. pose proof (r_free _ _ _ _ _ (i_sq _ _ _ _ _ H)) as Hfr.
  induction j as [|j IH]; intros fuel Hj Hf; (destruct fuel as [|fuel]; [lia|]); cbn [forward_loop]; rewrite (i_wb _ _ _ _ _ H).
  - assert (w = 0%nat) as -> by lia. rewrite Z.eqb_refl. destruct (_ =? -1); exists FromMemory; (split; [done|]); intros k e Hk; lia.
  - pose proof (pos_range _ Hn (storeHead (sqs s)) (S j)) as Hpr. fold (storePos s (S j)) in Hpr. replace (storePos s (S j) =? -1) with false by (symmetry; apply Z.eqb_neq; lia).
    destruct (Z.eqb_spec (storePos s (S j)) (storePos s w)) as [Ew|Ew].
    + exists FromMemory. split; [done|]. intros k e Hk. apply pos_inj in Ew; lia.
    + assert (Hjw : (w <= j)%nat) by (destruct (decide (w = S j)) as [->|]; [done|lia]).
      assert (Hd : decrStIdx s (storePos s (S j)) = storePos s j) by (by apply decrIdx_pos). rewrite Hd.
      destruct (lookup_lt_is_Some_2 E j) as [e He]; [lia|]. rewrite (entry_ok _ _ _ _ _ _ _ H He). cbn [mbind res_bind].
      destruct (store_at _ _ _ _ _ _ _ H He) as (id & i & Hid & Heid & Hi & _ & Hg & Hok). rewrite Hid. cbn [mbind res_bind assert_ptr].
      assert (Hrec : touches (insts (world s)) vaddr sz e = false -> exists f, forward_loop fuel s vaddr sz (storePos s j) = Ok f /\ search_spec s E w (S j) vaddr sz f).
      { intros Ht. destruct (IH fuel ltac:(lia) ltac:(lia)) as (f & Hrun & Hsp). exists f. split; [done|]. by eapply search_spec_S. }
      destruct (Z.eqb_spec (size e) 0) as [Esz|Esz].
      { apply Hrec. unfold touches, visible. rewrite Heid, Hi, Esz. done. }
      rewrite Hg. cbn [mbind res_bind]. destruct (isUncacheable i) eqn:Eu.
      { apply Hrec. unfold touches, visible. rewrite Heid, Hi, Eu. cbn. by rewrite andb_false_r. }
      destruct (t_written _ _ _ _ _ _ _ _ _ _ _ Hok Esz) as (Hva & Hszr & (_ & Hea & Hew) & _). rewrite Hva. cbn [c_assert mbind res_bind].
      destruct (limits vaddr sz (effAddr i) (size e) Hv Hs Hvs Hea ltac:(lia) Hew) as (L1 & L2 & L3). cbv zeta in L1, L2, L3.
      assert (Htc : touches (insts (world s)) vaddr sz e = (vaddr <? effAddr i + size e) && (effAddr i <? vaddr + sz)).
      { unfold touches, visible, overlaps. rewrite Heid, Hi, Eu. replace (size e =? 0) with false by (symmetry; by apply Z.eqb_neq). done. }
      assert (Hsu : supplies (insts (world s)) vaddr sz e = (effAddr i <=? vaddr) && (vaddr + sz <=? effAddr i + size e)).
      { unfold supplies, visible, covers. rewrite Heid, Hi, Eu. replace (size e =? 0) with false by (symmetry; by apply Z.eqb_neq). done. }
      assert (Hyg : touches (insts (world s)) vaddr sz e = true -> youngest (insts (world s)) E w (S j) vaddr sz j e).
      { intros Ht. split_and!; try done; [lia|]. intros k' e' Hk'. lia. }
      destruct ((effAddr i <=? vaddr) && (u64 (vaddr + sz) <=? u64 (effAddr i + size e))) eqn:Ecov.
      * exists (FromStore (storePos s j)). split; [done|]. exists j, e. split_and!; [done|apply Hyg; rewrite Htc; by apply L3|]. by rewrite Hsu, <- L1.
      * rewrite (L2 eq_refl), <- Htc. destruct (touches (insts (world s)) vaddr sz e) eqn:Et; [|by apply Hrec].
        destruct (completed e) eqn:Ecp; [pose proof (t_completed _ _ _ _ _ _ _ _ _ _ _ Hok Ecp); lia|].
        exists (Mismatch (storePos s j)). split; [done|]. exists j, e. split_and!; [done|by apply Hyg|]. by rewrite Hsu, <- L1.
Qed.

(** A load that has not executed searches the stores older than it that have not been sent. *)
Lemma sent_older s L E w C k id i : Inv s L E w C -> L !! k = Some id -> insts (world s) !! id = Some i -> has i DynInst.Executed = false ->
  (w <= older (insts (world s)) (eid <$> E) (seqNum i) <= length E)%nat.
Proof.
  intros H Hk Hi Hx. destruct (i_load _ _ _ _ _ H k id Hk) as [a []]. assert (a = i) as -> by congruence. destruct (l_older Hx) as [Ho _].
  split; [|etrans; [apply older_le|by rewrite length_fmap]]. destruct w as [|w]; [lia|]. destruct (lookup_lt_is_Some_2 E w) as [e He]; [pose proof (i_w _ _ _ _ _ H); lia|].
  destruct (store_at _ _ _ _ _ _ _ H He) as (? & ? & _ & _ & _ & _ & _ & Hok). pose proof (t_sent _ _ _ _ _ _ _ _ _ _ _ Hok ltac:(lia)) as Hc.
  apply Nat.le_succ_l. eapply older_lookup; [|by rewrite list_lookup_fmap, He|].
  - rewrite <- list_fmap_compose. by apply H.
  - apply Ho; [by eapply list_elem_of_lookup_2|done].
Qed.

Lemma forward_ok s L E w C k id i vaddr sz : Inv s L E w C -> L !! k = Some id -> insts (world s) !! id = Some i -> has i DynInst.Executed = false ->
  0 <= vaddr -> 0 < sz -> vaddr + sz < 2 ^ 64 ->
  exists f, forward_loop (S (length (storeQueue (sqs s)))) s vaddr sz (sqIdx i) = Ok f /\
    search_spec s E w (older (insts (world s)) (eid <$> E) (seqNum i)) vaddr sz f.
Proof.
  intros H Hk Hi Hx Hv Hs Hvs. pose proof (sent_older _ _ _ _ _ _ _ _ H Hk Hi Hx) as Hw. destruct (i_load _ _ _ _ _ H k id Hk) as [a []]. assert (a = i) as -> by congruence.
  destruct (l_older Hx) as [_ [[E1 E2]|E1]]; rewrite E1.
  - rewrite E2 in *. cbn [forward_loop]. exists FromMemory. split; [done|]. intros j e Hj. lia.
  - apply forward_loop_ok with (L := L) (C := C); try done. pose proof (r_len _ _ _ _ _ (i_sq _ _ _ _ _ H)). pose proof (r_free _ _ _ _ _ (i_sq _ _ _ _ _ H)). lia.
Qed.

(** ** The data of a store *)

(** What [read] makes of the instruction. *)
Record loaded (i i' : Inst) (d : option (list Z)) : Prop := mkLoaded {
  d_mem : memData i' = d;
  d_valid : effAddrValid i' = effAddrValid i;
  d_addr : effAddr i' = effAddr i;
  d_lq : lqIdx i' = lqIdx i;
  d_seq : seqNum i' = seqNum i
}.

(** The bytes of the load in the data of the store. *)
Definition supplied (e : SQEntry) (a : Inst) (vaddr sz : Z) : list Z := take (Z.to_nat sz) (drop (Z.to_nat (vaddr - effAddr a)) (data e)).

Lemma shift_aligned vaddr ea n : aligned ea n -> ea <= vaddr < ea + n -> 0 <= vaddr -> sint 32 (Z.land vaddr (u64 (n - 1))) = vaddr - ea.
Proof.
  intros [Hn Ha] Hv H0. assert (Hk : exists k, 0 <= k <= 3 /\ n = 2 ^ k) by (destruct Hn as [->|[->|[->| ->]]]; [exists 0|exists 1|exists 2|exists 3]; lia).
  destruct Hk as (k & Hk & ->). assert (Hle : 2 ^ k <= 2 ^ 3) by (apply Z.pow_le_mono_r; lia). change (2 ^ 3) with 8 in Hle. assert (0 < 2 ^ k) by (apply Z.pow_pos_nonneg; lia).
  rewrite uint_small by lia. replace (2 ^ k - 1) with (Z.ones k) by (rewrite Z.ones_equiv; lia). rewrite Z.land_ones by lia.
  assert (E : vaddr mod 2 ^ k = vaddr - ea).
  { pose proof (Z.div_mod ea (2 ^ k) ltac:(lia)) as Hd. symmetry. apply (Z.mod_unique_pos _ _ (ea / 2 ^ k)); lia. }
  rewrite E. apply sint_small; [lia|]. change (2 ^ (32 - 1)) with 2147483648. lia.
Qed.

Lemma keeps_load E id i i' : (forall e, e ∈ E -> inst e = Some id -> False) -> isStore i = false ->
  seqNum i' = seqNum i -> isLoad i' = isLoad i -> isStore i' = isStore i -> isStoreConditional i' = isStoreConditional i -> lqIdx i' = lqIdx i -> sqIdx i' = sqIdx i ->
  (has i DynInst.Executed = true -> has i' DynInst.Executed = true) -> (memData i <> None -> memData i' <> None) -> forall P : Prop,
  (P -> memData i' = memData i /\ has i' DynInst.Executed = has i DynInst.Executed) -> keeps P E id i i'.
Proof. intros Hne Hst. split; try done; try congruence; intros e He Hie; by destruct (Hne e He Hie). Qed.

Lemma load_not_store s L E w C k id i : Inv s L E w C -> L !! k = Some id -> insts (world s) !! id = Some i ->
  isStore i = false /\ isLoad i = true /\ lqIdx i = loadPos s k /\ (forall e, e ∈ E -> inst e = Some id -> False).
Proof.
  intros H Hk Hi. destruct (i_load _ _ _ _ _ H k id Hk) as [a []]. assert (a = i) as -> by congruence. split_and!; try done. intros e He Hie.
  apply list_elem_of_lookup in He as [j Hj]. destruct (i_store _ _ _ _ _ H j e Hj) as (x & b & []). congruence.
Qed.

Section Read.
Context (env : Env) (s : t) (L : list Z) (E : list SQEntry) (w : nat) (C : Z) (k : nat) (id : Z) (i : Inst).
Context (H : Inv s L E w C) (Hk : L !! k = Some id) (Hi : insts (world s) !! id = Some i).
Context (Hx : has i DynInst.Executed = false) (Hm : memData i = None) (Hns : ~ stalling (stall (unit_ s)) (loadPos s) L id).
Context (vaddr sz : Z) (Hv : 0 <= vaddr) (Hsz : 0 < sz <= 8) (Hvs : vaddr + sz < 2 ^ 64).

Lemma Inv_loadData d : upd s id (set_memData (Some d)) = Ok (set_world s (w_insts (world s) (<[id := set_memData (Some d) i]> (insts (world s))))) /\
  Inv (set_world s (w_insts (world s) (<[id := set_memData (Some d) i]> (insts (world s))))) L E w C.
Proof.
  destruct (load_not_store _ _ _ _ _ _ _ _ H Hk Hi) as (Hst & _ & _ & Hne). apply (Inv_upd s L E w C id i (set_memData (Some d)) H Hi).
  by apply keeps_load.
Qed.

Lemma forward_data_ok j kk e rq : youngest (insts (world s)) E w j vaddr sz kk e -> supplies (insts (world s)) vaddr sz e = true ->
  exists s' i' a, forward_data s id rq vaddr sz (storePos s kk) = Ok (NoFault, s') /\ Inv s' L E w C /\ insts (world s') !! id = Some i' /\
    insts (world s) !! eid e = Some a /\ loaded i i' (Some (supplied e a vaddr sz)) /\ lqs s' = lqs s /\
    trace (world s') = trace (world s) ++ [EWriteback id (mkPkt MemCmd.ReadReq rq (id, 0) None) 0].
Proof.
  intros (Hkk & He & Ht & _) Hsu. destruct (store_at _ _ _ _ _ _ _ H He) as (x & a & Hid & Heid & Ha & _ & _ & Hok).
  unfold touches, supplies, visible, covers in Ht, Hsu. rewrite Heid, Ha in Ht, Hsu. apply andb_true_iff in Hsu as [Hvis Hcov]. apply andb_true_iff in Hvis as [Hnz _].
  apply negb_true_iff, Z.eqb_neq in Hnz. apply andb_true_iff in Hcov as [Hc1 Hc2]. apply Z.leb_le in Hc1, Hc2.
  destruct (t_written _ _ _ _ _ _ _ _ _ _ _ Hok Hnz) as (_ & Hszr & (Hal & Hea & Hew) & _).
  unfold forward_data. rewrite (entry_ok _ _ _ _ _ _ _ H He). cbn [mbind res_bind]. unfold get. rewrite Hi. cbn [mbind res_bind deref]. rewrite Hm, bool_decide_eq_true_2 by done.
  cbn [c_assert mbind res_bind]. rewrite (shift_aligned vaddr (effAddr a) (size e) Hal ltac:(lia) Hv).
  assert (Hby : bytes (data e) (vaddr - effAddr a) sz = Ok (supplied e a vaddr sz)).
  { unfold bytes, supplied. rewrite (t_data _ _ _ _ _ _ _ _ _ _ _ Hok).
    assert (Hle : (0 <=? vaddr - effAddr a) && (0 <=? sz) && (vaddr - effAddr a + sz <=? Z.of_nat data_size) = true) by (unfold data_size; rewrite !andb_true_iff, !Z.leb_le; lia).
    by rewrite Hle. }
  rewrite Hby. cbn [mbind res_bind]. destruct (Inv_loadData (supplied e a vaddr sz)) as [-> H1]. cbn [mbind res_bind].
  eexists _, (set_memData (Some (supplied e a vaddr sz)) i), a. split; [reflexivity|]. split.
  - eapply (Inv_event _ _ _ _ _ id (set_memData (Some (supplied e a vaddr sz)) i) _ 0 H1); [simpl; by rewrite lookup_insert_eq|done|done].
  - split; [simpl; by rewrite lookup_insert_eq|]. split; [by rewrite Heid|done].
Qed.

Lemma stall_load_ok j kk e : (j <= older (insts (world s)) (eid <$> E) (seqNum i))%nat -> youngest (insts (world s)) E w j vaddr sz kk e ->
  exists s' i', stall_load s id (loadPos s k) (storePos s kk) = Ok (NoFault, s') /\ Inv s' L E w C /\ insts (world s') !! id = Some i' /\ loaded i i' None /\
    stalled (stall (unit_ s')) = true /\ trace (world s') = trace (world s) ++ [ERescheduleMemInst id; EDecrWb (seqNum i)] /\ lqs s' = lqs s.
Proof.
  intros Hj (Hkk & He & _). destruct (store_at _ _ _ _ _ _ _ H He) as (x & a & Hid & Heid & Ha & Hsq & _ & Hok).
  assert (Hlt : seqNum a < seqNum i).
  { rewrite <- (sn_get _ _ _ Ha), <- Heid. apply (older_lookup (insts (world s)) (eid <$> E) (seqNum i) kk (eid e)); [|by rewrite list_lookup_fmap, He|lia]. rewrite <- list_fmap_compose. by apply H. }
  unfold stall_load. assert (Hseq : seq s id = Ok (seqNum i)) by (unfold seq, get; by rewrite Hi). rewrite Hseq. cbn [mbind res_bind].
  assert (Ho : exists b : bool, (if stalled (stall (unit_ s)) then j0 ← load_at s (stallingLoadIdx (stall (unit_ s))); k0 ← seq s j0; Ok (seqNum i <? k0) else Ok true) = Ok b /\
    (b = false -> stalled (stall (unit_ s)) = true)).
  { destruct (stalled (stall (unit_ s))) eqn:Est; [|by exists true]. destruct (i_stall _ _ _ _ _ H Est) as (k' & y & b & Hy & Hp & Hb & _).
    unfold load_at. rewrite Hp. unfold loadPos. rewrite (ring_vget _ _ _ _ _ k' (Some y) (i_lq _ _ _ _ _ H)) by (by rewrite list_lookup_fmap, Hy). cbn [mbind res_bind deref].
    unfold seq, get. rewrite Hb. cbn [mbind res_bind deref]. by eexists. }
  destruct Ho as (b & -> & Hb). cbn [mbind res_bind]. unfold entry_inst. rewrite (entry_ok _ _ _ _ _ _ _ H He). cbn [mbind res_bind]. rewrite Hid. cbn [mbind res_bind deref].
  rewrite Hsq. cbn [mbind res_bind].
  set (s1 := if b then set_stall s (mkStall true (seqNum a) (loadPos s k)) else s).
  assert (H1 : Inv s1 L E w C /\ stalled (stall (unit_ s1)) = true /\ world s1 = world s /\ lqs s1 = lqs s).
  { unfold s1. destruct b; [|by rewrite Hb]. split; [|done]. destruct H. split; try done. intros _. exists k, id, i. done. }
  destruct H1 as (H1 & Hst & Hw & Hq1). clearbody s1.
  set (s2 := emit (emit s1 (ERescheduleMemInst id)) (EDecrWb (seqNum i))). assert (H2 : Inv s2 L E w C) by (do 2 (apply Inv_emit; [|done]); done).
  assert (Hi2 : insts (world s2) !! id = Some i) by (simpl; by rewrite Hw).
  destruct (Inv_upd s2 L E w C id i _ H2 Hi2 (keeps_reset _ E id i)) as [Hu H3]. rewrite Hu. cbn [mbind res_bind].
  eexists _, (set_dyn (DynInst.reset DynInst.Issued) i). split; [reflexivity|]. split; [exact H3|]. split; [simpl; by rewrite lookup_insert_eq|]. split; [done|]. split; [done|].
  split; [simpl; by rewrite Hw, <- app_assoc|exact Hq1].
Qed.
End Read.

(** ** The packets of a load *)
Lemma Inv_alloc s L E w C id i idx : Inv s L E w C -> insts (world s) !! id = Some i -> memData i <> None -> isStore i = false ->
  Inv (alloc_state s (new_state id true idx)).2 L E w C.
Proof.
  intros [] Hi Hm Hst. split; try done. destruct i_flight. set (nx := nextState (world s)) in *.
  assert (Hna : ~ accepted (trace (world s)) nx) by (intros (pk & Hin & Hp); specialize (f_pkts _ _ _ Hin Hp); lia).
  assert (Hd : forall q y, <[nx := new_state id true idx]> (states (world s)) !! q = Some y -> (q = nx /\ y = new_state id true idx) \/ states (world s) !! q = Some y).
  { intros q y [[<- <-]|[_ ?]]%lookup_insert_Some; [by left|by right]. }
  split; simpl; fold nx; try done.
  - intros q [y Hy]. destruct (Hd q y Hy) as [[-> _]|Hq]; [lia|]. specialize (f_fresh q ltac:(by exists y)). lia.
  - intros pk ok q Hin Hq. specialize (f_pkts _ _ _ Hin Hq). lia.
  - intros q y Hy. destruct (Hd q y Hy) as [[-> ->]|Hq]; [|by eapply f_states]. split; try done. exists i. done.
  - intros q y Hy Hl Ha. destruct (Hd q y Hy) as [[-> ->]|Hq]; [done|by eapply f_awaits].
  - intros q r y z Hy Hz Hly Hlz. destruct (Hd q y Hy) as [[-> ->]|Hq]; [done|]. destruct (Hd r z Hz) as [[-> ->]|Hr]; [done|]. by eapply f_inj.
  - destruct f_retry as [Hb Hr]. split; [done|]. intros pk Hpk. destruct (Hr pk Hpk) as (? & q & y & e & ? & Hy & ?). split; [done|]. exists q, y, e.
    split; [done|]. split; [|done]. rewrite lookup_insert_ne; [done|]. intros <-. specialize (f_fresh nx ltac:(by exists y)). lia.
  - intros j pk d Hin. destruct (f_events j pk d Hin) as [? Hp]. split; [done|]. intros q Hq. destruct (Hp q Hq) as (? & ? & ?). split_and!; try done. lia.
Qed.

Lemma Inv_accept_load s L E w C p x pkt : Inv s L E w C -> states (world s) !! p = Some x -> ss_isLoad x = true -> senderState pkt = Some p -> is_store_cmd (cmd pkt) = false ->
  (forall j pk d, EWriteback j pk d ∈ trace (world s) -> senderState pk <> Some p) -> Inv (emit s (ESendTiming pkt true)) L E w C.
Proof.
  intros [] Hp Hl Hpk Hcmd Hev. split; try done.
  assert (Hacc : forall q, accepted (trace (world s) ++ [ESendTiming pkt true]) q -> accepted (trace (world s)) q \/ q = p).
  { intros q [?|(pk & [= <-] & Hq)]%accepted_app; [by left|right; congruence]. }
  assert (Hsent : sent (trace (world s) ++ [ESendTiming pkt true]) = sent (trace (world s))) by (rewrite sent_app; simpl; by rewrite Hcmd, app_nil_r).
  destruct i_flight. split; simpl; rewrite ?Hsent; try done.
  - intros pk ok q [Hin|[= -> ->]%list_elem_of_singleton]%elem_of_app Hq; [by eapply f_pkts|]. apply f_fresh. rewrite Hpk in Hq. injection Hq as <-. by exists x.
  - intros q y Hy Hly [Ha| ->]%Hacc; [by eapply f_awaits|congruence].
  - intros q r y z Hy Hz Hly Hlz Hq Hr. apply Hacc in Hq as [Hq| ->], Hr as [Hr| ->]; [by eapply f_inj|congruence..].
  - destruct f_retry as [Hb Hr]. split; [done|]. intros pk Hpk'. destruct (Hr pk Hpk') as (? & q & y & e & ? & Hy & Hly & ? & ? & ? & ? & ? & ? & Hna). split; [done|]. exists q, y, e.
    split_and!; try done. intros [?| ->]%Hacc; [done|congruence].
  - intros j pk d [Hin|Heq%list_elem_of_singleton]%elem_of_app; [|done]. destruct (f_events j pk d Hin) as [Hj Hs]. split; [done|].
    intros q Hq. destruct (Hs q Hq) as (? & Hna & ?). split_and!; try done. intros [?| ->]%Hacc; [done|]. by apply (Hev j pk d Hin).
Qed.

(** An offered packet of the load state [p], whatever the answer. *)
Lemma send_load_pkt env s L E w C p x pkt : Inv s L E w C -> states (world s) !! p = Some x -> ss_isLoad x = true -> senderState pkt = Some p -> is_store_cmd (cmd pkt) = false ->
  (forall j pk d, EWriteback j pk d ∈ trace (world s) -> senderState pk <> Some p) ->
  exists ok s', send env s pkt = (ok, s') /\ Inv s' L E w C /\ unit_ s' = unit_ s /\ insts (world s') = insts (world s) /\ states (world s') = states (world s) /\
    (forall j pk d, EWriteback j pk d ∈ trace (world s') -> senderState pk <> Some p).
Proof.
  intros H Hp Hl Hpk Hcmd Hev. unfold send. eexists _, _. split; [reflexivity|]. split; [|split_and!; try done].
  - destruct (sendTiming env _ pkt); [by eapply Inv_accept_load|]. apply Inv_emit; [done|]. split; [done|]. intros q Hq. apply (f_fresh _ _ _ _ _ _ _ _ _ _ (i_flight _ _ _ _ _ H)).
    rewrite Hpk in Hq. injection Hq as <-. by exists x.
  - intros j pk d. simpl. intros [?|?%list_elem_of_singleton]%elem_of_app; [by eapply Hev|done].
Qed.

Lemma not_retry s L E w C p x : Inv s L E w C -> states (world s) !! p = Some x -> ss_isLoad x = true -> forall r, retryPkt (blocked (unit_ s)) = Some r -> senderState r <> Some p.
Proof.
  intros H Hp Hl r Hr Hs. destruct (f_retry _ _ _ _ _ _ _ _ _ _ (i_flight _ _ _ _ _ H)) as [_ Hrr]. destruct (Hrr r Hr) as (_ & q & y & e & Hq & Hy & Hly & _). congruence.
Qed.

Lemma load_cmd rq : is_store_cmd (if Request.isLLSC rq then MemCmd.LoadLockedReq else MemCmd.ReadReq) = false.
Proof. by destruct (Request.isLLSC rq). Qed.

Lemma send_load_ok env s L E w C id i rq lo hi idx : Inv s L E w C -> insts (world s) !! id = Some i -> memData i <> None -> isStore i = false ->
  (forall l, lo = Some l -> rq_ok l /\ is_Some hi) ->
  exists s', send_load env s id rq lo hi idx = Ok s' /\ Inv s' L E w C /\ insts (world s') = insts (world s) /\ lqs s' = lqs s.
Proof.
  intros H Hi Hm Hst Hlo. unfold send_load. set (c := if Request.isLLSC rq then MemCmd.LoadLockedReq else MemCmd.ReadReq). assert (Hc : is_store_cmd c = false) by apply load_cmd.
  pose proof (Inv_alloc s L E w C id i idx H Hi Hm Hst) as H0. unfold alloc_state in *. cbv beta iota. set (p := nextState (world s)) in *. simpl snd in H0.
  set (s0 := set_world s _) in *. assert (Hp : states (world s0) !! p = Some (new_state id true idx)) by (simpl; by rewrite lookup_insert_eq).
  assert (Hev : forall j pk d, EWriteback j pk d ∈ trace (world s0) -> senderState pk <> Some p).
  { intros j pk d Hin Hs. destruct (f_events _ _ _ _ _ _ _ _ _ _ (i_flight _ _ _ _ _ H) j pk d Hin) as [_ Hq]. destruct (Hq p Hs) as (? & _). unfold p in *. lia. }
  assert (Hone : exists s', (let '(ok, s1) := send env s0 (mkPkt c rq (id, 0) (Some p)) in if ok : bool then Ok s1 else Ok (set_retryTid (delete_state s1 p) (lsqID (unit_ s1)))) = Ok s' /\
    Inv s' L E w C /\ insts (world s') = insts (world s) /\ lqs s' = lqs s).
  { destruct (send_load_pkt env s0 L E w C p _ (mkPkt c rq (id, 0) (Some p)) H0 Hp eq_refl eq_refl Hc Hev) as (ok & s1 & -> & H1 & Hu1 & Hi1 & Hs1 & _). assert (Hq1 : lqs s1 = lqs s) by (exact (f_equal lq Hu1)).
    destruct ok; [by exists s1|]. eexists. split; [reflexivity|]. split; [|done]. apply Inv_retryTid, Inv_delete; [done|]. eapply not_retry; [done|by rewrite Hs1|done]. }
  assert (Hi0 : insts (world s0) = insts (world s)) by done. assert (Hq0 : lqs s0 = lqs s) by done. clearbody s0. destruct (HasUnalignedMemAcc env); [|exact Hone]. destruct lo as [l|]; [|exact Hone]. clear Hone.
  destruct (Hlo l eq_refl) as [[_ Hls] [h ->]]. cbn [mbind res_bind deref]. unfold Request.getSize. rewrite Hls. cbn [c_assert mbind res_bind]. unfold get_state. rewrite Hp. cbn [mbind res_bind deref].
  set (y := set_split _ _). assert (H1 : Inv (put_state s0 p y) L E w C).
  { destruct H0. split; try done. destruct i_flight. split; simpl; try done.
    - intros q [z Hz]. apply lookup_insert_Some in Hz as [[<- _]|[_ Hz]]; apply f_fresh; [by eexists|by exists z].
    - intros q z [[<- <-]|[_ Hz]]%lookup_insert_Some; [|by eapply f_states]. destruct (f_states p _ Hp) as [? ? Hin]. split; try done.
    - intros q z [[<- <-]|[_ Hz]]%lookup_insert_Some; [done|by eapply f_awaits].
    - intros q r a b [[<- <-]|[_ Ha]]%lookup_insert_Some; [done|]. intros [[<- <-]|[_ Hb]]%lookup_insert_Some; [done|]. by eapply f_inj.
    - destruct f_retry as [Hb Hr]. split; [done|]. intros pk Hpk. destruct (Hr pk Hpk) as (? & q & z & e & ? & Hz & Hlz & ?). split; [done|]. exists q, z, e.
      split; [done|]. split; [|done]. rewrite lookup_insert_ne; [done|]. intros <-. rewrite Hp in Hz. injection Hz as <-. done. }
  assert (Hp1 : states (world (put_state s0 p y)) !! p = Some y) by (simpl; by rewrite lookup_insert_eq).
  destruct (send_load_pkt env (put_state s0 p y) L E w C p y (mkPkt c l (id, 0) (Some p)) H1 Hp1 eq_refl eq_refl Hc Hev) as (ok & s1 & -> & H2 & Hu1 & Hi1 & Hs1 & Hev1). destruct ok.
  - set (s2 := set_usedPorts s1 _). assert (H3 : Inv s2 L E w C) by (by apply Inv_usedPorts). assert (Hp2 : states (world s2) !! p = Some y) by (change (states (world s2)) with (states (world s1)); by rewrite Hs1).
    destruct (send_load_pkt env s2 L E w C p y (mkPkt c h (id, Request._size l) (Some p)) H3 Hp2 eq_refl eq_refl Hc Hev1) as (ok & s3 & -> & H4 & Hu3 & Hi3 & Hs3 & _).
    assert (Hq3 : lqs s3 = lqs s) by (exact (eq_trans (f_equal lq Hu3) (eq_trans (f_equal lq Hu1) Hq0))).
    destruct ok; [exists s3; split_and!; try done; exact (eq_trans Hi3 (eq_trans Hi1 Hi0))|]. assert (Hp3 : states (world s3) !! p = Some y) by (by rewrite Hs3). rewrite Hp3. cbn [mbind res_bind deref].
    eexists. split; [reflexivity|]. split; [|split; [exact (eq_trans Hi3 (eq_trans Hi1 Hi0))|exact Hq3]]. apply Inv_retryTid. by eapply Inv_put_state.
  - eexists. split; [reflexivity|]. split; [|split; [exact (eq_trans Hi1 Hi0)|exact (eq_trans (f_equal lq Hu1) Hq0)]]. apply Inv_retryTid, Inv_delete; [done|]. eapply not_retry; [done|by rewrite Hs1|done].
Qed.

(** What a load that goes to memory does to the cache: if the cache is blocked nothing is
    sent, else the packet of the load, or of its first part, is offered; and if the cache
    is blocked in the end, the load or an older one is to squash. *)
Definition to_memory (env : Env) (s s' : t) (id : Z) (i : Inst) (rq : Request.t) (lo : option Request.t) (evs : list Ev) : Prop :=
  (if cacheBlocked s then evs = [EDecrWb (seqNum i)]
   else exists pkt ok rest, evs = ESendTiming pkt ok :: rest /\ pdata pkt = (id, 0) /\ preq pkt = (if HasUnalignedMemAcc env then default rq lo else rq) /\
     cmd pkt = (if Request.isLLSC rq then MemCmd.LoadLockedReq else MemCmd.ReadReq) /\ (ok = false -> cacheBlocked s' = true \/ lsqID (unit_ s) = -1)) /\
  (cacheBlocked s' = true -> isLoadBlocked (blocked (unit_ s')) = true /\ blockedLoadSeqNum (blocked (unit_ s')) <= seqNum i).

Lemma send_load_trace env s id rq lo hi idx s' : send_load env s id rq lo hi idx = Ok s' ->
  exists pkt ok rest, trace (world s') = trace (world s) ++ ESendTiming pkt ok :: rest /\ pdata pkt = (id, 0) /\ preq pkt = (if HasUnalignedMemAcc env then default rq lo else rq) /\
    cmd pkt = (if Request.isLLSC rq then MemCmd.LoadLockedReq else MemCmd.ReadReq) /\ (ok = false -> retryTid (world s') = lsqID (unit_ s)).
Proof.
  unfold send_load, alloc_state, send. cbv zeta. set (s0 := set_world s _).
  assert (Hone : forall pkt, (if sendTiming env (trace (world s0)) pkt then Ok (emit s0 (ESendTiming pkt (sendTiming env (trace (world s0)) pkt)))
     else Ok (set_retryTid (delete_state (emit s0 (ESendTiming pkt (sendTiming env (trace (world s0)) pkt))) (nextState (world s))) (lsqID (unit_ s)))) = Ok s' ->
     trace (world s') = trace (world s) ++ [ESendTiming pkt (sendTiming env (trace (world s0)) pkt)] /\ (sendTiming env (trace (world s0)) pkt = false -> retryTid (world s') = lsqID (unit_ s))).
  { intros pkt. destruct (sendTiming env (trace (world s0)) pkt); intros [= <-]; done. }
  destruct (HasUnalignedMemAcc env); [destruct lo as [lo|]|].
  2,3: intros Hr; apply Hone in Hr as [Ht Hr]; by eexists _, _, _.
  destruct hi as [hi|]; [|done]. cbn [mbind res_bind deref]. destruct (Request.getSize lo) as [off|]; [|done]. cbn [mbind res_bind].
  destruct (get_state s0 (nextState (world s))) as [x|]; [|done]. cbn [mbind res_bind].
  set (s1 := put_state s0 _ _). set (p1 := mkPkt _ lo _ _). destruct (sendTiming env (trace (world s1)) p1) eqn:E1.
  - set (p2 := mkPkt _ hi _ _). set (s2 := set_usedPorts _ _). destruct (sendTiming env (trace (world s2)) p2).
    + intros [= <-]. exists p1, true. eexists. simpl. by rewrite <- app_assoc.
    + destruct (get_state _ _); [|done]. intros [= <-]. exists p1, true. eexists. simpl. by rewrite <- app_assoc.
  - intros [= <-]. exists p1, false, []. done.
Qed.

Lemma read_memory_trace env s id i rq lo hi idx f s' : insts (world s) !! id = Some i -> read_memory env s id rq lo hi idx = Ok (f, s') ->
  exists evs, trace (world s') = trace (world s) ++ evs /\ to_memory env s s' id i rq lo evs.
Proof.
  intros Hi. unfold read_memory, get. rewrite Hi. cbn [mbind res_bind deref]. destruct (bool_decide _); [|done]. cbn [c_assert mbind res_bind]. unfold upd, get. rewrite Hi. cbn [mbind res_bind deref].
  set (s1 := set_usedPorts _ _). change (cacheBlocked s1) with (cacheBlocked s). unfold to_memory.
  assert (Hfin : forall s3, (if cacheBlocked s3 then let s := emit s3 (EDecrWb (seqNum i)) in let b := blocked (unit_ s) in
      if isLoadBlocked b && (blockedLoadSeqNum b <? seqNum i) then Ok (NoFault, s) else Ok (NoFault, set_blocked s (mkBlocked (retryPkt b) (isStoreBlocked b) true false (seqNum i)))
      else Ok (NoFault, s3)) = Ok (f, s') -> trace (world s') = trace (world s3) ++ (if cacheBlocked s3 then [EDecrWb (seqNum i)] else []) /\ retryTid (world s') = retryTid (world s3) /\
      (cacheBlocked s' = true -> isLoadBlocked (blocked (unit_ s')) = true /\ blockedLoadSeqNum (blocked (unit_ s')) <= seqNum i)).
  { intros s3. destruct (cacheBlocked s3) eqn:E3; cbv zeta.
    - destruct (isLoadBlocked (blocked (unit_ (emit s3 (EDecrWb (seqNum i))))) && _) eqn:Eb; intros [= <- <-]; split_and!; try done; intros _.
      apply andb_true_iff in Eb as [? ?%Z.ltb_lt]. simpl in *. split; [done|lia].
    - intros [= <- <-]. rewrite app_nil_r. split_and!; try done. congruence. }
  destruct (cacheBlocked s) eqn:Ec.
  - cbn [mbind res_bind]. intros Hr. apply Hfin in Hr as (Ht & _ & Hb). change (cacheBlocked s1) with (cacheBlocked s) in Ht. rewrite Ec in Ht. eexists. split; [exact Ht|done].
  - destruct (send_load env s1 id rq lo hi idx) as [s3|] eqn:E3; [|done]. cbn [mbind res_bind]. intros Hr. apply Hfin in Hr as (Ht & Hrt & Hb).
    destruct (send_load_trace _ _ _ _ _ _ _ _ E3) as (pkt & ok & rest & Ht3 & Hp & Hq & Hc & Hok). eexists. split; [rewrite Ht, Ht3, <- app_assoc, <- app_comm_cons; done|].
    split; [|done]. eexists pkt, ok, _. split_and!; try done. intros E0. unfold cacheBlocked. rewrite Hrt, (Hok E0). change (lsqID (unit_ s1)) with (lsqID (unit_ s)).
    destruct (Z.eqb_spec (lsqID (unit_ s)) (-1)); [by right|by left].
Qed.

(** ** Reading *)
Section ReadMemory.
Context (env : Env) (s : t) (L : list Z) (E : list SQEntry) (w : nat) (C : Z) (k : nat) (id : Z) (i : Inst).
Context (H : Inv s L E w C) (Hk : L !! k = Some id) (Hi : insts (world s) !! id = Some i).
Context (Hx : has i DynInst.Executed = false) (Hm : memData i = None) (Hns : ~ stalling (stall (unit_ s)) (loadPos s) L id).
Context (rq : Request.t) (lo hi : option Request.t) (Hlo : forall l, lo = Some l -> rq_ok l /\ is_Some hi).

Lemma read_memory_ok idx : exists s' i', read_memory env s id rq lo hi idx = Ok (NoFault, s') /\ Inv s' L E w C /\ insts (world s') !! id = Some i' /\ loaded i i' (Some []) /\ lqs s' = lqs s.
Proof.
  unfold read_memory, get. rewrite Hi. cbn [mbind res_bind deref]. rewrite Hm, bool_decide_eq_true_2 by done. cbn [c_assert mbind res_bind].
  destruct (Inv_loadData s L E w C k id i H Hk Hi Hns []) as [-> H1]. cbn [mbind res_bind]. set (i' := set_memData (Some []) i) in *.
  set (s1 := set_world s _) in *. set (s2 := set_usedPorts s1 _). assert (H2 : Inv s2 L E w C) by (by apply Inv_usedPorts).
  assert (Hi2 : insts (world s2) !! id = Some i') by (simpl; by rewrite lookup_insert_eq). assert (Hld : loaded i i' (Some [])) by done.
  destruct (load_not_store _ _ _ _ _ _ _ _ H Hk Hi) as (Hst & _).
  assert (H3 : exists s3, (if cacheBlocked s2 then Ok s2 else send_load env s2 id rq lo hi idx) = Ok s3 /\ Inv s3 L E w C /\ insts (world s3) !! id = Some i' /\ lqs s3 = lqs s).
  { destruct (cacheBlocked s2); [by exists s2|]. destruct (send_load_ok env s2 L E w C id i' rq lo hi idx H2 Hi2) as (s3 & -> & H3 & Hi3 & Hq3); try done. exists s3. rewrite Hi3. split_and!; try done. }
  destruct H3 as (s3 & -> & H3 & Hi3 & Hq3). cbn [mbind res_bind]. destruct (cacheBlocked s3); [|by exists s3, i'].
  assert (H4 : Inv (emit s3 (EDecrWb (seqNum i))) L E w C) by (by apply Inv_emit). destruct (_ && _); [by exists (emit s3 (EDecrWb (seqNum i))), i'|].
  eexists _, i'. split; [reflexivity|]. split; [by apply Inv_blocked|done].
Qed.
End ReadMemory.

Section ReadOk.
Context (env : Env) (s : t) (L : list Z) (E : list SQEntry) (w : nat) (C : Z) (k : nat) (id : Z) (i : Inst).
Context (H : Inv s L E w C) (Hk : L !! k = Some id) (Hi : insts (world s) !! id = Some i).
Context (Hx : has i DynInst.Executed = false) (Hm : memData i = None) (Hns : ~ stalling (stall (unit_ s)) (loadPos s) L id).
Context (rq : Request.t) (lo hi : option Request.t) (Hlo : forall l, lo = Some l -> rq_ok l /\ is_Some hi).

Context (Hrq : rq_ok rq) (Hv : 0 <= Request._vaddr rq) (Hsz : 0 < Request._size rq <= 8) (Hvs : Request._vaddr rq + Request._size rq < 2 ^ 64).
Context (Hll : Request.isLLSC rq = true -> lo = None).

(** The access may go ahead now. *)
Definition deferred : bool := Request.isUncacheable rq && (negb (loadPos s k =? loadHead (lqs s)) || negb (has i DynInst.AtCommit)).

(** What [read] does for each outcome of the search. *)
Definition read_result (s' : t) (i' : Inst) : Prop :=
  exists f evs, search_spec s E w (older (insts (world s)) (eid <$> E) (seqNum i)) (Request._vaddr rq) (Request._size rq) f /\
  trace (world s') = trace (world s) ++ (if Request.isLLSC rq then [ELockedRead id rq] else []) ++ evs /\
  match f with
  | FromStore _ => exists kk e a, youngest (insts (world s)) E w (older (insts (world s)) (eid <$> E) (seqNum i)) (Request._vaddr rq) (Request._size rq) kk e /\
      supplies (insts (world s)) (Request._vaddr rq) (Request._size rq) e = true /\ insts (world s) !! eid e = Some a /\ memData i' = Some (supplied e a (Request._vaddr rq) (Request._size rq)) /\
      evs = [EWriteback id (mkPkt MemCmd.ReadReq rq (id, 0) None) 0]
  | Mismatch _ => memData i' = None /\ stalled (stall (unit_ s')) = true /\ evs = [ERescheduleMemInst id; EDecrWb (seqNum i)]
  | FromMemory => memData i' = Some [] /\ to_memory env s s' id i rq lo evs
  end.

Lemma read_ok : exists f s' i' d, read env s rq lo hi (loadPos s k) = Ok (f, s') /\ Inv s' L E w C /\ insts (world s') !! id = Some i' /\ loaded i i' d /\ lqs s' = lqs s /\
  (if deferred then f = MachineCheckFault /\ memData i' = None /\ stall (unit_ s') = stall (unit_ s) /\ trace (world s') = trace (world s) ++ [ERescheduleMemInst id] else f = NoFault /\ read_result s' i').
Proof.
  unfold read. assert (Hg : vget (loadQueue (lqs s)) (loadPos s k) = Ok (Some id)) by (eapply ring_vget; [by apply H|by rewrite list_lookup_fmap, Hk]).
  rewrite Hg. cbn [mbind res_bind assert_ptr]. unfold get. rewrite Hi. cbn [mbind res_bind deref]. rewrite Hx. cbn [negb c_assert mbind res_bind]. fold deferred. destruct deferred.
  { eexists _, _, i, None. split; [reflexivity|]. split; [by apply Inv_emit|]. done. }
  set (s1 := if Request.isLLSC rq then emit s (ELockedRead id rq) else s).
  assert (Hs1 : (if Request.isLLSC rq then _ ← c_assert (bool_decide (lo = None)); Ok (emit s (ELockedRead id rq)) else Ok s) = Ok s1).
  { unfold s1. destruct (Request.isLLSC rq) eqn:El; [|done]. rewrite Hll, bool_decide_eq_true_2 by done. done. }
  rewrite Hs1. cbn [mbind res_bind]. assert (H1 : Inv s1 L E w C) by (unfold s1; destruct (Request.isLLSC rq); [by apply Inv_emit|done]).
  assert (Hsame : insts (world s1) = insts (world s) /\ unit_ s1 = unit_ s /\ trace (world s1) = trace (world s) ++ (if Request.isLLSC rq then [ELockedRead id rq] else []) /\ cacheBlocked s1 = cacheBlocked s)
    by (unfold s1; destruct (Request.isLLSC rq); rewrite ?app_nil_r; done). destruct Hsame as (Hin1 & Hu1 & Htr1 & Hcb1).
  assert (Hi1 : insts (world s1) !! id = Some i) by (by rewrite Hin1). assert (Hlp : forall j, loadPos s1 j = loadPos s j) by (intros j; unfold loadPos, lqs; by rewrite Hu1).
  assert (Hspp : forall j, storePos s1 j = storePos s j) by (intros j; unfold storePos, sqs; by rewrite Hu1).
  assert (Hns1 : ~ stalling (stall (unit_ s1)) (loadPos s1) L id).
  { intros (? & j & ? & Hj). apply Hns. rewrite Hu1 in *. split; [done|]. exists j. by rewrite <- Hlp. }
  assert (Hq1 : lqs s1 = lqs s) by (unfold lqs; by rewrite Hu1). clearbody s1. destruct Hrq as [Hva Hvsz]. unfold Request.getVaddr, Request.getSize. rewrite Hva, Hvsz. cbn [c_assert mbind res_bind].
  destruct (forward_ok s1 L E w C k id i (Request._vaddr rq) (Request._size rq) H1 Hk Hi1 Hx Hv ltac:(lia) Hvs) as (f & -> & Hf). cbn [mbind res_bind].
  assert (Hf' : search_spec s E w (older (insts (world s)) (eid <$> E) (seqNum i)) (Request._vaddr rq) (Request._size rq) f).
  { destruct f; simpl in Hf |- *; rewrite Hin1 in Hf; try done; destruct Hf as (kk & e & -> & ?); exists kk, e; by rewrite Hspp. }
  destruct f as [idx|idx|].
  - destruct Hf as (kk & e & -> & Hy & Hsu).
    destruct (forward_data_ok s1 L E w C k id i H1 Hk Hi1 Hm Hns1 _ _ Hv Hsz _ kk e rq Hy Hsu) as (s' & i' & a & -> & H' & Hi' & Ha & Hl & Hq & Htr).
    exists NoFault, s', i', (Some (supplied e a (Request._vaddr rq) (Request._size rq))). split_and!; try done; [congruence|]. exists (FromStore (storePos s1 kk)). eexists. split; [done|]. split; [rewrite Htr, Htr1, <- app_assoc; reflexivity|]. exists kk, e, a.
    rewrite <- Hin1. split_and!; try done. apply Hl.
  - destruct Hf as (kk & e & -> & Hy & Hsu). rewrite <- Hlp.
    destruct (stall_load_ok s1 L E w C k id i H1 Hk Hi1 Hx Hm _ _ _ kk e ltac:(done) Hy) as (s' & i' & -> & H' & Hi' & Hl & Hst & Htr & Hq).
    exists NoFault, s', i', None. split_and!; try done; [congruence|]. exists (Mismatch (storePos s1 kk)). eexists. split; [done|]. split; [rewrite Htr, Htr1, <- app_assoc; reflexivity|]. split_and!; try done. apply Hl.
  - assert (Hrm : exists s' i', read_memory env s1 id rq lo hi (loadPos s k) = Ok (NoFault, s') /\ Inv s' L E w C /\ insts (world s') !! id = Some i' /\ loaded i i' (Some []) /\ lqs s' = lqs s1).
    { by eapply read_memory_ok. }
    destruct Hrm as (s' & i' & Hrm & H' & Hi' & Hl & Hq). destruct (read_memory_trace _ _ _ _ _ _ _ _ _ _ Hi1 Hrm) as (evs & Htr & Hto). rewrite Hrm. exists NoFault, s', i', (Some []). split_and!; try done; [congruence|]. exists FromMemory, evs. split; [done|]. split; [by rewrite Htr, Htr1, <- app_assoc|]. split; [by apply Hl|].
    unfold to_memory in *. by rewrite Hcb1, Hu1 in Hto.
Qed.
End ReadOk.
