(* ===== verification/LsqExec.v ===== *)
(** * Execution keeps the invariant of the load/store queue *)
From S2P Require Import Prelude EventQueue IntMath Request Packet Rob LsqUnit LsqInv LsqOps LsqSend LsqWriteback LsqAccess LsqForward.
Import LSQUnit.

(** ** Ordering violations *)

(** The load has an address in the same 256 bytes. *)
Definition hits (addr : Z) (a : Inst) : bool := effAddrValid a && (Z.shiftr (effAddr a) 8 =? Z.shiftr addr 8).

(** The oldest load from the [j]-th on that has, and whether it is older than the violator known so far. *)
Definition first_hit (m : gmap Z Inst) (L : list Z) (addr : Z) (j k : nat) (id : Z) (a : Inst) : Prop :=
  (j <= k)%nat /\ L !! k = Some id /\ m !! id = Some a /\ hits addr a = true /\
  forall k' id' a', (j <= k' < k)%nat -> L !! k' = Some id' -> m !! id' = Some a' -> hits addr a' = false.
Definition beats (m : gmap Z Inst) (v : option Z) (a : Inst) : Prop := forall x, v = Some x -> seqNum a < sn m x.

Definition violation_spec (s : t) (L : list Z) (addr : Z) (j : nat) (r : option Fault) (s' : t) : Prop :=
  let m := insts (world s) in
  (r = None /\ s' = s /\ forall k id a, (j <= k)%nat -> L !! k = Some id -> m !! id = Some a -> hits addr a = false) \/
  (exists k id a, first_hit m L addr j k id a /\
     ((beats m (memDepViolator (unit_ s)) a /\ r = Some MachineCheckFault /\ s' = set_violator s (Some id)) \/
      (~ beats m (memDepViolator (unit_ s)) a /\ r = None /\ s' = s))).

Lemma violation_loop_ok s L E w C addr : Inv s L E w C -> forall fuel j, (j <= length L)%nat -> (length L - j < fuel)%nat ->
  exists r s', violation_loop fuel s addr (loadPos s j) = Ok (r, s') /\ Inv s' L E w C /\ violation_spec s L addr j r s'.
Proof.
  intros H. induction fuel as [|fuel IH]; intros j Hj Hf; [lia|]. cbn [violation_loop].
  assert (Ht : (loadPos s j =? loadTail (lqs s)) = bool_decide (j = length L)).
  { unfold loadPos. rewrite (ring_tail_eq _ _ _ _ _ j (i_lq _ _ _ _ _ H)) by (by rewrite length_fmap). by rewrite length_fmap. }
  rewrite Ht. case_bool_decide as Ej.
  { exists None, s. split_and!; try done. left. split_and!; try done. intros k id a Hk Hl. apply lookup_lt_Some in Hl. lia. }
  destruct (lookup_lt_is_Some_2 L j) as [id Hid]; [lia|]. unfold load_at, loadPos. rewrite (ring_vget _ _ _ _ _ j (Some id) (i_lq _ _ _ _ _ H)) by (by rewrite list_lookup_fmap, Hid).
  fold (loadPos s j). cbn [mbind res_bind deref]. destruct (i_load _ _ _ _ _ H j id Hid) as [a [Ha _ _ _ _]]. unfold get. rewrite Ha. cbn [mbind res_bind deref]. fold (hits addr a).
  destruct (hits addr a) eqn:Eh.
  - assert (Hfh : first_hit (insts (world s)) L addr j j id a) by (split_and!; try done; intros k' id' a' Hk'; lia).
    destruct (memDepViolator (unit_ s)) as [v|] eqn:Ev.
    + destruct (i_violator _ _ _ _ _ H v Ev) as [b Hb]. unfold seq, get. rewrite Hb. cbn [mbind res_bind deref]. destruct (Z.ltb_spec (seqNum a) (seqNum b)) as [Hlt|Hge].
      * eexists _, _. split; [reflexivity|]. split; [apply Inv_violator; [done|]; intros x [= <-]; by exists a|]. right. exists j, id, a. split; [done|]. left. split_and!; try done.
        intros x Hx. rewrite Ev in Hx. injection Hx as <-. by rewrite (sn_get _ _ _ Hb).
      * exists None, s. split_and!; try done. right. exists j, id, a. split; [done|]. right. split_and!; try done. intros Hbt. specialize (Hbt v Ev). rewrite (sn_get _ _ _ Hb) in Hbt. lia.
    + cbn [mbind res_bind]. eexists _, _. split; [reflexivity|]. split; [apply Inv_violator; [done|]; intros x [= <-]; by exists a|]. right. exists j, id, a. split; [done|]. left. split_and!; try done.
      intros x Hx. congruence.
  - assert (Hinc : incrLdIdx s (loadPos s j) = loadPos s (S j)) by (apply incrIdx_pos; eapply r_n; by apply H). rewrite Hinc.
    destruct (IH (S j) ltac:(lia) ltac:(lia)) as (r & s' & -> & H' & Hsp). exists r, s'. split_and!; try done. destruct Hsp as [(-> & -> & Hn)|(k & id' & a' & (Hk & ? & ? & ? & Hn) & Hr)].
    + left. split_and!; try done. intros k id' a' Hk Hl Ha'. destruct (decide (k = j)) as [->|]; [congruence|]. apply (Hn k id' a'); [lia|done|done].
    + right. exists k, id', a'. split; [|done]. split_and!; try done; [lia|]. intros k' x b Hk' Hx Hb. destruct (decide (k' = j)) as [->|]; [congruence|]. apply (Hn k' x b); [lia|done|done].
Qed.

(** ** Instructions that made their request *)
Lemma keeps_accessed P E id i i' : accessed i i' -> (forall e, e ∈ E -> inst e = Some id -> size e = 0) -> keeps P E id i i'.
Proof.
  intros [] Hsz. assert (Hh : forall st, has i' st = has i st) by (intros st; unfold has; by rewrite a_dyn).
  split; rewrite ?Hh; try done; try congruence.
  - unfold seqNum. by rewrite a_dyn.
  - intros e He Hie Hs. by rewrite (Hsz e He Hie) in Hs.
Qed.
Lemma Inv_touched s s' L E w C id i i' : Inv s L E w C -> insts (world s) !! id = Some i -> touched s s' id i i' ->
  (forall e, e ∈ E -> inst e = Some id -> size e = 0) -> Inv s' L E w C.
Proof.
  intros H Hi [-> Ha] Hsz. destruct (Inv_upd s L E w C id i (fun _ => i') H Hi) as [_ H1]; [by apply keeps_accessed|done].
Qed.
Lemma keeps_fault P E id i f : keeps P E id i (set_fault f i).
Proof. by split. Qed.

(** ** Loads *)
Section Load.
Context (env : Env) `{!EnvLaws env} (s : t) (L : list Z) (E : list SQEntry) (w : nat) (C : Z) (k : nat) (id : Z) (i : Inst).
Context (H : Inv s L E w C) (Hk : L !! k = Some id) (Hi : insts (world s) !! id = Some i).
Context (Hx : has i DynInst.Executed = false) (Hm : memData i = None) (Hns : ~ stalling (stall (unit_ s)) (loadPos s) L id).

(** The outcome of the access of a load: a fault of its own or of the translation,
    a load deferred to the head of the queue, or a read. *)
Definition load_outcome (a : Access) (f : Fault) (s' : t) (i' : Inst) : Prop :=
  match a with
  | NoAccess g => f = g
  | MemAccess addr sz flags asid pc ctx _ _ =>
      exists r s1 i1, make_request env s id false addr sz flags asid pc ctx None = Ok (r, s1) /\ touched s s1 id i i1 /\
      match r with
      | None => is_fault f = true /\ trace (world s') = trace (world s)
      | Some (rq, lohi) => Request._vaddr rq = addr /\ Request._size rq = sz /\
          if deferred s1 k i1 rq then f = MachineCheckFault /\ trace (world s') = trace (world s) ++ [ERescheduleMemInst id]
          else f = NoFault /\ effAddrValid i' = true /\ effAddr i' = addr /\ exists i2, read_result env s1 E w id i1 rq (fst <$> lohi) s' i2 /\ memData i' = memData i2
      end
  end.

Lemma initiateAcc_load_ok a : access_ok env false a ->
  exists f s' i', initiateAcc env s id false a = Ok (f, s') /\ Inv s' L E w C /\ insts (world s') !! id = Some i' /\ lqIdx i' = loadPos s k /\ lqs s' = lqs s /\
    load_outcome a f s' i' /\ (is_fault f = false -> effAddrValid i' = true) /\ (is_fault f = true -> memData i' = None /\ ~ stalling (stall (unit_ s')) (loadPos s') L id).
Proof.
  intros Ha. destruct (load_not_store _ _ _ _ _ _ _ _ H Hk Hi) as (Hst & Hld & Hlq & Hne). destruct a as [g|addr sz flags asid pc ctx d rs].
  { simpl in Ha. specialize (Ha eq_refl). exists g, s, i. split_and!; try done. congruence. }
  unfold initiateAcc. destruct (make_request_ok env s id i false addr sz flags asid pc ctx d rs Hi Ha) as (r & s1 & i1 & Hmk & Ht & Hrm & Hr). rewrite Hmk. cbn [mbind res_bind]. cbv beta iota.
  pose proof (Inv_touched _ _ _ _ _ _ _ _ _ H Hi Ht ltac:(intros e He Hie; by destruct (Hne e He Hie))) as H1. rewrite (get_touched _ _ _ _ _ Ht). cbn [mbind res_bind].
  assert (Hi1 : insts (world s1) !! id = Some i1) by (destruct Ht as [-> _]; simpl; by rewrite lookup_insert_eq). assert (Hu1 : unit_ s1 = unit_ s) by (by destruct Ht as [-> _]).
  pose proof Ht as [_ [Hdy _ _ _ Hlq1 _ Hm1]]. assert (Hx1 : has i1 DynInst.Executed = false) by (unfold has; by rewrite Hdy).
  assert (Hns1 : ~ stalling (stall (unit_ s1)) (loadPos s1) L id) by (unfold loadPos, lqs; rewrite Hu1; exact Hns).
  assert (Hlp1 : loadPos s1 k = loadPos s k) by (unfold loadPos, lqs; by rewrite Hu1).
  destruct r as [[rq lohi]|].
  - destruct Hr as (Hrq & Hev & Hea & Hunc & Hll & Hlh). destruct Ha as (Ha0 & Hsz & Hw & _ & _ & _). destruct Hrq as [Hok Hva Hzz _ _].
    destruct (read_ok env s1 L E w C k id i1 H1 Hk Hi1 Hx1 ltac:(congruence) Hns1 rq (fst <$> lohi) (snd <$> lohi)) as (f & s2 & i2 & dd & Hrd & H2 & Hi2 & Hl2 & Hq2 & Hres); rewrite ?Hva, ?Hzz; try done.
    { intros l Hl. destruct lohi as [[lo hi]|]; [|done]. injection Hl as <-. destruct Hlh as (a1 & s1' & Hl1). split; [apply Hl1|done]. }
    { intros Hl. by rewrite (Hll Hl). }
    rewrite Hlq1, Hlq, <- Hlp1. rewrite Hrd. cbn [mbind res_bind fst snd].
    destruct (Inv_upd s2 L E w C id i2 (set_fault f) H2 Hi2 (keeps_fault _ E id i2 f)) as [-> H3]. cbn [mbind res_bind].
    eexists f, _, (set_fault f i2). split; [reflexivity|]. split; [exact H3|]. split; [simpl; by rewrite lookup_insert_eq|]. destruct Hl2.
    assert (Hq2s : lqs s2 = lqs s) by (rewrite Hq2; unfold lqs; by rewrite Hu1). split_and!; try done.
    + simpl. rewrite d_lq, Hlq1, Hlq. done.
    + exists (Some (rq, lohi)), s1, i1. split_and!; try done. destruct (deferred s1 k i1 rq).
      * destruct Hres as (-> & _ & _ & Htr). split; [done|]. simpl. rewrite Htr. destruct Ht as [-> _]. done.
      * destruct Hres as [-> Hres]. simpl. split_and!; try done; try congruence. exists i2. done.
    + intros _. simpl. congruence.
    + intros Hf. destruct (deferred s1 k i1 rq); [|destruct Hres as [-> _]; done]. destruct Hres as (-> & Hmm & Hst2 & _). split; [done|].
      change (~ stalling (stall (unit_ s2)) (loadPos s2) L id). unfold loadPos. rewrite Hst2, Hq2s, Hu1. exact Hns.
  - destruct (Inv_status s1 L E w C id i1 DynInst.Executed H1 Hi1) as (s2 & -> & H2 & ->); [by intros ?|done..|]. cbn [mbind res_bind].
    eexists _, _, (set_dyn (DynInst.set DynInst.Executed) i1). split; [reflexivity|]. split; [exact H2|]. split; [simpl; by rewrite lookup_insert_eq|]. split_and!; try done.
    + simpl. congruence.
    + unfold lqs. simpl. by rewrite Hu1.
    + exists None, s1, i1. split_and!; try done. by destruct Ht as [-> _].
    + intros Hf. congruence.
    + intros _. simpl. split; [congruence|exact Hns1].
Qed.

(** [executeLoad]: what becomes of the access, and the younger loads that have
    gone ahead of it. *)
Lemma executeLoad_ok a : access_ok env false a -> has i DynInst.Squashed = false ->
  exists f s' (s1 : t) (i1 : Inst), executeLoad env s id a = Ok (f, s') /\ Inv s' L E w C /\ insts (world s1) !! id = Some i1 /\
    (exists i', insts (world s') !! id = Some i' /\ memData i' = memData i1) /\
    exists f1, load_outcome a f1 s1 i1 /\ (is_fault f1 = true -> memData i1 = None) /\
      if is_fault f1 then f = f1 /\ memDepViolator (unit_ s') = memDepViolator (unit_ s1) /\ exists rest, trace (world s') = trace (world s1) ++ rest
      else if loadBlocked s1 then f = f1 /\ s' = s1
      else exists r, violation_spec s1 L (effAddr i1) (S k) r s' /\ f = default f1 r.
Proof.
  intros Ha Hsq. unfold executeLoad. assert (Hg : get s id = Ok i) by (unfold get; by rewrite Hi). rewrite Hg. cbn [mbind res_bind]. rewrite Hsq. cbn [negb c_assert mbind res_bind].
  destruct (initiateAcc_load_ok a Ha) as (f & s1 & i1 & -> & H1 & Hi1 & Hl1 & Hq1 & Hout & Hev & Hfl). cbn [mbind res_bind]. cbv beta iota. unfold get. rewrite Hi1. cbn [mbind res_bind deref].
  destruct (is_fault f) eqn:Ef.
  - destruct (Hfl eq_refl) as [Hm1 Hns1].
    assert (Hx1 : exists s2, (if negb (reqMade i1 && isUncacheable i1) || has i1 DynInst.AtCommit then set_status s1 id DynInst.Executed else Ok s1) = Ok s2 /\ Inv s2 L E w C /\
      memDepViolator (unit_ s2) = memDepViolator (unit_ s1) /\ trace (world s2) = trace (world s1) /\ exists i', insts (world s2) !! id = Some i' /\ memData i' = memData i1).
    { destruct (_ || _); [|exists s1; split_and!; try done; by exists i1]. destruct (Inv_status s1 L E w C id i1 DynInst.Executed H1 Hi1) as (s2 & -> & H2 & ->); [by intros ?|done..|]. eexists. split_and!; try done. eexists. split; [simpl; by rewrite lookup_insert_eq|done]. }
    destruct Hx1 as (s2 & -> & H2 & Hv2 & Ht2 & Hi2). cbn [mbind res_bind]. eexists _, _, s1, i1. split; [reflexivity|]. split; [by do 2 (apply Inv_emit; [|done])|]. split; [done|]. split; [exact Hi2|].
    exists f. rewrite Ef. split_and!; try done. simpl. rewrite Ht2, <- app_assoc. by eexists.
  - destruct (loadBlocked s1) eqn:Elb.
    { exists f, s1, s1, i1. split_and!; try done; [by exists i1|]. exists f. by rewrite Ef, Elb. }
    rewrite (Hev eq_refl), Hl1. cbn [c_assert mbind res_bind].
    assert (Hinc : incrLdIdx s1 (loadPos s k) = loadPos s1 (S k)).
    { unfold loadPos. rewrite <- Hq1. apply incrIdx_pos. eapply r_n. by apply H1. }
    rewrite Hinc. pose proof (r_len _ _ _ _ _ (i_lq _ _ _ _ _ H1)) as Hlen. pose proof (r_free _ _ _ _ _ (i_lq _ _ _ _ _ H1)) as Hfr. rewrite length_fmap in Hfr.
    destruct (violation_loop_ok s1 L E w C (effAddr i1) H1 (S (length (loadQueue (lqs s1)))) (S k)) as (r & s2 & -> & H2 & Hsp); [by eapply lookup_lt_Some in Hk|lia|].
    cbn [mbind res_bind fst snd]. eexists _, s2, s1, i1. split; [reflexivity|]. split_and!; try done.
    + exists i1. split; [|done]. by destruct Hsp as [(_ & -> & _)|(? & ? & ? & _ & [(_ & _ & ->)|(_ & _ & ->)])].
    + exists f. rewrite Ef, Elb. split; [done|]. split; [done|]. by exists r.
Qed.
End Load.

(** ** Stores *)

(** The entry of a store that has written its data. *)
Definition filled (e : SQEntry) (rq : Request.t) (lo hi : option Request.t) (d : list Z) : SQEntry :=
  mkSQEntry (inst e) (Some rq) lo hi (Z.of_nat (length d)) (d ++ drop (length d) (data e)) (isSplit e) (canWB e) (committed e) (completed e).

Section Write.
Context (s : t) (L : list Z) (E : list SQEntry) (w : nat) (C : Z) (k : nat) (e : SQEntry) (id : Z) (i : Inst).
Context (H : Inv s L E w C) (Hk : E !! k = Some e) (Hid : inst e = Some id) (Hi : insts (world s) !! id = Some i).
Context (Hc : canWB e = false) (Hsq : has i DynInst.Squashed = false).

Lemma store_alone x : x ∈ E -> inst x = Some id -> x = e.
Proof. intros [j Hj]%list_elem_of_lookup Hx. assert (j = k) as -> by (eapply Inv_sn_inj; [done..|congruence]). congruence. Qed.

Lemma write_ok rq lo hi d addr sz flags : request_for addr sz flags rq -> effAddrValid i = true -> effAddr i = addr -> aligned addr sz -> 0 <= addr ->
  addr + sz < 2 ^ 64 -> 0 < sz <= 8 -> Z.of_nat (length d) = sz ->
  write s rq lo hi d (storePos s k) = Ok (NoFault, with_entry s k (filled e rq lo hi d) (storesToWB (sqs s))) /\
  Inv (with_entry s k (filled e rq lo hi d) (storesToWB (sqs s))) L (<[k := filled e rq lo hi d]> E) w C.
Proof.
  intros [Hok Hva Hzz _ _] Hev Hea Hal H0 Hw Hs Hd. destruct (store_at _ _ _ _ _ _ _ H Hk) as (id' & i' & Hid' & Heid & Hi' & _ & _ & Hst).
  assert (id' = id) as -> by congruence. assert (i' = i) as -> by congruence. split.
  - unfold write. rewrite (entry_ok _ _ _ _ _ _ _ H Hk). cbn [mbind res_bind]. rewrite Hid. cbn [assert_ptr mbind res_bind].
    rewrite (proj2 (Z.leb_le _ _)) by (unfold data_size; lia). cbn [c_assert mbind res_bind]. by rewrite (put_entry_ok _ _ _ _ _ _ _ _ H Hk).
  - replace (storesToWB (sqs s)) with (numWaiting (<[k := filled e rq lo hi d]> E)).
    + apply Inv_entry with (e := e); [done..|]. split; try done; simpl; try congruence.
      * rewrite length_app, length_drop, (t_data _ _ _ _ _ _ _ _ _ _ _ Hst). unfold data_size in *. lia.
      * intros a Ha _. rewrite Heid, Hi in Ha. injection Ha as <-. intros _. simpl. rewrite Hd, Hea. split_and!; try done; [lia|lia|]. exists rq. done.
    + rewrite (numWaiting_insert _ _ _ _ Hk), (i_toWB _ _ _ _ _ H). unfold waits. simpl. rewrite Hc. simpl. lia.
Qed.

(** A store conditional may be written back once it has executed. *)
Lemma conditional_ok : (isStoreConditional i = true -> forall j b, j ∈ L -> insts (world s) !! j = Some b -> has b DynInst.Executed = false -> seqNum i < seqNum b) ->
  exists s', (if isStoreConditional i then s ← put_entry s (storePos s k) (set_canWB true); Ok (set_storesToWB s (storesToWB (sqs s) + 1)) else Ok s) = Ok s' /\
    Inv s' L (<[k := set_canWB (isStoreConditional i) e]> E) w C /\ world s' = world s /\ lqs s' = lqs s /\ memDepViolator (unit_ s') = memDepViolator (unit_ s).
Proof.
  intros Hy. destruct (store_at _ _ _ _ _ _ _ H Hk) as (id' & i' & Hid' & Heid & Hi' & _ & _ & Hst). assert (id' = id) as -> by congruence. assert (i' = i) as -> by congruence.
  destruct (isStoreConditional i) eqn:Esc.
  - rewrite (put_entry_ok _ _ _ _ _ _ _ _ H Hk). cbn [mbind res_bind]. eexists. split; [reflexivity|]. split; [|done]. set (e' := set_canWB true e).
    replace (set_storesToWB _ _) with (with_entry s k e' (numWaiting (<[k := e']> E))).
    + apply Inv_entry with (e := e); [done..|]. split; try done. intros _ _ a Ha. rewrite Heid, Hi in Ha. injection Ha as <-. split; [by right|]. split; [done|]. by apply Hy.
    + rewrite (numWaiting_insert _ _ _ _ Hk). simpl. unfold with_entry, set_storesToWB, set_sq. simpl. do 3 f_equal. rewrite (i_toWB _ _ _ _ _ H). unfold waits, e'. simpl. rewrite Hc.
      destruct (completed e) eqn:Ecp; [|simpl; lia]. pose proof (t_sent _ _ _ _ _ _ _ _ _ _ _ Hst (t_completed _ _ _ _ _ _ _ _ _ _ _ Hst Ecp)). congruence.
  - exists s. split; [done|]. split; [|done]. replace (set_canWB false e) with e; [by rewrite list_insert_id|]. destruct e. simpl in *. by rewrite Hc.
Qed.
End Write.

Section Store.
Context (env : Env) `{!EnvLaws env} (s : t) (L : list Z) (E : list SQEntry) (w : nat) (C : Z) (k : nat) (e : SQEntry) (id : Z) (i : Inst).
Context (H : Inv s L E w C) (Hk : E !! k = Some e) (Hid : inst e = Some id) (Hi : insts (world s) !! id = Some i).
Context (Hc : canWB e = false) (Hsz : size e = 0) (Hsq : has i DynInst.Squashed = false).

(** What [executeStore] makes of the entry and of the younger loads that have gone
    ahead. *)
Definition store_outcome (a : Access) (f : Fault) (s' : t) (e' : SQEntry) : Prop :=
  match a with
  | NoAccess g => f = g /\ e' = e /\ s' = s
  | MemAccess addr sz _ _ _ _ d _ =>
      (is_fault f = true /\ e' = e /\ unit_ s' = unit_ s) \/
      (inst e' = Some id /\ size e' = sz /\ take (Z.to_nat sz) (data e') = d /\ canWB e' = isStoreConditional i /\
       (exists rq, req e' = Some rq /\ Request._vaddr rq = addr /\ Request._size rq = sz) /\
       exists s1 i1 r, insts (world s1) = <[id := i1]> (insts (world s)) /\ effAddrValid i1 = true /\ effAddr i1 = addr /\ seqNum i1 = seqNum i /\
         memDepViolator (unit_ s1) = memDepViolator (unit_ s) /\
         violation_spec s1 L addr (older (insts (world s)) L (seqNum i)) r s' /\ f = default NoFault r)
  end.

Lemma executeStore_ok a : access_ok env true a ->
  (isStoreConditional i = true -> forall j b, j ∈ L -> insts (world s) !! j = Some b -> has b DynInst.Executed = false -> seqNum i < seqNum b) ->
  exists f s' e', executeStore env s id a = Ok (f, s') /\ Inv s' L (<[k := e']> E) w C /\ store_outcome a f s' e'.
Proof.
  intros Ha Hy. destruct (store_at _ _ _ _ _ _ _ H Hk) as (id' & i' & Hid' & Heid & Hi' & _ & Hg & Hst). assert (id' = id) as -> by congruence. assert (i' = i) as -> by congruence.
  unfold executeStore. rewrite (i_stores _ _ _ _ _ H). replace (Z.of_nat (length E) =? 0) with false by (apply lookup_lt_Some in Hk; symmetry; apply Z.eqb_neq; lia).
  cbn [negb c_assert mbind res_bind]. rewrite Hg. cbn [mbind res_bind]. rewrite Hsq. cbn [negb c_assert mbind res_bind]. rewrite (t_idx _ _ _ _ _ _ _ _ _ _ _ Hst).
  assert (Hsame : forall g s1, unit_ s1 = unit_ s -> Inv s1 L E w C ->
    (e0 ← entry s1 (storePos s k); if size e0 =? 0 then Ok (g, s1) else
       _ ← c_assert (negb (is_fault g)); s2 ← (if isStoreConditional i then s2 ← put_entry s1 (storePos s k) (set_canWB true); Ok (set_storesToWB s2 (storesToWB (sqs s2) + 1)) else Ok s1);
       i0 ← get s2 id; _ ← c_assert (effAddrValid i0); r ← violation_loop (S (length (loadQueue (lqs s2)))) s2 (effAddr i0) (lqIdx i); Ok (default g r.1, r.2)) = Ok (g, s1)).
  { intros g s1 Hu H1. assert (Hp : storePos s k = storePos s1 k) by (unfold storePos, sqs; by rewrite Hu). rewrite Hp, (entry_ok _ _ _ _ _ _ _ H1 Hk). cbn [mbind res_bind]. rewrite Hsz. done. }
  destruct a as [g|addr sz flags asid pc ctx d rs].
  { cbn [initiateAcc mbind res_bind]. cbv beta iota. rewrite (Hsame g s eq_refl H). exists g, s, e. split; [done|]. split; [by rewrite list_insert_id|done]. }
  unfold initiateAcc. destruct (make_request_ok env s id i true addr sz flags asid pc ctx d rs Hi Ha) as (r & s1 & i1 & -> & Ht & Hrm & Hr). cbn [mbind res_bind]. cbv beta iota.
  assert (H1 : Inv s1 L E w C) by (eapply Inv_touched; [done..|]; intros x Hx Hix; by rewrite (store_alone s L E w C k e id H Hk Hid x Hx Hix)).
  rewrite (get_touched _ _ _ _ _ Ht). cbn [mbind res_bind].
  assert (Hi1 : insts (world s1) !! id = Some i1) by (destruct Ht as [-> _]; simpl; by rewrite lookup_insert_eq). assert (Hu1 : unit_ s1 = unit_ s) by (by destruct Ht as [-> _]).
  assert (Hm1 : insts (world s1) = <[id := i1]> (insts (world s))) by (by destruct Ht as [-> _]).
  pose proof Ht as [_ [Hdy _ _ Hsc1 Hlq1 Hsq1 _]]. destruct r as [[rq lohi]|].
  - destruct Hr as (Hrq & Hev & Hea & _). destruct Ha as (Ha0 & Hszr & Hw & Hwr & _). destruct (Hwr eq_refl) as [Hd Hal]. pose proof Hrq as [_ Hva Hzz _ _].
    assert (Hp1 : storePos s k = storePos s1 k) by (unfold storePos, sqs; by rewrite Hu1). rewrite Hsq1, (t_idx _ _ _ _ _ _ _ _ _ _ _ Hst), Hp1.
    destruct (write_ok s1 L E w C k e id i1 H1 Hk Hid Hi1 Hc rq (fst <$> lohi) (snd <$> lohi) d addr sz flags) as [-> H2]; try done. cbn [mbind res_bind fst snd].
    set (e2 := filled e rq (fst <$> lohi) (snd <$> lohi) d) in *. set (s2 := with_entry s1 k e2 (storesToWB (sqs s1))) in *.
    pose proof (lookup_lt_Some _ _ _ Hk) as Hlk. assert (Hk2 : <[k := e2]> E !! k = Some e2) by (by apply list_lookup_insert_eq).
    destruct (Inv_upd s2 L (<[k := e2]> E) w C id i1 (set_fault NoFault) H2 Hi1 (keeps_fault _ _ id i1 NoFault)) as [-> H3]. cbn [mbind res_bind]. cbv beta iota.
    set (s3 := set_world s2 _) in *. assert (Hi3 : insts (world s3) !! id = Some (set_fault NoFault i1)) by (unfold s3; simpl; by rewrite lookup_insert_eq).
    assert (Hm3 : insts (world s3) = <[id := set_fault NoFault i1]> (insts (world s))) by (unfold s3; simpl; by rewrite Hm1, insert_insert_eq).
    change (storePos s1 k) with (storePos s3 k). rewrite (entry_ok _ _ _ _ _ _ _ H3 Hk2). cbn [mbind res_bind]. replace (size e2 =? 0) with false by (symmetry; apply Z.eqb_neq; simpl; lia).
    cbn [is_fault negb c_assert mbind res_bind]. rewrite <- Hsc1. change (isStoreConditional i1) with (isStoreConditional (set_fault NoFault i1)).
    destruct (conditional_ok s3 L (<[k := e2]> E) w C k e2 id (set_fault NoFault i1) H3 Hk2 Hid Hi3 Hc) as (s4 & -> & H4 & Hw4 & Hl4 & Hv4).
    { unfold has. simpl. by rewrite Hdy. }
    { intros Hsc j b Hj Hb. change (isStoreConditional i1 = true) in Hsc. rewrite Hsc1 in Hsc. assert (Hsn : seqNum (set_fault NoFault i1) = seqNum i) by (unfold seqNum; simpl; by rewrite Hdy). rewrite Hsn.
      assert (Hjid : j <> id).
      { intros ->. apply list_elem_of_lookup in Hj as [kk Hkk]. destruct (load_not_store _ _ _ _ _ _ _ _ H Hkk Hi) as [Hns _]. pose proof (t_store _ _ _ _ _ _ _ _ _ _ _ Hst). congruence. }
      apply (Hy Hsc j b Hj). rewrite Hm3, lookup_insert_ne in Hb by done. done. }
    cbn [mbind res_bind]. unfold get. rewrite Hw4, Hi3. cbn [mbind res_bind deref effAddrValid effAddr set_fault]. rewrite Hev. cbn [c_assert mbind res_bind].
    rewrite list_insert_insert_eq in H4.
    pose proof (r_len _ _ _ _ _ (i_lq _ _ _ _ _ H4)) as Hlen. pose proof (r_free _ _ _ _ _ (i_lq _ _ _ _ _ H4)) as Hfr. rewrite length_fmap in Hfr.
    assert (Hpos : lqIdx i = loadPos s4 (older (insts (world s)) L (seqNum i))).
    { rewrite (t_younger _ _ _ _ _ _ _ _ _ _ _ Hst Hc). unfold loadPos. rewrite Hl4. unfold s3, s2, lqs. simpl. by rewrite Hu1. }
    rewrite Hpos. pose proof (older_le (insts (world s)) L (seqNum i)) as Hole.
    destruct (violation_loop_ok s4 L _ w C (effAddr i1) H4 (S (length (loadQueue (lqs s4)))) (older (insts (world s)) L (seqNum i))) as (r & s5 & -> & H5 & Hsp); [lia|lia|].
    cbn [mbind res_bind fst snd]. eexists _, s5, _. split; [reflexivity|]. split; [exact H5|]. right. rewrite Hea in Hsp. split_and!; try done.
    + simpl. rewrite <- Hd, Nat2Z.id, take_app_length. done.
    + exists rq. done.
    + exists s4, (set_fault NoFault i1), r. split_and!; try done; [by rewrite Hw4|unfold seqNum; simpl; by rewrite Hdy|]. rewrite Hv4. unfold s3, s2. simpl. by rewrite Hu1.
  - cbn [mbind res_bind]. cbv beta iota. rewrite (Hsame _ _ Hu1 H1). eexists _, s1, e. split; [reflexivity|]. split; [by rewrite list_insert_id|]. left. done.
Qed.
End Store.
