(* ===== verification/LsqRun.v ===== *)
(** * Runs of the load/store queue

    The calls the rest of the CPU makes on an [LSQUnit] as steps ([Op]), what it
    must respect in each of them ([legal]), and that every sequence of legal calls
    goes through and keeps the invariant. *)
From S2P Require Import Prelude EventQueue IntMath Request Packet Rob LsqUnit LsqInv LsqOps LsqSend LsqWriteback LsqAccess LsqForward LsqExec.
Import LSQUnit.

(** ** What the queues hold *)
Definition ring_list {A} (v : list A) (n h : Z) (c : nat) : list A := omap (fun k => v !! Z.to_nat (pos n h k)) (List.seq 0 c).

(** The loads and the entries of the stores, oldest first, and how many of the
    stores have been sent. *)
Definition loads_of (s : t) : list Z :=
  let q := lqs s in omap id (ring_list (loadQueue q) (LQEntries q) (loadHead q) (Z.to_nat (loads q))).
Definition entries_of (s : t) : list SQEntry :=
  let q := sqs s in ring_list (storeQueue q) (SQEntries q) (storeHead q) (Z.to_nat (stores q)).
Definition sent_of (s : t) : nat := let q := sqs s in Z.to_nat ((storeWBIdx q - storeHead q) mod SQEntries q).

Lemma ring_list_ok {A} (v : list A) n h t' l : ring v n h t' l -> ring_list v n h (length l) = l.
Proof.
  intros [_ _ _ _ _ Hg]. unfold ring_list. assert (Ho : forall k, (forall j x, l !! j = Some x -> v !! Z.to_nat (pos n h (k + j)) = Some x) ->
    omap (fun j => v !! Z.to_nat (pos n h j)) (List.seq k (length l)) = l).
  { clear Hg. induction l as [|x l IH]; intros k Hk; [done|]. simpl. rewrite <- (Nat.add_0_r k) at 1. rewrite (Hk 0%nat x eq_refl). f_equal. apply IH.
    intros j y Hj. rewrite Nat.add_succ_comm. by apply Hk. }
  by apply (Ho 0%nat).
Qed.

Lemma Inv_contents s L E w C : Inv s L E w C -> loads_of s = L /\ entries_of s = E /\ sent_of s = w.
Proof.
  intros H. unfold loads_of, entries_of, sent_of. rewrite (i_loads _ _ _ _ _ H), (i_stores _ _ _ _ _ H), (i_wb _ _ _ _ _ H), !Nat2Z.id. pose proof (i_w _ _ _ _ _ H) as Hw.
  pose proof (ring_list_ok _ _ _ _ _ (i_lq _ _ _ _ _ H)) as Hl. rewrite length_fmap in Hl. rewrite Hl, (ring_list_ok _ _ _ _ _ (i_sq _ _ _ _ _ H)). split_and!; [|done|].
  - clear. induction L as [|x L IH]; [done|]. simpl. f_equal. exact IH.
  - pose proof (i_sq _ _ _ _ _ H) as [_ ? ? Hf _ _]. unfold storePos, pos. rewrite Zminus_mod_idemp_l. replace (storeHead (sqs s) + Z.of_nat w - storeHead (sqs s)) with (Z.of_nat w) by lia.
    rewrite Z.mod_small by lia. lia.
Qed.

(** ** Calls *)
Inductive Op :=
| Insert (id : Z) (i : Inst)                        (* a renamed instruction is dispatched *)
| ExecuteLoad (id : Z) (a : Access) | ExecuteStore (id : Z) (a : Access)
| CommitLoads (n : Z) | CommitStores (n : Z) | Squash (n : Z)
| WritebackStores | RecvRetry | CompleteDataAccess (pkt : Pkt) | ProcessWriteback (id : Z) (pkt : Pkt)
| SetStatus (id : Z) (st : DynInst.Status)          (* another stage marks an instruction *)
| GetMemDepViolator | ClearLoadBlocked | SetLoadBlockedHandled | Tick | SetRetryTid (tid : Z).

(** [recvRetry] is called by [LSQ::recvRetry], which first clears [retryTid]. *)
Definition step (env : Env) (s : t) (op : Op) : res t :=
  match op with
  | Insert id i => insert (with_inst s id i) id
  | ExecuteLoad id a => snd <$> executeLoad env s id a
  | ExecuteStore id a => snd <$> executeStore env s id a
  | CommitLoads n => commitLoads s n
  | CommitStores n => commitStores s n
  | Squash n => squash env s n
  | WritebackStores => writebackStores env s
  | RecvRetry => recvRetry env (set_retryTid s (-1))
  | CompleteDataAccess pkt => completeDataAccess env s pkt
  | ProcessWriteback id pkt => process_writeback s id pkt
  | SetStatus id st => set_status s id st
  | GetMemDepViolator => Ok (getMemDepViolator s).2
  | ClearLoadBlocked => Ok (clearLoadBlocked s)
  | SetLoadBlockedHandled => Ok (setLoadBlockedHandled s)
  | Tick => Ok (tick s)
  | SetRetryTid tid => Ok (set_retryTid s tid)
  end.

Definition run (env : Env) (s : t) (ops : list Op) : res t := foldl (fun r op => s ← r; step env s op) (Ok s) ops.

(** The load [id] may be executed: it has not been, and is not the one stalled. *)
Definition ready_load (s : t) (id : Z) : Prop :=
  id ∈ loads_of s /\ exists i, insts (world s) !! id = Some i /\ has i DynInst.Executed = false /\ has i DynInst.Squashed = false /\ memData i = None /\
    ~ (stalled (stall (unit_ s)) = true /\ stallingLoadIdx (stall (unit_ s)) = lqIdx i).
(** The loads not executed yet are all younger than [n]. *)
Definition loads_done (s : t) (n : Z) : Prop :=
  forall j a, j ∈ loads_of s -> insts (world s) !! j = Some a -> has a DynInst.Executed = false -> n < seqNum a.
(** The store [id] may be executed: it has not been, and if it is conditional all
    older loads have. *)
Definition ready_store (s : t) (id : Z) : Prop :=
  exists e i, e ∈ entries_of s /\ inst e = Some id /\ insts (world s) !! id = Some i /\ canWB e = false /\ size e = 0 /\ has i DynInst.Squashed = false /\
    (isStoreConditional i = true -> loads_done s (seqNum i)).

Definition legal (env : Env) (s : t) (op : Op) : Prop :=
  let m := insts (world s) in
  match op with
  | Insert id i => fresh s id i
  | ExecuteLoad id a => access_ok env false a /\ ready_load s id
  | ExecuteStore id a => access_ok env true a /\ ready_store s id
  | CommitLoads n => loads_done s n /\ forall e, e ∈ entries_of s -> sn m (eid e) <= n -> canWB e = true
  | CommitStores n => loads_done s n /\ forall e a, e ∈ entries_of s -> m !! eid e = Some a -> seqNum a <= n -> has a DynInst.Squashed = false
  | Squash n => forall e, e ∈ entries_of s -> canWB e = true -> sn m (eid e) <= n
  | CompleteDataAccess pkt => cmd pkt <> MemCmd.NetworkNackError /\ exists p, senderState pkt = Some p /\ is_Some (states (world s) !! p) /\ accepted (trace (world s)) p
  | ProcessWriteback id pkt => exists d, EWriteback id pkt d ∈ trace (world s)
  | SetStatus id st => st <> DynInst.Executed /\ exists i, m !! id = Some i /\
      (st = DynInst.Squashed -> (isStore i = true -> memData i = None) /\ forall e, e ∈ entries_of s -> inst e = Some id -> canWB e = false)
  | _ => True
  end.

Fixpoint legal_run (env : Env) (s : t) (ops : list Op) : Prop :=
  match ops with
  | [] => True
  | op :: ops => legal env s op /\ forall s', step env s op = Ok s' -> legal_run env s' ops
  end.

(** Up to where stores have been committed. *)
Definition horizon (C : Z) (ops : list Op) : Z := foldl (fun c op => match op with CommitStores n => Z.max c n | _ => c end) C ops.

(** ** Every legal call goes through *)
Lemma legal_load s L E w C id : Inv s L E w C -> ready_load s id ->
  exists k i, L !! k = Some id /\ insts (world s) !! id = Some i /\ has i DynInst.Executed = false /\ has i DynInst.Squashed = false /\ memData i = None /\
    ~ stalling (stall (unit_ s)) (loadPos s) L id.
Proof.
  intros H (Hin & i & Hi & Hx & Hsq & Hm & Hns). destruct (Inv_contents _ _ _ _ _ H) as (HL & _ & _). rewrite HL in Hin. apply list_elem_of_lookup in Hin as [k Hk].
  exists k, i. split_and!; try done. destruct (load_not_store _ _ _ _ _ _ _ _ H Hk Hi) as (_ & _ & Hidx & _).
  intros (Hst & k' & Hk' & E1). destruct (load_not_store _ _ _ _ _ _ _ _ H Hk' Hi) as (_ & _ & Hidx' & _). apply Hns. split; [done|congruence].
Qed.
Lemma legal_store s L E w C id : Inv s L E w C -> ready_store s id ->
  exists k e i, E !! k = Some e /\ inst e = Some id /\ insts (world s) !! id = Some i /\ canWB e = false /\ size e = 0 /\ has i DynInst.Squashed = false /\
    (isStoreConditional i = true -> forall j b, j ∈ L -> insts (world s) !! j = Some b -> has b DynInst.Executed = false -> seqNum i < seqNum b).
Proof.
  intros H (e & i & Hin & Hrest). destruct (Inv_contents _ _ _ _ _ H) as (HL & HE & _). unfold loads_done in Hrest. rewrite HL in Hrest. rewrite HE in Hin.
  apply list_elem_of_lookup in Hin as [k Hk]. by exists k, e, i.
Qed.

Lemma legal_step_ok env `{!EnvLaws env} s L E w C op : Inv s L E w C -> legal env s op ->
  exists s' L' E' w', step env s op = Ok s' /\ Inv s' L' E' w' (horizon C [op]).
Proof.
  intros H Hlg. destruct (Inv_contents _ _ _ _ _ H) as (HL & HE & Hw). destruct op; simpl in Hlg |- *; unfold loads_done in Hlg; rewrite ?HL, ?HE in Hlg.
  - destruct (lsq_insert_ok s L E w C id i H Hlg) as (s' & -> & H' & _). by eexists _, _, _, _.
  - destruct Hlg as [Ha Hrd]. destruct (legal_load _ _ _ _ _ _ H Hrd) as (k & i & Hk & Hi & Hx & Hsq & Hm & Hst).
    destruct (executeLoad_ok env s L E w C k id i H Hk Hi Hx Hm Hst a Ha Hsq) as (f & s' & s1 & i1 & -> & H' & _). by eexists s', _, _, _.
  - destruct Hlg as [Ha Hrd]. destruct (legal_store _ _ _ _ _ _ H Hrd) as (k & e & i & Hk & Hid & Hi & Hc & Hsz & Hsq & Hy).
    destruct (executeStore_ok env s L E w C k e id i H Hk Hid Hi Hc Hsz Hsq a Ha Hy) as (f & s' & e' & -> & H' & _). by eexists s', _, _, _.
  - destruct Hlg as [Hl Hs]. destruct (commitLoads_ok s L E w C n H) as (s' & -> & H' & _); [|done|by eexists _, _, _, _].
    intros id i Hid Hi Hn. destruct (has i DynInst.Executed) eqn:Ex; [done|]. specialize (Hl id i Hid Hi Ex). lia.
  - destruct Hlg as [Hl Hs]. destruct (commitStores_ok s L E w C n H Hl Hs) as (s' & -> & H' & _). by eexists _, _, _, _.
  - destruct (lsq_squash_ok env s L E w C n H Hlg) as (s' & -> & H' & _). by eexists _, _, _, _.
  - destruct (writebackStores_ok env s L E w C H) as (s' & E' & w' & -> & H' & _). by eexists _, _, _, _.
  - destruct (recvRetry_ok env (set_retryTid s (-1)) L E w C (Inv_retryTid _ _ _ _ _ H _)) as (s' & E' & w' & -> & H'). by eexists _, _, _, _.
  - destruct Hlg as (Hn & p & Hp & [x Hx] & Hac). destruct (completeDataAccess_ok env s L E w C pkt p x H Hp Hx Hac Hn) as (s' & E' & w' & -> & H'). by eexists _, _, _, _.
  - destruct Hlg as [d Hd]. destruct (process_writeback_ok s L E w C id pkt d H Hd) as (s' & -> & H'). by eexists _, _, _, _.
  - destruct Hlg as (Hne & i & Hi & Hsq). destruct (Inv_status s L E w C id i st H Hi) as (s' & -> & H' & _); [done|by intros E1; apply Hsq|by intros E1; apply Hsq|by eexists _, _, _, _].
  - eexists _, L, E, w. split; [done|]. by apply Inv_violator.
  - eexists _, L, E, w. split; [done|]. by apply Inv_blocked.
  - eexists _, L, E, w. split; [done|]. by apply Inv_blocked.
  - eexists _, L, E, w. split; [done|]. by apply Inv_usedPorts.
  - eexists _, L, E, w. split; [done|]. by apply Inv_retryTid.
Qed.

Lemma lsq_run_ok env `{!EnvLaws env} ops : forall s L E w C, Inv s L E w C -> legal_run env s ops ->
  exists s' L' E' w', run env s ops = Ok s' /\ Inv s' L' E' w' (horizon C ops).
Proof.
  induction ops as [|op ops IH]; intros s L E w C H Hl; [by exists s, L, E, w|]. destruct Hl as [Hl Hr].
  destruct (legal_step_ok env s L E w C op H Hl) as (s1 & L1 & E1 & w1 & Hs & H1). destruct (IH s1 L1 E1 w1 _ H1 (Hr s1 Hs)) as (s' & L' & E' & w' & Hrun & H').
  exists s', L', E', w'. split; [|done]. unfold run. simpl. by rewrite Hs.
Qed.

(** ** The first state *)
Definition blank (w : World) : Prop := trace w = [] /\ states w = ∅.

Lemma Inv_init split lo hi isn idx pend w ports nl ns lid C : blank w -> 0 <= nl < 2 ^ 15 -> 0 <= ns < 2 ^ 15 -> (forall id i, insts w !! id = Some i -> memData i = None) ->
  Inv (init split lo hi isn idx pend w ports nl ns lid) [] [] 0 C.
Proof.
  intros [Ht Hs] Hl Hn Hm.
  assert (Hr : forall {A} (x : A) k, 0 <= k < 2 ^ 15 -> ring (replicate (Z.to_nat (u32 (k + 1))) x) (u32 (k + 1)) 0 0 []).
  { intros A x k Hk. rewrite uint_small by lia. split; simpl; rewrite ?length_replicate; try lia; try done. }
  split; simpl; try done; [by apply Hr..|constructor|constructor|].
  rewrite Ht, Hs. split; simpl; try done.
  - intros p [x Hx]. by rewrite lookup_empty in Hx.
  - intros pkt ok p Hin. set_solver.
  - intros id pkt d Hin. set_solver.
  - intros id i Hi _ Hne. by rewrite (Hm id i Hi) in Hne.
  - constructor.
  - intros id Hin. set_solver.
Qed.

(** ** Checking that calls are legal

    [legal] as a boolean function, so that concrete sequences of calls can be
    evaluated, and a system around the unit whose data cache answers at once. *)
#[local] Existing Instance DynInst.status_eq_dec.

Definition alignedb (addr sz : Z) : bool := ((sz =? 1) || (sz =? 2) || (sz =? 4) || (sz =? 8)) && (addr mod sz =? 0).
Definition is_someb {A} (o : option A) : bool := match o with Some _ => true | None => false end.
Definition is_noneb {A} (o : option A) : bool := negb (is_someb o).

Definition access_check (env : Env) (wr : bool) (a : Access) : bool :=
  match a with
  | NoAccess f => wr || is_fault f
  | MemAccess addr sz flags asid pc ctx d rs =>
      (0 <=? addr) && (0 <? sz) && (sz <=? 8) && (addr + sz <? 2 ^ 64) && (negb wr || ((Z.of_nat (length d) =? sz) && alignedb addr sz)) &&
      (negb (EvQ.isSet flags Request.MEM_SWAP_COND) || (wr && is_someb rs)) &&
      (negb (HasUnalignedMemAcc env) || negb (EvQ.isSet flags Request.LLSC) || ((addr + sz - 1) / peerBlockSize env * peerBlockSize env <=? addr))
  end.

(** All instructions, with their keys. *)
Definition all_insts (m : gmap Z Inst) (f : Z -> Inst -> bool) : bool := forallb (fun p => f p.1 p.2) (map_to_list m).
Definition fresh_check (s : t) (id : Z) (i : Inst) : bool :=
  is_noneb (insts (world s) !! id) && is_noneb (memData i) && isMemRef i && eqb (isStore i) (negb (isLoad i)) && negb (has i DynInst.Executed) &&
  all_insts (insts (world s)) (fun _ a => seqNum a <? seqNum i) && negb (if isLoad i then lqFull s else sqFull s).
Definition loads_done_check (s : t) (n : Z) : bool :=
  forallb (fun j => match insts (world s) !! j with Some a => has a DynInst.Executed || (n <? seqNum a) | None => true end) (loads_of s).
Definition ready_load_check (s : t) (id : Z) : bool :=
  existsb (Z.eqb id) (loads_of s) &&
  match insts (world s) !! id with
  | Some i => negb (has i DynInst.Executed) && negb (has i DynInst.Squashed) && is_noneb (memData i) &&
              negb (stalled (stall (unit_ s)) && (stallingLoadIdx (stall (unit_ s)) =? lqIdx i))
  | None => false
  end.
Definition ready_store_check (s : t) (id : Z) : bool :=
  match insts (world s) !! id with
  | Some i => existsb (fun e => bool_decide (inst e = Some id) && negb (canWB e) && (size e =? 0)) (entries_of s) && negb (has i DynInst.Squashed) &&
              (negb (isStoreConditional i) || loads_done_check s (seqNum i))
  | None => false
  end.
Definition accepted_check (h : list Ev) (p : Z) : bool :=
  existsb (fun ev => match ev with ESendTiming pkt true => bool_decide (senderState pkt = Some p) | _ => false end) h.

(** Write-backs are not checked here: their packets have no decidable equality. *)
Definition legal_check (env : Env) (s : t) (op : Op) : bool :=
  let m := insts (world s) in
  match op with
  | Insert id i => fresh_check s id i
  | ExecuteLoad id a => access_check env false a && ready_load_check s id
  | ExecuteStore id a => access_check env true a && ready_store_check s id
  | CommitLoads n => loads_done_check s n && forallb (fun e => negb (sn m (eid e) <=? n) || canWB e) (entries_of s)
  | CommitStores n => loads_done_check s n &&
      forallb (fun e => match m !! eid e with Some a => negb (seqNum a <=? n) || negb (has a DynInst.Squashed) | None => true end) (entries_of s)
  | Squash n => forallb (fun e => negb (canWB e) || (sn m (eid e) <=? n)) (entries_of s)
  | CompleteDataAccess pkt => negb (bool_decide (cmd pkt = MemCmd.NetworkNackError)) &&
      match senderState pkt with Some p => is_someb (states (world s) !! p) && accepted_check (trace (world s)) p | None => false end
  | ProcessWriteback _ _ => false
  | SetStatus id st => negb (bool_decide (st = DynInst.Executed)) && negb (bool_decide (st = DynInst.Squashed)) && is_someb (m !! id)
  | _ => true
  end.

(** The checked calls in turn. *)
Fixpoint run_check (env : Env) (s : t) (ops : list Op) : bool :=
  match ops with
  | [] => true
  | op :: ops => legal_check env s op && match step env s op with Ok s' => run_check env s' ops | Er _ => false end
  end.

(** ** The checks are sound *)
Ltac bools := repeat match goal with
  | H : (_ && _) = true |- _ => apply andb_true_iff in H as [? ?]
  | H : negb _ = true |- _ => apply negb_true_iff in H
  | H : (_ <=? _) = true |- _ => apply Z.leb_le in H
  | H : (_ <? _) = true |- _ => apply Z.ltb_lt in H
  | H : (_ =? _) = true |- _ => apply Z.eqb_eq in H
  | H : bool_decide _ = true |- _ => apply bool_decide_eq_true in H
  | H : bool_decide _ = false |- _ => apply bool_decide_eq_false in H
  | H : is_noneb ?o = true |- _ => unfold is_noneb in H; destruct o eqn:?; [done|clear H]
  | H : is_someb ?o = false |- _ => destruct o eqn:?; [done|clear H]
  | H : is_someb ?o = true |- _ => destruct o eqn:?; [clear H|done]
  end.

Lemma forallb_in {A} (f : A -> bool) l x : forallb f l = true -> x ∈ l -> f x = true.
Proof. intros Hf Hx. rewrite forallb_forall in Hf. apply Hf. by apply list_elem_of_In. Qed.
Lemma all_insts_ok m f id i : all_insts m f = true -> m !! id = Some i -> f id i = true.
Proof. intros Ha Hi. apply (forallb_in (fun p => f p.1 p.2) _ (id, i) Ha). by apply elem_of_map_to_list. Qed.
Lemma alignedb_ok addr sz : alignedb addr sz = true -> aligned addr sz.
Proof.
  unfold alignedb, aligned. rewrite andb_true_iff, !orb_true_iff, !Z.eqb_eq. tauto.
Qed.

Lemma access_check_ok env wr a : access_check env wr a = true -> access_ok env wr a.
Proof.
  destruct a as [f|addr sz flags asid pc ctx d rs]; simpl; [intros [Hw|Hf]%orb_true_iff; [by rewrite Hw|done]|]. intros Hc. bools. split_and!; try lia.
  - intros ->. simpl in *. bools. split; [done|]. by apply alignedb_ok.
  - intros Hs. rewrite Hs in *. simpl in *. bools. by split.
  - intros Hu Hl. rewrite Hu, Hl in *. simpl in *. bools. lia.
Qed.
Lemma fresh_check_ok s id i : fresh_check s id i = true -> fresh s id i.
Proof.
  unfold fresh_check. intros Hc. bools. split; try done.
  - by apply eqb_prop.
  - intros j a Ha. match goal with H : all_insts _ _ = true |- _ => pose proof (all_insts_ok _ _ _ _ H Ha) as Hj end. simpl in Hj. by apply Z.ltb_lt in Hj.
Qed.
Lemma loads_done_check_ok s n : loads_done_check s n = true -> loads_done s n.
Proof. intros Hc j a Hj Ha Hx. pose proof (forallb_in _ _ j Hc Hj) as Hb. simpl in Hb. rewrite Ha, Hx in Hb. simpl in Hb. by apply Z.ltb_lt. Qed.
Lemma ready_load_check_ok s id : ready_load_check s id = true -> ready_load s id.
Proof.
  unfold ready_load_check. intros [Hin Hc]%andb_true_iff. split.
  - apply existsb_exists in Hin as (x & Hx & ->%Z.eqb_eq). by apply list_elem_of_In.
  - destruct (insts (world s) !! id) as [i|] eqn:Hi; [|done]. bools. exists i. split_and!; try done. intros [Hst Hix]. rewrite Hst, Hix, Z.eqb_refl in *. done.
Qed.
Lemma ready_store_check_ok s id : ready_store_check s id = true -> ready_store s id.
Proof.
  unfold ready_store_check, ready_store. destruct (insts (world s) !! id) as [i|] eqn:Hi; [|done]. intros Hc. bools.
  match goal with H : existsb _ _ = true |- _ => apply existsb_exists in H as (e & He%list_elem_of_In & Hp) end. bools. exists e, i. split_and!; try done.
  intros Hsc. rewrite Hsc in *. simpl in *. by apply loads_done_check_ok.
Qed.
Lemma accepted_check_ok h p : accepted_check h p = true -> accepted h p.
Proof.
  intros (ev & Hev%list_elem_of_In & Hc)%existsb_exists. destruct ev as [| | | | | | | |pkt [] | | |]; try done. apply bool_decide_eq_true in Hc. by exists pkt.
Qed.

Lemma legal_check_ok env s op : legal_check env s op = true -> legal env s op.
Proof.
  destruct op; simpl; intros Hc; try done.
  - by apply fresh_check_ok.
  - bools. split; [by apply access_check_ok|by apply ready_load_check_ok].
  - bools. split; [by apply access_check_ok|by apply ready_store_check_ok].
  - bools. split; [by apply loads_done_check_ok|]. intros e He Hn. match goal with H : forallb _ _ = true |- _ => pose proof (forallb_in _ _ e H He) as Hb end. simpl in Hb.
    rewrite (proj2 (Z.leb_le _ _) Hn) in Hb. done.
  - bools. split; [by apply loads_done_check_ok|]. intros e a He Ha Hn. match goal with H : forallb _ _ = true |- _ => pose proof (forallb_in _ _ e H He) as Hb end. simpl in Hb.
    rewrite Ha, (proj2 (Z.leb_le _ _) Hn) in Hb. by apply negb_true_iff in Hb.
  - intros e He Hw. pose proof (forallb_in _ _ e Hc He) as Hb. simpl in Hb. rewrite Hw in Hb. simpl in Hb. by bools.
  - bools. split; [done|]. destruct (senderState pkt) as [p|]; [|done]. bools. exists p. split_and!; [done|by eexists|by apply accepted_check_ok].
  - bools. split; [done|]. eexists. split; [done|]. by intros ->.
Qed.

Lemma run_check_ok env ops : forall s, run_check env s ops = true -> legal_run env s ops.
Proof.
  induction ops as [|op ops IH]; intros s Hc; [done|]. cbn [run_check] in Hc. apply andb_true_iff in Hc as [Hl Hr]. split; [by apply legal_check_ok|].
  intros s' Hs. rewrite Hs in Hr. by apply IH.
Qed.

(** ** A system around the unit *)

(** The TLB maps every address to itself and the cache takes every packet. *)
Definition identity (rq : Request.t) : Request.t :=
  Request.mk (Request._vaddr rq) (Request._size rq) (Request._flags rq) (Z.lor (Request.privateFlags rq) Request.VALID_PADDR) (Request._time rq)
    (Request._asid rq) (Request._vaddr rq) (Request._extraData rq) (Request._contextId rq) (Request._threadId rq) (Request._pc rq).
Definition plain : Env := mkEnv false 64 (fun _ _ => true) (fun _ _ rq => (NoFault, identity rq)) (fun _ _ _ => true).

#[export] Instance plain_laws : EnvLaws plain.
Proof.
  split; simpl; try done.
  - intros _ _ rq [Hv Hs]. split; simpl; [change (Z.lor _ _) with (EvQ.set (Request.privateFlags rq) Request.VALID_PADDR); rewrite Request.isSet_set_bits, Hv
                                        |change (Z.lor _ _) with (EvQ.set (Request.privateFlags rq) Request.VALID_PADDR); rewrite Request.isSet_set_bits, Hs]; done.
  - intros _ _ rq _. unfold Request.hasPaddr. simpl. change (Z.lor _ _) with (EvQ.set (Request.privateFlags rq) Request.VALID_PADDR). rewrite Request.isSet_set_bits. apply orb_true_r.
  - exists 6. done.
Qed.
