(* ===== verification/LsqTheorems.v ===== *)
(** * What the load/store queue promises

    In every state that legal calls reach: loads see the older stores in program
    order, stores reach the cache in program order and only once they are
    committed, a store finds the younger loads that went ahead of it, and a squash
    takes exactly the younger instructions. *)
From S2P Require Import Prelude EventQueue IntMath Request Packet Rob LsqUnit LsqInv LsqOps LsqSend LsqWriteback LsqAccess LsqForward LsqExec LsqRun.
Import LSQUnit.

(** ** Reachable states *)

(** A unit with room for [nl] loads and [ns] stores, when the CPU is built. *)
Definition start (cache_ports nl ns lid : Z) : t := init false None None 0 0 None (mkWorld ∅ ∅ 0 (-1) []) cache_ports nl ns lid.
Definition sizes (nl ns : Z) : Prop := 0 <= nl < 2 ^ 15 /\ 0 <= ns < 2 ^ 15.
Definition reachable (env : Env) (s : t) : Prop :=
  exists cache_ports nl ns lid ops, sizes nl ns /\ legal_run env (start cache_ports nl ns lid) ops /\ run env (start cache_ports nl ns lid) ops = Ok s.

Lemma start_ok cache_ports nl ns lid : sizes nl ns -> Inv (start cache_ports nl ns lid) [] [] 0 0.
Proof. intros [? ?]. by apply Inv_init. Qed.

Lemma lsq_reachable_ok env `{!EnvLaws env} s : reachable env s -> exists C, Inv s (loads_of s) (entries_of s) (sent_of s) C.
Proof.
  intros (cp & nl & ns & lid & ops & Hsz & Hl & Hr). destruct (lsq_run_ok env ops _ _ _ _ 0 (start_ok cp nl ns lid Hsz) Hl) as (s' & L & E & w & Hr' & H).
  assert (s' = s) as -> by congruence. destruct (Inv_contents _ _ _ _ _ H) as (-> & -> & ->). by eexists.
Qed.

(** ** The memory that a load should see *)


















(** ** Runs *)

(** The counters and the queues agree, the queues are in program order, and every
    instruction in them knows its index. *)
Record consistent (s : t) : Prop := mkConsistent {
  y_loads : numLoads s = Z.of_nat (length (loads_of s));
  y_stores : numStores s = Z.of_nat (length (entries_of s));
  y_toWB : numStoresToWB s = numWaiting (entries_of s);
  y_lorder : StronglySorted Z.lt (sn (insts (world s)) <$> loads_of s);
  y_sorder : StronglySorted Z.lt (sn (insts (world s)) ∘ eid <$> entries_of s);
  y_lidx : forall id, id ∈ loads_of s -> exists i, insts (world s) !! id = Some i /\ isLoad i = true /\ load_at s (lqIdx i) = Ok id;
  y_sidx : forall e, e ∈ entries_of s -> exists id i, inst e = Some id /\ insts (world s) !! id = Some i /\ isStore i = true /\ entry s (sqIdx i) = Ok e
}.

Lemma Inv_consistent s L E w C : Inv s L E w C -> consistent s.
Proof.
  intros H. destruct (Inv_contents _ _ _ _ _ H) as (HL & HE & _). split; rewrite ?HL, ?HE; try apply H.
  - intros id [k Hk]%list_elem_of_lookup. destruct (i_load _ _ _ _ _ H k id Hk) as [i []]. exists i. split_and!; try done. unfold load_at. rewrite l_idx. unfold loadPos.
    rewrite (ring_vget _ _ _ _ _ k (Some id) (i_lq _ _ _ _ _ H)) by (by rewrite list_lookup_fmap, Hk). done.
  - intros e [k Hk]%list_elem_of_lookup. destruct (i_store _ _ _ _ _ H k e Hk) as (id & i & []). exists id, i. split_and!; try done. rewrite t_idx. by eapply entry_ok.
Qed.

(** C12. No sequence of legal calls fails an assertion, panics, reads outside a queue or
    loops for ever, and each leaves the queues consistent. *)
Theorem lsq_runs env `{!EnvLaws env} cache_ports nl ns lid ops : sizes nl ns -> legal_run env (start cache_ports nl ns lid) ops ->
  exists s, run env (start cache_ports nl ns lid) ops = Ok s /\ consistent s.
Proof.
  intros Hsz Hl. destruct (lsq_run_ok env ops _ _ _ _ 0 (start_ok cache_ports nl ns lid Hsz) Hl) as (s & L & E & w & Hr & H). exists s. split; [done|]. by eapply Inv_consistent.
Qed.

(** C11. The cache takes the stores in program order, each at most once, and none that
    is neither committed nor a store conditional. *)
Theorem stores_reach_cache_in_order env `{!EnvLaws env} cache_ports nl ns lid ops s : sizes nl ns -> legal_run env (start cache_ports nl ns lid) ops ->
  run env (start cache_ports nl ns lid) ops = Ok s ->
  StronglySorted Z.lt (sn (insts (world s)) <$> sent (trace (world s))) /\
  forall id, id ∈ sent (trace (world s)) -> exists i, insts (world s) !! id = Some i /\ (seqNum i <= horizon 0 ops \/ isStoreConditional i = true).
Proof.
  intros Hsz Hl Hr. destruct (lsq_run_ok env ops _ _ _ _ 0 (start_ok cache_ports nl ns lid Hsz) Hl) as (s' & L & E & w & Hr' & H). assert (s' = s) as -> by congruence.
  destruct (i_flight _ _ _ _ _ H). split; [done|]. intros id Hid. by destruct (f_sent id Hid).
Qed.

(** ** Loads that went ahead *)

(** An aligned load that overlaps an aligned store is in the same 256 bytes. *)
Lemma overlap_hits addr sz b n : aligned addr sz -> aligned (effAddr b) n -> effAddrValid b = true -> effAddr b < addr + sz -> addr < effAddr b + n -> hits addr b = true.
Proof.
  intros [Hs Ha] [Hn Hb] Hv H1 H2. unfold hits. rewrite Hv. simpl. apply Z.eqb_eq. rewrite !Z.shiftr_div_pow2 by lia. change (2 ^ 8) with 256.
  assert (Hda : forall x y, (y = 1 \/ y = 2 \/ y = 4 \/ y = 8) -> x mod y = 0 -> exists q, x = 8 * (x / 8) + y * q /\ 0 <= y * q <= 8 - y).
  { clear. intros x y Hy Hx. pose proof (Z.div_mod x 8 ltac:(lia)). pose proof (Z.mod_pos_bound x 8 ltac:(lia)). exists ((x mod 8) / y).
    assert (Hm : (x mod 8) mod y = 0) by (rewrite Z.mod_mod_divide; [done|]; destruct Hy as [->|[->|[->| ->]]]; [exists 8|exists 4|exists 2|exists 1]; lia).
    pose proof (Z.div_mod (x mod 8) y ltac:(lia)). destruct Hy as [->|[->|[->| ->]]]; lia. }
  destruct (Hda _ _ Hs Ha) as (p & Hp & Hp'), (Hda _ _ Hn Hb) as (q & Hq & Hq'). assert (E : effAddr b / 8 = addr / 8) by lia.
  replace 256 with (8 * 32) by lia. rewrite <- !Z.div_div by lia. by rewrite E.
Qed.

(** What [executeStore] finds. *)
Definition finds (s s' : t) (n addr sz : Z) : Prop :=
  let m := insts (world s) in
  (forall j b l, j ∈ loads_of s -> m !! j = Some b -> n < seqNum b -> effAddrValid b = true -> aligned (effAddr b) l -> effAddr b < addr + sz -> addr < effAddr b + l ->
     exists v, memDepViolator (unit_ s') = Some v /\ sn m v <= seqNum b) /\
  (forall v, memDepViolator (unit_ s') = Some v -> memDepViolator (unit_ s) = Some v \/
     (v ∈ loads_of s /\ n <= sn m v /\ exists b, m !! v = Some b /\ hits addr b = true)).

Lemma violation_finds s L E w C id i i1 s1 s' e addr sz r : Inv s L E w C -> e ∈ E -> inst e = Some id -> insts (world s) !! id = Some i -> seqNum i1 = seqNum i ->
  insts (world s1) = <[id := i1]> (insts (world s)) -> memDepViolator (unit_ s1) = memDepViolator (unit_ s) -> aligned addr sz ->
  violation_spec s1 L addr (older (insts (world s)) L (seqNum i)) r s' -> finds s s' (seqNum i) addr sz.
Proof.
  intros H He Hie Hi Hs1 Hm1 Hv1 Hal Hsp. destruct (Inv_contents _ _ _ _ _ H) as (HL & _ & _). unfold finds. rewrite HL. set (m := insts (world s)) in *. set (j0 := older m L (seqNum i)) in *.
  assert (Hsn : forall x, sn (insts (world s1)) x = sn m x) by (intros x; rewrite Hm1; by eapply sn_insert).
  assert (Hlk : forall k x, L !! k = Some x -> insts (world s1) !! x = m !! x).
  { intros k x Hk. rewrite Hm1. apply lookup_insert_ne. intros <-. destruct (load_not_store _ _ _ _ _ _ _ _ H Hk Hi) as (_ & _ & _ & Hne). by apply (Hne e). }
  assert (Hidx : forall k x, L !! k = Some x -> (k < j0)%nat <-> sn m x < seqNum i) by (intros k x Hk; eapply older_lookup; [by apply H|done]).
  assert (Hord : forall k k' x x', (k <= k')%nat -> L !! k = Some x -> L !! k' = Some x' -> sn m x <= sn m x').
  { intros k k' x x' Hk Hx Hx'. destruct (decide (k = k')) as [->|Hne]; [replace x' with x by congruence; lia|]. apply Z.lt_le_incl.
    eapply (strongly_sorted_lookup _ _ k k' _ _ (i_lsorted _ _ _ _ _ H)); [lia|by rewrite list_lookup_fmap, Hx|by rewrite list_lookup_fmap, Hx']. }
  split.
  - intros x b l [k Hk]%list_elem_of_lookup Hb Hn Hva Hl H1 H2. pose proof (overlap_hits addr sz b l Hal Hl Hva H1 H2) as Hh.
    pose proof (sn_get _ _ _ Hb) as Hsb. assert (Hjk : (j0 <= k)%nat) by (apply Nat.le_ngt; rewrite (Hidx k x Hk); lia).
    destruct Hsp as [(_ & _ & Hno)|(k0 & id0 & a & (Hk0 & Hid0 & Ha & Hha & Hfirst) & Hr)].
    { rewrite (Hno k x b Hjk Hk) in Hh; [done|]. by rewrite (Hlk k x Hk). }
    assert (Hle : (k0 <= k)%nat).
    { apply Nat.le_ngt. intros Hlt. rewrite (Hfirst k x b) in Hh; [done|lia|done|]. by rewrite (Hlk k x Hk). }
    pose proof (Hord k0 k id0 x Hle Hid0 Hk) as Hs0. rewrite (Hlk _ _ Hid0) in Ha. rewrite (sn_get _ _ _ Ha) in Hs0.
    destruct Hr as [(_ & _ & ->)|(Hnb & _ & ->)]; [exists id0; split; [done|]; rewrite (sn_get _ _ _ Ha); lia|].
    rewrite Hv1. unfold beats in Hnb. rewrite Hv1 in Hnb. destruct (memDepViolator (unit_ s)) as [v|]; [|exfalso; by apply Hnb].
    exists v. split; [done|]. destruct (Z.lt_ge_cases (seqNum a) (sn m v)) as [Hlt|Hge]; [|lia]. exfalso. apply Hnb. intros y [= <-]. by rewrite Hsn.
  - intros v Hv. destruct Hsp as [(_ & -> & _)|(k0 & id0 & a & (Hk0 & Hid0 & Ha & Hha & Hfirst) & [(_ & _ & ->)|(_ & _ & ->)])]; [left; congruence| |left; congruence].
    simpl in Hv. injection Hv as <-. right. split; [by eapply list_elem_of_lookup_2|]. rewrite (Hlk _ _ Hid0) in Ha. split; [|by exists a].
    assert (Hge : ~ sn m id0 < seqNum i) by (rewrite <- (Hidx k0 id0 Hid0); lia). lia.
Qed.

(** C18. A store that executes in a reachable state, and does not fault, leaves as the
    violator a load no younger than any younger load that has read bytes it writes
    (the accesses being aligned); a new violator is a load after it in the same 256
    bytes. *)
Theorem store_finds_loads_ahead env `{!EnvLaws env} s id i addr sz flags asid pc ctx d rs :
  reachable env s -> legal env s (ExecuteStore id (MemAccess addr sz flags asid pc ctx d rs)) -> insts (world s) !! id = Some i ->
  exists f s', executeStore env s id (MemAccess addr sz flags asid pc ctx d rs) = Ok (f, s') /\
    ((is_fault f = true /\ unit_ s' = unit_ s) \/ finds s s' (seqNum i) addr sz).
Proof.
  intros Hre [Ha Hrd] Hi. destruct (lsq_reachable_ok env s Hre) as [C H].
  destruct (legal_store _ _ _ _ _ _ H Hrd) as (k & e & i' & Hk & Hid & Hi' & Hc & Hsz & Hsq & Hy). assert (i' = i) as -> by congruence.
  destruct (executeStore_ok env s _ _ _ C k e id i H Hk Hid Hi Hc Hsz Hsq _ Ha Hy) as (f & s' & e' & -> & _ & Hout). exists f, s'. split; [done|].
  destruct Hout as [(Hf & _ & Hu)|(_ & _ & _ & _ & _ & s1 & i1 & r & Hm1 & _ & _ & Hs1 & Hv1 & Hsp & _)]; [by left|right].
  destruct Ha as (_ & _ & _ & Hal & _). eapply violation_finds; try done; [by eapply list_elem_of_lookup_2|by apply Hal].
Qed.

(** ** Squashing *)

(** A squash takes out of the queues exactly the instructions younger than [n],
    keeps the rest in order, and forgets a younger violator or blocked load; nothing
    is sent to the cache and no store that was sent is lost. *)
Theorem squash_keeps_older env `{!EnvLaws env} s n : reachable env s -> legal env s (Squash n) ->
  exists s', squash env s n = Ok s' /\ loads_of s' = filter (fun id => sn (insts (world s)) id <= n) (loads_of s) /\
    entries_of s' = filter (fun e => sn (insts (world s)) (eid e) <= n) (entries_of s) /\ sent_of s' = sent_of s /\
    trace (world s') = trace (world s) /\ no_younger s' n /\ consistent s'.
Proof.
  intros Hre Hl. destruct (lsq_reachable_ok env s Hre) as [C H]. destruct (lsq_squash_ok env s _ _ _ C n H Hl) as (s' & -> & H' & _ & Htr & Hny). exists s'.
  destruct (Inv_contents _ _ _ _ _ H') as (-> & -> & ->). split_and!; try done. by eapply Inv_consistent.
Qed.

(** ** Writing back *)

(** With a port for each store, one call of [writebackStores] goes on until the
    cache refuses a packet or the next store in program order is not committed: no
    store that may be sent is left behind. *)
Theorem writebackStores_drains env `{!EnvLaws env} s : reachable env s ->
  usedPorts (ports (unit_ s)) + Z.of_nat (length (entries_of s)) <= cachePorts (ports (unit_ s)) ->
  exists s', writebackStores env s = Ok s' /\
    (isStoreBlocked (blocked (unit_ s')) = true \/ cacheBlocked s' = true \/ match entries_of s' !! sent_of s' with Some e => canWB e = false | None => True end).
Proof.
  intros Hre Hp. destruct (lsq_reachable_ok env s Hre) as [C H]. destruct (writebackStores_ok env s _ _ _ C H) as (s' & E' & w' & -> & H' & [_ Hst]). exists s'. split; [done|].
  destruct (Inv_contents _ _ _ _ _ H') as (_ & -> & ->). apply Hst. lia.
Qed.

(** ** [numLoadsReady] *)

(** The loop of [numLoadsReady] never moves on: it ends only on an empty queue. *)
Lemma numLoadsReady_loops env `{!EnvLaws env} s : reachable env s -> loads_of s <> [] -> forall fuel, numLoadsReady fuel s = Er OutOfFuel.
Proof.
  intros Hre Hne. destruct (lsq_reachable_ok env s Hre) as [C H]. destruct (loads_of s) as [|id L] eqn:EL; [done|].
  assert (H0 : loadPos s 0 = loadHead (lqs s)) by (apply pos_0; eapply r_head; by apply H). unfold numLoadsReady. rewrite <- H0.
  assert (Hloop : forall fuel n, ready_loop fuel s (loadPos s 0) n = Er OutOfFuel); [|by intros fuel].
  induction fuel as [|fuel IH]; intros n; [done|]. cbn [ready_loop]. unfold loadPos at 1. rewrite (ring_tail_eq _ _ _ _ _ 0 (i_lq _ _ _ _ _ H)) by (simpl; lia). simpl bool_decide.
  assert (Hg : vget (loadQueue (lqs s)) (loadPos s 0) = Ok (Some id)) by (eapply ring_vget; [by apply H|done]). rewrite Hg. cbn [mbind res_bind assert_ptr]. destruct (i_load _ _ _ _ _ H 0 id ltac:(done)) as [a [Ha _ _ _ _]].
  unfold get. rewrite Ha. cbn [mbind res_bind deref]. apply IH.
Qed.

(** ** Examples *)
Definition mem_inst (n : Z) (load cond : bool) : Inst :=
  mkInst (DynInst.mk n 0 0) true load (negb load) cond false NoFault false false 0 false 0 0 (-1) (-1) None.
Definition rd (addr sz : Z) : Access := MemAccess addr sz 0 0 0 0 [] None.
Definition wr (addr : Z) (d : list Z) : Access := MemAccess addr (Z.of_nat (length d)) 0 0 0 0 d None.
Definition final (env : Env) (s : t) (ops : list Op) : t := match run env s ops with Ok s' => s' | Er _ => s end.
Definition unit0 : t := start 4 8 8 0.

(** Two stores, of 8 bytes and of 2 bytes inside them, and two younger loads. *)
Definition ops1 : list Op :=
  [Insert 1 (mem_inst 1 false false); Insert 2 (mem_inst 2 false false); Insert 3 (mem_inst 3 true false); Insert 4 (mem_inst 4 true false);
   ExecuteStore 1 (wr 4096 [1; 2; 3; 4; 5; 6; 7; 8]); ExecuteStore 2 (wr 4100 [9; 10])].
Definition lsq1 : t := Eval vm_compute in final plain unit0 ops1.

Lemma ops1_legal : run_check plain unit0 ops1 = true.
Proof. vm_compute. reflexivity. Qed.
Lemma ops1_run : run plain unit0 ops1 = Ok lsq1.
Proof. vm_compute. reflexivity. Qed.
Lemma sizes0 : sizes 8 8.
Proof. split; lia. Qed.
Lemma reachable1 : reachable plain lsq1.
Proof. exists 4, 8, 8, 0, ops1. split; [exact sizes0|]. split; [apply run_check_ok, ops1_legal|exact ops1_run]. Qed.


(** It gets them from the store queue; a load of 8 bytes that the two stores share
    waits; one elsewhere goes to memory. *)
Definition value (r : res (Fault * t)) (id : Z) : option (option (list Z) * bool) :=
  match r with Ok (_, s) => i ← insts (world s) !! id; Some (memData i, stalled (stall (unit_ s))) | Er _ => None end.
Example load3_forwarded : value (executeLoad plain lsq1 3 (rd 4100 2)) 3 = Some (Some [9; 10], false).
Proof. vm_compute. reflexivity. Qed.
Example load3_first_store : value (executeLoad plain lsq1 3 (rd 4102 2)) 3 = Some (Some [7; 8], false).
Proof. vm_compute. reflexivity. Qed.
Example load3_stalls : value (executeLoad plain lsq1 3 (rd 4096 8)) 3 = Some (None, true).
Proof. vm_compute. reflexivity. Qed.
Example load3_memory : value (executeLoad plain lsq1 3 (rd 4104 8)) 3 = Some (Some [], false).
Proof. vm_compute. reflexivity. Qed.

(** A run to the end: the load is executed and committed, the stores are committed
    and written back. *)
Definition ops2 : list Op :=
  ops1 ++ [ExecuteLoad 3 (rd 4100 2); SetStatus 3 DynInst.CanCommit; CommitStores 2; WritebackStores; Squash 3; Insert 5 (mem_inst 5 false false)].
Definition lsq2 : t := Eval vm_compute in final plain unit0 ops2.
Lemma ops2_legal : run_check plain unit0 ops2 = true.
Proof. vm_compute. reflexivity. Qed.
Lemma ops2_run : run plain unit0 ops2 = Ok lsq2.
Proof. vm_compute. reflexivity. Qed.
Example ops2_sent : sent (trace (world lsq2)) = [1; 2] /\ loads_of lsq2 = [3] /\ (eid <$> entries_of lsq2) = [1; 2; 5] /\ sent_of lsq2 = 2%nat.
Proof. vm_compute. done. Qed.

Lemma lsq_runs_witness : exists s, run plain (start 4 8 8 0) ops2 = Ok s /\ consistent s.
Proof. exact (lsq_runs plain 4 8 8 0 ops2 sizes0 (run_check_ok plain ops2 unit0 ops2_legal)). Defined.
Lemma stores_reach_cache_in_order_witness : StronglySorted Z.lt (sn (insts (world lsq2)) <$> sent (trace (world lsq2))) /\
  forall id, id ∈ sent (trace (world lsq2)) -> exists i, insts (world lsq2) !! id = Some i /\ (seqNum i <= horizon 0 ops2 \/ isStoreConditional i = true).
Proof. exact (stores_reach_cache_in_order plain 4 8 8 0 ops2 lsq2 sizes0 (run_check_ok plain ops2 unit0 ops2_legal) ops2_run). Defined.

(** A load goes ahead of an older store to the same address. *)
Definition ops3 : list Op := [Insert 1 (mem_inst 1 false false); Insert 2 (mem_inst 2 true false); ExecuteLoad 2 (rd 4096 8)].
Definition lsq3 : t := Eval vm_compute in final plain unit0 ops3.
Definition store1 : Inst := Eval vm_compute in default (mem_inst 0 false false) (insts (world lsq3) !! 1).
Lemma ops3_legal : run_check plain unit0 ops3 = true.
Proof. vm_compute. reflexivity. Qed.
Lemma ops3_run : run plain unit0 ops3 = Ok lsq3.
Proof. vm_compute. reflexivity. Qed.
Lemma reachable3 : reachable plain lsq3.
Proof. exists 4, 8, 8, 0, ops3. split; [exact sizes0|]. split; [apply run_check_ok, ops3_legal|exact ops3_run]. Qed.
Lemma wr1_legal : legal plain lsq3 (ExecuteStore 1 (wr 4098 [7; 8])).
Proof. apply legal_check_ok. vm_compute. reflexivity. Qed.
Lemma store1_get : insts (world lsq3) !! 1 = Some store1.
Proof. vm_compute. reflexivity. Qed.

Lemma store_finds_loads_ahead_witness : exists f s', executeStore plain lsq3 1 (wr 4098 [7; 8]) = Ok (f, s') /\
  ((is_fault f = true /\ unit_ s' = unit_ lsq3) \/ finds lsq3 s' 1 4098 2).
Proof. exact (store_finds_loads_ahead plain lsq3 1 store1 4098 2 0 0 0 0 [7; 8] None reachable3 wr1_legal store1_get). Defined.
Definition violator (r : res (Fault * t)) : option (Fault * option Z) := match r with Ok (f, s) => Some (f, memDepViolator (unit_ s)) | Er _ => None end.
Example store1_violation : violator (executeStore plain lsq3 1 (wr 4098 [7; 8])) = Some (MachineCheckFault, Some 2).
Proof. vm_compute. reflexivity. Qed.

Lemma squash2_legal : legal plain lsq1 (Squash 2).
Proof. apply legal_check_ok. vm_compute. reflexivity. Qed.
Lemma squash_keeps_older_witness : exists s', squash plain lsq1 2 = Ok s' /\ loads_of s' = filter (fun id => sn (insts (world lsq1)) id <= 2) (loads_of lsq1) /\
  entries_of s' = filter (fun e => sn (insts (world lsq1)) (eid e) <= 2) (entries_of lsq1) /\ sent_of s' = sent_of lsq1 /\
  trace (world s') = trace (world lsq1) /\ no_younger s' 2 /\ consistent s'.
Proof. exact (squash_keeps_older plain lsq1 2 reachable1 squash2_legal). Defined.

Lemma writebackStores_drains_witness : exists s', writebackStores plain lsq1 = Ok s' /\
  (isStoreBlocked (blocked (unit_ s')) = true \/ cacheBlocked s' = true \/ match entries_of s' !! sent_of s' with Some e => canWB e = false | None => True end).
Proof. apply (writebackStores_drains plain lsq1 reachable1). vm_compute. discriminate. Defined.

(** ** Accesses that are not aligned *)

(** An ISA with such accesses, and cache blocks of 64 bytes. *)
Definition unaligned : Env := mkEnv true 64 (fun _ _ => true) (fun _ _ rq => (NoFault, identity rq)) (fun _ _ _ => true).

(** The offset into the data of the store is taken from the low bits of the address
    of the load, not from the difference of the addresses: the load of the very
    bytes of an unaligned store gets others. *)
Definition ops4 : list Op := [Insert 1 (mem_inst 1 false false); Insert 2 (mem_inst 2 true false); ExecuteStore 1 (wr 4097 [1; 2; 3; 4])].
Theorem unaligned_forwarding_wrong : value (executeLoad unaligned (final unaligned unit0 ops4) 2 (rd 4097 4)) 2 = Some (Some [2; 3; 4; 0], false).
Proof. vm_compute. reflexivity. Qed.

(** A load that crosses a boundary of 256 bytes and went ahead of a store to its
    last bytes is not found. *)
Definition ops5 : list Op := [Insert 1 (mem_inst 1 false false); Insert 2 (mem_inst 2 true false); ExecuteLoad 2 (rd 4348 8)].
Theorem violation_missed_across_blocks : violator (executeStore unaligned (final unaligned unit0 ops5) 1 (wr 4352 [1; 2; 3; 4])) = Some (NoFault, None).
Proof. vm_compute. reflexivity. Qed.

(** A store across two cache blocks keeps the requests of its parts, but is not
    marked as split: it goes to the cache in one packet of 8 bytes. *)
Definition ops6 : list Op := [Insert 1 (mem_inst 1 false false); ExecuteStore 1 (wr 4156 [1; 2; 3; 4; 5; 6; 7; 8])].
Definition packet_sizes (h : list Ev) : list Z := omap (fun ev => match ev with ESendTiming pkt true => Some (Request._size (preq pkt)) | _ => None end) h.
Theorem split_store_sent_whole :
  (fun e => (is_someb (sreqLow e), is_someb (sreqHigh e), isSplit e)) <$> entries_of (final unaligned unit0 ops6) = [(true, true, false)] /\
  packet_sizes (trace (world (final unaligned unit0 (ops6 ++ [CommitStores 1; WritebackStores])))) = [8].
Proof. vm_compute. done. Qed.
