(* ===== verification/Lsq.v ===== *)
(** * The load/store queues of the threads

    [src/cpu/o3/lsq.hh] and [lsq_impl.hh] (Module [LSQ]): a unit for each thread,
    the policy by which they share the entries, and the port to the data cache.
    [activeThreads], a list of the CPU, is part of the state.  After the module:
    that the queues of every thread keep their shape whatever the threads, the other stages
    and the cache do in whatever order; that the test the dispatch stage makes, [isFull(tid)], leaves room for the
    instruction unless threads share their entries dynamically, that calls on a
    thread leave the others alone, and what goes wrong under the dynamic policy and
    when queues are resized. *)
From S2P Require Import Prelude EventQueue IntMath Request Packet Rob LsqUnit LsqInv LsqOps LsqSend LsqWriteback LsqAccess LsqForward LsqExec LsqRun LsqTheorems.

Module LSQ.

Inductive LSQPolicy := Dynamic | Partitioned | Threshold.
#[export] Instance policy_eq_dec : EqDecision LSQPolicy.
Proof. solve_decision. Defined.

Record t := mk {
  lsqPolicy : LSQPolicy;
  thread : list LSQUnit.Unit_;
  activeThreads : list Z;
  LQEntries : Z;
  SQEntries : Z;
  maxLQEntries : Z;
  maxSQEntries : Z;
  numThreads : Z;
  snoopRangeSent : bool;
  world : LSQUnit.World
}.

Definition set_thread (s : t) (l : list LSQUnit.Unit_) (w : LSQUnit.World) : t :=
  mk (lsqPolicy s) l (activeThreads s) (LQEntries s) (SQEntries s) (maxLQEntries s) (maxSQEntries s) (numThreads s) (snoopRangeSent s) w.
Definition set_world (s : t) (w : LSQUnit.World) : t := set_thread s (thread s) w.

(** [thread[tid]] with the objects the units share. *)
Definition unit_at (s : t) (tid : Z) : res LSQUnit.t := u ← vget (thread s) tid; Ok (LSQUnit.mk u (world s)).
(** [thread[tid].f()]: what it returns and the state after. *)
Definition call {A} (s : t) (tid : Z) (f : LSQUnit.t -> res (A * LSQUnit.t)) : res (A * t) :=
  u ← unit_at s tid;
  r ← f u;
  l ← vset (thread s) tid (LSQUnit.unit_ r.2);
  Ok (r.1, set_thread s l (LSQUnit.world r.2)).
Definition call_ (s : t) (tid : Z) (f : LSQUnit.t -> res LSQUnit.t) : res t := snd <$> call s tid (fun u => u ← f u; Ok ((), u)).
Definition ask {A} (s : t) (tid : Z) (f : LSQUnit.t -> res A) : res A := u ← unit_at s tid; f u.

(** The loops over [l]: for each thread, until one of them says so, and the sum. *)
Fixpoint for_threads (f : t -> Z -> res t) (s : t) (l : list Z) : res t :=
  match l with [] => Ok s | tid :: l => s ← f s tid; for_threads f s l end.
Fixpoint any_thread (f : Z -> res bool) (l : list Z) : res bool :=
  match l with [] => Ok false | tid :: l => b ← f tid; if (b : bool) then Ok true else any_thread f l end.
Fixpoint all_threads (f : Z -> res bool) (l : list Z) : res bool :=
  match l with [] => Ok true | tid :: l => b ← f tid; if (b : bool) then all_threads f l else Ok false end.
Fixpoint sum_threads (f : Z -> res Z) (total : Z) (l : list Z) : res Z :=
  match l with [] => Ok total | tid :: l => n ← f tid; sum_threads f (u32 (total + n)) l end.
(** [for (tid = 0; tid < numThreads; tid++)]. *)
Definition all_tids (s : t) : list Z := Z.of_nat <$> List.seq 0 (Z.to_nat (numThreads s)).

(** ** Construction *)

(** The parameter [smtLSQPolicy], in any case; [None] for another string. *)
Definition parse_policy (policy : string) : option LSQPolicy :=
  let p := ROB.lower policy in
  if bool_decide (p = "dynamic"%string) then Some Dynamic
  else if bool_decide (p = "partitioned"%string) then Some Partitioned
  else if bool_decide (p = "threshold"%string) then Some Threshold else None.

Definition udiv (a b : Z) : res Z := if b =? 0 then Er DivByZero else Ok (a / b).

(** The entries of a thread under each policy; [threshold] is [smtLSQThreshold]. *)
Definition max_entries (p : LSQPolicy) (lq sq threads threshold : Z) : res (Z * Z) :=
  match p with
  | Dynamic => Ok (lq, sq)
  | Partitioned => a ← udiv lq threads; b ← udiv sq threads; Ok (a, b)
  | Threshold => _ ← c_assert (lq <? threshold); _ ← c_assert (sq <? threshold); Ok (threshold, threshold)
  end.

(** The constructor; the units are initialised in storage that held [split], [lo],
    [hi], [isn], [idx] and [pend], as for [LSQUnit.init]. *)
Definition init (split : bool) (lo hi : option Request.t) (isn idx : Z) (pend : option LSQUnit.Pkt) (w : LSQUnit.World)
  (policy : string) (lq sq threads threshold cache_ports : Z) (active : list Z) : res t :=
  p ← (match parse_policy policy with Some p => Ok p | None => Er AssertFail end);
  r ← max_entries p lq sq threads threshold;
  let w := LSQUnit.mkWorld (LSQUnit.insts w) (LSQUnit.states w) (LSQUnit.nextState w) (-1) (LSQUnit.trace w) in
  let units := (fun tid => LSQUnit.unit_ (LSQUnit.init split lo hi isn idx pend w cache_ports r.1 r.2 (Z.of_nat tid))) <$> List.seq 0 (Z.to_nat threads) in
  Ok (mk p units active lq sq r.1 r.2 threads false w).

Definition setActiveThreads (s : t) (l : list Z) : t :=
  mk (lsqPolicy s) (thread s) l (LQEntries s) (SQEntries s) (maxLQEntries s) (maxSQEntries s) (numThreads s) (snoopRangeSent s) (world s).
Definition switchOut (s : t) : res t := for_threads (fun s tid => call_ s tid LSQUnit.switchOut) s (all_tids s).
Definition takeOverFrom (s : t) : res t := for_threads (fun s tid => call_ s tid (fun u => Ok (LSQUnit.takeOverFrom u))) s (all_tids s).

Definition entryAmount (s : t) (num_threads : Z) : res Z := if bool_decide (lsqPolicy s = Partitioned) then udiv (LQEntries s) num_threads else Ok 0.
Definition removeEntries (s : t) (tid : Z) : res t :=
  s ← call_ s tid (fun u => Ok (LSQUnit.clearLQ u)); call_ s tid (fun u => Ok (LSQUnit.clearSQ u)).
(** [split], [lo] and [hi] are what the storage of the entries added held. *)
Definition resizeEntries (split : bool) (lo hi : option Request.t) (s : t) (sz tid : Z) : res t :=
  s ← call_ s tid (fun u => LSQUnit.resizeLQ u sz); call_ s tid (fun u => Ok (LSQUnit.resizeSQ split lo hi u sz)).
Definition resetEntries (split : bool) (lo hi : option Request.t) (s : t) : res t :=
  if negb (bool_decide (lsqPolicy s = Dynamic)) || (1 <? numThreads s) then
    let active_threads := Z.of_nat (length (activeThreads s)) in
    maxEntries ← (if bool_decide (lsqPolicy s = Partitioned) then udiv (LQEntries s) active_threads else Ok (LQEntries s));
    for_threads (fun s tid => resizeEntries split lo hi s maxEntries tid) s (activeThreads s)
  else Ok s.

(** ** Calls on a thread *)
Definition tick (s : t) : res t := for_threads (fun s tid => call_ s tid (fun u => Ok (LSQUnit.tick u))) s (activeThreads s).
Definition tid_of (s : t) (id : Z) : res Z := i ← deref (LSQUnit.insts (world s) !! id); Ok (DynInst.threadNumber (LSQUnit.dyn i)).
Definition insertLoad (s : t) (id : Z) : res t := tid ← tid_of s id; call_ s tid (fun u => LSQUnit.insertLoad u id).
Definition insertStore (s : t) (id : Z) : res t := tid ← tid_of s id; call_ s tid (fun u => LSQUnit.insertStore u id).
Definition executeLoad (env : LSQUnit.Env) (s : t) (id : Z) (a : LSQUnit.Access) : res (LSQUnit.Fault * t) :=
  tid ← tid_of s id; call s tid (fun u => LSQUnit.executeLoad env u id a).
Definition executeStore (env : LSQUnit.Env) (s : t) (id : Z) (a : LSQUnit.Access) : res (LSQUnit.Fault * t) :=
  tid ← tid_of s id; call s tid (fun u => LSQUnit.executeStore env u id a).
Definition commitLoads (s : t) (youngest_inst tid : Z) : res t := call_ s tid (fun u => LSQUnit.commitLoads u youngest_inst).
Definition commitStores (s : t) (youngest_inst tid : Z) : res t := call_ s tid (fun u => LSQUnit.commitStores u youngest_inst).
Definition writebackStores (env : LSQUnit.Env) (s : t) : res t := for_threads (fun s tid => call_ s tid (LSQUnit.writebackStores env)) s (activeThreads s).
Definition squash (env : LSQUnit.Env) (s : t) (squashed_num tid : Z) : res t := call_ s tid (fun u => LSQUnit.squash env u squashed_num).
Definition setLoadBlockedHandled (s : t) (tid : Z) : res t := call_ s tid (fun u => Ok (LSQUnit.setLoadBlockedHandled u)).
Definition getMemDepViolator (s : t) (tid : Z) : res (option Z * t) := call s tid (fun u => Ok (LSQUnit.getMemDepViolator u)).
Definition setRetryTid (s : t) (tid : Z) : t :=
  let w := world s in set_world s (LSQUnit.mkWorld (LSQUnit.insts w) (LSQUnit.states w) (LSQUnit.nextState w) tid (LSQUnit.trace w)).
Definition cacheBlocked (s : t) : bool := negb (LSQUnit.retryTid (world s) =? -1).
(** [read] and [write] go to the thread of the request. *)
Definition read (env : LSQUnit.Env) (s : t) (rq : Request.t) (lo hi : option Request.t) (load_idx : Z) : res (LSQUnit.Fault * t) :=
  tid ← Request.threadId rq; call s tid (fun u => LSQUnit.read env u rq lo hi load_idx).
Definition write (s : t) (rq : Request.t) (lo hi : option Request.t) (d : list Z) (store_idx : Z) : res (LSQUnit.Fault * t) :=
  tid ← Request.threadId rq; call s tid (fun u => LSQUnit.write u rq lo hi d store_idx).

(** ** Queries *)
Definition violation (s : t) : res bool := any_thread (fun tid => ask s tid (fun u => Ok (LSQUnit.violation u))) (activeThreads s).
Definition violation_tid (s : t) (tid : Z) : res bool := ask s tid (fun u => Ok (LSQUnit.violation u)).
Definition loadBlocked (s : t) (tid : Z) : res bool := ask s tid (fun u => Ok (LSQUnit.loadBlocked u)).
Definition isLoadBlockedHandled (s : t) (tid : Z) : res bool := ask s tid (fun u => Ok (LSQUnit.isLoadBlockedHandled u)).
Definition getLoadHead (s : t) (tid : Z) : res Z := ask s tid (fun u => Ok (LSQUnit.getLoadHead u)).
Definition getLoadHeadSeqNum (s : t) (tid : Z) : res Z := ask s tid LSQUnit.getLoadHeadSeqNum.
Definition getStoreHead (s : t) (tid : Z) : res Z := ask s tid (fun u => Ok (LSQUnit.getStoreHead u)).
Definition getStoreHeadSeqNum (s : t) (tid : Z) : res Z := ask s tid LSQUnit.getStoreHeadSeqNum.
Definition getCount_tid (s : t) (tid : Z) : res Z := ask s tid (fun u => Ok (LSQUnit.getCount u)).
Definition numLoads_tid (s : t) (tid : Z) : res Z := ask s tid (fun u => Ok (LSQUnit.numLoads u)).
Definition numStores_tid (s : t) (tid : Z) : res Z := ask s tid (fun u => Ok (LSQUnit.numStores u)).
Definition numFreeEntries_tid (s : t) (tid : Z) : res Z := ask s tid (fun u => Ok (LSQUnit.numFreeEntries u)).
Definition hasStoresToWB_tid (s : t) (tid : Z) : res bool := ask s tid (fun u => Ok (LSQUnit.hasStoresToWB u)).
Definition numStoresToWB (s : t) (tid : Z) : res Z := ask s tid (fun u => Ok (LSQUnit.numStoresToWB u)).
Definition willWB_tid (s : t) (tid : Z) : res bool := ask s tid LSQUnit.willWB.
(** The totals are unsigned. *)
Definition getCount (s : t) : res Z := sum_threads (getCount_tid s) 0 (activeThreads s).
Definition numLoads (s : t) : res Z := sum_threads (numLoads_tid s) 0 (activeThreads s).
Definition numStores (s : t) : res Z := sum_threads (numStores_tid s) 0 (activeThreads s).
Definition numLoadsReady (fuel : nat) (s : t) : res Z := sum_threads (fun tid => ask s tid (LSQUnit.numLoadsReady fuel)) 0 (activeThreads s).
Definition numFreeEntries (s : t) : res Z := sum_threads (numFreeEntries_tid s) 0 (activeThreads s).

Definition unit_full (s : t) (tid : Z) : res bool := ask s tid (fun u => Ok (LSQUnit.lqFull u || LSQUnit.sqFull u)).
Definition isFull (s : t) : res bool := all_threads (unit_full s) (activeThreads s).
Definition isFull_tid (s : t) (tid : Z) : res bool := if bool_decide (lsqPolicy s = Dynamic) then isFull s else unit_full s tid.
Definition lqFull (s : t) : res bool := all_threads (fun tid => ask s tid (fun u => Ok (LSQUnit.lqFull u))) (activeThreads s).
Definition lqFull_tid (s : t) (tid : Z) : res bool := if bool_decide (lsqPolicy s = Dynamic) then lqFull s else ask s tid (fun u => Ok (LSQUnit.lqFull u)).
(** [sqFull()] and [sqFull(tid)] call each other; [fuel] bounds the calls. *)
Fixpoint sqFull (fuel : nat) (s : t) : res bool :=
  match fuel with
  | O => Er OutOfFuel
  | S fuel' => all_threads (fun tid => if bool_decide (lsqPolicy s = Dynamic) then sqFull fuel' s else ask s tid (fun u => Ok (LSQUnit.sqFull u))) (activeThreads s)
  end.
Definition sqFull_tid (fuel : nat) (s : t) (tid : Z) : res bool :=
  if bool_decide (lsqPolicy s = Dynamic) then sqFull fuel s else ask s tid (fun u => Ok (LSQUnit.sqFull u)).
Definition isStalled (s : t) : res bool := all_threads (fun tid => ask s tid (fun u => Ok (LSQUnit.isStalled u))) (activeThreads s).
Definition isStalled_tid (s : t) (tid : Z) : res bool := if bool_decide (lsqPolicy s = Dynamic) then isStalled s else ask s tid (fun u => Ok (LSQUnit.isStalled u)).
Definition hasStoresToWB (s : t) : res bool := any_thread (hasStoresToWB_tid s) (activeThreads s).
Definition willWB (s : t) : res bool := any_thread (willWB_tid s) (activeThreads s).

(** ** The port *)
Inductive PortStatus := RangeChange.
#[export] Instance port_status_eq_dec : EqDecision PortStatus.
Proof. solve_decision. Defined.

Definition recvAtomic (s : t) (pkt : LSQUnit.Pkt) : res t := Er Panic.
Definition recvFunctional (s : t) (pkt : LSQUnit.Pkt) : t := s.
(** [recvStatusChange]; whether the change is sent on. *)
Definition recvStatusChange (s : t) (st : PortStatus) : res (bool * t) :=
  if bool_decide (st = RangeChange) then
    if snoopRangeSent s then Ok (false, s)
    else Ok (true, mk (lsqPolicy s) (thread s) (activeThreads s) (LQEntries s) (SQEntries s) (maxLQEntries s) (maxSQEntries s) (numThreads s) true (world s))
  else Er Panic.
Definition recvTiming (env : LSQUnit.Env) (s : t) (pkt : LSQUnit.Pkt) : res (bool * t) :=
  s ← (if MemCmd.isResponse (LSQUnit.cmd pkt) then tid ← Request.threadId (LSQUnit.preq pkt); call_ s tid (fun u => LSQUnit.completeDataAccess env u pkt) else Ok s);
  Ok (true, s).
Definition recvRetry (env : LSQUnit.Env) (s : t) : res t :=
  let curr_retry_tid := LSQUnit.retryTid (world s) in
  if curr_retry_tid =? -1 then Ok s else call_ (setRetryTid s (-1)) curr_retry_tid (LSQUnit.recvRetry env).
End LSQ.
Import LSQUnit.

(** ** Calls on a thread *)
Lemma unit_at_inv s tid u : LSQ.unit_at s tid = Ok u -> 0 <= tid /\ LSQ.thread s !! Z.to_nat tid = Some (unit_ u) /\ world u = LSQ.world s.
Proof.
  unfold LSQ.unit_at. destruct (vget (LSQ.thread s) tid) as [x|] eqn:Ev; [|done]. intros [= <-]. apply vget_Ok in Ev as [? ?]. done.
Qed.

(** A call replaces the unit of its thread and the shared objects, and nothing else. *)
Lemma call_ok {A} s tid u (f : t -> res (A * t)) a u' : LSQ.unit_at s tid = Ok u -> f u = Ok (a, u') ->
  exists s', LSQ.call s tid f = Ok (a, s') /\ LSQ.unit_at s' tid = Ok u' /\ LSQ.activeThreads s' = LSQ.activeThreads s /\ LSQ.lsqPolicy s' = LSQ.lsqPolicy s /\
    forall tid', tid' <> tid -> vget (LSQ.thread s') tid' = vget (LSQ.thread s) tid'.
Proof.
  intros Hu Hf. destruct (unit_at_inv s tid u Hu) as (H0 & Hl & Hw). pose proof (lookup_lt_Some _ _ _ Hl) as Hlt. unfold LSQ.call. rewrite Hu. cbn [mbind res_bind]. rewrite Hf. cbn [mbind res_bind fst snd].
  rewrite vset_lt by lia. cbn [mbind res_bind]. eexists. split; [reflexivity|]. split_and!; try done.
  - unfold LSQ.unit_at. simpl. assert (Hg : vget (<[Z.to_nat tid := unit_ u']> (LSQ.thread s)) tid = Ok (unit_ u')) by (apply vget_Ok; split; [done|]; by apply list_lookup_insert_eq).
    rewrite Hg. cbn [mbind res_bind]. by destruct u'.
  - intros tid' Hne. simpl. unfold vget. destruct (Z.leb_spec 0 tid'); [|done]. rewrite list_lookup_insert_ne by lia. done.
Qed.

(** ** The shape of the queues

    What the queues of a unit look like whatever the instructions are: both are rings with
    their counters, [L] and [E] are what they hold, the first [w] stores have been sent.
    Nothing is said of the objects that the threads share, so what one thread does cannot
    spoil it for another. *)
Record Shape0 (u : Unit_) (L : list Z) (E : list SQEntry) (w : nat) : Prop := mkShape0 {
  z_lq : ring (loadQueue (lq u)) (LQEntries (lq u)) (loadHead (lq u)) (loadTail (lq u)) (Some <$> L);
  z_loads : loads (lq u) = Z.of_nat (length L);
  z_sq : ring (storeQueue (sq u)) (SQEntries (sq u)) (storeHead (sq u)) (storeTail (sq u)) E;
  z_stores : stores (sq u) = Z.of_nat (length E);
  z_w : (w <= length E)%nat;
  z_wb : storeWBIdx (sq u) = pos (SQEntries (sq u)) (storeHead (sq u)) w;
  z_can : forall k e, E !! k = Some e -> (k < w)%nat -> canWB e = true;
  z_done : forall k e, E !! k = Some e -> completed e = true -> (k < w)%nat
}.
(** The next store is on its way: the cache has refused it, or half of it is to be sent. *)
Definition under_way (u : Unit_) : bool := isStoreBlocked (blocked u) || hasPendingPkt (ports u).
Definition next_ok (E : list SQEntry) (w : nat) : Prop := exists e, E !! w = Some e /\ canWB e = true.
Record Shape (env : Env) (u : Unit_) (L : list Z) (E : list SQEntry) (w : nat) : Prop := mkShape {
  z_shape : Shape0 u L E w;
  z_next : under_way u = true -> next_ok E w;
  z_pending : hasPendingPkt (ports u) = true -> isStoreBlocked (blocked u) = false /\ HasUnalignedMemAcc env = true
}.
Definition shaped (env : Env) (u : Unit_) : Prop := exists L E w, Shape env u L E w.

(** What the shape depends on. *)
Definition flags (u : Unit_) : bool * bool := (isStoreBlocked (blocked u), hasPendingPkt (ports u)).
Definition still (s s' : t) : Prop := lqs s' = lqs s /\ sqs s' = sqs s /\ flags (unit_ s') = flags (unit_ s).
#[export] Instance still_preorder : PreOrder still.
Proof. split; [by intros s|]. intros s1 s2 s3 (A1 & A2 & A3) (B1 & B2 & B3). split_and!; congruence. Qed.
Lemma Shape0_ext u u' L E w : Shape0 u L E w -> lq u' = lq u -> sq u' = sq u -> Shape0 u' L E w.
Proof. intros [] E1 E2. constructor; rewrite ?E1, ?E2; done. Qed.
Lemma Shape_still env s s' L E w : Shape env (unit_ s) L E w -> still s s' -> Shape env (unit_ s') L E w.
Proof.
  intros [H1 H2 H3] (E1 & E2 & E3). unfold flags in E3. injection E3 as E3 E4. constructor; [by eapply Shape0_ext|unfold under_way; by rewrite E3, E4|by rewrite E3, E4].
Qed.
Lemma Shape0_still s s' L E w : Shape0 (unit_ s) L E w -> still s s' -> Shape0 (unit_ s') L E w.
Proof. intros H (E1 & E2 & _). by eapply Shape0_ext. Qed.

Ltac still_step := repeat match goal with
  | H : _ ≫= _ = Ok _ |- _ => apply res_bind_Ok in H; destruct H as (? & ? & H)
  | H : Ok _ = Ok _ |- _ => injection H as H; subst
  | H : Er _ = Ok _ |- _ => discriminate H
  | H : (_, _) = (_, _) |- _ => injection H as H; subst
  end.
Lemma upd_still s id f s' : upd s id f = Ok s' -> still s s'.
Proof. unfold upd. intros E. still_step. done. Qed.
Lemma set_status_still s id st s' : set_status s id st = Ok s' -> still s s'.
Proof. apply upd_still. Qed.
Lemma unstall_still s i s' : unstall s i = Ok s' -> still s s'.
Proof. unfold unstall. intros E. repeat (case_match; still_step); done. Qed.
Lemma forward_data_still s id rq va sz i x s' : forward_data s id rq va sz i = Ok (x, s') -> still s s'.
Proof.
  unfold forward_data. intros E. do 4 apply res_bind_Ok in E as (? & _ & E). apply res_bind_Ok in E as (s1 & E1%upd_still & E). injection E as _ <-. by etrans.
Qed.
Lemma stall_load_still s id l i x s' : stall_load s id l i = Ok (x, s') -> still s s'.
Proof.
  unfold stall_load. intros E. apply res_bind_Ok in E as (n & _ & E). apply res_bind_Ok in E as (b & _ & E). apply res_bind_Ok in E as (m & _ & E). cbv zeta in E.
  apply res_bind_Ok in E as (s1 & E1%upd_still & E). injection E as _ <-. etrans; [|exact E1]. by destruct b.
Qed.
Lemma send_load_still env s id rq lo hi l s' : send_load env s id rq lo hi l = Ok s' -> still s s'.
Proof.
  unfold send_load, alloc_state, send. intros E. cbv beta iota zeta in E. destruct (HasUnalignedMemAcc env), lo as [lo|];
    repeat (match type of E with context [if ?b then _ else _] => destruct b end || still_step); done.
Qed.
Lemma read_memory_still env s id rq lo hi l x s' : read_memory env s id rq lo hi l = Ok (x, s') -> still s s'.
Proof.
  unfold read_memory. intros E. apply res_bind_Ok in E as (i & _ & E). apply res_bind_Ok in E as (_ & _ & E). apply res_bind_Ok in E as (s1 & E1%upd_still & E). cbv zeta in E.
  apply res_bind_Ok in E as (s2 & E2 & E). etrans; [exact E1|]. transitivity s2; [destruct (cacheBlocked _); [by injection E2 as <-|apply send_load_still in E2; etrans; [|exact E2]; done]|].
  destruct (cacheBlocked s2); [destruct (_ && _)|]; by injection E as _ <-.
Qed.
Lemma read_still env s rq lo hi l x s' : read env s rq lo hi l = Ok (x, s') -> still s s'.
Proof.
  unfold read. intros E. apply res_bind_Ok in E as (id & _ & E). apply res_bind_Ok in E as (i & _ & E). apply res_bind_Ok in E as (_ & _ & E).
  destruct (_ && _); [by injection E as _ <-|]. apply res_bind_Ok in E as (s1 & E1 & E). transitivity s1; [destruct (Request.isLLSC rq); still_step; done|].
  do 2 apply res_bind_Ok in E as (? & _ & E). apply res_bind_Ok in E as (f & _ & E).
  destruct f; [by eapply forward_data_still|by eapply stall_load_still|by eapply read_memory_still].
Qed.
Lemma finishTranslation_still s id f rq rs x s' : finishTranslation s id f rq rs = Ok (x, s') -> still s s'.
Proof.
  unfold finishTranslation. intros E. apply res_bind_Ok in E as (s1 & E1%upd_still & E). etrans; [exact E1|]. apply res_bind_Ok in E as (s2 & E2 & E).
  transitivity s2; [destruct (Request.isUncacheable rq); [by eapply upd_still|by injection E2 as <-]|]. destruct (is_fault f); [by injection E as _ <-|].
  do 2 apply res_bind_Ok in E as (? & _ & E). apply res_bind_Ok in E as (s3 & E3%upd_still & E). etrans; [exact E3|]. destruct (Request.isCondSwap rq); still_step; done.
Qed.
Lemma make_request_still env s id wr addr sz fl asid pc ctx rs x s' : make_request env s id wr addr sz fl asid pc ctx rs = Ok (x, s') -> still s s'.
Proof.
  unfold make_request. intros E. apply res_bind_Ok in E as (s1 & E1%upd_still & E). etrans; [exact E1|]. do 3 apply res_bind_Ok in E as (? & _ & E).
  apply res_bind_Ok in E as ([[f rq] lohi] & _ & E). apply res_bind_Ok in E as ([rq' s2] & E2%finishTranslation_still & E). etrans; [exact E2|].
  destruct (is_fault f); [by injection E as _ <-|]. apply res_bind_Ok in E as (va & _ & E). apply res_bind_Ok in E as (s3 & E3%upd_still & E). by injection E as _ <-.
Qed.
Lemma violation_loop_still fuel : forall s addr l x s', violation_loop fuel s addr l = Ok (x, s') -> still s s'.
Proof.
  induction fuel as [|fuel IH]; intros s addr l x s' E; [done|]. cbn [violation_loop] in E. destruct (_ =? _); [by injection E as _ <-|].
  apply res_bind_Ok in E as (id & _ & E). apply res_bind_Ok in E as (i & _ & E). destruct (_ && _); [|by eapply IH].
  apply res_bind_Ok in E as ([] & _ & E); by injection E as _ <-.
Qed.
Lemma writeback_still s id pkt s' : writeback s id pkt = Ok s' -> still s s'.
Proof.
  unfold writeback. intros E. cbv zeta in E. apply res_bind_Ok in E as (i & _ & E). destruct (has i DynInst.Squashed); [still_step; done|].
  apply res_bind_Ok in E as (s1 & E1 & E). injection E as <-. transitivity s1; [|done]. destruct (has i DynInst.Executed); [by injection E1 as <-|].
  apply res_bind_Ok in E1 as (s2 & E2%set_status_still & E1). injection E1 as <-. transitivity s2; [etrans; [|exact E2]; done|done].
Qed.
Lemma squash_flags_still s n s' : squash_flags s n = Ok s' -> still s s'.
Proof.
  unfold squash_flags. intros E. cbv zeta in E. destruct (isLoadBlocked _ && _); (destruct (memDepViolator _); [|by injection E as <-]);
    apply res_bind_Ok in E as (m & _ & E); injection E as <-; by destruct (_ <? _).
Qed.

(** ** Entries of the store queue *)

(** An entry changes, in the queue or not. *)
Lemma ring_put {A} (v : list A) n h t' l i x y : ring v n h t' l -> v !! i = Some x -> exists l', ring (<[i := y]> v) n h t' l' /\ length l' = length l /\
  forall k z, l' !! k = Some z -> l !! k = Some z \/ (l !! k = Some x /\ z = y /\ Z.of_nat i = pos n h k).
Proof.
  intros Hr Hx. pose proof Hr as [Hl Hn Hh Hf Ht Hg]. destruct (decide (Exists (fun k => i = Z.to_nat (pos n h k)) (List.seq 0 (length l)))) as [(k & Hk%elem_of_seq & ->)%Exists_exists|Hno].
  - destruct (lookup_lt_is_Some_2 l k) as [z Hz]; [lia|]. assert (z = x) as -> by (rewrite (Hg k z Hz) in Hx; congruence). exists (<[k := y]> l).
    split; [by eapply ring_update|]. split; [apply length_insert|]. intros j z. rewrite list_lookup_insert_Some. intros [(-> & -> & _)|[_ ?]]; [right|by left].
    split_and!; try done. pose proof (pos_range n Hn h j). lia.
  - exists l. split; [|split; [done|by left]]. constructor; try done; [by rewrite length_insert|]. intros k z Hz. rewrite list_lookup_insert_ne; [by apply Hg|].
    intros ->. apply Hno, Exists_exists. exists k. split; [|done]. apply elem_of_seq. apply lookup_lt_Some in Hz. lia.
Qed.
(** The entries of [E'] are those of [E], with another content. *)
Record moved_on (E E' : list SQEntry) : Prop := mkMovedOn {
  o_len : length E' = length E;
  o_entry : forall k e', E' !! k = Some e' -> exists e, E !! k = Some e /\ (canWB e = true -> canWB e' = true) /\ (completed e' = true -> completed e = true)
}.
Lemma moved_next E E' w : moved_on E E' -> next_ok E w -> next_ok E' w.
Proof.
  intros [Hl He] (e & H1 & H2). destruct (lookup_lt_is_Some_2 E' w) as [e' He']; [rewrite Hl; by eapply lookup_lt_Some|]. exists e'. split; [done|].
  destruct (He w e' He') as (e0 & E0 & Hc & _). assert (e0 = e) as -> by congruence. auto.
Qed.
Definition with_sq (u : Unit_) (q : SQ) : Unit_ := mkUnit (lsqID u) (switchedOut u) (lq u) q (stall u) (blocked u) (ports u) (memDepViolator u).
Lemma Shape0_moved u L E E' w q : Shape0 u L E w -> moved_on E E' -> SQEntries q = SQEntries (sq u) -> stores q = stores (sq u) -> storeHead q = storeHead (sq u) ->
  storeWBIdx q = storeWBIdx (sq u) -> storeTail q = storeTail (sq u) -> ring (storeQueue q) (SQEntries q) (storeHead q) (storeTail q) E' -> Shape0 (with_sq u q) L E' w.
Proof.
  intros [Z1 Z2 Z3 Z4 Z5 Z6 Z7 Z8] [Hl He] E1 E2 E3 E4 E5 Hr. constructor; simpl; rewrite ?Hl, ?E2; try done; [by rewrite E4, E1, E3|..].
  - intros k e' Hk Hw. destruct (He k e' Hk) as (e & Hke & Hc & _). apply Hc. by eapply Z7.
  - intros k e' Hk Hd. destruct (He k e' Hk) as (e & Hke & _ & Hc). eapply Z8; [exact Hke|auto].
Qed.
(** [put_entry], and what it leaves of the rest. *)
Lemma put_entry_shape s i f s' L E w : Shape0 (unit_ s) L E w -> put_entry s i f = Ok s' ->
  (forall e, canWB e = true -> canWB (f e) = true) -> (forall e, completed (f e) = true -> completed e = true) ->
  exists E', Shape0 (unit_ s') L E' w /\ moved_on E E' /\ flags (unit_ s') = flags (unit_ s) /\ storeWBIdx (sqs s') = storeWBIdx (sqs s).
Proof.
  intros H Ep Hc Hd. unfold put_entry, entry in Ep. apply res_bind_Ok in Ep as (e & He & Ep). apply res_bind_Ok in Ep as (l & Hv & Ep). injection Ep as <-.
  apply vget_Ok in He as [Hi He]. unfold vset in Hv. destruct (_ && _) in Hv; [|done]. injection Hv as <-.
  destruct (ring_put _ _ _ _ _ (Z.to_nat i) e (f e) (z_sq _ _ _ _ H) He) as (E' & Hr & Hl & Hk). exists E'.
  assert (Hm : moved_on E E').
  { constructor; [done|]. intros k z Hz. destruct (Hk k z Hz) as [?|(? & -> & _)]; [by exists z|]. exists e. auto. }
  split; [|by split]. by apply (Shape0_moved _ L E E' w).
Qed.

(** ** Insertion, execution, commit *)
Lemma room {A} (v : list A) n h t' l m : ring v n h t' l -> umod (t' + 1) n = Ok m -> (m =? u32 h) = false -> Z.of_nat (length l) + 1 < n.
Proof.
  intros [Hl Hn Hh Hf Ht Hg] Hm Hne. unfold umod in Hm. destruct (n =? 0); [done|]. injection Hm as <-. apply Z.eqb_neq in Hne.
  destruct (decide (Z.of_nat (length l) + 1 = n)) as [Efull|]; [|lia]. exfalso. apply Hne. pose proof (pos_range n Hn h (length l)).
  rewrite !uint_small by (subst; lia). subst t'. unfold pos. change 1 with (Z.of_nat 1) at 1. rewrite Zplus_mod_idemp_l.
  replace (h + Z.of_nat (length l) + Z.of_nat 1) with (h + 1 * n) by lia. rewrite Z.mod_add, Z.mod_small by lia. done.
Qed.
Lemma insertLoad_shape env s id s' L E w : Shape env (unit_ s) L E w -> insertLoad s id = Ok s' -> Shape env (unit_ s') (L ++ [id]) E w.
Proof.
  intros [H Hn Hp] Ei. unfold insertLoad in Ei. apply res_bind_Ok in Ei as (m & Em & Ei). apply res_bind_Ok in Ei as (? & Ea%c_assert_Ok & Ei). apply negb_true_iff in Ea.
  apply res_bind_Ok in Ei as (? & _ & Ei). apply res_bind_Ok in Ei as (s1 & (A1 & A2 & A3)%upd_still & Ei). apply res_bind_Ok in Ei as (l & Hv & Ei). injection Ei as <-.
  unfold vset in Hv. destruct (_ && _) in Hv; [|done]. injection Hv as <-. pose proof (room _ _ _ _ _ m (z_lq _ _ _ _ H) Em Ea) as Hr.
  unfold flags in A3. injection A3 as A3 A4. destruct H as [Z1 Z2 Z3 Z4 Z5 Z6 Z7 Z8].
  constructor; [|unfold under_way; simpl; by rewrite A3, A4|simpl; by rewrite A3, A4]. unfold lqs, sqs in *. constructor; simpl; rewrite ?A2; try done.
  - rewrite fmap_app. unfold incrLdIdx, lqs. rewrite A1. by apply ring_push.
  - rewrite Z2, length_app. simpl. lia.
Qed.
Lemma next_ok_app E E' w : next_ok E w -> next_ok (E ++ E') w.
Proof. intros (e & He & ?). exists e. split; [by apply lookup_app_l_Some|done]. Qed.
Lemma insertStore_shape env s id s' L E w : Shape env (unit_ s) L E w -> insertStore s id = Ok s' -> Shape env (unit_ s') L (E ++ [new_entry id]) w.
Proof.
  intros [H Hn Hp] Ei. unfold insertStore in Ei. apply res_bind_Ok in Ei as (m & Em & Ei). apply res_bind_Ok in Ei as (? & Ea%c_assert_Ok & Ei). apply negb_true_iff in Ea.
  apply res_bind_Ok in Ei as (? & _ & Ei). apply res_bind_Ok in Ei as (s1 & (A1 & A2 & A3)%upd_still & Ei). apply res_bind_Ok in Ei as (l & Hv & Ei). injection Ei as <-.
  unfold vset in Hv. destruct (_ && _) in Hv; [|done]. injection Hv as <-. pose proof (room _ _ _ _ _ m (z_sq _ _ _ _ H) Em Ea) as Hr.
  unfold flags in A3. injection A3 as A3 A4. destruct H as [Z1 Z2 Z3 Z4 Z5 Z6 Z7 Z8].
  constructor; [|unfold under_way; simpl; rewrite A3, A4; intros Hu; by apply next_ok_app, Hn|simpl; by rewrite A3, A4]. unfold lqs, sqs in *. constructor; simpl; rewrite ?A1; try done.
  - unfold incrStIdx, sqs. rewrite A2. by apply ring_push.
  - rewrite Z4, length_app. simpl. lia.
  - rewrite length_app. lia.
  - intros k e [Hk|[? Hk]]%lookup_app_Some Hw; [by eapply Z7|lia].
  - intros k e [Hk|[? Hk]]%lookup_app_Some Hd; [by eapply Z8|]. by apply list_lookup_singleton_Some in Hk as [_ <-].
Qed.

Lemma shaped_still env s s' : shaped env (unit_ s) -> still s s' -> shaped env (unit_ s').
Proof. intros (L & E & w & H) Hs. exists L, E, w. by eapply Shape_still. Qed.
Lemma shaped_moved env u u' L E E' w : Shape env u L E w -> Shape0 u' L E' w -> moved_on E E' -> flags u' = flags u -> shaped env u'.
Proof.
  intros [_ Hn Hp] H' Hm Hf. unfold flags in Hf. injection Hf as F1 F2. exists L, E', w. constructor; [done|unfold under_way; rewrite F1, F2; intros Hu; by eapply moved_next, Hn|by rewrite F1, F2].
Qed.
Lemma shaped_put env s i f s' : shaped env (unit_ s) -> put_entry s i f = Ok s' ->
  (forall e, canWB e = true -> canWB (f e) = true) -> (forall e, completed (f e) = true -> completed e = true) -> shaped env (unit_ s').
Proof.
  intros (L & E & w & H) Ep Hc Hd. destruct (put_entry_shape s i f s' L E w (z_shape _ _ _ _ _ H) Ep Hc Hd) as (E' & H' & Hm & Hf & _). by eapply shaped_moved.
Qed.
Lemma shaped_toWB env s n : shaped env (unit_ s) -> shaped env (unit_ (set_storesToWB s n)).
Proof. intros (L & E & w & [[] ? ?]). exists L, E, w. by constructor; [constructor|..]. Qed.

Lemma initiateAcc_shaped env s id wr a x s' : shaped env (unit_ s) -> initiateAcc env s id wr a = Ok (x, s') -> shaped env (unit_ s').
Proof.
  intros H Ei. destruct a as [f|addr sz fl asid pc ctx d rs]; cbn [initiateAcc] in Ei; [by injection Ei as _ <-|].
  apply res_bind_Ok in Ei as ([rq s1] & E1%make_request_still & Ei). apply (shaped_still _ _ _ H) in E1. apply res_bind_Ok in Ei as (i & _ & Ei).
  destruct rq as [[rq lohi]|].
  - apply res_bind_Ok in Ei as ([f s2] & E2 & Ei). apply res_bind_Ok in Ei as (s3 & E3%upd_still & Ei). injection Ei as _ <-. apply (shaped_still env s2 s3); [|done].
    destruct wr; [|eapply shaped_still; [exact E1|by eapply read_still]]. unfold write in E2. do 3 apply res_bind_Ok in E2 as (? & _ & E2).
    apply res_bind_Ok in E2 as (s4 & E4 & E2). injection E2 as _ <-. by eapply shaped_put; [..|exact E4|done|].
  - apply res_bind_Ok in Ei as (s2 & E2 & Ei). injection Ei as _ <-. destruct wr; [by injection E2 as <-|]. eapply shaped_still; [exact E1|by eapply set_status_still].
Qed.
Lemma executeLoad_shaped env s id a x s' : shaped env (unit_ s) -> executeLoad env s id a = Ok (x, s') -> shaped env (unit_ s').
Proof.
  intros H Ei. unfold executeLoad in Ei. do 2 apply res_bind_Ok in Ei as (? & _ & Ei). apply res_bind_Ok in Ei as ([f s1] & E1 & Ei).
  apply (initiateAcc_shaped env s id false a f s1 H) in E1. apply res_bind_Ok in Ei as (i & _ & Ei). destruct (is_fault f).
  - apply res_bind_Ok in Ei as (s2 & E2 & Ei). injection Ei as _ <-. apply (shaped_still env s1); [done|]. transitivity s2; [|done].
    destruct (_ || _); [by eapply set_status_still|by injection E2 as <-].
  - destruct (loadBlocked s1); [by injection Ei as _ <-|]. apply res_bind_Ok in Ei as (_ & _ & Ei). apply res_bind_Ok in Ei as ([r s2] & E2%violation_loop_still & Ei).
    injection Ei as _ <-. by eapply shaped_still.
Qed.
Lemma executeStore_shaped env s id a x s' : shaped env (unit_ s) -> executeStore env s id a = Ok (x, s') -> shaped env (unit_ s').
Proof.
  intros H Ei. unfold executeStore in Ei. do 3 apply res_bind_Ok in Ei as (? & _ & Ei). apply res_bind_Ok in Ei as ([f s1] & E1 & Ei).
  apply (initiateAcc_shaped env s id true a f s1 H) in E1. apply res_bind_Ok in Ei as (e & _ & Ei). destruct (size e =? 0); [by injection Ei as _ <-|].
  apply res_bind_Ok in Ei as (_ & _ & Ei). apply res_bind_Ok in Ei as (s2 & E2 & Ei). do 2 apply res_bind_Ok in Ei as (? & _ & Ei).
  apply res_bind_Ok in Ei as ([r s3] & E3%violation_loop_still & Ei). injection Ei as _ <-. eapply shaped_still; [|exact E3].
  match type of E2 with (if ?b then _ else _) = _ => destruct b end; [|by injection E2 as <-]. apply res_bind_Ok in E2 as (s4 & E4 & E2). injection E2 as <-. apply shaped_toWB.
  by eapply shaped_put; [..|exact E4|done|].
Qed.

Lemma commitLoads_loop_shaped env n fuel : forall s s', shaped env (unit_ s) -> commitLoads_loop fuel s n = Ok s' -> shaped env (unit_ s').
Proof.
  induction fuel as [|fuel IH]; intros s s' H Ec; [done|]. cbn [commitLoads_loop] in Ec. destruct (Z.eqb_spec (loads (lqs s)) 0) as [|Hne]; [by injection Ec as <-|].
  do 2 apply res_bind_Ok in Ec as (? & _ & Ec). destruct (_ <=? _); [|by injection Ec as <-]. apply res_bind_Ok in Ec as (s1 & E1 & Ec). apply (IH s1 s'); [|done].
  unfold commitLoad in E1. do 2 apply res_bind_Ok in E1 as (? & _ & E1). apply res_bind_Ok in E1 as (l & Hv & E1). injection E1 as <-.
  unfold vset in Hv. destruct (_ && _) in Hv; [|done]. injection Hv as <-. destruct H as (L & E & w & [[Z1 Z2 Z3 Z4 Z5 Z6 Z7 Z8] ? ?]). unfold lqs in *.
  destruct L as [|y L]; [simpl in *; lia|]. exists L, E, w. constructor; try done. constructor; simpl in *; try done; [|lia]. by eapply ring_pop_clear.
Qed.
Lemma commitLoads_shaped env n s s' : shaped env (unit_ s) -> commitLoads s n = Ok s' -> shaped env (unit_ s').
Proof. intros H Ec. unfold commitLoads in Ec. apply res_bind_Ok in Ec as (_ & _ & Ec). by eapply commitLoads_loop_shaped. Qed.
Lemma commitStores_loop_shaped env n fuel : forall s i s', shaped env (unit_ s) -> commitStores_loop fuel s n i = Ok s' -> shaped env (unit_ s').
Proof.
  induction fuel as [|fuel IH]; intros s i s' H Ec; [done|]. cbn [commitStores_loop] in Ec. destruct (_ =? _); [by injection Ec as <-|].
  do 2 apply res_bind_Ok in Ec as (? & _ & Ec). destruct (canWB _); [by eapply IH|]. apply res_bind_Ok in Ec as (? & _ & Ec). destruct (_ <? _); [by injection Ec as <-|].
  apply res_bind_Ok in Ec as (s1 & E1 & Ec). cbv zeta in Ec. eapply IH; [|exact Ec]. apply shaped_toWB. by eapply shaped_put; [..|exact E1|done|].
Qed.
Lemma commitStores_shaped env n s s' : shaped env (unit_ s) -> commitStores s n = Ok s' -> shaped env (unit_ s').
Proof. intros H Ec. unfold commitStores in Ec. apply res_bind_Ok in Ec as (_ & _ & Ec). by eapply commitStores_loop_shaped. Qed.

(** ** Squashing *)
Lemma squash_loads_shaped env n fuel : forall s s', shaped env (unit_ s) -> squash_loads fuel s n (decrLdIdx s (loadTail (lqs s))) = Ok s' -> shaped env (unit_ s').
Proof.
  induction fuel as [|fuel IH]; intros s s' H Es; [done|]. cbn [squash_loads] in Es. destruct (Z.eqb_spec (loads (lqs s)) 0) as [|Hne]; [by injection Es as <-|].
  do 2 apply res_bind_Ok in Es as (? & _ & Es). destruct (_ <? _); [|by injection Es as <-]. cbv zeta in Es. apply res_bind_Ok in Es as (s1 & E1%set_status_still & Es).
  apply res_bind_Ok in Es as (l & Hv & Es). assert (H1 : still s s1) by (etrans; [|exact E1]; by destruct (_ && _)). clear E1.
  unfold vset in Hv. destruct (_ && _) in Hv; [|done]. injection Hv as <-. destruct H1 as (A1 & A2 & A3). unfold flags in A3. injection A3 as A3 A4.
  destruct H as (L & E & w & [[Z1 Z2 Z3 Z4 Z5 Z6 Z7 Z8] Hn Hp]). unfold lqs, sqs, decrLdIdx in *.
  destruct (exists_last (l := L)) as (L' & y & ->); [intros ->; simpl in *; lia|]. rewrite fmap_app in Z1. pose proof (ring_last _ _ _ _ _ _ Z1) as Hl. unfold lqs in *. rewrite Hl, A1 in Es.
  eapply IH; [|unfold decrLdIdx, lqs; simpl; exact Es]. exists L', E, w. constructor; [|unfold under_way; simpl; by rewrite A3, A4|simpl; by rewrite A3, A4].
  constructor; simpl; rewrite ?A2; try done; [eapply ring_shrink_clear; exact Z1|]. rewrite length_app in Z2. simpl in Z2. lia.
Qed.
Lemma squash_stores_shaped env n fuel : forall s s', shaped env (unit_ s) -> squash_stores fuel env s n (decrStIdx s (storeTail (sqs s))) = Ok s' -> shaped env (unit_ s').
Proof.
  induction fuel as [|fuel IH]; intros s s' H Es; [done|]. cbn [squash_stores] in Es. destruct (Z.eqb_spec (stores (sqs s)) 0) as [|Hne]; [by injection Es as <-|].
  apply res_bind_Ok in Es as (e & He & Es). do 2 apply res_bind_Ok in Es as (? & _ & Es). destruct (_ <? _); [|by injection Es as <-].
  destruct (canWB e) eqn:Ec; [by injection Es as <-|]. cbv zeta in Es. destruct (_ && _); [done|]. apply res_bind_Ok in Es as (s1 & (A1 & A2 & A3)%set_status_still & Es).
  apply res_bind_Ok in Es as (l & Hv & Es). unfold vset in Hv. destruct (_ && _) in Hv; [|done]. injection Hv as <-. unfold flags in A3. injection A3 as A3 A4.
  destruct H as (L & E & w & [[Z1 Z2 Z3 Z4 Z5 Z6 Z7 Z8] Hn Hp]). unfold lqs, sqs, decrStIdx, entry in *.
  destruct (exists_last (l := E)) as (E' & y & ->); [intros ->; simpl in *; lia|]. pose proof (ring_last _ _ _ _ _ _ Z3) as Hl. unfold sqs in *. rewrite Hl in *. rewrite A2 in Es.
  assert (Hy : (E' ++ [y]) !! length E' = Some y) by (by rewrite list_lookup_middle).
  assert (y = e) as -> by (apply (ring_vget _ _ _ _ _ _ _ Z3) in Hy; congruence).
  assert (Hw : (w <= length E')%nat) by (rewrite length_app in Z5; simpl in Z5; destruct (decide (w = S (length E'))) as [->|]; [|lia]; rewrite (Z7 _ _ Hy) in Ec by lia; done).
  assert (Hk : forall k z, E' !! k = Some z -> (E' ++ [e]) !! k = Some z) by (intros; by apply lookup_app_l_Some).
  eapply IH; [|unfold decrStIdx, sqs; simpl; exact Es]. exists L, E', w. constructor; [|unfold under_way; simpl; rewrite A3, A4; intros Hu|simpl; by rewrite A3, A4].
  - constructor; simpl; rewrite ?A1; try done; [eapply ring_shrink_clear; exact Z3|rewrite length_app in Z4; simpl in Z4; lia|eauto|eauto].
  - destruct (Hn Hu) as (z & Hz & Hcz). exists z. split; [|done]. apply lookup_app_Some in Hz as [?|[? Hz]]; [done|]. apply list_lookup_singleton_Some in Hz as [? <-]. congruence.
Qed.
Lemma squash_shaped env n s s' : shaped env (unit_ s) -> squash env s n = Ok s' -> shaped env (unit_ s').
Proof.
  intros H Es. unfold squash in Es. apply res_bind_Ok in Es as (s1 & E1 & Es). apply squash_loads_shaped with (env := env) in E1; [|done].
  apply res_bind_Ok in Es as (s2 & E2%squash_flags_still & Es). apply (shaped_still _ _ _ E1) in E2. by eapply squash_stores_shaped.
Qed.

(** ** Completion *)
(** [E'] is what is left of [E] when stores at its head are done; the next store to send is
    the same. *)
Lemma head_loop_shape fuel : forall s s' L e E w, Shape0 (unit_ s) L (e :: E) w -> completed e = true -> head_loop fuel s = Ok s' ->
  exists n, (n <= w)%nat /\ Shape0 (unit_ s') L (drop n (e :: E)) (w - n) /\ flags (unit_ s') = flags (unit_ s).
Proof.
  induction fuel as [|fuel IH]; intros s s' L e E w H Hc Eh; [done|]. cbn [head_loop] in Eh. cbv zeta in Eh. set (s1 := set_sq s _) in Eh.
  pose proof H as [Z1 Z2 Z3 Z4 Z5 Z6 Z7 Z8]. assert (Hw : (0 < w)%nat) by (by apply (Z8 0%nat e)). pose proof (r_n _ _ _ _ _ Z3) as Hn. pose proof (r_head _ _ _ _ _ Z3) as Hh.
  assert (H1 : Shape0 (unit_ s1) L E (w - 1)).
  { constructor; simpl in *; unfold sqs in *; try done.
    - by apply (ring_pop _ _ _ _ e).
    - lia.
    - lia.
    - rewrite Z6. unfold incrStIdx, sqs. rewrite <- (pos_0 _ _ Hh) at 2. rewrite incrIdx_pos, pos_pos by done. f_equal. lia.
    - intros k x Hk Hkw. apply (Z7 (S k) x); [done|lia].
    - intros k x Hk Hd. pose proof (Z8 (S k) x Hk Hd). lia. }
  apply res_bind_Ok in Eh as (e1 & He1 & Eh). destruct (completed e1 && _) eqn:Ec.
  - apply andb_true_iff in Ec as [Hc1 Ht%negb_true_iff]. pose proof (z_sq _ _ _ _ H1) as Hr1. destruct E as [|e2 E].
    { exfalso. apply Z.eqb_neq in Ht. apply Ht. unfold sqs. rewrite (r_tail _ _ _ _ _ Hr1). simpl. rewrite pos_0; [done|]. apply (r_head _ _ _ _ _ Hr1). }
    assert (e2 = e1) as -> by (unfold entry, sqs in He1; pose proof (ring_vget _ _ _ _ _ 0%nat e2 Hr1 eq_refl) as Hg; rewrite pos_0 in Hg by (apply (r_head _ _ _ _ _ Hr1)); congruence).
    destruct (IH s1 s' L e1 E (w - 1)%nat H1 Hc1 Eh) as (n & Hnw & H' & Hf). exists (S n). split; [lia|]. split; [|done]. simpl. by replace (w - S n)%nat with (w - 1 - n)%nat by lia.
  - injection Eh as <-. exists 1%nat. split; [lia|]. by split.
Qed.
Lemma completeStore_shape s k s' L E w : Shape0 (unit_ s) L E w -> (k < w)%nat -> completeStore s (pos (SQEntries (sqs s)) (storeHead (sqs s)) k) = Ok s' ->
  exists E' w', Shape0 (unit_ s') L E' w' /\ flags (unit_ s') = flags (unit_ s) /\ (next_ok E w -> next_ok E' w').
Proof.
  intros H Hk Ec. pose proof H as [Z1 Z2 Z3 Z4 Z5 Z6 Z7 Z8]. destruct (lookup_lt_is_Some_2 E k) as [e He]; [lia|]. unfold completeStore in Ec. unfold sqs in Ec.
  set (i := pos (SQEntries (sq (unit_ s))) (storeHead (sq (unit_ s))) k) in Ec.
  apply res_bind_Ok in Ec as (e' & He' & Ec). apply res_bind_Ok in Ec as (id & _ & Ec). apply res_bind_Ok in Ec as (s1 & E1 & Ec). cbv zeta in Ec.
  apply res_bind_Ok in Ec as (s2 & E2 & Ec). apply res_bind_Ok in Ec as (s3 & E3%unstall_still & Ec). apply set_status_still in Ec.
  assert (Hs : still s2 s') by (by etrans). clear E3 Ec.
  assert (H1 : Shape0 (unit_ s1) L (<[k := set_completed e]> E) w /\ flags (unit_ s1) = flags (unit_ s) /\ storeHead (sqs s1) = storeHead (sqs s) /\ storeQueue (sqs s1) <> []).
  { unfold put_entry, entry, sqs in E1. apply res_bind_Ok in E1 as (e0 & He0 & E1). unfold i in He0. rewrite (ring_vget _ _ _ _ _ _ _ Z3 He) in He0. injection He0 as <-.
    apply res_bind_Ok in E1 as (l & Hv & E1). injection E1 as <-. unfold vset in Hv. destruct (_ && _) in Hv; [|done]. injection Hv as <-. split_and!; try done.
    - constructor; simpl; rewrite ?length_insert; try done; [by eapply ring_update|..].
      + intros j x [(<- & <- & _)|[_ Hx]]%list_lookup_insert_Some Hj; [by apply (Z7 k e)|by eapply Z7].
      + intros j x [(<- & <- & _)|[_ Hx]]%list_lookup_insert_Some Hj; [done|by eapply Z8].
    - simpl. intros E0. apply (f_equal length) in E0. rewrite length_insert in E0. pose proof (r_len _ _ _ _ _ Z3). pose proof (r_n _ _ _ _ _ Z3). simpl in *. lia. }
  destruct H1 as (H1 & F1 & Hh1 & _). set (E1' := <[k := set_completed e]> E) in *.
  assert (Hnx : next_ok E w -> next_ok E1' w) by (intros (x & Hx & ?); exists x; unfold E1'; rewrite list_lookup_insert_ne by lia; done).
  set (s1' := emit _ _) in E2. assert (H1' : Shape0 (unit_ s1') L E1' w) by (destruct H1; by constructor).
  assert (F1' : flags (unit_ s1') = flags (unit_ s)) by done.
  assert (H2 : exists E' w', Shape0 (unit_ s2) L E' w' /\ flags (unit_ s2) = flags (unit_ s) /\ (next_ok E w -> next_ok E' w')).
  { match type of E2 with (if ?b then _ else _) = _ => destruct b eqn:Ei end; [apply Z.eqb_eq in Ei|injection E2 as <-; exists E1', w; auto].
    assert (Ei' : i = storeHead (sqs s)) by (rewrite <- Hh1; exact Ei). clear Ei. rename Ei' into Ei. unfold i, sqs in Ei.
    pose proof (r_n _ _ _ _ _ Z3) as Hn. pose proof (r_head _ _ _ _ _ Z3) as Hh. pose proof (r_free _ _ _ _ _ Z3) as Hf.
    assert (k = 0%nat) as -> by (rewrite <- (pos_0 _ _ Hh) in Ei at 2; apply pos_inj in Ei; lia || done).
    destruct E as [|e0 E]; [done|]. injection He as ->. apply res_bind_Ok in E2 as (s4 & E4 & E2). injection E2 as <-.
    destruct (head_loop_shape _ s1' s4 L (set_completed e) E w H1' eq_refl E4) as (n & Hnw & H4 & F4). eexists _, _. split; [destruct H4; by constructor|]. split; [by rewrite <- F1'|].
    intros (x & Hx & ?)%Hnx. exists x. rewrite lookup_drop. replace (n + (w - n))%nat with w by lia. done. }
  destruct H2 as (E' & w' & H2 & F2 & N2). exists E', w'. split; [by eapply Shape0_still|]. split; [|done]. destruct Hs as (_ & _ & ->). done.
Qed.
Lemma Shape0_next s L E w : Shape0 (unit_ s) L E w -> next_ok E w -> Shape0 (unit_ (set_storeWBIdx s (incrStIdx s (storeWBIdx (sqs s))))) L E (S w).
Proof.
  intros [Z1 Z2 Z3 Z4 Z5 Z6 Z7 Z8] (e & He & Hc). constructor; simpl; try done; unfold sqs in *.
  - by eapply lookup_lt_Some.
  - unfold incrStIdx, sqs. rewrite Z6. apply incrIdx_pos, (r_n _ _ _ _ _ Z3).
  - intros k x Hx Hk. destruct (decide (k = w)) as [->|]; [congruence|]. apply (Z7 k); [done|lia].
  - intros k x Hx Hd. pose proof (Z8 k x Hx Hd). lia.
Qed.
Lemma head_loop_size fuel : forall s s', head_loop fuel s = Ok s' -> SQEntries (sqs s') = SQEntries (sqs s).
Proof.
  induction fuel as [|fuel IH]; intros s s' Eh; [done|]. cbn [head_loop] in Eh. cbv zeta in Eh. apply res_bind_Ok in Eh as (? & _ & Eh). destruct (_ && _); [by apply IH in Eh|by injection Eh as <-].
Qed.
Lemma completeStore_size s i s' : completeStore s i = Ok s' -> SQEntries (sqs s') = SQEntries (sqs s).
Proof.
  intros Ec. unfold completeStore in Ec. do 2 apply res_bind_Ok in Ec as (? & _ & Ec). apply res_bind_Ok in Ec as (s1 & E1 & Ec). cbv zeta in Ec.
  apply res_bind_Ok in Ec as (s2 & E2 & Ec). apply res_bind_Ok in Ec as (s3 & (_ & E3 & _)%unstall_still & Ec). apply set_status_still in Ec as (_ & -> & _). rewrite E3.
  transitivity (SQEntries (sqs s1)); [|unfold put_entry in E1; do 2 apply res_bind_Ok in E1 as (? & _ & E1); by injection E1 as <-].
  destruct (_ =? _); [|by injection E2 as <-]. apply res_bind_Ok in E2 as (s4 & E4%head_loop_size & E2). by injection E2 as <-.
Qed.
(** The store at [storeWBIdx] is done without being sent. *)
Lemma complete_next s s' L E w : Shape0 (unit_ s) L E w -> next_ok E w -> completeStore s (storeWBIdx (sqs s)) = Ok s' ->
  exists E' w', Shape0 (unit_ (set_storeWBIdx s' (incrStIdx s' (storeWBIdx (sqs s))))) L E' w' /\ flags (unit_ s') = flags (unit_ s).
Proof.
  intros H Hx Ec. pose proof (Shape0_next s L E w H Hx) as H1. set (n := incrStIdx s (storeWBIdx (sqs s))) in *.
  assert (Ec' : completeStore (set_storeWBIdx s n) (pos (SQEntries (sqs (set_storeWBIdx s n))) (storeHead (sqs (set_storeWBIdx s n))) w) = Ok (set_storeWBIdx s' n)).
  { rewrite completeStore_wb. change (pos _ _ w) with (pos (SQEntries (sq (unit_ s))) (storeHead (sq (unit_ s))) w). rewrite <- (z_wb _ _ _ _ H). unfold sqs in Ec. by rewrite Ec. }
  destruct (completeStore_shape _ w _ L E (S w) H1 ltac:(lia) Ec') as (E' & w' & H' & Hf & _). exists E', w'. split; [|done].
  unfold incrStIdx. rewrite (completeStore_size _ _ _ Ec). exact H'.
Qed.
Lemma storePostSend_shape s s' L E w : Shape0 (unit_ s) L E w -> next_ok E w -> storePostSend s = Ok s' -> Shape0 (unit_ s') L E (S w) /\ flags (unit_ s') = flags (unit_ s).
Proof.
  intros H Hx Es. unfold storePostSend in Es. cbv zeta in Es. apply res_bind_Ok in Es as (s1 & E1%unstall_still & Es). do 2 apply res_bind_Ok in Es as (? & _ & Es).
  apply res_bind_Ok in Es as (s2 & E2 & Es). injection Es as <-. assert (Hs : still s s2) by (etrans; [exact E1|]; destruct (isStoreConditional _); [by injection E2 as <-|by eapply set_status_still]).
  pose proof (Shape0_still _ _ _ _ _ H Hs) as H2. destruct Hs as (_ & <- & <-). split; [|done]. by apply Shape0_next.
Qed.

(** ** Sending *)
Lemma Shape_free env u L E w : Shape0 u L E w -> flags u = (false, false) -> Shape env u L E w.
Proof. intros H Hf. unfold flags in Hf. injection Hf as F1 F2. constructor; [done|unfold under_way; by rewrite F1, F2|by rewrite F2]. Qed.
Lemma sendStore_sent env s pkt ok s' : sendStore env s pkt = Ok (ok, s') -> lqs s' = lqs s /\ sqs s' = sqs s /\
  flags (unit_ s') = (if ok then isStoreBlocked (blocked (unit_ s)) else true, hasPendingPkt (ports (unit_ s))) /\ usedPorts (ports (unit_ s')) = usedPorts (ports (unit_ s)).
Proof.
  unfold sendStore, send. cbv beta iota zeta. intros Es. destruct (sendTiming _ _ _); [injection Es as <- <-; done|]. apply res_bind_Ok in Es as (_ & _ & Es). injection Es as <- <-. done.
Qed.
(** The packet is offered, and the store is over if it is taken: the counters go on, and
    nothing is left under way unless the cache has refused. *)
Lemma send_shaped env s pkt ok s1 s2 L E w : Shape0 (unit_ s) L E w -> next_ok E w -> flags (unit_ s) = (false, false) -> sendStore env s pkt = Ok (ok, s1) ->
  (if ok then storePostSend s1 else Ok s1) = Ok s2 -> exists w', Shape env (unit_ s2) L E w' /\ hasPendingPkt (ports (unit_ s2)) = false.
Proof.
  intros H Hx Hf E1%sendStore_sent E2. destruct E1 as (A1 & A2 & A3 & _). unfold flags in Hf, A3. injection Hf as F1 F2. rewrite F1, F2 in A3. injection A3 as A3 A4.
  assert (H1 : Shape0 (unit_ s1) L E w) by (by eapply Shape0_ext). destruct ok.
  - destruct (storePostSend_shape s1 s2 L E w H1 Hx E2) as [H2 Hf2]. unfold flags in Hf2. injection Hf2 as G1 G2. exists (S w). split; [|congruence]. apply Shape_free; [done|]. unfold flags. congruence.
  - injection E2 as <-. exists w. split; [|done]. constructor; [done|by intros _|by rewrite A4].
Qed.
Lemma writebackPendingStore_shaped env s s' : shaped env (unit_ s) -> writebackPendingStore env s = Ok s' -> shaped env (unit_ s') /\ hasPendingPkt (ports (unit_ s')) = false.
Proof.
  intros (L & E & w & [H Hn Hp]) Ew. unfold writebackPendingStore in Ew. cbv zeta in Ew. destruct (hasPendingPkt (ports (unit_ s))) eqn:Ep; [|injection Ew as <-; split; [|done]; exists L, E, w; constructor; [done|done|congruence]].
  destruct (Hp eq_refl) as [Hb _]. apply res_bind_Ok in Ew as (p & _ & Ew). apply res_bind_Ok in Ew as ([ok s1] & E1 & Ew). apply res_bind_Ok in Ew as (s2 & E2 & Ew). injection Ew as <-. simpl in E2.
  assert (Hx : next_ok E w) by (apply Hn; unfold under_way; by rewrite Ep, orb_true_r). apply sendStore_sent in E1 as (A1 & A2 & A3 & _). unfold flags in A3. injection A3 as A3 A4.
  assert (H1 : Shape0 (unit_ s1) L E w) by (by eapply Shape0_ext). split; [|done]. destruct ok.
  - destruct (storePostSend_shape s1 s2 L E w H1 Hx E2) as [H2 Hf2]. unfold flags in Hf2. injection Hf2 as G1 G2. exists L, E, (S w). apply Shape_free; [by eapply Shape0_ext|]. unfold flags. simpl. by rewrite G1, A3, Hb.
  - injection E2 as <-. exists L, E, w. constructor; [by eapply Shape0_ext|by intros _|done].
Qed.

(** What holds inside the loop of [writebackStores]: half a store waits only when the ports
    are used up. *)
Definition loop_ok (env : Env) (u : Unit_) : Prop := shaped env u /\ (hasPendingPkt (ports u) = true -> cachePorts (ports u) <= usedPorts (ports u)).
Lemma loop_free env u L E w : Shape0 u L E w -> flags u = (false, false) -> loop_ok env u.
Proof. intros H Hf. split; [exists L, E, w; by apply Shape_free|]. unfold flags in Hf. injection Hf as _ ->. done. Qed.
Lemma store_packets_still env s e id p rq x s' : store_packets env s e id p rq = Ok (x, s') -> still s s' /\ ports (unit_ s') = ports (unit_ s).
Proof. unfold store_packets. cbv zeta. intros Es. destruct (_ || _); [by injection Es as _ <-|]. do 4 apply res_bind_Ok in Es as (? & _ & Es). by injection Es as _ <-. Qed.
Lemma writeback_store_loop env s e id rq s' L E w : Shape0 (unit_ s) L E w -> next_ok E w -> flags (unit_ s) = (false, false) ->
  writeback_store env s e id rq = Ok s' -> loop_ok env (unit_ s').
Proof.
  intros H Hx Hf Ew. unfold writeback_store in Ew. cbv zeta in Ew. apply res_bind_Ok in Ew as (s1 & E1 & Ew).
  destruct (put_entry_shape s _ set_committed s1 L E w H E1) as (E' & H1 & Hm & Hf1 & Hwb); [done..|]. rewrite Hf in Hf1. apply (moved_next _ _ _ Hm) in Hx. clear H E1 Hf Hm.
  do 4 apply res_bind_Ok in Ew as (? & _ & Ew). apply res_bind_Ok in Ew as (s2 & E2%upd_still & Ew). unfold alloc_state in Ew. cbv beta iota zeta in Ew.
  apply res_bind_Ok in Ew as ([[[pk pk2] rq'] s3] & [E3 _]%store_packets_still & Ew). apply res_bind_Ok in Ew as ([ok s4] & E4 & Ew).
  assert (Hs : still s1 s4). { etrans; [exact E2|]. transitivity s3; [etrans; [|exact E3]; done|]. destruct (isStoreConditional _); still_step; done. }
  pose proof (Shape0_still _ _ _ _ _ H1 Hs) as H4. destruct Hs as (A1 & A2 & A3). rewrite Hf1 in A3. rewrite <- Hwb, <- A2 in Ew. clear H1 Hf1 E2 E3 E4 A1 A2. destruct (negb ok).
  - apply res_bind_Ok in Ew as (s5 & E5 & Ew). injection Ew as <-.
    destruct (complete_next (emit s4 (EWriteback id pk 1)) s5 L E' w) as (E2 & w2 & H5 & F5); [by destruct H4; constructor|done|exact E5|]. apply (loop_free _ _ L E2 w2); [exact H5|]. unfold flags in *. simpl in *. congruence.
  - apply res_bind_Ok in Ew as ([ok1 s5] & E5 & Ew). destruct (negb ok1) eqn:En.
    + assert (exists w', Shape env (unit_ s5) L E' w' /\ hasPendingPkt (ports (unit_ s5)) = false) as (w' & H5 & Hp5)
        by (apply negb_true_iff in En as ->; by apply (send_shaped env s4 pk false s5 s5 L E' w)).
      assert (Hs : still s5 s') by (match type of Ew with (if ?b then _ else _) = _ => destruct b end; [apply res_bind_Ok in Ew as (? & _ & Ew)|]; by injection Ew as <-).
      destruct (Hs) as (_ & _ & Hf). unfold flags in Hf. injection Hf as _ Hf. split; [exists L, E', w'; by eapply Shape_still|congruence].
    + apply negb_false_iff in En as ->. destruct (sendStore_sent _ _ _ _ _ E5) as (B1 & B2 & B3 & _). unfold flags in A3. injection A3 as A3 A4. rewrite A3, A4 in B3.
      assert (H5 : Shape0 (unit_ s5) L E' w) by (by eapply Shape0_ext). destruct (HasUnalignedMemAcc env && _) eqn:Eh.
      * apply andb_true_iff in Eh as [Eh _]. apply res_bind_Ok in Ew as (p2 & _ & Ew). destruct (Z.ltb_spec (usedPorts (ports (unit_ s5))) (cachePorts (ports (unit_ s5)))) as [Hlt|Hge].
        -- apply res_bind_Ok in Ew as ([ok2 s6] & E6 & Ew). simpl in Ew. destruct (send_shaped env (set_usedPorts s5 (usedPorts (ports (unit_ s5)) + 1)) p2 ok2 s6 s' L E' w) as (w' & H6 & Hp6); try done.
           { by destruct H5; constructor. } split; [by exists L, E', w'|congruence].
        -- apply res_bind_Ok in Ew as (_ & _ & Ew). injection Ew as <-. split; [|done]. exists L, E', w. unfold flags in B3. injection B3 as B3 B4.
           constructor; [by destruct H5; constructor|by intros _|by intros _].
      * destruct (storePostSend_shape s5 s' L E' w H5 Hx Ew) as [H6 Hf6]. apply (loop_free _ _ L E' (S w)); [done|congruence].
Qed.
Lemma writeback_loop_shaped env fuel : forall s s', loop_ok env (unit_ s) -> writeback_loop fuel env s = Ok s' -> loop_ok env (unit_ s').
Proof.
  induction fuel as [|fuel IH]; intros s s' H Ew; [done|]. cbn [writeback_loop] in Ew. cbv zeta in Ew. destruct (negb (_ && negb _)) eqn:Et; [by injection Ew as <-|].
  apply negb_false_iff, andb_true_iff in Et as [_ Et%negb_true_iff]. apply res_bind_Ok in Ew as (e & He & Ew). destruct (inst e) as [id|]; [|by injection Ew as <-].
  destruct (negb (canWB e && _)) eqn:Ec; [by injection Ew as <-|]. apply negb_false_iff, andb_true_iff in Ec as [Hc Hu%Z.ltb_lt].
  destruct (_ || _) eqn:Eb; [by injection Ew as <-|]. apply orb_false_iff in Eb as [Hb _]. destruct H as [(L & E & w & [H Hn Hp]) Hpd].
  assert (Hf : flags (unit_ s) = (false, false)) by (unfold flags; rewrite Hb; f_equal; destruct (hasPendingPkt (ports (unit_ s))); [specialize (Hpd eq_refl); lia|done]).
  assert (Hx : next_ok E w).
  { pose proof H as [Z1 Z2 Z3 Z4 Z5 Z6 Z7 Z8]. unfold sqs in *. rewrite Z6, (ring_tail_eq _ _ _ _ _ _ Z3 Z5) in Et. apply bool_decide_eq_false in Et.
    destruct (lookup_lt_is_Some_2 E w) as [x Hx]; [lia|]. exists x. split; [done|]. unfold entry, sqs in He. rewrite Z6, (ring_vget _ _ _ _ _ _ _ Z3 Hx) in He. congruence. }
  destruct (size e =? 0).
  - apply res_bind_Ok in Ew as (s1 & E1 & Ew). destruct (complete_next s s1 L E w H Hx E1) as (E2 & w2 & H2 & F2). eapply IH; [|exact Ew]. apply (loop_free _ _ L E2 w2); [done|]. by rewrite <- Hf, <- F2.
  - apply res_bind_Ok in Ew as (i & _ & Ew). destruct (isDataPrefetch i).
    + eapply IH; [|exact Ew]. apply (loop_free _ _ L E (S w)); [|done]. apply (Shape0_next (set_usedPorts s _) L E w); [by destruct H; constructor|done].
    + do 3 apply res_bind_Ok in Ew as (? & _ & Ew). apply res_bind_Ok in Ew as (s1 & E1 & Ew). eapply IH; [|exact Ew].
      eapply (writeback_store_loop env (set_usedPorts s (usedPorts (ports (unit_ s)) + 1)) e id _ s1 L E w); [|done|done|exact E1]. by destruct H; constructor.
Qed.
Lemma writebackStores_shaped env s s' : shaped env (unit_ s) -> writebackStores env s = Ok s' -> shaped env (unit_ s').
Proof.
  intros H Ew. unfold writebackStores in Ew. apply res_bind_Ok in Ew as (s1 & E1 & Ew). apply res_bind_Ok in Ew as (s2 & E2 & Ew). cbv zeta in Ew. apply res_bind_Ok in Ew as (_ & _ & Ew). injection Ew as <-.
  assert (H1 : loop_ok env (unit_ s1)).
  { destruct (HasUnalignedMemAcc env) eqn:Eh.
    - destruct (writebackPendingStore_shaped env s s1 H E1) as [? Hp]. split; [done|congruence].
    - injection E1 as <-. split; [done|]. intros Hp. destruct H as (L & E & w & [_ _ Hq]). destruct (Hq Hp). congruence. }
  destruct (writeback_loop_shaped _ _ _ _ H1 E2) as [H2 _]. by eapply shaped_still.
Qed.
Lemma recvRetry_shaped env s s' : shaped env (unit_ s) -> recvRetry env s = Ok s' -> shaped env (unit_ s').
Proof.
  intros Hsh Er. unfold recvRetry, send in Er. cbv beta iota zeta in Er. destruct (isStoreBlocked (blocked (unit_ s))) eqn:Eb; [|by injection Er as <-]. destruct Hsh as (L & E & w & [H Hn Hp]).
  assert (Hx : next_ok E w) by (apply Hn; unfold under_way; by rewrite Eb). assert (Hpd : hasPendingPkt (ports (unit_ s)) = false) by (destruct (hasPendingPkt _); [destruct (Hp eq_refl); congruence|done]).
  apply res_bind_Ok in Er as (pkt & _ & Er). set (s0 := emit s _) in Er. assert (H0 : Shape0 (unit_ s0) L E w) by (by destruct H; constructor).
  destruct (sendTiming _ _ _); [|injection Er as <-; exists L, E, w; constructor; [by destruct H; constructor|by intros _|simpl; by rewrite Hpd]].
  do 2 apply res_bind_Ok in Er as (? & _ & Er). destruct (HasUnalignedMemAcc env && _).
  - apply res_bind_Ok in Er as (s1 & E1 & Er). injection E1 as <-. apply res_bind_Ok in Er as (pp & _ & Er). apply res_bind_Ok in Er as ([ok s2] & E2 & Er). simpl in Er.
    destruct (send_shaped env (set_retryTid (set_blocked s0 (mkBlocked None false (isLoadBlocked (blocked (unit_ s0))) (loadBlockedHandled (blocked (unit_ s0))) (blockedLoadSeqNum (blocked (unit_ s0))))) (-1)) pp ok s2 s' L E w)
      as (w' & H2 & _); [by destruct H0; constructor|done|unfold flags; simpl; by rewrite Hpd|exact E2|exact Er|]. by exists L, E, w'.
  - apply res_bind_Ok in Er as (s1 & E1 & Er). injection Er as <-. destruct (storePostSend_shape s0 s1 L E w H0 Hx E1) as [H1 F1]. unfold flags in F1. injection F1 as _ F1.
    exists L, E, (S w). apply Shape_free; [by destruct H1; constructor|]. unfold flags. simpl. rewrite F1. simpl. by rewrite Hpd.
Qed.

(** The store at index [i] has been sent and is still in the queue. *)
Definition sent_index (u : t) (i : Z) : bool := existsb (fun k => i =? storePos u k) (List.seq 0 (sent_of u)).
Lemma Shape0_contents s L E w : Shape0 (unit_ s) L E w -> loads_of s = L /\ entries_of s = E /\ sent_of s = w.
Proof.
  intros [Z1 Z2 Z3 Z4 Z5 Z6 _ _]. unfold loads_of, entries_of, sent_of, lqs, sqs. rewrite Z2, Z4, Z6, !Nat2Z.id.
  pose proof (ring_list_ok _ _ _ _ _ Z1) as Hl. rewrite length_fmap in Hl. rewrite Hl, (ring_list_ok _ _ _ _ _ Z3). split_and!; [|done|].
  - clear. induction L as [|x L IH]; [done|]. simpl. f_equal. exact IH.
  - destruct Z3 as [_ ? ? Hf _ _]. unfold pos. rewrite Zminus_mod_idemp_l. replace (storeHead (sq (unit_ s)) + Z.of_nat w - storeHead (sq (unit_ s))) with (Z.of_nat w) by lia.
    rewrite Z.mod_small by lia. lia.
Qed.
Lemma completeDataAccess_shaped env s pkt s' : shaped env (unit_ s) -> (forall p x i, senderState pkt = Some p -> states (world s) !! p = Some x -> insts (world s) !! ss_inst x = Some i ->
    isStore i = true -> sent_index s (ss_idx x) = true) -> completeDataAccess env s pkt = Ok s' -> shaped env (unit_ s').
Proof.
  intros Hsh Hl Ec. unfold completeDataAccess in Ec. apply res_bind_Ok in Ec as (p & Hp%deref_Ok & Ec). apply res_bind_Ok in Ec as (x & Hx%deref_Ok & Ec).
  cbv zeta in Ec. apply res_bind_Ok in Ec as (i & Hi%deref_Ok & Ec). apply res_bind_Ok in Ec as (_ & _ & Ec). specialize (Hl p x i Hp Hx Hi).
  destruct (if HasUnalignedMemAcc env then _ else _) as [fin s1] eqn:E1. assert (H1 : still s s1) by (destruct (HasUnalignedMemAcc env); by injection E1 as _ <-).
  destruct (negb fin); [injection Ec as <-; by eapply shaped_still|]. apply res_bind_Ok in Ec as (s2 & E2 & Ec). injection Ec as <-. apply (shaped_still env s2); [|done].
  destruct (_ || _); [injection E2 as <-; eapply shaped_still; [exact Hsh|]; by etrans|]. apply res_bind_Ok in E2 as (s3 & E3 & E2).
  assert (H3 : still s s3). { etrans; [exact H1|]. destruct (noWB x); [by injection E3 as <-|]. destruct (_ && _); [apply res_bind_Ok in E3 as (? & _ & E3)|]; by eapply writeback_still. }
  destruct (isStore i); [|injection E2 as <-; by eapply shaped_still]. destruct Hsh as (L & E & w & Hsh). pose proof (Shape_still _ _ _ _ _ _ Hsh H3) as H4.
  specialize (Hl eq_refl). apply existsb_exists in Hl as (k & Hk%List.in_seq & Ek%Z.eqb_eq). destruct (Shape0_contents _ _ _ _ (z_shape _ _ _ _ _ Hsh)) as (_ & _ & Hw). rewrite Hw in Hk.
  unfold storePos in Ek. destruct H3 as (_ & A2 & _). rewrite <- A2 in Ek. rewrite Ek in E2. destruct H4 as [H4 Hn4 Hp4].
  destruct (completeStore_shape s3 k s2 L E w H4 ltac:(lia) E2) as (E' & w' & H5 & F5 & N5). unfold flags in F5. injection F5 as F5 F6. exists L, E', w'.
  constructor; [done|unfold under_way; rewrite F5, F6; auto|by rewrite F5, F6].
Qed.
Lemma process_writeback_still s id pkt s' : process_writeback s id pkt = Ok s' -> still s s'.
Proof.
  unfold process_writeback. intros Ep. apply res_bind_Ok in Ep as (s1 & E1 & Ep). injection Ep as <-. transitivity s1; [destruct (switchedOut _); [by injection E1 as <-|by eapply writeback_still]|].
  by destruct (senderState pkt).
Qed.

(** ** Runs of the queues of all the threads *)
Lemma init_shaped env split lo hi isn idx pend w cp nl ns lid : 0 <= nl < 2 ^ 15 -> 0 <= ns < 2 ^ 15 -> shaped env (unit_ (init split lo hi isn idx pend w cp nl ns lid)).
Proof.
  intros Hnl Hns. exists [], [], 0%nat. apply Shape_free; [|done]. constructor; simpl; try done.
  - rewrite uint_small by lia. constructor; rewrite ?length_replicate; simpl; try lia; [unfold pos; rewrite Z.mod_small; lia|done].
  - rewrite uint_small by lia. constructor; rewrite ?length_replicate; simpl; try lia; [unfold pos; rewrite Z.mod_small; lia|done].
Qed.

(** The dispatch stage gives the instruction [i], of thread [tid], to the queue. *)
Definition dispatch (s : LSQ.t) (id : Z) (i : Inst) : res LSQ.t :=
  let s := LSQ.set_world s (w_insts (LSQ.world s) (<[id := i]> (insts (LSQ.world s)))) in
  if isLoad i then LSQ.insertLoad s id else LSQ.insertStore s id.

(** What the pipeline and the cache do to the queues of the threads, in any order; the
    other stages may make of the instructions what they like. *)
Inductive LsqOp :=
| Dispatch (id : Z) (i : Inst)
| ExecLoad (id : Z) (a : Access) | ExecStore (id : Z) (a : Access)
| CommitLoadsOf (n tid : Z) | CommitStoresOf (n tid : Z) | SquashOf (n tid : Z)
| WriteBack | Response (pkt : Pkt) | RetryPort | WritebackEvent (tid id : Z) (pkt : Pkt)
| TickAll | BlockedHandled (tid : Z) | Violator (tid : Z)
| SetActive (l : list Z) | SetInsts (m : gmap Z Inst).
Definition lsq_step (env : Env) (s : LSQ.t) (op : LsqOp) : res LSQ.t :=
  match op with
  | Dispatch id i => dispatch s id i
  | ExecLoad id a => snd <$> LSQ.executeLoad env s id a
  | ExecStore id a => snd <$> LSQ.executeStore env s id a
  | CommitLoadsOf n tid => LSQ.commitLoads s n tid
  | CommitStoresOf n tid => LSQ.commitStores s n tid
  | SquashOf n tid => LSQ.squash env s n tid
  | WriteBack => LSQ.writebackStores env s
  | Response pkt => snd <$> LSQ.recvTiming env s pkt
  | RetryPort => LSQ.recvRetry env s
  | WritebackEvent tid id pkt => LSQ.call_ s tid (fun u => process_writeback u id pkt)
  | TickAll => LSQ.tick s
  | BlockedHandled tid => LSQ.setLoadBlockedHandled s tid
  | Violator tid => snd <$> LSQ.getMemDepViolator s tid
  | SetActive l => Ok (LSQ.setActiveThreads s l)
  | SetInsts m => Ok (LSQ.set_world s (w_insts (LSQ.world s) m))
  end.
Fixpoint lsq_run (env : Env) (s : LSQ.t) (ops : list LsqOp) : res LSQ.t := match ops with [] => Ok s | op :: ops => s ← lsq_step env s op; lsq_run env s ops end.
(** The cache answers a store that has been sent and is still in the queue of its thread. *)
Definition answers (s : LSQ.t) (pkt : Pkt) : bool :=
  match Request.threadId (preq pkt), senderState pkt with
  | Ok tid, Some p =>
      match LSQ.unit_at s tid, states (LSQ.world s) !! p with
      | Ok u, Some x => match insts (LSQ.world s) !! ss_inst x with Some i => negb (isStore i) || sent_index u (ss_idx x) | None => true end
      | _, _ => true
      end
  | _, _ => true
  end.
Fixpoint lsq_legal (env : Env) (s : LSQ.t) (ops : list LsqOp) : bool :=
  match ops with
  | [] => true
  | op :: ops => (match op with Response pkt => answers s pkt | _ => true end) && match lsq_step env s op with Ok s' => lsq_legal env s' ops | Er _ => true end
  end.

Section shared.
Context (env : Env).
Notation all_shaped s := (Forall (shaped env) (LSQ.thread s)).

Lemma lsq_call_shaped {A} s tid (f : t -> res (A * t)) a s' : all_shaped s -> LSQ.call s tid f = Ok (a, s') ->
  (forall u a u', LSQ.unit_at s tid = Ok u -> shaped env (unit_ u) -> f u = Ok (a, u') -> shaped env (unit_ u')) -> all_shaped s'.
Proof.
  intros H Ec Hf. unfold LSQ.call in Ec. apply res_bind_Ok in Ec as (u & Hu & Ec). apply res_bind_Ok in Ec as ([b u'] & Hr & Ec). apply res_bind_Ok in Ec as (l & Hv & Ec). injection Ec as _ <-.
  unfold vset in Hv. destruct (_ && _) in Hv; [|done]. injection Hv as <-. apply Forall_insert; [done|]. simpl. eapply Hf; [exact Hu| |exact Hr].
  destruct (unit_at_inv _ _ _ Hu) as (_ & Hl & _). by eapply Forall_lookup_1.
Qed.
Lemma lsq_call__shaped s tid f s' : all_shaped s -> LSQ.call_ s tid f = Ok s' ->
  (forall u u', LSQ.unit_at s tid = Ok u -> shaped env (unit_ u) -> f u = Ok u' -> shaped env (unit_ u')) -> all_shaped s'.
Proof.
  intros H Ec Hf. unfold LSQ.call_ in Ec. apply res_fmap_Ok in Ec as ([a s1] & Ec & ->). eapply lsq_call_shaped; [exact H|exact Ec|].
  intros u b u' Hu Hs Hr. apply res_bind_Ok in Hr as (u1 & Hr & E1). injection E1 as _ <-. by eapply Hf.
Qed.
Lemma for_threads_shaped f l : (forall s tid s', all_shaped s -> f s tid = Ok s' -> all_shaped s') -> forall s s', all_shaped s -> LSQ.for_threads f s l = Ok s' -> all_shaped s'.
Proof.
  intros Hf. induction l as [|tid l IH]; intros s s' H E; cbn [LSQ.for_threads] in E; [by injection E as <-|]. apply res_bind_Ok in E as (s1 & E1 & E). eapply IH; [|exact E]. by eapply Hf.
Qed.
Lemma insert_shaped u id u' : shaped env (unit_ u) -> insertLoad u id = Ok u' \/ insertStore u id = Ok u' -> shaped env (unit_ u').
Proof. intros (L & E & w & H) [Hr|Hr]; [exists (L ++ [id]), E, w; by eapply insertLoad_shape|exists L, (E ++ [new_entry id]), w; by eapply insertStore_shape]. Qed.
Lemma dispatch_shaped s id i s' : all_shaped s -> dispatch s id i = Ok s' -> all_shaped s'.
Proof.
  intros H E. unfold dispatch, LSQ.insertLoad, LSQ.insertStore in E. cbv zeta in E. destruct (isLoad i); apply res_bind_Ok in E as (tid & _ & E);
    (refine (lsq_call__shaped _ tid _ s' _ E _); [exact H|intros u u' _ Hs Hr; eapply insert_shaped; eauto]).
Qed.
Lemma lsq_step_shaped s op s' : all_shaped s -> (match op with Response pkt => answers s pkt | _ => true end) = true -> lsq_step env s op = Ok s' -> all_shaped s'.
Proof.
  intros H Hl E. destruct op as [id i|id a|id a|n tid|n tid|n tid| |pkt| |tid id pkt| |tid|tid|l|m]; cbn [lsq_step] in E.
  - by eapply dispatch_shaped.
  - apply res_fmap_Ok in E as ([f s1] & E & ->). unfold LSQ.executeLoad in E. apply res_bind_Ok in E as (tid & _ & E). eapply lsq_call_shaped; [exact H|exact E|]. intros u b u' _ Hs Hr. exact (executeLoad_shaped env u id a b u' Hs Hr).
  - apply res_fmap_Ok in E as ([f s1] & E & ->). unfold LSQ.executeStore in E. apply res_bind_Ok in E as (tid & _ & E). eapply lsq_call_shaped; [exact H|exact E|]. intros u b u' _ Hs Hr. exact (executeStore_shaped env u id a b u' Hs Hr).
  - eapply lsq_call__shaped; [exact H|exact E|]. intros u u' _ Hs Hr. exact (commitLoads_shaped env n u u' Hs Hr).
  - eapply lsq_call__shaped; [exact H|exact E|]. intros u u' _ Hs Hr. exact (commitStores_shaped env n u u' Hs Hr).
  - eapply lsq_call__shaped; [exact H|exact E|]. intros u u' _ Hs Hr. exact (squash_shaped env n u u' Hs Hr).
  - unfold LSQ.writebackStores in E. eapply for_threads_shaped; [|exact H|exact E]. intros s1 tid s2 H1 E1. eapply lsq_call__shaped; [exact H1|exact E1|]. intros u u' _ Hs Hr. exact (writebackStores_shaped env u u' Hs Hr).
  - apply res_fmap_Ok in E as ([b s1] & E & ->). unfold LSQ.recvTiming in E. apply res_bind_Ok in E as (s2 & E2 & E). injection E as _ <-. simpl. destruct (MemCmd.isResponse (cmd pkt)); [|by injection E2 as <-].
    apply res_bind_Ok in E2 as (tid & Ht & E2). eapply lsq_call__shaped; [exact H|exact E2|]. intros u u' Hu Hs Hr. eapply completeDataAccess_shaped; [exact Hs| |exact Hr].
    intros p x i Hp Hx Hi Hst. unfold answers in Hl. destruct (unit_at_inv _ _ _ Hu) as (_ & _ & Hw). rewrite Hw in Hx, Hi. by rewrite Ht, Hp, Hu, Hx, Hi, Hst in Hl.
  - unfold LSQ.recvRetry in E. cbv zeta in E. destruct (_ =? -1); [by injection E as <-|]. refine (lsq_call__shaped _ _ _ s' _ E _); [exact H|]. intros u u' _ Hs Hr. exact (recvRetry_shaped env u u' Hs Hr).
  - eapply lsq_call__shaped; [exact H|exact E|]. intros u u' _ Hs Hr. eapply shaped_still; [exact Hs|exact (process_writeback_still u id pkt u' Hr)].
  - unfold LSQ.tick in E. eapply for_threads_shaped; [|exact H|exact E]. intros s1 tid s2 H1 E1. eapply lsq_call__shaped; [exact H1|exact E1|].
    intros u u' _ Hs [= <-]. by eapply shaped_still.
  - eapply lsq_call__shaped; [exact H|exact E|]. intros u u' _ Hs [= <-]. by eapply shaped_still.
  - apply res_fmap_Ok in E as ([b s1] & E & ->). unfold LSQ.getMemDepViolator in E. eapply lsq_call_shaped; [exact H|exact E|]. intros u b' u' _ Hs [= _ <-]. by eapply shaped_still.
  - by injection E as <-.
  - by injection E as <-.
Qed.
Lemma lsq_run_shaped ops : forall s s', all_shaped s -> lsq_legal env s ops = true -> lsq_run env s ops = Ok s' -> all_shaped s'.
Proof.
  induction ops as [|op ops IH]; intros s s' H Hl E; cbn [lsq_run lsq_legal] in *; [by injection E as <-|]. apply andb_true_iff in Hl as [Hl Hr].
  apply res_bind_Ok in E as (s1 & E1 & E). rewrite E1 in Hr. eapply IH; [|exact Hr|exact E]. by eapply lsq_step_shaped.
Qed.
Lemma lsq_init_shaped split lo hi isn idx pend w policy nl ns threads threshold cp active s : 0 <= nl < 2 ^ 15 -> 0 <= ns < 2 ^ 15 -> 0 <= threshold < 2 ^ 15 ->
  LSQ.init split lo hi isn idx pend w policy nl ns threads threshold cp active = Ok s -> all_shaped s.
Proof.
  intros Hnl Hns Hth E. unfold LSQ.init in E. apply res_bind_Ok in E as (p & _ & E). apply res_bind_Ok in E as ([a b] & Er & E). injection E as <-. simpl.
  apply Forall_forall. intros x (k & -> & Hk%elem_of_seq)%list_elem_of_fmap.
  assert (Hab : 0 <= a < 2 ^ 15 /\ 0 <= b < 2 ^ 15); [|apply (init_shaped env split lo hi isn idx pend (mkWorld (insts w) (states w) (nextState w) (-1) (trace w)) cp a b); apply Hab].
  assert (Ht : 0 < threads) by lia. destruct p; cbn [LSQ.max_entries] in Er.
  - injection Er as <- <-. done.
  - unfold LSQ.udiv in Er. destruct (threads =? 0); [done|]. cbn [mbind res_bind] in Er. injection Er as <- <-.
    assert (Hd : forall z, 0 <= z < 2 ^ 15 -> 0 <= z / threads < 2 ^ 15) by (intros z Hz; split; [apply Z.div_pos; lia|]; pose proof (Z.div_le_upper_bound z threads z Ht ltac:(nia)); lia). auto.
  - do 2 apply res_bind_Ok in Er as (? & _ & Er). injection Er as <- <-. done.
Qed.
End shared.

(** ** Dispatch *)

(** Every policy but the dynamic one, or a single active thread. *)
Definition own_entries (s : LSQ.t) (tid : Z) : Prop := LSQ.lsqPolicy s <> LSQ.Dynamic \/ LSQ.activeThreads s = [tid].

Lemma isFull_own s tid u : own_entries s tid -> LSQ.unit_at s tid = Ok u -> LSQ.isFull_tid s tid = Ok (lqFull u || sqFull u).
Proof.
  intros Ho Hu. unfold LSQ.isFull_tid, LSQ.isFull, LSQ.unit_full, LSQ.ask. destruct Ho as [Hp| ->].
  - rewrite bool_decide_eq_false_2 by done. by rewrite Hu.
  - simpl. rewrite Hu. cbn [mbind res_bind]. case_bool_decide; [|done]. by destruct (lqFull u || sqFull u).
Qed.
(** A unit with room takes an instruction, whatever the other threads have there. *)
Lemma insert_room env u id i L E w : Shape env (unit_ u) L E w -> insts (world u) !! id = Some i -> lqFull u = false -> sqFull u = false ->
  exists u', (if isLoad i then insertLoad u id else insertStore u id) = Ok u'.
Proof.
  intros [[Z1 Z2 Z3 Z4 Z5 Z6 Z7 Z8] _ _] Hi Hlf Hsf. unfold lqFull, sqFull, lqs, sqs in *. rewrite Z2 in Hlf. rewrite Z4 in Hsf.
  destruct (not_full _ _ _ _ (length L) _ Z1 ltac:(by rewrite length_fmap) Hlf) as (_ & Hm & Hh & Hl). destruct (not_full _ _ _ _ (length E) _ Z3 eq_refl Hsf) as (_ & Hm' & Hh' & Hl').
  destruct (isLoad i); unfold insertLoad, insertStore, lqs, sqs, upd, get.
  - rewrite Hm. cbn [mbind res_bind]. rewrite Hh. cbn [negb c_assert mbind res_bind]. rewrite Z2, Hl. cbn [c_assert mbind res_bind]. rewrite Hi. cbn [deref mbind res_bind].
    rewrite vset_lt by (rewrite (r_tail _ _ _ _ _ Z1); by eapply ring_slot). cbn [mbind res_bind]. by eexists.
  - rewrite Hm'. cbn [mbind res_bind]. rewrite Hh'. cbn [negb c_assert mbind res_bind]. rewrite Z4, Hl'. cbn [c_assert mbind res_bind]. rewrite Hi. cbn [deref mbind res_bind].
    rewrite vset_lt by (rewrite (r_tail _ _ _ _ _ Z3); by eapply ring_slot). cbn [mbind res_bind]. by eexists.
Qed.

(** C33. The guard of the dispatch stage is enough: after whatever the threads and the cache
    have done to the queues, in any order, where [isFull(tid)] is false, the queue of the
    thread takes one more load or store, at its end, and the queues of the other threads
    stay as they are; the threads must not share their entries dynamically. *)
Theorem dispatch_guard_suffices env split lo hi isn idx pend w0 policy nl ns threads threshold cp active s0 ops s tid u id i :
  0 <= nl < 2 ^ 15 -> 0 <= ns < 2 ^ 15 -> 0 <= threshold < 2 ^ 15 ->
  LSQ.init split lo hi isn idx pend w0 policy nl ns threads threshold cp active = Ok s0 -> lsq_legal env s0 ops = true -> lsq_run env s0 ops = Ok s ->
  own_entries s tid -> LSQ.unit_at s tid = Ok u -> LSQ.isFull_tid s tid = Ok false -> DynInst.threadNumber (dyn i) = tid ->
  exists s' u', dispatch s id i = Ok s' /\ LSQ.unit_at s' tid = Ok u' /\
    loads_of u' = (if isLoad i then loads_of u ++ [id] else loads_of u) /\ entries_of u' = (if isLoad i then entries_of u else entries_of u ++ [new_entry id]) /\
    forall tid', tid' <> tid -> vget (LSQ.thread s') tid' = vget (LSQ.thread s) tid'.
Proof.
  intros Hnl Hns Hth H0 Hlg Hrun Ho Hu Hf Ht. rewrite (isFull_own s tid u Ho Hu) in Hf. injection Hf as Hf. apply orb_false_iff in Hf as [Hlf Hsf].
  destruct (unit_at_inv s tid u Hu) as (_ & Hl & Hw).
  assert (Hall : Forall (shaped env) (LSQ.thread s)) by (eapply lsq_run_shaped; [|exact Hlg|exact Hrun]; exact (lsq_init_shaped env _ _ _ _ _ _ _ _ _ _ _ _ _ _ _ Hnl Hns Hth H0)).
  destruct (Forall_lookup_1 _ _ _ _ Hall Hl) as (L & E & w & Hsh).
  set (s1 := LSQ.set_world s (w_insts (LSQ.world s) (<[id := i]> (insts (LSQ.world s))))).
  assert (Hu1 : LSQ.unit_at s1 tid = Ok (with_inst u id i)).
  { unfold LSQ.unit_at in *. simpl. destruct (vget (LSQ.thread s) tid) as [x|]; [|done]. injection Hu as <-. done. }
  assert (Htid : LSQ.tid_of s1 id = Ok tid) by (unfold LSQ.tid_of; simpl; by rewrite lookup_insert_eq; cbn [mbind res_bind deref]; rewrite Ht).
  assert (Hsh1 : Shape env (unit_ (with_inst u id i)) L E w) by (by eapply Shape_still).
  destruct (insert_room env (with_inst u id i) id i L E w Hsh1) as (u' & Hru); [apply lookup_insert_eq|done|done|].
  destruct (Shape0_contents _ _ _ _ (z_shape _ _ _ _ _ Hsh)) as (-> & -> & _).
  assert (Hu' : Shape env (unit_ u') (if isLoad i then L ++ [id] else L) (if isLoad i then E else E ++ [new_entry id]) w)
    by (destruct (isLoad i); [by eapply insertLoad_shape|by eapply insertStore_shape]).
  destruct (Shape0_contents _ _ _ _ (z_shape _ _ _ _ _ Hu')) as (HL & HE & _).
  unfold dispatch. fold s1. unfold LSQ.insertLoad, LSQ.insertStore. rewrite Htid. cbn [mbind res_bind].
  destruct (call_ok s1 tid _ (fun u => u ← (if isLoad i then insertLoad u id else insertStore u id); Ok ((), u)) () u' Hu1) as (s' & Hc & Hu2 & _ & _ & Hoth); [by rewrite Hru|].
  exists s', u'. split_and!; try done. destruct (isLoad i); unfold LSQ.call_; by rewrite Hc.
Qed.

(** ** Two threads *)
Definition world0 : World := mkWorld ∅ ∅ 0 (-1) [].
Definition lsq_of (r : res LSQ.t) : LSQ.t := match r with Ok s => s | Er _ => LSQ.mk LSQ.Dynamic [] [] 0 0 0 0 0 false world0 end.
Definition two_threads (policy : string) (lq sq : Z) (active : list Z) : LSQ.t := lsq_of (LSQ.init false None None 0 0 None world0 policy lq sq 2 0 4 active).
Definition inst_of (tid n : Z) (load : bool) : Inst := set_dyn (fun d => DynInst.mk (DynInst.seqNum d) tid (DynInst.status d)) (mem_inst n load false).
(** The instructions are dispatched in turn. *)
Definition dispatch_all (s : LSQ.t) (l : list (Z * Inst)) : res LSQ.t := foldl (fun r x => s ← r; dispatch s x.1 x.2) (Ok s) l.

(** The witness of the guard: two threads of a partitioned queue, both with instructions in
    flight; the second one has sent a store. *)
Definition lsq0 : LSQ.t := Eval vm_compute in two_threads "Partitioned" 16 16 [0; 1].
Definition lsq_ops : list LsqOp :=
  [Dispatch 1 (inst_of 0 1 true); Dispatch 2 (inst_of 1 2 false); Dispatch 3 (inst_of 0 3 false); Dispatch 4 (inst_of 1 4 true);
   ExecStore 2 (MemAccess 4096 4 0 0 0 0 [1; 2; 3; 4] None); ExecLoad 1 (MemAccess 8192 4 0 0 0 0 [] None); CommitStoresOf 2 1; WriteBack; TickAll; Dispatch 5 (inst_of 0 5 true)].
Definition lsq_busy : LSQ.t := Eval vm_compute in lsq_of (lsq_run plain lsq0 lsq_ops).
Definition lsq_unit : t := Eval vm_compute in match LSQ.unit_at lsq_busy 0 with Ok u => u | Er _ => unit0 end.
Lemma dispatch_guard_suffices_witness : exists s' u', dispatch lsq_busy 6 (inst_of 0 6 false) = Ok s' /\ LSQ.unit_at s' 0 = Ok u' /\
  loads_of u' = [1; 5] /\ eid <$> entries_of u' = [3; 6] /\ vget (LSQ.thread s') 1 = vget (LSQ.thread lsq_busy) 1.
Proof.
  destruct (dispatch_guard_suffices plain false None None 0 0 None world0 "Partitioned" 16 16 2 0 4 [0; 1] lsq0 lsq_ops lsq_busy 0 lsq_unit 6 (inst_of 0 6 false)) as (s' & u' & E1 & E2 & E3 & E4 & E5);
    [lia|lia|lia|vm_compute; reflexivity|vm_compute; reflexivity|vm_compute; reflexivity|left; vm_compute; discriminate|vm_compute; reflexivity|vm_compute; reflexivity|reflexivity|].
  exists s', u'. split_and!; [exact E1|exact E2|rewrite E3; vm_compute; reflexivity|rewrite E4; vm_compute; reflexivity|apply E5; lia].
Defined.

(** Under the dynamic policy [isFull(tid)] asks whether the queues of all the
    threads are full: it is false for a thread whose queue is, and the next load of
    that thread fails the assertion of [insertLoad]. *)
Definition full0 : LSQ.t := lsq_of (dispatch_all (two_threads "Dynamic" 2 2 [0; 1]) [(1, inst_of 0 1 true); (2, inst_of 0 2 true)]).
Theorem dynamic_guard_fails : LSQ.isFull_tid full0 0 = Ok false /\ LSQ.unit_full full0 0 = Ok true /\ dispatch full0 3 (inst_of 0 3 true) = Er AssertFail.
Proof. vm_compute. done. Qed.

(** Under that policy [sqFull()] and [sqFull(tid)] call each other for ever. *)
Theorem dynamic_sqFull_loops s : LSQ.lsqPolicy s = LSQ.Dynamic -> LSQ.activeThreads s <> [] -> forall fuel, LSQ.sqFull fuel s = Er OutOfFuel.
Proof.
  intros Hp Ha. induction fuel as [|fuel IH]; [done|]. cbn [LSQ.sqFull]. destruct (LSQ.activeThreads s) as [|tid l]; [done|]. cbn [LSQ.all_threads].
  rewrite bool_decide_eq_true_2 by done. by rewrite IH.
Qed.

(** [lqFull()] is true only if every queue is full. *)
Theorem lqFull_is_all : LSQ.lqFull full0 = Ok false /\ LSQ.ask full0 0 (fun u => Ok (lqFull u)) = Ok true.
Proof. vm_compute. done. Qed.

(** ** Resizing *)

(** Entries given to the only active thread cannot be taken back when another
    becomes active: [resizeLQ] asserts that a queue never shrinks. *)
Theorem resetEntries_cannot_shrink :
  (s ← LSQ.resetEntries false None None (two_threads "Partitioned" 16 16 [0]); LSQ.resetEntries false None None (LSQ.setActiveThreads s [0; 1])) = Er AssertFail.
Proof. vm_compute. reflexivity. Qed.

(** The store queues are resized to the share of the load queues. *)
Theorem resetEntries_sq_from_lq :
  (s ← LSQ.resetEntries false None None (two_threads "Partitioned" 16 4 [0]); LSQ.ask s 0 (fun u => Ok (SQEntries (sqs u) - 1))) = Ok 16.
Proof. vm_compute. reflexivity. Qed.

(** A queue that has wrapped around loses entries when it grows: the new places come
    after the end of the vector, in the middle of the queue. *)
Definition wrapped : t := final plain (start 4 3 3 0)
  [Insert 1 (mem_inst 1 true false); ExecuteLoad 1 (NoAccess MachineCheckFault); Insert 2 (mem_inst 2 true false); ExecuteLoad 2 (NoAccess MachineCheckFault);
   Insert 3 (mem_inst 3 true false); CommitLoads 2; Insert 4 (mem_inst 4 true false); Insert 5 (mem_inst 5 true false)].
Theorem resizeLQ_loses_loads : loads_of wrapped = [3; 4; 5] /\ loads_of <$> resizeLQ wrapped 7 = Ok [3; 4].
Proof. vm_compute. done. Qed.
