(* ===== verification/RangeMap.v ===== *)
(** * Address ranges and maps keyed by them

    [src/base/range.hh] (Module [Range]; parsing is left out), [range_ops.hh] and the
    class [range_map] of [range_map.hh] (Module [RangeMap]), for [Addr].  A [std::map]
    ordered by the starts of its ranges is the list of its entries in that order, and an
    iterator is the entry it points to, [None] at the end.

    The map is exact for single addresses as long as its ranges are disjoint; its test
    for an overlap looks at one neighbour only, and lets overlapping ranges in. *)
From S2P Require Import Prelude.

Module Range.
(** Both ends belong to the range. *)
Record t := mk { start : Z; end_ : Z }.
#[export] Instance range_eq_dec : EqDecision t.
Proof. solve_decision. Defined.

Definition invalidate : t := mk 1 0.
Definition size (r : t) : Z := uint 64 (end_ r - start r + 1).
Definition valid (r : t) : bool := start r <? end_ r.
Definition RangeEx (start end_ : Z) : t := mk start (uint 64 (end_ - 1)).
Definition RangeIn (start end_ : Z) : t := mk start end_.
Definition RangeSize (start size : Z) : t := mk start (uint 64 (start + size - 1)).

(** Range to range. *)
Definition eq_range (r1 r2 : t) : bool := (start r1 =? start r2) && (end_ r1 =? end_ r2).
Definition ne_range (r1 r2 : t) : bool := negb (start r1 =? start r2) || negb (end_ r1 =? end_ r2).
Definition lt_range (r1 r2 : t) : bool := start r1 <? start r2.
Definition le_range (r1 r2 : t) : bool := start r1 <=? start r2.
Definition gt_range (r1 r2 : t) : bool := start r1 >? start r2.
Definition ge_range (r1 r2 : t) : bool := start r1 >=? start r2.

(** Position to range. *)
Definition pos_eq (pos : Z) (r : t) : bool := (pos >=? start r) && (pos <=? end_ r).
Definition pos_ne (pos : Z) (r : t) : bool := (pos <? start r) || (pos >? end_ r).
Definition pos_lt (pos : Z) (r : t) : bool := pos <? start r.
Definition pos_le (pos : Z) (r : t) : bool := pos <=? end_ r.
Definition pos_gt (pos : Z) (r : t) : bool := pos >? end_ r.
Definition pos_ge (pos : Z) (r : t) : bool := pos >=? start r.

(** Range to position. *)
Definition eq_pos (r : t) (pos : Z) : bool := (pos >=? start r) && (pos <=? end_ r).
Definition ne_pos (r : t) (pos : Z) : bool := (pos <? start r) || (pos >? end_ r).
Definition lt_pos (r : t) (pos : Z) : bool := end_ r <? pos.
Definition le_pos (r : t) (pos : Z) : bool := start r <=? pos.
Definition gt_pos (r : t) (pos : Z) : bool := start r >? pos.
Definition ge_pos (r : t) (pos : Z) : bool := end_ r >=? pos.

(** [range_ops.hh]. *)
Fixpoint FilterRangeList (filter_list range_list : list t) : list t :=
  match filter_list with
  | [] => range_list
  | f :: fs => FilterRangeList fs (List.filter (fun i => negb (eq_pos f (start i) || eq_pos f (end_ i))) range_list)
  end.
End Range.

Module RangeMap.
Import Range.
Definition t := list (Range.t * Z).

(** The entries up to and from [tree.upper_bound(r)]. *)
Fixpoint upper_bound (tree : t) (r : Range.t) : t * t :=
  match tree with
  | [] => ([], [])
  | e :: tree' => if lt_range r e.1 then ([], tree) else let '(l1, l2) := upper_bound tree' r in (e :: l1, l2)
  end.
Definition touches (k r : Range.t) : bool := (start k <=? end_ r) && (end_ k >=? start r).

(** [find(r)]; for an empty map the code reads through [end()], and returns [end()]
    whatever it reads there. *)
Definition find (tree : t) (r : Range.t) : option (Range.t * Z) :=
  match upper_bound tree r with
  | ([], []) => None
  | ([], e :: _) => if touches e.1 r then Some e else None
  | (e0 :: l, _) => let e := List.last (e0 :: l) e0 in if touches e.1 r then Some e else None
  end.
Definition find_pos (tree : t) (r : Z) : option (Range.t * Z) := find tree (RangeSize r 1).
Definition intersect (tree : t) (r : Range.t) : bool := bool_decide (is_Some (find tree r)).

(** [tree.insert(make_pair(r, d))]: a range with the same start stays. *)
Fixpoint map_insert (tree : t) (r : Range.t) (d : Z) : t * (Range.t * Z) :=
  match tree with
  | [] => ([(r, d)], (r, d))
  | e :: tree' =>
      if lt_range r e.1 then ((r, d) :: tree, (r, d))
      else if lt_range e.1 r then let '(l, i) := map_insert tree' r d in (e :: l, i)
      else (tree, e)
  end.
Definition insert (tree : t) (r : Range.t) (d : Z) : t * option (Range.t * Z) :=
  if intersect tree r then (tree, None) else let '(l, i) := map_insert tree r d in (l, Some i).
(** [erase(p)] at the entry with start [k]. *)
Definition erase (tree : t) (k : Z) : t := List.filter (fun e => negb (start e.1 =? k)) tree.
Definition clear : t := [].
Definition size (tree : t) : Z := Z.of_nat (length tree).
Definition empty (tree : t) : bool := match tree with [] => true | _ => false end.
End RangeMap.

(** ** Lookups *)
Module RangeMapProof.
Import Range RangeMap.

(** The ranges of the map are in order and apart, and none is empty. *)
Definition apart (e1 e2 : Range.t * Z) : Prop := end_ e1.1 < start e2.1.
Record disjoint_map (tree : t) : Prop := mkDisjoint {
  d_apart : StronglySorted apart tree;
  d_range : Forall (fun e => 0 <= start e.1 <= end_ e.1 /\ end_ e.1 < 2 ^ 64) tree
}.

Lemma upper_bound_spec tree r : disjoint_map tree ->
  let '(l1, l2) := upper_bound tree r in tree = l1 ++ l2 /\ Forall (fun e => start e.1 <= start r) l1 /\ Forall (fun e => start r < start e.1) l2.
Proof.
  intros [Hs Hr]. induction tree as [|e tree IH]; simpl; [done|]. apply StronglySorted_inv in Hs as [Hs Ha]. apply Forall_cons in Hr as [He Hr].
  unfold lt_range. destruct (Z.ltb_spec (start r) (start e.1)) as [Hlt|Hge].
  - split; [done|]. split; [done|]. constructor; [done|]. rewrite Forall_forall in *. intros e' Hin. specialize (Ha e' Hin). unfold apart in Ha. lia.
  - specialize (IH Hs Hr). destruct (upper_bound tree r) as [l1 l2]. destruct IH as (-> & H1 & H2). split; [done|]. split; [by constructor|done].
Qed.
(** Of two entries the one that ends later starts after the other has ended. *)
Lemma apart_elem tree e e' : disjoint_map tree -> e ∈ tree -> e' ∈ tree -> start e.1 <= end_ e'.1 -> start e'.1 <= end_ e.1 -> e = e'.
Proof.
  intros [Hs _]. induction tree as [|x tree IH]; [set_solver|]. apply StronglySorted_inv in Hs as [Hs Ha]. rewrite Forall_forall in Ha. unfold apart in Ha.
  intros [->|H1]%elem_of_cons [->|H2]%elem_of_cons ??; [done| | |by apply IH].
  - apply Ha in H2. lia.
  - apply Ha in H1. lia.
Qed.

Lemma sorted_apart (l1 : t) x l2 e : StronglySorted apart (l1 ++ x :: l2) -> e ∈ l1 -> apart e x.
Proof.
  induction l1 as [|y l1 IH]; [set_solver|]. intros [Hs Ha]%StronglySorted_inv [->|Hin]%elem_of_cons; [|by apply IH].
  rewrite Forall_forall in Ha. apply Ha. set_solver.
Qed.

(** The entry found for an address is the one whose range has it. *)
Lemma find_pos_spec tree a e : disjoint_map tree -> 0 <= a < 2 ^ 64 -> find_pos tree a = Some e <-> e ∈ tree /\ start e.1 <= a <= end_ e.1.
Proof.
  intros H Ha. unfold find_pos, find. pose proof (upper_bound_spec tree (RangeSize a 1) H) as Hu. destruct (upper_bound tree (RangeSize a 1)) as [l1 l2].
  destruct Hu as (E & H1 & H2). assert (Er : RangeSize a 1 = mk a a) by (unfold RangeSize; f_equal; unfold uint; rewrite Z.mod_small; lia).
  rewrite Er in *. simpl in H1, H2. rewrite Forall_forall in H1, H2. unfold touches. cbn [start end_].
  assert (Hno : l1 = [] -> forall e, ~ (e ∈ tree /\ start e.1 <= a <= end_ e.1)).
  { intros -> e' [Hin Hc]. rewrite E in Hin. apply H2 in Hin. lia. }
  destruct l1 as [|e0 l1].
  - destruct l2 as [|x l2]; [split; [done|]; intros Hx; exfalso; by apply (Hno eq_refl e)|].
    assert (Hx : (start x.1 <=? a) = false) by (apply Z.leb_gt; apply H2; set_solver). rewrite Hx. split; [done|]. intros Hc. exfalso. by apply (Hno eq_refl e).
  - assert (Hl : List.last (e0 :: l1) e0 ∈ e0 :: l1).
    { destruct (exists_last (l := e0 :: l1)) as (p & x & ->); [done|]. rewrite List.last_last. set_solver. }
    set (x := List.last (e0 :: l1) e0) in *. pose proof (H1 x Hl) as Hx. cbv zeta. fold x. rewrite (proj2 (Z.leb_le (start x.1) a)) by done. cbn [andb].
    assert (Hxt : x ∈ tree) by (rewrite E; set_solver).
    pose proof (d_range _ H) as Hr. rewrite Forall_forall in Hr. rewrite Z.geb_leb.
    destruct (Z.leb_spec a (end_ x.1)) as [Hle|Hgt].
    + split; [intros E2; injection E2 as E2; rewrite <- E2; done|]. intros [Hin Hc]. f_equal. apply (apart_elem tree); try done; lia.
    + split; [done|]. intros [Hin Hc]. exfalso. rewrite E in Hin. apply elem_of_app in Hin as [Hin|Hin]; [|apply H2 in Hin; lia].
      assert (Hsort : end_ e.1 <= end_ x.1).
      { destruct (exists_last (l := e0 :: l1)) as (p & y & Ep); [done|]. assert (Exy : x = y) by (unfold x; rewrite Ep; apply List.last_last).
        rewrite Ep in Hin. apply elem_of_app in Hin as [Hin|Hin%list_elem_of_singleton]; [|rewrite Hin, Exy; lia].
        assert (Hap : apart e x); [|unfold apart in Hap; specialize (Hr x Hxt); lia].
        rewrite Exy. apply (sorted_apart p y l2); [|done]. pose proof (d_apart _ H) as Hs. rewrite E, Ep, <- app_assoc in Hs. done. }
      lia.
Qed.

(** ** Insertion *)
Lemma map_insert_new tree r d : disjoint_map tree -> (forall e, e ∈ tree -> end_ e.1 < start r \/ end_ r < start e.1) -> 0 <= start r <= end_ r -> end_ r < 2 ^ 64 ->
  exists l1 l2, tree = l1 ++ l2 /\ map_insert tree r d = (l1 ++ (r, d) :: l2, (r, d)) /\ disjoint_map (l1 ++ (r, d) :: l2).
Proof.
  intros [Hs Hr] Hd Hlo Hhi. induction tree as [|e tree IH].
  { exists [], []. split_and!; try done. constructor; simpl; constructor; try done. }
  apply StronglySorted_inv in Hs as [Hs Ha]. apply Forall_cons in Hr as [He Hr]. cbn [map_insert]. unfold lt_range.
  assert (Hcmp := Hd e ltac:(set_solver)).
  destruct (Z.ltb_spec (start r) (start e.1)) as [Hlt|Hge].
  - exists [], (e :: tree). split_and!; try done. constructor; [|by repeat constructor; simpl; try lia].
    constructor; [by constructor|]. constructor; [unfold apart; simpl; lia|]. rewrite Forall_forall in *. intros e' Hin.
    specialize (Ha e' Hin). unfold apart in *. simpl. lia.
  - rewrite (proj2 (Z.ltb_lt _ _)) by lia. destruct IH as (l1 & l2 & -> & -> & [Hs' Hr']); [done|done|intros; apply Hd; set_solver|].
    exists (e :: l1), l2. split_and!; try done. constructor; [|by constructor]. constructor; [done|].
    rewrite Forall_app, Forall_cons in *. destruct Ha as [Ha1 Ha2]. split_and!; [done| |done]. unfold apart. simpl. lia.
Qed.
(** A range that meets no other is taken in, and found again at its addresses. *)
Lemma insert_new tree r d : disjoint_map tree -> (forall e, e ∈ tree -> end_ e.1 < start r \/ end_ r < start e.1) -> 0 <= start r <= end_ r -> end_ r < 2 ^ 64 ->
  exists tree', insert tree r d = (tree', Some (r, d)) /\ disjoint_map tree' /\ forall e, e ∈ tree' <-> e = (r, d) \/ e ∈ tree.
Proof.
  intros H Hd Hlo Hhi. destruct (map_insert_new tree r d H Hd Hlo Hhi) as (l1 & l2 & E & Em & H').
  exists (l1 ++ (r, d) :: l2). split_and!; [|done|intros e; rewrite E; set_solver]. unfold insert, intersect. rewrite Em.
  assert (Ht : forall e, e ∈ tree -> touches e.1 r = false).
  { intros e Hin. unfold touches. rewrite Z.geb_leb. apply andb_false_iff. destruct (Hd e Hin); [right|left]; apply Z.leb_gt; lia. }
  assert (find tree r = None) as ->; [|done]. unfold find. pose proof (upper_bound_spec tree r H) as Hu. destruct (upper_bound tree r) as [[|e0 k1] k2].
  - destruct k2 as [|x k2]; [done|]. destruct Hu as (Eu & _). by rewrite Ht by (rewrite Eu; set_solver).
  - destruct Hu as (Eu & _). rewrite Ht; [done|]. rewrite Eu. apply elem_of_app. left.
    destruct (exists_last (l := e0 :: k1)) as (p & y & ->); [done|]. rewrite List.last_last. set_solver.
Qed.
Lemma disjoint_filter f tree : disjoint_map tree -> disjoint_map (List.filter f tree).
Proof.
  intros [Hs Hr]. assert (Hin : forall l e, e ∈ List.filter f l -> e ∈ l) by (intros l e; rewrite !list_elem_of_In; by intros [? _]%List.filter_In).
  constructor.
  - induction tree as [|e tree IH]; simpl; [done|]. apply StronglySorted_inv in Hs as [Hs Ha]. apply Forall_cons in Hr as [He Hr].
    destruct (f e); [|auto]. constructor; [auto|]. rewrite Forall_forall in *. intros e' ?. by apply Ha, Hin.
  - rewrite Forall_forall in *. intros e ?. by apply Hr, Hin.
Qed.
Lemma disjoint_empty : disjoint_map [].
Proof. by repeat constructor. Qed.

(** ** What the tests and the comments say *)

(** The steps of [unittest/rangemaptest.cc]. *)
Example rangemaptest :
  let '(r, i1) := insert clear (RangeIn 10 40) 5 in let '(r, i2) := insert r (RangeIn 60 90) 3 in
  let '(r, i3) := insert r (RangeIn 0 12) 1 in let '(r', i4) := insert r (RangeIn 0 9) 1 in
  (i1, i2, find r (RangeIn 20 30), find r (RangeIn 55 55), i3, i4, find r' (RangeIn 20 30)) =
  (Some (RangeIn 10 40, 5), Some (RangeIn 60 90, 3), Some (RangeIn 10 40, 5), None, None, Some (RangeIn 0 9, 1), Some (RangeIn 10 40, 5)).
Proof. reflexivity. Qed.
(** [intersect] misses a range that starts inside the one asked for when the range before
    it does not reach that far: the map then holds two ranges with the same addresses. *)
Theorem insert_accepts_overlap : exists tree r, disjoint_map tree /\ (exists e, e ∈ tree /\ touches e.1 r = true) /\
  intersect tree r = false /\ (insert tree r 7).2 = Some (r, 7) /\ find_pos (insert tree r 7).1 80 = Some (RangeIn 60 90, 3).
Proof.
  exists [(RangeIn 10 40, 5); (RangeIn 60 90, 3)], (RangeIn 50 100). split_and!; try reflexivity.
  - constructor; repeat constructor; unfold apart; simpl; lia.
  - exists (RangeIn 60 90, 3). split; [set_solver|reflexivity].
Qed.
(** [valid] rejects the range of a single address, whose size is 1; and [<] holds of
    ranges that overlap. *)
Theorem range_valid_rejects_one : valid (RangeSize 5 1) = false /\ Range.size (RangeSize 5 1) = 1 /\ eq_pos (RangeSize 5 1) 5 = true.
Proof. by split_and!. Qed.
Theorem range_lt_overlaps : lt_range (RangeIn 0 10) (RangeIn 5 20) = true /\ touches (RangeIn 0 10) (RangeIn 5 20) = true.
Proof. by split. Qed.
(** [FilterRangeList] keeps a range that surrounds a filter, and drops one that only
    touches it; dropped are exactly the ranges with an end in some filter. *)
Lemma FilterRangeList_spec fs l r : r ∈ FilterRangeList fs l <-> r ∈ l /\ forall f, f ∈ fs -> eq_pos f (start r) = false /\ eq_pos f (end_ r) = false.
Proof.
  revert l. induction fs as [|f fs IH]; intros l; simpl; [set_solver|]. rewrite IH, list_elem_of_In, List.filter_In, <- list_elem_of_In, negb_true_iff, orb_false_iff.
  setoid_rewrite elem_of_cons. naive_solver.
Qed.
Theorem filter_keeps_surrounding : FilterRangeList [RangeIn 10 20] [RangeIn 0 30; RangeIn 15 40; RangeIn 12 18] = [RangeIn 0 30].
Proof. reflexivity. Qed.
End RangeMapProof.
