(* ===== verification/Bridge.v ===== *)
(** * The bridge between two buses

    [src/mem/bridge.hh] and [bridge.cc] (Module [Bridge]): the timing side, with
    the two ports, their queues of packets, the limits on them and the events that
    send; the atomic and the functional side, the address ranges, the constructor,
    [init] and [getPort].

    Packets and [PacketBuffer]s are objects with keys; the sender state of a packet
    is a key, that of a buffer if the packet passed this bridge.  What the bus on a
    side answers to a packet is a function of the history ([Env]); the history
    records the packets taken in, those turned back, and those offered to a bus. *)
From S2P Require Import Prelude EventQueue Request Packet RangeMap.

Module Bridge.

Inductive Side := SideA | SideB.
#[export] Instance side_eq_dec : EqDecision Side.
Proof. solve_decision. Defined.
Definition other (x : Side) : Side := match x with SideA => SideB | SideB => SideA end.

Record PacketBuffer := mkBuffer {
  ready : Z;
  pkt : option Z;
  nackedHere : bool;
  origSenderState : option Z;
  origSrc : Z;
  expectResponse : bool
}.

(** [sendEvent] is the time for which the event is scheduled. *)
Record BridgePort := mkPort {
  delay : Z;
  nackDelay : Z;
  sendQueue : list Z;
  outstandingResponses : Z;
  queuedRequests : Z;
  inRetry : bool;
  reqQueueLimit : Z;
  respQueueLimit : Z;
  sendEvent : option Z
}.

(** The packet [p] that came in as [k] on a side and is queued on the other, one that
    is turned back, and the packet [p], as it is then, of buffer [b] that is offered to
    the bus of a side, with whether it was turned back here and the answer. *)
Inductive Ev :=
| EForward (from : Side) (p : Z) (k : Packet.t)
| ENack (side : Side) (p : Z)
| ESend (side : Side) (b p : Z) (k : Packet.t) (nack ok : bool).
Record Env := mkEnv { sendTiming : list Ev -> Side -> Packet.t -> bool }.

Record t := mk {
  portA : BridgePort;
  portB : BridgePort;
  pkts : gmap Z Packet.t;
  bufs : gmap Z PacketBuffer;
  nextBuf : Z;
  curTick : Z;
  trace : list Ev
}.

Definition port (s : t) (x : Side) : BridgePort := match x with SideA => portA s | SideB => portB s end.
Definition set_port (s : t) (x : Side) (q : BridgePort) : t :=
  match x with
  | SideA => mk q (portB s) (pkts s) (bufs s) (nextBuf s) (curTick s) (trace s)
  | SideB => mk (portA s) q (pkts s) (bufs s) (nextBuf s) (curTick s) (trace s)
  end.
Definition set_pkts (s : t) (m : gmap Z Packet.t) : t := mk (portA s) (portB s) m (bufs s) (nextBuf s) (curTick s) (trace s).
Definition set_bufs (s : t) (m : gmap Z PacketBuffer) (n : Z) : t := mk (portA s) (portB s) (pkts s) m n (curTick s) (trace s).
Definition set_tick (s : t) (n : Z) : t := mk (portA s) (portB s) (pkts s) (bufs s) (nextBuf s) n (trace s).
Definition emit (s : t) (e : Ev) : t := mk (portA s) (portB s) (pkts s) (bufs s) (nextBuf s) (curTick s) (trace s ++ [e]).

Definition set_queue (q : BridgePort) (l : list Z) : BridgePort :=
  mkPort (delay q) (nackDelay q) l (outstandingResponses q) (queuedRequests q) (inRetry q) (reqQueueLimit q) (respQueueLimit q) (sendEvent q).
Definition set_outstanding (q : BridgePort) (n : Z) : BridgePort :=
  mkPort (delay q) (nackDelay q) (sendQueue q) n (queuedRequests q) (inRetry q) (reqQueueLimit q) (respQueueLimit q) (sendEvent q).
Definition set_queued (q : BridgePort) (n : Z) : BridgePort :=
  mkPort (delay q) (nackDelay q) (sendQueue q) (outstandingResponses q) n (inRetry q) (reqQueueLimit q) (respQueueLimit q) (sendEvent q).
Definition set_retry (q : BridgePort) (b : bool) : BridgePort :=
  mkPort (delay q) (nackDelay q) (sendQueue q) (outstandingResponses q) (queuedRequests q) b (reqQueueLimit q) (respQueueLimit q) (sendEvent q).
Definition set_event (q : BridgePort) (w : option Z) : BridgePort :=
  mkPort (delay q) (nackDelay q) (sendQueue q) (outstandingResponses q) (queuedRequests q) (inRetry q) (reqQueueLimit q) (respQueueLimit q) w.

Definition get_pkt (s : t) (p : Z) : res Packet.t := deref (pkts s !! p).
Definition put_pkt (s : t) (p : Z) (k : Packet.t) : t := set_pkts s (<[p := k]> (pkts s)).
Definition get_buf (s : t) (b : Z) : res PacketBuffer := deref (bufs s !! b).
Definition delete_buf (s : t) (b : Z) : t := set_bufs s (delete b (bufs s)) (nextBuf s).
Definition set_senderState (k : Packet.t) (v : option Z) : Packet.t :=
  Packet.mk (Packet.flags k) (Packet.cmd k) (Packet.req k) (Packet.data k) (Packet.addr k) (Packet.size k) (Packet.src k) (Packet.dest k)
    (Packet.origCmd k) (Packet.time k) (Packet.finishTime k) (Packet.firstWordTime k) v.

(** ** Buffers *)

(** [new PacketBuffer(_pkt, t, nack)]. *)
Definition new_buffer (s : t) (p : Z) (tick : Z) (nack : bool) : res (Z * t) :=
  k ← get_pkt s p;
  a ← (if nack then Packet.getDest k else Packet.getSrc k);
  let b := nextBuf s in
  let buf := mkBuffer tick (Some p) nack (Packet.senderState k) a (Packet.needsResponse k && negb nack) in
  let s := set_bufs s (<[b := buf]> (bufs s)) (b + 1) in
  Ok (b, if negb (Packet.isResponse k) && negb nack then put_pkt s p (set_senderState k (Some b)) else s).

(** [buf->fixResponse(pkt)]. *)
Definition fixResponse (s : t) (b p : Z) : res t :=
  buf ← get_buf s b;
  k ← get_pkt s p;
  _ ← c_assert (bool_decide (Packet.senderState k = Some b));
  Ok (put_pkt s p (set_senderState (Packet.setDest k (origSrc buf)) (origSenderState buf))).

(** ** Events *)
Definition schedule (s : t) (x : Side) (when : Z) : res t :=
  _ ← c_assert (curTick s <=? when);
  _ ← c_assert (bool_decide (sendEvent (port s x) = None));
  Ok (set_port s x (set_event (port s x) (Some when))).
Definition reschedule (s : t) (x : Side) (when : Z) : res t :=
  _ ← c_assert (curTick s <=? when);
  _ ← c_assert (bool_decide (is_Some (sendEvent (port s x))));
  Ok (set_port s x (set_event (port s x) (Some when))).

(** ** The timing side *)
Definition respQueueFull (s : t) (x : Side) : res bool :=
  let q := port s x in
  _ ← c_assert ((0 <=? outstandingResponses q) && (outstandingResponses q <=? respQueueLimit q));
  Ok (respQueueLimit q <=? outstandingResponses q).
Definition reqQueueFull (s : t) (x : Side) : res bool :=
  let q := port s x in
  _ ← c_assert ((0 <=? queuedRequests q) && (queuedRequests q <=? reqQueueLimit q));
  Ok (reqQueueLimit q <=? queuedRequests q).

Definition push_back (s : t) (x : Side) (b : Z) : t := set_port s x (set_queue (port s x) (sendQueue (port s x) ++ [b])).

(** The loop of [nackRequest]: the queue with [b] before the first buffer that is
    ready after [readyTime], and whether that was the first one; [None] if there is
    none. *)
Fixpoint insert_before (s : t) (readyTime b : Z) (l : list Z) : res (option (bool * list Z)) :=
  match l with
  | [] => Ok None
  | i :: l' =>
      buf ← get_buf s i;
      if readyTime <? ready buf then Ok (Some (true, b :: l))
      else r ← insert_before s readyTime b l'; Ok (match r with Some (_, l2) => Some (false, i :: l2) | None => None end)
  end.

(** The part of [nackRequest] that puts the buffer on the list. *)
Definition nack_enqueue (s : t) (x : Side) (b readyTime : Z) : res t :=
  match last (sendQueue (port s x)) with
  | None =>
      _ ← c_assert (bool_decide (sendEvent (port s x) = None));
      s ← schedule s x readyTime;
      Ok (push_back s x b)
  | Some e =>
      _ ← c_assert (bool_decide (is_Some (sendEvent (port s x))) || inRetry (port s x));
      buf ← get_buf s e;
      if ready buf <=? readyTime then Ok (push_back s x b)
      else
        r ← insert_before s readyTime b (sendQueue (port s x));
        match r with
        | None => Er AssertFail
        | Some (first, l) =>
            s ← (if (first : bool) then reschedule s x readyTime else Ok s);
            Ok (set_port s x (set_queue (port s x) l))
        end
  end.

Definition nackRequest (s : t) (x : Side) (p : Z) : res t :=
  k ← get_pkt s p;
  k ← Packet.makeTimingResponse k;
  k ← Packet.setNacked k;
  let s := put_pkt s p k in
  let readyTime := curTick s + nackDelay (port s x) in
  r ← new_buffer s p readyTime true;
  nack_enqueue r.2 x r.1 readyTime.

Definition queueForSendTiming (s : t) (x : Side) (p : Z) : res t :=
  k ← get_pkt s p;
  s ← (if Packet.isResponse k then
         b ← (match Packet.senderState k with Some b => if bool_decide (is_Some (bufs s !! b)) then Ok b else Er AssertFail | None => Er AssertFail end);
         s ← fixResponse s b p;
         Ok (delete_buf s b)
       else Ok s);
  let s := if Packet.isRequest k then set_port s x (set_queued (port s x) (queuedRequests (port s x) + 1)) else s in
  let readyTime := curTick s + delay (port s x) in
  r ← new_buffer s p readyTime false;
  let '(b, s) := r in
  s ← (match sendQueue (port s x) with [] => schedule s x readyTime | _ => Ok s end);
  Ok (push_back s x b).

Definition recvTiming (s : t) (x : Side) (p : Z) : res (bool * t) :=
  k ← get_pkt s p;
  full ← (if Packet.isRequest k then reqQueueFull s (other x) else Ok false);
  if (full : bool) then s ← nackRequest s x p; Ok (true, emit s (ENack x p))
  else
    r ← (if Packet.needsResponse k then
           full ← respQueueFull s x;
           if (full : bool) then s ← nackRequest s x p; Ok (false, emit s (ENack x p))
           else Ok (true, set_port s x (set_outstanding (port s x) (outstandingResponses (port s x) + 1)))
         else Ok (true, s));
    let '(go, s) := r in
    if (go : bool) then s ← queueForSendTiming s (other x) p; Ok (true, emit s (EForward x p k)) else Ok (true, s).

(** The part of [trySend] after a successful send, up to the next packet. *)
Definition send_done (s : t) (x : Side) (b : Z) (buf : PacketBuffer) (wasReq : bool) : t :=
  let s := set_port s x (set_queue (port s x) (tail (sendQueue (port s x)))) in
  let s := if expectResponse buf
           then set_bufs s (<[b := mkBuffer (ready buf) None (nackedHere buf) (origSenderState buf) (origSrc buf) (expectResponse buf)]> (bufs s)) (nextBuf s)
           else delete_buf s b in
  let q := port s x in
  if wasReq then set_port s x (set_queued q (queuedRequests q - 1))
  else if negb (nackedHere buf) then set_port s x (set_outstanding q (outstandingResponses q - 1)) else s.

Definition trySend (env : Env) (s : t) (x : Side) : res t :=
  b ← (match sendQueue (port s x) with b :: _ => Ok b | [] => Er AssertFail end);
  buf ← get_buf s b;
  _ ← c_assert (ready buf <=? curTick s);
  p ← deref (pkt buf);
  k ← get_pkt s p;
  let wasReq := Packet.isRequest k in
  let k' := if Packet.isRequest k && negb (expectResponse buf) then set_senderState k None else k in
  let s := put_pkt s p k' in
  let ok := sendTiming env (trace s) x k' in
  let s := emit s (ESend x b p k' (nackedHere buf) ok) in
  if ok then
    let s := send_done s x b buf wasReq in
    match sendQueue (port s x) with
    | [] => Ok s
    | n :: _ => nb ← get_buf s n; schedule s x (Z.max (ready nb) (curTick s + 1))
    end
  else Ok (put_pkt (set_port s x (set_retry (port s x) true)) p (set_senderState k' (Packet.senderState k))).

(** [SendEvent::process]: the event is taken off the queue when it is serviced. *)
Definition process_send (env : Env) (s : t) (x : Side) : res t := trySend env (set_port s x (set_event (port s x) None)) x.

Definition recvRetry (env : Env) (s : t) (x : Side) : res t :=
  let s := set_port s x (set_retry (port s x) false) in
  b ← (match sendQueue (port s x) with b :: _ => Ok b | [] => Er BadPointer end);
  buf ← get_buf s b;
  if ready buf <=? curTick s then trySend env s x else schedule s x (ready buf).

(** [recvAtomic]; [latency] is what the bus of the other side answers. *)
Definition recvAtomic (s : t) (x : Side) (latency : Z) : Z := delay (port s x) + latency.

(** [recvFunctional]: the packets of the queue are asked in order, and the bus of the
    other side ([sendFunctional]) if none of them satisfies the access. *)
Fixpoint functional_loop (fresh : positive) (garbage : Z -> list Z) (s : t) (m : Bytes.mem) (k : Packet.t) (l : list Z) : res (bool * Bytes.mem * Packet.t) :=
  match l with
  | [] => Ok (false, m, k)
  | i :: l' =>
      buf ← get_buf s i;
      p ← deref (pkt buf);
      o ← get_pkt s p;
      '(hit, m, k) ← Packet.checkFunctional_pkt fresh garbage m k o;
      if (hit : bool) then Ok (true, m, k) else functional_loop fresh garbage s m k l'
  end.
Definition recvFunctional (fresh : positive) (garbage : Z -> list Z) (sendFunctional : Side -> Bytes.mem -> Packet.t -> res (Bytes.mem * Packet.t))
    (s : t) (x : Side) (m : Bytes.mem) (k : Packet.t) : res (Bytes.mem * Packet.t) :=
  _ ← (if Packet.isPrint k then deref (Packet.senderState k) else Ok 0);
  '(hit, m, k) ← functional_loop fresh garbage s m k (sendQueue (port s x));
  if (hit : bool) then Ok (m, k) else sendFunctional (other x) m k.

(** [getDeviceAddressRanges]; [resp] is what the peer of the other side answers. *)
Definition getDeviceAddressRanges (filterRanges resp : list Range.t) : list Range.t * bool := (Range.FilterRangeList filterRanges resp, false).

(** ** Construction *)
Definition new_port (delay nack_delay req_limit resp_limit : Z) : BridgePort := mkPort delay nack_delay [] 0 0 false req_limit resp_limit None.
Definition new (delay nack_delay req_size_a resp_size_a req_size_b resp_size_b : Z) (write_ack : bool) (tick : Z) : res t :=
  if write_ack then Er Panic
  else Ok (mk (new_port delay nack_delay req_size_a resp_size_a) (new_port delay nack_delay req_size_b resp_size_b) ∅ ∅ 0 tick []).
(** [getPort]; [connected] says which sides have a peer that is not the default. *)
Definition getPort (connected : Side -> bool) (if_name : string) : res (option Side) :=
  let found := if bool_decide (if_name = "side_a"%string) then Some SideA else if bool_decide (if_name = "side_b"%string) then Some SideB else None in
  match found with
  | None => Ok None
  | Some x => if connected x then Er Panic else Ok (Some x)
  end.
(** [init]; [peer x] is the block size of the peer of a side, if it is connected. *)
Definition init (peer : Side -> option Z) : res () :=
  match peer SideA, peer SideB with
  | Some a, Some b => if a =? b then Ok () else Er Fatal
  | _, _ => Er Fatal
  end.
End Bridge.
