(* ===== verification/BridgeTheorems.v ===== *)
(** * The bridge: flow control, order and return of responses

    [Inv s I W]: [I x] are the packets in the queue of side [x], first one first, and
    [W x] those that came in on side [x], have been sent on the other side, and wait for
    their response. *)
From S2P Require Import Prelude EventQueue EventQueueInv Request Packet PacketTheorems Bridge.
Import Bridge.

(** ** Packets in a queue *)
Inductive Kind := KReq (expect : bool) | KResp | KNack.
(** The buffer, the packet, what it is now, and what it was when it came in. *)
Record Item := mkItem { it_b : Z; it_p : Z; it_k : Packet.t; it_k0 : Packet.t; it_kind : Kind }.

Definition is_req (it : Item) : bool := match it_kind it with KReq _ => true | _ => false end.
Definition is_resp (it : Item) : bool := match it_kind it with KResp => true | _ => false end.
Definition is_exp (it : Item) : bool := match it_kind it with KReq e => e | _ => false end.
Definition is_nack (it : Item) : bool := match it_kind it with KNack => true | _ => false end.
Definition count (f : Item -> bool) (l : list Item) : Z := Z.of_nat (length (filter (fun it => f it = true) l)).

(** What of a packet the bridge leaves as it is. *)
Definition Body : Type := MemCmd.Command * Request.t * option Bytes.ptr * Z * Z * Z.
Definition body (k : Packet.t) : Body :=
  (Packet.cmd k, Packet.req k, Packet.data k, Packet.addr k, Packet.size k, Packet.src k).
(** The packets of a queue that were not turned back here. *)
Definition passing (l : list Item) := (fun it => (it_p it, body (it_k it))) <$> filter (fun it => is_nack it = false) l.

(** ** The history *)
Definition forwarded (x : Side) (h : list Ev) :=
  omap (fun e => match e with EForward y p k => if decide (y = x) then Some (p, body k) else None | _ => None end) h.
Definition sent (x : Side) (h : list Ev) :=
  omap (fun e => match e with ESend y _ p k false true => if decide (y = x) then Some (p, body k) else None | _ => None end) h.
(** The packet [k] is addressed as the answer to a request that came in on side [x]
    and went out on the other side. *)
Definition answered (h : list Ev) (x : Side) (k : Packet.t) : Prop :=
  exists b p k0 k1, EForward x p k0 ∈ h /\ ESend (other x) b p k1 false true ∈ h /\ Packet.needsResponse k0 = true /\
    Packet.getDest k = Packet.getSrc k0 /\ Packet.senderState k = Packet.senderState k0.
(** A response to buffer [b] came in on side [x]. *)
Definition is_response_to (x : Side) (b : Z) (e : Ev) : bool :=
  match e with EForward y _ k => bool_decide (y = x) && Packet.isResponse k && bool_decide (Packet.senderState k = Some b) | _ => false end.
(** A request that needs a response was sent on side [x] from buffer [b]. *)
Definition is_request_of (x : Side) (b : Z) (e : Ev) : bool :=
  match e with ESend y b' _ k false true => bool_decide (y = x) && (b' =? b) && Packet.needsResponse k | _ => false end.

(** The responses owed to side [x]: the requests that came in on it and need one, less the
    responses that it has been given. *)
Definition owes (x : Side) (e : Ev) : Z :=
  match e with
  | EForward y _ k => if bool_decide (y = x) && Packet.needsResponse k then 1 else 0
  | ESend y _ _ k false true => if bool_decide (y = x) && negb (Packet.isRequest k) then -1 else 0
  | _ => 0
  end.
Fixpoint owed (x : Side) (h : list Ev) : Z := match h with [] => 0 | e :: h => owes x e + owed x h end.

(** ** The invariant *)
(** The range of a [NodeID]. *)
Definition node_id (a : Z) : Prop := - 2 ^ 15 <= a < 2 ^ 15.
Definition orig_ok (buf : PacketBuffer) (it : Item) : Prop :=
  node_id (origSrc buf) /\ Packet.getSrc (it_k0 it) = Ok (origSrc buf) /\ Packet.senderState (it_k0 it) = origSenderState buf /\ Packet.needsResponse (it_k0 it) = true.
Record item_ok (bs : gmap Z PacketBuffer) (ks : gmap Z Packet.t) (it : Item) : Prop := mkItemOk {
  i_buf : exists buf, bs !! it_b it = Some buf /\ pkt buf = Some (it_p it) /\ nackedHere buf = is_nack it /\
            expectResponse buf = is_exp it /\ (is_exp it = true -> orig_ok buf it);
  i_pkt : ks !! it_p it = Some (it_k it);
  i_req : Packet.isRequest (it_k it) = is_req it;
  i_body : is_nack it = false -> body (it_k it) = body (it_k0 it);
  i_exp : is_nack it = false -> Packet.needsResponse (it_k it) = is_exp it
}.
Definition wait_ok (bs : gmap Z PacketBuffer) (it : Item) : Prop :=
  exists buf, bs !! it_b it = Some buf /\ pkt buf = None /\ orig_ok buf it.
Definition rdy (bs : gmap Z PacketBuffer) (b : Z) : Z := match bs !! b with Some buf => ready buf | None => 0 end.

(** The objects. *)
Record Heap (bs : gmap Z PacketBuffer) (ks : gmap Z Packet.t) (nb : Z) (I W : Side -> list Item) : Prop := mkHeap {
  h_items : forall x it, it ∈ I x -> item_ok bs ks it;
  h_wait : forall x it, it ∈ W x -> wait_ok bs it;
  h_nodup_p : NoDup (it_p <$> I SideA ++ I SideB);
  h_nodup_w : NoDup (it_b <$> W SideA ++ W SideB);
  h_fresh : forall b buf, bs !! b = Some buf -> b < nb
}.
(** The queue and the counters of a side. *)
Record Port_ok (q : BridgePort) (here there wait : list Item) : Prop := mkPortOk {
  c_queue : sendQueue q = it_b <$> here;
  c_reqs : queuedRequests q = count is_req here;
  c_reqlim : queuedRequests q <= reqQueueLimit q;
  c_resps : outstandingResponses q = count is_resp here + count is_exp there + Z.of_nat (length wait);
  c_resplim : outstandingResponses q <= respQueueLimit q;
  c_delay : 0 <= delay q /\ 0 <= nackDelay q
}.
(** The event of a port is scheduled exactly while it has packets and does not wait
    for a retry. *)
Definition event_ok (q : BridgePort) (bs : gmap Z PacketBuffer) (now : Z) (l : list Item) : Prop :=
  match l with
  | [] => sendEvent q = None /\ inRetry q = false
  | it :: _ => if inRetry q then sendEvent q = None /\ rdy bs (it_b it) <= now
               else exists w, sendEvent q = Some w /\ now <= w /\ rdy bs (it_b it) <= w
  end.
Record Hist (h : list Ev) (I W : Side -> list Item) : Prop := mkHist {
  t_fifo : forall x, forwarded (other x) h = sent x h ++ passing (I x);
  t_req : forall x it, it ∈ I x -> is_exp it = true -> EForward (other x) (it_p it) (it_k0 it) ∈ h;
  t_resp : forall x it, it ∈ I x -> is_resp it = true -> answered h x (it_k it);
  t_wait : forall x it, it ∈ W x -> EForward x (it_p it) (it_k0 it) ∈ h /\ exists k1, ESend (other x) (it_b it) (it_p it) k1 false true ∈ h;
  t_away : forall x b e, e ∈ h -> is_request_of x b e = true -> (exists it, it ∈ W (other x) /\ it_b it = b) \/ (exists e', e' ∈ h /\ is_response_to x b e' = true);
  t_sent : forall x b p k ok, ESend x b p k false ok ∈ h -> Packet.isRequest k = false -> answered h x k
}.
Record Inv (s : t) (I W : Side -> list Item) : Prop := mkInv {
  v_heap : Heap (bufs s) (pkts s) (nextBuf s) I W;
  v_port : forall x, Port_ok (port s x) (I x) (I (other x)) (W x);
  v_event : forall x, event_ok (port s x) (bufs s) (curTick s) (I x);
  v_hist : Hist (trace s) I W;
  v_owed : forall x, outstandingResponses (port s x) = owed x (trace s)
}.

(** ** Sides, lists and histories *)
Lemma other_other x : other (other x) = x.
Proof. by destruct x. Qed.
Lemma port_set s x q : port (set_port s x q) x = q.
Proof. by destruct x. Qed.
Lemma port_set_other s x q : port (set_port s x q) (other x) = port s (other x).
Proof. by destruct x. Qed.
Lemma set_set_port s x q q' : set_port (set_port s x q) x q' = set_port s x q'.
Proof. by destruct x. Qed.
Lemma pkts_set_port s x q : pkts (set_port s x q) = pkts s.
Proof. by destruct x. Qed.
Lemma bufs_set_port s x q : bufs (set_port s x q) = bufs s.
Proof. by destruct x. Qed.
Lemma nextBuf_set_port s x q : nextBuf (set_port s x q) = nextBuf s.
Proof. by destruct x. Qed.
Lemma curTick_set_port s x q : curTick (set_port s x q) = curTick s.
Proof. by destruct x. Qed.
Lemma trace_set_port s x q : trace (set_port s x q) = trace s.
Proof. by destruct x. Qed.
Lemma port_set_pkts s m x : port (set_pkts s m) x = port s x.
Proof. by destruct x. Qed.
Lemma port_set_bufs s m n x : port (set_bufs s m n) x = port s x.
Proof. by destruct x. Qed.
Lemma port_emit s e x : port (emit s e) x = port s x.
Proof. by destruct x. Qed.
Lemma port_set_tick s n x : port (set_tick s n) x = port s x.
Proof. by destruct x. Qed.
Create Rewrite HintDb bridge.
#[export] Hint Rewrite other_other port_set port_set_other set_set_port pkts_set_port bufs_set_port nextBuf_set_port curTick_set_port
  trace_set_port port_set_pkts port_set_bufs port_emit port_set_tick : bridge.
Ltac bs := unfold push_back, put_pkt, delete_buf in *; repeat (progress (autorewrite with bridge in *; simpl in * )).

(** A function of the side, changed at [x]. *)
Definition at_side {A} (f : Side -> A) (x : Side) (a : A) : Side -> A :=
  fun y => match x, y with SideA, SideA | SideB, SideB => a | _, _ => f y end.
Lemma at_side_eq {A} (f : Side -> A) x a : at_side f x a x = a.
Proof. by destruct x. Qed.
Lemma at_side_other {A} (f : Side -> A) x a : at_side f x a (other x) = f (other x).
Proof. by destruct x. Qed.
Lemma at_side_other' {A} (f : Side -> A) x a : at_side f (other x) a x = f x.
Proof. by destruct x. Qed.
#[export] Hint Rewrite @at_side_eq @at_side_other @at_side_other' : bridge.
Lemma side_ind (P : Side -> Prop) x : P x -> P (other x) -> forall y, P y.
Proof. destruct x; intros ?? []; done. Qed.

Lemma count_app f l l' : count f (l ++ l') = count f l + count f l'.
Proof. unfold count. rewrite filter_app, length_app. lia. Qed.
Lemma count_cons f it l : count f (it :: l) = Z.b2z (f it) + count f l.
Proof. unfold count. rewrite filter_cons. destruct (f it); case_decide; try done; simpl; lia. Qed.
Lemma count_nonneg f l : 0 <= count f l.
Proof. unfold count. lia. Qed.
Lemma passing_app l l' : passing (l ++ l') = passing l ++ passing l'.
Proof. unfold passing. by rewrite filter_app, fmap_app. Qed.
Lemma passing_cons it l : passing (it :: l) = (if is_nack it then [] else [(it_p it, body (it_k it))]) ++ passing l.
Proof. unfold passing. rewrite filter_cons. destruct (is_nack it); case_decide; done. Qed.
Lemma forwarded_app x h e : forwarded x (h ++ [e]) = forwarded x h ++ forwarded x [e].
Proof. apply omap_app. Qed.
Lemma bridge_sent_app x h e : sent x (h ++ [e]) = sent x h ++ sent x [e].
Proof. apply omap_app. Qed.
Lemma owed_app x h e : owed x (h ++ [e]) = owed x h + owes x e.
Proof. induction h as [|e' h IH]; simpl; [lia|]. rewrite IH. lia. Qed.
Lemma answered_mono h e x k : answered h x k -> answered (h ++ [e]) x k.
Proof. intros (b & p & k0 & k1 & ? & ? & ?). exists b, p, k0, k1. set_solver. Qed.

(** ** The objects *)
Lemma item_ok_frame bs ks it b buf p k : item_ok bs ks it -> it_b it <> b -> it_p it <> p -> item_ok (<[b := buf]> bs) (<[p := k]> ks) it.
Proof. intros [(buf' & ? & ?) ????] Hb Hp. constructor; try done; [exists buf'|]; by rewrite lookup_insert_ne. Qed.
Lemma item_ok_delete bs ks it b : item_ok bs ks it -> it_b it <> b -> item_ok (delete b bs) ks it.
Proof. intros [(buf' & ? & ?) ????] Hb. constructor; try done. exists buf'. by rewrite lookup_delete_ne. Qed.

Section heap.
Context (bs : gmap Z PacketBuffer) (ks : gmap Z Packet.t) (nb : Z) (I W : Side -> list Item).
Context (H : Heap bs ks nb I W).

Lemma heap_b_p x y it it' : it ∈ I x -> it' ∈ I y -> it_p it <> it_p it' -> it_b it <> it_b it'.
Proof.
  intros Hi Hi' Hne E. destruct (i_buf _ _ _ (h_items _ _ _ _ _ H x it Hi)) as (buf & Hb & Hp & _).
  destruct (i_buf _ _ _ (h_items _ _ _ _ _ H y it' Hi')) as (buf' & Hb' & Hp' & _). congruence.
Qed.
Lemma heap_b_w x y it it' : it ∈ I x -> it' ∈ W y -> it_b it <> it_b it'.
Proof.
  intros Hi Hi' E. destruct (i_buf _ _ _ (h_items _ _ _ _ _ H x it Hi)) as (buf & Hb & Hp & _).
  destruct (h_wait _ _ _ _ _ H y it' Hi') as (buf' & Hb' & Hp' & _). congruence.
Qed.
Lemma heap_b_fresh x it : it ∈ I x \/ it ∈ W x -> it_b it < nb.
Proof.
  intros [Hi|Hi].
  - destruct (i_buf _ _ _ (h_items _ _ _ _ _ H x it Hi)) as (buf & Hb & _). eapply h_fresh; eauto.
  - destruct (h_wait _ _ _ _ _ H x it Hi) as (buf & Hb & _). eapply h_fresh; eauto.
Qed.
(** The other packets are not the first one of a queue. *)
Lemma heap_head x it l y it' : I x = it :: l -> it' ∈ at_side I x l y -> it_p it' <> it_p it.
Proof.
  intros E Hi. pose proof (h_nodup_p _ _ _ _ _ H) as Hn. rewrite fmap_app in Hn. apply NoDup_app in Hn as (Ha & Hd & Hb).
  assert (Hl : forall l' : list Item, it' ∈ l' -> it_p it' ∈ it_p <$> l') by (intros; by apply list_elem_of_fmap_2).
  destruct x, y; simpl in *; rewrite E in *; simpl in *; rewrite ?NoDup_cons in *; intros Ep;
    apply Hl in Hi; rewrite Ep in Hi; naive_solver set_solver.
Qed.
Lemma heap_wait_other x w1 it w2 y it' : W x = w1 ++ it :: w2 -> it' ∈ at_side W x (w1 ++ w2) y -> it_b it' <> it_b it.
Proof.
  intros E Hi. pose proof (h_nodup_w _ _ _ _ _ H) as Hn. rewrite fmap_app in Hn. apply NoDup_app in Hn as (Ha & Hd & Hb).
  assert (Hl : forall l' : list Item, it' ∈ l' -> it_b it' ∈ it_b <$> l') by (intros; by apply list_elem_of_fmap_2).
  assert (Hp : W x ≡ₚ it :: (w1 ++ w2)) by (rewrite E; solve_Permutation).
  destruct x, y; simpl in *; try rewrite Hp in Ha; try rewrite Hp in Hb; simpl in *; rewrite ?NoDup_cons in *; intros Ep;
    apply Hl in Hi; rewrite Ep in Hi; try naive_solver;
    apply (Hd (it_b it)); try done; rewrite Hp; set_solver.
Qed.
(** A packet comes into a queue, in a new buffer. *)
Lemma heap_add x l1 l2 it buf : I x = l1 ++ l2 -> it_b it = nb -> (forall y it', it' ∈ I y -> it_p it' <> it_p it) ->
  item_ok (<[nb := buf]> bs) (<[it_p it := it_k it]> ks) it ->
  Heap (<[nb := buf]> bs) (<[it_p it := it_k it]> ks) (nb + 1) (at_side I x (l1 ++ it :: l2)) W.
Proof.
  intros E Eb Hp Hok. constructor.
  - intros y it' Hi. assert (Hd : it' = it \/ it' ∈ I y) by (destruct x, y; simpl in *; rewrite ?E in *; set_solver).
    destruct Hd as [->|Hd]; [done|]. apply item_ok_frame; [by apply (h_items _ _ _ _ _ H y)| |by apply (Hp y)].
    pose proof (heap_b_fresh y it' (or_introl Hd)). lia.
  - intros y it' Hi. destruct (h_wait _ _ _ _ _ H y it' Hi) as (buf' & ? & ?). exists buf'. pose proof (heap_b_fresh y it' (or_intror Hi)).
    by rewrite lookup_insert_ne by lia.
  - assert (Hperm : it_p <$> at_side I x (l1 ++ it :: l2) SideA ++ at_side I x (l1 ++ it :: l2) SideB ≡ₚ it_p it :: (it_p <$> I SideA ++ I SideB)).
    { rewrite <- fmap_cons. apply fmap_Permutation. destruct x; simpl; rewrite E; solve_Permutation. }
    rewrite Hperm. apply NoDup_cons. split; [|apply (h_nodup_p _ _ _ _ _ H)].
    intros (it' & Ep & Hi)%list_elem_of_fmap. apply elem_of_app in Hi as [Hi|Hi]; by apply Hp in Hi.
  - apply (h_nodup_w _ _ _ _ _ H).
  - intros b buf'. rewrite lookup_insert_Some. intros [[<- _]|[_ Hb]]; [lia|]. pose proof (h_fresh _ _ _ _ _ H b buf' Hb). lia.
Qed.
(** The buffer of an answered request is deleted. *)
Lemma heap_answer x w1 it w2 : W x = w1 ++ it :: w2 -> Heap (delete (it_b it) bs) ks nb I (at_side W x (w1 ++ w2)).
Proof.
  intros E. assert (Hit : it ∈ W x) by (rewrite E; set_solver). constructor.
  - intros y it' Hi. pose proof (h_items _ _ _ _ _ H y it' Hi) as Hok. apply item_ok_delete; [done|]. by apply (heap_b_w y x).
  - intros y it' Hi. assert (Hd : it' ∈ W y) by (destruct x, y; simpl in *; rewrite ?E; set_solver).
    destruct (h_wait _ _ _ _ _ H y it' Hd) as (buf' & ? & ?). exists buf'. rewrite lookup_delete_ne; [done|].
    intros Eb. by apply (heap_wait_other x w1 it w2 y it').
  - apply (h_nodup_p _ _ _ _ _ H).
  - assert (Hperm : it_b it :: (it_b <$> at_side W x (w1 ++ w2) SideA ++ at_side W x (w1 ++ w2) SideB) ≡ₚ it_b <$> W SideA ++ W SideB).
    { rewrite <- fmap_cons. apply fmap_Permutation. destruct x; simpl; rewrite E; solve_Permutation. }
    pose proof (h_nodup_w _ _ _ _ _ H) as Hn. rewrite <- Hperm in Hn. by apply NoDup_cons in Hn as [_ ?].
  - intros b buf' [_ Hb]%lookup_delete_Some. by apply (h_fresh _ _ _ _ _ H b buf').
Qed.
(** The first packet of a queue is sent, ... *)
Lemma heap_nodup_tail x it l : I x = it :: l -> NoDup (it_p <$> at_side I x l SideA ++ at_side I x l SideB).
Proof.
  intros E. pose proof (h_nodup_p _ _ _ _ _ H) as Hn.
  assert (Hperm : it_p <$> I SideA ++ I SideB ≡ₚ it_p it :: (it_p <$> at_side I x l SideA ++ at_side I x l SideB)).
  { rewrite <- fmap_cons. apply fmap_Permutation. destruct x; simpl; rewrite E; solve_Permutation. }
  rewrite Hperm in Hn. by apply NoDup_cons in Hn as [_ ?].
Qed.
Lemma heap_tail_ok x it l k y it' : I x = it :: l -> it' ∈ at_side I x l y -> item_ok bs (<[it_p it := k]> ks) it' /\ it_b it' <> it_b it.
Proof.
  intros E Hi. pose proof (heap_head x it l y it' E Hi) as Hne.
  assert (Hd : it' ∈ I y) by (destruct x, y; simpl in *; rewrite ?E; set_solver). split.
  - destruct (h_items _ _ _ _ _ H y it' Hd) as [?????]. constructor; try done. by rewrite lookup_insert_ne.
  - apply (heap_b_p y x); [done|rewrite E; set_solver|done].
Qed.
(** ... and its buffer is deleted ... *)
Lemma heap_send x it l k : I x = it :: l -> Heap (delete (it_b it) bs) (<[it_p it := k]> ks) nb (at_side I x l) W.
Proof.
  intros E. constructor.
  - intros y it' Hi. destruct (heap_tail_ok x it l k y it' E Hi) as [? ?]. by apply item_ok_delete.
  - intros y it' Hi. destruct (h_wait _ _ _ _ _ H y it' Hi) as (buf' & ? & ?). exists buf'. rewrite lookup_delete_ne; [done|].
    apply (heap_b_w x y); [rewrite E; set_solver|done].
  - by eapply heap_nodup_tail.
  - apply (h_nodup_w _ _ _ _ _ H).
  - intros b buf' [_ Hb]%lookup_delete_Some. by apply (h_fresh _ _ _ _ _ H b buf').
Qed.
(** ... or waits for the response. *)
Lemma heap_send_wait x it l k buf : I x = it :: l -> pkt buf = None -> orig_ok buf it ->
  Heap (<[it_b it := buf]> bs) (<[it_p it := k]> ks) nb (at_side I x l) (at_side W (other x) (it :: W (other x))).
Proof.
  intros E Hp Ho. assert (Hit : it ∈ I x) by (rewrite E; set_solver). constructor.
  - intros y it' Hi. destruct (heap_tail_ok x it l k y it' E Hi) as [[(buf' & Hb & ?) ????] ?]. constructor; try done.
    exists buf'. by rewrite lookup_insert_ne.
  - intros y it' Hi. assert (Hd : it' = it \/ it' ∈ W y) by (destruct x, y; simpl in *; set_solver).
    destruct Hd as [->|Hd]; [exists buf; by rewrite lookup_insert_eq|].
    destruct (h_wait _ _ _ _ _ H y it' Hd) as (buf' & ? & ?). exists buf'. rewrite lookup_insert_ne; [done|]. by apply (heap_b_w x y).
  - by eapply heap_nodup_tail.
  - assert (Hperm : it_b <$> at_side W (other x) (it :: W (other x)) SideA ++ at_side W (other x) (it :: W (other x)) SideB ≡ₚ it_b it :: (it_b <$> W SideA ++ W SideB)).
    { rewrite <- fmap_cons. apply fmap_Permutation. destruct x; simpl; solve_Permutation. }
    rewrite Hperm. apply NoDup_cons. split; [|apply (h_nodup_w _ _ _ _ _ H)].
    intros (it' & Ep & Hi)%list_elem_of_fmap. apply elem_of_app in Hi as [Hi|Hi]; by apply (heap_b_w x _ it it' Hit Hi).
  - intros b buf'. rewrite lookup_insert_Some. intros [[<- _]|[_ Hb]]; [apply (heap_b_fresh x it); auto|by apply (h_fresh _ _ _ _ _ H b buf')].
Qed.
End heap.

(** ** The history *)
Section history.
Context (h : list Ev) (I W : Side -> list Item).
Context (H : Hist h I W).

(** An event with nothing to pair. *)
Lemma hist_away_mono e : (forall x b, is_request_of x b e = false) -> forall x b e', e' ∈ h ++ [e] -> is_request_of x b e' = true ->
  (exists it, it ∈ W (other x) /\ it_b it = b) \/ (exists e', e' ∈ h ++ [e] /\ is_response_to x b e' = true).
Proof.
  intros He x b e' [Hin| ->%list_elem_of_singleton]%elem_of_app Hr; [|by rewrite He in Hr].
  destruct (t_away _ _ _ H x b e' Hin Hr) as [?|(e'' & ? & ?)]; [by left|]. right. exists e''. set_solver.
Qed.
Lemma hist_wait_mono e x it : it ∈ W x ->
  EForward x (it_p it) (it_k0 it) ∈ h ++ [e] /\ exists k1, ESend (other x) (it_b it) (it_p it) k1 false true ∈ h ++ [e].
Proof. intros Hit. destruct (t_wait _ _ _ H x it Hit) as [? [k1 ?]]. split; [set_solver|]. exists k1. set_solver. Qed.
Lemma hist_sent_mono e x b p k ok : (forall y b p k ok, e <> ESend y b p k false ok) -> ESend x b p k false ok ∈ h ++ [e] -> Packet.isRequest k = false ->
  answered (h ++ [e]) x k.
Proof. intros He [Hin|Hin%list_elem_of_singleton]%elem_of_app Hk; [|by edestruct He]. by eapply answered_mono, t_sent. Qed.

(** A packet is turned back. *)
Lemma hist_nack x l1 l2 it p : I x = l1 ++ l2 -> is_nack it = true -> Hist (h ++ [ENack x p]) (at_side I x (l1 ++ it :: l2)) W.
Proof.
  intros E Hn. assert (He : is_exp it = false /\ is_resp it = false) by (unfold is_nack, is_exp, is_resp in *; by destruct (it_kind it)).
  assert (Hd : forall y it', it' ∈ at_side I x (l1 ++ it :: l2) y -> it' = it \/ it' ∈ I y) by (intros; destruct x, y; simpl in *; rewrite ?E in *; set_solver).
  constructor.
  - intros y. rewrite forwarded_app, bridge_sent_app. simpl. rewrite !app_nil_r, (t_fifo _ _ _ H y). f_equal.
    destruct x, y; simpl; try done; by rewrite E, !passing_app, passing_cons, Hn.
  - intros y it' [->|Hi]%Hd ?; [naive_solver congruence|]. apply elem_of_app. left. by eapply t_req.
  - intros y it' [->|Hi]%Hd ?; [naive_solver congruence|]. by eapply answered_mono, t_resp.
  - intros y it' ?. by apply hist_wait_mono.
  - by apply hist_away_mono.
  - intros. by eapply hist_sent_mono.
Qed.
(** A packet comes in on the other side and is queued. *)
Lemma hist_forward x it p k W' : it_p it = p -> is_nack it = false -> body (it_k it) = body k ->
  (is_exp it = true -> it_k0 it = k) -> (is_resp it = true -> answered (h ++ [EForward (other x) p k]) x (it_k it)) ->
  (forall y w, w ∈ W' y -> w ∈ W y) -> (forall y w, w ∈ W y -> w ∈ W' y \/ (y = x /\ is_response_to (other x) (it_b w) (EForward (other x) p k) = true)) ->
  Hist (h ++ [EForward (other x) p k]) (at_side I x (I x ++ [it])) W'.
Proof.
  intros Ep Hn Eb He Hr Hw Hw'.
  assert (Hd : forall y it', it' ∈ at_side I x (I x ++ [it]) y -> (it' = it /\ y = x) \/ it' ∈ I y) by (intros; destruct x, y; simpl in *; set_solver).
  constructor.
  - intros y. rewrite forwarded_app, bridge_sent_app. simpl. rewrite app_nil_r, (t_fifo _ _ _ H y), <- app_assoc. f_equal.
    destruct x, y; simpl; rewrite ?app_nil_r; try done; by rewrite passing_app, passing_cons, Hn, Ep, Eb.
  - intros y it' [[-> ->]|Hi]%Hd Hx; [rewrite Ep, (He Hx); set_solver|]. apply elem_of_app. left. by eapply t_req.
  - intros y it' [[-> ->]|Hi]%Hd ?; [auto|]. by eapply answered_mono, t_resp.
  - intros y it' ?. by apply hist_wait_mono, Hw.
  - intros y b e Hin Hq. destruct (hist_away_mono (EForward (other x) p k) (fun _ _ => eq_refl) y b e Hin Hq) as [(w & Hin' & <-)|?]; [|by right].
    destruct (Hw' _ _ Hin') as [?|[Ey Hq']]; [left; by exists w|]. right. exists (EForward (other x) p k). split; [set_solver|].
    assert (y = other x) as -> by (by destruct x, y). done.
  - intros. by eapply hist_sent_mono.
Qed.
(** The first packet of a queue is refused or accepted by the bus. *)
Lemma hist_fail x b p k nk : (nk = false -> Packet.isRequest k = false -> answered h x k) -> Hist (h ++ [ESend x b p k nk false]) I W.
Proof.
  intros Ha. constructor.
  - intros y. rewrite forwarded_app, bridge_sent_app. simpl. destruct nk; simpl; rewrite !app_nil_r; apply (t_fifo _ _ _ H y).
  - intros y it' ??. apply elem_of_app. left. by eapply t_req.
  - intros y it' ??. by eapply answered_mono, t_resp.
  - intros y it' ?. by apply hist_wait_mono.
  - apply hist_away_mono. intros. by destruct nk.
  - intros y b' p' k' ok [Hin|Hin%list_elem_of_singleton]%elem_of_app Hk; [by eapply answered_mono, t_sent|].
    injection Hin as -> -> -> -> <- ->. by apply answered_mono, Ha.
Qed.
Lemma hist_send x it l k : I x = it :: l -> body k = body (it_k it) -> Packet.isRequest k = is_req it -> (is_resp it = true -> k = it_k it) ->
  (is_nack it = false -> Packet.needsResponse k = is_exp it) ->
  Hist (h ++ [ESend x (it_b it) (it_p it) k (is_nack it) true]) (at_side I x l) (if is_exp it then at_side W (other x) (it :: W (other x)) else W).
Proof.
  intros E Eb Eq Er Ee. assert (Hit : it ∈ I x) by (rewrite E; set_solver).
  assert (Hd : forall y it', it' ∈ at_side I x l y -> it' ∈ I y) by (intros; destruct x, y; simpl in *; rewrite ?E; set_solver).
  assert (Hw : forall y it', it' ∈ W y -> it' ∈ (if is_exp it then at_side W (other x) (it :: W (other x)) else W) y)
    by (intros; destruct (is_exp it); [|done]; destruct x, y; simpl; set_solver).
  constructor.
  - intros y. rewrite forwarded_app, bridge_sent_app. simpl. rewrite app_nil_r, (t_fifo _ _ _ H y), <- app_assoc. f_equal.
    destruct (is_nack it) eqn:En, x, y; simpl; try done; by rewrite E, passing_cons, En, ?Eb.
  - intros y it' Hi%Hd ?. apply elem_of_app. left. by eapply t_req.
  - intros y it' Hi%Hd ?. by eapply answered_mono, t_resp.
  - intros y it' Hi. assert (Hc : it' ∈ W y \/ (it' = it /\ y = other x /\ is_exp it = true)) by (destruct (is_exp it); [|by left]; destruct x, y; simpl in *; set_solver).
    destruct Hc as [Hc|(-> & -> & Hx)]; [by apply hist_wait_mono|]. rewrite other_other.
    split; [apply elem_of_app; left; by eapply t_req|]. exists k.
    assert (is_nack it = false) as -> by (unfold is_nack, is_exp in *; by destruct (it_kind it)). set_solver.
  - intros y b e [Hin| ->%list_elem_of_singleton]%elem_of_app Hq.
    + destruct (t_away _ _ _ H y b e Hin Hq) as [(w & ? & ?)|(e'' & ? & ?)]; [left; exists w; auto|]. right. exists e''. set_solver.
    + left. simpl in Hq. destruct (is_nack it) eqn:En; [done|]. apply andb_true_iff in Hq as [[<-%bool_decide_eq_true <-%Z.eqb_eq]%andb_true_iff Hx].
      rewrite Ee in Hx by done. exists it. split; [|done]. rewrite Hx. bs. set_solver.
  - intros y b' p' k' ok [Hin|Hin%list_elem_of_singleton]%elem_of_app Hk; [by eapply answered_mono, t_sent|].
    injection Hin as -> -> -> -> En ->. apply answered_mono.
    assert (Hx : is_resp it = true) by (rewrite Eq in Hk; unfold is_nack, is_req, is_resp in *; by destruct (it_kind it)).
    rewrite (Er Hx). by eapply t_resp.
Qed.
End history.

(** ** Ports and events *)
Lemma event_ok_ext q q' bs bs' now l : sendEvent q' = sendEvent q -> inRetry q' = inRetry q ->
  (forall it, it ∈ l -> bs' !! it_b it = bs !! it_b it) -> event_ok q bs now l -> event_ok q' bs' now l.
Proof.
  intros E1 E2 Hb. destruct l as [|it l]; simpl; rewrite E1, E2; [done|]. unfold rdy. rewrite (Hb it) by set_solver. done.
Qed.
(** What comes after the first packet does not matter. *)
Lemma event_ok_head q bs now it l l' : event_ok q bs now (it :: l) -> event_ok q bs now (it :: l').
Proof. done. Qed.
(** A buffer that is none of the queue's changes. *)
Lemma event_ok_insert q bs now l b buf : (forall it, it ∈ l -> it_b it <> b) -> event_ok q bs now l -> event_ok q (<[b := buf]> bs) now l.
Proof. intros Hb. apply event_ok_ext; [done..|]. intros it Hi. by rewrite lookup_insert_ne by (by apply not_eq_sym, Hb). Qed.
Lemma event_ok_del q bs now l b : (forall it, it ∈ l -> it_b it <> b) -> event_ok q bs now l -> event_ok q (delete b bs) now l.
Proof. intros Hb. apply event_ok_ext; [done..|]. intros it Hi. by rewrite lookup_delete_ne by (by apply not_eq_sym, Hb). Qed.
Lemma Port_ok_ext q q' here there there' wait : Port_ok q here there wait -> sendQueue q' = sendQueue q -> queuedRequests q' = queuedRequests q ->
  outstandingResponses q' = outstandingResponses q -> reqQueueLimit q' = reqQueueLimit q -> respQueueLimit q' = respQueueLimit q ->
  delay q' = delay q -> nackDelay q' = nackDelay q -> count is_exp there' = count is_exp there -> Port_ok q' here there' wait.
Proof. intros [?????[??]] E1 E2 E3 E4 E5 E6 E7 E8. constructor; rewrite ?E1, ?E2, ?E3, ?E4, ?E5, ?E6, ?E7, ?E8; auto. Qed.

(** ** Turning a packet back *)
Lemma nacked_packet k : 0 <= Packet.flags k -> Packet.needsResponse k = true -> Packet.isSrcValid k = true ->
  exists r n, Packet.makeTimingResponse k = Ok r /\ Packet.setNacked r = Ok n /\ Packet.getDest n = Ok (Packet.src k) /\
    Packet.isRequest n = false /\ Packet.senderState n = Packet.senderState k.
Proof.
  intros Hf Hn Hs. destruct (makeResponse_ok k Hf Hn) as (r & Hr & Ec & Eo & Ed & Edv & Esv & E1 & E2 & E3 & E4).
  assert (Hresp : Packet.isResponse r = true) by (unfold Packet.isResponse; rewrite Ec; unfold Packet.needsResponse in Hn; by destruct (Packet.cmd k)).
  exists r. eexists. split_and!; [done| | | |].
  - unfold Packet.setNacked. rewrite Hresp. cbn [c_assert]. by bind_step.
  - unfold Packet.getDest. unfold Packet.isDestValid in Edv. simpl. rewrite Edv, Hs. simpl. by rewrite Ed.
  - done.
  - done.
Qed.

(** The loop finds its place. *)
Lemma bridge_insert_before_ok s rt b l e : (forall i, i ∈ l -> is_Some (bufs s !! i)) -> last l = Some e -> rt < rdy (bufs s) e ->
  exists l1 l2, insert_before s rt b l = Ok (Some (match l1 with [] => true | _ => false end, l1 ++ b :: l2)) /\ l = l1 ++ l2 /\
    (exists i l2', l2 = i :: l2' /\ rt < rdy (bufs s) i).
Proof.
  induction l as [|i l IH]; intros Hl He Hrt; [done|]. cbn [insert_before]. unfold get_buf.
  destruct (Hl i) as [buf Hb]; [set_solver|]. rewrite Hb. cbn [deref]. bind_step. destruct (Z.ltb_spec rt (ready buf)) as [Hlt|Hge].
  - exists [], (i :: l). split_and!; try done. exists i, l. split; [done|]. unfold rdy. by rewrite Hb.
  - destruct l as [|j l]; [simpl in He; injection He as <-; unfold rdy in Hrt; rewrite Hb in Hrt; lia|].
    destruct IH as (l1 & l2 & E & El & Hi); [intros; apply Hl; set_solver|done|done|].
    rewrite E. bind_step. exists (i :: l1), l2. split; [done|]. split; [by rewrite El|done].
Qed.

(** The queue of [q], with the counters as they are. *)
Definition same_counters (q q' : BridgePort) : Prop :=
  queuedRequests q' = queuedRequests q /\ outstandingResponses q' = outstandingResponses q /\ reqQueueLimit q' = reqQueueLimit q /\
  respQueueLimit q' = respQueueLimit q /\ delay q' = delay q /\ nackDelay q' = nackDelay q.

Lemma inv_nack s s' I W x l1 l2 it buf : Inv s I W -> I x = l1 ++ l2 -> it_b it = nextBuf s -> it_kind it = KNack ->
  (forall y it', it' ∈ I y -> it_p it' <> it_p it) -> Packet.isRequest (it_k it) = false ->
  pkt buf = Some (it_p it) -> nackedHere buf = true -> expectResponse buf = false ->
  pkts s' = <[it_p it := it_k it]> (pkts s) -> bufs s' = <[nextBuf s := buf]> (bufs s) -> nextBuf s' = nextBuf s + 1 ->
  curTick s' = curTick s -> trace s' = trace s ++ [ENack x (it_p it)] -> port s' (other x) = port s (other x) ->
  same_counters (port s x) (port s' x) -> sendQueue (port s' x) = it_b <$> (l1 ++ it :: l2) ->
  event_ok (port s' x) (<[nextBuf s := buf]> (bufs s)) (curTick s) (l1 ++ it :: l2) ->
  Inv s' (at_side I x (l1 ++ it :: l2)) W.
Proof.
  intros H E Eb Ek Hp Hq B1 B2 B3 S1 S2 S3 S4 S5 S6 (C1 & C2 & C3 & C4 & C5 & C6) Sq Hev.
  assert (F : is_nack it = true /\ is_req it = false /\ is_exp it = false /\ is_resp it = false)
    by (unfold is_nack, is_req, is_exp, is_resp; by rewrite Ek). destruct F as (F1 & F2 & F3 & F4).
  assert (Cx : forall f, f it = false -> count f (l1 ++ it :: l2) = count f (I x)) by (intros f Hf; rewrite E, !count_app, count_cons, Hf; simpl; lia).
  constructor.
  - rewrite S1, S2, S3. apply heap_add; [apply H|done..|]. constructor; rewrite ?F1, ?F2, ?F3; try done.
    + exists buf. rewrite Eb, lookup_insert_eq. done.
    + by rewrite lookup_insert_eq.
  - apply (side_ind _ x); bs.
    + destruct (v_port _ _ _ H x) as [?????[??]]. constructor; rewrite ?C1, ?C2, ?C3, ?C4, ?C5, ?C6, ?Sq, ?(Cx is_req), ?(Cx is_resp) by done; auto.
    + rewrite S6. eapply Port_ok_ext; [apply (v_port _ _ _ H (other x))|..]; try done. bs. by apply Cx.
  - rewrite S2, S4. apply (side_ind _ x); bs; [done|]. rewrite S6. apply event_ok_insert; [|apply (v_event _ _ _ H)].
    intros it' Hi. pose proof (heap_b_fresh _ _ _ _ _ (v_heap _ _ _ H) (other x) it' (or_introl Hi)). lia.
  - rewrite S5. apply hist_nack; [apply H|done..].
  - rewrite S5. apply (side_ind _ x); rewrite owed_app; simpl; rewrite Z.add_0_r, <- (v_owed _ _ _ H); [done|by rewrite S6].
Qed.

Lemma bridge_schedule_ok s x w : curTick s <= w -> sendEvent (port s x) = None -> schedule s x w = Ok (set_port s x (set_event (port s x) (Some w))).
Proof. intros Hw He. unfold schedule. rewrite (proj2 (Z.leb_le _ _)) by done. cbn [c_assert]. bind_step. by rewrite He. Qed.
Lemma bridge_reschedule_ok s x w w0 : curTick s <= w -> sendEvent (port s x) = Some w0 -> reschedule s x w = Ok (set_port s x (set_event (port s x) (Some w))).
Proof. intros Hw He. unfold reschedule. rewrite (proj2 (Z.leb_le _ _)) by done. cbn [c_assert]. bind_step. by rewrite He. Qed.
Lemma new_buffer_nack s p k a tick : pkts s !! p = Some k -> Packet.getDest k = Ok a ->
  new_buffer s p tick true = Ok (nextBuf s, set_bufs s (<[nextBuf s := mkBuffer tick (Some p) true (Packet.senderState k) a false]> (bufs s)) (nextBuf s + 1)).
Proof. intros Hk Ha. unfold new_buffer, get_pkt. rewrite Hk. cbn [deref]. bind_step. rewrite Ha. bind_step. by rewrite !andb_false_r. Qed.

Lemma event_scheduled q bs now it l : event_ok q bs now (it :: l) -> bool_decide (is_Some (sendEvent q)) || inRetry q = true.
Proof. simpl. destruct (inRetry q); [by rewrite orb_true_r|]. intros (w & -> & _). done. Qed.
Lemma nack_enqueue_ok s x b rt its : sendQueue (port s x) = it_b <$> its -> (forall it, it ∈ its -> is_Some (bufs s !! it_b it)) ->
  event_ok (port s x) (bufs s) (curTick s) its -> rdy (bufs s) b = rt -> curTick s <= rt ->
  exists l1 l2 q, its = l1 ++ l2 /\ nack_enqueue s x b rt = Ok (set_port s x q) /\ same_counters (port s x) q /\
    sendQueue q = (it_b <$> l1) ++ b :: (it_b <$> l2) /\ forall it, it_b it = b -> event_ok q (bufs s) (curTick s) (l1 ++ it :: l2).
Proof.
  intros Eq Hl He Hb Hrt. unfold nack_enqueue. rewrite Eq. destruct its as [|it0 its'] eqn:Ei; [|rewrite <- Ei in *].
  - destruct He as [He1 He2]. simpl. rewrite bool_decide_eq_true_2 by done. cbn [c_assert]. bind_step. rewrite bridge_schedule_ok by done. bind_step. bs.
    eexists [], [], _. split_and!; [done..| |]; simpl; [by rewrite Eq|]. intros it <-. rewrite He2. exists rt. split_and!; [done|done|lia].
  - assert (exists l ite, its = l ++ [ite]) as (l & ite & El) by (destruct (exists_last (l := its)) as (l & ite & ?); [by rewrite Ei|eauto]).
    assert (Hla : last (it_b <$> its) = Some (it_b ite)) by (rewrite El, fmap_app; apply last_snoc). rewrite Hla.
    assert (Hsc := He). rewrite Ei in Hsc. apply event_scheduled in Hsc. rewrite Hsc. cbn [c_assert]. bind_step. clear Hsc.
    destruct (Hl ite) as [bufe Hbe]; [rewrite El; set_solver|]. unfold get_buf. rewrite Hbe. cbn [deref]. bind_step.
    destruct (Z.leb_spec (ready bufe) rt) as [Hle|Hgt].
    { eexists its, [], _. split_and!; [by rewrite app_nil_r|unfold push_back; done|done|by simpl; rewrite Eq|].
      intros it _. rewrite Ei in *. apply (event_ok_head _ _ _ it0 its'). by eapply event_ok_ext; [..|exact He]. }
    destruct (bridge_insert_before_ok s rt b (it_b <$> its) (it_b ite)) as (k1 & k2 & -> & Es & i & k2' & -> & Hi); [| |unfold rdy; rewrite Hbe; lia|].
    { intros i (it' & -> & Hi)%list_elem_of_fmap. by apply Hl. }
    { done. }
    bind_step. apply fmap_app_inv in Es as (l1 & l2 & -> & Ek2 & ->). destruct l2 as [|it2 l2]; [done|]. injection Ek2 as -> ->.
    clear Ei El Hla. destruct l1 as [|it1 l1]; cbn [fmap list_fmap app] in *.
    + simpl in He. destruct (inRetry (port s x)) eqn:Er; [lia|]. destruct He as (w & Hw & _). rewrite (bridge_reschedule_ok s x rt w) by done. bind_step. bs.
      eexists [], (it2 :: l2), _. split_and!; [done..|]. intros it <-. simpl. rewrite Er. exists rt. split_and!; [done|done|lia].
    + bind_step. eexists (it1 :: l1), (it2 :: l2), _. split_and!; [done..|]. intros it _. by eapply event_ok_ext; [..|exact He].
Qed.

Lemma nackRequest_ok s I W x p k : Inv s I W -> pkts s !! p = Some k -> 0 <= Packet.flags k -> Packet.needsResponse k = true ->
  Packet.isSrcValid k = true -> (forall y it', it' ∈ I y -> it_p it' <> p) ->
  exists s' I', nackRequest s x p = Ok s' /\ Inv (emit s' (ENack x p)) I' W.
Proof.
  intros H Hk Hf Hn Hs Hp. destruct (nacked_packet k Hf Hn Hs) as (r & n & Er & En & Ed & Eq & _).
  unfold nackRequest, get_pkt. rewrite Hk. cbn [deref]. bind_step. rewrite Er. bind_step. rewrite En. bind_step.
  rewrite (new_buffer_nack (put_pkt s p n) p n (Packet.src k)) by (try apply lookup_insert_eq; done). bind_step. cbn [fst snd]. bs.
  set (buf := mkBuffer (curTick s + nackDelay (port s x)) (Some p) true (Packet.senderState n) (Packet.src k) false).
  set (it := mkItem (nextBuf s) p n n KNack). set (s1 := set_bufs _ _ _). assert (Hs1 : port s1 x = port s x) by (unfold s1; bs; done).
  pose proof (v_port _ _ _ H x) as [Cq _ _ _ _ [Cd1 Cd2]].
  assert (Hbs : forall it', it' ∈ I x -> bufs s1 !! it_b it' = bufs s !! it_b it').
  { intros it' Hi. simpl. rewrite lookup_insert_ne; [done|]. pose proof (heap_b_fresh _ _ _ _ _ (v_heap _ _ _ H) x it' (or_introl Hi)). lia. }
  destruct (nack_enqueue_ok s1 x (nextBuf s) (curTick s + nackDelay (port s x)) (I x)) as (l1 & l2 & q & El & -> & Hc & Hq & Hev); rewrite ?Hs1 in *; try done.
  - intros it' Hi. rewrite Hbs by done. destruct (i_buf _ _ _ (h_items _ _ _ _ _ (v_heap _ _ _ H) x it' Hi)) as (b' & -> & _). eauto.
  - eapply event_ok_ext; [..|apply (v_event _ _ _ H x)]; done.
  - unfold rdy, s1. simpl. by rewrite lookup_insert_eq.
  - simpl. lia.
  - eexists _, _. split; [done|]. apply (inv_nack s _ I W x l1 l2 it buf); unfold s1 in *; bs; try done; [by rewrite Hq, fmap_app|by apply (Hev it)].
Qed.

(** ** Passing a packet on *)
(** The port [q] with a new buffer [b], ready at [rt], and [n] more requests. *)
Definition enqueue (q : BridgePort) (b rt n : Z) : BridgePort :=
  mkPort (delay q) (nackDelay q) (sendQueue q ++ [b]) (outstandingResponses q) (queuedRequests q + n) (inRetry q) (reqQueueLimit q) (respQueueLimit q)
    (match sendQueue q with [] => Some rt | _ => sendEvent q end).
(** [s'] is [s] with a new buffer [buf] for packet [p], now [k], in the queue of [x]. *)
Record queued (s : t) (x : Side) (p n : Z) (k : Packet.t) (buf : PacketBuffer) (bs0 : gmap Z PacketBuffer) (s' : t) : Prop := mkQueued {
  q_pkts : pkts s' = <[p := k]> (pkts s);
  q_bufs : bufs s' = <[nextBuf s := buf]> bs0;
  q_next : nextBuf s' = nextBuf s + 1;
  q_tick : curTick s' = curTick s;
  q_trace : trace s' = trace s;
  q_other : port s' (other x) = port s (other x);
  q_port : port s' x = enqueue (port s x) (nextBuf s) (ready buf) n
}.

Lemma queue_request s x p k a : pkts s !! p = Some k -> Packet.isRequest k = true -> Packet.getSrc k = Ok a -> 0 <= delay (port s x) ->
  (sendQueue (port s x) = [] -> sendEvent (port s x) = None) ->
  let rt := curTick s + delay (port s x) in
  exists s', queueForSendTiming s x p = Ok s' /\
    queued s x p 1 (set_senderState k (Some (nextBuf s))) (mkBuffer rt (Some p) false (Packet.senderState k) a (Packet.needsResponse k)) (bufs s) s'.
Proof.
  intros Hk Hq Ha Hd Hev rt. assert (Hr : Packet.isResponse k = false) by (unfold Packet.isRequest, Packet.isResponse in *; by destruct (Packet.cmd k)).
  unfold queueForSendTiming, get_pkt. rewrite Hk. cbn [deref]. bind_step. rewrite Hr, Hq. bind_step. bs.
  unfold new_buffer, get_pkt. bs. rewrite Hk. cbn [deref]. bind_step. rewrite Ha. bind_step. rewrite Hr. cbn [negb]. rewrite !andb_true_r. bs.
  destruct (sendQueue (port s x)) as [|b0 l0] eqn:El.
  - rewrite bridge_schedule_ok; [|bs; lia|bs; by apply Hev]. bind_step. eexists. split; [done|]. split; bs; try done. unfold enqueue. by rewrite El.
  - bind_step. eexists. split; [done|]. split; bs; try done. unfold enqueue. by rewrite El.
Qed.
Lemma queue_response s x p k a b buf : pkts s !! p = Some k -> Packet.isResponse k = true -> Packet.getSrc k = Ok a -> 0 <= delay (port s x) ->
  (sendQueue (port s x) = [] -> sendEvent (port s x) = None) -> Packet.senderState k = Some b -> bufs s !! b = Some buf ->
  let rt := curTick s + delay (port s x) in let k' := set_senderState (Packet.setDest k (origSrc buf)) (origSenderState buf) in
  exists s', queueForSendTiming s x p = Ok s' /\
    queued s x p 0 k' (mkBuffer rt (Some p) false (Packet.senderState k') a false) (delete b (bufs s)) s'.
Proof.
  intros Hk Hr Ha Hd Hev Hss Hb rt k'. 
  assert (Hq : Packet.isRequest k = false /\ Packet.needsResponse k = false) by (unfold Packet.isRequest, Packet.isResponse, Packet.needsResponse in *; by destruct (Packet.cmd k)).
  destruct Hq as [Hq Hn].
  assert (Ha' : Packet.getSrc k' = Ok a /\ Packet.isResponse k' = true /\ Packet.needsResponse k' = false).
  { split_and!; try done. unfold k', Packet.getSrc in *. simpl. by rewrite isSet_set_other. }
  destruct Ha' as (Ha' & Hr' & Hn').
  unfold queueForSendTiming, get_pkt. rewrite Hk. cbn [deref]. bind_step. rewrite Hr, Hq, Hss. rewrite bool_decide_eq_true_2 by (by rewrite Hb). bind_step.
  unfold fixResponse, get_buf, get_pkt. rewrite Hb, Hk. cbn [deref]. do 2 bind_step. rewrite bool_decide_eq_true_2 by done. cbn [c_assert]. do 3 bind_step.
  fold k'. bs. unfold new_buffer, get_pkt. bs. rewrite lookup_insert_eq. cbn [deref]. bind_step. rewrite Ha'. bind_step. rewrite Hr', Hn'. cbn [negb andb]. bs.
  destruct (sendQueue (port s x)) as [|b0 l0] eqn:El.
  - rewrite bridge_schedule_ok; [|bs; lia|bs; by apply Hev]. bind_step. eexists. split; [done|]. split; bs; try done. unfold enqueue. by rewrite El, Z.add_0_r; destruct (port s x).
  - bind_step. eexists. split; [done|]. split; bs; try done. unfold enqueue. by rewrite El, Z.add_0_r; destruct (port s x).
Qed.

Lemma event_ok_enqueue q bs bs' now l it b rt n : event_ok q bs now l -> sendQueue q = it_b <$> l -> (forall it', it' ∈ l -> bs' !! it_b it' = bs !! it_b it') ->
  rdy bs' (it_b it) = rt -> now <= rt -> event_ok (enqueue q b rt n) bs' now (l ++ [it]).
Proof.
  intros He Eq Hbs Hr Hrt. destruct l as [|it0 l].
  - destruct He as [E1 E2]. simpl. rewrite Eq, E2, Hr. exists rt. simpl. by split_and!.
  - apply (event_ok_head _ _ _ it0 l). eapply event_ok_ext; [..|exact He]; try done. simpl. by rewrite Eq.
Qed.

Lemma inv_forward s s' I W' x it buf bs0 n k : (forall y, event_ok (port s y) (bufs s) (curTick s) (I y)) -> sendQueue (port s x) = it_b <$> I x -> queued s x (it_p it) n (it_k it) buf bs0 s' ->
  Heap bs0 (pkts s) (nextBuf s) I W' -> (forall y it', it' ∈ I y -> bs0 !! it_b it' = bufs s !! it_b it') ->
  it_b it = nextBuf s -> (forall y it', it' ∈ I y -> it_p it' <> it_p it) ->
  item_ok (<[nextBuf s := buf]> bs0) (<[it_p it := it_k it]> (pkts s)) it -> curTick s <= ready buf ->
  Hist (trace s ++ [EForward (other x) (it_p it) k]) (at_side I x (I x ++ [it])) W' ->
  Port_ok (port s' x) (I x ++ [it]) (I (other x)) (W' x) -> Port_ok (port s (other x)) (I (other x)) (I x ++ [it]) (W' (other x)) ->
  (forall y, outstandingResponses (port s y) = owed y (trace s) + owes y (EForward (other x) (it_p it) k)) ->
  Inv (emit s' (EForward (other x) (it_p it) k)) (at_side I x (I x ++ [it])) W'.
Proof.
  intros He Eq [S1 S2 S3 S4 S5 S6 S7] Hh Hbs Eb Hp Hok Hrt Hh' P1 P2 Ho.
  assert (Hbs' : forall y it', it' ∈ I y -> <[nextBuf s := buf]> bs0 !! it_b it' = bufs s !! it_b it').
  { intros y it' Hi. rewrite lookup_insert_ne; [by apply (Hbs y)|]. pose proof (heap_b_fresh _ _ _ _ _ Hh y it' (or_introl Hi)). lia. }
  constructor; bs.
  - rewrite S1, S2, S3. apply heap_add; [done|by rewrite app_nil_r|done..].
  - apply (side_ind _ x); bs; [done|by rewrite S6].
  - rewrite S2, S4. apply (side_ind _ x); bs.
    + rewrite S7. apply (event_ok_enqueue _ (bufs s)); [apply He|done|apply Hbs'| |done].
      unfold rdy. by rewrite Eb, lookup_insert_eq.
    + rewrite S6. eapply event_ok_ext; [done..| |apply He]. apply Hbs'.
  - by rewrite S5.
  - apply (side_ind _ x); bs; rewrite S5, owed_app, <- Ho; [by rewrite S7|by rewrite S6].
Qed.

(** ** Arrivals *)
Lemma reqQueueFull_ok s I W x : Inv s I W -> reqQueueFull s x = Ok (reqQueueLimit (port s x) <=? queuedRequests (port s x)).
Proof.
  intros H. destruct (v_port _ _ _ H x) as [A1 A2 A3 A4 A5 [A6 A7]]. pose proof (count_nonneg is_req (I x)).
  unfold reqQueueFull. rewrite (proj2 (andb_true_iff _ _)) by (split; apply Z.leb_le; lia). done.
Qed.
Lemma respQueueFull_ok s I W x : Inv s I W -> respQueueFull s x = Ok (respQueueLimit (port s x) <=? outstandingResponses (port s x)).
Proof.
  intros H. destruct (v_port _ _ _ H x) as [A1 A2 A3 A4 A5 [A6 A7]]. pose proof (count_nonneg is_resp (I x)). pose proof (count_nonneg is_exp (I (other x))).
  unfold respQueueFull. rewrite (proj2 (andb_true_iff _ _)) by (split; apply Z.leb_le; lia). done.
Qed.
(** A request that came in on the other side is queued; room for its response has
    been reserved there. *)
Lemma forward_request_ok s s0 I W x p k : Inv s I W -> pkts s !! p = Some k -> Packet.isRequest k = true -> Packet.isSrcValid k = true -> node_id (Packet.src k) ->
  (forall y it', it' ∈ I y -> it_p it' <> p) -> queuedRequests (port s x) < reqQueueLimit (port s x) ->
  pkts s0 = pkts s -> bufs s0 = bufs s -> nextBuf s0 = nextBuf s -> curTick s0 = curTick s -> trace s0 = trace s -> port s0 x = port s x ->
  port s0 (other x) = set_outstanding (port s (other x)) (outstandingResponses (port s (other x)) + Z.b2z (Packet.needsResponse k)) ->
  outstandingResponses (port s (other x)) + Z.b2z (Packet.needsResponse k) <= respQueueLimit (port s (other x)) ->
  exists s' I', queueForSendTiming s0 x p = Ok s' /\ Inv (emit s' (EForward (other x) p k)) I' W.
Proof.
  intros H Hk Hq Hs Hid Hp Hroom S1 S2 S3 S4 S5 S6 S7 Hlim.
  assert (Ha : Packet.getSrc k = Ok (Packet.src k)) by (unfold Packet.getSrc; unfold Packet.isSrcValid in Hs; by rewrite Hs).
  pose proof (v_event _ _ _ H) as He. destruct (v_port _ _ _ H x) as [A1 A2 A3 A4 A5 [A6 A7]], (v_port _ _ _ H (other x)) as [B1 B2 B3 B4 B5 [B6 B7]].
  destruct (queue_request s0 x p k (Packet.src k)) as (s' & E & Hqd); rewrite ?S1, ?S6; try done.
  { rewrite A1. specialize (He x). destruct (I x); [|done]. by destruct He. }
  set (it := mkItem (nextBuf s) p (set_senderState k (Some (nextBuf s))) k (KReq (Packet.needsResponse k))).
  set (buf := mkBuffer (curTick s0 + delay (port s0 x)) (Some p) false (Packet.senderState k) (Packet.src k) (Packet.needsResponse k)) in *.
  assert (Hrt : curTick s0 <= ready buf) by (simpl; rewrite S6; lia).
  exists s', (at_side I x (I x ++ [it])). split; [done|]. rewrite S3 in Hqd.
  apply (inv_forward s0 s' I W x it buf (bufs s0) 1 k); try done.
  - intros y. rewrite S2, S4. revert y. apply (side_ind _ x); [by rewrite S6|]. rewrite S7. eapply event_ok_ext; [..|apply He]; done.
  - by rewrite S6.
  - rewrite S1, S2, S3. apply H.
  - rewrite S1, S2, S3. constructor; simpl; try done; [|by rewrite lookup_insert_eq].
    exists buf. rewrite lookup_insert_eq. by split_and!.
  - rewrite S5. apply (hist_forward _ I W); [apply H|done..| |].
    + done.
    + auto.
  - destruct Hqd as [_ _ _ _ _ _ ->]. rewrite S6. constructor; simpl; rewrite ?count_app, ?count_cons; simpl; try done; try lia.
    + by rewrite A1, fmap_app, S3.
    + rewrite A2. unfold count. simpl. lia.
    + rewrite A4. unfold count. simpl. lia.
  - rewrite S7. constructor; simpl; rewrite ?count_app, ?count_cons; simpl; try done; try lia.
    rewrite B4, other_other. unfold is_exp at 3. simpl. unfold count. simpl. lia.
  - rewrite S5. apply (side_ind _ x); rewrite ?S6, ?S7; simpl; rewrite (v_owed _ _ _ H).
    + rewrite bool_decide_eq_false_2 by (by destruct x). simpl. lia.
    + rewrite bool_decide_eq_true_2 by done. by destruct (Packet.needsResponse k).
Qed.
Lemma recv_request_ok s I W x p k : Inv s I W -> pkts s !! p = Some k -> 0 <= Packet.flags k -> Packet.isRequest k = true -> Packet.isSrcValid k = true -> node_id (Packet.src k) ->
  (forall y it', it' ∈ I y -> it_p it' <> p) ->
  Packet.needsResponse k = true \/ queuedRequests (port s (other x)) < reqQueueLimit (port s (other x)) ->
  exists s' I', recvTiming s x p = Ok (true, s') /\ Inv s' I' W.
Proof.
  intros H Hk Hf Hq Hs Hid Hp Hroom. unfold recvTiming, get_pkt. rewrite Hk. cbn [deref]. bind_step. rewrite Hq, (reqQueueFull_ok s I W) by done. bind_step.
  destruct (v_port _ _ _ H x) as [A1 A2 A3 A4 A5 [A6 A7]], (v_port _ _ _ H (other x)) as [B1 B2 B3 B4 B5 [B6 B7]].
  destruct (Z.leb_spec (reqQueueLimit (port s (other x))) (queuedRequests (port s (other x)))) as [Hfull|Hnf].
  { destruct (nackRequest_ok s I W x p k) as (s' & I' & -> & HI); auto; [destruct Hroom; [done|lia]|]. bind_step. by eexists _, I'. }
  assert (Hgo : forall s0, pkts s0 = pkts s -> bufs s0 = bufs s -> nextBuf s0 = nextBuf s -> curTick s0 = curTick s -> trace s0 = trace s ->
    port s0 (other x) = port s (other x) -> port s0 x = set_outstanding (port s x) (outstandingResponses (port s x) + Z.b2z (Packet.needsResponse k)) ->
    outstandingResponses (port s x) + Z.b2z (Packet.needsResponse k) <= respQueueLimit (port s x) ->
    exists s' I', (s1 ← queueForSendTiming s0 (other x) p; Ok (true, emit s1 (EForward x p k))) = Ok (true, s') /\ Inv s' I' W).
  { intros. destruct (forward_request_ok s s0 I W (other x) p k) as (s' & I' & -> & HI); rewrite ?other_other in *; try done.
    bind_step. by eexists _, I'. }
  destruct (Packet.needsResponse k) eqn:En; cycle 1.
  { bind_step. apply Hgo; try done; [|simpl; lia]. simpl. rewrite Z.add_0_r. by destruct (port s x). }
  rewrite (respQueueFull_ok s I W) by done. bind_step.
  destruct (Z.leb_spec (respQueueLimit (port s x)) (outstandingResponses (port s x))) as [Hfull'|Hnf'].
  { destruct (nackRequest_ok s I W x p k) as (s' & I' & -> & HI); auto. bind_step. by eexists _, I'. }
  bind_step. apply Hgo; bs; try done. lia.
Qed.

(** A response to a request that is waited for is queued for the request's side. *)
Lemma forward_response_ok s I W x p k w : Inv s I W -> pkts s !! p = Some k -> Packet.isResponse k = true -> Packet.isSrcValid k = true ->
  (forall y it', it' ∈ I y -> it_p it' <> p) -> w ∈ W x -> Packet.senderState k = Some (it_b w) ->
  exists s' I' W', queueForSendTiming s x p = Ok s' /\ Inv (emit s' (EForward (other x) p k)) I' W'.
Proof.
  intros H Hk Hr Hs Hp Hw Hss.
  assert (Ha : Packet.getSrc k = Ok (Packet.src k)) by (unfold Packet.getSrc; unfold Packet.isSrcValid in Hs; by rewrite Hs).
  assert (Hq : Packet.isRequest k = false /\ Packet.needsResponse k = false) by (unfold Packet.isRequest, Packet.isResponse, Packet.needsResponse in *; by destruct (Packet.cmd k)).
  pose proof (v_event _ _ _ H) as He. destruct (v_port _ _ _ H x) as [A1 A2 A3 A4 A5 [A6 A7]].
  destruct (h_wait _ _ _ _ _ (v_heap _ _ _ H) x w Hw) as (bufw & Hbw & _ & Hid & Hos & Hoss & Hon).
  destruct (t_wait _ _ _ (v_hist _ _ _ H) x w Hw) as (T1 & k1 & T2).
  destruct (queue_response s x p k (Packet.src k) (it_b w) bufw) as (s' & E & Hqd); try done;
    [rewrite A1; specialize (He x); destruct (I x); [by destruct He|done]|].
  set (k' := set_senderState (Packet.setDest k (origSrc bufw)) (origSenderState bufw)) in *.
  set (it := mkItem (nextBuf s) p k' k KResp).
  set (buf := mkBuffer (curTick s + delay (port s x)) (Some p) false (Packet.senderState k') (Packet.src k) false) in *.
  assert (Hrt : curTick s <= ready buf) by (simpl; lia).
  apply list_elem_of_split in Hw as Hsp. destruct Hsp as (w1 & w2 & EW).
  exists s', (at_side I x (I x ++ [it])), (at_side W x (w1 ++ w2)). split; [done|].
  apply (inv_forward s s' I _ x it buf (delete (it_b w) (bufs s)) 0 k); try done.
  - by apply heap_answer; [apply H|].
  - intros y it' Hi. rewrite lookup_delete_ne; [done|]. apply not_eq_sym, (heap_b_w _ _ _ _ _ (v_heap _ _ _ H) y x it' w Hi Hw).
  - constructor; simpl; try done; try (intros; apply Hq); [|by rewrite lookup_insert_eq]. exists buf. rewrite lookup_insert_eq. by split_and!.
  - apply (hist_forward _ I W); [apply H|done..| | |].
    + intros _. exists (it_b w), (it_p w), (it_k0 w), k1. split_and!; [set_solver|set_solver|done| |by rewrite Hoss].
      rewrite Hos. unfold Packet.getDest, k'. simpl. rewrite isSet_set_same by done. simpl. rewrite sint_small; [done|lia|exact Hid].
    + intros y it' Hi. destruct x, y; simpl in *; rewrite ?EW; set_solver.
    + intros y it' Hi. destruct (decide (y = x)) as [->|Hne]; [|left; by destruct x, y]. bs. rewrite EW in Hi.
      apply elem_of_app in Hi as [?|[-> |?]%elem_of_cons]; [left; set_solver| |left; set_solver].
      right. split; [done|]. simpl. rewrite !bool_decide_eq_true_2, Hr by done. done.
  - destruct Hqd as [_ _ _ _ _ _ ->]. bs. constructor; simpl; rewrite ?count_app, ?count_cons; simpl; try done; try lia.
    + by rewrite A1, fmap_app.
    + rewrite A2. unfold count. simpl. lia.
    + rewrite A4, EW, !length_app. unfold count. simpl. lia.
  - bs. eapply Port_ok_ext; [apply (v_port _ _ _ H (other x))|..]; try done. bs. rewrite count_app. unfold count. simpl. lia.
  - intros y. simpl. rewrite (proj2 Hq), andb_false_r, (v_owed _ _ _ H). lia.
Qed.
Lemma recv_response_ok s I W x p k w : Inv s I W -> pkts s !! p = Some k -> Packet.isResponse k = true -> Packet.isSrcValid k = true ->
  (forall y it', it' ∈ I y -> it_p it' <> p) -> w ∈ W (other x) -> Packet.senderState k = Some (it_b w) ->
  exists s' I' W', recvTiming s x p = Ok (true, s') /\ Inv s' I' W'.
Proof.
  intros H Hk Hr Hs Hp Hw Hss. destruct (forward_response_ok s I W (other x) p k w) as (s' & I' & W' & E & HI); try done. rewrite other_other in HI.
  assert (Hq : Packet.isRequest k = false /\ Packet.needsResponse k = false) by (unfold Packet.isRequest, Packet.isResponse, Packet.needsResponse in *; by destruct (Packet.cmd k)).
  unfold recvTiming, get_pkt. rewrite Hk. cbn [deref]. bind_step. rewrite (proj1 Hq), (proj2 Hq). do 2 bind_step. rewrite E. bind_step. by eexists _, I', W'.
Qed.

(** ** Sending *)
Lemma set_senderState_same k : set_senderState k (Packet.senderState k) = k.
Proof. by destruct k. Qed.
Lemma set_senderState_twice k v v' : set_senderState (set_senderState k v) v' = set_senderState k v'.
Proof. done. Qed.

(** The bus refuses the first packet. *)
Lemma inv_refused s s' I W x it l k : Heap (bufs s) (pkts s) (nextBuf s) I W -> (forall y, Port_ok (port s y) (I y) (I (other y)) (W y)) ->
  event_ok (port s (other x)) (bufs s) (curTick s) (I (other x)) -> Hist (trace s) I W -> (forall y, outstandingResponses (port s y) = owed y (trace s)) -> I x = it :: l -> sendEvent (port s x) = None ->
  rdy (bufs s) (it_b it) <= curTick s -> (is_nack it = false -> Packet.isRequest k = false -> k = it_k it) -> Packet.isRequest k = is_req it ->
  pkts s' = pkts s -> bufs s' = bufs s -> nextBuf s' = nextBuf s -> curTick s' = curTick s ->
  trace s' = trace s ++ [ESend x (it_b it) (it_p it) k (is_nack it) false] -> port s' x = set_retry (port s x) true -> port s' (other x) = port s (other x) ->
  Inv s' I W.
Proof.
  intros Hh Hp He Ht Ho E Hev Hr Hk Hq S1 S2 S3 S4 S5 S6 S7. constructor.
  - by rewrite S1, S2, S3.
  - apply (side_ind _ x); [rewrite S6|by rewrite S7]. eapply Port_ok_ext; [apply (Hp x)|..]; done.
  - rewrite S2, S4. apply (side_ind _ x); [|by rewrite S7]. rewrite E, S6. simpl. by split.
  - rewrite S5. apply hist_fail; [done|]. intros Hn Hnr. rewrite (Hk Hn Hnr). eapply t_resp; [done|rewrite E; set_solver|].
    rewrite Hq in Hnr. unfold is_nack, is_req, is_resp in *. by destruct (it_kind it).
  - intros y. rewrite S5, owed_app. assert (owes y (ESend x (it_b it) (it_p it) k (is_nack it) false) = 0) as -> by (by destruct (is_nack it)).
    rewrite Z.add_0_r, <- Ho. revert y. apply (side_ind _ x); [by rewrite S6|by rewrite S7].
Qed.

(** The bus takes it: the counter, and the queue without it. *)
Definition dequeue (q : BridgePort) (it : Item) (l : list Item) (w : option Z) : BridgePort :=
  mkPort (delay q) (nackDelay q) (it_b <$> l) (outstandingResponses q - Z.b2z (is_resp it)) (queuedRequests q - Z.b2z (is_req it)) (inRetry q)
    (reqQueueLimit q) (respQueueLimit q) w.
Lemma inv_taken s s' I W x it l k w : Heap (bufs s) (pkts s) (nextBuf s) I W -> (forall y, Port_ok (port s y) (I y) (I (other y)) (W y)) ->
  event_ok (port s (other x)) (bufs s) (curTick s) (I (other x)) -> Hist (trace s) I W -> (forall y, outstandingResponses (port s y) = owed y (trace s)) -> I x = it :: l -> inRetry (port s x) = false ->
  body k = body (it_k it) -> Packet.isRequest k = is_req it -> (is_resp it = true -> k = it_k it) -> (is_nack it = false -> Packet.needsResponse k = is_exp it) ->
  (forall b, b <> it_b it -> bufs s' !! b = bufs s !! b) ->
  let W' := if is_exp it then at_side W (other x) (it :: W (other x)) else W in
  Heap (bufs s') (pkts s') (nextBuf s') (at_side I x l) W' -> curTick s' = curTick s ->
  trace s' = trace s ++ [ESend x (it_b it) (it_p it) k (is_nack it) true] -> port s' x = dequeue (port s x) it l w -> port s' (other x) = port s (other x) ->
  event_ok (port s' x) (bufs s') (curTick s) l ->
  Inv s' (at_side I x l) W'.
Proof.
  intros Hh Hp He Ht Ho E Hir Eb Eq Er Ee Hbs W' Hh' S4 S5 S6 S7 Hev.
  destruct (Hp x) as [A1 A2 A3 A4 A5 [A6 A7]], (Hp (other x)) as [B1 B2 B3 B4 B5 [B6 B7]]. rewrite E, count_cons in *. rewrite other_other, E, count_cons in B4.
  pose proof (count_nonneg is_req l). pose proof (count_nonneg is_resp l).
  assert (HW : Z.of_nat (length (W' (other x))) = Z.b2z (is_exp it) + Z.of_nat (length (W (other x))) /\ W' x = W x)
    by (unfold W'; destruct (is_exp it); bs; split; done || lia). destruct HW as [HW1 HW2].
  constructor; [done| | | |].
  - apply (side_ind _ x); bs.
    + rewrite S6, HW2. constructor; simpl; try done; try lia; destruct (is_req it), (is_resp it); simpl in *; lia.
    + rewrite S7. constructor; try done. rewrite HW1. bs. lia.
  - rewrite S4. apply (side_ind _ x); bs; [done|]. rewrite S7. eapply event_ok_ext; [done..| |done]. intros it' Hi. apply Hbs.
    pose proof (heap_head _ _ _ _ _ Hh x it l (other x) it' E) as Hne. bs. apply (heap_b_p _ _ _ _ _ Hh (other x) x); [done|rewrite E; set_solver|auto].
  - rewrite S5. by apply hist_send.
  - rewrite S5. apply (side_ind _ x); rewrite owed_app, <- Ho, ?S6, ?S7; simpl.
    + rewrite bool_decide_eq_true_2, Eq by done. unfold is_nack, is_req, is_resp in *. destruct (it_kind it); simpl; lia.
    + rewrite bool_decide_eq_false_2 by (by destruct x). destruct (is_nack it); simpl; lia.
Qed.

(** The buffers after the packet of [it] was taken. *)
Definition bufs_taken (bs : gmap Z PacketBuffer) (it : Item) (buf : PacketBuffer) : gmap Z PacketBuffer :=
  if expectResponse buf then <[it_b it := mkBuffer (ready buf) None (nackedHere buf) (origSenderState buf) (origSrc buf) (expectResponse buf)]> bs else delete (it_b it) bs.
Lemma bufs_taken_ne bs it buf b : b <> it_b it -> bufs_taken bs it buf !! b = bs !! b.
Proof. intros Hne. unfold bufs_taken. destruct (expectResponse buf); [by rewrite lookup_insert_ne|by rewrite lookup_delete_ne]. Qed.
Lemma send_done_ok s x it l buf : sendQueue (port s x) = it_b it :: (it_b <$> l) -> sendEvent (port s x) = None -> nackedHere buf = is_nack it ->
  let s' := send_done s x (it_b it) buf (is_req it) in
  pkts s' = pkts s /\ bufs s' = bufs_taken (bufs s) it buf /\ nextBuf s' = nextBuf s /\ curTick s' = curTick s /\ trace s' = trace s /\
  port s' (other x) = port s (other x) /\ port s' x = dequeue (port s x) it l None.
Proof.
  intros Eq Hev Hn. unfold send_done, bufs_taken, dequeue. rewrite Eq, Hn. rewrite <- Hev at 1.
  destruct (expectResponse buf); unfold is_req, is_resp, is_nack; destruct (it_kind it); bs; split_and!; try done.
  all: destruct (port s x); simpl in *; subst; by rewrite ?Z.sub_0_r.
Qed.

Lemma heap_taken bs ks nb I W x it l buf k : Heap bs ks nb I W -> I x = it :: l -> bs !! it_b it = Some buf ->
  Heap (bufs_taken bs it buf) (<[it_p it := k]> ks) nb (at_side I x l) (if is_exp it then at_side W (other x) (it :: W (other x)) else W).
Proof.
  intros H E Hb. destruct (h_items _ _ _ _ _ H x it ltac:(rewrite E; set_solver)) as [(buf' & Hb' & _ & _ & Ex & Ho) ????].
  rewrite Hb in Hb'. injection Hb' as <-. unfold bufs_taken. rewrite Ex. destruct (is_exp it) eqn:Ee; [|by apply heap_send].
  apply heap_send_wait; try done. by destruct (Ho eq_refl).
Qed.

(** The bus of a side takes every packet. *)
Definition accepts (env : Env) (x : Side) : Prop := forall h k, sendTiming env h x k = true.

Lemma trySend_ok env s I W x it l : Heap (bufs s) (pkts s) (nextBuf s) I W -> (forall y, Port_ok (port s y) (I y) (I (other y)) (W y)) ->
  event_ok (port s (other x)) (bufs s) (curTick s) (I (other x)) -> Hist (trace s) I W -> (forall y, outstandingResponses (port s y) = owed y (trace s)) -> I x = it :: l -> sendEvent (port s x) = None ->
  inRetry (port s x) = false -> rdy (bufs s) (it_b it) <= curTick s ->
  exists s' I' W', trySend env s x = Ok s' /\ Inv s' I' W' /\ (accepts env x -> I' = at_side I x l).
Proof.
  intros Hh Hp He Ht Hw E Hev Hir Hr. destruct (h_items _ _ _ _ _ Hh x it ltac:(rewrite E; set_solver)) as [(buf & Hb & Hbp & Hbn & Hbe & Ho) Hk Hq Hbd Hx].
  pose proof (c_queue _ _ _ _ (Hp x)) as Eq. rewrite E in Eq. simpl in Eq.
  unfold rdy in Hr. rewrite Hb in Hr. unfold trySend, get_buf, get_pkt. rewrite Eq. bind_step. rewrite Hb. cbn [deref]. bind_step.
  rewrite (proj2 (Z.leb_le _ _)) by done. cbn [c_assert]. bind_step. rewrite Hbp. cbn [deref]. bind_step. rewrite Hk. cbn [deref]. bind_step.
  set (k' := if Packet.isRequest (it_k it) && negb (expectResponse buf) then set_senderState (it_k it) None else it_k it).
  assert (Hk' : body k' = body (it_k it) /\ Packet.isRequest k' = is_req it /\ (is_req it = false -> k' = it_k it) /\
    Packet.needsResponse k' = Packet.needsResponse (it_k it) /\ set_senderState k' (Packet.senderState (it_k it)) = it_k it).
  { unfold k'. rewrite Hq. destruct (is_req it), (expectResponse buf); simpl; split_and!; try done; by destruct (it_k it). }
  destruct Hk' as (K1 & K2 & K3 & K4 & K5).
  assert (Hrs : is_resp it = true -> is_req it = false) by (unfold is_resp, is_req; by destruct (it_kind it)).
  bs. rewrite Hbn. destruct (sendTiming env (trace s) x k') eqn:Es.
  - set (s1 := emit _ _). destruct (send_done_ok s1 x it l buf) as (F1 & F2 & F3 & F4 & F5 & F6 & F7); [unfold s1; by bs..|].
    rewrite Hq. set (s2 := send_done _ _ _ _ _) in *. unfold s1 in *. bs. clearbody s2. set (bs2 := bufs_taken (bufs s) it buf) in *.
    assert (Hbs2 : forall b, b <> it_b it -> bs2 !! b = bufs s !! b) by apply bufs_taken_ne.
    assert (HI : forall s' w, pkts s' = pkts s2 -> bufs s' = bufs s2 -> nextBuf s' = nextBuf s2 -> curTick s' = curTick s2 -> trace s' = trace s2 ->
      port s' (other x) = port s2 (other x) -> port s' x = dequeue (port s x) it l w -> event_ok (port s' x) bs2 (curTick s) l -> exists W', Inv s' (at_side I x l) W').
    { intros s' w G1 G2 G3 G4 G5 G6 G7 G8. rewrite F1, F2, F3, F4, F5, F6 in *. eexists. eapply (inv_taken s s' I W x it l k' w); rewrite ?G1, ?G2, ?G3; auto.
      - intros Hn. by rewrite K4, Hx.
      - by apply heap_taken. }
    rewrite F7. simpl. destruct l as [|n l].
    + destruct (HI s2 None) as (W' & ?); try done; [by rewrite F7|]. by exists s2, (at_side I x []), W'.
    + assert (Hn : it_b n <> it_b it) by (eapply (heap_tail_ok _ _ _ _ _ Hh x it (n :: l) k' x); [done|bs; set_solver]).
      destruct (h_items _ _ _ _ _ Hh x n ltac:(rewrite E; set_solver)) as [(nb & Hnb & _) _ _ _ _].
      simpl. rewrite F2, (Hbs2 _ Hn), Hnb. cbn [deref]. bind_step.
      rewrite (bridge_schedule_ok s2) by (rewrite ?F4, ?F7; simpl; lia || done).
      edestruct (HI (set_port s2 x (set_event (port s2 x) (Some (Z.max (ready nb) (curTick s2 + 1)))))) as (W' & HI'); bs; try done.
      * rewrite F7. done.
      * rewrite F7. simpl. rewrite Hir. eexists. split; [done|]. unfold rdy. rewrite (Hbs2 _ Hn), Hnb, F4. lia.
      * by eexists _, (at_side I x (n :: l)), W'.
  - eexists _, I, W. split; [done|]. split; [|intros Hacc; by rewrite Hacc in Es]. rewrite K5. eapply (inv_refused s _ I W x it l k'); bs; try done.
    + unfold rdy. by rewrite Hb.
    + intros _ Hn. apply K3. by rewrite <- K2.
    + rewrite insert_insert_eq. by apply insert_id.
Qed.

Lemma process_send_ok env s I W x : Inv s I W -> sendEvent (port s x) = Some (curTick s) -> 
  exists s' I' W', process_send env s x = Ok s' /\ Inv s' I' W' /\ (accepts env x -> I' = at_side I x (tail (I x))).
Proof.
  intros H He. pose proof (v_event _ _ _ H x) as Hev. destruct (I x) as [|it l] eqn:E; [destruct Hev; congruence|].
  simpl in Hev. destruct (inRetry (port s x)) eqn:Er; [destruct Hev; congruence|]. destruct Hev as (w & Hw & _ & Hr). rewrite He in Hw. injection Hw as <-.
  unfold process_send. eapply (trySend_ok _ _ I W x it l); bs; try done; try apply H; [|intros y; rewrite <- (v_owed _ _ _ H y); revert y; by apply (side_ind _ x); [rewrite port_set|rewrite port_set_other]].
  apply (side_ind _ x); [rewrite port_set|rewrite port_set_other; apply H]. eapply Port_ok_ext; [apply (v_port _ _ _ H x)|..]; done.
Qed.
Lemma bridge_recvRetry_ok env s I W x : Inv s I W -> inRetry (port s x) = true -> 
  exists s' I' W', recvRetry env s x = Ok s' /\ Inv s' I' W' /\ (accepts env x -> I' = at_side I x (tail (I x))).
Proof.
  intros H Hr. pose proof (v_event _ _ _ H x) as Hev. pose proof (c_queue _ _ _ _ (v_port _ _ _ H x)) as Eq.
  destruct (I x) as [|it l] eqn:E; [destruct Hev; congruence|]. simpl in Hev. rewrite Hr in Hev. destruct Hev as [Hev Hrd].
  destruct (i_buf _ _ _ (h_items _ _ _ _ _ (v_heap _ _ _ H) x it ltac:(rewrite E; set_solver))) as (buf & Hb & _).
  assert (Hle : ready buf <= curTick s) by (unfold rdy in Hrd; by rewrite Hb in Hrd).
  unfold recvRetry, get_buf. bs. rewrite Eq. simpl. rewrite Hb. cbn [deref]. bind_step. rewrite (proj2 (Z.leb_le _ _)) by done.
  eapply (trySend_ok _ _ I W x it l); bs; try done; try apply H; [|intros y; rewrite <- (v_owed _ _ _ H y); revert y; by apply (side_ind _ x); [rewrite port_set|rewrite port_set_other]].
  apply (side_ind _ x); [rewrite port_set|rewrite port_set_other; apply H]. eapply Port_ok_ext; [apply (v_port _ _ _ H x)|..]; done.
Qed.

(** ** Runs *)
Inductive Op := Arrive (x : Side) (p : Z) (k : Packet.t) | Service (x : Side) | Retry (x : Side) | Advance (n : Z).
Definition step (env : Env) (s : t) (op : Op) : res t :=
  match op with
  | Arrive x p k => r ← recvTiming (put_pkt s p k) x p; Ok r.2
  | Service x => process_send env s x
  | Retry x => recvRetry env s x
  | Advance n => Ok (set_tick s n)
  end.
Fixpoint run (env : Env) (s : t) (ops : list Op) : res t := match ops with [] => Ok s | op :: ops => s ← step env s op; run env s ops end.

(** The packet is in one of the queues. *)
Definition held (s : t) (p : Z) : bool := existsb (fun bb : Z * PacketBuffer => bool_decide (pkt bb.2 = Some p)) (map_to_list (bufs s)).
(** A request was sent on side [x] from buffer [b] and has not been answered. *)
Definition pending (h : list Ev) (x : Side) (b : Z) : bool := existsb (is_request_of x b) h && negb (existsb (is_response_to x b) h).
(** What the buses and the simulator do: a packet comes with its source, a [NodeID], and is not one
    that the bridge has; a request needs a response or there is room for it; a response
    carries the state of a request that waits for it; an event is serviced at its time;
    a retry comes if one was asked for. *)
Definition legal (s : t) (op : Op) : bool :=
  match op with
  | Arrive x p k =>
      Packet.isSrcValid k && bool_decide (node_id (Packet.src k)) && (0 <=? Packet.flags k) && negb (held s p) &&
      (if Packet.isRequest k
       then Packet.needsResponse k || (queuedRequests (port s (other x)) <? reqQueueLimit (port s (other x)))
       else Packet.isResponse k && match Packet.senderState k with Some b => pending (trace s) x b | None => false end)
  | Service x => bool_decide (sendEvent (port s x) = Some (curTick s))
  | Retry x => inRetry (port s x)
  | Advance n => (curTick s <=? n) && forallb (fun x => match sendEvent (port s x) with Some w => n <=? w | None => true end) [SideA; SideB]
  end.
Fixpoint legal_run (env : Env) (s : t) (ops : list Op) : bool :=
  match ops with [] => true | op :: ops => legal s op && match step env s op with Ok s' => legal_run env s' ops | Er _ => true end end.

Lemma held_items s I W p y it : Inv s I W -> held s p = false -> it ∈ I y -> it_p it <> p.
Proof.
  intros H Hh Hi <-. destruct (i_buf _ _ _ (h_items _ _ _ _ _ (v_heap _ _ _ H) y it Hi)) as (buf & Hb & Hp & _).
  apply not_true_iff_false in Hh. apply Hh, existsb_exists. exists (it_b it, buf). split; [|by apply bool_decide_eq_true_2].
  apply list_elem_of_In. by apply elem_of_map_to_list.
Qed.
Lemma inv_put s I W p k : Inv s I W -> (forall y it, it ∈ I y -> it_p it <> p) -> Inv (put_pkt s p k) I W.
Proof.
  intros [[H1 H2 H3 H4 H5] Hp He Ht Ho] Hne. constructor; intros; bs; try done. constructor; try done.
  intros x it Hi. destruct (H1 x it Hi) as [?????]. constructor; try done. rewrite lookup_insert_ne; [done|]. by apply not_eq_sym, (Hne x).
Qed.
Lemma inv_advance s I W n : Inv s I W -> legal s (Advance n) = true -> Inv (set_tick s n) I W.
Proof.
  intros [Hh Hp He Ht Ho] [Hn Hl]%andb_true_iff. apply Z.leb_le in Hn. constructor; try intros x; bs; try done.
  specialize (He x). assert (Hx : match sendEvent (port s x) with Some w => n <=? w | None => true end = true)
    by (rewrite !andb_true_r in Hl; apply andb_true_iff in Hl; destruct x; simpl; tauto).
  unfold event_ok in *. destruct (I x) as [|it l]; [done|]. destruct (inRetry (port s x)); [destruct He; split; [done|lia]|].
  destruct He as (w & Hw & ? & ?). rewrite Hw in Hx. apply Z.leb_le in Hx. exists w. by split_and!.
Qed.
Lemma bridge_step_ok env s I W op : Inv s I W -> legal s op = true -> exists s' I' W', step env s op = Ok s' /\ Inv s' I' W'.
Proof.
  intros H Hl. destruct op as [x p k|x|x|n]; simpl in *.
  - apply andb_true_iff in Hl as [[[[Hs Hid%bool_decide_eq_true]%andb_true_iff Hf%Z.leb_le]%andb_true_iff Hh%negb_true_iff]%andb_true_iff Hl].
    assert (Hne : forall y it, it ∈ I y -> it_p it <> p) by (intros; by eapply held_items).
    assert (H' := inv_put s I W p k H Hne). assert (Hk : pkts (put_pkt s p k) !! p = Some k) by apply lookup_insert_eq.
    destruct (Packet.isRequest k) eqn:Eq.
    + destruct (recv_request_ok (put_pkt s p k) I W x p k) as (s' & I' & -> & HI); auto; [|by eexists _, I', W].
      apply orb_true_iff in Hl as [?|?%Z.ltb_lt]; [by left|right]. by bs.
    + apply andb_true_iff in Hl as [Hr Hl]. destruct (Packet.senderState k) as [b|] eqn:Es; [|done].
      apply andb_true_iff in Hl as [(e & He & Hq)%existsb_exists Hna%negb_true_iff].
      destruct (t_away _ _ _ (v_hist _ _ _ H) x b e) as [(w & Hw & <-)|(e' & He' & Hq')]; [by apply list_elem_of_In|done| |].
      * destruct (recv_response_ok (put_pkt s p k) I W x p k w) as (s' & I' & W' & -> & HI); auto. by eexists _, I', W'.
      * exfalso. apply not_true_iff_false in Hna. apply Hna, existsb_exists. exists e'. split; [by apply list_elem_of_In|done].
  - apply bool_decide_eq_true in Hl. destruct (process_send_ok env s I W x H Hl) as (s' & I' & W' & ? & ? & _). eauto.
  - destruct (bridge_recvRetry_ok env s I W x H Hl) as (s' & I' & W' & ? & ? & _). eauto.
  - eexists _, I, W. split; [done|]. by apply inv_advance.
Qed.
Lemma bridge_run_ok env ops : forall s I W, Inv s I W -> legal_run env s ops = true -> exists s' I' W', run env s ops = Ok s' /\ Inv s' I' W'.
Proof.
  induction ops as [|op ops IH]; intros s I W H Hl; [by exists s, I, W|]. simpl in *. apply andb_true_iff in Hl as [Hl Hr].
  destruct (bridge_step_ok env s I W op H Hl) as (s' & I' & W' & E & H'). rewrite E in *. bind_step. by eapply IH.
Qed.

Lemma inv_new delay nack_delay req_a resp_a req_b resp_b tick s :
  0 <= delay -> 0 <= nack_delay -> 0 <= req_a -> 0 <= resp_a -> 0 <= req_b -> 0 <= resp_b ->
  new delay nack_delay req_a resp_a req_b resp_b false tick = Ok s -> Inv s (fun _ => []) (fun _ => []).
Proof.
  intros ?????? E. injection E as <-. constructor; simpl.
  - constructor; simpl; try set_solver; try (apply NoDup_nil_2).
  - intros []; constructor; simpl; done || (unfold count; simpl; lia).
  - by intros [].
  - constructor; set_solver.
  - by intros [].
Qed.

(** ** Progress *)
Lemma schedule_trace s x w s' : schedule s x w = Ok s' -> trace s' = trace s.
Proof. unfold schedule. intros E. inv_res. by bs. Qed.
Lemma send_done_trace s x b buf wr : trace (send_done s x b buf wr) = trace s.
Proof. unfold send_done. destruct (expectResponse buf), wr, (nackedHere buf); by bs. Qed.
Lemma trySend_forwarded env s x s' y : trySend env s x = Ok s' -> forwarded y (trace s') = forwarded y (trace s).
Proof.
  intros E. assert (exists b p k nk ok, trace s' = trace s ++ [ESend x b p k nk ok]) as (b & p & k & nk & ok & ->); [|rewrite forwarded_app; apply app_nil_r].
  unfold trySend in E. do 5 (apply res_bind_Ok in E as (? & _ & E)).
  destruct (sendTiming _ _ _ _); [|injection E as <-; eexists _, _, _, _, _; by bs]. cbv zeta in E.
  destruct (sendQueue _); [injection E as <-|apply res_bind_Ok in E as (? & _ & ->%schedule_trace)];
    eexists _, _, _, _, _; rewrite send_done_trace; by bs.
Qed.
Definition is_arrival (op : Op) : bool := match op with Arrive _ _ _ => true | _ => false end.
Lemma step_forwarded env s op s' y : is_arrival op = false -> step env s op = Ok s' -> forwarded y (trace s') = forwarded y (trace s).
Proof.
  intros Ha E. destruct op as [x p k|x|x|n]; simpl in *; [done| | |by injection E as <-].
  - unfold process_send in E. apply trySend_forwarded with (y := y) in E. by bs.
  - unfold recvRetry in E. do 2 apply res_bind_Ok in E as (? & _ & E). destruct (_ <=? _).
    + apply trySend_forwarded with (y := y) in E. by bs.
    + apply schedule_trace in E. rewrite E. by bs.
Qed.
Lemma run_forwarded env ops y : forall s s', forallb (fun op => negb (is_arrival op)) ops = true -> run env s ops = Ok s' -> forwarded y (trace s') = forwarded y (trace s).
Proof.
  induction ops as [|op ops IH]; intros s s' Ha E; [by injection E as <-|]. simpl in *. apply andb_true_iff in Ha as [Ha%negb_true_iff Hr].
  apply res_bind_Ok in E as (s1 & E1 & E). rewrite (IH s1 s') by done. by apply (step_forwarded env s op).
Qed.
Lemma run_app env ops ops' : forall s, run env s (ops ++ ops') = (s ← run env s ops; run env s ops').
Proof. induction ops as [|op ops IH]; intros s; [done|]. simpl. destruct (step env s op); simpl; [apply IH|done]. Qed.
Lemma legal_run_app env ops ops' : forall s s', run env s ops = Ok s' -> legal_run env s (ops ++ ops') = legal_run env s ops && legal_run env s' ops'.
Proof.
  induction ops as [|op ops IH]; intros s s' E; [by injection E as <-|]. simpl in *. apply res_bind_Ok in E as (s1 & E1 & E). rewrite E1, (IH s1 s') by done. by rewrite andb_assoc.
Qed.

(** One packet fewer. *)
Definition load (I : Side -> list Item) : nat := (length (I SideA) + length (I SideB))%nat.
Lemma load_tail I x it l : I x = it :: l -> (load (at_side I x (tail (I x))) < load I)%nat.
Proof. intros E. unfold load. rewrite E. destruct x; simpl; rewrite E; simpl; lia. Qed.

Lemma retry_progress env s I W x : accepts env x -> Inv s I W -> inRetry (port s x) = true ->
  exists s' I' W', step env s (Retry x) = Ok s' /\ Inv s' I' W' /\ (load I' < load I)%nat.
Proof.
  intros Ha H Hr. destruct (bridge_recvRetry_ok env s I W x H Hr) as (s' & I' & W' & E & H' & HI). specialize (HI Ha). subst I'.
  exists s', (at_side I x (tail (I x))), W'. split_and!; [done..|]. pose proof (v_event _ _ _ H x) as He. destruct (I x) as [|it l] eqn:EI; [destruct He; congruence|].
  rewrite <- EI. by eapply load_tail.
Qed.
Lemma service_progress env s I W x w : accepts env x -> Inv s I W -> legal s (Advance w) = true -> sendEvent (port s x) = Some w ->
  exists s' I' W', run env s [Advance w; Service x] = Ok s' /\ legal_run env s [Advance w; Service x] = true /\ Inv s' I' W' /\ (load I' < load I)%nat.
Proof.
  intros Ha H Hl Hw. pose proof (inv_advance s I W w H Hl) as H1. assert (Hw' : sendEvent (port (set_tick s w) x) = Some (curTick (set_tick s w))) by (by bs).
  destruct (process_send_ok env _ I W x H1 Hw') as (s' & I' & W' & E & H' & HI). specialize (HI Ha). subst I'.
  exists s', (at_side I x (tail (I x))), W'. split_and!; [by simpl; rewrite E| |done|].
  - cbn [legal_run step]. rewrite Hl, E. cbn [andb]. unfold legal. by rewrite (bool_decide_eq_true_2 _ Hw').
  - pose proof (v_event _ _ _ H x) as He. destruct (I x) as [|it l] eqn:EI; [destruct He; congruence|]. rewrite <- EI. by eapply load_tail.
Qed.
(** The side whose event comes first. *)
Lemma next_event s I W : Inv s I W -> (forall x, inRetry (port s x) = false) -> load I <> 0%nat ->
  exists x w, sendEvent (port s x) = Some w /\ legal s (Advance w) = true.
Proof.
  intros H Hr Hl.
  assert (He : forall x, match sendEvent (port s x) with Some w => curTick s <= w | None => I x = [] end).
  { intros x. pose proof (v_event _ _ _ H x) as He. destruct (I x) as [|it l]; [by destruct He as [-> _]|]. simpl in He. rewrite Hr in He. destruct He as (w & -> & ? & _). done. }
  unfold load in Hl. pose proof (He SideA) as HA. pose proof (He SideB) as HB. simpl.
  destruct (sendEvent (port s SideA)) as [wa|] eqn:Ea, (sendEvent (port s SideB)) as [wb|] eqn:Eb; simpl in *.
  - destruct (Z.le_gt_cases wa wb); [exists SideA, wa|exists SideB, wb]; simpl; rewrite Ea, Eb; (split; [done|]); rewrite !(proj2 (Z.leb_le _ _)) by lia; done.
  - exists SideA, wa. simpl. rewrite Ea, Eb. split; [done|]. rewrite !(proj2 (Z.leb_le _ _)) by lia; done.
  - exists SideB, wb. simpl. rewrite Ea, Eb. split; [done|]. rewrite !(proj2 (Z.leb_le _ _)) by lia; done.
  - rewrite HA, HB in Hl. done.
Qed.
Lemma drain_step env s I W : (forall x, accepts env x) -> Inv s I W -> load I <> 0%nat ->
  exists ops s' I' W', forallb (fun op => negb (is_arrival op)) ops = true /\ legal_run env s ops = true /\ run env s ops = Ok s' /\ Inv s' I' W' /\ (load I' < load I)%nat.
Proof.
  intros Ha H Hl. destruct (inRetry (port s SideA)) eqn:EA; [|destruct (inRetry (port s SideB)) eqn:EB].
  - destruct (retry_progress env s I W SideA) as (s' & I' & W' & E & ? & ?); try done. exists [Retry SideA], s', I', W'. simpl in *. by rewrite E, EA.
  - destruct (retry_progress env s I W SideB) as (s' & I' & W' & E & ? & ?); try done. exists [Retry SideB], s', I', W'. simpl in *. by rewrite E, EB.
  - destruct (next_event s I W H) as (x & w & Hw & Hlg); [by intros []|done|].
    destruct (service_progress env s I W x w) as (s' & I' & W' & ? & ? & ? & ?); try done. by exists [Advance w; Service x], s', I', W'.
Qed.
Lemma inv_ext s I I' W : Inv s I W -> (forall x, I x = I' x) -> Inv s I' W.
Proof.
  intros [[?????] ?? [??????] ?] E. constructor; [constructor|..|constructor|]; intros; rewrite <- ?E in *; eauto.
Qed.
Lemma load_zero s I W : Inv s I W -> load I = 0%nat -> Inv s (fun _ => []) W.
Proof. intros H Hz. apply (inv_ext s I); [done|]. intros x. apply length_zero_iff_nil. unfold load in Hz. destruct x; lia. Qed.
Lemma bridge_drain env n : (forall x, accepts env x) -> forall s I W, Inv s I W -> (load I <= n)%nat ->
  exists ops s' W', forallb (fun op => negb (is_arrival op)) ops = true /\ legal_run env s ops = true /\ run env s ops = Ok s' /\ Inv s' (fun _ => []) W'.
Proof.
  intros Ha. induction n as [|n IH]; intros s I W H Hn; (destruct (decide (load I = 0%nat)) as [Hz|Hz]; [exists [], s, W; split_and!; [done..|]; by apply (load_zero s I)|]); [lia|].
  destruct (drain_step env s I W Ha H Hz) as (ops & s1 & I1 & W1 & A1 & L1 & E1 & H1 & Hlt).
  destruct (IH s1 I1 W1 H1) as (ops' & s' & W' & A2 & L2 & E2 & H2); [lia|]. exists (ops ++ ops'), s', W'.
  rewrite forallb_app, A1, A2, (legal_run_app env ops ops' s s1), L1, L2, run_app, E1 by done. by bind_step.
Qed.

(** ** Theorems *)

(** What a queue holds of the packets that pass, in order. *)
Definition waiting (s : t) (x : Side) : list (Z * Body) :=
  omap (fun b => match bufs s !! b with
                 | Some (mkBuffer _ (Some p) false _ _ _) => (fun k => (p, body k)) <$> pkts s !! p
                 | _ => None
                 end) (sendQueue (port s x)).
(** The requests in a queue. *)
Definition holds_request (s : t) (b : Z) : bool :=
  match bufs s !! b with Some (mkBuffer _ (Some p) _ _ _ _) => match pkts s !! p with Some k => Packet.isRequest k | None => false end | _ => false end.
Definition requests (s : t) (x : Side) : Z := Z.of_nat (length (filter (fun b => holds_request s b = true) (sendQueue (port s x)))).

Lemma waiting_passing s I W x : Inv s I W -> waiting s x = passing (I x).
Proof.
  intros H. unfold waiting. rewrite (c_queue _ _ _ _ (v_port _ _ _ H x)). pose proof (fun it => h_items _ _ _ _ _ (v_heap _ _ _ H) x it) as Hi. revert Hi.
  generalize (I x) as l. induction l as [|it l IH]; intros Hi; [done|]. rewrite passing_cons, fmap_cons.
  destruct (Hi it) as [(buf & Hb & Hp & Hn & _) Hk _ _ _]; [set_solver|].
  destruct buf as [? ? ? ? ? ?]. simpl in *. subst. rewrite Hb. rewrite <- IH by (intros; apply Hi; set_solver). destruct (is_nack it); [done|]. by rewrite Hk.
Qed.
Lemma requests_count s I W x : Inv s I W -> requests s x = queuedRequests (port s x).
Proof.
  intros H. unfold requests. rewrite (c_reqs _ _ _ _ (v_port _ _ _ H x)), (c_queue _ _ _ _ (v_port _ _ _ H x)).
  pose proof (fun it => h_items _ _ _ _ _ (v_heap _ _ _ H) x it) as Hi. revert Hi.
  generalize (I x) as l. induction l as [|it l IH]; intros Hi; [done|]. rewrite count_cons, fmap_cons, filter_cons.
  destruct (Hi it) as [(buf & Hb & Hp & _) Hk Hq _ _]; [set_solver|].
  assert (holds_request s (it_b it) = is_req it) as Er by (unfold holds_request; rewrite Hb; destruct buf; simpl in *; subst; by rewrite Hk).
  rewrite <- IH by (intros; apply Hi; set_solver). rewrite Er. destruct (is_req it); case_decide; try done; simpl; lia.
Qed.

Section runs.
Context (env : Env) (delay nack_delay req_a resp_a req_b resp_b tick : Z) (s0 : t) (ops : list Op).
Context (Hparams : 0 <= delay /\ 0 <= nack_delay /\ 0 <= req_a /\ 0 <= resp_a /\ 0 <= req_b /\ 0 <= resp_b).
Context (Hnew : new delay nack_delay req_a resp_a req_b resp_b false tick = Ok s0).
Context (Hlegal : legal_run env s0 ops = true).

Lemma bridge_reachable : exists s I W, run env s0 ops = Ok s /\ Inv s I W.
Proof.
  destruct Hparams as (? & ? & ? & ? & ? & ?).
  apply (bridge_run_ok env ops s0 (fun _ => []) (fun _ => [])); [|done]. by apply (inv_new delay nack_delay req_a resp_a req_b resp_b tick).
Qed.

(** C23. Whatever the buses send and answer, no assertion of the bridge fails; the
    counter of a side's requests is the number in its queue, the one of its responses the
    requests that came in on it and need one less the responses given back on it, both
    within the configured limits; and the event of a port is scheduled
    exactly while there is a packet to send and no retry is awaited. *)
Theorem bridge_runs : exists s, run env s0 ops = Ok s /\ forall x,
  0 <= queuedRequests (port s x) <= reqQueueLimit (port s x) /\ queuedRequests (port s x) = requests s x /\
  0 <= outstandingResponses (port s x) <= respQueueLimit (port s x) /\ outstandingResponses (port s x) = owed x (trace s) /\
  (is_Some (sendEvent (port s x)) <-> sendQueue (port s x) <> [] /\ inRetry (port s x) = false).
Proof.
  destruct bridge_reachable as (s & I & W & E & H). exists s. split; [done|]. intros x. rewrite (requests_count s I W x H).
  destruct (v_port _ _ _ H x) as [A1 A2 A3 A4 A5 [A6 A7]]. pose proof (count_nonneg is_req (I x)). pose proof (count_nonneg is_resp (I x)). pose proof (count_nonneg is_exp (I (other x))).
  split_and!; try lia; [apply (v_owed _ _ _ H)|]. rewrite A1. pose proof (v_event _ _ _ H x) as He. destruct (I x) as [|it l]; simpl in *.
  - destruct He as [-> _]. split; [by intros [? ?]|by intros [Hc _]; destruct Hc].
  - destruct (inRetry (port s x)); [destruct He as [-> _]; split; [by intros [? ?]|by intros [_ ?]]|]. destruct He as (w & -> & _). by split; eauto.
Qed.

(** C24. Packets leave a side in the order in which they came in on the other one, and
    unchanged but for their routing: those that came in are those sent followed by those
    in the queue, so none is lost, doubled or made up. *)
Theorem bridge_fifo : exists s, run env s0 ops = Ok s /\ forall x, forwarded (other x) (trace s) = sent x (trace s) ++ waiting s x.
Proof.
  destruct bridge_reachable as (s & I & W & E & H). exists s. split; [done|]. intros x. rewrite (waiting_passing s I W x H). apply (v_hist _ _ _ H).
Qed.

(** C25. A response that the bridge sends on a side goes to the sender of a request that came
    in on that side and went out on the other, with the state that sender had put on it. *)
Theorem bridge_returns_responses : exists s, run env s0 ops = Ok s /\
  forall x b p k ok, ESend x b p k false ok ∈ trace s -> Packet.isRequest k = false -> answered (trace s) x k.
Proof. destruct bridge_reachable as (s & I & W & E & H). exists s. split; [done|]. apply (v_hist _ _ _ H). Qed.

(** C26. If the buses take what they are offered, servicing the events as they come empties
    both queues, and everything that had come in on a side has been sent on the other. *)
Theorem bridge_drains : (forall x, accepts env x) -> exists s ops' s', run env s0 ops = Ok s /\ legal_run env s ops' = true /\ run env s ops' = Ok s' /\
  forall x, sendQueue (port s' x) = [] /\ sent x (trace s') = forwarded (other x) (trace s).
Proof.
  intros Ha. destruct bridge_reachable as (s & I & W & E & H).
  destruct (bridge_drain env (load I) Ha s I W H) as (ops' & s' & W' & A & L & E' & H'); [lia|]. exists s, ops', s'. split_and!; try done.
  intros x. split; [apply (v_port _ _ _ H' x)|]. rewrite <- (run_forwarded env ops' (other x) s s') by done.
  rewrite (t_fifo _ _ _ (v_hist _ _ _ H') x). unfold passing. simpl. by rewrite app_nil_r.
Qed.
End runs.

(** ** Examples *)
Definition demo_bridge : t := mk (new_port 10 5 1 1) (new_port 10 5 1 1) ∅ ∅ 0 0 [].
Definition demo_env : Env := mkEnv (fun _ _ _ => true).
Definition demo_packet (c : MemCmd.Command) (src : Z) (st : option Z) : Packet.t :=
  Packet.mk 0xf00 c (Request.mk 0x100 8 0 3 0 0 0 0 0 0 0) None 0x104 4 src (-1) MemCmd.InvalidCmd 0 0 0 st.
(** A read crosses from side A and its response comes back; a second read is turned back. *)
Definition demo_ops : list Op :=
  [Arrive SideA 1 (demo_packet MemCmd.ReadReq 3 (Some 100)); Arrive SideA 2 (demo_packet MemCmd.ReadReq 4 (Some 101)); Advance 5; Service SideA;
   Advance 10; Service SideB; Arrive SideB 1 (demo_packet MemCmd.ReadResp 7 (Some 0)); Advance 20; Service SideA].

Lemma bridge_runs_witness : exists s, run demo_env demo_bridge demo_ops = Ok s /\ forall x,
  0 <= queuedRequests (port s x) <= reqQueueLimit (port s x) /\ queuedRequests (port s x) = requests s x /\
  0 <= outstandingResponses (port s x) <= respQueueLimit (port s x) /\ outstandingResponses (port s x) = owed x (trace s) /\
  (is_Some (sendEvent (port s x)) <-> sendQueue (port s x) <> [] /\ inRetry (port s x) = false).
Proof. apply (bridge_runs demo_env 10 5 1 1 1 1 0 demo_bridge demo_ops); [lia|reflexivity|vm_compute; reflexivity]. Defined.
Lemma bridge_fifo_witness : exists s, run demo_env demo_bridge demo_ops = Ok s /\ forall x, forwarded (other x) (trace s) = sent x (trace s) ++ waiting s x.
Proof. apply (bridge_fifo demo_env 10 5 1 1 1 1 0 demo_bridge demo_ops); [lia|reflexivity|vm_compute; reflexivity]. Defined.
Lemma bridge_returns_responses_witness : exists s, run demo_env demo_bridge demo_ops = Ok s /\
  forall x b p k ok, ESend x b p k false ok ∈ trace s -> Packet.isRequest k = false -> answered (trace s) x k.
Proof. apply (bridge_returns_responses demo_env 10 5 1 1 1 1 0 demo_bridge demo_ops); [lia|reflexivity|vm_compute; reflexivity]. Defined.
Lemma bridge_drains_witness : exists s ops' s', run demo_env demo_bridge (take 2 demo_ops) = Ok s /\ legal_run demo_env s ops' = true /\ run demo_env s ops' = Ok s' /\
  forall x, sendQueue (port s' x) = [] /\ sent x (trace s') = forwarded (other x) (trace s).
Proof. apply (bridge_drains demo_env 10 5 1 1 1 1 0 demo_bridge (take 2 demo_ops)); [lia|reflexivity|vm_compute; reflexivity|intros [] h k; reflexivity]. Defined.

(** The second read is sent back as a nack, and the response of the first one goes to
    node 3 with its state 100. *)
Example bridge_demo : (fun s => (omap (fun e => match e with ESend SideA _ p k nk true => Some (p, Packet.cmd k, Packet.dest k, Packet.senderState k, nk) | _ => None end) (trace s)))
    <$> (match run demo_env demo_bridge demo_ops with Ok s => Some s | Er _ => None end) =
  Some [(2, MemCmd.NetworkNackError, 4, Some 101, true); (1, MemCmd.ReadResp, 3, Some 100, false)].
Proof. vm_compute. reflexivity. Qed.

(** A request that needs no response cannot be turned back: with the request queue full
    a writeback fails the assertion of [makeTimingResponse]. *)
Theorem nack_of_writeback_fails : exists s k, run demo_env demo_bridge (take 1 demo_ops) = Ok s /\ Packet.isRequest k = true /\
  recvTiming (put_pkt s 2 k) SideA 2 = Er AssertFail.
Proof. eexists _, (demo_packet MemCmd.Writeback 4 None). split; [vm_compute; reflexivity|]. split; vm_compute; reflexivity. Qed.
