(* ===== verification/Bus.v ===== *)
(** * The bus

    [src/mem/bus.hh] and [bus.cc] (Module [Bus]): ports and their interfaces, routing by
    address with its two caches, arbitration with the list of ports that wait, the timing,
    atomic and functional paths, changes of address ranges, block size and draining.

    A [BusPort] is its id, which is never given out twice; [None] is the null pointer.
    The peers of the ports are an [Env]: what they answer may depend on the history of
    what the bus told them.  A peer acts on the bus from inside [sendRetry] by sending
    packets; it does not call back from inside the other calls.  Times are integers of
    the size they take. *)
From S2P Require Import Prelude EventQueue Request Packet RangeMap.

Module Bus.
Definition defaultId : Z := -3.

Record Conf := mkConf { clock : Z; headerCycles : Z; width : Z; responderSet : bool; defaultBlockSize : Z }.
Record PortCache := mkPortCache { p_valid : bool; p_id : Z; p_start : Z; p_end : Z }.
Record BusCache := mkBusCache { b_valid : bool; b_id : Z; b_port : option Z }.

(** What the bus knows of its ports and of their addresses; [portCache] and [busCache]
    are the three entries of each, first one first. *)
Record Routing := mkRouting {
  portMap : RangeMap.t;
  defaultRange : list Range.t;
  snoopPorts : list Z;
  portCache : PortCache * PortCache * PortCache;
  busCache : BusCache * BusCache * BusCache;
  interfaces : gmap Z (option Z);
  maxId : Z;
  defaultPort : option Z;
  funcPort : option Z;
  funcPortId : Z;
  cachedBlockSize : Z;
  cachedBlockSizeValid : bool;
  inRecvStatusChange : gset Z
}.
(** Who has the bus: [busIdle] is the time for which the event is scheduled, [onRetryList]
    the flags of the ports that live. *)
Record Arbiter := mkArbiter {
  tickNextIdle : Z;
  busIdle : option Z;
  drainEvent : bool;
  inRetry : bool;
  retryList : list Z;
  onRetryList : gmap Z bool
}.

(** The bus is taken by a packet of port [src] from [start] to [until]; an express snoop of
    [src] is taken; the bus is used up to the end of the header by a packet that is refused; a port is put on the retry list; it is
    taken off; a port is told to retry, about a change of ranges; the drain is over. *)
Inductive Ev :=
| ETransfer (src start until : Z)
| EExpress (src : Z)
| ERefused (src start until : Z)
| EWait (p : Z)
| EServed (p : Z)
| ERetry (p : Z)
| ESend (p : Z) (k : Packet.t)
| EStatus (p : Z)
| EDrained.

Record Env := mkEnv {
  sendTiming : list Ev -> Z -> Packet.t -> bool * Packet.t;
  sendRetry : list Ev -> Z -> list Packet.t;
  sendAtomic : list Ev -> Z -> Packet.t -> Z * Packet.t;
  sendFunctional : list Ev -> Z -> Packet.t -> Packet.t;
  getPeerAddressRanges : list Ev -> Z -> list Range.t * bool;
  peerBlockSize : Z -> Z
}.

Record t := mk { conf : Conf; routing : Routing; arb : Arbiter; curTick : Z; trace : list Ev }.
Definition set_routing (s : t) (r : Routing) : t := mk (conf s) r (arb s) (curTick s) (trace s).
Definition set_arb (s : t) (a : Arbiter) : t := mk (conf s) (routing s) a (curTick s) (trace s).
Definition set_tick (s : t) (n : Z) : t := mk (conf s) (routing s) (arb s) n (trace s).
Definition emit (s : t) (e : Ev) : t := mk (conf s) (routing s) (arb s) (curTick s) (trace s ++ [e]).

Definition set_map (r : Routing) (m : RangeMap.t) (d : list Range.t) (sn : list Z) : Routing :=
  mkRouting m d sn (portCache r) (busCache r) (interfaces r) (maxId r) (defaultPort r) (funcPort r) (funcPortId r) (cachedBlockSize r) (cachedBlockSizeValid r) (inRecvStatusChange r).
Definition set_portCache (r : Routing) (c : PortCache * PortCache * PortCache) : Routing :=
  mkRouting (portMap r) (defaultRange r) (snoopPorts r) c (busCache r) (interfaces r) (maxId r) (defaultPort r) (funcPort r) (funcPortId r) (cachedBlockSize r) (cachedBlockSizeValid r) (inRecvStatusChange r).
Definition set_busCache (r : Routing) (c : BusCache * BusCache * BusCache) : Routing :=
  mkRouting (portMap r) (defaultRange r) (snoopPorts r) (portCache r) c (interfaces r) (maxId r) (defaultPort r) (funcPort r) (funcPortId r) (cachedBlockSize r) (cachedBlockSizeValid r) (inRecvStatusChange r).
Definition set_interfaces (r : Routing) (i : gmap Z (option Z)) (n : Z) (d f : option Z) (fid : Z) : Routing :=
  mkRouting (portMap r) (defaultRange r) (snoopPorts r) (portCache r) (busCache r) i n d f fid (cachedBlockSize r) (cachedBlockSizeValid r) (inRecvStatusChange r).
Definition set_blockSize (r : Routing) (n : Z) (v : bool) : Routing :=
  mkRouting (portMap r) (defaultRange r) (snoopPorts r) (portCache r) (busCache r) (interfaces r) (maxId r) (defaultPort r) (funcPort r) (funcPortId r) n v (inRecvStatusChange r).
Definition set_inRecv (r : Routing) (x : gset Z) : Routing :=
  mkRouting (portMap r) (defaultRange r) (snoopPorts r) (portCache r) (busCache r) (interfaces r) (maxId r) (defaultPort r) (funcPort r) (funcPortId r) (cachedBlockSize r) (cachedBlockSizeValid r) x.
Definition set_idle (a : Arbiter) (n : Z) (w : option Z) : Arbiter := mkArbiter n w (drainEvent a) (inRetry a) (retryList a) (onRetryList a).
Definition set_inRetry (a : Arbiter) (b : bool) : Arbiter := mkArbiter (tickNextIdle a) (busIdle a) (drainEvent a) b (retryList a) (onRetryList a).
Definition set_retry (a : Arbiter) (l : list Z) (m : gmap Z bool) : Arbiter := mkArbiter (tickNextIdle a) (busIdle a) (drainEvent a) (inRetry a) l m.
Definition set_drain (a : Arbiter) (d : bool) : Arbiter := mkArbiter (tickNextIdle a) (busIdle a) d (inRetry a) (retryList a) (onRetryList a).
Definition upd_arb (s : t) (f : Arbiter -> Arbiter) : t := set_arb s (f (arb s)).
Definition upd_routing (s : t) (f : Routing -> Routing) : t := set_routing s (f (routing s)).

(** ** Caches *)
Definition check_port (c : PortCache) (addr : Z) : bool := p_valid c && (addr >=? p_start c) && (addr <? p_end c).
Definition checkPortCache (r : Routing) (addr : Z) : Z :=
  let '(c0, c1, c2) := portCache r in
  if check_port c0 addr then p_id c0 else if check_port c1 addr then p_id c1 else if check_port c2 addr then p_id c2 else -1.
Definition updatePortCache (r : Routing) (id start end_ : Z) : Routing :=
  let '(c0, c1, c2) := portCache r in set_portCache r (mkPortCache true (sint 16 id) start end_, c0, c1).
Definition invalid_port (c : PortCache) : PortCache := mkPortCache false (p_id c) (p_start c) (p_end c).
Definition clearPortCache (r : Routing) : Routing :=
  let '(c0, c1, c2) := portCache r in set_portCache r (invalid_port c0, invalid_port c1, invalid_port c2).

Definition check_bus (c : BusCache) (id : Z) : bool := b_valid c && (id =? b_id c).
Definition checkBusCache (r : Routing) (id : Z) : option Z :=
  let '(c0, c1, c2) := busCache r in
  if check_bus c0 id then b_port c0 else if check_bus c1 id then b_port c1 else if check_bus c2 id then b_port c2 else None.
Definition updateBusCache (r : Routing) (id : Z) (port : option Z) : Routing :=
  let '(c0, c1, c2) := busCache r in set_busCache r (mkBusCache true id port, c0, c1).
Definition invalid_bus (c : BusCache) : BusCache := mkBusCache false (b_id c) (b_port c).
Definition clearBusCache (r : Routing) : Routing :=
  let '(c0, c1, c2) := busCache r in set_busCache r (invalid_bus c0, invalid_bus c1, invalid_bus c2).

(** [interfaces[id]]: a key that is missing is put in with a null pointer. *)
Definition interface (r : Routing) (id : Z) : option Z * Routing :=
  match interfaces r !! id with
  | Some p => (p, r)
  | None => (None, set_interfaces r (<[id := None]> (interfaces r)) (maxId r) (defaultPort r) (funcPort r) (funcPortId r))
  end.
(** The port of an id, through the cache. *)
Definition cached_port (r : Routing) (id : Z) : option Z * Routing :=
  if id =? defaultId then (defaultPort r, r)
  else match checkBusCache r id with
       | Some p => (Some p, r)
       | None => let '(p, r) := interface r id in (p, updateBusCache r id p)
       end.
(** The port of an id, past the cache. *)
Definition plain_port (r : Routing) (id : Z) : option Z * Routing := if id =? defaultId then (defaultPort r, r) else interface r id.

(** ** Routing *)
Definition findPort (s : t) (addr : Z) : res (Z * t) :=
  let r := routing s in
  let dest_id := checkPortCache r addr in
  let '(dest_id, r) :=
    if dest_id =? -1 then
      match RangeMap.find (portMap r) (Range.RangeSize addr 1) with
      | Some i => (i.2, updatePortCache r i.2 (Range.start i.1) (Range.end_ i.1))
      | None => (dest_id, r)
      end
    else (dest_id, r) in
  let s := set_routing s r in
  if dest_id =? -1 then
    if existsb (fun i => Range.eq_pos i addr) (defaultRange r) then Ok (defaultId, s)
    else if responderSet (conf s) then Er Panic else Ok (defaultId, s)
  else Ok (dest_id, s).

(** ** Arbitration *)
Definition reschedule_idle (s : t) (when : Z) : res t :=
  _ ← c_assert (curTick s <=? when);
  Ok (upd_arb s (fun a => set_idle a (tickNextIdle a) (Some when))).
Definition occupyBus (s : t) (until : Z) : res t :=
  if until =? 0 then Ok s else reschedule_idle (upd_arb s (fun a => set_idle a until (busIdle a))) until.

Definition addToRetryList (s : t) (port : option Z) : res t :=
  p ← deref port;
  on ← deref (onRetryList (arb s) !! p);
  let push s := emit (upd_arb s (fun a => set_retry a (retryList a ++ [p]) (<[p := true]> (onRetryList a)))) (EWait p) in
  if negb (inRetry (arb s)) then
    _ ← c_assert (negb on);
    Ok (push s)
  else if (on : bool) then
    _ ← c_assert (bool_decide (head (retryList (arb s)) = Some p));
    Ok (upd_arb s (fun a => set_inRetry a false))
  else Ok (push s).
(** The front of the retry list leaves it, and the retry is over. *)
Definition pop_retry (s : t) : res t :=
  match retryList (arb s) with
  | p :: l =>
      _ ← deref (onRetryList (arb s) !! p);
      Ok (emit (upd_arb s (fun a => set_inRetry (set_retry a l (<[p := false]> (onRetryList a))) false)) (EServed p))
  | [] => Er BadPointer
  end.

(** ** The timing path *)
Definition set_times (k : Packet.t) (finish first : Z) : Packet.t :=
  Packet.mk (Packet.flags k) (Packet.cmd k) (Packet.req k) (Packet.data k) (Packet.addr k) (Packet.size k) (Packet.src k) (Packet.dest k)
    (Packet.origCmd k) (Packet.time k) finish first (Packet.senderState k).
Definition next_cycle (s : t) : Z :=
  if tickNextIdle (arb s) <? curTick s then
    if negb (curTick s mod clock (conf s) =? 0) then curTick s - curTick s mod clock (conf s) + clock (conf s) else curTick s
  else tickNextIdle (arb s).
Definition data_cycles (s : t) (k : Packet.t) : res Z :=
  if Packet.hasData k then
    n ← Packet.getSize k;
    Ok (Z.quot n (width (conf s)) + (if Z.rem n (width (conf s)) =? 0 then 0 else 1))
  else Ok 0.
Definition calcPacketTiming (s : t) (k : Packet.t) : res (Z * Packet.t * t) :=
  let s := upd_arb s (fun a => set_idle a (next_cycle s) (busIdle a)) in
  let headerTime := tickNextIdle (arb s) + headerCycles (conf s) * clock (conf s) in
  numCycles ← data_cycles s k;
  Ok (headerTime, set_times k (headerTime + numCycles * clock (conf s)) (headerTime + clock (conf s)), s).

(** The loop over the snooping ports; a cache may not refuse a snoop. *)
Fixpoint snoop_timing (env : Env) (s : t) (src_port dest_port : option Z) (k : Packet.t) (l : list Z) : res (Packet.t * t) :=
  match l with
  | [] => Ok (k, s)
  | p :: l' =>
      if bool_decide (Some p = dest_port) || bool_decide (Some p = src_port) then snoop_timing env s src_port dest_port k l'
      else
        let '(success, k') := sendTiming env (trace s) p k in
        _ ← c_assert success;
        snoop_timing env (emit s (ESend p k)) src_port dest_port k' l'
  end.
(** The destination in the packet, the port that it goes to, after the snoops of a
    broadcast. *)
Definition route_timing (env : Env) (s : t) (src : Z) (src_port : option Z) (k : Packet.t) : res (Z * Z * option Z * Packet.t * t) :=
  dest ← Packet.getDest k;
  if dest =? Packet.Broadcast then
    a ← Packet.getAddr k;
    '(dest_port_id, s) ← findPort s a;
    let '(dest_port, r) := plain_port (routing s) dest_port_id in
    '(k, s) ← snoop_timing env (set_routing s r) src_port dest_port k (snoopPorts r);
    Ok (dest, dest_port_id, dest_port, k, s)
  else
    _ ← c_assert (dest <? maxId (routing s));
    _ ← c_assert (negb (dest =? src));
    let '(dest_port, r) := plain_port (routing s) dest in
    Ok (dest, dest, dest_port, k, set_routing s r).

Definition busy (s : t) (src_port : option Z) (k : Packet.t) : bool :=
  let a := arb s in
  negb (Packet.isExpressSnoop k) &&
  ((tickNextIdle a >? curTick s) || (negb (bool_decide (retryList a = [])) && (negb (inRetry a) || negb (bool_decide (src_port = head (retryList a)))))).

(** The end of [recvTiming] for a packet that was sent. *)
Definition finish_transfer (s : t) (id start packetFinishTime : Z) : res t :=
  s ← occupyBus s packetFinishTime;
  let s := emit s (if packetFinishTime =? 0 then EExpress id else ETransfer id start packetFinishTime) in
  if inRetry (arb s) then pop_retry s else Ok s.

(** The part of [recvTiming] in which the sender has the bus. *)
Definition transfer (env : Env) (s : t) (src : Z) (src_port : option Z) (k : Packet.t) : res (bool * Packet.t * t) :=
  '(headerFinishTime, k, s) ← (if Packet.isExpressSnoop k then Ok (0, k, s) else calcPacketTiming s k);
  let start := tickNextIdle (arb s) in
  let packetFinishTime := if Packet.isExpressSnoop k then 0 else Packet.finishTime k in
  '(dest, dest_port_id, dest_port, k, s) ← route_timing env s src src_port k;
  '(taken, k, s) ← (if dest_port_id =? src then
                      _ ← c_assert (dest =? Packet.Broadcast);
                      Ok (true, k, s)
                    else
                      p ← deref dest_port;
                      let '(ok, k') := sendTiming env (trace s) p k in
                      Ok (ok, k', emit s (ESend p k)));
  if (taken : bool) then
    s ← finish_transfer s src start packetFinishTime;
    Ok (true, k, s)
  else
    _ ← c_assert (negb (Packet.isResponse k));
    _ ← c_assert (negb (Packet.memInhibitAsserted k));
    s ← addToRetryList s src_port;
    s ← occupyBus s headerFinishTime;
    Ok (false, k, if headerFinishTime =? 0 then s else emit s (ERefused src start headerFinishTime)).

(** [BusPort::recvTiming] and [Bus::recvTiming]: whether the packet was taken, and what it
    is now. *)
Definition recvTiming (env : Env) (s : t) (id : Z) (k : Packet.t) : res (bool * Packet.t * t) :=
  let k := Packet.setSrc k id in
  src ← Packet.getSrc k;
  let '(src_port, r) := cached_port (routing s) src in
  let s := set_routing s r in
  if busy s src_port k then s ← addToRetryList s src_port; Ok (false, k, s) else transfer env s src src_port k.

(** The packets that a peer sends from inside [sendRetry]. *)
Fixpoint resend (env : Env) (s : t) (p : Z) (l : list Packet.t) : res t :=
  match l with
  | [] => Ok s
  | k :: l' => '(_, _, s) ← recvTiming env s p k; resend env s p l'
  end.
(** [while (tickNextIdle < curTick) tickNextIdle += clock]. *)
Fixpoint catch_up (fuel : nat) (idle now clock : Z) : res Z :=
  if idle <? now then match fuel with O => Er OutOfFuel | S fuel => catch_up fuel (idle + clock) now clock end else Ok idle.
(** The end of a retry in which nothing was sent: a cycle is lost. *)
Definition missed_grant (s : t) : res t :=
  s ← pop_retry s;
  n ← catch_up (Z.to_nat (curTick s - tickNextIdle (arb s))) (tickNextIdle (arb s)) (curTick s) (clock (conf s));
  let n := n + clock (conf s) in
  reschedule_idle (upd_arb s (fun a => set_idle a n (busIdle a))) n.
Definition recvRetry (env : Env) (s : t) : res t :=
  s ← (match retryList (arb s) with
       | p :: _ =>
           if tickNextIdle (arb s) <=? curTick s then
             let s := upd_arb s (fun a => set_inRetry a true) in
             let l := sendRetry env (trace s) p in
             s ← resend env (emit s (ERetry p)) p l;
             if inRetry (arb s) then missed_grant s else Ok s
           else Ok s
       | [] => Ok s
       end);
  Ok (if drainEvent (arb s) && bool_decide (retryList (arb s) = []) && (tickNextIdle (arb s) <=? curTick s)
      then emit (upd_arb s (fun a => set_drain a false)) EDrained else s).
(** [BusFreeEvent::process]: the event is off the queue when it is serviced. *)
Definition process_idle (env : Env) (s : t) : res t := recvRetry env (upd_arb s (fun a => set_idle a (tickNextIdle a) None)).

Definition drain (s : t) : Z * t :=
  let a := arb s in
  if negb (bool_decide (retryList a = [])) || ((curTick s <? tickNextIdle a) && bool_decide (is_Some (busIdle a))) then (1, upd_arb s (fun a => set_drain a true)) else (0, s).
Definition startup (s : t) : t :=
  if tickNextIdle (arb s) <? curTick s
  then upd_arb s (fun a => set_idle a (Z.quot (curTick s) (clock (conf s)) * clock (conf s) + clock (conf s)) (busIdle a)) else s.

(** ** The atomic path *)
Definition set_packet_cmd (k : Packet.t) (c : MemCmd.Command) : Packet.t := Packet.set_cmd k c (Packet.origCmd k).
(** The loop over the snooping ports: the packet, the command of the response of a
    snooper ([InvalidCmd] if there is none) and its latency. *)
Fixpoint snoop_atomic (env : Env) (s : t) (orig_cmd : MemCmd.Command) (orig_src : Z) (target_port : option Z) (k : Packet.t)
    (resp : MemCmd.Command) (lat : Z) (l : list Z) : res (Packet.t * MemCmd.Command * Z * t) :=
  match l with
  | [] => Ok (k, resp, lat, s)
  | p :: l' =>
      _ ← c_assert (negb (bool_decide (Some p = target_port)));
      src ← Packet.getSrc k;
      if p =? src then snoop_atomic env s orig_cmd orig_src target_port k resp lat l'
      else
        let '(latency, k') := sendAtomic env (trace s) p k in
        let s := emit s (ESend p k) in
        if Packet.isResponse k' then
          _ ← c_assert (negb (bool_decide (Packet.cmd k' = orig_cmd)));
          _ ← c_assert (Packet.memInhibitAsserted k');
          _ ← c_assert (bool_decide (resp = MemCmd.InvalidCmd));
          snoop_atomic env s orig_cmd orig_src target_port
            (Packet.setDest (Packet.setSrc (set_packet_cmd k' orig_cmd) orig_src) Packet.Broadcast) (Packet.cmd k') latency l'
        else snoop_atomic env s orig_cmd orig_src target_port k' resp lat l'
  end.
Definition recvAtomic (env : Env) (s : t) (id : Z) (k : Packet.t) : res (Z * Packet.t * t) :=
  let k := Packet.setSrc k id in
  d ← Packet.getDest k;
  _ ← c_assert (d =? Packet.Broadcast);
  _ ← c_assert (Packet.isRequest k);
  let orig_cmd := Packet.cmd k in
  orig_src ← Packet.getSrc k;
  a ← Packet.getAddr k;
  '(target_port_id, s) ← findPort s a;
  let '(target_port, r) := cached_port (routing s) target_port_id in
  '(k, resp, lat, s) ← snoop_atomic env (set_routing s r) orig_cmd orig_src target_port k MemCmd.InvalidCmd 0 (snoopPorts r);
  src ← Packet.getSrc k;
  '(response_latency, k, s) ← (if target_port_id =? src then Ok (0, k, s)
                               else p ← deref target_port;
                                    let '(n, k') := sendAtomic env (trace s) p k in
                                    Ok (n, k', emit s (ESend p k)));
  '(response_latency, k) ← (if bool_decide (resp = MemCmd.InvalidCmd) then Ok (response_latency, k)
                            else _ ← c_assert (negb (Packet.isResponse k));
                                 _ ← c_assert (bool_decide (Packet.cmd k = orig_cmd));
                                 Ok (lat, set_packet_cmd k resp));
  Ok (response_latency, set_times k (curTick s + response_latency) (Packet.firstWordTime k), s).

(** ** The functional path *)
Fixpoint snoop_functional (env : Env) (s : t) (port : option Z) (src_id : Z) (k : Packet.t) (l : list Z) : Packet.t * t :=
  match l with
  | [] => (k, s)
  | p :: l' =>
      let '(k, s) := if negb (bool_decide (Some p = port)) && negb (p =? src_id) then (sendFunctional env (trace s) p k, emit s (ESend p k)) else (k, s) in
      if Packet.isResponse k then (k, s) else snoop_functional env s port src_id (Packet.setSrc k src_id) l'
  end.
Definition recvFunctional (env : Env) (s : t) (id : Z) (k : Packet.t) : res (Packet.t * t) :=
  let k := Packet.setSrc k id in
  d ← Packet.getDest k;
  _ ← c_assert (d =? Packet.Broadcast);
  a ← Packet.getAddr k;
  '(port_id, s) ← findPort s a;
  let '(port, r) := plain_port (routing s) port_id in
  let s := set_routing s r in
  src_id ← Packet.getSrc k;
  _ ← c_assert (Packet.isRequest k);
  let '(k, s) := snoop_functional env s port src_id k (snoopPorts r) in
  if Packet.isResponse k then Ok (k, s)
  else
    src ← Packet.getSrc k;
    if port_id =? src then Ok (k, s)
    else p ← deref port; Ok (sendFunctional env (trace s) p k, emit s (ESend p k)).

(** ** Address ranges *)
Fixpoint insert_ranges (m : RangeMap.t) (ranges : list Range.t) (id : Z) : res RangeMap.t :=
  match ranges with
  | [] => Ok m
  | x :: l => match RangeMap.insert m x id with (m, Some _) => insert_ranges m l id | (_, None) => Er Fatal end
  end.
(** [sendStatusChange] to the ports of [interfaces] that [f] selects. *)
Fixpoint notify (s : t) (f : Z -> bool) (l : list (Z * option Z)) : res t :=
  match l with
  | [] => Ok s
  | (i, p) :: l' => s ← (if f i then p ← deref p; Ok (emit s (EStatus p)) else Ok s); notify s f l'
  end.
(** The new ranges of the default port, or of another one. *)
Definition default_ranges (env : Env) (s : t) : res t :=
  let r := routing s in
  if responderSet (conf s) then
    p ← deref (defaultPort r);
    let '(ranges, snoops) := getPeerAddressRanges env (trace s) p in
    _ ← c_assert (negb snoops);
    Ok (set_routing s (set_map r (portMap r) ranges (snoopPorts r)))
  else Ok (set_routing s (set_map r (portMap r) [] (snoopPorts r))).
Definition port_ranges (env : Env) (s : t) (id : Z) : res t :=
  _ ← c_assert ((id <? maxId (routing s)) && (id >=? 0));
  let '(port, r) := interface (routing s) id in
  let m := List.filter (fun e => negb (e.2 =? id)) (portMap r) in
  let sn := List.filter (fun p => negb (p =? id)) (snoopPorts r) in
  p ← deref port;
  let '(ranges, snoops) := getPeerAddressRanges env (trace s) p in
  m ← insert_ranges m ranges id;
  Ok (set_routing s (set_map r m (defaultRange r) (if (snoops : bool) then sn ++ [p] else sn))).
Definition recvStatusChange (env : Env) (s : t) (id : Z) : res t :=
  let r := routing s in
  if bool_decide (id ∈ inRecvStatusChange r) then Ok s
  else
    let s := set_routing s (clearPortCache (set_inRecv r ({[id]} ∪ inRecvStatusChange r))) in
    s ← (if id =? defaultId then default_ranges env s else port_ranges env s id);
    let r := routing s in
    s ← notify s (fun i => negb (i =? id) && negb (i =? funcPortId r)) (map_to_list (interfaces r));
    s ← (match defaultPort r with Some d => if id =? defaultId then Ok s else Ok (emit s (EStatus d)) | None => Ok s end);
    Ok (upd_routing s (fun r => set_inRecv r (inRecvStatusChange r ∖ {[id]}))).

(** The ranges of the default port that a range lies in, or crosses. *)
Fixpoint in_default (x : Range.t) (l : list Range.t) : res bool :=
  match l with
  | [] => Ok false
  | d :: l' =>
      if ((Range.start x <? Range.start d) && (Range.end_ x >=? Range.start d)) || ((Range.start x <? Range.end_ d) && (Range.end_ x >=? Range.end_ d)) then Er Fatal
      else b ← in_default x l'; Ok (((Range.start x >=? Range.start d) && (Range.end_ x <=? Range.end_ d)) || b)
  end.
Fixpoint other_ranges (m : RangeMap.t) (dflt : list Range.t) (id : Z) : res (list Range.t) :=
  match m with
  | [] => Ok []
  | e :: m' =>
      subset ← in_default e.1 dflt;
      l ← other_ranges m' dflt id;
      Ok (if negb (e.2 =? id) && negb subset then e.1 :: l else l)
  end.
Definition addressRanges (s : t) (id : Z) : res (list Range.t * bool) :=
  let r := routing s in
  l ← other_ranges (portMap r) (defaultRange r) id;
  Ok (defaultRange r ++ l, existsb (fun p => negb (p =? id)) (snoopPorts r)).

(** ** Block size *)
Fixpoint max_block (env : Env) (r : Routing) (n : Z) (l : list Z) : res (Z * Routing) :=
  match l with
  | [] => Ok (n, r)
  | i :: l' => let '(p, r) := interface r i in p ← deref p; max_block env r (Z.max n (peerBlockSize env p)) l'
  end.
Definition findBlockSize (env : Env) (s : t) : res (Z * t) :=
  let r := routing s in
  if cachedBlockSizeValid r then Ok (cachedBlockSize r, s)
  else
    '(n, r) ← max_block env r 0 (map snd (portMap r));
    let n := fold_left (fun n p => Z.max n (peerBlockSize env p)) (snoopPorts r) n in
    let n := if n =? 0 then defaultBlockSize (conf s) else n in
    Ok (n, set_routing s (set_blockSize r n true)).

(** ** Ports and construction *)
Definition add_port (s : t) (id : Z) : t := upd_arb s (fun a => set_retry a (retryList a) (<[id := false]> (onRetryList a))).
Definition getPort (s : t) (if_name : string) : res (Z * t) :=
  let r := routing s in
  if bool_decide (if_name = "default"%string) then
    match defaultPort r with
    | None =>
        let r := set_interfaces r (interfaces r) (maxId r) (Some defaultId) (funcPort r) (funcPortId r) in
        Ok (defaultId, add_port (set_routing s (set_blockSize r (cachedBlockSize r) false)) defaultId)
    | Some _ => Er Fatal
    end
  else
    let id := maxId r in
    if bool_decide (if_name = "functional"%string) then
      match funcPort r with
      | None => Ok (id, add_port (set_routing s (set_interfaces r (<[id := Some id]> (interfaces r)) (sint 16 (id + 1)) (defaultPort r) (Some id) id)) id)
      | Some p => Ok (p, s)
      end
    else
      _ ← c_assert (sint 16 (id + 1) <? 2 ^ 15 - 1);
      let r := set_interfaces r (<[id := Some id]> (interfaces r)) (sint 16 (id + 1)) (defaultPort r) (funcPort r) (funcPortId r) in
      Ok (id, add_port (set_routing s (set_blockSize r (cachedBlockSize r) false)) id).
(** [deletePortRefs]; [None] is a port that is no [BusPort]. *)
Definition deletePortRefs (s : t) (bp : option Z) : res t :=
  match bp with
  | None => Er Panic
  | Some p =>
      let r := routing s in
      if bool_decide (funcPort r = Some p) then Ok s
      else
        let r := clearBusCache (set_interfaces r (delete p (interfaces r)) (maxId r) (defaultPort r) (funcPort r) (funcPortId r)) in
        Ok (upd_arb (set_routing s r) (fun a => set_retry a (retryList a) (delete p (onRetryList a))))
  end.
Definition init (s : t) : res t := notify s (fun _ => true) (map_to_list (interfaces (routing s))).

(** The constructor; [gp] and [gb] are what the caches hold before they are cleared. *)
Definition new (c : Conf) (gp : PortCache * PortCache * PortCache) (gb : BusCache * BusCache * BusCache) (tick : Z) : res t :=
  if width c <=? 0 then Er Fatal
  else if clock c <=? 0 then Er Fatal
  else if headerCycles c <=? 0 then Er Fatal
  else Ok (mk c (clearPortCache (clearBusCache (mkRouting [] [] [] gp gb ∅ 0 None None (-4) 0 false ∅)))
             (mkArbiter 0 None false false [] ∅) tick []).
End Bus.
