(* ===== verification/BusTheorems.v ===== *)
(** * The bus: routing, exclusion and arbitration

    The two caches change nothing but the time a lookup takes; the uses of the bus follow
    one another without overlap; ports that were refused are served first come first
    served, and no other port overtakes them. *)
From stdpp Require Import sorting.
From S2P Require Import Prelude EventQueue EventQueueInv Request Packet PacketTheorems RangeMap Bus.
Import Bus RangeMapProof.

(** ** Routing *)

(** The cached ranges are ranges of the map, under their port. *)
Definition port_entry_ok (m : RangeMap.t) (c : PortCache) : Prop := p_valid c = true -> (Range.mk (p_start c) (p_end c), p_id c) ∈ m.
Definition bus_entry_ok (r : Routing) (c : BusCache) : Prop :=
  b_valid c = true -> forall p, b_port c = Some p -> interfaces r !! b_id c = Some (Some p).
Record routing_ok (r : Routing) : Prop := mkRoutingOk {
  r_map : disjoint_map (portMap r);
  r_ids : Forall (fun e => 0 <= e.2 < 2 ^ 15) (portMap r);
  r_ports : let '(c0, c1, c2) := portCache r in Forall (port_entry_ok (portMap r)) [c0; c1; c2];
  r_bus : let '(c0, c1, c2) := busCache r in Forall (bus_entry_ok r) [c0; c1; c2];
  r_self : forall i p, interfaces r !! i = Some (Some p) -> p = i /\ 0 <= i < 2 ^ 15;
  r_default : defaultPort r = None \/ defaultPort r = Some defaultId
}.

(** What does not change while the bus works. *)
Definition same_routing (r r' : Routing) : Prop :=
  portMap r' = portMap r /\ defaultRange r' = defaultRange r /\ snoopPorts r' = snoopPorts r /\ maxId r' = maxId r /\ defaultPort r' = defaultPort r /\
  (forall i p, interfaces r' !! i = Some (Some p) <-> interfaces r !! i = Some (Some p)).
Lemma same_routing_refl r : same_routing r r.
Proof. by split_and!. Qed.
Lemma same_routing_trans r1 r2 r3 : same_routing r1 r2 -> same_routing r2 r3 -> same_routing r1 r3.
Proof. intros (A1 & A2 & A3 & A4 & A5 & A6) (B1 & B2 & B3 & B4 & B5 & B6). split_and!; [congruence..|]. intros i p. by rewrite B6, A6. Qed.

(** The port that the map gives for an address, past the cache. *)
Definition route (r : Routing) (responder : bool) (addr : Z) : res Z :=
  match RangeMap.find_pos (portMap r) addr with
  | Some i => Ok i.2
  | None => if existsb (fun i => Range.eq_pos i addr) (defaultRange r) then Ok defaultId else if responder then Er Panic else Ok defaultId
  end.

Lemma check_port_route m c a : disjoint_map m -> port_entry_ok m c -> 0 <= a < 2 ^ 64 -> check_port c a = true ->
  RangeMap.find_pos m a = Some (Range.mk (p_start c) (p_end c), p_id c).
Proof.
  intros Hm Hc Ha [[Hv Hlo]%andb_true_iff Hhi%Z.ltb_lt]%andb_true_iff. rewrite Z.geb_leb in Hlo. apply Z.leb_le in Hlo.
  apply find_pos_spec; [done|done|]. split; [by apply Hc|]. simpl. lia.
Qed.
Lemma checkPortCache_route r a : routing_ok r -> 0 <= a < 2 ^ 64 -> checkPortCache r a = -1 \/
  exists e, RangeMap.find_pos (portMap r) a = Some e /\ checkPortCache r a = e.2 /\ 0 <= e.2.
Proof.
  intros [Hm Hi Hc _ _ _] Ha. unfold checkPortCache. destruct (portCache r) as [[c0 c1] c2].
  apply Forall_cons in Hc as [H0 [H1 [H2 _]%Forall_cons]%Forall_cons].
  assert (Hgo : forall c, port_entry_ok (portMap r) c -> check_port c a = true -> exists e, RangeMap.find_pos (portMap r) a = Some e /\ p_id c = e.2 /\ 0 <= e.2).
  { intros c Hc Ht. exists (Range.mk (p_start c) (p_end c), p_id c). pose proof (check_port_route _ _ _ Hm Hc Ha Ht) as E. split; [done|]. split; [done|].
    apply find_pos_spec in E as [E _]; [|done..]. rewrite Forall_forall in Hi. apply Hi in E. simpl in *. lia. }
  destruct (check_port c0 a) eqn:E0; [right; by apply Hgo|]. destruct (check_port c1 a) eqn:E1; [right; by apply Hgo|].
  destruct (check_port c2 a) eqn:E2; [right; by apply Hgo|]. by left.
Qed.
Lemma updatePortCache_ok r e : routing_ok r -> e ∈ portMap r -> routing_ok (updatePortCache r e.2 (Range.start e.1) (Range.end_ e.1)).
Proof.
  intros [Hm Hi Hc Hb Hs Hd] Hin. unfold updatePortCache. destruct (portCache r) as [[c0 c1] c2]. constructor; simpl; try done.
  apply Forall_cons in Hc as [H0 [H1 _]%Forall_cons]. constructor; [|by repeat constructor].
  intros _. simpl. rewrite Forall_forall in Hi. specialize (Hi _ Hin). rewrite sint_small by lia. by destruct e as [[] ?].
Qed.

(** The lookup through the cache gives what the map gives. *)
Lemma findPort_ok s a : routing_ok (routing s) -> 0 <= a < 2 ^ 64 ->
  exists r', findPort s a = (id ← route (routing s) (responderSet (conf s)) a; Ok (id, set_routing s r')) /\ routing_ok r' /\ same_routing (routing s) r' /\
    interfaces r' = interfaces (routing s) /\ busCache r' = busCache (routing s).
Proof.
  intros H Ha. unfold findPort, route. change (RangeMap.find (portMap (routing s)) (Range.RangeSize a 1)) with (RangeMap.find_pos (portMap (routing s)) a).
  destruct (checkPortCache_route _ a H Ha) as [->|(e & Ef & -> & He)].
  - cbn [Z.eqb Pos.eqb]. destruct (RangeMap.find_pos (portMap (routing s)) a) as [e|] eqn:Ef.
    + apply find_pos_spec in Ef as [Hin _]; [|apply H|done]. pose proof (r_ids _ H) as Hi. rewrite Forall_forall in Hi. specialize (Hi e Hin).
      destruct (Z.eqb_spec e.2 (-1)); [lia|]. eexists. split; [done|]. split; [by apply updatePortCache_ok|].
      unfold updatePortCache. destruct (portCache (routing s)) as [[c0 c1] c2]. by split_and!.
    + exists (routing s). split; [|split_and!; done]. destruct s as [c r a' n tr]. simpl. destruct (existsb _ _); [done|]. by destruct (responderSet c).
  - assert (Hne : (e.2 =? -1) = false) by (apply Z.eqb_neq; lia). rewrite Hne. cbv beta iota zeta. rewrite Hne, Ef. exists (routing s).
    split; [by destruct s|by split_and!].
Qed.

(** The port of a live id is found, through the cache and past it. *)
Definition live (r : Routing) (id : Z) : Prop := (id = defaultId /\ defaultPort r = Some defaultId) \/ interfaces r !! id = Some (Some id).
Lemma checkBusCache_some r id p : routing_ok r -> checkBusCache r id = Some p -> interfaces r !! id = Some (Some p).
Proof.
  intros [_ _ _ Hb _ _]. unfold checkBusCache. destruct (busCache r) as [[c0 c1] c2].
  apply Forall_cons in Hb as [H0 [H1 [H2 _]%Forall_cons]%Forall_cons].
  assert (Hgo : forall c, bus_entry_ok r c -> check_bus c id = true -> b_port c = Some p -> interfaces r !! id = Some (Some p)).
  { intros c Hc [Hv ->%Z.eqb_eq]%andb_true_iff Hp. by apply Hc. }
  destruct (check_bus c0 id) eqn:E0; [by apply Hgo|]. destruct (check_bus c1 id) eqn:E1; [by apply Hgo|]. destruct (check_bus c2 id) eqn:E2; [by apply Hgo|done].
Qed.
Lemma plain_port_ok r id : routing_ok r -> live r id -> plain_port r id = (Some id, r).
Proof.
  intros H [[-> Hd]|Hi]; unfold plain_port; [by rewrite Z.eqb_refl, Hd|]. pose proof (r_self _ H id id Hi) as [_ Hp].
  destruct (Z.eqb_spec id defaultId) as [->|_]; [unfold defaultId in Hp; lia|]. unfold interface. by rewrite Hi.
Qed.
Lemma cached_port_ok r id : routing_ok r -> live r id -> exists r', cached_port r id = (Some id, r') /\ routing_ok r' /\ same_routing r r'.
Proof.
  intros H Hl. unfold cached_port. destruct Hl as [[-> Hd]|Hi]; [rewrite Z.eqb_refl, Hd; exists r; split_and!; done|].
  pose proof (r_self _ H id id Hi) as [_ Hp]. destruct (Z.eqb_spec id defaultId) as [->|_]; [unfold defaultId in Hp; lia|].
  destruct (checkBusCache r id) as [p|] eqn:E.
  - apply checkBusCache_some in E; [|done]. rewrite Hi in E. injection E as <-. by exists r.
  - unfold interface. rewrite Hi. eexists. split; [done|]. unfold updateBusCache. destruct H as [Hm Hids Hc Hb Hs Hd]. destruct (busCache r) as [[c0 c1] c2].
    split; [|by split_and!]. constructor; simpl; try done. apply Forall_cons in Hb as [H0 [H1 _]%Forall_cons].
    constructor; [|by repeat constructor]. intros _ p. simpl. by intros [= <-].
Qed.
Lemma live_same r r' id : same_routing r r' -> live r id -> live r' id.
Proof. intros (_ & _ & _ & _ & Ed & Ei) [[? Hd]|Hi]; [left; split; [done|congruence]|right; by apply Ei]. Qed.

(** ** The history *)
(** The uses of the bus, the ports put on the retry list, and those taken off. *)
Definition uses (h : list Ev) : list (Z * Z) := omap (fun e => match e with ETransfer _ a b | ERefused _ a b => Some (a, b) | _ => None end) h.
Definition waits (h : list Ev) : list Z := omap (fun e => match e with EWait p => Some p | _ => None end) h.
Definition served (h : list Ev) : list Z := omap (fun e => match e with EServed p => Some p | _ => None end) h.
(** Whenever a packet that is no express snoop is taken, no port waits, or its port is the one that waits first. *)
Definition no_overtaking (h : list Ev) : Prop :=
  forall h1 p a b h2, h = h1 ++ ETransfer p a b :: h2 -> exists l, waits h1 = served h1 ++ l /\ (l = [] \/ head l = Some p).
Definition quiet (e : Ev) : bool := match e with ERetry _ | ESend _ _ | EStatus _ | EDrained | EExpress _ => true | _ => false end.

Lemma bus_uses_app h e : uses (h ++ [e]) = uses h ++ uses [e].
Proof. apply omap_app. Qed.
Lemma waits_app h e : waits (h ++ [e]) = waits h ++ waits [e].
Proof. apply omap_app. Qed.
Lemma served_app h e : served (h ++ [e]) = served h ++ served [e].
Proof. apply omap_app. Qed.
Lemma bus_snoc_split {A} (h h1 h2 : list A) e x : h ++ [e] = h1 ++ x :: h2 -> (h = h1 /\ e = x) \/ exists h2', h = h1 ++ x :: h2'.
Proof.
  destruct (decide (h2 = [])) as [->|Hne]; intros E; [left; by apply app_inj_tail in E|]. right.
  destruct (exists_last (l := h2)) as (h2' & y & ->); [done|]. exists h2'. rewrite app_comm_cons, app_assoc in E. by apply app_inj_tail in E as [? _].
Qed.
Lemma no_overtaking_app h e : no_overtaking h -> (forall p a b, e = ETransfer p a b -> exists l, waits h = served h ++ l /\ (l = [] \/ head l = Some p)) -> no_overtaking (h ++ [e]).
Proof. intros H He h1 p a b h2 [[-> ->]|(h2' & ->)]%bus_snoc_split; [by eapply He|by eapply H]. Qed.

(** ** What holds between the calls, and inside them *)
Record core (c : Conf) (r : Routing) (a : Arbiter) (h : list Ev) : Prop := mkCore {
  k_conf : 0 < clock c /\ 0 < headerCycles c /\ 0 < width c;
  k_routing : routing_ok r;
  k_nodup : NoDup (retryList a);
  k_flag : forall p, onRetryList a !! p = Some true <-> p ∈ retryList a;
  k_live : forall p, live r p -> is_Some (onRetryList a !! p);
  k_align : 0 <= tickNextIdle a /\ (clock c | tickNextIdle a);
  k_sorted : StronglySorted (fun u v => u.2 <= v.1) (uses h);
  k_uses : Forall (fun u => u.1 < u.2 <= tickNextIdle a /\ (clock c | u.1) /\ (clock c | u.2)) (uses h);
  k_fifo : waits h = served h ++ retryList a;
  k_front : no_overtaking h
}.

Lemma core_quiet c r a h e : core c r a h -> quiet e = true -> core c r a (h ++ [e]).
Proof.
  intros [] He. constructor; try done.
  - rewrite bus_uses_app. by destruct e; simpl; rewrite ?app_nil_r.
  - rewrite bus_uses_app. by destruct e; simpl; rewrite ?app_nil_r.
  - rewrite waits_app, served_app. by destruct e; simpl; rewrite ?app_nil_r.
  - apply no_overtaking_app; [done|]. intros ??? ->. done.
Qed.
Lemma core_routing c r r' a h : core c r a h -> routing_ok r' -> same_routing r r' -> core c r' a h.
Proof.
  intros [] Hr Hs. constructor; try done. intros p Hp. apply k_live0. destruct Hs as (_ & _ & _ & _ & Ed & Ei).
  destruct Hp as [[? Hd]|Hi]; [left; split; [done|congruence]|right; by apply Ei].
Qed.
Lemma core_idle c r a h n w : core c r a h -> tickNextIdle a <= n -> (clock c | n) -> core c r (set_idle a n w) h.
Proof. intros [] Hn Hd. constructor; try done; simpl; [destruct k_align0; split; [lia|done]|]. eapply Forall_impl; [done|]. simpl. intros ? [? ?]. split; [lia|done]. Qed.
Lemma core_ext c r a a' h : core c r a h -> tickNextIdle a' = tickNextIdle a -> retryList a' = retryList a -> onRetryList a' = onRetryList a -> core c r a' h.
Proof. intros [] E1 E2 E3. constructor; rewrite ?E1, ?E2, ?E3; try done. Qed.
(** A use of the bus from [start] to [until], by a packet that is taken or refused. *)
Lemma core_use c r a h e start until w : core c r a h -> uses [e] = [(start, until)] -> waits [e] = [] -> served [e] = [] ->
  tickNextIdle a <= start < until -> (clock c | start) -> (clock c | until) ->
  (forall p a' b, e = ETransfer p a' b -> retryList a = [] \/ head (retryList a) = Some p) ->
  core c r (set_idle a until w) (h ++ [e]).
Proof.
  intros [] Eu Ew Es Ht Hd Hd' Hf. constructor; try done; simpl.
  - destruct k_align0. split; [lia|done].
  - rewrite bus_uses_app, Eu. apply StronglySorted_app_2; [|done|by repeat constructor]. intros u v Hu ->%list_elem_of_singleton. rewrite Forall_forall in k_uses0. specialize (k_uses0 u Hu). simpl. lia.
  - rewrite bus_uses_app, Eu. apply Forall_app. split; [|by repeat constructor; simpl; try lia]. eapply Forall_impl; [done|]. simpl. intros ? [? ?]. split; [lia|done].
  - by rewrite waits_app, served_app, Ew, Es, !app_nil_r.
  - apply no_overtaking_app; [done|]. intros p a' b He. exists (retryList a). split; [done|]. by eapply Hf.
Qed.
Lemma core_push c r a h p : core c r a h -> p ∉ retryList a ->
  core c r (set_retry a (retryList a ++ [p]) (<[p := true]> (onRetryList a))) (h ++ [EWait p]).
Proof.
  intros [] Hp. constructor; try done; simpl.
  - apply NoDup_app. split_and!; [done| |apply NoDup_singleton]. intros x Hx ->%list_elem_of_singleton. done.
  - intros q. destruct (decide (q = p)) as [->|Hne]; [rewrite lookup_insert_eq; set_solver|]. rewrite lookup_insert_ne by done. rewrite k_flag0. set_solver.
  - intros q Hq. destruct (decide (q = p)) as [->|Hne]; [rewrite lookup_insert_eq; eauto|]. rewrite lookup_insert_ne by done. auto.
  - rewrite bus_uses_app. simpl. by rewrite app_nil_r.
  - rewrite bus_uses_app. simpl. by rewrite app_nil_r.
  - rewrite waits_app, served_app. simpl. by rewrite app_nil_r, k_fifo0, app_assoc.
  - apply no_overtaking_app; [done|]. intros ??? He. done.
Qed.
Lemma core_pop c r a h p l : core c r a h -> retryList a = p :: l ->
  core c r (set_inRetry (set_retry a l (<[p := false]> (onRetryList a))) false) (h ++ [EServed p]).
Proof.
  intros [] El. rewrite El in *. apply NoDup_cons in k_nodup0 as [Hp Hn]. constructor; try done; simpl.
  - intros q. destruct (decide (q = p)) as [->|Hne]; [rewrite lookup_insert_eq; naive_solver|]. rewrite lookup_insert_ne by done. rewrite k_flag0. set_solver.
  - intros q Hq. destruct (decide (q = p)) as [->|Hne]; [rewrite lookup_insert_eq; eauto|]. rewrite lookup_insert_ne by done. auto.
  - rewrite bus_uses_app. simpl. by rewrite app_nil_r.
  - rewrite bus_uses_app. simpl. by rewrite app_nil_r.
  - rewrite waits_app, served_app. simpl. by rewrite app_nil_r, k_fifo0, <- app_assoc.
  - apply no_overtaking_app; [done|]. intros ??? He. done.
Qed.

(** ** Peers *)

(** A packet that port [id] may send: it has the fields that are read, and a port to go
    to. *)
Definition sendable (r : Routing) (responder : bool) (id : Z) (k : Packet.t) : Prop :=
  (Packet.hasData k = true -> exists n, Packet.getSize k = Ok n /\ 0 <= n) /\
  exists d, Packet.getDest k = Ok d /\
    if d =? Packet.Broadcast then exists a d', Packet.getAddr k = Ok a /\ 0 <= a < 2 ^ 64 /\ route r responder a = Ok d' /\ live r d'
    else d < maxId r /\ d <> id /\ live r d.
(** What the bus relies on: snoops and express packets are not refused, nor responses and
    packets that another port has promised to answer; a port that is told to retry
    sends at most one packet, which is not express. *)
Class PeerLaws (env : Env) (r0 : Routing) (responder : bool) : Prop := {
  l_snoop : forall h p k, p ∈ snoopPorts r0 -> (sendTiming env h p k).1 = true;
  l_express : forall h p k, Packet.isExpressSnoop (sendTiming env h p k).2 = Packet.isExpressSnoop k;
  l_refuse : forall h p k, (sendTiming env h p k).1 = false ->
    Packet.isResponse (sendTiming env h p k).2 = false /\ Packet.memInhibitAsserted (sendTiming env h p k).2 = false /\ Packet.isExpressSnoop k = false;
  l_retry : forall h p, live r0 p -> sendRetry env h p = [] \/ exists k, sendRetry env h p = [k] /\ Packet.isExpressSnoop k = false /\ sendable r0 responder p k
}.

Lemma route_same r r' resp a : same_routing r r' -> route r' resp a = route r resp a.
Proof. intros (E1 & E2 & _). unfold route. by rewrite E1, E2. Qed.
Lemma sendable_same r r' resp id k : same_routing r r' -> sendable r resp id k -> sendable r' resp id k.
Proof.
  intros Hs [Hd (d & E & H)]. split; [done|]. exists d. split; [done|]. destruct (d =? Packet.Broadcast).
  - destruct H as (a & d' & ? & ? & ? & ?). exists a, d'. split; [done|]. split; [done|]. split; [by rewrite (route_same r r')|by eapply live_same].
  - destruct H as (? & ? & ?). pose proof Hs as (_ & _ & _ & Em & _). rewrite Em. split_and!; try done. by eapply live_same.
Qed.
Lemma getSrc_setSrc r k id : routing_ok r -> live r id -> Packet.getSrc (Packet.setSrc k id) = Ok id.
Proof.
  intros H Hl. unfold Packet.getSrc, Packet.setSrc. simpl. rewrite isSet_set_same by done. simpl. rewrite sint_small; [done|lia|].
  destruct Hl as [[-> _]|Hi]; [by unfold defaultId|]. destruct (r_self _ H id id Hi). lia.
Qed.
Lemma sendable_setSrc r resp id k v : sendable r resp id k -> sendable r resp id (Packet.setSrc k v).
Proof.
  intros [Hd (d & E & H)]. unfold sendable, Packet.getSize, Packet.getDest, Packet.getAddr, Packet.hasData in *. simpl.
  rewrite !isSet_set_other by done. split; [done|]. exists d. by split.
Qed.
Lemma express_setSrc k v : Packet.isExpressSnoop (Packet.setSrc k v) = Packet.isExpressSnoop k.
Proof. unfold Packet.isExpressSnoop. simpl. by rewrite isSet_set_other. Qed.

(** ** A packet on its way *)
Lemma core_quiets c r a h evs : core c r a h -> forallb quiet evs = true -> core c r a (h ++ evs).
Proof.
  revert h. induction evs as [|e evs IH]; intros h H Hq; [by rewrite app_nil_r|]. simpl in Hq. apply andb_true_iff in Hq as [He Hq].
  change (e :: evs) with ([e] ++ evs). rewrite app_assoc. apply IH; [|done]. by apply core_quiet.
Qed.
(** [s] with another routing and more of the history. *)
Definition moved (s : t) (r : Routing) (evs : list Ev) : t := mk (conf s) r (arb s) (curTick s) (trace s ++ evs).

Section peers.
Context (env : Env) (r0 : Routing) (responder : bool) `{!PeerLaws env r0 responder}.

Lemma snoop_timing_ok sp dp l : forall s k, (forall p, p ∈ l -> p ∈ snoopPorts r0) ->
  exists k' evs, snoop_timing env s sp dp k l = Ok (k', moved s (routing s) evs) /\ forallb quiet evs = true /\ Packet.isExpressSnoop k' = Packet.isExpressSnoop k.
Proof.
  induction l as [|p l IH]; intros s k Hl; cbn [snoop_timing].
  - exists k, []. split; [|done]. unfold moved. rewrite app_nil_r. by destruct s.
  - destruct (_ || _); [apply IH; set_solver|].
    pose proof (l_snoop (env := env) (trace s) p k ltac:(set_solver)) as Hok. pose proof (l_express (env := env) (r0 := r0) (trace s) p k) as Hex.
    destruct (sendTiming env (trace s) p k) as [ok k1]. simpl in Hok, Hex. rewrite Hok. cbn [c_assert]. bind_step.
    destruct (IH (emit s (ESend p k)) k1) as (k' & evs & -> & Hq & Hx); [set_solver|]. exists k', (ESend p k :: evs). split_and!; [|done|congruence].
    unfold moved. simpl. by rewrite <- app_assoc.
Qed.
Lemma route_timing_ok s id sp k : routing_ok (routing s) -> sendable (routing s) (responderSet (conf s)) id k -> snoopPorts (routing s) = snoopPorts r0 ->
  exists dest d k' r' evs, route_timing env s id sp k = Ok (dest, d, Some d, k', moved s r' evs) /\ forallb quiet evs = true /\ routing_ok r' /\
    same_routing (routing s) r' /\ Packet.isExpressSnoop k' = Packet.isExpressSnoop k /\ (d = id -> dest = Packet.Broadcast).
Proof.
  intros Hr [_ (d & Ed & H)] Hsn. unfold route_timing. rewrite Ed. bind_step. destruct (Z.eqb_spec d Packet.Broadcast) as [->|Hnb].
  - destruct H as (a & d' & Ea & Ha & Ert & Hl). rewrite Ea. bind_step.
    destruct (findPort_ok s a Hr Ha) as (r' & -> & Hr' & Hs & _). rewrite Ert. do 2 bind_step. cbn [routing set_routing].
    rewrite (plain_port_ok r' d') by (try done; by eapply live_same). pose proof Hs as (_ & _ & Esn & _).
    destruct (snoop_timing_ok sp (Some d') (snoopPorts r') (set_routing (set_routing s r') r') k) as (k' & evs & -> & Hq & Hx); [rewrite Esn, Hsn; done|].
    bind_step. by exists Packet.Broadcast, d', k', r', evs.
  - destruct H as (Hm & Hne & Hl). rewrite (proj2 (Z.ltb_lt _ _)) by done. cbn [c_assert]. bind_step. rewrite (proj2 (Z.eqb_neq _ _)) by done. cbn [negb c_assert]. bind_step.
    rewrite (plain_port_ok _ d) by done. exists d, d, k, (routing s), []. unfold moved. rewrite app_nil_r. split_and!; try done; destruct s; done.
Qed.
End peers.

(** ** Timing *)
(** The event that frees the bus is pending while the bus is in use or a port waits. *)
Definition idle_ok (a : Arbiter) (now : Z) : Prop :=
  match busIdle a with Some w => w = tickNextIdle a /\ now <= w | None => retryList a = [] /\ tickNextIdle a <= now end.
(** Port [id] may use the bus now: no port waits, or it was told to retry. *)
Definition granted (s : t) (id : Z) : Prop :=
  (inRetry (arb s) = false /\ retryList (arb s) = []) \/ (inRetry (arb s) = true /\ exists l, retryList (arb s) = id :: l).

Lemma next_cycle_ok c r a h s : core c r a h -> conf s = c -> arb s = a -> tickNextIdle a <= curTick s ->
  curTick s <= next_cycle s /\ tickNextIdle a <= next_cycle s /\ (clock c | next_cycle s).
Proof.
  intros H <- <- Hle. destruct (k_conf _ _ _ _ H) as [Hc _], (k_align _ _ _ _ H) as [_ Hd]. unfold next_cycle.
  destruct (Z.ltb_spec (tickNextIdle (arb s)) (curTick s)) as [Hlt|Hge]; [|split_and!; [lia..|done]].
  destruct (Z.eqb_spec (curTick s mod clock (conf s)) 0) as [E|E]; simpl.
  - split_and!; [lia..|]. by apply Z.mod_divide; [lia|].
  - pose proof (Z.mod_pos_bound (curTick s) (clock (conf s)) Hc). split_and!; [lia..|]. exists (curTick s / clock (conf s) + 1).
    rewrite (Z.div_mod (curTick s) (clock (conf s))) at 1 by lia. lia.
Qed.
Lemma data_cycles_ok s r resp id k : 0 < width (conf s) -> sendable r resp id k -> exists n, data_cycles s k = Ok n /\ 0 <= n.
Proof.
  intros Hw [Hd _]. unfold data_cycles. destruct (Packet.hasData k); [|by exists 0]. destruct (Hd eq_refl) as (n & -> & Hn). bind_step.
  eexists. split; [done|]. pose proof (Z.quot_pos n (width (conf s)) Hn Hw). destruct (_ =? 0); lia.
Qed.
(** The packet keeps what matters for its way. *)
Lemma sendable_times r resp id k f g : sendable r resp id k -> sendable r resp id (set_times k f g).
Proof. done. Qed.

(** The bus is taken up to [until]. *)
Lemma occupy_ok s until : 0 < until -> curTick s <= until -> occupyBus s until = Ok (upd_arb s (fun a => set_idle a until (Some until))).
Proof.
  intros H0 Hle. unfold occupyBus, reschedule_idle. rewrite (proj2 (Z.eqb_neq until 0)) by lia. simpl. rewrite (proj2 (Z.leb_le _ _)) by done. done.
Qed.

Definition left_after (inR ok : bool) (id : Z) (l : list Z) : list Z := if inR then (if ok then tail l else l) else if ok then l else l ++ [id].

(** A packet that was taken leaves the bus in use, and its port off the list. *)
Lemma taken_ok s id start until : core (conf s) (routing s) (arb s) (trace s) -> granted s id -> tickNextIdle (arb s) = start -> curTick s <= start < until ->
  (clock (conf s) | until) ->
  exists s', finish_transfer s id start until = Ok s' /\
    core (conf s') (routing s') (arb s') (trace s') /\ inRetry (arb s') = false /\ idle_ok (arb s') (curTick s') /\ conf s' = conf s /\ routing s' = routing s /\
    curTick s' = curTick s /\ retryList (arb s') = left_after (inRetry (arb s)) true id (retryList (arb s)) /\ drainEvent (arb s') = drainEvent (arb s) /\
    tickNextIdle (arb s') = until.
Proof.
  intros H Hg Hst Hu Hd. destruct (k_align _ _ _ _ H) as [H0 Hd0]. unfold finish_transfer. rewrite occupy_ok by lia. bind_step. rewrite (proj2 (Z.eqb_neq until 0)) by lia. cbv zeta.
  set (s1 := emit _ _).
  assert (H1 : core (conf s1) (routing s1) (arb s1) (trace s1)).
  { apply (core_use _ _ (arb s) _ (ETransfer id start until) start until); try done; [lia|by rewrite <- Hst|].
    intros p a' b [= <- _ _]. destruct Hg as [[_ ->]|[_ [l ->]]]; auto. }
  destruct Hg as [[Hi Hl]|[Hi [l Hl]]]; simpl; rewrite Hi.
  - exists s1. split_and!; try done; unfold idle_ok; simpl; lia || done.
  - unfold pop_retry. simpl. rewrite Hl. assert (Hf : onRetryList (arb s) !! id = Some true) by (apply (k_flag _ _ _ _ H); rewrite Hl; set_solver).
    rewrite Hf. cbn [deref]. bind_step. eexists. split; [done|]. split; [by apply (core_pop _ _ (arb s1))|]. split_and!; try done; unfold idle_ok; simpl; lia || done.
Qed.
(** A port that was refused waits at the end, or stays at the front. *)
Lemma addToRetryList_ok s id : core (conf s) (routing s) (arb s) (trace s) -> live (routing s) id ->
  (inRetry (arb s) = false /\ ~ id ∈ retryList (arb s)) \/ (inRetry (arb s) = true /\ exists l, retryList (arb s) = id :: l) ->
  exists s', addToRetryList s (Some id) = Ok s' /\ core (conf s') (routing s') (arb s') (trace s') /\ inRetry (arb s') = false /\ conf s' = conf s /\ routing s' = routing s /\
    curTick s' = curTick s /\ retryList (arb s') = left_after (inRetry (arb s)) false id (retryList (arb s)) /\ drainEvent (arb s') = drainEvent (arb s) /\
    tickNextIdle (arb s') = tickNextIdle (arb s) /\ busIdle (arb s') = busIdle (arb s).
Proof.
  intros H Hl Hm. destruct (k_live _ _ _ _ H id Hl) as [on Hon]. unfold addToRetryList. cbn [deref]. bind_step. rewrite Hon. cbn [deref]. bind_step. cbv zeta.
  destruct Hm as [[Hi Hn]|[Hi [l Hr]]]; rewrite Hi; cbn [negb].
  - assert (on = false) as -> by (destruct on; [|done]; by apply (k_flag _ _ _ _ H) in Hon). cbn [negb c_assert]. bind_step.
    eexists. split; [done|]. split; [by apply core_push|]. by split_and!.
  - assert (on = true) as ->. { assert (onRetryList (arb s) !! id = Some true) by (apply (k_flag _ _ _ _ H); rewrite Hr; set_solver). congruence. }
    rewrite Hr. cbn [head]. rewrite bool_decide_eq_true_2 by done. cbn [c_assert]. bind_step. eexists. split; [done|]. split; [by eapply core_ext|]. by split_and!.
Qed.

(** ** Receiving a packet *)
(** No port refuses a packet. *)
Definition all_accept (env : Env) : Prop := forall h p k, (sendTiming env h p k).1 = true.
(** What the sender of a packet finds: it waits if it was refused, and the event that
    frees the bus is pending. *)
Record received (s : t) (id : Z) (ok : bool) (s' : t) : Prop := mkReceived {
  e_core : core (conf s') (routing s') (arb s') (trace s');
  e_retry : inRetry (arb s') = false;
  e_idle : idle_ok (arb s') (curTick s');
  e_conf : conf s' = conf s;
  e_routing : same_routing (routing s) (routing s');
  e_tick : curTick s' = curTick s;
  e_list : retryList (arb s') = left_after (inRetry (arb s)) ok id (retryList (arb s));
  e_drain : drainEvent (arb s') = drainEvent (arb s)
}.

Section receive.
Context (env : Env) (r0 : Routing) (responder : bool) `{!PeerLaws env r0 responder}.

(** The part of [recvTiming] that sends the packet. *)
Lemma bus_send_ok s id k d kk r' evs : (d = id -> kk = Packet.Broadcast) ->
  exists ok k' evs', ((if d =? id then _ ← c_assert (kk =? Packet.Broadcast); Ok (true, k, moved s r' evs)
    else p ← deref (Some d); let '(ok, k') := sendTiming env (trace (moved s r' evs)) p k in Ok (ok, k', emit (moved s r' evs) (ESend p k))) : res (bool * Packet.t * t)) =
    Ok (ok, k', moved s r' (evs ++ evs')) /\ forallb quiet evs' = true /\
    (ok = false -> Packet.isResponse k' = false /\ Packet.memInhibitAsserted k' = false /\ Packet.isExpressSnoop k = false) /\
    (all_accept env -> ok = true).
Proof.
  intros Hd. destruct (Z.eqb_spec d id) as [E|E].
  - rewrite (Hd E). cbn. exists true, k, []. by rewrite app_nil_r.
  - cbn [deref]. bind_step. set (h := trace _). pose proof (l_refuse (env := env) (r0 := r0) h d k) as Href.
    assert (Hacc : all_accept env -> (sendTiming env h d k).1 = true) by auto.
    destruct (sendTiming env h d k) as [ok k']. exists ok, k', [ESend d k]. split_and!; [|done|exact Href|exact Hacc]. unfold moved, emit, h. simpl. by rewrite app_assoc.
Qed.

(** The bus is not free for the sender. *)
Lemma recv_busy s id k : core (conf s) (routing s) (arb s) (trace s) -> live (routing s) id -> busy s (Some id) k = true ->
  (inRetry (arb s) = false /\ (Packet.isExpressSnoop k = false -> ~ id ∈ retryList (arb s)) /\ idle_ok (arb s) (curTick s)) \/
  (inRetry (arb s) = true /\ (exists l, retryList (arb s) = id :: l) /\ tickNextIdle (arb s) <= curTick s /\ Packet.isExpressSnoop k = false) ->
  exists s', addToRetryList s (Some id) = Ok s' /\ received s id false s' /\ inRetry (arb s) = false.
Proof.
  intros H Hl Hb Hm. unfold busy in Hb. apply andb_true_iff in Hb as [Hex%negb_true_iff Hb]. rewrite Z.gtb_ltb in Hb.
  destruct Hm as [(Hi & Hn & Hid)|(Hi & [l Hr] & Ht & Hx)].
  - destruct (addToRetryList_ok s id H Hl) as (s' & E & H' & A1 & A2 & A3 & A4 & A5 & A6 & A7 & A8); [left; auto|].
    exists s'. split; [done|]. split; [|done]. constructor; try done; [|rewrite A3; apply same_routing_refl].
    unfold idle_ok in *. rewrite A8, A7, A4. destruct (busIdle (arb s)); [done|]. destruct Hid as [Hz Hle]. rewrite Hz in Hb.
    rewrite bool_decide_eq_true_2 in Hb by done. simpl in Hb. rewrite orb_false_r in Hb. apply Z.ltb_lt in Hb. lia.
  - rewrite Hr, Hi in Hb. rewrite (proj2 (Z.ltb_ge _ _)) in Hb by lia. simpl in Hb. by rewrite bool_decide_eq_true_2 in Hb by done.
Qed.
(** A sender for which the bus is free has the grant. *)
Lemma not_busy_granted s id k : busy s (Some id) k = false -> Packet.isExpressSnoop k = false ->
  (inRetry (arb s) = true -> exists l, retryList (arb s) = id :: l) -> granted s id /\ tickNextIdle (arb s) <= curTick s.
Proof.
  intros Hb Hx Hr. unfold busy in Hb. rewrite Hx in Hb. cbn [negb andb] in Hb. apply orb_false_iff in Hb as [Ht Hb]. rewrite Z.gtb_ltb in Ht. apply Z.ltb_ge in Ht.
  split; [|done]. unfold granted. destruct (inRetry (arb s)) eqn:Ei; [right; auto|left]. split; [done|].
  apply andb_false_iff in Hb as [Hb|Hb]; [|done]. apply negb_false_iff, bool_decide_eq_true in Hb. done.
Qed.
(** An express snoop leaves the arbiter alone. *)
Lemma transfer_express s id k : core (conf s) (routing s) (arb s) (trace s) -> live (routing s) id -> sendable (routing s) responder id k ->
  responderSet (conf s) = responder -> snoopPorts (routing s) = snoopPorts r0 -> Packet.isExpressSnoop k = true -> inRetry (arb s) = false -> idle_ok (arb s) (curTick s) ->
  exists k' s', transfer env s id (Some id) k = Ok (true, k', s') /\ received s id true s' /\ arb s' = arb s.
Proof.
  intros H Hl Hk Hresp Hsn Ex Hi Hid. unfold transfer. rewrite Ex. bind_step. cbv zeta. rewrite Ex.
  destruct (route_timing_ok env r0 responder s id (Some id) k) as (dest & d & k2 & r2 & evs & -> & Hq & Hr2 & Hs2 & Hx2 & Hd); [by apply (k_routing _ _ _ _ H)|by rewrite Hresp|done|]. bind_step.
  destruct (bus_send_ok s id k2 d dest r2 evs Hd) as (ok & k3 & evs' & -> & Hq' & Href & _). bind_step.
  destruct ok; [|destruct (Href eq_refl) as (_ & _ & Hc); congruence].
  unfold finish_transfer, occupyBus. cbn [Z.eqb]. bind_step. cbv zeta. cbn [arb moved emit]. rewrite Hi. bind_step. eexists _, _. split; [done|].
  split; [|done]. constructor; try done; simpl; [|by unfold left_after; rewrite Hi].
  rewrite <- app_assoc. apply core_quiets; [by eapply core_routing|]. by rewrite !forallb_app, Hq, Hq'.
Qed.

(** The times [calcPacketTiming] gives: the packet starts at the next bus cycle, its header
    ends on a later one and its data not before that. *)
Lemma calcPacketTiming_ok s id k : core (conf s) (routing s) (arb s) (trace s) -> sendable (routing s) responder id k -> tickNextIdle (arb s) <= curTick s ->
  let s2 := upd_arb s (fun a => set_idle a (next_cycle s) (busIdle a)) in
  exists hdr fin, calcPacketTiming s k = Ok (hdr, set_times k fin (hdr + clock (conf s)), s2) /\ core (conf s2) (routing s2) (arb s2) (trace s2) /\
    curTick s <= next_cycle s /\ (clock (conf s) | next_cycle s) /\ next_cycle s < hdr <= fin /\ (clock (conf s) | hdr) /\ (clock (conf s) | fin).
Proof.
  intros H Hk Ht s2. destruct (next_cycle_ok _ _ _ _ s H eq_refl eq_refl Ht) as (Hn1 & Hn2 & Hn3). destruct (k_conf _ _ _ _ H) as (Hc1 & Hc2 & Hc3).
  destruct (data_cycles_ok s2 (routing s) responder id k Hc3 Hk) as (nc & Enc & Hnc). unfold calcPacketTiming. cbv zeta. fold s2. rewrite Enc. bind_step.
  assert (Hpos : 0 < headerCycles (conf s) * clock (conf s)) by (apply Z.mul_pos_pos; done).
  eexists _, _. split; [done|]. split; [by apply core_idle|]. change (tickNextIdle (arb s2)) with (next_cycle s). change (conf s2) with (conf s).
  pose proof (Z.mul_nonneg_nonneg nc (clock (conf s)) Hnc (Z.lt_le_incl _ _ Hc1)).
  split_and!; try done; try lia; repeat (apply Z.divide_add_r; [|by apply Z.divide_factor_r]); done.
Qed.

(** A transfer the bus has granted, taken or refused by the port it goes to. *)
Lemma transfer_granted s id k : core (conf s) (routing s) (arb s) (trace s) -> live (routing s) id -> sendable (routing s) responder id k ->
  responderSet (conf s) = responder -> snoopPorts (routing s) = snoopPorts r0 -> Packet.isExpressSnoop k = false -> granted s id -> tickNextIdle (arb s) <= curTick s ->
  exists ok k' s', transfer env s id (Some id) k = Ok (ok, k', s') /\ received s id ok s' /\ (all_accept env -> ok = true).
Proof.
  intros H Hl Hk Hresp Hsn Ex Hg Ht. unfold transfer. rewrite Ex.
  destruct (calcPacketTiming_ok s id k H Hk Ht) as (hdr & fin & -> & H2 & Hn1 & Hn3 & Hf & Hd1 & Hd2). set (s2 := upd_arb s _) in *. bind_step. cbv zeta.
  set (k2 := set_times k _ _). change (Packet.isExpressSnoop k2) with (Packet.isExpressSnoop k). rewrite Ex. change (Packet.finishTime k2) with fin.
  destruct (route_timing_ok env r0 responder s2 id (Some id) k2) as (dest & d & k3 & r3 & evs & -> & Hq & Hr3 & Hs3 & Hx3 & Hd); [by apply (k_routing _ _ _ _ H)|by simpl; rewrite Hresp|done|]. bind_step.
  destruct (bus_send_ok s2 id k3 d dest r3 evs Hd) as (ok & k4 & evs' & -> & Hq' & Href & Hacc). bind_step.
  set (s3 := moved s2 r3 (evs ++ evs')). assert (H3 : core (conf s3) (routing s3) (arb s3) (trace s3)).
  { apply core_quiets; [by eapply core_routing|]. by rewrite forallb_app, Hq, Hq'. }
  destruct ok.
  - destruct (taken_ok s3 id (tickNextIdle (arb s2)) fin) as (s' & -> & G1 & G2 & G3 & G4 & G5 & G6 & G7 & G8 & G9); [done|done|done|simpl in *; lia|done|].
    bind_step. exists true, k4, s'. split; [done|]. split; [|done]. constructor; try done. by rewrite G5.
  - destruct (Href eq_refl) as (-> & -> & _). cbn [negb c_assert]. do 2 bind_step.
    destruct (addToRetryList_ok s3 id H3) as (s4 & -> & G1 & G2 & G3 & G4 & G5 & G6 & G7 & G8 & G9); [by eapply live_same|by destruct Hg as [[? Hz]|[? Hz]]; [left|right]; simpl in *; rewrite ?Hz; set_solver|].
    destruct (k_align _ _ _ _ H2) as [Hz0 _]. change (tickNextIdle (arb s2)) with (next_cycle s) in *. bind_step. rewrite occupy_ok by (simpl in *; lia). bind_step.
    rewrite (proj2 (Z.eqb_neq hdr 0)) by lia. eexists _, _, _. split; [done|]. split; [|auto].
    constructor; try done; simpl; [|by unfold idle_ok; simpl; rewrite G5; split; [done|simpl; lia]|by rewrite G4].
    eapply (core_use _ _ (arb s4) _ (ERefused id (next_cycle s) hdr) (next_cycle s) hdr); try done; [rewrite G8; change (arb s3) with (arb s2); simpl; lia|by rewrite G3..].
Qed.

Lemma recvTiming_ok s id k : core (conf s) (routing s) (arb s) (trace s) -> live (routing s) id -> sendable (routing s) responder id k ->
  responderSet (conf s) = responder -> snoopPorts (routing s) = snoopPorts r0 ->
  (inRetry (arb s) = false /\ (Packet.isExpressSnoop k = false -> ~ id ∈ retryList (arb s)) /\ idle_ok (arb s) (curTick s)) \/
  (inRetry (arb s) = true /\ (exists l, retryList (arb s) = id :: l) /\ tickNextIdle (arb s) <= curTick s /\ Packet.isExpressSnoop k = false) ->
  exists ok k' s', recvTiming env s id k = Ok (ok, k', s') /\ received s id ok s' /\ (all_accept env -> inRetry (arb s) = true -> ok = true).
Proof.
  intros H Hl Hk Hresp Hsn Hm. unfold recvTiming. rewrite (getSrc_setSrc (routing s)) by (done || apply H). bind_step.
  destruct (cached_port_ok (routing s) id (k_routing _ _ _ _ H) Hl) as (r1 & -> & Hr1 & Hs1). cbv zeta.
  set (s1 := set_routing s r1). assert (H1 : core (conf s1) (routing s1) (arb s1) (trace s1)) by (by eapply core_routing).
  assert (Hl1 : live (routing s1) id) by (by eapply live_same). assert (Hsn1 : snoopPorts (routing s1) = snoopPorts r0) by (by destruct Hs1 as (_ & _ & Esn & _); rewrite <- Hsn).
  assert (Hback : forall ok s', received s1 id ok s' -> received s id ok s') by (intros ok s' [G1 G2 G3 G4 G5 G6 G7 G8]; constructor; try done; by eapply same_routing_trans).
  apply (sendable_setSrc _ _ _ _ id) in Hk. apply (sendable_same _ _ _ _ _ Hs1) in Hk. rewrite <- (express_setSrc k id) in Hm. set (k1 := Packet.setSrc k id) in *.
  destruct (busy s1 (Some id) k1) eqn:Eb; [|destruct (Packet.isExpressSnoop k1) eqn:Ex].
  - destruct (recv_busy s1 id k1 H1 Hl1 Eb Hm) as (s' & -> & Hrec & Hi). bind_step. exists false, k1, s'. split_and!; [done|auto|]. change (arb s1) with (arb s) in Hi. congruence.
  - destruct Hm as [(Hi & Hn & Hid)|(_ & _ & _ & Hc)]; [|done].
    destruct (transfer_express s1 id k1) as (k' & s' & -> & Hrec & _); [done..|]. exists true, k', s'. auto.
  - destruct (not_busy_granted s1 id k1 Eb Ex) as [Hg Ht]; [change (arb s1) with (arb s); intros Hi; destruct Hm as [(Hc & _)|(_ & ? & _)]; [congruence|done]|].
    destruct (transfer_granted s1 id k1) as (ok & k' & s' & -> & Hrec & Hacc); [done..|]. exists ok, k', s'. auto.
Qed.

(** An express snoop of any port, one that waits included, is taken whether the bus is free
    or not; the arbiter is as it was. *)
Lemma recv_express s id k : core (conf s) (routing s) (arb s) (trace s) -> live (routing s) id -> sendable (routing s) responder id k ->
  responderSet (conf s) = responder -> snoopPorts (routing s) = snoopPorts r0 -> Packet.isExpressSnoop k = true -> inRetry (arb s) = false -> idle_ok (arb s) (curTick s) ->
  exists k' s', recvTiming env s id k = Ok (true, k', s') /\ arb s' = arb s.
Proof.
  intros H Hl Hk Hresp Hsn Ex Hi Hid. unfold recvTiming. rewrite (getSrc_setSrc (routing s)) by (done || apply H). bind_step.
  destruct (cached_port_ok (routing s) id (k_routing _ _ _ _ H) Hl) as (r1 & -> & Hr1 & Hs1). cbv zeta. unfold busy. rewrite express_setSrc, Ex. cbn [negb andb].
  destruct (transfer_express (set_routing s r1) id (Packet.setSrc k id)) as (k' & s' & -> & _ & Ha); try done.
  - by eapply core_routing.
  - by eapply live_same.
  - by apply (sendable_same (routing s)), sendable_setSrc.
  - by destruct Hs1 as (_ & _ & Esn & _); rewrite <- Hsn.
  - by rewrite express_setSrc.
  - by exists k', s'.
Qed.

(** ** Retries *)
Lemma catch_up_ok fuel idle now clk : 0 < clk -> now - idle <= Z.of_nat fuel -> exists n, catch_up fuel idle now clk = Ok n /\ idle <= n /\ now <= n /\ forall d, (d | idle) -> (d | clk) -> (d | n).
Proof.
  intros Hc. revert idle. induction fuel as [|fuel IH]; intros idle Hf; simpl; destruct (Z.ltb_spec idle now) as [Hlt|Hge]; try lia.
  - exists idle. split_and!; [done|lia|lia|done].
  - destruct (IH (idle + clk)) as (n & -> & ? & ? & Hd); [lia|]. exists n. split_and!; [done|lia|lia|]. intros d ??. apply Hd; [by apply Z.divide_add_r|done].
  - exists idle. split_and!; [done|lia|lia|done].
Qed.

(** What a retry leaves of the list: the port at the front is off it unless its packet was
    refused. *)
Record retried (s s' : t) : Prop := mkRetried {
  t_core : core (conf s') (routing s') (arb s') (trace s');
  t_retry : inRetry (arb s') = false;
  t_idle : idle_ok (arb s') (curTick s');
  t_conf : conf s' = conf s;
  t_routing : same_routing (routing s) (routing s');
  t_tick : curTick s' = curTick s;
  t_list : retryList (arb s') = retryList (arb s) \/ retryList (arb s') = tail (retryList (arb s));
  t_progress : all_accept env -> tickNextIdle (arb s) <= curTick s -> retryList (arb s') = tail (retryList (arb s))
}.

Lemma pop_retry_ok s p l : core (conf s) (routing s) (arb s) (trace s) -> retryList (arb s) = p :: l ->
  pop_retry s = Ok (emit (upd_arb s (fun a => set_inRetry (set_retry a l (<[p := false]> (onRetryList a))) false)) (EServed p)).
Proof.
  intros H Hl. unfold pop_retry. rewrite Hl. assert (Hf : onRetryList (arb s) !! p = Some true) by (apply (k_flag _ _ _ _ H); rewrite Hl; set_solver).
  by rewrite Hf.
Qed.
Lemma missed_grant_ok s p l : core (conf s) (routing s) (arb s) (trace s) -> retryList (arb s) = p :: l ->
  exists s', missed_grant s = Ok s' /\ core (conf s') (routing s') (arb s') (trace s') /\ inRetry (arb s') = false /\ idle_ok (arb s') (curTick s') /\
    conf s' = conf s /\ routing s' = routing s /\ curTick s' = curTick s /\ retryList (arb s') = l.
Proof.
  intros H Hl. unfold missed_grant. rewrite (pop_retry_ok s p l) by done. bind_step. set (s1 := emit _ _).
  assert (H1 : core (conf s1) (routing s1) (arb s1) (trace s1)) by (by apply core_pop). destruct (k_conf _ _ _ _ H1) as (Hc & _), (k_align _ _ _ _ H1) as (Hz & Hd).
  destruct (catch_up_ok (Z.to_nat (curTick s1 - tickNextIdle (arb s1))) (tickNextIdle (arb s1)) (curTick s1) (clock (conf s1))) as (n & -> & Hn1 & Hn2 & Hn3); [done|lia|].
  bind_step. cbv zeta. unfold reschedule_idle. rewrite (proj2 (Z.leb_le (curTick _) _)) by (change (curTick s1 <= n + clock (conf s1)); lia). cbn [c_assert]. bind_step.
  eexists. split; [done|]. split; [|split_and!; try done; unfold idle_ok; simpl; split; [done|change (curTick s1 <= n + clock (conf s1)); lia]].
  assert (H2 := core_idle _ _ _ _ (n + clock (conf s1)) (Some (n + clock (conf s1))) H1). apply H2; [lia|]. apply Z.divide_add_r; [by apply Hn3; [done|apply Z.divide_refl]|apply Z.divide_refl].
Qed.

(** The port at the front is told to retry. *)
Lemma retry_front s p l : core (conf s) (routing s) (arb s) (trace s) -> retryList (arb s) = p :: l -> tickNextIdle (arb s) <= curTick s -> live (routing s) p ->
  same_routing r0 (routing s) -> responderSet (conf s) = responder ->
  exists s', (s1 ← resend env (emit (upd_arb s (fun a => set_inRetry a true)) (ERetry p)) p (sendRetry env (trace s) p);
              if inRetry (arb s1) then missed_grant s1 else Ok s1) = Ok s' /\ retried s s'.
Proof.
  intros H Hl Ht Hlive Hs Hresp. set (s1 := emit (upd_arb s (fun a => set_inRetry a true)) (ERetry p)).
  assert (H1 : core (conf s1) (routing s1) (arb s1) (trace s1)) by (apply core_quiet; [by eapply core_ext|done]).
  assert (Hlive0 : live r0 p). { destruct Hs as (_ & _ & _ & _ & Ed & Ei). destruct Hlive as [[? Hd]|Hi]; [left; split; [done|congruence]|right; by apply Ei]. }
  destruct (l_retry (env := env) (trace s) p Hlive0) as [->|(k & -> & Hx & Hk)]; cbn [resend].
  - bind_step. change (inRetry (arb s1)) with true. cbv iota. destruct (missed_grant_ok s1 p l H1) as (s' & -> & G1 & G2 & G3 & G4 & G5 & G6 & G7); [done|].
    exists s'. split; [done|]. constructor; try done; [by rewrite G5|right; by rewrite G7, Hl|by rewrite G7, Hl].
  - destruct (recvTiming_ok s1 p k) as (ok & k' & s2 & -> & [G1 G2 G3 G4 G5 G6 G7 G8] & Hacc); [done|done|by eapply sendable_same|done|by destruct Hs as (_ & _ & ? & _)|right; split_and!; try done; by exists l|].
    do 2 bind_step. rewrite G2. exists s2. split; [done|]. change (inRetry (arb s1)) with true in *. change (retryList (arb s1)) with (retryList (arb s)) in *. unfold left_after in G7.
    constructor; try done; [destruct ok; auto|]. intros Ha _. by rewrite (Hacc Ha eq_refl) in G7.
Qed.

(** ** The invariant *)
Record Inv (c0 : Conf) (s : t) : Prop := mkInv {
  i_core : core (conf s) (routing s) (arb s) (trace s);
  i_retry : inRetry (arb s) = false;
  i_idle : idle_ok (arb s) (curTick s);
  i_conf : conf s = c0;
  i_routing : same_routing r0 (routing s);
  i_list : forall p, p ∈ retryList (arb s) -> live r0 p
}.

Lemma live_back r p : same_routing r0 r -> live r p -> live r0 p.
Proof. intros (_ & _ & _ & _ & Ed & Ei) [[? Hd]|Hi]; [left; split; [done|congruence]|right; by apply Ei]. Qed.
Lemma drained_ok c0 s : Inv c0 s -> Inv c0 (emit (upd_arb s (fun a => set_drain a false)) EDrained).
Proof. intros [H1 H2 H3 H4 H5 H6]. constructor; try done. apply core_quiet; [by eapply core_ext|done]. Qed.

(** A retry, by the event or by a port that can take packets again. *)
Lemma bus_recvRetry_ok c0 s : responderSet c0 = responder -> core (conf s) (routing s) (arb s) (trace s) -> inRetry (arb s) = false -> conf s = c0 -> same_routing r0 (routing s) ->
  (forall p, p ∈ retryList (arb s) -> live r0 p) -> idle_ok (arb s) (curTick s) \/ (busIdle (arb s) = None /\ tickNextIdle (arb s) <= curTick s) ->
  exists s', recvRetry env s = Ok s' /\ Inv c0 s' /\ curTick s' = curTick s /\
    (all_accept env -> tickNextIdle (arb s) <= curTick s -> retryList (arb s') = tail (retryList (arb s))).
Proof.
  intros Hresp H Hi Hc Hs Hlst Hid.
  assert (Hgo : forall s1, Inv c0 s1 -> curTick s1 = curTick s -> (all_accept env -> tickNextIdle (arb s) <= curTick s -> retryList (arb s1) = tail (retryList (arb s))) ->
    exists s', Ok (if drainEvent (arb s1) && bool_decide (retryList (arb s1) = []) && (tickNextIdle (arb s1) <=? curTick s1)
                   then emit (upd_arb s1 (fun a => set_drain a false)) EDrained else s1) = Ok s' /\ Inv c0 s' /\ curTick s' = curTick s /\
      (all_accept env -> tickNextIdle (arb s) <= curTick s -> retryList (arb s') = tail (retryList (arb s)))).
  { intros s1 H1 E1 E2. destruct (_ && _); eexists; (split; [done|]); split_and!; try done. by apply drained_ok. }
  unfold recvRetry. destruct (retryList (arb s)) as [|p l] eqn:El.
  - bind_step. apply Hgo; [|done|by rewrite El]. constructor; try done; [|by rewrite El; set_solver].
    destruct Hid as [?|[Hb Ht]]; [done|]. unfold idle_ok. rewrite Hb. done.
  - destruct (Z.leb_spec (tickNextIdle (arb s)) (curTick s)) as [Ht|Ht].
    + assert (Hp : live (routing s) p) by (eapply live_same; [done|]; apply Hlst; set_solver).
      destruct (retry_front s p l H El Ht Hp Hs) as (s' & E & [T1 T2 T3 T4 T5 T6 T7 T8]); [by rewrite Hc|].
      cbv zeta. change (trace (upd_arb s (fun a => set_inRetry a true))) with (trace s). rewrite E. bind_step. rewrite El in *. apply Hgo; [|done|auto].
      constructor; try done; [by rewrite T4|by eapply same_routing_trans|]. intros q Hq. apply Hlst. simpl in T7. destruct T7 as [T7|T7]; rewrite T7 in Hq; set_solver.
    + bind_step. apply Hgo; [|done|lia]. constructor; try done; [|by rewrite El]. destruct Hid as [?|[_ ?]]; [done|lia].
Qed.
End receive.

(** ** Runs *)
Inductive Op := Send (id : Z) (k : Packet.t) | FreeEvent | PeerRetry | Advance (n : Z) | Drain.
Definition step (env : Env) (s : t) (op : Op) : res t :=
  match op with
  | Send id k => r ← recvTiming env s id k; Ok r.2
  | FreeEvent => process_idle env s
  | PeerRetry => recvRetry env s
  | Advance n => Ok (set_tick s n)
  | Drain => Ok (drain s).2
  end.
Fixpoint run (env : Env) (s : t) (ops : list Op) : res t := match ops with [] => Ok s | op :: ops => s ← step env s op; run env s ops end.

Definition live_b (r : Routing) (id : Z) : bool := ((id =? defaultId) && bool_decide (defaultPort r = Some defaultId)) || bool_decide (interfaces r !! id = Some (Some id)).
Definition sendable_b (r : Routing) (responder : bool) (id : Z) (k : Packet.t) : bool :=
  (if Packet.hasData k then match Packet.getSize k with Ok n => 0 <=? n | Er _ => false end else true) &&
  match Packet.getDest k with
  | Ok d =>
      if d =? Packet.Broadcast then
        match Packet.getAddr k with
        | Ok a => (0 <=? a) && (a <? 2 ^ 64) && match route r responder a with Ok d' => live_b r d' | Er _ => false end
        | Er _ => false
        end
      else (d <? maxId r) && negb (d =? id) && live_b r d
  | Er _ => false
  end.
(** What the peers and the simulator do: a live port sends a packet that can go somewhere,
    and if it waits only an express snoop; the event is serviced at its time. *)
Definition legal (s : t) (op : Op) : bool :=
  match op with
  | Send id k => live_b (routing s) id && (Packet.isExpressSnoop k || negb (bool_decide (id ∈ retryList (arb s)))) && sendable_b (routing s) (responderSet (conf s)) id k
  | FreeEvent => bool_decide (busIdle (arb s) = Some (curTick s))
  | PeerRetry | Drain => true
  | Advance n => (curTick s <=? n) && match busIdle (arb s) with Some w => n <=? w | None => true end
  end.
Fixpoint legal_run (env : Env) (s : t) (ops : list Op) : bool :=
  match ops with [] => true | op :: ops => legal s op && match step env s op with Ok s' => legal_run env s' ops | Er _ => true end end.

Lemma live_b_ok r id : live_b r id = true -> live r id.
Proof. intros [[->%Z.eqb_eq ?%bool_decide_eq_true]%andb_true_iff|?%bool_decide_eq_true]%orb_true_iff; [by left|by right]. Qed.
Lemma sendable_b_ok r resp id k : sendable_b r resp id k = true -> sendable r resp id k.
Proof.
  unfold sendable_b, sendable. intros [Hd H]%andb_true_iff. split.
  - intros Eh. rewrite Eh in Hd. destruct (Packet.getSize k) as [n|]; [|done]. apply Z.leb_le in Hd. by exists n.
  - destruct (Packet.getDest k) as [d|]; [|done]. exists d. split; [done|]. destruct (d =? Packet.Broadcast).
    + destruct (Packet.getAddr k) as [a|]; [|done]. apply andb_true_iff in H as [[H1%Z.leb_le H2%Z.ltb_lt]%andb_true_iff H3].
      destruct (route r resp a) as [d'|] eqn:Er; [|done]. exists a, d'. split; [done|]. split; [done|]. split; [done|by apply live_b_ok].
    + apply andb_true_iff in H as [[H1%Z.ltb_lt H2%negb_true_iff]%andb_true_iff H3]. apply Z.eqb_neq in H2. split; [done|]. split; [done|by apply live_b_ok].
Qed.

Section run.
Context (env : Env) (r0 : Routing) (c0 : Conf) `{!PeerLaws env r0 (responderSet c0)}.

Lemma bus_step_ok s op : Inv r0 c0 s -> legal s op = true -> exists s', step env s op = Ok s' /\ Inv r0 c0 s'.
Proof.
  intros [H1 H2 H3 H4 H5 H6] Hl. destruct op as [id k| | |n|]; simpl in *.
  - apply andb_true_iff in Hl as [[Hv%live_b_ok Hn]%andb_true_iff Hk%sendable_b_ok]. rewrite H4 in Hk.
    assert (Hn' : Packet.isExpressSnoop k = false -> ~ id ∈ retryList (arb s)) by (intros Ex; rewrite Ex in Hn; by apply negb_true_iff, bool_decide_eq_false in Hn).
    destruct (recvTiming_ok env r0 (responderSet c0) s id k) as (ok & k' & s' & -> & [G1 G2 G3 G4 G5 G6 G7 G8] & _); try done; [by rewrite H4|by destruct H5 as (_ & _ & ? & _)|by left|].
    bind_step. exists s'. split; [done|]. constructor; try done; [by rewrite G4|by eapply same_routing_trans|].
    intros p. rewrite G7, H2. unfold left_after. destruct ok; [auto|]. rewrite elem_of_app, list_elem_of_singleton. intros [?| ->]; [auto|]. by eapply live_back.
  - apply bool_decide_eq_true in Hl. unfold idle_ok in H3. rewrite Hl in H3. destruct H3 as [H3 _].
    destruct (bus_recvRetry_ok env r0 (responderSet c0) c0 (upd_arb s (fun a => set_idle a (tickNextIdle a) None))) as (s' & E & HI & _); try done; [|right; simpl; split; [done|lia]|eauto].
    by eapply core_ext.
  - destruct (bus_recvRetry_ok env r0 (responderSet c0) c0 s) as (s' & E & HI & _); try done; [by left|eauto].
  - apply andb_true_iff in Hl as [Hn%Z.leb_le Hw]. eexists. split; [done|]. constructor; try done. unfold idle_ok in *. simpl.
    destruct (busIdle (arb s)) as [w|]; [apply Z.leb_le in Hw; destruct H3; split; [done|lia]|destruct H3; split; [done|lia]].
  - eexists. split; [done|]. unfold drain. destruct (_ || _); [|by constructor]. constructor; try done. by eapply core_ext.
Qed.
Lemma bus_run_ok ops : forall s, Inv r0 c0 s -> legal_run env s ops = true -> exists s', run env s ops = Ok s' /\ Inv r0 c0 s'.
Proof.
  induction ops as [|op ops IH]; intros s H Hl; [by exists s|]. simpl in *. apply andb_true_iff in Hl as [Hl Hr].
  destruct (bus_step_ok s op H Hl) as (s' & E & H'). rewrite E in *. bind_step. by apply IH.
Qed.

(** What a packet meets that is sent between the events. *)
Lemma bus_send_cases s id k : Inv r0 c0 s -> legal s (Send id k) = true -> exists ok k' s', recvTiming env s id k = Ok (ok, k', s') /\
  if Packet.isExpressSnoop k then ok = true /\ arb s' = arb s
  else if (ok : bool) then retryList (arb s) = [] else retryList (arb s') = retryList (arb s) ++ [id].
Proof.
  intros [H1 H2 H3 H4 H5 H6] Hl. simpl in Hl. apply andb_true_iff in Hl as [[Hv%live_b_ok Hn]%andb_true_iff Hk%sendable_b_ok]. rewrite H4 in Hk.
  assert (Hsn : snoopPorts (routing s) = snoopPorts r0) by (by destruct H5 as (_ & _ & ? & _)). destruct (Packet.isExpressSnoop k) eqn:Ex.
  - destruct (recv_express env r0 (responderSet c0) s id k) as (k' & s' & E & Ha); try done; [by rewrite H4|]. by exists true, k', s'.
  - apply negb_true_iff, bool_decide_eq_false in Hn.
    destruct (recvTiming_ok env r0 (responderSet c0) s id k) as (ok & k' & s' & E & [G1 G2 G3 G4 G5 G6 G7 G8] & _); try done; [by rewrite H4|by left|].
    exists ok, k', s'. split; [done|]. destruct ok; [|by rewrite G7, H2]. destruct (decide (retryList (arb s) = [])) as [|Hne]; [done|].
    unfold recvTiming in E. rewrite (getSrc_setSrc (routing s)) in E by (done || apply H1). cbn [mbind res_bind] in E.
    destruct (cached_port (routing s) id) as [p r]. cbv zeta in E. unfold busy in E. cbn [arb set_routing] in E.
    rewrite express_setSrc, Ex, H2, (bool_decide_eq_false_2 _ Hne), orb_true_r in E. cbn [negb andb] in E. apply res_bind_Ok in E as (? & _ & ?). done.
Qed.
End run.

(** ** Setting the bus up *)
Inductive Setup := SPort (if_name : string) | SStatus (id : Z).
Definition setup_step (env : Env) (s : t) (op : Setup) : res t :=
  match op with SPort n => r ← getPort s n; Ok r.2 | SStatus id => recvStatusChange env s id end.
Fixpoint setup_run (env : Env) (s : t) (ops : list Setup) : res t := match ops with [] => Ok s | op :: ops => s ← setup_step env s op; setup_run env s ops end.

(** The ranges are not empty and meet neither each other nor those of the map. *)
Definition apart_b (x y : Range.t) : bool := (Range.end_ x <? Range.start y) || (Range.end_ y <? Range.start x).
Fixpoint ranges_ok (m : RangeMap.t) (l : list Range.t) : bool :=
  match l with
  | [] => true
  | x :: l' => (0 <=? Range.start x) && (Range.start x <=? Range.end_ x) && (Range.end_ x <? 2 ^ 64) && forallb (fun e => apart_b e.1 x) m && forallb (apart_b x) l' && ranges_ok m l'
  end.
Definition setup_legal (env : Env) (s : t) (op : Setup) : bool :=
  let r := routing s in
  match op with
  | SPort n => if bool_decide (n = "default"%string) then bool_decide (defaultPort r = None) else maxId r <? 2 ^ 15 - 2
  | SStatus id =>
      if id =? defaultId then negb (responderSet (conf s)) || (bool_decide (defaultPort r = Some defaultId) && negb (getPeerAddressRanges env (trace s) defaultId).2)
      else bool_decide (interfaces r !! id = Some (Some id)) && (id <? maxId r) &&
           ranges_ok (List.filter (fun e => negb (e.2 =? id)) (portMap r)) (getPeerAddressRanges env (trace s) id).1
  end.
Fixpoint setup_legal_run (env : Env) (s : t) (ops : list Setup) : bool :=
  match ops with [] => true | op :: ops => setup_legal env s op && match setup_step env s op with Ok s' => setup_legal_run env s' ops | Er _ => true end end.

(** A bus that has not been used. *)
Record ready (c : Conf) (s : t) : Prop := mkReady {
  y_conf : conf s = c /\ 0 < clock c /\ 0 < headerCycles c /\ 0 < width c;
  y_routing : routing_ok (routing s);
  y_ids : 0 <= maxId (routing s) < 2 ^ 15;
  y_nonnull : forall i o, interfaces (routing s) !! i = Some o -> o = Some i;
  y_recv : inRecvStatusChange (routing s) = ∅;
  y_arb : tickNextIdle (arb s) = 0 /\ busIdle (arb s) = None /\ inRetry (arb s) = false /\ retryList (arb s) = [];
  y_flag : forall p, onRetryList (arb s) !! p <> Some true;
  y_live : forall p, live (routing s) p -> is_Some (onRetryList (arb s) !! p);
  y_tick : 0 <= curTick s;
  y_trace : forallb quiet (trace s) = true
}.

Lemma ready_inv c s : ready c s -> Inv (routing s) c s.
Proof.
  intros [[Hc (C1 & C2 & C3)] Hr _ _ _ (A1 & A2 & A3 & A4) Hf Hl Ht Hq]. rewrite <- Hc in *.
  assert (Hx : core (conf s) (routing s) (arb s) []).
  { constructor; try done; rewrite ?A1, ?A4; simpl; try by constructor.
    - intros p. split; [intros Hp; by apply Hf in Hp|set_solver].
    - split; [done|apply Z.divide_0_r].
    - intros h1 p a b h2 E. by destruct h1. }
  constructor; try done; [by apply (core_quiets _ _ _ [])|unfold idle_ok; rewrite A2, A1; done|by rewrite A4; set_solver].
Qed.

Lemma new_ready c gp gb tick s : 0 <= tick -> new c gp gb tick = Ok s -> ready c s.
Proof.
  intros Ht E. unfold new in E. destruct (Z.leb_spec (width c) 0), (Z.leb_spec (clock c) 0), (Z.leb_spec (headerCycles c) 0); try done. injection E as <-.
  destruct gp as [[p0 p1] p2], gb as [[b0 b1] b2]. unfold clearPortCache, clearBusCache. constructor; simpl; try done.
  - constructor; simpl; try done; [apply disjoint_empty|by repeat constructor|by repeat constructor|by left].
  - by intros p [[_ ?]|?].
Qed.

(** The routing with a new interface. *)
Lemma add_interface_routing r r' : routing_ok r -> 0 <= maxId r < 2 ^ 15 -> portMap r' = portMap r -> portCache r' = portCache r -> busCache r' = busCache r ->
  interfaces r' = <[maxId r := Some (maxId r)]> (interfaces r) -> defaultPort r' = defaultPort r -> routing_ok r'.
Proof.
  intros [R1 R2 R3 R4 R5 R6] Hid E1 E2 E3 E4 E6. constructor; rewrite ?E1, ?E2, ?E3, ?E6; try done.
  - destruct (busCache r) as [[c0 c1] c2]. rewrite Forall_forall in *. intros x Hx Hvx p Hp. specialize (R4 x Hx Hvx p Hp). rewrite E4.
    destruct (decide (b_id x = maxId r)) as [Ex|Hne]; [|by rewrite lookup_insert_ne]. destruct (R5 _ _ R4) as [-> _]. by rewrite Ex, lookup_insert_eq.
  - intros i p. rewrite E4. destruct (decide (i = maxId r)) as [->|Hne]; [rewrite lookup_insert_eq; intros [= <-]; done|rewrite lookup_insert_ne by done; apply R5].
Qed.
Lemma add_interface_ready c s r' : ready c s -> maxId (routing s) < 2 ^ 15 - 2 ->
  portMap r' = portMap (routing s) -> portCache r' = portCache (routing s) -> busCache r' = busCache (routing s) ->
  interfaces r' = <[maxId (routing s) := Some (maxId (routing s))]> (interfaces (routing s)) -> maxId r' = maxId (routing s) + 1 ->
  defaultPort r' = defaultPort (routing s) -> inRecvStatusChange r' = inRecvStatusChange (routing s) -> ready c (add_port (set_routing s r') (maxId (routing s))).
Proof.
  intros [Hc Hr Hi Hn Hv Ha Hf Hl Ht Hq] Hid E1 E2 E3 E4 E5 E6 E7. set (r := routing s) in *. set (id := maxId r) in *.
  assert (Hentry : forall i o, interfaces r' !! i = Some o -> (i = id /\ o = Some id) \/ (i <> id /\ interfaces r !! i = Some o)).
  { intros i o. rewrite E4. destruct (decide (i = id)) as [->|Hne]; [rewrite lookup_insert_eq; left; naive_solver|rewrite lookup_insert_ne by done; auto]. }
  constructor; simpl; rewrite ?E1, ?E5, ?E7; try done.
  - apply (add_interface_routing (routing s)); done || lia.
  - lia.
  - intros i o [[-> ->]|[_ ?]]%Hentry; [done|by apply Hn].
  - intros p. destruct (decide (p = id)) as [->|Hne]; [by rewrite lookup_insert_eq|by rewrite lookup_insert_ne].
  - intros p Hp. destruct (decide (p = id)) as [->|Hne]; [rewrite lookup_insert_eq; eauto|]. rewrite lookup_insert_ne by done. apply Hl.
    destruct Hp as [[-> Hd]|[[? _]|[_ ?]]%Hentry]; [left; by rewrite <- E6|done|by right].
Qed.
Lemma getPort_ready env c s n : ready c s -> setup_legal env s (SPort n) = true -> exists id s', getPort s n = Ok (id, s') /\ ready c s'.
Proof.
  intros H Hlg. pose proof H as [Hc [R1 R2 R3 R4 R5 R6] Hi Hn Hv Ha Hf Hl Ht Hq]. unfold getPort. simpl in Hlg. destruct (bool_decide (n = "default"%string)).
  - apply bool_decide_eq_true in Hlg. rewrite Hlg. eexists _, _. split; [done|]. constructor; simpl; try done.
    + constructor; simpl; try done. by right.
    + intros p. destruct (decide (p = defaultId)) as [->|Hne]; [by rewrite lookup_insert_eq|by rewrite lookup_insert_ne].
    + intros p [[-> _]|Hp]; [rewrite lookup_insert_eq; eauto|]. destruct (decide (p = defaultId)) as [->|Hne]; [rewrite lookup_insert_eq; eauto|].
      rewrite lookup_insert_ne by done. apply Hl. by right.
  - apply Z.ltb_lt in Hlg. assert (Hw : sint 16 (maxId (routing s) + 1) = maxId (routing s) + 1) by (apply sint_small; lia). rewrite Hw.
    destruct (bool_decide (n = "functional"%string)).
    + destruct (funcPort (routing s)) as [p|]; [by eexists _, s|]. eexists _, _. split; [done|]. by apply add_interface_ready.
    + rewrite (proj2 (Z.ltb_lt _ _)) by lia. cbn [c_assert]. bind_step. eexists _, _. split; [done|]. by apply add_interface_ready.
Qed.

(** ** Address ranges *)
Lemma ranges_ok_more m m1 x id l : (forall e, e ∈ m1 <-> e = (x, id) \/ e ∈ m) -> ranges_ok m l = true -> forallb (apart_b x) l = true -> ranges_ok m1 l = true.
Proof.
  intros Hm. induction l as [|y l IH]; [done|]. cbn [ranges_ok forallb]. intros H [Hx Hxl]%andb_true_iff.
  apply andb_true_iff in H as [H Hr]. apply andb_true_iff in H as [H Hyl]. apply andb_true_iff in H as [H Hma].
  rewrite H, Hyl, (IH Hr Hxl), !andb_true_r. cbn [andb]. apply forallb_forall. intros e He%list_elem_of_In. apply Hm in He as [->|He]; [done|].
  rewrite forallb_forall in Hma. by apply Hma, list_elem_of_In.
Qed.
Lemma insert_ranges_ok id l : forall m, disjoint_map m -> ranges_ok m l = true ->
  exists m', insert_ranges m l id = Ok m' /\ disjoint_map m' /\ forall e, e ∈ m' <-> e ∈ m \/ (e.2 = id /\ e.1 ∈ l).
Proof.
  induction l as [|x l IH]; intros m Hm Hl; cbn [insert_ranges].
  - exists m. split_and!; [done|done|set_solver].
  - cbn [ranges_ok] in Hl. apply andb_true_iff in Hl as [Hl Hr]. apply andb_true_iff in Hl as [Hl Hxl]. apply andb_true_iff in Hl as [Hl Hma].
    apply andb_true_iff in Hl as [[?%Z.leb_le ?%Z.leb_le]%andb_true_iff ?%Z.ltb_lt]. rewrite forallb_forall in Hma.
    destruct (insert_new m x id) as (m1 & -> & Hm1 & He1); [done| |lia|lia|].
    { intros e He. assert (Ha : apart_b e.1 x = true) by (by apply (Hma e), list_elem_of_In).
      unfold apart_b in Ha. apply orb_true_iff in Ha as [?%Z.ltb_lt|?%Z.ltb_lt]; [by left|by right]. }
    destruct (IH m1) as (m' & -> & Hm' & He'); [done|by eapply ranges_ok_more|]. exists m'. split_and!; [done|done|]. intros e. rewrite He', He1. destruct e as [y z]. simpl. rewrite elem_of_cons. naive_solver.
Qed.

Lemma notify_ok f l : forall s, (forall i o, (i, o) ∈ l -> o = Some i) -> exists evs, notify s f l = Ok (moved s (routing s) evs) /\ forallb quiet evs = true.
Proof.
  induction l as [|[i o] l IH]; intros s Hl; cbn [notify].
  - exists []. split; [|done]. unfold moved. rewrite app_nil_r. by destruct s.
  - rewrite (Hl i o) by set_solver. destruct (f i).
    + cbn [deref]. do 2 bind_step. destruct (IH (emit s (EStatus i))) as (evs & -> & Hq); [set_solver|]. exists (EStatus i :: evs). split; [|done].
      unfold moved. simpl. by rewrite <- app_assoc.
    + bind_step. apply IH. set_solver.
Qed.
(** A bus whose routing changes, and that tells its ports. *)
Lemma ready_moved c s r' evs : ready c s -> routing_ok r' -> interfaces r' = interfaces (routing s) -> maxId r' = maxId (routing s) ->
  defaultPort r' = defaultPort (routing s) -> inRecvStatusChange r' = ∅ -> forallb quiet evs = true -> ready c (moved s r' evs).
Proof.
  intros [Hc Hr Hi Hn Hv Ha Hf Hl Ht Hq] Hr' E1 E2 E3 E4 Hq'. constructor; simpl; rewrite ?E1, ?E2; try done; [|by rewrite forallb_app, Hq].
  intros p Hp. apply Hl. unfold live in *. by rewrite E1, E3 in Hp.
Qed.
Lemma clear_routing_ok r x : routing_ok r -> routing_ok (clearPortCache (set_inRecv r x)).
Proof.
  intros [R1 R2 R3 R4 R5 R6]. unfold clearPortCache. simpl. destruct (portCache r) as [[c0 c1] c2]. constructor; simpl; try done. by repeat constructor.
Qed.
Lemma set_map_ok r m d sn : routing_ok r -> (let '(c0, c1, c2) := portCache r in p_valid c0 = false /\ p_valid c1 = false /\ p_valid c2 = false) ->
  disjoint_map m -> Forall (fun e => 0 <= e.2 < 2 ^ 15) m -> routing_ok (set_map r m d sn).
Proof.
  intros [R1 R2 R3 R4 R5 R6] Hv Hm Hi. constructor; simpl; try done. destruct (portCache r) as [[c0 c1] c2]. destruct Hv as (V0 & V1 & V2).
  repeat constructor; intros Hc; congruence.
Qed.

(** The new ranges of a port are in the map under its id. *)
Lemma port_ranges_ok env s id : routing_ok (routing s) -> (let '(c0, c1, c2) := portCache (routing s) in p_valid c0 = false /\ p_valid c1 = false /\ p_valid c2 = false) ->
  interfaces (routing s) !! id = Some (Some id) -> id < maxId (routing s) < 2 ^ 15 ->
  ranges_ok (List.filter (fun e => negb (e.2 =? id)) (portMap (routing s))) (getPeerAddressRanges env (trace s) id).1 = true ->
  exists m sn, port_ranges env s id = Ok (set_routing s (set_map (routing s) m (defaultRange (routing s)) sn)) /\ routing_ok (set_map (routing s) m (defaultRange (routing s)) sn) /\
    forall e, e ∈ m <-> (e ∈ portMap (routing s) /\ e.2 <> id) \/ (e.2 = id /\ e.1 ∈ (getPeerAddressRanges env (trace s) id).1).
Proof.
  intros Hr Hv Hi Hid Hrg. destruct (r_self _ Hr id id Hi) as [_ H0]. unfold port_ranges.
  rewrite (proj2 (Z.ltb_lt _ _)), Z.geb_leb, (proj2 (Z.leb_le _ _)) by lia. cbn [andb c_assert]. bind_step. unfold interface. rewrite Hi. cbn [deref]. bind_step.
  destruct (getPeerAddressRanges env (trace s) id) as [ranges snoops]. simpl in Hrg.
  destruct (insert_ranges_ok id ranges _ (disjoint_filter _ _ (r_map _ Hr)) Hrg) as (m & -> & Hm & He). bind_step.
  assert (He' : forall e, e ∈ m <-> (e ∈ portMap (routing s) /\ e.2 <> id) \/ (e.2 = id /\ e.1 ∈ ranges)).
  { intros e. rewrite He, (list_elem_of_In (List.filter _ _)), List.filter_In, <- list_elem_of_In, negb_true_iff, Z.eqb_neq. done. }
  eexists m, _. split; [done|]. split; [|done]. apply set_map_ok; try done. apply Forall_forall. intros e [[Hin _]|[-> _]]%He'; [|lia].
  pose proof (r_ids _ Hr) as Hids. rewrite Forall_forall in Hids. by apply Hids.
Qed.
Lemma default_ranges_ok env s : routing_ok (routing s) -> (let '(c0, c1, c2) := portCache (routing s) in p_valid c0 = false /\ p_valid c1 = false /\ p_valid c2 = false) ->
  negb (responderSet (conf s)) || (bool_decide (defaultPort (routing s) = Some defaultId) && negb (getPeerAddressRanges env (trace s) defaultId).2) = true ->
  exists d, default_ranges env s = Ok (set_routing s (set_map (routing s) (portMap (routing s)) d (snoopPorts (routing s)))) /\
    d = (if responderSet (conf s) then (getPeerAddressRanges env (trace s) defaultId).1 else []) /\ routing_ok (set_map (routing s) (portMap (routing s)) d (snoopPorts (routing s))).
Proof.
  intros Hr Hv Hl. unfold default_ranges. destruct (responderSet (conf s)).
  - apply andb_true_iff in Hl as [Hd%bool_decide_eq_true Hsn]. rewrite Hd. cbn [deref]. bind_step.
    destruct (getPeerAddressRanges env (trace s) defaultId) as [ranges snoops]. simpl in Hsn. rewrite Hsn. cbn [c_assert]. bind_step.
    eexists. split; [done|]. split; [done|]. by apply set_map_ok; try apply Hr.
  - eexists. split; [done|]. split; [done|]. by apply set_map_ok; try apply Hr.
Qed.

Lemma recvStatusChange_ready env c s id : ready c s -> setup_legal env s (SStatus id) = true -> exists s', recvStatusChange env s id = Ok s' /\ ready c s' /\
  (id <> defaultId -> forall e, e ∈ portMap (routing s') <-> (e ∈ portMap (routing s) /\ e.2 <> id) \/ (e.2 = id /\ e.1 ∈ (getPeerAddressRanges env (trace s) id).1)).
Proof.
  intros H Hlg. pose proof H as [Hc Hr Hi Hn Hv Ha Hf Hl Ht Hq]. unfold recvStatusChange. rewrite Hv, bool_decide_eq_false_2 by set_solver. cbv zeta.
  set (r1 := clearPortCache (set_inRecv (routing s) ({[id]} ∪ ∅))). set (s1 := set_routing s r1).
  assert (Hr1 : routing_ok (routing s1)) by (by apply clear_routing_ok).
  assert (Hv1 : let '(c0, c1, c2) := portCache (routing s1) in p_valid c0 = false /\ p_valid c1 = false /\ p_valid c2 = false)
    by (simpl; unfold r1, clearPortCache; simpl; by destruct (portCache (routing s)) as [[c0 c1] c2]).
  assert (F : portMap r1 = portMap (routing s) /\ defaultRange r1 = defaultRange (routing s) /\ snoopPorts r1 = snoopPorts (routing s) /\ interfaces r1 = interfaces (routing s) /\
    maxId r1 = maxId (routing s) /\ defaultPort r1 = defaultPort (routing s) /\ inRecvStatusChange r1 = {[id]} ∪ ∅)
    by (unfold r1, clearPortCache; simpl; by destruct (portCache (routing s)) as [[c0 c1] c2]). destruct F as (F1 & F2 & F3 & F4 & F5 & F6 & F7).
  assert (Hgo : forall m d sn, routing_ok (set_map r1 m d sn) -> (id <> defaultId -> forall e, e ∈ m <-> (e ∈ portMap (routing s) /\ e.2 <> id) \/ (e.2 = id /\ e.1 ∈ (getPeerAddressRanges env (trace s) id).1)) ->
    exists s', (s2 ← notify (set_routing s1 (set_map r1 m d sn)) (fun i => negb (i =? id) && negb (i =? funcPortId (set_map r1 m d sn))) (map_to_list (interfaces (set_map r1 m d sn)));
                s2 ← (match defaultPort (set_map r1 m d sn) with Some d => if id =? defaultId then Ok s2 else Ok (emit s2 (EStatus d)) | None => Ok s2 end);
                Ok (upd_routing s2 (fun r => set_inRecv r (inRecvStatusChange r ∖ {[id]})))) = Ok s' /\ ready c s' /\
      (id <> defaultId -> forall e, e ∈ portMap (routing s') <-> (e ∈ portMap (routing s) /\ e.2 <> id) \/ (e.2 = id /\ e.1 ∈ (getPeerAddressRanges env (trace s) id).1))).
  { intros m d sn Hm Hport. edestruct (notify_ok (fun i => negb (i =? id) && negb (i =? funcPortId (set_map r1 m d sn))) (map_to_list (interfaces (set_map r1 m d sn)))
      (set_routing s1 (set_map r1 m d sn))) as (evs & -> & Hqe); [intros i o Hin%elem_of_map_to_list; simpl in Hin; rewrite F4 in Hin; by apply Hn|]. bind_step.
    set (r2 := set_map r1 m d sn) in *. set (r3 := set_inRecv r2 (inRecvStatusChange r2 ∖ {[id]})).
    assert (Hr3 : routing_ok r3) by (destruct Hm; by constructor).
    assert (Hrd : forall evs, forallb quiet evs = true -> ready c (moved s r3 evs)).
    { intros evs' He. apply ready_moved; try done. simpl. rewrite F7. set_solver. }
    destruct (defaultPort r2) as [dp|]; [destruct (id =? defaultId)|]; bind_step; eexists; (split; [done|]); (split; [|exact Hport]).
    - apply (Hrd evs Hqe).
    - unfold upd_routing, emit, moved. simpl. rewrite <- app_assoc. apply (Hrd (evs ++ [EStatus dp])). by rewrite forallb_app, Hqe.
    - apply (Hrd evs Hqe). }
  simpl in Hlg. destruct (Z.eqb_spec id defaultId) as [->|Hne].
  - destruct (default_ranges_ok env s1 Hr1 Hv1) as (d & -> & _ & Hd); [simpl; by rewrite F6|]. bind_step. cbn [routing set_routing]. apply Hgo; [done|]. done.
  - apply andb_true_iff in Hlg as [[Hin%bool_decide_eq_true Hlt%Z.ltb_lt]%andb_true_iff Hrg].
    destruct (port_ranges_ok env s1 id Hr1 Hv1) as (m & sn & -> & Hm & He); [simpl; by rewrite F4|simpl; rewrite F5; lia|simpl; by rewrite F1|].
    bind_step. cbn [routing set_routing]. apply Hgo; [done|]. intros _. simpl in He. by rewrite F1 in He.
Qed.
Lemma setup_ready env c ops : forall s, ready c s -> setup_legal_run env s ops = true -> exists s', setup_run env s ops = Ok s' /\ ready c s'.
Proof.
  induction ops as [|op ops IH]; intros s H Hl; [by exists s|]. cbn [setup_legal_run setup_run] in *. apply andb_true_iff in Hl as [Hl Hr].
  assert (Hs : exists s1, setup_step env s op = Ok s1 /\ ready c s1).
  { destruct op as [n|id]; cbn [setup_step].
    - destruct (getPort_ready env c s n H Hl) as (i & s1 & -> & H1). bind_step. by exists s1.
    - destruct (recvStatusChange_ready env c s id H Hl) as (s1 & E & H1 & _). by exists s1. }
  destruct Hs as (s1 & E & H1). rewrite E in *. bind_step. by apply IH.
Qed.

(** ** Changes of the routing *)

(** The map, the default ranges and the ids are as they were, and the caches are right if
    they were. *)
Definition unmoved (r r' : Routing) : Prop :=
  portMap r' = portMap r /\ defaultRange r' = defaultRange r /\ inRecvStatusChange r' = inRecvStatusChange r /\ maxId r' = maxId r /\ (routing_ok r -> routing_ok r').
Definition kept (s s' : t) : Prop := conf s' = conf s /\ unmoved (routing s) (routing s').
#[export] Instance unmoved_preorder : PreOrder unmoved.
Proof. split; [by intros r|]. intros r1 r2 r3 (A1 & A2 & A3 & A4 & A5) (B1 & B2 & B3 & B4 & B5). split_and!; [congruence..|auto]. Qed.
#[export] Instance kept_preorder : PreOrder kept.
Proof. split; [by intros s; split|]. intros s1 s2 s3 [A1 A2] [B1 B2]. split; [congruence|by etrans]. Qed.








(** ** Theorems *)
Section bus.
Context (env : Env) (c : Conf) (gp : PortCache * PortCache * PortCache) (gb : BusCache * BusCache * BusCache) (tick : Z) (s0 s : t) (setup : list Setup) (ops : list Op).
Context (Htick : 0 <= tick) (Hnew : new c gp gb tick = Ok s0).
Context (Hsetup : setup_legal_run env s0 setup = true) (Hs : setup_run env s0 setup = Ok s).
Context `{!PeerLaws env (routing s) (responderSet c)} (Hlegal : legal_run env s ops = true).

Lemma bus_reachable : exists s', run env s ops = Ok s' /\ Inv (routing s) c s'.
Proof.
  destruct (setup_ready env c setup s0) as (s1 & E & H); [by eapply new_ready|done|]. rewrite Hs in E. injection E as <-.
  apply (bus_run_ok env (routing s) c ops s); [by apply ready_inv|done].
Qed.

(** Whatever the ports of a bus send, and whatever their peers refuse within the protocol,
    no assertion fails; a port is on the retry list at most once and its flag says so; and
    while a port waits or the bus is in use, the event that frees it is scheduled for the
    time at which it becomes idle. *)
Theorem bus_runs : exists s', run env s ops = Ok s' /\ NoDup (retryList (arb s')) /\
  (forall p, onRetryList (arb s') !! p = Some true <-> p ∈ retryList (arb s')) /\
  (retryList (arb s') <> [] \/ curTick s' < tickNextIdle (arb s') -> busIdle (arb s') = Some (tickNextIdle (arb s'))).
Proof.
  destruct bus_reachable as (s' & E & [H1 H2 H3 H4 H5 H6]). exists s'. split; [done|]. split; [apply H1|]. split; [apply H1|].
  intros Hb. unfold idle_ok in H3. destruct (busIdle (arb s')) as [w|]; [by destruct H3 as [-> _]|]. destruct H3, Hb; [done|lia].
Qed.

(** C19. The bus is used by one packet at a time: the uses, by packets taken or refused, follow
    one another without overlap, each begins and ends with a clock cycle and takes at least
    one, and the last one is over when the bus is idle. *)
Theorem bus_exclusive : exists s', run env s ops = Ok s' /\ StronglySorted (fun u v => u.2 <= v.1) (uses (trace s')) /\
  forall u, u ∈ uses (trace s') -> u.1 < u.2 <= tickNextIdle (arb s') /\ (clock c | u.1) /\ (clock c | u.2).
Proof.
  destruct bus_reachable as (s' & E & [H1 H2 H3 H4 H5 H6]). exists s'. split; [done|]. split; [apply H1|].
  rewrite <- H4. apply Forall_forall, H1.
Qed.

(** C20. Ports are served in the order in which they were refused. A packet that is no
    express snoop is taken only if no port waits, or its port waits first; otherwise the
    port goes to the end of those that wait. An express snoop is taken at once, whoever
    waits and whether the bus is in use or not, and leaves the arbiter as it was. *)
Theorem bus_first_come_first_served : exists s', run env s ops = Ok s' /\ waits (trace s') = served (trace s') ++ retryList (arb s') /\ no_overtaking (trace s') /\
  forall id k, legal s' (Send id k) = true -> exists ok k' s'', recvTiming env s' id k = Ok (ok, k', s'') /\
    if Packet.isExpressSnoop k then ok = true /\ arb s'' = arb s'
    else if (ok : bool) then retryList (arb s') = [] else retryList (arb s'') = retryList (arb s') ++ [id].
Proof.
  destruct bus_reachable as (s' & E & H). exists s'. split; [done|]. pose proof (i_core _ _ _ H) as H1. split; [apply H1|]. split; [apply H1|].
  intros id k Hl. by apply (bus_send_cases env (routing s) c).
Qed.


End bus.


(** ** Examples *)
(** Port 1 is a memory at 0..4095, ports 0, 2 and 3 are masters; everything is taken, and a
    port that is told to retry sends a write. *)
Definition demo_conf : Conf := mkConf 10 1 8 false 64.
Definition demo_ports : PortCache * PortCache * PortCache := let c := mkPortCache true 7 0 99 in (c, c, c).
Definition demo_cache : BusCache * BusCache * BusCache := let c := mkBusCache true 7 (Some 9) in (c, c, c).
Definition demo_bus_packet (c : MemCmd.Command) (a : Z) : Packet.t :=
  Packet.mk 0xf00 c (Request.mk a 8 0 3 0 0 0 0 0 0 0) None a 12 0 (-1) MemCmd.InvalidCmd 0 0 0 None.
Definition demo_peers : Env := mkEnv (fun _ _ k => (true, k)) (fun _ _ => [demo_bus_packet MemCmd.WriteReq 0x200]) (fun _ _ k => (0, k)) (fun _ _ k => k)
  (fun _ p => (if p =? 1 then [Range.RangeSize 0 0x1000] else [], false)) (fun _ => 64).
Definition demo_setup : list Setup := [SPort ""; SPort ""; SPort ""; SPort ""; SPort "default"; SStatus 0; SStatus 1; SStatus 2].
Definition demo_new : t := match new demo_conf demo_ports demo_cache 0 with Ok s => s | Er _ => mk demo_conf (mkRouting [] [] [] demo_ports demo_cache ∅ 0 None None 0 0 false ∅) (mkArbiter 0 None false false [] ∅) 0 [] end.
Definition demo_bus : t := match setup_run demo_peers demo_new demo_setup with Ok s => s | Er _ => demo_new end.
Definition demo_bus_ops : list Op := [Send 0 (demo_bus_packet MemCmd.ReadReq 0x100); Send 2 (demo_bus_packet MemCmd.WriteReq 0x200); Send 3 (demo_bus_packet MemCmd.ReadReq 0x5000); Advance 10; FreeEvent].

Lemma demo_laws : PeerLaws demo_peers (routing demo_bus) (responderSet demo_conf).
Proof.
  constructor; try done. intros h p _. right. eexists. split; [reflexivity|]. split; [reflexivity|]. apply sendable_b_ok. vm_compute. reflexivity.
Qed.
Lemma bus_runs_witness : exists s', run demo_peers demo_bus demo_bus_ops = Ok s' /\ NoDup (retryList (arb s')) /\
  (forall p, onRetryList (arb s') !! p = Some true <-> p ∈ retryList (arb s')) /\
  (retryList (arb s') <> [] \/ curTick s' < tickNextIdle (arb s') -> busIdle (arb s') = Some (tickNextIdle (arb s'))).
Proof.
  apply (bus_runs demo_peers demo_conf demo_ports demo_cache 0 demo_new demo_bus demo_setup demo_bus_ops);
    [lia|reflexivity|vm_compute; reflexivity|vm_compute; reflexivity|apply demo_laws|vm_compute; reflexivity].
Defined.
Lemma bus_exclusive_witness : exists s', run demo_peers demo_bus demo_bus_ops = Ok s' /\ StronglySorted (fun u v => u.2 <= v.1) (uses (trace s')) /\
  forall u, u ∈ uses (trace s') -> u.1 < u.2 <= tickNextIdle (arb s') /\ (clock demo_conf | u.1) /\ (clock demo_conf | u.2).
Proof.
  apply (bus_exclusive demo_peers demo_conf demo_ports demo_cache 0 demo_new demo_bus demo_setup demo_bus_ops);
    [lia|reflexivity|vm_compute; reflexivity|vm_compute; reflexivity|apply demo_laws|vm_compute; reflexivity].
Defined.
Lemma bus_first_come_first_served_witness : exists s', run demo_peers demo_bus demo_bus_ops = Ok s' /\
  waits (trace s') = served (trace s') ++ retryList (arb s') /\ no_overtaking (trace s') /\
  forall id k, legal s' (Send id k) = true -> exists ok k' s'', recvTiming demo_peers s' id k = Ok (ok, k', s'') /\
    if Packet.isExpressSnoop k then ok = true /\ arb s'' = arb s'
    else if (ok : bool) then retryList (arb s') = [] else retryList (arb s'') = retryList (arb s') ++ [id].
Proof.
  apply (bus_first_come_first_served demo_peers demo_conf demo_ports demo_cache 0 demo_new demo_bus demo_setup demo_bus_ops);
    [lia|reflexivity|vm_compute; reflexivity|vm_compute; reflexivity|apply demo_laws|vm_compute; reflexivity].
Defined.

(** The read takes a cycle for its header; the write, 12 bytes over 8, takes three. *)
Example bus_demo : match run demo_peers demo_bus demo_bus_ops with Ok s => (uses (trace s), waits (trace s), served (trace s), retryList (arb s)) | Er _ => ([], [], [], []) end =
  ([(0, 10); (10, 40)], [2; 3], [2], [3]).
Proof. vm_compute. reflexivity. Qed.

(** ** Where the bus fails *)
(** [startup] makes a bus that is restored between two cycles busy up to the next one, but
    schedules no event: a port that sends before that waits, and no event will serve it. *)
Theorem startup_strands_port : exists k' s', recvTiming demo_peers (startup (set_tick demo_bus 15)) 0 (demo_bus_packet MemCmd.ReadReq 0x100) = Ok (false, k', s') /\
  retryList (arb s') = [0] /\ busIdle (arb s') = None /\
  exists k'' s'', recvTiming demo_peers (set_tick s' 100) 2 (demo_bus_packet MemCmd.ReadReq 0x100) = Ok (false, k'', s'') /\ retryList (arb s'') = [0; 2] /\ busIdle (arb s'') = None.
Proof.
  eexists _, _. split; [vm_compute; reflexivity|]. split; [reflexivity|]. split; [reflexivity|].
  eexists _, _. split; [vm_compute; reflexivity|]. by split.
Qed.
(** [deletePortRefs] leaves the ranges of the port in the map: the next packet for them
    goes through a null pointer. *)
Theorem deleted_port_still_routed : exists s', deletePortRefs demo_bus (Some 1) = Ok s' /\
  recvTiming demo_peers s' 0 (demo_bus_packet MemCmd.ReadReq 0x100) = Er BadPointer.
Proof. eexists. split; [vm_compute; reflexivity|]. vm_compute. reflexivity. Qed.
(** The cache of [findPort] misses the last address of a range. *)
Theorem port_cache_misses_last : exists s1 s2, findPort demo_bus 0xfff = Ok (1, s1) /\ checkPortCache (routing s1) 0xfff = -1 /\
  checkPortCache (routing s1) 0xffe = 1 /\ findPort s1 0xfff = Ok (1, s2).
Proof. eexists _, _. split; [vm_compute; reflexivity|]. by split_and!; vm_compute. Qed.

(** Ports 2 and 3 snoop; port 2 is another bus, on which the packet has another source. *)
Definition demo_snoopers : Env := mkEnv (fun _ _ k => (true, k)) (fun _ _ => []) (fun _ p k => if p =? 2 then (0, Packet.setSrc k 3) else (0, k))
  (fun _ p k => if p =? 2 then Packet.setSrc k 3 else k) (fun _ p => (if p =? 1 then [Range.RangeSize 0 0x1000] else [], (p =? 2) || (p =? 3))) (fun _ => 64).
Definition demo_snoop_bus : t := match setup_run demo_snoopers demo_new (demo_setup ++ [SStatus 3]) with Ok s => s | Er _ => demo_new end.
Definition sent_to (h : list Ev) : list Z := omap (fun e => match e with ESend p _ => Some p | _ => None end) h.
(** [recvFunctional] restores the source after each snoop, [recvAtomic] does not: it does
    not ask port 3. *)
Theorem atomic_skips_snooper :
  match recvAtomic demo_snoopers demo_snoop_bus 0 (demo_bus_packet MemCmd.ReadReq 0x100) with Ok r => sent_to (trace r.2) | Er _ => [] end = [2; 1] /\
  match recvFunctional demo_snoopers demo_snoop_bus 0 (demo_bus_packet MemCmd.ReadReq 0x100) with Ok r => sent_to (trace r.2) | Er _ => [] end = [2; 3; 1].
Proof. split; vm_compute; reflexivity. Qed.
